(* ===== verification/_CoqProject ===== *)
-Q . S2P
Prelude.v
Heap.v
MemoryArena.v
Common.v
Util.v
TensorClone.v
GraphInfo.v
MemoryPlanner.v
ArenaPlanner.v
ArenaPlan.v
ArenaPlace.v
ArenaInstance.v
SimplePlanner.v
SimplePlannerProof.v
PlannerEquiv.v
Partition.v
PartitionProof.v
OpResolver.v
Callbacks.v
Subgraph.v
SubgraphRun.v
SubgraphDelegate.v
OptionStructs.v
SubgraphInline.v
SubgraphWf.v
SubgraphInlineWf.v
SubgraphSteps.v
SubgraphWorld.v
SubgraphInvoke.v
SubgraphOrder.v
SubgraphProgress.v
SubgraphRedo.v
SubgraphPlace.v
StdMap.v
MetadataUtil.v
OptionTables.v
ModelSchema.v
ModelLoading.v
ModelLoadingProof.v
SubgraphAccess.v
OptionParser.v
OptionParserProof.v
Interpreter.v
InterpreterBuilder.v
ModelExample.v
SubgraphUndo.v
InterpreterWf.v
InterpreterProof.v
BuilderProof.v
SubgraphInlineProof.v
CApi.v
CApiSignature.v
Runtime.v
Shape.v
KernelLayout.v
KernelTranspose.v
KernelBroadcast.v
BroadcastReduce.v
KernelBroadcastProof.v
KernelQuantized.v
KernelQuantizedProof.v
KernelDepthwise.v
KernelPool.v
KernelPoolProof.v
KernelOps.v
KernelOpsProof.v
StringBuffer.v
WindowsRunner.v
FfiPlugin.v
EndToEnd.v
