(* ===== verification/Prelude.v ===== *)
(** * The on-device inference stack of aurora_practice_project

    The application is a Flutter program that classifies a recording on the device.  Its own
    native code is the plugin [src/plugins/ffi_plugin], which loads a model and runs it through
    the C API of the TensorFlow Lite runtime whose sources are kept under
    [src/tflite_c/include/tensorflow], and the runner that opens its window
    ([src/windows/runner]).  This development models the plugin, the runtime that its calls go
    through, from the C API down to the heap, and the window.  File names below are under
    [src/tflite_c/include/tensorflow/lite] unless they start with [src/] or with [mlir/], which
    stands for [src/tflite_c/include/tensorflow/compiler/mlir/lite].

    ** Parts and how they interact

    Foundations.
    - [Prelude]: machine integers, the monad [M S] of calls on a state [S] that return a value
      ([Done]), fail with a status ([Fail]) or are undefined behaviour ([Undef]), its loops, its
      three program logics ([spec]: defined and correct; [leaves]: an invariant wherever the call
      stops; [respects]: moves along a preorder, with the tactic [walk]), and lists indexed by [Z].
    - [Heap]: malloc, aligned_alloc, realloc, free, memcpy on a heap of live blocks.  Where a block
      is placed is the parameter [Malloc], with [MallocOk] what the C standard promises.
    - [StdMap]: [std::map] with string keys.

    Tensors and memory.
    - [Common], [Util], [TensorClone], [GraphInfo]: tensors, nodes and registrations
      (core/c/common.{h,cc}), sizes and hashes (util.cc), cloning, the graph a planner sees
      (graph_info.h).
    - [MemoryArena] (simple_memory_arena.cc): offsets for allocations with lifetimes in one buffer.
    - [MemoryPlanner] (memory_planner.h): the interface of planners and the frame they respect.
      [ArenaPlanner] (arena_planner.cc), with its theorems in [ArenaPlan] (lifetimes and sharing),
      [ArenaPlace] (addresses) and [ArenaInstance] (it implements the interface).
      [SimplePlanner] (simple_planner.cc), with [SimplePlannerProof]; [PlannerEquiv] relates both.

    The graph.
    - [Partition] (graph_info.cc), with [PartitionProof]: cutting a graph for a delegate.
    - [OpResolver] (mutable_op_resolver.cc, core/api/op_resolver.cc, core/c/c_api.cc).
    - [Callbacks] (c/common_internal.cc): kernels and delegates, known by the address of a function;
      what they do is a parameter, and [SubgraphWf.CallbacksOk] what the context lets them do.
    - [Subgraph], [SubgraphRun], [SubgraphDelegate], [SubgraphAccess], [SubgraphInline]
      (core/subgraph.cc): the graph of a model, its construction, preparation, execution and
      delegation, what kernels may ask of it, and the inlining of composite operators, on a planner
      and on callbacks; the other subgraphs that composites name are the class [Decompositions].
      Their theorems are in [SubgraphWf], [SubgraphInlineWf] and [SubgraphSteps] (the interface as a
      whole), [SubgraphWorld] (what a subgraph leaves alone), [SubgraphInvoke], [SubgraphOrder],
      [SubgraphProgress], [SubgraphRedo], [SubgraphUndo], [SubgraphPlace] and
      [SubgraphInlineProof].

    Models.
    - [ModelSchema] and [OptionTables] (mlir/schema/schema_generated.h): the tables of a model, as
      records, and their translation to the runtime's data.
    - [ModelLoading] (mlir/mmap_allocation.cc, mlir/allocation.cc, mlir/core/model_builder_base.cc,
      core/subgraph.cc): files, descriptors, mappings and buffers behind a model; theorems in
      [ModelLoadingProof].  The operating system is the class [Posix], the library that reads
      tables the class [Flatbuffers], each with its laws ([PosixOk], [FlatbuffersOk]).
    - [OptionStructs] (mlir/core/c/builtin_op_data.h) and [OptionParser]
      (core/api/flatbuffer_conversions.cc): the options of builtin operators as structs in memory,
      and their parser; theorems in [OptionParserProof].
    - [MetadataUtil] (mlir/experimental/remat/metadata_util.cc): control edges in the metadata.
    - [Interpreter] (core/interpreter.{h,cc}, interpreter_experimental.cc, signature_runner.cc): all
      the subgraphs of a model, with theorems in [InterpreterWf] and [InterpreterProof].
      A subgraph reaches its siblings only through its callbacks and the classes [Siblings] and
      [Decompositions], within the laws of [SubgraphWorld.WorldOk].
    - [InterpreterBuilder] (core/interpreter_builder.cc): from tables to an interpreter, with
      [BuilderProof]; [ModelExample] is the model that witnesses run.

    Kernels ([kernels/internal]), on buffers of elements; the graph reaches them only through
    [Callbacks], as [KernelOps] does for two operators.
    - [Shape] (runtime_shape.{h,cc}): shapes, offsets, loops that store each element once.
    - [KernelLayout] (reference/space_to_depth.h, depth_to_space.h, transpose.h), with
      [KernelTranspose]: elements moved as they are.
    - [KernelBroadcast] (common.h, reference/add.h, mul.h, ../kernel_util.cc): operators on tensors of
      different shapes, with [BroadcastReduce] (the compression of dimensions) and
      [KernelBroadcastProof].
    - [KernelQuantized] (common.cc, reference/integer_ops/conv.h, depthwise_conv.h,
      fully_connected.h): layers on [int8_t] with 32-bit accumulators, and the scaling in fixed
      point, by either rounding that the build can choose; the two functions of gemmlowp that one of
      them calls are the class [Gemmlowp], with the laws [GemmlowpOk].  Theorems in
      [KernelQuantizedProof] and [KernelDepthwise].
    - [KernelPool] (../padding.h, reference/integer_ops/pooling.h): the arithmetic of padding and
      pooling, with [KernelPoolProof].
    - [KernelOps] (../depth_to_space.cc, ../space_to_depth.cc, ../kernel_util.{h,cc}): the two
      operators on blocks as the graph calls them, by their registrations: [Prepare] and [Eval] on
      the tensors, options and memory of a node.  [KernelOpsProof] shows that the heap simulates the
      kernels on lists and that the functions are [CallbacksOk], so that the theorems about subgraphs
      hold with them, and runs a graph of both.

    Clients.
    - [CApi] and [CApiSignature] (core/c/c_api.cc) over an interface of the C++ runtime, which
      [Runtime] implements by the loader, the builder and the interpreter.
    - [StringBuffer] (string_util.cc): string tensors.
    - [FfiPlugin] (src/plugins/ffi_plugin/src/ffi_plugin.cpp) on the C API, for any runtime behind it;
      [EndToEnd] is the plugin on the runtime of [Runtime].
    - [WindowsRunner] (src/windows/runner): the window, the recursion of its procedure through the
      system, and the message loop; the Win32 API and the engine are parameters.

    State and operations correspond by name: the fields of a C++ object are the fields of a
    Record, a function is a Definition of its name, returning early where the code does;
    a pointer to an object of the model is its index or address, 0 where it is null; a
    [TF_LITE_ENSURE] is [ensure]; a status that the code drops is dropped by [status_call].  An
    access out of bounds, or through a dangling pointer, is [Undef], and is proved absent or
    stated as a finding, never given a value.

    ** What the theorems show

    - Memory: arena tensors alive together never overlap, for the arena alone
      ([MemoryArena.reachable_arena_no_overlap]), for the planner on
      a whole graph ([ArenaPlace.planned_tensors_never_overlap]) and for [AllocateTensors]
      ([SubgraphPlace.AllocateTensors_places_disjoint]); lifetimes cover every use
      ([ArenaPlan.PlanAllocations_lifetimes]); the simple planner owns exactly its blocks
      ([SimplePlannerProof.simple_planner_never_leaks]) and plans the same lifetimes
      ([PlannerEquiv.planners_agree]); clones are independent
      ([TensorClone.TfLiteTensorClone_independent]).
    - Execution: the indices the graph keeps stay valid under every sequence of operations, those of
      the intermediates of nodes apart, which the code does not check
      ([SubgraphSteps.indices_stay_valid]); no kernel is invoked before it is prepared, also with
      dynamic tensors ([SubgraphOrder.prepared_before_invoked]), and an invocation that succeeds
      invoked every kernel ([SubgraphProgress.every_node_is_invoked]); [Invoke] on a static graph is
      its kernels in order, with the options at their defaults
      ([SubgraphInvoke.Invoke_runs_the_plan]).
    - Delegation: the partitioner terminates on every graph without cyclic dependencies and returns
      an executable, complete, homogeneous partition ([PartitionProof.partition_correct]) that
      keeps the order of side effects; the recursion that restores delegation ends
      ([SubgraphRedo.RedoAllDelegates_terminates]), and delegation can be undone, without the hint of
      full delegation, Dequantize nodes and inlining ([SubgraphUndo.delegation_is_reversible]).
    - Composites: [ReplaceNodeWithSubgraph] puts copies of the nodes of a decomposition, on clones of
      its tensors, in the place of a composite, and leaves the rest of the graph
      ([SubgraphInlineProof.ReplaceNodeWithSubgraph_spec]).
    - Models: a file is loaded exactly where it is accepted, and keeps one descriptor and one
      mapping ([ModelLoadingProof.VerifyAndBuildFromFile_spec]); what becomes of each operator of the table
      is stated, also of those that are dropped ([BuilderProof.ParseNodes_builds]); the parser of
      options is safe, but for three operators whose options it does not test, accepts exactly what is
      stated and stores what it read ([OptionParserProof]); control edges survive the metadata
      ([MetadataUtil.control_dependencies_roundtrip], [InterpreterProof.SetMetadata_control_edges]);
      an interpreter that was built stays valid under every use
      ([InterpreterWf.built_interpreter_stays_valid]).
    - The application: [run_inference] returns the first position of the greatest output
      ([FfiPlugin.run_inference_argmax]), no object leaks ([FfiPlugin.plugin_objects_never_leak]),
      on the modelled runtime [run_inference] is the kernels of a ready graph and the class of their
      output ([EndToEnd.plugin_runs_the_model]), and the window is torn down by whatever messages
      arrive, within stated bounds ([WindowsRunner.wWinMain_life]).
    - Kernels: a quantized convolution is the sum over the image extended by zeros, scaled to within
      a unit ([KernelQuantizedProof.ConvPerChannel_spec]); depthwise and pointwise convolutions are
      special cases of it ([KernelDepthwise.depthwise_is_grouped], [pointwise_convolution]); pooling
      with the padding that is computed for it has an element in every window
      ([KernelPoolProof.pooling_spec]); broadcasting over compressed dimensions is the element-wise
      operation over the indices of the output ([KernelBroadcastProof.BroadcastAdd6DSlow_spec]);
      transposition permutes indices ([KernelTranspose.Transpose_permutes]); blocks of pixels go to
      channels and come back ([KernelLayout.space_depth_inverse]), also in the memory of the tensors
      of a graph ([KernelOpsProof.space_depth_operators]).  Each includes that no access is
      out of range and nothing overflows, within bounds it states.
    - Data: sizes and overflow ([Util.BytesRequired_exact]), string tensors read back as written
      ([StringBuffer.string_tensor_roundtrip]).
    - Defects of the code that the models exhibit are theorems too, among them: an in-place
      operator that overwrites a live input, a delegate invoked unprepared, an options parser that
      stores past its struct, an inlined node that reads a tensor its composite omits, and an
      identifier read behind the end of a short buffer.

    ** Bounds and fuel

    Integers are [Z] with the wrap-around of [size_t] and [int] written where the code computes
    ([size_wrap], [int32_wrap]); theorems state the bounds under which none happens.  Fuel is used
    where recursion is not structural, and is enough: [ResolveTensorAllocation] (a buffer is
    shared through one owner: two levels); the passes and epochs of the partitioner (the number of
    nodes, [partition_correct]); [RedoAllDelegates] (two levels, [RedoAllDelegates_terminates]);
    the chunks of a serialized number (five hold 32 bits, [control_dependencies_roundtrip]);
    [InlineCompositeNodes] (as many rounds as there are subgraphs, since composites are nested no
    deeper unless they contain themselves, where the code's loop does not end; and a pass visits the
    plan it found once); [TransposeImpl] (as deep as there are dimensions,
    [Transpose_permutes]); and the window procedure, which the system calls from within itself at
    most two deep ([wWinMain_life] proves it defined).

    ** Not modelled

    - The other kernels ([kernels/]) and the delegates ([delegates/]): the runtime reaches them only
      through function pointers, which are parameters here.  Their arithmetic is floating point or
      vectorised, or calls libraries that the repository does not have.
    - The encoding of flatbuffers and their verifier, generated code and a library: tables are
      records, and what the library promises is [FlatbuffersOk].
    - Asynchronous execution ([core/async/]), profilers, telemetry, error reports and their texts.
    - The compiler ([src/tflite_c/include/tensorflow/compiler], apart from the files above,
      [core], [cc]): headers and tools the application does not link.
    - The start-up code of the Linux and Aurora runners, which the Flutter tools generate, and the
      user interface, which is Dart. *)
From stdpp Require Export base list gmap sorting.
From Stdlib Require Export ZArith Lia.
#[global] Open Scope Z_scope.

(** ** Machine integers *)

(** [size_t], [int32_t] and [int] of the 64-bit targets the plugin is built for. *)
Definition SIZE_MAX : Z := 2 ^ 64 - 1.
Definition INT32_MAX : Z := 2 ^ 31 - 1.
Definition INT32_MIN : Z := - 2 ^ 31.
Definition size_wrap (z : Z) : Z := z mod 2 ^ 64.
Definition int32_wrap (z : Z) : Z := (z + 2 ^ 31) mod 2 ^ 32 - 2 ^ 31.

Lemma size_wrap_small z : 0 <= z <= SIZE_MAX -> size_wrap z = z.
Proof. unfold size_wrap, SIZE_MAX. intros. apply Z.mod_small. lia. Qed.

Lemma size_wrap_range z : 0 <= size_wrap z <= SIZE_MAX.
Proof. unfold size_wrap, SIZE_MAX. pose proof (Z.mod_pos_bound z (2 ^ 64)). lia. Qed.

Lemma int32_wrap_small z : INT32_MIN <= z <= INT32_MAX -> int32_wrap z = z.
Proof.
  unfold int32_wrap, INT32_MIN, INT32_MAX. intros.
  rewrite Z.mod_small; lia.
Qed.

Lemma int32_wrap_range z : INT32_MIN <= int32_wrap z <= INT32_MAX.
Proof.
  unfold int32_wrap, INT32_MIN, INT32_MAX.
  pose proof (Z.mod_pos_bound (z + 2 ^ 31) (2 ^ 32)). lia.
Qed.

(** ** Status codes and the state-and-status monad *)

(** [TfLiteStatus] (core/c/c_api_types.h). *)
Inductive TfLiteStatus :=
  | kTfLiteOk
  | kTfLiteError
  | kTfLiteDelegateError
  | kTfLiteApplicationError
  | kTfLiteDelegateDataNotFound
  | kTfLiteDelegateDataWriteError
  | kTfLiteDelegateDataReadError
  | kTfLiteUnresolvedOps
  | kTfLiteCancelled
  | kTfLiteOutputShapeNotKnown.

#[global] Instance TfLiteStatus_eq_dec : EqDecision TfLiteStatus.
Proof. solve_decision. Defined.

(** What a call does: it returns a value, it returns early with a status (the
    early [return] of the [TF_LITE_ENSURE] macros), or its behaviour is undefined
    (an access out of the bounds of a vector, a null dereference, a second
    [free]).  The state reached is kept in every case, as C++ keeps it. *)
Inductive outcome (A : Type) :=
  | Done (a : A)
  | Fail (s : TfLiteStatus)
  | Undef.
Arguments Done {A} a.
Arguments Fail {A} s.
Arguments Undef {A}.

Definition M (S A : Type) : Type := S -> outcome A * S.

Section Monad.
Context {S : Type}.

Definition ret {A} (a : A) : M S A := fun s => (Done a, s).

Definition bind {A B} (c : M S A) (k : A -> M S B) : M S B := fun s =>
  match c s with
  | (Done a, s') => k a s'
  | (Fail e, s') => (Fail e, s')
  | (Undef, s') => (Undef, s')
  end.

Definition fail {A} (e : TfLiteStatus) : M S A := fun s => (Fail e, s).
Definition undef {A} : M S A := fun s => (Undef, s).
Definition get : M S S := fun s => (Done s, s).
Definition put (s : S) : M S unit := fun _ => (Done tt, s).
Definition modify (f : S -> S) : M S unit := fun s => (Done tt, f s).

(** [TF_LITE_ENSURE(context, b)]. *)
Definition ensure (b : bool) : M S unit := if b then ret tt else fail kTfLiteError.

(** An access whose failure is undefined behaviour in C++. *)
Definition access {A} (o : option A) : M S A :=
  match o with Some a => ret a | None => undef end.

(** A call that keeps no state of its own. *)
Definition lift {A} (o : outcome A) : M S A := fun s => (o, s).

(** A range-based [for] loop; the body may return early. *)
Fixpoint for_each {A} (l : list A) (body : A -> M S unit) : M S unit :=
  match l with
  | [] => ret tt
  | x :: l' => bind (body x) (fun _ => for_each l' body)
  end.

(** A loop that also updates a local variable. *)
Fixpoint for_fold {A B} (l : list A) (b : B) (body : B -> A -> M S B) : M S B :=
  match l with
  | [] => ret b
  | x :: l' => bind (body b x) (fun b' => for_fold l' b' body)
  end.

(** Running the first call of a sequence. *)
Lemma bind_done {A B} (c : M S A) (k : A -> M S B) s a s' :
  c s = (Done a, s') -> bind c k s = k a s'.
Proof. intros Hc. unfold bind. by rewrite Hc. Qed.

Lemma bind_fail {A B} (c : M S A) (k : A -> M S B) s e s' :
  c s = (Fail e, s') -> bind c k s = (Fail e, s').
Proof. intros Hc. unfold bind. by rewrite Hc. Qed.

Lemma bind_undef {A B} (c : M S A) (k : A -> M S B) s s' :
  c s = (Undef, s') -> bind c k s = (Undef, s').
Proof. intros Hc. unfold bind. by rewrite Hc. Qed.

(** A sequence that returned went through its first call. *)
Lemma bind_inv {A B} (c : M S A) (k : A -> M S B) s b s' : bind c k s = (Done b, s') ->
  exists a s1, c s = (Done a, s1) /\ k a s1 = (Done b, s').
Proof. unfold bind. destruct (c s) as [[a|e|] s1]; [eauto|done..]. Qed.

Lemma bind_ret {A B} (a : A) (k : A -> M S B) s : bind (ret a) k s = k a s.
Proof. done. Qed.

Lemma bind_get {B} (k : S -> M S B) s : bind get k s = k s s.
Proof. done. Qed.

Lemma bind_access {A B} (o : option A) a (k : A -> M S B) s :
  o = Some a -> bind (access o) k s = k a s.
Proof. by intros ->. Qed.

Lemma bind_assoc {A B C} (c : M S A) (f : A -> M S B) (k : B -> M S C) s :
  bind (bind c f) k s = bind c (fun a => bind (f a) k) s.
Proof. unfold bind. by destruct (c s) as [[a|e|] s']. Qed.

Lemma for_fold_cons {A B} (x : A) l (b : B) (body : B -> A -> M S B) :
  for_fold (x :: l) b body = bind (body b x) (fun b' => for_fold l b' body).
Proof. done. Qed.

Lemma for_each_cons {A} (x : A) l (body : A -> M S unit) :
  for_each (x :: l) body = bind (body x) (fun _ => for_each l body).
Proof. done. Qed.
End Monad.

(** Run a call on a part of the state. *)
Definition zoom {S T A} (proj : S -> T) (upd : T -> S -> S) (c : M T A) : M S A := fun s =>
  let '(r, t) := c (proj s) in (r, upd t s).

(** The [TfLiteStatus] a C++ caller sees. *)
Definition status_of {S A} (r : outcome A * S) : option TfLiteStatus :=
  match fst r with Done _ => Some kTfLiteOk | Fail e => Some e | Undef => None end.

(** A call whose status the caller keeps. *)
Definition status_call {S A} (c : M S A) : M S TfLiteStatus := fun s =>
  match c s with
  | (Done _, s') => (Done kTfLiteOk, s')
  | (Fail e, s') => (Done e, s')
  | (Undef, s') => (Undef, s')
  end.

Declare Scope tfl_scope.
Delimit Scope tfl_scope with tfl.
Notation "'let*' x := c 'in' k" := (bind c (fun x => k))
  (at level 10, x name, c at level 100, k at level 200) : tfl_scope.
Notation "c ;;; k" := (bind c (fun _ => k))
  (at level 100, k at level 200, right associativity) : tfl_scope.
#[global] Open Scope tfl_scope.

(** ** Hoare triples for [M] *)

(** From a state satisfying [P] the call is defined; it returns a value related
    to the final state by [Q], or leaves early in a state satisfying [E]. *)
Definition spec {S A} (P : S -> Prop) (c : M S A) (Q : A -> S -> Prop)
    (E : TfLiteStatus -> S -> Prop) : Prop :=
  forall s, P s ->
    match c s with
    | (Done a, s') => Q a s'
    | (Fail e, s') => E e s'
    | (Undef, _) => False
    end.

(** The exit condition of a call that never fails. *)
Definition never {S} : TfLiteStatus -> S -> Prop := fun _ _ => False.

Section Spec.
Context {S : Type}.
Implicit Types (P : S -> Prop) (E : TfLiteStatus -> S -> Prop).

Lemma spec_ret {A} P (a : A) (Q : A -> S -> Prop) E :
  (forall s, P s -> Q a s) -> spec P (ret a) Q E.
Proof. intros H s Hs. by apply H. Qed.

Lemma spec_bind {A B} P (c : M S A) (k : A -> M S B) (R : A -> S -> Prop) Q E :
  spec P c R E -> (forall a, spec (R a) (k a) Q E) -> spec P (bind c k) Q E.
Proof.
  intros Hc Hk s Hs. unfold bind. specialize (Hc s Hs).
  destruct (c s) as [[a|e|] s']; [|done..]. by apply Hk.
Qed.

Lemma spec_conseq {A} P P' (c : M S A) (Q Q' : A -> S -> Prop) E E' :
  spec P c Q E -> (forall s, P' s -> P s) -> (forall a s, Q a s -> Q' a s) ->
  (forall e s, E e s -> E' e s) -> spec P' c Q' E'.
Proof.
  intros Hc HP HQ HE s Hs. specialize (Hc s (HP s Hs)).
  destruct (c s) as [[a|e|] s']; eauto.
Qed.

Lemma spec_weaken {A} P P' (c : M S A) (Q : A -> S -> Prop) E :
  (forall s, P' s -> P s) -> spec P c Q E -> spec P' c Q E.
Proof. intros HP Hc s Hs. by apply (Hc s), HP. Qed.

Lemma spec_get P (Q : S -> S -> Prop) E :
  (forall s, P s -> Q s s) -> spec P get Q E.
Proof. intros H s Hs. by apply H. Qed.

Lemma spec_modify P f (Q : unit -> S -> Prop) E :
  (forall s, P s -> Q tt (f s)) -> spec P (modify f) Q E.
Proof. intros H s Hs. by apply H. Qed.

Lemma spec_ensure P (b : bool) (Q : unit -> S -> Prop) E :
  (forall s, P s -> if b then Q tt s else E kTfLiteError s) -> spec P (ensure b) Q E.
Proof. intros H s Hs. specialize (H s Hs). by destruct b. Qed.

Lemma spec_access {A} P (o : option A) (Q : A -> S -> Prop) E :
  (forall s, P s -> exists a, o = Some a /\ Q a s) -> spec P (access o) Q E.
Proof. intros H s Hs. destruct (H s Hs) as (a & -> & HQ). done. Qed.

Lemma spec_lift {A} P (o : outcome A) (Q : A -> S -> Prop) E :
  (forall s, P s -> match o with Done a => Q a s | Fail e => E e s | Undef => False end) ->
  spec P (lift o) Q E.
Proof. intros H s Hs. specialize (H s Hs). by destruct o. Qed.

(** A call that never fails returns. *)
Lemma spec_run {A} P (c : M S A) (Q : A -> S -> Prop) s :
  spec P c Q never -> P s -> exists a s', c s = (Done a, s') /\ Q a s'.
Proof. intros Hc Hs. specialize (Hc s Hs). destruct (c s) as [[a|e|] s']; [eauto|done|done]. Qed.

(** A condition on the start state may be assumed. *)
Lemma spec_pre {A} P (c : M S A) Q E :
  (forall s, P s -> spec (fun s' => s' = s) c Q E) -> spec P c Q E.
Proof. intros H s Hs. by apply (H s Hs). Qed.

(** Loop rule: [I] is an invariant indexed by the elements already visited. *)
Lemma spec_for_each {A} (I : list A -> S -> Prop) (l : list A) (body : A -> M S unit) E :
  (forall pre x rest, l = pre ++ x :: rest ->
    spec (I pre) (body x) (fun _ => I (pre ++ [x])) E) ->
  spec (I []) (for_each l body) (fun _ => I l) E.
Proof.
  intros Hbody.
  cut (forall rest pre, l = pre ++ rest ->
    spec (I pre) (for_each rest body) (fun _ => I l) E).
  { intros H. by apply (H l []). }
  intros rest. induction rest as [|x rest IH]; intros pre Heq.
  - apply spec_ret. rewrite app_nil_r in Heq. by subst.
  - cbn. eapply spec_bind; [by eapply Hbody|].
    intros []. apply IH. by rewrite <- app_assoc.
Qed.

Lemma spec_for_fold {A B} (I : list A -> B -> S -> Prop) (l : list A) (b : B)
    (body : B -> A -> M S B) E :
  (forall pre x rest b', l = pre ++ x :: rest ->
    spec (I pre b') (body b' x) (fun b'' => I (pre ++ [x]) b'') E) ->
  spec (I [] b) (for_fold l b body) (fun b' => I l b') E.
Proof.
  intros Hbody.
  cut (forall rest pre b', l = pre ++ rest ->
    spec (I pre b') (for_fold rest b' body) (fun b'' => I l b'') E).
  { intros H. by apply (H l []). }
  intros rest. induction rest as [|x rest IH]; intros pre b' Heq.
  - apply spec_ret. rewrite app_nil_r in Heq. by subst.
  - cbn. eapply spec_bind; [by eapply Hbody|].
    intros b''. apply IH. by rewrite <- app_assoc.
Qed.

(** The common case: an invariant of the state alone. *)
Lemma spec_for_each_inv {A} (I : S -> Prop) (l : list A) (body : A -> M S unit) E :
  (forall x, x ∈ l -> spec I (body x) (fun _ => I) E) ->
  spec I (for_each l body) (fun _ => I) E.
Proof.
  intros Hbody. apply (spec_for_each (fun _ => I)).
  intros pre x rest ->. apply Hbody. set_solver.
Qed.
End Spec.

(** ** Invariants of calls that may fail anywhere *)

(** From a state satisfying [P] the call leaves [Q] when it returns a value and [R] when it
    fails or is undefined. *)
Definition leaves {S A} (P : S -> Prop) (c : M S A) (Q : A -> S -> Prop) (R : S -> Prop) : Prop :=
  forall s, P s -> match c s with (Done a, s') => Q a s' | (_, s') => R s' end.

Section Leaves.
Context {S : Type}.
Implicit Types (P R : S -> Prop).

Lemma leaves_ret {A} P (a : A) (Q : A -> S -> Prop) R : (forall s, P s -> Q a s) -> leaves P (ret a) Q R.
Proof. intros H s Hs. by apply H. Qed.

Lemma leaves_bind {A B} P (c : M S A) (k : A -> M S B) (Q' : A -> S -> Prop) Q R :
  leaves P c Q' R -> (forall a, leaves (Q' a) (k a) Q R) -> leaves P (bind c k) Q R.
Proof.
  intros Hc Hk s Hs. unfold bind. specialize (Hc s Hs).
  destruct (c s) as [[a|e|] s']; [|done..]. by apply Hk.
Qed.

Lemma leaves_conseq {A} P P' (c : M S A) (Q Q' : A -> S -> Prop) R R' :
  leaves P c Q R -> (forall s, P' s -> P s) -> (forall a s, Q a s -> Q' a s) ->
  (forall s, R s -> R' s) -> leaves P' c Q' R'.
Proof.
  intros Hc HP HQ HR s Hs. specialize (Hc s (HP s Hs)). destruct (c s) as [[a|e|] s']; eauto.
Qed.

Lemma leaves_modify P f (Q : unit -> S -> Prop) R : (forall s, P s -> Q tt (f s)) -> leaves P (modify f) Q R.
Proof. intros H s Hs. by apply H. Qed.

(** A condition that does not speak of the state may be assumed. *)
Lemma leaves_assume {A} (C : Prop) P (c : M S A) Q R :
  (C -> leaves P c Q R) -> leaves (fun s => C /\ P s) c Q R.
Proof. intros H s [HC Hs]. by apply H. Qed.

Lemma leaves_for_each {A} (I : list A -> S -> Prop) (l : list A) (body : A -> M S unit) R :
  (forall s, I l s -> R s) ->
  (forall pre x rest, l = pre ++ x :: rest -> leaves (I pre) (body x) (fun _ => I (pre ++ [x])) R) ->
  leaves (I []) (for_each l body) (fun _ => I l) R.
Proof.
  intros HR Hbody.
  cut (forall rest pre, l = pre ++ rest -> leaves (I pre) (for_each rest body) (fun _ => I l) R).
  { intros H. by apply (H l []). }
  intros rest. induction rest as [|x rest IH]; intros pre Heq.
  - apply leaves_ret. rewrite app_nil_r in Heq. by subst.
  - cbn. eapply leaves_bind; [by eapply Hbody|]. intros []. apply IH. by rewrite <- app_assoc.
Qed.
End Leaves.

(** ** Calls that only move along a preorder *)

(** Whatever the call returns, the state it leaves is related to the state it found. *)
Definition respects {S A} (R : S -> S -> Prop) (c : M S A) : Prop := forall s, R s (snd (c s)).

Create HintDb respects.

Section Respects.
Context {S : Type} (R : S -> S -> Prop) {HR : PreOrder R}.

Lemma respects_ret {A} (a : A) : respects R (ret a).
Proof. intros s. reflexivity. Qed.

Lemma respects_bind {A B} (c : M S A) (k : A -> M S B) :
  respects R c -> (forall a, respects R (k a)) -> respects R (bind c k).
Proof.
  intros Hc Hk s. unfold bind. specialize (Hc s). destruct (c s) as [[a|e|] s']; [|done..].
  etransitivity; [exact Hc|apply Hk].
Qed.

Lemma respects_access {A} (o : option A) : respects R (access o).
Proof. intros s. by destruct o. Qed.

Lemma respects_ensure b : respects R (ensure b).
Proof. intros s. by destruct b. Qed.

Lemma respects_undef {A} : respects R (@undef S A).
Proof. intros s. reflexivity. Qed.

Lemma respects_fail {A} e : respects R (@fail S A e).
Proof. intros s. reflexivity. Qed.

Lemma respects_status_call {A} (c : M S A) : respects R c -> respects R (status_call c).
Proof. intros Hc s. specialize (Hc s). unfold status_call. by destruct (c s) as [[]]. Qed.

(** The second call of a sequence, from the state the first one reaches. *)
Lemma moves_bind_at {A B} (c : M S A) (k : A -> M S B) s :
  R s (snd (c s)) -> (forall a s', c s = (Done a, s') -> R s' (snd (k a s'))) ->
  R s (snd (bind c k s)).
Proof.
  intros Hc Hk. unfold bind. destruct (c s) as [[a|e|] s'] eqn:Hs; [|done..].
  etransitivity; [exact Hc|]. by apply Hk.
Qed.

(** What a related state still satisfies, the call leaves. *)
Lemma respects_leaves {A} (I : S -> Prop) (c : M S A) :
  respects R c -> (forall s s', R s s' -> I s -> I s') -> leaves I c (fun _ => I) I.
Proof. intros Hc HI s Hs. specialize (HI _ _ (Hc s) Hs). by destruct (c s) as [[]]. Qed.

Lemma respects_modify f : (forall s, R s (f s)) -> respects R (modify f).
Proof. intros Hf s. apply Hf. Qed.

Lemma respects_zoom {T A} (proj : S -> T) (upd : T -> S -> S) (c : M T A) :
  (forall t s, R s (upd t s)) -> respects R (zoom proj upd c).
Proof. intros Hu s. unfold zoom. destruct (c (proj s)). apply Hu. Qed.

Lemma respects_for_each {A} (l : list A) body :
  (forall x, respects R (body x)) -> respects R (for_each l body).
Proof. intros Hb. induction l as [|x l IH]; [apply respects_ret|]. by apply respects_bind. Qed.

Lemma respects_for_fold {A B} (l : list A) (b : B) body :
  (forall b x, respects R (body b x)) -> respects R (for_fold l b body).
Proof.
  intros Hb. revert b. induction l as [|x l IH]; intros b; [apply respects_ret|].
  by apply respects_bind.
Qed.
End Respects.

#[export] Hint Resolve respects_ret respects_access respects_ensure respects_undef respects_fail : respects.
#[export] Hint Extern 1 (PreOrder _) => (exact _) : respects.

(** Splits a call along its structure; the leaves are in the hint database. *)
Ltac walk_step :=
  match goal with
  | |- PreOrder _ => exact _
  | |- respects _ (bind _ _) => apply respects_bind
  | |- respects _ (status_call _) => apply respects_status_call
  | |- respects _ (for_each _ _) => apply respects_for_each
  | |- respects _ (for_fold _ _ _) => apply respects_for_fold
  | |- respects _ (if ?b then _ else _) => destruct b
  | |- respects _ (match ?x with _ => _ end) => destruct x
  end.
Ltac walk := repeat first [progress intros | solve [eauto 3 with respects] | walk_step].

Create HintDb tfl.
#[export] Hint Resolve spec_ret spec_get spec_modify : tfl.

(** ** Vectors indexed by [int] *)

(** [v[i]] of a [std::vector] indexed by a (possibly negative) [int]. *)
Definition zlookup {A} (v : list A) (i : Z) : option A :=
  if i <? 0 then None else v !! Z.to_nat i.

(** [v[i] = x]; undefined out of range. *)
Definition zinsert {A} (v : list A) (i : Z) (x : A) : option (list A) :=
  if (i <? 0) || (Z.of_nat (length v) <=? i) then None else Some (<[Z.to_nat i := x]> v).

(** [static_cast<int>(v.size())]. *)
Definition zlength {A} (v : list A) : Z := Z.of_nat (length v).

(** The elements with their positions, as an indexed loop visits them. *)
Definition enumerate {A} (v : list A) : list (Z * A) := imap (fun i x => (Z.of_nat i, x)) v.

(** The indices [first, first + 1, ..., last]. *)
Definition zrange (first last : Z) : list Z :=
  (fun k => first + Z.of_nat k) <$> seq 0 (Z.to_nat (last - first + 1)).

(** [v.resize(n, x)]. *)
Definition zresize {A} (v : list A) (n : Z) (x : A) : list A :=
  take (Z.to_nat n) v ++ replicate (Z.to_nat n - length v) x.

(** Total accessors, for statements about indices in range. *)
Definition zget (v : list Z) (i : Z) : Z := default 0 (zlookup v i).
Definition zset {A} (v : list A) (i : Z) (x : A) : list A := <[Z.to_nat i := x]> v.

Section Vectors.
Context {A : Type}.
Implicit Types (v : list A) (i : Z).

Lemma zlookup_some v i x :
  zlookup v i = Some x <-> 0 <= i < zlength v /\ v !! Z.to_nat i = Some x.
Proof.
  unfold zlookup, zlength. destruct (Z.ltb_spec i 0); split.
  - done.
  - lia.
  - intros Hx. pose proof (lookup_lt_Some _ _ _ Hx). split; [lia|done].
  - by intros [_ ?].
Qed.

Lemma zlookup_in_range v i : 0 <= i < zlength v -> is_Some (zlookup v i).
Proof.
  intros Hi. destruct (lookup_lt_is_Some_2 v (Z.to_nat i)) as [x Hx]; [unfold zlength in *; lia|].
  exists x. by apply zlookup_some.
Qed.

Lemma zlookup_elem_of v i x : zlookup v i = Some x -> x ∈ v.
Proof. intros [_ ?]%zlookup_some. by eapply list_elem_of_lookup_2. Qed.

Lemma zinsert_zset v i x : 0 <= i < zlength v -> zinsert v i x = Some (zset v i x).
Proof.
  unfold zinsert, zset, zlength. intros Hi.
  destruct (Z.ltb_spec i 0), (Z.leb_spec (Z.of_nat (length v)) i); (done || lia).
Qed.

Lemma zlength_app (l l' : list A) : zlength (l ++ l') = zlength l + zlength l'.
Proof. unfold zlength. rewrite length_app. lia. Qed.

Lemma zlength_cons (x : A) (l : list A) : zlength (x :: l) = 1 + zlength l.
Proof. unfold zlength. cbn. lia. Qed.

Lemma zlength_nonneg (l : list A) : 0 <= zlength l.
Proof. unfold zlength. lia. Qed.

Lemma zlength_zset v i x : zlength (zset v i x) = zlength v.
Proof. unfold zlength, zset. by rewrite length_insert. Qed.

Lemma zlookup_zset v i j x : 0 <= i < zlength v ->
  zlookup (zset v i x) j = if i =? j then Some x else zlookup v j.
Proof.
  unfold zlookup, zset, zlength. intros Hi. destruct (Z.eqb_spec i j) as [->|Hne].
  - destruct (Z.ltb_spec j 0); [lia|]. apply list_lookup_insert_eq. lia.
  - destruct (Z.ltb_spec j 0); [done|]. apply list_lookup_insert_ne. lia.
Qed.

Lemma zlength_replicate n (x : A) : 0 <= n -> zlength (replicate (Z.to_nat n) x) = n.
Proof. unfold zlength. rewrite length_replicate. lia. Qed.

Lemma zlookup_replicate n (x : A) i : 0 <= i < n -> zlookup (replicate (Z.to_nat n) x) i = Some x.
Proof.
  intros. apply zlookup_some. rewrite zlength_replicate, lookup_replicate by lia.
  split_and!; [lia|lia|done|lia].
Qed.

Lemma zlength_zresize v n x : 0 <= n -> zlength (zresize v n x) = n.
Proof.
  unfold zlength, zresize. rewrite length_app, length_take, length_replicate. lia.
Qed.

Lemma zresize_same v x : zresize v (zlength v) x = v.
Proof.
  unfold zresize, zlength. rewrite Nat2Z.id, take_ge, Nat.sub_diag by lia. cbn. apply app_nil_r.
Qed.
End Vectors.

Lemma zlookup_zget v i : 0 <= i < zlength v -> zlookup v i = Some (zget v i).
Proof. intros [x Hx]%zlookup_in_range. unfold zget. by rewrite Hx. Qed.

Lemma zget_zset v i j x : 0 <= i < zlength v ->
  zget (zset v i x) j = if i =? j then x else zget v j.
Proof. intros Hi. unfold zget. rewrite zlookup_zset by done. by destruct (i =? j). Qed.

Lemma zget_replicate n (x : Z) i : 0 <= i < n -> zget (replicate (Z.to_nat n) x) i = x.
Proof. intros. unfold zget. by rewrite zlookup_replicate. Qed.

Section Enumerate.
Context {A : Type} (l : list A).

Lemma enumerate_snd : snd <$> enumerate l = l.
Proof.
  unfold enumerate. rewrite fmap_imap. apply list_eq. intros k. rewrite list_lookup_imap.
  by destruct (l !! k).
Qed.

Lemma enumerate_elem i x : (i, x) ∈ enumerate l <-> exists k, i = Z.of_nat k /\ l !! k = Some x.
Proof.
  unfold enumerate. rewrite list_elem_of_lookup. setoid_rewrite list_lookup_imap_Some.
  split; intros (k & H); [destruct H as (y & ? & ?); simplify_eq; eauto|].
  exists k, x. destruct H as [-> ?]. done.
Qed.

Lemma enumerate_split pre i x rest : enumerate l = pre ++ (i, x) :: rest ->
  i = Z.of_nat (length pre) /\ l !! length pre = Some x /\ forall j y, (j, y) ∈ pre -> 0 <= j < i.
Proof.
  intros Heq.
  assert (Hk : forall k j y, (pre ++ (i, x) :: rest) !! k = Some (j, y) ->
    j = Z.of_nat k /\ l !! k = Some y).
  { intros k j y Hk. rewrite <- Heq in Hk. unfold enumerate in Hk.
    apply list_lookup_imap_Some in Hk as (z & Hz & ?). by simplify_eq. }
  destruct (Hk (length pre) i x) as [-> ?]; [by apply list_lookup_middle|].
  split_and!; [done|done|]. intros j y [k Hj]%list_elem_of_lookup.
  pose proof (lookup_lt_Some _ _ _ Hj).
  destruct (Hk k j y) as [-> _]; [by apply lookup_app_l_Some|]. lia.
Qed.
End Enumerate.

Notation "v .[ i ]" := (zlookup v i) (at level 1, left associativity, format "v .[ i ]") : tfl_scope.

(** ** Integer ranges *)

Lemma zrange_cons a b : a <= b -> zrange a b = a :: zrange (a + 1) b.
Proof.
  intros Hab. unfold zrange. replace (Z.to_nat (b - a + 1)) with (S (Z.to_nat (b - a))) by lia.
  rewrite <- cons_seq, fmap_cons, <- fmap_S_seq, <- list_fmap_compose.
  f_equal; [lia|]. replace (b - (a + 1) + 1) with (b - a) by lia.
  apply list_fmap_ext. intros ? k _. cbn. lia.
Qed.

Lemma zrange_nil a b : b < a -> zrange a b = [].
Proof. intros Hab. unfold zrange. by replace (Z.to_nat (b - a + 1)) with 0%nat by lia. Qed.

Lemma zrange_snoc a b : a <= b + 1 -> zrange a (b + 1) = zrange a b ++ [b + 1].
Proof.
  intros Hab. unfold zrange.
  replace (Z.to_nat (b + 1 - a + 1)) with (Z.to_nat (b - a + 1) + 1)%nat by lia.
  rewrite seq_app, fmap_app. f_equal. cbn. f_equal. lia.
Qed.

Lemma elem_of_zrange a b v : v ∈ zrange a b <-> a <= v <= b.
Proof.
  unfold zrange. rewrite list_elem_of_fmap. setoid_rewrite elem_of_seq. split.
  - intros (k & -> & ?). lia.
  - intros. exists (Z.to_nat (v - a)). lia.
Qed.

Lemma length_zrange a b : length (zrange a b) = Z.to_nat (b - a + 1).
Proof. unfold zrange. by rewrite length_fmap, length_seq. Qed.

Lemma NoDup_zrange a b : NoDup (zrange a b).
Proof.
  unfold zrange. apply NoDup_fmap_2_strong; [intros; lia|apply NoDup_seq].
Qed.

Lemma zrange_split p : forall a b j q, zrange a b = p ++ j :: q -> p = zrange a (j - 1).
Proof.
  induction p as [|x p IH]; intros a b j q Heq.
  - destruct (Z.le_gt_cases a b); [|by rewrite zrange_nil in Heq by lia].
    rewrite zrange_cons in Heq by lia. injection Heq as -> _. by rewrite zrange_nil by lia.
  - destruct (Z.le_gt_cases a b); [|by rewrite zrange_nil in Heq by lia].
    rewrite zrange_cons in Heq by lia. injection Heq as -> Heq.
    assert (Hj : j ∈ zrange (x + 1) b) by (rewrite Heq; set_solver).
    apply elem_of_zrange in Hj. rewrite (zrange_cons x) by lia. f_equal. by eapply IH.
Qed.

Lemma zrange_lookup a b k : (k < Z.to_nat (b - a + 1))%nat -> zrange a b !! k = Some (a + Z.of_nat k).
Proof. intros Hk. unfold zrange. rewrite list_lookup_fmap, lookup_seq_lt by done. done. Qed.

(** ** The last element of a vector *)

Lemma last_split {A} (l : list A) x : l.[zlength l - 1] = Some x ->
  exists l', l = l' ++ [x] /\ zlength l - 1 = zlength l' /\
    forall y, zset l (zlength l - 1) y = l' ++ [y].
Proof.
  intros Hx. destruct l as [|z l _] using rev_ind.
  { apply zlookup_some in Hx as [? _]. unfold zlength in *. cbn in *. lia. }
  assert (Hlen : zlength (l ++ [z]) - 1 = zlength l).
  { unfold zlength. rewrite length_app. cbn. lia. }
  rewrite Hlen in *. apply zlookup_some in Hx as [_ Hx]. unfold zlength in Hx.
  rewrite Nat2Z.id, list_lookup_middle in Hx by done. simplify_eq.
  exists l. split_and!; [done..|]. intros y. unfold zset, zlength. rewrite Nat2Z.id.
  by rewrite insert_app_r_alt, Nat.sub_diag by lia.
Qed.

(** ** Lists *)

(** A symmetric relation between all pairs of elements, by [StronglySorted]. *)
Section Pairwise.
Context {A : Type} (R : A -> A -> Prop) (R_sym : forall x y, R x y -> R y x).

Lemma pairwise_Permutation l l' :
  l ≡ₚ l' -> StronglySorted R l -> StronglySorted R l'.
Proof.
  induction 1 as [|x l l' Hp IH|x y l|l l' l'' ? IH1 ? IH2]; intros Hs.
  - constructor.
  - apply StronglySorted_inv in Hs as [Hs Hx].
    constructor; [by apply IH|]. by rewrite <- Hp.
  - apply StronglySorted_inv in Hs as [Hs Hy].
    apply StronglySorted_inv in Hs as [Hs Hx].
    inversion_clear Hy. repeat constructor; eauto.
  - eauto.
Qed.

Lemma pairwise_filter (P : A -> Prop) `{!forall x, Decision (P x)} l :
  StronglySorted R l -> StronglySorted R (filter P l).
Proof.
  induction 1 as [|x l Hl IH Hx]; [constructor|].
  rewrite filter_cons. case_decide; [|done]. constructor; [done|].
  apply Forall_forall. intros y Hy%list_elem_of_filter.
  rewrite Forall_forall in Hx. by apply Hx, Hy.
Qed.

Lemma pairwise_elim l i j x y :
  StronglySorted R l -> i <> j -> l !! i = Some x -> l !! j = Some y -> R x y.
Proof.
  intros Hs. revert i j. induction Hs as [|z l Hl IH Hz]; intros i j Hij Hi Hj; [done|].
  rewrite Forall_forall in Hz.
  destruct i as [|i], j as [|j]; cbn in *; simplify_eq.
  - by eapply Hz, list_elem_of_lookup_2.
  - by eapply R_sym, Hz, list_elem_of_lookup_2.
  - apply (IH i j); [lia|done..].
Qed.
End Pairwise.

Lemma Forall_filter {A} (Q P : A -> Prop) `{!forall x, Decision (P x)} l :
  Forall Q l -> Forall Q (filter P l).
Proof.
  rewrite !Forall_forall. intros HQ x [_ Hx]%list_elem_of_filter. by apply HQ.
Qed.

(** [std::sort] by a comparison: some ordering of the same elements in which no element
    is less than an earlier one.  The order of equivalent elements is not determined. *)
Definition strict_weak_order {A} (lt : A -> A -> bool) : Prop :=
  (forall x, lt x x = false) /\
  (forall x y z, lt x y = true -> lt y z = true -> lt x z = true) /\
  (forall x y z, lt x y = false -> lt y z = false -> lt x z = false).

Class StdSort := std_sort : forall {A}, (A -> A -> bool) -> list A -> list A.

Class StdSortOk {SS : StdSort} : Prop := {
  std_sort_perm : forall {A} (lt : A -> A -> bool) l, strict_weak_order lt ->
    std_sort lt l ≡ₚ l;
  std_sort_sorted : forall {A} (lt : A -> A -> bool) l, strict_weak_order lt ->
    StronglySorted (fun x y => lt y x = false) (std_sort lt l);
}.

(** Insertion sort is one such function. *)
Fixpoint insert_by {A} (lt : A -> A -> bool) (x : A) (l : list A) : list A :=
  match l with
  | [] => [x]
  | y :: l' => if lt x y then x :: l else y :: insert_by lt x l'
  end.

Definition insertion_sort : StdSort := fun A lt l => foldr (insert_by lt) [] (reverse l).

Lemma insert_by_perm {A} (lt : A -> A -> bool) x l : insert_by lt x l ≡ₚ x :: l.
Proof.
  induction l as [|y l IH]; cbn; [done|]. destruct (lt x y); [done|].
  rewrite IH. constructor.
Qed.

Lemma insert_by_sorted {A} (lt : A -> A -> bool) x l : strict_weak_order lt ->
  StronglySorted (fun x y => lt y x = false) l ->
  StronglySorted (fun x y => lt y x = false) (insert_by lt x l).
Proof.
  intros (Hirr & Htr & Hntr) Hs. induction Hs as [|y l Hl IH Hy]; cbn; [repeat constructor|].
  assert (Hasym : forall a b, lt a b = true -> lt b a = false).
  { intros a b Hab. destruct (lt b a) eqn:Hba; [|done]. by rewrite <- (Hirr a), (Htr a b a). }
  destruct (lt x y) eqn:Hxy.
  - constructor; [by constructor|]. constructor; [by auto|].
    eapply Forall_impl; [exact Hy|]. intros z Hz. apply (Hntr z y x); auto.
  - constructor; [done|]. rewrite insert_by_perm. by constructor.
Qed.

Lemma insertion_sort_ok : @StdSortOk insertion_sort.
Proof.
  split; intros A lt l Hlt; unfold std_sort, insertion_sort.
  - transitivity (reverse l); [|by rewrite reverse_Permutation].
    induction (reverse l) as [|x l' IH]; cbn; [done|]. by rewrite insert_by_perm, IH.
  - induction (reverse l) as [|x l' IH]; cbn; [constructor|]. by apply insert_by_sorted.
Qed.

Lemma spec_zoom {S T A} (proj : S -> T) (upd : T -> S -> S) (c : M T A)
    (P : S -> Prop) (Q : A -> S -> Prop) E :
  (forall s, P s -> spec (fun t => t = proj s) c (fun a t => Q a (upd t s))
                      (fun e t => E e (upd t s))) ->
  spec P (zoom proj upd c) Q E.
Proof.
  intros H s Hs. unfold zoom. specialize (H s Hs (proj s) eq_refl).
  by destruct (c (proj s)) as [[a|e|] t].
Qed.
