(* ===== verification/Heap.v ===== *)
(** * The C heap

    The standard library's [malloc], [aligned_alloc], [free] and [memcpy], as far as the
    runtime uses them: which blocks are live, where a new block may be placed, and the
    bytes that are copied.  Where [malloc] puts a block is not determined by the C
    standard: it is a parameter ([Malloc]), and [MallocOk] states what the standard
    promises of it.  An access outside every live block, and a [free] of an address that
    is not the start of a live block, are undefined ([Undef]). *)
From S2P Require Import Prelude.

(** The live blocks (start and size) and the contents of memory. *)
Record heap := Heap { live : gmap Z Z; mem : Z -> Z }.

Definition heap_empty : heap := Heap ∅ (fun _ => 0).

(** [b] may become the start of a live block of [n] bytes. *)
Definition fresh_block (h : heap) (b n : Z) : Prop :=
  0 < b /\ b + n <= 2 ^ 64 /\ live h !! b = None /\
  forall c m, live h !! c = Some m -> b + n <= c \/ c + m <= b.

Class Malloc := malloc_place : heap -> Z -> Z -> Z.

(** The address of a new block: null, or fresh and aligned. *)
Class MallocOk {MM : Malloc} : Prop :=
  malloc_place_ok : forall h al n, 0 < al -> 0 <= n ->
    malloc_place h al n = 0 \/
    (fresh_block h (malloc_place h al n) n /\ (al | malloc_place h al n)).

(** [alignof(std::max_align_t)]. *)
Definition MAX_ALIGN : Z := 16.

Section Operations.
Context {MM : Malloc}.

Definition aligned_alloc (al n : Z) : M heap Z := fun h =>
  let p := malloc_place h al n in
  if p =? 0 then (Done 0, h) else (Done p, Heap (<[p := n]> (live h)) (mem h)).

Definition malloc (n : Z) : M heap Z := aligned_alloc MAX_ALIGN n.

Definition free (p : Z) : M heap unit := fun h =>
  if p =? 0 then (Done tt, h)
  else match live h !! p with
       | Some _ => (Done tt, Heap (delete p (live h)) (mem h))
       | None => (Undef, h)
       end.

(** Every byte of [p, p + n) lies in one live block. *)
Definition in_live_block (h : heap) (p n : Z) : bool :=
  existsb (fun bm => (fst bm <=? p) && (p + n <=? fst bm + snd bm)) (map_to_list (live h)).

Definition copy_bytes (f : Z -> Z) (dst src n : Z) : Z -> Z := fun a =>
  if (dst <=? a) && (a <? dst + n) then f (src + (a - dst)) else f a.

(** [realloc]: the new block may overlap the old one; on failure the old block stays. *)
Definition realloc (p n : Z) : M heap Z := fun h =>
  if p =? 0 then malloc n h
  else match live h !! p with
       | None => (Undef, h)
       | Some m =>
         let q := malloc_place (Heap (delete p (live h)) (mem h)) MAX_ALIGN n in
         if q =? 0 then (Done 0, h)
         else (Done q, Heap (<[q := n]> (delete p (live h))) (copy_bytes (mem h) q p (Z.min m n)))
       end.

Definition memcpy (dst src n : Z) : M heap unit := fun h =>
  if in_live_block h dst n && in_live_block h src n
  then (Done tt, Heap (live h) (copy_bytes (mem h) dst src n))
  else (Undef, h).

(** [memcpy] from an object that is not on this heap (a local variable, the elements of a
    vector): its bytes are the argument. *)
Definition write_bytes (f : Z -> Z) (p : Z) (bs : list Z) : Z -> Z := fun a =>
  if (p <=? a) && (a <? p + zlength bs) then zget bs (a - p) else f a.

Definition store (p : Z) (bs : list Z) : M heap unit := fun h =>
  if in_live_block h p (zlength bs)
  then (Done tt, Heap (live h) (write_bytes (mem h) p bs))
  else (Undef, h).

(** The bytes of an integer of [n] bytes, the lowest first. *)
Definition le_bytes (n v : Z) : list Z :=
  (fun k => Z.land (Z.shiftr v (8 * k)) 255) <$> zrange 0 (n - 1).

(** The unsigned integer with these bytes. *)
Fixpoint le_value (bs : list Z) : Z :=
  match bs with [] => 0 | b :: bs' => b + 256 * le_value bs' end.

(** The [n] bytes at [p]. *)
Definition read_bytes (f : Z -> Z) (p n : Z) : list Z := (fun k => f (p + k)) <$> zrange 0 (n - 1).

Definition load (p n : Z) : M heap (list Z) := fun h =>
  if in_live_block h p n then (Done (read_bytes (mem h) p n), h) else (Undef, h).
End Operations.

(** Live blocks are at positive addresses and do not overlap. *)
Record heap_wf (h : heap) : Prop := {
  heap_wf_range : forall b n, live h !! b = Some n -> 0 < b /\ 0 <= n /\ b + n <= 2 ^ 64;
  heap_wf_disjoint : forall b n c m, live h !! b = Some n -> live h !! c = Some m ->
    b <> c -> b + n <= c \/ c + m <= b;
}.

Lemma in_live_block_spec h p n :
  in_live_block h p n = true <->
  exists b m, live h !! b = Some m /\ b <= p /\ p + n <= b + m.
Proof.
  unfold in_live_block. rewrite existsb_exists. split.
  - intros ([b m] & Hin & Hle). rewrite <- list_elem_of_In, elem_of_map_to_list in Hin.
    apply andb_true_iff in Hle as [?%Z.leb_le ?%Z.leb_le]. eauto.
  - intros (b & m & Hb & ? & ?). exists (b, m).
    rewrite <- list_elem_of_In, elem_of_map_to_list, andb_true_iff, !Z.leb_le. auto.
Qed.

Lemma heap_empty_wf : heap_wf heap_empty.
Proof. split; intros; simplify_map_eq. Qed.

(** *** Bytes in memory *)

Lemma zlength_read_bytes f p n : 0 <= n -> zlength (read_bytes f p n) = n.
Proof. intros. unfold zlength, read_bytes. rewrite length_fmap, length_zrange. lia. Qed.

Lemma read_bytes_lookup f p n k : (k < Z.to_nat n)%nat ->
  read_bytes f p n !! k = Some (f (p + Z.of_nat k)).
Proof.
  intros Hk. unfold read_bytes. rewrite list_lookup_fmap, zrange_lookup by lia. done.
Qed.

(** The bytes read only depend on the memory read. *)
Lemma read_bytes_ext f g p n : (forall a, p <= a < p + n -> f a = g a) ->
  read_bytes f p n = read_bytes g p n.
Proof.
  intros Hfg. apply list_eq. intros k. destruct (decide (k < Z.to_nat n)%nat) as [Hk|Hk].
  - rewrite !read_bytes_lookup by done. f_equal. apply Hfg. lia.
  - rewrite !(lookup_ge_None_2 (read_bytes _ p n) k); [done|..];
      unfold read_bytes; rewrite length_fmap, length_zrange; lia.
Qed.

Lemma read_bytes_eq f p bs :
  (forall k b, bs !! k = Some b -> f (p + Z.of_nat k) = b) -> read_bytes f p (zlength bs) = bs.
Proof.
  intros Hf. apply list_eq. intros k. unfold zlength.
  destruct (bs !! k) as [b|] eqn:Hb.
  - pose proof (lookup_lt_Some _ _ _ Hb). rewrite read_bytes_lookup by lia. f_equal. by apply Hf.
  - apply lookup_ge_None in Hb. apply lookup_ge_None_2. unfold read_bytes.
    rewrite length_fmap, length_zrange. lia.
Qed.

(** A part of the bytes read. *)
Lemma read_bytes_part f p l bs r : read_bytes f p (zlength (l ++ bs ++ r)) = l ++ bs ++ r ->
  read_bytes f (p + zlength l) (zlength bs) = bs.
Proof.
  intros Hread. apply read_bytes_eq. intros k b Hb. pose proof (lookup_lt_Some _ _ _ Hb).
  assert (Hk : (l ++ bs ++ r) !! (length l + k)%nat = Some b).
  { rewrite lookup_app_r by lia. replace (length l + k - length l)%nat with k by lia.
    by apply lookup_app_l_Some. }
  rewrite <- Hread, read_bytes_lookup in Hk by (unfold zlength; rewrite !length_app; lia).
  injection Hk as <-. f_equal. unfold zlength. lia.
Qed.

(** Writing right after the bytes already written. *)
Lemma write_bytes_append f p l bs : read_bytes f p (zlength l) = l ->
  read_bytes (write_bytes f (p + zlength l) bs) p (zlength (l ++ bs)) = l ++ bs.
Proof.
  intros Hl. apply read_bytes_eq. intros k b Hb. unfold write_bytes.
  apply lookup_app_Some in Hb as [Hb|[Hk Hb]]; pose proof (lookup_lt_Some _ _ _ Hb).
  - destruct (Z.leb_spec (p + zlength l) (p + Z.of_nat k)); [unfold zlength in *; lia|]. cbn.
    rewrite <- Hl, read_bytes_lookup in Hb by (unfold zlength; lia). by injection Hb.
  - destruct (Z.leb_spec (p + zlength l) (p + Z.of_nat k)),
      (Z.ltb_spec (p + Z.of_nat k) (p + zlength l + zlength bs)); unfold zlength in *; try lia.
    cbn. unfold zget, zlookup.
    destruct (Z.ltb_spec (p + Z.of_nat k - (p + Z.of_nat (length l))) 0); [lia|].
    replace (Z.to_nat _) with (k - length l)%nat by lia. by rewrite Hb.
Qed.

Lemma store_run h p bs b m : live h !! b = Some m -> b <= p -> p + zlength bs <= b + m ->
  store p bs h = (Done tt, Heap (live h) (write_bytes (mem h) p bs)).
Proof.
  intros Hb ? ?. unfold store.
  rewrite (proj2 (in_live_block_spec h p (zlength bs))); [done|by exists b, m].
Qed.

Lemma load_run h p n b m : live h !! b = Some m -> b <= p -> p + n <= b + m ->
  load p n h = (Done (read_bytes (mem h) p n), h).
Proof.
  intros Hb ? ?. unfold load.
  rewrite (proj2 (in_live_block_spec h p n)); [done|by exists b, m].
Qed.

Section Laws.
Context {MM : Malloc} {MMOk : MallocOk}.

(** [aligned_alloc]: null and nothing changed, or a fresh aligned live block. *)
Lemma aligned_alloc_spec h al n : 0 < al -> 0 <= n -> heap_wf h ->
  let '(o, h') := aligned_alloc al n h in
  heap_wf h' /\ mem h' = mem h /\
  ((o = Done 0 /\ h' = h) \/
   exists p, o = Done p /\ fresh_block h p n /\ (al | p) /\ live h' = <[p := n]> (live h)).
Proof.
  intros Hal Hn Hwf. unfold aligned_alloc.
  destruct (malloc_place_ok h al n Hal Hn) as [->|[Hf Hd]]; [by split_and!; auto|].
  pose proof Hf as (Hp & Hup & Hnone & Hdis).
  destruct (Z.eqb_spec (malloc_place h al n) 0); [lia|]. split; [|by split; [done|right; eauto 8]].
  destruct Hwf as [Hr Hdj]. split; cbn.
  - intros b m [[<- <-]|[? ?]]%lookup_insert_Some; [lia|by eapply Hr].
  - intros b m c k [[<- <-]|[? Hb]]%lookup_insert_Some
      [[<- <-]|[? Hc]]%lookup_insert_Some Hne; [done|by apply Hdis| |by eapply Hdj].
    destruct (Hdis _ _ Hb); lia.
Qed.

Lemma free_wf h p : heap_wf h -> heap_wf (snd (free p h)).
Proof.
  intros Hwf. unfold free. destruct (p =? 0); [done|].
  destruct (live h !! p) eqn:Hp; [|done]. destruct Hwf as [Hr Hd]. split; cbn.
  - intros b m [_ ?]%lookup_delete_Some. eauto.
  - intros b m c k [_ ?]%lookup_delete_Some [_ ?]%lookup_delete_Some. eauto.
Qed.

Lemma malloc_spec h n : 0 <= n -> heap_wf h ->
  let '(o, h') := malloc n h in
  heap_wf h' /\ mem h' = mem h /\
  ((o = Done 0 /\ h' = h) \/
   exists p, o = Done p /\ fresh_block h p n /\ live h' = <[p := n]> (live h)).
Proof.
  intros Hn Hwf. unfold malloc.
  pose proof (aligned_alloc_spec h MAX_ALIGN n ltac:(done) Hn Hwf) as Ha.
  destruct (aligned_alloc MAX_ALIGN n h) as [o h'].
  destruct Ha as (? & ? & [?|(p & ? & ? & _ & ?)]); split_and!; eauto.
Qed.

(** [free] of a live block: it is gone, the others stay. *)
Lemma free_live h p m : heap_wf h -> live h !! p = Some m ->
  free p h = (Done tt, Heap (delete p (live h)) (mem h)) /\
  heap_wf (Heap (delete p (live h)) (mem h)).
Proof.
  intros Hwf Hp. pose proof (heap_wf_range _ Hwf _ _ Hp).
  pose proof (free_wf h p Hwf) as Hf. unfold free in *. rewrite Hp in *.
  destruct (Z.eqb_spec p 0); [lia|]. done.
Qed.

(** [realloc] of a live block: null and nothing changed, or a fresh block that starts with
    the old contents. *)
Lemma realloc_live h p m n : 0 <= n -> heap_wf h -> live h !! p = Some m ->
  realloc p n h = (Done 0, h) \/
  exists q h', realloc p n h = (Done q, h') /\ heap_wf h' /\ 0 < q /\
    live h' = <[q := n]> (delete p (live h)) /\
    (forall k, 0 <= k < Z.min m n -> mem h' (q + k) = mem h (p + k)) /\
    (forall c k, c <> p -> live h !! c = Some k -> live h' !! c = Some k /\
       forall a, c <= a < c + k -> mem h' a = mem h a).
Proof.
  intros Hn Hwf Hp. pose proof (heap_wf_range _ Hwf _ _ Hp).
  destruct (free_live h p m Hwf Hp) as [_ Hwf0]. unfold realloc.
  destruct (Z.eqb_spec p 0); [lia|]. rewrite Hp.
  set (h0 := Heap (delete p (live h)) (mem h)) in *.
  pose proof (aligned_alloc_spec h0 MAX_ALIGN n ltac:(done) Hn Hwf0) as Ha.
  unfold aligned_alloc in Ha. set (q := malloc_place h0 MAX_ALIGN n) in *.
  destruct (Z.eqb_spec q 0) as [|Hq]; [by left|right].
  destruct Ha as (Hwf1 & _ & [[? _]|(q' & Hqq & (Hq0 & _ & Hnone & Hdis) & _ & _)]);
    [simplify_eq; lia|].
  injection Hqq as <-. eexists q, _. split; [done|]. split_and!; cbn; [|done|done| |].
  - destruct Hwf1 as [Hr Hd]. by split.
  - intros k Hk. unfold copy_bytes.
    destruct (Z.leb_spec q (q + k)), (Z.ltb_spec (q + k) (q + Z.min m n)); cbn; [f_equal|..]; lia.
  - intros c k Hc Hlc. assert (Hlc0 : live h0 !! c = Some k) by (cbn; by rewrite lookup_delete_ne).
    assert (c <> q) by congruence. split; [cbn in Hlc0; by rewrite lookup_insert_ne|].
    intros a Ha. unfold copy_bytes. destruct (Hdis c k Hlc0);
      destruct (Z.leb_spec q a), (Z.ltb_spec a (q + Z.min m n)); cbn; (done || lia).
Qed.
End Laws.

(** A concrete allocator: the first multiple of the alignment above every live block.
    Witnesses of theorems about allocation are evaluated with it. *)
Definition heap_top (h : heap) : Z :=
  foldr (fun bm top => Z.max top (fst bm + Z.max 1 (snd bm))) 64 (map_to_list (live h)).

Definition bump_place (h : heap) (al n : Z) : Z :=
  let p := (heap_top h + al - 1) / al * al in
  if p + n <=? 2 ^ 64 then p else 0.

Lemma heap_top_spec h b n : live h !! b = Some n -> b + Z.max 1 n <= heap_top h.
Proof.
  rewrite <- elem_of_map_to_list. unfold heap_top.
  induction (map_to_list (live h)) as [|[c m] l IH]; [by intros ?%not_elem_of_nil|].
  cbn. intros [?|?]%elem_of_cons; simplify_eq; [lia|]. specialize (IH ltac:(done)). lia.
Qed.

Lemma heap_top_pos h : 64 <= heap_top h.
Proof. unfold heap_top. induction (map_to_list (live h)); cbn; lia. Qed.

Lemma bump_place_ok : @MallocOk bump_place.
Proof.
  intros h al n Hal Hn. unfold malloc_place, bump_place.
  pose proof (heap_top_pos h) as Htop.
  set (p := (heap_top h + al - 1) / al * al).
  assert (heap_top h <= p).
  { subst p. pose proof (Z.div_mod (heap_top h + al - 1) al).
    pose proof (Z.mod_pos_bound (heap_top h + al - 1) al). lia. }
  destruct (Z.leb_spec (p + n) (2 ^ 64)); [right|by left].
  split; [|by exists ((heap_top h + al - 1) / al)].
  split_and!; [lia|lia| |].
  - destruct (live h !! p) as [m|] eqn:Hp; [|done]. apply heap_top_spec in Hp. lia.
  - intros c m Hc%heap_top_spec. lia.
Qed.
