(* ===== verification/MemoryArena.v ===== *)
(** * The simple memory arena (tensorflow/lite/simple_memory_arena.{h,cc})

    Offset assignment inside one buffer for allocations with usage intervals
    ([Allocate] and the [Purge]/[Calculate] operations on the active allocations) and the
    buffer itself ([ResizableAlignedBuffer], [Commit], [ResolveAlloc]).  [size_t]
    arithmetic wraps; the theorems state the bounds under which it does not. *)
From S2P Require Import Prelude Heap.

(** ** Data *)

Record ArenaAllocWithUsageInterval := mkAlloc {
  offset : Z; size : Z; tensor : Z; first_node : Z; last_node : Z }.

Definition alloc_reset : ArenaAllocWithUsageInterval := mkAlloc 0 0 (-1) (-1) (-1).

(** [operator<]. *)
Definition alloc_ltb (a b : ArenaAllocWithUsageInterval) : bool := offset a <? offset b.

Record PointerAlignedPointerPair := mkPair { pointer : Z; aligned_pointer : Z }.

Record ResizableAlignedBuffer := mkBuffer {
  buffer_ : PointerAlignedPointerPair; data_size_ : Z; alignment_ : Z; buf_subgraph_index_ : Z }.

Definition ResizableAlignedBuffer_init (alignment subgraph_index : Z) : ResizableAlignedBuffer :=
  mkBuffer (mkPair 0 0) 0 alignment subgraph_index.

Record SimpleMemoryArena := mkArena {
  committed_ : bool; high_water_mark_ : Z; underlying_buffer_ : ResizableAlignedBuffer;
  active_allocs_ : list ArenaAllocWithUsageInterval }.

Definition SimpleMemoryArena_init (arena_alignment subgraph_index : Z) : SimpleMemoryArena :=
  mkArena false 0 (ResizableAlignedBuffer_init arena_alignment subgraph_index) [].

Definition set_active (l : list ArenaAllocWithUsageInterval) (a : SimpleMemoryArena) :=
  mkArena (committed_ a) (high_water_mark_ a) (underlying_buffer_ a) l.

(** ** Offset assignment *)

(** [AlignTo] at [T = size_t]. *)
Definition AlignTo (alignment off : Z) : Z :=
  if off mod alignment =? 0 then off
  else size_wrap (off + (alignment - off mod alignment)).

Definition with_tensor (t : Z) (a : ArenaAllocWithUsageInterval) :=
  mkAlloc (offset a) (size a) t (first_node a) (last_node a).

(** The second half of both purges: erase the allocations marked with tensor -1. *)
Definition erase_marked (l : list ArenaAllocWithUsageInterval) :=
  filter (fun a => tensor a <> -1) l.

Definition PurgeAfter (node : Z) (a : SimpleMemoryArena) : SimpleMemoryArena :=
  set_active (erase_marked
    ((fun al => if node <? first_node al then with_tensor (-1) al else al) <$> active_allocs_ a)) a.

Definition PurgeActiveAllocs (node : Z) (a : SimpleMemoryArena) : SimpleMemoryArena :=
  set_active (erase_marked
    ((fun al => if last_node al <? node then with_tensor (-1) al else al) <$> active_allocs_ a)) a.

Definition CalculateActiveAllocs `{StdSort} (allocs : list ArenaAllocWithUsageInterval)
    (node : Z) (a : SimpleMemoryArena) : SimpleMemoryArena :=
  set_active (std_sort alloc_ltb
    (filter (fun al => first_node al <= node /\ node <= last_node al) allocs)) a.

Definition ResetAllocs (a : SimpleMemoryArena) : SimpleMemoryArena := set_active [] a.

Definition kOffsetNotAssigned : Z := SIZE_MAX.

(** The loop of [Allocate] over the active allocations: best gap, its fit, and the end of
    the allocations passed so far. *)
Fixpoint best_fit_loop (alignment sz fn ln : Z) (allocs : list ArenaAllocWithUsageInterval)
    (best_offset best_offset_fit current_offset : Z) : Z * Z :=
  match allocs with
  | [] => (best_offset, current_offset)
  | alloc :: rest =>
    if (last_node alloc <? fn) || (ln <? first_node alloc)
    then best_fit_loop alignment sz fn ln rest best_offset best_offset_fit current_offset
    else
      let aligned := AlignTo alignment current_offset in
      let '(best_offset, best_offset_fit) :=
        if (size_wrap (aligned + sz) <=? offset alloc) &&
           (size_wrap (offset alloc - aligned) <? best_offset_fit)
        then (aligned, size_wrap (offset alloc - current_offset))
        else (best_offset, best_offset_fit) in
      let current_offset := Z.max current_offset (size_wrap (offset alloc + size alloc)) in
      if best_offset_fit =? 0 then (best_offset, current_offset)
      else best_fit_loop alignment sz fn ln rest best_offset best_offset_fit current_offset
  end.

(** The offset [Allocate] settles on: the best gap, or the end of what is in use. *)
Definition choose_offset (alignment sz fn ln : Z) (allocs : list ArenaAllocWithUsageInterval) : Z :=
  let '(best_offset, current_offset) :=
    best_fit_loop alignment sz fn ln allocs kOffsetNotAssigned kOffsetNotAssigned 0 in
  if best_offset =? kOffsetNotAssigned then AlignTo alignment current_offset else best_offset.

(** [std::upper_bound] followed by [insert], on a sorted vector. *)
Fixpoint upper_bound_insert (x : ArenaAllocWithUsageInterval)
    (l : list ArenaAllocWithUsageInterval) : list ArenaAllocWithUsageInterval :=
  match l with
  | [] => [x]
  | y :: l' => if alloc_ltb x y then x :: l else y :: upper_bound_insert x l'
  end.

Definition Allocate (alignment sz t fn ln : Z) : M SimpleMemoryArena ArenaAllocWithUsageInterval :=
  let* a := get in
  ensure (alignment <=? alignment_ (underlying_buffer_ a)) ;;;
  if sz =? 0 then ret (mkAlloc 0 sz t fn ln)
  else
    let best_offset := choose_offset alignment sz fn ln (active_allocs_ a) in
    let new_alloc := mkAlloc best_offset sz t fn ln in
    put (mkArena (committed_ a) (Z.max (high_water_mark_ a) (size_wrap (best_offset + sz)))
           (underlying_buffer_ a) (upper_bound_insert new_alloc (active_allocs_ a))) ;;;
    ret new_alloc.

Definition ClearPlan (a : SimpleMemoryArena) : SimpleMemoryArena :=
  mkArena false 0 (underlying_buffer_ a) [].

(** ** The buffer *)

Section Buffer.
Context {MM : Malloc}.

(** The default implementation, with [TF_LITE_HAS_ALIGNED_ALLOC]. *)
Definition AlignedAlloc (sz alignment : Z) : M heap PointerAlignedPointerPair :=
  let allocation_size := AlignTo alignment (size_wrap (sz + alignment - 1)) in
  let* p := aligned_alloc alignment allocation_size in
  ret (mkPair p p).

Definition AlignedFree (buffer : PointerAlignedPointerPair) : M heap unit := free (pointer buffer).

Definition AlignedRealloc (old_buffer : PointerAlignedPointerPair) (old_size new_size alignment : Z)
    : M heap PointerAlignedPointerPair :=
  let* new_buffer := AlignedAlloc new_size alignment in
  (if (0 <? new_size) && (0 <? old_size)
   then memcpy (aligned_pointer new_buffer) (aligned_pointer old_buffer) (Z.min new_size old_size)
   else ret tt) ;;;
  AlignedFree old_buffer ;;;
  ret new_buffer.

Definition on_heap {T A} (c : M heap A) : M (heap * T) A := zoom fst (fun h s => (h, snd s)) c.

Definition set_buffer (b : PointerAlignedPointerPair) (n : Z) (buf : ResizableAlignedBuffer) :=
  mkBuffer b n (alignment_ buf) (buf_subgraph_index_ buf).

Definition Resize (new_size : Z) : M (heap * ResizableAlignedBuffer) bool :=
  let* s := get in
  let buf := snd s in
  if new_size <=? data_size_ buf then ret false
  else
    let* new_buffer := on_heap (AlignedRealloc (buffer_ buf) (data_size_ buf) new_size (alignment_ buf)) in
    let reallocated := negb (aligned_pointer new_buffer =? aligned_pointer (buffer_ buf)) in
    modify (fun s => (fst s, set_buffer new_buffer new_size (snd s))) ;;;
    ret reallocated.

Definition Release : M (heap * ResizableAlignedBuffer) unit :=
  let* s := get in
  let buf := snd s in
  if pointer (buffer_ buf) =? 0 then ret tt
  else
    on_heap (AlignedFree (buffer_ buf)) ;;;
    modify (fun s => (fst s, set_buffer (mkPair 0 0) 0 (snd s))).

Definition on_buffer {A} (c : M (heap * ResizableAlignedBuffer) A) : M (heap * SimpleMemoryArena) A :=
  zoom (fun s => (fst s, underlying_buffer_ (snd s)))
       (fun t s => (fst t, mkArena (committed_ (snd s)) (high_water_mark_ (snd s)) (snd t)
                             (active_allocs_ (snd s)))) c.

Definition set_committed (b : bool) (a : SimpleMemoryArena) :=
  mkArena b (high_water_mark_ a) (underlying_buffer_ a) (active_allocs_ a).

(** Returns [*arena_reallocated]; the status is always [kTfLiteOk]. *)
Definition Commit : M (heap * SimpleMemoryArena) bool :=
  let* s := get in
  let* arena_reallocated := on_buffer (Resize (high_water_mark_ (snd s))) in
  modify (fun s => (fst s, set_committed true (snd s))) ;;;
  ret arena_reallocated.

(** Returns [*output_ptr] (which every caller passes as a non-null address). *)
Definition ResolveAlloc (alloc : ArenaAllocWithUsageInterval) : M SimpleMemoryArena Z :=
  let* a := get in
  ensure (committed_ a) ;;;
  ensure (size_wrap (offset alloc + size alloc) <=? data_size_ (underlying_buffer_ a)) ;;;
  if size alloc =? 0 then ret 0
  else ret (aligned_pointer (buffer_ (underlying_buffer_ a)) + offset alloc).

Definition ReleaseBuffer : M (heap * SimpleMemoryArena) unit :=
  modify (fun s => (fst s, set_committed false (snd s))) ;;;
  on_buffer Release.

Definition GetBufferSize (a : SimpleMemoryArena) : Z := data_size_ (underlying_buffer_ a).

Definition BasePointer (a : SimpleMemoryArena) : Z :=
  aligned_pointer (buffer_ (underlying_buffer_ a)).
End Buffer.

(** ** What the offsets mean *)

Definition range_end (e : ArenaAllocWithUsageInterval) : Z := offset e + size e.

(** The two allocations are needed by a common node. *)
Definition intersects (e f : ArenaAllocWithUsageInterval) : Prop :=
  first_node f <= last_node e /\ first_node e <= last_node f.

Definition disjoint_ranges (e f : ArenaAllocWithUsageInterval) : Prop :=
  range_end e <= offset f \/ range_end f <= offset e \/ size e = 0 \/ size f = 0.

Definition no_clash (e f : ArenaAllocWithUsageInterval) : Prop :=
  intersects e f -> disjoint_ranges e f.

Definition offset_le (e f : ArenaAllocWithUsageInterval) : Prop := offset e <= offset f.

Definition within (bound : Z) (e : ArenaAllocWithUsageInterval) : Prop :=
  0 <= offset e /\ 0 <= size e /\ range_end e <= bound.

(** The invariant of the active allocations: sorted by offset, inside the buffer the next
    [Commit] will provide, and no two of them share a byte while both are in use. *)
Record arena_inv (a : SimpleMemoryArena) : Prop := {
  ai_sorted : StronglySorted offset_le (active_allocs_ a);
  ai_clash : StronglySorted no_clash (active_allocs_ a);
  ai_within : Forall (within (high_water_mark_ a)) (active_allocs_ a);
  ai_mark : 0 <= high_water_mark_ a <= SIZE_MAX;
}.

#[export] Instance offset_le_trans : Transitive offset_le.
Proof. intros x y z. unfold offset_le. lia. Qed.

Lemma no_clash_sym e f : no_clash e f -> no_clash f e.
Proof. unfold no_clash, intersects, disjoint_ranges. intros H Hi. specialize (H ltac:(tauto)). tauto. Qed.

Lemma AlignTo_spec al o : 0 < al -> 0 <= o -> o + al - 1 <= SIZE_MAX ->
  o <= AlignTo al o < o + al /\ (al | AlignTo al o).
Proof.
  intros Hal Ho Hmax. unfold AlignTo. pose proof (Z.mod_pos_bound o al Hal).
  destruct (Z.eqb_spec (o mod al) 0) as [Hz|Hz].
  - split; [lia|]. by apply Z.mod_divide; [lia|].
  - rewrite size_wrap_small by lia. split; [lia|].
    exists (o / al + 1). pose proof (Z.div_mod o al). lia.
Qed.

Lemma alloc_ltb_weak_order : strict_weak_order alloc_ltb.
Proof.
  unfold alloc_ltb. split_and!; intros.
  - apply Z.ltb_irrefl.
  - rewrite Z.ltb_lt in *. lia.
  - rewrite Z.ltb_ge in *. lia.
Qed.

Section BestFit.
Context (al sz fn ln B : Z) (Hal : 0 < al) (Hsz : 0 < sz) (HB : B + al + sz <= SIZE_MAX).

Definition in_use (e : ArenaAllocWithUsageInterval) : Prop :=
  fn <= last_node e /\ first_node e <= ln.

(** What the loop has established when it stops: no gap was found and everything in use
    ends before the final offset, or the gap found is aligned and free. *)
Definition best_fit_result (l : list ArenaAllocWithUsageInterval) (bo cur : Z)
    (r : Z * Z) : Prop :=
  cur <= snd r <= B /\
  ((bo = kOffsetNotAssigned /\ fst r = kOffsetNotAssigned /\
    forall e, e ∈ l -> in_use e -> range_end e <= snd r) \/
   (0 <= fst r /\ fst r + sz <= B /\ (al | fst r) /\ (fst r = bo \/ cur <= fst r) /\
    forall e, e ∈ l -> in_use e -> fst r + sz <= offset e \/ range_end e <= fst r)).

Lemma best_fit_loop_spec l : forall bo bf cur lb,
  0 <= cur <= B -> StronglySorted offset_le l -> Forall (within B) l ->
  Forall (fun e => lb <= offset e) l ->
  (bo = kOffsetNotAssigned /\ bf <> 0 \/ 0 <= bo /\ bo + sz <= lb /\ bo + sz <= B /\ (al | bo)) ->
  best_fit_result l bo cur (best_fit_loop al sz fn ln l bo bf cur).
Proof.
  induction l as [|e l IH]; intros bo bf cur lb Hcur Hsort Hin Hlb Hbo; cbn.
  { split; cbn; [lia|]. destruct Hbo as [[-> _]|(? & ? & ? & ?)]; [left|right];
      split_and!; try done; [by intros ? ?%not_elem_of_nil|by left|by intros ? ?%not_elem_of_nil]. }
  apply StronglySorted_inv in Hsort as [Hsort He].
  apply Forall_cons in Hin as [(He0 & Hes & Hee) Hin]. apply Forall_cons in Hlb as [Hlbe Hlb].
  unfold range_end in *.
  destruct ((last_node e <? fn) || (ln <? first_node e)) eqn:Hskip.
  { assert (Hno : ~ in_use e).
    { unfold in_use. apply orb_true_iff in Hskip as [?%Z.ltb_lt|?%Z.ltb_lt]; lia. }
    destruct (IH bo bf cur lb) as [Hc [(? & ? & H)|(? & ? & ? & ? & H)]]; auto.
    - split; [done|]. left. split_and!; auto. intros f [->|]%elem_of_cons; [done|]. auto.
    - split; [done|]. right. split_and!; auto. intros f [->|]%elem_of_cons; [done|]. auto. }
  destruct (AlignTo_spec al cur) as [Hal1 Hal2]; [lia..|].
  rewrite (size_wrap_small (AlignTo al cur + sz)) by lia.
  rewrite (size_wrap_small (offset e + size e)) by lia.
  set (taken := (AlignTo al cur + sz <=? offset e) &&
                (size_wrap (offset e - AlignTo al cur) <? bf)).
  assert (Hrest : forall f, f ∈ l -> offset e <= offset f).
  { rewrite Forall_forall in He. exact He. }
  destruct taken eqn:Htaken; subst taken.
  - apply andb_true_iff in Htaken as [Hfit%Z.leb_le _].
    destruct (size_wrap (offset e - cur) =? 0) eqn:Hbf.
    + split; cbn; [lia|]. right. split_and!; [lia|lia|done|lia|].
      intros f [->|Hf]%elem_of_cons _; [lia|]. specialize (Hrest f Hf). lia.
    + destruct (IH (AlignTo al cur) (size_wrap (offset e - cur))
                  (Z.max cur (offset e + size e)) (offset e))
        as [Hc [(HNA & _)|(? & ? & ? & Hwhere & H)]]; [lia|done|done| | | |].
      * by apply Forall_forall.
      * right. split_and!; [lia|lia|lia|done].
      * unfold kOffsetNotAssigned in HNA. lia.
      * split; [lia|]. right. split_and!; [done|done|done|lia|].
        intros f [->|Hf]%elem_of_cons Huse; [unfold range_end; lia|]. by apply H.
  - destruct (bf =? 0) eqn:Hbf.
    + apply Z.eqb_eq in Hbf as ->. destruct Hbo as [[_ ?]|(? & ? & ? & ?)]; [done|].
      split; cbn; [lia|]. right. split_and!; [lia|lia|done|lia|].
      intros f [->|Hf]%elem_of_cons _; [lia|]. specialize (Hrest f Hf). lia.
    + destruct (IH bo bf (Z.max cur (offset e + size e)) lb)
        as [Hc [(? & ? & H)|(? & ? & ? & Hwhere & H)]];
        [lia|done|done|done| | |].
      * destruct Hbo as [[-> ?]|?]; [left|right]; done.
      * split; [lia|]. left. split_and!; [done..|].
        intros f [->|Hf]%elem_of_cons Huse; [unfold range_end; lia|]. by apply H.
      * split; [lia|]. right. split_and!; [done|done|done|lia|].
        intros f [->|Hf]%elem_of_cons Huse; [|by apply H].
        unfold range_end. destruct Hbo as [[-> _]|(? & ? & ? & ?)]; [|lia].
        destruct Hwhere as [Hw|Hw]; [|lia]. unfold kOffsetNotAssigned in *. lia.
Qed.
End BestFit.

(** ** The operations keep the invariant *)

Lemma upper_bound_insert_perm x l : upper_bound_insert x l ≡ₚ x :: l.
Proof.
  induction l as [|y l IH]; cbn; [done|]. destruct (alloc_ltb x y); [done|].
  rewrite IH. constructor.
Qed.

Lemma upper_bound_insert_sorted x l :
  StronglySorted offset_le l -> StronglySorted offset_le (upper_bound_insert x l).
Proof.
  induction 1 as [|y l Hl IH Hy]; cbn; [repeat constructor|]. unfold alloc_ltb.
  destruct (Z.ltb_spec (offset x) (offset y)).
  - apply StronglySorted_cons. split; [|by constructor].
    apply Forall_cons. split; [unfold offset_le; lia|].
    eapply Forall_impl; [exact Hy|]. unfold offset_le. lia.
  - constructor; [done|]. rewrite upper_bound_insert_perm.
    apply Forall_cons. split; [unfold offset_le; lia|done].
Qed.

Lemma within_mono b b' e : b <= b' -> within b e -> within b' e.
Proof. unfold within. lia. Qed.

Lemma arena_inv_insert a e :
  arena_inv a -> within SIZE_MAX e -> Forall (no_clash e) (active_allocs_ a) ->
  arena_inv (mkArena (committed_ a) (Z.max (high_water_mark_ a) (range_end e))
               (underlying_buffer_ a) (upper_bound_insert e (active_allocs_ a))).
Proof.
  intros [Hs Hc Hw Hm] He Hno. unfold within in He. split; cbn.
  - by apply upper_bound_insert_sorted.
  - eapply pairwise_Permutation;
      [apply no_clash_sym|symmetry; apply upper_bound_insert_perm|].
    by apply StronglySorted_cons.
  - rewrite upper_bound_insert_perm. apply Forall_cons. split; [unfold within; lia|].
    eapply Forall_impl; [exact Hw|]. intros f. apply within_mono. lia.
  - lia.
Qed.

Lemma arena_inv_filter a (P : ArenaAllocWithUsageInterval -> Prop) `{!forall x, Decision (P x)} :
  arena_inv a -> arena_inv (set_active (filter P (active_allocs_ a)) a).
Proof.
  intros [Hs Hc Hw Hm]. split; cbn; [by apply pairwise_filter..| |done].
  by apply Forall_filter.
Qed.

(** Marking and erasing keeps exactly the allocations that were not marked. *)
Lemma erase_marked_mark (mark : ArenaAllocWithUsageInterval -> bool) l :
  erase_marked ((fun al => if mark al then with_tensor (-1) al else al) <$> l) =
  filter (fun al => mark al = false /\ tensor al <> -1) l.
Proof.
  unfold erase_marked. induction l as [|x l IH]; [done|].
  rewrite fmap_cons, !filter_cons, IH.
  destruct (mark x) eqn:Hm; repeat case_decide; cbn in *; first [done|exfalso; intuition congruence].
Qed.

Lemma PurgeAfter_filter node a :
  PurgeAfter node a =
  set_active (filter (fun al => (node <? first_node al) = false /\ tensor al <> -1)
                (active_allocs_ a)) a.
Proof.
  unfold PurgeAfter. by rewrite (erase_marked_mark (fun al => node <? first_node al)).
Qed.

Lemma PurgeActiveAllocs_filter node a :
  PurgeActiveAllocs node a =
  set_active (filter (fun al => (last_node al <? node) = false /\ tensor al <> -1)
                (active_allocs_ a)) a.
Proof.
  unfold PurgeActiveAllocs. by rewrite (erase_marked_mark (fun al => last_node al <? node)).
Qed.

Lemma PurgeAfter_inv node a : arena_inv a -> arena_inv (PurgeAfter node a).
Proof. rewrite PurgeAfter_filter. by apply arena_inv_filter. Qed.

Lemma PurgeActiveAllocs_inv node a : arena_inv a -> arena_inv (PurgeActiveAllocs node a).
Proof. rewrite PurgeActiveAllocs_filter. by apply arena_inv_filter. Qed.

Lemma ResetAllocs_inv a : arena_inv a -> arena_inv (ResetAllocs a).
Proof. intros [? ? ? ?]. split; cbn; [constructor..|done]. Qed.

Lemma ClearPlan_inv a : arena_inv (ClearPlan a).
Proof. split; cbn; [constructor..|unfold SIZE_MAX; lia]. Qed.

Lemma sorted_offset_le l :
  StronglySorted (fun x y => alloc_ltb y x = false) l -> StronglySorted offset_le l.
Proof.
  induction 1 as [|x l Hl IH Hx]; constructor; [done|].
  eapply Forall_impl; [exact Hx|]. unfold offset_le, alloc_ltb. intros y ?%Z.ltb_ge. lia.
Qed.

(** The allocations that are live at [node], in offset order, satisfy the invariant when
    the whole plan they come from is free of clashes. *)
Lemma CalculateActiveAllocs_inv `{StdSortOk} allocs node a :
  0 <= high_water_mark_ a <= SIZE_MAX ->
  StronglySorted no_clash allocs -> Forall (within (high_water_mark_ a)) allocs ->
  arena_inv (CalculateActiveAllocs allocs node a).
Proof.
  intros Hm Hc Hw. pose proof alloc_ltb_weak_order as Hlt.
  assert (Hp := std_sort_perm alloc_ltb
    (filter (fun al => first_node al <= node /\ node <= last_node al) allocs) Hlt).
  split; cbn; [| | |done].
  - by apply sorted_offset_le, std_sort_sorted.
  - eapply pairwise_Permutation; [apply no_clash_sym|symmetry; exact Hp|].
    by apply pairwise_filter.
  - rewrite Hp. by apply Forall_filter.
Qed.

Lemma choose_offset_free al sz fn ln a :
  arena_inv a -> 0 < al -> 0 < sz -> high_water_mark_ a + al + sz <= SIZE_MAX ->
  let o := choose_offset al sz fn ln (active_allocs_ a) in
  0 <= o /\ o + sz <= high_water_mark_ a + al + sz /\ (al | o) /\
  forall f, f ∈ active_allocs_ a -> in_use fn ln f -> o + sz <= offset f \/ range_end f <= o.
Proof.
  intros [Hs Hc Hw Hm] Hal Hsz Hmax. unfold choose_offset.
  destruct (best_fit_loop_spec al sz fn ln (high_water_mark_ a)) with
    (l := active_allocs_ a) (bo := kOffsetNotAssigned) (bf := kOffsetNotAssigned) (cur := 0) (lb := 0)
    as [Hcur Hres]; try done; [lia..| | |].
  { eapply Forall_impl; [exact Hw|]. unfold within. lia. }
  { by left. }
  destruct (best_fit_loop al sz fn ln (active_allocs_ a) kOffsetNotAssigned kOffsetNotAssigned 0)
    as [bo cur]; cbn in *.
  destruct Hres as [(_ & -> & Hf)|(? & ? & ? & _ & Hf)].
  - rewrite Z.eqb_refl. destruct (AlignTo_spec al cur); [lia..|].
    split_and!; [lia|lia|done|]. intros f Hfin Huse. specialize (Hf f Hfin Huse). lia.
  - destruct (Z.eqb_spec bo kOffsetNotAssigned); [unfold kOffsetNotAssigned in *; lia|].
    split_and!; [lia|lia|done|done].
Qed.

Lemma Allocate_spec al sz t fn ln a :
  arena_inv a -> 0 < al <= alignment_ (underlying_buffer_ a) -> 0 <= sz ->
  high_water_mark_ a + al + sz <= SIZE_MAX ->
  exists e a', Allocate al sz t fn ln a = (Done e, a') /\
    e = mkAlloc (offset e) sz t fn ln /\ (al | offset e) /\ within (high_water_mark_ a') e /\
    Forall (no_clash e) (active_allocs_ a) /\
    arena_inv a' /\ high_water_mark_ a <= high_water_mark_ a' <= high_water_mark_ a + al + sz /\
    active_allocs_ a' ≡ₚ (if sz =? 0 then active_allocs_ a else e :: active_allocs_ a) /\
    underlying_buffer_ a' = underlying_buffer_ a /\ (sz = 0 -> offset e = 0).
Proof.
  intros Hinv [Hal Hbuf] Hsz Hmax. pose proof (ai_mark a Hinv) as Hm.
  unfold Allocate, bind, get, ensure. rewrite (proj2 (Z.leb_le _ _) Hbuf). cbn.
  destruct (Z.eqb_spec sz 0) as [->|Hnz].
  { eexists _, a. cbn. split_and!; [done..| | | |done|lia|lia|done|done|done].
    - by exists 0.
    - unfold within, range_end. cbn. lia.
    - apply Forall_forall. intros f _ _. unfold disjoint_ranges. cbn. auto. }
  destruct (choose_offset_free al sz fn ln a) as (Ho0 & Hoend & Hodiv & Hofree); [done|lia..|].
  set (o := choose_offset al sz fn ln (active_allocs_ a)) in *.
  set (e := mkAlloc o sz t fn ln).
  assert (He : within SIZE_MAX e) by (unfold within, range_end, e; cbn; lia).
  assert (Hno : Forall (no_clash e) (active_allocs_ a)).
  { apply Forall_forall. intros f Hf Huse. unfold disjoint_ranges, range_end at 1, e; cbn.
    destruct (Hofree f Hf); [|lia..]. unfold intersects, in_use, e in *. cbn in *. lia. }
  rewrite (size_wrap_small (o + sz)) by lia.
  exists e. eexists. split; [reflexivity|].
  split_and!; [done|done| |done|exact (arena_inv_insert a e Hinv He Hno)|
    cbn; lia|cbn; lia|apply upper_bound_insert_perm|done|lia].
  unfold within, range_end, e. cbn. lia.
Qed.

(** ** The buffer holds every allocation *)

(** The buffer is empty, or it is a live aligned block of at least [data_size_] bytes. *)
Definition buffer_ok (h : heap) (b : ResizableAlignedBuffer) : Prop :=
  0 < alignment_ b /\ 0 <= data_size_ b /\
  aligned_pointer (buffer_ b) = pointer (buffer_ b) /\
  (pointer (buffer_ b) = 0 /\ data_size_ b = 0 \/
   exists m, live h !! pointer (buffer_ b) = Some m /\ data_size_ b <= m /\
     (alignment_ b | pointer (buffer_ b))).

Section BufferLaws.
Context {MM : Malloc} {MMOk : MallocOk}.

(** The size [AlignedAlloc] asks for. *)
Definition allocation_size (sz al : Z) : Z := AlignTo al (size_wrap (sz + al - 1)).

(** There is memory for a buffer of [n] bytes. *)
Definition memory_for (h : heap) (b : ResizableAlignedBuffer) (n : Z) : Prop :=
  malloc_place h (alignment_ b) (allocation_size n (alignment_ b)) <> 0.

(** What a resize to [n] bytes promises. *)
Definition resized (h : heap) (b : ResizableAlignedBuffer) (n : Z)
    (h' : heap) (b' : ResizableAlignedBuffer) (moved : bool) : Prop :=
  heap_wf h' /\ buffer_ok h' b' /\ alignment_ b' = alignment_ b /\
  data_size_ b' = Z.max n (data_size_ b) /\
  moved = negb (aligned_pointer (buffer_ b') =? aligned_pointer (buffer_ b)) /\
  (forall k, 0 <= k < data_size_ b ->
    mem h' (aligned_pointer (buffer_ b') + k) = mem h (aligned_pointer (buffer_ b) + k)) /\
  (forall c m, c <> pointer (buffer_ b) -> live h !! c = Some m ->
    live h' !! c = Some m /\ forall k, c <= k < c + m -> mem h' k = mem h k).

Lemma allocation_size_spec sz al : 0 < al -> 0 <= sz -> sz + 2 * al <= SIZE_MAX ->
  sz <= allocation_size sz al.
Proof.
  intros. unfold allocation_size. rewrite size_wrap_small by lia.
  destruct (AlignTo_spec al (sz + al - 1)); lia.
Qed.

Lemma AlignedRealloc_spec h b n :
  heap_wf h -> buffer_ok h b -> data_size_ b < n -> n + 2 * alignment_ b <= SIZE_MAX ->
  memory_for h b n ->
  exists p h', AlignedRealloc (buffer_ b) (data_size_ b) n (alignment_ b) h = (Done (mkPair p p), h') /\
    resized h b n h' (set_buffer (mkPair p p) n b) (negb (p =? aligned_pointer (buffer_ b))).
Proof.
  intros Hwf (Hal & Hd & Heq & Hbuf) Hn Hmax Hmem.
  pose proof (allocation_size_spec n (alignment_ b) Hal ltac:(lia) Hmax) as Hsize.
  pose proof (aligned_alloc_spec h (alignment_ b) (allocation_size n (alignment_ b)) Hal
    ltac:(lia) Hwf) as Halloc.
  unfold AlignedRealloc, AlignedAlloc, bind, ret. fold (allocation_size n (alignment_ b)).
  destruct (aligned_alloc _ _ h) as [r h1] eqn:Ha.
  destruct Halloc as (Hwf1 & Hmem1 & [[-> ->]|(p & -> & Hfresh & Hdiv & Hlive)]).
  { exfalso. unfold aligned_alloc, memory_for in *.
    destruct (Z.eqb_spec (malloc_place h (alignment_ b) (allocation_size n (alignment_ b))) 0);
      [done|]. simplify_eq. }
  cbn. destruct Hfresh as (Hp0 & Hp1 & Hpnone & Hpdis).
  destruct (Z.ltb_spec 0 n); [|lia]. cbn.
  assert (Hold : forall c m, live h !! c = Some m -> c <> p /\ live h1 !! c = Some m).
  { intros c m Hc. assert (c <> p) by naive_solver. by rewrite Hlive, lookup_insert_ne. }
  destruct Hbuf as [[Hptr Hdz]|(m & Hm & Hdm & Hdivold)].
  - rewrite Hdz. cbn. unfold AlignedFree, free. rewrite Hptr. cbn.
    eexists p, h1. split; [done|]. rewrite Heq, Hptr. unfold resized, buffer_ok. cbn.
    rewrite Hptr, Hdz, Heq, Hptr. split_and!; try done; try lia.
    + right. exists (allocation_size n (alignment_ b)). rewrite Hlive, lookup_insert_eq.
      split_and!; [done|lia|done].
    + intros c k Hc Hk. destruct (Hold c k Hk). split; [done|]. by rewrite Hmem1.
  - destruct (Hold _ _ Hm) as [Hpne Hm1].
    pose proof (heap_wf_range _ Hwf _ _ Hm) as Hrange.
    unfold AlignedFree, free. destruct (Z.eqb_spec (pointer (buffer_ b)) 0); [lia|].
    set (f := if 0 <? data_size_ b
              then copy_bytes (mem h1) p (aligned_pointer (buffer_ b)) (Z.min n (data_size_ b))
              else mem h1).
    exists p, (Heap (delete (pointer (buffer_ b)) (live h1)) f).
    assert (Hcopy : forall k, f k = mem h k \/ p <= k < p + Z.min n (data_size_ b)).
    { intros k. subst f. destruct (0 <? data_size_ b); [|left; by rewrite Hmem1].
      unfold copy_bytes. destruct (Z.leb_spec p k), (Z.ltb_spec k (p + Z.min n (data_size_ b)));
        cbn; rewrite ?Hmem1; auto. }
    split.
    { subst f. destruct (Z.ltb_spec 0 (data_size_ b)); cbn.
      - unfold memcpy. rewrite !(proj2 (in_live_block_spec h1 _ _)); cbn; [by rewrite Hm1| |].
        + exists (pointer (buffer_ b)), m. rewrite Heq. split_and!; [done|lia..].
        + exists p, (allocation_size n (alignment_ b)). rewrite Hlive, lookup_insert_eq.
          split_and!; [done|lia..].
      - rewrite Hm1. by destruct h1. }
    unfold resized, buffer_ok. cbn. split_and!; try done; try lia.
    + destruct (free_wf h1 (pointer (buffer_ b)) Hwf1) as [Hr Hdj]. unfold free in *.
      destruct (Z.eqb_spec (pointer (buffer_ b)) 0); [lia|]. rewrite Hm1 in *. by split.
    + right. exists (allocation_size n (alignment_ b)).
      rewrite lookup_delete_ne, Hlive, lookup_insert_eq by done. split_and!; [done|lia|done].
    + intros k Hk. subst f. destruct (Z.ltb_spec 0 (data_size_ b)); [|lia].
      unfold copy_bytes. rewrite Hmem1.
      destruct (Z.leb_spec p (p + k)), (Z.ltb_spec (p + k) (p + Z.min n (data_size_ b)));
        cbn; [|lia..]. f_equal. lia.
    + intros c k Hc Hk. destruct (Hold c k Hk) as [Hcp Hc1].
      rewrite lookup_delete_ne by done. split; [done|]. intros a Ha'.
      destruct (Hcopy a) as [->|?]; [done|]. destruct (Hpdis c k Hk); lia.
Qed.

Lemma Resize_spec h b n :
  heap_wf h -> buffer_ok h b -> 0 <= n -> n + 2 * alignment_ b <= SIZE_MAX ->
  (data_size_ b < n -> memory_for h b n) ->
  exists moved h' b', Resize n (h, b) = (Done moved, (h', b')) /\ resized h b n h' b' moved.
Proof.
  intros Hwf Hok Hn Hmax Hmem. unfold Resize, bind, get, ret. cbn.
  destruct (Z.leb_spec n (data_size_ b)) as [Hle|Hlt].
  - exists false, h, b. split; [done|]. unfold resized. rewrite Z.eqb_refl.
    split_and!; try done; lia.
  - destruct (AlignedRealloc_spec h b n Hwf Hok Hlt Hmax (Hmem Hlt)) as (p & h' & Hrun & Hres).
    unfold on_heap, zoom, modify. cbn. rewrite Hrun. cbn. eexists _, _, _. split; [done|]. done.
Qed.

Definition with_buffer (b : ResizableAlignedBuffer) (a : SimpleMemoryArena) :=
  mkArena true (high_water_mark_ a) b (active_allocs_ a).

Lemma Commit_spec h a :
  heap_wf h -> buffer_ok h (underlying_buffer_ a) -> 0 <= high_water_mark_ a ->
  high_water_mark_ a + 2 * alignment_ (underlying_buffer_ a) <= SIZE_MAX ->
  (data_size_ (underlying_buffer_ a) < high_water_mark_ a ->
   memory_for h (underlying_buffer_ a) (high_water_mark_ a)) ->
  exists moved h' b', Commit (h, a) = (Done moved, (h', with_buffer b' a)) /\
    resized h (underlying_buffer_ a) (high_water_mark_ a) h' b' moved.
Proof.
  intros Hwf Hok Hn Hmax Hmem.
  destruct (Resize_spec h _ _ Hwf Hok Hn Hmax Hmem) as (moved & h' & b' & Hrun & Hres).
  unfold Commit, bind, get, on_buffer, zoom, modify, ret. cbn -[Resize]. rewrite Hrun. cbn. eauto 6.
Qed.

(** A buffer that has not been allocated yet. *)
Definition buffer_empty (b : ResizableAlignedBuffer) : Prop :=
  buffer_ b = mkPair 0 0 /\ data_size_ b = 0.

Lemma Commit_empty h a : buffer_empty (underlying_buffer_ a) -> 0 <= high_water_mark_ a ->
  exists moved h' b', Commit (h, a) = (Done moved, (h', with_buffer b' a)) /\
    data_size_ b' = high_water_mark_ a /\ moved = negb (aligned_pointer (buffer_ b') =? 0).
Proof.
  intros [Hb Hd] Hm. unfold Commit, bind, get, on_buffer, zoom, modify, ret. cbn -[Resize].
  unfold Resize, bind, get, ret. cbn. rewrite Hd, Hb.
  destruct (Z.leb_spec (high_water_mark_ a) 0).
  - exists false, h, (underlying_buffer_ a). split; [done|]. rewrite Hd, Hb. split; [lia|done].
  - unfold on_heap, zoom, AlignedRealloc, AlignedAlloc, aligned_alloc, bind, ret, modify. cbn.
    rewrite (proj2 (Z.ltb_lt _ _)) by done. cbn.
    destruct (malloc_place h _ _ =? 0); cbn; (eexists _, _, _; split; [reflexivity|]); cbn; done.
Qed.

Lemma ResolveAlloc_run a e :
  committed_ a = true -> within (GetBufferSize a) e -> GetBufferSize a <= SIZE_MAX ->
  ResolveAlloc e a = (Done (if size e =? 0 then 0 else BasePointer a + offset e), a).
Proof.
  intros Hc (He0 & Hes & Hee) Hmax.
  unfold ResolveAlloc, bind, get, ensure, ret, fail, GetBufferSize, BasePointer, range_end in *.
  rewrite Hc, size_wrap_small by lia. cbn. rewrite (proj2 (Z.leb_le _ _) Hee).
  by destruct (size e =? 0).
Qed.

Lemma ResolveAlloc_spec h a e :
  committed_ a = true -> buffer_ok h (underlying_buffer_ a) ->
  within (GetBufferSize a) e -> GetBufferSize a <= SIZE_MAX ->
  exists p, ResolveAlloc e a = (Done p, a) /\
    (if size e =? 0 then p = 0
     else p = BasePointer a + offset e /\ in_live_block h p (size e) = true).
Proof.
  intros Hc (Hal & Hd & Heq & Hbuf) Hwithin Hmax. rewrite ResolveAlloc_run by done.
  destruct Hwithin as (He0 & Hes & Hee). eexists. split; [done|].
  destruct (Z.eqb_spec (size e) 0) as [|Hz]; [done|]. split; [done|]. apply in_live_block_spec.
  unfold GetBufferSize, BasePointer, range_end in *.
  destruct Hbuf as [[? Hdz]|(m & Hm & Hdm & _)]; [lia|].
  exists (pointer (buffer_ (underlying_buffer_ a))), m. rewrite Heq. split_and!; [done|lia..].
Qed.
End BufferLaws.

(** *** Reachable arenas *)

(** The offset-assigning operations an arena goes through between two commits. *)
Inductive arena_step : SimpleMemoryArena -> SimpleMemoryArena -> Prop :=
  | step_Allocate al sz t fn ln a r a' :
      0 < al -> 0 <= sz -> high_water_mark_ a + al + sz <= SIZE_MAX ->
      Allocate al sz t fn ln a = (r, a') -> arena_step a a'
  | step_PurgeAfter node a : arena_step a (PurgeAfter node a)
  | step_PurgeActiveAllocs node a : arena_step a (PurgeActiveAllocs node a)
  | step_ResetAllocs a : arena_step a (ResetAllocs a)
  | step_ClearPlan a : arena_step a (ClearPlan a).

Lemma arena_step_inv a a' : arena_step a a' -> arena_inv a -> arena_inv a'.
Proof.
  intros Hstep Hinv. destruct Hstep as [al sz t fn ln a r a' Hal Hsz Hmax Hrun| | | |].
  - destruct (Z.leb_spec al (alignment_ (underlying_buffer_ a))) as [Hle|Hgt].
    + destruct (Allocate_spec al sz t fn ln a Hinv) as (e & a'' & Hrun' & _ & _ & _ & _ & ? & _);
        [done..|]. rewrite Hrun in Hrun'. by simplify_eq.
    + unfold Allocate, bind, get, ensure, fail in Hrun. cbn in Hrun.
      rewrite (proj2 (Z.leb_gt _ _) Hgt) in Hrun. by simplify_eq.
  - by apply PurgeAfter_inv.
  - by apply PurgeActiveAllocs_inv.
  - by apply ResetAllocs_inv.
  - apply ClearPlan_inv.
Qed.

Lemma arena_init_inv al idx : arena_inv (SimpleMemoryArena_init al idx).
Proof. split; cbn; [constructor..|unfold SIZE_MAX; lia]. Qed.

(** *** Properties *)

(** C19. In every arena reachable from a new one by any sequence of [Allocate] (within the
    64-bit bound), purges, [ResetAllocs] and [ClearPlan], two active allocations whose usage
    intervals intersect occupy disjoint byte ranges, and both ranges lie below the
    high-water mark that [Commit] will provide. *)
Theorem reachable_arena_no_overlap alignment idx a i j e f :
  rtc arena_step (SimpleMemoryArena_init alignment idx) a ->
  i <> j -> active_allocs_ a !! i = Some e -> active_allocs_ a !! j = Some f ->
  intersects e f ->
  disjoint_ranges e f /\ within (high_water_mark_ a) e /\ within (high_water_mark_ a) f.
Proof.
  intros Hsteps Hij He Hf Huse.
  assert (Hinv : arena_inv a).
  { revert Hsteps. generalize (arena_init_inv alignment idx).
    intros Hinit Hsteps. induction Hsteps; eauto using arena_step_inv. }
  destruct Hinv as [_ Hc Hw _]. rewrite Forall_forall in Hw. split_and!.
  - exact (pairwise_elim no_clash no_clash_sym _ i j e f Hc Hij He Hf Huse).
  - by eapply Hw, list_elem_of_lookup_2.
  - by eapply Hw, list_elem_of_lookup_2.
Qed.

Lemma best_fit_loop_filter al sz fn ln (P : ArenaAllocWithUsageInterval -> Prop)
    `{!forall x, Decision (P x)} l bo bf cur :
  (forall e, e ∈ l -> in_use fn ln e -> P e) ->
  best_fit_loop al sz fn ln (filter P l) bo bf cur = best_fit_loop al sz fn ln l bo bf cur.
Proof.
  revert bo bf cur. induction l as [|e l IH]; intros bo bf cur HP; [done|].
  assert (IH' := fun bo bf cur => IH bo bf cur (fun f Hf => HP f (list_elem_of_further _ _ _ Hf))).
  rewrite filter_cons. case_decide as He; cbn.
  - rewrite !IH'. destruct ((size_wrap (AlignTo al cur + sz) <=? offset e) && _); by rewrite ?IH'.
  - destruct ((last_node e <? fn) || (ln <? first_node e)) eqn:Hskip; [by rewrite IH'|].
    destruct He. apply HP; [left|]. unfold in_use.
    apply orb_false_iff in Hskip as [?%Z.ltb_ge ?%Z.ltb_ge]. lia.
Qed.

(** [PurgeActiveAllocs(node)] "has no impact on the results": an allocation first used at
    or after [node] gets the same offset, and the arena the same high-water mark, whether or
    not the allocations that ended before [node] were purged. *)
Theorem PurgeActiveAllocs_transparent node al sz t fn ln a :
  node <= fn -> Forall (fun e => tensor e <> -1) (active_allocs_ a) ->
  fst (Allocate al sz t fn ln (PurgeActiveAllocs node a)) = fst (Allocate al sz t fn ln a) /\
  high_water_mark_ (snd (Allocate al sz t fn ln (PurgeActiveAllocs node a))) =
  high_water_mark_ (snd (Allocate al sz t fn ln a)).
Proof.
  intros Hnode Ht. rewrite PurgeActiveAllocs_filter.
  unfold Allocate, bind, get, ensure, ret, fail, put. cbn.
  destruct (al <=? alignment_ (underlying_buffer_ a)); [|done].
  destruct (sz =? 0); [done|]. unfold choose_offset. cbn.
  rewrite best_fit_loop_filter; [done|]. rewrite Forall_forall in Ht.
  intros e He [Hlast _]. split; [apply Z.ltb_ge; lia|by apply Ht].
Qed.

Section CommitResolve.
Context {MM : Malloc} {MMOk : MallocOk}.

(** After [Commit], two allocations of the plan that are in use together resolve to
    addresses in one live heap block, at disjoint byte ranges, and every byte of the old
    buffer is still found at its offset in the new one. *)
Theorem Commit_ResolveAlloc_disjoint h a i j e f :
  heap_wf h -> buffer_ok h (underlying_buffer_ a) -> arena_inv a ->
  high_water_mark_ a + 2 * alignment_ (underlying_buffer_ a) <= SIZE_MAX ->
  GetBufferSize a <= SIZE_MAX ->
  (GetBufferSize a < high_water_mark_ a -> memory_for h (underlying_buffer_ a) (high_water_mark_ a)) ->
  i <> j -> active_allocs_ a !! i = Some e -> active_allocs_ a !! j = Some f ->
  intersects e f -> 0 < size e -> 0 < size f ->
  exists moved h' a' p q,
    Commit (h, a) = (Done moved, (h', a')) /\
    ResolveAlloc e a' = (Done p, a') /\ ResolveAlloc f a' = (Done q, a') /\
    in_live_block h' p (size e) = true /\ in_live_block h' q (size f) = true /\
    (p + size e <= q \/ q + size f <= p) /\
    (forall k, 0 <= k < GetBufferSize a -> mem h' (BasePointer a' + k) = mem h (BasePointer a + k)).
Proof.
  intros Hwf Hok [_ Hc Hw Hm] Hmax Hsz Hmem Hij He Hf Huse Hse Hsf.
  destruct (Commit_spec h a Hwf Hok ltac:(lia) Hmax Hmem) as (moved & h' & b' & Hrun & Hres).
  destruct Hres as (Hwf' & Hok' & Hal & Hdata & _ & Hkeep & _).
  assert (Hwithin : forall g, g ∈ active_allocs_ a -> within (GetBufferSize (with_buffer b' a)) g).
  { intros g Hg. rewrite Forall_forall in Hw. eapply within_mono; [|by apply Hw].
    unfold GetBufferSize. cbn. lia. }
  assert (Hsz' : GetBufferSize (with_buffer b' a) <= SIZE_MAX).
  { unfold GetBufferSize in *. cbn. lia. }
  destruct (ResolveAlloc_spec h' (with_buffer b' a) e) as (p & Hp & Hpv); try done.
  { by eapply Hwithin, list_elem_of_lookup_2. }
  destruct (ResolveAlloc_spec h' (with_buffer b' a) f) as (q & Hq & Hqv); try done.
  { by eapply Hwithin, list_elem_of_lookup_2. }
  rewrite (proj2 (Z.eqb_neq (size e) 0)) in Hpv by lia.
  rewrite (proj2 (Z.eqb_neq (size f) 0)) in Hqv by lia.
  destruct Hpv as [-> Hpl], Hqv as [-> Hql].
  exists moved, h', (with_buffer b' a). eexists _, _. split_and!; try done.
  pose proof (pairwise_elim no_clash no_clash_sym _ i j e f Hc Hij He Hf Huse) as Hdis.
  unfold disjoint_ranges, range_end in Hdis. lia.
Qed.
End CommitResolve.

(** When the C library has no memory, the first [Commit] still reports success, and
    [ResolveAlloc] then hands out the bare offset as a pointer. *)
Theorem Commit_ignores_allocation_failure {MM : Malloc} h al idx sz t fn ln e a :
  (forall h al n, malloc_place h al n = 0) ->
  0 < al -> 0 < sz -> sz + 2 * al <= SIZE_MAX ->
  Allocate al sz t fn ln (SimpleMemoryArena_init al idx) = (Done e, a) ->
  exists moved a', Commit (h, a) = (Done moved, (h, a')) /\
    ResolveAlloc e a' = (Done (offset e), a') /\ in_live_block heap_empty (offset e) sz = false.
Proof.
  intros Hnull Hal Hsz Hmax Hrun.
  assert (Hzero : AlignTo al 0 = 0).
  { unfold AlignTo. by rewrite Z.mod_0_l by lia. }
  unfold Allocate, bind, get, ensure, put, ret in Hrun. cbn in Hrun.
  rewrite Z.leb_refl in Hrun. rewrite (proj2 (Z.eqb_neq sz 0)) in Hrun by lia.
  unfold choose_offset in Hrun. cbn in Hrun. rewrite Z.eqb_refl, Hzero in Hrun.
  rewrite Z.add_0_l, size_wrap_small in Hrun by lia. simplify_eq.
  unfold Commit, bind, get, on_buffer, zoom, modify, ret, Resize. cbn.
  rewrite Z.max_r by lia. rewrite (proj2 (Z.leb_gt sz 0)) by lia.
  unfold on_heap, zoom, AlignedRealloc, AlignedAlloc, bind, ret, aligned_alloc. cbn.
  rewrite Hnull. cbn. rewrite (proj2 (Z.ltb_lt 0 sz)) by lia. cbn.
  eexists _, _. split; [done|]. unfold ResolveAlloc, bind, get, ensure, ret. cbn.
  rewrite size_wrap_small, Z.leb_refl by lia. cbn.
  rewrite (proj2 (Z.eqb_neq sz 0)) by lia. done.
Qed.

(** *** Witnesses *)

(** Three tensors, two of which are in use together at nodes 1 and 2. *)
Definition example_arena : SimpleMemoryArena :=
  let a0 := SimpleMemoryArena_init 64 0 in
  let a1 := snd (Allocate 64 100 0 0 2 a0) in
  let a2 := snd (Allocate 64 200 1 1 3 a1) in
  snd (Allocate 64 50 2 3 4 a2).

Lemma example_arena_reachable : rtc arena_step (SimpleMemoryArena_init 64 0) example_arena.
Proof.
  unfold example_arena.
  eapply rtc_l; [eapply (step_Allocate 64 100 0 0 2); [lia|lia|by vm_compute|apply surjective_pairing]|].
  eapply rtc_l; [eapply (step_Allocate 64 200 1 1 3); [lia|lia|by vm_compute|apply surjective_pairing]|].
  eapply rtc_l; [eapply (step_Allocate 64 50 2 3 4); [lia|lia|by vm_compute|apply surjective_pairing]|].
  apply rtc_refl.
Defined.

Lemma reachable_arena_no_overlap_witness :
  disjoint_ranges (mkAlloc 0 100 0 0 2) (mkAlloc 128 200 1 1 3) /\
  within 328 (mkAlloc 0 100 0 0 2) /\ within 328 (mkAlloc 128 200 1 1 3).
Proof.
  apply (reachable_arena_no_overlap 64 0 example_arena 0 2); [apply example_arena_reachable|..];
    [done|by vm_compute|by vm_compute|by split].
Defined.

Lemma PurgeActiveAllocs_transparent_witness :
  fst (Allocate 64 10 3 4 5 (PurgeActiveAllocs 4 example_arena)) =
  fst (Allocate 64 10 3 4 5 example_arena) /\
  high_water_mark_ (snd (Allocate 64 10 3 4 5 (PurgeActiveAllocs 4 example_arena))) =
  high_water_mark_ (snd (Allocate 64 10 3 4 5 example_arena)).
Proof.
  apply PurgeActiveAllocs_transparent; [lia|]. vm_compute. by repeat constructor.
Defined.

Lemma Commit_ResolveAlloc_disjoint_witness :
  exists moved h' a' p q,
    @Commit bump_place (heap_empty, example_arena) = (Done moved, (h', a')) /\
    ResolveAlloc (mkAlloc 0 100 0 0 2) a' = (Done p, a') /\
    ResolveAlloc (mkAlloc 128 200 1 1 3) a' = (Done q, a') /\
    in_live_block h' p 100 = true /\ in_live_block h' q 200 = true /\
    (p + 100 <= q \/ q + 200 <= p) /\
    (forall k, 0 <= k < GetBufferSize example_arena ->
       mem h' (BasePointer a' + k) = mem heap_empty (BasePointer example_arena + k)).
Proof.
  apply (@Commit_ResolveAlloc_disjoint bump_place bump_place_ok heap_empty example_arena 0 2).
  - apply heap_empty_wf.
  - split_and!; [done|done|done|by left].
  - pose proof example_arena_reachable as Hr. generalize (arena_init_inv 64 0).
    induction Hr; eauto using arena_step_inv.
  - by vm_compute.
  - by vm_compute.
  - by vm_compute.
  - done.
  - by vm_compute.
  - by vm_compute.
  - by split.
  - done.
  - done.
Defined.

Lemma Commit_ignores_allocation_failure_witness :
  let a := snd (Allocate 64 100 0 0 2 (SimpleMemoryArena_init 64 0)) in
  exists moved a', @Commit (fun _ _ _ => 0) (heap_empty, a) = (Done moved, (heap_empty, a')) /\
    ResolveAlloc (mkAlloc 0 100 0 0 2) a' = (Done 0, a') /\ in_live_block heap_empty 0 100 = false.
Proof.
  apply (@Commit_ignores_allocation_failure (fun _ _ _ => 0) heap_empty 64 0 100 0 0 2);
    [done|lia|lia|by vm_compute|by vm_compute].
Defined.
