(* ===== verification/Common.v ===== *)
(** * Tensors, nodes and registrations (tensorflow/lite/core/c/common.{h,cc})

    The data of the C API: [TfLiteTensor], [TfLiteNode], [TfLiteRegistration] and the
    operations of [common.cc] on them.  A [TfLiteIntArray*] is an [option (list Z)]
    ([None] is a null pointer): the arrays are modelled by their contents, not by their
    heap blocks.  The [data] of a tensor is an address of the heap (0 is null). *)
From Stdlib Require Import String.
From S2P Require Import Prelude Heap.
#[local] Open Scope string_scope.
#[local] Open Scope Z_scope.

(** ** Types *)

Inductive TfLiteType :=
  | kTfLiteNoType | kTfLiteFloat32 | kTfLiteInt32 | kTfLiteUInt8 | kTfLiteInt64
  | kTfLiteString | kTfLiteBool | kTfLiteInt16 | kTfLiteComplex64 | kTfLiteInt8
  | kTfLiteFloat16 | kTfLiteFloat64 | kTfLiteComplex128 | kTfLiteUInt64 | kTfLiteResource
  | kTfLiteVariant | kTfLiteUInt32 | kTfLiteUInt16 | kTfLiteInt4 | kTfLiteBFloat16
  | kTfLiteInt2 | kTfLiteUInt4.

#[global] Instance TfLiteType_eq_dec : EqDecision TfLiteType.
Proof. solve_decision. Defined.

Inductive TfLiteAllocationType :=
  | kTfLiteMemNone | kTfLiteMmapRo | kTfLiteArenaRw | kTfLiteArenaRwPersistent
  | kTfLiteDynamic | kTfLitePersistentRo | kTfLiteCustom | kTfLiteVariantObject
  | kTfLiteNonCpu.

#[global] Instance TfLiteAllocationType_eq_dec : EqDecision TfLiteAllocationType.
Proof. solve_decision. Defined.

(** The number of types of external contexts, the last value of [TfLiteExternalContextType]. *)
Definition kTfLiteMaxExternalContexts : Z := 5.

Definition TfLiteIntArray : Type := option (list Z).

(** [float] values are kept as their 32 bits. *)
Record TfLiteQuantizationParams := mkQuantParams { qp_scale : Z; qp_zero_point : Z }.

Inductive TfLiteQuantization :=
  | kTfLiteNoQuantization
  | kTfLiteAffineQuantization (scale : option (list Z)) (zero_point : TfLiteIntArray)
      (quantized_dimension : Z)
  | kTfLiteBlockwiseQuantization (scale zero_point blocksize quantized_dimension : Z).

Inductive TfLiteDimensionType := kTfLiteDimDense | kTfLiteDimSparseCSR.

Record TfLiteDimensionMetadata := mkDimMetadata {
  format : TfLiteDimensionType; dense_size : Z;
  array_segments : TfLiteIntArray; array_indices : TfLiteIntArray }.

Record TfLiteSparsity := mkSparsity {
  traversal_order : TfLiteIntArray; block_map : TfLiteIntArray;
  dim_metadata : list TfLiteDimensionMetadata }.

(** The fields of [TfLiteTensor]; [t_allocation] and [t_delegate] are addresses. *)
Record TfLiteTensor := mkTensor {
  t_type : TfLiteType;
  t_data : Z;
  t_dims : TfLiteIntArray;
  t_params : TfLiteQuantizationParams;
  t_allocation_type : TfLiteAllocationType;
  t_bytes : Z;
  t_allocation : Z;
  t_name : option string;
  t_delegate : Z;
  t_buffer_handle : Z;
  t_data_is_stale : bool;
  t_is_variable : bool;
  t_quantization : TfLiteQuantization;
  t_sparsity : option TfLiteSparsity;
  t_dims_signature : TfLiteIntArray }.

Definition kTfLiteNullBufferHandle : Z := -1.
Definition kTfLiteOptionalTensor : Z := -1.

(** A tensor whose fields are all zero, as [calloc] and [memset] leave it. *)
Definition tensor_zero : TfLiteTensor :=
  mkTensor kTfLiteNoType 0 None (mkQuantParams 0 0) kTfLiteMemNone 0 0 None 0 0 false false
    kTfLiteNoQuantization None None.

Definition set_data (p : Z) (t : TfLiteTensor) : TfLiteTensor :=
  mkTensor (t_type t) p (t_dims t) (t_params t) (t_allocation_type t) (t_bytes t)
    (t_allocation t) (t_name t) (t_delegate t) (t_buffer_handle t) (t_data_is_stale t)
    (t_is_variable t) (t_quantization t) (t_sparsity t) (t_dims_signature t).

Definition set_bytes (n : Z) (t : TfLiteTensor) : TfLiteTensor :=
  mkTensor (t_type t) (t_data t) (t_dims t) (t_params t) (t_allocation_type t) n
    (t_allocation t) (t_name t) (t_delegate t) (t_buffer_handle t) (t_data_is_stale t)
    (t_is_variable t) (t_quantization t) (t_sparsity t) (t_dims_signature t).

Definition set_dims (d : TfLiteIntArray) (t : TfLiteTensor) : TfLiteTensor :=
  mkTensor (t_type t) (t_data t) d (t_params t) (t_allocation_type t) (t_bytes t)
    (t_allocation t) (t_name t) (t_delegate t) (t_buffer_handle t) (t_data_is_stale t)
    (t_is_variable t) (t_quantization t) (t_sparsity t) (t_dims_signature t).

Definition set_allocation_type (a : TfLiteAllocationType) (t : TfLiteTensor) : TfLiteTensor :=
  mkTensor (t_type t) (t_data t) (t_dims t) (t_params t) a (t_bytes t)
    (t_allocation t) (t_name t) (t_delegate t) (t_buffer_handle t) (t_data_is_stale t)
    (t_is_variable t) (t_quantization t) (t_sparsity t) (t_dims_signature t).

Definition set_delegate_buffer (d h : Z) (stale : bool) (t : TfLiteTensor) : TfLiteTensor :=
  mkTensor (t_type t) (t_data t) (t_dims t) (t_params t) (t_allocation_type t) (t_bytes t)
    (t_allocation t) (t_name t) d h stale
    (t_is_variable t) (t_quantization t) (t_sparsity t) (t_dims_signature t).

Definition set_type (ty : TfLiteType) (t : TfLiteTensor) : TfLiteTensor :=
  mkTensor ty (t_data t) (t_dims t) (t_params t) (t_allocation_type t) (t_bytes t)
    (t_allocation t) (t_name t) (t_delegate t) (t_buffer_handle t) (t_data_is_stale t)
    (t_is_variable t) (t_quantization t) (t_sparsity t) (t_dims_signature t).

Definition set_metadata (q : TfLiteQuantization) (s : option TfLiteSparsity)
    (sig : TfLiteIntArray) (t : TfLiteTensor) : TfLiteTensor :=
  mkTensor (t_type t) (t_data t) (t_dims t) (t_params t) (t_allocation_type t) (t_bytes t)
    (t_allocation t) (t_name t) (t_delegate t) (t_buffer_handle t) (t_data_is_stale t)
    (t_is_variable t) q s sig.

Record TfLiteNode := mkNode {
  node_inputs : list Z; node_outputs : list Z; node_intermediates : list Z;
  node_temporaries : list Z; user_data : Z; builtin_data : Z; custom_initial_data : Z;
  custom_initial_data_size : Z; node_delegate : Z; might_have_side_effect : bool }.

(** A kernel's functions are C function pointers: [None] is null, and [Some k] names the
    function; what it does is a parameter of the components that call it. *)
Record TfLiteRegistration := mkRegistration {
  reg_init : option Z; reg_free : option Z; reg_prepare : option Z; reg_invoke : option Z;
  builtin_code : Z; custom_name : option string; version : Z;
  registration_external : Z; inplace_operator : Z }.

(** [TfLiteInPlaceOp]. *)
Definition kTfLiteInplaceOpNone : Z := 0.
Definition kTfLiteInplaceOpDataUnmodified : Z := 1.
Definition kTfLiteInplaceInputCanBeSharedWithCorrespondingOutput : Z := 2.
Definition kTfLiteInplaceOpInput0Shared : Z := 4.
Definition kTfLiteInplaceOpInput1Shared : Z := 8.
Definition kTfLiteInplaceOpInput2Shared : Z := 16.
Definition kTfLiteMaxSharableOpInputs : Z := 3.

(** ** Integer arrays *)

Definition sizeof_int : Z := 4.

(** The header ([int size]) and the elements; [data_size * size] converts [size] to
    [size_t]. *)
Definition TfLiteVarArrayGetSizeInBytes (size : Z) : Z :=
  size_wrap (sizeof_int + sizeof_int * size_wrap size).

Definition TfLiteIntArrayGetSizeInBytes : Z -> Z := TfLiteVarArrayGetSizeInBytes.

(** [int TfLiteFloatArrayGetSizeInBytes] narrows the same computation to [int]. *)
Definition TfLiteFloatArrayGetSizeInBytes (size : Z) : Z :=
  int32_wrap (TfLiteVarArrayGetSizeInBytes size).

(** [memcmp] of two arrays of the same length. *)
Definition TfLiteVarArrayEqualsArray (a : TfLiteIntArray) (b : list Z) : bool :=
  match a with
  | None => (zlength b =? 0)
  | Some da => if negb (zlength da =? zlength b) then false else bool_decide (da = b)
  end.

(** The pointer comparison that goes first only decides the case of two null pointers:
    equal pointers have equal contents. *)
Definition TfLiteVarArrayEqual (a b : TfLiteIntArray) : bool :=
  match a, b with
  | None, None => true
  | None, _ | _, None => false
  | Some _, Some db => TfLiteVarArrayEqualsArray a db
  end.

Definition TfLiteIntArrayEqual := TfLiteVarArrayEqual.
Definition TfLiteIntArrayEqualsArray := TfLiteVarArrayEqualsArray.

(** [dims_signature] when it is present and not empty, otherwise [dims]. *)
Definition TfLiteTensorGetDimsSignature (t : TfLiteTensor) : TfLiteIntArray :=
  match t_dims_signature t with
  | Some (d :: ds) => Some (d :: ds)
  | _ => t_dims t
  end.

(** ** Tensor data *)

(** The state of an operation on one tensor. *)
Definition tstate : Type := heap * TfLiteTensor.

Definition on_theap {A} (c : M heap A) : M tstate A := zoom fst (fun h s => (h, snd s)) c.
Definition the_tensor : M tstate TfLiteTensor := fun s => (Done (snd s), s).
Definition upd_tensor (f : TfLiteTensor -> TfLiteTensor) : M tstate unit :=
  modify (fun s => (fst s, f (snd s))).

Definition is_dynamic_or_persistent_ro (t : TfLiteTensor) : bool :=
  bool_decide (t_allocation_type t = kTfLiteDynamic) ||
  bool_decide (t_allocation_type t = kTfLitePersistentRo).

Section TensorOps.
Context {MM : Malloc}.

(** [VariantData::CloneTo] is virtual: the implementation of the tensor's object. *)
Context (CloneTo : Z -> Z -> M heap Z).

(** [delete] of a variant object releases its block like [free]. *)
Definition TfLiteTensorDataFree : M tstate unit :=
  let* t := the_tensor in
  (if bool_decide (t_allocation_type t = kTfLiteVariantObject) && negb (t_data t =? 0)
   then on_theap (free (t_data t))
   else if is_dynamic_or_persistent_ro t
   then (if negb (t_data t =? 0) then on_theap (free (t_data t)) else ret tt)
   else ret tt) ;;;
  upd_tensor (set_data 0).

Definition TfLiteQuantizationFree (q : TfLiteQuantization) : TfLiteQuantization :=
  match q with
  | kTfLiteAffineQuantization _ _ _ => kTfLiteNoQuantization
  | kTfLiteBlockwiseQuantization _ _ _ _ => kTfLiteNoQuantization
  | kTfLiteNoQuantization => kTfLiteNoQuantization
  end.

Definition TfLiteTensorFree : M tstate unit :=
  TfLiteTensorDataFree ;;;
  upd_tensor (set_dims None) ;;;
  upd_tensor (fun t => set_metadata (TfLiteQuantizationFree (t_quantization t)) None None t).

Definition TfLiteTensorReset (type : TfLiteType) (name : option string) (dims : TfLiteIntArray)
    (quantization : TfLiteQuantizationParams) (buffer size : Z)
    (allocation_type : TfLiteAllocationType) (allocation : Z) (is_variable : bool)
    : M tstate unit :=
  TfLiteTensorFree ;;;
  upd_tensor (fun t =>
    mkTensor type buffer dims quantization allocation_type size allocation name
      (t_delegate t) (t_buffer_handle t) (t_data_is_stale t) is_variable
      kTfLiteNoQuantization (t_sparsity t) (t_dims_signature t)).

(** [dst] is the state's tensor; [src] is another tensor ([src == dst] returns at once and
    changes nothing). *)
Definition TfLiteTensorCopy (src : TfLiteTensor) : M tstate unit :=
  let* dst := the_tensor in
  if negb (t_bytes src =? t_bytes dst) then fail kTfLiteError
  else
    upd_tensor (set_type (t_type src)) ;;;
    upd_tensor (set_dims (t_dims src)) ;;;
    (if bool_decide (t_allocation_type src = kTfLiteVariantObject) then
       (if negb (bool_decide (t_allocation_type dst = kTfLiteVariantObject)) then
          TfLiteTensorDataFree ;;; upd_tensor (set_allocation_type kTfLiteVariantObject)
        else ret tt) ;;;
       let* dst := the_tensor in
       let* p := on_theap (CloneTo (t_data src) (t_data dst)) in
       upd_tensor (set_data p)
     else on_theap (memcpy (t_data dst) (t_data src) (t_bytes src))) ;;;
    upd_tensor (set_delegate_buffer (t_delegate src) (t_buffer_handle src) (t_data_is_stale src)).

Definition XNN_EXTRA_BYTES : Z := 16.

Definition TfLiteTensorResizeMaybeCopy (num_bytes : Z) (preserve_data : bool) : M tstate unit :=
  let* t := the_tensor in
  if negb (is_dynamic_or_persistent_ro t) then ret tt
  else
    let alloc_bytes := size_wrap (num_bytes + XNN_EXTRA_BYTES) in
    (if t_data t =? 0 then
       let* p := on_theap (malloc alloc_bytes) in upd_tensor (set_data p)
     else if t_bytes t <? num_bytes then
       if preserve_data then
         let* p := on_theap (realloc (t_data t) alloc_bytes) in upd_tensor (set_data p)
       else
         on_theap (free (t_data t)) ;;;
         let* p := on_theap (malloc alloc_bytes) in upd_tensor (set_data p)
     else ret tt) ;;;
    upd_tensor (set_bytes num_bytes) ;;;
    let* t := the_tensor in
    if (t_data t =? 0) && negb (num_bytes =? 0) then fail kTfLiteError else ret tt.

Definition TfLiteTensorRealloc (num_bytes : Z) : M tstate unit :=
  TfLiteTensorResizeMaybeCopy num_bytes true.
End TensorOps.

(** ** Names and attributes of types *)

Definition TfLiteTypeGetName (type : TfLiteType) : string :=
  match type with
  | kTfLiteNoType => "NOTYPE"
  | kTfLiteFloat32 => "FLOAT32"
  | kTfLiteUInt16 => "UINT16"
  | kTfLiteInt16 => "INT16"
  | kTfLiteInt32 => "INT32"
  | kTfLiteUInt32 => "UINT32"
  | kTfLiteUInt8 => "UINT8"
  | kTfLiteInt8 => "INT8"
  | kTfLiteInt64 => "INT64"
  | kTfLiteUInt64 => "UINT64"
  | kTfLiteBool => "BOOL"
  | kTfLiteComplex64 => "COMPLEX64"
  | kTfLiteComplex128 => "COMPLEX128"
  | kTfLiteString => "STRING"
  | kTfLiteFloat16 => "FLOAT16"
  | kTfLiteBFloat16 => "BFLOAT16"
  | kTfLiteFloat64 => "FLOAT64"
  | kTfLiteResource => "RESOURCE"
  | kTfLiteVariant => "VARIANT"
  | kTfLiteInt4 => "INT4"
  | kTfLiteInt2 => "INT2"
  | kTfLiteUInt4 => "UINT4"
  end.

Inductive TfLiteAllocationStrategy :=
  | kTfLiteAllocationStrategyUnknown | kTfLiteAllocationStrategyNone
  | kTfLiteAllocationStrategyMMap | kTfLiteAllocationStrategyArena
  | kTfLiteAllocationStrategyMalloc | kTfLiteAllocationStrategyNew.

Inductive TfLiteRunStability :=
  | kTfLiteRunStabilityUnknown | kTfLiteRunStabilityUnstable
  | kTfLiteRunStabilitySingleRun | kTfLiteRunStabilityAcrossRuns.

Inductive TfLiteRunStep :=
  | kTfLiteRunStepUnknown | kTfLiteRunStepInit | kTfLiteRunStepPrepare | kTfLiteRunStepEval.

Definition TfLiteTensorGetAllocationStrategy (t : TfLiteTensor) : TfLiteAllocationStrategy :=
  match t_allocation_type t with
  | kTfLiteMemNone => kTfLiteAllocationStrategyNone
  | kTfLiteMmapRo => kTfLiteAllocationStrategyMMap
  | kTfLiteArenaRw => kTfLiteAllocationStrategyArena
  | kTfLiteArenaRwPersistent => kTfLiteAllocationStrategyArena
  | kTfLiteDynamic => kTfLiteAllocationStrategyMalloc
  | kTfLitePersistentRo => kTfLiteAllocationStrategyMalloc
  | kTfLiteCustom => kTfLiteAllocationStrategyUnknown
  | kTfLiteVariantObject => kTfLiteAllocationStrategyNew
  | kTfLiteNonCpu => kTfLiteAllocationStrategyUnknown
  end.

Definition TfLiteTensorGetBufferAddressStability (t : TfLiteTensor) : TfLiteRunStability :=
  match t_allocation_type t with
  | kTfLiteMemNone => kTfLiteRunStabilityAcrossRuns
  | kTfLiteMmapRo => kTfLiteRunStabilityAcrossRuns
  | kTfLiteArenaRw => kTfLiteRunStabilityUnstable
  | kTfLiteArenaRwPersistent => kTfLiteRunStabilityUnstable
  | kTfLiteDynamic => kTfLiteRunStabilitySingleRun
  | kTfLitePersistentRo => kTfLiteRunStabilitySingleRun
  | kTfLiteCustom => kTfLiteRunStabilityUnknown
  | kTfLiteVariantObject => kTfLiteRunStabilityAcrossRuns
  | kTfLiteNonCpu => kTfLiteRunStabilityUnknown
  end.

Definition TfLiteTensorGetDataStability (t : TfLiteTensor) : TfLiteRunStability :=
  match t_allocation_type t with
  | kTfLiteMemNone => kTfLiteRunStabilityAcrossRuns
  | kTfLiteMmapRo => kTfLiteRunStabilityAcrossRuns
  | kTfLiteArenaRw => kTfLiteRunStabilitySingleRun
  | kTfLiteArenaRwPersistent => kTfLiteRunStabilityAcrossRuns
  | kTfLiteDynamic => kTfLiteRunStabilitySingleRun
  | kTfLitePersistentRo => kTfLiteRunStabilitySingleRun
  | kTfLiteCustom => kTfLiteRunStabilityUnknown
  | kTfLiteVariantObject => kTfLiteRunStabilitySingleRun
  | kTfLiteNonCpu => kTfLiteRunStabilityUnknown
  end.

Definition TfLiteTensorGetDataKnownStep (t : TfLiteTensor) : TfLiteRunStep :=
  match t_allocation_type t with
  | kTfLiteMemNone => kTfLiteRunStepInit
  | kTfLiteMmapRo => kTfLiteRunStepInit
  | kTfLiteArenaRw => kTfLiteRunStepEval
  | kTfLiteArenaRwPersistent => kTfLiteRunStepEval
  | kTfLiteDynamic => kTfLiteRunStepEval
  | kTfLitePersistentRo => kTfLiteRunStepPrepare
  | kTfLiteCustom => kTfLiteRunStepUnknown
  | kTfLiteVariantObject => kTfLiteRunStepEval
  | kTfLiteNonCpu => kTfLiteRunStepUnknown
  end.

Definition TfLiteTensorGetShapeKnownStep (t : TfLiteTensor) : TfLiteRunStep :=
  match t_allocation_type t with
  | kTfLiteMemNone => kTfLiteRunStepInit
  | kTfLiteMmapRo => kTfLiteRunStepInit
  | kTfLiteArenaRw => kTfLiteRunStepPrepare
  | kTfLiteArenaRwPersistent => kTfLiteRunStepPrepare
  | kTfLiteDynamic => kTfLiteRunStepEval
  | kTfLitePersistentRo => kTfLiteRunStepPrepare
  | kTfLiteCustom => kTfLiteRunStepUnknown
  | kTfLiteVariantObject => kTfLiteRunStepEval
  | kTfLiteNonCpu => kTfLiteRunStepUnknown
  end.

(** ** Properties *)

(** The data of a heap-allocated tensor: null, or a live block with room for the tensor's
    bytes and the padding XNNPack may read. *)
Definition data_ok (h : heap) (t : TfLiteTensor) : Prop :=
  t_data t = 0 \/
  exists m, live h !! t_data t = Some m /\ t_bytes t + XNN_EXTRA_BYTES <= m.

Section TensorLaws.
Context {MM : Malloc} {MMOk : MallocOk}.

(** What a reallocation to [n] bytes leaves behind. *)
Definition realloc_result (h : heap) (t : TfLiteTensor) (n : Z)
    (r : outcome unit) (h' : heap) (t' : TfLiteTensor) : Prop :=
  heap_wf h' /\ t_bytes t' = n /\ t_allocation_type t' = t_allocation_type t /\
  match r with
  | Done _ =>
    data_ok h' t' /\
    (t_data t <> 0 -> t_data t' <> 0 /\
      forall k, 0 <= k < Z.min n (t_bytes t) -> mem h' (t_data t' + k) = mem h (t_data t + k))
  | Fail e => e = kTfLiteError /\ n <> 0 /\ t_data t' = 0 /\ h' = h
  | Undef => False
  end.

Lemma realloc_fresh n h t :
  heap_wf h -> is_dynamic_or_persistent_ro t = true -> t_data t = 0 ->
  0 <= n -> n + XNN_EXTRA_BYTES <= SIZE_MAX ->
  exists r h' t', TfLiteTensorRealloc n (h, t) = (r, (h', t')) /\ realloc_result h t n r h' t'.
Proof.
  intros Hwf Hdyn Hdata Hn Hmax.
  pose proof (malloc_spec h (n + XNN_EXTRA_BYTES) ltac:(unfold XNN_EXTRA_BYTES; lia) Hwf) as Hm.
  unfold TfLiteTensorRealloc, TfLiteTensorResizeMaybeCopy, bind, the_tensor. cbn.
  rewrite Hdyn, Hdata. cbn. rewrite size_wrap_small by (unfold XNN_EXTRA_BYTES in *; lia).
  unfold on_theap, zoom, upd_tensor, modify. cbn.
  destruct (malloc (n + XNN_EXTRA_BYTES) h) as [o h'].
  destruct Hm as (Hwf' & _ & [[-> ->]|(p & -> & Hf & Hlive)]); cbn.
  - destruct (Z.eqb_spec n 0) as [->|Hne]; (eexists _, _, _; split; [done|]);
      unfold realloc_result; cbn; rewrite ?Hdata; split_and!; first [done|by left|by intros []].
  - destruct Hf as [Hp _]. destruct (Z.eqb_spec p 0); [lia|]. cbn.
    eexists _, _, _. split; [done|]. unfold realloc_result. cbn. rewrite Hdata.
    split_and!; try done. right. exists (n + XNN_EXTRA_BYTES). cbn. by rewrite Hlive, lookup_insert_eq.
Qed.

Lemma realloc_existing n h t m :
  heap_wf h -> is_dynamic_or_persistent_ro t = true -> t_data t <> 0 ->
  live h !! t_data t = Some m -> t_bytes t + XNN_EXTRA_BYTES <= m ->
  0 <= n -> 0 <= t_bytes t -> n + XNN_EXTRA_BYTES <= SIZE_MAX ->
  exists r h' t', TfLiteTensorRealloc n (h, t) = (r, (h', t')) /\ realloc_result h t n r h' t'.
Proof.
  intros Hwf Hdyn Hdata Hlive Hroom Hn Hb Hmax.
  unfold TfLiteTensorRealloc, TfLiteTensorResizeMaybeCopy, bind, the_tensor. cbn.
  rewrite Hdyn. rewrite (proj2 (Z.eqb_neq _ _) Hdata). cbn.
  rewrite size_wrap_small by (unfold XNN_EXTRA_BYTES in *; lia).
  unfold on_theap, zoom, upd_tensor, modify. cbn.
  destruct (Z.ltb_spec (t_bytes t) n) as [Hlt|Hge]; cbn.
  - destruct (realloc_live h (t_data t) m (n + XNN_EXTRA_BYTES)
      ltac:(unfold XNN_EXTRA_BYTES; lia) Hwf Hlive)
      as [->|(q & h' & -> & Hwf' & Hq & Hl & Hcopy & _)]; cbn.
    + rewrite (proj2 (Z.eqb_neq n 0)) by lia. cbn.
      eexists _, _, _. split; [done|]. unfold realloc_result. cbn. split_and!; try done. lia.
    + rewrite (proj2 (Z.eqb_neq q 0)) by lia. cbn.
      eexists _, _, _. split; [done|]. unfold realloc_result. cbn. split_and!; try done.
      * right. exists (n + XNN_EXTRA_BYTES). cbn. by rewrite Hl, lookup_insert_eq.
      * intros _. split; [lia|]. intros k Hk. apply Hcopy. unfold XNN_EXTRA_BYTES in *. lia.
  - rewrite (proj2 (Z.eqb_neq _ _) Hdata). cbn.
    eexists _, _, _. split; [done|]. unfold realloc_result. cbn. split_and!; try done.
    right. exists m. cbn. split; [done|lia].
Qed.

(** [TfLiteTensorRealloc] of a heap-allocated tensor is always defined.  When it succeeds
    the tensor owns a block with room for the requested bytes and keeps the data it had;
    when it fails the tensor's pointer is null. *)
Theorem TfLiteTensorRealloc_ok n h t :
  heap_wf h -> is_dynamic_or_persistent_ro t = true -> data_ok h t -> 0 <= t_bytes t ->
  0 <= n -> n + XNN_EXTRA_BYTES <= SIZE_MAX ->
  exists r h' t', TfLiteTensorRealloc n (h, t) = (r, (h', t')) /\ realloc_result h t n r h' t'.
Proof.
  intros Hwf Hdyn Hok Hb Hn Hmax.
  destruct (Z.eq_dec (t_data t) 0) as [Hz|Hnz]; [by apply realloc_fresh|].
  destruct Hok as [?|(m & Hm & Hroom)]; [done|]. by eapply realloc_existing.
Qed.

(** A reallocation that runs out of memory overwrites the only pointer to the old block,
    which stays allocated: it is leaked. *)
Theorem TfLiteTensorRealloc_failure_leaks n h t m :
  heap_wf h -> is_dynamic_or_persistent_ro t = true -> t_data t <> 0 ->
  live h !! t_data t = Some m -> 0 <= t_bytes t < n -> n + XNN_EXTRA_BYTES <= SIZE_MAX ->
  malloc_place (Heap (delete (t_data t) (live h)) (mem h)) MAX_ALIGN (n + XNN_EXTRA_BYTES) = 0 ->
  exists t', TfLiteTensorRealloc n (h, t) = (Fail kTfLiteError, (h, t')) /\
    t_data t' = 0 /\ live h !! t_data t = Some m /\
    TfLiteTensorFree (h, t') = (Done tt, (h, snd (snd (TfLiteTensorFree (h, t'))))).
Proof.
  intros Hwf Hdyn Hdata Hlive Hn Hmax Hnull.
  unfold TfLiteTensorRealloc, TfLiteTensorResizeMaybeCopy, bind, the_tensor. cbn.
  rewrite Hdyn. rewrite (proj2 (Z.eqb_neq _ _) Hdata). cbn.
  rewrite size_wrap_small by (unfold XNN_EXTRA_BYTES in *; lia).
  unfold on_theap, zoom, upd_tensor, modify. cbn.
  rewrite (proj2 (Z.ltb_lt _ _)) by lia. cbn.
  unfold realloc. rewrite (proj2 (Z.eqb_neq _ _) Hdata), Hlive, Hnull. cbn.
  rewrite (proj2 (Z.eqb_neq n 0)) by lia. cbn. eexists. split; [done|]. cbn.
  split_and!; [done|done|].
  unfold TfLiteTensorFree, TfLiteTensorDataFree, bind, the_tensor, on_theap, zoom, upd_tensor, modify.
  cbn. rewrite andb_false_r. by destruct (is_dynamic_or_persistent_ro _).
Qed.

(** Near the top of [size_t] the padding wraps around: the call succeeds and the tensor
    claims more bytes than its block has. *)
Theorem TfLiteTensorRealloc_wraps n h t :
  is_dynamic_or_persistent_ro t = true -> t_data t = 0 ->
  SIZE_MAX - XNN_EXTRA_BYTES < n <= SIZE_MAX ->
  malloc_place h MAX_ALIGN (n + XNN_EXTRA_BYTES - 2 ^ 64) <> 0 ->
  exists h' t', TfLiteTensorRealloc n (h, t) = (Done tt, (h', t')) /\ t_bytes t' = n /\
    live h' !! t_data t' = Some (n + XNN_EXTRA_BYTES - 2 ^ 64) /\
    n + XNN_EXTRA_BYTES - 2 ^ 64 < XNN_EXTRA_BYTES.
Proof.
  intros Hdyn Hdata Hn Hplace.
  assert (Hw : size_wrap (n + XNN_EXTRA_BYTES) = n + XNN_EXTRA_BYTES - 2 ^ 64).
  { unfold size_wrap, SIZE_MAX, XNN_EXTRA_BYTES in *.
    rewrite <- (Z.mod_add _ (-1)) by lia. apply Z.mod_small. lia. }
  unfold TfLiteTensorRealloc, TfLiteTensorResizeMaybeCopy, bind, the_tensor. cbn -[Z.pow].
  rewrite Hdyn, Hdata. cbn -[Z.pow]. rewrite Hw.
  unfold on_theap, zoom, upd_tensor, modify, malloc, aligned_alloc. cbn -[Z.pow].
  rewrite (proj2 (Z.eqb_neq _ _) Hplace). cbn -[Z.pow].
  rewrite (proj2 (Z.eqb_neq _ _) Hplace). cbn -[Z.pow]. eexists _, _. split; [done|].
  cbn -[Z.pow]. rewrite lookup_insert_eq. unfold SIZE_MAX in *. split_and!; [done|done|lia].
Qed.

Lemma TfLiteQuantizationFree_none q : TfLiteQuantizationFree q = kTfLiteNoQuantization.
Proof. by destruct q. Qed.

(** Freeing a heap-allocated tensor releases its block, once: the tensor no longer refers to
    it, and freeing the tensor again changes nothing. *)
Theorem TfLiteTensorFree_once h t :
  heap_wf h -> is_dynamic_or_persistent_ro t = true -> data_ok h t ->
  exists h' t', TfLiteTensorFree (h, t) = (Done tt, (h', t')) /\ heap_wf h' /\
    t_data t' = 0 /\ (t_data t <> 0 -> live h' = delete (t_data t) (live h)) /\
    TfLiteTensorFree (h', t') = (Done tt, (h', t')).
Proof.
  intros Hwf Hdyn Hok.
  assert (Hv : bool_decide (t_allocation_type t = kTfLiteVariantObject) = false).
  { apply bool_decide_eq_false. unfold is_dynamic_or_persistent_ro in Hdyn.
    intros Heq. by rewrite Heq in Hdyn. }
  unfold TfLiteTensorFree, TfLiteTensorDataFree, bind, the_tensor, on_theap, zoom, upd_tensor, modify.
  cbn. rewrite Hv, Hdyn. cbn.
  destruct (Z.eqb_spec (t_data t) 0) as [Hz|Hnz]; cbn.
  - eexists _, _. split; [done|]. cbn. rewrite Hv. fold (is_dynamic_or_persistent_ro t).
    unfold is_dynamic_or_persistent_ro in *. cbn. rewrite Hdyn, !TfLiteQuantizationFree_none. by split_and!.
  - destruct Hok as [?|(m & Hm & _)]; [done|].
    destruct (free_live h (t_data t) m Hwf Hm) as [-> Hwf']. cbn.
    eexists _, _. split; [done|]. cbn. rewrite Hv.
    unfold is_dynamic_or_persistent_ro in *. cbn. rewrite Hdyn, !TfLiteQuantizationFree_none. by split_and!.
Qed.
End TensorLaws.

(** *** Witnesses *)

Definition example_dynamic : TfLiteTensor := set_allocation_type kTfLiteDynamic tensor_zero.

Lemma TfLiteTensorRealloc_ok_witness :
  exists r h' t', @TfLiteTensorRealloc bump_place 100 (heap_empty, example_dynamic) = (r, (h', t')) /\
    realloc_result heap_empty example_dynamic 100 r h' t'.
Proof.
  apply (@TfLiteTensorRealloc_ok bump_place bump_place_ok);
    [apply heap_empty_wf|done|by left|done|done|done].
Defined.

(** A tensor of 100 bytes in a block at address 64. *)
Definition example_heap : heap := Heap {[ 64 := 116 ]} (fun a => a).

Lemma example_heap_wf : heap_wf example_heap.
Proof.
  split.
  - intros b n Hb. cbn in Hb. apply lookup_singleton_Some in Hb. lia.
  - intros b n c m Hb Hc. cbn in Hb, Hc. apply lookup_singleton_Some in Hb, Hc. lia.
Qed.

Definition example_tensor : TfLiteTensor := set_bytes 100 (set_data 64 example_dynamic).

Lemma TfLiteTensorRealloc_failure_leaks_witness :
  exists t', @TfLiteTensorRealloc (fun _ _ _ => 0) 200 (example_heap, example_tensor) =
      (Fail kTfLiteError, (example_heap, t')) /\
    t_data t' = 0 /\ live example_heap !! 64 = Some 116 /\
    TfLiteTensorFree (example_heap, t') =
      (Done tt, (example_heap, snd (snd (TfLiteTensorFree (example_heap, t'))))).
Proof.
  apply (@TfLiteTensorRealloc_failure_leaks (fun _ _ _ => 0) 200 example_heap example_tensor 116);
    [apply example_heap_wf|done|done|done|done|done|done].
Defined.

Lemma TfLiteTensorRealloc_wraps_witness :
  exists h' t', @TfLiteTensorRealloc bump_place SIZE_MAX (heap_empty, example_dynamic) =
      (Done tt, (h', t')) /\ t_bytes t' = SIZE_MAX /\
    live h' !! t_data t' = Some (SIZE_MAX + XNN_EXTRA_BYTES - 2 ^ 64) /\
    SIZE_MAX + XNN_EXTRA_BYTES - 2 ^ 64 < XNN_EXTRA_BYTES.
Proof.
  apply (@TfLiteTensorRealloc_wraps bump_place SIZE_MAX heap_empty example_dynamic);
    [done|done|done|by vm_compute].
Defined.

Lemma TfLiteTensorFree_once_witness :
  exists h' t', TfLiteTensorFree (example_heap, example_tensor) = (Done tt, (h', t')) /\ heap_wf h' /\
    t_data t' = 0 /\
    (t_data example_tensor <> 0 -> live h' = delete (t_data example_tensor) (live example_heap)) /\
    TfLiteTensorFree (h', t') = (Done tt, (h', t')).
Proof.
  apply TfLiteTensorFree_once; [apply example_heap_wf|done|right; by exists 116].
Defined.
