(* ===== verification/Util.v ===== *)
(** * Sizes and hashes (tensorflow/lite/util.cc)

    The number of bytes of a tensor ([BytesRequired] and the overflow-checked product it is
    built from), comparison with a [TfLiteIntArray], hash combination and the recognition of
    unresolved, Flex and validation names. *)
From Stdlib Require Import String Ascii.
From S2P Require Import Prelude Heap Common.
#[local] Open Scope Z_scope.

(** ** Operations *)

Definition EqualArrayAndTfLiteIntArray (a : TfLiteIntArray) (b : list Z) : bool :=
  match a with
  | None => false
  | Some da =>
    if negb (zlength da =? zlength b) then false
    else forallb (fun ab => fst ab =? snd ab) (zip da b)
  end.

Definition CombineHashes (hashes : list Z) : Z :=
  fold_left (fun result hash =>
    Z.lxor result
      (size_wrap (hash + 0x9e3779b97f4a7800 + size_wrap (Z.shiftl result 10) +
         Z.shiftr result 4))) hashes 0.

(** [*bytes] and the status; [None] is [kTfLiteError]. *)
Definition GetSizeOfType (type : TfLiteType) : option Z :=
  match type with
  | kTfLiteFloat32 => Some 4
  | kTfLiteInt32 => Some 4
  | kTfLiteUInt32 => Some 4
  | kTfLiteUInt8 => Some 1
  | kTfLiteInt64 => Some 8
  | kTfLiteUInt64 => Some 8
  | kTfLiteBool => Some 1
  | kTfLiteComplex64 => Some 8
  | kTfLiteComplex128 => Some 16
  | kTfLiteUInt16 => Some 2
  | kTfLiteInt16 => Some 2
  | kTfLiteInt8 => Some 1
  | kTfLiteFloat16 => Some 2
  | kTfLiteBFloat16 => Some 2
  | kTfLiteFloat64 => Some 8
  | kTfLiteUInt4 | kTfLiteInt4 => Some 1
  | kTfLiteInt2 => Some 1
  | kTfLiteNoType | kTfLiteString | kTfLiteResource | kTfLiteVariant => None
  end.

(** The status and [*product], which is written in both cases. *)
Definition MultiplyAndCheckOverflow (a b : Z) : TfLiteStatus * Z :=
  let product := size_wrap (a * b) in
  if negb (Z.shiftr (Z.lor a b) 32 =? 0) then
    if negb (a =? 0) && negb (product / a =? b) then (kTfLiteError, product)
    else (kTfLiteOk, product)
  else (kTfLiteOk, product).

(** The loop over the dimensions: [dims[k]] is converted from [int] to [size_t]. *)
Fixpoint count_elements (count : Z) (dims : list Z) : option Z :=
  match dims with
  | [] => Some count
  | d :: dims' =>
    match MultiplyAndCheckOverflow count (size_wrap d) with
    | (kTfLiteOk, count') => count_elements count' dims'
    | _ => None
    end
  end.

(** Two 4-bit values or four 2-bit values share a byte. *)
Definition packed_bytes (type : TfLiteType) (bytes : Z) : Z :=
  match type with
  | kTfLiteInt4 | kTfLiteUInt4 => size_wrap (bytes + 1) / 2
  | kTfLiteInt2 => size_wrap (bytes + 3) / 4
  | _ => bytes
  end.

Definition BytesRequired (type : TfLiteType) (dims : list Z) : outcome Z :=
  match count_elements 1 dims with
  | None => Fail kTfLiteError
  | Some count =>
    match GetSizeOfType type with
    | None => Fail kTfLiteError
    | Some type_size =>
      match MultiplyAndCheckOverflow type_size count with
      | (kTfLiteOk, bytes) =>
        Done (packed_bytes type bytes)
      | _ => Fail kTfLiteError
      end
    end
  end.

Definition kFlexCustomCodePrefix : string := "Flex".
Definition kValidationSubgraphNamePrefix : string := "VALIDATION:".

Definition IsFlexOp (custom_name : option string) : bool :=
  match custom_name with Some n => String.prefix kFlexCustomCodePrefix n | None => false end.

Definition IsValidationSubgraph (name : option string) : bool :=
  match name with Some n => String.prefix kValidationSubgraphNamePrefix n | None => false end.

Section Unresolved.
(** The addresses of [UnresolvedOpInvoke], and the generated [BuiltinOperator_CUSTOM]. *)
Context (UnresolvedOpInvoke BuiltinOperator_CUSTOM : Z).

Definition CreateUnresolvedCustomOp (custom_op_name : string) : TfLiteRegistration :=
  mkRegistration None None None (Some UnresolvedOpInvoke) BuiltinOperator_CUSTOM
    (Some custom_op_name) 1 0 0.

Definition IsUnresolvedCustomOp (registration : TfLiteRegistration) : bool :=
  (builtin_code registration =? BuiltinOperator_CUSTOM) &&
  bool_decide (reg_invoke registration = Some UnresolvedOpInvoke).
End Unresolved.

(** ** Properties *)

Lemma shiftr_lor_zero a b n : 0 <= a -> 0 <= b -> 0 <= n ->
  Z.shiftr (Z.lor a b) n = 0 -> a < 2 ^ n /\ b < 2 ^ n.
Proof.
  intros Ha Hb Hn Hz. rewrite Z.shiftr_lor, !Z.shiftr_div_pow2 in Hz by done.
  apply Z.lor_eq_0_iff in Hz as [Hqa Hqb].
  assert (0 < 2 ^ n) by (by apply Z.pow_pos_nonneg).
  split; (apply Z.div_small_iff in Hqa, Hqb; lia).
Qed.

Lemma MultiplyAndCheckOverflow_spec a b : 0 <= a <= SIZE_MAX -> 0 <= b <= SIZE_MAX ->
  MultiplyAndCheckOverflow a b =
  (if a * b <=? SIZE_MAX then kTfLiteOk else kTfLiteError, size_wrap (a * b)).
Proof.
  intros Ha Hb. unfold MultiplyAndCheckOverflow.
  destruct (Z.eqb_spec (Z.shiftr (Z.lor a b) 32) 0) as [Hz|Hnz]; cbn [negb].
  - apply shiftr_lor_zero in Hz; [|lia..].
    destruct (Z.leb_spec (a * b) SIZE_MAX); [done|unfold SIZE_MAX in *; nia].
  - destruct (Z.eqb_spec a 0) as [->|Ha0]; [done|]. cbn [negb andb].
    destruct (Z.leb_spec (a * b) SIZE_MAX) as [Hle|Hgt].
    + rewrite size_wrap_small by nia. rewrite Z.mul_comm, Z.div_mul by done.
      by rewrite Z.eqb_refl.
    + destruct (Z.eqb_spec (size_wrap (a * b) / a) b) as [Heq|]; [|done].
      pose proof (size_wrap_range (a * b)) as Hr.
      pose proof (Z.mul_div_le (size_wrap (a * b)) a). nia.
Qed.

(** The number of elements of a shape. *)
Definition num_elements (dims : list Z) : Z := foldr Z.mul 1 dims.

(** No product of leading dimensions exceeds [size_t]. *)
Definition prefixes_fit (dims : list Z) : Prop :=
  forall n, num_elements (take n dims) <= SIZE_MAX.

(** The width of one element in bits, packed types at their real width. *)
Definition bits_of (type : TfLiteType) : option Z :=
  match type with
  | kTfLiteInt2 => Some 2
  | kTfLiteInt4 | kTfLiteUInt4 => Some 4
  | kTfLiteBool | kTfLiteInt8 | kTfLiteUInt8 => Some 8
  | kTfLiteInt16 | kTfLiteUInt16 | kTfLiteFloat16 | kTfLiteBFloat16 => Some 16
  | kTfLiteInt32 | kTfLiteUInt32 | kTfLiteFloat32 => Some 32
  | kTfLiteInt64 | kTfLiteUInt64 | kTfLiteFloat64 | kTfLiteComplex64 => Some 64
  | kTfLiteComplex128 => Some 128
  | kTfLiteNoType | kTfLiteString | kTfLiteResource | kTfLiteVariant => None
  end.

Lemma count_elements_spec dims : Forall (fun d => 0 <= d <= INT32_MAX) dims ->
  forall c, 0 <= c <= SIZE_MAX ->
  match count_elements c dims with
  | Some n => n = c * num_elements dims /\ 0 <= n <= SIZE_MAX /\
      forall k, c * num_elements (take k dims) <= SIZE_MAX
  | None => exists k, SIZE_MAX < c * num_elements (take k dims)
  end.
Proof.
  induction 1 as [|d dims Hd Hdims IH]; intros c Hc.
  - cbn. split_and!; [lia..|]. intros k. rewrite take_nil. cbn. lia.
  - cbn [count_elements]. unfold INT32_MAX in Hd.
    rewrite (size_wrap_small d) by (unfold SIZE_MAX; lia).
    rewrite MultiplyAndCheckOverflow_spec by (unfold SIZE_MAX in *; lia).
    destruct (Z.leb_spec (c * d) SIZE_MAX) as [Hle|Hgt].
    + rewrite size_wrap_small by nia. specialize (IH (c * d) ltac:(nia)).
      destruct (count_elements (c * d) dims) as [n|].
      * destruct IH as (-> & ? & Hpre). unfold num_elements in *. cbn. split_and!; [lia|lia|lia|].
        intros [|k]; cbn; [lia|]. specialize (Hpre k). lia.
      * destruct IH as (k & Hk). exists (S k). unfold num_elements in *. cbn. lia.
    + exists 1%nat. cbn. rewrite take_0. cbn. lia.
Qed.

Lemma num_elements_nonneg dims : Forall (fun d => 0 <= d) dims -> 0 <= num_elements dims.
Proof. induction 1; cbn; [lia|]. unfold num_elements in *. nia. Qed.

Lemma bits_of_size type sz : GetSizeOfType type = Some sz ->
  exists w, bits_of type = Some w /\ (w = sz * 8 \/ (sz = 1 /\ w < 8)).
Proof. destruct type; intros; simplify_eq/=; eexists; (split; [reflexivity|lia]). Qed.

Lemma packed_bytes_spec type sz w n :
  GetSizeOfType type = Some sz -> bits_of type = Some w -> 0 <= n -> n + 3 <= SIZE_MAX ->
  (sz * n <= SIZE_MAX -> packed_bytes type (sz * n) = (n * w + 7) / 8) /\
  (sz * n <= SIZE_MAX -> packed_bytes type (sz * n) <= SIZE_MAX) /\
  (SIZE_MAX < sz * n -> sz * n = n * w / 8).
Proof.
  intros Hsz Hw Hn Hmax. destruct (bits_of_size type sz Hsz) as (w' & Hw' & Hcase).
  assert (w' = w) as -> by congruence. destruct Hcase as [->|[-> Hlt]].
  - replace (n * (sz * 8)) with (sz * n * 8) by lia. rewrite Z.div_mul by done.
    replace (sz * n * 8 + 7) with (7 + sz * n * 8) by lia. rewrite Z.div_add by done.
    destruct type; simplify_eq/=; split_and!; done || lia.
  - destruct type; simplify_eq/=; try lia; unfold SIZE_MAX in *;
      split_and!; intros; try lia; rewrite ?size_wrap_small by (unfold SIZE_MAX; lia);
      Z.to_euclidean_division_equations; lia.
Qed.

(** [MultiplyAndCheckOverflow] reports success exactly when the product of the two [size_t]
    values fits in [size_t], and then [*product] is the product. *)
Theorem MultiplyAndCheckOverflow_exact a b : 0 <= a <= SIZE_MAX -> 0 <= b <= SIZE_MAX ->
  (fst (MultiplyAndCheckOverflow a b) = kTfLiteOk <-> a * b <= SIZE_MAX) /\
  (fst (MultiplyAndCheckOverflow a b) = kTfLiteOk -> snd (MultiplyAndCheckOverflow a b) = a * b).
Proof.
  intros Ha Hb. rewrite MultiplyAndCheckOverflow_spec by done. cbn.
  destruct (Z.leb_spec (a * b) SIZE_MAX); (split; [split; intros; (done || lia)|]); [|done].
  intros _. apply size_wrap_small. nia.
Qed.

(** C39. For a shape of non-negative dimensions with fewer than [SIZE_MAX - 2] elements,
    [BytesRequired] returns the size of the packed data rounded up to bytes, and fails
    exactly for types without a size, when a product of leading dimensions overflows, or
    when the byte count does. *)
Theorem BytesRequired_exact type dims :
  Forall (fun d => 0 <= d <= INT32_MAX) dims -> num_elements dims + 3 <= SIZE_MAX ->
  match BytesRequired type dims with
  | Done bytes => exists w, bits_of type = Some w /\ prefixes_fit dims /\
      bytes = (num_elements dims * w + 7) / 8 /\ bytes <= SIZE_MAX
  | Fail e => e = kTfLiteError /\
      (bits_of type = None \/ ~ prefixes_fit dims \/
       exists w, bits_of type = Some w /\ SIZE_MAX < num_elements dims * w / 8)
  | Undef => False
  end.
Proof.
  intros Hd Hmax. unfold BytesRequired.
  pose proof (count_elements_spec dims Hd 1 ltac:(unfold SIZE_MAX; lia)) as Hc.
  destruct (count_elements 1 dims) as [n|].
  2:{ split; [done|]. right; left. intros Hfit. destruct Hc as [k Hk]. specialize (Hfit k). lia. }
  destruct Hc as (-> & Hn & Hpre). rewrite Z.mul_1_l in *.
  assert (Hfit : prefixes_fit dims) by (intros k; specialize (Hpre k); lia).
  destruct (GetSizeOfType type) as [sz|] eqn:Hsz.
  2:{ split; [done|]. left. by destruct type. }
  destruct (bits_of_size type sz Hsz) as (w & Hw & Hsw).
  destruct (packed_bytes_spec type sz w (num_elements dims) Hsz Hw) as (Hp & Hp1 & Hp2); [lia..|].
  rewrite MultiplyAndCheckOverflow_spec by (destruct type; simplify_eq/=; unfold SIZE_MAX in *; lia).
  destruct (Z.leb_spec (sz * num_elements dims) SIZE_MAX) as [Hle|Hgt].
  - exists w. rewrite size_wrap_small by (destruct type; simplify_eq/=; lia).
    split_and!; [done|done|by apply Hp|by apply Hp1].
  - split; [done|]. right; right. exists w. split; [done|]. rewrite <- Hp2; [done|].
    unfold SIZE_MAX in *. lia.
Qed.

(** Two shapes for which the byte count is wrong although the call succeeds: 2^64 - 1
    four-bit elements are given no bytes at all, and a negative dimension is taken for a
    huge one. *)
Theorem BytesRequired_wraps :
  BytesRequired kTfLiteInt4 [65535; 65537; 641; 6700417] = Done 0 /\
  num_elements [65535; 65537; 641; 6700417] = SIZE_MAX /\
  BytesRequired kTfLiteInt8 [-1] = Done SIZE_MAX.
Proof. by vm_compute. Qed.

(** *** Witnesses *)

Lemma MultiplyAndCheckOverflow_exact_witness :
  (fst (MultiplyAndCheckOverflow (2 ^ 40) (2 ^ 23)) = kTfLiteOk <-> 2 ^ 40 * 2 ^ 23 <= SIZE_MAX) /\
  (fst (MultiplyAndCheckOverflow (2 ^ 40) (2 ^ 23)) = kTfLiteOk ->
   snd (MultiplyAndCheckOverflow (2 ^ 40) (2 ^ 23)) = 2 ^ 40 * 2 ^ 23).
Proof. apply MultiplyAndCheckOverflow_exact; by vm_compute. Defined.

Lemma BytesRequired_exact_witness :
  BytesRequired kTfLiteInt4 [3; 5] = Done 8 /\
  match BytesRequired kTfLiteInt4 [3; 5] with
  | Done bytes => exists w, bits_of kTfLiteInt4 = Some w /\ prefixes_fit [3; 5] /\
      bytes = (num_elements [3; 5] * w + 7) / 8 /\ bytes <= SIZE_MAX
  | Fail e => e = kTfLiteError /\
      (bits_of kTfLiteInt4 = None \/ ~ prefixes_fit [3; 5] \/
       exists w, bits_of kTfLiteInt4 = Some w /\ SIZE_MAX < num_elements [3; 5] * w / 8)
  | Undef => False
  end.
Proof.
  split; [done|]. apply BytesRequired_exact; [repeat constructor; by vm_compute|by vm_compute].
Defined.
