(* ===== verification/TensorClone.v ===== *)
(** * Cloning and building tensors (core/c/common.cc, util.cc)

    [TfLiteTensorClone] copies what a tensor owns: its arrays, its quantization and sparsity, and the
    data of a tensor that is allocated on the heap.  [BuildTfLiteTensor] makes a tensor of its own.
    Arrays are modelled by their contents, so that copying one is the identity. *)
From Stdlib Require Import String.
From stdpp Require Import strings.
From S2P Require Import Prelude Heap Common Util.
#[local] Open Scope Z_scope.

(** ** Metadata *)

(** [TfLiteVarArrayCopy]: null is copied as null. *)
Definition TfLiteVarArrayCopy {A} (src : option (list A)) : option (list A) :=
  match src with None => None | Some data => Some data end.

Definition TfLiteIntArrayCopy : TfLiteIntArray -> TfLiteIntArray := TfLiteVarArrayCopy.
Definition TfLiteFloatArrayCopy : option (list Z) -> option (list Z) := TfLiteVarArrayCopy.

Definition clone_dim_metadata (src : TfLiteDimensionMetadata) : TfLiteDimensionMetadata :=
  mkDimMetadata (format src) (dense_size src) (TfLiteIntArrayCopy (array_segments src))
    (TfLiteIntArrayCopy (array_indices src)).

Definition TfLiteSparsityClone (src : option TfLiteSparsity) : option TfLiteSparsity :=
  match src with
  | None => None
  | Some src =>
    Some (mkSparsity (TfLiteIntArrayCopy (traversal_order src)) (TfLiteIntArrayCopy (block_map src))
      (clone_dim_metadata <$> dim_metadata src))
  end.

(** The parameters are made by [calloc]: a field that is not copied is zero. *)
Definition TfLiteQuantizationClone (src : TfLiteQuantization) : TfLiteQuantization :=
  match src with
  | kTfLiteNoQuantization => kTfLiteNoQuantization
  | kTfLiteAffineQuantization scale zero_point quantized_dimension =>
    kTfLiteAffineQuantization (TfLiteFloatArrayCopy scale) (TfLiteIntArrayCopy zero_point) quantized_dimension
  | kTfLiteBlockwiseQuantization scale zero_point blocksize _ =>
    kTfLiteBlockwiseQuantization scale zero_point blocksize 0
  end.

Section Clone.
Context {MM : Malloc} (CloneTo : Z -> Z -> M heap Z).

(** ** Tensors *)

(** The data the clone points to; the result of [malloc] is not tested.  The only strategy for
    objects made by [new] is that of variants, so that the other branch of it is not reached. *)
Definition clone_data (src : TfLiteTensor) : M heap Z :=
  if t_data src =? 0 then ret 0
  else
    match TfLiteTensorGetAllocationStrategy src with
    | kTfLiteAllocationStrategyUnknown | kTfLiteAllocationStrategyNone
    | kTfLiteAllocationStrategyMMap | kTfLiteAllocationStrategyArena => ret (t_data src)
    | kTfLiteAllocationStrategyMalloc =>
      let* p := malloc (t_bytes src) in
      memcpy p (t_data src) (t_bytes src) ;;;
      ret p
    | kTfLiteAllocationStrategyNew => CloneTo (t_data src) 0
    end.

Definition TfLiteTensorClone (src : TfLiteTensor) : M heap TfLiteTensor :=
  let* p := clone_data src in
  ret (set_metadata (TfLiteQuantizationClone (t_quantization src)) (TfLiteSparsityClone (t_sparsity src))
    (TfLiteIntArrayCopy (t_dims_signature src)) (set_dims (TfLiteIntArrayCopy (t_dims src)) (set_data p src))).

(** [BuildTfLiteTensor()]. *)
Definition BuildTfLiteTensor_zero : TfLiteTensor :=
  set_delegate_buffer 0 kTfLiteNullBufferHandle false tensor_zero.

(** [BuildTfLiteTensor(type, dims, allocation_type)]: null without dimensions or where their size
    overflows; the status of the allocation is dropped. *)
Definition BuildTfLiteTensor (type : TfLiteType) (dims : TfLiteIntArray) (allocation_type : TfLiteAllocationType)
    : M heap (option TfLiteTensor) :=
  match dims with
  | None => ret None
  | Some dims_data =>
    match BytesRequired type dims_data with
    | Done bytes => fun h =>
      match (TfLiteTensorReset type None (Some dims_data) (mkQuantParams 0 0) 0 bytes allocation_type 0 false ;;;
             status_call (TfLiteTensorRealloc bytes)) (h, BuildTfLiteTensor_zero) with
      | (Done _, (h', t)) => (Done (Some t), h')
      | (Fail e, (h', _)) => (Fail e, h')
      | (Undef, (h', _)) => (Undef, h')
      end
    | _ => ret None
    end
  end.
End Clone.

(** ** Properties *)

Lemma TfLiteVarArrayCopy_id {A} (a : option (list A)) : TfLiteVarArrayCopy a = a.
Proof. by destruct a. Qed.

Lemma clone_dim_metadata_id (l : list TfLiteDimensionMetadata) : clone_dim_metadata <$> l = l.
Proof.
  induction l as [|[f d s i] l IH]; [done|]. cbn. f_equal; [|exact IH]. unfold clone_dim_metadata, TfLiteIntArrayCopy. cbn.
  by rewrite !TfLiteVarArrayCopy_id.
Qed.

Lemma TfLiteSparsityClone_id s : TfLiteSparsityClone s = s.
Proof.
  destruct s as [[t b d]|]; [|done]. cbn. unfold TfLiteIntArrayCopy. by rewrite !TfLiteVarArrayCopy_id, clone_dim_metadata_id.
Qed.

(** The dimension of a blockwise quantization is lost. *)
Definition clonable (q : TfLiteQuantization) : Prop :=
  match q with kTfLiteBlockwiseQuantization _ _ _ d => d = 0 | _ => True end.

Lemma TfLiteQuantizationClone_id q : TfLiteQuantizationClone q = q <-> clonable q.
Proof.
  destruct q; cbn; unfold TfLiteFloatArrayCopy, TfLiteIntArrayCopy; rewrite ?TfLiteVarArrayCopy_id; [done|done|].
  split; [by intros [=]|by intros ->].
Qed.

Section CloneLaws.
Context {MM : Malloc} {MMOk : MallocOk} (CloneTo : Z -> Z -> M heap Z).

(** The clone of a tensor that does not own its data. *)
Lemma clone_data_shared h t : is_dynamic_or_persistent_ro t = false -> t_allocation_type t <> kTfLiteVariantObject ->
  clone_data CloneTo t h = (Done (t_data t), h).
Proof.
  intros Hd Hv. unfold clone_data, is_dynamic_or_persistent_ro, TfLiteTensorGetAllocationStrategy in *.
  destruct (Z.eqb_spec (t_data t) 0) as [->|_]; [done|].
  by destruct (t_allocation_type t).
Qed.

(** The clone of a tensor with a block of its own: a new block with the same bytes. *)
Lemma clone_data_owned h t m : heap_wf h -> is_dynamic_or_persistent_ro t = true ->
  live h !! t_data t = Some m -> 0 <= t_bytes t <= m -> malloc_place h MAX_ALIGN (t_bytes t) <> 0 ->
  exists p h', clone_data CloneTo t h = (Done p, h') /\ p <> 0 /\ live h !! p = None /\ heap_wf h' /\
    live h' = <[p := t_bytes t]> (live h) /\
    read_bytes (mem h') p (t_bytes t) = read_bytes (mem h) (t_data t) (t_bytes t) /\
    forall a, a < p \/ p + t_bytes t <= a -> mem h' a = mem h a.
Proof.
  intros Hwf Hd Hm Hb Hp. pose proof (heap_wf_range _ Hwf _ _ Hm) as Hr. unfold clone_data.
  destruct (Z.eqb_spec (t_data t) 0); [lia|].
  assert (TfLiteTensorGetAllocationStrategy t = kTfLiteAllocationStrategyMalloc) as ->.
  { unfold is_dynamic_or_persistent_ro, TfLiteTensorGetAllocationStrategy in *. by destruct (t_allocation_type t). }
  pose proof (malloc_spec h (t_bytes t) ltac:(lia) Hwf) as Hs.
  unfold bind. destruct (malloc (t_bytes t) h) as [o h1] eqn:Hrun.
  destruct Hs as (Hwf1 & Hmem & [[-> ->]|(p & -> & Hf & Hl)]).
  { unfold malloc, aligned_alloc in Hrun. destruct (Z.eqb_spec (malloc_place h MAX_ALIGN (t_bytes t)) 0); [done|]. by injection Hrun. }
  destruct Hf as (Hp0 & Hup & Hnone & Hdis). unfold memcpy.
  rewrite (proj2 (in_live_block_spec h1 p (t_bytes t))) by (exists p, (t_bytes t); rewrite Hl, lookup_insert_eq; split_and!; (done || lia)).
  assert (t_data t <> p) by congruence.
  rewrite (proj2 (in_live_block_spec h1 (t_data t) (t_bytes t)))
    by (exists (t_data t), m; rewrite Hl, lookup_insert_ne by done; split_and!; (done || lia)).
  cbn. eexists p, _. split; [reflexivity|]. cbn. split_and!; [lia|done| |done| |].
  - destruct Hwf1 as [H1 H2]. split; cbn; [exact H1|exact H2].
  - apply list_eq. intros k. destruct (decide (k < Z.to_nat (t_bytes t))%nat) as [Hk|Hk].
    + rewrite !read_bytes_lookup by done. f_equal. unfold copy_bytes. rewrite <- Hmem.
      destruct (Z.leb_spec p (p + Z.of_nat k)), (Z.ltb_spec (p + Z.of_nat k) (p + t_bytes t)); try lia.
      cbn. f_equal. lia.
    + rewrite !lookup_ge_None_2; [done|..]; unfold read_bytes; rewrite length_fmap, length_zrange; lia.
  - intros a Ha. rewrite <- Hmem. unfold copy_bytes.
    destruct (Z.leb_spec p a), (Z.ltb_spec a (p + t_bytes t)); cbn; (done || lia).
Qed.

(** Freeing a tensor with a block of its own. *)
Lemma TfLiteTensorFree_owned h t m : is_dynamic_or_persistent_ro t = true -> live h !! t_data t = Some m ->
  t_data t <> 0 -> exists t', TfLiteTensorFree (h, t) = (Done tt, (Heap (delete (t_data t) (live h)) (mem h), t')).
Proof.
  intros Hd Hm Hp. eexists. unfold TfLiteTensorFree, TfLiteTensorDataFree, bind, the_tensor. cbn.
  assert (Hal : t_allocation_type t <> kTfLiteVariantObject).
  { unfold is_dynamic_or_persistent_ro in Hd. intros He. by rewrite He in Hd. }
  rewrite (bool_decide_eq_false_2 _ Hal). cbn. rewrite Hd. destruct (Z.eqb_spec (t_data t) 0); [done|]. cbn.
  unfold on_theap, zoom, free. cbn. destruct (Z.eqb_spec (t_data t) 0); [done|]. by rewrite Hm.
Qed.

(** C37. The clone of a heap-allocated tensor is independent of it: it has the same type, shape,
    quantization, sparsity and bytes in a block of its own; what was live is unchanged, and freeing
    the clone gives back exactly the heap before it.  Excluded are the dimension of a blockwise
    quantization, which is not cloned, and exhausted memory. *)
Theorem TfLiteTensorClone_independent h t m :
  heap_wf h -> is_dynamic_or_persistent_ro t = true -> live h !! t_data t = Some m -> 0 <= t_bytes t <= m ->
  clonable (t_quantization t) -> malloc_place h MAX_ALIGN (t_bytes t) <> 0 ->
  exists t' h' h'', TfLiteTensorClone CloneTo t h = (Done t', h') /\
    t' = set_data (t_data t') t /\ t_data t' <> t_data t /\
    read_bytes (mem h') (t_data t') (t_bytes t) = read_bytes (mem h) (t_data t) (t_bytes t) /\
    (forall b n, live h !! b = Some n -> live h' !! b = Some n /\ read_bytes (mem h') b n = read_bytes (mem h) b n) /\
    fst (TfLiteTensorFree (h', t')) = Done tt /\ fst (snd (TfLiteTensorFree (h', t'))) = h'' /\ live h'' = live h.
Proof.
  intros Hwf Hd Hm Hb Hq Hp.
  destruct (clone_data_owned h t m Hwf Hd Hm Hb Hp) as (p & h' & Hrun & Hp0 & Hnone & Hwf' & Hl & Hr & Hmem).
  assert (Hclone : TfLiteTensorClone CloneTo t h = (Done (set_data p t), h')).
  { unfold TfLiteTensorClone. rewrite (bind_done _ _ _ _ _ Hrun). unfold ret. repeat f_equal.
    rewrite (proj2 (TfLiteQuantizationClone_id _) Hq), TfLiteSparsityClone_id. unfold TfLiteIntArrayCopy.
    rewrite !TfLiteVarArrayCopy_id. by destruct t. }
  pose proof (TfLiteTensorFree_owned h' (set_data p t) (t_bytes t)) as Hfree. destruct Hfree as [t0 Hfree];
    [by destruct t|by destruct t; cbn; rewrite Hl, lookup_insert_eq|by destruct t|]. cbn [t_data set_data] in Hfree.
  exists (set_data p t), h', (Heap (live h) (mem h')). split; [done|]. split_and!.
  - by destruct t.
  - destruct t; cbn in *. congruence.
  - by destruct t.
  - intros b n Hbn. assert (b <> p) by congruence. rewrite Hl, lookup_insert_ne by done. split; [done|].
    apply read_bytes_ext. intros a Ha. apply Hmem. pose proof (heap_wf_range _ Hwf' p (t_bytes t) ltac:(by rewrite Hl, lookup_insert_eq)).
    destruct (heap_wf_disjoint _ Hwf' b n p (t_bytes t)); [by rewrite Hl, lookup_insert_ne|by rewrite Hl, lookup_insert_eq|done|lia|lia].
  - by rewrite Hfree.
  - rewrite Hfree. cbn. by rewrite Hl, delete_insert_id.
  - done.
Qed.
End CloneLaws.

Section BuildLaws.
Context {MM : Malloc} {MMOk : MallocOk}.

(** A tensor built on the heap has the shape and the size of the dimensions, and null or a padded
    block of its own. *)
Lemma BuildTfLiteTensor_owned type dims a bytes h : heap_wf h -> a = kTfLiteDynamic \/ a = kTfLitePersistentRo ->
  BytesRequired type dims = Done bytes -> 0 <= bytes -> bytes + XNN_EXTRA_BYTES <= SIZE_MAX ->
  exists t h', BuildTfLiteTensor type (Some dims) a h = (Done (Some t), h') /\ heap_wf h' /\
    t_type t = type /\ t_dims t = Some dims /\ t_bytes t = bytes /\ t_allocation_type t = a /\ data_ok h' t.
Proof.
  intros Hwf Ha Hbytes Hb Hmax. unfold BuildTfLiteTensor. rewrite Hbytes.
  set (t0 := mkTensor type 0 (Some dims) (mkQuantParams 0 0) a bytes 0 None 0 kTfLiteNullBufferHandle false false
    kTfLiteNoQuantization None None).
  assert (Hreset : TfLiteTensorReset type None (Some dims) (mkQuantParams 0 0) 0 bytes a 0 false (h, BuildTfLiteTensor_zero) = (Done tt, (h, t0))) by done.
  assert (Hdyn : is_dynamic_or_persistent_ro t0 = true) by (by destruct Ha as [-> | ->]).
  rewrite (bind_done _ _ _ _ _ Hreset). unfold status_call, TfLiteTensorRealloc, TfLiteTensorResizeMaybeCopy, bind, the_tensor.
  cbn [fst snd]. rewrite Hdyn. cbn [t0 t_data Z.eqb negb].
  pose proof (malloc_spec h (bytes + XNN_EXTRA_BYTES) ltac:(unfold XNN_EXTRA_BYTES; lia) Hwf) as Hm.
  unfold on_theap, zoom, upd_tensor, modify. cbn [fst snd]. rewrite size_wrap_small by (unfold XNN_EXTRA_BYTES in *; lia).
  destruct (malloc (bytes + XNN_EXTRA_BYTES) h) as [o h'].
  destruct Hm as (Hwf' & _ & [[-> ->]|(p & -> & Hf & Hl)]); cbn; [destruct (Z.eqb_spec bytes 0)|destruct (Z.eqb_spec p 0)];
    [| |destruct Hf; lia|]; cbn; (do 2 eexists); (split; [reflexivity|]); cbn; split_and!; try done; try (by left);
    right; exists (bytes + XNN_EXTRA_BYTES); cbn; by rewrite Hl, lookup_insert_eq.
Qed.
End BuildLaws.

(** *** Witnesses *)

Lemma TfLiteTensorClone_independent_witness : exists t' h' h'',
  @TfLiteTensorClone bump_place (fun _ _ => ret 0) example_tensor example_heap = (Done t', h') /\
  t' = set_data (t_data t') example_tensor /\ t_data t' <> t_data example_tensor /\
  read_bytes (mem h') (t_data t') 100 = read_bytes (mem example_heap) 64 100 /\
  (forall b n, live example_heap !! b = Some n -> live h' !! b = Some n /\ read_bytes (mem h') b n = read_bytes (mem example_heap) b n) /\
  fst (TfLiteTensorFree (h', t')) = Done tt /\ fst (snd (TfLiteTensorFree (h', t'))) = h'' /\ live h'' = live example_heap.
Proof.
  refine (@TfLiteTensorClone_independent bump_place bump_place_ok (fun _ _ => ret 0) example_heap example_tensor 116
    example_heap_wf eq_refl eq_refl _ I _); [by vm_compute|by vm_compute].
Defined.

(** The clone has no room for the padding that [TfLiteTensorResizeMaybeCopy] gives every buffer. *)
Example clone_is_not_padded :
  match @TfLiteTensorClone bump_place (fun _ _ => ret 0) example_tensor example_heap with
  | (Done t', h') => live h' !! t_data t' = Some (t_bytes example_tensor) /\ ~ data_ok h' t'
  | _ => False
  end.
Proof.
  vm_compute. split; [done|]. intros [?|(m & [= <-] & Hle)]; [done|]. by apply Hle.
Qed.
