(* ===== verification/GraphInfo.v ===== *)
(** * The graph a memory planner and the partitioner see (tensorflow/lite/graph_info.h)

    [GraphInfo] is an abstract class; [mkGraphInfo] holds the values its virtual functions
    return.  [gi_nodes] is the execution plan: [node(i)] and [registration(i)] are its
    [i]-th element.  [gi_tensors] is the array behind [tensors()], which is updated in
    place. *)
From S2P Require Import Prelude Heap Common.

Record GraphInfo := mkGraphInfo {
  gi_tensors : list TfLiteTensor;
  gi_nodes : list (TfLiteNode * TfLiteRegistration);
  gi_node_index : list Z;
  gi_num_total_nodes : Z;
  gi_inputs : list Z;
  gi_outputs : list Z;
  gi_variables : list Z }.

Definition num_tensors (g : GraphInfo) : Z := zlength (gi_tensors g).
Definition num_execution_nodes (g : GraphInfo) : Z := zlength (gi_nodes g).

Definition with_tensors (ts : list TfLiteTensor) (g : GraphInfo) : GraphInfo :=
  mkGraphInfo ts (gi_nodes g) (gi_node_index g) (gi_num_total_nodes g) (gi_inputs g)
    (gi_outputs g) (gi_variables g).

(** ** Well-formed graphs *)

Definition valid (g : GraphInfo) (t : Z) : Prop := 0 <= t < num_tensors g.
Definition opt_valid (g : GraphInfo) (t : Z) : Prop := t = kTfLiteOptionalTensor \/ valid g t.

Definition node_valid (g : GraphInfo) (nr : TfLiteNode * TfLiteRegistration) : Prop :=
  Forall (opt_valid g) (node_inputs (fst nr)) /\
  Forall (opt_valid g) (node_outputs (fst nr)) /\
  (inplace_operator (snd nr) <> kTfLiteInplaceOpNone ->
   forall t, head (node_outputs (fst nr)) = Some t -> valid g t).

(** The indices of the graph are in range, nodes are numbered by [int32_t], and the execution
    plan is in dependency order: no node reads what it or a later node writes, and no two
    nodes write the same tensor. *)
Record graph_wf (g : GraphInfo) : Prop := {
  wf_inputs : Forall (opt_valid g) (gi_inputs g);
  wf_outputs : Forall (opt_valid g) (gi_outputs g);
  wf_variables : Forall (valid g) (gi_variables g);
  wf_nodes : Forall (node_valid g) (gi_nodes g);
  wf_count : num_execution_nodes g < INT32_MAX;
  wf_order : forall j k nj nk t, gi_nodes g !! j = Some nj -> gi_nodes g !! k = Some nk ->
    (k <= j)%nat -> t ∈ node_outputs (fst nj) -> t ∈ node_inputs (fst nk) ->
    t = kTfLiteOptionalTensor;
  wf_single : forall j k nj nk t, gi_nodes g !! j = Some nj -> gi_nodes g !! k = Some nk ->
    t ∈ node_outputs (fst nj) -> t ∈ node_outputs (fst nk) -> t = kTfLiteOptionalTensor \/ j = k;
}.

(** A decision procedure for well-formedness, used on concrete graphs. *)
Definition valid_b (g : GraphInfo) (t : Z) : bool := (0 <=? t) && (t <? num_tensors g).
Definition opt_valid_b (g : GraphInfo) (t : Z) : bool := (t =? kTfLiteOptionalTensor) || valid_b g t.
Definition node_valid_b (g : GraphInfo) (nr : TfLiteNode * TfLiteRegistration) : bool :=
  forallb (opt_valid_b g) (node_inputs (fst nr)) &&
  forallb (opt_valid_b g) (node_outputs (fst nr)) &&
  ((inplace_operator (snd nr) =? kTfLiteInplaceOpNone) ||
   match node_outputs (fst nr) with [] => true | t :: _ => valid_b g t end).
Definition no_common (l l' : list Z) : bool :=
  forallb (fun t => (t =? kTfLiteOptionalTensor) || negb (existsb (Z.eqb t) l')) l.
Definition pair_ok (jn kn : Z * (TfLiteNode * TfLiteRegistration)) : bool :=
  ((fst jn <? fst kn) || no_common (node_outputs (fst (snd jn))) (node_inputs (fst (snd kn)))) &&
  ((fst jn =? fst kn) || no_common (node_outputs (fst (snd jn))) (node_outputs (fst (snd kn)))).
Definition graph_wf_b (g : GraphInfo) : bool :=
  forallb (opt_valid_b g) (gi_inputs g) && forallb (opt_valid_b g) (gi_outputs g) &&
  forallb (valid_b g) (gi_variables g) && forallb (node_valid_b g) (gi_nodes g) &&
  (num_execution_nodes g <? INT32_MAX) &&
  forallb (fun jn => forallb (pair_ok jn) (enumerate (gi_nodes g))) (enumerate (gi_nodes g)).

Lemma forallb_Forall {A} (f : A -> bool) (P : A -> Prop) l :
  (forall x, f x = true -> P x) -> forallb f l = true -> Forall P l.
Proof.
  intros Hf Hl. apply Forall_forall. intros x Hx. rewrite forallb_forall in Hl.
  by apply Hf, Hl, list_elem_of_In.
Qed.

Lemma valid_b_ok g t : valid_b g t = true -> valid g t.
Proof. unfold valid_b, valid. rewrite andb_true_iff, Z.leb_le, Z.ltb_lt. done. Qed.

Lemma opt_valid_b_ok g t : opt_valid_b g t = true -> opt_valid g t.
Proof.
  unfold opt_valid_b, opt_valid. rewrite orb_true_iff, Z.eqb_eq. intros [?|?]; [by left|right].
  by apply valid_b_ok.
Qed.

Lemma no_common_ok l l' t : no_common l l' = true -> t ∈ l -> t ∈ l' -> t = kTfLiteOptionalTensor.
Proof.
  unfold no_common. rewrite forallb_forall. intros H Ht Ht'.
  specialize (H t (proj1 (list_elem_of_In _ _) Ht)).
  apply orb_true_iff in H as [?%Z.eqb_eq|H]; [done|].
  apply negb_true_iff in H. exfalso. apply (eq_true_false_abs _ (proj2 (existsb_exists _ _)
    (ex_intro _ t (conj (proj1 (list_elem_of_In _ _) Ht') (Z.eqb_refl t)))) H).
Qed.

Lemma graph_wf_b_ok g : graph_wf_b g = true -> graph_wf g.
Proof.
  unfold graph_wf_b. rewrite !andb_true_iff. intros (((((Hi & Ho) & Hv) & Hn) & Hc) & Hp).
  assert (Hpair : forall j k nj nk, gi_nodes g !! j = Some nj -> gi_nodes g !! k = Some nk ->
    pair_ok (Z.of_nat j, nj) (Z.of_nat k, nk) = true).
  { intros j k nj nk Hj Hk. rewrite forallb_forall in Hp.
    specialize (Hp (Z.of_nat j, nj)). rewrite forallb_forall in Hp.
    apply Hp; rewrite <- list_elem_of_In; apply enumerate_elem; eauto. }
  split.
  - eapply forallb_Forall; [apply opt_valid_b_ok|done].
  - eapply forallb_Forall; [apply opt_valid_b_ok|done].
  - eapply forallb_Forall; [apply valid_b_ok|done].
  - eapply forallb_Forall; [|done]. intros nr. unfold node_valid_b, node_valid.
    rewrite !andb_true_iff, orb_true_iff, Z.eqb_eq. intros [[H1 H2] H3]. split_and!.
    + eapply forallb_Forall; [apply opt_valid_b_ok|done].
    + eapply forallb_Forall; [apply opt_valid_b_ok|done].
    + intros Hne t Ht. destruct H3 as [?|H3]; [done|].
      destruct (node_outputs (fst nr)); [done|]. simplify_eq/=. by apply valid_b_ok.
  - by apply Z.ltb_lt.
  - intros j k nj nk t Hj Hk Hle Ho' Hi'. specialize (Hpair j k nj nk Hj Hk).
    apply andb_true_iff in Hpair as [[Hlt|H]%orb_true_iff _]; cbn in *.
    + apply Z.ltb_lt in Hlt. lia.
    + by eapply no_common_ok.
  - intros j k nj nk t Hj Hk Hoj Hok. specialize (Hpair j k nj nk Hj Hk).
    apply andb_true_iff in Hpair as [_ [Heq|H]%orb_true_iff]; cbn in *.
    + right. apply Z.eqb_eq in Heq. lia.
    + left. by eapply no_common_ok.
Qed.
