(* ===== verification/MemoryPlanner.v ===== *)
(** * The memory planner interface (tensorflow/lite/memory_planner.h)

    [MemoryPlanner] is the abstract class the subgraph plans its memory with; the arena
    planner and the simple planner implement it.  A planner works on the heap and, through
    its [GraphInfo], on the tensors of the graph.  [MemoryPlannerOk] states what its clients
    rely on: a planner touches nothing of the graph but the addresses of arena tensors. *)
From S2P Require Import Prelude Heap Common GraphInfo.
#[local] Open Scope Z_scope.

(** A planner with what its pointers reach. *)
Record mp_state (P : Type) := MPState { mp_heap : heap; mp_graph : GraphInfo; mp_planner : P }.
Arguments MPState {P}.
Arguments mp_heap {P}.
Arguments mp_graph {P}.
Arguments mp_planner {P}.

Class MemoryPlanner (P : Type) := {
  PlanAllocations : M (mp_state P) unit;
  ExecuteAllocations : Z -> Z -> M (mp_state P) unit;
  ResetAllocations : M (mp_state P) unit;
  ResetAllocationsAfter : Z -> M (mp_state P) unit;
  ReleaseNonPersistentMemory : M (mp_state P) unit;
  AcquireNonPersistentMemory : M (mp_state P) unit;
  HasNonPersistentMemory : M (mp_state P) bool;
  delete_planner : M (mp_state P) unit;
}.

Section State.
Context {P : Type}.

Definition mp_graph_info : M (mp_state P) GraphInfo := fun s => (Done (mp_graph s), s).
Definition mp_this : M (mp_state P) P := fun s => (Done (mp_planner s), s).
Definition mp_set_this (f : P -> P) : M (mp_state P) unit :=
  modify (fun s => MPState (mp_heap s) (mp_graph s) (f (mp_planner s))).
Definition mp_set_tensors (ts : list TfLiteTensor) : M (mp_state P) unit :=
  modify (fun s => MPState (mp_heap s) (with_tensors ts (mp_graph s)) (mp_planner s)).
Definition mp_on_heap {A} (c : M heap A) : M (mp_state P) A :=
  zoom mp_heap (fun h s => MPState h (mp_graph s) (mp_planner s)) c.

(** [tensors[i]] and [tensors[i].data.raw = ptr]. *)
Definition mp_tensor (i : Z) : M (mp_state P) TfLiteTensor :=
  let* g := mp_graph_info in access ((gi_tensors g).[i]).

Definition mp_set_tensor_data (i ptr : Z) : M (mp_state P) unit :=
  let* g := mp_graph_info in
  let* t := mp_tensor i in
  let* ts := access (zinsert (gi_tensors g) i (set_data ptr t)) in
  mp_set_tensors ts.
End State.

(** ** What a planner may change *)

Definition arena_type (t : TfLiteTensor) : bool :=
  bool_decide (t_allocation_type t = kTfLiteArenaRw) ||
  bool_decide (t_allocation_type t = kTfLiteArenaRwPersistent).

(** The same tensor, up to the address of an arena tensor. *)
Definition tensor_frame (t t' : TfLiteTensor) : Prop :=
  if arena_type t then t' = set_data (t_data t') t else t' = t.

Definition graph_frame (g g' : GraphInfo) : Prop :=
  Forall2 tensor_frame (gi_tensors g) (gi_tensors g') /\ g' = with_tensors (gi_tensors g') g.

Lemma set_data_same t : set_data (t_data t) t = t.
Proof. by destruct t. Qed.

#[export] Instance tensor_frame_preorder : PreOrder tensor_frame.
Proof.
  split.
  - intros t. unfold tensor_frame. destruct (arena_type t); [by rewrite set_data_same|done].
  - intros t t' t'' H1 H2. unfold tensor_frame in *.
    destruct (arena_type t) eqn:Ht; [|subst; by rewrite Ht in H2].
    assert (Ht' : arena_type t' = true) by (rewrite H1; exact Ht).
    rewrite Ht' in H2. rewrite H2 at 1. rewrite H1 at 1. reflexivity.
Qed.

#[export] Instance graph_frame_preorder : PreOrder graph_frame.
Proof.
  split.
  - intros g. split; [|by destruct g]. apply Forall_Forall2_diag, Forall_forall.
    intros t _. reflexivity.
  - intros g g' g'' [H1 E1] [H2 E2]. split; [|rewrite E2, E1; by destruct g].
    rewrite Forall2_lookup in *. intros i. specialize (H1 i). specialize (H2 i).
    destruct H1; inversion H2; constructor. by etransitivity.
Qed.

Lemma graph_frame_length g g' : graph_frame g g' -> num_tensors g' = num_tensors g.
Proof. intros [H%Forall2_length _]. unfold num_tensors, zlength. lia. Qed.

Lemma graph_frame_lookup g g' i t' : graph_frame g g' -> (gi_tensors g').[i] = Some t' ->
  exists t, (gi_tensors g).[i] = Some t /\ tensor_frame t t'.
Proof.
  intros [H _] Hi. apply zlookup_some in Hi as [Hr Hi].
  destruct (Forall2_lookup_r _ _ _ _ _ H Hi) as (t & Ht & Hf). exists t. split; [|done].
  apply zlookup_some. split; [|done]. apply Forall2_length in H. unfold zlength in *. lia.
Qed.

(** A call that respects the frame, whatever it returns. *)
Definition graph_rel {S} (graph : S -> GraphInfo) (s s' : S) : Prop := graph_frame (graph s) (graph s').
Abbreviation framed graph := (respects (graph_rel graph)).

#[export] Instance graph_rel_preorder {S} (graph : S -> GraphInfo) : PreOrder (graph_rel graph).
Proof. split; unfold graph_rel; [by intros s|intros s s' s'' ? ?; by etransitivity]. Qed.

Class MemoryPlannerOk (P : Type) {MP : MemoryPlanner P} : Prop := {
  PlanAllocations_framed : framed (mp_graph (P := P)) PlanAllocations;
  ExecuteAllocations_framed first last : framed (mp_graph (P := P)) (ExecuteAllocations first last);
  ResetAllocations_framed : framed (mp_graph (P := P)) ResetAllocations;
  ResetAllocationsAfter_framed n : framed (mp_graph (P := P)) (ResetAllocationsAfter n);
  ReleaseNonPersistentMemory_framed : framed (mp_graph (P := P)) ReleaseNonPersistentMemory;
  AcquireNonPersistentMemory_framed : framed (mp_graph (P := P)) AcquireNonPersistentMemory;
  HasNonPersistentMemory_framed : framed (mp_graph (P := P)) HasNonPersistentMemory;
}.

(** *** Calls that respect the frame, by their structure *)

Section Framed.
Context {S : Type} (graph : S -> GraphInfo).

(** Calls made when tensor [i] is known to be an arena tensor. *)
Definition arena_at (i : Z) (g : GraphInfo) : Prop :=
  exists t, (gi_tensors g).[i] = Some t /\ arena_type t = true.

Definition framed_at {A} (i : Z) (c : M S A) : Prop :=
  forall s, arena_at i (graph s) -> graph_frame (graph s) (graph (snd (c s))).

Lemma framed_framed_at {A} i (c : M S A) : framed graph c -> framed_at i c.
Proof. intros Hc s _. apply Hc. Qed.

Lemma arena_at_frame i g g' : graph_frame g g' -> arena_at i g -> arena_at i g'.
Proof.
  intros Hf (t & Ht & Ha). pose proof (graph_frame_length _ _ Hf) as Hlen.
  destruct (zlookup_in_range (gi_tensors g') i) as [t' Ht'].
  { apply zlookup_some in Ht as [? _]. unfold num_tensors in Hlen. lia. }
  exists t'. split; [done|]. destruct (graph_frame_lookup _ _ _ _ Hf Ht') as (t0 & Ht0 & Htf).
  simplify_eq. unfold tensor_frame in Htf. rewrite Ha in Htf. rewrite Htf. exact Ha.
Qed.

Lemma framed_at_bind {A B} i (c : M S A) (k : A -> M S B) :
  framed_at i c -> (forall a, framed_at i (k a)) -> framed_at i (bind c k).
Proof.
  intros Hc Hk s Hs. unfold bind. specialize (Hc s Hs). destruct (c s) as [[a|e|] s']; [|done..].
  etransitivity; [exact Hc|]. apply Hk. by eapply arena_at_frame.
Qed.

(** Reading a tensor splits the rest by whether it is an arena tensor. *)
Lemma framed_tensor_bind {A} i (c : M S TfLiteTensor) (k : TfLiteTensor -> M S A) :
  (forall s, c s = match (gi_tensors (graph s)).[i] with Some t => (Done t, s) | None => (Undef, s) end) ->
  (forall t, arena_type t = true -> framed_at i (k t)) ->
  (forall t, arena_type t = false -> framed graph (k t)) -> framed graph (bind c k).
Proof.
  intros Hc Ha Hn s. unfold bind. rewrite Hc. destruct ((gi_tensors (graph s)).[i]) as [t|] eqn:Ht; [|done].
  destruct (arena_type t) eqn:Hat; [apply Ha; [done|by exists t]|by apply Hn].
Qed.

(** Writing the address of an arena tensor is the one write a planner makes. *)
Lemma framed_at_set_data i ptr (c : M S unit) :
  (forall s t, (gi_tensors (graph s)).[i] = Some t ->
     graph (snd (c s)) = with_tensors (zset (gi_tensors (graph s)) i (set_data ptr t)) (graph s)) ->
  framed_at i c.
Proof.
  intros Hc s (t & Ht & Har). rewrite (Hc s t Ht). split; [|by destruct (graph s)].
  pose proof (proj1 (zlookup_some _ _ _) Ht) as [Hr Hl].
  cbn. unfold zset. apply Forall2_lookup. intros j.
  destruct (decide (j = Z.to_nat i)) as [->|Hne].
  - rewrite Hl, list_lookup_insert_eq by (by eapply lookup_lt_Some). constructor.
    unfold tensor_frame. rewrite Har. by destruct t.
  - rewrite list_lookup_insert_ne by done. destruct (_ !! j); constructor. reflexivity.
Qed.
End Framed.

Lemma arena_type_false t : arena_type t = false ->
  bool_decide (t_allocation_type t = kTfLiteArenaRw) = false /\
  bool_decide (t_allocation_type t = kTfLiteArenaRwPersistent) = false.
Proof. unfold arena_type. by intros [-> ->]%orb_false_iff. Qed.

#[export] Hint Extern 2 (framed _ (modify _)) =>
  (apply respects_modify; intros; unfold graph_rel; reflexivity) : respects.
#[export] Hint Extern 2 (framed _ (zoom _ _ _)) =>
  (apply respects_zoom; intros; unfold graph_rel; reflexivity) : respects.
#[export] Hint Extern 8 (framed_at _ _ _) => (apply framed_framed_at) : respects.

Section PlannerFrame.
Context {P : Type}.

Lemma framed_graph_info : framed (mp_graph (P := P)) mp_graph_info.
Proof. intros s. reflexivity. Qed.

Lemma framed_this : framed (mp_graph (P := P)) mp_this.
Proof. intros s. reflexivity. Qed.

Lemma framed_tensor i : framed (mp_graph (P := P)) (mp_tensor i).
Proof. intros s. unfold mp_tensor, bind, mp_graph_info. by destruct ((gi_tensors _).[i]). Qed.

Lemma mp_tensor_run i s : mp_tensor i s =
  match (gi_tensors (mp_graph (P := P) s)).[i] with Some t => (Done t, s) | None => (Undef, s) end.
Proof. unfold mp_tensor, bind, mp_graph_info. by destruct ((gi_tensors _).[i]). Qed.

Lemma mp_set_tensor_data_run i ptr s : mp_set_tensor_data i ptr s =
  match (gi_tensors (mp_graph (P := P) s)).[i] with
  | Some t => (Done tt, MPState (mp_heap s)
      (with_tensors (zset (gi_tensors (mp_graph s)) i (set_data ptr t)) (mp_graph s)) (mp_planner s))
  | None => (Undef, s)
  end.
Proof.
  unfold mp_set_tensor_data. rewrite (bind_done mp_graph_info _ s (mp_graph s) s) by done.
  unfold bind. rewrite mp_tensor_run. destruct ((gi_tensors (mp_graph s)).[i]) as [t|] eqn:Ht; [|done].
  apply zlookup_some in Ht as [Hr _]. by rewrite zinsert_zset.
Qed.

Lemma mp_set_tensor_data_framed i ptr : framed_at (mp_graph (P := P)) i (mp_set_tensor_data i ptr).
Proof.
  apply (framed_at_set_data _ i ptr). intros s t Ht. by rewrite mp_set_tensor_data_run, Ht.
Qed.
End PlannerFrame.
#[export] Hint Resolve framed_graph_info framed_this framed_tensor mp_set_tensor_data_framed : respects.

(** Below a test of tensor [i]: an arena tensor, or one whose tests fail. *)
Ltac split_tensor :=
  [> | intros ? ? | let E1 := fresh in let E2 := fresh in
       intros ? (E1 & E2)%arena_type_false; rewrite ?E1, ?E2 ].

(** As [walk], also below a test of a tensor. *)
Ltac frame_step :=
  match goal with
  | |- framed mp_graph (bind (mp_tensor ?i) _) =>
    apply (framed_tensor_bind _ i); split_tensor; [apply mp_tensor_run|..]
  | |- framed_at _ _ (bind _ _) => apply framed_at_bind
  | |- framed_at _ _ (if ?b then _ else _) => destruct b
  | |- framed_at _ _ (match ?x with _ => _ end) => destruct x
  | |- _ => walk_step
  end.
Ltac frame := repeat first [progress intros | frame_step | solve [eauto 3 with respects]].
