(* ===== verification/ArenaPlanner.v ===== *)
(** * The arena planner (tensorflow/lite/arena_planner.{h,cc})

    [PlanAllocations] decides when each tensor must be allocated and may be released and
    which tensors share a buffer; [ExecuteAllocations] places the tensors of a range of
    nodes in the arenas and resolves their addresses. *)
From S2P Require Import Prelude Heap MemoryArena Common GraphInfo.

(** ** State *)

Definition kLastActiveNodeUndefined : Z := INT32_MAX.
Definition kNodeNotAssigned : Z := INT32_MAX.
Definition kScalarTensorBytes : Z := 4.
Definition kDefaultArenaAlignment : Z := 64.

Record ArenaPlanner := mkPlanner {
  allocs_ : list ArenaAllocWithUsageInterval;
  nodes_to_tensors_ : list (gset Z);
  alloc_node_ : list Z;
  dealloc_node_ : list Z;
  arena_ : SimpleMemoryArena;
  has_nonpersistent_memory_ : bool;
  persistent_arena_ : SimpleMemoryArena;
  preserve_all_tensors_ : bool;
  tensor_alignment_ : Z;
  last_active_node_ : Z;
  actual_tensor_id_ : gmap Z Z;
  refcounts_ : list Z }.

Definition ArenaPlanner_init (preserve_all_tensors : bool) (tensor_alignment subgraph_index : Z)
    : ArenaPlanner :=
  mkPlanner [] [] [] [] (SimpleMemoryArena_init kDefaultArenaAlignment subgraph_index) false
    (SimpleMemoryArena_init kDefaultArenaAlignment subgraph_index) preserve_all_tensors
    tensor_alignment kLastActiveNodeUndefined ∅ [].

(** Updates of one field. *)
Definition with_allocs v (p : ArenaPlanner) := mkPlanner v (nodes_to_tensors_ p) (alloc_node_ p)
  (dealloc_node_ p) (arena_ p) (has_nonpersistent_memory_ p) (persistent_arena_ p)
  (preserve_all_tensors_ p) (tensor_alignment_ p) (last_active_node_ p) (actual_tensor_id_ p)
  (refcounts_ p).
Definition with_nodes_to_tensors v (p : ArenaPlanner) := mkPlanner (allocs_ p) v (alloc_node_ p)
  (dealloc_node_ p) (arena_ p) (has_nonpersistent_memory_ p) (persistent_arena_ p)
  (preserve_all_tensors_ p) (tensor_alignment_ p) (last_active_node_ p) (actual_tensor_id_ p)
  (refcounts_ p).
Definition with_alloc_node v (p : ArenaPlanner) := mkPlanner (allocs_ p) (nodes_to_tensors_ p) v
  (dealloc_node_ p) (arena_ p) (has_nonpersistent_memory_ p) (persistent_arena_ p)
  (preserve_all_tensors_ p) (tensor_alignment_ p) (last_active_node_ p) (actual_tensor_id_ p)
  (refcounts_ p).
Definition with_dealloc_node v (p : ArenaPlanner) := mkPlanner (allocs_ p) (nodes_to_tensors_ p)
  (alloc_node_ p) v (arena_ p) (has_nonpersistent_memory_ p) (persistent_arena_ p)
  (preserve_all_tensors_ p) (tensor_alignment_ p) (last_active_node_ p) (actual_tensor_id_ p)
  (refcounts_ p).
Definition with_arena v (p : ArenaPlanner) := mkPlanner (allocs_ p) (nodes_to_tensors_ p)
  (alloc_node_ p) (dealloc_node_ p) v (has_nonpersistent_memory_ p) (persistent_arena_ p)
  (preserve_all_tensors_ p) (tensor_alignment_ p) (last_active_node_ p) (actual_tensor_id_ p)
  (refcounts_ p).
Definition with_has_nonpersistent_memory v (p : ArenaPlanner) := mkPlanner (allocs_ p)
  (nodes_to_tensors_ p) (alloc_node_ p) (dealloc_node_ p) (arena_ p) v (persistent_arena_ p)
  (preserve_all_tensors_ p) (tensor_alignment_ p) (last_active_node_ p) (actual_tensor_id_ p)
  (refcounts_ p).
Definition with_persistent_arena v (p : ArenaPlanner) := mkPlanner (allocs_ p)
  (nodes_to_tensors_ p) (alloc_node_ p) (dealloc_node_ p) (arena_ p)
  (has_nonpersistent_memory_ p) v (preserve_all_tensors_ p) (tensor_alignment_ p)
  (last_active_node_ p) (actual_tensor_id_ p) (refcounts_ p).
Definition with_last_active_node v (p : ArenaPlanner) := mkPlanner (allocs_ p)
  (nodes_to_tensors_ p) (alloc_node_ p) (dealloc_node_ p) (arena_ p)
  (has_nonpersistent_memory_ p) (persistent_arena_ p) (preserve_all_tensors_ p)
  (tensor_alignment_ p) v (actual_tensor_id_ p) (refcounts_ p).
Definition with_actual_tensor_id v (p : ArenaPlanner) := mkPlanner (allocs_ p)
  (nodes_to_tensors_ p) (alloc_node_ p) (dealloc_node_ p) (arena_ p)
  (has_nonpersistent_memory_ p) (persistent_arena_ p) (preserve_all_tensors_ p)
  (tensor_alignment_ p) (last_active_node_ p) v (refcounts_ p).
Definition with_refcounts v (p : ArenaPlanner) := mkPlanner (allocs_ p) (nodes_to_tensors_ p)
  (alloc_node_ p) (dealloc_node_ p) (arena_ p) (has_nonpersistent_memory_ p)
  (persistent_arena_ p) (preserve_all_tensors_ p) (tensor_alignment_ p) (last_active_node_ p)
  (actual_tensor_id_ p) v.

(** The planner with what its pointers reach: the heap and the graph's tensors. *)
Record pstate := PState { ps_heap : heap; ps_graph : GraphInfo; ps_planner : ArenaPlanner }.

Definition graph_info : M pstate GraphInfo := fun s => (Done (ps_graph s), s).
Definition this : M pstate ArenaPlanner := fun s => (Done (ps_planner s), s).
Definition set_this (f : ArenaPlanner -> ArenaPlanner) : M pstate unit :=
  modify (fun s => PState (ps_heap s) (ps_graph s) (f (ps_planner s))).
Definition set_tensors (ts : list TfLiteTensor) : M pstate unit :=
  modify (fun s => PState (ps_heap s) (with_tensors ts (ps_graph s)) (ps_planner s)).

(** [tensors[i]]. *)
Definition tensor_at (i : Z) : M pstate TfLiteTensor :=
  let* g := graph_info in access ((gi_tensors g).[i]).

(** [tensors[i].data.raw = ptr]. *)
Definition set_tensor_data (i ptr : Z) : M pstate unit :=
  let* g := graph_info in
  let* t := tensor_at i in
  let* ts := access (zinsert (gi_tensors g) i (set_data ptr t)) in
  set_tensors ts.

(** A call on one of the two arenas. *)
Definition on_arena {A} (c : M (heap * SimpleMemoryArena) A) : M pstate A :=
  zoom (fun s => (ps_heap s, arena_ (ps_planner s)))
       (fun ha s => PState (fst ha) (ps_graph s) (with_arena (snd ha) (ps_planner s))) c.
Definition on_persistent_arena {A} (c : M (heap * SimpleMemoryArena) A) : M pstate A :=
  zoom (fun s => (ps_heap s, persistent_arena_ (ps_planner s)))
       (fun ha s => PState (fst ha) (ps_graph s) (with_persistent_arena (snd ha) (ps_planner s))) c.

(** A call that does not use the heap. *)
Definition arena_only {A} (c : M SimpleMemoryArena A) : M (heap * SimpleMemoryArena) A :=
  zoom snd (fun a s => (fst s, a)) c.

(** ** Resets *)

Definition ResetAllocations : M pstate unit :=
  set_this (fun p => with_arena (ClearPlan (arena_ p)) p) ;;;
  set_this (fun p => with_persistent_arena (ClearPlan (persistent_arena_ p)) p) ;;;
  let* g := graph_info in
  set_this (with_allocs (zresize [] (num_tensors g) alloc_reset)) ;;;
  set_this (with_last_active_node kLastActiveNodeUndefined).

Section Resets.
Context {SS : StdSort}.

Definition ResetAllocationsAfter (node : Z) : M pstate unit :=
  let* p := this in
  for_each (zrange 0 (zlength (allocs_ p) - 1)) (fun i =>
    let* p := this in
    let* a := access ((allocs_ p).[i]) in
    if (node <? first_node a) && (0 <? size a) then
      let* t := tensor_at i in
      if bool_decide (t_allocation_type t = kTfLiteArenaRw) then
        let* v := access (zinsert (allocs_ p) i alloc_reset) in
        set_this (with_allocs v) ;;;
        set_tensor_data i 0
      else ret tt
    else ret tt) ;;;
  let* p := this in
  (if node <? last_active_node_ p
   then set_this (fun p => with_arena (CalculateActiveAllocs (allocs_ p) node (arena_ p)) p)
   else set_this (fun p => with_arena (PurgeAfter node (arena_ p)) p)) ;;;
  set_this (with_last_active_node node).
End Resets.

(** ** Planning *)

(** [FindSharedTensor]. *)
Definition find_shared (ids : gmap Z Z) (tensor_index : Z) : Z :=
  default tensor_index (ids !! tensor_index).

Definition FindSharedTensor (tensor_index : Z) : M pstate Z :=
  let* p := this in ret (find_shared (actual_tensor_id_ p) tensor_index).

Definition InputTensorCanBeShared (input_tensor output_tensor : TfLiteTensor)
    (input_id output_id : Z) (tensor_changed : bool) : M pstate bool :=
  let* p := this in
  let* g := graph_info in
  let* changed_ok :=
    if tensor_changed then
      if negb (t_bytes input_tensor =? t_bytes output_tensor) ||
         (t_bytes input_tensor <=? kScalarTensorBytes) then ret false
      else
        let* rc := access ((refcounts_ p).[input_id]) in
        ret (negb (1 <? rc))
    else ret true in
  ret (changed_ok &&
    negb (existsb (Z.eqb input_id) (gi_inputs g)) &&
    negb (existsb (Z.eqb output_id) (gi_outputs g)) &&
    negb (negb (bool_decide (t_allocation_type input_tensor = t_allocation_type output_tensor)) &&
          negb (bool_decide (t_allocation_type input_tensor = kTfLiteArenaRw))) &&
    negb (preserve_all_tensors_ p)).

(** The loop over the first inputs of a node: the first one that may be shared. *)
Fixpoint first_shareable (inplace_operator : Z) (output_tensor : TfLiteTensor) (output_id : Z)
    (tensor_changed : bool) (i : Z) (inputs : list Z) : M pstate Z :=
  match inputs with
  | [] => ret (-1)
  | input :: rest =>
    if input =? kTfLiteOptionalTensor
    then first_shareable inplace_operator output_tensor output_id tensor_changed (i + 1) rest
    else
      let* shareable :=
        if negb (Z.land inplace_operator (Z.shiftl kTfLiteInplaceOpInput0Shared i) =? 0) then
          let* input_tensor := tensor_at input in
          InputTensorCanBeShared input_tensor output_tensor input output_id tensor_changed
        else ret false in
      if shareable : bool then ret input
      else first_shareable inplace_operator output_tensor output_id tensor_changed (i + 1) rest
  end.

(** The body of the loop of [IdentifyInPlaceTensors]. *)
Definition identify_node (nr : TfLiteNode * TfLiteRegistration) : M pstate unit :=
  let '(node, registration) := nr in
  match node_outputs node with
  | [] => ret tt
  | output_id :: _ =>
    let tensor_changed :=
      Z.land (inplace_operator registration) kTfLiteInplaceOpDataUnmodified =? 0 in
    if inplace_operator registration =? kTfLiteInplaceOpNone then ret tt
    else
      let* output_tensor := tensor_at output_id in
      let* input_id :=
        first_shareable (inplace_operator registration) output_tensor output_id tensor_changed 0
          (take (Z.to_nat kTfLiteMaxSharableOpInputs) (node_inputs node)) in
      if input_id =? -1 then ret tt
      else
        let* actual_output_tensor_id := FindSharedTensor input_id in
        let* p := this in
        let* in_use :=
          if tensor_changed then
            let* rc := access ((refcounts_ p).[actual_output_tensor_id]) in ret (1 <? rc)
          else ret false in
        if in_use : bool then ret tt
        else set_this (fun p =>
          with_actual_tensor_id (<[output_id := actual_output_tensor_id]> (actual_tensor_id_ p)) p)
  end.

Definition IdentifyInPlaceTensors : M pstate unit :=
  set_this (with_actual_tensor_id ∅) ;;;
  let* g := graph_info in
  for_each (gi_nodes g) identify_node.

(** The lambda [allocate] of [PlanAllocations]. *)
Definition allocate (node tensor : Z) : M pstate unit :=
  let* p := this in
  let* a := access ((alloc_node_ p).[tensor]) in
  if negb (a =? kNodeNotAssigned) then ret tt
  else
    let* d := access ((dealloc_node_ p).[tensor]) in
    ensure (d =? kNodeNotAssigned) ;;;
    let* v := access (zinsert (alloc_node_ p) tensor node) in
    set_this (with_alloc_node v).

(** The lambda [deallocate]. *)
Definition deallocate (node tensor : Z) : M pstate unit :=
  let* p := this in
  let* a := access ((alloc_node_ p).[tensor]) in
  if a =? kNodeNotAssigned then ret tt
  else
    let* d := access ((dealloc_node_ p).[tensor]) in
    ensure (d =? kNodeNotAssigned) ;;;
    let* v := access (zinsert (dealloc_node_ p) tensor node) in
    set_this (with_dealloc_node v).

(** [refcounts[tensor] += delta]. *)
Definition add_count (refcounts : list Z) (tensor delta : Z) : option (list Z) :=
  match refcounts.[tensor] with
  | Some c => zinsert refcounts tensor (c + delta)
  | None => None
  end.

Definition incr_refcount (tensor : Z) : M pstate unit :=
  let* p := this in
  let* v := access (add_count (refcounts_ p) tensor 1) in
  set_this (with_refcounts v).

(** [nodes_to_tensors_[node].insert(tensor)]. *)
Definition queue_tensor (node tensor : Z) : M pstate unit :=
  let* p := this in
  let* ts := access ((nodes_to_tensors_ p).[node]) in
  let* v := access (zinsert (nodes_to_tensors_ p) node ({[ tensor ]} ∪ ts)) in
  set_this (with_nodes_to_tensors v).

Definition start_plan : M pstate unit :=
  let* g := graph_info in
  ResetAllocations ;;;
  set_this (with_alloc_node (replicate (Z.to_nat (num_tensors g)) kNodeNotAssigned)) ;;;
  set_this (with_dealloc_node (replicate (Z.to_nat (num_tensors g)) kNodeNotAssigned)) ;;;
  set_this (with_nodes_to_tensors (zresize [] (Z.max (num_execution_nodes g) 1) ∅)) ;;;
  set_this (with_refcounts (replicate (Z.to_nat (num_tensors g)) 0)).

(** The graph's outputs, variables and inputs are kept for the whole inference. *)
Definition plan_pinned : M pstate unit :=
  let* g := graph_info in
  for_each (gi_outputs g) (fun t =>
    if t =? kTfLiteOptionalTensor then ret tt else incr_refcount t) ;;;
  for_each (gi_variables g) (fun t =>
    incr_refcount t ;;;
    ensure (negb (t =? kTfLiteOptionalTensor)) ;;;
    allocate 0 t ;;;
    queue_tensor 0 t) ;;;
  for_each (gi_inputs g) (fun t =>
    if t =? kTfLiteOptionalTensor then ret tt
    else incr_refcount t ;;; allocate 0 t ;;; queue_tensor 0 t).

(** References of node inputs, counted in [refcounts_]. *)
Definition count_node_inputs : M pstate unit :=
  let* g := graph_info in
  for_each (gi_nodes g) (fun nr =>
    for_each (node_inputs (fst nr)) (fun t =>
      if t =? kTfLiteOptionalTensor then ret tt else incr_refcount t)).

(** References of node inputs to the owners of their buffers, counted in the local copy. *)
Definition count_shared_inputs (refcounts : list Z) : M pstate (list Z) :=
  let* g := graph_info in
  for_fold (gi_nodes g) refcounts (fun rc nr =>
    for_fold (node_inputs (fst nr)) rc (fun rc t =>
      if t =? kTfLiteOptionalTensor then ret rc
      else let* t := FindSharedTensor t in access (add_count rc t 1))).

(** One node of the last loop: queue its outputs, then release what it is the last to read. *)
Definition plan_outputs (i : Z) (node : TfLiteNode) : M pstate unit :=
  for_each (node_outputs node) (fun t =>
    if t =? kTfLiteOptionalTensor then ret tt
    else queue_tensor i t ;;; allocate i t).

Definition plan_inputs (i : Z) (node : TfLiteNode) (rc : list Z) : M pstate (list Z) :=
  for_fold (node_inputs node) rc (fun rc t =>
    if t =? kTfLiteOptionalTensor then ret rc
    else
      let* t := FindSharedTensor t in
      let* rc := access (add_count rc t (-1)) in
      let* c := access (rc.[t]) in
      (if c =? 0 then deallocate i t else ret tt) ;;;
      ret rc).

Definition plan_nodes (refcounts : list Z) : M pstate (list Z) :=
  let* g := graph_info in
  for_fold (enumerate (gi_nodes g)) refcounts (fun rc inr =>
    let '(i, (node, _)) := inr in
    plan_outputs i node ;;;
    let* p := this in
    if preserve_all_tensors_ p then ret rc else plan_inputs i node rc).

Definition PlanAllocations : M pstate unit :=
  start_plan ;;;
  plan_pinned ;;;
  let* p := this in
  let refcounts := refcounts_ p in
  count_node_inputs ;;;
  IdentifyInPlaceTensors ;;;
  let* refcounts := count_shared_inputs refcounts in
  plan_nodes refcounts ;;;
  ret tt.

(** ** Placing the tensors *)

Section Execute.
Context {MM : Malloc} {SS : StdSort}.

Definition Commit_arenas : M pstate bool :=
  let* arena_reallocated := on_arena Commit in
  set_this (with_has_nonpersistent_memory true) ;;;
  let* persistent_arena_reallocated := on_persistent_arena Commit in
  ret (arena_reallocated || persistent_arena_reallocated).

(** The lambda [tensor_compare]; the indices it is called with are in range. *)
Definition whole_inference (p : ArenaPlanner) (idx : Z) : bool :=
  bool_decide ((alloc_node_ p).[idx] = Some 0) &&
  bool_decide ((dealloc_node_ p).[idx] = Some kNodeNotAssigned).

Definition tensor_compare (tensors : list TfLiteTensor) (p : ArenaPlanner) (idx1 idx2 : Z) : bool :=
  if whole_inference p idx1 then
    if whole_inference p idx2 then idx1 <? idx2 else true
  else if whole_inference p idx2 then false
  else
    let size1 := default 0 (t_bytes <$> tensors.[idx1]) in
    let size2 := default 0 (t_bytes <$> tensors.[idx2]) in
    if negb (size1 =? size2) then size2 <? size1
    else default 0 (alloc_node_ p).[idx1] <? default 0 (alloc_node_ p).[idx2].

Definition CreateTensorAllocationVector (tensors_to_allocate : list Z) : M pstate (list Z) :=
  let* g := graph_info in
  let* p := this in
  ret (std_sort (tensor_compare (gi_tensors g) p) tensors_to_allocate).

(** The iteration order of an [unordered_set] is not determined: here, that of [elements]. *)
Definition GetTensorsToAllocate (first_node last_node : Z) : M pstate (list Z) :=
  let* p := this in
  for_fold (zrange first_node last_node) [] (fun acc i =>
    let* ts := access ((nodes_to_tensors_ p).[i]) in
    ret (acc ++ elements ts)).

(** The tensors of the range whose allocation is missing or too small. *)
Definition tensors_to_place (candidates : list Z) : M pstate (list Z) :=
  for_fold candidates [] (fun acc tensor_index =>
    let* t := tensor_at tensor_index in
    if bool_decide (t_allocation_type t = kTfLiteArenaRw) then
      let* p := this in
      let* a := access ((allocs_ p).[tensor_index]) in
      ret (if size a <? t_bytes t then acc ++ [tensor_index] else acc)
    else if bool_decide (t_allocation_type t = kTfLiteArenaRwPersistent)
    then ret (acc ++ [tensor_index])
    else ret acc).

(** Whether the tensor keeps sharing another tensor's buffer; sharing that is no longer
    possible is dropped. *)
Definition still_shared (tensor_index : Z) : M pstate bool :=
  let* p := this in
  match actual_tensor_id_ p !! tensor_index with
  | None => ret false
  | Some root =>
    let* t := tensor_at tensor_index in
    let* r := tensor_at root in
    if negb (bool_decide (t_allocation_type r = kTfLiteArenaRw)) || negb (t_bytes r =? t_bytes t)
    then
      set_this (fun p => with_actual_tensor_id (delete tensor_index (actual_tensor_id_ p)) p) ;;;
      ret false
    else ret true
  end.

(** [Allocate(..., &allocs_[tensor_index])]. *)
Definition store_alloc (tensor_index : Z) (a : ArenaAllocWithUsageInterval) : M pstate unit :=
  let* p := this in
  let* v := access (zinsert (allocs_ p) tensor_index a) in
  set_this (with_allocs v).

Definition place_rw (tensor_index : Z) (t : TfLiteTensor) : M pstate unit :=
  let* p := this in
  let* fn := access ((alloc_node_ p).[tensor_index]) in
  let* ln := access ((dealloc_node_ p).[tensor_index]) in
  let* a := on_arena (arena_only
              (Allocate (tensor_alignment_ p) (t_bytes t) tensor_index fn ln)) in
  store_alloc tensor_index a.

Definition place_persistent (tensor_index : Z) (t : TfLiteTensor) : M pstate unit :=
  let* p := this in
  let* a := access ((allocs_ p).[tensor_index]) in
  if (size a =? 0) && (size a <? t_bytes t) then
    let* fn := access ((alloc_node_ p).[tensor_index]) in
    let* a := on_persistent_arena (arena_only
                (Allocate (tensor_alignment_ p) (t_bytes t) tensor_index fn INT32_MAX)) in
    store_alloc tensor_index a
  else ret tt.

Definition place_tensor (tensor_index : Z) : M pstate unit :=
  let* t := tensor_at tensor_index in
  let* shared := still_shared tensor_index in
  if shared : bool then ret tt
  else
    (if bool_decide (t_allocation_type t = kTfLiteArenaRw) then place_rw tensor_index t else ret tt) ;;;
    (if bool_decide (t_allocation_type t = kTfLiteArenaRwPersistent)
     then place_persistent tensor_index t else ret tt).

Definition CalculateAllocations (first_node last_node : Z) : M pstate (list Z) :=
  let* candidates := GetTensorsToAllocate first_node last_node in
  let* tensors_allocated := tensors_to_place candidates in
  match tensors_allocated with
  | [] => set_this (with_last_active_node last_node) ;;; ret []
  | _ =>
    let* p := this in
    (if first_node <? last_active_node_ p then
       set_this (fun p => with_arena (ResetAllocs (arena_ p)) p) ;;;
       set_this (with_last_active_node first_node)
     else set_this (fun p => with_arena (PurgeActiveAllocs first_node (arena_ p)) p)) ;;;
    let* tensors_allocated := CreateTensorAllocationVector tensors_allocated in
    for_each tensors_allocated place_tensor ;;;
    set_this (with_last_active_node last_node) ;;;
    ret tensors_allocated
  end.

Definition AreTensorsAllocatedInSameArena (root tensor : TfLiteTensor) : bool :=
  (bool_decide (t_allocation_type root = kTfLiteArenaRw) &&
   bool_decide (t_allocation_type tensor = kTfLiteArenaRw)) ||
  (bool_decide (t_allocation_type root = kTfLiteArenaRwPersistent) &&
   bool_decide (t_allocation_type tensor = kTfLiteArenaRwPersistent)).

(** The address of a tensor that owns its buffer. *)
Definition resolve_own (tensor_index : Z) (t : TfLiteTensor) : M pstate unit :=
  let* p := this in
  if bool_decide (t_allocation_type t = kTfLiteArenaRw) then
    let* a := access ((allocs_ p).[tensor_index]) in
    if size a =? 0 then ret tt
    else
      let* ptr := on_arena (arena_only (ResolveAlloc a)) in
      set_tensor_data tensor_index ptr
  else if bool_decide (t_allocation_type t = kTfLiteArenaRwPersistent) then
    let* a := access ((allocs_ p).[tensor_index]) in
    let* ptr := on_persistent_arena (arena_only (ResolveAlloc a)) in
    set_tensor_data tensor_index ptr
  else ret tt.

(** The body, with the nested call, whose status is ignored, as an argument. *)
Definition resolve_step (resolve : Z -> M pstate unit) (tensor_index : Z) : M pstate unit :=
  let* p := this in
  let* t := tensor_at tensor_index in
  let root := find_shared (actual_tensor_id_ p) tensor_index in
  let* r := tensor_at root in
  if negb (root =? tensor_index) && AreTensorsAllocatedInSameArena r t then
    (fun s => match resolve root s with
              | (Fail _, s') => (Done tt, s')
              | res => res
              end) ;;;
    let* r := tensor_at root in
    set_tensor_data tensor_index (t_data r)
  else resolve_own tensor_index t.

(** [fuel] bounds the depth of the calls ([resolve_run] in [ArenaPlace] shows that two are
    enough). *)
Fixpoint ResolveTensorAllocation (fuel : nat) (tensor_index : Z) : M pstate unit :=
  match fuel with
  | O => undef
  | S fuel => resolve_step (ResolveTensorAllocation fuel) tensor_index
  end.

(** The bounds of the loop are compared as [size_t]. *)
Definition set_temporaries (first_node last_node : Z) : M pstate unit :=
  let* g := graph_info in
  for_each (zrange (size_wrap first_node) (Z.min (size_wrap last_node) (num_execution_nodes g - 1))) (fun i =>
    let* nr := access ((gi_nodes g).[i]) in
    for_each (node_temporaries (fst nr)) (fun t =>
      let* p := this in
      let* v := access (zinsert (alloc_node_ p) t i) in
      set_this (with_alloc_node v) ;;;
      queue_tensor i t ;;;
      if preserve_all_tensors_ p then ret tt
      else
        let* v := access (zinsert (dealloc_node_ p) t i) in
        set_this (with_dealloc_node v))).

Definition resolve_fuel (g : GraphInfo) : nat := S (length (gi_tensors g)).

Definition ExecuteAllocations (first_node last_node : Z) : M pstate unit :=
  let* g := graph_info in
  let* p := this in
  ensure (zlength (allocs_ p) <=? num_tensors g) ;;;
  set_this (fun p => with_alloc_node (zresize (alloc_node_ p) (num_tensors g) kNodeNotAssigned) p) ;;;
  set_this (fun p => with_dealloc_node (zresize (dealloc_node_ p) (num_tensors g) kNodeNotAssigned) p) ;;;
  set_this (fun p => with_allocs (zresize (allocs_ p) (num_tensors g) alloc_reset) p) ;;;
  set_temporaries first_node last_node ;;;
  let* tensors_allocated := CalculateAllocations first_node last_node in
  let* arena_reallocated := Commit_arenas in
  if arena_reallocated : bool
  then for_each (zrange 0 (num_tensors g - 1)) (ResolveTensorAllocation (resolve_fuel g))
  else for_each tensors_allocated (ResolveTensorAllocation (resolve_fuel g)).

Definition ReleaseNonPersistentMemory : M pstate unit :=
  on_arena ReleaseBuffer ;;;
  set_this (with_has_nonpersistent_memory false) ;;;
  let* g := graph_info in
  for_each (zrange 0 (num_tensors g - 1)) (fun i =>
    let* t := tensor_at i in
    if bool_decide (t_allocation_type t = kTfLiteArenaRw) then set_tensor_data i 0 else ret tt).

Definition AcquireNonPersistentMemory : M pstate unit :=
  let* _ := on_arena Commit in
  set_this (with_has_nonpersistent_memory true) ;;;
  let* g := graph_info in
  for_each (zrange 0 (num_tensors g - 1)) (fun i =>
    let* t := tensor_at i in
    if bool_decide (t_allocation_type t = kTfLiteArenaRw)
    then ResolveTensorAllocation (resolve_fuel g) i else ret tt).

Definition HasNonPersistentMemory : M pstate bool :=
  let* p := this in ret (has_nonpersistent_memory_ p).

Definition GetAllocInfo : M pstate (Z * Z) :=
  let* p := this in ret (GetBufferSize (arena_ p), GetBufferSize (persistent_arena_ p)).

Definition BasePointer_of (type : TfLiteAllocationType) : M pstate Z :=
  let* p := this in
  ret (match type with
       | kTfLiteArenaRwPersistent => BasePointer (persistent_arena_ p)
       | kTfLiteArenaRw => BasePointer (arena_ p)
       | _ => 0
       end).

(** [~ArenaPlanner]. *)
Definition ArenaPlanner_delete : M pstate unit :=
  on_arena ReleaseBuffer ;;; on_persistent_arena ReleaseBuffer.
End Execute.
