(* ===== verification/ArenaPlan.v ===== *)
(** * What [PlanAllocations] promises

    The lifetimes and the buffer sharing computed by [ArenaPlanner::PlanAllocations]: on
    every well-formed graph the call succeeds, and every buffer is alive at every node that
    reads or writes a tensor living in it. *)
From S2P Require Import Prelude Heap MemoryArena Common GraphInfo ArenaPlanner.

(** ** States of the planner while it plans *)

Section Plan.
Context (h : heap) (g : GraphInfo) (p0 : ArenaPlanner) (Hwf : graph_wf g).

(** The fields planning changes: allocation nodes, release nodes, queues, reference counts
    and shared buffers. *)
Definition St (a d : list Z) (q : list (gset Z)) (v : list Z) (ids : gmap Z Z) : pstate :=
  PState h g (mkPlanner (replicate (Z.to_nat (num_tensors g)) alloc_reset) q a d
    (ClearPlan (arena_ p0)) (has_nonpersistent_memory_ p0) (ClearPlan (persistent_arena_ p0))
    (preserve_all_tensors_ p0) (tensor_alignment_ p0) kLastActiveNodeUndefined ids v).

(** Sizes of the vectors. *)
Definition sized (a d : list Z) (q : list (gset Z)) (v : list Z) : Prop :=
  zlength a = num_tensors g /\ zlength d = num_tensors g /\ zlength v = num_tensors g /\
  zlength q = Z.max (num_execution_nodes g) 1.

Definition planning (I : list Z -> list Z -> list (gset Z) -> list Z -> gmap Z Z -> Prop)
    (s : pstate) : Prop :=
  exists a d q v ids, s = St a d q v ids /\ sized a d q v /\ I a d q v ids.

Definition alloc_upd (i t : Z) (a : list Z) : list Z :=
  if zget a t =? kNodeNotAssigned then zset a t i else a.

Definition queue_upd (i t : Z) (q : list (gset Z)) : list (gset Z) :=
  zset q i ({[ t ]} ∪ default ∅ q.[i]).

Lemma graph_info_bind {A} (k : GraphInfo -> M pstate A) a d q v ids :
  bind graph_info k (St a d q v ids) = k g (St a d q v ids).
Proof. done. Qed.

Lemma allocate_run i t a d q v ids :
  sized a d q v -> valid g t -> (zget a t = kNodeNotAssigned -> zget d t = kNodeNotAssigned) ->
  allocate i t (St a d q v ids) = (Done tt, St (alloc_upd i t a) d q v ids).
Proof.
  intros (Ha & Hd & _) Ht Himp. unfold valid in Ht.
  unfold allocate, bind, this, alloc_upd. cbn. rewrite (zlookup_zget a) by lia. cbn.
  destruct (Z.eqb_spec (zget a t) kNodeNotAssigned) as [He|]; cbn; [|done].
  rewrite (zlookup_zget d) by lia. cbn. rewrite (proj2 (Z.eqb_eq _ _) (Himp He)). cbn.
  by rewrite zinsert_zset by lia.
Qed.

Lemma deallocate_run i t a d q v ids :
  sized a d q v -> valid g t -> zget d t = kNodeNotAssigned ->
  deallocate i t (St a d q v ids) =
    (Done tt, St a (if zget a t =? kNodeNotAssigned then d else zset d t i) q v ids).
Proof.
  intros (Ha & Hd & _) Ht Hn. unfold valid in Ht.
  unfold deallocate, bind, this. cbn. rewrite (zlookup_zget a) by lia. cbn.
  destruct (Z.eqb_spec (zget a t) kNodeNotAssigned) as [He|]; cbn; [done|].
  rewrite (zlookup_zget d) by lia. cbn. rewrite (proj2 (Z.eqb_eq _ _) Hn). cbn.
  by rewrite zinsert_zset by lia.
Qed.

Lemma queue_tensor_run i t a d q v ids :
  sized a d q v -> 0 <= i < zlength q ->
  queue_tensor i t (St a d q v ids) = (Done tt, St a d (queue_upd i t q) v ids).
Proof.
  intros _ Hi. unfold queue_tensor, bind, this, queue_upd. cbn.
  destruct (zlookup_in_range q i Hi) as [ts Hts]. rewrite Hts. cbn. by rewrite zinsert_zset.
Qed.

Lemma add_count_run (v : list Z) t k : 0 <= t < zlength v ->
  add_count v t k = Some (zset v t (zget v t + k)).
Proof. intros. unfold add_count. by rewrite zlookup_zget, zinsert_zset. Qed.

Lemma incr_refcount_run t a d q v ids :
  sized a d q v -> valid g t ->
  incr_refcount t (St a d q v ids) = (Done tt, St a d q (zset v t (zget v t + 1)) ids).
Proof.
  intros (_ & _ & Hv & _) Ht. unfold valid in Ht. unfold incr_refcount, bind, this. cbn.
  by rewrite add_count_run by lia.
Qed.

Lemma sized_alloc i t a d q v : sized a d q v -> sized (alloc_upd i t a) d q v.
Proof. unfold sized, alloc_upd. destruct (_ =? _); by rewrite ?zlength_zset. Qed.
Lemma sized_dealloc t i a d q v : sized a d q v -> sized a (zset d t i) q v.
Proof. unfold sized. by rewrite zlength_zset. Qed.
Lemma sized_queue i t a d q v : sized a d q v -> sized a d (queue_upd i t q) v.
Proof. unfold sized, queue_upd. by rewrite zlength_zset. Qed.
Lemma sized_count t k a d q v : sized a d q v -> sized a d q (zset v t k).
Proof. unfold sized. by rewrite zlength_zset. Qed.

#[local] Hint Resolve sized_alloc sized_dealloc sized_queue sized_count : tfl.

Lemma zget_alloc_upd i t a u : 0 <= t < zlength a ->
  zget (alloc_upd i t a) u =
  if (t =? u) && (zget a t =? kNodeNotAssigned) then i else zget a u.
Proof.
  intros Ht. unfold alloc_upd. destruct (zget a t =? kNodeNotAssigned).
  - rewrite zget_zset, andb_true_r by done. done.
  - by rewrite andb_false_r.
Qed.

Lemma zlookup_queue_upd i t q j : 0 <= i < zlength q ->
  (queue_upd i t q).[j] = if i =? j then Some ({[ t ]} ∪ default ∅ q.[i]) else q.[j].
Proof. intros. unfold queue_upd. by apply zlookup_zset. Qed.

(** ** Pinned tensors *)

(** After the graph's outputs, variables and inputs: [pins] are the tensors with an extra
    reference, [kept] those allocated and queued at node 0. *)
Record pinned (pins kept : list Z) (a d : list Z) (q : list (gset Z)) (v : list Z) : Prop := {
  pin_dealloc : forall t, valid g t -> zget d t = kNodeNotAssigned;
  pin_count : forall t, valid g t -> 0 <= zget v t;
  pin_pins : forall t, t ∈ pins -> valid g t -> 1 <= zget v t;
  pin_alloc : forall t, valid g t -> zget a t = kNodeNotAssigned \/ zget a t = 0;
  pin_kept : forall t, t ∈ kept -> valid g t ->
    zget a t = 0 /\ exists ts, q.[0] = Some ts /\ t ∈ ts;
  pin_queue : forall i ts t, q.[i] = Some ts -> t ∈ ts -> valid g t;
}.

Lemma start_plan_run :
  start_plan (PState h g p0) =
  (Done tt, St (replicate (Z.to_nat (num_tensors g)) kNodeNotAssigned)
              (replicate (Z.to_nat (num_tensors g)) kNodeNotAssigned)
              (zresize [] (Z.max (num_execution_nodes g) 1) ∅)
              (replicate (Z.to_nat (num_tensors g)) 0) (actual_tensor_id_ p0)).
Proof.
  unfold start_plan, ResetAllocations, bind, graph_info, set_this, modify, St. cbn.
  unfold zresize. rewrite !take_nil, !Nat.sub_0_r. reflexivity.
Qed.

Lemma zlookup_zresize_nil {A} n (x : A) i y : (zresize [] n x).[i] = Some y -> y = x.
Proof.
  unfold zresize. rewrite take_nil. cbn. rewrite Nat.sub_0_r.
  by intros [_ [-> _]%lookup_replicate]%zlookup_some.
Qed.

Lemma start_plan_pinned :
  spec (fun s => s = PState h g p0) start_plan
    (fun _ => planning (fun a d q v _ => pinned [] [] a d q v)) never.
Proof.
  intros ? ->. rewrite start_plan_run. eexists _, _, _, _, _. split; [done|].
  pose proof (Zle_0_nat (length (gi_tensors g))) as Hn. fold (zlength (gi_tensors g)) in Hn.
  fold (num_tensors g) in Hn. split.
  { unfold sized. rewrite !zlength_replicate, zlength_zresize by lia. done. }
  split; unfold valid; intros.
  - by rewrite zget_replicate.
  - by rewrite zget_replicate.
  - by apply not_elem_of_nil in H.
  - left. by rewrite zget_replicate.
  - by apply not_elem_of_nil in H.
  - apply zlookup_zresize_nil in H. subst. set_solver.
Qed.

Lemma pinned_incr pins kept a d q v t : zlength v = num_tensors g -> valid g t ->
  pinned pins kept a d q v -> pinned (t :: pins) kept a d q (zset v t (zget v t + 1)).
Proof.
  intros Hlen Ht [Hd Hc Hp Ha Hk Hq]. split; try done.
  - intros u Hu. rewrite zget_zset by (unfold valid in *; lia).
    specialize (Hc u Hu). destruct (Z.eqb_spec t u) as [->|]; lia.
  - intros u Hin Hu. rewrite zget_zset by (unfold valid in *; lia).
    pose proof (Hc u Hu). destruct (Z.eqb_spec t u) as [->|Hne]; [lia|].
    apply elem_of_cons in Hin as [->|Hin]; [done|]. by apply Hp.
Qed.

Lemma pinned_keep pins kept a d q v t : sized a d q v -> valid g t ->
  pinned pins kept a d q v ->
  pinned pins (t :: kept) (alloc_upd 0 t a) d (queue_upd 0 t q) v.
Proof.
  intros (Hla & _ & _ & Hlq) Ht [Hd Hc Hp Ha Hk Hq].
  assert (Hi : 0 <= 0 < zlength q) by lia.
  assert (Hget : forall u, zget (alloc_upd 0 t a) u =
    if (t =? u) && (zget a t =? kNodeNotAssigned) then 0 else zget a u).
  { intros u. apply zget_alloc_upd. unfold valid in Ht. lia. }
  split; try done.
  - intros u Hu. rewrite Hget. destruct ((t =? u) && _); [by right|by apply Ha].
  - intros u Hin Hu. rewrite Hget, zlookup_queue_upd by done. cbn [Z.eqb].
    apply elem_of_cons in Hin as [->|Hin].
    + rewrite Z.eqb_refl. cbn [andb]. split; [|eexists; split; [done|by apply elem_of_union_l, elem_of_singleton]].
      destruct (Z.eqb_spec (zget a t) kNodeNotAssigned); [done|]. by destruct (Ha t Ht).
    + destruct (Hk u Hin Hu) as [-> (ts & Hts & Hut)].
      split; [by destruct ((t =? u) && _)|]. rewrite Hts. eexists. split; [done|]. by apply elem_of_union_r.
  - intros i ts u. rewrite zlookup_queue_upd by done.
    destruct (Z.eqb_spec 0 i) as [<-|]; [|by apply Hq].
    intros [= <-] [->%elem_of_singleton|Hu]%elem_of_union; [done|].
    destruct (q.[0]) as [ts'|] eqn:Hts; cbn in Hu; [by eapply Hq|set_solver].
Qed.

Lemma pinned_mono pins pins' kept kept' a d q v :
  (forall t, t ∈ pins' -> valid g t -> t ∈ pins) ->
  (forall t, t ∈ kept' -> valid g t -> t ∈ kept) ->
  pinned pins kept a d q v -> pinned pins' kept' a d q v.
Proof. intros H1 H2 [Hd Hc Hp Ha Hk Hq]. split; eauto. Qed.

Definition Pinned (pins kept : list Z) : pstate -> Prop :=
  planning (fun a d q v _ => pinned pins kept a d q v).

(** One reference, and one tensor that is kept. *)
Lemma incr_pinned pins kept t : valid g t ->
  spec (Pinned pins kept) (incr_refcount t)
    (fun _ => Pinned (t :: pins) kept) never.
Proof.
  intros Ht s (a & d & q & v & ids & -> & Hs & HI).
  rewrite incr_refcount_run by done. eexists _, _, _, _, _. split; [done|].
  split; [eauto with tfl|]. apply pinned_incr; [apply Hs|done|done].
Qed.

Lemma keep_pinned pins kept t : valid g t ->
  spec (Pinned pins kept)
    (allocate 0 t ;;; queue_tensor 0 t)
    (fun _ => Pinned pins (t :: kept)) never.
Proof.
  intros Ht s (a & d & q & v & ids & -> & Hs & HI). unfold bind.
  rewrite allocate_run by (done || (intros _; by apply HI)).
  rewrite queue_tensor_run by (eauto with tfl || (destruct Hs as (_ & _ & _ & ?); lia)).
  eexists _, _, _, _, _. split; [done|]. split; [eauto with tfl|]. by apply pinned_keep.
Qed.

Lemma not_optional t : opt_valid g t -> (t =? kTfLiteOptionalTensor) = false -> valid g t.
Proof. intros [->|?] Hn; [done|done]. Qed.

Lemma pinned_weaken pins pins' kept kept' c :
  (forall t, t ∈ pins' -> valid g t -> t ∈ pins) ->
  (forall t, t ∈ kept' -> valid g t -> t ∈ kept) ->
  forall P, spec P c (fun _ : unit => Pinned pins kept) never ->
  spec P c (fun _ => Pinned pins' kept') never.
Proof.
  intros H1 H2 P Hc. eapply spec_conseq; [exact Hc|done| |done].
  intros _ s (a & d & q & v & ids & -> & Hs & HI). eexists _, _, _, _, _.
  split_and!; [done|done|]. by eapply pinned_mono.
Qed.

Lemma optional_pinned pins kept kept' t (c : M pstate unit) : opt_valid g t ->
  (forall u, u ∈ kept' -> u = t \/ u ∈ kept) ->
  (valid g t -> spec (Pinned pins kept) c
     (fun _ => Pinned (t :: pins) kept') never) ->
  spec (Pinned pins kept)
    (if t =? kTfLiteOptionalTensor then ret tt else c)
    (fun _ => Pinned (t :: pins) kept') never.
Proof.
  intros Ht Hk Hc. destruct (t =? kTfLiteOptionalTensor) eqn:He.
  - apply Z.eqb_eq in He as ->. eapply (pinned_weaken pins _ kept).
    + by intros u [->|?]%elem_of_cons [].
    + intros u Hu Hv. destruct (Hk u Hu) as [->|?]; [by destruct Hv|done].
    + by apply spec_ret.
  - by apply Hc, not_optional.
Qed.

(** A loop whose body pins, or pins and keeps, each tensor of a list. *)
Lemma pin_loop (keep : bool) (body : Z -> M pstate unit) l pins kept :
  (forall t pins kept, t ∈ l ->
    spec (Pinned pins kept) (body t)
      (fun _ => Pinned (t :: pins) (if keep then t :: kept else kept)) never) ->
  spec (Pinned pins kept) (for_each l body)
    (fun _ => Pinned (l ++ pins) (if keep then l ++ kept else kept)) never.
Proof.
  revert pins kept. induction l as [|t l IH]; intros pins kept Hbody; cbn [for_each].
  - apply spec_ret. by destruct keep.
  - eapply spec_bind; [apply Hbody; left|]. intros [].
    eapply pinned_weaken; [..|apply IH; intros; by apply Hbody, list_elem_of_further].
    + intros u Hu _. rewrite elem_of_app, elem_of_cons in *. tauto.
    + intros u Hu _. destruct keep; [|done]. rewrite elem_of_app, elem_of_cons in *. tauto.
Qed.

Lemma plan_pinned_spec :
  spec (Pinned [] []) plan_pinned
    (fun _ => Pinned (gi_inputs g ++ gi_variables g ++ gi_outputs g)
                (gi_inputs g ++ gi_variables g)) never.
Proof.
  destruct Hwf as [Hin Hout Hvar _ _ _ _]. rewrite Forall_forall in Hin, Hout, Hvar.
  unfold plan_pinned. eapply (spec_bind _ _ _ (fun g' s => g' = g /\
    Pinned [] [] s)).
  { intros s (a & d & q & v & ids & -> & HI). split; [done|]. by eexists _, _, _, _, _. }
  intros g'. apply spec_pre. intros s0 [-> Hs0].
  apply (spec_weaken (Pinned [] [])); [by intros ? ->|].
  eapply spec_bind; [apply (pin_loop false); intros t pins kept Ht|intros []].
  { apply optional_pinned; [by apply Hout|by right|]. intros Hv. by apply incr_pinned. }
  eapply spec_bind; [apply (pin_loop true); intros t pins kept Ht|intros []].
  { apply (spec_bind _ _ _ (fun _ => Pinned (t :: pins) kept)); [by apply incr_pinned, Hvar|intros []].
    apply (spec_bind _ _ _ (fun _ => Pinned (t :: pins) kept)); [|intros []; by apply keep_pinned, Hvar].
    apply spec_ensure. intros s Hs. destruct (Z.eqb_spec t kTfLiteOptionalTensor) as [->|]; [|done].
    exfalso. specialize (Hvar _ Ht). by destruct Hvar. }
  rewrite !app_nil_r.
  eapply pinned_weaken; [..|apply (pin_loop true); intros t pins kept Ht]; [done|done|].
  apply optional_pinned; [by apply Hin| |]; [intros u [->|?]%elem_of_cons; auto|intros Hv].
  apply (spec_bind _ _ _ (fun _ => Pinned (t :: pins) kept)); [by apply incr_pinned|intros []].
  by apply keep_pinned.
Qed.

(** ** Counting references *)

Lemma count_node_inputs_spec a d q v ids : sized a d q v ->
  exists v', count_node_inputs (St a d q v ids) = (Done tt, St a d q v' ids) /\ sized a d q v'.
Proof.
  intros Hs. set (I := fun s => exists v', s = St a d q v' ids /\ sized a d q v').
  assert (Hspec : spec I (for_each (gi_nodes g) (fun nr =>
      for_each (node_inputs (fst nr)) (fun t =>
        if t =? kTfLiteOptionalTensor then ret tt else incr_refcount t))) (fun _ => I) never).
  { apply spec_for_each_inv. intros nr Hnr. apply spec_for_each_inv. intros t Ht.
    pose proof (wf_nodes g Hwf) as Hn. rewrite Forall_forall in Hn.
    destruct (Hn nr Hnr) as [Hin _]. rewrite Forall_forall in Hin.
    destruct (t =? kTfLiteOptionalTensor) eqn:He; [by apply spec_ret|].
    intros s (v1 & -> & Hs1). rewrite incr_refcount_run; [|done|eapply not_optional; eauto].
    eexists. split; [done|]. eauto with tfl. }
  specialize (Hspec _ (ex_intro _ v (conj eq_refl Hs))).
  unfold count_node_inputs, bind, graph_info. cbn [ps_graph St].
  destruct (for_each _ _ _) as [[[]|e|] s']; [|done|done].
  destruct Hspec as (v' & -> & ?). eauto.
Qed.

(** ** Sharing buffers *)

Lemma tensor_at_run i a d q v ids : valid g i ->
  exists t, tensor_at i (St a d q v ids) = (Done t, St a d q v ids).
Proof.
  intros [t Ht]%zlookup_in_range. exists t. unfold tensor_at, bind, graph_info. cbn [ps_graph St].
  by rewrite Ht.
Qed.

Lemma InputTensorCanBeShared_run it ot i o changed a d q v ids :
  sized a d q v -> valid g i ->
  exists b, InputTensorCanBeShared it ot i o changed (St a d q v ids) = (Done b, St a d q v ids).
Proof.
  intros (_ & _ & Hv & _) Hi. unfold valid in Hi.
  unfold InputTensorCanBeShared, bind, this, graph_info. cbn.
  destruct changed; [|by eexists].
  destruct (negb _ || _); [by eexists|]. cbn. rewrite zlookup_zget by lia. by eexists.
Qed.

Lemma first_shareable_run flags ot o changed i inputs a d q v ids :
  sized a d q v -> Forall (opt_valid g) inputs ->
  exists r, first_shareable flags ot o changed i inputs (St a d q v ids) = (Done r, St a d q v ids) /\
    (r = -1 \/ (r ∈ inputs /\ valid g r)).
Proof.
  intros Hs Hall. revert i. induction Hall as [|x inputs Hx Hall IH]; intros i; cbn [first_shareable].
  - exists (-1). split; [done|by left].
  - assert (Hrest : forall i, exists r,
      first_shareable flags ot o changed i inputs (St a d q v ids) = (Done r, St a d q v ids) /\
      (r = -1 \/ r ∈ x :: inputs /\ valid g r)).
    { intros j. destruct (IH j) as (r & Hr & [?|[? ?]]); exists r; (split; [done|]); [by left|].
      right. split; [by right|done]. }
    destruct (x =? kTfLiteOptionalTensor) eqn:He; [apply Hrest|].
    pose proof (not_optional x Hx He) as Hvx. unfold bind at 1.
    destruct (negb (Z.land flags (Z.shiftl kTfLiteInplaceOpInput0Shared i) =? 0)); [|apply Hrest].
    destruct (tensor_at_run x a d q v ids Hvx) as [t Ht]. unfold bind. rewrite Ht.
    destruct (InputTensorCanBeShared_run t ot x o changed a d q v ids Hs Hvx) as [b Hb].
    rewrite Hb. destruct b; [|apply Hrest]. exists x. split; [done|]. right. split; [left|done].
Qed.

(** What [actual_tensor_id_] means once the nodes [pre] have been visited: a tensor that
    shares a buffer is the first output of a node whose operator may work in place, and the owner is the owner of the buffer
    of one of the node's inputs. *)
Definition sharing (pre : list (TfLiteNode * TfLiteRegistration)) (ids : gmap Z Z) : Prop :=
  forall x r, ids !! x = Some r ->
    valid g r /\ ids !! r = None /\
    (exists nr, nr ∈ pre /\ r ∈ node_inputs (fst nr)) /\
    exists k nr y, pre !! k = Some nr /\ inplace_operator (snd nr) <> kTfLiteInplaceOpNone /\
      head (node_outputs (fst nr)) = Some x /\
      y ∈ node_inputs (fst nr) /\ valid g y /\ find_shared ids y = r.

Lemma sharing_snoc pre nr ids : sharing pre ids -> sharing (pre ++ [nr]) ids.
Proof.
  intros H x r Hx. destruct (H x r Hx) as (? & ? & (n & ? & ?) & k & m & y & Hk & ?).
  split_and!; [done|done|exists n; rewrite elem_of_app; auto|].
  exists k, m, y. split; [by apply lookup_app_l_Some|done].
Qed.

Lemma find_shared_valid pre ids y : sharing pre ids -> valid g y -> valid g (find_shared ids y).
Proof.
  intros H Hy. unfold find_shared. destruct (ids !! y) as [r|] eqn:Hr; [|done].
  by destruct (H y r Hr).
Qed.

Lemma find_shared_root pre ids y : sharing pre ids -> ids !! find_shared ids y = None.
Proof.
  intros H. unfold find_shared. destruct (ids !! y) as [r|] eqn:Hr; [|done].
  by destruct (H y r Hr) as (_ & ? & _).
Qed.

Lemma sharing_insert pre nr rest ids x y :
  gi_nodes g = pre ++ nr :: rest -> sharing pre ids ->
  inplace_operator (snd nr) <> kTfLiteInplaceOpNone -> head (node_outputs (fst nr)) = Some x -> valid g x ->
  y ∈ node_inputs (fst nr) -> valid g y ->
  sharing (pre ++ [nr]) (<[x := find_shared ids y]> ids).
Proof.
  intros Hg H Hop Hx Hvx Hy Hvy.
  assert (Hxout : x ∈ node_outputs (fst nr)).
  { destruct (node_outputs (fst nr)); [done|]. injection Hx as ->. left. }
  assert (Hnr : gi_nodes g !! length pre = Some nr) by (by rewrite Hg, list_lookup_middle).
  assert (Hfresh : forall m z, m ∈ pre ++ [nr] -> z ∈ node_inputs (fst m) -> z <> x).
  { intros m z Hm Hz ->. apply list_elem_of_lookup in Hm as [k Hk].
    assert (k <= length pre)%nat.
    { apply lookup_lt_Some in Hk. rewrite length_app in Hk. cbn in Hk. lia. }
    assert (gi_nodes g !! k = Some m).
    { rewrite Hg, cons_middle, app_assoc. by apply lookup_app_l_Some. }
    assert (x = kTfLiteOptionalTensor) as -> by (by eapply (wf_order g Hwf (length pre) k)).
    by destruct Hvx. }
  assert (Hinnr : nr ∈ pre ++ [nr]) by (rewrite elem_of_app, list_elem_of_singleton; auto).
  assert (Hstable : forall m z, m ∈ pre ++ [nr] -> z ∈ node_inputs (fst m) ->
    find_shared (<[x := find_shared ids y]> ids) z = find_shared ids z).
  { intros m z Hm Hz. unfold find_shared at 1.
    rewrite lookup_insert_ne; [done|]. intros <-. by eapply Hfresh. }
  assert (Hroot : exists m, m ∈ pre ++ [nr] /\ find_shared ids y ∈ node_inputs (fst m)).
  { unfold find_shared. destruct (ids !! y) as [r|] eqn:Hr; [|eauto].
    destruct (H y r Hr) as (_ & _ & (m & ? & ?) & _). exists m. rewrite elem_of_app. auto. }
  intros x' r' [[<- <-]|[Hne Hr]]%lookup_insert_Some.
  - destruct Hroot as (m & Hm & Hroot). split_and!; [by eapply find_shared_valid| |eauto|].
    + rewrite lookup_insert_ne; [by eapply find_shared_root|]. intros Heq. rewrite <- Heq in Hroot. by eapply Hfresh.
    + exists (length pre), nr, y. rewrite list_lookup_middle by done. eauto 10.
  - destruct (H x' r' Hr) as (? & Hnone & (m & Hm & Hmr) & k & n & z & Hk & Hin & Hhd & Hz & Hvz & Hfz).
    assert (Hm' : m ∈ pre ++ [nr]) by (rewrite elem_of_app; auto).
    split_and!; [done| |eauto|].
    + rewrite lookup_insert_ne; [done|]. intros <-. by eapply Hfresh.
    + exists k, n, z. split_and!; [by apply lookup_app_l_Some|done..|].
      erewrite Hstable; [done| |done]. rewrite elem_of_app. left. by eapply list_elem_of_lookup_2.
Qed.

Lemma FindSharedTensor_run t a d q v ids :
  FindSharedTensor t (St a d q v ids) = (Done (find_shared ids t), St a d q v ids).
Proof. done. Qed.

Lemma identify_node_run pre nr rest a d q v ids :
  sized a d q v -> gi_nodes g = pre ++ nr :: rest -> sharing pre ids ->
  exists ids', identify_node nr (St a d q v ids) = (Done tt, St a d q v ids') /\
    sharing (pre ++ [nr]) ids'.
Proof.
  intros Hs Hg Hsh. pose proof (sharing_snoc pre nr ids Hsh) as Hsame.
  pose proof (wf_nodes g Hwf) as Hn. rewrite Hg, Forall_app, Forall_cons in Hn.
  destruct Hn as (_ & (Hin & _ & Hhead) & _).
  destruct nr as [node reg]. unfold identify_node. cbn [fst snd] in *.
  destruct (node_outputs node) as [|o outs] eqn:Houts; [by eexists|].
  destruct (Z.eqb_spec (inplace_operator reg) kTfLiteInplaceOpNone) as [|Hne]; [by eexists|].
  specialize (Hhead Hne o eq_refl).
  destruct (tensor_at_run o a d q v ids Hhead) as [ot Hot]. unfold bind at 1. rewrite Hot.
  set (changed := Z.land (inplace_operator reg) kTfLiteInplaceOpDataUnmodified =? 0).
  destruct (first_shareable_run (inplace_operator reg) ot o changed 0
    (take (Z.to_nat kTfLiteMaxSharableOpInputs) (node_inputs node)) a d q v ids Hs)
    as (r & Hr & Hcase).
  { by apply Forall_take. }
  unfold bind at 1. rewrite Hr. destruct (Z.eqb_spec r (-1)) as [|Hr1]; [by eexists|].
  destruct Hcase as [?|[Hrin Hrv]]; [done|]. apply elem_of_take in Hrin as (k & Hk & _).
  apply list_elem_of_lookup_2 in Hk.
  unfold bind. rewrite FindSharedTensor_run. unfold this. cbn [ps_planner St refcounts_].
  set (root := find_shared ids r).
  assert (Hroot : valid g root) by (by eapply find_shared_valid).
  assert (Hins : sharing (pre ++ [(node, reg)]) (<[o := root]> ids)).
  { eapply sharing_insert; cbn [fst]; [done|done|done|by rewrite Houts|done|done|done]. }
  destruct changed; [|by eexists].
  destruct Hs as (_ & _ & Hv & _). unfold valid in Hroot. rewrite zlookup_zget by lia. cbn [access ret].
  destruct (1 <? zget v root); by eexists.
Qed.

Lemma IdentifyInPlaceTensors_run a d q v ids : sized a d q v ->
  exists ids', IdentifyInPlaceTensors (St a d q v ids) = (Done tt, St a d q v ids') /\
    sharing (gi_nodes g) ids'.
Proof.
  intros Hs.
  pose proof (spec_for_each
    (fun pre s => exists ids', s = St a d q v ids' /\ sharing pre ids')
    (gi_nodes g) identify_node never) as Hloop.
  specialize (Hloop ltac:(intros pre nr rest Hg s (ids' & -> & Hsh);
    destruct (identify_node_run pre nr rest a d q v ids' Hs Hg Hsh) as (i2 & -> & ?); eauto)
    (St a d q v ∅)).
  unfold IdentifyInPlaceTensors, bind, set_this, modify, graph_info. cbn [ps_graph ps_planner ps_heap St].
  change (PState h g _) with (St a d q v ∅).
  destruct (for_each (gi_nodes g) identify_node (St a d q v ∅)) as [[[]|e|] s'].
  - destruct Hloop as (ids' & -> & ?); [|by eexists].
    exists ∅. split; [done|]. by intros x r Hx%lookup_empty_Some.
  - destruct Hloop. exists ∅. split; [done|]. by intros x r Hx%lookup_empty_Some.
  - destruct Hloop. exists ∅. split; [done|]. by intros x r Hx%lookup_empty_Some.
Qed.

(** The owners of the buffers a node reads, with repetitions. *)
Definition refs (ids : gmap Z Z) (inputs : list Z) : list Z :=
  find_shared ids <$> filter (fun t => t <> kTfLiteOptionalTensor) inputs.

Definition node_refs (ids : gmap Z Z) (nodes : list (TfLiteNode * TfLiteRegistration)) : list Z :=
  nodes ≫= fun nr => refs ids (node_inputs (fst nr)).

Definition occ (t : Z) (l : list Z) : Z := Z.of_nat (count_occ Z.eq_dec l t).

Lemma occ_cons t u l : occ t (u :: l) = (if u =? t then 1 else 0) + occ t l.
Proof.
  unfold occ. cbn. destruct (Z.eq_dec u t) as [->|Hne].
  - rewrite Z.eqb_refl. lia.
  - rewrite (proj2 (Z.eqb_neq u t)) by done. lia.
Qed.

Lemma occ_app t l1 l2 : occ t (l1 ++ l2) = occ t l1 + occ t l2.
Proof. unfold occ. rewrite count_occ_app. lia. Qed.

Lemma occ_nonneg t l : 0 <= occ t l.
Proof. unfold occ. lia. Qed.

Lemma occ_pos t l : t ∈ l <-> 0 < occ t l.
Proof. unfold occ. rewrite list_elem_of_In, (count_occ_In Z.eq_dec). lia. Qed.

Lemma refs_cons ids t inputs :
  refs ids (t :: inputs) =
  if t =? kTfLiteOptionalTensor then refs ids inputs else find_shared ids t :: refs ids inputs.
Proof.
  unfold refs. rewrite filter_cons. destruct (Z.eqb_spec t kTfLiteOptionalTensor) as [->|].
  - by rewrite decide_False by (by intros []).
  - by rewrite decide_True.
Qed.

Lemma refs_elem ids inputs t :
  t ∈ refs ids inputs <-> exists x, x ∈ inputs /\ x <> kTfLiteOptionalTensor /\ find_shared ids x = t.
Proof.
  unfold refs. rewrite list_elem_of_fmap. setoid_rewrite list_elem_of_filter.
  split; intros (x & ? & ?); exists x; intuition congruence.
Qed.

Section Release.
Context (ids : gmap Z Z) (Hsh : sharing (gi_nodes g) ids).

Lemma count_inputs_run inputs a d q v : Forall (opt_valid g) inputs ->
  forall rc, zlength rc = num_tensors g ->
  exists rc', for_fold inputs rc (fun rc t =>
      if t =? kTfLiteOptionalTensor then ret rc
      else let* t := FindSharedTensor t in access (add_count rc t 1)) (St a d q v ids) =
    (Done rc', St a d q v ids) /\ zlength rc' = num_tensors g /\
    forall t, valid g t -> zget rc' t = zget rc t + occ t (refs ids inputs).
Proof.
  induction 1 as [|x inputs Hx _ IH]; intros rc Hrc.
  { exists rc. split_and!; [done|done|]. intros. unfold occ. cbn. lia. }
  rewrite for_fold_cons.
  unfold bind at 1. rewrite refs_cons. destruct (x =? kTfLiteOptionalTensor) eqn:He.
  { cbn [ret]. destruct (IH rc Hrc) as (rc' & -> & ? & ?). by exists rc'. }
  assert (Hv : valid g (find_shared ids x)).
  { eapply find_shared_valid; [done|]. by eapply not_optional. }
  unfold bind at 1. rewrite FindSharedTensor_run.
  unfold valid in Hv. rewrite add_count_run by lia. cbn [access ret].
  destruct (IH (zset rc (find_shared ids x) (zget rc (find_shared ids x) + 1)))
    as (rc' & -> & ? & Hrc'); [by rewrite zlength_zset|].
  exists rc'. split_and!; [done|done|]. intros t Ht.
  rewrite Hrc', occ_cons, zget_zset by (done || lia).
  destruct (Z.eqb_spec (find_shared ids x) t) as [->|]; lia.
Qed.

Lemma count_shared_inputs_run rc a d q v : zlength rc = num_tensors g ->
  exists rc', count_shared_inputs rc (St a d q v ids) = (Done rc', St a d q v ids) /\
    zlength rc' = num_tensors g /\
    forall t, valid g t -> zget rc' t = zget rc t + occ t (node_refs ids (gi_nodes g)).
Proof.
  unfold count_shared_inputs. rewrite graph_info_bind.
  pose proof (wf_nodes g Hwf) as Hn. revert Hn rc. generalize (gi_nodes g) as nodes.
  intros nodes Hn. induction Hn as [|nr nodes [Hin _] _ IH]; intros rc Hrc.
  { exists rc. split_and!; [done|done|]. intros. unfold occ. cbn. lia. }
  rewrite for_fold_cons.
  unfold bind at 1. destruct (count_inputs_run _ a d q v Hin rc Hrc) as (rc1 & -> & H1 & Hget1).
  destruct (IH rc1 H1) as (rc2 & -> & H2 & Hget2). exists rc2. split_and!; [done|done|].
  intros t Ht. rewrite Hget2, Hget1 by done. unfold node_refs. cbn [mbind list_bind].
  rewrite occ_app. lia.
Qed.

(** *** The last loop *)

Context (b : list Z) (kept : list Z).

(** [reads i t] and [writes i t]: node [i] has read, or written, the tensor [t] (for reads,
    the owner of the buffer); [rem] are the reads to come and [cur] the current node. *)
Record releasing (cur : Z) (rem : list Z) (reads writes : Z -> Z -> Prop)
    (a d : list Z) (q : list (gset Z)) (rc : list Z) : Prop := {
  rel_len : zlength rc = num_tensors g;
  rel_count : preserve_all_tensors_ p0 = false ->
    forall t, valid g t -> zget rc t = zget b t + occ t rem;
  rel_dealloc : forall t, valid g t -> zget d t = kNodeNotAssigned \/
    (occ t rem = 0 /\ zget b t = 0 /\ zget a t <> kNodeNotAssigned /\ reads (zget d t) t /\
     forall i, reads i t -> i <= zget d t);
  rel_preserve : preserve_all_tensors_ p0 = true ->
    forall t, valid g t -> zget d t = kNodeNotAssigned;
  rel_alloc : forall t, valid g t -> zget a t = kNodeNotAssigned \/ zget a t = 0 \/
    writes (zget a t) t;
  rel_writes : forall i t, writes i t -> valid g t ->
    zget a t <> kNodeNotAssigned /\ zget a t <= i /\ exists ts, q.[i] = Some ts /\ t ∈ ts;
  rel_cur : forall i t, reads i t \/ writes i t -> 0 <= i <= cur;
  rel_kept : forall t, t ∈ kept -> valid g t ->
    zget a t = 0 /\ exists ts, q.[0] = Some ts /\ t ∈ ts;
  rel_queue : forall i ts t, q.[i] = Some ts -> t ∈ ts -> valid g t;
}.

Lemma releasing_ext cur cur' rem reads reads' writes writes' a d q rc :
  cur <= cur' -> (forall i t, reads i t <-> reads' i t) -> (forall i t, writes i t <-> writes' i t) ->
  releasing cur rem reads writes a d q rc -> releasing cur' rem reads' writes' a d q rc.
Proof.
  intros Hc Hr Hw []. split; try done.
  - intros t Ht. setoid_rewrite <- Hr. by apply rel_dealloc0.
  - intros t Ht. setoid_rewrite <- Hw. by apply rel_alloc0.
  - intros i t. rewrite <- Hw. apply rel_writes0.
  - intros i t. rewrite <- Hr, <- Hw. intros H%rel_cur0. lia.
Qed.

Definition or_at (cur : Z) (P : Z -> Prop) (R : Z -> Z -> Prop) : Z -> Z -> Prop :=
  fun i t => (i = cur /\ P t) \/ R i t.

(** An output is queued and allocated. *)
Lemma releasing_write cur rem reads writes a d q rc v t :
  sized a d q v -> 0 <= cur < zlength q -> cur < INT32_MAX -> valid g t ->
  releasing cur rem reads writes a d q rc ->
  (zget a t = kNodeNotAssigned -> zget d t = kNodeNotAssigned) /\
  releasing cur rem reads (or_at cur (eq t) writes) (alloc_upd cur t a) d (queue_upd cur t q) rc.
Proof.
  intros (Hla & _) Hcur Hmax Ht [Hlen Hcount Hd Hp Ha Hw Hcu Hk Hq].
  assert (Hget : forall u, zget (alloc_upd cur t a) u =
    if (t =? u) && (zget a t =? kNodeNotAssigned) then cur else zget a u).
  { intros u. apply zget_alloc_upd. unfold valid in Ht. lia. }
  assert (Hqueue : forall i u, (exists ts, q.[i] = Some ts /\ u ∈ ts) ->
    exists ts, (queue_upd cur t q).[i] = Some ts /\ u ∈ ts).
  { intros i u (ts & Hts & Hu). rewrite zlookup_queue_upd by done.
    destruct (Z.eqb_spec cur i) as [<-|]; [|by eauto]. rewrite Hts. eexists. split; [done|].
    by apply elem_of_union_r. }
  split.
  { intros Hna. destruct (Hd t Ht) as [?|(_ & _ & ? & _)]; done. }
  split; try done.
  - intros u Hu. destruct (Hd u Hu) as [?|(? & ? & Hau & ? & ?)]; [by left|right].
    split_and!; [done|done| |done|done]. rewrite Hget.
    destruct (Z.eqb_spec t u) as [->|]; [|done].
    destruct (Z.eqb_spec (zget a u) kNodeNotAssigned); done.
  - intros u Hu. rewrite Hget. destruct (Z.eqb_spec t u) as [->|]; cbn [andb].
    + destruct (Z.eqb_spec (zget a u) kNodeNotAssigned) as [He|He].
      * right; right. by left.
      * destruct (Ha u Hu) as [?|[?|?]]; [by left|right; by left|right; right; by right].
    + destruct (Ha u Hu) as [?|[?|?]]; [by left|right; by left|right; right; by right].
  - intros i u [[-> <-]|Hwu] Hu; rewrite Hget.
    + rewrite Z.eqb_refl. cbn [andb]. split_and!.
      * destruct (Z.eqb_spec (zget a t) kNodeNotAssigned); [unfold kNodeNotAssigned; lia|done].
      * destruct (Z.eqb_spec (zget a t) kNodeNotAssigned) as [|Hne]; [lia|].
        destruct (Ha t Ht) as [?|[?|Hwt]]; [done|lia|]. destruct (Hcu (zget a t) t); auto.
      * rewrite zlookup_queue_upd, Z.eqb_refl by done. eexists. split; [done|].
        by apply elem_of_union_l, elem_of_singleton.
    + destruct (Hw i u Hwu Hu) as (Hne & Hle & Hts). split_and!; [| |by apply Hqueue].
      * destruct (Z.eqb_spec t u) as [->|]; cbn [andb]; [|done].
        rewrite (proj2 (Z.eqb_neq _ _) Hne). done.
      * destruct (Z.eqb_spec t u) as [->|]; cbn [andb]; [|done].
        by rewrite (proj2 (Z.eqb_neq _ _) Hne).
  - intros i u [H|[[-> _]|H]]; [eapply Hcu; by left|lia|eapply Hcu; by right].
  - intros u Hin Hu. destruct (Hk u Hin Hu) as [H0 Hts]. split; [|by apply Hqueue].
    rewrite Hget, H0. destruct (Z.eqb_spec t u) as [->|]; cbn [andb]; [|done]. by rewrite H0.
  - intros i ts u. rewrite zlookup_queue_upd by done.
    destruct (Z.eqb_spec cur i) as [<-|]; [|by apply Hq].
    intros [= <-] [->%elem_of_singleton|Hu]%elem_of_union; [done|].
    destruct (q.[cur]) as [ts'|] eqn:Hts; cbn in Hu; [by eapply Hq|set_solver].
Qed.

(** A read by the current node; the last one releases the buffer. *)
Lemma releasing_read cur rem reads writes a d q rc t :
  preserve_all_tensors_ p0 = false -> zlength d = num_tensors g -> cur < INT32_MAX -> 0 <= cur ->
  valid g t -> 0 <= zget b t ->
  releasing cur (t :: rem) reads writes a d q rc ->
  let rc' := zset rc t (zget rc t + -1) in
  let release := (zget rc' t =? 0) && negb (zget a t =? kNodeNotAssigned) in
  zget d t = kNodeNotAssigned /\
  releasing cur rem (or_at cur (eq t) reads) writes a (if release then zset d t cur else d) q rc'.
Proof.
  intros Hpres Hld Hmax H0 Ht Hb [Hlen Hcount Hd Hp Ha Hw Hcu Hk Hq] rc' release.
  specialize (Hcount Hpres).
  assert (Hrange : 0 <= t < zlength rc) by (unfold valid in Ht; lia).
  assert (Hget : forall u, valid g u -> zget rc' u = zget b u + occ u rem).
  { intros u Hu. subst rc'. rewrite zget_zset by done. pose proof (Hcount u Hu) as Hc.
    rewrite occ_cons in Hc. destruct (Z.eqb_spec t u) as [<-|]; lia. }
  assert (Hdt : zget d t = kNodeNotAssigned).
  { destruct (Hd t Ht) as [?|(Hz & _)]; [done|]. rewrite occ_cons, Z.eqb_refl in Hz.
    pose proof (occ_nonneg t rem). lia. }
  split; [done|]. pose proof (occ_nonneg t rem) as Hocc.
  split; try done.
  - subst rc'. by rewrite zlength_zset.
  - intros u Hu. destruct (Z.eqb_spec t u) as [<-|Hne].
    + subst release. destruct (Z.eqb_spec (zget rc' t) 0) as [Hz|]; cbn [andb]; [|by left].
      destruct (Z.eqb_spec (zget a t) kNodeNotAssigned) as [|Hane]; cbn [negb]; [by left|right].
      rewrite zget_zset, Z.eqb_refl by (unfold valid in Ht; lia). rewrite Hget in Hz by done.
      split_and!; [lia|lia|done|by left|].
      intros i [[-> _]|Hi]; [lia|]. destruct (Hcu i t); auto.
    + assert (Hsame : zget (if release then zset d t cur else d) u = zget d u).
      { destruct release; [|done]. rewrite zget_zset by (unfold valid in Ht; lia).
        by rewrite (proj2 (Z.eqb_neq t u)). }
      rewrite Hsame. destruct (Hd u Hu) as [?|(Hz & ? & ? & Hr & Hlast)]; [by left|right].
      rewrite occ_cons, (proj2 (Z.eqb_neq t u)) in Hz by done.
      split_and!; [lia|done|done|by right|]. intros i [[_ ?]|Hi]; [done|by apply Hlast].
  - intros Htrue. congruence.
  - intros i u [[[-> _]|H]|H]; [lia|eapply Hcu; by left|eapply Hcu; by right].
Qed.

(** With [preserve_all_tensors_] reads are not counted, and nothing is released. *)
Lemma releasing_preserve cur rem rem' reads writes P a d q rc :
  preserve_all_tensors_ p0 = true -> 0 <= cur ->
  releasing cur rem reads writes a d q rc ->
  releasing cur rem' (or_at cur P reads) writes a d q rc.
Proof.
  intros Hpres H0 [Hlen Hcount Hd Hp Ha Hw Hcu Hk Hq]. split; try done.
  - congruence.
  - intros t Ht. left. by apply Hp.
  - intros i t [[[-> _]|H]|H]; [lia|eapply Hcu; by left|eapply Hcu; by right].
Qed.

Lemma plan_outputs_run cur node rem reads writes rc v :
  Forall (opt_valid g) (node_outputs node) -> cur < INT32_MAX ->
  0 <= cur < num_execution_nodes g ->
  forall a d q, sized a d q v -> releasing cur rem reads writes a d q rc ->
  exists a' q', plan_outputs cur node (St a d q v ids) = (Done tt, St a' d q' v ids) /\
    sized a' d q' v /\
    releasing cur rem reads (or_at cur (fun t => t ∈ node_outputs node /\ t <> -1) writes) a' d q' rc.
Proof.
  intros Hall Hmax Hcur. unfold plan_outputs. revert writes.
  induction Hall as [|t outs Ht _ IH]; intros writes a d q Hs HI.
  { exists a, q. split_and!; [done|done|]. eapply (releasing_ext cur cur); [lia|done| |exact HI].
    intros i t. unfold or_at. rewrite elem_of_nil. tauto. }
  rewrite for_each_cons. unfold bind at 1. destruct (t =? kTfLiteOptionalTensor) eqn:He.
  { apply Z.eqb_eq in He as ->. cbn [ret]. destruct (IH writes a d q Hs HI) as (a' & q' & -> & Hs' & HI').
    exists a', q'. split_and!; [done|done|]. eapply (releasing_ext cur cur); [lia|done| |exact HI'].
    intros i t. unfold or_at. rewrite elem_of_cons.
    split; [tauto|]. intros [(? & [?|?] & ?)|?]; [done|tauto|tauto]. }
  pose proof (not_optional t Ht He) as Hv. apply Z.eqb_neq in He.
  destruct (releasing_write cur rem reads writes a d q rc v t) as [Hna HI1]; try done.
  { destruct Hs as (_ & _ & _ & ->). lia. }
  unfold bind at 1. rewrite queue_tensor_run by (done || (destruct Hs as (_ & _ & _ & ->); lia)).
  rewrite allocate_run by eauto with tfl.
  destruct (IH (or_at cur (eq t) writes) (alloc_upd cur t a) d (queue_upd cur t q))
    as (a' & q' & -> & Hs' & HI'); [by eauto with tfl|done|].
  exists a', q'. split_and!; [done|done|]. eapply (releasing_ext cur cur); [lia|done| |exact HI'].
  intros i u. unfold or_at. rewrite elem_of_cons. unfold kTfLiteOptionalTensor in He.
  split; [intros [?|[[? <-]|?]]; tauto|]. intros [(? & [->|?] & ?)|?]; tauto.
Qed.

Lemma plan_inputs_run cur node rem writes a q v :
  preserve_all_tensors_ p0 = false -> Forall (opt_valid g) (node_inputs node) ->
  0 <= cur < INT32_MAX -> (forall t, valid g t -> 0 <= zget b t) ->
  forall reads d rc, sized a d q v ->
  releasing cur (refs ids (node_inputs node) ++ rem) reads writes a d q rc ->
  exists d' rc', plan_inputs cur node rc (St a d q v ids) = (Done rc', St a d' q v ids) /\
    sized a d' q v /\
    releasing cur rem (or_at cur (fun t => t ∈ refs ids (node_inputs node)) reads) writes a d' q rc'.
Proof.
  intros Hpres Hall [Hcur Hmax] Hb. unfold plan_inputs.
  induction Hall as [|x inputs Hx _ IH]; intros reads d rc Hs HI.
  { exists d, rc. split_and!; [done|done|]. eapply (releasing_ext cur cur); [lia| |done|exact HI].
    intros i t. unfold or_at. cbn. rewrite elem_of_nil. tauto. }
  rewrite for_fold_cons. rewrite refs_cons in HI |- *. unfold bind at 1.
  destruct (x =? kTfLiteOptionalTensor) eqn:He; [by apply IH|].
  set (t := find_shared ids x) in *.
  assert (Hv : valid g t) by (eapply find_shared_valid; [done|by eapply not_optional]).
  destruct (releasing_read cur (refs ids inputs ++ rem) reads writes a d q rc t) as [Hdt HI1];
    try done; [apply Hs|by apply Hb|].
  pose proof (rel_len _ _ _ _ _ _ _ _ HI) as Hlen.
  assert (Hrange : 0 <= t < zlength rc) by (unfold valid in Hv; lia).
  unfold bind at 1. rewrite FindSharedTensor_run. fold t.
  unfold bind at 1. rewrite add_count_run by done. cbn [access ret].
  set (rc1 := zset rc t (zget rc t + -1)) in *.
  unfold bind at 1. rewrite zlookup_zget by (subst rc1; by rewrite zlength_zset). cbn [access ret].
  set (d1 := if (zget rc1 t =? 0) && negb (zget a t =? kNodeNotAssigned) then zset d t cur else d) in *.
  assert (Hstep : (if zget rc1 t =? 0 then deallocate cur t else ret tt) (St a d q v ids) =
    (Done tt, St a d1 q v ids)).
  { subst d1. destruct (zget rc1 t =? 0); [|done]. rewrite deallocate_run by done. cbn [andb].
    by destruct (zget a t =? kNodeNotAssigned). }
  unfold bind at 1. rewrite Hstep. cbn [ret].
  assert (Hs1 : sized a d1 q v).
  { subst d1. destruct (_ && _); eauto with tfl. }
  destruct (IH (or_at cur (eq t) reads) d1 rc1 Hs1 HI1) as (d2 & rc2 & -> & Hs2 & HI2).
  exists d2, rc2. split_and!; [done|done|]. eapply (releasing_ext cur cur); [lia| |done|exact HI2].
  intros i u. unfold or_at. rewrite elem_of_cons. split.
  - intros [?|[[? <-]|?]]; tauto.
  - intros [(? & [->|?])|?]; tauto.
Qed.

(** What the visited nodes have read and written. *)
Definition reads_of (pre : list (Z * (TfLiteNode * TfLiteRegistration))) (i t : Z) : Prop :=
  exists nr, (i, nr) ∈ pre /\ t ∈ refs ids (node_inputs (fst nr)).
Definition writes_of (pre : list (Z * (TfLiteNode * TfLiteRegistration))) (i t : Z) : Prop :=
  exists nr, (i, nr) ∈ pre /\ t ∈ node_outputs (fst nr) /\ t <> -1.

Definition visited (rc v : list Z) (pre : list (Z * (TfLiteNode * TfLiteRegistration)))
    (s : pstate) : Prop :=
  exists a d q, s = St a d q v ids /\ sized a d q v /\
    releasing (Z.of_nat (length pre))
      (node_refs ids (snd <$> drop (length pre) (enumerate (gi_nodes g))))
      (reads_of pre) (writes_of pre) a d q rc.

Lemma plan_nodes_run rc v : (forall t, valid g t -> 0 <= zget b t) ->
  spec (visited rc v []) (plan_nodes rc) (fun rc' => visited rc' v (enumerate (gi_nodes g))) never.
Proof.
  intros Hb. intros s (a & d & q & -> & Hs & HI). unfold plan_nodes. rewrite graph_info_bind.
  refine (spec_for_fold (fun pre rc => visited rc v pre) (enumerate (gi_nodes g)) rc _ never _ _ _);
    [|by exists a, d, q].
  clear a d q Hs HI. intros pre [i [node reg]] rest rc1 Heq ? (a & d & q & -> & Hs & HI).
  destruct (enumerate_split _ _ _ _ _ Heq) as (-> & Hnode & _).
  pose proof (lookup_lt_Some _ _ _ Hnode) as Hlt.
  pose proof (wf_count g Hwf) as Hcount. unfold num_execution_nodes, zlength in Hcount.
  pose proof (wf_nodes g Hwf) as Hn. rewrite Forall_forall in Hn.
  destruct (Hn _ (list_elem_of_lookup_2 _ _ _ Hnode)) as (Hin & Hout & _). cbn [fst] in *.
  unfold visited. rewrite Heq in HI |- *.
  rewrite drop_app_length in HI. rewrite length_app, Nat.add_1_r. cbn [length].
  rewrite (cons_middle _ pre rest), app_assoc, drop_app_length' by (rewrite length_app; cbn; lia).
  unfold node_refs in HI. cbn [fmap list_fmap mbind list_bind snd fst] in HI.
  destruct (plan_outputs_run (Z.of_nat (length pre)) node _ (reads_of pre) (writes_of pre) rc1 v Hout
    ltac:(lia) ltac:(unfold num_execution_nodes, zlength; lia) a d q Hs HI)
    as (a1 & q1 & Hrun & Hs1 & HI1).
  unfold bind at 1. rewrite Hrun. unfold bind at 1, this. cbn [ps_planner St preserve_all_tensors_].
  assert (Hw : forall i t, or_at (Z.of_nat (length pre)) (fun t => t ∈ node_outputs node /\ t <> -1)
      (writes_of pre) i t <-> writes_of (pre ++ [(Z.of_nat (length pre), (node, reg))]) i t).
  { intros i t. unfold or_at, writes_of. setoid_rewrite elem_of_app.
    setoid_rewrite list_elem_of_singleton. split.
    - intros [(-> & ? & ?)|(nr & ? & ? & ?)]; [exists (node, reg)|exists nr]; auto.
    - intros (nr & [?|?] & ? & ?); [right; by exists nr|left]. by simplify_eq. }
  assert (Hr : forall i t, or_at (Z.of_nat (length pre)) (fun t => t ∈ refs ids (node_inputs node))
      (reads_of pre) i t <-> reads_of (pre ++ [(Z.of_nat (length pre), (node, reg))]) i t).
  { intros i t. unfold or_at, reads_of. setoid_rewrite elem_of_app.
    setoid_rewrite list_elem_of_singleton. split.
    - intros [(-> & ?)|(nr & ? & ?)]; [exists (node, reg)|exists nr]; auto.
    - intros (nr & [?|?] & ?); [right; by exists nr|left]. by simplify_eq. }
  destruct (preserve_all_tensors_ p0) eqn:Hpres.
  - exists a1, d, q1. split_and!; [done|done|].
    eapply (releasing_ext (Z.of_nat (length pre))); [lia|exact Hr|exact Hw|].
    eapply releasing_preserve; [done|lia|exact HI1].
  - destruct (plan_inputs_run (Z.of_nat (length pre)) node _ _ a1 q1 v Hpres Hin ltac:(lia) Hb
      (reads_of pre) d rc1 Hs1 HI1) as (d2 & rc2 & -> & Hs2 & HI2).
    exists a1, d2, q1. split_and!; [done|done|].
    eapply (releasing_ext (Z.of_nat (length pre))); [lia|exact Hr|exact Hw|exact HI2].
Qed.

(** *** Reading the result *)

(** A node that reads a buffer comes after the node that writes the buffer's owner. *)
Lemma read_after_write i nri t : gi_nodes g !! i = Some nri ->
  t ∈ node_outputs (fst nri) -> t <> kTfLiteOptionalTensor ->
  forall k nrk x, gi_nodes g !! k = Some nrk -> x ∈ node_inputs (fst nrk) ->
  x <> kTfLiteOptionalTensor -> find_shared ids x = t -> (i < k)%nat.
Proof.
  intros Hi Hout Hne k. induction k as [k IH] using lt_wf_ind. intros nrk x Hk Hx Hxne Hroot.
  unfold find_shared in Hroot. destruct (ids !! x) as [r|] eqn:Hids; cbn in Hroot; subst.
  - destruct (Hsh x t Hids) as (_ & _ & _ & j & nrj & y & Hj & _ & Hhd & Hy & Hvy & Hfy).
    assert (Hxj : x ∈ node_outputs (fst nrj)).
    { destruct (node_outputs (fst nrj)); [done|]. injection Hhd as ->. left. }
    assert (Hjk : (j < k)%nat).
    { destruct (Nat.lt_ge_cases j k); [done|]. by destruct Hxne; eapply (wf_order g Hwf j k). }
    assert (i < j)%nat; [|lia]. apply (IH j Hjk nrj y Hj Hy); [|done].
    intros ->. by destruct Hvy.
  - destruct (Nat.lt_ge_cases i k); [done|]. by destruct Hne; eapply (wf_order g Hwf i k).
Qed.

Context (a d : list Z) (q : list (gset Z)) (rc : list Z).
Context (HI : releasing (Z.of_nat (length (enumerate (gi_nodes g)))) []
  (reads_of (enumerate (gi_nodes g))) (writes_of (enumerate (gi_nodes g))) a d q rc).

Lemma node_bound i nr : gi_nodes g !! i = Some nr -> Z.of_nat i < kNodeNotAssigned.
Proof.
  intros Hi%lookup_lt_Some. pose proof (wf_count g Hwf) as Hc.
  unfold num_execution_nodes, zlength, kNodeNotAssigned in *. lia.
Qed.

Lemma reads_intro i nr x : gi_nodes g !! i = Some nr -> x ∈ node_inputs (fst nr) ->
  x <> kTfLiteOptionalTensor -> reads_of (enumerate (gi_nodes g)) (Z.of_nat i) (find_shared ids x).
Proof.
  intros Hi Hx Hne. exists nr. rewrite enumerate_elem, refs_elem. split; [by exists i|by exists x].
Qed.

Lemma writes_intro i nr x : gi_nodes g !! i = Some nr -> x ∈ node_outputs (fst nr) ->
  x <> kTfLiteOptionalTensor -> writes_of (enumerate (gi_nodes g)) (Z.of_nat i) x.
Proof. intros Hi Hx Hne. exists nr. rewrite enumerate_elem. split_and!; [by exists i|done|done]. Qed.

Lemma input_valid i nr x : gi_nodes g !! i = Some nr -> x ∈ node_inputs (fst nr) ->
  x <> kTfLiteOptionalTensor -> valid g x.
Proof.
  intros Hi Hx Hne. pose proof (wf_nodes g Hwf) as Hn. rewrite Forall_forall in Hn.
  destruct (Hn nr (list_elem_of_lookup_2 _ _ _ Hi)) as [Hin _]. rewrite Forall_forall in Hin.
  by destruct (Hin x Hx).
Qed.

Lemma output_valid i nr x : gi_nodes g !! i = Some nr -> x ∈ node_outputs (fst nr) ->
  x <> kTfLiteOptionalTensor -> valid g x.
Proof.
  intros Hi Hx Hne. pose proof (wf_nodes g Hwf) as Hn. rewrite Forall_forall in Hn.
  destruct (Hn nr (list_elem_of_lookup_2 _ _ _ Hi)) as (_ & Hout & _). rewrite Forall_forall in Hout.
  by destruct (Hout x Hx).
Qed.

(** The buffer read through [x] at node [i] is alive there. *)
Lemma read_alive i nr x : gi_nodes g !! i = Some nr -> x ∈ node_inputs (fst nr) ->
  x <> kTfLiteOptionalTensor ->
  (zget a (find_shared ids x) = kNodeNotAssigned \/ zget a (find_shared ids x) <= Z.of_nat i) /\
  Z.of_nat i <= zget d (find_shared ids x).
Proof.
  intros Hi Hx Hne. pose proof (node_bound i nr Hi) as Hmax.
  assert (Hv : valid g (find_shared ids x)) by (eapply find_shared_valid, input_valid; eauto).
  pose proof (reads_intro i nr x Hi Hx Hne) as Hread. split.
  - destruct (rel_alloc _ _ _ _ _ _ _ _ HI _ Hv) as [?|[->|(nrj & Hj & Hout & Hne')]];
      [by left|right; lia|right].
    apply enumerate_elem in Hj as (j & Heq & Hj). rewrite Heq.
    pose proof (read_after_write j nrj (find_shared ids x) Hj Hout Hne' i nr x Hi Hx Hne eq_refl).
    lia.
  - destruct (rel_dealloc _ _ _ _ _ _ _ _ HI _ Hv) as [->|(_ & _ & _ & _ & Hlast)]; [lia|].
    by apply Hlast.
Qed.

(** A tensor that shares a buffer is never released itself: should the sharing be dropped
    later, it may be given a buffer of its own. *)
Lemma sharer_alive i nr x r : gi_nodes g !! i = Some nr -> x <> kTfLiteOptionalTensor ->
  x ∈ node_inputs (fst nr) \/ x ∈ node_outputs (fst nr) -> ids !! x = Some r ->
  zget a x <= Z.of_nat i /\ zget d x = kNodeNotAssigned.
Proof.
  intros Hi Hne Hx Hids.
  destruct (Hsh x r Hids) as (_ & _ & _ & j & nrj & y & Hj & _ & Hhd & _).
  assert (Hxj : x ∈ node_outputs (fst nrj)).
  { destruct (node_outputs (fst nrj)); [done|]. injection Hhd as ->. left. }
  assert (Hji : (j <= i)%nat).
  { destruct Hx as [Hx|Hx].
    - destruct (Nat.le_gt_cases j i); [done|]. destruct Hne. eapply (wf_order g Hwf j i); eauto. lia.
    - by destruct (wf_single g Hwf i j nr nrj x Hi Hj Hx Hxj) as [?|<-]. }
  pose proof (output_valid j nrj x Hj Hxj Hne) as Hv.
  destruct (rel_writes _ _ _ _ _ _ _ _ HI _ _ (writes_intro j nrj x Hj Hxj Hne) Hv) as (_ & Hle & _).
  split; [lia|].
  destruct (rel_dealloc _ _ _ _ _ _ _ _ HI _ Hv) as [?|(_ & _ & _ & (nrk & _ & Hrefs) & _)]; [done|].
  apply refs_elem in Hrefs as (z & _ & _ & Hroot).
  pose proof (find_shared_root _ _ z Hsh) as Hnone. rewrite Hroot in Hnone. congruence.
Qed.

(** So is the buffer written through [x]. *)
Lemma write_alive i nr x : gi_nodes g !! i = Some nr -> x ∈ node_outputs (fst nr) ->
  x <> kTfLiteOptionalTensor ->
  (zget a (find_shared ids x) = kNodeNotAssigned \/ zget a (find_shared ids x) <= Z.of_nat i) /\
  Z.of_nat i <= zget d (find_shared ids x).
Proof.
  intros Hi Hx Hne. unfold find_shared. destruct (ids !! x) as [r|] eqn:Hids; cbn [default].
  - destruct (Hsh x r Hids) as (_ & _ & _ & j & nrj & y & Hj & _ & Hhd & Hy & Hvy & Hfy).
    assert (Hxj : x ∈ node_outputs (fst nrj)).
    { destruct (node_outputs (fst nrj)); [done|]. injection Hhd as ->. left. }
    destruct (wf_single g Hwf i j nr nrj x Hi Hj Hx Hxj) as [?|<-]; [done|].
    rewrite <- Hfy. simplify_eq. eapply read_alive; [done|done|]. intros ->. by destruct Hvy.
  - pose proof (output_valid i nr x Hi Hx Hne) as Hv.
    pose proof (writes_intro i nr x Hi Hx Hne) as Hw.
    destruct (rel_writes _ _ _ _ _ _ _ _ HI _ _ Hw Hv) as (_ & Hle & _).
    split; [by right|]. pose proof (node_bound i nr Hi) as Hmax.
    destruct (rel_dealloc _ _ _ _ _ _ _ _ HI _ Hv) as [->|(_ & _ & _ & Hread & _)]; [lia|].
    destruct Hread as (nrk & Hk & Hrefs). apply enumerate_elem in Hk as (k & Heq & Hk).
    rewrite Heq. apply refs_elem in Hrefs as (z & Hz & Hzne & Hroot).
    pose proof (read_after_write i nr x Hi Hx Hne k nrk z Hk Hz Hzne Hroot). lia.
Qed.
End Release.
End Plan.

(** ** The contract of a plan *)

(** Node [i] of the plan reads or writes the tensor [x]. *)
Definition uses (g : GraphInfo) (i : nat) (x : Z) : Prop :=
  exists nr, gi_nodes g !! i = Some nr /\ x <> kTfLiteOptionalTensor /\
    (x ∈ node_inputs (fst nr) \/ x ∈ node_outputs (fst nr)).

(** The tensor that owns the buffer of [x]. *)
Definition owner (p : ArenaPlanner) (x : Z) : Z := find_shared (actual_tensor_id_ p) x.

Record plan_ok (g : GraphInfo) (p p' : ArenaPlanner) : Prop := {
  plan_fresh : allocs_ p' = replicate (Z.to_nat (num_tensors g)) alloc_reset /\
    arena_ p' = ClearPlan (arena_ p) /\ persistent_arena_ p' = ClearPlan (persistent_arena_ p) /\
    preserve_all_tensors_ p' = preserve_all_tensors_ p /\
    tensor_alignment_ p' = tensor_alignment_ p /\ last_active_node_ p' = kLastActiveNodeUndefined;
  plan_sized : zlength (alloc_node_ p') = num_tensors g /\
    zlength (dealloc_node_ p') = num_tensors g /\
    zlength (nodes_to_tensors_ p') = Z.max (num_execution_nodes g) 1;
  plan_alive : forall i x, uses g i x ->
    (zget (alloc_node_ p') (owner p' x) = kNodeNotAssigned \/
     zget (alloc_node_ p') (owner p' x) <= Z.of_nat i) /\
    Z.of_nat i <= zget (dealloc_node_ p') (owner p' x);
  plan_sharer : forall i x r, uses g i x -> actual_tensor_id_ p' !! x = Some r ->
    zget (alloc_node_ p') x <= Z.of_nat i /\ zget (dealloc_node_ p') x = kNodeNotAssigned;
  plan_queued : forall i nr x, gi_nodes g !! i = Some nr -> x ∈ node_outputs (fst nr) ->
    x <> kTfLiteOptionalTensor ->
    zget (alloc_node_ p') x <= Z.of_nat i /\
    exists ts, (nodes_to_tensors_ p').[Z.of_nat i] = Some ts /\ x ∈ ts;
  plan_kept : forall x, x ∈ gi_inputs g ++ gi_variables g -> valid g x ->
    zget (alloc_node_ p') x = 0 /\ exists ts, (nodes_to_tensors_ p').[0] = Some ts /\ x ∈ ts;
  plan_pins : forall x, x ∈ gi_inputs g ++ gi_variables g ++ gi_outputs g -> valid g x ->
    zget (dealloc_node_ p') x = kNodeNotAssigned;
  plan_queue : forall i ts x, (nodes_to_tensors_ p').[i] = Some ts -> x ∈ ts -> valid g x;
  plan_sharing : sharing g (gi_nodes g) (actual_tensor_id_ p');
}.

Lemma releasing_start h g p a d q v b kept ids rc :
  sized g a d q v -> pinned g (gi_inputs g ++ gi_variables g ++ gi_outputs g) kept a d q b ->
  zlength rc = num_tensors g ->
  (forall t, valid g t -> zget rc t = zget b t + occ t (node_refs ids (gi_nodes g))) ->
  visited h g p ids b kept rc v [] (St h g p a d q v ids).
Proof.
  intros Hs [Hd Hc Hp Ha Hk Hq] Hlen Hrc. exists a, d, q. split_and!; [done|done|].
  cbn [length drop]. rewrite drop_0, enumerate_snd.
  split; auto.
  - intros t Ht. destruct (Ha t Ht); auto.
  - intros i t (nr & Hin & _). by apply not_elem_of_nil in Hin.
  - intros i t [(nr & Hin & _)|(nr & Hin & _)]; by apply not_elem_of_nil in Hin.
Qed.

Lemma PlanAllocations_plan_ok h g p : graph_wf g ->
  exists p', PlanAllocations (PState h g p) = (Done tt, PState h g p') /\ plan_ok g p p'.
Proof.
  intros Hwf. unfold PlanAllocations.
  pose proof (start_plan_pinned h g p Hwf _ eq_refl) as H1. unfold bind at 1.
  destruct (start_plan _) as [[[]|e|] s1]; [|done|done].
  pose proof (plan_pinned_spec h g p Hwf s1 H1) as H2. unfold bind at 1.
  destruct (plan_pinned s1) as [[[]|e|] s2]; [|done|done].
  destruct H2 as (a & d & q & b & ids0 & -> & Hs & Hpin).
  unfold bind at 1, this. cbn [ps_planner St refcounts_].
  destruct (count_node_inputs_spec h g p Hwf a d q b ids0 Hs) as (v & Hrun & Hsv).
  unfold bind at 1. rewrite Hrun.
  destruct (IdentifyInPlaceTensors_run h g p Hwf a d q v ids0 Hsv) as (ids & Hrun2 & Hsh).
  unfold bind at 1. rewrite Hrun2.
  destruct (count_shared_inputs_run h g p Hwf ids Hsh b a d q v) as (rc & Hrun3 & Hlen & Hrc);
    [apply Hs|].
  unfold bind at 1. rewrite Hrun3.
  pose proof (plan_nodes_run h g p Hwf ids Hsh b (gi_inputs g ++ gi_variables g) rc v
    (pin_count _ _ _ _ _ _ _ Hpin) _ (releasing_start h g p a d q v b _ ids rc Hsv Hpin Hlen Hrc)) as H5.
  unfold bind at 1. destruct (plan_nodes rc _) as [[rc'|e|] s5]; [|done|done].
  destruct H5 as (a' & d' & q' & -> & Hs' & HI). eexists. split; [reflexivity|].
  rewrite drop_ge in HI by done. cbn [node_refs mbind list_bind fmap list_fmap] in HI.
  destruct Hs' as (? & ? & _ & ?). split; unfold owner; cbn; [done|done| | | | | | |done].
  - intros i x (nr & Hi & Hne & [Hx|Hx]); [by eapply read_alive|by eapply write_alive].
  - intros i x r (nr & Hi & Hne & Hx) Hr. by eapply sharer_alive.
  - intros i nr x Hi Hx Hne.
    destruct (rel_writes _ _ _ _ _ _ _ _ _ _ _ _ HI (Z.of_nat i) x) as (_ & ? & ?); [|by eapply output_valid|done].
    by eapply writes_intro.
  - intros x Hx Hv. by apply (rel_kept _ _ _ _ _ _ _ _ _ _ _ _ HI).
  - intros x Hx Hv. pose proof (pin_pins _ _ _ _ _ _ _ Hpin x Hx Hv).
    destruct (rel_dealloc _ _ _ _ _ _ _ _ _ _ _ _ HI x Hv) as [?|(_ & ? & _)]; [done|lia].
  - by apply (rel_queue _ _ _ _ _ _ _ _ _ _ _ _ HI).
Qed.

(** Some node, or the caller, provides the value of [x]. *)
Definition provided (g : GraphInfo) (x : Z) : Prop :=
  (valid g x /\ x ∈ gi_inputs g ++ gi_variables g) \/
  exists i nr, gi_nodes g !! i = Some nr /\ x ∈ node_outputs (fst nr) /\ x <> kTfLiteOptionalTensor.

(** A tensor that is provided is planned. *)
Lemma provided_planned g p p' x : graph_wf g -> plan_ok g p p' -> provided g x ->
  zget (alloc_node_ p') x <> kNodeNotAssigned.
Proof.
  intros Hwf Hplan [[Hv Hx]|(i & nr & Hi & Hx & Hne)].
  - by destruct (plan_kept _ _ _ Hplan x Hx Hv) as [-> _].
  - destruct (plan_queued _ _ _ Hplan i nr x Hi Hx Hne) as [Hle _]. pose proof (node_bound g Hwf i nr Hi). lia.
Qed.

(** What is used is planned before, unless nothing provides it. *)
Lemma plan_lifetime g p p' i x : graph_wf g -> plan_ok g p p' -> uses g i x ->
  (zget (alloc_node_ p') (owner p' x) <= Z.of_nat i \/
   zget (alloc_node_ p') (owner p' x) = kNodeNotAssigned /\ ~ provided g (owner p' x)) /\
  Z.of_nat i <= zget (dealloc_node_ p') (owner p' x).
Proof.
  intros Hwf Hplan Hu. destruct (plan_alive _ _ _ Hplan i x Hu) as [Ha Hd]. split; [|done].
  destruct Ha as [Ha|Ha]; [right|by left]. split; [done|]. intros Hp. by eapply provided_planned.
Qed.

(** ** Properties *)

(** C20. On a well-formed graph [PlanAllocations] succeeds, and its lifetimes are right: at every
    node that reads or writes a tensor, the buffer holding the tensor has been allocated and has
    not been released; only a buffer that is no input or variable of the graph and that no node
    writes, such as a constant's, is not planned. *)
Theorem PlanAllocations_lifetimes h g p : graph_wf g ->
  exists p', PlanAllocations (PState h g p) = (Done tt, PState h g p') /\
  forall i x, uses g i x ->
    (zget (alloc_node_ p') (owner p' x) <= Z.of_nat i \/
     zget (alloc_node_ p') (owner p' x) = kNodeNotAssigned /\ ~ provided g (owner p' x)) /\
    Z.of_nat i <= zget (dealloc_node_ p') (owner p' x).
Proof.
  intros Hwf. destruct (PlanAllocations_plan_ok h g p Hwf) as (p' & Hrun & Hok).
  exists p'. split; [done|]. intros i x. by apply plan_lifetime with (p := p).
Qed.

(** [x] is never released. *)
Definition never_released (p : ArenaPlanner) (x : Z) : Prop := zget (dealloc_node_ p) x = kNodeNotAssigned.

(** The graph's inputs and variables are allocated before the first node, and neither they
    nor the graph's outputs are ever released. *)
Theorem PlanAllocations_preserves_io h g p : graph_wf g ->
  exists p', PlanAllocations (PState h g p) = (Done tt, PState h g p') /\
  (forall x, x ∈ gi_inputs g ++ gi_variables g -> valid g x -> zget (alloc_node_ p') x = 0) /\
  (forall x, x ∈ gi_inputs g ++ gi_variables g ++ gi_outputs g -> valid g x -> never_released p' x).
Proof.
  intros Hwf. destruct (PlanAllocations_plan_ok h g p Hwf) as (p' & Hrun & Hok).
  exists p'. split_and!; [done| |apply (plan_pins _ _ _ Hok)].
  intros x Hx Hv. by apply (plan_kept _ _ _ Hok).
Qed.

(** Buffer sharing is one level deep and follows the data flow: a tensor that shares a
    buffer is the first output of a node one of whose inputs lives in that buffer, and the
    owner of the buffer owns it itself. *)
Theorem IdentifyInPlaceTensors_roots h g p : graph_wf g ->
  exists p', PlanAllocations (PState h g p) = (Done tt, PState h g p') /\
  forall x r, actual_tensor_id_ p' !! x = Some r ->
    owner p' r = r /\
    exists k nr y, gi_nodes g !! k = Some nr /\ head (node_outputs (fst nr)) = Some x /\
      y ∈ node_inputs (fst nr) /\ y <> kTfLiteOptionalTensor /\ owner p' y = r.
Proof.
  intros Hwf. destruct (PlanAllocations_plan_ok h g p Hwf) as (p' & Hrun & Hok).
  exists p'. split; [done|]. intros x r Hx.
  destruct (plan_sharing _ _ _ Hok x r Hx) as (_ & Hr & _ & k & nr & y & ? & _ & ? & ? & Hy & ?).
  unfold owner at 1, find_shared. rewrite Hr. split; [done|].
  exists k, nr, y. split_and!; try done. intros ->. by destruct Hy.
Qed.

(** *** Witnesses *)

Definition rw_tensor (n : Z) : TfLiteTensor :=
  set_bytes n (set_allocation_type kTfLiteArenaRw tensor_zero).

Definition example_op (inplace : Z) (ins outs : list Z) : TfLiteNode * TfLiteRegistration :=
  (mkNode ins outs [] [] 0 0 0 0 0 false, mkRegistration None None None None 0 None 1 0 inplace).

(** Tensor 1 is reshaped twice (to 2 and 3), 3 is updated in place to 4, and the last node
    reads 2 and 4. *)
Definition reshape_graph : GraphInfo :=
  mkGraphInfo (replicate 6 (rw_tensor 16))
    [example_op 0 [0] [1];
     example_op (kTfLiteInplaceOpDataUnmodified + kTfLiteInplaceOpInput0Shared) [1] [2];
     example_op (kTfLiteInplaceOpDataUnmodified + kTfLiteInplaceOpInput0Shared) [2] [3];
     example_op kTfLiteInplaceOpInput0Shared [3] [4];
     example_op 0 [2; 4] [5]] [0; 1; 2; 3; 4] 5 [0] [5] [].

Definition example_planner : ArenaPlanner := ArenaPlanner_init false 64 0.

Lemma reshape_graph_wf : graph_wf reshape_graph.
Proof. by apply graph_wf_b_ok; vm_compute. Qed.

Lemma PlanAllocations_lifetimes_witness :
  exists p', PlanAllocations (PState heap_empty reshape_graph example_planner) =
    (Done tt, PState heap_empty reshape_graph p') /\
  forall i x, uses reshape_graph i x ->
    (zget (alloc_node_ p') (owner p' x) <= Z.of_nat i \/
     zget (alloc_node_ p') (owner p' x) = kNodeNotAssigned /\ ~ provided reshape_graph (owner p' x)) /\
    Z.of_nat i <= zget (dealloc_node_ p') (owner p' x).
Proof. apply PlanAllocations_lifetimes, reshape_graph_wf. Defined.

Lemma PlanAllocations_preserves_io_witness :
  exists p', PlanAllocations (PState heap_empty reshape_graph example_planner) =
    (Done tt, PState heap_empty reshape_graph p') /\
  (forall x, x ∈ [0] -> valid reshape_graph x -> zget (alloc_node_ p') x = 0) /\
  (forall x, x ∈ [0; 5] -> valid reshape_graph x -> never_released p' x).
Proof. apply PlanAllocations_preserves_io, reshape_graph_wf. Defined.

Lemma IdentifyInPlaceTensors_roots_witness :
  exists p', PlanAllocations (PState heap_empty reshape_graph example_planner) =
    (Done tt, PState heap_empty reshape_graph p') /\
  forall x r, actual_tensor_id_ p' !! x = Some r ->
    owner p' r = r /\
    exists k nr y, gi_nodes reshape_graph !! k = Some nr /\ head (node_outputs (fst nr)) = Some x /\
      y ∈ node_inputs (fst nr) /\ y <> kTfLiteOptionalTensor /\ owner p' y = r.
Proof. apply IdentifyInPlaceTensors_roots, reshape_graph_wf. Defined.
