(* ===== verification/ArenaPlace.v ===== *)
(** * Where [ExecuteAllocations] puts the tensors

    The placement loop of [ArenaPlanner::CalculateAllocations]: every tensor of the range that
    owns its buffer gets a range of its arena, and ranges needed at a common node are
    disjoint.  Together with the lifetimes of [ArenaPlan]: tensors that hold live values at a
    common node never overlap in memory. *)
From S2P Require Import Prelude Heap MemoryArena Common GraphInfo ArenaPlanner ArenaPlan.

(** ** The tensors of the graph *)

Definition has_type (g : GraphInfo) (a : TfLiteAllocationType) (t : Z) : Prop :=
  t_allocation_type <$> (gi_tensors g).[t] = Some a.
Definition bytes_of (g : GraphInfo) (t : Z) : Z := default 0 (t_bytes <$> (gi_tensors g).[t]).
Definition alloc_of (p : ArenaPlanner) (t : Z) : ArenaAllocWithUsageInterval :=
  default alloc_reset (allocs_ p).[t].

Section Place.
Context (h : heap) (g : GraphInfo) (p0 : ArenaPlanner) (B : Z).
Context (Hbytes : forall t, valid g t -> 0 <= bytes_of g t <= B) (HB : 0 <= B).
Context (Hal : 0 < tensor_alignment_ p0 <= alignment_ (underlying_buffer_ (arena_ p0))).
Context (Halp : tensor_alignment_ p0 <= alignment_ (underlying_buffer_ (persistent_arena_ p0))).
Context (Hroots : forall x r, actual_tensor_id_ p0 !! x = Some r -> valid g r).
Context (Hla : zlength (alloc_node_ p0) = num_tensors g).
Context (Hld : zlength (dealloc_node_ p0) = num_tensors g).

(** Room for one tensor, padding included. *)
Definition slot : Z := tensor_alignment_ p0 + B.

(** The arena after [n] placements. *)
Definition filled (n : nat) (a0 a : SimpleMemoryArena) : Prop :=
  arena_inv a /\ underlying_buffer_ a = underlying_buffer_ a0 /\
  high_water_mark_ a <= Z.of_nat n * slot.

(** What is known of the range given to [t]. *)
Definition entry_ok (p : ArenaPlanner) (t : Z) : Prop :=
  let e := alloc_of p t in
  (size e = 0 /\ offset e = 0) \/
  (size e = bytes_of g t /\ tensor e = t /\ first_node e = zget (alloc_node_ p) t /\
   ((has_type g kTfLiteArenaRw t /\ last_node e = zget (dealloc_node_ p) t /\
     e ∈ active_allocs_ (arena_ p)) \/
    (has_type g kTfLiteArenaRwPersistent t /\ last_node e = INT32_MAX /\
     e ∈ active_allocs_ (persistent_arena_ p)))).

(** [n] tensors have been visited; [seen] are those whose placement is complete. *)
Record placed (n : nat) (seen : Z -> Prop) (p : ArenaPlanner) : Prop := {
  pl_frame : alloc_node_ p = alloc_node_ p0 /\ dealloc_node_ p = dealloc_node_ p0 /\
    tensor_alignment_ p = tensor_alignment_ p0;
  pl_len : zlength (allocs_ p) = num_tensors g;
  pl_arena : filled n (arena_ p0) (arena_ p);
  pl_persistent : filled n (persistent_arena_ p0) (persistent_arena_ p);
  pl_entry : forall t, valid g t -> entry_ok p t;
  pl_seen : forall t, seen t -> valid g t -> has_type g kTfLiteArenaRw t ->
    actual_tensor_id_ p !! t = None -> size (alloc_of p t) = bytes_of g t;
  pl_ids : forall t r, actual_tensor_id_ p !! t = Some r -> actual_tensor_id_ p0 !! t = Some r;
  pl_kept : forall t r, actual_tensor_id_ p0 !! t = Some r -> actual_tensor_id_ p !! t = None ->
    ~ has_type g kTfLiteArenaRw r \/ bytes_of g r <> bytes_of g t;
  pl_shared : forall t r, seen t -> valid g t -> actual_tensor_id_ p !! t = Some r ->
    has_type g kTfLiteArenaRw r /\ bytes_of g r = bytes_of g t;
}.

Lemma placed_weaken n n' (seen seen' : Z -> Prop) p : (n <= n')%nat ->
  (forall t, valid g t -> seen' t -> seen t) ->
  placed n seen p -> placed n' seen' p.
Proof.
  intros Hn Hs [Hf Hl (Ha1 & Ha2 & Ha3) (Hp1 & Hp2 & Hp3) He Hse Hi Hk Hsh].
  split; eauto; (split_and!; [done|done|]); unfold slot in *; nia.
Qed.

Lemma tensor_at_get t p : valid g t -> exists tn,
  tensor_at t (PState h g p) = (Done tn, PState h g p) /\
  (gi_tensors g).[t] = Some tn /\ bytes_of g t = t_bytes tn.
Proof.
  intros [tn Ht]%zlookup_in_range. exists tn. unfold tensor_at, bind, graph_info, bytes_of.
  cbn [ps_graph]. by rewrite Ht.
Qed.

Lemma has_type_iff a t tn : (gi_tensors g).[t] = Some tn ->
  has_type g a t <-> t_allocation_type tn = a.
Proof. unfold has_type. intros ->. cbn. split; congruence. Qed.

(** *** Sharing that is no longer possible is dropped *)

Lemma still_shared_run n seen p t : placed n seen p -> valid g t ->
  exists b p', still_shared t (PState h g p) = (Done b, PState h g p') /\
    placed n (fun u => seen u /\ u <> t) p' /\
    (if b : bool
     then exists r, actual_tensor_id_ p' !! t = Some r /\ has_type g kTfLiteArenaRw r /\
       bytes_of g r = bytes_of g t
     else actual_tensor_id_ p' !! t = None).
Proof.
  intros Hpl Ht. pose proof (placed_weaken n n seen (fun u => seen u /\ u <> t) p (le_n _)
    ltac:(tauto) Hpl) as Hweak.
  unfold still_shared, bind at 1, this. cbn [ps_planner].
  destruct (actual_tensor_id_ p !! t) as [r|] eqn:Hr; [|by exists false, p].
  assert (Hrv : valid g r) by (eapply Hroots, pl_ids; eauto).
  destruct (tensor_at_get t p Ht) as (tn & Hrun & Htn & Hbt).
  destruct (tensor_at_get r p Hrv) as (rn & Hrun' & Hrn & Hbr).
  unfold bind at 1. rewrite Hrun. unfold bind at 1. rewrite Hrun'.
  destruct (negb _ || _) eqn:Hmis.
  2:{ exists true, p. split_and!; [done|done|]. exists r. apply orb_false_iff in Hmis as [H1 H2].
      apply negb_false_iff in H1, H2. apply bool_decide_eq_true in H1. apply Z.eqb_eq in H2.
      rewrite (has_type_iff _ _ _ Hrn), Hbr, Hbt. done. }
  eexists false, _. split; [reflexivity|]. split; [|apply lookup_delete_eq].
  destruct Hweak as [Hf Hl Ha Hp He Hs Hi Hk Hsh]. split; try done; cbn.
  - intros u [Hu Hne] Hv Hrw. rewrite lookup_delete_ne by done. intros Hn. by apply Hs.
  - intros u r' [_ Hu]%lookup_delete_Some. by apply Hi.
  - intros u r' Hu. rewrite lookup_delete_None. intros [<-|Hn]; [|by eapply Hk].
    apply Hi in Hr. simplify_eq. rewrite Hbr, Hbt, (has_type_iff _ _ _ Hrn).
    apply orb_true_iff in Hmis as [Hmis|Hmis]; [left|right].
    + by apply negb_true_iff, bool_decide_eq_false in Hmis.
    + by apply negb_true_iff, Z.eqb_neq in Hmis.
  - intros u r' Hu Hv [_ Hn]%lookup_delete_Some. by apply Hsh.
Qed.

(** *** One allocation *)

Lemma filled_allocate n a0 a t sz fn ln : filled n a0 a ->
  tensor_alignment_ p0 <= alignment_ (underlying_buffer_ a0) -> 0 <= sz <= B ->
  Z.of_nat (S n) * slot <= SIZE_MAX ->
  exists e a', Allocate (tensor_alignment_ p0) sz t fn ln a = (Done e, a') /\
    e = mkAlloc (offset e) sz t fn ln /\ filled (S n) a0 a' /\
    (forall f, f ∈ active_allocs_ a -> f ∈ active_allocs_ a') /\
    (sz <> 0 -> e ∈ active_allocs_ a') /\ (sz = 0 -> offset e = 0).
Proof.
  intros (Hinv & Hbuf & Hmark) Hali Hsz Hmax. unfold slot in *.
  rewrite Nat2Z.inj_succ, Z.mul_succ_l in Hmax. pose proof (ai_mark _ Hinv).
  destruct (Allocate_spec (tensor_alignment_ p0) sz t fn ln a Hinv)
    as (e & a' & Hrun & He & _ & _ & _ & Hinv' & [_ Hup] & Hperm & Hb' & Hoz); [rewrite Hbuf; lia|lia|lia|].
  exists e, a'. split_and!; [done|done| | | |done].
  - split_and!; [done|congruence|]. unfold slot. rewrite Nat2Z.inj_succ, Z.mul_succ_l. lia.
  - intros f Hf. rewrite Hperm. destruct (sz =? 0); [done|by right].
  - intros Hne. rewrite Hperm, (proj2 (Z.eqb_neq sz 0)) by done. left.
Qed.

Lemma placed_filled n m a0 a : (n <= m)%nat -> filled n a0 a -> filled m a0 a.
Proof.
  intros Hn (? & ? & ?). split_and!; [done|done|]. unfold slot in *. nia.
Qed.

Lemma alloc_of_store p t e u : valid g t -> zlength (allocs_ p) = num_tensors g ->
  alloc_of (with_allocs (zset (allocs_ p) t e) p) u = if t =? u then e else alloc_of p u.
Proof.
  intros Ht Hl. unfold alloc_of. cbn. rewrite zlookup_zset by (unfold valid in Ht; lia).
  by destruct (t =? u).
Qed.

Lemma store_alloc_run p t e : valid g t -> zlength (allocs_ p) = num_tensors g ->
  store_alloc t e (PState h g p) = (Done tt, PState h g (with_allocs (zset (allocs_ p) t e) p)).
Proof.
  intros Ht Hl. unfold store_alloc, bind, this. cbn [ps_planner].
  rewrite zinsert_zset by (unfold valid in Ht; lia). done.
Qed.

(** Storing the range of [t] keeps the entries of the other tensors, when the active
    allocations only grow. *)
Lemma entry_ok_other p p' t u : entry_ok p u -> t <> u -> alloc_of p' u = alloc_of p u ->
  alloc_node_ p' = alloc_node_ p -> dealloc_node_ p' = dealloc_node_ p ->
  (forall f, f ∈ active_allocs_ (arena_ p) -> f ∈ active_allocs_ (arena_ p')) ->
  (forall f, f ∈ active_allocs_ (persistent_arena_ p) -> f ∈ active_allocs_ (persistent_arena_ p')) ->
  entry_ok p' u.
Proof.
  intros He Hne Hal' Ha Hd H1 H2. unfold entry_ok in *. rewrite Hal', Ha, Hd.
  destruct He as [?|(? & ? & ? & [(? & ? & ?)|(? & ? & ?)])]; [by left|right..];
    split_and!; auto.
Qed.

Lemma place_rw_run n seen p t tn : placed n seen p -> valid g t ->
  (gi_tensors g).[t] = Some tn -> has_type g kTfLiteArenaRw t ->
  actual_tensor_id_ p !! t = None -> Z.of_nat (S n) * slot <= SIZE_MAX ->
  exists p', place_rw t tn (PState h g p) = (Done tt, PState h g p') /\
    placed (S n) (fun u => seen u \/ u = t) p'.
Proof.
  intros [(Hfa & Hfd & Hft) Hl Ha Hp He Hs Hi Hk Hsh] Ht Htn Hrw Hnone Hmax.
  pose proof (Hbytes t Ht) as Hbt.
  assert (Hb : bytes_of g t = t_bytes tn) by (unfold bytes_of; by rewrite Htn).
  unfold place_rw, bind at 1, this. cbn [ps_planner]. rewrite Hfa, Hfd, Hft.
  rewrite !zlookup_zget by (unfold valid in Ht; lia).
  unfold bind at 1. cbn [access ret]. unfold bind at 1. cbn [access ret].
  destruct (filled_allocate n (arena_ p0) (arena_ p) t (t_bytes tn)
    (zget (alloc_node_ p0) t) (zget (dealloc_node_ p0) t)) as (e & a' & Hrun & Heq & Ha' & Hmono & Hin & Hoz);
    [done|lia|lia|done|].
  unfold bind, on_arena, arena_only, zoom. cbn [ps_heap ps_planner ps_graph snd fst]. rewrite Hrun.
  cbn [fst snd]. rewrite store_alloc_run by done. eexists. split; [reflexivity|].
  assert (Hof : forall u, alloc_of (with_allocs (zset (allocs_ p) t e) (with_arena a' p)) u =
    if t =? u then e else alloc_of p u).
  { intros u. by rewrite (alloc_of_store (with_arena a' p)). }
  split; cbn.
  - done.
  - by rewrite zlength_zset.
  - done.
  - by apply (placed_filled n); [lia|].
  - intros u Hu. destruct (Z.eq_dec t u) as [<-|Hne].
    + unfold entry_ok. rewrite Hof, Z.eqb_refl. cbn. rewrite Heq; cbn. rewrite <- Heq, Hb, Hfa, Hfd.
      destruct (Z.eq_dec (t_bytes tn) 0) as [Hz|Hnz]; [left; auto|right].
      split_and!; [done..|left]. split_and!; auto.
    + apply (entry_ok_other p _ t); auto. rewrite Hof. by rewrite (proj2 (Z.eqb_neq t u)).
  - intros u Hu Hv Hru Hn. destruct (Z.eq_dec t u) as [<-|Hne].
    + rewrite Hof, Z.eqb_refl, Heq. cbn. lia.
    + rewrite Hof, (proj2 (Z.eqb_neq t u)) by done. apply Hs; try done. destruct Hu; [done|congruence].
  - done.
  - done.
  - intros u r [Hu| ->]; [by apply Hsh|congruence].
Qed.

Lemma alloc_of_get p t : valid g t -> zlength (allocs_ p) = num_tensors g ->
  (allocs_ p).[t] = Some (alloc_of p t).
Proof.
  intros Ht Hl. unfold alloc_of. destruct (zlookup_in_range (allocs_ p) t) as [e ->]; [|done].
  unfold valid in Ht. lia.
Qed.

(** A tensor that is not placed in the first arena adds nothing to [pl_seen]. *)
Lemma placed_other n seen p t : placed n seen p ->
  (has_type g kTfLiteArenaRw t -> actual_tensor_id_ p !! t = None -> False) ->
  (forall r, actual_tensor_id_ p !! t = Some r ->
    has_type g kTfLiteArenaRw r /\ bytes_of g r = bytes_of g t) ->
  placed (S n) (fun u => seen u \/ u = t) p.
Proof.
  intros Hpl Ht Htr. apply (placed_weaken n (S n) seen seen) in Hpl; [|lia|done].
  destruct Hpl as [Hf Hl Ha Hp He Hs Hi Hk Hsh]. split; try done.
  - intros u [Hu| ->] Hv Hrw Hn; [by apply Hs|by destruct Ht].
  - intros u r [Hu| ->] Hv Hr; [by apply (Hsh u)|by apply Htr].
Qed.

Lemma place_persistent_run n seen p t tn : placed n seen p -> valid g t ->
  (gi_tensors g).[t] = Some tn -> has_type g kTfLiteArenaRwPersistent t ->
  actual_tensor_id_ p !! t = None -> Z.of_nat (S n) * slot <= SIZE_MAX ->
  exists p', place_persistent t tn (PState h g p) = (Done tt, PState h g p') /\
    placed (S n) (fun u => seen u \/ u = t) p'.
Proof.
  intros Hpl Ht Htn Hty Hnone Hmax. pose proof (Hbytes t Ht) as Hbt.
  assert (Hnrw : ~ has_type g kTfLiteArenaRw t) by (unfold has_type in *; congruence).
  assert (Hb : bytes_of g t = t_bytes tn) by (unfold bytes_of; by rewrite Htn).
  pose proof Hpl as [(Hfa & Hfd & Hft) Hl Ha Hp He Hs Hi Hk Hsh].
  unfold place_persistent, bind at 1, this. cbn [ps_planner]. rewrite Hfa, Hft.
  rewrite alloc_of_get by done. unfold bind at 1. cbn [access ret].
  destruct ((size (alloc_of p t) =? 0) && _); [|by eexists; split; [done|apply placed_other; [| |congruence]]].
  rewrite zlookup_zget by (unfold valid in Ht; lia). unfold bind at 1. cbn [access ret].
  destruct (filled_allocate n (persistent_arena_ p0) (persistent_arena_ p) t (t_bytes tn)
    (zget (alloc_node_ p0) t) INT32_MAX) as (e & a' & Hrun & Heq & Ha' & Hmono & Hin & Hoz);
    [done|lia|lia|done|].
  unfold bind, on_persistent_arena, arena_only, zoom. cbn [ps_heap ps_planner ps_graph snd fst].
  rewrite Hrun. cbn [fst snd]. rewrite store_alloc_run by done. eexists. split; [reflexivity|].
  assert (Hof : forall u, alloc_of (with_allocs (zset (allocs_ p) t e) (with_persistent_arena a' p)) u =
    if t =? u then e else alloc_of p u).
  { intros u. by rewrite (alloc_of_store (with_persistent_arena a' p)). }
  split; cbn.
  - done.
  - by rewrite zlength_zset.
  - by apply (placed_filled n); [lia|].
  - done.
  - intros u Hu. destruct (Z.eq_dec t u) as [<-|Hne].
    + unfold entry_ok. rewrite Hof, Z.eqb_refl. cbn. rewrite Heq; cbn. rewrite <- Heq, Hb, Hfa.
      destruct (Z.eq_dec (t_bytes tn) 0) as [Hz|Hnz]; [left; auto|right].
      split_and!; [done..|right]. split_and!; auto.
    + apply (entry_ok_other p _ t); auto. rewrite Hof. by rewrite (proj2 (Z.eqb_neq t u)).
  - intros u Hu Hv Hru Hn. destruct (Z.eq_dec t u) as [<-|Hne]; [done|].
    rewrite Hof, (proj2 (Z.eqb_neq t u)) by done. apply Hs; try done. destruct Hu; [done|congruence].
  - done.
  - done.
  - intros u r [Hu| ->]; [by apply Hsh|congruence].
Qed.

Lemma place_tensor_run n seen p t : placed n seen p -> valid g t ->
  Z.of_nat (S n) * slot <= SIZE_MAX ->
  exists p', place_tensor t (PState h g p) = (Done tt, PState h g p') /\
    placed (S n) (fun u => seen u \/ u = t) p'.
Proof.
  intros Hpl Ht Hmax. destruct (tensor_at_get t p Ht) as (tn & Hrun & Htn & Hbt).
  unfold place_tensor, bind at 1. rewrite Hrun.
  destruct (still_shared_run n seen p t Hpl Ht) as (b & p1 & Hrun1 & Hpl1 & Hb).
  unfold bind at 1. rewrite Hrun1.
  assert (Hback : forall p', placed (S n) (fun u => (seen u /\ u <> t) \/ u = t) p' ->
    placed (S n) (fun u => seen u \/ u = t) p').
  { intros p'. apply placed_weaken; [done|]. intros u _.
    destruct (Z.eq_dec u t); intros [?|?]; auto. }
  destruct b.
  { exists p1. split; [done|]. apply Hback, placed_other; [done|..];
      destruct Hb as (r & -> & ? & ?); [done|]. intros r'. by intros [= <-]. }
  destruct (bool_decide_reflect (t_allocation_type tn = kTfLiteArenaRw)) as [Hrw|Hnrw].
  - apply (has_type_iff _ _ _ Htn) in Hrw.
    destruct (place_rw_run n _ p1 t tn Hpl1 Ht Htn Hrw Hb Hmax) as (p2 & Hrun2 & Hpl2).
    unfold bind. rewrite Hrun2. apply (has_type_iff _ _ _ Htn) in Hrw. rewrite Hrw. cbn.
    exists p2. by auto.
  - unfold bind at 1. cbn [ret].
    destruct (bool_decide_reflect (t_allocation_type tn = kTfLiteArenaRwPersistent)) as [Hps|_].
    + apply (has_type_iff _ _ _ Htn) in Hps.
      destruct (place_persistent_run n _ p1 t tn Hpl1 Ht Htn Hps Hb Hmax) as (p2 & -> & ?). eauto.
    + exists p1. split; [done|]. apply Hback, placed_other; [done| |congruence].
      rewrite (has_type_iff _ _ _ Htn). done.
Qed.

Lemma place_loop_run l n seen p : placed n seen p -> Forall (valid g) l ->
  Z.of_nat (n + length l) * slot <= SIZE_MAX -> 
  exists p', for_each l place_tensor (PState h g p) = (Done tt, PState h g p') /\
    placed (n + length l) (fun u => seen u \/ u ∈ l) p'.
Proof.
  intros Hpl Hall. revert n seen p Hpl. induction Hall as [|t l Ht _ IH]; intros n seen p Hpl Hmax.
  - exists p. split; [done|]. cbn. rewrite Nat.add_0_r. apply (placed_weaken n n seen); [done| |done].
    intros u _. rewrite elem_of_nil. tauto.
  - cbn [length] in *. rewrite for_each_cons. unfold bind at 1.
    destruct (place_tensor_run n seen p t Hpl Ht) as (p1 & -> & Hpl1); [unfold slot in *; nia|].
    destruct (IH (S n) _ p1 Hpl1) as (p2 & Hrun & Hpl2).
    { by replace (S n + length l)%nat with (n + S (length l))%nat by lia. }
    exists p2. split; [done|]. eapply placed_weaken; [| |exact Hpl2]; [lia|].
    intros u _. rewrite elem_of_cons. tauto.
Qed.
End Place.

(** ** The order of placement *)

Lemma tensor_compare_weak_order tensors p : strict_weak_order (tensor_compare tensors p).
Proof.
  unfold strict_weak_order, tensor_compare. split_and!.
  - intros x. destruct (whole_inference p x); [apply Z.ltb_irrefl|].
    rewrite Z.eqb_refl. apply Z.ltb_irrefl.
  - intros x y z. destruct (whole_inference p x), (whole_inference p y), (whole_inference p z);
      try done; rewrite ?Z.ltb_lt; [lia|].
    generalize (default 0 (t_bytes <$> tensors.[x])), (default 0 (t_bytes <$> tensors.[y])),
      (default 0 (t_bytes <$> tensors.[z])). intros a b c.
    destruct (Z.eqb_spec a b), (Z.eqb_spec b c), (Z.eqb_spec a c); cbn [negb]; rewrite ?Z.ltb_lt; lia.
  - intros x y z. destruct (whole_inference p x), (whole_inference p y), (whole_inference p z);
      try done; rewrite ?Z.ltb_ge; [lia|].
    generalize (default 0 (t_bytes <$> tensors.[x])), (default 0 (t_bytes <$> tensors.[y])),
      (default 0 (t_bytes <$> tensors.[z])). intros a b c.
    destruct (Z.eqb_spec a b), (Z.eqb_spec b c), (Z.eqb_spec a c); cbn [negb]; rewrite ?Z.ltb_ge; lia.
Qed.

Section Calculate.
Context {SS : StdSort} {SSOk : StdSortOk}.
Context (h : heap) (g : GraphInfo) (p : ArenaPlanner).
Context (Hqueue : forall i ts x, (nodes_to_tensors_ p).[i] = Some ts -> x ∈ ts -> valid g x).

Lemma queue_length i ts : (nodes_to_tensors_ p).[i] = Some ts ->
  (length (elements ts) <= length (gi_tensors g))%nat.
Proof.
  intros Hts. transitivity (length (Z.of_nat <$> seq 0 (length (gi_tensors g)))).
  - apply submseteq_length, NoDup_submseteq; [apply NoDup_elements|].
    intros x Hx%elem_of_elements. pose proof (Hqueue i ts x Hts Hx) as Hv.
    unfold valid, num_tensors, zlength in Hv. apply list_elem_of_fmap.
    exists (Z.to_nat x). split; [lia|]. apply elem_of_seq. lia.
  - by rewrite length_fmap, length_seq.
Qed.

(** The candidates of a range of nodes are the tensors queued there. *)
Lemma GetTensorsToAllocate_run first last :
  0 <= first -> last < zlength (nodes_to_tensors_ p) ->
  exists c, GetTensorsToAllocate first last (PState h g p) = (Done c, PState h g p) /\
    Forall (valid g) c /\
    (length c <= Z.to_nat (last - first + 1) * length (gi_tensors g))%nat /\
    forall i ts x, first <= i <= last -> (nodes_to_tensors_ p).[i] = Some ts -> x ∈ ts -> x ∈ c.
Proof.
  intros Hf Hl. unfold GetTensorsToAllocate, bind at 1, this. cbn [ps_planner].
  set (I := fun (pre : list Z) (acc : list Z) (s : pstate) => s = PState h g p /\
    Forall (valid g) acc /\ (length acc <= length pre * length (gi_tensors g))%nat /\
    forall i ts x, i ∈ pre -> (nodes_to_tensors_ p).[i] = Some ts -> x ∈ ts -> x ∈ acc).
  assert (Hin : forall i, i ∈ zrange first last <-> first <= i <= last).
  { intros i. unfold zrange. rewrite list_elem_of_fmap. setoid_rewrite elem_of_seq. split.
    - intros (k & -> & ?). lia.
    - intros ?. exists (Z.to_nat (i - first)). lia. }
  pose proof (spec_for_fold I (zrange first last) [] (fun acc i =>
    let* ts := access ((nodes_to_tensors_ p).[i]) in ret (acc ++ elements ts)) never) as Hloop.
  assert (Hstart : I [] [] (PState h g p)).
  { unfold I. split_and!; [done|constructor|done|]. intros i ts x Hi. by apply not_elem_of_nil in Hi. }
  assert (Hbody : forall pre i rest acc, zrange first last = pre ++ i :: rest ->
    spec (I pre acc) (let* ts := access ((nodes_to_tensors_ p).[i]) in ret (acc ++ elements ts))
      (fun acc' => I (pre ++ [i]) acc') never).
  { intros pre i rest acc Heq s (-> & Hv & Hlen & Hall).
    assert (Hi : first <= i <= last).
    { apply Hin. rewrite Heq, elem_of_app, elem_of_cons. auto. }
    destruct (zlookup_in_range (nodes_to_tensors_ p) i) as [ts Hts]; [lia|].
    unfold bind. rewrite Hts. cbn. unfold I. split_and!; [done| | |].
    - apply Forall_app. split; [done|]. apply Forall_forall. intros x Hx%elem_of_elements. eauto.
    - rewrite !length_app. pose proof (queue_length i ts Hts). cbn. lia.
    - intros j ts' x. rewrite !elem_of_app, list_elem_of_singleton, elem_of_elements.
      intros [Hj| ->] Hts' Hx; [left; by eapply Hall|right]. by simplify_eq. }
  specialize (Hloop Hbody _ Hstart).
  destruct (for_fold _ _ _ _) as [[c|e|] s]; [|done|done].
  destruct Hloop as (-> & Hv & Hlen & Hall). exists c. split_and!; [done|done| |].
  - unfold zrange in Hlen. rewrite length_fmap, length_seq in Hlen. done.
  - intros i ts x Hi. by apply Hall, Hin.
Qed.

Lemma tensors_to_place_run c : Forall (valid g) c -> zlength (allocs_ p) = num_tensors g ->
  exists l, tensors_to_place c (PState h g p) = (Done l, PState h g p) /\
    Forall (valid g) l /\ (length l <= length c)%nat /\
    forall t, t ∈ c -> has_type g kTfLiteArenaRw t -> size (alloc_of p t) < bytes_of g t -> t ∈ l.
Proof.
  intros Hc Hl. unfold tensors_to_place.
  set (I := fun (pre : list Z) (acc : list Z) (s : pstate) => s = PState h g p /\
    Forall (valid g) acc /\ (length acc <= length pre)%nat /\
    forall t, t ∈ pre -> has_type g kTfLiteArenaRw t -> size (alloc_of p t) < bytes_of g t -> t ∈ acc).
  assert (Hbody : forall pre t rest acc, c = pre ++ t :: rest ->
    spec (I pre acc) (let* tn := tensor_at t in
      if bool_decide (t_allocation_type tn = kTfLiteArenaRw) then
        let* p := this in
        let* a := access ((allocs_ p).[t]) in
        ret (if size a <? t_bytes tn then acc ++ [t] else acc)
      else if bool_decide (t_allocation_type tn = kTfLiteArenaRwPersistent)
      then ret (acc ++ [t]) else ret acc) (fun acc' => I (pre ++ [t]) acc') never).
  { intros pre t rest acc Heq s (-> & Hv & Hlen & Hall).
    rewrite Heq, Forall_app, Forall_cons in Hc. destruct Hc as (_ & Ht & _).
    destruct (tensor_at_get h g t p Ht) as (tn & Hrun & Htn & Hbt).
    assert (Hkeep : I (pre ++ [t]) (acc ++ [t]) (PState h g p)).
    { split_and!; [done|by apply Forall_app; auto|rewrite !length_app; cbn; lia|].
      intros u. rewrite !elem_of_app. intros [?|?] ??; [left; by apply Hall|by right]. }
    assert (Hskip : ~ (has_type g kTfLiteArenaRw t /\ size (alloc_of p t) < bytes_of g t) ->
      I (pre ++ [t]) acc (PState h g p)).
    { intros Hno. split_and!; [done|done|rewrite length_app; cbn; lia|].
      intros u. rewrite elem_of_app, list_elem_of_singleton. intros [?| ->] ??; [by apply Hall|tauto]. }
    unfold bind at 1. rewrite Hrun. case_bool_decide as Hrw.
    - unfold bind, this. cbn [ps_planner]. rewrite (alloc_of_get g) by done. cbn [access ret].
      rewrite <- Hbt. destruct (Z.ltb_spec (size (alloc_of p t)) (bytes_of g t)); [done|].
      apply Hskip. lia.
    - case_bool_decide; [done|]. apply Hskip. rewrite (has_type_iff g _ _ _ Htn). tauto. }
  pose proof (spec_for_fold I c [] _ never Hbody (PState h g p)) as Hloop.
  destruct (for_fold _ _ _ _) as [[l|e|] s].
  - destruct Hloop as (-> & Hv & Hlen & Hall); [|by eauto 6].
    split_and!; [done|constructor|done|]. intros t Ht. by apply not_elem_of_nil in Ht.
  - destruct Hloop. split_and!; [done|constructor|done|]. intros t Ht. by apply not_elem_of_nil in Ht.
  - destruct Hloop. split_and!; [done|constructor|done|]. intros t Ht. by apply not_elem_of_nil in Ht.
Qed.

(** *** The whole plan at once *)

Context (B : Z) (Hbytes : forall t, valid g t -> 0 <= bytes_of g t <= B) (HB : 0 <= B).
Context (a0 a1 : SimpleMemoryArena) (Harena : arena_ p = ClearPlan a0).
Context (Hpersistent : persistent_arena_ p = ClearPlan a1).
Context (Hal : 0 < tensor_alignment_ p <= alignment_ (underlying_buffer_ a0)).
Context (Halp : tensor_alignment_ p <= alignment_ (underlying_buffer_ a1)).
Context (Hroots : forall x r, actual_tensor_id_ p !! x = Some r -> valid g r).
Context (Hla : zlength (alloc_node_ p) = num_tensors g).
Context (Hld : zlength (dealloc_node_ p) = num_tensors g).
Context (Hallocs : allocs_ p = replicate (Z.to_nat (num_tensors g)) alloc_reset).
Context (Hactive : last_active_node_ p = kLastActiveNodeUndefined).

Lemma alloc_of_reset t : valid g t -> alloc_of p t = alloc_reset.
Proof. intros Ht. unfold alloc_of. by rewrite Hallocs, zlookup_replicate. Qed.

Lemma placed_start : placed g p B 0 (fun _ => False) p.
Proof.
  split; try done.
  - rewrite Hallocs. apply zlength_replicate. unfold num_tensors, zlength. lia.
  - split_and!; [rewrite Harena; apply ClearPlan_inv|done|rewrite Harena; cbn; lia].
  - split_and!; [rewrite Hpersistent; apply ClearPlan_inv|done|rewrite Hpersistent; cbn; lia].
  - intros t Ht. left. by rewrite alloc_of_reset.
  - congruence.
Qed.

(** Every tensor of nodes [0..last] that owns its buffer has a range of its size, and the
    ranges of the plan satisfy [placed]. *)
Lemma CalculateAllocations_run last :
  0 <= last < zlength (nodes_to_tensors_ p) -> last < INT32_MAX ->
  (last + 1) * num_tensors g * (tensor_alignment_ p + B) <= SIZE_MAX ->
  exists l n p2, CalculateAllocations 0 last (PState h g p) = (Done l, PState h g p2) /\
    placed g p B n (fun t => t ∈ l) p2 /\ Forall (valid g) l /\
    Z.of_nat n * (tensor_alignment_ p + B) <= SIZE_MAX /\
    forall i ts t, 0 <= i <= last -> (nodes_to_tensors_ p).[i] = Some ts -> t ∈ ts ->
      has_type g kTfLiteArenaRw t -> 0 < bytes_of g t -> t ∈ l.
Proof.
  intros Hlast Hmaxn Hmax. unfold CalculateAllocations, bind at 1.
  destruct (GetTensorsToAllocate_run 0 last) as (c & -> & Hc & Hlen & Hcall); [lia|lia|].
  assert (Hal0 : zlength (allocs_ p) = num_tensors g).
  { rewrite Hallocs. apply zlength_replicate. unfold num_tensors, zlength. lia. }
  unfold bind at 1. destruct (tensors_to_place_run c Hc Hal0) as (l & -> & Hl & Hll & Hlall).
  assert (Hall : forall i ts t, 0 <= i <= last -> (nodes_to_tensors_ p).[i] = Some ts -> t ∈ ts ->
      has_type g kTfLiteArenaRw t -> 0 < bytes_of g t -> t ∈ l).
  { intros i ts t Hi Hts Ht Hrw Hpos. apply Hlall; [by eapply Hcall|done|].
    rewrite alloc_of_reset by (by eapply Hqueue). done. }
  assert (Hbound : Z.of_nat (length l) * (tensor_alignment_ p + B) <= SIZE_MAX).
  { unfold num_tensors, zlength in Hmax. assert (Z.of_nat (length l) <= (last + 1) *
      Z.of_nat (length (gi_tensors g))) by nia. nia. }
  set (p1 := with_last_active_node 0 (with_arena (ResetAllocs (arena_ p)) p)).
  destruct l as [|t0 l].
  { eexists [], 0%nat, _. split; [reflexivity|]. split_and!; [|done|lia|done].
    destruct placed_start. split; try done; intros t;
      [intros Ht|intros r Ht]; by apply not_elem_of_nil in Ht. }
  unfold bind at 1, this. cbn [ps_planner]. rewrite Hactive. cbn [Z.ltb Z.compare kLastActiveNodeUndefined].
  change (0 <? kLastActiveNodeUndefined) with true. cbn [andb].
  unfold bind at 1. unfold bind at 1. unfold set_this at 1, modify at 1. cbn [ps_heap ps_graph ps_planner].
  unfold set_this at 1, modify at 1. cbn [ps_heap ps_graph ps_planner]. fold p1.
  unfold CreateTensorAllocationVector. set (lt := tensor_compare (gi_tensors g) p1).
  pose proof (std_sort_perm lt (t0 :: l) (tensor_compare_weak_order _ _)) as Hperm.
  unfold bind at 1, graph_info, this, bind at 1, bind at 1. cbn [ps_graph ps_planner ret]. fold lt.
  set (sl := std_sort lt (t0 :: l)) in *.
  assert (Hp1 : placed g p B 0 (fun _ => False) p1).
  { assert (Heq : p1 = with_last_active_node 0 p).
    { subst p1. f_equal. rewrite Harena. unfold ResetAllocs, set_active, ClearPlan. cbn.
      destruct p; cbn in *. by rewrite Harena. }
    rewrite Heq. destruct placed_start. by split. }
  destruct (place_loop_run h g p B Hbytes HB) with (l := sl) (n := 0%nat)
    (seen := fun _ : Z => False) (p := p1) as (p2 & Hrun & Hpl2); try done.
  { by rewrite Harena. }
  { by rewrite Hpersistent. }
  { by rewrite Hperm. }
  { rewrite Hperm. done. }
  unfold bind at 1. rewrite Hrun. eexists sl, (length sl), _. split; [reflexivity|].
  split_and!.
  - assert (Hp2 : placed g p B (length sl) (fun u => u ∈ sl) p2).
    { eapply placed_weaken; [..|exact Hpl2]; try done; [by rewrite Harena|by right]. }
    destruct Hp2. by split.
  - by rewrite Hperm.
  - by rewrite Hperm.
  - intros. rewrite Hperm. by eapply Hall.
Qed.
End Calculate.

(** ** Addresses *)

Section Resolve.
Context (h : heap) (g : GraphInfo) (p : ArenaPlanner).

Definition data_at (ts : list TfLiteTensor) (t : Z) : option Z := t_data <$> ts.[t].

(** The tensors of the graph, up to their addresses. *)
Definition same_meta (ts : list TfLiteTensor) : Prop :=
  set_data 0 <$> ts = set_data 0 <$> gi_tensors g.

Definition with_ts (ts : list TfLiteTensor) : pstate := PState h (with_tensors ts g) p.

(** The arenas can resolve every range the planner holds. *)
Record resolvable : Prop := {
  rs_committed : committed_ (arena_ p) = true /\ committed_ (persistent_arena_ p) = true;
  rs_size : GetBufferSize (arena_ p) <= SIZE_MAX /\ GetBufferSize (persistent_arena_ p) <= SIZE_MAX;
  rs_len : zlength (allocs_ p) = num_tensors g;
  rs_rw : forall t, valid g t -> has_type g kTfLiteArenaRw t ->
    within (GetBufferSize (arena_ p)) (alloc_of p t);
  rs_persistent : forall t, valid g t -> has_type g kTfLiteArenaRwPersistent t ->
    within (GetBufferSize (persistent_arena_ p)) (alloc_of p t);
  rs_roots : forall x r, actual_tensor_id_ p !! x = Some r ->
    valid g r /\ actual_tensor_id_ p !! r = None;
}.

(** The tensors whose address the planner determines: in the arena, in a buffer of nonzero
    size. *)
Definition placed_rw (t : Z) : Prop :=
  has_type g kTfLiteArenaRw t /\ has_type g kTfLiteArenaRw (owner p t) /\
  size (alloc_of p (owner p t)) <> 0.

Definition address (t : Z) : Z := BasePointer (arena_ p) + offset (alloc_of p (owner p t)).

(** What resolving [l] does: addresses it writes are right, and those of [l] are written. *)
Definition resolved_from (ts : list TfLiteTensor) (l : list Z) (ts' : list TfLiteTensor) : Prop :=
  same_meta ts' /\
  (forall u, placed_rw u -> data_at ts' u = data_at ts u \/ data_at ts' u = Some (address u)) /\
  (forall u, u ∈ l -> placed_rw u -> data_at ts' u = Some (address u)).

Lemma same_meta_length ts : same_meta ts -> zlength ts = num_tensors g.
Proof.
  intros H%(f_equal length). rewrite !length_fmap in H. unfold num_tensors, zlength. by rewrite H.
Qed.

Lemma same_meta_lookup ts t : same_meta ts -> valid g t -> exists tn tn0,
  ts.[t] = Some tn /\ (gi_tensors g).[t] = Some tn0 /\ set_data 0 tn = set_data 0 tn0.
Proof.
  intros Hs Ht. pose proof (same_meta_length ts Hs) as Hl. unfold valid in Ht.
  destruct (zlookup_in_range ts t) as [tn Htn]; [lia|].
  destruct (zlookup_in_range (gi_tensors g) t) as [tn0 Htn0]; [done|].
  exists tn, tn0. split_and!; [done|done|].
  apply zlookup_some in Htn as [_ Htn], Htn0 as [_ Htn0].
  apply (f_equal (fun l => l !! Z.to_nat t)) in Hs. rewrite !list_lookup_fmap, Htn, Htn0 in Hs.
  by apply (inj Some) in Hs.
Qed.

Lemma with_ts_tensor_at ts t : same_meta ts -> valid g t -> exists tn,
  tensor_at t (with_ts ts) = (Done tn, with_ts ts) /\ ts.[t] = Some tn /\
  forall a, has_type g a t <-> t_allocation_type tn = a.
Proof.
  intros Hs Ht. destruct (same_meta_lookup ts t Hs Ht) as (tn & tn0 & Htn & Htn0 & Heq).
  exists tn. unfold tensor_at, bind, graph_info. cbn [ps_graph with_ts with_tensors gi_tensors].
  rewrite Htn. split_and!; [done|done|]. intros a. rewrite (has_type_iff g a t tn0 Htn0).
  apply (f_equal t_allocation_type) in Heq. cbn in Heq. by rewrite Heq.
Qed.

Lemma set_tensor_data_run ts t ptr : same_meta ts -> valid g t -> exists tn,
  ts.[t] = Some tn /\
  set_tensor_data t ptr (with_ts ts) = (Done tt, with_ts (zset ts t (set_data ptr tn))) /\
  same_meta (zset ts t (set_data ptr tn)) /\
  forall u, data_at (zset ts t (set_data ptr tn)) u = if t =? u then Some ptr else data_at ts u.
Proof.
  intros Hs Ht. destruct (with_ts_tensor_at ts t Hs Ht) as (tn & Hrun & Htn & _).
  pose proof (same_meta_length ts Hs) as Hl. unfold valid in Ht. exists tn. split; [done|].
  split_and!.
  - unfold set_tensor_data, bind at 1, graph_info. cbn [ps_graph with_ts].
    unfold bind at 1. fold (with_ts ts). rewrite Hrun. cbn [with_tensors gi_tensors].
    unfold bind. rewrite zinsert_zset by lia. done.
  - unfold same_meta, zset. rewrite list_fmap_insert. rewrite <- Hs.
    apply list_insert_id. rewrite list_lookup_fmap. apply zlookup_some in Htn as [_ ->]. done.
  - intros u. unfold data_at. rewrite zlookup_zset by lia. by destruct (t =? u).
Qed.

Lemma resolved_refl ts l : same_meta ts -> (forall u, u ∈ l -> ~ placed_rw u) ->
  resolved_from ts l ts.
Proof. intros Hs Hno. split_and!; [done|auto|]. intros u Hu Hp. by destruct (Hno u Hu). Qed.

Lemma resolved_write ts t ptr : same_meta ts -> valid g t ->
  (placed_rw t -> ptr = address t) ->
  exists ts', set_tensor_data t ptr (with_ts ts) = (Done tt, with_ts ts') /\
    resolved_from ts [t] ts' /\ data_at ts' t = Some ptr.
Proof.
  intros Hs Ht Hptr. destruct (set_tensor_data_run ts t ptr Hs Ht) as (tn & _ & Hrun & Hs' & Hd).
  eexists. split; [exact Hrun|]. split; [|by rewrite Hd, Z.eqb_refl]. split_and!; [done| |].
  - intros u Hu. rewrite Hd. destruct (Z.eqb_spec t u) as [<-|]; [right; by rewrite Hptr|by left].
  - intros u ->%list_elem_of_singleton Hu. rewrite Hd, Z.eqb_refl. by rewrite Hptr.
Qed.

Lemma resolved_trans ts l ts' l' ts'' :
  resolved_from ts l ts' -> resolved_from ts' l' ts'' -> resolved_from ts (l ++ l') ts''.
Proof.
  intros (_ & H1 & H2) (Hs & H3 & H4). split_and!; [done| |].
  - intros u Hu. destruct (H3 u Hu) as [->|?]; [by apply H1|by right].
  - intros u [Hin|Hin]%elem_of_app Hu; [|by apply H4].
    destruct (H3 u Hu) as [->|?]; [by apply H2|done].
Qed.

Context (Hres : resolvable).

Lemma resolve_own_run ts t tn : same_meta ts -> valid g t -> ts.[t] = Some tn ->
  (forall a, has_type g a t <-> t_allocation_type tn = a) ->
  (placed_rw t -> owner p t = t) ->
  exists ts', resolve_own t tn (with_ts ts) = (Done tt, with_ts ts') /\ resolved_from ts [t] ts'.
Proof.
  intros Hs Ht Htn Hty Hown. destruct Hres as [[Hc Hcp] [Hz Hzp] Hlen Hrw Hper _].
  unfold resolve_own, bind at 1, this. cbn [ps_planner with_ts].
  destruct (bool_decide_reflect (t_allocation_type tn = kTfLiteArenaRw)) as [Ha|Ha].
  - pose proof (proj2 (Hty _) Ha) as Htrw.
    rewrite (alloc_of_get g) by done. unfold bind at 1. cbn [access ret].
    destruct (Z.eqb_spec (size (alloc_of p t)) 0) as [Hz0|Hnz].
    { exists ts. split; [done|]. apply resolved_refl; [done|].
      intros u ->%list_elem_of_singleton Hp. rewrite <- (Hown Hp) in Hz0. by destruct Hp as (_ & _ & ?). }
    unfold bind at 1, on_arena, arena_only, zoom. cbn [ps_heap ps_planner ps_graph with_ts fst snd].
    rewrite ResolveAlloc_run by auto. cbn [fst snd].
    rewrite (proj2 (Z.eqb_neq _ _) Hnz).
    assert (Hback : with_arena (arena_ p) p = p) by (by destruct p).
    rewrite Hback. fold (with_ts ts).
    destruct (resolved_write ts t (BasePointer (arena_ p) + offset (alloc_of p t)) Hs Ht)
      as (ts' & -> & ? & _); [|by eauto].
    intros Hp. unfold address. by rewrite (Hown Hp).
  - destruct (bool_decide_reflect (t_allocation_type tn = kTfLiteArenaRwPersistent)) as [Hp|Hp].
    + pose proof (proj2 (Hty _) Hp) as Htp.
      rewrite (alloc_of_get g) by done. unfold bind at 1. cbn [access ret].
      unfold bind at 1, on_persistent_arena, arena_only, zoom.
      cbn [ps_heap ps_planner ps_graph with_ts fst snd].
      rewrite ResolveAlloc_run by auto. cbn [fst snd].
      assert (Hback : with_persistent_arena (persistent_arena_ p) p = p) by (by destruct p).
      rewrite Hback. fold (with_ts ts).
      match goal with |- context [set_tensor_data t ?ptr _] =>
        destruct (resolved_write ts t ptr Hs Ht) as (ts' & -> & ? & _); [|by eauto] end.
      intros (Hrwt & _). by rewrite Hty in Hrwt.
    + exists ts. split; [done|]. apply resolved_refl; [done|].
      intros u ->%list_elem_of_singleton (Hrwt & _). by rewrite Hty in Hrwt.
Qed.

Lemma owner_valid t : valid g t -> valid g (owner p t).
Proof.
  intros Ht. unfold owner, find_shared. destruct (actual_tensor_id_ p !! t) as [r|] eqn:Hr; [|done].
  by destruct (rs_roots Hres t r Hr).
Qed.

Lemma owner_owner t : owner p (owner p t) = owner p t.
Proof.
  unfold owner at 1, find_shared. destruct (actual_tensor_id_ p !! owner p t) as [r|] eqn:Hr; [|done].
  unfold owner, find_shared in Hr. destruct (actual_tensor_id_ p !! t) as [r'|] eqn:Hr'.
  - destruct (rs_roots Hres t r' Hr') as [_ Hn]. cbn in Hr. by simplify_eq.
  - cbn in Hr. by simplify_eq.
Qed.

(** A tensor that owns its buffer. *)
Lemma resolve_root_run fuel ts t : same_meta ts -> valid g t -> owner p t = t ->
  exists ts', ResolveTensorAllocation (S fuel) t (with_ts ts) = (Done tt, with_ts ts') /\
    resolved_from ts [t] ts'.
Proof.
  intros Hs Ht Hown. cbn [ResolveTensorAllocation]. unfold resolve_step, bind at 1, this. cbn [ps_planner with_ts].
  fold (with_ts ts). fold (owner p t).
  destruct (with_ts_tensor_at ts t Hs Ht) as (tn & Hrun & Htn & Hty).
  unfold bind at 1. rewrite Hrun. unfold bind at 1. rewrite Hown, Hrun. rewrite Z.eqb_refl.
  cbn [negb andb]. by apply resolve_own_run.
Qed.

(** [ResolveTensorAllocation] with enough fuel for one nested call. *)
Lemma resolve_run fuel ts t : same_meta ts -> valid g t ->
  exists ts', ResolveTensorAllocation (S (S fuel)) t (with_ts ts) = (Done tt, with_ts ts') /\
    resolved_from ts [t] ts'.
Proof.
  intros Hs Ht. destruct (Z.eq_dec (owner p t) t) as [Hown|Hne]; [by apply resolve_root_run|].
  change (ResolveTensorAllocation (S (S fuel)) t) with
    (resolve_step (ResolveTensorAllocation (S fuel)) t).
  unfold resolve_step, bind at 1, this. cbn [ps_planner with_ts].
  fold (with_ts ts). fold (owner p t).
  destruct (with_ts_tensor_at ts t Hs Ht) as (tn & Hrun & Htn & Hty).
  pose proof (owner_valid t Ht) as Hrv.
  destruct (with_ts_tensor_at ts (owner p t) Hs Hrv) as (rn & Hrunr & Hrn & Htyr).
  unfold bind at 1. rewrite Hrun. unfold bind at 1. rewrite Hrunr.
  rewrite (proj2 (Z.eqb_neq _ _) Hne). cbn [negb andb].
  destruct (AreTensorsAllocatedInSameArena rn tn) eqn:Hsame.
  - destruct (resolve_root_run fuel ts (owner p t) Hs Hrv (owner_owner t)) as (ts1 & Hrun1 & Hres1).
    unfold bind at 1. rewrite Hrun1.
    destruct (with_ts_tensor_at ts1 (owner p t) (proj1 Hres1) Hrv) as (rn1 & Hrunr1 & Hrn1 & _).
    unfold bind at 1. rewrite Hrunr1.
    destruct (resolved_write ts1 t (t_data rn1) (proj1 Hres1) Ht) as (ts2 & -> & Hres2 & _).
    { intros (Hp1 & Hp2 & Hp3). destruct Hres1 as (_ & _ & Hd).
      specialize (Hd (owner p t) ltac:(left)). unfold data_at in Hd. rewrite Hrn1 in Hd. cbn in Hd.
      unfold placed_rw, address in Hd |- *. rewrite owner_owner in Hd.
      specialize (Hd ltac:(auto)). congruence. }
    exists ts2. split; [done|].
    pose proof (resolved_trans _ _ _ _ _ Hres1 Hres2) as (? & ? & Hl). split_and!; [done|done|].
    intros u Hu. apply Hl, elem_of_app. auto.
  - apply resolve_own_run; [done|done|done|done|]. intros (Hp1 & Hp2 & _). exfalso.
    unfold AreTensorsAllocatedInSameArena in Hsame. rewrite Hty in Hp1. rewrite Htyr in Hp2.
    rewrite Hp1, Hp2 in Hsame. done.
Qed.

Lemma resolve_loop_run fuel l ts : same_meta ts -> Forall (valid g) l ->
  exists ts', for_each l (ResolveTensorAllocation (S (S fuel))) (with_ts ts) =
      (Done tt, with_ts ts') /\ resolved_from ts l ts'.
Proof.
  intros Hs Hl. revert ts Hs. induction Hl as [|t l Ht _ IH]; intros ts Hs.
  - exists ts. split; [done|]. apply resolved_refl; [done|]. intros u Hu. by apply not_elem_of_nil in Hu.
  - rewrite for_each_cons. destruct (resolve_run fuel ts t Hs Ht) as (ts1 & Hrun & Hr1).
    unfold bind at 1. rewrite Hrun. destruct (IH ts1 (proj1 Hr1)) as (ts2 & Hrun2 & Hr2).
    exists ts2. split; [done|]. by apply (resolved_trans ts [t] ts1 l ts2).
Qed.
End Resolve.

(** ** The whole plan *)

(** [x] holds a value at node [i]: nodes at or before [i] and at or after [i] use it. *)
Definition live_at (g : GraphInfo) (i : nat) (x : Z) : Prop :=
  exists k1 k2, (k1 <= i <= k2)%nat /\ uses g k1 x /\ uses g k2 x.

(** The assumptions on the graph and the planner it is given to: sizes are known and fit
    [size_t] with padding, the arenas are new, no node has temporaries, and every tensor of
    the arena that is used is provided. *)
Record placeable (g : GraphInfo) (p : ArenaPlanner) (B : Z) : Prop := {
  pb_wf : graph_wf g;
  pb_bytes : forall t, valid g t -> 0 <= bytes_of g t <= B;
  pb_bound : 0 <= B;
  pb_nodes : 0 < num_execution_nodes g;
  pb_temporaries : Forall (fun nr => node_temporaries (fst nr) = []) (gi_nodes g);
  pb_empty : buffer_empty (underlying_buffer_ (arena_ p)) /\
    buffer_empty (underlying_buffer_ (persistent_arena_ p));
  pb_alignment : 0 < tensor_alignment_ p <= alignment_ (underlying_buffer_ (arena_ p)) /\
    tensor_alignment_ p <= alignment_ (underlying_buffer_ (persistent_arena_ p));
  pb_total : num_execution_nodes g * num_tensors g * (tensor_alignment_ p + B) <= SIZE_MAX;
  pb_provided : forall i x, uses g i x -> has_type g kTfLiteArenaRw x -> provided g x;
}.

Lemma set_temporaries_none h g p last : 0 <= last <= SIZE_MAX ->
  Forall (fun nr => node_temporaries (fst nr) = []) (gi_nodes g) ->
  set_temporaries 0 last (PState h g p) = (Done tt, PState h g p).
Proof.
  intros Hlast Hnone. unfold set_temporaries, bind at 1, graph_info. cbn [ps_graph].
  rewrite !size_wrap_small by (unfold SIZE_MAX in *; lia).
  assert (Hin : forall i, i ∈ zrange 0 (Z.min last (num_execution_nodes g - 1)) ->
    0 <= i < zlength (gi_nodes g)).
  { intros i. unfold zrange, num_execution_nodes. rewrite list_elem_of_fmap.
    intros (k & -> & Hk%elem_of_seq). lia. }
  induction (zrange 0 (Z.min last (num_execution_nodes g - 1))) as [|i l IH]; [done|].
  rewrite for_each_cons. unfold bind at 1. unfold bind at 1.
  destruct (zlookup_in_range (gi_nodes g) i) as [nr Hnr]; [apply Hin; left|].
  rewrite Hnr. cbn [access ret]. rewrite Forall_forall in Hnone.
  rewrite (Hnone nr (zlookup_elem_of _ _ _ Hnr)). cbn [for_each ret].
  apply IH. intros j Hj. apply Hin. by right.
Qed.

Section Whole.
Context {MM : Malloc} {SS : StdSort} {SSOk : StdSortOk}.
Context (h : heap) (g : GraphInfo) (p : ArenaPlanner) (B : Z) (Hpb : placeable g p B).
Context (p1 : ArenaPlanner) (Hplan : plan_ok g p p1).

Lemma plan_vectors : zlength (allocs_ p1) = num_tensors g.
Proof.
  destruct (plan_fresh _ _ _ Hplan) as (-> & _). apply zlength_replicate.
  unfold num_tensors, zlength. lia.
Qed.

(** The arenas after [Commit] can resolve everything that was placed. *)
Lemma committed_resolvable n seen p2 b1 b2 :
  placed g p1 B n seen p2 -> Z.of_nat n * (tensor_alignment_ p1 + B) <= SIZE_MAX ->
  data_size_ b1 = high_water_mark_ (arena_ p2) ->
  data_size_ b2 = high_water_mark_ (persistent_arena_ p2) ->
  resolvable g (with_persistent_arena (with_buffer b2 (persistent_arena_ p2))
              (with_has_nonpersistent_memory true
                 (with_arena (with_buffer b1 (arena_ p2)) p2))).
Proof.
  intros [_ Hlen (Ha & _ & Ham) (Hp & _ & Hpm) Hent _ Hids _ _] Hn Hb1 Hb2.
  pose proof (ai_within _ Ha) as Hw. pose proof (ai_within _ Hp) as Hwp.
  pose proof (ai_mark _ Ha). pose proof (ai_mark _ Hp).
  rewrite Forall_forall in Hw, Hwp. unfold slot in *.
  split; cbn; unfold GetBufferSize; cbn; rewrite ?Hb1, ?Hb2; [done|lia|done| | |].
  - intros t Ht Hrw. change (alloc_of _ t) with (alloc_of p2 t).
    destruct (Hent t Ht) as [[Hz Ho]|(_ & _ & _ & [(_ & _ & Hin)|(Hty & _)])];
      [unfold within, range_end; lia|by apply Hw|unfold has_type in *; congruence].
  - intros t Ht Hrw. change (alloc_of _ t) with (alloc_of p2 t).
    destruct (Hent t Ht) as [[Hz Ho]|(_ & _ & _ & [(Hty & _)|(_ & _ & Hin)])];
      [unfold within, range_end; lia|unfold has_type in *; congruence|by apply Hwp].
  - intros x r Hr. apply Hids in Hr. pose proof (plan_sharing _ _ _ Hplan x r Hr) as (? & Hnone & _).
    split; [done|]. destruct (actual_tensor_id_ p2 !! r) eqn:Hr2; [|done].
    apply Hids in Hr2. congruence.
Qed.

Definition after_commit (b1 b2 : ResizableAlignedBuffer) (p2 : ArenaPlanner) : ArenaPlanner :=
  with_persistent_arena (with_buffer b2 (persistent_arena_ p2))
    (with_has_nonpersistent_memory true (with_arena (with_buffer b1 (arena_ p2)) p2)).

Lemma Commit_arenas_run p2 :
  buffer_empty (underlying_buffer_ (arena_ p2)) -> 0 <= high_water_mark_ (arena_ p2) ->
  buffer_empty (underlying_buffer_ (persistent_arena_ p2)) ->
  0 <= high_water_mark_ (persistent_arena_ p2) ->
  exists moved h' b1 b2, Commit_arenas (PState h g p2) =
      (Done moved, PState h' g (after_commit b1 b2 p2)) /\
    data_size_ b1 = high_water_mark_ (arena_ p2) /\
    data_size_ b2 = high_water_mark_ (persistent_arena_ p2).
Proof.
  intros He1 Hm1 He2 Hm2.
  destruct (Commit_empty h (arena_ p2) He1 Hm1) as (m1 & h1 & b1 & Hrun1 & Hd1 & _).
  destruct (Commit_empty h1 (persistent_arena_ p2) He2 Hm2) as (m2 & h2 & b2 & Hrun2 & Hd2 & _).
  exists (m1 || m2), h2, b1, b2. split; [|done].
  unfold Commit_arenas, bind, on_arena, on_persistent_arena, zoom, set_this, modify.
  cbn -[Commit]. rewrite Hrun1. cbn -[Commit]. rewrite Hrun2. done.
Qed.

(** The state [ExecuteAllocations] leaves: the placement and the addresses. *)
Record executed (ts : list TfLiteTensor) (p2 p3 : ArenaPlanner) (l : list Z) : Prop := {
  ex_meta : same_meta g ts;
  ex_committed : exists b1 b2, p3 = after_commit b1 b2 p2;
  ex_placed : exists n, placed g p1 B n (fun t => t ∈ l) p2;
  ex_queued : forall i tset t, 0 <= i < num_execution_nodes g ->
    (nodes_to_tensors_ p1).[i] = Some tset -> t ∈ tset ->
    has_type g kTfLiteArenaRw t -> 0 < bytes_of g t -> t ∈ l;
  ex_address : forall t, t ∈ l -> placed_rw g p3 t -> data_at ts t = Some (address p3 t);
}.

Lemma zrange_valid : Forall (valid g) (zrange 0 (num_tensors g - 1)).
Proof.
  apply Forall_forall. intros t. unfold zrange, valid. rewrite list_elem_of_fmap.
  intros (k & -> & Hk%elem_of_seq). lia.
Qed.

Lemma valid_zrange t : valid g t -> t ∈ zrange 0 (num_tensors g - 1).
Proof.
  unfold valid, zrange. intros Ht. rewrite list_elem_of_fmap. exists (Z.to_nat t).
  rewrite elem_of_seq. lia.
Qed.

(** Resolving any list of tensors that contains the placed ones. *)
Lemma resolve_placed h' p2 b1 b2 n l l' :
  placed g p1 B n (fun t => t ∈ l) p2 -> resolvable g (after_commit b1 b2 p2) ->
  (forall i tset t, 0 <= i < num_execution_nodes g ->
    (nodes_to_tensors_ p1).[i] = Some tset -> t ∈ tset ->
    has_type g kTfLiteArenaRw t -> 0 < bytes_of g t -> t ∈ l) ->
  Forall (valid g) l' -> (forall t, t ∈ l -> t ∈ l') ->
  exists ts, for_each l' (ResolveTensorAllocation (resolve_fuel g))
      (PState h' g (after_commit b1 b2 p2)) =
    (Done tt, PState h' (with_tensors ts g) (after_commit b1 b2 p2)) /\
    executed ts p2 (after_commit b1 b2 p2) l.
Proof.
  intros Hpl Hres Hq Hv Hsub.
  assert (Hg : PState h' g (after_commit b1 b2 p2) =
    with_ts h' g (after_commit b1 b2 p2) (gi_tensors g)) by (by destruct g).
  rewrite Hg.
  assert (Hrun : exists ts, for_each l' (ResolveTensorAllocation (resolve_fuel g))
      (with_ts h' g (after_commit b1 b2 p2) (gi_tensors g)) =
    (Done tt, with_ts h' g (after_commit b1 b2 p2) ts) /\
    resolved_from g (after_commit b1 b2 p2) (gi_tensors g) l' ts).
  { destruct l' as [|t l'].
    - exists (gi_tensors g). split; [done|]. apply resolved_refl; [done|].
      intros u Hu. by apply not_elem_of_nil in Hu.
    - unfold resolve_fuel. pose proof (Forall_inv Hv) as Ht. unfold valid, num_tensors, zlength in Ht.
      destruct (length (gi_tensors g)) as [|f]; [lia|]. by apply resolve_loop_run. }
  destruct Hrun as (ts & -> & Hm & _ & Haddr). exists ts. split; [done|]. split; eauto.
Qed.

Lemma ExecuteAllocations_run :
  exists h' ts p2 p3 l,
    ExecuteAllocations 0 (num_execution_nodes g - 1) (PState h g p1) =
      (Done tt, PState h' (with_tensors ts g) p3) /\ executed ts p2 p3 l.
Proof.
  destruct Hpb as [Hwf Hbytes HB HN Htmp [He1 He2] [Hal Halp] Htot _].
  destruct (plan_fresh _ _ _ Hplan) as (Hallocs & Har & Hpar & _ & Hta & Hactive).
  destruct (plan_sized _ _ _ Hplan) as (Hsa & Hsd & Hsq).
  pose proof (wf_count g Hwf) as Hcount. unfold INT32_MAX in Hcount.
  unfold ExecuteAllocations, bind at 1, graph_info. cbn [ps_graph].
  unfold bind at 1, this. cbn [ps_planner]. rewrite plan_vectors. unfold bind at 1.
  rewrite Z.leb_refl. cbn [ensure ret].
  do 3 (unfold bind at 1, set_this at 1, modify at 1; cbn [ps_heap ps_graph ps_planner]).
  change (dealloc_node_ (with_alloc_node _ p1)) with (dealloc_node_ p1).
  change (allocs_ (with_dealloc_node _ _)) with (allocs_ p1).
  assert (Hsame : with_allocs (zresize (allocs_ p1) (num_tensors g) alloc_reset)
    (with_dealloc_node (zresize (dealloc_node_ p1) (num_tensors g) kNodeNotAssigned)
      (with_alloc_node (zresize (alloc_node_ p1) (num_tensors g) kNodeNotAssigned) p1)) = p1).
  { rewrite <- Hsa at 3. rewrite <- Hsd at 2. rewrite <- plan_vectors at 1.
    rewrite !zresize_same. by destruct p1. }
  rewrite Hsame. unfold bind at 1. rewrite set_temporaries_none by (done || (unfold SIZE_MAX; lia)).
  destruct (CalculateAllocations_run h g p1 (plan_queue _ _ _ Hplan) B Hbytes HB (arena_ p)
    (persistent_arena_ p) Har Hpar) with (last := num_execution_nodes g - 1)
    as (l & n & p2 & Hrun & Hpl & Hlv & Hn & Hq); rewrite ?Hta; try done.
  { intros x r Hr. by destruct (plan_sharing _ _ _ Hplan x r Hr). }
  { lia. }
  { unfold INT32_MAX. lia. }
  { by replace (num_execution_nodes g - 1 + 1) with (num_execution_nodes g) by lia. }
  assert (Hq' : forall i tset t, 0 <= i < num_execution_nodes g ->
    (nodes_to_tensors_ p1).[i] = Some tset -> t ∈ tset ->
    has_type g kTfLiteArenaRw t -> 0 < bytes_of g t -> t ∈ l).
  { intros i tset t Hi. apply Hq. lia. }
  unfold bind at 1. rewrite Hrun. unfold bind at 1.
  pose proof Hpl as [_ _ (Ha & Hb1 & _) (Hp & Hb2 & _) _ _ _ _ _].
  destruct (Commit_arenas_run p2) as (moved & h' & b1 & b2 & -> & Hd1 & Hd2);
    [by rewrite Hb1, Har|by apply ai_mark|by rewrite Hb2, Hpar|by apply ai_mark|].
  pose proof (committed_resolvable n _ p2 b1 b2 Hpl Hn Hd1 Hd2) as Hres.
  fold (after_commit b1 b2 p2) in Hres. destruct moved.
  - destruct (resolve_placed h' p2 b1 b2 n l _ Hpl Hres Hq' zrange_valid) as (ts & -> & ?);
      [|by eauto 8]. intros t Ht. apply valid_zrange. rewrite Forall_forall in Hlv. auto.
  - destruct (resolve_placed h' p2 b1 b2 n l l Hpl Hres Hq' Hlv) as (ts & -> & ?); [done|by eauto 8].
Qed.

(** *** Tensors that are live together *)

Context (ts : list TfLiteTensor) (p2 p3 : ArenaPlanner) (l : list Z) (Hex : executed ts p2 p3 l).

Lemma executed_owner x : owner p3 x = owner p2 x /\ alloc_of p3 x = alloc_of p2 x.
Proof. by destruct (ex_committed _ _ _ _ Hex) as (b1 & b2 & ->). Qed.

Lemma uses_valid i x : uses g i x -> valid g x.
Proof.
  intros (nr & Hi & Hne & [Hx|Hx]).
  - by eapply input_valid; [apply (pb_wf _ _ _ Hpb)|..].
  - by eapply output_valid; [apply (pb_wf _ _ _ Hpb)|..].
Qed.

(** A tensor that is provided is queued, and the planner knows when it is first needed. *)
Lemma provided_queued x : provided g x ->
  zget (alloc_node_ p1) x <> kNodeNotAssigned /\
  exists i tset, 0 <= i < num_execution_nodes g /\ (nodes_to_tensors_ p1).[i] = Some tset /\ x ∈ tset.
Proof.
  pose proof (pb_nodes _ _ _ Hpb) as HN. intros [[Hv Hx]|(i & nr & Hi & Hx & Hne)].
  - destruct (plan_kept _ _ _ Hplan x Hx Hv) as [-> (tset & ? & ?)]. split; [done|].
    exists 0, tset. split_and!; [lia|lia|done|done].
  - destruct (plan_queued _ _ _ Hplan i nr x Hi Hx Hne) as [Hle (tset & ? & ?)].
    pose proof (node_bound g (pb_wf _ _ _ Hpb) i nr Hi) as Hb. split; [lia|].
    exists (Z.of_nat i), tset. apply lookup_lt_Some in Hi. unfold num_execution_nodes, zlength.
    split_and!; [lia|lia|done|done].
Qed.

(** The owner, after placement, of the buffer of a tensor in use: it is provided, of the
    same size, and alive at the node. *)
Lemma owner_alive i x : uses g i x -> has_type g kTfLiteArenaRw x -> x ∈ l ->
  let r := owner p2 x in
  valid g r /\ has_type g kTfLiteArenaRw r /\ provided g r /\ bytes_of g r = bytes_of g x /\
  actual_tensor_id_ p2 !! r = None /\
  zget (alloc_node_ p1) r <= Z.of_nat i <= zget (dealloc_node_ p1) r.
Proof.
  intros Hu Hrw Hl. destruct (ex_placed _ _ _ _ Hex) as [n [_ _ _ _ _ _ Hids Hkept Hshared]].
  pose proof (uses_valid i x Hu) as Hv.
  pose proof (plan_alive _ _ _ Hplan i x Hu) as Halive. unfold owner in Halive |- *.
  destruct (actual_tensor_id_ p2 !! x) as [r|] eqn:Hr; unfold find_shared; rewrite Hr; cbn [default].
  - pose proof (Hids x r Hr) as Hr1. unfold find_shared in Halive. rewrite Hr1 in Halive.
    cbn [default] in Halive.
    destruct (plan_sharing _ _ _ Hplan x r Hr1) as (Hvr & Hnone & (nr & Hnr & Hin) & _).
    destruct (Hshared x r Hl Hv Hr) as [Hrrw Hb].
    apply list_elem_of_lookup in Hnr as [k Hk].
    assert (Hpr : provided g r).
    { apply (pb_provided _ _ _ Hpb k r); [|done]. exists nr. split_and!; [done| |by left].
      intros ->. by destruct Hvr. }
    destruct (provided_queued r Hpr) as [Hne _].
    split_and!; [done|done|done|done| |destruct Halive as [[?|?] _]; [done|done]|apply Halive].
    destruct (actual_tensor_id_ p2 !! r) eqn:Hrr; [|done]. apply Hids in Hrr. congruence.
  - assert (Hpr : provided g x) by (by apply (pb_provided _ _ _ Hpb i)).
    destruct (provided_queued x Hpr) as [Hne _].
    assert (Hself : zget (alloc_node_ p1) x <= Z.of_nat i <= zget (dealloc_node_ p1) x).
    { unfold find_shared in Halive. destruct (actual_tensor_id_ p1 !! x) as [r|] eqn:Hr1.
      - destruct (plan_sharer _ _ _ Hplan i x r Hu Hr1) as [? ->].
        destruct Hu as (nr & Hi & _). pose proof (node_bound g (pb_wf _ _ _ Hpb) i nr Hi). lia.
      - cbn [default] in Halive. destruct Halive as [[?|?] ?]; [done|lia]. }
    split_and!; try done; apply Hself.
Qed.

(** Its range in the arena. *)
Lemma owner_entry i x : uses g i x -> has_type g kTfLiteArenaRw x -> 0 < bytes_of g x -> x ∈ l ->
  let e := alloc_of p2 (owner p2 x) in
  size e = bytes_of g x /\ tensor e = owner p2 x /\
  first_node e = zget (alloc_node_ p1) (owner p2 x) /\
  last_node e = zget (dealloc_node_ p1) (owner p2 x) /\
  e ∈ active_allocs_ (arena_ p2) /\ placed_rw g p3 x.
Proof.
  intros Hu Hrw Hpos Hl.
  destruct (owner_alive i x Hu Hrw Hl) as (Hv & Hrrw & Hpr & Hb & Hnone & _).
  destruct (provided_queued _ Hpr) as [_ (j & tset & Hj & Hts & Hin)].
  assert (Hrl : owner p2 x ∈ l) by (eapply (ex_queued _ _ _ _ Hex); eauto; lia).
  destruct (ex_placed _ _ _ _ Hex) as [n [(Hfa & Hfd & _) _ _ _ Hent Hseen _ _ _]].
  specialize (Hseen _ Hrl Hv Hrrw Hnone).
  assert (Hprw : placed_rw g p3 x).
  { unfold placed_rw. destruct (executed_owner x) as [-> _].
    destruct (executed_owner (owner p2 x)) as [_ ->]. split_and!; [done|done|lia]. }
  destruct (Hent _ Hv) as [[? _]|(Hs & Ht & Hf & [(_ & Hla & Hact)|(Hty & _)])]; [lia| |].
  - rewrite Hfa in Hf. rewrite Hfd in Hla. cbn. rewrite Hs, Hb. auto 10.
  - unfold has_type in *. congruence.
Qed.

Lemma live_disjoint i x y : live_at g i x -> live_at g i y ->
  has_type g kTfLiteArenaRw x -> has_type g kTfLiteArenaRw y ->
  0 < bytes_of g x -> 0 < bytes_of g y -> x ∈ l -> y ∈ l -> owner p3 x <> owner p3 y ->
  exists px py, data_at ts x = Some px /\ data_at ts y = Some py /\
    (px + bytes_of g x <= py \/ py + bytes_of g y <= px).
Proof.
  intros (k1 & k2 & Hk & Hx1 & Hx2) (m1 & m2 & Hm & Hy1 & Hy2) Hrx Hry Hbx Hby Hlx Hly Hne.
  destruct (executed_owner x) as [Hox _], (executed_owner y) as [Hoy _]. rewrite Hox, Hoy in Hne.
  destruct (owner_entry k1 x Hx1 Hrx Hbx Hlx) as (Hsx & Htx & Hfx & Hlax & Hinx & Hpx).
  destruct (owner_entry m1 y Hy1 Hry Hby Hly) as (Hsy & Hty & Hfy & Hlay & Hiny & Hpy).
  destruct (owner_alive k1 x Hx1 Hrx Hlx) as (_ & _ & _ & _ & _ & Ha1 & _).
  destruct (owner_alive k2 x Hx2 Hrx Hlx) as (_ & _ & _ & _ & _ & _ & Ha2).
  destruct (owner_alive m1 y Hy1 Hry Hly) as (_ & _ & _ & _ & _ & Hc1 & _).
  destruct (owner_alive m2 y Hy2 Hry Hly) as (_ & _ & _ & _ & _ & _ & Hc2).
  rewrite (ex_address _ _ _ _ Hex x Hlx Hpx), (ex_address _ _ _ _ Hex y Hly Hpy).
  eexists _, _. split_and!; [done|done|]. unfold address. rewrite Hox, Hoy.
  destruct (executed_owner (owner p2 x)) as [_ ->], (executed_owner (owner p2 y)) as [_ ->].
  destruct (ex_placed _ _ _ _ Hex) as [n [_ _ [Hinv _] _ _ _ _ _ _]].
  apply list_elem_of_lookup in Hinx as [a Hax], Hiny as [b Hby'].
  assert (Hab : a <> b) by (intros ->; congruence).
  pose proof (pairwise_elim no_clash no_clash_sym _ a b _ _ (ai_clash _ Hinv) Hab Hax Hby') as Hdis.
  unfold no_clash, intersects, disjoint_ranges, range_end in Hdis. lia.
Qed.
End Whole.

(** [x] is the first output of a node whose operator may work in place. *)
Definition in_place_output (g : GraphInfo) (x : Z) : Prop :=
  exists nr, nr ∈ gi_nodes g /\ inplace_operator (snd nr) <> kTfLiteInplaceOpNone /\
    head (node_outputs (fst nr)) = Some x.

(** Planning and placing a whole graph. *)
Lemma placed_disjoint {MM : Malloc} `{SSOk : StdSortOk} h g p B :
  placeable g p B ->
  exists h' p1 ts p3,
    PlanAllocations (PState h g p) = (Done tt, PState h g p1) /\
    ExecuteAllocations 0 (num_execution_nodes g - 1) (PState h g p1) =
      (Done tt, PState h' (with_tensors ts g) p3) /\ same_meta g ts /\
    (forall i x y, live_at g i x -> live_at g i y ->
      has_type g kTfLiteArenaRw x -> has_type g kTfLiteArenaRw y ->
      0 < bytes_of g x -> 0 < bytes_of g y -> owner p3 x <> owner p3 y ->
      exists px py, data_at ts x = Some px /\ data_at ts y = Some py /\
        (px + bytes_of g x <= py \/ py + bytes_of g y <= px)) /\
    forall x, owner p3 x <> x -> in_place_output g x.
Proof.
  intros Hpb. destruct (PlanAllocations_plan_ok h g p (pb_wf _ _ _ Hpb)) as (p1 & Hrun1 & Hplan).
  destruct (ExecuteAllocations_run h g p B Hpb p1 Hplan) as (h' & ts & p2 & p3 & l & Hrun2 & Hex).
  exists h', p1, ts, p3. split_and!; [done|done|by apply (ex_meta _ _ _ _ _ _ _ Hex)| |].
  2: { intros x Hx. rewrite (proj1 (executed_owner _ _ _ _ _ _ _ Hex x)) in Hx.
    destruct (ex_placed _ _ _ _ _ _ _ Hex) as [n [_ _ _ _ _ _ Hids _ _]].
    unfold owner, find_shared in Hx. destruct (actual_tensor_id_ p2 !! x) as [r|] eqn:Hr; [|done].
    destruct (plan_sharing _ _ _ Hplan x r (Hids x r Hr)) as (_ & _ & _ & k & nr & y & Hk%list_elem_of_lookup_2 & Hop & Hhd & _).
    by exists nr. }
  intros i x y Hx Hy Hrx Hry Hbx Hby Hne. assert (Hin : forall z, live_at g i z -> has_type g kTfLiteArenaRw z -> 0 < bytes_of g z -> z ∈ l).
  { intros z (k & _ & _ & Hz & _) Hrz Hbz.
    destruct (provided_queued g p B Hpb p1 Hplan z) as [_ (j & tset & Hj & Hts & Hzt)];
      [by apply (pb_provided _ _ _ Hpb k)|].
    by eapply (ex_queued _ _ _ _ _ _ _ Hex). }
  eapply live_disjoint; eauto.
Qed.

(** ** Properties *)

(** C2. The end-to-end guarantee of the memory planner: after [PlanAllocations] and
    [ExecuteAllocations] of the whole plan, two arena tensors that hold values at a common
    node and are not meant to share a buffer have disjoint addresses. *)
Theorem planned_tensors_never_overlap {MM : Malloc} `{SSOk : StdSortOk} h g p B :
  placeable g p B ->
  exists h' p1 ts p3,
    PlanAllocations (PState h g p) = (Done tt, PState h g p1) /\
    ExecuteAllocations 0 (num_execution_nodes g - 1) (PState h g p1) =
      (Done tt, PState h' (with_tensors ts g) p3) /\
    forall i x y, live_at g i x -> live_at g i y ->
      has_type g kTfLiteArenaRw x -> has_type g kTfLiteArenaRw y ->
      0 < bytes_of g x -> 0 < bytes_of g y -> owner p3 x <> owner p3 y ->
      exists px py, data_at ts x = Some px /\ data_at ts y = Some py /\
        (px + bytes_of g x <= py \/ py + bytes_of g y <= px).
Proof.
  intros Hpb. destruct (placed_disjoint h g p B Hpb) as (h' & p1 & ts & p3 & H1 & H2 & _ & H3 & _).
  by exists h', p1, ts, p3.
Qed.

(** [tensor_compare] is a strict weak ordering, as [std::sort] requires. *)
Theorem tensor_compare_strict_weak_order tensors p :
  strict_weak_order (tensor_compare tensors p).
Proof. apply tensor_compare_weak_order. Qed.

(** The exception to sharing being safe: in [reshape_graph] tensors 2 and 3 are unmodified
    views of tensor 1, so the reference counts of 3 and of the owner 1 are both one when node
    3 asks to update 3 in place.  The output of node 3 then takes the buffer of tensor 2,
    which node 4 has still to read. *)
Theorem in_place_update_overwrites_live_input :
  let run := @ExecuteAllocations bump_place insertion_sort 0 4
    (snd (PlanAllocations (PState heap_empty reshape_graph example_planner))) in
  fst run = Done tt /\
  data_at (gi_tensors (ps_graph (snd run))) 2 = data_at (gi_tensors (ps_graph (snd run))) 4 /\
  is_Some (data_at (gi_tensors (ps_graph (snd run))) 2) /\
  gi_nodes reshape_graph !! 3%nat = Some (example_op kTfLiteInplaceOpInput0Shared [3] [4]) /\
  gi_nodes reshape_graph !! 4%nat = Some (example_op kTfLiteInplaceOpNone [2; 4] [5]).
Proof. vm_compute. split_and!; [done|done|by eexists|done|done]. Qed.

(** *** Witnesses *)

Lemma reshape_graph_valid t : valid reshape_graph t ->
  t = 0 \/ t = 1 \/ t = 2 \/ t = 3 \/ t = 4 \/ t = 5.
Proof. unfold valid. change (num_tensors reshape_graph) with 6. lia. Qed.

Ltac written_by k := exists k; eexists; split; [reflexivity|split; [by left|done]].

Lemma reshape_graph_placeable : placeable reshape_graph example_planner 16.
Proof.
  split.
  - apply reshape_graph_wf.
  - intros t Ht%reshape_graph_valid. by decompose [or] Ht; subst; vm_compute.
  - lia.
  - done.
  - by repeat constructor.
  - by repeat split.
  - done.
  - by vm_compute.
  - intros i x (nr & Hi & Hne & Hx) _.
    destruct i as [|[|[|[|[|i]]]]]; cbn in Hi; [..|done]; injection Hi as <-; cbn in Hx;
      rewrite ?elem_of_cons, ?elem_of_nil in Hx; decompose [or] Hx; subst; try done;
      (left; split; [by vm_compute|cbn; by left]) ||
      (right; written_by 0%nat) || (right; written_by 1%nat) || (right; written_by 2%nat) ||
      (right; written_by 3%nat) || (right; written_by 4%nat).
Qed.

Lemma planned_tensors_never_overlap_witness :
  exists h' p1 ts p3,
    PlanAllocations (PState heap_empty reshape_graph example_planner) =
      (Done tt, PState heap_empty reshape_graph p1) /\
    @ExecuteAllocations bump_place insertion_sort 0 4 (PState heap_empty reshape_graph p1) =
      (Done tt, PState h' (with_tensors ts reshape_graph) p3) /\
    forall i x y, live_at reshape_graph i x -> live_at reshape_graph i y ->
      has_type reshape_graph kTfLiteArenaRw x -> has_type reshape_graph kTfLiteArenaRw y ->
      0 < bytes_of reshape_graph x -> 0 < bytes_of reshape_graph y -> owner p3 x <> owner p3 y ->
      exists px py, data_at ts x = Some px /\ data_at ts y = Some py /\
        (px + bytes_of reshape_graph x <= py \/ py + bytes_of reshape_graph y <= px).
Proof.
  apply (@planned_tensors_never_overlap bump_place insertion_sort insertion_sort_ok heap_empty
    reshape_graph example_planner 16).
  apply reshape_graph_placeable.
Defined.
