(* ===== verification/ArenaInstance.v ===== *)
(** * The arena planner is a memory planner

    The operations of the arena planner, as an instance of the interface the subgraph uses,
    and the frame they respect. *)
From S2P Require Import Prelude Heap MemoryArena Common GraphInfo MemoryPlanner.
From S2P Require ArenaPlanner.
#[local] Open Scope Z_scope.

Import ArenaPlanner.

(** A call of the arena planner on the state of the interface. *)
Definition on_planner {A} (c : M pstate A) : M (mp_state ArenaPlanner) A :=
  zoom (fun s => PState (mp_heap s) (mp_graph s) (mp_planner s))
       (fun t _ => MPState (ps_heap t) (ps_graph t) (ps_planner t)) c.

#[global] Instance ArenaPlanner_MemoryPlanner `{Malloc} `{StdSort} : MemoryPlanner ArenaPlanner := {
  MemoryPlanner.PlanAllocations := on_planner PlanAllocations;
  MemoryPlanner.ExecuteAllocations first last := on_planner (ExecuteAllocations first last);
  MemoryPlanner.ResetAllocations := on_planner ResetAllocations;
  MemoryPlanner.ResetAllocationsAfter n := on_planner (ResetAllocationsAfter n);
  MemoryPlanner.ReleaseNonPersistentMemory := on_planner ReleaseNonPersistentMemory;
  MemoryPlanner.AcquireNonPersistentMemory := on_planner AcquireNonPersistentMemory;
  MemoryPlanner.HasNonPersistentMemory := on_planner HasNonPersistentMemory;
  MemoryPlanner.delete_planner := on_planner ArenaPlanner_delete;
}.

Lemma on_planner_framed {A} (c : M pstate A) :
  framed ps_graph c -> framed mp_graph (on_planner c).
Proof.
  intros Hc s. specialize (Hc (PState (mp_heap s) (mp_graph s) (mp_planner s))).
  unfold on_planner, zoom. by destruct (c _).
Qed.

(** ** The frame *)

Lemma graph_info_framed : framed ps_graph graph_info.
Proof. intros s. unfold graph_rel. reflexivity. Qed.

Lemma this_framed : framed ps_graph this.
Proof. intros s. unfold graph_rel. reflexivity. Qed.

Lemma set_this_framed f : framed ps_graph (set_this f).
Proof. unfold set_this. apply respects_modify. intros s. unfold graph_rel. reflexivity. Qed.

Lemma tensor_at_eq i s : tensor_at i s =
  match (gi_tensors (ps_graph s)).[i] with Some t => (Done t, s) | None => (Undef, s) end.
Proof. unfold tensor_at, bind, graph_info. by destruct ((gi_tensors _).[i]). Qed.

Lemma tensor_at_framed i : framed ps_graph (tensor_at i).
Proof. intros s. rewrite tensor_at_eq. unfold graph_rel. by destruct ((gi_tensors _).[i]). Qed.

Lemma set_tensor_data_framed i ptr : framed_at ps_graph i (set_tensor_data i ptr).
Proof.
  apply (framed_at_set_data _ i ptr). intros s t Ht. unfold set_tensor_data.
  rewrite (bind_done graph_info _ s (ps_graph s) s) by done.
  rewrite (bind_done _ _ s t s) by (by rewrite tensor_at_eq, Ht).
  apply zlookup_some in Ht as [Hr _]. by rewrite (bind_access _ _ _ _ (zinsert_zset _ _ _ Hr)).
Qed.
#[local] Hint Resolve graph_info_framed this_framed set_this_framed tensor_at_framed
  set_tensor_data_framed : respects.

(** As [frame], for the planner's own reads of a tensor. *)
Ltac arena_frame := repeat first
  [ progress intros
  | match goal with
    | |- framed ps_graph (bind (tensor_at ?i) _) =>
      apply (framed_tensor_bind _ i); split_tensor; [apply tensor_at_eq|..]
    end
  | frame_step
  | solve [eauto 3 with respects] ].

Lemma on_arena_framed {A} (c : M (heap * SimpleMemoryArena) A) : framed ps_graph (on_arena c).
Proof. unfold on_arena. apply respects_zoom. intros t s. unfold graph_rel. reflexivity. Qed.

Lemma on_persistent_arena_framed {A} (c : M (heap * SimpleMemoryArena) A) :
  framed ps_graph (on_persistent_arena c).
Proof. unfold on_persistent_arena. apply respects_zoom. intros t s. unfold graph_rel. reflexivity. Qed.
#[local] Hint Resolve on_arena_framed on_persistent_arena_framed : respects.

Lemma first_shareable_framed flags ot o changed i inputs :
  framed ps_graph (first_shareable flags ot o changed i inputs).
Proof.
  revert i. induction inputs as [|x inputs IH]; intros i; [apply respects_ret; exact _|].
  cbn [first_shareable]. unfold InputTensorCanBeShared. arena_frame.
Qed.
#[local] Hint Resolve first_shareable_framed : respects.

Lemma identify_node_framed nr : framed ps_graph (identify_node nr).
Proof. unfold identify_node, FindSharedTensor. arena_frame. Qed.
#[local] Hint Resolve identify_node_framed : respects.

Lemma arena_ResetAllocations_framed : framed ps_graph ResetAllocations.
Proof. unfold ResetAllocations. arena_frame. Qed.
#[local] Hint Resolve arena_ResetAllocations_framed : respects.

Lemma PlanAllocations_framed : framed ps_graph PlanAllocations.
Proof.
  unfold PlanAllocations, start_plan, plan_pinned, count_node_inputs, IdentifyInPlaceTensors,
    count_shared_inputs, plan_nodes, plan_outputs, plan_inputs, incr_refcount, allocate, deallocate,
    queue_tensor, FindSharedTensor. arena_frame.
Qed.

Lemma ResetAllocationsAfter_framed `{StdSort} n : framed ps_graph (ResetAllocationsAfter n).
Proof. unfold ResetAllocationsAfter. arena_frame. Qed.

(** The address of a tensor is written only when it is an arena tensor. *)
Lemma resolve_own_framed i t : 
  (arena_type t = true -> framed_at ps_graph i (resolve_own i t)) /\
  (arena_type t = false -> framed ps_graph (resolve_own i t)).
Proof.
  split; unfold resolve_own; intros Ha.
  - arena_frame.
  - apply arena_type_false in Ha as [-> ->]. arena_frame.
Qed.

Lemma same_arena_type r t : AreTensorsAllocatedInSameArena r t = true -> arena_type t = true.
Proof.
  unfold AreTensorsAllocatedInSameArena, arena_type. rewrite !orb_true_iff, !andb_true_iff. tauto.
Qed.

Lemma respects_ignore {S} (R : S -> S -> Prop) `{!PreOrder R} (c : M S unit) : respects R c ->
  respects R (fun s => match c s with (Fail _, s') => (Done tt, s') | res => res end).
Proof. intros Hc s. specialize (Hc s). by destruct (c s) as [[a|e|] s']. Qed.

Lemma resolve_framed fuel i : framed ps_graph (ResolveTensorAllocation fuel i).
Proof.
  revert i. induction fuel as [|fuel IH]; intros i; [apply respects_undef; exact _|].
  cbn [ResolveTensorAllocation]. unfold resolve_step.
  apply respects_bind; [exact _|apply this_framed|intros p].
  apply (framed_tensor_bind _ i); [apply tensor_at_eq| |]; intros t Ha.
  - arena_frame.
    + apply framed_framed_at, respects_ignore; [exact _|apply IH].
    + by apply resolve_own_framed.
  - apply respects_bind; [exact _|apply tensor_at_framed|intros r].
    destruct (AreTensorsAllocatedInSameArena r t) eqn:Hs; [apply same_arena_type in Hs; congruence|].
    rewrite andb_false_r. by apply resolve_own_framed.
Qed.
#[local] Hint Resolve resolve_framed : respects.

Section Framed.
Context {MM : Malloc} {SS : StdSort}.

Lemma ExecuteAllocations_framed first last : framed ps_graph (ExecuteAllocations first last).
Proof.
  unfold ExecuteAllocations, set_temporaries, CalculateAllocations, GetTensorsToAllocate,
    tensors_to_place, CreateTensorAllocationVector, place_tensor, still_shared, place_rw,
    place_persistent, store_alloc, Commit_arenas, queue_tensor. arena_frame.
Qed.

Lemma ReleaseNonPersistentMemory_framed : framed ps_graph ReleaseNonPersistentMemory.
Proof. unfold ReleaseNonPersistentMemory. arena_frame. Qed.

Lemma AcquireNonPersistentMemory_framed : framed ps_graph AcquireNonPersistentMemory.
Proof. unfold AcquireNonPersistentMemory. arena_frame. Qed.

#[global] Instance ArenaPlanner_ok : MemoryPlannerOk ArenaPlanner.
Proof.
  split; intros; apply on_planner_framed.
  - apply PlanAllocations_framed.
  - apply ExecuteAllocations_framed.
  - apply arena_ResetAllocations_framed.
  - apply ResetAllocationsAfter_framed.
  - apply ReleaseNonPersistentMemory_framed.
  - apply AcquireNonPersistentMemory_framed.
  - unfold HasNonPersistentMemory. arena_frame.
Qed.
End Framed.
