(* ===== verification/SimplePlanner.v ===== *)
(** * The simple planner (tensorflow/lite/simple_planner.{h,cc})

    A memory planner that gives every tensor a block of its own with [malloc]; it stands in
    for the arena planner in builds for the address sanitizer. *)
From S2P Require Import Prelude Heap Common GraphInfo MemoryPlanner.
#[local] Open Scope Z_scope.

Definition kNodeNotAssigned : Z := INT32_MAX.

(** ** Allocation records *)

Record SimpleAlloc := mkSimpleAlloc { size : Z; node : Z; ptr : Z }.

Definition SimpleAlloc_reset : SimpleAlloc := mkSimpleAlloc 0 0 0.

Section Alloc.
Context {MM : Malloc}.

(** The assertion stops the program. *)
Definition SimpleAlloc_alloc (a : SimpleAlloc) (new_size new_first_node : Z)
    : M heap (bool * SimpleAlloc) :=
  if new_size =? 0 then ret (false, a)
  else if negb (ptr a =? 0) then undef
  else let* p := malloc new_size in ret (true, mkSimpleAlloc new_size new_first_node p).

Definition SimpleAlloc_free (a : SimpleAlloc) : M heap SimpleAlloc :=
  (if negb (ptr a =? 0) then free (ptr a) else ret tt) ;;; ret SimpleAlloc_reset.

(** ** The planner *)

Record SimplePlanner := mkSimplePlanner {
  allocs_ : list SimpleAlloc; alloc_node_ : list Z; dealloc_node_ : list Z }.

Definition SimplePlanner_init : SimplePlanner := mkSimplePlanner [] [] [].

Definition with_allocs v (p : SimplePlanner) := mkSimplePlanner v (alloc_node_ p) (dealloc_node_ p).
Definition with_alloc_node v (p : SimplePlanner) := mkSimplePlanner (allocs_ p) v (dealloc_node_ p).
Definition with_dealloc_node v (p : SimplePlanner) := mkSimplePlanner (allocs_ p) (alloc_node_ p) v.

Definition sstate : Type := mp_state SimplePlanner.

(** [allocs_[i].free()]. *)
Definition free_alloc (i : Z) : M sstate unit :=
  let* p := mp_this in
  let* a := access ((allocs_ p).[i]) in
  let* a := mp_on_heap (SimpleAlloc_free a) in
  let* v := access (zinsert (allocs_ p) i a) in
  mp_set_this (with_allocs v).

Definition FreeAllAllocations : M sstate unit :=
  let* p := mp_this in
  for_each (zrange 0 (zlength (allocs_ p) - 1)) free_alloc.

Definition SimplePlanner_delete : M sstate unit := FreeAllAllocations.

Definition ResetAllocations : M sstate unit :=
  FreeAllAllocations ;;;
  mp_set_this (with_allocs []) ;;;
  let* g := mp_graph_info in
  mp_set_this (with_allocs (zresize [] (num_tensors g) SimpleAlloc_reset)).

Definition ResetAllocationsAfter (node : Z) : M sstate unit :=
  let* p := mp_this in
  for_each (zrange 0 (zlength (allocs_ p) - 1)) (fun i =>
    let* p := mp_this in
    let* a := access ((allocs_ p).[i]) in
    if (node <? SimplePlanner.node a) && (0 <? size a) then
      let* t := mp_tensor i in
      if bool_decide (t_allocation_type t = kTfLiteArenaRw)
      then free_alloc i ;;; mp_set_tensor_data i 0
      else ret tt
    else ret tt).

(** ** Planning *)

(** The lambdas [allocate] and [deallocate] of [PlanAllocations]. *)
Definition allocate (node tensor : Z) : M sstate unit :=
  let* p := mp_this in
  let* a := access ((alloc_node_ p).[tensor]) in
  if negb (a =? kNodeNotAssigned) then ret tt
  else
    let* d := access ((dealloc_node_ p).[tensor]) in
    ensure (d =? kNodeNotAssigned) ;;;
    let* v := access (zinsert (alloc_node_ p) tensor node) in
    mp_set_this (with_alloc_node v).

Definition deallocate (node tensor : Z) : M sstate unit :=
  let* p := mp_this in
  let* a := access ((alloc_node_ p).[tensor]) in
  if a =? kNodeNotAssigned then ret tt
  else
    let* d := access ((dealloc_node_ p).[tensor]) in
    ensure (d =? kNodeNotAssigned) ;;;
    let* v := access (zinsert (dealloc_node_ p) tensor node) in
    mp_set_this (with_dealloc_node v).

(** [refcounts[tensor] += delta] on the local vector. *)
Definition add_count (refcounts : list Z) (tensor delta : Z) : option (list Z) :=
  match refcounts.[tensor] with
  | Some c => zinsert refcounts tensor (c + delta)
  | None => None
  end.

Definition start_plan : M sstate (list Z) :=
  ResetAllocations ;;;
  let* g := mp_graph_info in
  let unassigned := replicate (Z.to_nat (num_tensors g)) kNodeNotAssigned in
  mp_set_this (with_alloc_node unassigned) ;;;
  mp_set_this (with_dealloc_node unassigned) ;;;
  ret (replicate (Z.to_nat (num_tensors g)) 0).

Definition plan_pinned (rc : list Z) : M sstate (list Z) :=
  let* g := mp_graph_info in
  let* rc := for_fold (gi_outputs g) rc (fun rc t =>
    if negb (t =? kTfLiteOptionalTensor) then access (add_count rc t 1) else ret rc) in
  let* rc := for_fold (gi_variables g) rc (fun rc t =>
    let* rc := access (add_count rc t 1) in
    ensure (negb (t =? kTfLiteOptionalTensor)) ;;;
    allocate 0 t ;;; ret rc) in
  for_fold (gi_inputs g) rc (fun rc t =>
    if negb (t =? kTfLiteOptionalTensor)
    then let* rc := access (add_count rc t 1) in allocate 0 t ;;; ret rc
    else ret rc).

Definition count_inputs (rc : list Z) : M sstate (list Z) :=
  let* g := mp_graph_info in
  for_fold (gi_nodes g) rc (fun rc nr =>
    for_fold (node_inputs (fst nr)) rc (fun rc t =>
      if negb (t =? kTfLiteOptionalTensor) then access (add_count rc t 1) else ret rc)).

(** Outputs are queued without a test for [kTfLiteOptionalTensor]. *)
Definition plan_outputs (i : Z) (node : TfLiteNode) : M sstate unit :=
  for_each (node_outputs node) (fun t => allocate i t).

Definition plan_inputs (i : Z) (node : TfLiteNode) (rc : list Z) : M sstate (list Z) :=
  for_fold (node_inputs node) rc (fun rc t =>
    if negb (t =? kTfLiteOptionalTensor) then
      let* rc := access (add_count rc t (-1)) in
      let* c := access (rc.[t]) in
      (if c =? 0 then deallocate i t else ret tt) ;;;
      ret rc
    else ret rc).

Definition plan_nodes (rc : list Z) : M sstate (list Z) :=
  let* g := mp_graph_info in
  for_fold (enumerate (gi_nodes g)) rc (fun rc inr =>
    let '(i, (node, _)) := inr in
    plan_outputs i node ;;; plan_inputs i node rc).

Definition PlanAllocations : M sstate unit :=
  let* rc := start_plan in
  let* rc := plan_pinned rc in
  let* rc := count_inputs rc in
  plan_nodes rc ;;;
  ret tt.

(** ** Placing the tensors *)

Definition ResolveTensorAllocation (tensor_index : Z) : M sstate unit :=
  let* t := mp_tensor tensor_index in
  (if bool_decide (t_allocation_type t = kTfLiteArenaRw) then
     let* p := mp_this in
     let* a := access ((allocs_ p).[tensor_index]) in
     if negb (size a =? 0) then mp_set_tensor_data tensor_index (ptr a) else ret tt
   else ret tt) ;;;
  (if bool_decide (t_allocation_type t = kTfLiteArenaRwPersistent) then
     let* p := mp_this in
     let* a := access ((allocs_ p).[tensor_index]) in
     mp_set_tensor_data tensor_index (ptr a)
   else ret tt).

(** The bounds of the loop are compared as [size_t]. *)
Definition set_temporaries (first_node last_node : Z) : M sstate unit :=
  let* g := mp_graph_info in
  for_each (zrange (size_wrap first_node) (Z.min (size_wrap last_node) (num_execution_nodes g - 1))) (fun i =>
    let* nr := access ((gi_nodes g).[i]) in
    for_each (node_temporaries (fst nr)) (fun t =>
      let* p := mp_this in
      let* v := access (zinsert (alloc_node_ p) t i) in
      mp_set_this (with_alloc_node v) ;;;
      let* p := mp_this in
      let* v := access (zinsert (dealloc_node_ p) t i) in
      mp_set_this (with_dealloc_node v))).

(** [allocs_[i].alloc(bytes, node)]. *)
Definition alloc_tensor (i bytes : Z) : M sstate bool :=
  let* p := mp_this in
  let* a := access ((allocs_ p).[i]) in
  let* n := access ((alloc_node_ p).[i]) in
  let* r := mp_on_heap (SimpleAlloc_alloc a bytes n) in
  let* v := access (zinsert (allocs_ p) i (snd r)) in
  mp_set_this (with_allocs v) ;;;
  ret (fst r).

Definition place_tensor (first_node last_node i : Z) : M sstate unit :=
  let* p := mp_this in
  let* n := access ((alloc_node_ p).[i]) in
  let* allocated :=
    (if (first_node <=? n) && (n <=? last_node) then
       let* t := mp_tensor i in
       let* a := access ((allocs_ p).[i]) in
       if bool_decide (t_allocation_type t = kTfLiteArenaRw) then
         (if negb (size a =? 0) then free_alloc i else ret tt) ;;;
         alloc_tensor i (t_bytes t)
       else if bool_decide (t_allocation_type t = kTfLiteArenaRwPersistent) && (size a =? 0)
       then alloc_tensor i (t_bytes t)
       else ret false
     else ret false) in
  if allocated : bool then ResolveTensorAllocation i else ret tt.

Definition ExecuteAllocations (first_node last_node : Z) : M sstate unit :=
  let* g := mp_graph_info in
  mp_set_this (fun p => with_alloc_node (zresize (alloc_node_ p) (num_tensors g) kNodeNotAssigned) p) ;;;
  mp_set_this (fun p => with_dealloc_node (zresize (dealloc_node_ p) (num_tensors g) kNodeNotAssigned) p) ;;;
  mp_set_this (fun p => with_allocs (zresize (allocs_ p) (num_tensors g) SimpleAlloc_reset) p) ;;;
  set_temporaries first_node last_node ;;;
  for_each (zrange 0 (num_tensors g - 1)) (place_tensor first_node last_node).

Definition ReleaseNonPersistentMemory : M sstate unit :=
  let* g := mp_graph_info in
  for_each (zrange 0 (num_tensors g - 1)) (fun i =>
    let* t := mp_tensor i in
    if bool_decide (t_allocation_type t = kTfLiteArenaRw)
    then free_alloc i ;;; mp_set_tensor_data i 0
    else ret tt).

Definition AcquireNonPersistentMemory : M sstate unit :=
  let* g := mp_graph_info in
  for_each (zrange 0 (num_tensors g - 1)) (fun i =>
    let* t := mp_tensor i in
    if bool_decide (t_allocation_type t = kTfLiteArenaRw) then ResolveTensorAllocation i else ret tt).

Definition HasNonPersistentMemory : M sstate bool := ret true.

#[global] Instance SimplePlanner_MemoryPlanner : MemoryPlanner SimplePlanner := {
  MemoryPlanner.PlanAllocations := PlanAllocations;
  MemoryPlanner.ExecuteAllocations := ExecuteAllocations;
  MemoryPlanner.ResetAllocations := ResetAllocations;
  MemoryPlanner.ResetAllocationsAfter := ResetAllocationsAfter;
  MemoryPlanner.ReleaseNonPersistentMemory := ReleaseNonPersistentMemory;
  MemoryPlanner.AcquireNonPersistentMemory := AcquireNonPersistentMemory;
  MemoryPlanner.HasNonPersistentMemory := HasNonPersistentMemory;
  MemoryPlanner.delete_planner := SimplePlanner_delete;
}.
End Alloc.

(** ** The interface of the subgraph *)

Section Frame.
Context {MM : Malloc}.

Lemma free_alloc_framed i : framed mp_graph (free_alloc i).
Proof. unfold free_alloc, mp_on_heap, mp_set_this. frame. Qed.

Lemma alloc_tensor_framed i bytes : framed mp_graph (alloc_tensor i bytes).
Proof. unfold alloc_tensor, mp_on_heap, mp_set_this. frame. Qed.
#[local] Hint Resolve free_alloc_framed alloc_tensor_framed : respects.

Lemma ResolveTensorAllocation_framed i : framed mp_graph (ResolveTensorAllocation i).
Proof. unfold ResolveTensorAllocation. frame. Qed.
#[local] Hint Resolve ResolveTensorAllocation_framed : respects.

Lemma ResetAllocations_framed : framed mp_graph ResetAllocations.
Proof. unfold ResetAllocations, FreeAllAllocations, mp_set_this. frame. Qed.
#[local] Hint Resolve ResetAllocations_framed : respects.

#[global] Instance SimplePlanner_ok : MemoryPlannerOk SimplePlanner.
Proof.
  split; intros; cbn.
  - unfold PlanAllocations, start_plan, plan_pinned, count_inputs, plan_nodes, plan_outputs,
      plan_inputs, allocate, deallocate, mp_set_this. frame.
  - unfold ExecuteAllocations, set_temporaries, place_tensor, mp_set_this. frame.
  - unfold ResetAllocations, FreeAllAllocations, mp_set_this. frame.
  - unfold ResetAllocationsAfter. frame.
  - unfold ReleaseNonPersistentMemory. frame.
  - unfold AcquireNonPersistentMemory. frame.
  - unfold HasNonPersistentMemory. frame.
Qed.
End Frame.
