(* ===== verification/SimplePlannerProof.v ===== *)
(** * What the simple planner promises

    The planner owns the blocks its records point to and nothing else: no operation frees a
    block twice, frees a block of someone else or loses one, and destroying the planner
    releases exactly its blocks.  Tensors placed by it have blocks of their own. *)
From S2P Require Import Prelude Heap Common GraphInfo MemoryPlanner SimplePlanner.
#[local] Open Scope Z_scope.

(** ** Ownership *)

Definition ptrs (s : sstate) : list Z := ptr <$> allocs_ (mp_planner s).

(** The live blocks of everybody else. *)
Definition foreign (s : sstate) : gmap Z Z :=
  filter (fun bm => bm.1 ∉ ptrs s) (live (mp_heap s)).

(** Every record is empty, or points to a live block of its size that no other record has. *)
Record owns (s : sstate) : Prop := {
  owns_wf : heap_wf (mp_heap s);
  owns_block : forall i a, allocs_ (mp_planner s) !! i = Some a -> ptr a <> 0 ->
    live (mp_heap s) !! ptr a = Some (size a);
  owns_inj : forall i j a b, allocs_ (mp_planner s) !! i = Some a ->
    allocs_ (mp_planner s) !! j = Some b -> ptr a <> 0 -> ptr a = ptr b -> i = j;
  owns_null : forall i a, allocs_ (mp_planner s) !! i = Some a -> size a = 0 -> ptr a = 0;
}.

Definition bytes_ok (g : GraphInfo) : Prop := Forall (fun t => 0 <= t_bytes t) (gi_tensors g).

(** What every operation keeps. *)
Definition keeps (s s' : sstate) : Prop :=
  owns s -> bytes_ok (mp_graph s) ->
  owns s' /\ bytes_ok (mp_graph s') /\ foreign s' = foreign s.

#[global] Instance keeps_preorder : PreOrder keeps.
Proof.
  split; [by intros s ? ?|]. intros s1 s2 s3 H12 H23 H1 H2.
  destruct (H12 H1 H2) as (H3 & H4 & <-). by apply H23.
Qed.

Lemma foreign_lookup s p m : foreign s !! p = Some m <-> live (mp_heap s) !! p = Some m /\ p ∉ ptrs s.
Proof. unfold foreign. apply map_lookup_filter_Some. Qed.

(** The same records and blocks. *)
Lemma keeps_same s s' : mp_heap s' = mp_heap s -> allocs_ (mp_planner s') = allocs_ (mp_planner s) ->
  (bytes_ok (mp_graph s) -> bytes_ok (mp_graph s')) -> keeps s s'.
Proof.
  intros Hh Hp Hb [Hwf Hbl Hinj Hnull] Hok. split_and!; [|by apply Hb|].
  - split; rewrite ?Hh, ?Hp; done.
  - unfold foreign, ptrs. by rewrite Hh, Hp.
Qed.

Lemma keeps_set_this f : (forall p, allocs_ (f p) = allocs_ p) -> respects keeps (mp_set_this f).
Proof. intros Hf s. by apply keeps_same; cbn. Qed.

Lemma keeps_graph_info : respects keeps mp_graph_info.
Proof. intros s. reflexivity. Qed.
Lemma keeps_this : respects keeps mp_this.
Proof. intros s. reflexivity. Qed.
Lemma keeps_tensor i : respects keeps (mp_tensor i).
Proof. intros s. rewrite mp_tensor_run. by destruct ((gi_tensors _).[i]). Qed.

Lemma keeps_set_tensor_data i p : respects keeps (mp_set_tensor_data i p).
Proof.
  intros s. rewrite mp_set_tensor_data_run.
  destruct ((gi_tensors (mp_graph s)).[i]) as [t|] eqn:Ht; [|done].
  pose proof (proj1 (zlookup_some _ _ _) Ht) as [Hr Hl].
  apply keeps_same; [done..|]. cbn. intros Hb. unfold bytes_ok in *. cbn. unfold zset.
  apply Forall_insert; [done|]. cbn. rewrite Forall_lookup in Hb. by eapply Hb.
Qed.
#[local] Hint Resolve keeps_graph_info keeps_this keeps_tensor keeps_set_tensor_data : respects.
#[local] Hint Extern 2 (respects keeps (mp_set_this _)) => (apply keeps_set_this; intros; reflexivity) : respects.

Section Owner.
Context {MM : Malloc} {MMOk : MallocOk}.

Lemma zset_lookup_cases {A} (l : list A) i v j a : 0 <= i < zlength l -> zset l i v !! j = Some a ->
  (j = Z.to_nat i /\ a = v) \/ (j <> Z.to_nat i /\ l !! j = Some a).
Proof.
  intros Hi Hj. unfold zset in Hj. destruct (decide (j = Z.to_nat i)) as [->|Hne].
  - left. rewrite list_lookup_insert_eq in Hj by (unfold zlength in *; lia). by simplify_eq.
  - right. by rewrite list_lookup_insert_ne in Hj by done.
Qed.

(** [allocs_[i] = v] *)
Definition with_alloc (i : Z) (v : SimpleAlloc) (h : heap) (s : sstate) : sstate :=
  MPState h (mp_graph s) (with_allocs (zset (allocs_ (mp_planner s)) i v) (mp_planner s)).

(** Another record than [i] points to [p]. *)
Definition other (s : sstate) (i p : Z) : Prop :=
  exists j b, j <> Z.to_nat i /\ allocs_ (mp_planner s) !! j = Some b /\ ptr b = p.

Lemma elem_of_ptrs s i a p : (allocs_ (mp_planner s)).[i] = Some a ->
  p ∈ ptrs s <-> p = ptr a \/ other s i p.
Proof.
  intros [Hr Hi]%zlookup_some. unfold ptrs, other. rewrite list_elem_of_fmap.
  setoid_rewrite list_elem_of_lookup. split.
  - intros (b & -> & j & Hj). destruct (decide (j = Z.to_nat i)) as [->|]; [left; congruence|].
    right. by exists j, b.
  - intros [->|(j & b & _ & Hj & <-)]; eauto.
Qed.

Lemma other_with_alloc s i v h p : 0 <= i < zlength (allocs_ (mp_planner s)) ->
  other (with_alloc i v h s) i p <-> other s i p.
Proof.
  intros Hr. unfold other. cbn. split; intros (j & b & Hne & Hj & Hp); exists j, b; split_and!; try done.
  - by destruct (zset_lookup_cases _ _ _ _ _ Hr Hj) as [[]|[]].
  - unfold zset. by rewrite list_lookup_insert_ne by done.
Qed.

Lemma foreign_with_alloc s i a v h : (allocs_ (mp_planner s)).[i] = Some a ->
  (forall p m, ~ other s i p ->
     (live h !! p = Some m /\ p <> ptr v <-> live (mp_heap s) !! p = Some m /\ p <> ptr a)) ->
  foreign (with_alloc i v h s) = foreign s.
Proof.
  intros Hi Hlive. pose proof (proj1 (zlookup_some _ _ _) Hi) as [Hr _].
  apply map_eq. intros p. apply option_eq. intros m. rewrite !foreign_lookup.
  rewrite (elem_of_ptrs s i a p Hi), (elem_of_ptrs (with_alloc i v h s) i v p), other_with_alloc by
    (done || (cbn; by rewrite zlookup_zset, Z.eqb_refl)).
  cbn [mp_heap with_alloc]. specialize (Hlive p m). tauto.
Qed.

(** Freeing the block of record [i]. *)
Lemma free_alloc_run s i a : (allocs_ (mp_planner s)).[i] = Some a -> owns s ->
  exists h', free_alloc i s = (Done tt, with_alloc i SimpleAlloc_reset h' s) /\
    owns (with_alloc i SimpleAlloc_reset h' s) /\
    foreign (with_alloc i SimpleAlloc_reset h' s) = foreign s /\
    live h' = (if ptr a =? 0 then live (mp_heap s) else delete (ptr a) (live (mp_heap s))).
Proof.
  intros Hi Hown. pose proof Hown as [Hwf Hbl Hinj Hnull].
  pose proof (proj1 (zlookup_some _ _ _) Hi) as [Hr Hl].
  assert (Hfree : exists h', SimpleAlloc_free a (mp_heap s) = (Done SimpleAlloc_reset, h') /\ heap_wf h' /\
    live h' = (if ptr a =? 0 then live (mp_heap s) else delete (ptr a) (live (mp_heap s)))).
  { unfold SimpleAlloc_free, bind. destruct (Z.eqb_spec (ptr a) 0) as [|Hne]; [by eexists|]. cbn [negb].
    destruct (free_live (mp_heap s) (ptr a) (size a) Hwf (Hbl _ _ Hl Hne)) as [-> ?]. by eexists. }
  destruct Hfree as (h' & Hf & Hwf' & Hlive). exists h'. unfold with_alloc. split.
  { unfold free_alloc. rewrite (bind_done mp_this _ s (mp_planner s) s) by done.
    rewrite (bind_access _ _ _ _ Hi). unfold bind at 1, mp_on_heap, zoom. rewrite Hf.
    by rewrite (bind_access _ _ _ _ (zinsert_zset _ _ _ Hr)). }
  assert (Hother : forall j b, j <> Z.to_nat i -> allocs_ (mp_planner s) !! j = Some b -> ptr b <> 0 ->
    ptr b <> ptr a).
  { intros j b Hj Hb Hn Heq. apply Hj. by eapply Hinj. }
  split; [split; cbn|split; [|done]].
  - done.
  - intros j b Hj Hb. destruct (zset_lookup_cases _ _ _ _ _ Hr Hj) as [[-> ->]|[Hne Hjb]]; [done|].
    rewrite Hlive. destruct (ptr a =? 0); [by eapply Hbl|].
    rewrite lookup_delete_ne by (intros ?; by eapply Hother). by eapply Hbl.
  - intros j k b c Hj Hk Hb Heq.
    destruct (zset_lookup_cases _ _ _ _ _ Hr Hj) as [[-> ->]|[Hne Hjb]]; [done|].
    destruct (zset_lookup_cases _ _ _ _ _ Hr Hk) as [[-> ->]|[Hne' Hkc]]; [done|]. by eapply Hinj.
  - intros j b Hj. destruct (zset_lookup_cases _ _ _ _ _ Hr Hj) as [[-> ->]|[Hne Hjb]]; [done|].
    by eapply Hnull.
  - apply (foreign_with_alloc s i a); [done|]. intros p m _. cbn [ptr SimpleAlloc_reset]. rewrite Hlive.
    destruct (Z.eqb_spec (ptr a) 0) as [->|Hz]; [done|]. rewrite lookup_delete_Some.
    split; [intros [[? ?] ?]; done|]. intros [Hp ?]. split; [by split|].
    pose proof (heap_wf_range _ Hwf _ _ Hp). lia.
Qed.

(** A new block for the empty record [i]. *)
Lemma alloc_tensor_run s i a n bytes : (allocs_ (mp_planner s)).[i] = Some a -> ptr a = 0 ->
  (alloc_node_ (mp_planner s)).[i] = Some n -> 0 <= bytes -> owns s ->
  exists v h', alloc_tensor i bytes s = (Done (negb (bytes =? 0)), with_alloc i v h' s) /\
    owns (with_alloc i v h' s) /\ foreign (with_alloc i v h' s) = foreign s /\
    (if bytes =? 0 then v = a /\ h' = mp_heap s
     else size v = bytes /\ (ptr v <> 0 -> fresh_block (mp_heap s) (ptr v) bytes) /\
          ptr v = malloc_place (mp_heap s) MAX_ALIGN bytes).
Proof.
  intros Hi Hp0 Hn Hb Hown. pose proof Hown as [Hwf Hbl Hinj Hnull].
  pose proof (proj1 (zlookup_some _ _ _) Hi) as [Hr Hl].
  assert (Hrun : forall r h', SimpleAlloc_alloc a bytes n (mp_heap s) = (Done r, h') ->
    alloc_tensor i bytes s = (Done (fst r), with_alloc i (snd r) h' s)).
  { intros r h' Hal. unfold alloc_tensor. rewrite (bind_done mp_this _ s (mp_planner s) s) by done.
    rewrite (bind_access _ _ _ _ Hi), (bind_access _ _ _ _ Hn).
    unfold bind at 1, mp_on_heap, zoom. rewrite Hal.
    by rewrite (bind_access _ _ _ _ (zinsert_zset _ _ _ Hr)). }
  unfold SimpleAlloc_alloc in Hrun. destruct (Z.eqb_spec bytes 0) as [->|Hbz]; cbn [negb].
  { exists a, (mp_heap s). rewrite (Hrun (false, a) (mp_heap s)) by done.
    assert (Hsame : with_alloc i a (mp_heap s) s = s).
    { unfold with_alloc, with_allocs, zset. rewrite list_insert_id by done. by destruct s as [? ? []]. }
    cbn [fst snd]. rewrite Hsame. by split_and!. }
  pose proof (malloc_spec (mp_heap s) bytes Hb Hwf) as Hm.
  rewrite Hp0 in Hrun. cbn [negb Z.eqb] in Hrun. unfold bind in Hrun.
  set (p := malloc_place (mp_heap s) MAX_ALIGN bytes) in *.
  assert (Hmal : malloc bytes (mp_heap s) = (Done p, if p =? 0 then mp_heap s
    else Heap (<[p := bytes]> (live (mp_heap s))) (mem (mp_heap s)))).
  { unfold malloc, aligned_alloc. fold p. destruct (Z.eqb_spec p 0) as [->|]; done. }
  set (h' := if p =? 0 then _ else _) in Hmal. rewrite Hmal in Hm, Hrun. cbn in Hrun.
  destruct Hm as (Hwf' & _ & Hm). exists (mkSimpleAlloc bytes n p), h'.
  split; [by apply (Hrun (true, mkSimpleAlloc bytes n p))|].
  assert (Hcase : (p = 0 /\ h' = mp_heap s) \/
    (p <> 0 /\ fresh_block (mp_heap s) p bytes /\ live h' = <[p := bytes]> (live (mp_heap s)))).
  { destruct Hm as [[Hz ?]|(q & Hq & Hf & ?)]; [left; by simplify_eq|right].
    injection Hq as <-. split; [|done]. destruct Hf. lia. }
  assert (Hfresh : forall j b, allocs_ (mp_planner s) !! j = Some b -> ptr b <> 0 -> p <> 0 -> ptr b <> p).
  { intros j b Hj Hb0 Hpz Heq. destruct Hcase as [[? _]|(_ & (_ & _ & Hnone & _) & _)]; [done|].
    pose proof (Hbl _ _ Hj Hb0). congruence. }
  assert (Hkeep : forall q m, live (mp_heap s) !! q = Some m -> live h' !! q = Some m).
  { intros q m Hq. destruct Hcase as [[_ ->]|(_ & (_ & _ & Hnone & _) & ->)]; [done|].
    rewrite lookup_insert_ne; [done|]. congruence. }
  split; [split; cbn|split; [|split_and!]].
  - done.
  - intros j b Hj Hb0. destruct (zset_lookup_cases _ _ _ _ _ Hr Hj) as [[-> ->]|[Hne Hjb]].
    + cbn in *. destruct Hcase as [[? _]|(_ & _ & ->)]; [done|]. apply lookup_insert_eq.
    + by eapply Hkeep, Hbl.
  - intros j k b c Hj Hk Hb0 Heq.
    destruct (zset_lookup_cases _ _ _ _ _ Hr Hj) as [[-> ->]|[Hne Hjb]],
      (zset_lookup_cases _ _ _ _ _ Hr Hk) as [[-> ->]|[Hne' Hkc]]; cbn in *; [done|..|by eapply Hinj].
    + exfalso. by apply (Hfresh _ _ Hkc); congruence.
    + exfalso. by apply (Hfresh _ _ Hjb); congruence.
  - intros j b Hj Hz. destruct (zset_lookup_cases _ _ _ _ _ Hr Hj) as [[-> ->]|[Hne Hjb]]; [done|].
    by eapply Hnull.
  - apply (foreign_with_alloc s i a); [done|]. intros q m _. cbn [ptr]. rewrite Hp0.
    destruct Hcase as [[-> ->]|(Hpz & (_ & _ & Hnone & _) & ->)]; [done|].
    rewrite lookup_insert_Some. split.
    + intros [[[? _]|[_ Hq]] ?]; [congruence|]. split; [done|].
      pose proof (heap_wf_range _ Hwf _ _ Hq). lia.
    + intros [Hq _]. split; [right; split; [congruence|done]|congruence].
  - done.
  - cbn. intros Hpz. by destruct Hcase as [[? _]|(_ & ? & _)].
  - done.
Qed.

(** ** Every operation keeps ownership *)

Lemma keeps_free_alloc i : respects keeps (free_alloc i).
Proof.
  intros s Hown Hb. destruct ((allocs_ (mp_planner s)).[i]) as [a|] eqn:Hi.
  - destruct (free_alloc_run s i a Hi Hown) as (h' & -> & ? & ? & _). done.
  - unfold free_alloc. rewrite (bind_done mp_this _ s (mp_planner s) s) by done.
    unfold bind. by rewrite Hi.
Qed.

(** Where the record is known to be empty. *)
Lemma keeps_alloc_tensor i bytes s :
  (forall a, (allocs_ (mp_planner s)).[i] = Some a -> ptr a = 0) -> 0 <= bytes ->
  keeps s (snd (alloc_tensor i bytes s)).
Proof.
  intros Hz Hb Hown Hok. destruct ((allocs_ (mp_planner s)).[i]) as [a|] eqn:Hi.
  - destruct ((alloc_node_ (mp_planner s)).[i]) as [n|] eqn:Hn.
    + destruct (alloc_tensor_run s i a n bytes Hi (Hz _ eq_refl) Hn Hb Hown) as (v & h' & -> & ? & ? & _). done.
    + unfold alloc_tensor. rewrite (bind_done mp_this _ s (mp_planner s) s) by done.
      rewrite (bind_access _ _ _ _ Hi). unfold bind. by rewrite Hn.
  - unfold alloc_tensor. rewrite (bind_done mp_this _ s (mp_planner s) s) by done.
    unfold bind. by rewrite Hi.
Qed.
#[local] Hint Resolve keeps_free_alloc : respects.

Lemma keeps_ResolveTensorAllocation i : respects keeps (ResolveTensorAllocation i).
Proof. unfold ResolveTensorAllocation. walk. Qed.
#[local] Hint Resolve keeps_ResolveTensorAllocation : respects.

(** Freeing every record empties them all. *)
Lemma FreeAllAllocations_run s : owns s -> exists s', FreeAllAllocations s = (Done tt, s') /\
  owns s' /\ foreign s' = foreign s /\ mp_graph s' = mp_graph s /\
  alloc_node_ (mp_planner s') = alloc_node_ (mp_planner s) /\
  dealloc_node_ (mp_planner s') = dealloc_node_ (mp_planner s) /\
  allocs_ (mp_planner s') = replicate (length (allocs_ (mp_planner s))) SimpleAlloc_reset.
Proof.
  intros Hown. set (n := zlength (allocs_ (mp_planner s))).
  set (I := fun (pre : list Z) s' => owns s' /\ foreign s' = foreign s /\ mp_graph s' = mp_graph s /\
    alloc_node_ (mp_planner s') = alloc_node_ (mp_planner s) /\
    dealloc_node_ (mp_planner s') = dealloc_node_ (mp_planner s) /\
    zlength (allocs_ (mp_planner s')) = n /\
    forall j, j ∈ pre -> (allocs_ (mp_planner s')).[j] = Some SimpleAlloc_reset).
  assert (Hloop : spec (I []) (for_each (zrange 0 (n - 1)) free_alloc)
    (fun _ => I (zrange 0 (n - 1))) never).
  { apply spec_for_each. intros pre i rest Hsplit s1 (Hown1 & Hf1 & Hg1 & Ha1 & Hd1 & Hlen & Hpre).
    assert (Hr : 0 <= i < zlength (allocs_ (mp_planner s1))).
    { rewrite Hlen. assert (Hin : i ∈ zrange 0 (n - 1)) by (rewrite Hsplit; set_solver).
      apply elem_of_zrange in Hin. lia. }
    destruct (zlookup_in_range _ _ Hr) as [a Ha].
    destruct (free_alloc_run s1 i a Ha Hown1) as (h' & -> & ? & Hf & _).
    split_and!; [done|by rewrite Hf|done..|cbn; by rewrite zlength_zset|].
    intros j Hj. cbn. rewrite zlookup_zset by done.
    destruct (Z.eqb_spec i j); [done|]. apply Hpre. set_solver. }
  assert (HI : I [] s) by (split_and!; [done..|]; by intros j ?%not_elem_of_nil).
  destruct (spec_run _ _ _ _ Hloop HI) as ([] & s' & Hrun & ? & ? & ? & ? & ? & Hlen & Hall).
  exists s'. unfold FreeAllAllocations. rewrite (bind_done mp_this _ s (mp_planner s) s) by done.
  split_and!; try done. apply list_eq. intros k.
  destruct (decide (k < length (allocs_ (mp_planner s)))%nat) as [Hk|Hk].
  - rewrite lookup_replicate_2 by done.
    specialize (Hall (Z.of_nat k)). rewrite zlookup_some, Nat2Z.id in Hall. apply Hall.
    apply elem_of_zrange. unfold n, zlength. lia.
  - rewrite !lookup_ge_None_2; [done|rewrite length_replicate; lia|]. unfold n, zlength in Hlen. lia.
Qed.

(** Empty records may be forgotten. *)
Lemma keeps_forget s l : (forall i a, allocs_ (mp_planner s) !! i = Some a -> ptr a = 0) ->
  Forall (fun a => ptr a = 0) l ->
  keeps s (MPState (mp_heap s) (mp_graph s) (with_allocs l (mp_planner s))).
Proof.
  intros Hz Hl [Hwf _ _ _] Hb. rewrite Forall_lookup in Hl. split_and!; [|done|].
  - split; cbn; [done|..]; naive_solver.
  - apply map_eq. intros p. apply option_eq. intros m. rewrite !foreign_lookup. cbn.
    assert (Hnull : forall p' (l' : list SimpleAlloc), (forall i a, l' !! i = Some a -> ptr a = 0) ->
      p' ∈ ptr <$> l' -> p' = 0).
    { intros p' l' Hl' (a & -> & [j Hj]%list_elem_of_lookup)%list_elem_of_fmap. by eapply Hl'. }
    split; intros [Hp _]; (split; [done|]); intros Hin; apply Hnull in Hin; try done; subst;
      pose proof (heap_wf_range _ Hwf _ _ Hp); lia.
Qed.

Lemma keeps_ResetAllocations : respects keeps ResetAllocations.
Proof.
  intros s Hown Hb. destruct (FreeAllAllocations_run s Hown)
    as (s1 & H1 & Hown1 & Hf1 & Hg1 & _ & _ & Hall).
  unfold ResetAllocations. rewrite (bind_done _ _ _ _ _ H1). cbn -[keeps].
  rewrite <- Hg1 in Hb. cbn [zresize]. rewrite <- Hf1.
  apply (keeps_forget s1); [|unfold zresize; apply Forall_app; split|done|done].
  - intros i a. rewrite Hall. by intros [-> _]%lookup_replicate.
  - rewrite take_nil. constructor.
  - apply Forall_replicate. done.
Qed.

(** The records found by a test of the state. *)
Lemma keeps_bind_at {A B} (c : M sstate A) (k : A -> M sstate B) s :
  keeps s (snd (c s)) -> (forall a s', c s = (Done a, s') -> keeps s' (snd (k a s'))) ->
  keeps s (snd (bind c k s)).
Proof.
  intros Hc Hk. unfold bind. destruct (c s) as [[a|e|] s'] eqn:Hcs; [|done..].
  etransitivity; [exact Hc|by apply Hk].
Qed.

Lemma keeps_replace i bytes a s : (allocs_ (mp_planner s)).[i] = Some a -> 0 <= bytes ->
  keeps s (snd (((if negb (size a =? 0) then free_alloc i else ret tt) ;;; alloc_tensor i bytes) s)).
Proof.
  intros Ha Hb Hown. pose proof Hown as [_ _ _ Hnull]. revert Hown.
  apply zlookup_some in Ha as Hl. destruct Hl as [Hr Hl].
  destruct (Z.eqb_spec (size a) 0) as [Hz|Hz]; cbn [negb].
  - apply keeps_bind_at; [done|]. intros [] s' [= <-]. apply keeps_alloc_tensor; [|done].
    intros b Hb'. simplify_eq. by eapply Hnull.
  - intros Hown Hok. destruct (free_alloc_run s i a Ha Hown) as (h' & Hrun & Hown' & Hf' & _).
    rewrite (bind_done _ _ _ _ _ Hrun), <- Hf'.
    apply keeps_alloc_tensor; [|done..]. cbn. intros b. rewrite zlookup_zset, Z.eqb_refl by done.
    by intros [= <-].
Qed.

Lemma keeps_place_tensor first last i : respects keeps (place_tensor first last i).
Proof.
  intros s Hown Hok. revert Hown Hok. unfold place_tensor.
  rewrite (bind_done mp_this _ s (mp_planner s) s) by done.
  destruct ((alloc_node_ (mp_planner s)).[i]) as [n|] eqn:Hn; [|done].
  rewrite (bind_access _ _ _ _ eq_refl).
  apply keeps_bind_at; [|intros [] s' _; [apply keeps_ResolveTensorAllocation|done]].
  destruct (_ && _); [|done]. apply keeps_bind_at; [apply keeps_tensor|].
  intros t s'. rewrite mp_tensor_run. destruct ((gi_tensors (mp_graph s)).[i]) as [t'|] eqn:Ht; [|done].
  intros [= -> <-]. intros Hown Hok. assert (Hb : 0 <= t_bytes t).
  { unfold bytes_ok in Hok. rewrite Forall_lookup in Hok. apply zlookup_some in Ht as [_ Ht]. by eapply Hok. }
  revert Hown Hok. destruct ((allocs_ (mp_planner s)).[i]) as [a|] eqn:Ha; [|done].
  rewrite (bind_access _ _ _ _ eq_refl). case_bool_decide; [by apply keeps_replace|].
  destruct (bool_decide _ && (size a =? 0)) eqn:Hc; [|done].
  apply andb_true_iff in Hc as [_ Hz%Z.eqb_eq]. intros Hown.
  pose proof (owns_null _ Hown) as Hnull. revert Hown.
  apply keeps_alloc_tensor; [|done]. intros b ?. simplify_eq.
  apply zlookup_some in Ha as [_ Ha]. by eapply Hnull.
Qed.
#[local] Hint Resolve keeps_ResetAllocations keeps_place_tensor : respects.

Lemma keeps_ResetAllocationsAfter n : respects keeps (ResetAllocationsAfter n).
Proof. unfold ResetAllocationsAfter. walk. Qed.

Lemma keeps_ReleaseNonPersistentMemory : respects keeps ReleaseNonPersistentMemory.
Proof. unfold ReleaseNonPersistentMemory. walk. Qed.

Lemma keeps_AcquireNonPersistentMemory : respects keeps AcquireNonPersistentMemory.
Proof. unfold AcquireNonPersistentMemory. walk. Qed.

Lemma keeps_PlanAllocations : respects keeps PlanAllocations.
Proof.
  unfold PlanAllocations, start_plan, plan_pinned, count_inputs, plan_nodes, plan_outputs,
    plan_inputs, allocate, deallocate. walk.
Qed.

Lemma keeps_set_temporaries first last : respects keeps (set_temporaries first last).
Proof. unfold set_temporaries. walk. Qed.
#[local] Hint Resolve keeps_set_temporaries : respects.

(** New records are empty. *)
Lemma keeps_grow s k :
  keeps s (MPState (mp_heap s) (mp_graph s)
    (with_allocs (allocs_ (mp_planner s) ++ replicate k SimpleAlloc_reset) (mp_planner s))).
Proof.
  intros [Hwf Hbl Hinj Hnull] Hb.
  assert (Hcase : forall i a, (allocs_ (mp_planner s) ++ replicate k SimpleAlloc_reset) !! i = Some a ->
    allocs_ (mp_planner s) !! i = Some a \/ a = SimpleAlloc_reset).
  { intros i a [?|[_ [-> _]%lookup_replicate]]%lookup_app_Some; auto. }
  split_and!; [split; cbn|done|].
  - done.
  - intros i a [Hi| ->]%Hcase Hp; [by eapply Hbl|done].
  - intros i j a b [Hi| ->]%Hcase Hj Hp Heq; [|done].
    apply Hcase in Hj as [Hj| ->]; [by eapply Hinj|cbn in *; congruence].
  - intros i a [Hi| ->]%Hcase Hz; [by eapply Hnull|done].
  - apply map_eq. intros p. apply option_eq. intros m. rewrite !foreign_lookup. unfold ptrs. cbn.
    rewrite fmap_app, elem_of_app, fmap_replicate, elem_of_replicate. cbn.
    split; intros [Hp Hnin]; (split; [done|]); [tauto|].
    intros [?|[-> _]]; [done|]. pose proof (heap_wf_range _ Hwf _ _ Hp). lia.
Qed.

(** Tensors are added to a graph, never removed. *)
Lemma keeps_ExecuteAllocations first last s :
  zlength (allocs_ (mp_planner s)) <= num_tensors (mp_graph s) ->
  keeps s (snd (ExecuteAllocations first last s)).
Proof.
  intros Hlen. unfold ExecuteAllocations. rewrite (bind_done mp_graph_info _ s (mp_graph s) s) by done.
  apply keeps_bind_at; [by apply keeps_set_this|]. intros [] s1 [= <-].
  apply keeps_bind_at; [by apply keeps_set_this|]. intros [] s2 [= <-].
  apply keeps_bind_at; [|intros [] s3 _; refine (respects_bind keeps _ _ _ _ s3); walk].
  cbn -[keeps]. unfold zresize. rewrite (take_ge (allocs_ (mp_planner s))) by (unfold zlength in Hlen; lia).
  apply (keeps_grow (MPState (mp_heap s) (mp_graph s) (mkSimplePlanner (allocs_ (mp_planner s)) _ _))).
Qed.

(** Destroying the planner releases exactly its blocks. *)
Lemma SimplePlanner_delete_run s : owns s ->
  exists s', SimplePlanner_delete s = (Done tt, s') /\ live (mp_heap s') = foreign s.
Proof.
  intros Hown. destruct (FreeAllAllocations_run s Hown) as (s' & Hrun & Hown' & Hf & _ & _ & _ & Hall).
  exists s'. split; [done|]. rewrite <- Hf. symmetry. apply map_filter_id.
  intros p m Hp. unfold ptrs. rewrite Hall, fmap_replicate, elem_of_replicate. cbn. intros [-> _].
  pose proof (heap_wf_range _ (owns_wf _ Hown') _ _ Hp). lia.
Qed.

(** ** Placing tensors *)

(** The record, the node and the graph that [place_tensor] works with have the same length. *)
Record sized (s : sstate) : Prop := {
  sized_allocs : zlength (allocs_ (mp_planner s)) = num_tensors (mp_graph s);
  sized_nodes : zlength (alloc_node_ (mp_planner s)) = num_tensors (mp_graph s) }.

(** Tensor [x] is an arena tensor scheduled in the range; its data is its record's block. *)
Definition placed (first last x : Z) (s : sstate) : Prop :=
  forall t n, (gi_tensors (mp_graph s)).[x] = Some t -> t_allocation_type t = kTfLiteArenaRw ->
    (alloc_node_ (mp_planner s)).[x] = Some n -> first <= n <= last -> 0 < t_bytes t ->
    exists a, (allocs_ (mp_planner s)).[x] = Some a /\ t_data t = ptr a /\ size a = t_bytes t.

(** What a call about tensor [i] leaves alone. *)
Record local_to (i : Z) (s s' : sstate) : Prop := {
  local_sized : sized s';
  local_nodes : alloc_node_ (mp_planner s') = alloc_node_ (mp_planner s);
  local_frame : graph_frame (mp_graph s) (mp_graph s');
  local_other : forall j, j <> i -> (allocs_ (mp_planner s')).[j] = (allocs_ (mp_planner s)).[j] /\
    (gi_tensors (mp_graph s')).[j] = (gi_tensors (mp_graph s)).[j] }.

Lemma local_with_alloc i v h s : sized s -> 0 <= i < num_tensors (mp_graph s) ->
  local_to i s (with_alloc i v h s).
Proof.
  intros [Ha Hn] Hi. split; [split; cbn; by rewrite ?zlength_zset|done|done|].
  intros. cbn. rewrite zlookup_zset by lia. by destruct (Z.eqb_spec i j).
Qed.

Lemma local_trans i s1 s2 s3 : local_to i s1 s2 -> local_to i s2 s3 -> local_to i s1 s3.
Proof.
  intros [? E1 F1 L1] [? E2 F2 L2]. split; [done|congruence|by etransitivity|].
  intros j Hj. destruct (L1 j Hj) as [<- <-]. by apply L2.
Qed.

Lemma local_refl i s : sized s -> local_to i s s.
Proof. intros. by split. Qed.

(** Writing the address of tensor [i]. *)
Lemma local_set_data i ptr s t : sized s -> (gi_tensors (mp_graph s)).[i] = Some t -> arena_type t = true ->
  exists s', mp_set_tensor_data i ptr s = (Done tt, s') /\ local_to i s s' /\ mp_heap s' = mp_heap s /\
    mp_planner s' = mp_planner s /\ (gi_tensors (mp_graph s')).[i] = Some (set_data ptr t).
Proof.
  intros [Ha Hn] Ht Har. pose proof (proj1 (zlookup_some _ _ _) Ht) as [Hr _].
  pose proof (mp_set_tensor_data_framed i ptr s (ex_intro _ t (conj Ht Har))) as Hf.
  rewrite mp_set_tensor_data_run, Ht in *. cbn in Hf. eexists. split; [done|]. split; [|split_and!; [done..|]].
  - split; [split; cbn; unfold num_tensors; cbn; by rewrite ?zlength_zset|done|done|].
    intros j Hj. cbn. rewrite zlookup_zset by done. by destruct (Z.eqb_spec i j).
  - cbn. by rewrite zlookup_zset, Z.eqb_refl.
Qed.

(** The two calls that give tensor [i] a new block. *)
Lemma replace_run s i t n a :
  owns s -> sized s -> (gi_tensors (mp_graph s)).[i] = Some t ->
  (alloc_node_ (mp_planner s)).[i] = Some n -> (allocs_ (mp_planner s)).[i] = Some a -> 0 <= t_bytes t ->
  exists s' v, ((if negb (size a =? 0) then free_alloc i else ret tt) ;;; alloc_tensor i (t_bytes t)) s =
      (Done (negb (t_bytes t =? 0)), s') /\ owns s' /\ local_to i s s' /\
    mp_graph s' = mp_graph s /\ (allocs_ (mp_planner s')).[i] = Some v /\
    (t_bytes t <> 0 -> size v = t_bytes t).
Proof.
  intros Hown Hsz Ht Hn Ha Hb. pose proof (proj1 (zlookup_some _ _ _) Ha) as [Hr Hl].
  assert (Hi : 0 <= i < num_tensors (mp_graph s)) by (destruct Hsz; lia).
  assert (Hend : forall s0 a0, owns s0 -> local_to i s s0 -> mp_graph s0 = mp_graph s ->
    (allocs_ (mp_planner s0)).[i] = Some a0 -> ptr a0 = 0 ->
    exists s' v, alloc_tensor i (t_bytes t) s0 = (Done (negb (t_bytes t =? 0)), s') /\ owns s' /\
      local_to i s s' /\ mp_graph s' = mp_graph s /\ (allocs_ (mp_planner s')).[i] = Some v /\
      (t_bytes t <> 0 -> size v = t_bytes t)).
  { intros s0 a0 Hown0 Hloc Hg Ha0 Hp0. pose proof Hloc as [Hsz0 Hnode _ _].
    destruct (alloc_tensor_run s0 i a0 n (t_bytes t) Ha0 Hp0 ltac:(by rewrite Hnode) Hb Hown0)
      as (v & h' & Hrun & Hown' & _ & Hv).
    exists (with_alloc i v h' s0), v. split_and!; [done|done| |done| |].
    - eapply local_trans; [exact Hloc|]. apply local_with_alloc; [done|by rewrite Hg].
    - cbn. apply zlookup_some in Ha0 as [? _]. by rewrite zlookup_zset, Z.eqb_refl.
    - intros Hne. destruct (Z.eqb_spec (t_bytes t) 0); [done|]. apply Hv. }
  destruct (Z.eqb_spec (size a) 0) as [Hz|Hz]; cbn [negb].
  - rewrite bind_ret. apply (Hend s a); [done|by apply local_refl|done|done|]. by eapply owns_null.
  - destruct (free_alloc_run s i a Ha Hown) as (h' & Hrun & Hown' & _).
    rewrite (bind_done _ _ _ _ _ Hrun).
    apply (Hend _ SimpleAlloc_reset); [done|by apply local_with_alloc|done| |done].
    cbn. by rewrite zlookup_zset, Z.eqb_refl.
Qed.

Lemma ResolveTensorAllocation_run i s t v : sized s -> (gi_tensors (mp_graph s)).[i] = Some t ->
  (allocs_ (mp_planner s)).[i] = Some v -> arena_type t = true -> size v <> 0 ->
  exists s', ResolveTensorAllocation i s = (Done tt, s') /\ local_to i s s' /\ mp_heap s' = mp_heap s /\
    mp_planner s' = mp_planner s /\ (gi_tensors (mp_graph s')).[i] = Some (set_data (ptr v) t).
Proof.
  intros Hsz Ht Hv Har Hne. destruct (local_set_data i (ptr v) s t Hsz Ht Har) as (s' & Hset & ?).
  exists s'. split; [|done]. unfold ResolveTensorAllocation.
  rewrite (bind_done _ _ s t s) by (by rewrite mp_tensor_run, Ht).
  unfold arena_type in Har. case_bool_decide as Hrw.
  - rewrite bind_assoc, (bind_done mp_this _ s (mp_planner s) s) by done.
    rewrite bind_assoc, (bind_access _ _ _ _ Hv), (proj2 (Z.eqb_neq _ _) Hne). cbn [negb].
    rewrite (bind_done _ _ _ _ _ Hset). by rewrite bool_decide_eq_false_2 by (rewrite Hrw; done).
  - rewrite bind_ret. cbn [orb] in Har. rewrite Har, (bind_done mp_this _ s (mp_planner s) s) by done.
    by rewrite (bind_access _ _ _ _ Hv).
Qed.

Lemma simple_place_tensor_run first last i s : owns s -> sized s -> bytes_ok (mp_graph s) ->
  0 <= i < num_tensors (mp_graph s) ->
  exists s', place_tensor first last i s = (Done tt, s') /\ owns s' /\ local_to i s s' /\
    placed first last i s'.
Proof.
  intros Hown Hsz Hok Hi. pose proof Hsz as [Hla Hln].
  destruct (zlookup_in_range (alloc_node_ (mp_planner s)) i) as [n Hn]; [lia|].
  destruct (zlookup_in_range (allocs_ (mp_planner s)) i) as [a Ha]; [lia|].
  destruct (zlookup_in_range (gi_tensors (mp_graph s)) i) as [t Ht]; [done|].
  assert (Hb : 0 <= t_bytes t).
  { unfold bytes_ok in Hok. rewrite Forall_lookup in Hok. pose proof Ht as [_ Ht']%zlookup_some. by eapply Hok. }
  unfold place_tensor. rewrite (bind_done mp_this _ s (mp_planner s) s), (bind_access _ _ _ _ Hn) by done.
  assert (Hskip : ~ (first <= n <= last /\ t_allocation_type t = kTfLiteArenaRw) ->
    placed first last i s) by (intros Hns t' n' Ht' ? Hn' ? _; exfalso; apply Hns; simplify_eq; done).
  destruct ((first <=? n) && (n <=? last)) eqn:Hrange.
  2: { rewrite bind_ret. exists s. split_and!; [done|done|by apply local_refl|]. apply Hskip.
       apply andb_false_iff in Hrange. rewrite !Z.leb_gt in Hrange. lia. }
  rewrite bind_assoc, (bind_done _ _ s t s) by (by rewrite mp_tensor_run, Ht).
  rewrite bind_assoc, (bind_access _ _ _ _ Ha).
  destruct (replace_run s i t n a Hown Hsz Ht Hn Ha Hb) as (s1 & v & Hrun & Hown1 & Hloc & Hg & Hv & Hsv).
  pose proof (local_sized _ _ _ Hloc) as Hsz1.
  assert (Hend : arena_type t = true -> exists s', (let* allocated := ((if negb (size a =? 0) then free_alloc i else ret tt) ;;;
        alloc_tensor i (t_bytes t)) in
      if allocated : bool then ResolveTensorAllocation i else ret tt) s = (Done tt, s') /\ owns s' /\
      local_to i s s' /\ placed first last i s').
  { intros Har. rewrite (bind_done _ _ _ _ _ Hrun).
    destruct (Z.eqb_spec (t_bytes t) 0) as [Hz|Hz]; cbn [negb].
    - exists s1. split_and!; [done|done|done|]. intros t' n' Ht' _ _ _ ?. rewrite Hg in Ht'. simplify_eq. lia.
    - destruct (ResolveTensorAllocation_run i s1 t v Hsz1 ltac:(by rewrite Hg) Hv Har
        ltac:(rewrite Hsv; done)) as (s' & Hres & Hloc' & Hh & Hp & Ht').
      exists s'. split_and!; [done| |by eapply local_trans|].
      + destruct Hown1 as [? ? ? ?]. split; rewrite ?Hh, ?Hp; done.
      + intros t'' n'' Ht'' _ _ _ _. exists v. rewrite Hp. simplify_eq. split_and!; [done|done|by apply Hsv]. }
  case_bool_decide as Hrw; [apply Hend; by unfold arena_type; rewrite Hrw|].
  destruct (bool_decide (t_allocation_type t = kTfLiteArenaRwPersistent)) eqn:Hpe; cbn [andb].
  2: { rewrite bind_ret. exists s. split_and!; [done|done|by apply local_refl|]. apply Hskip. tauto. }
  destruct (size a =? 0) eqn:Hz.
  2: { rewrite bind_ret. exists s. split_and!; [done|done|by apply local_refl|]. apply Hskip. tauto. }
  apply Hend. unfold arena_type. by rewrite Hpe, orb_true_r.
Qed.

(** Scheduling the temporaries only changes the schedule. *)
Definition temporaries_valid (g : GraphInfo) : Prop :=
  Forall (fun nr => Forall (valid g) (node_temporaries (fst nr))) (gi_nodes g).

Definition rescheduled (s s' : sstate) : Prop :=
  mp_heap s' = mp_heap s /\ mp_graph s' = mp_graph s /\
  allocs_ (mp_planner s') = allocs_ (mp_planner s) /\
  zlength (alloc_node_ (mp_planner s')) = num_tensors (mp_graph s) /\
  zlength (dealloc_node_ (mp_planner s')) = num_tensors (mp_graph s).

Lemma set_temporaries_run first last s :
  temporaries_valid (mp_graph s) -> 0 <= first ->
  zlength (alloc_node_ (mp_planner s)) = num_tensors (mp_graph s) ->
  zlength (dealloc_node_ (mp_planner s)) = num_tensors (mp_graph s) ->
  exists s', set_temporaries first last s = (Done tt, s') /\ rescheduled s s'.
Proof.
  intros Htmp Hfirst Hla Hld. set (I := rescheduled s).
  assert (Hloop : spec I (set_temporaries first last) (fun _ => I) never).
  { unfold set_temporaries. eapply (spec_bind _ _ _ (fun g s' => g = mp_graph s /\ I s')).
    { intros s1 HI. split; [apply HI|done]. }
    intros g. apply spec_pre. intros s0 [-> HI0]. apply (spec_weaken I); [by intros ? ->|].
    apply spec_for_each_inv. intros i [Hlo Hhi]%elem_of_zrange.
    assert (Hi : 0 <= i < zlength (gi_nodes (mp_graph s))).
    { pose proof (size_wrap_range first). unfold num_execution_nodes in Hhi. lia. }
    destruct (zlookup_in_range _ _ Hi) as [nr Hnr].
    intros s1 HI. rewrite (bind_access _ _ _ _ Hnr). revert s1 HI.
    apply spec_for_each_inv. intros t Ht.
    assert (Hv : valid (mp_graph s) t).
    { unfold temporaries_valid in Htmp. rewrite Forall_lookup in Htmp.
      apply zlookup_some in Hnr as [_ Hnr]. specialize (Htmp _ _ Hnr).
      rewrite Forall_forall in Htmp. by apply Htmp. }
    intros s1 (Hh & Hg & Hal & Ha & Hd). unfold valid in Hv.
    rewrite (bind_done mp_this _ s1 (mp_planner s1) s1) by done.
    rewrite (bind_access _ _ _ _ (zinsert_zset _ _ _ ltac:(by rewrite Ha))).
    unfold bind at 1, mp_set_this at 1, modify. cbn.
    rewrite (zinsert_zset (dealloc_node_ _)) by (cbn; by rewrite Hd). cbn.
    split_and!; cbn; by rewrite ?zlength_zset. }
  assert (HI : I s) by by split_and!.
  destruct (spec_run _ _ _ _ Hloop HI) as ([] & s' & Hrun & ?). by exists s'.
Qed.

(** Tensor [x] keeps its place while other tensors are placed. *)
Lemma simple_placed_other first last x i s s' : local_to i s s' -> x <> i -> placed first last x s ->
  placed first last x s'.
Proof.
  intros [_ Hn _ Ho] Hx Hp t n Ht Hty Hnx Hr Hb. destruct (Ho x Hx) as [Ha Hg].
  rewrite Hg in Ht. rewrite Hn in Hnx. rewrite Ha. by eapply Hp.
Qed.

Lemma bytes_ok_frame g g' : graph_frame g g' -> bytes_ok g -> bytes_ok g'.
Proof.
  intros [Hf _] Hb. unfold bytes_ok in *. rewrite Forall_lookup in *. intros k t' Hk.
  destruct (Forall2_lookup_r _ _ _ _ _ Hf Hk) as (t & Ht & Htf). specialize (Hb _ _ Ht). cbn in Hb.
  unfold tensor_frame in Htf. destruct (arena_type t); rewrite Htf; done.
Qed.

(** Placing every tensor. *)
Lemma place_all_run first last s n : n = num_tensors (mp_graph s) ->
  owns s -> sized s -> bytes_ok (mp_graph s) ->
  exists s', for_each (zrange 0 (n - 1)) (place_tensor first last) s = (Done tt, s') /\ owns s' /\
    forall x, 0 <= x < n -> placed first last x s'.
Proof.
  intros -> Hown Hsz Hok. set (n := num_tensors (mp_graph s)).
  set (I := fun (pre : list Z) s' => owns s' /\ bytes_ok (mp_graph s') /\ sized s' /\
    num_tensors (mp_graph s') = n /\ forall x, x ∈ pre -> placed first last x s').
  assert (Hloop : spec (I []) (for_each (zrange 0 (n - 1)) (place_tensor first last))
    (fun _ => I (zrange 0 (n - 1))) never).
  { apply spec_for_each. intros pre i rest Hsplit s3 (Ho3 & Hb3 & Hz3 & Hn3 & Hp3).
    assert (Hi : i ∈ zrange 0 (n - 1)) by (rewrite Hsplit; set_solver).
    apply elem_of_zrange in Hi.
    destruct (simple_place_tensor_run first last i s3 Ho3 Hz3 Hb3 ltac:(lia)) as (s4 & -> & Ho4 & Hloc & Hp4).
    pose proof Hloc as [Hz4 _ Hf4 _].
    split_and!; [done|by eapply bytes_ok_frame|done|rewrite <- Hn3; by apply graph_frame_length|].
    intros x Hx. destruct (Z.eq_dec x i) as [->|Hne]; [done|].
    eapply simple_placed_other; [exact Hloc|done|]. apply Hp3. set_solver. }
  assert (HI : I [] s) by (split_and!; [done..|by intros x ?%not_elem_of_nil]).
  destruct (spec_run _ _ _ _ Hloop HI) as ([] & s' & Hrun & ? & _ & _ & _ & Hall). exists s'. split_and!; try done.
  intros x Hx. apply Hall, elem_of_zrange. lia.
Qed.

Lemma simple_ExecuteAllocations_run first last s :
  owns s -> bytes_ok (mp_graph s) -> temporaries_valid (mp_graph s) -> 0 <= first ->
  zlength (allocs_ (mp_planner s)) <= num_tensors (mp_graph s) ->
  exists s', ExecuteAllocations first last s = (Done tt, s') /\ owns s' /\ foreign s' = foreign s /\
    graph_frame (mp_graph s) (mp_graph s') /\
    forall x, 0 <= x < num_tensors (mp_graph s) -> placed first last x s'.
Proof.
  intros Hown Hok Htmp Hfirst Hlen. pose proof (keeps_ExecuteAllocations first last s Hlen Hown Hok) as Hkeep.
  pose proof (ExecuteAllocations_framed (P := SimplePlanner) first last s) as Hframe.
  cbn [MemoryPlanner.ExecuteAllocations SimplePlanner_MemoryPlanner] in Hframe.
  pose proof (keeps_grow s (Z.to_nat (num_tensors (mp_graph s)) - length (allocs_ (mp_planner s))) Hown Hok)
    as (Hown1 & _ & _).
  set (s1 := MPState (mp_heap s) (mp_graph s) (mkSimplePlanner
    (zresize (allocs_ (mp_planner s)) (num_tensors (mp_graph s)) SimpleAlloc_reset)
    (zresize (alloc_node_ (mp_planner s)) (num_tensors (mp_graph s)) kNodeNotAssigned)
    (zresize (dealloc_node_ (mp_planner s)) (num_tensors (mp_graph s)) kNodeNotAssigned))).
  assert (Hn0 : 0 <= num_tensors (mp_graph s)) by (unfold num_tensors, zlength; lia).
  assert (Hs1 : owns s1).
  { destruct Hown1 as [H1 H2 H3 H4]. cbn in *. subst s1. unfold zresize at 1.
    rewrite (take_ge (allocs_ (mp_planner s))) by (unfold zlength in Hlen; lia). by split. }
  destruct (set_temporaries_run first last s1 Htmp Hfirst) as (s2 & Hrun2 & Hh2 & Hg2 & Hal2 & Hla2 & _);
    [by cbn; apply zlength_zresize..|].
  assert (Hsz2 : sized s2) by (split; rewrite Hg2; [rewrite Hal2; cbn; by apply zlength_zresize|done]).
  assert (Hs2 : owns s2) by (destruct Hs1 as [H1 H2 H3 H4]; split; rewrite ?Hh2, ?Hal2; done).
  destruct (place_all_run first last s2 (num_tensors (mp_graph s))) as (s' & Hrun & Hown' & Hall);
    [by rewrite Hg2|done|done|by rewrite Hg2|].
  assert (Hexec : ExecuteAllocations first last s = (Done tt, s')).
  { unfold ExecuteAllocations. rewrite (bind_done mp_graph_info _ s (mp_graph s) s) by done.
    unfold bind at 1 2 3, mp_set_this, modify. cbn [mp_heap mp_graph mp_planner with_allocs with_alloc_node
      with_dealloc_node allocs_ alloc_node_ dealloc_node_].
    by rewrite (bind_done _ _ _ _ _ Hrun2). }
  rewrite Hexec in *. destruct Hkeep as (_ & _ & ?). exists s'. by split_and!.
Qed.

(** ** Histories *)

(** The operations of the planner. *)
Inductive planner_op (s : sstate) : sstate -> Prop :=
  | op_plan : planner_op s (snd (PlanAllocations s))
  | op_execute first last : zlength (allocs_ (mp_planner s)) <= num_tensors (mp_graph s) ->
      planner_op s (snd (ExecuteAllocations first last s))
  | op_reset : planner_op s (snd (ResetAllocations s))
  | op_reset_after n : planner_op s (snd (ResetAllocationsAfter n s))
  | op_release : planner_op s (snd (ReleaseNonPersistentMemory s))
  | op_acquire : planner_op s (snd (AcquireNonPersistentMemory s)).

(** Everybody else changes the graph, allocates, frees and writes, but leaves the blocks of the
    planner alone. *)
Definition other_code (s s' : sstate) : Prop :=
  mp_planner s' = mp_planner s /\ heap_wf (mp_heap s') /\ bytes_ok (mp_graph s') /\
  forall p, p ∈ ptrs s -> live (mp_heap s') !! p = live (mp_heap s) !! p.

Definition history_step (s s' : sstate) : Prop := planner_op s s' \/ other_code s s'.

Lemma planner_op_keeps s s' : planner_op s s' -> keeps s s'.
Proof.
  destruct 1; [apply keeps_PlanAllocations|by apply keeps_ExecuteAllocations|apply keeps_ResetAllocations
    |apply keeps_ResetAllocationsAfter|apply keeps_ReleaseNonPersistentMemory
    |apply keeps_AcquireNonPersistentMemory].
Qed.

Lemma other_code_owns s s' : other_code s s' -> owns s -> owns s' /\ bytes_ok (mp_graph s').
Proof.
  intros (Hp & Hwf & Hb & Hl) [_ Hbl Hinj Hnull]. split; [|done]. split; rewrite ?Hp; [done| |done|done].
  intros i a Hi Ha. rewrite Hl; [by eapply Hbl|]. unfold ptrs. apply list_elem_of_fmap.
  exists a. split; [done|]. by eapply list_elem_of_lookup_2.
Qed.

Lemma history_owns s s' : rtc history_step s s' -> owns s -> bytes_ok (mp_graph s) ->
  owns s' /\ bytes_ok (mp_graph s').
Proof.
  induction 1 as [|s1 s2 s3 [Hop|Hot] _ IH]; intros Hown Hb; [done|..].
  - destruct (planner_op_keeps _ _ Hop Hown Hb) as (? & ? & _). by apply IH.
  - destruct (other_code_owns _ _ Hot Hown). by apply IH.
Qed.

(** C21. Whatever the operations called and whatever other code does in between, no operation of the
    planner frees or creates a block of anybody else, and destroying the planner is defined and
    releases exactly the planner's own blocks: nothing leaks and nothing is freed twice. *)
Theorem simple_planner_never_leaks h g s :
  heap_wf h -> bytes_ok g -> rtc history_step (MPState h g SimplePlanner_init) s ->
  (forall s', planner_op s s' -> foreign s' = foreign s) /\
  exists s', SimplePlanner_delete s = (Done tt, s') /\ live (mp_heap s') = foreign s.
Proof.
  intros Hwf Hb Hreach. destruct (history_owns _ _ Hreach) as [Hown Hok]; [|done|].
  - split; cbn; [done|..]; intros ? ?; rewrite ?lookup_nil; done.
  - split; [|by apply SimplePlanner_delete_run]. intros s' Hop. by apply (planner_op_keeps _ _ Hop Hown Hok).
Qed.

(** A tensor of the graph that the schedule places in the range of nodes. *)
Definition scheduled (first last x : Z) (t : TfLiteTensor) (s : sstate) : Prop :=
  (gi_tensors (mp_graph s)).[x] = Some t /\ t_allocation_type t = kTfLiteArenaRw /\ 0 < t_bytes t /\
  exists n, (alloc_node_ (mp_planner s)).[x] = Some n /\ first <= n <= last.

(** Executing the allocations of a range of nodes is defined; the tensors scheduled in it get live
    blocks of exactly their size (or null, when there is no memory), and no two of them overlap. *)
Theorem simple_planner_places first last s :
  owns s -> bytes_ok (mp_graph s) -> temporaries_valid (mp_graph s) -> 0 <= first ->
  zlength (allocs_ (mp_planner s)) <= num_tensors (mp_graph s) ->
  exists s', ExecuteAllocations first last s = (Done tt, s') /\ owns s' /\
    (forall x t, scheduled first last x t s' -> t_data t <> 0 ->
       live (mp_heap s') !! t_data t = Some (t_bytes t)) /\
    (forall x y tx ty, x <> y -> scheduled first last x tx s' -> scheduled first last y ty s' ->
       t_data tx <> 0 -> t_data ty <> 0 ->
       t_data tx + t_bytes tx <= t_data ty \/ t_data ty + t_bytes ty <= t_data tx).
Proof.
  intros Hown Hok Htmp Hfirst Hlen.
  destruct (simple_ExecuteAllocations_run first last s Hown Hok Htmp Hfirst Hlen) as (s' & Hrun & Hown' & _ & Hf & Hall).
  exists s'. split; [done|]. split; [done|].
  assert (Hrec : forall x t, scheduled first last x t s' -> exists a,
    (allocs_ (mp_planner s')).[x] = Some a /\ t_data t = ptr a /\ size a = t_bytes t).
  { intros x t (Ht & Hty & Hb & n & Hn & Hr). eapply Hall; try done.
    apply zlookup_some in Ht as [? _]. rewrite <- (graph_frame_length _ _ Hf). done. }
  assert (Hlive : forall x t, scheduled first last x t s' -> t_data t <> 0 ->
    live (mp_heap s') !! t_data t = Some (t_bytes t)).
  { intros x t Hs Hd. destruct (Hrec x t Hs) as (a & [_ Ha]%zlookup_some & Ed & <-).
    rewrite Ed in *. by eapply owns_block. }
  split; [done|]. intros x y tx ty Hne Hx Hy Hdx Hdy.
  apply (heap_wf_disjoint _ (owns_wf _ Hown')); [by eapply Hlive..|].
  destruct (Hrec x tx Hx) as (a & [Hrx Ha]%zlookup_some & Ea & _), (Hrec y ty Hy) as (b & [Hry Hb]%zlookup_some & Eb & _).
  rewrite Ea, Eb. intros Heq. pose proof (owns_inj _ Hown' _ _ _ _ Ha Hb ltac:(congruence) Heq). lia.
Qed.

End Owner.

(** *** Released memory does not come back *)

Section Release.
Context {MM : Malloc} {MMOk : MallocOk}.

(** Releasing empties the record and the address of every arena tensor ... *)
Definition emptied (s : sstate) (x : Z) : Prop :=
  forall t, (gi_tensors (mp_graph s)).[x] = Some t -> t_allocation_type t = kTfLiteArenaRw ->
    t_data t = 0 /\ exists a, (allocs_ (mp_planner s)).[x] = Some a /\ size a = 0.

Lemma release_tensor_run i s : owns s -> sized s -> 0 <= i < num_tensors (mp_graph s) ->
  exists s', (let* t := mp_tensor i in
      if bool_decide (t_allocation_type t = kTfLiteArenaRw)
      then free_alloc i ;;; mp_set_tensor_data i 0 else ret tt) s = (Done tt, s') /\
    owns s' /\ local_to i s s' /\ emptied s' i.
Proof.
  intros Hown Hsz Hi. destruct (zlookup_in_range _ _ Hi) as [t Ht].
  destruct (zlookup_in_range (allocs_ (mp_planner s)) i) as [a Ha]; [by rewrite (sized_allocs _ Hsz)|].
  rewrite (bind_done _ _ s t s) by (by rewrite mp_tensor_run, Ht).
  case_bool_decide as Hrw.
  2: { exists s. split_and!; [done|done|by apply local_refl|]. intros t' ? ?. by simplify_eq. }
  destruct (free_alloc_run s i a Ha Hown) as (h' & Hrun & Hown' & _).
  rewrite (bind_done _ _ _ _ _ Hrun). set (s1 := with_alloc _ _ _ _) in *.
  pose proof (local_with_alloc i SimpleAlloc_reset h' s Hsz Hi) as Hloc.
  destruct (local_set_data i 0 s1 t) as (s' & -> & Hloc' & Hh & Hp & Ht');
    [apply Hloc|done|by unfold arena_type; rewrite Hrw|].
  exists s'. split_and!; [done| |by eapply local_trans|].
  - destruct Hown' as [? ? ? ?]. split; rewrite ?Hh, ?Hp; done.
  - intros t' Ht'' _. simplify_eq. split; [done|]. exists SimpleAlloc_reset. rewrite Hp. split; [|done].
    cbn. apply zlookup_some in Ha as [Hr _]. by rewrite zlookup_zset, Z.eqb_refl.
Qed.

Lemma ReleaseNonPersistentMemory_run s : owns s -> sized s ->
  exists s', ReleaseNonPersistentMemory s = (Done tt, s') /\
    num_tensors (mp_graph s') = num_tensors (mp_graph s) /\
    forall x, 0 <= x < num_tensors (mp_graph s) -> emptied s' x.
Proof.
  intros Hown Hsz. set (n := num_tensors (mp_graph s)).
  set (I := fun (pre : list Z) s' => owns s' /\ sized s' /\ num_tensors (mp_graph s') = n /\
    forall x, x ∈ pre -> emptied s' x).
  assert (Hloop : spec (I []) (for_each (zrange 0 (n - 1)) (fun i => let* t := mp_tensor i in
      if bool_decide (t_allocation_type t = kTfLiteArenaRw)
      then free_alloc i ;;; mp_set_tensor_data i 0 else ret tt)) (fun _ => I (zrange 0 (n - 1))) never).
  { apply spec_for_each. intros pre i rest Hsplit s3 (Ho3 & Hz3 & Hn3 & Hp3).
    assert (Hi : i ∈ zrange 0 (n - 1)) by (rewrite Hsplit; set_solver). apply elem_of_zrange in Hi.
    destruct (release_tensor_run i s3 Ho3 Hz3 ltac:(lia)) as (s4 & -> & Ho4 & Hloc & He).
    split_and!; [done|by apply Hloc|rewrite <- Hn3; by apply graph_frame_length, Hloc|].
    intros x Hx. destruct (Z.eq_dec x i) as [->|Hne]; [done|].
    intros t. destruct (local_other _ _ _ Hloc x Hne) as [-> ->]. apply Hp3; [set_solver]. }
  assert (HI : I [] s) by (split_and!; [done..|by intros x ?%not_elem_of_nil]).
  destruct (spec_run _ _ _ _ Hloop HI) as ([] & s' & Hrun & _ & _ & Hn' & Hall).
  exists s'. unfold ReleaseNonPersistentMemory.
  rewrite (bind_done mp_graph_info _ s (mp_graph s) s) by done. split_and!; [exact Hrun|done|].
  intros x Hx. apply Hall, elem_of_zrange. lia.
Qed.

(** ... so acquiring the memory again finds nothing to resolve. *)
Lemma acquire_emptied s : (forall x, emptied s x) -> AcquireNonPersistentMemory s = (Done tt, s).
Proof.
  intros He. unfold AcquireNonPersistentMemory.
  rewrite (bind_done mp_graph_info _ s (mp_graph s) s) by done.
  set (n := num_tensors (mp_graph s)).
  assert (Hl : Forall (fun i => 0 <= i < n) (zrange 0 (n - 1))).
  { apply Forall_forall. intros i Hi%elem_of_zrange. lia. }
  induction Hl as [|i l Hi Hl IH]; [done|]. rewrite for_each_cons.
  destruct (zlookup_in_range _ _ Hi) as [t Ht].
  match goal with |- bind ?c _ _ = _ => assert (Hc : c s = (Done tt, s)) end.
  { rewrite (bind_done _ _ s t s) by (by rewrite mp_tensor_run, Ht).
    case_bool_decide as Hrw; [|done]. destruct (He i t Ht Hrw) as (_ & a & Ha & Hz).
    unfold ResolveTensorAllocation. rewrite (bind_done _ _ s t s) by (by rewrite mp_tensor_run, Ht).
    rewrite bool_decide_eq_true_2 by done.
    rewrite bind_assoc, (bind_done mp_this _ s (mp_planner s) s) by done.
    rewrite bind_assoc, (bind_access _ _ _ _ Ha), Hz. cbn [negb Z.eqb]. rewrite bind_ret.
    by rewrite bool_decide_eq_false_2 by (rewrite Hrw; done). }
  by rewrite (bind_done _ _ _ _ _ Hc).
Qed.

(** After the memory of the arena tensors is released, acquiring it again reports success and
    changes nothing: the addresses of all arena tensors stay null, although the planner claims
    that the memory is available. *)
Theorem released_memory_is_not_acquired s : owns s -> sized s ->
  exists s1, ReleaseNonPersistentMemory s = (Done tt, s1) /\
    AcquireNonPersistentMemory s1 = (Done tt, s1) /\ HasNonPersistentMemory s1 = (Done true, s1) /\
    forall x t, (gi_tensors (mp_graph s1)).[x] = Some t -> t_allocation_type t = kTfLiteArenaRw ->
      t_data t = 0.
Proof.
  intros Hown Hsz. destruct (ReleaseNonPersistentMemory_run s Hown Hsz) as (s1 & Hrel & Hn & He).
  assert (Hall : forall x, emptied s1 x).
  { intros x t Ht. apply He; [|done]. apply zlookup_some in Ht as [? _]. by rewrite <- Hn. }
  exists s1. split_and!; [done|by apply acquire_emptied|done|]. intros x t Ht Hrw. by apply (Hall x t).
Qed.
End Release.

(** *** Witnesses *)

Definition example_graph : GraphInfo :=
  let op ins outs tmps := (mkNode ins outs [] tmps 0 0 0 0 0 false,
    mkRegistration None None None None 0 None 1 0 kTfLiteInplaceOpNone) in
  mkGraphInfo (replicate 5 (set_bytes 16 (set_allocation_type kTfLiteArenaRw tensor_zero)))
    [op [0] [1] [4]; op [1] [2] []; op [2; 0] [3] []] [0; 1; 2] 3 [0] [3] [].

Definition example_planned : sstate :=
  snd (PlanAllocations (MPState heap_empty example_graph SimplePlanner_init)).

Lemma example_bytes_ok : bytes_ok example_graph.
Proof. apply (forallb_Forall (fun t => 0 <=? t_bytes t)); [|done]. intros t. apply Z.leb_le. Qed.

Lemma init_owns g : owns (MPState heap_empty g SimplePlanner_init).
Proof. split; cbn; [apply heap_empty_wf|..]; intros ? ?; rewrite ?lookup_nil; done. Qed.

Lemma example_owns : owns example_planned /\ bytes_ok (mp_graph example_planned).
Proof.
  destruct (keeps_PlanAllocations (MM := bump_place) (MMOk := bump_place_ok)
    (MPState heap_empty example_graph SimplePlanner_init) (init_owns _) example_bytes_ok) as (? & ? & _).
  done.
Qed.

Lemma simple_planner_never_leaks_witness :
  (forall s', planner_op (MM := bump_place) example_planned s' -> foreign s' = foreign example_planned) /\
  exists s', SimplePlanner_delete example_planned = (Done tt, s') /\
    live (mp_heap s') = foreign example_planned.
Proof.
  apply (@simple_planner_never_leaks bump_place bump_place_ok heap_empty example_graph example_planned
    heap_empty_wf example_bytes_ok).
  apply rtc_once. left. apply op_plan.
Defined.

Lemma simple_planner_places_witness :
  exists s', ExecuteAllocations (MM := bump_place) 0 2 example_planned = (Done tt, s') /\ owns s' /\
    (forall x t, scheduled 0 2 x t s' -> t_data t <> 0 -> live (mp_heap s') !! t_data t = Some (t_bytes t)) /\
    (forall x y tx ty, x <> y -> scheduled 0 2 x tx s' -> scheduled 0 2 y ty s' ->
       t_data tx <> 0 -> t_data ty <> 0 ->
       t_data tx + t_bytes tx <= t_data ty \/ t_data ty + t_bytes ty <= t_data tx).
Proof.
  apply (@simple_planner_places bump_place bump_place_ok);
    [apply example_owns|apply example_owns|by repeat constructor|done|done].
Defined.


Lemma released_memory_is_not_acquired_witness :
  exists s1, ReleaseNonPersistentMemory example_planned = (Done tt, s1) /\
    AcquireNonPersistentMemory s1 = (Done tt, s1) /\ HasNonPersistentMemory s1 = (Done true, s1) /\
    forall x t, (gi_tensors (mp_graph s1)).[x] = Some t -> t_allocation_type t = kTfLiteArenaRw ->
      t_data t = 0.
Proof.
  apply (@released_memory_is_not_acquired bump_place bump_place_ok); [apply example_owns|by split].
Defined.

(** Every tensor of the example gets a block of its own. *)
Example example_placed :
  t_data <$> gi_tensors (mp_graph (snd (ExecuteAllocations (MM := bump_place) 0 2 example_planned))) =
    [64; 80; 96; 112; 128].
Proof. by vm_compute. Qed.
