(* ===== verification/PlannerEquiv.v ===== *)
(** * The two planners make the same plan

    Where no operator may reuse the buffer of its input, the simple planner and the arena
    planner assign every tensor the same first and last node: the simple planner is the arena
    planner's schedule without its placement. *)
From S2P Require Import Prelude Heap Common GraphInfo MemoryPlanner ArenaPlanner ArenaPlan.
From S2P Require SimplePlanner SimplePlannerProof.
#[local] Open Scope Z_scope.

(** ** Two calls in step *)

Section Sim.
Context {S T : Type}.

(** From related states both calls return, with related results, or both fail alike. *)
Definition sim {A B} (P : S -> T -> Prop) (c : M S A) (c' : M T B)
    (Q : A -> B -> S -> T -> Prop) : Prop :=
  forall s t, P s t ->
    match c s, c' t with
    | (Done a, s'), (Done b, t') => Q a b s' t'
    | (Fail e, _), (Fail e', _) => e = e'
    | (Undef, _), (Undef, _) => True
    | _, _ => False
    end.

Lemma sim_ret {A B} P (a : A) (b : B) Q : (forall s t, P s t -> Q a b s t) -> sim P (ret a) (ret b) Q.
Proof. intros H s t Hs. by apply H. Qed.

Lemma sim_bind {A B A' B'} P (c : M S A) (c' : M T B) R (k : A -> M S A') (k' : B -> M T B') Q :
  sim P c c' R -> (forall a b, sim (R a b) (k a) (k' b) Q) -> sim P (bind c k) (bind c' k') Q.
Proof.
  intros Hc Hk s t Hs. specialize (Hc s t Hs). unfold bind.
  destruct (c s) as [[a|e|] s'], (c' t) as [[b|e'|] t']; try done. by apply Hk.
Qed.

Lemma sim_pre {A B} P (c : M S A) (c' : M T B) Q :
  (forall s0 t0, P s0 t0 -> sim (fun s t => s = s0 /\ t = t0) c c' Q) -> sim P c c' Q.
Proof. intros H s t Hs. by apply (H s t Hs). Qed.

(** A call of the second program alone. *)
Lemma sim_right {A B B'} P (c : M S A) (c' : M T B) (k' : B -> M T B') R Q :
  (forall s t, P s t -> exists b t', c' t = (Done b, t') /\ R b s t') ->
  (forall b, sim (R b) c (k' b) Q) -> sim P c (bind c' k') Q.
Proof.
  intros Hc Hk s t Hs. destruct (Hc s t Hs) as (b & t' & Hrun & HR).
  rewrite (bind_done _ _ _ _ _ Hrun). by apply Hk.
Qed.

Lemma sim_access {A} P (o o' : option A) (Q : A -> A -> S -> T -> Prop) :
  o = o' -> (forall a s t, o = Some a -> P s t -> Q a a s t) -> sim P (access o) (access o') Q.
Proof. intros <- H s t Hs. destruct o; [by apply H|done]. Qed.

Lemma sim_for_each {A} (P : S -> T -> Prop) (l : list A) body body' :
  (forall x, x ∈ l -> sim P (body x) (body' x) (fun _ _ => P)) ->
  sim P (for_each l body) (for_each l body') (fun _ _ => P).
Proof.
  induction l as [|x l IH]; intros Hb; [by apply sim_ret|].
  rewrite !for_each_cons. eapply sim_bind; [apply Hb; left|]. intros [] []. apply IH.
  intros y Hy. apply Hb. by right.
Qed.

Lemma sim_for_fold {A B} (P : B -> S -> T -> Prop) (l : list A) b body body' :
  (forall b x, x ∈ l -> sim (P b) (body b x) (body' b x) (fun a a' s t => a = a' /\ P a s t)) ->
  sim (P b) (for_fold l b body) (for_fold l b body') (fun a a' s t => a = a' /\ P a s t).
Proof.
  revert b. induction l as [|x l IH]; intros b Hb; [by apply sim_ret|].
  rewrite !for_fold_cons. eapply sim_bind; [apply Hb; left|]. intros a a'.
  apply sim_pre. intros s0 t0 [<- H0] s t [-> ->]. apply IH; [|done]. intros c y Hy. apply Hb. by right.
Qed.

(** The first program keeps in a local variable what the second keeps in its state. *)
Lemma sim_fold_each {A B} (P : B -> S -> T -> Prop) (l : list A) b body body' :
  (forall b x, x ∈ l -> sim (P b) (body b x) (body' x) (fun a (_ : unit) s t => P a s t)) ->
  sim (P b) (for_fold l b body) (for_each l body') (fun a _ s t => P a s t).
Proof.
  revert b. induction l as [|x l IH]; intros b Hb; [by apply sim_ret|].
  rewrite for_fold_cons, for_each_cons. eapply sim_bind; [apply Hb; left|]. intros a [].
  apply IH. intros c y Hy. apply Hb. by right.
Qed.
End Sim.

(** ** The two planners *)

Section Planners.
Context (h : heap) (g : GraphInfo) (p : ArenaPlanner) (Hwf : graph_wf g).
Context (Hplain : Forall (fun nr => inplace_operator (snd nr) = kTfLiteInplaceOpNone) (gi_nodes g)).
Context (Houts : Forall (fun nr => Forall (valid g) (node_outputs (fst nr))) (gi_nodes g)).
Context (Hall : preserve_all_tensors_ p = false).

Abbreviation simple := SimplePlanner.sstate.
Abbreviation alloc_of s := (SimplePlanner.alloc_node_ (mp_planner s)).
Abbreviation dealloc_of s := (SimplePlanner.dealloc_node_ (mp_planner s)).

(** The arena planner's state has the schedule of the simple planner's; [v] are its counters. *)
Definition rel (ids : gmap Z Z) (v : list Z) (s : simple) (t : pstate) : Prop :=
  mp_graph s = g /\ exists q, t = St h g p (alloc_of s) (dealloc_of s) q v ids /\
    sized g (alloc_of s) (dealloc_of s) q v.

(** One of the lambdas [allocate] and [deallocate]. *)
Lemma sim_allocate i x ids v : valid g x ->
  sim (rel ids v) (SimplePlanner.allocate i x) (allocate i x) (fun _ _ => rel ids v).
Proof.
  intros Hx s t (Hg & q & -> & Hs). pose proof Hs as (Ha & Hd & _). unfold valid in Hx.
  unfold SimplePlanner.allocate, allocate, bind, mp_this, this, ensure. cbn.
  rewrite (zlookup_zget (alloc_of s)) by lia. cbn. change SimplePlanner.kNodeNotAssigned with kNodeNotAssigned.
  destruct (negb _); [by split; [|exists q]|]. cbn.
  rewrite (zlookup_zget (dealloc_of s)) by lia. cbn.
  destruct (_ =? _); [|done]. cbn. rewrite zinsert_zset by lia. cbn.
  split; [done|]. exists q. split; [done|]. unfold sized in *. cbn. by rewrite zlength_zset.
Qed.

Lemma sim_deallocate i x ids v : valid g x ->
  sim (rel ids v) (SimplePlanner.deallocate i x) (deallocate i x) (fun _ _ => rel ids v).
Proof.
  intros Hx s t (Hg & q & -> & Hs). pose proof Hs as (Ha & Hd & _). unfold valid in Hx.
  unfold SimplePlanner.deallocate, deallocate, bind, mp_this, this, ensure. cbn.
  rewrite (zlookup_zget (alloc_of s)) by lia. cbn. change SimplePlanner.kNodeNotAssigned with kNodeNotAssigned.
  destruct (zget (alloc_of s) x =? _); [by split; [|exists q]|]. cbn.
  rewrite (zlookup_zget (dealloc_of s)) by lia. cbn.
  destruct (_ =? _); [|done]. cbn. rewrite zinsert_zset by lia. cbn.
  split; [done|]. exists q. split; [done|]. unfold sized in *. cbn. by rewrite zlength_zset.
Qed.

Lemma queue_tensor_rel i x ids v s t : 0 <= i < Z.max (num_execution_nodes g) 1 -> rel ids v s t ->
  exists b t', queue_tensor i x t = (Done b, t') /\ (fun _ : unit => rel ids v) b s t'.
Proof.
  intros Hi (Hg & q & -> & Hs). pose proof Hs as (_ & _ & _ & Hq).
  rewrite queue_tensor_run by (done || lia). eexists _, _. split; [done|].
  split; [done|]. eexists. split; [done|]. unfold sized in *. unfold queue_upd. by rewrite zlength_zset.
Qed.

(** Incrementing a counter. *)
Lemma sim_incr x ids v : valid g x ->
  sim (rel ids v) (access (SimplePlanner.add_count v x 1)) (incr_refcount x)
    (fun rc _ => rel ids rc).
Proof.
  intros Hx s t (Hg & q & -> & Hs). rewrite incr_refcount_run by done.
  destruct Hs as (? & ? & Hv & ?). unfold valid in Hx.
  change (SimplePlanner.add_count v x 1) with (add_count v x 1). rewrite add_count_run by lia. cbn.
  split; [done|]. exists q. split; [done|]. unfold sized. by rewrite zlength_zset.
Qed.

Lemma graph_rel_run ids v s t : rel ids v s t -> mp_graph s = g /\ ps_graph t = g.
Proof. by intros (? & q & -> & _). Qed.

(** Both programs read the graph. *)
Lemma sim_graph {A B} ids v (k : GraphInfo -> M simple A) (k' : GraphInfo -> M pstate B) Q :
  sim (rel ids v) (k g) (k' g) Q -> sim (rel ids v) (bind mp_graph_info k) (bind graph_info k') Q.
Proof.
  intros Hk s t Hs. pose proof (graph_rel_run _ _ _ _ Hs) as [Hg Hg'].
  rewrite (bind_done mp_graph_info _ s (mp_graph s) s), (bind_done graph_info _ t (ps_graph t) t) by done.
  rewrite Hg, Hg'. by apply Hk.
Qed.

Lemma opt_cases x : opt_valid g x ->
  (x = kTfLiteOptionalTensor) \/ ((x =? kTfLiteOptionalTensor) = false /\ valid g x).
Proof.
  intros [->|Hv]; [by left|]. right. split; [|done]. apply Z.eqb_neq. unfold valid, kTfLiteOptionalTensor in *. lia.
Qed.

Lemma sim_plan_pinned ids v :
  sim (rel ids v) (SimplePlanner.plan_pinned v) plan_pinned (fun rc _ => rel ids rc).
Proof.
  destruct Hwf as [Hin Hout Hvar _ _ _ _]. rewrite Forall_forall in Hin, Hout, Hvar.
  unfold SimplePlanner.plan_pinned, plan_pinned. apply sim_graph.
  eapply sim_bind.
  { apply (sim_fold_each (rel ids)). intros rc x Hx.
    destruct (opt_cases x (Hout x Hx)) as [->|[-> Hv]]; cbn; [by apply sim_ret|by apply sim_incr]. }
  intros rc []. eapply sim_bind.
  { apply (sim_fold_each (rel ids)). intros rc1 x Hx.
    eapply sim_bind; [by apply sim_incr, Hvar|]. intros rc2 [].
    apply (sim_bind _ _ _ (fun _ _ => rel ids rc2)); [|intros [] []; eapply sim_bind;
      [by apply sim_allocate, Hvar|intros [] []]].
    - intros s t Hs. by destruct (negb _).
    - intros s t Hs. destruct (queue_tensor_rel 0 x _ _ _ _ ltac:(lia) Hs) as ([] & t' & -> & ?). done. }
  intros rc3 []. apply (sim_fold_each (rel ids)). intros rc4 x Hx.
  destruct (opt_cases x (Hin x Hx)) as [->|[-> Hv]]; cbn; [by apply sim_ret|].
  eapply sim_bind; [by apply sim_incr|]. intros rc5 [].
  eapply sim_bind; [by apply sim_allocate|intros [] []].
  intros s t Hs. destruct (queue_tensor_rel 0 x _ _ _ _ ltac:(lia) Hs) as ([] & t' & -> & ?). done.
Qed.

(** Without in-place operators no buffer is shared. *)
Lemma identify_plain a d q v ids : IdentifyInPlaceTensors (St h g p a d q v ids) =
  (Done tt, St h g p a d q v ∅).
Proof.
  unfold IdentifyInPlaceTensors. rewrite (bind_done _ _ _ tt (St h g p a d q v ∅)) by done.
  rewrite (bind_done graph_info _ _ g (St h g p a d q v ∅)) by done.
  induction Hplain as [|[node reg] l Hr Hl IH]; [done|]. rewrite for_each_cons.
  cbn in Hr. unfold identify_node at 1. rewrite Hr. cbn [Z.eqb kTfLiteInplaceOpNone].
  destruct (node_outputs node); rewrite bind_ret; (apply IH; [done|]);
    by inversion Houts.
Qed.

(** Counting the references of node inputs. *)
Lemma sim_count_inputs rc v : 
  sim (rel ∅ v) (SimplePlanner.count_inputs rc) (count_shared_inputs rc)
    (fun a b s t => a = b /\ rel ∅ v s t).
Proof.
  unfold SimplePlanner.count_inputs, count_shared_inputs. apply sim_graph.
  apply (sim_for_fold (fun _ => rel ∅ v)). intros rc1 nr Hnr.
  apply (sim_for_fold (fun _ => rel ∅ v)). intros rc2 x Hx.
  pose proof (wf_nodes g Hwf) as Hn. rewrite Forall_forall in Hn. destruct (Hn nr Hnr) as [Hin _].
  rewrite Forall_forall in Hin. destruct (opt_cases x (Hin x Hx)) as [->|[-> Hv]]; cbn; [by apply sim_ret|].
  intros s t Hs. pose proof Hs as (_ & q & -> & _). unfold FindSharedTensor, bind, this, ret. cbn.
  unfold find_shared. rewrite lookup_empty. cbn.
  change (SimplePlanner.add_count rc2 x 1) with (add_count rc2 x 1).
  by destruct (add_count rc2 x 1).
Qed.

(** One node of the last loop. *)
Lemma sim_plan_outputs i nr v : nr ∈ gi_nodes g -> 0 <= i < Z.max (num_execution_nodes g) 1 ->
  sim (rel ∅ v) (SimplePlanner.plan_outputs i (fst nr)) (plan_outputs i (fst nr)) (fun _ _ => rel ∅ v).
Proof.
  intros Hnr Hi. unfold SimplePlanner.plan_outputs, plan_outputs. apply sim_for_each. intros x Hx.
  rewrite Forall_forall in Houts. specialize (Houts nr Hnr). rewrite Forall_forall in Houts.
  pose proof (Houts x Hx) as Hv. rewrite (proj2 (Z.eqb_neq x kTfLiteOptionalTensor))
    by (unfold valid, kTfLiteOptionalTensor in *; lia).
  eapply sim_right; [by intros s t Hs; apply (queue_tensor_rel i x _ _ _ _ Hi Hs)|].
  intros []. by apply sim_allocate.
Qed.

Lemma sim_plan_inputs i nr rc v : nr ∈ gi_nodes g ->
  sim (rel ∅ v) (SimplePlanner.plan_inputs i (fst nr) rc) (plan_inputs i (fst nr) rc)
    (fun a b s t => a = b /\ rel ∅ v s t).
Proof.
  intros Hnr. unfold SimplePlanner.plan_inputs, plan_inputs.
  apply (sim_for_fold (fun _ => rel ∅ v)). intros rc1 x Hx.
  pose proof (wf_nodes g Hwf) as Hn. rewrite Forall_forall in Hn. destruct (Hn nr Hnr) as [Hin _].
  rewrite Forall_forall in Hin. destruct (opt_cases x (Hin x Hx)) as [->|[-> Hv]]; cbn; [by apply sim_ret|].
  eapply sim_right.
  { intros s t (Hg & q & -> & Hs). exists x, (St h g p (alloc_of s) (dealloc_of s) q v ∅).
    unfold FindSharedTensor, bind, this, ret. cbn. unfold find_shared. rewrite lookup_empty.
    split; [done|]. instantiate (1 := fun b s t => b = x /\ rel ∅ v s t).
    split; [done|]. split; [done|]. by exists q. }
  intros b. apply sim_pre. intros s0 t0 [-> H0].
  eapply sim_bind; [by apply (sim_access _ _ _ (fun a a' s t => a = a' /\ s = s0 /\ t = t0)); [|intros ? ? ? ? []]|].
  intros rc2 rc2'. apply sim_pre. intros s1 t1 (<- & -> & ->).
  eapply sim_bind; [by apply (sim_access _ _ _ (fun a a' s t => a = a' /\ s = s0 /\ t = t0)); [|intros ? ? ? ? []]|].
  intros c c'. apply sim_pre. intros s1 t1 (<- & -> & ->).
  apply (sim_bind _ _ _ (fun _ _ => rel ∅ v)); [|intros _ _; by apply sim_ret].
  intros s t [-> ->]. destruct (c =? 0); [by apply (sim_deallocate i x ∅ v Hv)|done].
Qed.

Lemma sim_plan_nodes rc v :
  sim (rel ∅ v) (SimplePlanner.plan_nodes rc) (plan_nodes rc) (fun a b s t => a = b /\ rel ∅ v s t).
Proof.
  unfold SimplePlanner.plan_nodes, plan_nodes. apply sim_graph.
  apply (sim_for_fold (fun _ => rel ∅ v)). intros rc1 [i nr] Hin.
  apply enumerate_elem in Hin as (k & -> & Hk). pose proof (lookup_lt_Some _ _ _ Hk).
  assert (Hnr : nr ∈ gi_nodes g) by (by eapply list_elem_of_lookup_2).
  destruct nr as [node reg]. cbn.
  eapply sim_bind; [apply (sim_plan_outputs _ (node, reg) v Hnr); unfold num_execution_nodes, zlength; lia|].
  intros [] []. eapply sim_right.
  { intros s t (Hg & q & -> & Hs). eexists _, _. split; [done|].
    instantiate (1 := fun b s t => preserve_all_tensors_ b = false /\ rel ∅ v s t). cbn.
    split; [done|]. split; [done|]. by exists q. }
  intros b. apply sim_pre. intros s0 t0 [-> H0] s t [-> ->]. by apply (sim_plan_inputs _ (node, reg) rc1 v Hnr).
Qed.

(** Both programs start from an empty schedule. *)
Lemma start_rel s : SimplePlannerProof.owns s -> mp_graph s = g ->
  exists s1 t1, SimplePlanner.start_plan s = (Done (replicate (Z.to_nat (num_tensors g)) 0), s1) /\
    start_plan (PState h g p) = (Done tt, t1) /\
    rel (actual_tensor_id_ p) (replicate (Z.to_nat (num_tensors g)) 0) s1 t1.
Proof.
  intros Hown Hg. destruct (SimplePlannerProof.FreeAllAllocations_run (MM := bump_place) (MMOk := bump_place_ok) s Hown)
    as (s0 & Hfree & _ & _ & Hg0 & _).
  rewrite Hg in Hg0. set (u := replicate (Z.to_nat (num_tensors g)) kNodeNotAssigned).
  exists (MPState (mp_heap s0) g (SimplePlanner.mkSimplePlanner
    (zresize [] (num_tensors g) SimplePlanner.SimpleAlloc_reset) u u)).
  eexists. split; [|split; [apply start_plan_run; exact Hwf|]].
  - unfold SimplePlanner.start_plan, SimplePlanner.ResetAllocations.
    rewrite !bind_assoc, (bind_done _ _ _ _ _ Hfree). unfold bind, mp_graph_info, mp_set_this, modify. cbn.
    by rewrite Hg0.
  - split; [done|]. eexists. split; [done|]. unfold sized. cbn.
    pose proof (zlength_nonneg (gi_tensors g)). fold (num_tensors g) in *.
    subst u. rewrite !zlength_replicate, zlength_zresize by lia. done.
Qed.

Lemma planners_sim s : SimplePlannerProof.owns s -> mp_graph s = g ->
  exists p' s', PlanAllocations (PState h g p) = (Done tt, PState h g p') /\ plan_ok g p p' /\
    SimplePlanner.PlanAllocations s = (Done tt, s') /\
    alloc_of s' = alloc_node_ p' /\ dealloc_of s' = dealloc_node_ p' /\ actual_tensor_id_ p' = ∅.
Proof.
  intros Hown Hg. destruct (PlanAllocations_plan_ok h g p Hwf) as (p' & Hrun & Hok).
  destruct (start_rel s Hown Hg) as (s1 & t1 & Hs1 & Ht1 & Hrel).
  cut (sim (rel (actual_tensor_id_ p) (replicate (Z.to_nat (num_tensors g)) 0))
    (let* rc := SimplePlanner.plan_pinned (replicate (Z.to_nat (num_tensors g)) 0) in
     let* rc := SimplePlanner.count_inputs rc in SimplePlanner.plan_nodes rc ;;; ret tt)
    (plan_pinned ;;; let* p := this in count_node_inputs ;;;
     IdentifyInPlaceTensors ;;; let* refcounts := count_shared_inputs (refcounts_ p) in
     plan_nodes refcounts ;;; ret tt) (fun _ _ s t => exists v, rel ∅ v s t)).
  - intros Hsim. specialize (Hsim s1 t1 Hrel).
    pose proof Hrun as Hrun1. unfold PlanAllocations in Hrun1.
    rewrite (bind_done _ _ _ _ _ Ht1) in Hrun1. rewrite Hrun1 in Hsim.
    unfold SimplePlanner.PlanAllocations.
    match type of Hsim with (match ?c _ with _ => _ end) => set (body := c) in * end.
    destruct (body s1) as [[[]|e|] s'] eqn:Hbody; [|done|done].
    destruct Hsim as (v & Hg' & q & Heq & _). exists p', s'. split_and!; try done.
    + by rewrite (bind_done _ _ _ _ _ Hs1).
    + by injection Heq as ->.
    + by injection Heq as ->.
    + by injection Heq as ->.
  - eapply sim_bind; [apply sim_plan_pinned|]. intros rc [].
    eapply sim_right; [intros s0 t0 H0; exists (ps_planner t0), t0; split; [done|];
      instantiate (1 := fun b s t => refcounts_ b = rc /\ rel (actual_tensor_id_ p) rc s t);
      split; [by destruct H0 as (_ & q & -> & _)|done]|].
    intros b. apply sim_pre. intros s0 t0 [Hb H0]. rewrite Hb.
    apply (sim_right _ _ _ _ (fun _ s t => exists v, rel (actual_tensor_id_ p) v s t)).
    { intros s2 t2 [-> ->]. destruct H0 as (Hg0 & q & -> & Hs0).
      destruct (count_node_inputs_spec h g p Hwf _ _ q rc (actual_tensor_id_ p) Hs0) as (v & -> & Hsv).
      eexists _, _. split; [done|]. exists v. split; [done|]. by exists q. }
    intros []. apply (sim_right _ _ _ _ (fun _ s t => exists v, rel ∅ v s t)).
    { intros s2 t2 (v & Hg2 & q & -> & Hs2). rewrite identify_plain. eexists _, _. split; [done|].
      exists v. split; [done|]. by exists q. }
    intros []. intros s3 t3 (v & H3). revert s3 t3 H3.
    eapply sim_bind; [apply sim_count_inputs|]. intros rc2 rc2'.
    apply sim_pre. intros s4 t4 [<- H4].
    eapply sim_bind; [intros ? ? [-> ->]; by apply (sim_plan_nodes rc2 v)|].
    intros ? ?. apply sim_ret. intros ? ? [_ ?]. by eexists.
Qed.
End Planners.

(** *** The schedule *)

(** No operator reuses the buffer of its input, and no output is omitted. *)
Definition plain_graph (g : GraphInfo) : Prop :=
  Forall (fun nr => inplace_operator (snd nr) = kTfLiteInplaceOpNone) (gi_nodes g) /\
  Forall (fun nr => Forall (valid g) (node_outputs (fst nr))) (gi_nodes g).

(** C13. On a well-formed graph whose operators reuse no buffer and have no omitted output, and with
    the arena planner not told to preserve all tensors, both planners succeed and assign every
    tensor the same first and last node; so the simple planner too keeps every tensor that is an
    input or a variable of the graph, or that a node writes, from before its first use until after
    its last. *)
Theorem planners_agree h g p s :
  graph_wf g -> plain_graph g -> preserve_all_tensors_ p = false ->
  SimplePlannerProof.owns s -> mp_graph s = g ->
  exists p' s', PlanAllocations (PState h g p) = (Done tt, PState h g p') /\
    SimplePlanner.PlanAllocations s = (Done tt, s') /\
    SimplePlanner.alloc_node_ (mp_planner s') = alloc_node_ p' /\
    SimplePlanner.dealloc_node_ (mp_planner s') = dealloc_node_ p' /\
    forall i x, uses g i x ->
      (zget (SimplePlanner.alloc_node_ (mp_planner s')) x <= Z.of_nat i \/
       zget (SimplePlanner.alloc_node_ (mp_planner s')) x = SimplePlanner.kNodeNotAssigned /\ ~ provided g x) /\
      Z.of_nat i <= zget (SimplePlanner.dealloc_node_ (mp_planner s')) x.
Proof.
  intros Hwf [Hplain Houts] Hall Hown Hg.
  destruct (planners_sim h g p Hwf Hplain Houts Hall s Hown Hg) as (p' & s' & Hrun & Hok & Hrun' & Ha & Hd & Hids).
  exists p', s'. split_and!; try done. intros i x Hu. rewrite Ha, Hd.
  pose proof (plan_lifetime _ _ _ i x Hwf Hok Hu) as H. unfold owner, find_shared in H.
  by rewrite Hids, lookup_empty in H.
Qed.

(** An omitted optional output, which the arena planner skips, is used by the simple planner as
    the index -1 of its vectors. *)
Definition omitted_output_graph : GraphInfo :=
  mkGraphInfo (replicate 2 (rw_tensor 16)) [example_op 0 [0] [1; kTfLiteOptionalTensor]] [0] 1 [0] [1] [].

Example simple_planner_omitted_output :
  graph_wf omitted_output_graph /\
  fst (PlanAllocations (PState heap_empty omitted_output_graph example_planner)) = Done tt /\
  fst (SimplePlanner.PlanAllocations
         (MPState heap_empty omitted_output_graph SimplePlanner.SimplePlanner_init)) = Undef.
Proof. split_and!; [by apply graph_wf_b_ok; vm_compute|by vm_compute..]. Qed.

(** *** Witness *)

Lemma planners_agree_witness :
  let g := SimplePlannerProof.example_graph in
  exists p' s', PlanAllocations (PState heap_empty g (ArenaPlanner_init false 64 0)) =
      (Done tt, PState heap_empty g p') /\
    SimplePlanner.PlanAllocations (MPState heap_empty g SimplePlanner.SimplePlanner_init) = (Done tt, s') /\
    SimplePlanner.alloc_node_ (mp_planner s') = alloc_node_ p' /\
    SimplePlanner.dealloc_node_ (mp_planner s') = dealloc_node_ p' /\
    forall i x, uses g i x ->
      (zget (SimplePlanner.alloc_node_ (mp_planner s')) x <= Z.of_nat i \/
       zget (SimplePlanner.alloc_node_ (mp_planner s')) x = SimplePlanner.kNodeNotAssigned /\ ~ provided g x) /\
      Z.of_nat i <= zget (SimplePlanner.dealloc_node_ (mp_planner s')) x.
Proof.
  apply planners_agree;
    [apply graph_wf_b_ok; vm_compute; reflexivity|split; repeat constructor; done|done
    |apply SimplePlannerProof.init_owns|done].
Defined.
