(* ===== verification/Partition.v ===== *)
(** * Partitioning a graph into node subsets (tensorflow/lite/graph_info.cc)

    [PartitionGraphIntoIndependentNodeSubsets]: the graph's execution plan is cut into
    subsets of nodes that a delegate takes or leaves as a whole. *)
From S2P Require Import Prelude Heap Common GraphInfo.
#[local] Open Scope Z_scope.

(** ** Data *)

Inductive NodeSubsetType := kTfUnexplored | kTfPartition | kTfNonPartition.

#[global] Instance NodeSubsetType_eq_dec : EqDecision NodeSubsetType.
Proof. solve_decision. Defined.

Record NodeSubset := mkNodeSubset {
  type : NodeSubsetType;
  nodes : list Z;
  input_tensors : list Z;
  output_tensors : list Z }.

(** [NodeSubset()]. *)
Definition NodeSubset_new : NodeSubset := mkNodeSubset kTfUnexplored [] [] [].

(** Node [edge.2] depends on node [edge.1]. *)
Abbreviation ControlEdge := (Z * Z)%type.

Definition edge_ltb (a b : ControlEdge) : bool :=
  (a.1 <? b.1) || ((a.1 =? b.1) && (a.2 <? b.2)).

(** [std::unique]: of equal neighbours the first is kept. *)
Fixpoint unique {A} `{EqDecision A} (l : list A) : list A :=
  match l with
  | x :: (y :: _) as l' => if bool_decide (x = y) then unique l' else x :: unique l'
  | _ => l
  end.

Definition Uniquefy `{StdSort} {A} `{EqDecision A} (ltb : A -> A -> bool) (items : list A)
    : list A := unique (std_sort ltb items).

(** [std::lower_bound] on a sorted vector: the suffix that starts at the first element not
    below [e]. *)
Fixpoint lower_bound (l : list ControlEdge) (e : ControlEdge) : list ControlEdge :=
  match l with
  | x :: l' => if edge_ltb x e then lower_bound l' e else l
  | [] => []
  end.

Definition kEpochNotReady : Z := -1.
Definition kEpochAlwaysReady : Z := -2.

(** The members of [PartitionGraphIntoIndependentNodeSubsetsImpl] that change. *)
Record partitioner := mkPartitioner {
  node_subsets_ : list NodeSubset;
  tensor_epochs_ : list Z;
  node_epochs_ : list Z;
  num_incoming_control_edges_ : list Z }.

(** ** The partitioner *)

Section Partitioner.
Context {SS : StdSort}.
Context (info_ : GraphInfo) (greedily_ disable_node_fusion_ : bool).
(** [node_type_] and [control_edges_] do not change after the constructor. *)
Context (node_type_ : list NodeSubsetType) (control_edges_ : list ControlEdge).

Definition set_subsets (l : list NodeSubset) : M partitioner unit :=
  modify (fun s => mkPartitioner l (tensor_epochs_ s) (node_epochs_ s)
    (num_incoming_control_edges_ s)).

(** The subset at position [k], as an lvalue. *)
Definition update_subset (k : Z) (f : NodeSubset -> NodeSubset) : M partitioner unit :=
  let* s := get in
  let* subset := access ((node_subsets_ s).[k]) in
  let* l := access (zinsert (node_subsets_ s) k (f subset)) in
  set_subsets l.

Definition push_node (n : Z) (b : NodeSubset) : NodeSubset :=
  mkNodeSubset (type b) (nodes b ++ [n]) (input_tensors b) (output_tensors b).
Definition push_input (t : Z) (b : NodeSubset) : NodeSubset :=
  mkNodeSubset (type b) (nodes b) (input_tensors b ++ [t]) (output_tensors b).
Definition push_output (t : Z) (b : NodeSubset) : NodeSubset :=
  mkNodeSubset (type b) (nodes b) (input_tensors b) (output_tensors b ++ [t]).
Definition set_subset_type (ty : NodeSubsetType) (b : NodeSubset) : NodeSubset :=
  mkNodeSubset ty (nodes b) (input_tensors b) (output_tensors b).

Definition tensor_epoch (t : Z) : M partitioner Z :=
  let* s := get in access ((tensor_epochs_ s).[t]).

Definition set_tensor_epoch (t e : Z) : M partitioner unit :=
  let* s := get in
  let* l := access (zinsert (tensor_epochs_ s) t e) in
  modify (fun s => mkPartitioner (node_subsets_ s) l (node_epochs_ s)
    (num_incoming_control_edges_ s)).

Definition set_node_epoch (n e : Z) : M partitioner unit :=
  let* s := get in
  let* l := access (zinsert (node_epochs_ s) n e) in
  modify (fun s => mkPartitioner (node_subsets_ s) (tensor_epochs_ s) l
    (num_incoming_control_edges_ s)).

Definition add_incoming (n d : Z) : M partitioner unit :=
  let* s := get in
  let* k := access ((num_incoming_control_edges_ s).[n]) in
  let* l := access (zinsert (num_incoming_control_edges_ s) n (k + d)) in
  modify (fun s => mkPartitioner (node_subsets_ s) (tensor_epochs_ s) (node_epochs_ s) l).

(** [info_->node(node_index)]. *)
Definition node_at (node_index : Z) : M partitioner TfLiteNode :=
  let* nr := access ((gi_nodes info_).[node_index]) in ret nr.1.

(** The first loop over [node.inputs]: have all of them an epoch? *)
Fixpoint inputs_ready (inputs : list Z) : M partitioner bool :=
  match inputs with
  | [] => ret true
  | t :: inputs' =>
    if t =? kTfLiteOptionalTensor then inputs_ready inputs'
    else
      let* e := tensor_epoch t in
      if e =? kEpochNotReady then ret false else inputs_ready inputs'
  end.

(** The loop over [node.outputs]. *)
Definition assign_outputs (current_epoch : Z) (outputs : list Z) : M partitioner unit :=
  for_each outputs (fun t =>
    if t =? kTfLiteOptionalTensor then ret tt else set_tensor_epoch t current_epoch).

(** The second loop over [node.inputs]. *)
Definition record_inputs (current_epoch : Z) (inputs : list Z) : M partitioner unit :=
  for_each inputs (fun t =>
    if t =? kTfLiteOptionalTensor then ret tt
    else
      let* input_epoch := tensor_epoch t in
      if negb (input_epoch =? current_epoch) then
        update_subset current_epoch (push_input t) ;;;
        (if 0 <=? input_epoch then update_subset input_epoch (push_output t) else ret tt)
      else ret tt).

(** The loop over the control edges that start at [node_index]. *)
Fixpoint release_edges (node_index : Z) (edges : list ControlEdge) : M partitioner unit :=
  match edges with
  | [] => ret tt
  | e :: edges' =>
    if e.1 =? node_index then add_incoming e.2 (-1) ;;; release_edges node_index edges'
    else ret tt
  end.

(** The part of [UpdateNode] that assigns the node to the current epoch. *)
Definition assign_node (node : TfLiteNode) (node_index original_node_idx current_epoch : Z)
    : M partitioner unit :=
  set_node_epoch node_index current_epoch ;;;
  update_subset current_epoch (push_node original_node_idx) ;;;
  assign_outputs current_epoch (node_outputs node) ;;;
  record_inputs current_epoch (node_inputs node) ;;;
  release_edges node_index (lower_bound control_edges_ (node_index, 0)).

Definition UpdateNode (node_index : Z) : M partitioner bool :=
  let* node := node_at node_index in
  let* s := get in
  let current_epoch := zlength (node_subsets_ s) - 1 in
  let* current_subset := access ((node_subsets_ s).[current_epoch]) in
  if disable_node_fusion_ && negb (bool_decide (nodes current_subset = [])) then ret false
  else
    let* e := access ((node_epochs_ s).[node_index]) in
    if negb (e =? kEpochNotReady) then ret false
    else
      let* ready := inputs_ready (node_inputs node) in
      if negb ready then ret false
      else
        let* incoming := access ((num_incoming_control_edges_ s).[node_index]) in
        if negb (incoming =? 0) then ret false
        else
          let* original_node_idx := access ((gi_node_index info_).[node_index]) in
          let* node_type := access (node_type_.[original_node_idx]) in
          let* current_type :=
            (if bool_decide (type current_subset = kTfUnexplored) then
               update_subset current_epoch (set_subset_type node_type) ;;; ret node_type
             else ret (type current_subset)) in
          if bool_decide (current_type = node_type) then
            assign_node node node_index original_node_idx current_epoch ;;; ret true
          else ret false.

(** One pass over the execution plan: whether [BuildNodeSubset] returns in it, and
    [did_something]. *)
Fixpoint pass (indices : list Z) (did_something : bool) : M partitioner (bool * bool) :=
  match indices with
  | [] => ret (false, did_something)
  | node_index :: indices' =>
    let* updated := UpdateNode node_index in
    if updated then pass indices' true
    else if did_something && negb greedily_ then ret (true, did_something)
    else pass indices' did_something
  end.

(** The [while (true)] of [BuildNodeSubset]; it ends within [num_execution_nodes + 1]
    passes, since each but the last assigns a node. *)
Fixpoint passes (fuel : nat) : M partitioner unit :=
  match fuel with
  | O => undef
  | S fuel' =>
    let* r := pass (zrange 0 (num_execution_nodes info_ - 1)) false in
    if r.1 || negb r.2 then ret tt else passes fuel'
  end.

Definition fuel : nat := S (Z.to_nat (num_execution_nodes info_)).

Definition BuildNodeSubset : M partitioner unit :=
  let* s := get in
  set_subsets (node_subsets_ s ++ [NodeSubset_new]) ;;; passes fuel.

(** The [while (true)] of [Partition]: each epoch but the last has a node. *)
Fixpoint epochs (fuel' : nat) : M partitioner unit :=
  match fuel' with
  | O => undef
  | S fuel' =>
    BuildNodeSubset ;;;
    let* s := get in
    let* b := access ((node_subsets_ s).[zlength (node_subsets_ s) - 1]) in
    if bool_decide (nodes b = []) then
      set_subsets (take (length (node_subsets_ s) - 1) (node_subsets_ s))
    else epochs fuel'
  end.

(** The initialisation at the start of [Partition]. *)
Definition initialize : M partitioner unit :=
  put (mkPartitioner []
    (replicate (Z.to_nat (num_tensors info_)) kEpochAlwaysReady)
    (replicate (Z.to_nat (num_execution_nodes info_)) kEpochNotReady)
    (replicate (Z.to_nat (num_execution_nodes info_)) 0)) ;;;
  for_each control_edges_ (fun edge => add_incoming edge.2 1) ;;;
  for_each (gi_nodes info_) (fun nr => assign_outputs kEpochNotReady (node_outputs nr.1)).

(** The graph's outputs become outputs of their subsets. *)
Definition record_graph_outputs : M partitioner unit :=
  for_each (gi_outputs info_) (fun output_index =>
    let* output_epoch := tensor_epoch output_index in
    if output_epoch =? kEpochAlwaysReady then ret tt
    else update_subset output_epoch (push_output output_index)).

Definition uniquefy_subset (b : NodeSubset) : NodeSubset :=
  mkNodeSubset (type b) (nodes b) (Uniquefy Z.ltb (input_tensors b))
    (Uniquefy Z.ltb (output_tensors b)).

Definition Partition : M partitioner unit :=
  initialize ;;;
  epochs fuel ;;;
  record_graph_outputs ;;;
  let* s := get in set_subsets (uniquefy_subset <$> node_subsets_ s).
End Partitioner.

(** The constructor's [node_type_]: an index out of range is undefined. *)
Fixpoint mark_nodes (nodes_to_partition : list Z) (types : list NodeSubsetType)
    : option (list NodeSubsetType) :=
  match nodes_to_partition with
  | [] => Some types
  | n :: rest =>
    match zinsert types n kTfPartition with
    | Some types' => mark_nodes rest types'
    | None => None
    end
  end.

(** The chain of the nodes with side effects, from node [node_index] on. *)
Fixpoint side_effect_chain (last_op_with_side_effect node_index : Z)
    (rest : list (TfLiteNode * TfLiteRegistration)) : list ControlEdge :=
  match rest with
  | [] => []
  | nr :: rest' =>
    if might_have_side_effect nr.1 then
      (if negb (last_op_with_side_effect =? -1) then [(last_op_with_side_effect, node_index)]
       else []) ++ side_effect_chain node_index (node_index + 1) rest'
    else side_effect_chain last_op_with_side_effect (node_index + 1) rest'
  end.

(** The edges given; without any, when partitioning greedily, the chain of side effects. *)
Definition effective_edges (info : GraphInfo) (greedily : bool)
    (control_edges : option (list ControlEdge)) : list ControlEdge :=
  match control_edges with
  | Some edges => edges
  | None => if greedily then side_effect_chain (-1) 0 (gi_nodes info) else []
  end.

(** [control_edges] is null or the edges given. *)
Definition PartitionGraphIntoIndependentNodeSubsets `{StdSort} (info : GraphInfo)
    (nodes_to_partition : list Z) (greedily : bool) (control_edges : option (list ControlEdge))
    (disable_node_fusion : bool) : outcome (list NodeSubset) :=
  let edges := effective_edges info greedily control_edges in
  match mark_nodes nodes_to_partition
          (replicate (Z.to_nat (gi_num_total_nodes info)) kTfNonPartition) with
  | None => Undef
  | Some node_type =>
    match Partition info greedily disable_node_fusion node_type (Uniquefy edge_ltb edges)
            (mkPartitioner [] [] [] []) with
    | (Done _, s) => Done (node_subsets_ s)
    | (Fail e, _) => Fail e
    | (Undef, _) => Undef
    end
  end.
