(* ===== verification/PartitionProof.v ===== *)
(** * What partitioning promises

    On a graph whose dependencies are free of cycles the partitioner ends, every node of the
    execution plan is in exactly one subset, the subsets are homogeneous and executable in
    their order, and their input and output tensors are exactly those that cross their
    boundaries. *)
From S2P Require Import Prelude Heap Common GraphInfo Partition.
#[local] Open Scope Z_scope.

Lemma filter_ext_in {A} (R Q : A -> Prop) `{!forall x, Decision (R x)}
    `{!forall x, Decision (Q x)} (l : list A) :
  (forall x, x ∈ l -> R x <-> Q x) -> filter R l = filter Q l.
Proof.
  induction l as [|x l IH]; intros Heq; [done|]. rewrite !filter_cons, IH.
  - pose proof (Heq x (list_elem_of_here _ _)). repeat case_decide; (done || tauto).
  - intros y Hy. apply Heq. by constructor.
Qed.

(** ** Sorting control edges *)

Definition edge_le (x y : ControlEdge) : Prop := edge_ltb y x = false.

Lemma edge_ltb_spec x y : edge_ltb x y = true <-> x.1 < y.1 \/ (x.1 = y.1 /\ x.2 < y.2).
Proof. unfold edge_ltb. rewrite orb_true_iff, andb_true_iff, !Z.ltb_lt, Z.eqb_eq. done. Qed.

Lemma edge_le_spec x y : edge_le x y <-> x.1 < y.1 \/ (x.1 = y.1 /\ x.2 <= y.2).
Proof.
  unfold edge_le. rewrite <- not_true_iff_false, edge_ltb_spec. lia.
Qed.

Lemma edge_ltb_weak_order : strict_weak_order edge_ltb.
Proof.
  split_and!.
  - intros x. apply not_true_iff_false. rewrite edge_ltb_spec. lia.
  - intros x y z. rewrite !edge_ltb_spec. lia.
  - intros x y z. rewrite <- !not_true_iff_false, !edge_ltb_spec. lia.
Qed.

Lemma Zltb_weak_order : strict_weak_order Z.ltb.
Proof.
  split_and!.
  - apply Z.ltb_irrefl.
  - intros x y z. rewrite !Z.ltb_lt. lia.
  - intros x y z. rewrite !Z.ltb_ge. lia.
Qed.

Section Unique.
Context {A : Type} `{EqDecision A}.

Lemma unique_cons2 (x y : A) l :
  unique (x :: y :: l) = if bool_decide (x = y) then unique (y :: l) else x :: unique (y :: l).
Proof. done. Qed.

Lemma unique_elem (l : list A) x : x ∈ unique l <-> x ∈ l.
Proof.
  induction l as [|y [|z l] IH]; [done..|]. rewrite unique_cons2, (elem_of_cons (z :: l)).
  case_bool_decide as Hyz.
  - subst. rewrite IH, elem_of_cons. tauto.
  - by rewrite elem_of_cons, IH.
Qed.

Lemma unique_sorted (R : A -> A -> Prop) l : StronglySorted R l -> StronglySorted R (unique l).
Proof.
  induction 1 as [|y l Hl IH Hy]; [constructor|]. destruct l as [|z l]; [by repeat constructor|].
  rewrite unique_cons2. case_bool_decide; [done|]. constructor; [done|].
  rewrite Forall_forall in Hy. apply Forall_forall. intros x. rewrite unique_elem. auto.
Qed.

Lemma unique_NoDup (R : A -> A -> Prop) l :
  (forall x y, R x y -> R y x -> x = y) -> StronglySorted R l -> NoDup (unique l).
Proof.
  intros Hanti. induction 1 as [|y l Hl IH Hy]; [constructor|].
  destruct l as [|z l]; [apply NoDup_singleton|].
  rewrite unique_cons2. case_bool_decide as Hyz; [done|]. constructor; [|done].
  rewrite unique_elem. intros Hin. apply Hyz.
  pose proof (proj1 (Forall_cons _ _ _) Hy) as [Hyz' _].
  apply elem_of_cons in Hin as [->|Hin]; [done|].
  apply StronglySorted_inv in Hl as [_ Hz]. rewrite Forall_forall in Hz. auto.
Qed.
End Unique.

Section Uniquefied.
Context {SS : StdSort} {SSOk : StdSortOk}.

Lemma Uniquefy_elem {A} `{EqDecision A} (ltb : A -> A -> bool) l x :
  strict_weak_order ltb -> x ∈ Uniquefy ltb l <-> x ∈ l.
Proof.
  intros Hlt. unfold Uniquefy. rewrite unique_elem. by rewrite (std_sort_perm ltb l Hlt).
Qed.

Lemma Uniquefy_sorted {A} `{EqDecision A} (ltb : A -> A -> bool) l :
  strict_weak_order ltb -> StronglySorted (fun x y => ltb y x = false) (Uniquefy ltb l).
Proof. intros Hlt. by apply unique_sorted, std_sort_sorted. Qed.

(** A [std::vector<int>] after [Uniquefy] is strictly increasing. *)
Lemma Uniquefy_increasing (l : list Z) : StronglySorted Z.lt (Uniquefy Z.ltb l).
Proof.
  pose proof (Uniquefy_sorted Z.ltb l Zltb_weak_order) as Hs.
  assert (Hnd : NoDup (Uniquefy Z.ltb l)).
  { apply unique_NoDup with (fun x y => (y <? x) = false).
    - intros x y. rewrite !Z.ltb_ge. lia.
    - apply std_sort_sorted, Zltb_weak_order. }
  revert Hs Hnd. generalize (Uniquefy Z.ltb l). induction 1 as [|x l' Hl IH Hx]; [constructor|].
  intros [Hnin Hnd]%NoDup_cons. constructor; [auto|].
  apply Forall_forall. intros y Hy. pose proof (proj1 (Forall_forall _ _) Hx y Hy) as Hle.
  apply Z.ltb_ge in Hle. assert (x <> y) by (by intros ->). lia.
Qed.
End Uniquefied.

(** The edges that start at [n], in a sorted vector. *)
Lemma edges_of_tail (n : Z) (l : list ControlEdge) :
  StronglySorted edge_le l -> Forall (fun e => n <= e.1) l ->
  exists rest, l = filter (fun e => e.1 = n) l ++ rest /\
    forall e, head rest = Some e -> e.1 <> n.
Proof.
  induction 1 as [|e l Hl IH He]; intros Hge; [by exists []|].
  apply Forall_cons in Hge as [Hn Hge]. destruct (decide (e.1 = n)) as [Heq|Hne].
  - destruct (IH Hge) as (rest & Hrest & Hhead). exists rest.
    rewrite filter_cons_True by done. split; [|done]. cbn. by f_equal.
  - exists (e :: l). split; [|by intros ? [= <-]].
    rewrite filter_cons_False by done.
    match goal with |- _ = ?fl ++ _ => destruct fl as [|x l'] eqn:Hf end; [done|].
    assert (Hx : x ∈ x :: l') by constructor. rewrite <- Hf in Hx.
    apply list_elem_of_filter in Hx as [Hxn Hx]. rewrite Forall_forall in He.
    specialize (He x Hx). rewrite edge_le_spec in He. lia.
Qed.

Lemma edges_from (n : Z) (edges : list ControlEdge) :
  StronglySorted edge_le edges -> Forall (fun e => 0 <= e.2) edges ->
  exists rest, lower_bound edges (n, 0) = filter (fun e => e.1 = n) edges ++ rest /\
    forall e, head rest = Some e -> e.1 <> n.
Proof.
  induction 1 as [|e l Hl IH He]; intros Hpos; [by exists []|].
  apply Forall_cons in Hpos as [Hpos0 Hpos]. cbn [lower_bound].
  destruct (edge_ltb e (n, 0)) eqn:Hlt.
  - apply edge_ltb_spec in Hlt. cbn in Hlt. rewrite filter_cons_False by lia. by apply IH.
  - assert (Hge : n <= e.1).
    { apply not_true_iff_false in Hlt. rewrite edge_ltb_spec in Hlt. cbn in Hlt. lia. }
    apply edges_of_tail; [by constructor|]. constructor; [done|].
    eapply Forall_impl; [exact He|]. intros x. rewrite edge_le_spec. lia.
Qed.

(** ** The assumptions on the graph *)

Section Proof.
Context (info_ : GraphInfo) (greedily_ disable_node_fusion_ : bool).
Context (node_type_ : list NodeSubsetType) (control_edges_ : list ControlEdge).

Abbreviation N := (num_execution_nodes info_).
Abbreviation P := mkPartitioner.

(** Node [j] writes tensor [t]; node [i] reads it. *)
Definition produces (j t : Z) : Prop :=
  exists nr, (gi_nodes info_).[j] = Some nr /\ t ∈ node_outputs nr.1 /\ t <> kTfLiteOptionalTensor.
Definition reads (i t : Z) : Prop :=
  exists nr, (gi_nodes info_).[i] = Some nr /\ t ∈ node_inputs nr.1 /\ t <> kTfLiteOptionalTensor.

(** Node [i] needs node [j] to be executed first: for its data, or by a control edge. *)
Definition depends (i j : Z) : Prop :=
  (exists t, produces j t /\ reads i t) \/ (j, i) ∈ control_edges_.

(** The original index of the [i]-th node of the plan. *)
Definition original (i : Z) : Z := zget (gi_node_index info_) i.

Record partition_wf : Prop := {
  pw_graph : graph_wf info_;
  pw_outputs : Forall (valid info_) (gi_outputs info_);
  pw_index_length : zlength (gi_node_index info_) = N;
  pw_index_range : Forall (fun v => 0 <= v < zlength node_type_) (gi_node_index info_);
  pw_index_inj : NoDup (gi_node_index info_);
  pw_types : Forall (fun ty => ty <> kTfUnexplored) node_type_;
  pw_edges : Forall (fun e => 0 <= e.1 < N /\ 0 <= e.2 < N) control_edges_;
  pw_sorted : StronglySorted edge_le control_edges_;
  (** The dependencies have no cycle. *)
  pw_acyclic : exists rank : Z -> Z, (forall i, 0 <= rank i) /\
    forall i j, depends i j -> rank j < rank i }.

Context (Hwf : partition_wf).

Lemma node_in_range i : 0 <= i < N ->
  exists nr, (gi_nodes info_).[i] = Some nr /\ node_valid info_ nr.
Proof.
  intros Hi. destruct (zlookup_in_range (gi_nodes info_) i) as [nr Hnr]; [done|].
  exists nr. split; [done|]. eapply (proj1 (Forall_forall _ _) (wf_nodes _ (pw_graph Hwf))).
  by eapply zlookup_elem_of.
Qed.

Lemma original_lookup i : 0 <= i < N ->
  (gi_node_index info_).[i] = Some (original i) /\ 0 <= original i < zlength node_type_.
Proof.
  intros Hi. rewrite <- (pw_index_length Hwf) in Hi.
  pose proof (zlookup_zget _ _ Hi) as Hl. split; [done|].
  eapply (proj1 (Forall_forall _ _) (pw_index_range Hwf)). by eapply zlookup_elem_of.
Qed.

Lemma original_inj i j : 0 <= i < N -> 0 <= j < N -> original i = original j -> i = j.
Proof.
  intros Hi Hj Heq.
  destruct (original_lookup i Hi) as [Hli _], (original_lookup j Hj) as [Hlj _].
  rewrite Heq in Hli. apply zlookup_some in Hli as [_ Hli], Hlj as [_ Hlj].
  pose proof (NoDup_lookup _ _ _ _ (pw_index_inj Hwf) Hli Hlj). lia.
Qed.

(** The type a node is given by the constructor. *)
Definition type_of (i : Z) : NodeSubsetType := default kTfNonPartition node_type_.[original i].

Lemma type_of_lookup i : 0 <= i < N -> node_type_.[original i] = Some (type_of i) /\
  type_of i <> kTfUnexplored.
Proof.
  intros [_ Ho]%original_lookup. destruct (zlookup_in_range node_type_ _ Ho) as [ty Hty].
  unfold type_of. rewrite Hty. split; [done|].
  eapply (proj1 (Forall_forall _ _) (pw_types Hwf)). by eapply zlookup_elem_of.
Qed.

Lemma produces_single j k t : produces j t -> produces k t -> j = k.
Proof.
  intros (nj & Hj & Htj & Ht) (nk & Hk & Htk & _).
  apply zlookup_some in Hj as [? Hj], Hk as [? Hk].
  destruct (wf_single _ (pw_graph Hwf) _ _ _ _ _ Hj Hk Htj Htk); [done|lia].
Qed.

Lemma produces_valid j t : produces j t -> 0 <= j < N /\ valid info_ t.
Proof.
  intros (nr & Hj & Ht & Hne). pose proof (proj1 (zlookup_some _ _ _) Hj) as [Hr _].
  split; [done|]. destruct (node_in_range j Hr) as (nr' & Hj' & (_ & Ho & _)).
  rewrite Hj in Hj'. simplify_eq. rewrite Forall_forall in Ho. by destruct (Ho t Ht).
Qed.

Lemma reads_valid i t : reads i t -> 0 <= i < N /\ valid info_ t.
Proof.
  intros (nr & Hi & Ht & Hne). pose proof (proj1 (zlookup_some _ _ _) Hi) as [Hr _].
  split; [done|]. destruct (node_in_range i Hr) as (nr' & Hi' & (Hin & _ & _)).
  rewrite Hi in Hi'. simplify_eq. rewrite Forall_forall in Hin. by destruct (Hin t Ht).
Qed.

(** ** The effect of each step *)

Lemma update_subset_run ss te ne inc k b f : ss.[k] = Some b ->
  update_subset k f (P ss te ne inc) = (Done tt, P (zset ss k (f b)) te ne inc).
Proof.
  intros Hb. unfold update_subset, bind, get. cbn [node_subsets_]. rewrite Hb. cbn [access ret].
  pose proof (proj1 (zlookup_some _ _ _) Hb) as [Hr _].
  by rewrite zinsert_zset.
Qed.

Lemma set_tensor_epoch_run ss te ne inc t e : 0 <= t < zlength te ->
  set_tensor_epoch t e (P ss te ne inc) = (Done tt, P ss (zset te t e) ne inc).
Proof.
  intros Ht. unfold set_tensor_epoch, bind, get. cbn [tensor_epochs_].
  by rewrite zinsert_zset.
Qed.

Lemma set_node_epoch_run ss te ne inc n e : 0 <= n < zlength ne ->
  set_node_epoch n e (P ss te ne inc) = (Done tt, P ss te (zset ne n e) inc).
Proof.
  intros Hn. unfold set_node_epoch, bind, get. cbn [node_epochs_]. by rewrite zinsert_zset.
Qed.

Lemma add_incoming_run ss te ne inc n d : 0 <= n < zlength inc ->
  add_incoming n d (P ss te ne inc) = (Done tt, P ss te ne (zset inc n (zget inc n + d))).
Proof.
  intros Hn. unfold add_incoming, bind, get. cbn [num_incoming_control_edges_].
  rewrite zlookup_zget by done. cbn [access]. unfold ret at 1. by rewrite zinsert_zset.
Qed.

Lemma tensor_epoch_run ss te ne inc t : 0 <= t < zlength te ->
  tensor_epoch t (P ss te ne inc) = (Done (zget te t), P ss te ne inc).
Proof.
  intros Ht. unfold tensor_epoch, bind, get. cbn [tensor_epochs_]. by rewrite zlookup_zget.
Qed.

Lemma assign_outputs_run ss ne inc e outs : forall te,
  zlength te = num_tensors info_ -> Forall (opt_valid info_) outs ->
  exists te', assign_outputs e outs (P ss te ne inc) = (Done tt, P ss te' ne inc) /\
    zlength te' = num_tensors info_ /\
    forall t, valid info_ t -> zget te' t =
      if bool_decide (t ∈ outs) then e else zget te t.
Proof.
  induction outs as [|o outs IH]; intros te Hte Hv; [by exists te|].
  apply Forall_cons in Hv as [Ho Hv]. unfold assign_outputs. rewrite for_each_cons.
  unfold bind. destruct (Z.eqb_spec o kTfLiteOptionalTensor) as [->|Hne].
  - destruct (IH te Hte Hv) as (te' & Hrun & Hlen & Hget).
    exists te'. split_and!; [exact Hrun|done|]. intros t Ht. rewrite Hget by done.
    erewrite bool_decide_ext; [done|]. rewrite elem_of_cons.
    assert (t <> kTfLiteOptionalTensor); [|naive_solver].
    unfold valid, kTfLiteOptionalTensor in *. lia.
  - destruct Ho as [?|Ho]; [done|]. rewrite set_tensor_epoch_run by (unfold valid in Ho; lia).
    destruct (IH (zset te o e)) as (te' & Hrun & Hlen & Hget); [by rewrite zlength_zset|done|].
    exists te'. split_and!; [exact Hrun|done|]. intros t Ht. rewrite Hget by done.
    rewrite zget_zset by (unfold valid in Ho; lia).
    destruct (Z.eqb_spec o t) as [->|Hot].
    + rewrite (bool_decide_eq_true_2 (t ∈ t :: outs)) by constructor. by case_bool_decide.
    + erewrite bool_decide_ext; [done|]. rewrite elem_of_cons. naive_solver.
Qed.

Lemma inputs_ready_run ss te ne inc ins :
  zlength te = num_tensors info_ -> Forall (opt_valid info_) ins ->
  exists b, inputs_ready ins (P ss te ne inc) = (Done b, P ss te ne inc) /\
    (b = true <-> forall t, t ∈ ins -> t <> kTfLiteOptionalTensor -> zget te t <> kEpochNotReady).
Proof.
  intros Hte. induction ins as [|t ins IH]; intros Hv.
  { exists true. split; [done|]. split; [|done]. intros _ t Ht. by apply elem_of_nil in Ht. }
  apply Forall_cons in Hv as [Ht Hv]. cbn [inputs_ready].
  destruct (IH Hv) as (b & Hrun & Hb). setoid_rewrite elem_of_cons.
  destruct (Z.eqb_spec t kTfLiteOptionalTensor) as [->|Hne].
  - exists b. split; [done|]. rewrite Hb. naive_solver.
  - destruct Ht as [?|Ht]; [done|].
    unfold bind. rewrite tensor_epoch_run by (unfold valid in Ht; lia).
    destruct (Z.eqb_spec (zget te t) kEpochNotReady) as [He|He].
    + exists false. split; [done|]. split; [done|]. naive_solver.
    + exists b. split; [done|]. rewrite Hb. naive_solver.
Qed.

(** How the subsets change when the inputs [ins] of a node of epoch [cur] are recorded. *)
Definition io_step (te : list Z) (cur : Z) (ins : list Z) (ss ss' : list NodeSubset) : Prop :=
  zlength ss' = zlength ss /\
  forall k b, ss.[k] = Some b -> exists b', ss'.[k] = Some b' /\
    type b' = type b /\ nodes b' = nodes b /\
    (forall t, t ∈ input_tensors b' <-> t ∈ input_tensors b \/
       (k = cur /\ t ∈ ins /\ t <> kTfLiteOptionalTensor /\ zget te t <> cur)) /\
    (forall t, t ∈ output_tensors b' <-> t ∈ output_tensors b \/
       (zget te t = k /\ k <> cur /\ t ∈ ins /\ t <> kTfLiteOptionalTensor)).

Lemma io_step_nil te cur ss : io_step te cur [] ss ss.
Proof.
  split; [done|]. intros k b Hb. exists b. set_solver.
Qed.

Lemma io_step_cons te cur t ins ss ss1 ss' :
  io_step te cur [t] ss ss1 -> io_step te cur ins ss1 ss' -> io_step te cur (t :: ins) ss ss'.
Proof.
  intros [Hl1 H1] [Hl2 H2]. split; [congruence|]. intros k b Hb.
  destruct (H1 k b Hb) as (b1 & Hb1 & Hty1 & Hn1 & Hi1 & Ho1).
  destruct (H2 k b1 Hb1) as (b' & Hb' & Hty & Hn & Hi & Ho).
  exists b'. split_and!; [done|congruence..| |].
  - intros x. rewrite Hi, Hi1, list_elem_of_singleton, elem_of_cons. naive_solver.
  - intros x. rewrite Ho, Ho1, list_elem_of_singleton, elem_of_cons. naive_solver.
Qed.

(** Recording changes nothing for an absent input, or one of the same epoch. *)
Lemma io_step_skip te cur t ss : t = kTfLiteOptionalTensor \/ zget te t = cur ->
  io_step te cur [t] ss ss.
Proof.
  intros Hskip. split; [done|]. intros k b Hb. exists b. split_and!; [done..| |]; intros x;
    rewrite list_elem_of_singleton; naive_solver.
Qed.

Lemma record_input_run te ne inc cur t : forall ss, zlength te = num_tensors info_ ->
  opt_valid info_ t -> 0 <= cur < zlength ss ->
  (t <> kTfLiteOptionalTensor -> zget te t < zlength ss) ->
  exists ss',
    (if t =? kTfLiteOptionalTensor then ret tt
     else
       let* input_epoch := tensor_epoch t in
       if negb (input_epoch =? cur) then
         update_subset cur (push_input t) ;;;
         (if 0 <=? input_epoch then update_subset input_epoch (push_output t) else ret tt)
       else ret tt) (P ss te ne inc) = (Done tt, P ss' te ne inc) /\
    io_step te cur [t] ss ss'.
Proof.
  intros ss Hte Ht Hcur Hlt. destruct (Z.eqb_spec t kTfLiteOptionalTensor) as [->|Hne].
  { exists ss. split; [done|]. apply io_step_skip. by left. }
  destruct Ht as [?|Ht]; [done|]. specialize (Hlt Hne).
  unfold bind at 1. rewrite tensor_epoch_run by (unfold valid in Ht; lia).
  destruct (Z.eqb_spec (zget te t) cur) as [He|He]; cbn [negb].
  { exists ss. split; [done|]. apply io_step_skip. by right. }
  destruct (zlookup_in_range ss cur Hcur) as [bc Hbc].
  unfold bind. rewrite (update_subset_run _ _ _ _ _ _ _ Hbc).
  destruct (Z.leb_spec 0 (zget te t)) as [Hpos|Hneg].
  - destruct (zlookup_in_range ss (zget te t)) as [bi Hbi]; [lia|].
    assert (Hbi' : (zset ss cur (push_input t bc)).[zget te t] = Some bi).
    { rewrite zlookup_zset by lia. by destruct (Z.eqb_spec cur (zget te t)). }
    rewrite (update_subset_run _ _ _ _ _ _ _ Hbi'). eexists. split; [done|].
    split; [by rewrite !zlength_zset|]. intros k b Hb.
    rewrite zlookup_zset by (rewrite zlength_zset; lia).
    rewrite zlookup_zset by done.
    destruct (Z.eqb_spec (zget te t) k) as [<-|Hk].
    + rewrite Hb in Hbi. simplify_eq. eexists. split_and!; [done..| |]; intros x; cbn;
        rewrite ?elem_of_app, list_elem_of_singleton; naive_solver.
    + destruct (Z.eqb_spec cur k) as [<-|Hck].
      * rewrite Hb in Hbc. simplify_eq. eexists. split_and!; [done..| |]; intros x; cbn;
          rewrite ?elem_of_app, list_elem_of_singleton; naive_solver.
      * eexists. split_and!; [done..| |]; intros x; rewrite list_elem_of_singleton;
          naive_solver.
  - eexists. split; [done|]. split; [by rewrite zlength_zset|]. intros k b Hb.
    pose proof (proj1 (zlookup_some _ _ _) Hb) as [Hk _].
    rewrite zlookup_zset by done. destruct (Z.eqb_spec cur k) as [<-|Hck].
    + rewrite Hb in Hbc. simplify_eq. eexists. split_and!; [done..| |]; intros x; cbn;
        rewrite ?elem_of_app, list_elem_of_singleton; naive_solver.
    + eexists. split_and!; [done..| |]; intros x; rewrite list_elem_of_singleton;
        (split; [by left|]); (intros [?|?]; [done|naive_solver lia]).
Qed.

Lemma record_inputs_run te ne inc cur ins : forall ss, zlength te = num_tensors info_ ->
  Forall (opt_valid info_) ins -> 0 <= cur < zlength ss ->
  (forall t, t ∈ ins -> t <> kTfLiteOptionalTensor -> zget te t < zlength ss) ->
  exists ss', record_inputs cur ins (P ss te ne inc) = (Done tt, P ss' te ne inc) /\
    io_step te cur ins ss ss'.
Proof.
  induction ins as [|t ins IH]; intros ss Hte Hv Hcur Hlt.
  { exists ss. split; [done|apply io_step_nil]. }
  apply Forall_cons in Hv as [Ht Hv].
  destruct (record_input_run te ne inc cur t ss Hte Ht Hcur) as (ss1 & Hrun1 & Hstep1).
  { apply Hlt. constructor. }
  destruct (IH ss1 Hte Hv) as (ss' & Hrun & Hstep).
  - by rewrite (proj1 Hstep1).
  - intros x Hx. rewrite (proj1 Hstep1). apply Hlt. by constructor.
  - exists ss'. split; [|by eapply io_step_cons].
    unfold record_inputs. rewrite for_each_cons. unfold bind at 1. rewrite Hrun1. exact Hrun.
Qed.

(** The number of edges that end at [b]. *)
Definition edges_to (b : Z) (l : list ControlEdge) : Z :=
  Z.of_nat (length (filter (fun e => e.2 = b) l)).

Lemma edges_to_cons b e l : edges_to b (e :: l) = (if e.2 =? b then 1 else 0) + edges_to b l.
Proof.
  unfold edges_to. destruct (Z.eqb_spec e.2 b).
  - rewrite filter_cons_True by done. rewrite length_cons, Nat2Z.inj_succ. lia.
  - rewrite filter_cons_False by done. lia.
Qed.

Lemma release_edges_prefix ss te ne n l rest : forall inc,
  Forall (fun e => e.1 = n /\ 0 <= e.2 < zlength inc) l ->
  (forall e, head rest = Some e -> e.1 <> n) ->
  exists inc', release_edges n (l ++ rest) (P ss te ne inc) = (Done tt, P ss te ne inc') /\
    zlength inc' = zlength inc /\
    forall b, 0 <= b < zlength inc -> zget inc' b = zget inc b - edges_to b l.
Proof.
  induction l as [|e l IH]; intros inc Hl Hrest.
  - exists inc. split_and!; [|done|intros; unfold edges_to; cbn; lia].
    destruct rest as [|e rest]; [done|]. cbn [app release_edges].
    destruct (Z.eqb_spec e.1 n); [|done]. by destruct (Hrest e eq_refl).
  - apply Forall_cons in Hl as [[Hen He] Hl]. cbn [app release_edges].
    rewrite (proj2 (Z.eqb_eq _ _) Hen). unfold bind. rewrite add_incoming_run by done.
    destruct (IH (zset inc e.2 (zget inc e.2 + -1))) as (inc' & Hrun & Hlen & Hget).
    + by rewrite zlength_zset.
    + done.
    + rewrite zlength_zset in Hlen, Hget. exists inc'. split_and!; [done..|].
      intros b Hb. rewrite Hget, zget_zset, edges_to_cons by done.
      destruct (Z.eqb_spec e.2 b) as [->|]; lia.
Qed.

Lemma release_edges_run ss te ne inc n : zlength inc = N ->
  exists inc', release_edges n (lower_bound control_edges_ (n, 0)) (P ss te ne inc) =
      (Done tt, P ss te ne inc') /\
    zlength inc' = N /\
    forall b, 0 <= b < N ->
      zget inc' b = zget inc b - edges_to b (filter (fun e => e.1 = n) control_edges_).
Proof.
  intros Hinc. destruct (edges_from n control_edges_) as (rest & -> & Hrest).
  { apply Hwf. }
  { eapply Forall_impl; [apply (pw_edges Hwf)|]. cbn. lia. }
  destruct (release_edges_prefix ss te ne n (filter (fun e => e.1 = n) control_edges_) rest inc)
    as (inc' & Hrun & Hlen & Hget); [|done|exists inc'; rewrite Hinc in *; done].
  apply Forall_forall. intros e [He Hin]%list_elem_of_filter.
  pose proof (proj1 (Forall_forall _ _) (pw_edges Hwf) e Hin). cbn in *. rewrite Hinc. lia.
Qed.

(** ** The invariant *)

(** [order] is the sequence of the nodes assigned so far (as positions of the plan). *)
Record inv_order (order : list Z) : Prop := {
  io_nodup : NoDup order;
  io_range : forall i, i ∈ order -> 0 <= i < N;
  io_closed : forall p i q, order = p ++ i :: q -> forall j, depends i j -> j ∈ p }.

(** A node has an epoch when it is assigned, a tensor when the node that writes it is. *)
Record inv_epochs (order : list Z) (ss : list NodeSubset) (te ne : list Z) : Prop := {
  ie_nodes : zlength ne = N;
  ie_out : forall i, 0 <= i < N -> i ∉ order -> zget ne i = kEpochNotReady;
  ie_in : forall i, i ∈ order -> 0 <= zget ne i < zlength ss;
  ie_tensors : zlength te = num_tensors info_;
  ie_produced : forall j t, produces j t -> zget te t = zget ne j;
  ie_free : forall t, valid info_ t -> (forall j, ~ produces j t) -> zget te t = kEpochAlwaysReady }.

(** The control edges whose first node is not assigned are counted. *)
Record inv_incoming (order : list Z) (inc : list Z) : Prop := {
  ii_length : zlength inc = N;
  ii_count : forall b, 0 <= b < N ->
    zget inc b = edges_to b (filter (fun e => e.1 ∉ order) control_edges_) }.

(** The subsets hold the assigned nodes in order; each is of one type. *)
Record inv_subsets (order : list Z) (ss : list NodeSubset) (ne : list Z) : Prop := {
  is_concat : concat (nodes <$> ss) = original <$> order;
  is_nodes : forall k b, ss.[k] = Some b ->
    nodes b = original <$> filter (fun i => zget ne i = k) order;
  is_type : forall k b i, ss.[k] = Some b -> i ∈ order -> zget ne i = k -> type_of i = type b;
  is_unexplored : forall k b, ss.[k] = Some b -> nodes b = [] -> type b = kTfUnexplored;
  is_single : disable_node_fusion_ = true ->
    forall k b, ss.[k] = Some b -> (length (nodes b) <= 1)%nat;
  is_full : forall k b, ss.[k] = Some b -> k < zlength ss - 1 -> nodes b <> [] }.

(** The inputs of a subset are read in it and come from elsewhere; its outputs are written
    in it and read elsewhere. *)
Record inv_io (order : list Z) (ss : list NodeSubset) (te ne : list Z) : Prop := {
  iio_inputs : forall k b t, ss.[k] = Some b -> t ∈ input_tensors b <->
    exists i, i ∈ order /\ zget ne i = k /\ reads i t /\ zget te t <> k;
  iio_outputs : forall k b t, ss.[k] = Some b -> t ∈ output_tensors b <->
    zget te t = k /\ exists i, i ∈ order /\ zget ne i <> k /\ reads i t }.

Record inv (order : list Z) (s : partitioner) : Prop := {
  inv_ord : inv_order order;
  inv_ep : inv_epochs order (node_subsets_ s) (tensor_epochs_ s) (node_epochs_ s);
  inv_inc : inv_incoming order (num_incoming_control_edges_ s);
  inv_sub : inv_subsets order (node_subsets_ s) (node_epochs_ s);
  inv_ins : inv_io order (node_subsets_ s) (tensor_epochs_ s) (node_epochs_ s) }.

(** Everything node [i] needs has been assigned. *)
Definition ready (order : list Z) (i : Z) : Prop := forall j, depends i j -> j ∈ order.

Lemma edges_to_zero b l : edges_to b l = 0 <-> forall e, e ∈ l -> e.2 <> b.
Proof.
  induction l as [|e l IH].
  - split; [|done]. intros _ e He. by apply elem_of_nil in He.
  - rewrite edges_to_cons. assert (0 <= edges_to b l) by (unfold edges_to; lia).
    setoid_rewrite elem_of_cons. destruct (Z.eqb_spec e.2 b) as [He|He].
    + split; [lia|]. intros Hall. by destruct (Hall e (or_introl eq_refl)).
    + rewrite Z.add_0_l, IH. naive_solver.
Qed.

Lemma edges_to_filter_snoc b order i l : i ∉ order ->
  edges_to b (filter (fun e => e.1 ∉ order ++ [i]) l) =
  edges_to b (filter (fun e => e.1 ∉ order) l) - edges_to b (filter (fun e => e.1 = i) l).
Proof.
  intros Hi. induction l as [|e l IH]; [done|]. rewrite !filter_cons.
  assert (Hin : e.1 ∈ order ++ [i] <-> e.1 ∈ order \/ e.1 = i).
  { by rewrite elem_of_app, list_elem_of_singleton. }
  assert (Hdis : e.1 = i -> e.1 ∉ order) by congruence.
  repeat case_decide; try tauto; rewrite ?edges_to_cons, ?IH; lia.
Qed.

Lemma produced_dec t : (exists j, produces j t) \/ (forall j, ~ produces j t).
Proof.
  destruct (decide (t = kTfLiteOptionalTensor)) as [->|Hne].
  { right. by intros j (nr & _ & _ & ?). }
  destruct (decide (Exists (fun nr => t ∈ node_outputs nr.1) (gi_nodes info_))) as [Hex|Hno].
  - left. apply Exists_exists in Hex as (nr & [k Hk]%list_elem_of_lookup & Ht).
    exists (Z.of_nat k), nr. split_and!; [|done..]. apply zlookup_some. unfold zlength.
    rewrite Nat2Z.id. pose proof (lookup_lt_Some _ _ _ Hk). split; [lia|done].
  - right. intros j (nr & Hj & Ht & _). apply Hno, Exists_exists. exists nr.
    split; [by eapply zlookup_elem_of|done].
Qed.

(** A node is schedulable exactly when its data and its control edges allow it. *)
Lemma ready_spec order ss te ne inc i nr :
  inv_epochs order ss te ne -> inv_incoming order inc ->
  0 <= i < N -> (gi_nodes info_).[i] = Some nr ->
  ready order i <->
  (forall t, t ∈ node_inputs nr.1 -> t <> kTfLiteOptionalTensor -> zget te t <> kEpochNotReady) /\
  zget inc i = 0.
Proof.
  intros He Hinc Hi Hnr. rewrite (ii_count _ _ Hinc) by done. rewrite edges_to_zero.
  setoid_rewrite list_elem_of_filter. split.
  - intros Hready. split.
    + intros t Ht Hne. assert (Hr : reads i t) by by exists nr.
      destruct (produced_dec t) as [[j Hj]|Hno].
      * rewrite (ie_produced _ _ _ _ He j t Hj).
        assert (Hjo : j ∈ order) by (apply Hready; left; by exists t).
        pose proof (ie_in _ _ _ _ He j Hjo). unfold kEpochNotReady. lia.
      * rewrite (ie_free _ _ _ _ He t); [done|by apply (reads_valid i)|done].
    + intros [a b] [Ha Hin] Hb. cbn in *. subst. apply Ha, Hready. by right.
  - intros [Hdata Hedges] j [(t & Hp & (nr' & Hnr' & Ht & Hne))|Hedge].
    + rewrite Hnr in Hnr'. simplify_eq. specialize (Hdata t Ht Hne).
      rewrite (ie_produced _ _ _ _ He j t Hp) in Hdata.
      destruct (decide (j ∈ order)) as [|Hj]; [done|].
      destruct Hdata. eapply ie_out; [done|by apply (produces_valid j t)|done].
    + destruct (decide (j ∈ order)) as [|Hj]; [done|].
      by destruct (Hedges (j, i) (conj Hj Hedge)).
Qed.

(** ** Assigning a node *)

Section Assign.
Context (order : list Z) (ss ss' : list NodeSubset) (te te' ne inc inc' : list Z).
Context (i : Z) (nr : TfLiteNode * TfLiteRegistration) (cur : NodeSubset).
Let c := zlength ss - 1.
Let cur' := push_node (original i) (set_subset_type (type_of i) cur).

Context (Hord : inv_order order) (Hep : inv_epochs order ss te ne).
Context (Hi : 0 <= i < N) (Hnr : (gi_nodes info_).[i] = Some nr) (Hnew : i ∉ order).
Context (Hready : ready order i) (Hcur : ss.[c] = Some cur).
Context (Hty : nodes cur <> [] -> type cur = type_of i).
Context (Hte' : zlength te' = num_tensors info_).
Context (Hget : forall t, valid info_ t ->
  zget te' t = if bool_decide (t ∈ node_outputs nr.1) then c else zget te t).
Context (Hio : io_step te' c (node_inputs nr.1) (zset ss c cur') ss').

Let ne' := zset ne i c.

Lemma c_range : 0 <= c < zlength ss.
Proof. apply zlookup_some in Hcur as [? _]. done. Qed.

Lemma reads_here t : reads i t <-> t ∈ node_inputs nr.1 /\ t <> kTfLiteOptionalTensor.
Proof.
  split; [|by exists nr]. intros (nr' & Hnr' & ? & ?). rewrite Hnr in Hnr'. by simplify_eq.
Qed.

Lemma produces_here t : produces i t <-> t ∈ node_outputs nr.1 /\ t <> kTfLiteOptionalTensor.
Proof.
  split; [|by exists nr]. intros (nr' & Hnr' & ? & ?). rewrite Hnr in Hnr'. by simplify_eq.
Qed.

Lemma ne'_get j : zget ne' j = if i =? j then c else zget ne j.
Proof. apply zget_zset. by rewrite (ie_nodes _ _ _ _ Hep). Qed.

Lemma te'_written t : produces i t -> zget te' t = c.
Proof.
  intros Hp. destruct (produces_valid i t Hp) as [_ Hv]. apply produces_here in Hp as [Ht _].
  rewrite Hget by done. by rewrite bool_decide_eq_true_2.
Qed.

Lemma te'_other t : valid info_ t -> ~ produces i t -> zget te' t = zget te t.
Proof.
  intros Hv Hp. rewrite Hget by done. rewrite bool_decide_eq_false_2; [done|].
  intros Ht. apply Hp, produces_here. split; [done|]. unfold valid, kTfLiteOptionalTensor in *. lia.
Qed.

Lemma subsets_length : zlength ss' = zlength ss.
Proof. destruct Hio as [-> _]. apply zlength_zset. Qed.

Lemma assign_order : inv_order (order ++ [i]).
Proof.
  destruct Hord as [Hnd Hr Hcl]. split.
  - apply NoDup_app. split_and!; [done|set_solver|apply NoDup_singleton].
  - intros j [?| ->%list_elem_of_singleton]%elem_of_app; auto.
  - intros p x q Heq j Hdep. destruct q as [|y q] using rev_ind.
    + apply app_inj_tail in Heq as [-> ->]. by apply Hready.
    + rewrite app_comm_cons, app_assoc in Heq. apply app_inj_tail in Heq as [Heq _].
      by eapply Hcl.
Qed.

Lemma assign_epochs : inv_epochs (order ++ [i]) ss' te' ne'.
Proof.
  pose proof c_range as Hc. split.
  - unfold ne'. rewrite zlength_zset. apply Hep.
  - intros j Hj Hnin. rewrite ne'_get. destruct (Z.eqb_spec i j) as [<-|]; [set_solver|].
    eapply ie_out; [done..|set_solver].
  - intros j [Hj| ->%list_elem_of_singleton]%elem_of_app; rewrite ne'_get, subsets_length.
    + destruct (Z.eqb_spec i j); [lia|]. by eapply ie_in.
    + by rewrite Z.eqb_refl.
  - done.
  - intros j t Hp. rewrite ne'_get. destruct (Z.eqb_spec i j) as [<-|Hij].
    + by apply te'_written.
    + rewrite te'_other; [by eapply ie_produced|by eapply produces_valid|].
      intros Hpi. by destruct Hij, (produces_single i j t).
  - intros t Hv Hno. rewrite te'_other by auto. by eapply ie_free.
Qed.

Lemma assign_incoming : inv_incoming order inc -> zlength inc' = N ->
  (forall b, 0 <= b < N ->
     zget inc' b = zget inc b - edges_to b (filter (fun e => e.1 = i) control_edges_)) ->
  inv_incoming (order ++ [i]) inc'.
Proof.
  intros Hinc Hlen Hb. split; [done|]. intros b Hr.
  rewrite Hb, (ii_count _ _ Hinc), edges_to_filter_snoc by done. done.
Qed.

(** The [k]-th subset after the assignment. *)
Lemma subset_at k b' : ss'.[k] = Some b' -> exists b, ss.[k] = Some b /\
  type b' = (if c =? k then type_of i else type b) /\
  nodes b' = nodes b ++ (if c =? k then [original i] else []) /\
  (forall t, t ∈ input_tensors b' <-> t ∈ input_tensors b \/
     (k = c /\ reads i t /\ zget te' t <> c)) /\
  (forall t, t ∈ output_tensors b' <-> t ∈ output_tensors b \/
     (zget te' t = k /\ k <> c /\ reads i t)).
Proof.
  intros Hb'. pose proof (proj1 (zlookup_some _ _ _) Hb') as [Hk _].
  rewrite subsets_length in Hk. destruct (zlookup_in_range ss k Hk) as [b Hb].
  destruct Hio as [_ Hstep]. pose proof (Hstep k) as Hs.
  rewrite zlookup_zset in Hs by apply c_range. setoid_rewrite reads_here. exists b.
  destruct (Z.eqb_spec c k) as [Hck|Hck].
  - rewrite <- Hck, Hcur in Hb. injection Hb as <-.
    destruct (Hs cur' eq_refl) as (b1 & Hb1 & Ht & Hn & Hin & Hout).
    rewrite Hb' in Hb1. injection Hb1 as <-. rewrite <- Hck, Hcur in *.
    split_and!; [done|done|by rewrite Hn| |]; intros t; rewrite ?Hin, ?Hout; cbn; naive_solver.
  - destruct (Hs b Hb) as (b1 & Hb1 & Ht & Hn & Hin & Hout).
    rewrite Hb' in Hb1. injection Hb1 as <-.
    split_and!; [done|done|by rewrite Hn, app_nil_r| |]; intros t; rewrite ?Hin, ?Hout;
      naive_solver.
Qed.

Lemma ne'_old j : j ∈ order -> zget ne' j = zget ne j.
Proof. intros Hj. rewrite ne'_get. destruct (Z.eqb_spec i j); [congruence|done]. Qed.

Lemma ne'_new : zget ne' i = c.
Proof. by rewrite ne'_get, Z.eqb_refl. Qed.

Lemma assign_concat : concat (nodes <$> ss) = original <$> order ->
  concat (nodes <$> ss') = original <$> order ++ [i].
Proof.
  intros Hc. assert (Hn : nodes <$> ss' = nodes <$> zset ss c cur').
  { apply list_eq_same_length with (length ss).
    - by rewrite length_fmap; unfold zset; rewrite length_insert.
    - rewrite length_fmap. pose proof subsets_length as Hl. unfold zlength in Hl. lia.
    - intros k n n' Hk Hn Hn'. apply list_lookup_fmap_Some in Hn as (b' & -> & Hb').
      apply list_lookup_fmap_Some in Hn' as (b & -> & Hb).
      destruct Hio as [_ Hstep]. destruct (Hstep (Z.of_nat k) b) as (b1 & Hb1 & _ & Hn & _).
      { apply zlookup_some. rewrite zlength_zset, Nat2Z.id. unfold zlength. split; [lia|done]. }
      apply zlookup_some in Hb1 as [_ Hb1]. rewrite Nat2Z.id, Hb' in Hb1. by simplify_eq. }
  rewrite Hn. destruct (last_split ss cur Hcur) as (l' & Heq & _ & Hset).
  unfold c. rewrite Hset, fmap_app, concat_app. rewrite Heq, fmap_app, concat_app in Hc.
  cbn in Hc |- *. rewrite app_nil_r in *. rewrite fmap_app, <- Hc. by rewrite app_assoc.
Qed.

Lemma assign_subsets : (disable_node_fusion_ = true -> nodes cur = []) ->
  inv_subsets order ss ne -> inv_subsets (order ++ [i]) ss' ne'.
Proof.
  intros Hfusion [Hconcat Hnodes Htype Hunex Hsingle Hfull]. split.
  - by apply assign_concat.
  - intros k b' Hb'. destruct (subset_at k b' Hb') as (b & Hb & _ & -> & _).
    rewrite filter_app, fmap_app, (Hnodes k b Hb). f_equal.
    + f_equal. apply filter_ext_in. intros j Hj. by rewrite ne'_old.
    + rewrite filter_cons, ne'_new. destruct (Z.eqb_spec c k);
        [by rewrite decide_True|by rewrite decide_False].
  - intros k b' j Hb' Hj Hne. destruct (subset_at k b' Hb') as (b & Hb & -> & _).
    apply elem_of_app in Hj as [Hj|Hj%list_elem_of_singleton].
    + rewrite ne'_old in Hne by done. destruct (Z.eqb_spec c k) as [<-|].
      * rewrite Hcur in Hb. injection Hb as <-. rewrite <- Hty; [by eapply Htype|].
        rewrite (Hnodes c cur Hcur). intros Hnil%fmap_nil_inv.
        assert (Hin : j ∈ filter (fun i => zget ne i = c) order) by by apply list_elem_of_filter.
        rewrite Hnil in Hin. by apply elem_of_nil in Hin.
      * by eapply Htype.
    + subst j. rewrite ne'_new in Hne. by rewrite (proj2 (Z.eqb_eq c k) Hne).
  - intros k b' Hb'. destruct (subset_at k b' Hb') as (b & Hb & -> & -> & _).
    destruct (c =? k); [by intros [_ ?]%app_nil|]. rewrite app_nil_r. by apply (Hunex k).
  - intros Hd k b' Hb'. destruct (subset_at k b' Hb') as (b & Hb & _ & -> & _).
    rewrite length_app. destruct (Z.eqb_spec c k) as [<-|].
    + rewrite Hcur in Hb. injection Hb as <-. rewrite Hfusion by done. cbn. lia.
    + pose proof (Hsingle Hd k b Hb). cbn. lia.
  - intros k b' Hb' Hk. destruct (subset_at k b' Hb') as (b & Hb & _ & -> & _).
    rewrite subsets_length in Hk. intros [? _]%app_nil. by destruct (Hfull k b).
Qed.

(** A tensor read by an assigned node is not written by [i]. *)
Lemma te'_read j t : j ∈ order -> reads j t -> zget te' t = zget te t.
Proof.
  intros Hj Hr. apply te'_other; [by eapply reads_valid|]. intros Hp.
  apply list_elem_of_split in Hj as (p & q & ->).
  apply Hnew, elem_of_app. left. eapply (io_closed _ Hord); [done|]. left. by exists t.
Qed.

Lemma assign_io : inv_io order ss te ne -> inv_io (order ++ [i]) ss' te' ne'.
Proof.
  intros [Hin Hout]. split; intros k b' t Hb'; setoid_rewrite elem_of_app;
    setoid_rewrite list_elem_of_singleton;
    destruct (subset_at k b' Hb') as (b & Hb & _ & _ & Hi' & Ho').
  - rewrite Hi', (Hin k b t Hb). split.
    + intros [(j & Hj & Hk & Hr & Ht)|(-> & Hr & Ht)].
      * exists j. rewrite ne'_old, (te'_read j t) by done. auto.
      * exists i. rewrite ne'_new. auto.
    + intros (j & [Hj| ->] & Hk & Hr & Ht).
      * left. exists j. rewrite ne'_old in Hk by done. rewrite (te'_read j t) in Ht by done. done.
      * right. rewrite ne'_new in Hk. split_and!; [done|done|]. by rewrite Hk.
  - rewrite Ho', (Hout k b t Hb). split.
    + intros [(Ht & j & Hj & Hk & Hr)|(Ht & Hk & Hr)].
      * rewrite (te'_read j t) by done. split; [done|]. exists j. rewrite ne'_old by done. auto.
      * split; [done|]. exists i. rewrite ne'_new. auto.
    + intros (Ht & j & [Hj| ->] & Hk & Hr).
      * left. rewrite (te'_read j t) in Ht by done. rewrite ne'_old in Hk by done. eauto.
      * right. rewrite ne'_new in Hk. auto.
Qed.
End Assign.

(** ** Visiting a node *)

(** A subset has a type once it has a node. *)
Lemma subset_nonempty order ss ne k b : inv_order order -> inv_subsets order ss ne ->
  ss.[k] = Some b -> nodes b <> [] -> type b <> kTfUnexplored.
Proof.
  intros Hord Hsub Hb Hne. rewrite (is_nodes _ _ _ Hsub k b Hb) in Hne.
  destruct (filter _ order) as [|j l] eqn:Hf; [done|].
  assert (Hj : j ∈ j :: l) by constructor. rewrite <- Hf in Hj.
  apply list_elem_of_filter in Hj as [Hk Hj].
  rewrite <- (is_type _ _ _ Hsub k b j Hb Hj Hk).
  by apply type_of_lookup, (io_range _ Hord).
Qed.

(** Why a node is passed over. *)
Definition skipped (order : list Z) (cur : NodeSubset) (i : Z) : Prop :=
  (disable_node_fusion_ = true /\ nodes cur <> []) \/ i ∈ order \/ ~ ready order i \/
  (nodes cur <> [] /\ type_of i <> type cur).

(** What a visit that assigns the node establishes. *)
Definition assigned (order : list Z) (i : Z) (s s' : partitioner) : Prop :=
  i ∉ order /\ ready order i /\ inv (order ++ [i]) s' /\
  zlength (node_subsets_ s') = zlength (node_subsets_ s) /\
  exists cur', (node_subsets_ s').[zlength (node_subsets_ s') - 1] = Some cur' /\
    nodes cur' <> [].

Lemma zset_zset {A} (l : list A) k x y : zset (zset l k x) k y = zset l k y.
Proof. unfold zset. apply list_insert_insert_eq. Qed.

Lemma assign_node_run order ss te ne inc i nr cur cur1 :
  inv order (P ss te ne inc) -> 0 <= i < N -> (gi_nodes info_).[i] = Some nr ->
  i ∉ order -> ready order i -> ss.[zlength ss - 1] = Some cur ->
  (nodes cur <> [] -> type cur = type_of i) -> (disable_node_fusion_ = true -> nodes cur = []) ->
  set_subset_type (type_of i) cur = cur1 ->
  exists s', assign_node control_edges_ nr.1 i (original i) (zlength ss - 1)
      (P (zset ss (zlength ss - 1) cur1) te ne inc) = (Done tt, s') /\
    assigned order i (P ss te ne inc) s'.
Proof.
  intros [Hord Hep Hinc Hsub Hins] Hi Hnr Hnew Hready Hcur Hty Hfus Hcur1. cbn in *.
  destruct (node_in_range i Hi) as (nr' & Hnr' & (Hvi & Hvo & _)).
  rewrite Hnr in Hnr'. injection Hnr' as <-.
  pose proof (c_range ss cur Hcur) as Hc. set (c := zlength ss - 1) in *.
  unfold assign_node. unfold bind at 1. rewrite set_node_epoch_run by (by rewrite (ie_nodes _ _ _ _ Hep)).
  unfold bind at 1. rewrite (update_subset_run _ _ _ _ c cur1).
  2: { rewrite zlookup_zset by done. by rewrite Z.eqb_refl. }
  rewrite zset_zset. unfold bind at 1.
  destruct (assign_outputs_run (zset ss c (push_node (original i) cur1)) (zset ne i c) inc c
    (node_outputs nr.1) te (ie_tensors _ _ _ _ Hep) Hvo) as (te' & Hrun1 & Hte' & Hget).
  rewrite Hrun1. unfold bind at 1.
  destruct (record_inputs_run te' (zset ne i c) inc c (node_inputs nr.1)
    (zset ss c (push_node (original i) cur1)) Hte' Hvi) as (ss' & Hrun2 & Hio).
  { by rewrite zlength_zset. }
  { intros t Ht Hne. rewrite zlength_zset. assert (Hr : reads i t) by by exists nr.
    rewrite Hget by (by eapply reads_valid). case_bool_decide; [lia|].
    destruct (produced_dec t) as [[j Hj]|Hno].
    - rewrite (ie_produced _ _ _ _ Hep j t Hj). eapply ie_in; [done|].
      apply Hready. left. by exists t.
    - rewrite (ie_free _ _ _ _ Hep t); [unfold kEpochAlwaysReady; lia|by eapply reads_valid|done]. }
  rewrite Hrun2.
  destruct (release_edges_run ss' te' (zset ne i c) inc i (ii_length _ _ Hinc))
    as (inc' & Hrun3 & Hlen3 & Hget3).
  rewrite Hrun3. eexists. split; [done|]. subst cur1.
  split_and!; [done|done| | |].
  - split; cbn.
    + by eapply assign_order.
    + by eapply (assign_epochs order ss ss' te te' ne i nr cur).
    + by eapply (assign_incoming order inc inc' i).
    + by eapply (assign_subsets order ss ss' te te' ne i nr cur).
    + by eapply (assign_io order ss ss' te te' ne i nr cur).
  - cbn. by eapply (subsets_length ss ss' te' i nr cur).
  - cbn. pose proof (subsets_length ss ss' te' i nr cur Hio) as Hl. rewrite Hl.
    destruct (zlookup_in_range ss' c) as [cur' Hcur']; [lia|].
    exists cur'. split; [done|].
    destruct Hio as [_ Hstep]. destruct (Hstep c (push_node (original i) (set_subset_type (type_of i) cur)))
      as (b' & Hb' & _ & Hn & _).
    { rewrite zlookup_zset by done. by rewrite Z.eqb_refl. }
    rewrite Hcur' in Hb'. injection Hb' as <-. rewrite Hn. cbn. by intros [_ ?]%app_nil.
Qed.

(** The end of [UpdateNode], for a schedulable node. *)
Lemma UpdateNode_assign order ss te ne inc i nr cur :
  inv order (P ss te ne inc) -> 0 <= i < N -> (gi_nodes info_).[i] = Some nr ->
  i ∉ order -> ready order i -> ss.[zlength ss - 1] = Some cur ->
  (disable_node_fusion_ = true -> nodes cur = []) ->
  let run :=
    (let* current_type :=
       (if bool_decide (type cur = kTfUnexplored) then
          update_subset (zlength ss - 1) (set_subset_type (type_of i)) ;;; ret (type_of i)
        else ret (type cur)) in
     if bool_decide (current_type = type_of i) then
       assign_node control_edges_ nr.1 i (original i) (zlength ss - 1) ;;; ret true
     else ret false) (P ss te ne inc) in
  (exists s', run = (Done true, s') /\ assigned order i (P ss te ne inc) s') \/
  (run = (Done false, P ss te ne inc) /\ skipped order cur i).
Proof.
  intros Hinv Hi Hnr Hnew Hrdy Hcur Hfus run. subst run.
  pose proof Hinv as [Hord Hep _ Hsub _]. cbn in Hord, Hep, Hsub.
  destruct (type_of_lookup i Hi) as [_ Htu].
  destruct (nodes cur) as [|n l] eqn:Hn.
  - rewrite (is_unexplored _ _ _ Hsub _ _ Hcur Hn). rewrite bool_decide_eq_true_2 by done.
    rewrite bind_assoc, (bind_done _ _ _ _ _ (update_subset_run _ _ _ _ _ _ _ Hcur)), bind_ret.
    rewrite bool_decide_eq_true_2 by done. left.
    destruct (assign_node_run order ss te ne inc i nr cur
      (set_subset_type (type_of i) cur) Hinv Hi Hnr Hnew Hrdy Hcur) as (s' & Hrun & Hs');
      [by rewrite Hn|by rewrite Hn|done|].
    exists s'. by rewrite (bind_done _ _ _ _ _ Hrun).
  - assert (Hne : nodes cur <> []) by (by rewrite Hn).
    pose proof (subset_nonempty _ _ _ _ _ Hord Hsub Hcur Hne) as Htc.
    rewrite bool_decide_eq_false_2, bind_ret by done. case_bool_decide as Hsame.
    + left. destruct (assign_node_run order ss te ne inc i nr cur cur Hinv Hi Hnr Hnew Hrdy Hcur)
        as (s' & Hrun & Hs'); [done|by rewrite Hn|by rewrite <- Hsame; destruct cur|].
      assert (Hsame_ss : zset ss (zlength ss - 1) cur = ss).
      { destruct (last_split ss cur Hcur) as (l' & Heq & _ & Hset). by rewrite Hset. }
      rewrite Hsame_ss in Hrun. exists s'. by rewrite (bind_done _ _ _ _ _ Hrun).
    + right. split; [done|]. right. right. right. by split.
Qed.

Lemma UpdateNode_run order s i cur : inv order s -> 0 <= i < N ->
  (node_subsets_ s).[zlength (node_subsets_ s) - 1] = Some cur ->
  (exists s', UpdateNode info_ disable_node_fusion_ node_type_ control_edges_ i s = (Done true, s') /\
     assigned order i s s') \/
  (UpdateNode info_ disable_node_fusion_ node_type_ control_edges_ i s = (Done false, s) /\
     skipped order cur i).
Proof.
  intros Hinv Hi Hcur. destruct s as [ss te ne inc]. cbn [node_subsets_] in Hcur.
  pose proof Hinv as [Hord Hep Hinc Hsub Hins]. cbn in Hord, Hep, Hinc, Hsub, Hins, Hcur.
  destruct (node_in_range i Hi) as (nr & Hnr & (Hvi & _ & _)).
  pose proof (ready_spec order ss te ne inc i nr Hep Hinc Hi Hnr) as Hready.
  unfold UpdateNode. rewrite (bind_done _ _ _ nr.1 (P ss te ne inc)).
  2: { unfold node_at. by rewrite (bind_access _ _ _ _ Hnr). }
  rewrite bind_get. cbn [node_subsets_ node_epochs_ num_incoming_control_edges_].
  rewrite (bind_access _ _ _ _ Hcur).
  destruct (disable_node_fusion_ && negb (bool_decide (nodes cur = []))) eqn:Hfus.
  { right. split; [done|]. left. apply andb_true_iff in Hfus as [? Hb%negb_true_iff].
    by apply bool_decide_eq_false in Hb. }
  assert (Hfus' : disable_node_fusion_ = true -> nodes cur = []).
  { intros Hd. rewrite Hd in Hfus. cbn in Hfus. apply negb_false_iff in Hfus.
    by apply bool_decide_eq_true in Hfus. }
  rewrite (bind_access _ (zget ne i)) by (apply zlookup_zget; by rewrite (ie_nodes _ _ _ _ Hep)).
  destruct (Z.eqb_spec (zget ne i) kEpochNotReady) as [He|He]; cbn [negb].
  2: { right. split; [done|]. right. left.
       destruct (decide (i ∈ order)) as [|Hnin]; [done|]. destruct He. by eapply ie_out. }
  assert (Hnew : i ∉ order).
  { intros Hin. pose proof (ie_in _ _ _ _ Hep i Hin). unfold kEpochNotReady in He. lia. }
  destruct (inputs_ready_run ss te ne inc (node_inputs nr.1) (ie_tensors _ _ _ _ Hep) Hvi)
    as (b & Hrun & Hb).
  rewrite (bind_done _ _ _ _ _ Hrun). destruct b; cbn [negb].
  2: { right. split; [done|]. right. right. left. intros [Hr _]%Hready. by apply Hb in Hr. }
  rewrite (bind_access _ (zget inc i)) by (apply zlookup_zget; by rewrite (ii_length _ _ Hinc)).
  destruct (Z.eqb_spec (zget inc i) 0) as [H0|H0]; cbn [negb].
  2: { right. split; [done|]. right. right. left. by intros [_ ?]%Hready. }
  assert (Hrdy : ready order i) by (apply Hready; split; [by apply Hb|done]).
  destruct (original_lookup i Hi) as [Hol _]. destruct (type_of_lookup i Hi) as [Htl Htu].
  rewrite (bind_access _ _ _ _ Hol), (bind_access _ _ _ _ Htl).
  by eapply UpdateNode_assign.
Qed.

(** ** Progress *)

Definition complete (order : list Z) : Prop := forall i, 0 <= i < N -> i ∈ order.

Lemma depends_range i j : depends i j -> 0 <= j < N.
Proof.
  intros [(t & Hp & _)|He]; [by eapply produces_valid|].
  by apply (proj1 (Forall_forall _ _) (pw_edges Hwf) (j, i)) in He as [? _].
Qed.

Lemma least_element (rank : Z -> Z) (l : list Z) : l <> [] ->
  exists x, x ∈ l /\ forall y, y ∈ l -> rank x <= rank y.
Proof.
  induction l as [|z l IH]; [done|]. intros _. destruct l as [|w l].
  { exists z. split; [constructor|]. intros y ->%list_elem_of_singleton. lia. }
  destruct IH as (x & Hx & Hmin); [done|]. destruct (Z.le_gt_cases (rank z) (rank x)).
  - exists z. split; [constructor|]. intros y [->|Hy]%elem_of_cons; [lia|].
    specialize (Hmin y Hy). lia.
  - exists x. split; [by constructor|]. intros y [->|Hy]%elem_of_cons; [lia|]. auto.
Qed.

(** While a node is missing, one is schedulable. *)
Lemma exists_ready order : complete order \/
  exists i, 0 <= i < N /\ i ∉ order /\ ready order i.
Proof.
  destruct (pw_acyclic Hwf) as (rank & _ & Hrank).
  destruct (decide (filter (fun i => i ∉ order) (zrange 0 (N - 1)) = [])) as [Hnil|Hne].
  - left. intros i Hi. destruct (decide (i ∈ order)) as [|Hno]; [done|].
    assert (Hin : i ∈ filter (fun i => i ∉ order) (zrange 0 (N - 1))).
    { apply list_elem_of_filter. split; [done|]. apply elem_of_zrange. lia. }
    rewrite Hnil in Hin. by apply elem_of_nil in Hin.
  - right. destruct (least_element rank _ Hne) as (i & Hi & Hmin).
    apply list_elem_of_filter in Hi as [Hno Hi%elem_of_zrange].
    exists i. split_and!; [lia..|done|]. intros j Hj.
    destruct (decide (j ∈ order)) as [|Hnj]; [done|].
    pose proof (depends_range i j Hj). specialize (Hrank i j Hj).
    assert (rank i <= rank j); [|lia]. apply Hmin, list_elem_of_filter.
    split; [done|]. apply elem_of_zrange. lia.
Qed.

Lemma order_length order : inv_order order -> zlength order <= N.
Proof.
  intros [Hnd Hr _]. assert (Hsub : order ⊆+ zrange 0 (N - 1)).
  { apply NoDup_submseteq; [done|]. intros i Hi%Hr. apply elem_of_zrange. lia. }
  apply submseteq_length in Hsub. rewrite length_zrange in Hsub. unfold zlength.
  assert (0 <= N) by (unfold num_execution_nodes, zlength; lia). lia.
Qed.

Lemma order_complete order : inv_order order -> zlength order = N -> complete order.
Proof.
  intros [Hnd Hr _] Hlen i Hi. assert (Hp : order ≡ₚ zrange 0 (N - 1)).
  { apply submseteq_length_Permutation.
    - apply NoDup_submseteq; [done|]. intros j Hj%Hr. apply elem_of_zrange. lia.
    - rewrite length_zrange. unfold zlength in Hlen. lia. }
  rewrite Hp. apply elem_of_zrange. lia.
Qed.

(** The state determines the order. *)
Lemma order_unique o1 o2 s : inv o1 s -> inv o2 s -> o1 = o2.
Proof.
  intros [H1 _ _ S1 _] [H2 _ _ S2 _].
  assert (Heq : original <$> o1 = original <$> o2).
  { by rewrite <- (is_concat _ _ _ S1), <- (is_concat _ _ _ S2). }
  pose proof (io_range _ H1) as R1. pose proof (io_range _ H2) as R2. clear H1 S1 H2 S2.
  revert o2 R2 Heq. induction o1 as [|i o1 IH]; intros [|j o2] R2 Heq; try done.
  rewrite !fmap_cons in Heq. injection Heq as Hij Heq. f_equal.
  - apply original_inj; [apply R1; constructor|apply R2; constructor|done].
  - apply IH; [intros; apply R1; by constructor|intros; apply R2; by constructor|done].
Qed.

(** ** A pass over the plan *)

Definition current (s : partitioner) (cur : NodeSubset) : Prop :=
  (node_subsets_ s).[zlength (node_subsets_ s) - 1] = Some cur.

Abbreviation pass := (Partition.pass info_ greedily_ disable_node_fusion_ node_type_ control_edges_).
Abbreviation passes := (Partition.passes info_ greedily_ disable_node_fusion_ node_type_ control_edges_).

(** From [s] with [order] assigned, the nodes [ext] have been assigned to the same subset. *)
Record extends (order ext : list Z) (s s' : partitioner) (cur cur' : NodeSubset) : Prop := {
  ex_inv : inv (order ++ ext) s';
  ex_count : zlength (node_subsets_ s') = zlength (node_subsets_ s);
  ex_current : current s' cur';
  ex_same : ext = [] -> s' = s /\ cur' = cur;
  ex_nonempty : ext <> [] -> nodes cur' <> [] }.

Lemma extends_nil order s cur : inv order s -> current s cur -> extends order [] s s cur cur.
Proof. intros. split; [by rewrite app_nil_r|done..]. Qed.

Lemma extends_trans order e1 e2 s s1 s2 cur cur1 cur2 :
  extends order e1 s s1 cur cur1 -> extends (order ++ e1) e2 s1 s2 cur1 cur2 ->
  extends order (e1 ++ e2) s s2 cur cur2.
Proof.
  intros [I1 C1 K1 S1 N1] [I2 C2 K2 S2 N2]. split.
  - by rewrite app_assoc.
  - congruence.
  - done.
  - intros [-> ->]%app_nil. destruct (S1 eq_refl) as [-> ->]. by destruct (S2 eq_refl) as [-> ->].
  - intros Hne. destruct e2 as [|x e2]; [|by apply N2].
    destruct (S2 eq_refl) as [_ ->]. apply N1. by rewrite app_nil_r in Hne.
Qed.

Lemma assigned_extends order i s s' cur : assigned order i s s' ->
  exists cur', extends order [i] s s' cur cur'.
Proof. intros (_ & _ & Hinv & Hc & cur' & Hcur' & Hne). by exists cur'. Qed.

Lemma pass_run l : forall order s cur did, inv order s -> (forall i, i ∈ l -> 0 <= i < N) ->
  current s cur ->
  exists r did' s' ext cur', pass l did s = (Done (r, did'), s') /\
    extends order ext s s' cur cur' /\
    (did' = true -> did = true \/ ext <> []) /\
    (did' = false -> did = false /\ ext = [] /\ forall i, i ∈ l -> skipped order cur i) /\
    (r = true -> did' = true).
Proof.
  induction l as [|i l IH]; intros order s cur did Hinv Hl Hcur.
  { exists false, did, s, [], cur. split_and!; [done|by apply extends_nil|by left| |done].
    intros ->. split_and!; [done..|]. intros i Hi. by apply elem_of_nil in Hi. }
  cbn [Partition.pass].
  assert (Hl' : forall j, j ∈ l -> 0 <= j < N) by (intros; apply Hl; by constructor).
  destruct (UpdateNode_run order s i cur Hinv) as [(s1 & Hrun & Has)|[Hrun Hskip]];
    [apply Hl; constructor|done|..]; rewrite (bind_done _ _ _ _ _ Hrun).
  - destruct (assigned_extends _ _ _ _ cur Has) as (cur1 & Hex).
    destruct (IH (order ++ [i]) s1 cur1 true (ex_inv _ _ _ _ _ _ Hex) Hl'
      (ex_current _ _ _ _ _ _ Hex)) as (r & did' & s' & ext & cur' & Hpass & Hex' & H1 & H2 & H3).
    exists r, did', s', (i :: ext), cur'. split_and!; [done| | | |done].
    + by apply (extends_trans order [i] ext s s1 s' cur cur1 cur').
    + by right.
    + intros ->. by destruct (H2 eq_refl).
  - destruct (did && negb greedily_) eqn:Hd.
    + apply andb_true_iff in Hd as [-> _]. exists true, true, s, [], cur.
      split_and!; [done|by apply extends_nil|by left|done|done].
    + destruct (IH order s cur did Hinv Hl' Hcur)
        as (r & did' & s' & ext & cur' & Hpass & Hex' & H1 & H2 & H3).
      exists r, did', s', ext, cur'. split_and!; [done..| |done].
      intros Hd'. destruct (H2 Hd') as (? & ? & Hsk). split_and!; [done..|].
      intros j [->|Hj]%elem_of_cons; auto.
Qed.

(** A node that is skipped by a fresh subset was assigned or is not schedulable. *)
Lemma skipped_fresh order cur i : nodes cur = [] -> skipped order cur i ->
  i ∈ order \/ ~ ready order i.
Proof. intros Hn [[_ ?]|[?|[?|[? _]]]]; tauto. Qed.

(** *** In sequence *)

(** Without [greedily_], on a plan in dependency order, the assigned nodes are a prefix of
    the plan. *)
Definition sequential : Prop := greedily_ = false /\ forall i j, depends i j -> j < i.
Definition prefix_of_plan (order : list Z) : Prop := order = zrange 0 (zlength order - 1).

Lemma prefix_elem order j : prefix_of_plan order -> j ∈ order <-> 0 <= j < zlength order.
Proof.
  intros Hp. unfold prefix_of_plan in Hp. rewrite Hp at 1. rewrite elem_of_zrange. lia.
Qed.

Lemma prefix_snoc order : prefix_of_plan order -> prefix_of_plan (order ++ [zlength order]).
Proof.
  intros Hp. unfold prefix_of_plan in *.
  assert (Hl : zlength (order ++ [zlength order]) = zlength order + 1).
  { unfold zlength. rewrite length_app. cbn. lia. }
  assert (0 <= zlength order) by (unfold zlength; lia).
  rewrite Hl. replace (zlength order + 1 - 1) with ((zlength order - 1) + 1) by lia.
  rewrite zrange_snoc by lia. rewrite <- Hp. do 2 f_equal. lia.
Qed.

(** Where a pass is when it visits node [i]: before its first assignment, or right behind the
    last one. *)
Definition in_step (i : Z) (did : bool) (order : list Z) (cur : NodeSubset) : Prop :=
  if did then i = zlength order
  else i <= zlength order /\ (zlength order = N \/ nodes cur = []).

Lemma prefix_ready order i : sequential -> prefix_of_plan order -> i = zlength order ->
  ready order i.
Proof.
  intros [_ Hdep] Hp -> j Hj. apply prefix_elem; [done|].
  pose proof (depends_range _ _ Hj). specialize (Hdep _ _ Hj). lia.
Qed.

Lemma pass_in_step m : forall i order s cur did,
  sequential -> 0 <= i -> i + Z.of_nat m = N -> inv order s -> current s cur ->
  prefix_of_plan order -> in_step i did order cur ->
  exists r did' s' ext, pass (zrange i (N - 1)) did s = (Done (r, did'), s') /\
    inv (order ++ ext) s' /\ prefix_of_plan (order ++ ext) /\
    (r = false -> zlength (order ++ ext) = N).
Proof.
  induction m as [|m IH]; intros i order s cur did Hseq Hi Him Hinv Hcur Hp Hst.
  { rewrite zrange_nil by lia. exists false, did, s, []. rewrite app_nil_r.
    split_and!; [done..|]. intros _. pose proof (order_length order (inv_ord _ _ Hinv)).
    destruct did; cbn in Hst; lia. }
  rewrite zrange_cons by lia. cbn [Partition.pass].
  destruct (UpdateNode_run order s i cur Hinv) as [(s1 & Hrun & Has)|[Hrun Hskip]];
    [lia|done|..]; rewrite (bind_done _ _ _ _ _ Hrun).
  - assert (Hil : i = zlength order).
    { destruct did; [done|]. destruct Hst as [Hle _]. destruct Has as (Hno & _).
      rewrite prefix_elem in Hno by done. lia. }
    destruct (assigned_extends _ _ _ _ cur Has) as (cur1 & Hex).
    destruct (IH (i + 1) (order ++ [i]) s1 cur1 true) as (r & did' & s' & ext & Hpass & H1 & H2 & H3);
      [done|lia|lia|apply Hex|apply Hex|by rewrite Hil; apply prefix_snoc| |].
    { cbn. unfold zlength in *. rewrite length_app. cbn. lia. }
    exists r, did', s', (i :: ext). rewrite <- app_assoc in *. done.
  - destruct did; cbn [andb].
    + destruct Hseq as [-> _]. cbn. exists true, true, s, []. rewrite app_nil_r. done.
    + destruct Hst as [Hle Hfresh]. destruct (Z.eq_dec i (zlength order)) as [Heq|Hne].
      * destruct Hfresh as [?|Hn]; [lia|].
        destruct (skipped_fresh order cur i Hn Hskip) as [Hin|Hnr].
        { rewrite prefix_elem in Hin by done. lia. }
        by destruct Hnr; apply prefix_ready.
      * destruct (IH (i + 1) order s cur false) as (r & did' & s' & ext & Hpass & H1 & H2 & H3);
          [done|lia|lia|done|done|done|cbn; split; [lia|done]|].
        by exists r, did', s', ext.
Qed.

Lemma pass_sequential order ext s s' cur r did' :
  sequential -> prefix_of_plan order -> (zlength order = N \/ nodes cur = []) ->
  inv order s -> current s cur ->
  pass (zrange 0 (N - 1)) false s = (Done (r, did'), s') -> inv (order ++ ext) s' ->
  prefix_of_plan (order ++ ext) /\ (r = false -> zlength (order ++ ext) = N).
Proof.
  intros Hseq Hp Hfresh Hinv Hcur Hpass Hinv'.
  destruct (pass_in_step (Z.to_nat N) 0 order s cur false) as (r2 & d2 & s2 & e2 & Hpass2 & H1 & H2 & H3);
    [done|lia|unfold num_execution_nodes, zlength; lia|done|done|done|split; [unfold zlength; lia|done]|].
  rewrite Hpass in Hpass2. injection Hpass2 as <- <- <-.
  by rewrite (order_unique _ _ _ Hinv' H1).
Qed.

Lemma passes_run n : forall order s cur, inv order s -> current s cur ->
  (Z.to_nat (N - zlength order) < n)%nat ->
  exists s' ext cur', passes n s = (Done tt, s') /\ extends order ext s s' cur cur' /\
    (nodes cur = [] -> ext = [] -> complete order) /\
    (sequential -> prefix_of_plan order -> zlength order = N \/ nodes cur = [] ->
     prefix_of_plan (order ++ ext)).
Proof.
  induction n as [|n IH]; intros order s cur Hinv Hcur Hfuel; [lia|]. cbn [Partition.passes].
  destruct (pass_run (zrange 0 (N - 1)) order s cur false Hinv) as
    (r & did' & s1 & e1 & cur1 & Hpass & Hex & Hd1 & Hd2 & Hr); [|done|].
  { intros i Hi%elem_of_zrange. lia. }
  rewrite (bind_done _ _ _ _ _ Hpass). cbn [fst snd].
  assert (Hseq : sequential -> prefix_of_plan order -> zlength order = N \/ nodes cur = [] ->
    prefix_of_plan (order ++ e1) /\ (r = false -> zlength (order ++ e1) = N)).
  { intros. eapply pass_sequential; [done..|apply Hex]. }
  destruct did'.
  - destruct (Hd1 eq_refl) as [?|Hne]; [done|]. destruct r; cbn [orb negb].
    { exists s1, e1, cur1. split_and!; [done..| |]; [by intros _ ?|by intros; apply Hseq]. }
    assert (Hshort : (Z.to_nat (N - zlength (order ++ e1)) < n)%nat).
    { pose proof (order_length _ (inv_ord _ _ (ex_inv _ _ _ _ _ _ Hex))) as Hle.
      unfold zlength in *. rewrite length_app in *. destruct e1; [done|]. cbn in *. lia. }
    destruct (IH (order ++ e1) s1 cur1 (ex_inv _ _ _ _ _ _ Hex) (ex_current _ _ _ _ _ _ Hex) Hshort)
      as (s2 & e2 & cur2 & Hrun & Hex2 & _ & Hseq2).
    exists s2, (e1 ++ e2), cur2. split_and!; [done| | |].
    + by eapply extends_trans.
    + intros _ [? _]%app_nil. done.
    + intros H1 H2 H3. destruct (Hseq H1 H2 H3) as [Hp Hl]. rewrite app_assoc. auto.
  - destruct (Hd2 eq_refl) as (_ & -> & Hskip).
    assert (r = false) as -> by (destruct r; [by discriminate Hr|done]). cbn.
    exists s1, [], cur1. split_and!; [done..| |by rewrite app_nil_r]. intros Hn _.
    destruct (exists_ready order) as [|(i & Hi & Hno & Hrdy)]; [done|].
    destruct (skipped_fresh order cur i Hn); [|done..].
    apply Hskip, elem_of_zrange. lia.
Qed.

(** ** Epochs *)

Definition all_nonempty (ss : list NodeSubset) : Prop :=
  forall k b, ss.[k] = Some b -> nodes b <> [].

Lemma zlength_snoc {A} (l : list A) x : zlength (l ++ [x]) = zlength l + 1.
Proof. unfold zlength. rewrite length_app. cbn. lia. Qed.

Lemma zlookup_snoc {A} (l : list A) x k y : (l ++ [x]).[k] = Some y <->
  l.[k] = Some y \/ (k = zlength l /\ y = x).
Proof.
  rewrite !zlookup_some, zlength_snoc. unfold zlength.
  rewrite lookup_snoc_Some. split.
  - intros [Hk [[Hl Hy]|[Hl Hy]]]; [left; split; [lia|done]|right; split; [lia|done]].
  - intros [[Hk Hy]|[-> ->]].
    + split; [lia|]. left. split; [lia|done].
    + rewrite Nat2Z.id. split; [lia|]. by right.
Qed.

Lemma tensor_epoch_bound order ss te ne t : inv_epochs order ss te ne -> valid info_ t ->
  zget te t < Z.max 1 (zlength ss).
Proof.
  intros Hep Hv. destruct (produced_dec t) as [[j Hj]|Hno].
  - rewrite (ie_produced _ _ _ _ Hep j t Hj). destruct (produces_valid j t Hj) as [Hr _].
    destruct (decide (j ∈ order)) as [Hin|Hin].
    + pose proof (ie_in _ _ _ _ Hep j Hin). lia.
    + rewrite (ie_out _ _ _ _ Hep j Hr Hin). unfold kEpochNotReady. lia.
  - rewrite (ie_free _ _ _ _ Hep t Hv Hno). unfold kEpochAlwaysReady. lia.
Qed.

(** [emplace_back(NodeSubset())]. *)
Lemma inv_push order ss te ne inc : inv order (P ss te ne inc) -> all_nonempty ss ->
  inv order (P (ss ++ [NodeSubset_new]) te ne inc).
Proof.
  intros [Hord Hep Hinc Hsub Hins] Hne. cbn in *. split; cbn; [done| |done| |].
  - destruct Hep. split; auto. intros i Hi. rewrite zlength_snoc.
    specialize (ie_in0 i Hi). lia.
  - destruct Hsub as [Hc Hn Ht Hu Hs Hf]. split.
    + by rewrite fmap_app, concat_app, app_nil_r.
    + intros k b [Hb|[-> ->]]%zlookup_snoc; [by apply Hn|]. cbn.
      destruct (filter _ order) as [|j l] eqn:E; [done|].
      assert (Hj : j ∈ j :: l) by constructor. rewrite <- E in Hj.
      apply list_elem_of_filter in Hj as [Hk Hj].
      pose proof (ie_in _ _ _ _ Hep j Hj). lia.
    + intros k b i [Hb|[-> ->]]%zlookup_snoc Hi Hk; [by eapply Ht|].
      pose proof (ie_in _ _ _ _ Hep i Hi). lia.
    + intros k b [Hb|[-> ->]]%zlookup_snoc; [by apply (Hu k)|done].
    + intros Hd k b [Hb|[-> ->]]%zlookup_snoc; [by eapply Hs|cbn; lia].
    + intros k b [Hb|[-> ->]]%zlookup_snoc Hk; [by eapply Hne|]. rewrite zlength_snoc in Hk. lia.
  - destruct Hins as [Hi Ho].
    assert (Hno : forall i, i ∈ order -> zget ne i <> zlength ss).
    { intros i Hin. pose proof (ie_in _ _ _ _ Hep i Hin). lia. }
    split; intros k b t [Hb|[-> ->]]%zlookup_snoc; [by apply Hi| |by apply Ho|]; cbn; rewrite elem_of_nil.
    + split; [done|]. intros (i & Hin & Hk & _). by eapply Hno.
    + split; [done|]. intros (Ht & i & Hin & _ & Hr).
      destruct (reads_valid i t Hr) as [_ Hv].
      pose proof (tensor_epoch_bound _ _ _ _ t Hep Hv). pose proof (ie_in _ _ _ _ Hep i Hin). lia.
Qed.

(** [pop_back()] of an empty subset. *)
Lemma inv_pop order ss b te ne inc : inv order (P (ss ++ [b]) te ne inc) -> nodes b = [] ->
  inv order (P ss te ne inc) /\ all_nonempty ss.
Proof.
  intros [Hord Hep Hinc Hsub Hins] Hb. cbn in *. destruct Hsub as [Hc Hn Ht Hu Hs Hf].
  assert (Hlast : (ss ++ [b]).[zlength ss] = Some b) by (apply zlookup_snoc; by right).
  assert (Hold : forall k b', ss.[k] = Some b' -> (ss ++ [b]).[k] = Some b').
  { intros k b' Hk. apply zlookup_snoc. by left. }
  split.
  - split; cbn; [done| |done| |].
    + destruct Hep. split; auto. intros i Hi. specialize (ie_in0 i Hi).
      rewrite zlength_snoc in ie_in0. destruct (Z.eq_dec (zget ne i) (zlength ss)) as [E|]; [|lia].
      pose proof (Hn _ _ Hlast) as Hnil. rewrite Hb in Hnil. symmetry in Hnil.
      apply fmap_nil_inv in Hnil.
      assert (Hin : i ∈ filter (fun i => zget ne i = zlength ss) order)
        by by apply list_elem_of_filter.
      rewrite Hnil in Hin. by apply elem_of_nil in Hin.
    + split; eauto.
      * rewrite fmap_app, concat_app in Hc. cbn in Hc. by rewrite Hb, !app_nil_r in Hc.
      * intros k b' Hk Hlt. apply (Hf k b'); [auto|]. rewrite zlength_snoc. lia.
    + destruct Hins as [Hi Ho]. split; eauto.
  - intros k b' Hk. apply (Hf k b'); [auto|]. apply zlookup_some in Hk as [? _].
    rewrite zlength_snoc. lia.
Qed.

Abbreviation BuildNodeSubset :=
  (Partition.BuildNodeSubset info_ greedily_ disable_node_fusion_ node_type_ control_edges_).
Abbreviation epochs :=
  (Partition.epochs info_ greedily_ disable_node_fusion_ node_type_ control_edges_).

Lemma BuildNodeSubset_run order s : inv order s -> all_nonempty (node_subsets_ s) ->
  exists s' ext cur', BuildNodeSubset s = (Done tt, s') /\ inv (order ++ ext) s' /\
    current s' cur' /\ (ext <> [] -> nodes cur' <> []) /\
    (ext = [] -> nodes cur' = [] /\ complete order) /\
    (sequential -> prefix_of_plan order -> prefix_of_plan (order ++ ext)).
Proof.
  intros Hinv Hne. destruct s as [ss te ne inc]. cbn in Hne.
  pose proof (inv_push order ss te ne inc Hinv Hne) as Hpush.
  assert (Hcur : current (P (ss ++ [NodeSubset_new]) te ne inc) NodeSubset_new).
  { unfold current. cbn. rewrite zlength_snoc. apply zlookup_snoc. right. split; [lia|done]. }
  destruct (passes_run (fuel info_) order _ _ Hpush Hcur) as (s' & ext & cur' & Hrun & Hex & Hdone & Hseq).
  { unfold fuel. unfold zlength. lia. }
  exists s', ext, cur'. split_and!; [exact Hrun|apply Hex|apply Hex|apply Hex| |].
  - intros Hnil. destruct (ex_same _ _ _ _ _ _ Hex Hnil) as [_ ->]. auto.
  - intros. apply Hseq; auto.
Qed.

Lemma epochs_run n : forall order s, inv order s -> all_nonempty (node_subsets_ s) ->
  (Z.to_nat (N - zlength order) < n)%nat ->
  exists s' ext, epochs n s = (Done tt, s') /\ inv (order ++ ext) s' /\
    all_nonempty (node_subsets_ s') /\ complete (order ++ ext) /\
    (sequential -> prefix_of_plan order -> prefix_of_plan (order ++ ext)).
Proof.
  induction n as [|n IH]; intros order s Hinv Hne Hfuel; [lia|]. cbn [Partition.epochs].
  destruct (BuildNodeSubset_run order s Hinv Hne)
    as (s1 & ext & cur & Hrun & Hinv1 & Hcur & Hgrow & Hdone & Hseq).
  rewrite (bind_done _ _ _ _ _ Hrun), bind_get, (bind_access _ _ _ _ Hcur).
  destruct s1 as [ss1 te ne inc].
  destruct (last_split ss1 cur Hcur) as (l' & Hss & Hlen & _). cbn [node_subsets_] in Hss.
  subst ss1. case_bool_decide as Hnil.
  - destruct ext as [|i ext]; [|by destruct Hgrow]. destruct (Hdone eq_refl) as [_ Hcomp].
    destruct (inv_pop _ _ _ _ _ _ Hinv1 Hnil) as [Hinv2 Hne2].
    exists (P l' te ne inc), []. cbn [node_subsets_ Partition.node_subsets_].
    rewrite app_nil_r in *. split_and!; [|done..].
    unfold set_subsets, modify. cbn. rewrite length_app. cbn.
    by rewrite Nat.add_sub, take_app_length.
  - assert (Hext : ext <> []) by (intros ->; by destruct (Hdone eq_refl)).
    assert (Hall : all_nonempty (l' ++ [cur])).
    { intros k b [Hk|[_ ->]]%zlookup_snoc; [|done].
      apply (is_full _ _ _ (inv_sub _ _ Hinv1) k b); cbn; [apply zlookup_snoc; by left|].
      rewrite zlength_snoc. apply zlookup_some in Hk as [? _]. lia. }
    destruct (IH (order ++ ext) _ Hinv1 Hall) as (s' & ext' & Hrun' & Hinv' & Hne' & Hc & Hseq').
    { pose proof (order_length _ (inv_ord _ _ Hinv1)). unfold zlength in *.
      rewrite length_app in *. destruct ext; [done|]. cbn in *. lia. }
    exists s', (ext ++ ext'). rewrite app_assoc. split_and!; [done..|]. auto.
Qed.

(** ** The start *)

Lemma count_edges_run ss te ne l : forall inc,
  zlength inc = N -> Forall (fun e => 0 <= e.2 < N) l ->
  exists inc', for_each l (fun edge => add_incoming edge.2 1) (P ss te ne inc) =
      (Done tt, P ss te ne inc') /\ zlength inc' = N /\
    forall b, 0 <= b < N -> zget inc' b = zget inc b + edges_to b l.
Proof.
  induction l as [|e l IH]; intros inc Hinc Hl.
  { exists inc. split_and!; [done..|]. intros b _. change (edges_to b []) with 0. lia. }
  apply Forall_cons in Hl as [He Hl]. rewrite for_each_cons.
  assert (Hr : 0 <= e.2 < zlength inc) by lia.
  rewrite (bind_done _ _ _ _ _ (add_incoming_run ss te ne inc e.2 1 Hr)).
  destruct (IH (zset inc e.2 (zget inc e.2 + 1))) as (inc' & Hrun & Hlen & Hget);
    [by rewrite zlength_zset|done|].
  exists inc'. split_and!; [done..|]. intros b Hb.
  rewrite Hget, zget_zset, edges_to_cons by done. destruct (Z.eqb_spec e.2 b) as [->|]; lia.
Qed.

Lemma clear_outputs_run ss ne inc l : forall te,
  zlength te = num_tensors info_ -> Forall (node_valid info_) l ->
  exists te', for_each l (fun nr => assign_outputs kEpochNotReady (node_outputs nr.1))
      (P ss te ne inc) = (Done tt, P ss te' ne inc) /\ zlength te' = num_tensors info_ /\
    forall t, valid info_ t -> zget te' t =
      if bool_decide (Exists (fun nr => t ∈ node_outputs nr.1) l) then kEpochNotReady
      else zget te t.
Proof.
  induction l as [|nr l IH]; intros te Hte Hl.
  { exists te. split_and!; [done..|]. intros t _. rewrite bool_decide_eq_false_2; [done|].
    by intros ?%Exists_nil. }
  apply Forall_cons in Hl as [(_ & Ho & _) Hl]. rewrite for_each_cons.
  destruct (assign_outputs_run ss ne inc kEpochNotReady _ te Hte Ho) as (te1 & Hrun1 & Hl1 & Hg1).
  rewrite (bind_done _ _ _ _ _ Hrun1).
  destruct (IH te1 Hl1 Hl) as (te' & Hrun & Hlen & Hget). exists te'. split_and!; [done..|].
  intros t Ht. rewrite Hget, Hg1 by done.
  rewrite (bool_decide_ext (Exists (fun nr => t ∈ node_outputs nr.1) (nr :: l))
    (t ∈ node_outputs nr.1 \/ Exists (fun nr => t ∈ node_outputs nr.1) l)) by apply Exists_cons.
  repeat case_bool_decide; tauto.
Qed.

Lemma initialize_run s0 : exists s, initialize info_ control_edges_ s0 = (Done tt, s) /\ inv [] s /\
  all_nonempty (node_subsets_ s).
Proof.
  assert (HN : 0 <= N) by (unfold num_execution_nodes, zlength; lia).
  assert (HT : 0 <= num_tensors info_) by (unfold num_tensors, zlength; lia).
  unfold initialize. rewrite (bind_done (put _) _ s0 tt _ eq_refl).
  set (te0 := replicate _ kEpochAlwaysReady). set (ne0 := replicate _ kEpochNotReady).
  destruct (count_edges_run [] te0 ne0 control_edges_ (replicate (Z.to_nat N) 0))
    as (inc & Hrun & Hinc & Hget).
  { by apply zlength_replicate. }
  { eapply Forall_impl; [apply (pw_edges Hwf)|]. cbn. tauto. }
  rewrite (bind_done _ _ _ _ _ Hrun).
  destruct (clear_outputs_run [] ne0 inc (gi_nodes info_) te0) as (te & Hrun2 & Hte & Hg2).
  { by apply zlength_replicate. }
  { apply (wf_nodes _ (pw_graph Hwf)). }
  rewrite Hrun2. eexists. split; [done|]. split; [|by intros k b [_ ?]%zlookup_some].
  assert (Hnil : forall i : Z, i ∉ []) by (intros; apply not_elem_of_nil).
  assert (Hex : forall t, valid info_ t -> (exists j, produces j t) <->
    Exists (fun nr => t ∈ node_outputs nr.1) (gi_nodes info_)).
  { intros t Ht. rewrite Exists_exists. split.
    - intros (j & nr & Hj & Hin & _). exists nr. split; [by eapply zlookup_elem_of|done].
    - intros (nr & [k Hk]%list_elem_of_lookup & Hin). exists (Z.of_nat k), nr.
      split_and!; [|done|unfold valid, kTfLiteOptionalTensor in *; lia].
      apply zlookup_some. pose proof (lookup_lt_Some _ _ _ Hk). unfold zlength.
      rewrite Nat2Z.id. split; [lia|done]. }
  split; cbn.
  - split; [constructor|by intros i ?%Hnil|]. intros p i q Heq. by destruct p.
  - split; try done.
    + by apply zlength_replicate.
    + intros i Hi _. by apply zget_replicate.
    + by intros i ?%Hnil.
    + intros j t Hp. destruct (produces_valid j t Hp) as [Hj Hv].
      rewrite Hg2, bool_decide_eq_true_2 by (try apply Hex; eauto). unfold ne0.
      by rewrite zget_replicate.
    + intros t Hv Hno. rewrite Hg2, bool_decide_eq_false_2; [|rewrite <- Hex by done; naive_solver|done].
      by apply zget_replicate.
  - split; [done|]. intros b Hb. rewrite Hget, zget_replicate by done.
    rewrite Z.add_0_l. f_equal. symmetry. clear. induction control_edges_ as [|e l IH]; [done|].
    rewrite filter_cons_True by apply not_elem_of_nil. by rewrite IH.
  - split; try (by intros; match goal with H : zlookup [] _ = Some _ |- _ =>
                     apply zlookup_some in H as [_ ?] end); done.
  - split; intros k b t [_ ?]%zlookup_some; done.
Qed.

(** ** The end *)

(** How the subsets change when the graph's outputs [outs] are recorded. *)
Lemma graph_outputs_run te ne inc outs : forall ss, zlength te = num_tensors info_ ->
  Forall (valid info_) outs ->
  (forall t, t ∈ outs -> zget te t = kEpochAlwaysReady \/ 0 <= zget te t < zlength ss) ->
  exists ss', for_each outs (fun output_index =>
      let* output_epoch := tensor_epoch output_index in
      if output_epoch =? kEpochAlwaysReady then ret tt
      else update_subset output_epoch (push_output output_index)) (P ss te ne inc) =
    (Done tt, P ss' te ne inc) /\ zlength ss' = zlength ss /\
    forall k b, ss.[k] = Some b -> exists b', ss'.[k] = Some b' /\
      type b' = type b /\ nodes b' = nodes b /\ input_tensors b' = input_tensors b /\
      forall t, t ∈ output_tensors b' <-> t ∈ output_tensors b \/ (t ∈ outs /\ zget te t = k).
Proof.
  induction outs as [|o outs IH]; intros ss Hte Hv Hr.
  { exists ss. split_and!; [done..|]. intros k b Hb. exists b. set_solver. }
  apply Forall_cons in Hv as [Ho Hv]. rewrite for_each_cons.
  destruct (Hr o) as [He|He]; [constructor| |].
  - destruct (IH ss Hte Hv) as (ss' & Hrun & Hlen & Hss'); [intros; apply Hr; by constructor|].
    exists ss'. split_and!; [|done|].
    + rewrite (bind_done _ _ _ tt (P ss te ne inc)); [done|].
      rewrite (bind_done _ _ _ _ _ (tensor_epoch_run ss te ne inc o ltac:(unfold valid in Ho; lia))).
      by rewrite He.
    + intros k b Hb. destruct (Hss' k b Hb) as (b' & Hb' & ? & ? & ? & Ht).
      exists b'. split_and!; [done..|]. intros t. rewrite Ht, elem_of_cons.
      pose proof (proj1 (zlookup_some _ _ _) Hb) as [Hk _]. unfold kEpochAlwaysReady in He.
      split; [tauto|]. intros [?|[[->|?] ?]]; [by left|lia|by right].
  - destruct (zlookup_in_range ss _ He) as [bo Hbo].
    destruct (IH (zset ss (zget te o) (push_output o bo)) Hte Hv) as (ss' & Hrun & Hlen & Hss').
    { intros t Ht. rewrite zlength_zset. apply Hr. by constructor. }
    rewrite zlength_zset in Hlen. exists ss'. split_and!; [|done|].
    + rewrite (bind_done _ _ _ tt (P (zset ss (zget te o) (push_output o bo)) te ne inc)); [done|].
      rewrite (bind_done _ _ _ _ _ (tensor_epoch_run ss te ne inc o ltac:(unfold valid in Ho; lia))).
      destruct (Z.eqb_spec (zget te o) kEpochAlwaysReady) as [E|_];
        [unfold kEpochAlwaysReady in E; lia|]. by apply update_subset_run.
    + intros k b Hb. specialize (Hss' k). rewrite zlookup_zset in Hss' by done.
      destruct (Z.eqb_spec (zget te o) k) as [Hk|Hk].
      * rewrite Hk, Hb in Hbo. injection Hbo as <-.
        destruct (Hss' _ eq_refl) as (b' & Hb' & ? & ? & ? & Ht). exists b'.
        split_and!; [done..|]. intros t. rewrite Ht. cbn.
        rewrite elem_of_app, list_elem_of_singleton, elem_of_cons. naive_solver.
      * destruct (Hss' b Hb) as (b' & Hb' & ? & ? & ? & Ht). exists b'.
        split_and!; [done..|]. intros t. rewrite Ht, elem_of_cons. naive_solver.
Qed.

(** ** The result *)

(** Node [i] is in subset [b]. *)
Definition in_subset (i : Z) (b : NodeSubset) : Prop := 0 <= i < N /\ original i ∈ nodes b.

(** [subsets] is a partition of the plan, executed in the order [order]. *)
Record partition_ok (order : list Z) (subsets : list NodeSubset) : Prop := {
  (** every node of the plan is in exactly one subset, and no subset is empty *)
  po_nodes : concat (nodes <$> subsets) = original <$> order;
  po_all : order ≡ₚ zrange 0 (N - 1);
  po_nonempty : Forall (fun b => nodes b <> []) subsets;
  (** executing the subsets one after the other respects every dependency *)
  po_dependencies : forall before i after, order = before ++ i :: after ->
    forall j, depends i j -> j ∈ before;
  (** the nodes of a subset are all of its type *)
  po_types : forall b i, b ∈ subsets -> in_subset i b -> type_of i = type b;
  (** the inputs of a subset are the tensors it reads and does not write, its outputs those
      it writes and that are read outside it or are outputs of the graph *)
  po_inputs : forall b t, b ∈ subsets -> t ∈ input_tensors b <->
    (exists i, in_subset i b /\ reads i t) /\ ~ exists j, in_subset j b /\ produces j t;
  po_outputs : forall b t, b ∈ subsets -> t ∈ output_tensors b <->
    (exists j, in_subset j b /\ produces j t) /\
    (t ∈ gi_outputs info_ \/ exists i, reads i t /\ ~ in_subset i b);
  po_increasing : Forall (fun b => StronglySorted Z.lt (input_tensors b) /\
                                   StronglySorted Z.lt (output_tensors b)) subsets;
  (** without fusion a subset is a single node *)
  po_single : disable_node_fusion_ = true -> Forall (fun b => length (nodes b) = 1%nat) subsets;
  (** without [greedily], the plan's own order is kept *)
  po_sequential : sequential -> order = zrange 0 (N - 1) }.

(** Membership in a subset, in terms of the epochs. *)
Lemma in_subset_epoch order ss te ne k b i :
  inv_order order -> inv_epochs order ss te ne -> inv_subsets order ss ne -> complete order ->
  ss.[k] = Some b -> in_subset i b <-> 0 <= i < N /\ zget ne i = k.
Proof.
  intros Hord Hep Hsub Hc Hb. unfold in_subset. rewrite (is_nodes _ _ _ Hsub k b Hb).
  rewrite list_elem_of_fmap. split.
  - intros [Hi (j & Hij & [Hk Hj]%list_elem_of_filter)]. split; [done|].
    by rewrite (original_inj i j Hi (io_range _ Hord j Hj) Hij).
  - intros [Hi Hk]. split; [done|]. exists i. split; [done|].
    apply list_elem_of_filter. auto.
Qed.

(** The epoch of a tensor is that of the subset in which it is written. *)
Lemma tensor_epoch_written order ss te ne t k : inv_epochs order ss te ne -> valid info_ t ->
  0 <= k -> zget te t = k <-> exists j, produces j t /\ zget ne j = k.
Proof.
  intros Hep Hv Hk. destruct (produced_dec t) as [[j Hj]|Hno].
  - rewrite (ie_produced _ _ _ _ Hep j t Hj). split; [by exists j|].
    intros (j' & Hj' & <-). by rewrite (produces_single j j' t).
  - rewrite (ie_free _ _ _ _ Hep t Hv Hno). unfold kEpochAlwaysReady. split; [lia|naive_solver].
Qed.

Section Finish.
Context {SS : StdSort} {SSOk : StdSortOk}.

(** Subset [b'] of the result, from the state [s] in which every node is assigned. *)
Definition finished (s : partitioner) (k : Z) (b b' : NodeSubset) : Prop :=
  type b' = type b /\ nodes b' = nodes b /\
  (forall t, t ∈ input_tensors b' <-> t ∈ input_tensors b) /\
  (forall t, t ∈ output_tensors b' <-> t ∈ output_tensors b \/
     (t ∈ gi_outputs info_ /\ zget (tensor_epochs_ s) t = k)) /\
  StronglySorted Z.lt (input_tensors b') /\ StronglySorted Z.lt (output_tensors b').

Section Finished.
Context (order : list Z) (ss ss' : list NodeSubset) (te ne inc : list Z).
Context (Hord : inv_order order) (Hep : inv_epochs order ss te ne).
Context (Hsub : inv_subsets order ss ne) (Hins : inv_io order ss te ne).
Context (Hne : all_nonempty ss) (Hc : complete order) (Hlen : zlength ss' = zlength ss).
Context (Hfin : forall k b, ss.[k] = Some b -> exists b', ss'.[k] = Some b' /\
  finished (P ss te ne inc) k b b').

Lemma finished_back b' : b' ∈ ss' -> exists k b, ss.[k] = Some b /\
  finished (P ss te ne inc) k b b'.
Proof.
  intros [k Hk]%list_elem_of_lookup. destruct (zlookup_in_range ss (Z.of_nat k)) as [b Hb].
  { pose proof (lookup_lt_Some _ _ _ Hk). unfold zlength in *. lia. }
  exists (Z.of_nat k), b. split; [done|].
  destruct (Hfin _ b Hb) as (b2 & [_ Hb2]%zlookup_some & Hf).
  rewrite Nat2Z.id, Hk in Hb2. by injection Hb2 as <-.
Qed.

Lemma finished_in k b b' i : ss.[k] = Some b -> finished (P ss te ne inc) k b b' ->
  in_subset i b' <-> 0 <= i < N /\ zget ne i = k.
Proof.
  intros Hb (_ & Hn & _). unfold in_subset. rewrite Hn.
  by apply (in_subset_epoch order ss te ne).
Qed.

Lemma finished_writes k b b' t : ss.[k] = Some b -> finished (P ss te ne inc) k b b' ->
  valid info_ t -> zget te t = k <-> exists j, in_subset j b' /\ produces j t.
Proof.
  intros Hb Hf Hv. pose proof (proj1 (zlookup_some _ _ _) Hb) as [Hk _].
  rewrite (tensor_epoch_written order ss te ne t k Hep Hv) by lia.
  setoid_rewrite (finished_in k b b' _ Hb Hf). split.
  - intros (j & Hp & Hj). exists j. destruct (produces_valid j t Hp). auto.
  - intros (j & [_ Hj] & Hp). by exists j.
Qed.

Lemma finished_nodes : concat (nodes <$> ss') = original <$> order.
Proof.
  rewrite <- (is_concat _ _ _ Hsub). f_equal.
  apply list_eq_same_length with (length ss); [by rewrite length_fmap| |].
  { rewrite length_fmap. unfold zlength in Hlen. lia. }
  intros k n n' Hk Hn' Hn. apply list_lookup_fmap_Some in Hn as (b & -> & Hb).
  apply list_lookup_fmap_Some in Hn' as (b' & -> & Hb').
  destruct (Hfin (Z.of_nat k) b) as (b2 & [_ Hb2]%zlookup_some & (_ & Hn & _)).
  { apply zlookup_some. rewrite Nat2Z.id. unfold zlength. split; [lia|done]. }
  rewrite Nat2Z.id, Hb' in Hb2. by injection Hb2 as <-.
Qed.

Lemma finished_types b i : b ∈ ss' -> in_subset i b -> type_of i = type b.
Proof.
  intros (k & b0 & Hb & Hf)%finished_back Hi. rewrite (proj1 Hf).
  apply (finished_in k b0) in Hi as [Hr Hk]; [|done|done].
  eapply (is_type _ _ _ Hsub k b0 i Hb); [by apply Hc|done].
Qed.

Lemma finished_inputs b t : b ∈ ss' -> t ∈ input_tensors b <->
  (exists i, in_subset i b /\ reads i t) /\ ~ exists j, in_subset j b /\ produces j t.
Proof.
  intros (k & b0 & Hb & Hf)%finished_back. pose proof Hf as (_ & _ & Hi & _).
  rewrite Hi, (iio_inputs _ _ _ _ Hins k b0 t Hb). split.
  - intros (i & Hio & Hk & Hr & Ht). destruct (reads_valid i t Hr) as [Hir Hv].
    rewrite <- (finished_writes k b0 b t Hb Hf Hv). split; [|done].
    exists i. by rewrite (finished_in k b0 b i Hb Hf).
  - intros [(i & Hib & Hr) Hno]. destruct (reads_valid i t Hr) as [Hir Hv].
    rewrite <- (finished_writes k b0 b t Hb Hf Hv) in Hno.
    apply (finished_in k b0) in Hib as [_ Hk]; [|done..]. exists i. auto.
Qed.

Lemma finished_outputs b t : b ∈ ss' -> t ∈ output_tensors b <->
  (exists j, in_subset j b /\ produces j t) /\
  (t ∈ gi_outputs info_ \/ exists i, reads i t /\ ~ in_subset i b).
Proof.
  intros (k & b0 & Hb & Hf)%finished_back. pose proof Hf as (_ & _ & _ & Ho & _).
  rewrite Ho, (iio_outputs _ _ _ _ Hins k b0 t Hb). cbn. split.
  - intros [(Ht & i & Hio & Hk & Hr)|[Hg Ht]].
    + destruct (reads_valid i t Hr) as [_ Hv].
      split; [by rewrite <- (finished_writes k b0 b t Hb Hf Hv)|]. right. exists i.
      rewrite (finished_in k b0 b i Hb Hf). tauto.
    + pose proof (proj1 (Forall_forall _ _) (pw_outputs Hwf) t Hg) as Hv.
      split; [by rewrite <- (finished_writes k b0 b t Hb Hf Hv)|by left].
  - intros [Hw Hr]. assert (Hv : valid info_ t).
    { destruct Hw as (j & _ & ?). by eapply produces_valid. }
    rewrite <- (finished_writes k b0 b t Hb Hf Hv) in Hw.
    destruct Hr as [?|(i & Hr & Hnin)]; [by right|]. left. split; [done|].
    destruct (reads_valid i t Hr) as [Hir _]. exists i.
    rewrite (finished_in k b0 b i Hb Hf) in Hnin. split_and!; [by apply Hc|tauto|done].
Qed.

Lemma order_permutation : order ≡ₚ zrange 0 (N - 1).
Proof.
  apply NoDup_Permutation; [apply Hord|apply NoDup_zrange|]. intros i.
  rewrite elem_of_zrange. split; [intros ?%(io_range _ Hord); lia|]. intros. apply Hc. lia.
Qed.

Lemma finished_ok : (sequential -> prefix_of_plan order) -> partition_ok order ss'.
Proof.
  intros Hseq. split; [apply finished_nodes|apply order_permutation| |apply Hord
    |apply finished_types|apply finished_inputs|apply finished_outputs|..].
  - apply Forall_forall. intros b' (k & b & Hb & (_ & -> & _))%finished_back. by apply (Hne k).
  - apply Forall_forall. intros b' (k & b & Hb & (_ & _ & _ & _ & Hs))%finished_back. done.
  - intros Hd. apply Forall_forall. intros b' (k & b & Hb & (_ & -> & _))%finished_back.
    pose proof (is_single _ _ _ Hsub Hd k b Hb). pose proof (Hne k b Hb).
    destruct (nodes b) as [|? [|? ?]]; cbn in *; [done|done|lia].
  - intros Hs. specialize (Hseq Hs). unfold prefix_of_plan in Hseq. rewrite Hseq at 1. f_equal.
    pose proof (Permutation_length order_permutation) as Hl. rewrite length_zrange in Hl.
    unfold zlength, num_execution_nodes, zlength in *. lia.
Qed.
End Finished.

Lemma Partition_run s0 : exists order s,
  Partition info_ greedily_ disable_node_fusion_ node_type_ control_edges_ s0 = (Done tt, s) /\
  partition_ok order (node_subsets_ s).
Proof.
  destruct (initialize_run s0) as (s1 & Hrun1 & Hinv1 & Hne1).
  unfold Partition. rewrite (bind_done _ _ _ _ _ Hrun1).
  destruct (epochs_run (fuel info_) [] s1 Hinv1 Hne1) as (s2 & order & Hrun2 & Hinv2 & Hne2 & Hc & Hseq).
  { unfold fuel, zlength. cbn. lia. }
  cbn [app] in *. rewrite (bind_done _ _ _ _ _ Hrun2). destruct s2 as [ss te ne inc].
  pose proof (inv_ep _ _ Hinv2) as Hep. cbn in Hep, Hne2.
  destruct (graph_outputs_run te ne inc (gi_outputs info_) ss (ie_tensors _ _ _ _ Hep) (pw_outputs Hwf))
    as (ss' & Hrun3 & Hlen & Hss').
  { intros t Ht. pose proof (proj1 (Forall_forall _ _) (pw_outputs Hwf) t Ht) as Hv.
    destruct (produced_dec t) as [[j Hj]|Hno]; [right|left; by eapply ie_free].
    rewrite (ie_produced _ _ _ _ Hep j t Hj). eapply ie_in; [done|].
    apply Hc. by eapply produces_valid. }
  unfold record_graph_outputs. rewrite (bind_done _ _ _ _ _ Hrun3), bind_get.
  exists order. eexists. split; [done|]. cbn [node_subsets_].
  destruct Hinv2 as [Hord _ _ Hsub Hins]. cbn in Hsub, Hins.
  apply (finished_ok order ss _ te ne inc); try done.
  - rewrite <- Hlen. unfold zlength. f_equal. apply length_fmap.
  - intros k b Hb. destruct (Hss' k b Hb) as (b1 & Hb1 & Hty & Hn & Hi & Ho).
    exists (uniquefy_subset b1). split.
    { apply zlookup_some. apply zlookup_some in Hb1 as [? Hb1].
      unfold zlength in *. rewrite length_fmap, list_lookup_fmap, Hb1. done. }
    split_and!; cbn; try done.
    + intros t. by rewrite Uniquefy_elem, Hi by apply Zltb_weak_order.
    + intros t. by rewrite Uniquefy_elem, Ho by apply Zltb_weak_order.
    + apply Uniquefy_increasing.
    + apply Uniquefy_increasing.
  - intros Hs. by apply Hseq.
Qed.
End Finish.
End Proof.

(** ** The types of the nodes *)

(** [node_type_] after the constructor. *)
Definition plan_types (info : GraphInfo) (nodes_to_partition : list Z) : list NodeSubsetType :=
  (fun v => if bool_decide (v ∈ nodes_to_partition) then kTfPartition else kTfNonPartition) <$>
    zrange 0 (gi_num_total_nodes info - 1).

Lemma zlookup_plan_types info ns v : 0 <= v < gi_num_total_nodes info ->
  (plan_types info ns).[v] =
    Some (if bool_decide (v ∈ ns) then kTfPartition else kTfNonPartition).
Proof.
  intros Hv. unfold plan_types, zrange. rewrite <- list_fmap_compose. apply zlookup_some.
  unfold zlength. rewrite length_fmap, length_seq. split; [lia|].
  rewrite list_lookup_fmap, lookup_seq_lt by lia. cbn. by rewrite Z2Nat.id by lia.
Qed.

Lemma zlength_plan_types info ns : 0 <= gi_num_total_nodes info ->
  zlength (plan_types info ns) = gi_num_total_nodes info.
Proof.
  intros H. unfold zlength, plan_types. rewrite length_fmap, length_zrange. lia.
Qed.

Lemma zlookup_ext {A} (l l' : list A) : zlength l = zlength l' ->
  (forall k, 0 <= k < zlength l -> l.[k] = l'.[k]) -> l = l'.
Proof.
  intros Hlen Heq. unfold zlength in *. apply list_eq_same_length with (length l'); [done|lia|].
  intros k x y Hk Hx Hy. specialize (Heq (Z.of_nat k) ltac:(lia)). unfold zlookup in Heq.
  destruct (Z.ltb_spec (Z.of_nat k) 0); [lia|]. rewrite Nat2Z.id in Heq. congruence.
Qed.

Lemma mark_nodes_run ns : forall types total, 0 <= total -> zlength types = total ->
  Forall (fun n => 0 <= n < total) ns ->
  exists types', mark_nodes ns types = Some types' /\ zlength types' = total /\
    forall v, 0 <= v < total ->
      types'.[v] = if bool_decide (v ∈ ns) then Some kTfPartition else types.[v].
Proof.
  induction ns as [|n ns IH]; intros types total Htot Hlen Hns; [by exists types|].
  apply Forall_cons in Hns as [Hn Hns]. cbn [mark_nodes]. rewrite zinsert_zset by lia.
  destruct (IH (zset types n kTfPartition) total) as (types' & Hrun & Hlen' & Hget);
    [done|by rewrite zlength_zset|done|].
  exists types'. split_and!; [done..|]. intros v Hv. rewrite Hget, zlookup_zset by lia.
  rewrite (bool_decide_ext (v ∈ n :: ns) (n = v \/ v ∈ ns)) by (rewrite elem_of_cons; naive_solver).
  destruct (Z.eqb_spec n v); repeat case_bool_decide; (done || tauto).
Qed.

Lemma mark_nodes_plan_types info ns : 0 <= gi_num_total_nodes info ->
  Forall (fun n => 0 <= n < gi_num_total_nodes info) ns ->
  mark_nodes ns (replicate (Z.to_nat (gi_num_total_nodes info)) kTfNonPartition) =
    Some (plan_types info ns).
Proof.
  intros Htot Hns.
  destruct (mark_nodes_run ns (replicate (Z.to_nat (gi_num_total_nodes info)) kTfNonPartition)
    _ Htot (zlength_replicate _ _ Htot) Hns) as (types & -> & Hlen & Hget).
  f_equal. apply zlookup_ext; [by rewrite zlength_plan_types|]. rewrite Hlen. intros k Hk.
  rewrite Hget, zlookup_plan_types, zlookup_replicate by done. by case_bool_decide.
Qed.

(** ** The control edges *)

(** [i] has side effects: the last such node before [n], or one of [rest]. *)
Definition effect_from (last n : Z) (rest : list (TfLiteNode * TfLiteRegistration)) (i : Z) : Prop :=
  (i = last /\ last <> -1) \/
  (n <= i /\ exists nr, rest.[i - n] = Some nr /\ might_have_side_effect nr.1 = true).

Lemma effect_from_cons last n nr rest i :
  effect_from last n (nr :: rest) i <->
  (i = last /\ last <> -1) \/ (i = n /\ might_have_side_effect nr.1 = true) \/
  (n + 1 <= i /\ exists nr', rest.[i - (n + 1)] = Some nr' /\ might_have_side_effect nr'.1 = true).
Proof.
  unfold effect_from.
  assert (Hsucc : n + 1 <= i -> (nr :: rest).[i - n] = rest.[i - (n + 1)]).
  { intros Hi. unfold zlookup. destruct (Z.ltb_spec (i - n) 0), (Z.ltb_spec (i - (n + 1)) 0); [lia..|].
    by replace (Z.to_nat (i - n)) with (S (Z.to_nat (i - (n + 1)))) by lia. }
  assert (Hzero : (nr :: rest).[0] = Some nr) by done.
  split.
  - intros [?|(Hi & nr' & Hnr & Hse)]; [by left|right].
    destruct (Z.eq_dec i n) as [->|].
    + left. rewrite Z.sub_diag, Hzero in Hnr. by simplify_eq.
    + right. split; [lia|]. exists nr'. by rewrite <- Hsucc by lia.
  - intros [?|[[-> Hse]|(Hi & nr' & Hnr & Hse)]]; [by left|right..].
    + split; [lia|]. exists nr. by rewrite Z.sub_diag.
    + split; [lia|]. exists nr'. by rewrite Hsucc.
Qed.

Lemma effect_from_shift last n nr rest i : might_have_side_effect nr.1 = true -> n <> -1 ->
  effect_from n (n + 1) rest i -> effect_from last n (nr :: rest) i.
Proof.
  intros Hse Hn. rewrite effect_from_cons. intros [[-> _]|H]; [right; by left|right; by right].
Qed.

(** Consecutive nodes with side effects are linked, and only those. *)
Lemma side_effect_chain_spec rest : forall last n, -1 <= last < n -> 0 <= n ->
  (forall e, e ∈ side_effect_chain last n rest ->
     last <= e.1 < e.2 /\ 0 <= e.1 /\ n <= e.2 < n + zlength rest) /\
  (forall i j, effect_from last n rest i -> effect_from last n rest j -> i < j -> n <= j ->
     exists k, i <= k < j /\ effect_from last n rest k /\ (k, j) ∈ side_effect_chain last n rest).
Proof.
  induction rest as [|nr rest IH]; intros last n Hlast Hn.
  { split; [by intros e He%elem_of_nil|].
    intros i j _ [[-> _]|(_ & nr & [? _]%zlookup_some & _)]; unfold zlength in *; cbn in *; lia. }
  assert (Hlen : zlength (nr :: rest) = zlength rest + 1) by (unfold zlength; cbn; lia).
  cbn [side_effect_chain]. destruct (might_have_side_effect nr.1) eqn:Hse.
  - destruct (IH n (n + 1)) as [Hb Hc]; [lia..|]. split.
    + intros e [He|He]%elem_of_app.
      * destruct (Z.eqb_spec last (-1)); cbn in He; [by apply elem_of_nil in He|].
        apply list_elem_of_singleton in He as ->. cbn. unfold zlength in *. lia.
      * specialize (Hb e He). lia.
    + intros i j Hi Hj Hij Hnj. apply effect_from_cons in Hi, Hj.
      assert (Hnew : effect_from last n (nr :: rest) n) by (apply effect_from_cons; auto).
      destruct Hj as [[-> _]|[[-> _]|Hj]]; [lia| |].
      * destruct Hi as [[-> Hne]|[[-> _]|[? _]]]; [|lia..]. exists last.
        split_and!; [lia..|apply effect_from_cons; by left|].
        apply elem_of_app. left. destruct (Z.eqb_spec last (-1)); [done|]. by left.
      * destruct (Z.le_gt_cases i n) as [Hle|Hgt].
        { destruct (Hc n j) as (k & Hk & Hek & Hin); [left; split; [done|lia]|by right|lia|lia|].
          exists k. split_and!; [lia..|by apply effect_from_shift; [|lia|]|].
          apply elem_of_app. by right. }
        destruct Hi as [[-> _]|[[-> _]|Hi]]; [lia..|].
        destruct (Hc i j) as (k & Hk & Hek & Hin); [by right|by right|lia|lia|].
        exists k. split_and!; [lia..|by apply effect_from_shift; [|lia|]|].
        apply elem_of_app. by right.
  - destruct (IH last (n + 1)) as [Hb Hc]; [lia..|].
    assert (Hiff : forall i, effect_from last n (nr :: rest) i <-> effect_from last (n + 1) rest i).
    { intros i. rewrite effect_from_cons, Hse. unfold effect_from. naive_solver. }
    split.
    + intros e He. specialize (Hb e He). lia.
    + intros i j Hi%Hiff Hj%Hiff Hij Hnj. setoid_rewrite Hiff. apply Hc; [done..|].
      destruct Hj as [[-> _]|[? _]]; lia.
Qed.

(** ** Properties *)

(** What a caller passes: a well-formed graph and indices of its nodes. *)
Record partition_input (info : GraphInfo) (nodes_to_partition : list Z) : Prop := {
  pt_graph : graph_wf info;
  pt_outputs : Forall (valid info) (gi_outputs info);
  pt_total : 0 <= gi_num_total_nodes info;
  pt_index_length : zlength (gi_node_index info) = num_execution_nodes info;
  pt_index_range : Forall (fun v => 0 <= v < gi_num_total_nodes info) (gi_node_index info);
  pt_index_inj : NoDup (gi_node_index info);
  pt_nodes : Forall (fun n => 0 <= n < gi_num_total_nodes info) nodes_to_partition }.

(** The control edges are between nodes of the plan, and together with the data they have no
    cycle. *)
Record schedulable (info : GraphInfo) (edges : list ControlEdge) : Prop := {
  pt_edges : Forall (fun e => 0 <= e.1 < num_execution_nodes info /\
                              0 <= e.2 < num_execution_nodes info) edges;
  pt_acyclic : exists rank : Z -> Z, (forall i, 0 <= rank i) /\
    forall i j, depends info edges i j -> rank j < rank i }.

(** Edges that go forward in the plan are schedulable. *)
Lemma forward_schedulable info edges : graph_wf info ->
  Forall (fun e => 0 <= e.1 < e.2 /\ e.2 < num_execution_nodes info) edges ->
  schedulable info edges /\ forall i j, depends info edges i j -> j < i.
Proof.
  intros Hg Hfwd. rewrite Forall_forall in Hfwd.
  assert (Hlt : forall i j, depends info edges i j -> 0 <= j < i).
  { intros i j [(t & (nj & Hj & Htj & Hne) & (ni & Hi & Hti & _))|Hin].
    - apply zlookup_some in Hj as [? Hj], Hi as [? Hi].
      destruct (Z.lt_ge_cases j i) as [|Hle]; [lia|]. exfalso. apply Hne.
      apply (wf_order _ Hg (Z.to_nat j) (Z.to_nat i) nj ni t); [done|done|lia|done|done].
    - specialize (Hfwd _ Hin). cbn in Hfwd. lia. }
  split; [split|].
  - apply Forall_forall. intros e He. specialize (Hfwd e He). lia.
  - exists (fun i => Z.max 0 i). split; [lia|]. intros i j Hd. specialize (Hlt i j Hd). lia.
  - intros i j Hd. by apply Hlt.
Qed.

Section Properties.
Context {SS : StdSort} {SSOk : StdSortOk}.

Lemma depends_Uniquefy info edges i j :
  depends info (Uniquefy edge_ltb edges) i j <-> depends info edges i j.
Proof. unfold depends. by rewrite (Uniquefy_elem _ _ _ edge_ltb_weak_order). Qed.

Lemma partitionable_wf info ns edges : partition_input info ns -> schedulable info edges ->
  partition_wf info (plan_types info ns) (Uniquefy edge_ltb edges).
Proof.
  intros [] []. split; try done.
  - by rewrite zlength_plan_types.
  - apply Forall_forall. intros ty. unfold plan_types.
    intros (v & -> & _)%list_elem_of_fmap. by case_bool_decide.
  - apply Forall_forall. intros e. rewrite (Uniquefy_elem _ _ _ edge_ltb_weak_order). intros He.
    pose proof (proj1 (Forall_forall _ _) pt_edges0 e He). done.
  - apply Uniquefy_sorted, edge_ltb_weak_order.
  - destruct pt_acyclic0 as (rank & Hpos & Hrank). exists rank. split; [done|].
    intros i j Hd. apply Hrank. by apply depends_Uniquefy.
Qed.

Lemma partition_ok_edges info greedily disable types edges order subsets :
  partition_ok info greedily disable types (Uniquefy edge_ltb edges) order subsets ->
  partition_ok info greedily disable types edges order subsets.
Proof.
  intros [Hn Ha He Hd Ht Hi Ho Hs H1 Hq]. split; try done.
  - intros p i q Heq j Hj. eapply Hd; [done|]. by apply depends_Uniquefy.
  - intros [Hg Hdep]. apply Hq. split; [done|]. intros i j Hj. apply Hdep. by apply depends_Uniquefy.
Qed.

Lemma partition_run info ns greedily control_edges disable :
  partition_input info ns ->
  schedulable info (effective_edges info greedily control_edges) ->
  exists order subsets,
    PartitionGraphIntoIndependentNodeSubsets info ns greedily control_edges disable = Done subsets /\
    partition_ok info greedily disable (plan_types info ns)
      (effective_edges info greedily control_edges) order subsets.
Proof.
  intros Hp Hs. unfold PartitionGraphIntoIndependentNodeSubsets.
  rewrite mark_nodes_plan_types by apply Hp.
  destruct (Partition_run info greedily disable (plan_types info ns)
    (Uniquefy edge_ltb (effective_edges info greedily control_edges)) (partitionable_wf _ _ _ Hp Hs)
    (mkPartitioner [] [] [] [])) as (order & s & -> & Hok).
  exists order, (node_subsets_ s). split; [done|]. by apply partition_ok_edges.
Qed.

(** C4. Partitioning ends, and its result is a partition of the execution plan into homogeneous
    subsets: every node is in exactly one, they can be executed one after the other without
    violating a data or control dependency, their inputs and outputs are exactly the tensors
    that cross their boundaries, in increasing order; without fusion they are single nodes,
    and without [greedily] they follow the plan.  A subset is of type [kTfPartition] exactly
    when its nodes are among those to partition. *)
Theorem partition_correct info ns greedily control_edges disable :
  partition_input info ns ->
  schedulable info (effective_edges info greedily control_edges) ->
  exists order subsets,
    PartitionGraphIntoIndependentNodeSubsets info ns greedily control_edges disable = Done subsets /\
    partition_ok info greedily disable (plan_types info ns)
      (effective_edges info greedily control_edges) order subsets /\
    forall b i, b ∈ subsets -> in_subset info i b ->
      type b = if bool_decide (original info i ∈ ns) then kTfPartition else kTfNonPartition.
Proof.
  intros Hp Hs. destruct (partition_run info ns greedily control_edges disable Hp Hs)
    as (order & subsets & Hrun & Hok).
  exists order, subsets. split_and!; [done..|]. intros b i Hb Hi.
  rewrite <- (po_types _ _ _ _ _ _ _ Hok b i Hb Hi). unfold type_of.
  destruct Hi as [Hr _]. rewrite <- (pt_index_length _ _ Hp) in Hr.
  pose proof (zlookup_elem_of _ _ _ (zlookup_zget _ _ Hr)) as Hin.
  pose proof (proj1 (Forall_forall _ _) (pt_index_range _ _ Hp) _ Hin) as Hv. cbn in Hv.
  unfold original. by rewrite zlookup_plan_types.
Qed.

(** The node at position [i] of the plan has side effects. *)
Definition has_effect (info : GraphInfo) (i : Z) : Prop :=
  exists nr, (gi_nodes info).[i] = Some nr /\ might_have_side_effect nr.1 = true.

Lemma has_effect_from info i : has_effect info i <-> effect_from (-1) 0 (gi_nodes info) i.
Proof.
  unfold has_effect, effect_from. rewrite Z.sub_0_r. split.
  - intros (nr & Hnr & Hse). right. pose proof (proj1 (zlookup_some _ _ _) Hnr).
    split; [lia|by exists nr].
  - intros [[_ ?]|[_ ?]]; done.
Qed.

Lemma default_schedulable info greedily : graph_wf info ->
  schedulable info (effective_edges info greedily None) /\
  forall i j, depends info (effective_edges info greedily None) i j -> j < i.
Proof.
  intros Hg. apply forward_schedulable; [done|]. cbn. destruct greedily; [|constructor].
  apply Forall_forall. intros e He.
  apply (side_effect_chain_spec (gi_nodes info) (-1) 0 ltac:(lia) ltac:(lia)) in He.
  unfold num_execution_nodes. lia.
Qed.

(** Two nodes linked by the chain of side effects are executed in their order. *)
Lemma chain_ordered info (order : list Z) i j p q :
  (forall p k q, order = p ++ k :: q ->
     forall l, (l, k) ∈ side_effect_chain (-1) 0 (gi_nodes info) -> l ∈ p) ->
  has_effect info i -> has_effect info j -> i < j -> order = p ++ j :: q -> i ∈ p.
Proof.
  intros Hclosed Hei Hej Hij Heq. revert j Hij Hej p q Heq.
  apply (well_founded_induction (Z.lt_wf 0) (fun j => i < j ->
    has_effect info j -> forall p q, order = p ++ j :: q -> i ∈ p)).
  intros j IH Hij Hej p q Heq.
  destruct (proj2 (side_effect_chain_spec (gi_nodes info) (-1) 0 ltac:(lia) ltac:(lia)) i j)
    as (k & Hk & Hek & Hin); [by apply has_effect_from..|done| |].
  { destruct Hej as (nr & [? _]%zlookup_some & _). lia. }
  assert (Hkp : k ∈ p) by (by eapply Hclosed).
  destruct (Z.eq_dec k i) as [->|Hne]; [done|].
  apply list_elem_of_split in Hkp as (p1 & p2 & ->). apply elem_of_app. left.
  rewrite <- app_assoc in Heq. eapply (IH k); [|lia|by apply has_effect_from|exact Heq].
  destruct Hei as (nr & [? _]%zlookup_some & _). lia.
Qed.

(** C32. Without explicit control edges the nodes with side effects keep their order, greedily or
    not: of two of them, the one that comes first in the plan is executed first. *)
Theorem partition_keeps_side_effects info ns greedily disable : partition_input info ns ->
  exists order subsets,
    PartitionGraphIntoIndependentNodeSubsets info ns greedily None disable = Done subsets /\
    concat (nodes <$> subsets) = original info <$> order /\
    forall i j, has_effect info i -> has_effect info j -> i < j ->
      exists before after, order = before ++ j :: after /\ i ∈ before.
Proof.
  intros Hp. destruct (default_schedulable info greedily (pt_graph _ _ Hp)) as [Hs Hfwd].
  destruct (partition_run info ns greedily None disable Hp Hs) as (order & subsets & Hrun & Hok).
  exists order, subsets. split_and!; [done|apply Hok|]. intros i j Hei Hej Hij.
  assert (Hin : j ∈ order).
  { rewrite (po_all _ _ _ _ _ _ _ Hok). apply elem_of_zrange.
    destruct Hej as (nr & [? _]%zlookup_some & _). unfold num_execution_nodes. lia. }
  apply list_elem_of_split in Hin as (p & q & Heq). exists p, q. split; [done|].
  destruct greedily.
  - eapply chain_ordered; [|done..]. intros p' k q' Heq' l Hl.
    eapply (po_dependencies _ _ _ _ _ _ _ Hok); [done|by right].
  - rewrite (po_sequential _ _ _ _ _ _ _ Hok) in Heq by done.
    rewrite (zrange_split _ _ _ _ _ Heq). apply elem_of_zrange.
    destruct Hei as (nr & [? _]%zlookup_some & _). lia.
Qed.
End Properties.

(** ** Witnesses *)

(** The graph of the comment of graph_info.h: 0 -> 1 -> 2 -> 3 -> 5 and 1 -> 4 -> 5, where 1
    and 3 have side effects. *)
Definition example_node (effect : bool) (ins outs : list Z) : TfLiteNode * TfLiteRegistration :=
  (mkNode ins outs [] [] 0 0 0 0 0 effect,
   mkRegistration None None None None 0 None 1 0 kTfLiteInplaceOpNone).

Definition example_info : GraphInfo :=
  mkGraphInfo (replicate 7 tensor_zero)
    [example_node false [0] [1]; example_node true [1] [2]; example_node false [2] [3];
     example_node true [3] [4]; example_node false [2] [5]; example_node false [4; 5] [6]]
    [0; 1; 2; 3; 4; 5] 6 [0] [6] [].

Lemma example_input : partition_input example_info [2; 3].
Proof.
  assert (Hrange : forall l, forallb (fun v => (0 <=? v) && (v <? 6)) l = true ->
    Forall (fun v => 0 <= v < gi_num_total_nodes example_info) l).
  { intros l. apply forallb_Forall. intros v. change (gi_num_total_nodes example_info) with 6.
    rewrite andb_true_iff, Z.leb_le, Z.ltb_lt. done. }
  split.
  - apply graph_wf_b_ok. reflexivity.
  - apply (forallb_Forall _ _ _ (valid_b_ok example_info)). reflexivity.
  - change (gi_num_total_nodes example_info) with 6. lia.
  - reflexivity.
  - by apply Hrange.
  - change (gi_node_index example_info) with (zrange 0 5). apply NoDup_zrange.
  - by apply Hrange.
Qed.

Lemma partition_correct_witness :
  exists order subsets,
    @PartitionGraphIntoIndependentNodeSubsets insertion_sort example_info [2; 3] true
      (Some [(3, 4)]) false = Done subsets /\
    partition_ok example_info true false (plan_types example_info [2; 3]) [(3, 4)] order subsets /\
    forall b i, b ∈ subsets -> in_subset example_info i b ->
      type b = if bool_decide (original example_info i ∈ [2; 3]) then kTfPartition
               else kTfNonPartition.
Proof.
  apply (@partition_correct insertion_sort insertion_sort_ok example_info [2; 3] true
    (Some [(3, 4)]) false); [exact example_input|].
  apply forward_schedulable; [apply example_input|].
  change (num_execution_nodes example_info) with 6. constructor; [cbn; lia|constructor].
Defined.

Lemma partition_keeps_side_effects_witness :
  exists order subsets,
    @PartitionGraphIntoIndependentNodeSubsets insertion_sort example_info [2; 3] true None false =
      Done subsets /\
    concat (nodes <$> subsets) = original example_info <$> order /\
    forall i j, has_effect example_info i -> has_effect example_info j -> i < j ->
      exists before after, order = before ++ j :: after /\ i ∈ before.
Proof.
  apply (@partition_keeps_side_effects insertion_sort insertion_sort_ok). exact example_input.
Defined.

(** The subsets that the comment of graph_info.h gives for its example, without and with the
    control edge from 3 to 4. *)
Example example_greedy_nodes :
  match @PartitionGraphIntoIndependentNodeSubsets insertion_sort example_info [2; 3] true
          (Some []) false with
  | Done subsets => nodes <$> subsets = [[0; 1; 4]; [2; 3]; [5]]
  | _ => False
  end.
Proof. by vm_compute. Qed.

Example example_edge_nodes :
  match @PartitionGraphIntoIndependentNodeSubsets insertion_sort example_info [2; 3] true
          (Some [(3, 4)]) false with
  | Done subsets => nodes <$> subsets = [[0; 1]; [2; 3]; [4; 5]]
  | _ => False
  end.
Proof. by vm_compute. Qed.
