(* ===== verification/OpResolver.v ===== *)
(** * Operator resolution (mutable_op_resolver.cc, core/api/op_resolver.cc and the
    [CallbackOpResolver] of core/c/c_api.cc)

    How the operators a model names are found: the interface [OpResolver], its two
    implementations and the reading of an operator code of the model. *)
From stdpp Require Import strings.
From S2P Require Import Prelude Heap Common.
#[local] Open Scope Z_scope.

(** ** The interface *)

(** The virtual methods of [class OpResolver] that take part in the lookup.  A returned
    pointer is [None] when it is null and the registration it points to otherwise. *)
Record OpResolver := mkOpResolver {
  FindBuiltinOp : Z -> Z -> option TfLiteRegistration;
  FindCustomOp : string -> Z -> option TfLiteRegistration;
  or_MayContainUserDefinedOps : bool }.

(** The loop [for (other : other_op_resolvers_)] of [FindOp]. *)
Fixpoint first_found {A} (find : OpResolver -> option A) (others : list OpResolver) : option A :=
  match others with
  | [] => None
  | other :: others' =>
    match find other with Some r => Some r | None => first_found find others' end
  end.

(** [BuiltinOperator_CUSTOM] and [BuiltinOperator_MAX] of the schema. *)
Definition BuiltinOperator_CUSTOM : Z := 32.
Definition BuiltinOperator_MAX : Z := 209.

Definition set_identity (code : Z) (name : option string) (v : Z) (r : TfLiteRegistration)
    : TfLiteRegistration :=
  mkRegistration (reg_init r) (reg_free r) (reg_prepare r) (reg_invoke r) code name v
    (registration_external r) (inplace_operator r).

(** ** [class MutableOpResolver] *)

Module MutableOpResolver.

Record t := mk {
  builtins_ : gmap (Z * Z) TfLiteRegistration;
  custom_ops_ : gmap (string * Z) TfLiteRegistration;
  other_op_resolvers_ : list OpResolver;
  may_directly_contain_user_defined_ops_ : bool }.

Definition empty : t := mk ∅ ∅ [] false.

Definition FindOp (r : t) (op version : Z) : option TfLiteRegistration :=
  match builtins_ r !! (op, version) with
  | Some reg => Some reg
  | None => first_found (fun other => FindBuiltinOp other op version) (other_op_resolvers_ r)
  end.

Definition FindOpCustom (r : t) (op : string) (version : Z) : option TfLiteRegistration :=
  match custom_ops_ r !! (op, version) with
  | Some reg => Some reg
  | None => first_found (fun other => FindCustomOp other op version) (other_op_resolvers_ r)
  end.

Definition AddBuiltin (op : Z) (registration : option TfLiteRegistration) (version : Z)
    : M t unit :=
  match registration with
  | None => ret tt
  | Some reg =>
    let new_registration := set_identity op None version reg in
    modify (fun r => mk (<[(op, version) := new_registration]> (builtins_ r)) (custom_ops_ r)
      (other_op_resolvers_ r) true)
  end.

(** [for (version = min_version; version <= max_version; ++version)]: with
    [max_version == INT_MAX] the increment overflows. *)
Definition version_loop (min_version max_version : Z) (body : Z -> M t unit) : M t unit :=
  for_each (zrange min_version max_version) body ;;;
  if (min_version <=? max_version) && (max_version =? INT32_MAX) then undef else ret tt.

Definition AddBuiltinRange (op : Z) (registration : option TfLiteRegistration)
    (min_version max_version : Z) : M t unit :=
  version_loop min_version max_version (fun version => AddBuiltin op registration version).

Definition AddCustom (name : string) (registration : option TfLiteRegistration) (version : Z)
    : M t unit :=
  let* reg := access registration in
  let new_registration := set_identity BuiltinOperator_CUSTOM (Some name) version reg in
  modify (fun r => mk (builtins_ r) (<[(name, version) := new_registration]> (custom_ops_ r))
    (other_op_resolvers_ r) true).

Definition AddCustomRange (name : string) (registration : option TfLiteRegistration)
    (min_version max_version : Z) : M t unit :=
  version_loop min_version max_version (fun version => AddCustom name registration version).

(** [for (kv : other) m[kv.first] = kv.second]; the order of the iteration over an
    [unordered_map] does not matter, the keys being distinct. *)
Definition assign_all `{Countable K} {V} (other m : gmap K V) : gmap K V :=
  foldr (fun kv m => <[kv.1 := kv.2]> m) m (map_to_list other).

Definition AddAll (other : t) : M t unit :=
  modify (fun r => mk (assign_all (builtins_ other) (builtins_ r))
    (assign_all (custom_ops_ other) (custom_ops_ r))
    (other_op_resolvers_ other ++ other_op_resolvers_ r)
    (may_directly_contain_user_defined_ops_ r)).

Definition ChainOpResolver (other : OpResolver) : M t unit :=
  modify (fun r => mk (builtins_ r) (custom_ops_ r) (other_op_resolvers_ r ++ [other])
    (may_directly_contain_user_defined_ops_ r)).

Definition MayContainUserDefinedOps (r : t) : bool :=
  may_directly_contain_user_defined_ops_ r ||
  existsb or_MayContainUserDefinedOps (other_op_resolvers_ r).

(** A [MutableOpResolver] seen through its base class. *)
Definition as_OpResolver (r : t) : OpResolver :=
  mkOpResolver (FindOp r) (FindOpCustom r) (MayContainUserDefinedOps r).
End MutableOpResolver.

(** ** [class CallbackOpResolver] *)

(** A [TfLiteOperator] with its address; the callbacks it may have are null or not. *)
Record TfLiteOperator := mkOperator {
  op_address : Z; op_custom_name : option string; op_version : Z; op_builtin_code : Z;
  op_init : option Z; op_free : option Z; op_prepare : option Z; op_invoke : option Z;
  op_async_kernel : option Z }.

(** [TfLiteRegistration registration{}], in which every field is zero. *)
Definition registration_zero : TfLiteRegistration :=
  mkRegistration None None None None 0 None 0 0 0.

Definition InitTfLiteRegistration (r : TfLiteRegistration) (e : TfLiteOperator)
    : TfLiteRegistration :=
  mkRegistration (reg_init r) (reg_free r) (reg_prepare r) (reg_invoke r)
    (op_builtin_code e) (op_custom_name e) (op_version e) (op_address e) (inplace_operator r).

Definition OperatorToRegistration (e : TfLiteOperator) : TfLiteRegistration :=
  InitTfLiteRegistration registration_zero e.

(** A legacy registration is a prefix of [TfLiteRegistration] that ends before
    [inplace_operator]: the [memcpy] leaves that field zero, and
    [registration_external] is then cleared. *)
Definition from_legacy (r : TfLiteRegistration) : TfLiteRegistration :=
  mkRegistration (reg_init r) (reg_free r) (reg_prepare r) (reg_invoke r)
    (builtin_code r) (custom_name r) (version r) 0 0.

(** [TfLiteOpResolverCallbacks]; a callback may be null. *)
Record TfLiteOpResolverCallbacks := mkCallbacks {
  find_builtin_op : option (Z -> Z -> option TfLiteRegistration);
  find_custom_op : option (string -> Z -> option TfLiteRegistration);
  find_builtin_op_v3 : option (Z -> Z -> option TfLiteRegistration);
  find_custom_op_v3 : option (string -> Z -> option TfLiteRegistration);
  find_builtin_op_v2 : option (Z -> Z -> option TfLiteRegistration);
  find_custom_op_v2 : option (string -> Z -> option TfLiteRegistration);
  find_builtin_op_v1 : option (Z -> Z -> option TfLiteRegistration);
  find_custom_op_v1 : option (string -> Z -> option TfLiteRegistration);
  find_builtin_op_external : option (Z -> Z -> option TfLiteOperator);
  find_custom_op_external : option (string -> Z -> option TfLiteOperator) }.

Definition no_callbacks : TfLiteOpResolverCallbacks :=
  mkCallbacks None None None None None None None None None None.

Module CallbackOpResolver.

(** The registrations the resolver has created and owns. *)
Record t := mk {
  temporary_builtin_registrations_ : list TfLiteRegistration;
  temporary_custom_registrations_ : list TfLiteRegistration }.

Definition empty : t := mk [] [].

Definition push_builtin (reg : TfLiteRegistration) : M t unit :=
  modify (fun r => mk (temporary_builtin_registrations_ r ++ [reg])
    (temporary_custom_registrations_ r)).

Definition push_custom (reg : TfLiteRegistration) : M t unit :=
  modify (fun r => mk (temporary_builtin_registrations_ r)
    (temporary_custom_registrations_ r ++ [reg])).

Section Callbacks.
Context (op_resolver_callbacks_ : TfLiteOpResolverCallbacks).

(** [if (auto* registration = first; registration) return registration; second]. *)
Definition or_else {A} (first second : M t (option A)) : M t (option A) :=
  let* o := first in
  match o with Some a => ret (Some a) | None => second end.

(** The first loop of [FindOp]: the cached registrations. *)
Fixpoint cached_builtin (regs : list TfLiteRegistration) (op version : Z)
    : option TfLiteRegistration :=
  match regs with
  | [] => None
  | r :: regs' =>
    if (builtin_code r =? op) && (Common.version r =? version) then Some r
    else cached_builtin regs' op version
  end.

(** [strcmp] of a null name is undefined. *)
Fixpoint cached_custom (regs : list TfLiteRegistration) (op : string) (version : Z)
    : M t (option TfLiteRegistration) :=
  match regs with
  | [] => ret None
  | r :: regs' =>
    let* name := access (custom_name r) in
    if bool_decide (name = op) && (Common.version r =? version) then ret (Some r)
    else cached_custom regs' op version
  end.

Definition BuildBuiltinOpFromLegacyRegistration (op version : Z)
    (legacy_find_builtin_op : option (Z -> Z -> option TfLiteRegistration))
    : M t (option TfLiteRegistration) :=
  match legacy_find_builtin_op with
  | Some find =>
    match find op version with
    | Some legacy_registration =>
      let new_registration := from_legacy legacy_registration in
      push_builtin new_registration ;;; ret (Some new_registration)
    | None => ret None
    end
  | None => ret None
  end.

Definition BuildCustomOpFromLegacyRegistration (op : string) (version : Z)
    (legacy_find_custom_op : option (string -> Z -> option TfLiteRegistration))
    : M t (option TfLiteRegistration) :=
  match legacy_find_custom_op with
  | Some find =>
    match find op version with
    | Some legacy_registration =>
      let new_registration := from_legacy legacy_registration in
      push_custom new_registration ;;; ret (Some new_registration)
    | None => ret None
    end
  | None => ret None
  end.

(** [find_builtin_op_external] / [find_custom_op_external]: an operator all of whose
    callbacks are null is passed over.  Both overloads of [FindOp] store the new
    registration in [temporary_builtin_registrations_]. *)
Definition use_external (o : option TfLiteOperator) (has_callback : TfLiteOperator -> bool)
    : M t (option TfLiteRegistration) :=
  match o with
  | Some registration_external =>
    if has_callback registration_external then
      let new_registration := OperatorToRegistration registration_external in
      push_builtin new_registration ;;; ret (Some new_registration)
    else ret None
  | None => ret None
  end.

Definition has_builtin_callback (e : TfLiteOperator) : bool :=
  bool_decide (is_Some (op_init e)) || bool_decide (is_Some (op_free e)) ||
  bool_decide (is_Some (op_invoke e)) || bool_decide (is_Some (op_prepare e)) ||
  bool_decide (is_Some (op_async_kernel e)).

Definition has_custom_callback (e : TfLiteOperator) : bool :=
  bool_decide (is_Some (op_init e)) || bool_decide (is_Some (op_free e)) ||
  bool_decide (is_Some (op_invoke e)) || bool_decide (is_Some (op_prepare e)).

Definition FindOp (op version : Z) : M t (option TfLiteRegistration) :=
  let* r := get in
  match cached_builtin (temporary_builtin_registrations_ r) op version with
  | Some created_registration => ret (Some created_registration)
  | None =>
    or_else
      (match find_builtin_op_external op_resolver_callbacks_ with
       | Some find => use_external (find op version) has_builtin_callback
       | None => ret None
       end)
      (match find_builtin_op op_resolver_callbacks_ with
       | Some find => ret (find op version)
       | None =>
         or_else (BuildBuiltinOpFromLegacyRegistration op version
                    (find_builtin_op_v3 op_resolver_callbacks_))
        (or_else (BuildBuiltinOpFromLegacyRegistration op version
                    (find_builtin_op_v2 op_resolver_callbacks_))
                 (BuildBuiltinOpFromLegacyRegistration op version
                    (find_builtin_op_v1 op_resolver_callbacks_)))
       end)
  end.

Definition FindOpCustom (op : string) (version : Z) : M t (option TfLiteRegistration) :=
  let* r := get in
  let* cached := cached_custom (temporary_custom_registrations_ r) op version in
  match cached with
  | Some created_registration => ret (Some created_registration)
  | None =>
    or_else
      (match find_custom_op_external op_resolver_callbacks_ with
       | Some find => use_external (find op version) has_custom_callback
       | None => ret None
       end)
      (match find_custom_op op_resolver_callbacks_ with
       | Some find => ret (find op version)
       | None =>
         or_else (BuildCustomOpFromLegacyRegistration op version
                    (find_custom_op_v3 op_resolver_callbacks_))
        (or_else (BuildCustomOpFromLegacyRegistration op version
                    (find_custom_op_v2 op_resolver_callbacks_))
                 (BuildCustomOpFromLegacyRegistration op version
                    (find_custom_op_v1 op_resolver_callbacks_)))
       end)
  end.
End Callbacks.
End CallbackOpResolver.

(** ** Operator codes of a model *)

(** The fields of [OperatorCode] of the schema. *)
Record OperatorCode := mkOperatorCode {
  oc_builtin_code : Z; oc_deprecated_builtin_code : Z; oc_custom_code : option string;
  oc_version : Z }.

Definition GetBuiltinCode (op_code : OperatorCode) : Z :=
  Z.max (oc_builtin_code op_code) (oc_deprecated_builtin_code op_code).

(** The status and [*registration]. *)
Definition GetRegistrationFromOpCode (opcode : OperatorCode) (op_resolver : OpResolver)
    : TfLiteStatus * option TfLiteRegistration :=
  let code := GetBuiltinCode opcode in
  let version := oc_version opcode in
  if BuiltinOperator_MAX <? code then (kTfLiteError, None)
  else if negb (code =? BuiltinOperator_CUSTOM) then
    match FindBuiltinOp op_resolver code version with
    | None => (kTfLiteError, None)
    | registration => (kTfLiteOk, registration)
    end
  else
    match oc_custom_code opcode with
    | None => (kTfLiteError, None)
    | Some name =>
      match FindCustomOp op_resolver name version with
      | None => (kTfLiteError, None)
      | registration => (kTfLiteOk, registration)
      end
    end.

(** ** The mutable resolver *)

Section MutableOpResolverTheorems.
Import MutableOpResolver.
Implicit Types (r : t).

Lemma assign_all_union `{Countable K} {V} (other m : gmap K V) :
  assign_all other m = other ∪ m.
Proof.
  unfold assign_all. apply map_eq. intros k. rewrite lookup_union.
  assert (Hfold : forall l, NoDup l.*1 ->
    foldr (fun kv m => <[kv.1 := kv.2]> m) m l !! k =
    match list_to_map (M := gmap K V) l !! k with Some v => Some v | None => m !! k end).
  { induction l as [|[k' v'] l IH]; intros Hnd; cbn in *; [by rewrite lookup_empty|].
    apply NoDup_cons in Hnd as [_ Hnd]. destruct (decide (k' = k)) as [->|Hne].
    - by rewrite !lookup_insert_eq.
    - rewrite !lookup_insert_ne by done. auto. }
  rewrite Hfold by apply NoDup_fst_map_to_list.
  rewrite list_to_map_to_list. destruct (other !! k); cbn; [by destruct (m !! k)|].
  by destruct (m !! k).
Qed.

Lemma first_found_app {A} (find : OpResolver -> option A) l l' :
  first_found find (l ++ l') =
  match first_found find l with Some x => Some x | None => first_found find l' end.
Proof. induction l as [|o l IH]; cbn; [done|]. by destruct (find o). Qed.

(** The registrations a resolver holds itself, and those of the resolvers chained to it. *)
Definition direct r op v := builtins_ r !! (op, v).
Definition direct_custom r name v := custom_ops_ r !! (name, v).
Definition chained r op v :=
  first_found (fun o => FindBuiltinOp o op v) (other_op_resolvers_ r).
Definition chained_custom r name v :=
  first_found (fun o => FindCustomOp o name v) (other_op_resolvers_ r).

(** The first [Some] of a list of candidates. *)
Fixpoint first_some {A} (l : list (option A)) : option A :=
  match l with [] => None | Some x :: _ => Some x | None :: l' => first_some l' end.

(** [AddAll]: a registration of [other] replaces one of [*this] for the same key; every
    direct registration takes precedence over every chained one, and the resolvers chained
    to [other] are asked before those chained to [*this]. *)
Theorem AddAll_FindOp r other :
  exists r', AddAll other r = (Done tt, r') /\
    (forall op v, FindOp r' op v =
       first_some [direct other op v; direct r op v; chained other op v; chained r op v]) /\
    (forall name v, FindOpCustom r' name v =
       first_some [direct_custom other name v; direct_custom r name v;
                   chained_custom other name v; chained_custom r name v]).
Proof.
  eexists. split; [done|].
  split; intros o v; unfold FindOp, FindOpCustom, direct, direct_custom, chained,
    chained_custom; cbn [builtins_ custom_ops_ other_op_resolvers_];
    rewrite assign_all_union, lookup_union, first_found_app.
  - destruct (builtins_ other !! _), (builtins_ r !! _); cbn; try done.
    by repeat destruct (first_found _ _).
  - destruct (custom_ops_ other !! _), (custom_ops_ r !! _); cbn; try done.
    by repeat destruct (first_found _ _).
Qed.

(** The loop over the versions, as a fold. *)
Lemma AddBuiltin_loop_FindOp op reg l r :
  exists r', for_each l (fun v => AddBuiltin op (Some reg) v) r = (Done tt, r') /\
    (forall op' v, FindOp r' op' v =
      if bool_decide (op' = op /\ v ∈ l) then Some (set_identity op None v reg)
      else FindOp r op' v) /\
    (forall name v, FindOpCustom r' name v = FindOpCustom r name v).
Proof.
  revert r. induction l as [|w l IH]; intros r.
  - exists r. split_and!; [done| |done]. intros. rewrite bool_decide_eq_false_2; [done|].
    intros [_ Hv]. by apply elem_of_nil in Hv.
  - rewrite for_each_cons. unfold bind, AddBuiltin at 1, modify.
    edestruct IH as (r' & -> & Hb & Hc). exists r'. split_and!; [done| |].
    + intros op' v. rewrite Hb. clear Hb Hc IH. unfold FindOp at 1.
      cbn [builtins_ other_op_resolvers_]. rewrite lookup_insert.
      destruct (decide (op' = op)) as [->|Hop].
      * destruct (decide (v ∈ l)) as [Hin|Hin].
        { rewrite !bool_decide_eq_true_2; [done| |done]. split; [done|by constructor]. }
        rewrite bool_decide_eq_false_2 by tauto. destruct (decide (w = v)) as [->|Hw].
        { rewrite decide_True, bool_decide_eq_true_2; [done| |done].
          split; [done|by constructor]. }
        rewrite decide_False, bool_decide_eq_false_2; [done| |by intros [= ]].
        intros [_ [?|?]%elem_of_cons]; [congruence|done].
      * rewrite !bool_decide_eq_false_2 by tauto. by rewrite decide_False by (intros [= ]; done).
    + intros name v. by rewrite Hc.
Qed.

(** [AddBuiltin op registration min_version max_version] registers exactly the versions of
    the closed interval, with the operator's code and version and no custom name, and leaves
    every other lookup as it was. *)
Theorem AddBuiltinRange_FindOp r op reg min_version max_version :
  max_version < INT32_MAX ->
  exists r', AddBuiltinRange op (Some reg) min_version max_version r = (Done tt, r') /\
    (forall op' v, FindOp r' op' v =
      if bool_decide (op' = op /\ min_version <= v <= max_version)
      then Some (set_identity op None v reg) else FindOp r op' v) /\
    (forall name v, FindOpCustom r' name v = FindOpCustom r name v).
Proof.
  intros Hmax. unfold AddBuiltinRange, version_loop.
  destruct (AddBuiltin_loop_FindOp op reg (zrange min_version max_version) r)
    as (r' & Hrun & Hb & Hc).
  exists r'. split_and!; [|intros op' v|done].
  - unfold bind. rewrite Hrun. destruct (Z.eqb_spec max_version INT32_MAX); [lia|].
    by rewrite andb_false_r.
  - rewrite Hb. erewrite bool_decide_ext; [done|]. by rewrite elem_of_zrange.
Qed.

Lemma AddBuiltinRange_FindOp_witness :
  2 < INT32_MAX /\
  exists r', AddBuiltinRange 9 (Some registration_zero) 1 2 empty = (Done tt, r') /\
    (forall op' v, FindOp r' op' v =
      if bool_decide (op' = 9 /\ 1 <= v <= 2)
      then Some (set_identity 9 None v registration_zero) else FindOp empty op' v) /\
    (forall name v, FindOpCustom r' name v = FindOpCustom empty name v).
Proof. split; [done|]. by apply AddBuiltinRange_FindOp. Defined.

(** When [MayContainUserDefinedOps] is false, a resolver built by [AddBuiltin] and
    [AddCustom] holds no registration of its own ... *)
Definition flag_sound r : Prop :=
  may_directly_contain_user_defined_ops_ r = false -> builtins_ r = ∅ /\ custom_ops_ r = ∅.

Lemma AddBuiltin_flag_sound r op reg v : flag_sound r -> flag_sound (snd (AddBuiltin op reg v r)).
Proof. by destruct reg. Qed.

Lemma AddCustom_flag_sound r name reg v :
  flag_sound r -> flag_sound (snd (AddCustom name reg v r)).
Proof. by destruct reg. Qed.

(** ... but [AddAll] copies the registrations of the other resolver and not its flag: after
    [AddAll] a resolver with user-defined operators answers that it has none. *)
Theorem AddAll_loses_user_defined_flag :
  exists other r, snd (AddCustom "MyOp" (Some registration_zero) 1 empty) = other /\
    MayContainUserDefinedOps other = true /\
    AddAll other empty = (Done tt, r) /\
    FindOpCustom r "MyOp" 1 = Some (set_identity BuiltinOperator_CUSTOM (Some "MyOp"%string) 1
                                      registration_zero) /\
    MayContainUserDefinedOps r = false.
Proof. do 2 eexists. split_and!; vm_compute; reflexivity. Qed.
End MutableOpResolverTheorems.

(** ** The callback resolver *)

Section CallbackOpResolverTheorems.
Import CallbackOpResolver.
Context (cb : TfLiteOpResolverCallbacks).

(** The callbacks for builtin operators answer with the operator they were asked for. *)
Definition answers_query (find : option (Z -> Z -> option TfLiteRegistration)) : Prop :=
  forall f op v reg, find = Some f -> f op v = Some reg ->
    builtin_code reg = op /\ Common.version reg = v.

Record callbacks_ok : Prop := {
  external_ok : forall f op v e, find_builtin_op_external cb = Some f -> f op v = Some e ->
    op_builtin_code e = op /\ op_version e = v;
  v3_ok : answers_query (find_builtin_op_v3 cb);
  v2_ok : answers_query (find_builtin_op_v2 cb);
  v1_ok : answers_query (find_builtin_op_v1 cb);
}.

Lemma cached_builtin_app_none l op v reg : cached_builtin l op v = None ->
  builtin_code reg = op -> Common.version reg = v ->
  cached_builtin (l ++ [reg]) op v = Some reg.
Proof.
  intros Hnone Hop Hv. induction l as [|r l IH]; cbn in *.
  - by rewrite (proj2 (Z.eqb_eq _ _) Hop), (proj2 (Z.eqb_eq _ _) Hv).
  - by destruct ((builtin_code r =? op) && (Common.version r =? v)); auto.
Qed.

(** What each source of a registration does: it finds nothing and changes nothing, or it
    pushes what it returns. *)
Definition pushes_or_none (op v : Z) (c : M t (option TfLiteRegistration)) : Prop :=
  forall r, c r = (Done None, r) \/
    exists reg, c r = (Done (Some reg),
                       mk (temporary_builtin_registrations_ r ++ [reg])
                          (temporary_custom_registrations_ r)) /\
      builtin_code reg = op /\ Common.version reg = v.

Lemma or_else_pushes op v c d :
  pushes_or_none op v c -> pushes_or_none op v d -> pushes_or_none op v (or_else c d).
Proof.
  intros Hc Hd r. unfold or_else, bind.
  destruct (Hc r) as [->|(reg & -> & ?)]; [apply Hd|]. right. eauto.
Qed.

Lemma use_external_pushes op v has : callbacks_ok ->
  pushes_or_none op v
    (match find_builtin_op_external cb with
     | Some find => use_external (find op v) has
     | None => ret None end).
Proof.
  intros Hok r. destruct (find_builtin_op_external cb) as [f|] eqn:Hf; [|by left].
  unfold use_external. destruct (f op v) as [e|] eqn:He; [|by left].
  destruct (has e); [|by left]. right. eexists. split; [done|].
  cbn. by apply (external_ok Hok f).
Qed.

Lemma BuildBuiltin_pushes op v find : answers_query find ->
  pushes_or_none op v (BuildBuiltinOpFromLegacyRegistration op v find).
Proof.
  intros Hok r. unfold BuildBuiltinOpFromLegacyRegistration.
  destruct find as [f|]; [|by left]. destruct (f op v) as [l|] eqn:Hl; [|by left].
  right. eexists. split; [done|]. cbn. by apply (Hok f).
Qed.

(** The part of [FindOp] after the cache. *)
Definition FindOp_miss (op v : Z) : M t (option TfLiteRegistration) :=
  or_else
    (match find_builtin_op_external cb with
     | Some find => use_external (find op v) has_builtin_callback
     | None => ret None
     end)
    (match find_builtin_op cb with
     | Some find => ret (find op v)
     | None =>
       or_else (BuildBuiltinOpFromLegacyRegistration op v (find_builtin_op_v3 cb))
      (or_else (BuildBuiltinOpFromLegacyRegistration op v (find_builtin_op_v2 cb))
               (BuildBuiltinOpFromLegacyRegistration op v (find_builtin_op_v1 cb)))
     end).

Lemma FindOp_run op v r :
  FindOp cb op v r =
  match cached_builtin (temporary_builtin_registrations_ r) op v with
  | Some reg => (Done (Some reg), r)
  | None => FindOp_miss op v r
  end.
Proof.
  unfold FindOp, bind at 1, get. by destruct (cached_builtin _ _ _).
Qed.

(** After the cache, the call returns without changing anything, or it returns what it has
    just cached. *)
Lemma FindOp_miss_cases op v r : callbacks_ok ->
  (exists res, FindOp_miss op v r = (Done res, r)) \/
  exists reg, FindOp_miss op v r = (Done (Some reg),
      mk (temporary_builtin_registrations_ r ++ [reg]) (temporary_custom_registrations_ r)) /\
    builtin_code reg = op /\ Common.version reg = v.
Proof.
  intros Hok. unfold FindOp_miss. destruct (find_builtin_op cb) as [f|].
  - unfold or_else, bind at 1. unfold bind at 1.
    destruct (use_external_pushes op v has_builtin_callback Hok r)
      as [Heq|(reg & Heq & ?)]; rewrite Heq; [left; by eexists|right; by eauto].
  - match goal with |- context [or_else ?c ?d r] =>
      assert (Hall : pushes_or_none op v (or_else c d)) end.
    { apply or_else_pushes; [by apply use_external_pushes|].
      repeat apply or_else_pushes; apply BuildBuiltin_pushes; by destruct Hok. }
    destruct (Hall r) as [Heq|(reg & Heq & ?)]; rewrite Heq; eauto.
Qed.

(** Looking an operator up a second time returns the same registration and creates nothing:
    the number of registrations the resolver owns is bounded by the number of operators. *)
Theorem CallbackOpResolver_FindOp_idempotent r op v res r' : callbacks_ok ->
  FindOp cb op v r = (Done res, r') -> FindOp cb op v r' = (Done res, r').
Proof.
  intros Hok. rewrite (FindOp_run op v r).
  destruct (cached_builtin (temporary_builtin_registrations_ r) op v) as [reg|] eqn:Hc.
  { intros [= <- <-]. by rewrite FindOp_run, Hc. }
  destruct (FindOp_miss_cases op v r Hok) as [[o Ho]|(reg & Ho & Hop & Hv)]; rewrite Ho;
    intros [= <- <-]; rewrite FindOp_run; cbn [temporary_builtin_registrations_].
  - by rewrite Hc.
  - by rewrite cached_builtin_app_none.
Qed.
End CallbackOpResolverTheorems.

Section CallbackExamples.
Import CallbackOpResolver.

Definition example_operator (name : option string) (code : Z) : TfLiteOperator :=
  mkOperator 4096 name 1 code (Some 1) None None (Some 2) None.

Definition example_callbacks : TfLiteOpResolverCallbacks :=
  mkCallbacks None None None None None None None None
    (Some (fun op v => if (op =? 9) && (v =? 1) then Some (example_operator None 9) else None))
    (Some (fun name v => if bool_decide (name = "MyOp"%string) && (v =? 1)
                         then Some (example_operator (Some "MyOp"%string) 32) else None)).

Lemma example_callbacks_ok : callbacks_ok example_callbacks.
Proof.
  split; try (by intros f op v e); intros f op v e [= <-].
  destruct (Z.eqb_spec op 9), (Z.eqb_spec v 1); cbn; intros [= <-]; done.
Qed.

Lemma CallbackOpResolver_FindOp_idempotent_witness :
  exists reg r', FindOp example_callbacks 9 1 empty = (Done (Some reg), r') /\
    FindOp example_callbacks 9 1 r' = (Done (Some reg), r').
Proof.
  do 2 eexists. split; [vm_compute; reflexivity|].
  apply (CallbackOpResolver_FindOp_idempotent example_callbacks empty 9 1);
    [apply example_callbacks_ok|vm_compute; reflexivity].
Defined.

(** [n] lookups of the same custom operator. *)
Fixpoint lookups (cb : TfLiteOpResolverCallbacks) (n : nat) (op : string) (v : Z) : M t unit :=
  match n with
  | O => ret tt
  | S n' => let* _ := FindOpCustom cb op v in lookups cb n' op v
  end.

(** The custom overload stores what it creates where it never looks for it: every lookup of
    a custom operator found by [find_custom_op_external] creates one more registration, and
    the cache of custom registrations stays empty. *)
Theorem custom_lookups_never_cached cb n op v e r :
  option_map (fun f => f op v) (find_custom_op_external cb) = Some (Some e) ->
  has_custom_callback e = true ->
  temporary_custom_registrations_ r = [] ->
  exists r', lookups cb n op v r = (Done tt, r') /\
    temporary_custom_registrations_ r' = [] /\
    length (temporary_builtin_registrations_ r') =
      (length (temporary_builtin_registrations_ r) + n)%nat.
Proof.
  intros Hext Hcb. revert r. induction n as [|n IH]; intros r Hr; cbn [lookups].
  - exists r. split_and!; [done..|lia].
  - destruct (find_custom_op_external cb) as [f|] eqn:Hf; [|done].
    injection Hext as Hext.
    assert (Hone : FindOpCustom cb op v r =
      (Done (Some (OperatorToRegistration e)),
       mk (temporary_builtin_registrations_ r ++ [OperatorToRegistration e]) [])).
    { unfold FindOpCustom, bind at 1, get. rewrite Hr. cbn [cached_custom].
      unfold bind at 1, ret at 1. rewrite Hf, Hext. unfold or_else, use_external.
      rewrite Hcb. unfold bind, push_builtin, modify, ret. by rewrite Hr. }
    unfold bind. rewrite Hone. edestruct IH as (r' & -> & ? & Hlen); [done|].
    exists r'. split_and!; [done..|]. rewrite Hlen. cbn. rewrite length_app. cbn. lia.
Qed.

Lemma custom_lookups_never_cached_witness :
  exists r', lookups example_callbacks 3 "MyOp" 1 empty = (Done tt, r') /\
    temporary_custom_registrations_ r' = [] /\
    length (temporary_builtin_registrations_ r') = 3%nat.
Proof.
  apply (custom_lookups_never_cached example_callbacks 3 "MyOp" 1
    (example_operator (Some "MyOp"%string) 32) empty); vm_compute; reflexivity.
Defined.
End CallbackExamples.

(** ** Operator codes *)

(** [GetRegistrationFromOpCode] succeeds exactly when the resolver knows the operator: the
    code is that of a builtin in the schema's range, or [CUSTOM] with a name. *)
Theorem GetRegistrationFromOpCode_spec opcode res reg :
  GetRegistrationFromOpCode opcode res = (kTfLiteOk, Some reg) <->
  GetBuiltinCode opcode <= BuiltinOperator_MAX /\
  if GetBuiltinCode opcode =? BuiltinOperator_CUSTOM
  then exists name, oc_custom_code opcode = Some name /\
       FindCustomOp res name (oc_version opcode) = Some reg
  else FindBuiltinOp res (GetBuiltinCode opcode) (oc_version opcode) = Some reg.
Proof.
  unfold GetRegistrationFromOpCode.
  destruct (Z.ltb_spec BuiltinOperator_MAX (GetBuiltinCode opcode)).
  { split; [done|]. intros [? _]. lia. }
  destruct (GetBuiltinCode opcode =? BuiltinOperator_CUSTOM); cbn.
  - destruct (oc_custom_code opcode) as [name|]; [|split; [done|naive_solver]].
    destruct (FindCustomOp res name _) eqn:?; split; naive_solver.
  - destruct (FindBuiltinOp res _ _) eqn:?; split; naive_solver.
Qed.

(** The other outcome is an error with a null registration. *)
Lemma GetRegistrationFromOpCode_error opcode res st reg :
  GetRegistrationFromOpCode opcode res = (st, reg) ->
  (st = kTfLiteOk /\ is_Some reg) \/ (st = kTfLiteError /\ reg = None).
Proof.
  unfold GetRegistrationFromOpCode. intros Heq.
  repeat case_match; simplify_eq; eauto.
Qed.
