(* ===== verification/Callbacks.v ===== *)
(** * The functions the subgraph calls through pointers
    (tensorflow/lite/c/common_internal.{h,cc}, core/c/common.h)

    Kernels, delegates and cancellation functions are known to the runtime by the address of
    a function.  [Callbacks] is what these functions do, and which operator and delegate
    objects the addresses in registrations and tensors point to, and the address of the function
    that marks an unresolved operator; it is a parameter of the
    subgraph, as the functions are of the code.  The dispatch between the plain and the opaque
    interface of an operator or a delegate is the code's. *)
From Stdlib Require Import String.
From S2P Require Import Prelude Heap Common.
#[local] Open Scope Z_scope.

(** A [TfLiteOperator]: its name and version, and its callbacks, null or the address of a
    function. *)
Record OperatorCallbacks := mkOperatorCallbacks {
  oc_custom_name : option string; oc_version : Z; oc_node_index : Z;
  oc_init : option Z; oc_free : option Z; oc_prepare : option Z; oc_invoke : option Z;
  oc_user_data : Z;
  oc_init_with_data : option Z; oc_free_with_data : option Z;
  oc_prepare_with_data : option Z; oc_invoke_with_data : option Z }.

Record TfLiteOpaqueDelegateBuilder := mkBuilder {
  ob_data : Z;
  ob_Prepare : option Z; ob_CopyFromBufferHandle : option Z; ob_FreeBufferHandle : option Z;
  ob_flags : Z }.

Record TfLiteDelegate := mkDelegate {
  d_Prepare : option Z; d_CopyFromBufferHandle : option Z; d_FreeBufferHandle : option Z;
  d_flags : Z;
  opaque_delegate_builder : option TfLiteOpaqueDelegateBuilder }.

(** [TfLiteDelegateFlags]. *)
Definition kTfLiteDelegateFlagsAllowDynamicTensors : Z := 1.
Definition kTfLiteDelegateFlagsRequirePropagatedShapes : Z := 2.
Definition kTfLiteDelegateFlagsHintFullyDelegatedToSingleDelegate : Z := 8.

(** What the functions do, on a state [S]; [call_CloneTo] is the method of the data of a variant
    tensor.  A function gets the [user_data] of its object
    when it has one; a node is passed by its index, a tensor by its index.  A non-ok status is
    a [Fail]. *)
Class Callbacks (S : Type) := {
  UnresolvedOpInvoke : Z;
  operator_at : Z -> option OperatorCallbacks;
  delegate_at : Z -> option TfLiteDelegate;
  call_init (f : Z) (data : option Z) (buffer length : Z) : M S Z;
  call_free (f : Z) (data : option Z) (buffer : Z) : M S unit;
  call_prepare (f : Z) (data : option Z) (node : Z) : M S unit;
  call_invoke (f : Z) (data : option Z) (node : Z) : M S unit;
  call_delegate_Prepare (f delegate : Z) (data : option Z) : M S unit;
  call_CopyFromBufferHandle (f delegate : Z) (data : option Z) (handle tensor : Z) : M S unit;
  call_FreeBufferHandle (f delegate : Z) (data : option Z) (tensor : Z) : M S unit;
  call_check_cancelled (f data : Z) : M S bool;
  call_CloneTo (variant existing : Z) : M heap Z }.

(** ** Delegates *)

Section Delegates.
Context {S : Type} {CB : Callbacks S}.

Definition is_null (f : option Z) : bool := match f with None => true | Some _ => false end.

(** [delegate != nullptr && ...]; a dangling pointer is undefined. *)
Definition TfLiteDelegateIsOpaque (delegate : Z) : M S bool :=
  if delegate =? 0 then ret false
  else
    let* d := access (delegate_at delegate) in
    ret (is_null (d_Prepare d) && is_null (d_CopyFromBufferHandle d) &&
         is_null (d_FreeBufferHandle d) &&
         match opaque_delegate_builder d with Some _ => true | None => false end).

(** The builder of an opaque delegate and one of its functions, when it is set. *)
Definition builder_function (delegate : Z) (f : TfLiteOpaqueDelegateBuilder -> option Z)
    : M S (option (Z * Z)) :=
  let* opaque := TfLiteDelegateIsOpaque delegate in
  if opaque then
    let* d := access (delegate_at delegate) in
    let* b := access (opaque_delegate_builder d) in
    match f b with
    | Some p => ret (Some (p, ob_data b))
    | None => ret None
    end
  else ret None.

Definition TfLiteDelegatePrepareInternal (delegate : Z) : M S unit :=
  let* o := builder_function delegate ob_Prepare in
  match o with
  | Some (p, data) => call_delegate_Prepare p delegate (Some data)
  | None =>
    let* d := access (delegate_at delegate) in
    let* p := access (d_Prepare d) in
    call_delegate_Prepare p delegate None
  end.

(** The handle passed on is the tensor's, not the argument. *)
Definition TfLiteDelegateCopyFromBufferHandleInternal (delegate tensor_handle tensor : Z) : M S unit :=
  let* o := builder_function delegate ob_CopyFromBufferHandle in
  match o with
  | Some (p, data) => call_CopyFromBufferHandle p delegate (Some data) tensor_handle tensor
  | None =>
    let* d := access (delegate_at delegate) in
    match d_CopyFromBufferHandle d with
    | None => fail kTfLiteError
    | Some p => call_CopyFromBufferHandle p delegate None tensor_handle tensor
    end
  end.

(** [buffer_handle] points to the tensor's field. *)
Definition TfLiteDelegateFreeBufferHandleInternal (delegate tensor : Z) : M S unit :=
  let* o := builder_function delegate ob_FreeBufferHandle in
  match o with
  | Some (p, data) => call_FreeBufferHandle p delegate (Some data) tensor
  | None =>
    let* d := access (delegate_at delegate) in
    match d_FreeBufferHandle d with
    | None => fail kTfLiteError
    | Some p => call_FreeBufferHandle p delegate None tensor
    end
  end.

Definition TfLiteDelegateGetFlagsInternal (delegate : Z) : M S Z :=
  let* opaque := TfLiteDelegateIsOpaque delegate in
  let* d := access (delegate_at delegate) in
  if opaque then let* b := access (opaque_delegate_builder d) in ret (ob_flags b)
  else ret (d_flags d).

(** [flags & flag]. *)
Definition has_flag (flags flag : Z) : bool := negb (Z.land flags flag =? 0).
End Delegates.
