(* ===== verification/Subgraph.v ===== *)
(** * Subgraphs (tensorflow/lite/core/subgraph.{h,cc}): the graph and its construction

    A subgraph holds the tensors, the nodes and the execution plan of a model, the memory
    planner that places its tensors and the delegates applied to it.  This file has its state
    and the operations that build it: adding tensors and nodes, describing tensors, resizing
    them, releasing memory.  [SubgraphRun] prepares and runs it. *)
From Stdlib Require Import String.
From stdpp Require Import strings.
From S2P Require Import Prelude Heap Common Util GraphInfo MemoryPlanner Callbacks.
From S2P Require OpResolver.
#[local] Open Scope Z_scope.

(** ** Data *)

Inductive State := kStateUninvokable | kStateInvokable | kStateInvokableAndImmutable.

#[global] Instance State_eq_dec : EqDecision State.
Proof. solve_decision. Defined.

(** [InterpreterOptions] (interpreter_options.h). *)
Record InterpreterOptions := mkInterpreterOptions {
  preserve_all_tensors_ : bool;
  ensure_dynamic_tensors_are_released_ : bool;
  optimize_memory_for_large_tensors_ : Z;
  disable_delegate_clustering_ : bool;
  cache_constant_cast_op_ : bool;
  shlo_composite_inlining_ : bool;
  use_signature_tensor_names_ : bool;
  compress_quantization_zero_points_ : bool }.

(** [InterpreterOptions()]. *)
Definition InterpreterOptions_init : InterpreterOptions :=
  mkInterpreterOptions false false 0 false false false false false.

Record TfLiteCustomAllocation := mkCustomAllocation { ca_data : Z; ca_bytes : Z }.

(** [OpResolver::OpId]: the code, name and version of an operator. *)
Abbreviation operator_id := (Z * option string * Z)%type.

(** [memory_planner_] is null or a planner of type [P].  A node's integer arrays are kept in
    the node; [freed_nodes_] are the nodes whose arrays have been freed, so that the pointers
    the node still holds are dangling.  [continue_invocation_] is null or the value of the
    flag. *)
Record Subgraph (P : Type) := mkSubgraph {
  state_ : State; consistent_ : bool; tensors_ : list TfLiteTensor;
  nodes_and_registration_ : list (TfLiteNode * TfLiteRegistration); freed_nodes_ : gset Z;
  execution_plan_ : list Z; inputs_ : list Z; outputs_ : list Z; variables_ : list Z;
  next_execution_plan_index_to_prepare_ : Z; next_original_execution_plan_index_to_prepare_ : Z;
  next_execution_plan_index_to_plan_allocation_ : Z; has_dynamic_tensors_ : bool;
  dynamic_tensor_index_ : Z; tensor_resized_since_op_invoke_ : bool; memory_planner_ : option P;
  custom_allocations_ : gmap Z TfLiteCustomAllocation; pre_delegation_execution_plan_ : list Z;
  delegates_applied_ : list Z; delegates_undone_ : bool; tensor_to_last_op_index_ : gmap Z Z;
  tensor_buffer_identifiers_ : gmap Z Z; tensor_external_buffer_ids_ : gmap Z Z;
  registration_externals_ : gmap operator_id Z; control_edges_ : option (list (Z * Z));
  options_ : option InterpreterOptions; check_cancelled_func_ : option Z; cancellation_data_ : Z;
  continue_invocation_ : option bool; is_delegation_skippable_ : bool;
  delegate_context_switch_count_ : Z }.
Arguments mkSubgraph {P}.
Arguments state_ {P}.
Arguments consistent_ {P}.
Arguments tensors_ {P}.
Arguments nodes_and_registration_ {P}.
Arguments freed_nodes_ {P}.
Arguments execution_plan_ {P}.
Arguments inputs_ {P}.
Arguments outputs_ {P}.
Arguments variables_ {P}.
Arguments next_execution_plan_index_to_prepare_ {P}.
Arguments next_original_execution_plan_index_to_prepare_ {P}.
Arguments next_execution_plan_index_to_plan_allocation_ {P}.
Arguments has_dynamic_tensors_ {P}.
Arguments dynamic_tensor_index_ {P}.
Arguments tensor_resized_since_op_invoke_ {P}.
Arguments memory_planner_ {P}.
Arguments custom_allocations_ {P}.
Arguments pre_delegation_execution_plan_ {P}.
Arguments delegates_applied_ {P}.
Arguments delegates_undone_ {P}.
Arguments tensor_to_last_op_index_ {P}.
Arguments tensor_buffer_identifiers_ {P}.
Arguments tensor_external_buffer_ids_ {P}.
Arguments registration_externals_ {P}.
Arguments control_edges_ {P}.
Arguments options_ {P}.
Arguments check_cancelled_func_ {P}.
Arguments cancellation_data_ {P}.
Arguments continue_invocation_ {P}.
Arguments is_delegation_skippable_ {P}.
Arguments delegate_context_switch_count_ {P}.

(** The record rebuilt from its fields, and the update of one of them. *)
Definition eta_Subgraph {P} (g : Subgraph P) : Subgraph P := mkSubgraph (state_ g) (consistent_ g)
  (tensors_ g) (nodes_and_registration_ g) (freed_nodes_ g) (execution_plan_ g) (inputs_ g)
  (outputs_ g) (variables_ g) (next_execution_plan_index_to_prepare_ g)
  (next_original_execution_plan_index_to_prepare_ g) (next_execution_plan_index_to_plan_allocation_
  g) (has_dynamic_tensors_ g) (dynamic_tensor_index_ g) (tensor_resized_since_op_invoke_ g)
  (memory_planner_ g) (custom_allocations_ g) (pre_delegation_execution_plan_ g) (delegates_applied_
  g) (delegates_undone_ g) (tensor_to_last_op_index_ g) (tensor_buffer_identifiers_ g)
  (tensor_external_buffer_ids_ g) (registration_externals_ g) (control_edges_ g) (options_ g)
  (check_cancelled_func_ g) (cancellation_data_ g) (continue_invocation_ g)
  (is_delegation_skippable_ g) (delegate_context_switch_count_ g).

Ltac setter field :=
  let v := fresh "v" in let g := fresh "g" in
  intros v g;
  let e := eval cbv [eta_Subgraph] in (eta_Subgraph g) in
  match eval pattern (field g) in e with
  | ?F _ => let r := eval cbv beta in (F v) in exact r
  end.

Section Setters.
Context {P : Type}.
Definition set_state_ : State -> Subgraph P -> Subgraph P := ltac:(setter (@state_ P)).
Definition set_consistent_ : bool -> Subgraph P -> Subgraph P := ltac:(setter (@consistent_ P)).
Definition set_tensors_ : list TfLiteTensor -> Subgraph P -> Subgraph P := ltac:(setter (@tensors_ P)).
Definition set_nodes_and_registration_ : list (TfLiteNode * TfLiteRegistration) -> Subgraph P -> Subgraph P := ltac:(setter (@nodes_and_registration_ P)).
Definition set_freed_nodes_ : gset Z -> Subgraph P -> Subgraph P := ltac:(setter (@freed_nodes_ P)).
Definition set_execution_plan_ : list Z -> Subgraph P -> Subgraph P := ltac:(setter (@execution_plan_ P)).
Definition set_inputs_ : list Z -> Subgraph P -> Subgraph P := ltac:(setter (@inputs_ P)).
Definition set_outputs_ : list Z -> Subgraph P -> Subgraph P := ltac:(setter (@outputs_ P)).
Definition set_variables_ : list Z -> Subgraph P -> Subgraph P := ltac:(setter (@variables_ P)).
Definition set_next_execution_plan_index_to_prepare_ : Z -> Subgraph P -> Subgraph P := ltac:(setter (@next_execution_plan_index_to_prepare_ P)).
Definition set_next_original_execution_plan_index_to_prepare_ : Z -> Subgraph P -> Subgraph P := ltac:(setter (@next_original_execution_plan_index_to_prepare_ P)).
Definition set_next_execution_plan_index_to_plan_allocation_ : Z -> Subgraph P -> Subgraph P := ltac:(setter (@next_execution_plan_index_to_plan_allocation_ P)).
Definition set_has_dynamic_tensors_ : bool -> Subgraph P -> Subgraph P := ltac:(setter (@has_dynamic_tensors_ P)).
Definition set_dynamic_tensor_index_ : Z -> Subgraph P -> Subgraph P := ltac:(setter (@dynamic_tensor_index_ P)).
Definition set_tensor_resized_since_op_invoke_ : bool -> Subgraph P -> Subgraph P := ltac:(setter (@tensor_resized_since_op_invoke_ P)).
Definition set_memory_planner_ : option P -> Subgraph P -> Subgraph P := ltac:(setter (@memory_planner_ P)).
Definition set_custom_allocations_ : gmap Z TfLiteCustomAllocation -> Subgraph P -> Subgraph P := ltac:(setter (@custom_allocations_ P)).
Definition set_pre_delegation_execution_plan_ : list Z -> Subgraph P -> Subgraph P := ltac:(setter (@pre_delegation_execution_plan_ P)).
Definition set_delegates_applied_ : list Z -> Subgraph P -> Subgraph P := ltac:(setter (@delegates_applied_ P)).
Definition set_delegates_undone_ : bool -> Subgraph P -> Subgraph P := ltac:(setter (@delegates_undone_ P)).
Definition set_tensor_to_last_op_index_ : gmap Z Z -> Subgraph P -> Subgraph P := ltac:(setter (@tensor_to_last_op_index_ P)).
Definition set_tensor_buffer_identifiers_ : gmap Z Z -> Subgraph P -> Subgraph P := ltac:(setter (@tensor_buffer_identifiers_ P)).
Definition set_tensor_external_buffer_ids_ : gmap Z Z -> Subgraph P -> Subgraph P := ltac:(setter (@tensor_external_buffer_ids_ P)).
Definition set_registration_externals_ : gmap operator_id Z -> Subgraph P -> Subgraph P := ltac:(setter (@registration_externals_ P)).
Definition set_control_edges_ : option (list (Z * Z)) -> Subgraph P -> Subgraph P := ltac:(setter (@control_edges_ P)).
Definition set_options_ : option InterpreterOptions -> Subgraph P -> Subgraph P := ltac:(setter (@options_ P)).
Definition set_check_cancelled_func_ : option Z -> Subgraph P -> Subgraph P := ltac:(setter (@check_cancelled_func_ P)).
Definition set_cancellation_data_ : Z -> Subgraph P -> Subgraph P := ltac:(setter (@cancellation_data_ P)).
Definition set_continue_invocation_ : option bool -> Subgraph P -> Subgraph P := ltac:(setter (@continue_invocation_ P)).
Definition set_is_delegation_skippable_ : bool -> Subgraph P -> Subgraph P := ltac:(setter (@is_delegation_skippable_ P)).
Definition set_delegate_context_switch_count_ : Z -> Subgraph P -> Subgraph P := ltac:(setter (@delegate_context_switch_count_ P)).
End Setters.

(** [TfLiteNode()] and [TfLiteRegistration()]: every field is zero. *)
Definition node_zero : TfLiteNode := mkNode [] [] [] [] 0 0 0 0 0 false.

Definition set_node_inputs (v : list Z) (n : TfLiteNode) : TfLiteNode :=
  mkNode v (node_outputs n) (node_intermediates n) (node_temporaries n) (user_data n)
    (builtin_data n) (custom_initial_data n) (custom_initial_data_size n) (node_delegate n) (might_have_side_effect n).
Definition set_node_data (ud bd : Z) (n : TfLiteNode) : TfLiteNode :=
  mkNode (node_inputs n) (node_outputs n) (node_intermediates n) (node_temporaries n) ud bd
    (custom_initial_data n) (custom_initial_data_size n) (node_delegate n) (might_have_side_effect n).
Definition set_node_delegate (d : Z) (n : TfLiteNode) : TfLiteNode :=
  mkNode (node_inputs n) (node_outputs n) (node_intermediates n) (node_temporaries n) (user_data n)
    (builtin_data n) (custom_initial_data n) (custom_initial_data_size n) d (might_have_side_effect n).

(** The subgraph with the heap and the rest of the world: the data of kernels and delegates. *)
Record sgstate (P W : Type) := SG { sg_heap : heap; sg_graph : Subgraph P; sg_world : W }.
Arguments SG {P W}.
Arguments sg_heap {P W}.
Arguments sg_graph {P W}.
Arguments sg_world {P W}.

(** [subgraphs_]: the other subgraphs of the model are part of the world, and the loop that
    resets their [is_delegation_skippable_]. *)
Class Siblings (W : Type) := reset_skippable : W -> W.

(** The constructor. *)
Definition Subgraph_init {P} : Subgraph P :=
  mkSubgraph kStateUninvokable true [] [] ∅ [] [] [] [] 0 0 0 true (-1) false None ∅ [] [] false
    ∅ ∅ ∅ ∅ None None None 0 None false 0.

Definition kDefaultTensorAlignment : Z := 64.
Definition kTfLiteCustomAllocationFlagsSkipAlignCheck : Z := 1.
Definition kTfLiteNoBufferIdentifier : Z := SIZE_MAX.
Definition TfLiteKernelInitFailed : Z := SIZE_MAX.

(** The operators named in the code ([builtin_ops.h]). *)
Definition kTfLiteBuiltinDequantize : Z := 6.
Definition kTfLiteBuiltinReshape : Z := 22.
Definition kTfLiteBuiltinDelegate : Z := 51.
Definition kTfLiteBuiltinIf : Z := 118.
Definition kTfLiteBuiltinWhile : Z := 119.
Definition kTfLiteBuiltinCallOnce : Z := 129.

(** ** Access *)

Section Access.
Context {P W : Type}.
Abbreviation S := (sgstate P W).

Definition this : M S (Subgraph P) := fun s => (Done (sg_graph s), s).
Definition upd (f : Subgraph P -> Subgraph P) : M S unit :=
  modify (fun s => SG (sg_heap s) (f (sg_graph s)) (sg_world s)).
Definition on_heap {A} (c : M heap A) : M S A :=
  zoom sg_heap (fun h s => SG h (sg_graph s) (sg_world s)) c.

(** [tensors_[i]]: out of range it is undefined; [tensor(i)] is null there. *)
Definition tensor_ref (i : Z) : M S TfLiteTensor :=
  let* g := this in access ((tensors_ g).[i]).
Definition tensor (i : Z) : M S (option TfLiteTensor) :=
  let* g := this in ret ((tensors_ g).[i]).

(** An operation on tensor [i], in place. *)
Definition on_tensor {A} (i : Z) (c : M tstate A) : M S A := fun s =>
  match (tensors_ (sg_graph s)).[i] with
  | None => (Undef, s)
  | Some t =>
    let '(r, (h, t')) := c (sg_heap s, t) in
    (r, SG h (set_tensors_ (zset (tensors_ (sg_graph s)) i t') (sg_graph s)) (sg_world s))
  end.

Definition set_tensor (i : Z) (f : TfLiteTensor -> TfLiteTensor) : M S unit :=
  on_tensor i (upd_tensor f).

(** [nodes_and_registration_[i]]; reading the integer arrays of a node whose arrays have been
    freed is undefined. *)
Definition node_ref (i : Z) : M S (TfLiteNode * TfLiteRegistration) :=
  let* g := this in access ((nodes_and_registration_ g).[i]).
Definition node_arrays (i : Z) : M S TfLiteNode :=
  let* g := this in
  let* nr := node_ref i in
  if bool_decide (i ∈ freed_nodes_ g) then undef else ret (fst nr).
Definition set_node (i : Z) (f : TfLiteNode -> TfLiteNode) : M S unit :=
  let* g := this in
  let* nr := node_ref i in
  let* l := access (zinsert (nodes_and_registration_ g) i (f (fst nr), snd nr)) in
  upd (set_nodes_and_registration_ l).

(** A loop over the tensors of a list that are not omitted. *)
Definition for_tensors (l : list Z) (body : Z -> M S unit) : M S unit :=
  for_each l (fun i => if i =? kTfLiteOptionalTensor then ret tt else body i).

(** [options_ && options_->...]. *)
Definition option_set (f : InterpreterOptions -> bool) : M S bool :=
  let* g := this in ret (match options_ g with Some o => f o | None => false end).
Definition ShouldPreserveAllTensors : M S bool := option_set preserve_all_tensors_.
Definition ShouldReleaseDynamicTensors : M S bool := option_set ensure_dynamic_tensors_are_released_.
Definition ShouldOptimizeMemoryForLargeTensors : M S bool :=
  option_set (fun o => 0 <? optimize_memory_for_large_tensors_ o).
Definition DisableDelegateClustering : M S bool := option_set disable_delegate_clustering_.
End Access.

(** ** Checks *)

Section Checks.
Context {P W : Type}.
Abbreviation S := (sgstate P W).

Definition CheckTensorIndices (indices : list Z) : M S unit :=
  for_tensors indices (fun index =>
    let* g := this in
    if (index <? 0) || (zlength (tensors_ g) <=? index)
    then upd (set_consistent_ false) ;;; fail kTfLiteError
    else ret tt).

Definition CheckInputAndOutputForOverlap (input_indices output_indices : list Z) : M S unit :=
  for_each input_indices (fun i =>
    for_each output_indices (fun o =>
      if i =? o then upd (set_consistent_ false) ;;; fail kTfLiteError else ret tt)).

Definition SetInputs (inputs : list Z) : M S unit :=
  CheckTensorIndices inputs ;;; upd (set_inputs_ inputs).
Definition SetOutputs (outputs : list Z) : M S unit :=
  CheckTensorIndices outputs ;;; upd (set_outputs_ outputs).
Definition SetVariables (variables : list Z) : M S unit :=
  CheckTensorIndices variables ;;; upd (set_variables_ variables).

Definition incr_count (counts : list Z) (i : Z) : option (list Z) :=
  match counts.[i] with Some c => zinsert counts i (c + 1) | None => None end.

(** The outputs are counted without a test for [kTfLiteOptionalTensor]. *)
Definition GetInputTensorsCount : M S (list Z) :=
  let* g := this in
  let* counts := for_fold (execution_plan_ g) (replicate (length (tensors_ g)) 0) (fun counts n =>
    let* node := node_arrays n in
    for_fold (node_inputs node) counts (fun counts i =>
      if i =? kTfLiteOptionalTensor then ret counts else access (incr_count counts i))) in
  for_fold (outputs_ g) counts (fun counts i => access (incr_count counts i)).

Definition RemoveUnusedInputs : M S unit :=
  let* counts := GetInputTensorsCount in
  let* g := this in
  for_each (enumerate (inputs_ g)) (fun ki =>
    let '(k, i) := ki in
    if i =? kTfLiteOptionalTensor then ret tt
    else
      let* c := access (counts.[i]) in
      if c =? 0 then
        set_tensor i (set_bytes 0) ;;;
        let* g := this in
        let* l := access (zinsert (inputs_ g) k kTfLiteOptionalTensor) in
        upd (set_inputs_ l)
      else ret tt).

Definition SetExecutionPlan (new_plan : list Z) : M S unit :=
  for_each new_plan (fun n =>
    let* g := this in ensure ((0 <=? n) && (n <? zlength (nodes_and_registration_ g)))) ;;;
  upd (set_execution_plan_ new_plan).

(** The index of the first new tensor. *)
Definition AddTensors (tensors_to_add : Z) : M S Z :=
  let* g := this in
  let base_index := zlength (tensors_ g) in
  if tensors_to_add <? 0 then fail kTfLiteError
  else
    upd (set_tensors_ (tensors_ g ++ replicate (Z.to_nat tensors_to_add)
      (set_delegate_buffer 0 kTfLiteNullBufferHandle false tensor_zero))) ;;;
    ret base_index.
End Checks.

(** ** The memory planner *)

Section Planner.
Context {P W : Type} {MP : MemoryPlanner P}.
Abbreviation S := (sgstate P W).

(** [class InterpreterInfo]: the graph the planner and the partitioner see, which is the
    subgraph in the order of the execution plan. *)
Definition InterpreterInfo (g : Subgraph P) : option GraphInfo :=
  match mapM (fun n => (nodes_and_registration_ g).[n]) (execution_plan_ g) with
  | None => None
  | Some nodes =>
    Some (mkGraphInfo (tensors_ g) nodes (execution_plan_ g) (zlength (nodes_and_registration_ g))
      (inputs_ g) (outputs_ g) (variables_ g))
  end.

(** A call of the planner: it updates the tensors in place. *)
Definition on_planner {A} (c : M (mp_state P) A) : M S A := fun s =>
  match memory_planner_ (sg_graph s), InterpreterInfo (sg_graph s) with
  | Some p, Some info =>
    let '(r, t) := c (MPState (sg_heap s) info p) in
    (r, SG (mp_heap t) (set_memory_planner_ (Some (mp_planner t))
          (set_tensors_ (gi_tensors (mp_graph t)) (sg_graph s))) (sg_world s))
  | _, _ => (Undef, s)
  end.

(** [if (memory_planner_) ...]. *)
Definition if_planner (c : M S unit) : M S unit :=
  let* g := this in match memory_planner_ g with Some _ => c | None => ret tt end.

Definition ReleaseNonPersistentMemory : M S unit :=
  upd (set_state_ kStateUninvokable) ;;;
  if_planner (on_planner MemoryPlanner.ReleaseNonPersistentMemory).

(** Dynamic inputs or outputs give up their memory. *)
Definition free_dynamic (l : list Z) : M S unit :=
  for_tensors l (fun i =>
    let* o := tensor i in
    match o with
    | Some t =>
      if bool_decide (t_allocation_type t = kTfLiteDynamic) && negb (t_data t =? 0)
      then on_tensor i TfLiteTensorDataFree else ret tt
    | None => ret tt
    end).

Definition ReleaseMemory : M S unit :=
  upd (set_state_ kStateUninvokable) ;;;
  status_call ReleaseNonPersistentMemory ;;;
  let* g := this in
  free_dynamic (inputs_ g) ;;;
  free_dynamic (outputs_ g).
End Planner.

(** ** Nodes *)

Section Nodes.
Context {P W : Type}.
Abbreviation S := (sgstate P W).
Context {CB : Callbacks S}.

(** The function of a registration: the one of the node its operator wraps, the operator's own,
    with or without its data, or the registration's.  [run] calls a function and [absent] is
    what happens where none is set; [wrapped_absent] is that of a wrapped registration. *)
Definition op_dispatch {A} (reg : TfLiteRegistration)
    (with_data plain : OperatorCallbacks -> option Z) (own : TfLiteRegistration -> option Z)
    (run : Z -> option Z -> M S A) (wrapped_absent absent : M S A) : M S A :=
  let own_function :=
    match own reg with Some f => run f None | None => absent end in
  if registration_external reg =? 0 then own_function
  else
    let* op := access (operator_at (registration_external reg)) in
    if negb (oc_node_index op =? -1) then
      let* nr := node_ref (oc_node_index op) in
      match own (snd nr) with Some f => run f None | None => wrapped_absent end
    else
      match with_data op, plain op with
      | Some f, _ => run f (Some (oc_user_data op))
      | None, Some f => run f None
      | None, None => own_function
      end.

Definition OpInit (reg : TfLiteRegistration) (buffer length : Z) : M S Z :=
  op_dispatch reg oc_init_with_data oc_init reg_init
    (fun f data => call_init f data buffer length) (ret 0) (ret 0).

Definition unresolved (reg : TfLiteRegistration) : bool :=
  IsUnresolvedCustomOp UnresolvedOpInvoke OpResolver.BuiltinOperator_CUSTOM reg.

Definition OpPrepare (reg : TfLiteRegistration) (node : Z) : M S unit :=
  let absent := if unresolved reg then fail kTfLiteUnresolvedOps else ret tt in
  op_dispatch reg oc_prepare_with_data oc_prepare reg_prepare
    (fun f data => call_prepare f data node) absent absent.

Definition OpInvoke (reg : TfLiteRegistration) (node : Z) : M S unit :=
  op_dispatch reg oc_invoke_with_data oc_invoke reg_invoke
    (fun f data => call_invoke f data node) (fail kTfLiteError) (fail kTfLiteError).

(** Nothing is freed when [buffer] is null. *)
Definition OpFree (reg : TfLiteRegistration) (buffer : Z) : M S unit :=
  if buffer =? 0 then ret tt
  else op_dispatch reg oc_free_with_data oc_free reg_free
         (fun f data => call_free f data buffer) (ret tt) (ret tt).

(** Frees the integer arrays and the data of a node; its pointers to the arrays stay. *)
Definition CleanupNode (node_index : Z) : M S unit :=
  let* nr := node_ref node_index in
  node_arrays node_index ;;;
  upd (fun g => set_freed_nodes_ ({[ node_index ]} ∪ freed_nodes_ g) g) ;;;
  (if negb (builtin_data (fst nr) =? 0) then on_heap (free (builtin_data (fst nr))) else ret tt) ;;;
  OpFree (snd nr) (user_data (fst nr)) ;;;
  set_node node_index (set_node_data 0 0).

Definition AnyTensorOfTypeResource (tensors : list TfLiteTensor) (indexes : list Z) : bool :=
  existsb (fun i => match tensors.[i] with
                    | Some t => bool_decide (t_type t = kTfLiteResource)
                    | None => false
                    end) indexes.

Definition OpMightHaveSideEffect (node : TfLiteNode) (reg : TfLiteRegistration) : M S bool :=
  let* g := this in
  ret (AnyTensorOfTypeResource (tensors_ g) (node_inputs node) ||
       AnyTensorOfTypeResource (tensors_ g) (node_outputs node) ||
       (builtin_code reg =? kTfLiteBuiltinIf) || (builtin_code reg =? kTfLiteBuiltinWhile) ||
       (builtin_code reg =? kTfLiteBuiltinCallOnce)).

(** [builtin_data] is held by a [unique_ptr] that frees it on an early return. *)
Definition owning {A} (data : Z) (c : M S A) : M S A := fun s =>
  match c s with
  | (Fail e, s') => ((if negb (data =? 0) then on_heap (free data) else ret tt) ;;; fail e) s'
  | r => r
  end.

(** The node made of the arrays, before its kernel is initialised. *)
Definition push_node (inputs outputs intermediates : list Z) : M S Z :=
  let* g := this in
  upd (set_nodes_and_registration_ (nodes_and_registration_ g ++
    [(mkNode inputs outputs intermediates [] 0 0 0 0 0 false, OpResolver.registration_zero)])) ;;;
  ret (zlength (nodes_and_registration_ g)).

(** The rest of the node's fields, and its place at the end of the plan. *)
Definition finish_node (node_index ud init_data init_data_size builtin_data : Z) (reg : TfLiteRegistration)
    : M S unit :=
  let* node := node_arrays node_index in
  let custom := if builtin_code reg =? OpResolver.BuiltinOperator_CUSTOM then init_data else 0 in
  let custom_size := if builtin_code reg =? OpResolver.BuiltinOperator_CUSTOM then init_data_size else 0 in
  let* effect := OpMightHaveSideEffect node reg in
  let node := mkNode (node_inputs node) (node_outputs node) (node_intermediates node)
                (node_temporaries node) ud builtin_data custom custom_size 0 effect in
  let* g := this in
  let* l := access (zinsert (nodes_and_registration_ g) node_index (node, reg)) in
  upd (set_nodes_and_registration_ l) ;;;
  upd (fun g => set_execution_plan_ (execution_plan_ g ++ [node_index]) g).

(** The index of the new node. *)
Definition AddNodeWithParameters (inputs outputs intermediates : list Z)
    (init_data init_data_size builtin_data : Z) (reg : TfLiteRegistration) : M S Z :=
  owning builtin_data (
    let* g := this in
    if bool_decide (state_ g = kStateInvokableAndImmutable) then fail kTfLiteError
    else
      upd (set_state_ kStateUninvokable) ;;;
      CheckTensorIndices inputs ;;;
      CheckTensorIndices outputs ;;;
      (if negb (builtin_data =? 0) then CheckInputAndOutputForOverlap inputs outputs else ret tt) ;;;
      let* node_index := push_node inputs outputs intermediates in
      let* ud := (if negb (init_data =? 0) then OpInit reg init_data init_data_size
                  else OpInit reg builtin_data 0) in
      if ud =? TfLiteKernelInitFailed then
        upd (fun g => set_freed_nodes_ ({[ node_index ]} ∪ freed_nodes_ g) g) ;;;
        fail kTfLiteError
      else
        finish_node node_index ud init_data init_data_size builtin_data reg ;;;
        ret node_index).

(** [GetNodeAndRegistration]: the pair, by its index. *)
Definition GetNodeAndRegistration (node_index : Z) : M S (TfLiteNode * TfLiteRegistration) :=
  let* g := this in
  ensure (0 <=? node_index) ;;;
  ensure (node_index <? zlength (nodes_and_registration_ g)) ;;;
  node_ref node_index.
End Nodes.

(** ** Tensors *)

Section Tensors.
Context {P W : Type} {MM : Malloc}.
Abbreviation S := (sgstate P W).

Definition resizable (a : TfLiteAllocationType) : bool :=
  bool_decide (a = kTfLiteArenaRw) || bool_decide (a = kTfLiteDynamic) ||
  bool_decide (a = kTfLiteArenaRwPersistent) || bool_decide (a = kTfLitePersistentRo) ||
  bool_decide (a = kTfLiteCustom) || bool_decide (a = kTfLiteNonCpu).

(** The types whose size does not follow from the shape. *)
Definition unsized (type : TfLiteType) : bool :=
  bool_decide (type = kTfLiteString) || bool_decide (type = kTfLiteResource) ||
  bool_decide (type = kTfLiteVariant).

(** The status of [TfLiteTensorResizeMaybeCopy] is not looked at. *)
Definition ResizeTensorImpl (i : Z) (new_size : list Z) : M S unit :=
  let* t := tensor_ref i in
  if negb (resizable (t_allocation_type t)) then fail kTfLiteError
  else
    upd (fun g => set_tensor_resized_since_op_invoke_
      (tensor_resized_since_op_invoke_ g || negb (TfLiteIntArrayEqual (t_dims t) (Some new_size))) g) ;;;
    (if negb (unsized (t_type t)) then
       let* bytes_required := lift (BytesRequired (t_type t) new_size) in
       status_call (on_tensor i (TfLiteTensorResizeMaybeCopy bytes_required false)) ;;;
       set_tensor i (set_bytes bytes_required)
     else ret tt) ;;;
    set_tensor i (set_dims (Some new_size)) ;;;
    let* t := tensor_ref i in
    if bool_decide (t_allocation_type t = kTfLiteArenaRw) ||
       bool_decide (t_allocation_type t = kTfLiteArenaRwPersistent)
    then set_tensor i (set_data 0) else ret tt.

(** What [BytesRequired] leaves in [*bytes], also where it fails. *)
Definition bytes_written (type : TfLiteType) (dims : list Z) (bytes : Z) : Z :=
  match count_elements 1 dims, GetSizeOfType type with
  | Some count, Some type_size =>
    match MultiplyAndCheckOverflow type_size count with
    | (kTfLiteOk, product) => packed_bytes type product
    | (_, product) => product
    end
  | _, _ => bytes
  end.

Definition can_reuse_allocation (t : TfLiteTensor) (new_size : list Z) : bool :=
  if t_data t =? 0 then false
  else if negb (EqualArrayAndTfLiteIntArray (t_dims t) new_size) then false
  else if unsized (t_type t) then true
  else bytes_written (t_type t) (default [] (t_dims t)) 0 =? t_bytes t.

(** [context->ResizeTensor], which kernels and delegates call. *)
Definition ResizeTensor (i : Z) (new_size : list Z) : M S unit :=
  let* t := tensor_ref i in
  if can_reuse_allocation t new_size then set_tensor i (set_dims (Some new_size))
  else ResizeTensorImpl i new_size.

Definition GetLegacyQuantization (q : TfLiteQuantization) : TfLiteQuantizationParams :=
  match q with
  | kTfLiteAffineQuantization (Some [scale]) (Some zero_point) _ =>
    mkQuantParams scale (default 0 (head zero_point))
  | _ => mkQuantParams 0 0
  end.

(** A buffer of another file, whose data is loaded later. *)
Definition has_external_buffer (external_buffer_id : Z) : bool :=
  negb (external_buffer_id =? 0) && negb (external_buffer_id =? kTfLiteNoBufferIdentifier).

Definition record_external_buffer (i external_buffer_id : Z) : M S unit :=
  if has_external_buffer external_buffer_id
  then upd (fun g => set_tensor_external_buffer_ids_
         (<[i := external_buffer_id]> (tensor_external_buffer_ids_ g)) g)
  else ret tt.

Definition check_tensor_index (i : Z) : M S unit :=
  let* g := this in ensure ((i <? zlength (tensors_ g)) && (0 <=? i)).

(** The fast path: the tensor keeps its type and shape, and its [bytes]. *)
Definition replace_read_only (buffer allocation : Z) (quantization : TfLiteQuantization)
    (sparsity : option TfLiteSparsity) (t : TfLiteTensor) : TfLiteTensor :=
  mkTensor (t_type t) buffer (t_dims t) (GetLegacyQuantization quantization) kTfLiteMmapRo
    (t_bytes t) allocation (t_name t) (t_delegate t) (t_buffer_handle t) (t_data_is_stale t)
    (t_is_variable t) quantization sparsity (t_dims_signature t).

Definition SetTensorParametersReadOnly (i : Z) (type : TfLiteType) (name : option string)
    (dims : list Z) (quantization : TfLiteQuantization) (buffer bytes allocation : Z)
    (sparsity : option TfLiteSparsity) (buffer_identifier external_buffer_id : Z) : M S unit :=
  let* g := this in
  if bool_decide (state_ g = kStateInvokableAndImmutable) then fail kTfLiteError
  else
    check_tensor_index i ;;;
    (if negb (unsized type) && negb (match sparsity with Some _ => true | None => false end) &&
        negb (has_external_buffer external_buffer_id) then
       let* required_bytes := lift (BytesRequired type dims) in
       ensure (required_bytes <=? bytes)
     else ret tt) ;;;
    let* t := tensor_ref i in
    (if bool_decide (type = t_type t) && EqualArrayAndTfLiteIntArray (t_dims t) dims then
       on_tensor i TfLiteTensorDataFree ;;;
       set_tensor i (replace_read_only buffer allocation quantization sparsity)
     else
       upd (set_state_ kStateUninvokable) ;;;
       on_tensor i (TfLiteTensorReset type name (Some dims) (GetLegacyQuantization quantization)
         buffer bytes kTfLiteMmapRo allocation false) ;;;
       set_tensor i (fun t => set_metadata quantization sparsity (t_dims_signature t) t)) ;;;
    (if negb (buffer_identifier =? kTfLiteNoBufferIdentifier)
     then upd (fun g => set_tensor_buffer_identifiers_
            (<[i := buffer_identifier]> (tensor_buffer_identifiers_ g)) g)
     else ret tt) ;;;
    record_external_buffer i external_buffer_id.

Definition SetTensorParametersReadWrite (i : Z) (type : TfLiteType) (name : option string)
    (dims : list Z) (quantization : TfLiteQuantization) (is_variable : bool)
    (dims_signature : list Z) (external_buffer_id : Z) : M S unit :=
  let* g := this in
  if bool_decide (state_ g = kStateInvokableAndImmutable) then fail kTfLiteError
  else
    check_tensor_index i ;;;
    let* required_bytes := (if negb (unsized type) then lift (BytesRequired type dims) else ret 0) in
    let* allocation_type :=
      (if unsized type then
         if is_variable then fail kTfLiteError else ret kTfLiteDynamic
       else ret (if is_variable then kTfLiteArenaRwPersistent else kTfLiteArenaRw)) in
    on_tensor i (TfLiteTensorReset type name (Some dims) (GetLegacyQuantization quantization)
      0 required_bytes allocation_type 0 is_variable) ;;;
    set_tensor i (fun t => set_metadata quantization (t_sparsity t) (Some dims_signature) t) ;;;
    record_external_buffer i external_buffer_id.

(** The threshold is converted from [int] to [size_t], the inputs likewise. *)
Definition OptimizeMemoryForLargeTensors (threshold : Z) : M S unit :=
  let* g := this in
  for_each (zrange 0 (zlength (tensors_ g) - 1)) (fun i =>
    let* t := tensor_ref i in
    if (size_wrap threshold <=? t_bytes t) && bool_decide (t_allocation_type t = kTfLiteArenaRw) &&
       negb (existsb (fun x => size_wrap x =? i) (inputs_ g))
    then set_tensor i (fun t => set_data 0 (set_allocation_type kTfLiteDynamic t))
    else ret tt).

Definition SetOptions (options : option InterpreterOptions) : M S unit :=
  upd (set_options_ options) ;;;
  match options with
  | Some o =>
    if 0 <? optimize_memory_for_large_tensors_ o
    then OptimizeMemoryForLargeTensors (optimize_memory_for_large_tensors_ o) else ret tt
  | None => ret tt
  end.

(** The index is not checked. *)
Definition SetCustomAllocationForTensor (i : Z) (allocation : TfLiteCustomAllocation) (flags : Z)
    : M S unit :=
  let* t := tensor_ref i in
  ensure (bool_decide (t_allocation_type t = kTfLiteArenaRw) ||
          bool_decide (t_allocation_type t = kTfLiteArenaRwPersistent) ||
          bool_decide (t_allocation_type t = kTfLiteCustom) ||
          bool_decide (t_allocation_type t = kTfLiteNonCpu)) ;;;
  ensure (negb (ca_data allocation =? 0)) ;;;
  (if Z.land flags kTfLiteCustomAllocationFlagsSkipAlignCheck =? 0
   then ensure (Z.rem (ca_data allocation) kDefaultTensorAlignment =? 0) else ret tt) ;;;
  upd (fun g => set_custom_allocations_ (<[i := allocation]> (custom_allocations_ g)) g) ;;;
  set_tensor i (fun t => set_data (ca_data allocation) (set_allocation_type kTfLiteCustom t)).

(** [tflite::ResetVariableTensor] (core/api/tensor_utils.cc): [memset] writes the low byte of
    the value. *)
Definition ResetVariableTensor : M tstate unit :=
  let* t := the_tensor in
  if negb (t_is_variable t) then ret tt
  else
    let value := if bool_decide (t_type t = kTfLiteInt8) then qp_zero_point (t_params t) else 0 in
    on_theap (store (t_data t) (replicate (Z.to_nat (t_bytes t)) (value mod 256))).

Definition ResetVariableTensors : M S unit :=
  let* g := this in
  for_each (zrange 0 (zlength (tensors_ g) - 1)) (fun i =>
    let* t := tensor_ref i in
    if negb (t_is_variable t) then ret tt
    else if bool_decide (t_allocation_type t = kTfLiteArenaRwPersistent) then
      ensure (negb (t_data t =? 0)) ;;;
      on_tensor i ResetVariableTensor
    else ensure (bool_decide (t_allocation_type t = kTfLiteCustom))).
End Tensors.

(** ** Delegated tensors and cancellation *)

Section Handles.
Context {P W : Type}.
Abbreviation S := (sgstate P W).
Context {CB : Callbacks S}.

Definition EnsureTensorDataIsReadable (i : Z) : M S unit :=
  let* t := tensor_ref i in
  if t_data_is_stale t then
    ensure (negb (t_delegate t =? 0)) ;;;
    ensure (negb (t_buffer_handle t =? kTfLiteNullBufferHandle)) ;;;
    let* status := status_call
      (TfLiteDelegateCopyFromBufferHandleInternal (t_delegate t) (t_buffer_handle t) i) in
    set_tensor i (fun t => set_delegate_buffer (t_delegate t) (t_buffer_handle t) false t) ;;;
    (if bool_decide (status = kTfLiteOk) then ret tt else fail status)
  else ret tt.

(** [SetBufferHandle]: a null [tensor(i)] is refused. *)
Definition SetBufferHandle (i handle delegate : Z) (release_existing : bool) : M S unit :=
  let* o := tensor i in
  match o with
  | None => fail kTfLiteError
  | Some t =>
    ensure ((t_delegate t =? 0) || (t_delegate t =? delegate)) ;;;
    set_tensor i (fun t => set_delegate_buffer delegate (t_buffer_handle t) (t_data_is_stale t) t) ;;;
    (if release_existing && negb (t_buffer_handle t =? kTfLiteNullBufferHandle)
     then TfLiteDelegateFreeBufferHandleInternal delegate i else ret tt) ;;;
    set_tensor i (fun t => set_delegate_buffer (t_delegate t) handle (t_data_is_stale t) t)
  end.

Definition SetCancellationFunction (data : Z) (check_cancelled_func : option Z) : M S unit :=
  upd (set_cancellation_data_ data) ;;; upd (set_check_cancelled_func_ check_cancelled_func).

(** [IsCancelled], and the same test between nodes. *)
Definition IsCancelled : M S bool :=
  let* g := this in
  match check_cancelled_func_ g with
  | Some f => call_check_cancelled f (cancellation_data_ g)
  | None => ret false
  end.

(** The flag is set to true by the interpreter that owns it. *)
Definition EnableCancellation (flag : option bool) : M S unit := upd (set_continue_invocation_ flag).

Definition Cancel : M S unit :=
  let* g := this in
  match continue_invocation_ g with
  | Some _ => upd (set_continue_invocation_ (Some false))
  | None => fail kTfLiteError
  end.

(** [~Subgraph]; the planner goes with the members. *)
Definition Subgraph_delete {MP : MemoryPlanner P} {MM : Malloc} : M S unit :=
  let* g := this in
  for_each (zrange 0 (zlength (nodes_and_registration_ g) - 1)) CleanupNode ;;;
  for_each (zrange 0 (zlength (tensors_ g) - 1)) (fun i =>
    let* t := tensor_ref i in
    (if negb (t_buffer_handle t =? kTfLiteNullBufferHandle)
     then status_call (TfLiteDelegateFreeBufferHandleInternal (t_delegate t) i) ;;; ret tt
     else ret tt) ;;;
    on_tensor i TfLiteTensorFree) ;;;
  if_planner (on_planner MemoryPlanner.delete_planner).
End Handles.

(** ** Undoing delegation, and resizing the inputs *)

Section Resize.
Context {P W : Type} {MM : Malloc}.
Abbreviation S := (sgstate P W).
Context {SB : Siblings W} {CB : Callbacks S}.

Definition reset_siblings : M S unit :=
  modify (fun s => SG (sg_heap s) (sg_graph s) (reset_skippable (sg_world s))).

(** The nodes of the execution plan, in order. *)
Definition for_plan (body : Z -> M S unit) : M S unit :=
  let* g := this in for_each (execution_plan_ g) body.

(** First pass: the float32 tensor each float16 tensor is dequantized to. *)
Definition fp16_map : M S (list Z) :=
  let* g := this in
  for_fold (execution_plan_ g) (zrange 0 (zlength (tensors_ g) - 1)) (fun fp16_to_fp32 n =>
    let* nr := node_ref n in
    if builtin_code (snd nr) =? kTfLiteBuiltinDequantize then
      let* node := node_arrays n in
      match node_inputs node, node_outputs node with
      | [input_idx], [output_idx] =>
        let* t := tensor_ref input_idx in
        if bool_decide (t_type t = kTfLiteFloat16)
        then access (zinsert fp16_to_fp32 input_idx output_idx)
        else ret fp16_to_fp32
      | _, _ => ret fp16_to_fp32
      end
    else ret fp16_to_fp32).

(** Second pass: the inputs of the other nodes return to the float32 tensors. *)
Definition remap_input (fp16_to_fp32 : list Z) (n k i : Z) : M S unit :=
  if i =? kTfLiteOptionalTensor then ret tt
  else
    let* t := tensor_ref i in
    if bool_decide (t_type t = kTfLiteFloat16) then
      let* o := access (fp16_to_fp32.[i]) in
      let* node := node_arrays n in
      let* l := access (zinsert (node_inputs node) k o) in
      set_node n (set_node_inputs l)
    else ret tt.

Definition remap_fp16 (fp16_to_fp32 : list Z) : M S unit :=
  for_plan (fun n =>
    let* nr := node_ref n in
    if builtin_code (snd nr) =? kTfLiteBuiltinDequantize then ret tt
    else
      let* node := node_arrays n in
      for_each (enumerate (node_inputs node)) (fun ki =>
        remap_input fp16_to_fp32 n (fst ki) (snd ki))).

(** [is_delegation_skippable_] is reset in all subgraphs of the model. *)
Definition UndoAllDelegates : M S unit :=
  let* g := this in
  if bool_decide (pre_delegation_execution_plan_ g = []) then ret tt
  else
    for_plan (fun n =>
      let* nr := node_ref n in
      if node_delegate (fst nr) =? 0 then ret tt else CleanupNode n) ;;;
    upd (set_execution_plan_ (pre_delegation_execution_plan_ g)) ;;;
    upd (set_pre_delegation_execution_plan_ []) ;;;
    let* fp16_to_fp32 := fp16_map in
    remap_fp16 fp16_to_fp32 ;;;
    let* g := this in
    let max_retained_node_index := fold_left Z.max (execution_plan_ g) 0 in
    upd (set_nodes_and_registration_ (zresize (nodes_and_registration_ g)
      (max_retained_node_index + 1) (node_zero, OpResolver.registration_zero))) ;;;
    upd (fun g => set_freed_nodes_ (filter (fun n => n <= max_retained_node_index) (freed_nodes_ g)) g) ;;;
    upd (set_is_delegation_skippable_ false) ;;;
    reset_siblings ;;;
    upd (set_state_ kStateUninvokable) ;;;
    upd (set_delegates_undone_ true).

(** A null shape is [None]; otherwise [rank] is the length of the shape. *)
Definition ResizeInputTensor (i : Z) (dims_data : option (list Z)) (rank : Z) : M S unit :=
  if negb (rank =? 0) && bool_decide (dims_data = None) then fail kTfLiteError
  else
    let dims := default [] dims_data in
    let* g := this in
    let graph_is_immutable := bool_decide (state_ g = kStateInvokableAndImmutable) in
    if graph_is_immutable && bool_decide (delegates_applied_ g = []) then fail kTfLiteError
    else
      check_tensor_index i ;;;
      let* t := tensor_ref i in
      if negb (t_data t =? 0) && EqualArrayAndTfLiteIntArray (t_dims t) dims then ret tt
      else
        (if graph_is_immutable then UndoAllDelegates else ret tt) ;;;
        upd (set_state_ kStateUninvokable) ;;;
        ResizeTensorImpl i dims.

Definition ResizeInputTensorStrict (i : Z) (dims : list Z) : M S unit :=
  check_tensor_index i ;;;
  let* t := tensor_ref i in
  let* d := access (t_dims t) in
  ensure (zlength d =? zlength dims) ;;;
  for_each (enumerate dims) (fun kd =>
    let* signature := access (TfLiteTensorGetDimsSignature t) in
    let* dim_signature := access (signature.[fst kd]) in
    if negb (dim_signature =? -1) && negb (dim_signature =? snd kd)
    then fail kTfLiteError else ret tt) ;;;
  ResizeInputTensor i (Some dims) (zlength dims).
End Resize.
