(* ===== verification/SubgraphRun.v ===== *)
(** * Subgraphs: preparing and running (tensorflow/lite/core/subgraph.cc)

    [AllocateTensors] prepares the nodes of the execution plan and places their tensors;
    [InvokeImpl] runs the nodes, preparing again what comes after a node that resized a dynamic
    tensor.  Kernels are the functions of [Callbacks]; the planner is any [MemoryPlanner]. *)
From S2P Require Import Prelude Heap Common Util GraphInfo MemoryPlanner Callbacks Subgraph.
#[local] Open Scope Z_scope.

(** [memory_planner_.reset(new ...)], given [ShouldPreserveAllTensors()]. *)
Class NewPlanner (P : Type) := new_planner : bool -> P.

Section Run.
Context {P W : Type} {MP : MemoryPlanner P} {NP : NewPlanner P} {MM : Malloc}.
Abbreviation S := (sgstate P W).
Context {CB : Callbacks S}.

(** ** Preparing *)

(** The first dynamic tensor of a list, as [HasDynamicTensorImpl] finds it. *)
Fixpoint HasDynamicTensorImpl (l : list Z) : M S (option Z) :=
  match l with
  | [] => ret None
  | i :: l' =>
    if i =? kTfLiteOptionalTensor then HasDynamicTensorImpl l'
    else
      let* t := tensor_ref i in
      if bool_decide (t_allocation_type t = kTfLiteDynamic) then ret (Some i)
      else HasDynamicTensorImpl l'
  end.

(** With [&dynamic_tensor_index_] as the last argument. *)
Definition HasDynamicTensor (l : list Z) : M S bool :=
  let* o := HasDynamicTensorImpl l in
  match o with
  | Some i => upd (set_dynamic_tensor_index_ i) ;;; ret true
  | None => ret false
  end.

Definition VerifyCustomAllocationForTensor (i : Z) : M S unit :=
  let* t := tensor_ref i in
  if negb (bool_decide (t_allocation_type t = kTfLiteCustom)) then ret tt
  else
    let* g := this in
    match custom_allocations_ g !! i with
    | None => fail kTfLiteError
    | Some a => if ca_bytes a <? t_bytes t then fail kTfLiteError else ret tt
    end.

(** The loop of [PrepareOpsStartingAt] over the rest of the plan; the last index prepared. *)
Fixpoint prepare_ops (plan : list (Z * Z)) (last : Z) : M S Z :=
  match plan with
  | [] => ret last
  | (k, n) :: plan' =>
    let* nr := node_ref n in
    let* status := status_call (OpPrepare (snd nr) n) in
    if negb (bool_decide (status = kTfLiteOk)) &&
       negb (bool_decide (status = kTfLiteOutputShapeNotKnown))
    then fail status
    else
      let* node := node_arrays n in
      let* dynamic := HasDynamicTensor (node_outputs node) in
      if dynamic || bool_decide (status = kTfLiteOutputShapeNotKnown)
      then upd (set_has_dynamic_tensors_ true) ;;; ret k
      else prepare_ops plan' k
  end.

(** [*last_execution_plan_index_prepared] is [last] before the call. *)
Definition PrepareOpsStartingAt (first : Z) (execution_plan : list Z) (last : Z) : M S Z :=
  (if first =? 0 then
     let* g := this in
     let* dynamic := HasDynamicTensor (outputs_ g) in
     upd (set_has_dynamic_tensors_ dynamic)
   else ret tt) ;;;
  prepare_ops (drop (Z.to_nat first) (enumerate execution_plan)) last.

(** Whether an applied delegate wants shapes propagated through the original plan. *)
Fixpoint any_delegate (flag : Z) (delegates : list Z) : M S bool :=
  match delegates with
  | [] => ret false
  | d :: delegates' =>
    let* flags := TfLiteDelegateGetFlagsInternal d in
    if has_flag flags flag then ret true else any_delegate flag delegates'
  end.

Definition prepare_original_plan : M S unit :=
  let* g := this in
  let* wanted :=
    (if bool_decide (pre_delegation_execution_plan_ g = []) then ret false
     else any_delegate kTfLiteDelegateFlagsRequirePropagatedShapes (delegates_applied_ g)) in
  if wanted : bool then
    let* last := PrepareOpsStartingAt (next_execution_plan_index_to_prepare_ g)
                   (pre_delegation_execution_plan_ g) 0 in
    upd (set_next_original_execution_plan_index_to_prepare_ (last + 1))
  else ret tt.

(** The planner is made on the first call; the status of its [PlanAllocations] is dropped. *)
Definition make_planner : M S unit :=
  let* g := this in
  match memory_planner_ g with
  | Some _ => ret tt
  | None =>
    let* preserve := ShouldPreserveAllTensors in
    upd (set_memory_planner_ (Some (new_planner preserve))) ;;;
    status_call (on_planner PlanAllocations) ;;; ret tt
  end.

(** [node_idx] runs over plan indices and indexes the nodes. *)
Definition verify_custom_allocations (last : Z) : M S unit :=
  let* g := this in
  if bool_decide (custom_allocations_ g = ∅) then ret tt
  else
    let first := next_execution_plan_index_to_plan_allocation_ g in
    (if bool_decide (nodes_and_registration_ g = []) then ret tt
     else for_each (zrange first last) (fun node_idx =>
       let* node := node_arrays node_idx in
       for_tensors (node_outputs node) VerifyCustomAllocationForTensor)) ;;;
    (if first =? 0 then for_tensors (inputs_ g) VerifyCustomAllocationForTensor else ret tt).

Definition PrepareOpsAndTensors : M S unit :=
  prepare_original_plan ;;;
  let* g := this in
  let* last := PrepareOpsStartingAt (next_execution_plan_index_to_prepare_ g) (execution_plan_ g) 0 in
  upd (set_next_execution_plan_index_to_prepare_ (last + 1)) ;;;
  make_planner ;;;
  let* g := this in
  on_planner (ExecuteAllocations (next_execution_plan_index_to_plan_allocation_ g) last) ;;;
  verify_custom_allocations last ;;;
  upd (set_next_execution_plan_index_to_plan_allocation_ (last + 1)).

(** ** Allocating *)

Definition InitializeTensorReleaseMap : M S unit :=
  for_plan (fun n =>
    let* node := node_arrays n in
    for_each (node_inputs node ++ node_outputs node) (fun i =>
      let* o := tensor i in
      match o with
      | Some _ => upd (fun g => set_tensor_to_last_op_index_ (<[i := n]> (tensor_to_last_op_index_ g)) g)
      | None => ret tt
      end)).

(** The temporaries of the nodes a delegate took over are not needed. *)
Definition free_delegated_temporaries : M S unit :=
  let* g := this in
  let delegated : gset Z :=
    list_to_set (pre_delegation_execution_plan_ g) ∖ list_to_set (execution_plan_ g) in
  for_each (elements delegated) (fun n =>
    let* node := node_arrays n in
    for_each (node_temporaries node) (fun i =>
      on_tensor i TfLiteTensorDataFree ;;; set_tensor i (set_bytes 0))).

(** The plan is unchanged: memory that was released is acquired again. *)
Definition reuse_allocations : M S unit :=
  if_planner (
    let* available := on_planner HasNonPersistentMemory in
    if available : bool then ret tt
    else status_call (on_planner AcquireNonPersistentMemory) ;;; ret tt) ;;;
  let* g := this in
  for_each (map_to_list (custom_allocations_ g)) (fun ia =>
    let* t := tensor_ref (fst ia) in
    ensure (bool_decide (t_allocation_type t = kTfLiteCustom)) ;;;
    VerifyCustomAllocationForTensor (fst ia)).

Definition reallocate : M S unit :=
  upd (set_next_execution_plan_index_to_prepare_ 0) ;;;
  upd (set_next_execution_plan_index_to_plan_allocation_ 0) ;;;
  upd (set_next_original_execution_plan_index_to_prepare_ 0) ;;;
  if_planner (on_planner ResetAllocations) ;;;
  PrepareOpsAndTensors ;;;
  upd (set_state_ kStateInvokable) ;;;
  status_call ResetVariableTensors ;;;
  InitializeTensorReleaseMap ;;;
  free_delegated_temporaries.

(** [AllocateTensors] from the restored delegation on, where no composite is inlined. *)
Definition allocate_tensors : M S unit :=
  let* g := this in
  let* no_reallocations_necessary :=
    (if bool_decide (state_ g = kStateUninvokable) then ret false
     else let* dynamic := HasDynamicTensor (inputs_ g) in ret (negb dynamic)) in
  if no_reallocations_necessary : bool then reuse_allocations else reallocate.

(** ** Running *)

(** An input of node [n], the [k]-th: its data is brought in, and must be there. *)
Definition check_input (n k i : Z) : M S unit :=
  if i =? kTfLiteOptionalTensor then ret tt
  else
    let* nr := node_ref n in
    let* t := tensor_ref i in
    (if negb (t_delegate t =? 0) && negb (t_delegate t =? node_delegate (fst nr)) && t_data_is_stale t
     then EnsureTensorDataIsReadable i else ret tt) ;;;
    let* t := tensor_ref i in
    if (t_data t =? 0) && (0 <? t_bytes t) && negb (bool_decide (t_allocation_type t = kTfLiteNonCpu)) then
      if (builtin_code (snd nr) =? kTfLiteBuiltinReshape) && (k =? 1) then
        let* dims := access (t_dims t) in
        if negb (zlength dims =? 1) then ret tt else fail kTfLiteError
      else fail kTfLiteError
    else ret tt.

Definition MayAllocateOpOutput (n : Z) : M S unit :=
  let* optimize := ShouldOptimizeMemoryForLargeTensors in
  if optimize : bool then
    let* node := node_arrays n in
    for_tensors (node_outputs node) (fun i =>
      let* t := tensor_ref i in
      if (t_data t =? 0) && bool_decide (t_allocation_type t = kTfLiteDynamic)
      then status_call (on_tensor i (TfLiteTensorRealloc (t_bytes t))) ;;; ret tt
      else ret tt)
  else ret tt.

(** The cancellation function, then the flag: it is set, and cancels when it was clear. *)
Definition check_cancellation : M S unit :=
  let* cancelled := IsCancelled in
  if cancelled : bool then fail kTfLiteError
  else
    let* g := this in
    match continue_invocation_ g with
    | None => ret tt
    | Some flag =>
      upd (set_continue_invocation_ (Some true)) ;;;
      (if flag : bool then ret tt else fail kTfLiteCancelled)
    end.

(** What comes after a node that resized a dynamic output is prepared and placed again. *)
Definition force_prepare (k n : Z) : M S unit :=
  let* g := this in
  let* node := node_arrays n in
  let* dynamic :=
    (if tensor_resized_since_op_invoke_ g then HasDynamicTensorImpl (node_outputs node) else ret None) in
  match dynamic with
  | None => ret tt
  | Some _ =>
    upd (set_next_execution_plan_index_to_prepare_ (k + 1)) ;;;
    if k + 1 <? next_execution_plan_index_to_plan_allocation_ g then
      upd (set_next_execution_plan_index_to_plan_allocation_ (k + 1)) ;;;
      if_planner (on_planner (ResetAllocationsAfter k))
    else ret tt
  end.

(** The tensors of a list whose last use is node [n], unless the graph's inputs or outputs. *)
Definition release_dynamic (l : list Z) (n : Z) : M S unit :=
  for_each l (fun i =>
    let* g := this in
    let* o := tensor i in
    match o with
    | None => ret tt
    | Some t =>
      if negb (bool_decide (t_allocation_type t = kTfLiteDynamic)) ||
         bool_decide (t_type t = kTfLiteString) || bool_decide (t_type t = kTfLiteResource) ||
         bool_decide (i ∈ inputs_ g) || bool_decide (i ∈ outputs_ g)
      then ret tt
      else if bool_decide (tensor_to_last_op_index_ g !! i = Some n) && negb (t_data t =? 0)
      then on_tensor i TfLiteTensorDataFree else ret tt
    end).

Definition MaybeReleaseDynamicTensors (n : Z) : M S unit :=
  let* release := ShouldReleaseDynamicTensors in
  if release : bool then
    let* node := node_arrays n in
    release_dynamic (node_inputs node) n ;;; release_dynamic (node_outputs node) n
  else ret tt.

(** Any failure of the kernel but a cancellation is reported as [kTfLiteError]. *)
Definition run_node (n : Z) : M S unit :=
  let* nr := node_ref n in
  upd (set_tensor_resized_since_op_invoke_ false) ;;;
  let* status := status_call (OpInvoke (snd nr) n) in
  match status with
  | kTfLiteOk => ret tt
  | kTfLiteCancelled => fail kTfLiteCancelled
  | _ => fail kTfLiteError
  end.

Definition invoke_node (k : Z) : M S unit :=
  let* g := this in
  (if k =? next_execution_plan_index_to_prepare_ g then
     PrepareOpsAndTensors ;;;
     let* g := this in ensure (k <=? next_execution_plan_index_to_prepare_ g)
   else ret tt) ;;;
  let* g := this in
  let* n := access ((execution_plan_ g).[k]) in
  let* node := node_arrays n in
  for_each (enumerate (node_inputs node)) (fun ki => check_input n (fst ki) (snd ki)) ;;;
  MayAllocateOpOutput n ;;;
  check_cancellation ;;;
  run_node n ;;;
  force_prepare k n ;;;
  MaybeReleaseDynamicTensors n.

(** The plan does not change while it runs, so the loop runs over its indices. *)
Definition InvokeImpl : M S unit :=
  let* g := this in
  if negb (consistent_ g) then fail kTfLiteError
  else if bool_decide (state_ g = kStateUninvokable) then fail kTfLiteError
  else
    let* available :=
      (match memory_planner_ g with
       | Some _ => on_planner HasNonPersistentMemory
       | None => ret true
       end) in
    if negb available then fail kTfLiteError
    else for_each (zrange 0 (zlength (execution_plan_ g) - 1)) invoke_node.

(** Telemetry aside. *)
Definition Invoke : M S unit := InvokeImpl.
End Run.
