(* ===== verification/SubgraphDelegate.v ===== *)
(** * Subgraphs: delegation (tensorflow/lite/core/subgraph.cc)

    A delegate takes nodes of the execution plan over: [ReplaceNodeSubsetsWithDelegateKernels]
    partitions the plan and replaces each of the delegate's subsets by one node that runs it.
    [UndoAllDelegates] (in [Subgraph]) restores the plan, [RedoAllDelegates] applies the
    delegates again, and [ModifyGraphWithDelegate] applies a new one.  Allocating the tensors
    may redo the delegation, and applying a delegate allocates the tensors: the recursion is
    unfolded [redo_fuel] times. *)
From Stdlib Require Import String.
From stdpp Require Import strings.
From S2P Require Import Prelude Heap Common Util GraphInfo MemoryPlanner Callbacks Subgraph SubgraphRun.
From S2P Require OpResolver Partition.
#[local] Open Scope Z_scope.

(** ** The parameters of a delegate node *)

Definition pointer_bytes (p : Z) : list Z := le_bytes 8 p.

(** [CopyVectorToTfLiteIntArray]. *)
Definition int_array_bytes (vec : list Z) : list Z :=
  le_bytes sizeof_int (zlength vec) ++ concat (le_bytes sizeof_int <$> vec).

Definition int_array_size (vec : list Z) : Z := int32_wrap (TfLiteIntArrayGetSizeInBytes (zlength vec)).

(** The block of [CreateDelegateParamsImpl]: the fields before [nodes_to_replace], the three
    pointers, and the arrays they point to. *)
Definition params_size (fields : list Z) (subset : Partition.NodeSubset) : Z :=
  8 * (zlength fields + 3) + int_array_size (Partition.nodes subset) +
  int_array_size (Partition.input_tensors subset) + int_array_size (Partition.output_tensors subset).

Definition params_bytes (allocation : Z) (fields : list Z) (subset : Partition.NodeSubset) : list Z :=
  let nodes_to_replace := allocation + 8 * (zlength fields + 3) in
  let input_tensors := nodes_to_replace + int_array_size (Partition.nodes subset) in
  let output_tensors := input_tensors + int_array_size (Partition.input_tensors subset) in
  concat (pointer_bytes <$> fields ++ [nodes_to_replace; input_tensors; output_tensors]) ++
  int_array_bytes (Partition.nodes subset) ++ int_array_bytes (Partition.input_tensors subset) ++
  int_array_bytes (Partition.output_tensors subset).

(** The block is written without a test that [malloc] returned one. *)
Definition CreateDelegateParamsImpl {MM : Malloc} (fields : list Z) (subset : Partition.NodeSubset)
    : M heap Z :=
  let* allocation := malloc (size_wrap (params_size fields subset)) in
  if allocation =? 0 then undef
  else store allocation (params_bytes allocation fields subset) ;;; ret allocation.

Section Delegation.
Context {P W : Type} {MP : MemoryPlanner P} {NP : NewPlanner P} {MM : Malloc} {SS : StdSort}.
Abbreviation S := (sgstate P W).
Context {SB : Siblings W} {CB : Callbacks S}.

(** [CreateDelegateParams] and [CreateOpaqueDelegateParams]. *)
Definition create_params (delegate : Z) (subset : Partition.NodeSubset) : M S Z :=
  let* opaque := TfLiteDelegateIsOpaque delegate in
  let* fields :=
    (if opaque : bool then
       let* d := access (delegate_at delegate) in
       let* b := access (opaque_delegate_builder d) in
       ret [delegate; ob_data b]
     else ret [delegate]) in
  on_heap (CreateDelegateParamsImpl fields subset).

(** ** Partitioning *)

Definition PartitionGraph (nodes_to_replace : list Z) : M S (list Partition.NodeSubset) :=
  let* g := this in
  let* info := access (InterpreterInfo g) in
  let* disable_node_fusion := ShouldPreserveAllTensors in
  let* disable_clustering := DisableDelegateClustering in
  lift (Partition.PartitionGraphIntoIndependentNodeSubsets info nodes_to_replace
          (negb disable_clustering) (control_edges_ g) disable_node_fusion).

(** The registration of an opaque delegate is kept under its identity: of two with the same
    identity the first stays and the second is deleted. *)
Definition own_registration (reg : TfLiteRegistration) (delegate : Z) : M S TfLiteRegistration :=
  let* opaque := TfLiteDelegateIsOpaque delegate in
  if opaque : bool then
    if registration_external reg =? 0 then fail kTfLiteDelegateError
    else
      let* op := access (operator_at (registration_external reg)) in
      let op_id := (kTfLiteBuiltinDelegate, oc_custom_name op, oc_version op) in
      let* g := this in
      match registration_externals_ g !! op_id with
      | Some external =>
        ret (mkRegistration (reg_init reg) (reg_free reg) (reg_prepare reg) (reg_invoke reg)
               (builtin_code reg) (custom_name reg) (version reg) external (inplace_operator reg))
      | None =>
        upd (set_registration_externals_
          (<[op_id := registration_external reg]> (registration_externals_ g))) ;;;
        ret reg
      end
  else ret reg.

Definition as_delegate (reg : TfLiteRegistration) : TfLiteRegistration :=
  mkRegistration (reg_init reg) (reg_free reg) (reg_prepare reg) (reg_invoke reg)
    kTfLiteBuiltinDelegate (custom_name reg) (version reg) (registration_external reg)
    (inplace_operator reg).

(** The outputs of a delegate's node belong to the delegate. *)
Definition claim_tensor (delegate i : Z) : M S unit :=
  let* t := tensor_ref i in
  ensure ((t_delegate t =? 0) || (t_delegate t =? delegate)) ;;;
  set_tensor i (fun t => set_delegate_buffer delegate (t_buffer_handle t) (t_data_is_stale t) t).

(** A subset of the partition: its nodes return to the plan, or one node replaces them. *)
Definition replace_subset (reg : TfLiteRegistration) (delegate : Z) (subset : Partition.NodeSubset)
    : M S unit :=
  match Partition.type subset with
  | Partition.kTfNonPartition =>
    upd (fun g => set_execution_plan_ (execution_plan_ g ++ Partition.nodes subset) g)
  | Partition.kTfPartition =>
    let* delegate_params := create_params delegate subset in
    let* node_index := AddNodeWithParameters (Partition.input_tensors subset)
      (Partition.output_tensors subset) [] 0 0 delegate_params reg in
    for_each (Partition.output_tensors subset) (claim_tensor delegate) ;;;
    set_node node_index (set_node_delegate delegate)
  | Partition.kTfUnexplored => fail kTfLiteError
  end.

Definition ReplaceNodeSubsetsWithDelegateKernels (registration : TfLiteRegistration)
    (nodes_to_replace : list Z) (delegate : Z) : M S unit :=
  let* reg := own_registration (as_delegate registration) delegate in
  if bool_decide (nodes_to_replace = []) then ret tt
  else
    let* node_subsets := PartitionGraph nodes_to_replace in
    upd (set_execution_plan_ []) ;;;
    for_each node_subsets (replace_subset reg delegate).

(** The subsets a delegate would get. *)
Definition PreviewDelegatePartitioning (nodes_to_replace : list Z) : M S (list Partition.NodeSubset) :=
  if bool_decide (nodes_to_replace = []) then ret []
  else
    let* node_subsets := PartitionGraph nodes_to_replace in
    ret (filter (fun b => Partition.type b = Partition.kTfPartition) node_subsets).

(** ** The context of a delegate *)

Definition SwitchToDelegateContext : M S unit :=
  let* g := this in
  ensure (0 <=? delegate_context_switch_count_ g) ;;;
  upd (set_delegate_context_switch_count_ (delegate_context_switch_count_ g + 1)).

Definition SwitchToKernelContext : M S unit :=
  let* g := this in
  ensure (1 <=? delegate_context_switch_count_ g) ;;;
  upd (set_delegate_context_switch_count_ (delegate_context_switch_count_ g - 1)).

(** The functions of the context that are forbidden outside a delegate's [Prepare]. *)
Definition delegate_only {A} (c : M S A) : M S A :=
  let* g := this in
  if 0 <? delegate_context_switch_count_ g then c else fail kTfLiteError.

(** ** Applying delegates *)

Definition HasDelegates : M S bool :=
  let* g := this in ret (negb (bool_decide (delegates_applied_ g = []))).

Fixpoint all_delegated (plan : list Z) : M S bool :=
  match plan with
  | [] => ret true
  | n :: plan' =>
    let* nr := node_ref n in
    if node_delegate (fst nr) =? 0 then ret false else all_delegated plan'
  end.

Definition IsFullyDelegated : M S bool := let* g := this in all_delegated (execution_plan_ g).

Section Redo.
(** [RedoAllDelegates], which allocating the tensors calls first. *)
Context (RedoAllDelegates : M S unit).

(** With the strategy [kNoAutoInline]; [SubgraphInline.AllocateTensors_all] is the default. *)
Definition AllocateTensors : M S unit :=
  let* g := this in
  if negb (consistent_ g) then fail kTfLiteError
  else RedoAllDelegates ;;; allocate_tensors.

Definition EnsureMemoryAllocations : M S unit :=
  if_planner (upd (set_state_ kStateUninvokable) ;;; on_planner PlanAllocations) ;;;
  AllocateTensors ;;;
  let* g := this in ensure (bool_decide (state_ g = kStateInvokable)).

Definition RemoveAllDelegates : M S unit :=
  UndoAllDelegates ;;;
  upd (set_delegates_applied_ []) ;;;
  upd (set_delegates_undone_ false) ;;;
  EnsureMemoryAllocations.

Definition reset_delegation_if_not_ok (status : TfLiteStatus) : M S unit :=
  if bool_decide (status = kTfLiteOk) then ret tt
  else RemoveAllDelegates ;;; fail kTfLiteDelegateError.

(** Step 1: a delegate for static shapes is refused when the graph has dynamic tensors. *)
Definition prepare_for_delegation (supports_dynamic hint : bool) : M S unit :=
  let* g := this in
  if bool_decide (state_ g = kStateInvokableAndImmutable) then upd (set_state_ kStateUninvokable)
  else if negb supports_dynamic && negb hint then
    let* last := PrepareOpsStartingAt 0 (execution_plan_ g) 0 in
    let* g := this in
    if has_dynamic_tensors_ g then EnsureMemoryAllocations ;;; fail kTfLiteApplicationError
    else ret tt
  else ret tt.

(** Step 3: the state after a delegate, given the state before. *)
Definition finish_delegation (supports_dynamic hint : bool) (pre_delegation_state : State) : M S unit :=
  if negb supports_dynamic then
    (if negb hint then
       upd (set_state_ kStateUninvokable) ;;;
       let* status := status_call EnsureMemoryAllocations in
       reset_delegation_if_not_ok status
     else ret tt) ;;;
    upd (set_state_ kStateInvokableAndImmutable)
  else if bool_decide (pre_delegation_state = kStateInvokableAndImmutable) then
    let* g := this in
    let* status := status_call (PrepareOpsStartingAt 0 (execution_plan_ g) 0) in
    reset_delegation_if_not_ok status ;;;
    let* g := this in
    if has_dynamic_tensors_ g then RemoveAllDelegates ;;; fail kTfLiteApplicationError
    else
      let* status := status_call EnsureMemoryAllocations in
      reset_delegation_if_not_ok status ;;;
      upd (set_state_ kStateInvokableAndImmutable)
  else if bool_decide (pre_delegation_state = kStateInvokable) then
    let* status := status_call EnsureMemoryAllocations in
    reset_delegation_if_not_ok status
  else ret tt.

Definition ModifyGraphWithDelegateImpl (delegate : Z) : M S unit :=
  if delegate =? 0 then fail kTfLiteDelegateError
  else
    RedoAllDelegates ;;;
    let* flags := TfLiteDelegateGetFlagsInternal delegate in
    let supports_dynamic := has_flag flags kTfLiteDelegateFlagsAllowDynamicTensors in
    let hint := has_flag flags kTfLiteDelegateFlagsHintFullyDelegatedToSingleDelegate in
    let* g := this in
    let pre_delegation_state := state_ g in
    prepare_for_delegation supports_dynamic hint ;;;
    let* g := this in
    (if bool_decide (delegates_applied_ g = [])
     then upd (set_pre_delegation_execution_plan_ (execution_plan_ g)) else ret tt) ;;;
    status_call SwitchToDelegateContext ;;;
    let* status := status_call (TfLiteDelegatePrepareInternal delegate) in
    status_call SwitchToKernelContext ;;;
    reset_delegation_if_not_ok status ;;;
    let* full := (if hint then IsFullyDelegated else ret true) in
    if negb full then fail kTfLiteApplicationError
    else
      finish_delegation supports_dynamic hint pre_delegation_state ;;;
      upd (fun g => set_delegates_applied_ (delegates_applied_ g ++ [delegate]) g).
End Redo.

(** Applying a delegate finds the others applied, so two levels are enough. *)
Fixpoint RedoAllDelegates (fuel : nat) : M S unit :=
  let* g := this in
  if negb (delegates_undone_ g) then ret tt
  else
    match fuel with
    | O => undef
    | Datatypes.S fuel' =>
      upd (set_delegates_undone_ false) ;;;
      upd (set_delegates_applied_ []) ;;;
      for_each (delegates_applied_ g) (ModifyGraphWithDelegateImpl (RedoAllDelegates fuel'))
    end.

Definition redo_fuel : nat := 1.

Definition ModifyGraphWithDelegate (delegate : Z) : M S unit :=
  ModifyGraphWithDelegateImpl (RedoAllDelegates redo_fuel) delegate.
Definition RemoveAllDelegates_all : M S unit := RemoveAllDelegates (RedoAllDelegates redo_fuel).
End Delegation.
