(* ===== verification/OptionStructs.v ===== *)
(** * The parameters of builtin operators (compiler/mlir/lite/core/c/builtin_op_data.h)

    What a kernel reads its options from: a struct per operator, allocated by the parser of options
    and laid out as the C++ ABI of the 64-bit targets does, each field at the next multiple of its
    alignment.  [GetBuiltinDataSize] (util.cc) is the size of the struct of an operator. *)
From Stdlib Require Import String.
From stdpp Require Import strings.
From S2P Require Import Prelude Heap.
#[local] Open Scope Z_scope.

(** ** Layout *)

(** The types of the fields; an enumeration is an [int]. *)
Inductive ctype := c_bool | c_char | c_int | c_float | c_int64 | c_pointer | c_array (t : ctype) (n : Z).

Fixpoint sizeof (t : ctype) : Z :=
  match t with
  | c_bool | c_char => 1
  | c_int | c_float => 4
  | c_int64 | c_pointer => 8
  | c_array t n => sizeof t * n
  end.

Fixpoint alignof (t : ctype) : Z :=
  match t with c_array t _ => alignof t | t => sizeof t end.

Definition struct := list (string * ctype).

Definition round_up (n al : Z) : Z := (n + al - 1) / al * al.

(** The offset and type of every field, in order; the first field that fits is at [off] or after. *)
Fixpoint layout (off : Z) (s : struct) : list (string * (Z * ctype)) :=
  match s with
  | [] => []
  | (f, t) :: s' => let o := round_up off (alignof t) in (f, (o, t)) :: layout (o + sizeof t) s'
  end.

Fixpoint struct_end (off : Z) (s : struct) : Z :=
  match s with [] => off | (_, t) :: s' => struct_end (round_up off (alignof t) + sizeof t) s' end.

Definition struct_align (s : struct) : Z := foldr (fun ft => Z.max (alignof (snd ft))) 1 s.

Definition struct_size (s : struct) : Z := round_up (struct_end 0 s) (struct_align s).

Fixpoint assoc {A} (f : string) (l : list (string * A)) : option A :=
  match l with [] => None | (g, x) :: l' => if String.eqb g f then Some x else assoc f l' end.

Definition field (s : struct) (f : string) : option (Z * ctype) := assoc f (layout 0 s).

(** ** The structs *)

Definition TfLiteMirrorPaddingParams : struct := [("mode", c_int)].
Definition TfLiteConvParams : struct := [("padding", c_int); ("stride_width", c_int);
  ("stride_height", c_int); ("activation", c_int); ("dilation_width_factor", c_int);
  ("dilation_height_factor", c_int); ("quantized_bias_type", c_int)].
Definition TfLiteConv3DParams : struct := [("padding", c_int); ("stride_width", c_int);
  ("stride_height", c_int); ("stride_depth", c_int); ("dilation_width_factor", c_int);
  ("dilation_height_factor", c_int); ("dilation_depth_factor", c_int); ("activation", c_int)].
Definition TfLitePoolParams : struct := [("padding", c_int); ("stride_width", c_int);
  ("stride_height", c_int); ("filter_width", c_int); ("filter_height", c_int); ("activation", c_int);
  ("computed_padding_width", c_int); ("computed_padding_height", c_int);
  ("computed_padding_width_offset", c_int); ("computed_padding_height_offset", c_int)].
Definition TfLiteDepthwiseConvParams : struct := [("padding", c_int); ("stride_width", c_int);
  ("stride_height", c_int); ("depth_multiplier", c_int); ("activation", c_int);
  ("dilation_width_factor", c_int); ("dilation_height_factor", c_int)].
Definition TfLiteSVDFParams : struct := [("rank", c_int); ("activation", c_int);
  ("asymmetric_quantize_inputs", c_bool)].
Definition TfLiteRNNParams : struct := [("activation", c_int);
  ("asymmetric_quantize_inputs", c_bool)].
Definition TfLiteSequenceRNNParams : struct := [("time_major", c_bool); ("activation", c_int);
  ("asymmetric_quantize_inputs", c_bool)].
Definition TfLiteBidirectionalSequenceRNNParams : struct := [("time_major", c_bool);
  ("activation", c_int); ("merge_outputs", c_bool); ("asymmetric_quantize_inputs", c_bool)].
Definition TfLiteFullyConnectedParams : struct := [("activation", c_int); ("weights_format", c_int);
  ("keep_num_dims", c_bool); ("asymmetric_quantize_inputs", c_bool); ("quantized_bias_type", c_int)].
Definition TfLiteLSHProjectionParams : struct := [("type", c_int)].
Definition TfLiteSoftmaxParams : struct := [("beta", c_float)].
Definition TfLiteConcatenationParams : struct := [("axis", c_int); ("activation", c_int)].
Definition TfLiteAddParams : struct := [("activation", c_int); ("pot_scale_int16", c_bool)].
Definition TfLiteSpaceToBatchNDParams : struct := [("placeholder", c_char)].
Definition TfLiteBatchToSpaceNDParams : struct := [("placeholder", c_char)].
Definition TfLiteBatchMatMulParams : struct := [("adj_x", c_bool); ("adj_y", c_bool);
  ("asymmetric_quantize_inputs", c_bool)].
Definition TfLiteMulParams : struct := [("activation", c_int)].
Definition TfLiteSubParams : struct := [("activation", c_int); ("pot_scale_int16", c_bool)].
Definition TfLiteDivParams : struct := [("activation", c_int)].
Definition TfLiteL2NormParams : struct := [("activation", c_int)].
Definition TfLiteLocalResponseNormParams : struct := [("radius", c_int); ("bias", c_float);
  ("alpha", c_float); ("beta", c_float)].
Definition TfLiteLSTMParams : struct := [("activation", c_int); ("cell_clip", c_float);
  ("proj_clip", c_float); ("kernel_type", c_int); ("asymmetric_quantize_inputs", c_bool)].
Definition TfLiteUnidirectionalSequenceLSTMParams : struct := [("activation", c_int);
  ("cell_clip", c_float); ("proj_clip", c_float); ("time_major", c_bool);
  ("asymmetric_quantize_inputs", c_bool); ("diagonal_recurrent_tensors", c_bool)].
Definition TfLiteBidirectionalSequenceLSTMParams : struct := [("activation", c_int);
  ("cell_clip", c_float); ("proj_clip", c_float); ("merge_outputs", c_bool); ("time_major", c_bool);
  ("asymmetric_quantize_inputs", c_bool)].
Definition TfLiteResizeBilinearParams : struct := [("align_corners", c_bool);
  ("half_pixel_centers", c_bool)].
Definition TfLiteResizeNearestNeighborParams : struct := [("align_corners", c_bool);
  ("half_pixel_centers", c_bool)].
Definition TfLitePadParams : struct := [("placeholder", c_char)].
Definition TfLitePadV2Params : struct := [("placeholder", c_char)].
Definition TfLiteReshapeParams : struct := [("shape", c_array c_int 8); ("num_dimensions", c_int)].
Definition TfLiteSkipGramParams : struct := [("ngram_size", c_int); ("max_skip_size", c_int);
  ("include_all_ngrams", c_bool)].
Definition TfLiteSpaceToDepthParams : struct := [("block_size", c_int)].
Definition TfLiteDepthToSpaceParams : struct := [("block_size", c_int)].
Definition TfLiteCastParams : struct := [("in_data_type", c_int); ("out_data_type", c_int)].
Definition TfLiteEmbeddingLookupSparseParams : struct := [("combiner", c_int)].
Definition TfLiteGatherParams : struct := [("axis", c_int); ("batch_dims", c_int)].
Definition TfLiteTransposeParams : struct := [("placeholder", c_char)].
Definition TfLiteReducerParams : struct := [("keep_dims", c_bool)].
Definition TfLiteSplitParams : struct := [("num_splits", c_int)].
Definition TfLiteSplitVParams : struct := [("num_splits", c_int)].
Definition TfLiteSqueezeParams : struct := [("squeeze_dims", c_array c_int 8);
  ("num_squeeze_dims", c_int)].
Definition TfLiteStridedSliceParams : struct := [("begin_mask", c_int); ("end_mask", c_int);
  ("ellipsis_mask", c_int); ("new_axis_mask", c_int); ("shrink_axis_mask", c_int);
  ("offset", c_bool)].
Definition TfLiteArgMaxParams : struct := [("output_type", c_int)].
Definition TfLiteArgMinParams : struct := [("output_type", c_int)].
Definition TfLiteTransposeConvParams : struct := [("padding", c_int); ("stride_width", c_int);
  ("stride_height", c_int); ("activation", c_int); ("quantized_bias_type", c_int)].
Definition TfLiteSparseToDenseParams : struct := [("validate_indices", c_bool)].
Definition TfLiteShapeParams : struct := [("out_type", c_int)].
Definition TfLiteRankParams : struct := [("placeholder", c_char)].
Definition TfLiteFakeQuantParams : struct := [("min", c_float); ("max", c_float);
  ("num_bits", c_int); ("narrow_range", c_bool)].
Definition TfLitePackParams : struct := [("values_count", c_int); ("axis", c_int)].
Definition TfLiteOneHotParams : struct := [("axis", c_int)].
Definition TfLiteUnpackParams : struct := [("num", c_int); ("axis", c_int)].
Definition TfLiteLeakyReluParams : struct := [("alpha", c_float)].
Definition TfLiteUniqueParams : struct := [("index_out_type", c_int)].
Definition TfLiteReverseSequenceParams : struct := [("seq_dim", c_int); ("batch_dim", c_int)].
Definition TfLiteMatrixDiagParams : struct := [("placeholder", c_char)].
Definition TfLiteMatrixSetDiagParams : struct := [("placeholder", c_char)].
Definition TfLiteIfParams : struct := [("then_subgraph_index", c_int);
  ("else_subgraph_index", c_int)].
Definition TfLiteWhileParams : struct := [("cond_subgraph_index", c_int);
  ("body_subgraph_index", c_int)].
Definition TfLiteCumsumParams : struct := [("exclusive", c_bool); ("reverse", c_bool)].
Definition TfLiteCallOnceParams : struct := [("init_subgraph_index", c_int)].
Definition TfLiteHashtableParams : struct := [("table_id", c_int); ("key_dtype", c_int);
  ("value_dtype", c_int)].
Definition TfLiteVarHandleParams : struct := [("container", c_pointer); ("shared_name", c_pointer)].
Definition TfLiteRandomParams : struct := [("seed", c_int); ("seed2", c_int)].
Definition TfLiteBucketizeParams : struct := [("num_boundaries", c_int); ("boundaries", c_pointer)].
Definition TfLiteGeluParams : struct := [("approximate", c_bool)].
Definition TfLiteStablehloConcatenateParams : struct := [("dimension", c_int64)].
Definition TfLiteStablehloScatterParams : struct := [("indices_are_sorted", c_bool);
  ("update_window_dims", c_array c_int64 8); ("num_update_window_dims", c_int);
  ("inserted_window_dims", c_array c_int64 8); ("num_inserted_window_dims", c_int);
  ("scatter_dims_to_operand_dims", c_array c_int64 8); ("num_scatter_dims_to_operand_dims", c_int);
  ("index_vector_dim", c_int64); ("unique_indices", c_bool);
  ("update_computation_subgraph_index", c_int)].
Definition TfLiteStablehloRngBitGeneratorParams : struct := [("algorithm", c_int)].
Definition TfLiteStablehloGatherParams : struct := [("offset_dims", c_array c_int64 8);
  ("num_offset_dims", c_int); ("collapsed_slice_dims", c_array c_int64 8);
  ("num_collapsed_slice_dims", c_int); ("start_index_map", c_array c_int64 8);
  ("num_start_index_map", c_int); ("index_vector_dim", c_int64); ("slice_sizes", c_array c_int64 8);
  ("num_slice_sizes", c_int); ("indices_are_sorted", c_bool)].
Definition TfLiteStablehloReduceWindowParams : struct := [("window_dimensions", c_array c_int64 8);
  ("window_strides", c_array c_int64 8); ("base_dilations", c_array c_int64 8);
  ("window_dilations", c_array c_int64 8); ("padding", c_array c_int64 16);
  ("body_subgraph_index", c_int)].
Definition TfLiteReduceWindowParams : struct := [("reduce_function", c_int)].
Definition TfLiteStablehloPadParams : struct := [("edge_padding_low", c_array c_int64 8);
  ("edge_padding_high", c_array c_int64 8); ("interior_padding", c_array c_int64 8)].
Definition TfLiteStablehloCompositeParams : struct := [("name", c_pointer);
  ("subgraph_index", c_int); ("version", c_int); ("attributes", c_pointer);
  ("attributes_size", c_int64)].
Definition TfLiteStablehloCaseParams : struct := [("branch_subgraph_indices", c_array c_int 20);
  ("num_branches", c_int)].

(** The parameters of a delegate's node (core/c/common.h): the delegate and three arrays. *)
Definition TfLiteDelegateParams : struct := [("delegate", c_pointer);
  ("nodes_to_replace", c_pointer); ("input_tensors", c_pointer); ("output_tensors", c_pointer)].

(** ** Operators *)

(** [BuiltinOperator] (compiler/mlir/lite/schema/schema_generated.h), in the order of its values. *)
Inductive BuiltinOperator :=
  | BuiltinOperator_ADD | BuiltinOperator_AVERAGE_POOL_2D | BuiltinOperator_CONCATENATION
  | BuiltinOperator_CONV_2D | BuiltinOperator_DEPTHWISE_CONV_2D | BuiltinOperator_DEPTH_TO_SPACE
  | BuiltinOperator_DEQUANTIZE | BuiltinOperator_EMBEDDING_LOOKUP | BuiltinOperator_FLOOR
  | BuiltinOperator_FULLY_CONNECTED | BuiltinOperator_HASHTABLE_LOOKUP
  | BuiltinOperator_L2_NORMALIZATION | BuiltinOperator_L2_POOL_2D
  | BuiltinOperator_LOCAL_RESPONSE_NORMALIZATION | BuiltinOperator_LOGISTIC
  | BuiltinOperator_LSH_PROJECTION | BuiltinOperator_LSTM | BuiltinOperator_MAX_POOL_2D
  | BuiltinOperator_MUL | BuiltinOperator_RELU | BuiltinOperator_RELU_N1_TO_1
  | BuiltinOperator_RELU6 | BuiltinOperator_RESHAPE | BuiltinOperator_RESIZE_BILINEAR
  | BuiltinOperator_RNN | BuiltinOperator_SOFTMAX | BuiltinOperator_SPACE_TO_DEPTH
  | BuiltinOperator_SVDF | BuiltinOperator_TANH | BuiltinOperator_CONCAT_EMBEDDINGS
  | BuiltinOperator_SKIP_GRAM | BuiltinOperator_CALL | BuiltinOperator_CUSTOM
  | BuiltinOperator_EMBEDDING_LOOKUP_SPARSE | BuiltinOperator_PAD
  | BuiltinOperator_UNIDIRECTIONAL_SEQUENCE_RNN | BuiltinOperator_GATHER
  | BuiltinOperator_BATCH_TO_SPACE_ND | BuiltinOperator_SPACE_TO_BATCH_ND
  | BuiltinOperator_TRANSPOSE | BuiltinOperator_MEAN | BuiltinOperator_SUB | BuiltinOperator_DIV
  | BuiltinOperator_SQUEEZE | BuiltinOperator_UNIDIRECTIONAL_SEQUENCE_LSTM
  | BuiltinOperator_STRIDED_SLICE | BuiltinOperator_BIDIRECTIONAL_SEQUENCE_RNN
  | BuiltinOperator_EXP | BuiltinOperator_TOPK_V2 | BuiltinOperator_SPLIT
  | BuiltinOperator_LOG_SOFTMAX | BuiltinOperator_DELEGATE
  | BuiltinOperator_BIDIRECTIONAL_SEQUENCE_LSTM | BuiltinOperator_CAST | BuiltinOperator_PRELU
  | BuiltinOperator_MAXIMUM | BuiltinOperator_ARG_MAX | BuiltinOperator_MINIMUM
  | BuiltinOperator_LESS | BuiltinOperator_NEG | BuiltinOperator_PADV2 | BuiltinOperator_GREATER
  | BuiltinOperator_GREATER_EQUAL | BuiltinOperator_LESS_EQUAL | BuiltinOperator_SELECT
  | BuiltinOperator_SLICE | BuiltinOperator_SIN | BuiltinOperator_TRANSPOSE_CONV
  | BuiltinOperator_SPARSE_TO_DENSE | BuiltinOperator_TILE | BuiltinOperator_EXPAND_DIMS
  | BuiltinOperator_EQUAL | BuiltinOperator_NOT_EQUAL | BuiltinOperator_LOG | BuiltinOperator_SUM
  | BuiltinOperator_SQRT | BuiltinOperator_RSQRT | BuiltinOperator_SHAPE | BuiltinOperator_POW
  | BuiltinOperator_ARG_MIN | BuiltinOperator_FAKE_QUANT | BuiltinOperator_REDUCE_PROD
  | BuiltinOperator_REDUCE_MAX | BuiltinOperator_PACK | BuiltinOperator_LOGICAL_OR
  | BuiltinOperator_ONE_HOT | BuiltinOperator_LOGICAL_AND | BuiltinOperator_LOGICAL_NOT
  | BuiltinOperator_UNPACK | BuiltinOperator_REDUCE_MIN | BuiltinOperator_FLOOR_DIV
  | BuiltinOperator_REDUCE_ANY | BuiltinOperator_SQUARE | BuiltinOperator_ZEROS_LIKE
  | BuiltinOperator_FILL | BuiltinOperator_FLOOR_MOD | BuiltinOperator_RANGE
  | BuiltinOperator_RESIZE_NEAREST_NEIGHBOR | BuiltinOperator_LEAKY_RELU
  | BuiltinOperator_SQUARED_DIFFERENCE | BuiltinOperator_MIRROR_PAD | BuiltinOperator_ABS
  | BuiltinOperator_SPLIT_V | BuiltinOperator_UNIQUE | BuiltinOperator_CEIL
  | BuiltinOperator_REVERSE_V2 | BuiltinOperator_ADD_N | BuiltinOperator_GATHER_ND
  | BuiltinOperator_COS | BuiltinOperator_WHERE | BuiltinOperator_RANK | BuiltinOperator_ELU
  | BuiltinOperator_REVERSE_SEQUENCE | BuiltinOperator_MATRIX_DIAG | BuiltinOperator_QUANTIZE
  | BuiltinOperator_MATRIX_SET_DIAG | BuiltinOperator_ROUND | BuiltinOperator_HARD_SWISH
  | BuiltinOperator_IF | BuiltinOperator_WHILE | BuiltinOperator_NON_MAX_SUPPRESSION_V4
  | BuiltinOperator_NON_MAX_SUPPRESSION_V5 | BuiltinOperator_SCATTER_ND | BuiltinOperator_SELECT_V2
  | BuiltinOperator_DENSIFY | BuiltinOperator_SEGMENT_SUM | BuiltinOperator_BATCH_MATMUL
  | BuiltinOperator_PLACEHOLDER_FOR_GREATER_OP_CODES | BuiltinOperator_CUMSUM
  | BuiltinOperator_CALL_ONCE | BuiltinOperator_BROADCAST_TO | BuiltinOperator_RFFT2D
  | BuiltinOperator_CONV_3D | BuiltinOperator_IMAG | BuiltinOperator_REAL
  | BuiltinOperator_COMPLEX_ABS | BuiltinOperator_HASHTABLE | BuiltinOperator_HASHTABLE_FIND
  | BuiltinOperator_HASHTABLE_IMPORT | BuiltinOperator_HASHTABLE_SIZE | BuiltinOperator_REDUCE_ALL
  | BuiltinOperator_CONV_3D_TRANSPOSE | BuiltinOperator_VAR_HANDLE | BuiltinOperator_READ_VARIABLE
  | BuiltinOperator_ASSIGN_VARIABLE | BuiltinOperator_BROADCAST_ARGS
  | BuiltinOperator_RANDOM_STANDARD_NORMAL | BuiltinOperator_BUCKETIZE
  | BuiltinOperator_RANDOM_UNIFORM | BuiltinOperator_MULTINOMIAL | BuiltinOperator_GELU
  | BuiltinOperator_DYNAMIC_UPDATE_SLICE | BuiltinOperator_RELU_0_TO_1
  | BuiltinOperator_UNSORTED_SEGMENT_PROD | BuiltinOperator_UNSORTED_SEGMENT_MAX
  | BuiltinOperator_UNSORTED_SEGMENT_SUM | BuiltinOperator_ATAN2
  | BuiltinOperator_UNSORTED_SEGMENT_MIN | BuiltinOperator_SIGN | BuiltinOperator_BITCAST
  | BuiltinOperator_BITWISE_XOR | BuiltinOperator_RIGHT_SHIFT | BuiltinOperator_STABLEHLO_LOGISTIC
  | BuiltinOperator_STABLEHLO_ADD | BuiltinOperator_STABLEHLO_DIVIDE
  | BuiltinOperator_STABLEHLO_MULTIPLY | BuiltinOperator_STABLEHLO_MAXIMUM
  | BuiltinOperator_STABLEHLO_RESHAPE | BuiltinOperator_STABLEHLO_CLAMP
  | BuiltinOperator_STABLEHLO_CONCATENATE | BuiltinOperator_STABLEHLO_BROADCAST_IN_DIM
  | BuiltinOperator_STABLEHLO_CONVOLUTION | BuiltinOperator_STABLEHLO_SLICE
  | BuiltinOperator_STABLEHLO_CUSTOM_CALL | BuiltinOperator_STABLEHLO_REDUCE
  | BuiltinOperator_STABLEHLO_ABS | BuiltinOperator_STABLEHLO_AND
  | BuiltinOperator_STABLEHLO_COSINE | BuiltinOperator_STABLEHLO_EXPONENTIAL
  | BuiltinOperator_STABLEHLO_FLOOR | BuiltinOperator_STABLEHLO_LOG
  | BuiltinOperator_STABLEHLO_MINIMUM | BuiltinOperator_STABLEHLO_NEGATE
  | BuiltinOperator_STABLEHLO_OR | BuiltinOperator_STABLEHLO_POWER
  | BuiltinOperator_STABLEHLO_REMAINDER | BuiltinOperator_STABLEHLO_RSQRT
  | BuiltinOperator_STABLEHLO_SELECT | BuiltinOperator_STABLEHLO_SUBTRACT
  | BuiltinOperator_STABLEHLO_TANH | BuiltinOperator_STABLEHLO_SCATTER
  | BuiltinOperator_STABLEHLO_COMPARE | BuiltinOperator_STABLEHLO_CONVERT
  | BuiltinOperator_STABLEHLO_DYNAMIC_SLICE | BuiltinOperator_STABLEHLO_DYNAMIC_UPDATE_SLICE
  | BuiltinOperator_STABLEHLO_PAD | BuiltinOperator_STABLEHLO_IOTA
  | BuiltinOperator_STABLEHLO_DOT_GENERAL | BuiltinOperator_STABLEHLO_REDUCE_WINDOW
  | BuiltinOperator_STABLEHLO_SORT | BuiltinOperator_STABLEHLO_WHILE
  | BuiltinOperator_STABLEHLO_GATHER | BuiltinOperator_STABLEHLO_TRANSPOSE | BuiltinOperator_DILATE
  | BuiltinOperator_STABLEHLO_RNG_BIT_GENERATOR | BuiltinOperator_REDUCE_WINDOW
  | BuiltinOperator_STABLEHLO_COMPOSITE | BuiltinOperator_STABLEHLO_SHIFT_LEFT
  | BuiltinOperator_STABLEHLO_CBRT | BuiltinOperator_STABLEHLO_CASE.

Definition EnumValuesBuiltinOperator : list BuiltinOperator := [
  BuiltinOperator_ADD; BuiltinOperator_AVERAGE_POOL_2D; BuiltinOperator_CONCATENATION;
  BuiltinOperator_CONV_2D; BuiltinOperator_DEPTHWISE_CONV_2D; BuiltinOperator_DEPTH_TO_SPACE;
  BuiltinOperator_DEQUANTIZE; BuiltinOperator_EMBEDDING_LOOKUP; BuiltinOperator_FLOOR;
  BuiltinOperator_FULLY_CONNECTED; BuiltinOperator_HASHTABLE_LOOKUP;
  BuiltinOperator_L2_NORMALIZATION; BuiltinOperator_L2_POOL_2D;
  BuiltinOperator_LOCAL_RESPONSE_NORMALIZATION; BuiltinOperator_LOGISTIC;
  BuiltinOperator_LSH_PROJECTION; BuiltinOperator_LSTM; BuiltinOperator_MAX_POOL_2D;
  BuiltinOperator_MUL; BuiltinOperator_RELU; BuiltinOperator_RELU_N1_TO_1; BuiltinOperator_RELU6;
  BuiltinOperator_RESHAPE; BuiltinOperator_RESIZE_BILINEAR; BuiltinOperator_RNN;
  BuiltinOperator_SOFTMAX; BuiltinOperator_SPACE_TO_DEPTH; BuiltinOperator_SVDF;
  BuiltinOperator_TANH; BuiltinOperator_CONCAT_EMBEDDINGS; BuiltinOperator_SKIP_GRAM;
  BuiltinOperator_CALL; BuiltinOperator_CUSTOM; BuiltinOperator_EMBEDDING_LOOKUP_SPARSE;
  BuiltinOperator_PAD; BuiltinOperator_UNIDIRECTIONAL_SEQUENCE_RNN; BuiltinOperator_GATHER;
  BuiltinOperator_BATCH_TO_SPACE_ND; BuiltinOperator_SPACE_TO_BATCH_ND; BuiltinOperator_TRANSPOSE;
  BuiltinOperator_MEAN; BuiltinOperator_SUB; BuiltinOperator_DIV; BuiltinOperator_SQUEEZE;
  BuiltinOperator_UNIDIRECTIONAL_SEQUENCE_LSTM; BuiltinOperator_STRIDED_SLICE;
  BuiltinOperator_BIDIRECTIONAL_SEQUENCE_RNN; BuiltinOperator_EXP; BuiltinOperator_TOPK_V2;
  BuiltinOperator_SPLIT; BuiltinOperator_LOG_SOFTMAX; BuiltinOperator_DELEGATE;
  BuiltinOperator_BIDIRECTIONAL_SEQUENCE_LSTM; BuiltinOperator_CAST; BuiltinOperator_PRELU;
  BuiltinOperator_MAXIMUM; BuiltinOperator_ARG_MAX; BuiltinOperator_MINIMUM; BuiltinOperator_LESS;
  BuiltinOperator_NEG; BuiltinOperator_PADV2; BuiltinOperator_GREATER;
  BuiltinOperator_GREATER_EQUAL; BuiltinOperator_LESS_EQUAL; BuiltinOperator_SELECT;
  BuiltinOperator_SLICE; BuiltinOperator_SIN; BuiltinOperator_TRANSPOSE_CONV;
  BuiltinOperator_SPARSE_TO_DENSE; BuiltinOperator_TILE; BuiltinOperator_EXPAND_DIMS;
  BuiltinOperator_EQUAL; BuiltinOperator_NOT_EQUAL; BuiltinOperator_LOG; BuiltinOperator_SUM;
  BuiltinOperator_SQRT; BuiltinOperator_RSQRT; BuiltinOperator_SHAPE; BuiltinOperator_POW;
  BuiltinOperator_ARG_MIN; BuiltinOperator_FAKE_QUANT; BuiltinOperator_REDUCE_PROD;
  BuiltinOperator_REDUCE_MAX; BuiltinOperator_PACK; BuiltinOperator_LOGICAL_OR;
  BuiltinOperator_ONE_HOT; BuiltinOperator_LOGICAL_AND; BuiltinOperator_LOGICAL_NOT;
  BuiltinOperator_UNPACK; BuiltinOperator_REDUCE_MIN; BuiltinOperator_FLOOR_DIV;
  BuiltinOperator_REDUCE_ANY; BuiltinOperator_SQUARE; BuiltinOperator_ZEROS_LIKE;
  BuiltinOperator_FILL; BuiltinOperator_FLOOR_MOD; BuiltinOperator_RANGE;
  BuiltinOperator_RESIZE_NEAREST_NEIGHBOR; BuiltinOperator_LEAKY_RELU;
  BuiltinOperator_SQUARED_DIFFERENCE; BuiltinOperator_MIRROR_PAD; BuiltinOperator_ABS;
  BuiltinOperator_SPLIT_V; BuiltinOperator_UNIQUE; BuiltinOperator_CEIL;
  BuiltinOperator_REVERSE_V2; BuiltinOperator_ADD_N; BuiltinOperator_GATHER_ND;
  BuiltinOperator_COS; BuiltinOperator_WHERE; BuiltinOperator_RANK; BuiltinOperator_ELU;
  BuiltinOperator_REVERSE_SEQUENCE; BuiltinOperator_MATRIX_DIAG; BuiltinOperator_QUANTIZE;
  BuiltinOperator_MATRIX_SET_DIAG; BuiltinOperator_ROUND; BuiltinOperator_HARD_SWISH;
  BuiltinOperator_IF; BuiltinOperator_WHILE; BuiltinOperator_NON_MAX_SUPPRESSION_V4;
  BuiltinOperator_NON_MAX_SUPPRESSION_V5; BuiltinOperator_SCATTER_ND; BuiltinOperator_SELECT_V2;
  BuiltinOperator_DENSIFY; BuiltinOperator_SEGMENT_SUM; BuiltinOperator_BATCH_MATMUL;
  BuiltinOperator_PLACEHOLDER_FOR_GREATER_OP_CODES; BuiltinOperator_CUMSUM;
  BuiltinOperator_CALL_ONCE; BuiltinOperator_BROADCAST_TO; BuiltinOperator_RFFT2D;
  BuiltinOperator_CONV_3D; BuiltinOperator_IMAG; BuiltinOperator_REAL; BuiltinOperator_COMPLEX_ABS;
  BuiltinOperator_HASHTABLE; BuiltinOperator_HASHTABLE_FIND; BuiltinOperator_HASHTABLE_IMPORT;
  BuiltinOperator_HASHTABLE_SIZE; BuiltinOperator_REDUCE_ALL; BuiltinOperator_CONV_3D_TRANSPOSE;
  BuiltinOperator_VAR_HANDLE; BuiltinOperator_READ_VARIABLE; BuiltinOperator_ASSIGN_VARIABLE;
  BuiltinOperator_BROADCAST_ARGS; BuiltinOperator_RANDOM_STANDARD_NORMAL;
  BuiltinOperator_BUCKETIZE; BuiltinOperator_RANDOM_UNIFORM; BuiltinOperator_MULTINOMIAL;
  BuiltinOperator_GELU; BuiltinOperator_DYNAMIC_UPDATE_SLICE; BuiltinOperator_RELU_0_TO_1;
  BuiltinOperator_UNSORTED_SEGMENT_PROD; BuiltinOperator_UNSORTED_SEGMENT_MAX;
  BuiltinOperator_UNSORTED_SEGMENT_SUM; BuiltinOperator_ATAN2;
  BuiltinOperator_UNSORTED_SEGMENT_MIN; BuiltinOperator_SIGN; BuiltinOperator_BITCAST;
  BuiltinOperator_BITWISE_XOR; BuiltinOperator_RIGHT_SHIFT; BuiltinOperator_STABLEHLO_LOGISTIC;
  BuiltinOperator_STABLEHLO_ADD; BuiltinOperator_STABLEHLO_DIVIDE;
  BuiltinOperator_STABLEHLO_MULTIPLY; BuiltinOperator_STABLEHLO_MAXIMUM;
  BuiltinOperator_STABLEHLO_RESHAPE; BuiltinOperator_STABLEHLO_CLAMP;
  BuiltinOperator_STABLEHLO_CONCATENATE; BuiltinOperator_STABLEHLO_BROADCAST_IN_DIM;
  BuiltinOperator_STABLEHLO_CONVOLUTION; BuiltinOperator_STABLEHLO_SLICE;
  BuiltinOperator_STABLEHLO_CUSTOM_CALL; BuiltinOperator_STABLEHLO_REDUCE;
  BuiltinOperator_STABLEHLO_ABS; BuiltinOperator_STABLEHLO_AND; BuiltinOperator_STABLEHLO_COSINE;
  BuiltinOperator_STABLEHLO_EXPONENTIAL; BuiltinOperator_STABLEHLO_FLOOR;
  BuiltinOperator_STABLEHLO_LOG; BuiltinOperator_STABLEHLO_MINIMUM;
  BuiltinOperator_STABLEHLO_NEGATE; BuiltinOperator_STABLEHLO_OR; BuiltinOperator_STABLEHLO_POWER;
  BuiltinOperator_STABLEHLO_REMAINDER; BuiltinOperator_STABLEHLO_RSQRT;
  BuiltinOperator_STABLEHLO_SELECT; BuiltinOperator_STABLEHLO_SUBTRACT;
  BuiltinOperator_STABLEHLO_TANH; BuiltinOperator_STABLEHLO_SCATTER;
  BuiltinOperator_STABLEHLO_COMPARE; BuiltinOperator_STABLEHLO_CONVERT;
  BuiltinOperator_STABLEHLO_DYNAMIC_SLICE; BuiltinOperator_STABLEHLO_DYNAMIC_UPDATE_SLICE;
  BuiltinOperator_STABLEHLO_PAD; BuiltinOperator_STABLEHLO_IOTA;
  BuiltinOperator_STABLEHLO_DOT_GENERAL; BuiltinOperator_STABLEHLO_REDUCE_WINDOW;
  BuiltinOperator_STABLEHLO_SORT; BuiltinOperator_STABLEHLO_WHILE;
  BuiltinOperator_STABLEHLO_GATHER; BuiltinOperator_STABLEHLO_TRANSPOSE; BuiltinOperator_DILATE;
  BuiltinOperator_STABLEHLO_RNG_BIT_GENERATOR; BuiltinOperator_REDUCE_WINDOW;
  BuiltinOperator_STABLEHLO_COMPOSITE; BuiltinOperator_STABLEHLO_SHIFT_LEFT;
  BuiltinOperator_STABLEHLO_CBRT; BuiltinOperator_STABLEHLO_CASE].

(** The enumerator with a value: none where the value is out of range. *)
Definition BuiltinOperator_of (code : Z) : option BuiltinOperator := EnumValuesBuiltinOperator.[code].

(** The code has a case per operator. *)
Definition GetBuiltinDataSize (op : BuiltinOperator) : Z :=
  match op with
  | BuiltinOperator_ADD => struct_size TfLiteAddParams
  | BuiltinOperator_AVERAGE_POOL_2D | BuiltinOperator_L2_POOL_2D | BuiltinOperator_MAX_POOL_2D => struct_size TfLitePoolParams
  | BuiltinOperator_CONCATENATION => struct_size TfLiteConcatenationParams
  | BuiltinOperator_CONV_2D => struct_size TfLiteConvParams
  | BuiltinOperator_DEPTHWISE_CONV_2D => struct_size TfLiteDepthwiseConvParams
  | BuiltinOperator_DEPTH_TO_SPACE => struct_size TfLiteDepthToSpaceParams
  | BuiltinOperator_FULLY_CONNECTED => struct_size TfLiteFullyConnectedParams
  | BuiltinOperator_L2_NORMALIZATION => struct_size TfLiteL2NormParams
  | BuiltinOperator_LOCAL_RESPONSE_NORMALIZATION => struct_size TfLiteLocalResponseNormParams
  | BuiltinOperator_LSH_PROJECTION => struct_size TfLiteLSHProjectionParams
  | BuiltinOperator_LSTM => struct_size TfLiteLSTMParams
  | BuiltinOperator_MUL => struct_size TfLiteMulParams
  | BuiltinOperator_RESHAPE => struct_size TfLiteReshapeParams
  | BuiltinOperator_RESIZE_BILINEAR => struct_size TfLiteResizeBilinearParams
  | BuiltinOperator_RNN => struct_size TfLiteRNNParams
  | BuiltinOperator_SOFTMAX => struct_size TfLiteSoftmaxParams
  | BuiltinOperator_SPACE_TO_DEPTH => struct_size TfLiteSpaceToDepthParams
  | BuiltinOperator_SVDF => struct_size TfLiteSVDFParams
  | BuiltinOperator_SKIP_GRAM => struct_size TfLiteSkipGramParams
  | BuiltinOperator_CALL | BuiltinOperator_CALL_ONCE => struct_size TfLiteCallOnceParams
  | BuiltinOperator_EMBEDDING_LOOKUP_SPARSE => struct_size TfLiteEmbeddingLookupSparseParams
  | BuiltinOperator_PAD => struct_size TfLitePadParams
  | BuiltinOperator_UNIDIRECTIONAL_SEQUENCE_RNN => struct_size TfLiteSequenceRNNParams
  | BuiltinOperator_GATHER => struct_size TfLiteGatherParams
  | BuiltinOperator_BATCH_TO_SPACE_ND => struct_size TfLiteBatchToSpaceNDParams
  | BuiltinOperator_SPACE_TO_BATCH_ND => struct_size TfLiteSpaceToBatchNDParams
  | BuiltinOperator_TRANSPOSE => struct_size TfLiteTransposeParams
  | BuiltinOperator_MEAN | BuiltinOperator_SUM | BuiltinOperator_REDUCE_PROD
  | BuiltinOperator_REDUCE_MAX | BuiltinOperator_REDUCE_MIN | BuiltinOperator_REDUCE_ANY
  | BuiltinOperator_REDUCE_ALL => struct_size TfLiteReducerParams
  | BuiltinOperator_SUB => struct_size TfLiteSubParams
  | BuiltinOperator_DIV => struct_size TfLiteDivParams
  | BuiltinOperator_SQUEEZE => struct_size TfLiteSqueezeParams
  | BuiltinOperator_UNIDIRECTIONAL_SEQUENCE_LSTM => struct_size TfLiteUnidirectionalSequenceLSTMParams
  | BuiltinOperator_STRIDED_SLICE => struct_size TfLiteStridedSliceParams
  | BuiltinOperator_BIDIRECTIONAL_SEQUENCE_RNN => struct_size TfLiteBidirectionalSequenceRNNParams
  | BuiltinOperator_SPLIT => struct_size TfLiteSplitParams
  | BuiltinOperator_DELEGATE => struct_size TfLiteDelegateParams
  | BuiltinOperator_BIDIRECTIONAL_SEQUENCE_LSTM => struct_size TfLiteBidirectionalSequenceLSTMParams
  | BuiltinOperator_CAST => struct_size TfLiteCastParams
  | BuiltinOperator_ARG_MAX => struct_size TfLiteArgMaxParams
  | BuiltinOperator_PADV2 => struct_size TfLitePadV2Params
  | BuiltinOperator_TRANSPOSE_CONV => struct_size TfLiteTransposeConvParams
  | BuiltinOperator_SPARSE_TO_DENSE => struct_size TfLiteSparseToDenseParams
  | BuiltinOperator_SHAPE => struct_size TfLiteShapeParams
  | BuiltinOperator_ARG_MIN => struct_size TfLiteArgMinParams
  | BuiltinOperator_FAKE_QUANT => struct_size TfLiteFakeQuantParams
  | BuiltinOperator_PACK => struct_size TfLitePackParams
  | BuiltinOperator_ONE_HOT => struct_size TfLiteOneHotParams
  | BuiltinOperator_UNPACK => struct_size TfLiteUnpackParams
  | BuiltinOperator_RESIZE_NEAREST_NEIGHBOR => struct_size TfLiteResizeNearestNeighborParams
  | BuiltinOperator_LEAKY_RELU => struct_size TfLiteLeakyReluParams
  | BuiltinOperator_MIRROR_PAD => struct_size TfLiteMirrorPaddingParams
  | BuiltinOperator_SPLIT_V => struct_size TfLiteSplitVParams
  | BuiltinOperator_UNIQUE => struct_size TfLiteUniqueParams
  | BuiltinOperator_RANK => struct_size TfLiteRankParams
  | BuiltinOperator_REVERSE_SEQUENCE => struct_size TfLiteReverseSequenceParams
  | BuiltinOperator_MATRIX_DIAG => struct_size TfLiteMatrixDiagParams
  | BuiltinOperator_MATRIX_SET_DIAG => struct_size TfLiteMatrixSetDiagParams
  | BuiltinOperator_IF => struct_size TfLiteIfParams
  | BuiltinOperator_WHILE => struct_size TfLiteWhileParams
  | BuiltinOperator_BATCH_MATMUL => struct_size TfLiteBatchMatMulParams
  | BuiltinOperator_CUMSUM => struct_size TfLiteCumsumParams
  | BuiltinOperator_CONV_3D | BuiltinOperator_CONV_3D_TRANSPOSE => struct_size TfLiteConv3DParams
  | BuiltinOperator_HASHTABLE => struct_size TfLiteHashtableParams
  | BuiltinOperator_VAR_HANDLE => struct_size TfLiteVarHandleParams
  | BuiltinOperator_RANDOM_STANDARD_NORMAL | BuiltinOperator_RANDOM_UNIFORM
  | BuiltinOperator_MULTINOMIAL => struct_size TfLiteRandomParams
  | BuiltinOperator_BUCKETIZE => struct_size TfLiteBucketizeParams
  | BuiltinOperator_GELU => struct_size TfLiteGeluParams
  | BuiltinOperator_STABLEHLO_SCATTER => struct_size TfLiteStablehloScatterParams
  | BuiltinOperator_STABLEHLO_PAD => struct_size TfLiteStablehloPadParams
  | BuiltinOperator_STABLEHLO_REDUCE_WINDOW => struct_size TfLiteStablehloReduceWindowParams
  | BuiltinOperator_STABLEHLO_GATHER => struct_size TfLiteStablehloGatherParams
  | BuiltinOperator_STABLEHLO_RNG_BIT_GENERATOR => struct_size TfLiteStablehloRngBitGeneratorParams
  | BuiltinOperator_REDUCE_WINDOW => struct_size TfLiteReduceWindowParams
  | BuiltinOperator_STABLEHLO_COMPOSITE => struct_size TfLiteStablehloCompositeParams
  | BuiltinOperator_STABLEHLO_CASE => struct_size TfLiteStablehloCaseParams
  | _ => 0
  end.
