(* ===== verification/SubgraphInline.v ===== *)
(** * Subgraphs: inlining StableHLO composites (tensorflow/lite/core/subgraph.cc)

    A composite operator names another subgraph of the model that computes it.
    [ReplaceNodeWithSubgraph] puts copies of that subgraph's tensors and nodes in the place of a
    composite node, [InlineCompositeNodes] does so until no composite is left, and [AllocateTensors]
    starts with it where the options ask for it. *)
From Stdlib Require Import String.
From stdpp Require Import strings.
From S2P Require Import Prelude Heap Common Util TensorClone MemoryPlanner Callbacks.
From S2P Require Import Subgraph SubgraphRun SubgraphDelegate.
From S2P Require OptionStructs.
#[local] Open Scope Z_scope.

(** [GetSubgraphs()]: the number of subgraphs of the model, the other ones, and the index of this
    one. *)
Class Decompositions (P W : Type) := {
  subgraphs_size : W -> Z;
  subgraph_at : W -> Z -> option (Subgraph P);
  GetSubgraphIndex : W -> Z }.

Definition kTfLiteBuiltinStablehloComposite : Z := 206.

(** [GetBuiltinDataSize] of the operator code. *)
Definition builtin_data_size (code : Z) : Z :=
  match OptionStructs.BuiltinOperator_of code with
  | Some op => OptionStructs.GetBuiltinDataSize op
  | None => 0
  end.

Section Inline.
Context {P W : Type} {MP : MemoryPlanner P} {NP : NewPlanner P} {MM : Malloc} {SS : StdSort}.
Abbreviation S := (sgstate P W).
Context {SB : Siblings W} {DC : Decompositions P W} {CB : Callbacks S}.

(** The map of the tensors [keys] of the inserted subgraph to those of the node, by position: the
    later of two equal keys counts. *)
Definition tensor_map (keys values : list Z) : M S (gmap Z Z) :=
  for_fold (enumerate keys) ∅ (fun m ik =>
    let* v := access (values.[ik.1]) in ret (<[ik.2 := v]> m)).

(** [ReMapTensorIndex]. *)
Definition ReMapTensorIndex (tensor_offset : Z) (map : gmap Z Z) (tensor_index : Z) : Z :=
  match map !! tensor_index with Some t => t | None => tensor_index + tensor_offset end.

(** The copy of a node's parameters, null where it has none; [calloc] may fail. *)
Definition clone_builtin_data (code data : Z) : M heap Z :=
  if (0 <? builtin_data_size code) && negb (data =? 0) then
    let* p := malloc (builtin_data_size code) in
    memcpy p data (builtin_data_size code) ;;;
    ret p
  else ret 0.

(** The tensors of the inserted subgraph, cloned behind those of this one. *)
Definition clone_tensors (source : list TfLiteTensor) : M S Z :=
  let* tensor_offset := AddTensors (zlength source) in
  for_each (enumerate source) (fun it =>
    let* t := on_heap (TfLiteTensorClone call_CloneTo (snd it)) in
    set_tensor (tensor_offset + fst it) (fun _ => t)) ;;;
  ret tensor_offset.

(** A node of the inserted subgraph is added to this one, but not to its plan. *)
Definition clone_node (subgraph : Subgraph P) (tensor_offset : Z) (input_map output_map : gmap Z Z) (n : Z)
    : M S Z :=
  let* nr := access ((nodes_and_registration_ subgraph).[n]) in
  let '(decomp_node, decom_reg) := nr in
  let* cloned := on_heap (clone_builtin_data (builtin_code decom_reg) (builtin_data decomp_node)) in
  (if bool_decide (n ∈ freed_nodes_ subgraph) then undef else ret tt) ;;;
  let* cloned_node_index :=
    AddNodeWithParameters (ReMapTensorIndex tensor_offset input_map <$> node_inputs decomp_node)
      (ReMapTensorIndex tensor_offset output_map <$> node_outputs decomp_node)
      ((fun i => i + tensor_offset) <$> node_intermediates decomp_node)
      (custom_initial_data decomp_node) (custom_initial_data_size decomp_node) cloned decom_reg in
  upd (fun g => set_execution_plan_ (removelast (execution_plan_ g)) g) ;;;
  ret cloned_node_index.

(** The subgraph at an index that is not this one's; inserting a subgraph into itself changes the
    plan while it is iterated over. *)
Definition decomposition (subgraph_index : Z) : M S (Subgraph P) := fun s =>
  (ensure (size_wrap subgraph_index <? subgraphs_size (sg_world s)) ;;;
   if subgraph_index =? GetSubgraphIndex (sg_world s) then undef
   else access (subgraph_at (sg_world s) subgraph_index)) s.

(** The last index of the plan that was inserted. *)
Definition ReplaceNodeWithSubgraph (execution_index node subgraph_index : Z) : M S Z :=
  let* subgraph := decomposition subgraph_index in
  let* node := node_arrays node in
  let* input_map := tensor_map (inputs_ subgraph) (node_inputs node) in
  let* output_map := tensor_map (outputs_ subgraph) (node_outputs node) in
  let* tensor_offset := clone_tensors (tensors_ subgraph) in
  let subgraph_execution_plan :=
    match pre_delegation_execution_plan_ subgraph with [] => execution_plan_ subgraph | plan => plan end in
  let* execution_plan_to_insert := for_fold subgraph_execution_plan [] (fun plan n =>
    let* c := clone_node subgraph tensor_offset input_map output_map n in ret (plan ++ [c])) in
  let* g := this in
  (if (execution_index <? 0) || (zlength (execution_plan_ g) <=? execution_index) then undef else ret tt) ;;;
  upd (fun g => set_execution_plan_ (take (Z.to_nat execution_index) (execution_plan_ g) ++
    execution_plan_to_insert ++ drop (Z.to_nat execution_index + 1) (execution_plan_ g)) g) ;;;
  ret (execution_index + zlength execution_plan_to_insert - 1).

(** [params.subgraph_index] of a composite's parameters. *)
Definition composite_subgraph (params : Z) : M S Z :=
  let* f := access (OptionStructs.field OptionStructs.TfLiteStablehloCompositeParams "subgraph_index") in
  let* bs := on_heap (load (params + fst f) (OptionStructs.sizeof (snd f))) in
  ret (int32_wrap (le_value bs)).

Definition is_composite (nr : TfLiteNode * TfLiteRegistration) : bool :=
  builtin_code (snd nr) =? kTfLiteBuiltinStablehloComposite.

(** The composites of the plan, by the index of their node. *)
Definition composite_nodes : M S (list Z) :=
  let* g := this in
  for_fold (execution_plan_ g) [] (fun found i =>
    let* nr := node_ref i in ret (if is_composite nr then found ++ [i] else found)).

(** One pass over the plan, which grows on the way: [fuel] bounds its length. *)
Fixpoint inline_from (fuel : nat) (composites : list Z) (execution_index : Z) : M S unit :=
  let* g := this in
  if zlength (execution_plan_ g) <=? execution_index then ret tt
  else
    match fuel with
    | O => undef
    | Datatypes.S fuel =>
      let* node_index := access ((execution_plan_ g).[execution_index]) in
      let* last :=
        (if bool_decide (node_index ∈ composites) then
           let* nr := node_ref node_index in
           let* index := composite_subgraph (builtin_data (fst nr)) in
           ReplaceNodeWithSubgraph execution_index node_index index
         else ret execution_index) in
      inline_from fuel composites (last + 1)
    end.

(** [while] there are composites; a composite may decompose into others, [rounds] times.  A pass
    visits every node of the plan it found once. *)
Fixpoint InlineCompositeNodes (rounds : nat) (redo : M S unit) : M S unit :=
  let* composites := composite_nodes in
  match composites, rounds with
  | [], _ => ret tt
  | _, O => undef
  | _, Datatypes.S rounds =>
    UndoAllDelegates ;;;
    let* g := this in
    inline_from (length (execution_plan_ g)) composites 0 ;;;
    redo ;;;
    InlineCompositeNodes rounds redo
  end.

(** Composites that contain one another without end are inlined without end; otherwise they are
    nested no deeper than there are subgraphs. *)
Definition inline_composites : M S unit := fun s =>
  InlineCompositeNodes (Z.to_nat (subgraphs_size (sg_world s))) (RedoAllDelegates redo_fuel) s.

(** [AllocateTensors()], with the strategy [kAutoInline]. *)
Definition AllocateTensors_all : M S unit :=
  let* g := this in
  if negb (consistent_ g) then fail kTfLiteError
  else
    RedoAllDelegates redo_fuel ;;;
    let* b := option_set shlo_composite_inlining_ in
    let* g := this in
    (if b && negb (is_delegation_skippable_ g) then
       let* d := IsFullyDelegated in
       if d then ret tt else inline_composites
     else ret tt) ;;;
    allocate_tensors.
End Inline.
