(* ===== verification/SubgraphWf.v ===== *)
(** * Subgraphs: the indices stay valid

    What kernels and delegates may do to a subgraph ([CallbacksOk]), and the invariant that
    every tensor and node index the subgraph keeps is in range, which no operation breaks,
    whatever it returns. *)
From Stdlib Require Import String.
From stdpp Require Import strings.
From S2P Require Import Prelude Heap Common Util GraphInfo MemoryPlanner Callbacks Subgraph.
From S2P Require Import SubgraphRun SubgraphDelegate.
From S2P Require OpResolver Partition.
#[local] Open Scope Z_scope.

(** ** What callbacks may do *)

Section Actions.
Context {P W : Type} {MP : MemoryPlanner P} {MM : Malloc} {SS : StdSort}.
Abbreviation S := (sgstate P W).
Context {SB : Siblings W} {CB : Callbacks S}.

(** Through the context a kernel or a delegate resizes and adds tensors and changes the fields
    of a tensor; it has its own data and the heap.  [Cancel] may be called from another thread
    at any time. *)
Inductive context_action (s : S) : S -> Prop :=
  | act_outside h w : context_action s (SG h (sg_graph s) w)
  | act_tensor i t' : context_action s (snd (set_tensor i (fun _ => t') s))
  | act_resize i dims : context_action s (snd (ResizeTensor i dims s))
  | act_add n : context_action s (snd (AddTensors n s))
  | act_cancel : context_action s (snd (Cancel s)).

(** A kernel also sets the temporaries and the data of its own node. *)
Inductive kernel_action (n : Z) (s : S) : S -> Prop :=
  | act_context s' : context_action s s' -> kernel_action n s s'
  | act_node ts ud : Forall (fun i => 0 <= i < zlength (tensors_ (sg_graph s))) ts ->
      kernel_action n s (snd (set_node n (fun nd => mkNode (node_inputs nd) (node_outputs nd)
        (node_intermediates nd) ts ud (builtin_data nd) (custom_initial_data nd) (custom_initial_data_size nd)
        (node_delegate nd) (might_have_side_effect nd)) s)).

(** A delegate also replaces nodes. *)
Inductive delegate_action (delegate : Z) (s : S) : S -> Prop :=
  | act_delegate_context s' : context_action s s' -> delegate_action delegate s s'
  | act_replace reg nodes : delegate_action delegate s
      (snd (delegate_only (ReplaceNodeSubsetsWithDelegateKernels reg nodes delegate) s)).
End Actions.

Class CallbacksOk {P W : Type} {MP : MemoryPlanner P} {MM : Malloc} {SS : StdSort}
    (CB : Callbacks (sgstate P W)) : Prop := {
  init_acts f d b l s : rtc context_action s (snd (call_init f d b l s));
  free_acts f d b s : rtc context_action s (snd (call_free f d b s));
  prepare_acts f d n s : rtc (kernel_action n) s (snd (call_prepare f d n s));
  invoke_acts f d n s : rtc (kernel_action n) s (snd (call_invoke f d n s));
  Prepare_acts f d data s : rtc (delegate_action d) s (snd (call_delegate_Prepare f d data s));
  CopyFromBufferHandle_acts f d data h i s :
    rtc context_action s (snd (call_CopyFromBufferHandle f d data h i s));
  FreeBufferHandle_acts f d data i s :
    rtc context_action s (snd (call_FreeBufferHandle f d data i s));
  check_cancelled_acts f d s : rtc context_action s (snd (call_check_cancelled f d s)) }.

(** ** The invariant *)

(** An index of [n] tensors, or an omitted one. *)
Definition tensor_index (n i : Z) : Prop := i = kTfLiteOptionalTensor \/ 0 <= i < n.

(** The indices of a node that [AddNodeWithParameters] checks, and its temporaries.  Its intermediates
    are not among them: the code takes them as they are given (example [intermediates_unchecked]). *)
Record node_ok (n : Z) (nd : TfLiteNode) : Prop := {
  ok_node_inputs : Forall (tensor_index n) (node_inputs nd);
  ok_node_outputs : Forall (tensor_index n) (node_outputs nd);
  ok_node_temporaries : Forall (fun i => 0 <= i < n) (node_temporaries nd) }.

Record sg_wf {P : Type} (g : Subgraph P) : Prop := {
  wf_inputs_ : Forall (tensor_index (zlength (tensors_ g))) (inputs_ g);
  wf_outputs_ : Forall (tensor_index (zlength (tensors_ g))) (outputs_ g);
  wf_variables_ : Forall (tensor_index (zlength (tensors_ g))) (variables_ g);
  wf_nodes_ : Forall (fun nr => node_ok (zlength (tensors_ g)) (fst nr)) (nodes_and_registration_ g);
  wf_plan_ : Forall (fun n => 0 <= n < zlength (nodes_and_registration_ g)) (execution_plan_ g);
  wf_pre_plan_ : Forall (fun n => 0 <= n < zlength (nodes_and_registration_ g))
                   (pre_delegation_execution_plan_ g);
  wf_custom_ : map_Forall (fun i _ => 0 <= i < zlength (tensors_ g)) (custom_allocations_ g) }.

Lemma tensor_index_le n n' i : n <= n' -> tensor_index n i -> tensor_index n' i.
Proof. intros Hn [->|Hi]; [by left|right; lia]. Qed.

Lemma node_ok_le n n' nd : n <= n' -> node_ok n nd -> node_ok n' nd.
Proof.
  intros Hn [Hi Ho Ht].
  split; (eapply Forall_impl; [eassumption|]; cbn; intros; first [lia|by eapply tensor_index_le]).
Qed.

Lemma Forall_zinsert {A} (Q : A -> Prop) l i x l' :
  Forall Q l -> Q x -> zinsert l i x = Some l' -> Forall Q l'.
Proof.
  unfold zinsert. intros Hl Hx. destruct (_ || _); [done|]. intros [= <-]. by apply Forall_insert.
Qed.

Lemma zlength_zinsert {A} (l : list A) i x l' : zinsert l i x = Some l' -> zlength l' = zlength l.
Proof. unfold zinsert, zlength. destruct (_ || _); [done|]. intros [= <-]. by rewrite length_insert. Qed.

Lemma Forall_zlookup {A} (Q : A -> Prop) l i x : Forall Q l -> l.[i] = Some x -> Q x.
Proof. intros Hl [_ Hi]%zlookup_some. by eapply Forall_lookup_1. Qed.

Ltac by_grows := first [lia|done|auto].

Section Preservation.
Context {P W : Type}.
Abbreviation S := (sgstate P W).
Implicit Types g : Subgraph P.

(** The invariant is kept; tensors and nodes are only added; an inconsistent graph
    stays so, and delegation that is not undone stays. *)
Record grows (s s' : S) : Prop := {
  grows_wf : sg_wf (sg_graph s) -> sg_wf (sg_graph s');
  grows_tensors : zlength (tensors_ (sg_graph s)) <= zlength (tensors_ (sg_graph s'));
  grows_nodes : zlength (nodes_and_registration_ (sg_graph s)) <=
                zlength (nodes_and_registration_ (sg_graph s'));
  grows_stuck : consistent_ (sg_graph s) = false -> consistent_ (sg_graph s') = false;
  grows_redone : delegates_undone_ (sg_graph s) = false -> delegates_undone_ (sg_graph s') = false }.

#[export] Instance grows_preorder : PreOrder grows.
Proof.
  split; [intros s; split; [done|by_grows..]|].
  intros s s' s'' [H1 ? ? ? ?] [H2 ? ? ? ?]. split; [auto|by_grows..].
Qed.

(** More tensors, other contents. *)
Lemma wf_tensors g ts : zlength (tensors_ g) <= zlength ts -> sg_wf g -> sg_wf (set_tensors_ ts g).
Proof.
  intros Hle [Hi Ho Hv Hn Hp Hpp Hc]. split; cbn; try done.
  1-3: by eapply Forall_impl; [eassumption|]; intros; eapply tensor_index_le.
  - eapply Forall_impl; [exact Hn|]. intros. by eapply node_ok_le.
  - intros i a Ha. specialize (Hc i a Ha). cbn in Hc. lia.
Qed.

(** Other nodes, as many or more. *)
Lemma wf_nodes g ns : zlength (nodes_and_registration_ g) <= zlength ns ->
  Forall (fun nr => node_ok (zlength (tensors_ g)) (fst nr)) ns ->
  sg_wf g -> sg_wf (set_nodes_and_registration_ ns g).
Proof.
  intros Hle Hns [Hi Ho Hv Hn Hp Hpp Hc]. split; cbn; try done;
    (eapply Forall_impl; [eassumption|]); cbn; lia.
Qed.

Lemma grows_this : respects grows (@this P W).
Proof. intros s. reflexivity. Qed.

Lemma grows_on_heap {A} (c : M heap A) : respects grows (on_heap (P := P) (W := W) c).
Proof. apply respects_zoom. intros t s. split; [done|cbn; by_grows..]. Qed.

Lemma grows_on_tensor {A} i (c : M tstate A) : respects grows (on_tensor (P := P) (W := W) i c).
Proof.
  intros s. unfold on_tensor. destruct ((tensors_ _).[i]) as [t|] eqn:Ht; [|reflexivity].
  destruct (c _) as [r [h t']]. split; cbn; rewrite ?zlength_zset; [|by_grows..].
  apply wf_tensors. rewrite zlength_zset. lia.
Qed.

Lemma grows_set_tensor i f : respects grows (set_tensor (P := P) (W := W) i f).
Proof. apply grows_on_tensor. Qed.

Lemma grows_tensor_ref i : respects grows (tensor_ref (P := P) (W := W) i).
Proof. unfold tensor_ref. walk. apply grows_this. Qed.

Lemma grows_node_ref i : respects grows (node_ref (P := P) (W := W) i).
Proof. unfold node_ref. walk. apply grows_this. Qed.

(** A node changed in place, where its indices stay valid in this state. *)
Lemma grows_set_node_at n f s :
  (forall nd, node_ok (zlength (tensors_ (sg_graph s))) nd ->
     node_ok (zlength (tensors_ (sg_graph s))) (f nd)) ->
  grows s (snd (set_node (P := P) (W := W) n f s)).
Proof.
  intros Hf. unfold set_node, node_ref, bind, this, access. cbn.
  destruct ((nodes_and_registration_ _).[n]) as [nr|] eqn:Hn; [|reflexivity]. cbn.
  destruct (zinsert _ _ _) as [l|] eqn:Hl; [|reflexivity]. cbn.
  pose proof (zlength_zinsert _ _ _ _ Hl). split; cbn; [|by_grows..]. intros Hs.
  apply wf_nodes; [lia| |done]. eapply Forall_zinsert; [|..|exact Hl]; [apply Hs|]. cbn.
  apply Hf. exact (Forall_zlookup _ _ _ _ (wf_nodes_ _ Hs) Hn).
Qed.

Lemma grows_set_node n f : (forall k nd, node_ok k nd -> node_ok k (f nd)) ->
  respects grows (set_node (P := P) (W := W) n f).
Proof. intros Hf s. apply grows_set_node_at. intros nd. apply Hf. Qed.

Lemma node_ok_data k ud bd nd : node_ok k nd -> node_ok k (set_node_data ud bd nd).
Proof. by intros []. Qed.

Lemma node_ok_delegate k d nd : node_ok k nd -> node_ok k (set_node_delegate d nd).
Proof. by intros []. Qed.
End Preservation.

#[export] Hint Resolve grows_this grows_on_heap grows_on_tensor grows_set_tensor grows_tensor_ref
  grows_node_ref grows_set_node node_ok_data node_ok_delegate : respects.
(** A field the invariant does not read. *)
#[export] Hint Extern 3 (respects grows (upd _)) =>
  (apply respects_modify; intros ?;
   split; [intros []; split; assumption|cbn; by_grows..]) : respects.

(** ** Callbacks *)

Section Callbacks.
Context {P W : Type} {MP : MemoryPlanner P} {NP : NewPlanner P} {MM : Malloc} {SS : StdSort}.
Abbreviation S := (sgstate P W).
Context {SB : Siblings W} {CB : Callbacks S} {CBOk : CallbacksOk CB} {MPOk : MemoryPlannerOk P}.

Implicit Types s : S.

Lemma rtc_moves (R Q : S -> S -> Prop) `{!PreOrder Q} s s' :
  (forall s s', R s s' -> Q s s') -> rtc R s s' -> Q s s'.
Proof. intros HRQ. induction 1 as [|s1 s2 s3 H _ IH]; [reflexivity|]. etransitivity; eauto. Qed.

Lemma grows_ResizeTensorImpl i dims : respects grows (ResizeTensorImpl (P := P) (W := W) i dims).
Proof. unfold ResizeTensorImpl, lift. walk; intros s; reflexivity. Qed.
#[local] Hint Resolve grows_ResizeTensorImpl : respects.

Lemma grows_ResizeTensor i dims : respects grows (ResizeTensor (P := P) (W := W) i dims).
Proof. unfold ResizeTensor. walk. Qed.

Lemma grows_AddTensors n : respects grows (AddTensors (P := P) (W := W) n).
Proof.
  unfold AddTensors. intros s. rewrite (bind_done this _ s (sg_graph s) s) by done.
  destruct (n <? 0); [reflexivity|].
  pose proof (zlength_nonneg (replicate (Z.to_nat n) (set_delegate_buffer 0 kTfLiteNullBufferHandle false tensor_zero))).
  split; cbn; rewrite ?zlength_app; [|by_grows..]. apply wf_tensors. rewrite zlength_app. lia.
Qed.

Lemma grows_Cancel : respects grows (Cancel (P := P) (W := W)).
Proof. unfold Cancel. walk. Qed.

Lemma context_action_grows s s' : context_action s s' -> grows s s'.
Proof.
  intros [h w|i t'|i dims|n|].
  - by split.
  - apply grows_set_tensor.
  - apply grows_ResizeTensor.
  - apply grows_AddTensors.
  - apply grows_Cancel.
Qed.

Lemma kernel_action_grows n s s' : kernel_action n s s' -> grows s s'.
Proof.
  intros [s1 H|ts ud Hts]; [by apply context_action_grows|].
  apply grows_set_node_at. intros nd [Hi Ho _]. by split.
Qed.

Lemma context_grows s s' : rtc context_action s s' -> grows s s'.
Proof. apply rtc_moves; [exact _|]. apply context_action_grows. Qed.

Lemma grows_call_init f d b l : respects grows (call_init f d b l).
Proof. intros s. apply context_grows, init_acts. Qed.
Lemma grows_call_free f d b : respects grows (call_free f d b).
Proof. intros s. apply context_grows, free_acts. Qed.
Lemma grows_call_prepare f d n : respects grows (call_prepare f d n).
Proof. intros s. eapply rtc_moves; [exact _|apply kernel_action_grows|apply prepare_acts]. Qed.
Lemma grows_call_invoke f d n : respects grows (call_invoke f d n).
Proof. intros s. eapply rtc_moves; [exact _|apply kernel_action_grows|apply invoke_acts]. Qed.
Lemma grows_call_Copy f d data h i : respects grows (call_CopyFromBufferHandle f d data h i).
Proof. intros s. apply context_grows, CopyFromBufferHandle_acts. Qed.
Lemma grows_call_Free f d data i : respects grows (call_FreeBufferHandle f d data i).
Proof. intros s. apply context_grows, FreeBufferHandle_acts. Qed.
Lemma grows_call_check f d : respects grows (call_check_cancelled f d).
Proof. intros s. apply context_grows, check_cancelled_acts. Qed.

#[local] Hint Resolve grows_ResizeTensor grows_AddTensors grows_Cancel grows_call_init
  grows_call_free grows_call_prepare grows_call_invoke grows_call_Copy grows_call_Free
  grows_call_check : respects.

Lemma grows_op_dispatch {A} reg wd pl own (run : Z -> option Z -> M S A) wabs abs :
  (forall f d, respects grows (run f d)) -> respects grows wabs -> respects grows abs ->
  respects grows (op_dispatch reg wd pl own run wabs abs).
Proof. intros Hr Hw Ha. unfold op_dispatch. walk. Qed.

Lemma grows_OpInit reg b l : respects grows (OpInit reg b l).
Proof. apply grows_op_dispatch; eauto with respects. Qed.
Lemma grows_OpPrepare reg n : respects grows (OpPrepare reg n).
Proof. unfold OpPrepare. apply grows_op_dispatch; intros; walk. Qed.
Lemma grows_OpInvoke reg n : respects grows (OpInvoke reg n).
Proof. apply grows_op_dispatch; eauto with respects. Qed.
Lemma grows_OpFree reg b : respects grows (OpFree reg b).
Proof. unfold OpFree. walk. apply grows_op_dispatch; eauto with respects. Qed.

Lemma grows_node_arrays n : respects grows (node_arrays (P := P) (W := W) n).
Proof. unfold node_arrays. walk. Qed.
#[local] Hint Resolve grows_OpInit grows_OpPrepare grows_OpInvoke grows_OpFree grows_node_arrays : respects.

Lemma grows_CleanupNode n : respects grows (CleanupNode n).
Proof. unfold CleanupNode. walk. Qed.

Lemma grows_builder_function d f : respects grows (builder_function (S := S) d f).
Proof. unfold builder_function, TfLiteDelegateIsOpaque. walk. Qed.
#[local] Hint Resolve grows_builder_function grows_CleanupNode : respects.

Lemma grows_Copy d h i : respects grows (TfLiteDelegateCopyFromBufferHandleInternal d h i).
Proof. unfold TfLiteDelegateCopyFromBufferHandleInternal. walk. Qed.
Lemma grows_Free d i : respects grows (TfLiteDelegateFreeBufferHandleInternal d i).
Proof. unfold TfLiteDelegateFreeBufferHandleInternal. walk. Qed.
#[local] Hint Resolve grows_Copy grows_Free : respects.

Lemma grows_EnsureTensorDataIsReadable i : respects grows (EnsureTensorDataIsReadable i).
Proof. unfold EnsureTensorDataIsReadable. walk. Qed.

Lemma grows_SetBufferHandle i h d r : respects grows (SetBufferHandle i h d r).
Proof. unfold SetBufferHandle, tensor. walk. Qed.

(** ** The memory planner *)

Lemma grows_on_planner {A} (c : M (mp_state P) A) :
  framed mp_graph c -> respects grows (on_planner (W := W) c).
Proof.
  intros Hc s. unfold on_planner.
  destruct (memory_planner_ (sg_graph s)) as [p|]; [|reflexivity].
  unfold InterpreterInfo. destruct (mapM _ _) as [nodes|]; [|reflexivity].
  match goal with |- context [c ?t] => pose proof (Hc t) as Hf; destruct (c t) as [r t'] end.
  pose proof (graph_frame_length _ _ Hf) as Hlen. unfold num_tensors in Hlen. cbn in *.
  split; cbn; [|by_grows..]. intros Hs.
  destruct (wf_tensors (sg_graph s) (gi_tensors (mp_graph t')) ltac:(lia) Hs). by split.
Qed.

Lemma grows_if_planner (c : M S unit) : respects grows c -> respects grows (if_planner c).
Proof. intros Hc. unfold if_planner. walk. Qed.
End Callbacks.

(** ** Building *)

Section Building.
Context {P W : Type} {MP : MemoryPlanner P} {NP : NewPlanner P} {MM : Malloc} {SS : StdSort}.
Abbreviation S := (sgstate P W).
Context {SB : Siblings W} {CB : Callbacks S} {CBOk : CallbacksOk CB} {MPOk : MemoryPlannerOk P}.
Implicit Types s : S.
#[local] Hint Resolve grows_ResizeTensor grows_AddTensors grows_Cancel grows_call_init
  grows_call_free grows_call_prepare grows_call_invoke grows_call_Copy grows_call_Free
  grows_call_check grows_OpInit grows_OpPrepare grows_OpInvoke grows_OpFree
  grows_node_arrays : respects.

(** The check leaves the graph as it is, or marks it inconsistent. *)
Lemma CheckTensorIndices_run l s :
  (CheckTensorIndices l s = (Done tt, s) /\ Forall (tensor_index (zlength (tensors_ (sg_graph s)))) l) \/
  CheckTensorIndices l s =
    (Fail kTfLiteError, SG (sg_heap s) (set_consistent_ false (sg_graph s)) (sg_world s)).
Proof.
  unfold CheckTensorIndices, for_tensors. induction l as [|i l IH]; [by left|].
  rewrite for_each_cons. destruct (Z.eqb_spec i kTfLiteOptionalTensor) as [Hi|Hi].
  - rewrite bind_ret. destruct IH as [[-> Hl]| ->]; [left|by right].
    split; [done|]. constructor; [by left|done].
  - rewrite bind_assoc, (bind_done this _ s (sg_graph s) s) by done.
    destruct (Z.ltb_spec i 0), (Z.leb_spec (zlength (tensors_ (sg_graph s))) i); cbn [orb];
      [by right..|].
    rewrite bind_ret. destruct IH as [[-> Hl]| ->]; [left|by right].
    split; [done|]. constructor; [right; lia|done].
Qed.

(** A step after the check may use that the indices are valid. *)
Lemma grows_checked {A} l (k : unit -> M S A) :
  (forall s, Forall (tensor_index (zlength (tensors_ (sg_graph s)))) l -> grows s (snd (k tt s))) ->
  respects grows (bind (CheckTensorIndices l) k).
Proof.
  intros Hk s. destruct (CheckTensorIndices_run l s) as [[Hrun Hl]|Hrun].
  - rewrite (bind_done _ _ _ _ _ Hrun). by apply Hk.
  - rewrite (bind_fail _ _ _ _ _ Hrun). split; [intros []; by split|cbn; by_grows..].
Qed.

Lemma grows_CheckTensorIndices l : respects grows (CheckTensorIndices (P := P) (W := W) l).
Proof.
  intros s. destruct (CheckTensorIndices_run l s) as [[-> _]| ->]; [reflexivity|].
  split; [intros []; by split|cbn; by_grows..].
Qed.

Lemma grows_SetInputs l : respects grows (SetInputs (P := P) (W := W) l).
Proof. apply grows_checked. intros s Hl. split; [intros []; by split|cbn; by_grows..]. Qed.
Lemma grows_SetOutputs l : respects grows (SetOutputs (P := P) (W := W) l).
Proof. apply grows_checked. intros s Hl. split; [intros []; by split|cbn; by_grows..]. Qed.
Lemma grows_SetVariables l : respects grows (SetVariables (P := P) (W := W) l).
Proof. apply grows_checked. intros s Hl. split; [intros []; by split|cbn; by_grows..]. Qed.

Lemma grows_SetExecutionPlan plan : respects grows (SetExecutionPlan (P := P) (W := W) plan).
Proof.
  intros s. unfold SetExecutionPlan.
  assert (Hcheck : (for_each plan (fun n => let* g := this in
      ensure ((0 <=? n) && (n <? zlength (nodes_and_registration_ g)))) s = (Done tt, s) /\
      Forall (fun n => 0 <= n < zlength (nodes_and_registration_ (sg_graph s))) plan) \/
    for_each plan (fun n => let* g := this in
      ensure ((0 <=? n) && (n <? zlength (nodes_and_registration_ g)))) s = (Fail kTfLiteError, s)).
  { induction plan as [|n plan IH]; [by left|]. rewrite for_each_cons, bind_assoc.
    rewrite (bind_done this _ s (sg_graph s) s) by done.
    destruct (Z.leb_spec 0 n), (Z.ltb_spec n (zlength (nodes_and_registration_ (sg_graph s))));
      cbn [andb ensure]; [|by right..].
    rewrite bind_ret. destruct IH as [[-> Hp]| ->]; [left|by right]. split; [done|].
    by constructor. }
  destruct Hcheck as [[Hrun Hp]|Hrun]; [rewrite (bind_done _ _ _ _ _ Hrun)|rewrite (bind_fail _ _ _ _ _ Hrun)].
  - split; [intros []; by split|cbn; by_grows..].
  - reflexivity.
Qed.

Lemma grows_CheckOverlap l l' : respects grows (CheckInputAndOutputForOverlap (P := P) (W := W) l l').
Proof. unfold CheckInputAndOutputForOverlap. walk. Qed.

Lemma CheckOverlap_run l l' s :
  CheckInputAndOutputForOverlap l l' s = (Done tt, s) \/
  CheckInputAndOutputForOverlap l l' s =
    (Fail kTfLiteError, SG (sg_heap s) (set_consistent_ false (sg_graph s)) (sg_world s)).
Proof.
  assert (Hin : forall i, let c := for_each l' (fun o => if i =? o then
      upd (P := P) (W := W) (set_consistent_ false) ;;; fail kTfLiteError else ret tt) in
    c s = (Done tt, s) \/
    c s = (Fail kTfLiteError, SG (sg_heap s) (set_consistent_ false (sg_graph s)) (sg_world s))).
  { intros i c. unfold c. clear c. induction l' as [|o l' IH]; [by left|].
    rewrite for_each_cons. destruct (i =? o); [by right|]. rewrite bind_ret. exact IH. }
  unfold CheckInputAndOutputForOverlap. induction l as [|i l IH]; [by left|].
  rewrite for_each_cons. destruct (Hin i) as [H|H].
  - rewrite (bind_done _ _ _ _ _ H). exact IH.
  - rewrite (bind_fail _ _ _ _ _ H). by right.
Qed.

Lemma grows_inconsistent s :
  grows s (SG (sg_heap s) (set_consistent_ false (sg_graph s)) (sg_world s)).
Proof. split; [intros []; by split|cbn; by_grows..]. Qed.

Lemma grows_GetInputTensorsCount : respects grows (GetInputTensorsCount (P := P) (W := W)).
Proof. unfold GetInputTensorsCount, node_arrays, node_ref. walk. Qed.
#[local] Hint Resolve grows_GetInputTensorsCount grows_CheckOverlap : respects.

(** Marking an input as omitted keeps the inputs valid. *)
Lemma grows_omit_input k : respects grows (let* g := this in
  let* l := access (zinsert (inputs_ g) k kTfLiteOptionalTensor) in upd (P := P) (W := W) (set_inputs_ l)).
Proof.
  intros s. rewrite (bind_done this _ s (sg_graph s) s) by done.
  destruct (zinsert _ _ _) as [l|] eqn:Hl; [|reflexivity]. cbn [access]. rewrite bind_ret.
  split; [|cbn; by_grows..]. intros Hs.
  assert (Hnew : Forall (tensor_index (zlength (tensors_ (sg_graph s)))) l).
  { eapply Forall_zinsert; [apply Hs|by left|exact Hl]. }
  destruct Hs. by split.
Qed.
#[local] Hint Resolve grows_omit_input : respects.

Lemma grows_RemoveUnusedInputs : respects grows (RemoveUnusedInputs (P := P) (W := W)).
Proof. unfold RemoveUnusedInputs. walk. Qed.

(** *** Nodes *)

Lemma zlength_push {A} (l : list A) x : zlength (l ++ [x]) = zlength l + 1.
Proof. unfold zlength. rewrite length_app. cbn. lia. Qed.

Lemma grows_push_node ins outs ims s :
  Forall (tensor_index (zlength (tensors_ (sg_graph s)))) ins ->
  Forall (tensor_index (zlength (tensors_ (sg_graph s)))) outs ->
  exists s', push_node ins outs ims s = (Done (zlength (nodes_and_registration_ (sg_graph s))), s') /\
    grows s s' /\ zlength (nodes_and_registration_ (sg_graph s')) =
                  zlength (nodes_and_registration_ (sg_graph s)) + 1.
Proof.
  intros Hi Ho. eexists. split; [done|]. cbn. rewrite zlength_push.
  split; [|lia]. split; cbn; rewrite ?zlength_push; [|by_grows..]. intros Hs.
  apply wf_nodes; [rewrite zlength_push; lia| |done].
  apply Forall_app. split; [apply Hs|]. constructor; [|done]. split; cbn; [done|done|constructor].
Qed.

Lemma grows_finish_node n ud id ids bd reg s : 0 <= n < zlength (nodes_and_registration_ (sg_graph s)) ->
  grows s (snd (finish_node n ud id ids bd reg s)).
Proof.
  intros Hn. unfold finish_node, node_arrays, node_ref.
  rewrite bind_assoc, (bind_done this _ s (sg_graph s) s) by done.
  rewrite bind_assoc, bind_assoc, (bind_done this _ s (sg_graph s) s) by done.
  destruct ((nodes_and_registration_ (sg_graph s)).[n]) as [[nd r]|] eqn:Hnd; [|reflexivity].
  cbn [access]. rewrite bind_ret. case_bool_decide; [reflexivity|]. rewrite bind_ret. cbn [fst].
  unfold OpMightHaveSideEffect. rewrite bind_assoc, (bind_done this _ s (sg_graph s) s), bind_ret by done.
  rewrite (bind_done this _ s (sg_graph s) s) by done.
  destruct (zinsert _ _ _) as [l|] eqn:Hl; [|reflexivity]. cbn [access]. rewrite bind_ret.
  pose proof (zlength_zinsert _ _ _ _ Hl) as Hlen. split; cbn; [|by_grows..]. intros Hs.
  assert (Hwf : sg_wf (set_nodes_and_registration_ l (sg_graph s))).
  { apply wf_nodes; [lia| |done]. eapply Forall_zinsert; [apply Hs| |exact Hl]. cbn.
    destruct (Forall_zlookup _ _ _ _ (wf_nodes_ _ Hs) Hnd). by split. }
  destruct Hwf as [? ? ? ? Hp ? ?]. split; cbn; try done. cbn in Hp. apply Forall_app. split; [done|].
  constructor; [lia|done].
Qed.

Lemma grows_owning {A} p (c : M S A) : respects grows c -> respects grows (owning p c).
Proof.
  intros Hc s. unfold owning. specialize (Hc s). destruct (c s) as [[a|e|] s']; [done| |done].
  etransitivity; [exact Hc|]. cbn.
  apply (respects_bind grows (if negb (p =? 0) then on_heap (free p) else ret tt)
    (fun _ => fail (A := A) e)); [walk|]. intros. walk.
Qed.

(** The node is made of indices that have been checked. *)
Lemma grows_new_node ins outs ims id ids bd reg s :
  Forall (tensor_index (zlength (tensors_ (sg_graph s)))) ins ->
  Forall (tensor_index (zlength (tensors_ (sg_graph s)))) outs ->
  grows s (snd ((let* node_index := push_node ins outs ims in
      let* ud := (if negb (id =? 0) then OpInit reg id ids else OpInit reg bd 0) in
      if ud =? TfLiteKernelInitFailed then
        upd (fun g => set_freed_nodes_ ({[ node_index ]} ∪ freed_nodes_ g) g) ;;; fail kTfLiteError
      else finish_node node_index ud id ids bd reg ;;; ret node_index) s)).
Proof.
  intros Hi Ho. destruct (grows_push_node ins outs ims s Hi Ho) as (s2 & Hpush & Hg2 & Hlen).
  rewrite (bind_done _ _ _ _ _ Hpush). etransitivity; [exact Hg2|].
  apply moves_bind_at; [exact _|destruct (negb (id =? 0)); apply grows_OpInit|].
  intros ud s3 Hs3. assert (Hg3 : grows s2 s3).
  { replace s3 with (snd ((if negb (id =? 0) then OpInit reg id ids else OpInit reg bd 0) s2)) by (by rewrite Hs3).
    destruct (negb (id =? 0)); apply grows_OpInit. }
  destruct (ud =? TfLiteKernelInitFailed).
  - apply moves_bind_at; [exact _| |intros; reflexivity].
    split; [intros []; by split|cbn; by_grows..].
  - apply moves_bind_at; [exact _| |intros; reflexivity]. apply grows_finish_node.
    pose proof (zlength_nonneg (nodes_and_registration_ (sg_graph s))).
    pose proof (grows_nodes _ _ Hg3). lia.
Qed.

Lemma grows_AddNodeWithParameters ins outs ims id ids bd reg :
  respects grows (AddNodeWithParameters ins outs ims id ids bd reg).
Proof.
  apply grows_owning. apply respects_bind; [exact _|apply grows_this|]. intros g.
  case_bool_decide; [walk|]. apply respects_bind; [exact _|walk|]. intros [].
  apply grows_checked. intros s Hi.
  destruct (CheckTensorIndices_run outs s) as [[Hrun Ho]|Hrun];
    [|rewrite (bind_fail _ _ _ _ _ Hrun); apply grows_inconsistent].
  rewrite (bind_done _ _ _ _ _ Hrun). destruct (negb (bd =? 0)).
  - destruct (CheckOverlap_run ins outs s) as [Hov|Hov];
      [|rewrite (bind_fail _ _ _ _ _ Hov); apply grows_inconsistent].
    rewrite (bind_done _ _ _ _ _ Hov). by apply grows_new_node.
  - rewrite bind_ret. by apply grows_new_node.
Qed.
End Building.

(** What was read is known to be there. *)
Lemma respects_read {T A B} (R : T -> T -> Prop) `{!PreOrder R} (o : option A) (k : A -> M T B) :
  (forall a, o = Some a -> respects R (k a)) -> respects R (bind (access o) k).
Proof. intros Hk s. destruct o as [a|]; [by apply (Hk a)|reflexivity]. Qed.

(** ** The nodes of a partition come from the plan *)

Section PartitionNodes.
Context {SS : StdSort} (info : GraphInfo) (greedily disable : bool).
Context (types : list Partition.NodeSubsetType) (edges : list (Z * Z)).
Import Partition.

Definition subset_from (b : NodeSubset) : Prop := Forall (fun n => n ∈ gi_node_index info) (nodes b).
Definition from_plan (s s' : partitioner) : Prop :=
  Forall subset_from (node_subsets_ s) -> Forall subset_from (node_subsets_ s').

#[local] Instance from_plan_preorder : PreOrder from_plan.
Proof. split; unfold from_plan; auto. Qed.

#[local] Hint Extern 2 (respects from_plan get) => (intros ?; reflexivity) : respects.
#[local] Hint Extern 3 (respects from_plan (modify _)) => (apply respects_modify; intros ? ?; assumption) : respects.

Lemma from_update_subset k f : (forall b, subset_from b -> subset_from (f b)) ->
  respects from_plan (update_subset k f).
Proof.
  intros Hf s. unfold update_subset. rewrite bind_get.
  destruct ((node_subsets_ s).[k]) as [b|] eqn:Hb; [|reflexivity]. cbn [access]. rewrite bind_ret.
  destruct (zinsert _ _ _) as [l|] eqn:Hl; [|reflexivity]. cbn [access]. rewrite bind_ret.
  intros Hs. cbn. eapply Forall_zinsert; [exact Hs| |exact Hl].
  apply Hf. exact (Forall_zlookup _ _ _ _ Hs Hb).
Qed.

Lemma from_tensor_epoch t : respects from_plan (tensor_epoch t).
Proof. unfold tensor_epoch. walk. Qed.
Lemma from_set_tensor_epoch t e : respects from_plan (set_tensor_epoch t e).
Proof. unfold set_tensor_epoch. walk. Qed.
Lemma from_set_node_epoch n e : respects from_plan (set_node_epoch n e).
Proof. unfold set_node_epoch. walk. Qed.
Lemma from_add_incoming n d : respects from_plan (add_incoming n d).
Proof. unfold add_incoming. walk. Qed.
#[local] Hint Resolve from_tensor_epoch from_set_tensor_epoch from_set_node_epoch from_add_incoming : respects.

Lemma from_push_io t : respects from_plan (update_subset t (push_input t)).
Proof. by apply from_update_subset. Qed.

Lemma from_record_inputs e ins : respects from_plan (record_inputs e ins).
Proof. unfold record_inputs. walk; by apply from_update_subset. Qed.

Lemma from_release_edges n l : respects from_plan (release_edges n l).
Proof. induction l as [|e l IH]; cbn; walk. Qed.

Lemma from_inputs_ready l : respects from_plan (inputs_ready l).
Proof. induction l as [|t l IH]; cbn; walk. Qed.
#[local] Hint Resolve from_record_inputs from_release_edges from_inputs_ready : respects.

Lemma from_assign_node node i o e : o ∈ gi_node_index info ->
  respects from_plan (assign_node edges node i o e).
Proof.
  intros Ho. unfold assign_node, assign_outputs. walk.
  apply from_update_subset. intros b Hb. apply Forall_app. split; [done|]. by constructor.
Qed.

Lemma from_UpdateNode i : respects from_plan (UpdateNode info disable types edges i).
Proof.
  unfold UpdateNode, node_at.
  repeat match goal with
  | |- respects _ (bind (access ((gi_node_index info).[_])) _) =>
    apply respects_read; [exact _|]; intros o Ho%zlookup_elem_of
  | |- _ => progress intros
  | |- _ => walk_step
  | |- respects _ (assign_node _ _ _ _ _) => by apply from_assign_node
  | |- respects _ (update_subset _ _) => by apply from_update_subset
  | |- _ => solve [eauto 3 with respects]
  end.
Qed.
#[local] Hint Resolve from_UpdateNode : respects.

Lemma from_pass l d : respects from_plan (pass info greedily disable types edges l d).
Proof. revert d. induction l as [|i l IH]; intros d; cbn; walk; apply IH. Qed.
#[local] Hint Resolve from_pass : respects.

Lemma from_passes k : respects from_plan (passes info greedily disable types edges k).
Proof. induction k as [|k IH]; cbn; walk; apply IH. Qed.
#[local] Hint Resolve from_passes : respects.

Lemma from_set_subsets (f : list NodeSubset -> list NodeSubset) :
  (forall l, Forall subset_from l -> Forall subset_from (f l)) ->
  respects from_plan (let* s := get in set_subsets (f (node_subsets_ s))).
Proof. intros Hf s Hs. cbn. by apply Hf. Qed.

Lemma from_BuildNodeSubset : respects from_plan (BuildNodeSubset info greedily disable types edges).
Proof.
  intros s. unfold BuildNodeSubset. rewrite bind_get.
  etransitivity; [|apply from_passes]. intros Hs. cbn. apply Forall_app. split; [done|].
  constructor; [constructor|constructor].
Qed.
#[local] Hint Resolve from_BuildNodeSubset : respects.

Lemma from_epochs k : respects from_plan (epochs info greedily disable types edges k).
Proof.
  induction k as [|k IH]; [cbn; walk|]. cbn [epochs]. apply respects_bind; [exact _|walk|]. intros [] s.
  rewrite bind_get. destruct (_.[_]) as [b|]; [|reflexivity]. cbn [access]. rewrite bind_ret.
  case_bool_decide; [|apply IH]. intros Hs. cbn. by apply Forall_take.
Qed.

Lemma from_Partition s : Forall subset_from
  (node_subsets_ (snd (Partition info greedily disable types edges s))).
Proof.
  unfold Partition, initialize. rewrite !bind_assoc.
  rewrite (bind_done (put _) _ s tt (mkPartitioner []
    (replicate (Z.to_nat (num_tensors info)) kEpochAlwaysReady)
    (replicate (Z.to_nat (num_execution_nodes info)) kEpochNotReady)
    (replicate (Z.to_nat (num_execution_nodes info)) 0))) by done.
  match goal with |- Forall _ (node_subsets_ (snd (?c ?s0))) =>
    assert (Hc : respects from_plan c); [|apply (Hc s0); constructor] end.
  unfold assign_outputs, record_graph_outputs.
  repeat match goal with
  | |- respects _ (epochs _ _ _ _ _ _) => apply from_epochs
  | |- respects _ (update_subset _ _) => by apply from_update_subset
  | |- respects _ (let* s := get in set_subsets (?f <$> node_subsets_ s)) =>
    apply (from_set_subsets (fun l => f <$> l)); intros l Hl; apply Forall_fmap;
    (eapply Forall_impl; [exact Hl|]); done
  | |- _ => solve [eauto 3 with respects]
  | |- _ => progress intros
  | |- _ => walk_step
  end.
Qed.
End PartitionNodes.

Lemma partition_nodes_from `{StdSort} info ns greedily ce disable subsets :
  Partition.PartitionGraphIntoIndependentNodeSubsets info ns greedily ce disable = Done subsets ->
  Forall (subset_from info) subsets.
Proof.
  unfold Partition.PartitionGraphIntoIndependentNodeSubsets. destruct (Partition.mark_nodes _ _) as [types|]; [|done].
  destruct (Partition.Partition _ _ _ _ _ _) as [[[]|e|] s] eqn:Hp; [|done..]. intros [= <-].
  change s with (snd (Done tt, s)). rewrite <- Hp. apply from_Partition.
Qed.

(** ** Tensors, running and delegation *)

Section Operations.
Context {P W : Type} {MP : MemoryPlanner P} {NP : NewPlanner P} {MM : Malloc} {SS : StdSort}.
Abbreviation S := (sgstate P W).
Context {SB : Siblings W} {CB : Callbacks S} {CBOk : CallbacksOk CB} {MPOk : MemoryPlannerOk P}.
Implicit Types s : S.
#[local] Hint Resolve grows_ResizeTensor grows_ResizeTensorImpl grows_AddTensors grows_Cancel grows_call_init
  grows_call_free grows_call_prepare grows_call_invoke grows_call_Copy grows_call_Free
  grows_call_check grows_OpInit grows_OpPrepare grows_OpInvoke grows_OpFree
  grows_node_arrays grows_builder_function grows_CleanupNode grows_Copy grows_Free
  grows_EnsureTensorDataIsReadable grows_SetBufferHandle grows_if_planner : respects.
#[local] Hint Extern 1 (respects grows (on_planner _)) =>
  (apply grows_on_planner; first [apply PlanAllocations_framed | apply ExecuteAllocations_framed
    | apply ResetAllocations_framed | apply ResetAllocationsAfter_framed
    | apply ReleaseNonPersistentMemory_framed | apply AcquireNonPersistentMemory_framed
    | apply HasNonPersistentMemory_framed]) : respects.
#[local] Hint Extern 2 (respects grows (lift _)) => (intros ?; reflexivity) : respects.

Lemma grows_tensor i : respects grows (tensor (P := P) (W := W) i).
Proof. unfold tensor. walk. Qed.
Lemma grows_option_set f : respects grows (option_set (P := P) (W := W) f).
Proof. unfold option_set. walk. Qed.
#[local] Hint Resolve grows_tensor grows_option_set : respects.

Lemma grows_SetTensorParametersReadOnly i ty nm dims q b n a sp bi ei :
  respects grows (SetTensorParametersReadOnly (P := P) (W := W) i ty nm dims q b n a sp bi ei).
Proof. unfold SetTensorParametersReadOnly, check_tensor_index, record_external_buffer. walk. Qed.

Lemma grows_SetTensorParametersReadWrite i ty nm dims q v sig ei :
  respects grows (SetTensorParametersReadWrite (P := P) (W := W) i ty nm dims q v sig ei).
Proof. unfold SetTensorParametersReadWrite, check_tensor_index, record_external_buffer. walk. Qed.

Lemma grows_SetOptions o : respects grows (SetOptions (P := P) (W := W) o).
Proof. unfold SetOptions, OptimizeMemoryForLargeTensors. walk. Qed.

Lemma grows_ResetVariableTensors : respects grows (ResetVariableTensors (P := P) (W := W)).
Proof. unfold ResetVariableTensors. walk. Qed.

Lemma grows_ReleaseNonPersistentMemory : respects grows (ReleaseNonPersistentMemory (P := P) (W := W)).
Proof. unfold ReleaseNonPersistentMemory. walk. Qed.
#[local] Hint Resolve grows_ResetVariableTensors grows_ReleaseNonPersistentMemory : respects.

Lemma grows_ReleaseMemory : respects grows (ReleaseMemory (P := P) (W := W)).
Proof. unfold ReleaseMemory, free_dynamic, for_tensors. walk. Qed.

(** Only tensors that exist get a custom allocation. *)
Lemma grows_SetCustomAllocationForTensor i a fl :
  respects grows (SetCustomAllocationForTensor (P := P) (W := W) i a fl).
Proof.
  intros s. unfold SetCustomAllocationForTensor, tensor_ref.
  rewrite bind_assoc, (bind_done this _ s (sg_graph s) s) by done.
  destruct ((tensors_ (sg_graph s)).[i]) as [t|] eqn:Ht; [|reflexivity]. cbn [access]. rewrite bind_ret.
  apply zlookup_some in Ht as [Hr _].
  do 2 (match goal with |- context [ensure ?b] => destruct b end; [|reflexivity]; cbn [ensure]; rewrite bind_ret).
  assert (Hend : forall s1, 0 <= i < zlength (tensors_ (sg_graph s1)) -> grows s1 (snd ((upd (fun g =>
      set_custom_allocations_ (<[i := a]> (custom_allocations_ g)) g) ;;;
      set_tensor i (fun t => set_data (ca_data a) (set_allocation_type kTfLiteCustom t))) s1))).
  { intros s1 Hi. apply moves_bind_at; [exact _| |intros; apply grows_set_tensor].
    split; [|cbn; by_grows..]. intros []. split; cbn; try done. by apply map_Forall_insert_2. }
  destruct (_ =? 0); [|by apply Hend]. destruct (_ =? 0); [by apply Hend|reflexivity].
Qed.

(** *** Running *)

Lemma grows_HasDynamicTensorImpl l : respects grows (HasDynamicTensorImpl (P := P) (W := W) l).
Proof. induction l as [|i l IH]; cbn; walk. Qed.
#[local] Hint Resolve grows_HasDynamicTensorImpl : respects.

Lemma grows_HasDynamicTensor l : respects grows (HasDynamicTensor (P := P) (W := W) l).
Proof. unfold HasDynamicTensor. walk. Qed.
#[local] Hint Resolve grows_HasDynamicTensor : respects.

Lemma grows_prepare_ops plan last : respects grows (prepare_ops plan last).
Proof. revert last. induction plan as [|[k n] plan IH]; intros last; cbn; walk; apply IH. Qed.
#[local] Hint Resolve grows_prepare_ops : respects.

Lemma grows_PrepareOpsStartingAt k plan last : respects grows (PrepareOpsStartingAt k plan last).
Proof. unfold PrepareOpsStartingAt. walk. Qed.

Lemma grows_any_delegate fl l : respects grows (any_delegate fl l).
Proof. induction l as [|d l IH]; cbn; unfold TfLiteDelegateGetFlagsInternal, TfLiteDelegateIsOpaque; walk. Qed.
#[local] Hint Resolve grows_PrepareOpsStartingAt grows_any_delegate : respects.

Lemma grows_Verify i : respects grows (VerifyCustomAllocationForTensor (P := P) (W := W) i).
Proof. unfold VerifyCustomAllocationForTensor. walk. Qed.
#[local] Hint Resolve grows_Verify : respects.

Lemma grows_PrepareOpsAndTensors : respects grows PrepareOpsAndTensors.
Proof.
  unfold PrepareOpsAndTensors, prepare_original_plan, make_planner, verify_custom_allocations, for_tensors,
    ShouldPreserveAllTensors. walk.
Qed.
#[local] Hint Resolve grows_PrepareOpsAndTensors : respects.

Lemma grows_allocate_tensors : respects grows allocate_tensors.
Proof.
  unfold allocate_tensors, reuse_allocations, reallocate, InitializeTensorReleaseMap, for_plan,
    free_delegated_temporaries, if_planner. walk.
Qed.
#[local] Hint Resolve grows_allocate_tensors : respects.

Lemma grows_invoke_node k : respects grows (invoke_node k).
Proof.
  unfold invoke_node, check_input, MayAllocateOpOutput, for_tensors, check_cancellation, IsCancelled, run_node,
    force_prepare, MaybeReleaseDynamicTensors, release_dynamic, ShouldOptimizeMemoryForLargeTensors,
    ShouldReleaseDynamicTensors. walk.
Qed.
#[local] Hint Resolve grows_invoke_node : respects.

Lemma grows_Invoke : respects grows Invoke.
Proof. unfold Invoke, InvokeImpl. walk. Qed.
End Operations.

(** *** Delegation *)

Section DelegationWf.
Context {P W : Type} {MP : MemoryPlanner P} {NP : NewPlanner P} {MM : Malloc} {SS : StdSort}.
Abbreviation S := (sgstate P W).
Context {SB : Siblings W} {CB : Callbacks S} {CBOk : CallbacksOk CB} {MPOk : MemoryPlannerOk P}.
Implicit Types s : S.
#[local] Hint Resolve grows_node_arrays grows_CleanupNode grows_if_planner
  grows_AddNodeWithParameters grows_option_set grows_builder_function grows_PrepareOpsStartingAt
  grows_allocate_tensors grows_ResizeTensorImpl : respects.
#[local] Hint Extern 2 (respects grows (lift _)) => (intros ?; reflexivity) : respects.

Lemma grows_is_opaque d : respects grows (TfLiteDelegateIsOpaque (S := S) d).
Proof. unfold TfLiteDelegateIsOpaque. walk. Qed.
#[local] Hint Resolve grows_is_opaque : respects.

Lemma grows_PartitionGraph ns : respects grows (PartitionGraph (P := P) (W := W) ns).
Proof. unfold PartitionGraph, ShouldPreserveAllTensors, DisableDelegateClustering. walk. Qed.

(** [grows] for a subset whose nodes are nodes; without that, the plan may be invalid. *)
Definition grows_if (Q : Prop) (s s' : S) : Prop :=
  (Q -> sg_wf (sg_graph s) -> sg_wf (sg_graph s')) /\
  zlength (tensors_ (sg_graph s)) <= zlength (tensors_ (sg_graph s')) /\
  zlength (nodes_and_registration_ (sg_graph s)) <= zlength (nodes_and_registration_ (sg_graph s')) /\
  (consistent_ (sg_graph s) = false -> consistent_ (sg_graph s') = false) /\
  (delegates_undone_ (sg_graph s) = false -> delegates_undone_ (sg_graph s') = false).

Definition nodes_valid (k : Z) (b : Partition.NodeSubset) : Prop :=
  Forall (fun n => 0 <= n < k) (Partition.nodes b).

Lemma replace_subset_grows reg d b s :
  grows_if (nodes_valid (zlength (nodes_and_registration_ (sg_graph s))) b) s (snd (replace_subset reg d b s)).
Proof.
  unfold replace_subset. destruct (Partition.type b).
  - unfold grows_if. cbn. split_and!; [done|by_grows..].
  - assert (Hc : respects grows (let* delegate_params := create_params (P := P) (W := W) d b in
      let* node_index := AddNodeWithParameters (Partition.input_tensors b)
        (Partition.output_tensors b) [] 0 0 delegate_params reg in
      for_each (Partition.output_tensors b) (claim_tensor d) ;;;
      set_node node_index (set_node_delegate d))) by (unfold create_params, claim_tensor; walk).
    destruct (Hc s) as [? ? ? ? ?]. by split_and!.
  - unfold grows_if. cbn. split_and!; [|by_grows..]. intros Hb []. split; cbn; try done. by apply Forall_app.
Qed.

Lemma replace_subsets_grow reg d bs s :
  grows_if (Forall (nodes_valid (zlength (nodes_and_registration_ (sg_graph s)))) bs) s
    (snd (for_each bs (replace_subset reg d) s)).
Proof.
  revert s. induction bs as [|b bs IH]; intros s; [unfold grows_if; cbn; split_and!; [done|by_grows..]|].
  rewrite for_each_cons. destruct (replace_subset_grows reg d b s) as (Hwf & Ht & Hn & Hc & Hd). unfold bind.
  destruct (replace_subset reg d b s) as [[[]|e|] s1]; cbn [snd] in *; cycle 1.
  1-2: split_and!; [|by_grows..]; intros [Hb _]%Forall_cons; auto.
  destruct (IH s1) as (Hwf1 & Ht1 & Hn1 & Hc1 & Hd1). split_and!; [|by_grows..]. intros [Hb Hbs]%Forall_cons Hs.
  apply Hwf1; [|auto]. eapply Forall_impl; [exact Hbs|]. intros b' Hb'.
  eapply Forall_impl; [exact Hb'|]. cbn. lia.
Qed.

(** A partition of the plan is made of the plan's nodes. *)
Lemma PartitionGraph_run ns s subsets s' : PartitionGraph ns s = (Done subsets, s') ->
  s' = s /\ Forall (fun b => Forall (fun n => n ∈ execution_plan_ (sg_graph s)) (Partition.nodes b)) subsets.
Proof.
  unfold PartitionGraph. rewrite (bind_done this _ s (sg_graph s) s) by done.
  destruct (InterpreterInfo (sg_graph s)) as [info|] eqn:Hinfo; [|done]. cbn [access]. rewrite bind_ret.
  unfold ShouldPreserveAllTensors, DisableDelegateClustering, option_set.
  rewrite bind_assoc, (bind_done this _ s (sg_graph s) s), bind_ret by done.
  rewrite bind_assoc, (bind_done this _ s (sg_graph s) s), bind_ret by done.
  unfold lift. intros [= Hp <-]. split; [done|]. apply partition_nodes_from in Hp.
  unfold InterpreterInfo in Hinfo. destruct (mapM _ _); [|done]. injection Hinfo as <-. exact Hp.
Qed.

Lemma grows_Replace reg ns d : respects grows (ReplaceNodeSubsetsWithDelegateKernels (P := P) (W := W) reg ns d).
Proof.
  unfold ReplaceNodeSubsetsWithDelegateKernels, own_registration.
  apply respects_bind; [exact _|walk|]. intros reg'. case_bool_decide; [walk|].
  intros s. apply moves_bind_at; [exact _|apply grows_PartitionGraph|]. intros subsets s' Hrun.
  apply PartitionGraph_run in Hrun as [-> Hsub].
  set (s1 := SG (sg_heap s) (set_execution_plan_ [] (sg_graph s)) (sg_world s)).
  rewrite (bind_done (upd _) _ s tt s1) by done.
  destruct (replace_subsets_grow reg' d subsets s1) as (Hwf & Ht & Hn & Hc & Hd). split; [|done..].
  intros Hs. apply Hwf.
  - eapply Forall_impl; [exact Hsub|]. intros b Hb. eapply Forall_impl; [exact Hb|]. intros n Hn'.
    exact (proj1 (Forall_forall _ _) (wf_plan_ _ Hs) n Hn').
  - destruct Hs. by split.
Qed.

Lemma delegate_action_grows d s s' : delegate_action d s s' -> grows s s'.
Proof.
  intros [s1 H|reg ns]; [by apply context_action_grows|].
  assert (Hc : respects grows (delegate_only (P := P) (W := W) (ReplaceNodeSubsetsWithDelegateKernels reg ns d))).
  { unfold delegate_only. walk. apply grows_Replace. }
  apply Hc.
Qed.

Lemma grows_call_Prepare f d data : respects grows (call_delegate_Prepare f d data).
Proof. intros s. eapply rtc_moves; [exact _|apply delegate_action_grows|apply Prepare_acts]. Qed.
#[local] Hint Resolve grows_call_Prepare grows_PartitionGraph grows_Replace : respects.

Lemma grows_Prepare d : respects grows (TfLiteDelegatePrepareInternal (S := S) d).
Proof. unfold TfLiteDelegatePrepareInternal. walk. Qed.

(** *** Undoing: nodes are removed *)

Record stays (s s' : S) : Prop := {
  stays_wf : sg_wf (sg_graph s) -> sg_wf (sg_graph s');
  stays_stuck : consistent_ (sg_graph s) = false -> consistent_ (sg_graph s') = false }.

#[export] Instance stays_preorder : PreOrder stays.
Proof. split; [by split|]. intros s s' s'' [] []. split; auto. Qed.

Lemma grows_stays s s' : grows s s' -> stays s s'.
Proof. by intros []. Qed.

Lemma stays_grows {A} (c : M S A) : respects grows c -> respects stays c.
Proof. intros Hc s. apply grows_stays, Hc. Qed.

(** The float16 map holds tensor indices. *)
Definition map_ok (l : list Z) (s : S) : Prop := Forall (tensor_index (zlength (tensors_ (sg_graph s)))) l.

Lemma zrange_index n : Forall (tensor_index n) (zrange 0 (n - 1)).
Proof. apply Forall_forall. intros i Hi%elem_of_zrange. right. lia. Qed.

Lemma fp16_step n l s : sg_wf (sg_graph s) -> map_ok l s ->
  exists r, (let* nr := node_ref n in
    if builtin_code (snd nr) =? kTfLiteBuiltinDequantize then
      let* node := node_arrays n in
      match node_inputs node, node_outputs node with
      | [input_idx], [output_idx] =>
        let* t := tensor_ref input_idx in
        if bool_decide (t_type t = kTfLiteFloat16)
        then access (zinsert l input_idx output_idx) else ret l
      | _, _ => ret l
      end
    else ret l) s = (r, s) /\ forall l', r = Done l' -> map_ok l' s.
Proof.
  intros Hs Hl. unfold node_arrays, node_ref, tensor_ref.
  rewrite bind_assoc, (bind_done this _ s (sg_graph s) s) by done.
  destruct ((nodes_and_registration_ (sg_graph s)).[n]) as [[nd reg]|] eqn:Hn; [|by exists Undef].
  cbn [access snd]. rewrite bind_ret. destruct (builtin_code _ =? _); [|exists (Done l); by split; [|intros ? [= <-]]].
  rewrite bind_assoc, (bind_done this _ s (sg_graph s) s) by done.
  rewrite !bind_assoc, (bind_done this _ s (sg_graph s) s), Hn by done. cbn [access]. rewrite bind_ret.
  case_bool_decide; [by exists Undef|]. rewrite bind_ret. cbn [fst].
  destruct (Forall_zlookup _ _ _ _ (wf_nodes_ _ Hs) Hn) as [_ Ho _]. cbn in Ho.
  destruct (node_inputs nd) as [|i [|]], (node_outputs nd) as [|o [|]];
    try (exists (Done l); by split; [|intros ? [= <-]]).
  rewrite bind_assoc, (bind_done this _ s (sg_graph s) s) by done.
  destruct ((tensors_ (sg_graph s)).[i]) as [t|]; [|by exists Undef]. cbn [access]. rewrite bind_ret.
  case_bool_decide; [|exists (Done l); by split; [|intros ? [= <-]]].
  destruct (zinsert l i o) as [l'|] eqn:Hl'; [|by exists Undef].
  exists (Done l'). split; [done|]. intros ? [= <-].
  eapply Forall_zinsert; [exact Hl| |exact Hl']. by apply Forall_cons in Ho as [? _].
Qed.

Lemma fp16_map_run s : sg_wf (sg_graph s) ->
  exists r, fp16_map s = (r, s) /\ forall l, r = Done l -> map_ok l s.
Proof.
  intros Hs. unfold fp16_map. rewrite (bind_done this _ s (sg_graph s) s) by done.
  assert (Hl : map_ok (zrange 0 (zlength (tensors_ (sg_graph s)) - 1)) s) by apply zrange_index.
  revert Hl. generalize (zrange 0 (zlength (tensors_ (sg_graph s)) - 1)).
  induction (execution_plan_ (sg_graph s)) as [|n plan IH]; intros l Hl;
    [exists (Done l); by split; [|intros ? [= <-]]|].
  rewrite for_fold_cons. destruct (fp16_step n l s Hs Hl) as ([l'|e|] & Hrun & Hl').
  - rewrite (bind_done _ _ _ _ _ Hrun). apply IH. by apply Hl'.
  - rewrite (bind_fail _ _ _ _ _ Hrun). by eexists.
  - rewrite (bind_undef _ _ _ _ Hrun). by eexists.
Qed.

(** Remapping an input puts an index of the map into a node. *)
Definition remaps (l : list Z) (s s' : S) : Prop :=
  sg_wf (sg_graph s) -> map_ok l s -> sg_wf (sg_graph s') /\ map_ok l s' /\
    pre_delegation_execution_plan_ (sg_graph s') = pre_delegation_execution_plan_ (sg_graph s).

#[local] Instance remaps_preorder l : PreOrder (remaps l).
Proof.
  split; [by intros s|]. intros s s' s'' H1 H2 Hs Hl. destruct (H1 Hs Hl) as (Hs' & Hl' & <-).
  by apply H2.
Qed.

Lemma remaps_read {A} l (c : M S A) : (forall s, snd (c s) = s) -> respects (remaps l) c.
Proof. intros Hc s. by rewrite Hc. Qed.

Lemma node_ref_same n s : snd (node_ref (P := P) (W := W) n s) = s.
Proof. unfold node_ref. rewrite (bind_done this _ s (sg_graph s) s) by done. by destruct (_.[n]). Qed.

Lemma tensor_ref_same i s : snd (tensor_ref (P := P) (W := W) i s) = s.
Proof. unfold tensor_ref. rewrite (bind_done this _ s (sg_graph s) s) by done. by destruct (_.[i]). Qed.

Lemma node_arrays_run n s : node_arrays (P := P) (W := W) n s =
  match (nodes_and_registration_ (sg_graph s)).[n] with
  | Some nr => if bool_decide (n ∈ freed_nodes_ (sg_graph s)) then (Undef, s) else (Done (fst nr), s)
  | None => (Undef, s)
  end.
Proof.
  unfold node_arrays, node_ref. rewrite (bind_done this _ s (sg_graph s) s) by done.
  rewrite bind_assoc, (bind_done this _ s (sg_graph s) s) by done.
  destruct (_.[n]) as [nr|]; [|done]. cbn [access]. rewrite bind_ret. by case_bool_decide.
Qed.

Lemma set_node_pre_plan n f s :
  pre_delegation_execution_plan_ (sg_graph (snd (set_node (P := P) (W := W) n f s))) =
  pre_delegation_execution_plan_ (sg_graph s).
Proof.
  unfold set_node. destruct s as [h g w]. unfold bind, this, node_ref. cbn.
  destruct ((nodes_and_registration_ g).[n]) as [[nd reg]|]; [|done]. cbn.
  by destruct (zinsert _ n _).
Qed.

Lemma map_ok_grows l s s' : grows s s' -> map_ok l s -> map_ok l s'.
Proof.
  intros Hg Hl. eapply Forall_impl; [exact Hl|]. intros i. apply tensor_index_le, (grows_tensors _ _ Hg).
Qed.

Lemma remaps_remap_input l n k i : respects (remaps l) (remap_input (P := P) (W := W) l n k i).
Proof.
  unfold remap_input. destruct (i =? kTfLiteOptionalTensor); [apply respects_ret; exact _|].
  apply respects_bind; [exact _|apply remaps_read, tensor_ref_same|]. intros t.
  case_bool_decide; [|apply respects_ret; exact _].
  apply respects_read; [exact _|]. intros o Ho s.
  unfold bind at 1. rewrite node_arrays_run.
  destruct ((nodes_and_registration_ (sg_graph s)).[n]) as [nr|] eqn:Hn; [|reflexivity].
  case_bool_decide; [reflexivity|].
  destruct (zinsert (node_inputs (fst nr)) k o) as [l'|] eqn:Hl'; [|reflexivity]. cbn [access]. rewrite bind_ret.
  intros Hs Hl. assert (Hg : grows s (snd (set_node n (set_node_inputs l') s))).
  { apply grows_set_node_at. intros nd []. split; try done. cbn.
    destruct (Forall_zlookup _ _ _ _ (wf_nodes_ _ Hs) Hn) as [Hi _ _].
    eapply Forall_zinsert; [exact Hi| |exact Hl']. exact (Forall_zlookup _ _ _ _ Hl Ho). }
  split_and!; [by apply (grows_wf _ _ Hg)|by eapply map_ok_grows|].
  apply set_node_pre_plan.
Qed.

Lemma remaps_remap_fp16 l : respects (remaps l) (remap_fp16 (P := P) (W := W) l).
Proof.
  unfold remap_fp16, for_plan. apply respects_bind; [exact _|by intros s|]. intros g.
  apply respects_for_each; [exact _|]. intros n.
  apply respects_bind; [exact _|apply remaps_read, node_ref_same|]. intros nr.
  destruct (_ =? _); [apply respects_ret; exact _|].
  apply respects_bind; [exact _| |].
  - apply remaps_read. intros s. rewrite node_arrays_run. destruct (_.[n]); [|done]. by case_bool_decide.
  - intros node. apply respects_for_each; [exact _|]. intros [k i]. apply remaps_remap_input.
Qed.

Lemma fold_max_le l a : a <= fold_left Z.max l a /\ Forall (fun n => n <= fold_left Z.max l a) l.
Proof.
  revert a. induction l as [|x l IH]; intros a; cbn; [by split; [lia|]|].
  destruct (IH (Z.max a x)) as [H1 H2]. split; [lia|]. constructor; [lia|exact H2].
Qed.

(** Removing the nodes behind the last one of the plan, when the old plan is the only one. *)
Lemma wf_shrink (g : Subgraph P) : sg_wf g -> pre_delegation_execution_plan_ g = [] ->
  sg_wf (set_nodes_and_registration_ (zresize (nodes_and_registration_ g)
    (fold_left Z.max (execution_plan_ g) 0 + 1) (node_zero, OpResolver.registration_zero)) g).
Proof.
  intros [Hi Ho Hv Hn Hp Hpp Hc] Hpre. destruct (fold_max_le (execution_plan_ g) 0) as [Hm Hmax].
  split; cbn; try done.
  - unfold zresize. apply Forall_app. split; [by apply Forall_take|]. apply Forall_replicate.
    split; cbn; constructor.
  - rewrite zlength_zresize by lia. apply Forall_forall. intros n Hn'.
    pose proof (proj1 (Forall_forall _ _) Hp n Hn'). pose proof (proj1 (Forall_forall _ _) Hmax n Hn').
    cbn in *. lia.
  - rewrite Hpre. constructor.
Qed.

Lemma UndoAllDelegates_wf s : sg_wf (sg_graph s) -> sg_wf (sg_graph (snd (UndoAllDelegates s))).
Proof.
  intros Hs. unfold UndoAllDelegates. rewrite (bind_done this _ s (sg_graph s) s) by done.
  case_bool_decide; [done|].
  assert (Hclean : respects grows (for_plan (P := P) (W := W) (fun n => let* nr := node_ref n in
    if node_delegate (fst nr) =? 0 then ret tt else CleanupNode n))) by (unfold for_plan; walk).
  specialize (Hclean s). unfold bind at 1. destruct (for_plan _ s) as [[[]|e|] s1]; cbn [snd] in Hclean;
    [|exact (grows_wf _ _ Hclean Hs)..].
  pose proof (grows_wf _ _ Hclean Hs) as Hs1. pose proof (grows_nodes _ _ Hclean) as Hn1.
  set (plan := pre_delegation_execution_plan_ (sg_graph s)) in *.
  set (s2 := SG (sg_heap s1) (set_pre_delegation_execution_plan_ []
               (set_execution_plan_ plan (sg_graph s1))) (sg_world s1)).
  assert (Hs2 : sg_wf (sg_graph s2)).
  { destruct Hs1. split; cbn; try done. eapply Forall_impl; [apply (wf_pre_plan_ _ Hs)|]. cbn. lia. }
  rewrite (bind_done (upd (set_execution_plan_ plan)) _ s1 tt
    (SG (sg_heap s1) (set_execution_plan_ plan (sg_graph s1)) (sg_world s1))) by done.
  rewrite (bind_done (upd (set_pre_delegation_execution_plan_ [])) _ _ tt s2) by done.
  destruct (fp16_map_run s2 Hs2) as ([l|e|] & Hrun & Hl);
    [|by rewrite (bind_fail _ _ _ _ _ Hrun)|by rewrite (bind_undef _ _ _ _ Hrun)].
  rewrite (bind_done _ _ _ _ _ Hrun).
  destruct (remaps_remap_fp16 l s2 Hs2 (Hl _ eq_refl)) as (Hs3 & _ & Hpre).
  unfold bind at 1. destruct (remap_fp16 l s2) as [[[]|e|] s3]; cbn [snd] in Hs3, Hpre; [|exact Hs3..].
  pose proof (wf_shrink _ Hs3 Hpre) as []. split; assumption.
Qed.

Definition stuck (s s' : S) : Prop :=
  consistent_ (sg_graph s) = false -> consistent_ (sg_graph s') = false.

#[local] Instance stuck_preorder : PreOrder stuck.
Proof. split; unfold stuck; auto. Qed.

Lemma stuck_grows {A} (c : M S A) : respects grows c -> respects stuck c.
Proof. intros Hc s. exact (grows_stuck _ _ (Hc s)). Qed.

Lemma stuck_set_node n f : respects stuck (set_node (P := P) (W := W) n f).
Proof.
  intros s. unfold stuck, set_node. destruct s as [h g w]. unfold bind, this, node_ref. cbn.
  destruct ((nodes_and_registration_ g).[n]) as [[nd reg]|]; [|done]. cbn. by destruct (zinsert _ n _).
Qed.
#[local] Hint Resolve stuck_set_node : respects.
Lemma stuck_reset_siblings : respects stuck (reset_siblings (P := P) (W := W)).
Proof. apply respects_modify. intros s. exact id. Qed.
#[local] Hint Resolve stuck_reset_siblings : respects.
#[local] Hint Extern 3 (respects stuck (upd _)) => (apply respects_modify; intros ?; exact id) : respects.
#[local] Hint Extern 5 (respects stuck _) => (apply stuck_grows) : respects.

Lemma UndoAllDelegates_stuck : respects stuck (UndoAllDelegates (P := P) (W := W)).
Proof. unfold UndoAllDelegates, fp16_map, remap_fp16, remap_input, for_plan, tensor_ref. walk. Qed.

Lemma stays_UndoAllDelegates : respects stays (UndoAllDelegates (P := P) (W := W)).
Proof. intros s. split; [apply UndoAllDelegates_wf|apply UndoAllDelegates_stuck]. Qed.
#[local] Hint Resolve stays_UndoAllDelegates : respects.
#[local] Hint Extern 5 (respects stays _) => (apply stays_grows) : respects.

Lemma stays_ResizeInputTensor i dims rank : respects stays (ResizeInputTensor (P := P) (W := W) i dims rank).
Proof. unfold ResizeInputTensor, check_tensor_index, tensor_ref. walk. Qed.

Lemma stays_ResizeInputTensorStrict i dims : respects stays (ResizeInputTensorStrict (P := P) (W := W) i dims).
Proof. unfold ResizeInputTensorStrict, check_tensor_index, tensor_ref. walk. apply stays_ResizeInputTensor. Qed.
End DelegationWf.

(** *** Allocating and applying delegates *)

Section RedoWf.
Context {P W : Type} {MP : MemoryPlanner P} {NP : NewPlanner P} {MM : Malloc} {SS : StdSort}.
Abbreviation S := (sgstate P W).
Context {SB : Siblings W} {CB : Callbacks S} {CBOk : CallbacksOk CB} {MPOk : MemoryPlannerOk P}.
Implicit Types s : S.
#[local] Hint Extern 5 (respects stays _) => (apply stays_grows) : respects.
#[local] Hint Resolve stays_UndoAllDelegates grows_allocate_tensors grows_PrepareOpsStartingAt
  grows_is_opaque grows_Prepare grows_this grows_if_planner grows_node_ref : respects.
#[local] Hint Extern 1 (respects grows (on_planner _)) =>
  (apply grows_on_planner; apply PlanAllocations_framed) : respects.

Lemma grows_all_delegated plan : respects grows (all_delegated (P := P) (W := W) plan).
Proof. induction plan as [|n plan IH]; cbn; walk. Qed.

Lemma grows_IsFullyDelegated : respects grows (IsFullyDelegated (P := P) (W := W)).
Proof. unfold IsFullyDelegated. walk. apply grows_all_delegated. Qed.

Lemma grows_flags d : respects grows (TfLiteDelegateGetFlagsInternal (S := S) d).
Proof. unfold TfLiteDelegateGetFlagsInternal. walk. Qed.

Lemma grows_Switch : respects grows (SwitchToDelegateContext (P := P) (W := W)) /\
  respects grows (SwitchToKernelContext (P := P) (W := W)).
Proof. unfold SwitchToDelegateContext, SwitchToKernelContext. split; walk. Qed.

(** The first delegate keeps the plan it found. *)
Lemma stays_keep_plan {A} (k : unit -> M S A) : (forall u, respects stays (k u)) ->
  respects stays (let* g := this in
    bind (if bool_decide (delegates_applied_ g = [])
          then upd (set_pre_delegation_execution_plan_ (execution_plan_ g)) else ret tt) k).
Proof.
  intros Hk s. rewrite (bind_done this _ s (sg_graph s) s) by done.
  apply moves_bind_at; [exact _| |intros u s' _; apply Hk].
  case_bool_decide; [|reflexivity]. split; [intros []; by split|done].
Qed.
#[local] Hint Resolve grows_IsFullyDelegated grows_flags : respects.

Section Body.
Context (Redo : M S unit) (HRedo : respects stays Redo).
#[local] Hint Resolve HRedo : respects.

Lemma stays_AllocateTensors : respects stays (AllocateTensors Redo).
Proof. unfold AllocateTensors. walk. Qed.
#[local] Hint Resolve stays_AllocateTensors : respects.

Lemma stays_EnsureMemoryAllocations : respects stays (EnsureMemoryAllocations Redo).
Proof. unfold EnsureMemoryAllocations, if_planner. walk. Qed.
#[local] Hint Resolve stays_EnsureMemoryAllocations : respects.

Lemma stays_RemoveAllDelegates : respects stays (RemoveAllDelegates Redo).
Proof. unfold RemoveAllDelegates. walk. Qed.
#[local] Hint Resolve stays_RemoveAllDelegates : respects.

Lemma stays_reset_delegation st : respects stays (reset_delegation_if_not_ok Redo st).
Proof. unfold reset_delegation_if_not_ok. walk. Qed.
#[local] Hint Resolve stays_reset_delegation : respects.

Lemma stays_finish_delegation sd h st : respects stays (finish_delegation Redo sd h st).
Proof. unfold finish_delegation. walk. Qed.

Lemma stays_prepare_for_delegation sd h : respects stays (prepare_for_delegation Redo sd h).
Proof. unfold prepare_for_delegation. walk. Qed.
#[local] Hint Resolve stays_finish_delegation stays_prepare_for_delegation : respects.

Lemma stays_ModifyGraphImpl d : respects stays (ModifyGraphWithDelegateImpl Redo d).
Proof.
  unfold ModifyGraphWithDelegateImpl, SwitchToDelegateContext, SwitchToKernelContext.
  destruct (d =? 0); [walk|]. apply respects_bind; [exact _|walk|intros _].
  apply respects_bind; [exact _|walk|intros flags].
  apply respects_bind; [exact _|walk|intros g].
  apply respects_bind; [exact _|walk|intros _].
  apply stays_keep_plan. walk.
Qed.
End Body.

Lemma stays_RedoAllDelegates fuel : respects stays (RedoAllDelegates fuel).
Proof.
  induction fuel as [|fuel IH]; cbn [RedoAllDelegates]; walk. by apply stays_ModifyGraphImpl.
Qed.
End RedoWf.
