(* ===== verification/SubgraphInlineWf.v ===== *)
(** * Subgraphs: inlining keeps indices valid

    Inlining composites adds tensors and nodes and edits the plan: the indices a subgraph keeps stay
    valid, whatever the decompositions and wherever it fails. *)
From Stdlib Require Import String.
From stdpp Require Import strings.
From S2P Require Import Prelude Heap Common Util TensorClone MemoryPlanner Callbacks Subgraph.
From S2P Require Import SubgraphRun SubgraphDelegate SubgraphInline SubgraphWf.
#[local] Open Scope Z_scope.

Section InlineWf.
Context {P W : Type} {MP : MemoryPlanner P} {NP : NewPlanner P} {MM : Malloc} {SS : StdSort}.
Abbreviation S := (sgstate P W).
Context {SB : Siblings W} {DC : Decompositions P W} {CB : Callbacks S} {CBOk : CallbacksOk CB} {MPOk : MemoryPlannerOk P}.
Implicit Types s : S.
#[local] Hint Resolve grows_AddNodeWithParameters grows_AddTensors grows_node_arrays grows_option_set
  stays_UndoAllDelegates stays_RedoAllDelegates grows_allocate_tensors grows_IsFullyDelegated : respects.
#[local] Hint Extern 5 (respects stays _) => (apply stays_grows) : respects.

(** A new node has the index that is returned. *)
Lemma AddNode_index ins outs ims id ids bd reg s n s' :
  AddNodeWithParameters ins outs ims id ids bd reg s = (Done n, s') -> 0 <= n < zlength (nodes_and_registration_ (sg_graph s')).
Proof.
  unfold AddNodeWithParameters, owning. match goal with |- context [let '(_, _) := ?c s in _] => set (run := c) end.
  intros Hrun. assert (Hr : run s = (Done n, s')).
  { destruct (run s) as [[a|e|] s1]; [exact Hrun| |done]. exfalso. revert Hrun. unfold bind. by destruct (_ s1) as [[]]. }
  clear Hrun. revert Hr. unfold run. clear run. intros (g & s1 & _ & Hr)%bind_inv. case_bool_decide; [done|].
  do 4 (apply bind_inv in Hr as ([] & ? & _ & Hr)). apply bind_inv in Hr as (k & s2 & Hpush & Hr).
  apply bind_inv in Hr as (ud & s3 & Hinit & Hr). destruct (ud =? _); [by apply bind_inv in Hr as ([] & ? & _ & Hr)|].
  apply bind_inv in Hr as ([] & s4 & Hfin & [= <- <-]).
  assert (Hk : 0 <= k < zlength (nodes_and_registration_ (sg_graph s2))).
  { unfold push_node in Hpush. apply bind_inv in Hpush as (g' & s5 & [= <- <-] & Hpush).
    apply bind_inv in Hpush as ([] & s6 & [= <-] & [= <- <-]). cbn. rewrite zlength_push.
    match goal with |- _ <= zlength ?l < _ => pose proof (zlength_nonneg l) end. lia. }
  assert (H3 : grows s2 s3).
  { replace s3 with (snd ((if negb (id =? 0) then OpInit reg id ids else OpInit reg bd 0) s2)) by (by rewrite Hinit).
    destruct (negb (id =? 0)); apply grows_OpInit. }
  pose proof (grows_nodes _ _ H3). assert (H4 : grows s3 s4).
  { replace s4 with (snd (finish_node k ud id ids bd reg s3)) by (by rewrite Hfin). apply grows_finish_node. lia. }
  pose proof (grows_nodes _ _ H4). lia.
Qed.

Lemma grows_drop_last : respects grows (upd (P := P) (W := W) (fun g => set_execution_plan_ (removelast (execution_plan_ g)) g)).
Proof.
  apply respects_modify. intros s. split; [|cbn; by_grows..]. intros [? ? ? ? Hp ? ?]. split; cbn; try done.
  revert Hp. generalize (execution_plan_ (sg_graph s)). intros l.
  induction l as [|x [|y l] IH]; cbn; intros Hl; [done|constructor|]. apply Forall_cons in Hl as [Hx Hl]. constructor; [done|by apply IH].
Qed.
#[local] Hint Resolve grows_drop_last : respects.

Lemma grows_clone_node sub off im om n : respects grows (clone_node sub off im om n).
Proof. unfold clone_node. walk. Qed.

Lemma clone_node_index sub off im om n s c s' : clone_node sub off im om n s = (Done c, s') ->
  0 <= c < zlength (nodes_and_registration_ (sg_graph s')).
Proof.
  unfold clone_node. intros ([nd reg] & s1 & _ & H)%bind_inv. apply bind_inv in H as (p & s2 & _ & H).
  apply bind_inv in H as ([] & s3 & _ & H). apply bind_inv in H as (k & s4 & Hadd%AddNode_index & H).
  apply bind_inv in H as ([] & s5 & [= <-] & [= <- <-]). exact Hadd.
Qed.

Lemma grows_clone_tensors l : respects grows (clone_tensors (W := W) l).
Proof. unfold clone_tensors. walk. Qed.

(** The indices of the copies are those of nodes, now and later. *)
Lemma clone_nodes_leaves sub off im om plan s0 :
  leaves (fun s => grows s0 s) (for_fold plan [] (fun plan n => let* c := clone_node sub off im om n in ret (plan ++ [c])))
    (fun l s => grows s0 s /\ Forall (fun n => 0 <= n < zlength (nodes_and_registration_ (sg_graph s))) l) (grows s0).
Proof.
  cut (forall l, leaves (fun s => grows s0 s /\ Forall (fun n => 0 <= n < zlength (nodes_and_registration_ (sg_graph s))) l)
    (for_fold plan l (fun plan n => let* c := clone_node sub off im om n in ret (plan ++ [c])))
    (fun l s => grows s0 s /\ Forall (fun n => 0 <= n < zlength (nodes_and_registration_ (sg_graph s))) l) (grows s0)).
  { intros H s Hs. by apply (H []). }
  induction plan as [|n plan IH]; intros l s [Hs Hl]; [by split|]. rewrite for_fold_cons, bind_assoc.
  pose proof (grows_clone_node sub off im om n s) as Hg. unfold bind at 1.
  destruct (clone_node sub off im om n s) as [[c|e|] s1] eqn:Hc; cbn [snd] in Hg; [|by etransitivity|by etransitivity].
  rewrite bind_ret. apply IH. split; [by etransitivity|]. apply Forall_app. split.
  - eapply Forall_impl; [exact Hl|]. cbn. pose proof (grows_nodes _ _ Hg). lia.
  - constructor; [by eapply clone_node_index|done].
Qed.

Lemma grows_decomposition i : respects grows (decomposition i).
Proof.
  intros s. unfold decomposition. destruct (_ <? _); [|reflexivity]. cbn [ensure]. rewrite bind_ret.
  destruct (_ =? _); [reflexivity|]. by destruct (subgraph_at _ _).
Qed.

Lemma grows_tensor_map keys values : respects grows (tensor_map (P := P) (W := W) keys values).
Proof. unfold tensor_map. walk. Qed.
#[local] Hint Resolve grows_clone_tensors grows_decomposition grows_tensor_map : respects.

Lemma grows_ReplaceNode k n i : respects grows (ReplaceNodeWithSubgraph k n i).
Proof.
  unfold ReplaceNodeWithSubgraph. do 5 (apply respects_bind; [exact _|walk|intros ?]). intros s.
  unfold bind at 1. match goal with |- context [for_fold ?p [] ?b s] =>
    pose proof (clone_nodes_leaves a a3 a1 a2 p s s ltac:(reflexivity)) as Hc; destruct (for_fold p [] b s) as [[l|e|] s1] end; [|exact Hc..].
  destruct Hc as [Hg Hl]. etransitivity; [exact Hg|]. rewrite (bind_done this _ s1 (sg_graph s1) s1) by done.
  destruct (_ || _); [reflexivity|]. rewrite bind_ret. split; cbn; [|by_grows..].
  intros [? ? ? ? Hp ? ?]. split; cbn; try done. apply Forall_app. split; [by apply Forall_take|].
  apply Forall_app. split; [done|by apply Forall_drop].
Qed.
#[local] Hint Resolve grows_ReplaceNode : respects.

Lemma grows_composite_subgraph p : respects grows (composite_subgraph (P := P) (W := W) p).
Proof. unfold composite_subgraph. walk. Qed.
#[local] Hint Resolve grows_composite_subgraph : respects.

Lemma grows_inline_from fuel cs : forall k, respects grows (inline_from fuel cs k).
Proof. induction fuel as [|fuel IH]; intros k; cbn [inline_from]; walk. Qed.
#[local] Hint Resolve grows_inline_from : respects.

Lemma stays_InlineCompositeNodes rounds redo : respects stays redo -> respects stays (InlineCompositeNodes rounds redo).
Proof.
  intros Hr. assert (Hc : respects grows (composite_nodes (P := P) (W := W))) by (unfold composite_nodes; walk).
  induction rounds as [|rounds IH]; cbn [InlineCompositeNodes]; walk.
Qed.

Lemma stays_inline_composites : respects stays inline_composites.
Proof. intros s. apply stays_InlineCompositeNodes, stays_RedoAllDelegates. Qed.
#[local] Hint Resolve stays_inline_composites : respects.

Lemma stays_AllocateTensors_all : respects stays AllocateTensors_all.
Proof. unfold AllocateTensors_all. walk. Qed.
End InlineWf.

(** ** Graphs in which nothing is inlined *)

Definition inlining_on (opts : option InterpreterOptions) : bool :=
  match opts with Some o => shlo_composite_inlining_ o | None => false end.

(** There is no composite in the plan. *)
Definition no_composites {P : Type} (g : Subgraph P) : Prop :=
  Forall (fun n => exists nr, (nodes_and_registration_ g).[n] = Some nr /\ is_composite nr = false)
    (execution_plan_ g).

(** The options do not ask for inlining, or there is nothing to inline. *)
Definition inlines_nothing {P : Type} (g : Subgraph P) : Prop :=
  inlining_on (options_ g) = false \/ no_composites g.

Section NoInlining.
Context {P W : Type} {MP : MemoryPlanner P} {NP : NewPlanner P} {MM : Malloc} {SS : StdSort}.
Abbreviation S := (sgstate P W).
Context {SB : Siblings W} {DC : Decompositions P W} {CB : Callbacks S}.
Implicit Types s : S.

Lemma node_ref_done n nr s : (nodes_and_registration_ (sg_graph s)).[n] = Some nr -> node_ref n s = (Done nr, s).
Proof. intros Hn. unfold node_ref. rewrite (bind_done this _ s (sg_graph s) s) by done. by rewrite Hn. Qed.

Lemma composite_nodes_none s : no_composites (sg_graph s) -> composite_nodes s = (Done [], s).
Proof.
  intros Hc. unfold composite_nodes. rewrite (bind_done this _ s (sg_graph s) s) by done.
  unfold no_composites in Hc. induction (execution_plan_ (sg_graph s)) as [|n plan IH]; [done|].
  apply Forall_cons in Hc as [(nr & Hn & Hnr) Hc]. rewrite for_fold_cons, bind_assoc.
  rewrite (bind_done _ _ _ _ _ (node_ref_done _ _ _ Hn)), Hnr. by apply IH.
Qed.

Lemma inline_composites_none s : no_composites (sg_graph s) -> inline_composites s = (Done tt, s).
Proof.
  intros Hc. unfold inline_composites. generalize (Z.to_nat (subgraphs_size (sg_world s))).
  intros rounds. destruct rounds; cbn [InlineCompositeNodes]; by rewrite (bind_done _ _ _ _ _ (composite_nodes_none s Hc)).
Qed.

Lemma IsFullyDelegated_done s : no_composites (sg_graph s) -> exists b, IsFullyDelegated s = (Done b, s).
Proof.
  intros Hc. unfold IsFullyDelegated. rewrite (bind_done this _ s (sg_graph s) s) by done.
  unfold no_composites in Hc. induction (execution_plan_ (sg_graph s)) as [|n plan IH]; [by eexists|].
  apply Forall_cons in Hc as [(nr & Hn & _) Hc]. cbn [all_delegated].
  rewrite (bind_done _ _ _ _ _ (node_ref_done _ _ _ Hn)). destruct (_ =? 0); [by eexists|]. by apply IH.
Qed.

(** The allocation from the point where the delegates are applied. *)
Definition inline_and_allocate : M S unit :=
  let* b := option_set shlo_composite_inlining_ in
  let* g := this in
  (if b && negb (is_delegation_skippable_ g) then
     let* d := IsFullyDelegated in if d then ret tt else inline_composites
   else ret tt) ;;;
  allocate_tensors.

Lemma inline_nothing_run s : inlines_nothing (sg_graph s) -> inline_and_allocate s = allocate_tensors s.
Proof.
  intros Hn. unfold inline_and_allocate. rewrite (bind_done (option_set _) _ s (inlining_on (options_ (sg_graph s))) s) by done.
  rewrite (bind_done this _ s (sg_graph s) s) by done. destruct Hn as [->|Hc]; [done|].
  destruct (_ && _); [|done]. destruct (IsFullyDelegated_done s Hc) as [b Hb]. rewrite bind_assoc, (bind_done _ _ _ _ _ Hb).
  destruct b; [done|]. by rewrite (bind_done _ _ _ _ _ (inline_composites_none s Hc)).
Qed.

(** Where no delegates wait to be applied again, the two strategies are the same. *)
Lemma AllocateTensors_all_plain s : delegates_undone_ (sg_graph s) = false -> inlines_nothing (sg_graph s) ->
  AllocateTensors_all s = AllocateTensors (RedoAllDelegates redo_fuel) s.
Proof.
  intros Hun Hn. unfold AllocateTensors_all, AllocateTensors. rewrite !(bind_done this _ s (sg_graph s) s) by done.
  destruct (negb _); [done|]. assert (Hredo : RedoAllDelegates redo_fuel s = (Done tt, s)).
  { unfold redo_fuel, RedoAllDelegates. rewrite (bind_done this _ s (sg_graph s) s) by done. by rewrite Hun. }
  rewrite !(bind_done _ _ _ _ _ Hredo). exact (inline_nothing_run s Hn).
Qed.
End NoInlining.
