(* ===== verification/SubgraphSteps.v ===== *)
(** * Subgraphs: the interface as a whole

    A client of a subgraph makes a sequence of the operations of its interface; whatever they
    return, the indices the subgraph keeps are valid, and a graph that was marked
    inconsistent is never allocated or run. *)
From Stdlib Require Import String.
From stdpp Require Import strings.
From S2P Require Import Prelude Heap Common Util GraphInfo MemoryPlanner Callbacks Subgraph.
From S2P Require Import SubgraphRun SubgraphDelegate SubgraphInline SubgraphWf SubgraphInlineWf.
From S2P Require OpResolver Partition SimplePlanner ArenaPlanner ArenaInstance.
#[local] Open Scope Z_scope.

(** ** The operations *)

Inductive operation :=
  | op_SetInputs (l : list Z) | op_SetOutputs (l : list Z) | op_SetVariables (l : list Z)
  | op_AddTensors (n : Z) | op_SetExecutionPlan (plan : list Z) | op_RemoveUnusedInputs
  | op_AddNodeWithParameters (inputs outputs intermediates : list Z)
      (init_data init_data_size builtin_data : Z) (reg : TfLiteRegistration)
  | op_SetTensorParametersReadOnly (i : Z) (type : TfLiteType) (name : option string)
      (dims : list Z) (quantization : TfLiteQuantization) (buffer bytes allocation : Z)
      (sparsity : option TfLiteSparsity) (buffer_identifier external_buffer_id : Z)
  | op_SetTensorParametersReadWrite (i : Z) (type : TfLiteType) (name : option string)
      (dims : list Z) (quantization : TfLiteQuantization) (is_variable : bool)
      (dims_signature : list Z) (external_buffer_id : Z)
  | op_SetOptions (options : option InterpreterOptions)
  | op_SetCustomAllocationForTensor (i : Z) (allocation : TfLiteCustomAllocation) (flags : Z)
  | op_ResizeInputTensor (i : Z) (dims : option (list Z)) (rank : Z)
  | op_ResizeInputTensorStrict (i : Z) (dims : list Z)
  | op_AllocateTensors | op_EnsureMemoryAllocations | op_ResetVariableTensors
  | op_ReleaseNonPersistentMemory | op_ReleaseMemory
  | op_ModifyGraphWithDelegate (delegate : Z) | op_RemoveAllDelegates
  | op_PreviewDelegatePartitioning (nodes_to_replace : list Z)
  | op_SetBufferHandle (i handle delegate : Z) (release_existing : bool)
  | op_EnsureTensorDataIsReadable (i : Z)
  | op_SetCancellationFunction (data : Z) (check_cancelled_func : option Z)
  | op_EnableCancellation (flag : option bool) | op_Cancel
  | op_Invoke.

Section Steps.
Context {P W : Type} {MP : MemoryPlanner P} {NP : NewPlanner P} {MM : Malloc} {SS : StdSort}.
Abbreviation S := (sgstate P W).
Context {SB : Siblings W} {DC : Decompositions P W} {CB : Callbacks S}.

Definition run_op (op : operation) : M S unit :=
  match op with
  | op_SetInputs l => SetInputs l
  | op_SetOutputs l => SetOutputs l
  | op_SetVariables l => SetVariables l
  | op_AddTensors n => AddTensors n ;;; ret tt
  | op_SetExecutionPlan plan => SetExecutionPlan plan
  | op_RemoveUnusedInputs => RemoveUnusedInputs
  | op_AddNodeWithParameters ins outs ims id ids bd reg =>
    AddNodeWithParameters ins outs ims id ids bd reg ;;; ret tt
  | op_SetTensorParametersReadOnly i ty nm dims q b n a sp bi ei =>
    SetTensorParametersReadOnly i ty nm dims q b n a sp bi ei
  | op_SetTensorParametersReadWrite i ty nm dims q v sig ei =>
    SetTensorParametersReadWrite i ty nm dims q v sig ei
  | op_SetOptions o => SetOptions o
  | op_SetCustomAllocationForTensor i a flags => SetCustomAllocationForTensor i a flags
  | op_ResizeInputTensor i dims rank => ResizeInputTensor i dims rank
  | op_ResizeInputTensorStrict i dims => ResizeInputTensorStrict i dims
  | op_AllocateTensors => AllocateTensors_all
  | op_EnsureMemoryAllocations => EnsureMemoryAllocations (RedoAllDelegates redo_fuel)
  | op_ResetVariableTensors => ResetVariableTensors
  | op_ReleaseNonPersistentMemory => ReleaseNonPersistentMemory
  | op_ReleaseMemory => ReleaseMemory
  | op_ModifyGraphWithDelegate d => ModifyGraphWithDelegate d
  | op_RemoveAllDelegates => RemoveAllDelegates_all
  | op_PreviewDelegatePartitioning ns => PreviewDelegatePartitioning ns ;;; ret tt
  | op_SetBufferHandle i h d r => SetBufferHandle i h d r
  | op_EnsureTensorDataIsReadable i => EnsureTensorDataIsReadable i
  | op_SetCancellationFunction data f => SetCancellationFunction data f
  | op_EnableCancellation flag => EnableCancellation flag
  | op_Cancel => Cancel
  | op_Invoke => Invoke
  end.

(** The state after a sequence of operations, whatever each of them returned. *)
Definition run_ops (ops : list operation) (s : S) : S :=
  fold_left (fun s op => snd (run_op op s)) ops s.

Context {CBOk : CallbacksOk CB} {MPOk : MemoryPlannerOk P}.
#[local] Hint Resolve grows_SetInputs grows_SetOutputs grows_SetVariables grows_AddTensors
  grows_SetExecutionPlan grows_RemoveUnusedInputs grows_AddNodeWithParameters
  grows_SetTensorParametersReadOnly grows_SetTensorParametersReadWrite grows_SetOptions
  grows_SetCustomAllocationForTensor grows_ResetVariableTensors grows_ReleaseNonPersistentMemory
  grows_ReleaseMemory grows_PartitionGraph grows_SetBufferHandle grows_EnsureTensorDataIsReadable
  grows_Cancel grows_Invoke stays_ResizeInputTensor stays_ResizeInputTensorStrict
  stays_AllocateTensors_all stays_EnsureMemoryAllocations stays_ModifyGraphImpl
  stays_RemoveAllDelegates stays_RedoAllDelegates : respects.
#[local] Hint Extern 5 (respects stays _) => (apply stays_grows) : respects.

Lemma stays_run_op op : respects stays (run_op op).
Proof.
  destruct op; cbn [run_op];
    unfold ModifyGraphWithDelegate, RemoveAllDelegates_all,
      PreviewDelegatePartitioning, SetCancellationFunction, EnableCancellation; walk.
Qed.

Lemma stays_run_ops ops s : stays s (run_ops ops s).
Proof.
  revert s. induction ops as [|op ops IH]; intros s; [reflexivity|].
  etransitivity; [apply stays_run_op|apply IH].
Qed.

Lemma sg_wf_init : sg_wf (Subgraph_init (P := P)).
Proof. split; cbn; [constructor..|apply map_Forall_empty]. Qed.

(** C11. Whatever sequence of operations is made on a new subgraph, whatever they return and
    whatever kernels and delegates do through their contexts, the indices in the inputs, outputs and
    variables of the graph, in the inputs and outputs of all its nodes (these may also be omitted, -1),
    in the temporaries of its nodes and in its custom allocations are those of tensors, and the
    indices in its two execution plans are those of nodes.  The intermediates of a node are not
    included: they are never checked, see [intermediates_unchecked]. *)
Theorem indices_stay_valid ops h w : sg_wf (sg_graph (run_ops ops (SG h Subgraph_init w))).
Proof. apply (stays_wf _ _ (stays_run_ops ops _)), sg_wf_init. Qed.

Lemma inconsistent_refused s : consistent_ (sg_graph s) = false ->
  AllocateTensors_all s = (Fail kTfLiteError, s) /\ Invoke s = (Fail kTfLiteError, s).
Proof.
  intros Hs. unfold AllocateTensors_all, Invoke, InvokeImpl.
  rewrite !(bind_done this _ s (sg_graph s) s) by done. by rewrite Hs.
Qed.

(** C31. When a list of inputs, outputs or variables has an index that is not a tensor's, it is
    refused and the graph is never allocated nor run again: after any further operations, both
    fail and change nothing. *)
Theorem invalid_index_is_final l ops s c :
  c = SetInputs l \/ c = SetOutputs l \/ c = SetVariables l ->
  ~ Forall (tensor_index (zlength (tensors_ (sg_graph s)))) l ->
  fst (c s) = Fail kTfLiteError /\
  let s' := run_ops ops (snd (c s)) in
  AllocateTensors_all s' = (Fail kTfLiteError, s') /\ Invoke s' = (Fail kTfLiteError, s').
Proof.
  intros Hc Hl.
  assert (c s = (Fail kTfLiteError, SG (sg_heap s) (set_consistent_ false (sg_graph s)) (sg_world s))) as ->.
  { destruct (CheckTensorIndices_run l s) as [[_ ?]|Hrun]; [done|].
    by destruct Hc as [->|[->| ->]]; apply (bind_fail _ _ _ _ _ Hrun). }
  split; [done|]. by apply inconsistent_refused, (stays_stuck _ _ (stays_run_ops ops _)).
Qed.
End Steps.

(** ** The planners of the runtime *)

#[export] Instance new_arena_planner : NewPlanner ArenaPlanner.ArenaPlanner :=
  fun preserve => ArenaPlanner.ArenaPlanner_init preserve kDefaultTensorAlignment 0.

(** Under [TFLITE_USE_SIMPLE_MEMORY_PLANNER]. *)
#[export] Instance new_simple_planner : NewPlanner SimplePlanner.SimplePlanner :=
  fun _ => SimplePlanner.SimplePlanner_init.

(** ** Kernels that record their calls, and delegates that take the whole plan *)

Inductive event := Prepared (node : Z) | Invoked (node : Z).

(** The model has one subgraph. *)
#[export] Instance ex_siblings : Siblings (list event) := id.
#[export] Instance ex_decompositions {P} : Decompositions P (list event) := {|
  subgraphs_size _ := 1; subgraph_at _ _ := None; GetSubgraphIndex _ := 0 |}.

Section Example.
Context {P : Type} {MP : MemoryPlanner P} {MM : Malloc} {SS : StdSort}.
Abbreviation S := (sgstate P (list event)).

Definition record (e : event) : M S unit :=
  modify (fun s => SG (sg_heap s) (sg_graph s) (sg_world s ++ [e])).

Definition ex_kernel : TfLiteRegistration :=
  mkRegistration None None (Some 1) (Some 2) 0 None 1 0 0.

Definition ex_delegate : TfLiteDelegate := mkDelegate (Some 3) None None 0 None.
Definition ex_hint_delegate : TfLiteDelegate :=
  mkDelegate (Some 3) None None kTfLiteDelegateFlagsHintFullyDelegatedToSingleDelegate None.

(** The kernels alone, and with the delegate. *)
Definition ex_kernels : Callbacks S := {|
  UnresolvedOpInvoke := 99;
  operator_at _ := None;
  delegate_at d := if d =? 1 then Some ex_delegate else if d =? 2 then Some ex_hint_delegate else None;
  call_init _ _ _ _ := ret 1;
  call_free _ _ _ := ret tt;
  call_prepare _ _ n := record (Prepared n);
  call_invoke _ _ n := record (Invoked n);
  call_delegate_Prepare _ _ _ := ret tt;
  call_CopyFromBufferHandle _ _ _ _ _ := ret tt;
  call_FreeBufferHandle _ _ _ _ := ret tt;
  call_check_cancelled _ _ := ret false;
  call_CloneTo _ _ := ret 0 |}.

Definition ex_replace (d : Z) : M S unit := let* g := this in
  delegate_only (ReplaceNodeSubsetsWithDelegateKernels (CB := ex_kernels) ex_kernel (execution_plan_ g) d).

Definition ex_callbacks : Callbacks S := {|
  UnresolvedOpInvoke := UnresolvedOpInvoke (Callbacks := ex_kernels);
  operator_at := operator_at (Callbacks := ex_kernels);
  delegate_at := delegate_at (Callbacks := ex_kernels);
  call_init := call_init (Callbacks := ex_kernels);
  call_free := call_free (Callbacks := ex_kernels);
  call_prepare := call_prepare (Callbacks := ex_kernels);
  call_invoke := call_invoke (Callbacks := ex_kernels);
  call_delegate_Prepare _ d _ := ex_replace d;
  call_CopyFromBufferHandle := call_CopyFromBufferHandle (Callbacks := ex_kernels);
  call_FreeBufferHandle := call_FreeBufferHandle (Callbacks := ex_kernels);
  call_check_cancelled := call_check_cancelled (Callbacks := ex_kernels);
  call_CloneTo := call_CloneTo (Callbacks := ex_kernels) |}.

Lemma record_acts e s : context_action s (snd (record e s)).
Proof. apply act_outside. Qed.

#[local] Existing Instance ex_callbacks.
Lemma ex_callbacks_ok : CallbacksOk ex_callbacks.
Proof.
  split; intros; cbn; try (apply rtc_refl).
  - apply rtc_once, act_context, record_acts.
  - apply rtc_once, act_context, record_acts.
  - apply rtc_once. exact (act_replace d s ex_kernel (execution_plan_ (sg_graph s))).
Qed.
End Example.

(** ** A graph built, allocated, delegated, resized and run *)

Definition ex_ops : list operation := [
  op_AddTensors 4; op_SetInputs [0]; op_SetOutputs [3];
  op_SetTensorParametersReadWrite 0 kTfLiteFloat32 None [1; 4] kTfLiteNoQuantization false [] 0;
  op_SetTensorParametersReadWrite 1 kTfLiteFloat32 None [1; 4] kTfLiteNoQuantization false [] 0;
  op_SetTensorParametersReadWrite 2 kTfLiteFloat32 None [1; 4] kTfLiteNoQuantization false [] 0;
  op_SetTensorParametersReadWrite 3 kTfLiteFloat32 None [1; 4] kTfLiteNoQuantization false [] 0;
  op_AddNodeWithParameters [0; -1] [1] [] 0 0 0 ex_kernel;
  op_AddNodeWithParameters [1] [2] [] 0 0 0 ex_kernel;
  op_AddNodeWithParameters [2; 0] [3] [] 0 0 0 ex_kernel;
  op_AllocateTensors; op_Invoke ].

Section Runs.
#[local] Existing Instance ex_callbacks.
#[local] Instance ex_malloc : Malloc := bump_place.
#[local] Instance ex_sort : StdSort := insertion_sort.

Definition ex_new {P} : sgstate P (list event) := SG heap_empty Subgraph_init [].
Definition ex_run_arena (ops : list operation) : sgstate ArenaPlanner.ArenaPlanner (list event) := run_ops ops ex_new.

Lemma indices_stay_valid_witness : sg_wf (sg_graph (run_ops
  (ex_ops ++ [op_ModifyGraphWithDelegate 1; op_ResizeInputTensor 0 (Some [1; 8]) 2; op_Invoke])
  (SG heap_empty (Subgraph_init (P := ArenaPlanner.ArenaPlanner)) []))).
Proof. apply (indices_stay_valid (CBOk := ex_callbacks_ok)). Defined.

(** A node is added with an intermediate tensor that does not exist; the call succeeds, and the
    graph stays consistent. *)
Example intermediates_unchecked :
  let s := ex_run_arena [op_AddTensors 2] in
  let r := AddNodeWithParameters [0] [1] [77] 0 0 0 ex_kernel s in
  fst r = Done 0 /\ consistent_ (sg_graph (snd r)) = true /\
  zlength (tensors_ (sg_graph (snd r))) = 2 /\
  node_intermediates <$> (fst <$> (nodes_and_registration_ (sg_graph (snd r))).[0]) = Some [77].
Proof. vm_compute. by split_and!. Qed.

Lemma invalid_index_is_final_witness :
  let s := ex_run_arena ex_ops in
  fst (SetInputs [0; 4] s) = Fail kTfLiteError /\
  let s' := run_ops [op_SetInputs [0]; op_AddTensors 1] (snd (SetInputs [0; 4] s)) in
  AllocateTensors_all s' = (Fail kTfLiteError, s') /\ Invoke s' = (Fail kTfLiteError, s').
Proof.
  intros s. apply (invalid_index_is_final (CBOk := ex_callbacks_ok) [0; 4]); [by left|].
  assert (Hn : zlength (tensors_ (sg_graph s)) = 4) by (vm_compute; reflexivity). rewrite Hn.
  intros [_ [[H|H] _]%Forall_cons]%Forall_cons; [discriminate H|lia].
Defined.
End Runs.
