(* ===== verification/SubgraphWorld.v ===== *)
(** * Subgraphs: what they do to the world

    A subgraph touches the world outside it, where the other subgraphs of its model are, only by
    calling kernels and delegates and by resetting the delegation of the others: a relation on
    worlds that these calls move along is moved along by every operation. *)
From Stdlib Require Import String.
From stdpp Require Import strings.
From S2P Require Import Prelude Heap Common Util GraphInfo MemoryPlanner Callbacks Subgraph.
From S2P Require Import SubgraphRun SubgraphDelegate SubgraphInline SubgraphWf SubgraphSteps.
From S2P Require OpResolver Partition.
#[local] Open Scope Z_scope.

(** The two worlds of a call are related. *)
Definition around {P W} (R : W -> W -> Prop) (s s' : sgstate P W) : Prop := R (sg_world s) (sg_world s').

(** What kernels, delegates and the reset do to the world is in [R]. *)
Class WorldOk {P W : Type} {SB : Siblings W} (CB : Callbacks (sgstate P W)) (R : W -> W -> Prop) : Prop := {
  world_reset w : R w (reset_skippable w);
  world_init f d b l : respects (around R) (call_init f d b l);
  world_free f d b : respects (around R) (call_free f d b);
  world_prepare f d n : respects (around R) (call_prepare f d n);
  world_invoke f d n : respects (around R) (call_invoke f d n);
  world_delegate_Prepare f d data : respects (around R) (call_delegate_Prepare f d data);
  world_CopyFromBufferHandle f d data h i : respects (around R) (call_CopyFromBufferHandle f d data h i);
  world_FreeBufferHandle f d data i : respects (around R) (call_FreeBufferHandle f d data i);
  world_check_cancelled f d : respects (around R) (call_check_cancelled f d) }.

Section World.
Context {P W : Type} {MP : MemoryPlanner P} {NP : NewPlanner P} {MM : Malloc} {SS : StdSort}.
Abbreviation S := (sgstate P W).
Context {SB : Siblings W} {DC : Decompositions P W} {CB : Callbacks S} (R : W -> W -> Prop) {HR : PreOrder R} {WO : WorldOk CB R}.
Abbreviation around := (around (P := P) R).

#[export] Instance around_preorder : PreOrder around.
Proof. split; unfold SubgraphWorld.around; [by intros s|intros s s' s'' H H'; by etransitivity]. Qed.

(** The rest of the state does not matter. *)
Lemma around_same {A} (c : M S A) : (forall s, sg_world (snd (c s)) = sg_world s) -> respects around c.
Proof. intros Hc s. unfold SubgraphWorld.around. by rewrite Hc. Qed.

Lemma around_upd f : respects around (upd f).
Proof. by apply around_same. Qed.
Lemma around_this : respects around this.
Proof. by apply around_same. Qed.
Lemma around_lift {A} (o : outcome A) : respects around (lift o).
Proof. by apply around_same. Qed.
Lemma around_on_heap {A} (c : M heap A) : respects around (on_heap c).
Proof. apply around_same. intros s. unfold on_heap, zoom. by destruct (c _). Qed.
Lemma around_on_tensor {A} i (c : M tstate A) : respects around (on_tensor i c).
Proof.
  apply around_same. intros s. unfold on_tensor. destruct (_.[i]) as [t|]; [|done].
  by destruct (c _) as [r [h t']].
Qed.
Lemma around_on_planner {A} (c : M (mp_state P) A) : respects around (on_planner c).
Proof.
  apply around_same. intros s. unfold on_planner. destruct (memory_planner_ _); [|done].
  destruct (InterpreterInfo _); [|done]. by destruct (c _).
Qed.
Lemma around_reset : respects around reset_siblings.
Proof. apply respects_modify. intros s. exact (world_reset (sg_world s)). Qed.
#[local] Hint Resolve around_upd around_this around_lift around_on_heap around_on_tensor
  around_on_planner around_reset world_init world_free world_prepare world_invoke
  world_delegate_Prepare world_CopyFromBufferHandle world_FreeBufferHandle world_check_cancelled : respects.

(** *** Building *)

Lemma around_node_ref n : respects around (node_ref n).
Proof. unfold node_ref. walk. Qed.
Lemma around_tensor_ref i : respects around (tensor_ref i).
Proof. unfold tensor_ref. walk. Qed.
Lemma around_tensor i : respects around (Subgraph.tensor i).
Proof. unfold Subgraph.tensor. walk. Qed.
Lemma around_set_tensor i f : respects around (set_tensor i f).
Proof. apply around_on_tensor. Qed.
#[local] Hint Resolve around_node_ref around_tensor_ref around_tensor around_set_tensor : respects.

Lemma around_node_arrays n : respects around (node_arrays n).
Proof. unfold node_arrays. walk. Qed.
Lemma around_set_node n f : respects around (set_node n f).
Proof. unfold set_node. walk. Qed.
Lemma around_option_set f : respects around (option_set f).
Proof. unfold option_set. walk. Qed.
Lemma around_for_tensors l body : (forall i, respects around (body i)) -> respects around (for_tensors l body).
Proof. intros Hb. unfold for_tensors. walk. Qed.
Lemma around_for_plan body : (forall i, respects around (body i)) -> respects around (for_plan body).
Proof. intros Hb. unfold for_plan. walk. Qed.
Lemma around_if_planner c : respects around c -> respects around (if_planner c).
Proof. intros Hc. unfold if_planner. walk. Qed.
#[local] Hint Resolve around_node_arrays around_set_node around_option_set : respects.
#[local] Hint Extern 1 (respects around (for_tensors _ _)) => (apply around_for_tensors; intros) : respects.
#[local] Hint Extern 1 (respects around (for_plan _)) => (apply around_for_plan; intros) : respects.
#[local] Hint Extern 1 (respects around (if_planner _)) => (apply around_if_planner) : respects.
#[local] Ltac go :=
  repeat first [progress intros | solve [eauto 3 with respects]
    | apply around_for_tensors | apply around_for_plan | apply around_if_planner | walk_step].

Lemma around_CheckTensorIndices l : respects around (CheckTensorIndices l).
Proof. unfold CheckTensorIndices. go. Qed.
#[local] Hint Resolve around_CheckTensorIndices : respects.
Lemma around_SetInputs l : respects around (SetInputs l).
Proof. unfold SetInputs. go. Qed.
Lemma around_SetOutputs l : respects around (SetOutputs l).
Proof. unfold SetOutputs. go. Qed.
Lemma around_SetVariables l : respects around (SetVariables l).
Proof. unfold SetVariables. go. Qed.
Lemma around_RemoveUnusedInputs : respects around RemoveUnusedInputs.
Proof. unfold RemoveUnusedInputs, GetInputTensorsCount. go. Qed.
Lemma around_SetExecutionPlan plan : respects around (SetExecutionPlan plan).
Proof. unfold SetExecutionPlan. go. Qed.
Lemma around_AddTensors n : respects around (AddTensors n).
Proof. unfold AddTensors. go. Qed.
Lemma around_ReleaseNonPersistentMemory : respects around ReleaseNonPersistentMemory.
Proof. unfold ReleaseNonPersistentMemory. go. Qed.
#[local] Hint Resolve around_ReleaseNonPersistentMemory : respects.
Lemma around_ReleaseMemory : respects around ReleaseMemory.
Proof. unfold ReleaseMemory, free_dynamic. go. Qed.

Lemma around_op_dispatch {A} reg wd pl own (run : Z -> option Z -> M S A) wa ab :
  (forall f d, respects around (run f d)) -> respects around wa -> respects around ab ->
  respects around (op_dispatch reg wd pl own run wa ab).
Proof. intros Hr Hw Ha. unfold op_dispatch. go. Qed.

Lemma around_OpInit reg b l : respects around (OpInit reg b l).
Proof. apply around_op_dispatch; go. Qed.
Lemma around_OpPrepare reg n : respects around (OpPrepare reg n).
Proof. apply around_op_dispatch; go. Qed.
Lemma around_OpInvoke reg n : respects around (OpInvoke reg n).
Proof. apply around_op_dispatch; go. Qed.
Lemma around_OpFree reg b : respects around (OpFree reg b).
Proof. unfold OpFree. destruct (b =? 0); [go|]. apply around_op_dispatch; go. Qed.
#[local] Hint Resolve around_OpInit around_OpPrepare around_OpInvoke around_OpFree : respects.

Lemma around_CleanupNode n : respects around (CleanupNode n).
Proof. unfold CleanupNode. go. Qed.
#[local] Hint Resolve around_CleanupNode : respects.

Lemma around_owning {A} data (c : M S A) : respects around c -> respects around (owning data c).
Proof.
  intros Hc s. specialize (Hc s). unfold owning. destruct (c s) as [[a|e|] s']; [done| |done].
  etransitivity; [exact Hc|]. cbn. assert (Hf : respects around ((if negb (data =? 0) then on_heap (free data) else ret tt) ;;; @fail S A e)) by go.
  apply Hf.
Qed.

Lemma around_AddNodeWithParameters ins outs ims id ids bd reg :
  respects around (AddNodeWithParameters ins outs ims id ids bd reg).
Proof.
  apply around_owning. unfold CheckInputAndOutputForOverlap, push_node, finish_node, OpMightHaveSideEffect. go.
Qed.
#[local] Hint Resolve around_AddNodeWithParameters : respects.

Lemma around_ResizeTensorImpl i dims : respects around (ResizeTensorImpl i dims).
Proof. unfold ResizeTensorImpl. go. Qed.
#[local] Hint Resolve around_ResizeTensorImpl : respects.
Lemma around_SetTensorParametersReadOnly i ty nm dims q b n a sp bi ei :
  respects around (SetTensorParametersReadOnly i ty nm dims q b n a sp bi ei).
Proof. unfold SetTensorParametersReadOnly, check_tensor_index, record_external_buffer. go. Qed.
Lemma around_SetTensorParametersReadWrite i ty nm dims q v sig ei :
  respects around (SetTensorParametersReadWrite i ty nm dims q v sig ei).
Proof. unfold SetTensorParametersReadWrite, check_tensor_index, record_external_buffer. go. Qed.
Lemma around_SetOptions o : respects around (SetOptions o).
Proof. unfold SetOptions, OptimizeMemoryForLargeTensors. go. Qed.
Lemma around_SetCustomAllocationForTensor i a fl : respects around (SetCustomAllocationForTensor i a fl).
Proof. unfold SetCustomAllocationForTensor. go. Qed.
Lemma around_ResetVariableTensors : respects around ResetVariableTensors.
Proof. unfold ResetVariableTensors. go. Qed.
#[local] Hint Resolve around_ResetVariableTensors : respects.
(** *** Handles, undoing and resizing *)

Lemma around_is_opaque d : respects around (TfLiteDelegateIsOpaque d).
Proof. unfold TfLiteDelegateIsOpaque. go. Qed.
#[local] Hint Resolve around_is_opaque : respects.
Lemma around_builder_function d f : respects around (builder_function d f).
Proof. unfold builder_function. go. Qed.
#[local] Hint Resolve around_builder_function : respects.
Lemma around_Prepare d : respects around (TfLiteDelegatePrepareInternal d).
Proof. unfold TfLiteDelegatePrepareInternal. go. Qed.
Lemma around_Free d i : respects around (TfLiteDelegateFreeBufferHandleInternal d i).
Proof. unfold TfLiteDelegateFreeBufferHandleInternal. go. Qed.
Lemma around_Copy d h i : respects around (TfLiteDelegateCopyFromBufferHandleInternal d h i).
Proof. unfold TfLiteDelegateCopyFromBufferHandleInternal. go. Qed.
Lemma around_flags d : respects around (TfLiteDelegateGetFlagsInternal d).
Proof. unfold TfLiteDelegateGetFlagsInternal. go. Qed.
#[local] Hint Resolve around_Prepare around_Free around_Copy around_flags : respects.

Lemma around_EnsureTensorDataIsReadable i : respects around (EnsureTensorDataIsReadable i).
Proof. unfold EnsureTensorDataIsReadable. go. Qed.
Lemma around_SetBufferHandle i h d r : respects around (SetBufferHandle i h d r).
Proof. unfold SetBufferHandle. go. Qed.
Lemma around_IsCancelled : respects around IsCancelled.
Proof. unfold IsCancelled. go. Qed.
Lemma around_Cancel : respects around Cancel.
Proof. unfold Cancel. go. Qed.
#[local] Hint Resolve around_EnsureTensorDataIsReadable around_IsCancelled : respects.

Lemma around_Subgraph_delete : respects around Subgraph_delete.
Proof. unfold Subgraph_delete. go. Qed.

Lemma around_UndoAllDelegates : respects around UndoAllDelegates.
Proof. unfold UndoAllDelegates, fp16_map, remap_fp16, remap_input. go. Qed.
#[local] Hint Resolve around_UndoAllDelegates : respects.
Lemma around_ResizeInputTensor i dims rank : respects around (ResizeInputTensor i dims rank).
Proof. unfold ResizeInputTensor, check_tensor_index. go. Qed.
#[local] Hint Resolve around_ResizeInputTensor : respects.
Lemma around_ResizeInputTensorStrict i dims : respects around (ResizeInputTensorStrict i dims).
Proof. unfold ResizeInputTensorStrict, check_tensor_index. go. Qed.

(** *** Preparing and running *)

Lemma around_HasDynamicTensorImpl l : respects around (HasDynamicTensorImpl l).
Proof. induction l as [|i l IH]; cbn; go. Qed.
#[local] Hint Resolve around_HasDynamicTensorImpl : respects.
Lemma around_HasDynamicTensor l : respects around (HasDynamicTensor l).
Proof. unfold HasDynamicTensor. go. Qed.
#[local] Hint Resolve around_HasDynamicTensor : respects.
Lemma around_prepare_ops plan : forall last, respects around (prepare_ops plan last).
Proof. induction plan as [|[k n] plan IH]; intros last; cbn [prepare_ops]; go. Qed.
#[local] Hint Resolve around_prepare_ops : respects.
Lemma around_PrepareOpsStartingAt first plan last : respects around (PrepareOpsStartingAt first plan last).
Proof. unfold PrepareOpsStartingAt. go. Qed.
#[local] Hint Resolve around_PrepareOpsStartingAt : respects.
Lemma around_any_delegate flag ds : respects around (any_delegate flag ds).
Proof. induction ds as [|d ds IH]; cbn; go. Qed.
#[local] Hint Resolve around_any_delegate : respects.
Lemma around_Verify i : respects around (VerifyCustomAllocationForTensor i).
Proof. unfold VerifyCustomAllocationForTensor. go. Qed.
#[local] Hint Resolve around_Verify : respects.
Lemma around_PrepareOpsAndTensors : respects around PrepareOpsAndTensors.
Proof.
  unfold PrepareOpsAndTensors, prepare_original_plan, make_planner, verify_custom_allocations,
    ShouldPreserveAllTensors. go.
Qed.
#[local] Hint Resolve around_PrepareOpsAndTensors : respects.

Lemma around_allocate_tensors : respects around allocate_tensors.
Proof.
  unfold allocate_tensors, reuse_allocations, reallocate, InitializeTensorReleaseMap,
    free_delegated_temporaries. go.
Qed.
#[local] Hint Resolve around_allocate_tensors : respects.

Lemma around_invoke_node k : respects around (invoke_node k).
Proof.
  unfold invoke_node, check_input, MayAllocateOpOutput, check_cancellation, run_node, force_prepare,
    MaybeReleaseDynamicTensors, release_dynamic, ShouldReleaseDynamicTensors,
    ShouldOptimizeMemoryForLargeTensors. go.
Qed.
#[local] Hint Resolve around_invoke_node : respects.
Lemma around_Invoke : respects around Invoke.
Proof. unfold Invoke, InvokeImpl. go. Qed.

(** *** Delegation *)

Lemma around_PartitionGraph ns : respects around (PartitionGraph ns).
Proof. unfold PartitionGraph, ShouldPreserveAllTensors, DisableDelegateClustering. go. Qed.
#[local] Hint Resolve around_PartitionGraph : respects.
Lemma around_replace_subset reg d b : respects around (replace_subset reg d b).
Proof. unfold replace_subset, create_params, claim_tensor. go. Qed.
#[local] Hint Resolve around_replace_subset : respects.
Lemma around_Replace reg ns d : respects around (ReplaceNodeSubsetsWithDelegateKernels reg ns d).
Proof. unfold ReplaceNodeSubsetsWithDelegateKernels, own_registration. go. Qed.
Lemma around_Preview ns : respects around (PreviewDelegatePartitioning ns).
Proof. unfold PreviewDelegatePartitioning. go. Qed.
Lemma around_all_delegated plan : respects around (all_delegated plan).
Proof. induction plan as [|n plan IH]; cbn; go. Qed.
#[local] Hint Resolve around_all_delegated : respects.
Lemma around_IsFullyDelegated : respects around IsFullyDelegated.
Proof. unfold IsFullyDelegated. go. Qed.
Lemma around_HasDelegates : respects around HasDelegates.
Proof. unfold HasDelegates. go. Qed.
#[local] Hint Resolve around_IsFullyDelegated : respects.

Section Body.
Context (Redo : M S unit) (HRedo : respects around Redo).
#[local] Hint Resolve HRedo : respects.
Lemma around_AllocateTensors : respects around (AllocateTensors Redo).
Proof. unfold AllocateTensors. go. Qed.
#[local] Hint Resolve around_AllocateTensors : respects.
Lemma around_EnsureMemoryAllocations : respects around (EnsureMemoryAllocations Redo).
Proof. unfold EnsureMemoryAllocations. go. Qed.
#[local] Hint Resolve around_EnsureMemoryAllocations : respects.
Lemma around_RemoveAllDelegates : respects around (RemoveAllDelegates Redo).
Proof. unfold RemoveAllDelegates. go. Qed.
#[local] Hint Resolve around_RemoveAllDelegates : respects.
Lemma around_ModifyGraphImpl d : respects around (ModifyGraphWithDelegateImpl Redo d).
Proof.
  unfold ModifyGraphWithDelegateImpl, SwitchToDelegateContext, SwitchToKernelContext,
    finish_delegation, prepare_for_delegation, reset_delegation_if_not_ok. go.
Qed.
End Body.

Lemma around_RedoAllDelegates fuel : respects around (RedoAllDelegates fuel).
Proof. induction fuel as [|fuel IH]; cbn [RedoAllDelegates]; go; by apply around_ModifyGraphImpl. Qed.
#[local] Hint Resolve around_RedoAllDelegates around_AllocateTensors around_EnsureMemoryAllocations
  around_RemoveAllDelegates around_ModifyGraphImpl around_Invoke : respects.

Lemma around_decomposition i : respects around (decomposition i).
Proof.
  apply around_same. intros s. unfold decomposition. destruct (_ <? _); [|done]. cbn [ensure]. rewrite bind_ret.
  destruct (_ =? _); [done|]. by destruct (subgraph_at _ _).
Qed.
#[local] Hint Resolve around_decomposition : respects.
Lemma around_ReplaceNodeWithSubgraph k n i : respects around (ReplaceNodeWithSubgraph k n i).
Proof. unfold ReplaceNodeWithSubgraph, tensor_map, clone_tensors, clone_node. go; apply around_AddTensors. Qed.
#[local] Hint Resolve around_ReplaceNodeWithSubgraph : respects.
Lemma around_inline_from fuel cs : forall k, respects around (inline_from fuel cs k).
Proof. induction fuel as [|fuel IH]; intros k; cbn [inline_from]; unfold composite_subgraph; go; apply IH. Qed.
#[local] Hint Resolve around_inline_from : respects.
Lemma around_InlineCompositeNodes rounds : respects around (InlineCompositeNodes rounds (RedoAllDelegates redo_fuel)).
Proof. induction rounds as [|rounds IH]; cbn [InlineCompositeNodes]; unfold composite_nodes; go; apply IH. Qed.
Lemma around_inline_composites : respects around inline_composites.
Proof. intros s. apply around_InlineCompositeNodes. Qed.
#[local] Hint Resolve around_inline_composites : respects.
Lemma around_AllocateTensors_all : respects around AllocateTensors_all.
Proof. unfold AllocateTensors_all. go. Qed.
Lemma around_ModifyGraphWithDelegate d : respects around (ModifyGraphWithDelegate d).
Proof. unfold ModifyGraphWithDelegate. go. Qed.
Lemma around_RemoveAllDelegates_all : respects around RemoveAllDelegates_all.
Proof. unfold RemoveAllDelegates_all. go. Qed.
#[local] Hint Resolve around_SetInputs around_SetOutputs around_SetVariables around_AddTensors
  around_SetExecutionPlan around_RemoveUnusedInputs around_SetTensorParametersReadOnly
  around_SetTensorParametersReadWrite around_SetOptions around_SetCustomAllocationForTensor
  around_ReleaseMemory around_Preview around_SetBufferHandle around_Cancel around_ResizeInputTensorStrict
  around_AllocateTensors_all around_ModifyGraphWithDelegate around_RemoveAllDelegates_all : respects.

Lemma around_run_op op : respects around (run_op op).
Proof. destruct op; cbn [run_op]; unfold SetCancellationFunction, EnableCancellation; go. Qed.
End World.
