(* ===== verification/SubgraphInvoke.v ===== *)
(** * Subgraphs: running a prepared graph

    On a graph that is allocated, whose kernels only compute, [Invoke] is the kernels of the
    execution plan, called in order: nothing is prepared, moved, released or cancelled in
    between. *)
From S2P Require Import Prelude Heap Common Util GraphInfo MemoryPlanner Callbacks Subgraph.
From S2P Require Import SubgraphRun SubgraphWf SubgraphSteps.
From S2P Require ArenaPlanner ArenaInstance.
#[local] Open Scope Z_scope.

Section Static.
Context {P W : Type} {MP : MemoryPlanner P} {NP : NewPlanner P} {MM : Malloc}.
Abbreviation S := (sgstate P W).
Context {SB : Siblings W} {CB : Callbacks S}.
Implicit Types s : S.
Implicit Types g : Subgraph P.

(** ** What makes a graph ready *)

(** The data of an input is in memory. *)
Definition readable (t : TfLiteTensor) : Prop :=
  t_data_is_stale t = false /\ (t_data t <> 0 \/ t_bytes t = 0 \/ t_allocation_type t = kTfLiteNonCpu).

Definition node_ready g (n : Z) : Prop :=
  exists nd reg, (nodes_and_registration_ g).[n] = Some (nd, reg) /\ (n ∉ freed_nodes_ g) /\
    Forall (fun i => i = kTfLiteOptionalTensor \/
      exists t, (tensors_ g).[i] = Some t /\ readable t) (node_inputs nd).

(** The settings that release or replace tensors while the graph runs are off, as they are by default. *)
Definition settings_off (o : option InterpreterOptions) : Prop :=
  match o with
  | Some o => ensure_dynamic_tensors_are_released_ o = false /\ optimize_memory_for_large_tensors_ o <= 0
  | None => True
  end.

Record graph_ready g : Prop := {
  ready_consistent : consistent_ g = true;
  ready_state : state_ g <> kStateUninvokable;
  ready_nodes : Forall (node_ready g) (execution_plan_ g);
  (** Every node is prepared. *)
  ready_prepared : zlength (execution_plan_ g) <= next_execution_plan_index_to_prepare_ g;
  ready_options : settings_off (options_ g);
  ready_cancellation : check_cancelled_func_ g = None;
  ready_flag : continue_invocation_ g <> Some false }.

(** A kernel that computes: it leaves the graph as it is. *)
Definition computes g (n : Z) : Prop :=
  forall nr s, (nodes_and_registration_ g).[n] = Some nr ->
    sg_graph s = set_tensor_resized_since_op_invoke_ false g ->
    sg_graph (snd (OpInvoke (snd nr) n s)) = sg_graph s.

(** ** The steps of the loop *)

Lemma check_input_ready n k i s : node_ready (sg_graph s) n ->
  i = kTfLiteOptionalTensor \/ (exists t, (tensors_ (sg_graph s)).[i] = Some t /\ readable t) ->
  check_input n k i s = (Done tt, s).
Proof.
  intros (nd & reg & Hn & _ & _) Hi. unfold check_input.
  destruct (Z.eqb_spec i kTfLiteOptionalTensor) as [_|Hne]; [done|].
  destruct Hi as [|(t & Ht & Hfresh & Hdata)]; [done|]. unfold node_ref, tensor_ref.
  rewrite bind_assoc, (bind_done this _ s (sg_graph s) s), Hn by done. cbn [access]. rewrite bind_ret.
  rewrite bind_assoc, (bind_done this _ s (sg_graph s) s), Ht by done. cbn [access]. rewrite bind_ret.
  rewrite Hfresh, andb_false_r, bind_ret.
  rewrite bind_assoc, (bind_done this _ s (sg_graph s) s), Ht by done. cbn [access]. rewrite bind_ret.
  destruct Hdata as [Hd|[Hb|Ha]].
  - by rewrite (proj2 (Z.eqb_neq _ _) Hd).
  - by rewrite Hb, andb_false_r.
  - by rewrite Ha, andb_false_r.
Qed.

Lemma set_resized_same g : tensor_resized_since_op_invoke_ g = false ->
  set_tensor_resized_since_op_invoke_ false g = g.
Proof. by destruct g; cbn; intros ->. Qed.

(** What the test for cancellation leaves. *)
Lemma check_cancellation_ready s : check_cancelled_func_ (sg_graph s) = None ->
  continue_invocation_ (sg_graph s) <> Some false -> check_cancellation s = (Done tt, s).
Proof.
  intros Hf Hc. unfold check_cancellation, IsCancelled.
  rewrite bind_assoc, (bind_done this _ s (sg_graph s) s), Hf, bind_ret by done.
  rewrite (bind_done this _ s (sg_graph s) s) by done.
  destruct (continue_invocation_ (sg_graph s)) as [[]|] eqn:Hflag; [|done..].
  rewrite (bind_done (upd _) _ s tt s); [done|].
  unfold upd, modify. do 2 f_equal. destruct s as [h g w]; cbn in *. f_equal. destruct g; cbn in *. by subst.
Qed.

Lemma node_arrays_done n s nd reg : (nodes_and_registration_ (sg_graph s)).[n] = Some (nd, reg) ->
  n ∉ freed_nodes_ (sg_graph s) -> node_arrays n s = (Done nd, s).
Proof. intros Hn Hf. rewrite node_arrays_run, Hn. by case_bool_decide. Qed.

Lemma force_prepare_static k n s nd reg : (nodes_and_registration_ (sg_graph s)).[n] = Some (nd, reg) ->
  n ∉ freed_nodes_ (sg_graph s) -> tensor_resized_since_op_invoke_ (sg_graph s) = false ->
  force_prepare k n s = (Done tt, s).
Proof.
  intros Hn Hf Hr. unfold force_prepare. rewrite (bind_done this _ s (sg_graph s) s) by done.
  rewrite (bind_done _ _ _ _ _ (node_arrays_done _ _ _ _ Hn Hf)). by rewrite Hr, bind_ret.
Qed.

Lemma options_off s : settings_off (options_ (sg_graph s)) ->
  ShouldReleaseDynamicTensors s = (Done false, s) /\ ShouldOptimizeMemoryForLargeTensors s = (Done false, s).
Proof.
  intros Ho. unfold ShouldReleaseDynamicTensors, ShouldOptimizeMemoryForLargeTensors, option_set.
  rewrite !(bind_done this _ s (sg_graph s) s) by done. unfold settings_off in Ho.
  destruct (options_ (sg_graph s)) as [o|]; [|done]. destruct Ho as [-> Hl]. by rewrite (proj2 (Z.ltb_ge _ _) Hl).
Qed.

Lemma for_each_done {A} (l : list A) body s : (forall x, x ∈ l -> body x s = (Done tt, s)) ->
  for_each l body s = (Done tt, s).
Proof.
  induction l as [|x l IH]; intros Hb; [done|]. rewrite for_each_cons.
  rewrite (bind_done _ _ s tt s) by (apply Hb; set_solver). apply IH. set_solver.
Qed.

Lemma inputs_checked n s nd reg : (nodes_and_registration_ (sg_graph s)).[n] = Some (nd, reg) ->
  node_ready (sg_graph s) n ->
  for_each (enumerate (node_inputs nd)) (fun ki => check_input n (fst ki) (snd ki)) s = (Done tt, s).
Proof.
  intros Hn Hready. apply for_each_done. intros [k i] Hi. apply check_input_ready; [done|].
  destruct Hready as (nd' & reg' & Hn' & _ & H). simplify_eq. rewrite Forall_forall in H. apply H.
  rewrite <- (enumerate_snd (node_inputs nd)). apply list_elem_of_fmap. by exists (k, i).
Qed.

(** The graph the loop sees: the flag of resized tensors aside, the one it started with. *)
Definition during g s : Prop := sg_graph s = g \/ sg_graph s = set_tensor_resized_since_op_invoke_ false g.

Lemma run_node_static g n nd reg s : during g s -> computes g n ->
  (nodes_and_registration_ g).[n] = Some (nd, reg) ->
  sg_graph (snd (run_node n s)) = set_tensor_resized_since_op_invoke_ false g.
Proof.
  intros Hs Hcomp Hnd. unfold run_node, node_ref.
  rewrite bind_assoc, (bind_done this _ s (sg_graph s) s) by done.
  assert ((nodes_and_registration_ (sg_graph s)).[n] = Some (nd, reg)) as -> by by destruct Hs as [-> | ->].
  cbn [access snd]. rewrite bind_ret.
  set (s1 := SG (sg_heap s) (set_tensor_resized_since_op_invoke_ false g) (sg_world s)).
  rewrite (bind_done (upd _) _ s tt s1) by (by destruct s, Hs as [Heq|Heq]; cbn in Heq; subst).
  pose proof (Hcomp _ s1 Hnd eq_refl) as Hc. cbn [snd] in Hc.
  unfold bind, status_call. cbn [snd]. destruct (OpInvoke reg n s1) as [[[]|[]|] s2]; exact Hc.
Qed.

(** One round of the loop is the node's kernel. *)
Lemma invoke_node_static g k n s : graph_ready g -> during g s -> computes g n ->
  0 <= k < zlength (execution_plan_ g) -> (execution_plan_ g).[k] = Some n ->
  invoke_node k s = run_node n s /\
  (fst (run_node n s) = Done tt -> during g (snd (run_node n s))).
Proof.
  intros Hg Hs Hcomp Hk Hn.
  assert (Hready : node_ready (sg_graph s) n /\ node_ready g n).
  { assert (node_ready g n); [|by destruct Hs as [-> | ->]].
    apply zlookup_some in Hn as [_ Hn]. eapply Forall_lookup_1; [apply Hg|exact Hn]. }
  destruct Hready as [Hready Hready']. destruct Hready' as (nd & reg & Hnd & Hfreed & Hins).
  pose proof (run_node_static g n nd reg s Hs Hcomp Hnd) as Hrun.
  split; [|by right].
  unfold invoke_node.
  rewrite (bind_done this _ s (sg_graph s) s) by done.
  assert (k =? next_execution_plan_index_to_prepare_ (sg_graph s) = false) as ->.
  { pose proof (ready_prepared _ Hg). apply Z.eqb_neq. destruct Hs as [-> | ->]; cbn; lia. }
  rewrite bind_ret, (bind_done this _ s (sg_graph s) s) by done.
  assert ((execution_plan_ (sg_graph s)).[k] = Some n) as -> by by destruct Hs as [-> | ->].
  cbn [access]. rewrite bind_ret.
  assert (Hnd' : (nodes_and_registration_ (sg_graph s)).[n] = Some (nd, reg)) by by destruct Hs as [-> | ->].
  rewrite (bind_done _ _ s nd s) by (eapply node_arrays_done; [exact Hnd'|by destruct Hs as [-> | ->]]).
  rewrite (bind_done _ _ _ _ _ (inputs_checked _ _ _ _ Hnd' Hready)).
  unfold MayAllocateOpOutput.
  assert (Hopt : settings_off (options_ (sg_graph s))) by (destruct Hs as [-> | ->]; apply (ready_options _ Hg)).
  rewrite bind_assoc, (bind_done _ _ _ _ _ (proj2 (options_off _ Hopt))), bind_ret.
  rewrite (bind_done check_cancellation _ s tt s)
    by (apply check_cancellation_ready; destruct Hs as [-> | ->]; apply Hg).
  unfold bind at 1. destruct (run_node n s) as [[[]|e|] s1]; cbn [snd] in Hrun; [|done..].
  rewrite (bind_done _ _ s1 tt s1) by (eapply force_prepare_static; by rewrite Hrun).
  unfold MaybeReleaseDynamicTensors.
  assert (Hopt1 : settings_off (options_ (sg_graph s1))) by (rewrite Hrun; apply (ready_options _ Hg)).
  by rewrite (bind_done _ _ _ _ _ (proj1 (options_off _ Hopt1))).
Qed.

Lemma invoke_loop_static g pre rest s : graph_ready g -> during g s ->
  Forall (computes g) (execution_plan_ g) -> execution_plan_ g = pre ++ rest ->
  for_each (zrange (zlength pre) (zlength (execution_plan_ g) - 1)) invoke_node s = for_each rest run_node s.
Proof.
  intros Hg Hs Hcomp. revert pre s Hs. induction rest as [|n rest IH]; intros pre s Hs Hplan.
  - assert (zrange (zlength pre) (zlength (execution_plan_ g) - 1) = []) as ->; [|done].
    rewrite Hplan, app_nil_r. by apply zrange_nil; lia.
  - pose proof (zlength_nonneg pre). pose proof (zlength_nonneg rest).
    assert (Hlen : zlength (execution_plan_ g) = zlength pre + 1 + zlength rest)
      by (rewrite Hplan, zlength_app; unfold zlength; cbn; lia).
    rewrite zrange_cons by lia. rewrite !for_each_cons.
    destruct (invoke_node_static g (zlength pre) n s) as [Hstep Hd]; [done..| |lia| |].
    + rewrite Hplan, Forall_app, Forall_cons in Hcomp. tauto.
    + rewrite Hplan. apply zlookup_some. split; [rewrite <- Hplan; lia|].
      unfold zlength. rewrite Nat2Z.id, lookup_app_r, Nat.sub_diag by lia. done.
    + unfold bind. rewrite Hstep. destruct (run_node n s) as [[[]|e|] s1]; [|done..].
      specialize (IH (pre ++ [n]) s1 (Hd eq_refl)). rewrite zlength_app in IH.
      replace (zlength pre + zlength [n]) with (zlength pre + 1) in IH by (unfold zlength; cbn; lia).
      apply IH. by rewrite <- app_assoc.
Qed.

(** Whether the planner's memory is there. *)
Definition memory_available s : Prop := memory_planner_ (sg_graph s) = None \/
  on_planner HasNonPersistentMemory s = (Done true, s).

Lemma Invoke_ready_run s : graph_ready (sg_graph s) -> memory_available s ->
  Forall (computes (sg_graph s)) (execution_plan_ (sg_graph s)) ->
  Invoke s = for_each (execution_plan_ (sg_graph s)) run_node s.
Proof.
  intros Hg Hmem Hcomp. unfold Invoke, InvokeImpl. rewrite (bind_done this _ s (sg_graph s) s) by done.
  rewrite (ready_consistent _ Hg). cbn [negb].
  rewrite bool_decide_eq_false_2 by apply (ready_state _ Hg).
  assert (Hav : (match memory_planner_ (sg_graph s) with
    | Some _ => on_planner HasNonPersistentMemory | None => ret true end) s = (Done true, s)).
  { destruct Hmem as [-> | Hav]; [done|]. by destruct (memory_planner_ (sg_graph s)). }
  rewrite (bind_done _ _ _ _ _ Hav). cbn [negb].
  apply (invoke_loop_static (sg_graph s) [] _ s Hg); [by left|done..].
Qed.

(** The kernels leave the graph as it is, the flag of resized tensors aside. *)
Lemma kernels_during g plan s : graph_ready g -> during g s -> Forall (computes g) plan ->
  Forall (node_ready g) plan -> during g (snd (for_each plan run_node s)).
Proof.
  intros Hg Hs Hcomp Hready. revert s Hs. induction plan as [|n plan IH]; intros s Hs; [exact Hs|].
  apply Forall_cons in Hcomp as [Hn Hcomp], Hready as [(nd & reg & Hnd & _) Hready]. rewrite for_each_cons.
  pose proof (run_node_static g n nd reg s Hs Hn Hnd) as Hrun. unfold bind.
  destruct (run_node n s) as [[[]|e|] s1]; [|by right|by right]. apply (IH Hcomp Hready). by right.
Qed.

(** C9. [Invoke] on a graph whose nodes are prepared, whose inputs are in memory and whose
    kernels only compute, with the options that release dynamic tensors or treat large tensors
    apart off and no request to cancel, is the kernels of the execution plan called in order: the
    same result, at the same kernel's failure too, and the same state, in which the graph is as it
    was but for the flag of resized tensors. *)
Theorem Invoke_runs_the_plan s : graph_ready (sg_graph s) -> memory_available s ->
  Forall (computes (sg_graph s)) (execution_plan_ (sg_graph s)) ->
  Invoke s = for_each (execution_plan_ (sg_graph s)) run_node s /\
  during (sg_graph s) (snd (Invoke s)).
Proof.
  intros Hg Hmem Hcomp. rewrite (Invoke_ready_run s Hg Hmem Hcomp). split; [done|].
  apply kernels_during; [done|by left|done|apply Hg].
Qed.
End Static.

(** ** The example, allocated *)

#[local] Existing Instance ex_callbacks.
#[local] Existing Instance ex_malloc.
#[local] Existing Instance ex_sort.

Definition ex_allocated : sgstate ArenaPlanner.ArenaPlanner (list event) :=
  ex_run_arena (take 11 ex_ops).

Definition ready_check {P} (g : Subgraph P) : bool :=
  consistent_ g && negb (bool_decide (state_ g = kStateUninvokable)) &&
  forallb (fun n => match (nodes_and_registration_ g).[n] with
    | Some (nd, _) => bool_decide (n ∉ freed_nodes_ g) &&
        forallb (fun i => (i =? kTfLiteOptionalTensor) || match (tensors_ g).[i] with
          | Some t => negb (t_data_is_stale t) && negb (t_data t =? 0)
          | None => false end) (node_inputs nd)
    | None => false end) (execution_plan_ g) &&
  (zlength (execution_plan_ g) <=? next_execution_plan_index_to_prepare_ g) &&
  match options_ g with Some o => negb (ensure_dynamic_tensors_are_released_ o) && (optimize_memory_for_large_tensors_ o <=? 0)
  | None => true end &&
  match check_cancelled_func_ g, continue_invocation_ g with
  | None, None => true | _, _ => false end.

Lemma ready_check_ok {P} (g : Subgraph P) : ready_check g = true -> graph_ready g.
Proof.
  unfold ready_check. rewrite !andb_true_iff, negb_true_iff, bool_decide_eq_false, Z.leb_le.
  intros (((((Hc & Hst) & Hn) & Hp) & Hs) & Ho).
  destruct (check_cancelled_func_ g) eqn:?, (continue_invocation_ g) eqn:?; try done.
  split; [done..| |done| |done|congruence].
  2: { unfold settings_off. destruct (options_ g) as [o|]; [|done]. by apply andb_true_iff in Hs as [->%negb_true_iff ?%Z.leb_le]. }
  rewrite forallb_forall in Hn. apply Forall_forall. intros n Hin.
  specialize (Hn n (proj1 (list_elem_of_In _ _) Hin)). unfold node_ready.
  destruct ((nodes_and_registration_ g).[n]) as [[nd reg]|]; [|done].
  apply andb_true_iff in Hn as [Hf Hi]. exists nd, reg. split_and!; [done|by apply bool_decide_eq_true in Hf|].
  rewrite forallb_forall in Hi. apply Forall_forall. intros i Hii.
  specialize (Hi i (proj1 (list_elem_of_In _ _) Hii)). apply orb_true_iff in Hi as [Hi|Hi]; [left; by apply Z.eqb_eq|].
  right. destruct ((tensors_ g).[i]) as [t|]; [|done]. exists t. split; [done|].
  rewrite andb_true_iff, !negb_true_iff, Z.eqb_neq in Hi. destruct Hi. split; [done|by left].
Qed.

(** The example with the options an interpreter has. *)
Definition ex_with_options : sgstate ArenaPlanner.ArenaPlanner (list event) :=
  ex_run_arena (take 10 ex_ops ++ [op_SetOptions (Some InterpreterOptions_init); op_AllocateTensors]).

Lemma Invoke_runs_the_plan_witness :
  Invoke ex_with_options = for_each (execution_plan_ (sg_graph ex_with_options)) run_node ex_with_options /\
  during (sg_graph ex_with_options) (snd (Invoke ex_with_options)).
Proof.
  apply (Invoke_runs_the_plan ex_with_options).
  - apply ready_check_ok. vm_compute. reflexivity.
  - right. vm_compute. reflexivity.
  - assert (execution_plan_ (sg_graph ex_with_options) = [0; 1; 2]) as -> by (vm_compute; reflexivity).
    repeat constructor; intros nr s Hn Hs; vm_compute in Hn; injection Hn as <-; reflexivity.
Defined.
