(* ===== verification/SubgraphOrder.v ===== *)
(** * Subgraphs: a kernel is prepared before it is invoked

    Dynamic tensors make preparing and running interleave: a node is prepared when the shapes
    of its inputs are known, maybe in the middle of [Invoke], and the index of the next node to
    prepare moves back when a node resizes its outputs.  Seen through kernels that record their
    calls, no kernel is invoked before it was prepared. *)
From Stdlib Require Import String.
From stdpp Require Import strings.
From S2P Require Import Prelude Heap Common Util GraphInfo MemoryPlanner Callbacks Subgraph.
From S2P Require Import SubgraphRun SubgraphDelegate SubgraphInline SubgraphWf SubgraphSteps TensorClone.
From S2P Require Import SubgraphInlineWf.
From S2P Require ArenaPlanner ArenaInstance.
#[local] Open Scope Z_scope.

(** The calls of the kernels, in order, are part of the world. *)
Class Traced {P W : Type} (CB : Callbacks (sgstate P W)) (trace : W -> list event) : Prop := {
  trace_init f d b l s : trace (sg_world (snd (call_init f d b l s))) = trace (sg_world s);
  trace_prepare f d n s :
    trace (sg_world (snd (call_prepare f d n s))) = trace (sg_world s) ++ [Prepared n];
  trace_invoke f d n s :
    trace (sg_world (snd (call_invoke f d n s))) = trace (sg_world s) ++ [Invoked n];
  trace_Copy f d data h i s :
    trace (sg_world (snd (call_CopyFromBufferHandle f d data h i s))) = trace (sg_world s);
  trace_Free f d data i s :
    trace (sg_world (snd (call_FreeBufferHandle f d data i s))) = trace (sg_world s);
  trace_check f d s : trace (sg_world (snd (call_check_cancelled f d s))) = trace (sg_world s) }.

(** Every call of a kernel comes after a preparation of its node. *)
Definition prepared_first (tr : list event) : Prop :=
  forall k n, tr !! k = Some (Invoked n) -> Prepared n ∈ take k tr.

Section Order.
Context {P W : Type} (trace : W -> list event).
Abbreviation S := (sgstate P W).
Implicit Types s : S.
Implicit Types g : Subgraph P.

(** ** Calls that invoke nothing *)

(** What decides which nodes run next. *)
Definition position g : State * list Z * Z * list Z * bool * list TfLiteRegistration *
    option InterpreterOptions :=
  (state_ g, execution_plan_ g, next_execution_plan_index_to_prepare_ g,
   pre_delegation_execution_plan_ g, delegates_undone_ g, snd <$> nodes_and_registration_ g, options_ g).

Definition events s : list event := trace (sg_world s).

Record quiet s s' : Prop := {
  quiet_position : position (sg_graph s') = position (sg_graph s);
  quiet_trace : exists evs, events s' = events s ++ evs /\ (forall n, Invoked n ∉ evs) }.

Lemma quiet_same s s' : position (sg_graph s') = position (sg_graph s) -> events s' = events s -> quiet s s'.
Proof. intros Hp He. split; [done|]. exists []. rewrite app_nil_r. split; [done|]. set_solver. Qed.

#[export] Instance quiet_preorder : PreOrder quiet.
Proof.
  split; [by intros s; apply quiet_same|].
  intros s s' s'' [H1 (e1 & E1 & N1)] [H2 (e2 & E2 & N2)]. split; [congruence|].
  exists (e1 ++ e2). rewrite E2, E1, app_assoc. split; [done|]. set_solver.
Qed.

Lemma quiet_this : respects quiet (@this P W).
Proof. intros s. reflexivity. Qed.

Lemma quiet_on_heap {A} (c : M heap A) : respects quiet (on_heap (P := P) (W := W) c).
Proof. apply respects_zoom. intros t s. by apply quiet_same. Qed.

Lemma quiet_on_tensor {A} i (c : M tstate A) : respects quiet (on_tensor (P := P) (W := W) i c).
Proof.
  intros s. unfold on_tensor. destruct ((tensors_ _).[i]) as [t|]; [|reflexivity].
  destruct (c _) as [r [h t']]. by apply quiet_same.
Qed.

Lemma quiet_on_planner {A} (c : M (mp_state P) A) : respects quiet (on_planner (W := W) c).
Proof.
  intros s. unfold on_planner. destruct (memory_planner_ _) as [p|]; [|reflexivity].
  destruct (InterpreterInfo _) as [info|]; [|reflexivity]. destruct (c _) as [r t]. by apply quiet_same.
Qed.

Lemma snd_zinsert (l l' : list (TfLiteNode * TfLiteRegistration)) n nr nd :
  l.[n] = Some nr -> zinsert l n (nd, snd nr) = Some l' -> snd <$> l' = snd <$> l.
Proof.
  intros [Hr Hn]%zlookup_some. unfold zinsert. destruct (_ || _); [done|]. intros [= <-].
  rewrite list_fmap_insert. apply list_insert_id. by rewrite list_lookup_fmap, Hn.
Qed.

Lemma quiet_set_node n f : respects quiet (set_node (P := P) (W := W) n f).
Proof.
  intros s. unfold set_node, node_ref, bind, this, access. cbn.
  destruct ((nodes_and_registration_ _).[n]) as [nr|] eqn:Hn; [|reflexivity]. cbn.
  destruct (zinsert _ _ _) as [l|] eqn:Hl; [|reflexivity]. cbn. apply quiet_same; [|done].
  unfold position. cbn. by rewrite (snd_zinsert _ _ _ _ _ Hn Hl).
Qed.

End Order.

#[export] Hint Resolve quiet_this quiet_on_heap quiet_on_tensor quiet_on_planner quiet_set_node
  : respects.
#[export] Hint Extern 3 (respects (quiet _) (upd _)) =>
  (apply respects_modify; intros ?; apply quiet_same; reflexivity) : respects.

Section Calls.
Context {P W : Type} {MP : MemoryPlanner P} {NP : NewPlanner P} {MM : Malloc} {SS : StdSort}.
Abbreviation S := (sgstate P W).
Context {SB : Siblings W} {CB : Callbacks S} {CBOk : CallbacksOk CB} (trace : W -> list event) {HT : Traced CB trace}.
Implicit Types s : S.
Abbreviation quiet := (quiet trace).
#[local] Hint Extern 2 (respects _ (lift _)) => (intros ?; reflexivity) : respects.

(** *** Kernels and delegates through their contexts *)

Lemma quiet_ResizeTensorImpl i dims : respects quiet (ResizeTensorImpl (P := P) (W := W) i dims).
Proof. unfold ResizeTensorImpl, tensor_ref. walk. Qed.

Lemma quiet_ResizeTensor i dims : respects quiet (ResizeTensor (P := P) (W := W) i dims).
Proof. unfold ResizeTensor, set_tensor, tensor_ref. walk. apply quiet_ResizeTensorImpl. Qed.

Lemma quiet_AddTensors n : respects quiet (AddTensors (P := P) (W := W) n).
Proof. unfold AddTensors. walk. Qed.

Lemma quiet_Cancel : respects quiet (Cancel (P := P) (W := W)).
Proof. unfold Cancel. walk. Qed.

Lemma context_action_position s s' : context_action s s' ->
  position (sg_graph s') = position (sg_graph s).
Proof.
  intros [h w|i t'|i dims|n|]; [done|apply (quiet_position trace)..].
  - apply quiet_on_tensor.
  - apply quiet_ResizeTensor.
  - apply quiet_AddTensors.
  - apply quiet_Cancel.
Qed.

Lemma kernel_action_position n s s' : kernel_action n s s' ->
  position (sg_graph s') = position (sg_graph s).
Proof.
  intros [s1 H|ts ud _]; [by apply context_action_position|].
  apply (quiet_position trace), quiet_set_node.
Qed.

Lemma rtc_position (R : S -> S -> Prop) s s' :
  (forall s s', R s s' -> position (sg_graph s') = position (sg_graph s)) -> rtc R s s' ->
  position (sg_graph s') = position (sg_graph s).
Proof. intros HR. induction 1 as [|s1 s2 s3 H _ IH]; [done|]. rewrite IH. by apply HR. Qed.

Lemma quiet_call {A} (c : M S A) :
  (forall s, rtc context_action s (snd (c s))) ->
  (forall s, trace (sg_world (snd (c s))) = trace (sg_world s)) -> respects quiet c.
Proof.
  intros Ha Ht s. apply quiet_same; [|apply Ht].
  apply (rtc_position context_action); [apply context_action_position|apply Ha].
Qed.

Lemma quiet_call_Copy f d data h i : respects quiet (call_CopyFromBufferHandle f d data h i).
Proof. apply quiet_call; [apply CopyFromBufferHandle_acts|apply trace_Copy]. Qed.
Lemma quiet_call_Free f d data i : respects quiet (call_FreeBufferHandle f d data i).
Proof. apply quiet_call; [apply FreeBufferHandle_acts|apply trace_Free]. Qed.
Lemma quiet_call_check f d : respects quiet (call_check_cancelled f d).
Proof. apply quiet_call; [apply check_cancelled_acts|apply trace_check]. Qed.
#[local] Hint Resolve quiet_ResizeTensorImpl quiet_Cancel quiet_call_Copy quiet_call_Free quiet_call_check : respects.

(** Preparing records the node, invoking too; a kernel leaves the position. *)
Lemma call_prepare_events f d n s : position (sg_graph (snd (call_prepare f d n s))) = position (sg_graph s) /\
  events trace (snd (call_prepare f d n s)) = events trace s ++ [Prepared n].
Proof.
  split; [|apply trace_prepare].
  apply (rtc_position (kernel_action n)); [apply kernel_action_position|apply prepare_acts].
Qed.

Lemma call_invoke_events f d n s : position (sg_graph (snd (call_invoke f d n s))) = position (sg_graph s) /\
  events trace (snd (call_invoke f d n s)) = events trace s ++ [Invoked n].
Proof.
  split; [|apply trace_invoke].
  apply (rtc_position (kernel_action n)); [apply kernel_action_position|apply invoke_acts].
Qed.

(** *** Operations *)

Lemma quiet_EnsureTensorDataIsReadable i : respects quiet (EnsureTensorDataIsReadable i).
Proof.
  unfold EnsureTensorDataIsReadable, TfLiteDelegateCopyFromBufferHandleInternal, builder_function,
    TfLiteDelegateIsOpaque, tensor_ref, set_tensor. walk.
Qed.

Lemma quiet_SetBufferHandle i h d r : respects quiet (SetBufferHandle i h d r).
Proof.
  unfold SetBufferHandle, TfLiteDelegateFreeBufferHandleInternal, builder_function,
    TfLiteDelegateIsOpaque, tensor, set_tensor. walk.
Qed.
#[local] Hint Resolve quiet_EnsureTensorDataIsReadable : respects.

Lemma quiet_node_arrays n : respects quiet (node_arrays (P := P) (W := W) n).
Proof. unfold node_arrays, node_ref. walk. Qed.
#[local] Hint Resolve quiet_node_arrays : respects.

Lemma quiet_HasDynamicTensorImpl l : respects quiet (HasDynamicTensorImpl (P := P) (W := W) l).
Proof. unfold tensor_ref. induction l as [|i l IH]; cbn; unfold tensor_ref; walk. Qed.
#[local] Hint Resolve quiet_HasDynamicTensorImpl : respects.

Lemma quiet_HasDynamicTensor l : respects quiet (HasDynamicTensor (P := P) (W := W) l).
Proof. unfold HasDynamicTensor. walk. Qed.
#[local] Hint Resolve quiet_HasDynamicTensor : respects.

Lemma quiet_if_planner (c : M S unit) : respects quiet c -> respects quiet (if_planner c).
Proof. intros Hc. unfold if_planner. walk. Qed.

Lemma quiet_make_planner : respects quiet (make_planner (P := P) (W := W)).
Proof. unfold make_planner, ShouldPreserveAllTensors, option_set. walk. Qed.

Lemma quiet_verify l : respects quiet (verify_custom_allocations (P := P) (W := W) l).
Proof. unfold verify_custom_allocations, VerifyCustomAllocationForTensor, for_tensors, tensor_ref. walk. Qed.

Lemma quiet_ResetVariableTensors : respects quiet (ResetVariableTensors (P := P) (W := W)).
Proof. unfold ResetVariableTensors, tensor_ref. walk. Qed.

Lemma quiet_InitializeTensorReleaseMap : respects quiet (InitializeTensorReleaseMap (P := P) (W := W)).
Proof. unfold InitializeTensorReleaseMap, for_plan, tensor. walk. Qed.

Lemma quiet_free_delegated : respects quiet (free_delegated_temporaries (P := P) (W := W)).
Proof. unfold free_delegated_temporaries, set_tensor. walk. Qed.
#[local] Hint Resolve quiet_if_planner : respects.

Lemma quiet_reuse_allocations : respects quiet (reuse_allocations (P := P) (W := W)).
Proof. unfold reuse_allocations, VerifyCustomAllocationForTensor, tensor_ref, if_planner. walk. Qed.

(** Between the steps of the loop of [InvokeImpl]. *)
Lemma quiet_check_input n k i : respects quiet (check_input n k i).
Proof. unfold check_input, node_ref, tensor_ref. walk. Qed.

Lemma quiet_MayAllocateOpOutput n : respects quiet (MayAllocateOpOutput (P := P) (W := W) n).
Proof. unfold MayAllocateOpOutput, ShouldOptimizeMemoryForLargeTensors, option_set, for_tensors, tensor_ref. walk. Qed.

Lemma quiet_check_cancellation : respects quiet check_cancellation.
Proof. unfold check_cancellation, IsCancelled. walk. Qed.

Lemma quiet_MaybeReleaseDynamicTensors n : respects quiet (MaybeReleaseDynamicTensors (P := P) (W := W) n).
Proof. unfold MaybeReleaseDynamicTensors, ShouldReleaseDynamicTensors, option_set, release_dynamic, tensor. walk. Qed.
End Calls.

#[export] Hint Resolve quiet_EnsureTensorDataIsReadable quiet_SetBufferHandle quiet_node_arrays
  quiet_HasDynamicTensorImpl quiet_HasDynamicTensor quiet_if_planner quiet_make_planner quiet_verify
  quiet_ResetVariableTensors quiet_InitializeTensorReleaseMap quiet_free_delegated
  quiet_reuse_allocations quiet_check_input quiet_MayAllocateOpOutput quiet_check_cancellation
  quiet_MaybeReleaseDynamicTensors quiet_ResizeTensorImpl quiet_Cancel : respects.

(** ** The prefix of the plan that is prepared *)

Lemma prepared_first_app tr evs : prepared_first tr ->
  (forall k n, evs !! k = Some (Invoked n) -> Prepared n ∈ tr) -> prepared_first (tr ++ evs).
Proof.
  intros Htr Hevs k n [Hk|[Hle Hk]]%lookup_app_Some.
  - rewrite take_app_le by (apply lookup_lt_Some in Hk; lia). by apply Htr.
  - rewrite take_app_ge by done. apply elem_of_app. left. by eapply Hevs.
Qed.

(** A kernel of the plain interface that has a function to prepare it. *)
Definition prepares (reg : TfLiteRegistration) : Prop :=
  registration_external reg = 0 /\ exists f, reg_prepare reg = Some f.

Section Prefix.
Context {P W : Type} {MP : MemoryPlanner P} {NP : NewPlanner P} {MM : Malloc} {SS : StdSort}.
Abbreviation S := (sgstate P W).
Context {SB : Siblings W} {CB : Callbacks S} {CBOk : CallbacksOk CB} (trace : W -> list event) {HT : Traced CB trace}.
Implicit Types s : S.
Abbreviation quiet := (quiet trace).
Abbreviation events := (events trace).

(** The plan and its kernels, which no delegate changed. *)
Context (plan : list Z) (regs : list TfLiteRegistration) (opts : option InterpreterOptions).

Definition undelegated (g : Subgraph P) : Prop :=
  execution_plan_ g = plan /\ pre_delegation_execution_plan_ g = [] /\ delegates_undone_ g = false /\
  snd <$> nodes_and_registration_ g = regs /\ options_ g = opts.

Definition prepared_upto (k : Z) s : Prop :=
  forall j n, 0 <= j < k -> plan.[j] = Some n -> Prepared n ∈ events s.

Definition base s : Prop := undelegated (sg_graph s) /\ prepared_first (events s).

(** The nodes before the next one to prepare are prepared. *)
Definition current s : Prop :=
  base s /\ 0 <= next_execution_plan_index_to_prepare_ (sg_graph s) /\
  prepared_upto (next_execution_plan_index_to_prepare_ (sg_graph s)) s.

(** They are wherever the graph can be invoked. *)
Definition safe s : Prop := base s /\ (state_ (sg_graph s) <> kStateUninvokable -> current s).

Lemma events_quiet s s' n : quiet s s' -> Prepared n ∈ events s -> Prepared n ∈ events s'.
Proof. intros [_ (evs & -> & _)] Hn. apply elem_of_app. by left. Qed.

Lemma quiet_same_position s s' : quiet s s' ->
  undelegated (sg_graph s') = undelegated (sg_graph s) /\
  state_ (sg_graph s') = state_ (sg_graph s) /\
  next_execution_plan_index_to_prepare_ (sg_graph s') = next_execution_plan_index_to_prepare_ (sg_graph s).
Proof.
  intros [Hp _]. unfold position in Hp. injection Hp as E1 E2 E3 E4 E5 E6 E7. unfold undelegated.
  by rewrite E2, E4, E5, E6, E7.
Qed.

Lemma base_quiet s s' : quiet s s' -> base s -> base s'.
Proof.
  intros Hq [Hu Hf]. split; [by rewrite (proj1 (quiet_same_position _ _ Hq))|].
  destruct Hq as [_ (evs & -> & Hevs)]. apply prepared_first_app; [done|].
  intros k n Hk%list_elem_of_lookup_2. by apply Hevs in Hk.
Qed.

Lemma prepared_quiet k s s' : quiet s s' -> prepared_upto k s -> prepared_upto k s'.
Proof. intros Hq Hk j n Hj Hn. eapply events_quiet; [exact Hq|by eapply Hk]. Qed.

Lemma current_quiet s s' : quiet s s' -> current s -> current s'.
Proof.
  intros Hq (Hb & Hn & Hk). unfold current. rewrite (proj2 (proj2 (quiet_same_position _ _ Hq))).
  split_and!; [by eapply base_quiet|done|by eapply prepared_quiet].
Qed.

Lemma safe_quiet s s' : quiet s s' -> safe s -> safe s'.
Proof.
  intros Hq [Hb Hc]. split; [by eapply base_quiet|].
  rewrite (proj1 (proj2 (quiet_same_position _ _ Hq))). intros Hst. eapply current_quiet; [exact Hq|auto].
Qed.

Lemma current_safe s : current s -> safe s.
Proof. intros Hc. by split; [apply Hc|]. Qed.
End Prefix.

(** ** Preparing *)

Section Prepare.
Context {P W : Type} {MP : MemoryPlanner P} {NP : NewPlanner P} {MM : Malloc} {SS : StdSort}.
Abbreviation S := (sgstate P W).
Context {SB : Siblings W} {CB : Callbacks S} {CBOk : CallbacksOk CB} (trace : W -> list event) {HT : Traced CB trace}.
Context (plan : list Z) (regs : list TfLiteRegistration) (opts : option InterpreterOptions).
Context (Hplan : Forall (fun n => exists reg, regs.[n] = Some reg /\ prepares reg) plan).
Implicit Types s : S.
Abbreviation quiet := (quiet trace).
Abbreviation events := (events trace).
Abbreviation base := (base trace plan regs opts).
Abbreviation current := (current trace plan regs opts).
Abbreviation safe := (safe trace plan regs opts).
Abbreviation undelegated := (undelegated plan regs opts).
Abbreviation prepared_upto := (prepared_upto trace plan).

Lemma quiet_call_prepare f d n : respects quiet (call_prepare f d n).
Proof.
  intros s. destruct (call_prepare_events trace f d n s) as [Hp He]. split; [done|].
  exists [Prepared n]. split; [done|]. intros m. rewrite list_elem_of_singleton. done.
Qed.
#[local] Hint Resolve quiet_call_prepare : respects.

Lemma quiet_OpPrepare reg n : respects quiet (OpPrepare reg n).
Proof. unfold OpPrepare, op_dispatch, node_ref. walk. Qed.
#[local] Hint Resolve quiet_OpPrepare : respects.

Lemma quiet_prepare_ops rest last : respects quiet (prepare_ops rest last).
Proof. revert last. induction rest as [|[k n] rest IH]; intros last; cbn; unfold node_ref; walk; apply IH. Qed.
#[local] Hint Resolve quiet_prepare_ops : respects.

Lemma quiet_PrepareOpsStartingAt k l last : respects quiet (PrepareOpsStartingAt k l last).
Proof. unfold PrepareOpsStartingAt. walk. Qed.

Lemma OpPrepare_prepares reg n s : prepares reg -> Prepared n ∈ events (snd (OpPrepare reg n s)).
Proof.
  intros [He [f Hf]]. unfold OpPrepare, op_dispatch. rewrite He, Hf. cbn.
  rewrite (proj2 (call_prepare_events trace f None n s)). apply elem_of_app. right. set_solver.
Qed.

(** The registration of a node of the plan. *)
Lemma plan_node n s : n ∈ plan -> undelegated (sg_graph s) ->
  exists nd reg, (nodes_and_registration_ (sg_graph s)).[n] = Some (nd, reg) /\ prepares reg.
Proof.
  intros Hn (_ & _ & _ & Hr & _). rewrite Forall_forall in Hplan. destruct (Hplan _ Hn) as (reg & Hreg & Hp).
  rewrite <- Hr in Hreg. apply zlookup_some in Hreg as [Hb Hl].
  rewrite list_lookup_fmap in Hl. destruct (_ !! _) as [[nd reg']|] eqn:Hl'; [|done]. injection Hl as ->.
  exists nd, reg. split; [|done]. apply zlookup_some. split; [|done]. unfold zlength in *. by rewrite length_fmap in Hb.
Qed.

Definition indexed (first : Z) (rest : list (Z * Z)) : Prop :=
  forall i j m, rest !! i = Some (j, m) -> j = first + Z.of_nat i /\ plan.[j] = Some m.

Definition upto (k : Z) s : Prop := undelegated (sg_graph s) /\ prepared_upto k s.

Lemma upto_quiet k s s' : quiet s s' -> upto k s -> upto k s'.
Proof.
  intros Hq [Hu Hk]. split; [by rewrite (proj1 (quiet_same_position trace plan regs opts _ _ Hq))|].
  by eapply prepared_quiet.
Qed.

Lemma leaves_quiet {A} k (c : M S A) : respects quiet c -> leaves (upto k) c (fun _ => upto k) (fun _ => True).
Proof.
  intros Hc. eapply leaves_conseq; [apply (respects_leaves quiet (upto k) c Hc)|done..].
  apply upto_quiet.
Qed.

(** One more node. *)
Lemma OpPrepare_upto k n reg : prepares reg -> plan.[k] = Some n ->
  leaves (upto k) (status_call (OpPrepare reg n)) (fun _ => upto (k + 1)) (fun _ => True).
Proof.
  intros Hreg Hn s Hs. pose proof (quiet_OpPrepare reg n s) as Hq.
  pose proof (OpPrepare_prepares reg n s Hreg) as Hdone. pose proof (upto_quiet k _ _ Hq Hs) as [Hu Hk].
  assert (upto (k + 1) (snd (OpPrepare reg n s))); [|unfold status_call; by destruct (OpPrepare reg n s) as [[]]].
  split; [done|]. intros j m Hj Hm. destruct (Z.eq_dec j k) as [->|Hne]; [congruence|]. apply (Hk j m); [lia|done].
Qed.

Lemma node_ref_upto k n : n ∈ plan ->
  leaves (upto k) (node_ref n) (fun nr s => prepares (snd nr) /\ upto k s) (fun _ => True).
Proof.
  intros Hn s Hs. destruct (plan_node n s Hn (proj1 Hs)) as (nd & reg & Hnode & Hreg).
  unfold node_ref. rewrite (bind_done this _ s (sg_graph s) s), Hnode by done. done.
Qed.

(** The nodes up to the index returned are prepared. *)
Lemma prepare_ops_upto rest first last : indexed first rest ->
  leaves (upto first) (prepare_ops rest last)
    (fun k s => match rest with [] => k = last /\ upto first s | _ => first <= k /\ upto (k + 1) s end)
    (fun _ => True).
Proof.
  revert first last. induction rest as [|[j n] rest IH]; intros first last Hidx; [by apply leaves_ret|].
  destruct (Hidx 0%nat j n eq_refl) as [Hj Hjn]. assert (j = first) as -> by lia. clear Hj.
  cbn [prepare_ops]. eapply leaves_bind.
  { apply node_ref_upto. apply zlookup_some in Hjn as [_ H]. by eapply list_elem_of_lookup_2. }
  intros nr. apply leaves_assume. intros Hreg.
  eapply leaves_bind; [by apply OpPrepare_upto|]. intros st.
  destruct (_ && _); [done|].
  eapply leaves_bind; [apply leaves_quiet; auto with respects|]. intros nd.
  eapply leaves_bind; [apply leaves_quiet; auto with respects|]. intros dyn.
  destruct (_ || _).
  - eapply leaves_bind; [apply leaves_quiet; auto with respects|]. intros []. apply leaves_ret. auto with lia.
  - eapply leaves_conseq; [apply (IH (first + 1))|done| |done].
    + intros i j m Hi. destruct (Hidx (Datatypes.S i) j m Hi). split; [lia|done].
    + intros k s. destruct rest; [intros [-> ?]|intros [? ?]]; (split; [lia|done]).
Qed.

Lemma PrepareOpsStartingAt_upto first : 0 <= first ->
  leaves (upto first) (PrepareOpsStartingAt first plan 0)
    (fun k s => (first < zlength plan -> first <= k) /\ 0 <= k /\ upto (k + 1) s) (fun _ => True).
Proof.
  intros Hf. unfold PrepareOpsStartingAt. eapply leaves_bind.
  { apply leaves_quiet. walk. }
  intros []. eapply leaves_conseq; [apply prepare_ops_upto|done| |done].
  - intros i j m Hi. rewrite lookup_drop in Hi. unfold enumerate in Hi. rewrite list_lookup_imap in Hi.
    destruct (plan !! _) as [m'|] eqn:Hm; [|done]. injection Hi as <- <-.
    split; [lia|]. apply zlookup_some. apply lookup_lt_Some in Hm as Hlt. unfold zlength. rewrite Nat2Z.id.
    split; [lia|done].
  - intros k s. destruct (drop _ _) as [|jn rest] eqn:Hd; [intros [-> Hs]|intros [? ?]; by split_and!; [|lia|]].
    assert (Hlen : zlength plan <= first).
    { apply (f_equal length) in Hd. unfold enumerate in Hd. rewrite length_drop, length_imap in Hd.
      cbn in Hd. unfold zlength. lia. }
    split_and!; [lia|lia|]. destruct Hs as [Hu Hk]. split; [done|]. intros j m Hj Hm.
    apply (Hk j m); [|done]. apply zlookup_some in Hm as [? _]. lia.
Qed.

(** ** Preparing moves the index forward *)

Abbreviation next s := (next_execution_plan_index_to_prepare_ (sg_graph s)).

(** The prefix is current, and at least [k] long. *)
Definition reaches (k : Z) s : Prop := current s /\ k <= next s.

Lemma reaches_quiet k s s' : quiet s s' -> reaches k s -> reaches k s'.
Proof.
  intros Hq [Hc Hk]. split; [by eapply current_quiet|].
  by rewrite (proj2 (proj2 (quiet_same_position trace plan regs opts _ _ Hq))).
Qed.

Lemma leaves_reaches {A} k (c : M S A) : respects quiet c -> leaves (reaches k) c (fun _ => reaches k) current.
Proof.
  intros Hc. eapply leaves_conseq; [apply (respects_leaves quiet (reaches k) c Hc)|done|done|by intros s []].
  apply reaches_quiet.
Qed.

Lemma prepare_original_plan_none s : undelegated (sg_graph s) -> prepare_original_plan s = (Done tt, s).
Proof.
  intros (_ & Hpre & _). unfold prepare_original_plan.
  rewrite (bind_done this _ s (sg_graph s) s), Hpre by done. done.
Qed.

Lemma PrepareOpsStartingAt_current k s : current s -> k = next s ->
  match PrepareOpsStartingAt k plan 0 s with
  | (Done last, s') => base s' /\ 0 <= last /\ (k < zlength plan -> k <= last) /\ prepared_upto (last + 1) s'
  | (_, s') => current s'
  end.
Proof.
  intros Hs ->. pose proof (current_quiet trace plan regs opts _ _ (quiet_PrepareOpsStartingAt (next s) plan 0 s) Hs) as Hs'.
  destruct Hs as (Hb & Hn & Hup). pose proof (PrepareOpsStartingAt_upto (next s) Hn s (conj (proj1 Hb) Hup)) as Hrun.
  destruct (PrepareOpsStartingAt _ _ _ s) as [[last|e|] s1]; [|done..]. cbn [snd] in Hs'.
  destruct Hrun as (Hle & Hlast & _ & Hup'). split_and!; [apply Hs'|done|done|done].
Qed.
#[local] Hint Resolve leaves_reaches : respects.

Lemma PrepareOpsAndTensors_current k :
  leaves (fun s => current s /\ k = next s) PrepareOpsAndTensors
    (fun _ => reaches (if k <? zlength plan then k + 1 else 0)) current.
Proof.
  intros s [Hs Hk]. unfold PrepareOpsAndTensors.
  rewrite (bind_done _ _ _ _ _ (prepare_original_plan_none s (proj1 (proj1 Hs)))).
  rewrite (bind_done this _ s (sg_graph s) s) by done.
  assert (execution_plan_ (sg_graph s) = plan) as -> by apply Hs. rewrite <- Hk.
  pose proof (PrepareOpsStartingAt_current k s Hs Hk) as Hrun. unfold bind at 1.
  destruct (PrepareOpsStartingAt k plan 0 s) as [[last|e|] s1]; [|done..].
  destruct Hrun as (Hb & Hlast & Hle & Hup).
  set (s2 := SG (sg_heap s1) (set_next_execution_plan_index_to_prepare_ (last + 1) (sg_graph s1)) (sg_world s1)).
  rewrite (bind_done (upd _) _ s1 tt s2) by done.
  assert (Hs2 : reaches (if k <? zlength plan then k + 1 else 0) s2).
  { split; [split_and!; [exact Hb|cbn; lia|exact Hup]|]. cbn. destruct (Z.ltb_spec k (zlength plan)); lia. }
  clearbody s2. revert Hs2. generalize (if k <? zlength plan then k + 1 else 0). intros n Hs2.
  refine ((_ : leaves (reaches n) _ (fun _ => reaches n) current) s2 Hs2).
  apply leaves_reaches. walk.
Qed.
End Prepare.

(** ** Allocating and running *)

Section Running.
Context {P W : Type} {MP : MemoryPlanner P} {NP : NewPlanner P} {MM : Malloc} {SS : StdSort}.
Abbreviation S := (sgstate P W).
Context {SB : Siblings W} {DC : Decompositions P W} {CB : Callbacks S} {CBOk : CallbacksOk CB} (trace : W -> list event) {HT : Traced CB trace}.
Context (plan : list Z) (regs : list TfLiteRegistration) (opts : option InterpreterOptions).
Context (Hplan : Forall (fun n => exists reg, regs.[n] = Some reg /\ prepares reg) plan).
Implicit Types s : S.
Abbreviation quiet := (quiet trace).
Abbreviation events := (events trace).
Abbreviation base := (base trace plan regs opts).
Abbreviation current := (current trace plan regs opts).
Abbreviation safe := (safe trace plan regs opts).
Abbreviation reaches := (reaches trace plan regs opts).
Abbreviation next s := (next_execution_plan_index_to_prepare_ (sg_graph s)).
#[local] Hint Resolve leaves_reaches current_safe quiet_OpPrepare : respects.

Lemma leaves_current {A} (c : M S A) : respects quiet c -> leaves current c (fun _ => current) current.
Proof. intros Hc. apply (respects_leaves quiet); [done|]. apply current_quiet. Qed.

Lemma reallocate_safe : leaves safe reallocate (fun _ => current) safe.
Proof.
  unfold reallocate. eapply leaves_bind with (Q' := fun _ s => current s /\ 0 = next s).
  { apply leaves_modify. intros s [[Hu Hf] _]. split; [|done]. split_and!; [done|done|intros j n; cbn; lia]. }
  intros _. eapply leaves_conseq with (Q := fun _ => current) (R := current);
    [|intros s; exact id|done|apply current_safe].
  assert (Hzero : forall c : M S unit, respects quiet c ->
    leaves (fun s => current s /\ 0 = next s) c (fun _ s => current s /\ 0 = next s) current).
  { intros c Hc s [Hs Hz]. pose proof (current_quiet trace plan regs opts _ _ (Hc s) Hs).
    pose proof (proj2 (proj2 (quiet_same_position trace plan regs opts _ _ (Hc s)))) as Hn.
    destruct (c s) as [[[]|e|] s']; [|done..]. cbn in Hn. by rewrite Hn. }
  eapply leaves_bind; [apply Hzero; walk|intros []].
  eapply leaves_bind; [apply Hzero; walk|intros []].
  eapply leaves_bind; [apply Hzero; unfold if_planner; walk|intros []].
  eapply leaves_bind; [by apply PrepareOpsAndTensors_current|intros []].
  eapply leaves_bind with (Q' := fun _ => current); [|intros []; apply leaves_current; walk].
  apply leaves_modify. by intros s [Hs _].
Qed.

Lemma allocate_tensors_safe : leaves safe allocate_tensors (fun _ => safe) safe.
Proof.
  assert (Hq : forall (A : Type) (c : M S A), respects quiet c -> leaves safe c (fun _ => safe) safe).
  { intros A c Hc. apply (respects_leaves quiet); [done|]. apply safe_quiet. }
  unfold allocate_tensors. eapply leaves_bind; [apply Hq; walk|intros g].
  eapply leaves_bind; [apply Hq; walk|intros [|]]; [apply Hq; walk|].
  eapply leaves_conseq; [apply reallocate_safe|done|intros [] s; apply current_safe|done].
Qed.

(** A kernel whose node is in the prepared prefix. *)
Lemma run_node_reaches k n : plan.[k] = Some n -> 0 <= k ->
  leaves (reaches (k + 1)) (run_node n) (fun _ => reaches (k + 1)) current.
Proof.
  intros Hn Hk. unfold run_node. eapply leaves_bind with (Q' := fun nr s => prepares (snd nr) /\ reaches (k + 1) s).
  { intros s Hs. assert (Hin : n ∈ plan) by (apply zlookup_some in Hn as [_ H]; by eapply list_elem_of_lookup_2).
    destruct (plan_node plan regs opts Hplan n s Hin (proj1 (proj1 (proj1 Hs)))) as (nd & reg & Hnode & Hreg).
    unfold node_ref. by rewrite (bind_done this _ s (sg_graph s) s), Hnode. }
  intros [nd reg]. apply leaves_assume. intros [Hext _]. cbn [snd] in Hext.
  eapply leaves_bind; [apply leaves_reaches; walk|intros []].
  eapply leaves_bind with (Q' := fun _ => reaches (k + 1)); [|intros []; apply leaves_reaches; walk].
  intros s Hs. assert (Hinv : OpInvoke reg n s = match reg_invoke reg with
    | Some f => call_invoke f None n s | None => (Fail kTfLiteError, s) end).
  { unfold OpInvoke, op_dispatch. rewrite Hext. by destruct (reg_invoke reg). }
  unfold status_call. cbn [snd]. rewrite Hinv. destruct (reg_invoke reg) as [f|]; [|exact Hs].
  destruct (call_invoke_events trace f None n s) as [Hp He].
  assert (Hs' : reaches (k + 1) (snd (call_invoke f None n s))).
  { destruct Hs as [((Hu & Hf) & Hnn & Hup) Hle].
    unfold position in Hp. injection Hp as E1 E2 E3 E4 E5 E6 E7.
    assert (Hpn : Prepared n ∈ events s) by (apply (Hup k n); [lia|done]).
    unfold SubgraphOrder.reaches, SubgraphOrder.current, SubgraphOrder.base, undelegated.
    rewrite E2, E3, E4, E5, E6, E7, He. split_and!; try apply Hu; [|done| |done].
    - apply prepared_first_app; [done|]. intros [|?] m; [intros [= ->]; exact Hpn|done].
    - intros j m Hj Hm. rewrite He. apply elem_of_app. left. by apply (Hup j m). }
  destruct (call_invoke f None n s) as [[[]|e|] s']; [exact Hs'|exact Hs'|apply Hs'].
Qed.

Lemma force_prepare_reaches k n : 0 <= k ->
  leaves (reaches (k + 1)) (force_prepare k n) (fun _ => reaches (k + 1)) current.
Proof.
  intros Hk. unfold force_prepare.
  eapply leaves_bind; [apply leaves_reaches; walk|intros g].
  eapply leaves_bind; [apply leaves_reaches; walk|intros nd].
  eapply leaves_bind; [apply leaves_reaches; walk|intros [i|]]; [|apply leaves_reaches; walk].
  eapply leaves_bind with (Q' := fun _ => reaches (k + 1)); [|intros []; apply leaves_reaches; walk].
  apply leaves_modify. intros s [(Hb & Hn & Hup) Hle]. split; [|cbn; lia].
  split_and!; [done|cbn; lia|]. intros j m Hj. apply Hup. cbn in Hj. lia.
Qed.

Lemma invoke_node_reaches k : 0 <= k < zlength plan ->
  leaves (reaches k) (invoke_node k) (fun _ => reaches (k + 1)) current.
Proof.
  intros Hk. unfold invoke_node.
  eapply leaves_bind with (Q' := fun g s => g = sg_graph s /\ reaches k s); [by intros s Hs|intros g].
  eapply leaves_bind with (Q' := fun _ => reaches (k + 1)).
  { destruct (Z.eqb_spec k (next_execution_plan_index_to_prepare_ g)) as [Heq|Hne].
    - eapply leaves_bind with (Q' := fun _ => reaches (k + 1)); [|intros []; apply leaves_reaches; walk].
      intros s [-> [Hc _]]. pose proof (PrepareOpsAndTensors_current trace plan regs opts Hplan k s (conj Hc Heq)) as Hrun.
      by rewrite (proj2 (Z.ltb_lt _ _) (proj2 Hk)) in Hrun.
    - apply leaves_ret. intros s [-> [Hc Hle]]. split; [done|lia]. }
  intros []. eapply leaves_bind with (Q' := fun g s => execution_plan_ g = plan /\ reaches (k + 1) s).
  { intros s Hs. split; [apply Hs|done]. }
  clear g. intros g. apply leaves_assume. intros ->.
  destruct (plan.[k]) as [n|] eqn:Hn; [|by intros s []].
  eapply leaves_bind with (Q' := fun x s => x = n /\ reaches (k + 1) s); [by apply leaves_ret|intros x].
  apply leaves_assume. intros ->.
  eapply leaves_bind; [apply leaves_reaches; walk|intros nd].
  eapply leaves_bind; [apply leaves_reaches; walk|intros []].
  eapply leaves_bind; [apply leaves_reaches; walk|intros []].
  eapply leaves_bind; [apply leaves_reaches; walk|intros []].
  eapply leaves_bind; [apply run_node_reaches; [done|lia]|intros []].
  eapply leaves_bind; [apply force_prepare_reaches; lia|intros []].
  apply leaves_reaches. walk.
Qed.

Lemma Invoke_safe : leaves safe Invoke (fun _ => safe) safe.
Proof.
  intros s Hs. unfold Invoke, InvokeImpl. rewrite (bind_done this _ s (sg_graph s) s) by done.
  destruct (negb _); [exact Hs|]. case_bool_decide as Hst; [exact Hs|].
  assert (Hc : current s) by by apply Hs. assert (execution_plan_ (sg_graph s) = plan) as -> by exact (proj1 (proj1 (proj1 Hs))).
  clear Hs Hst. generalize (memory_planner_ (sg_graph s)). intros p. revert s Hc.
  enough (H : leaves current (let* available := match p with
      | Some _ => on_planner HasNonPersistentMemory | None => ret true end in
    if negb available then fail kTfLiteError
    else for_each (zrange 0 (zlength plan - 1)) invoke_node) (fun _ => current) current).
  { intros s Hc. refine (leaves_conseq _ _ _ _ _ _ _ H _ _ _ s Hc); [done|intros [] s'|]; apply current_safe. }
  eapply leaves_bind; [apply leaves_current; walk|intros [|]]; [|by intros s Hc].
  eapply leaves_conseq with (P := reaches 0) (Q := fun _ => reaches (zlength (zrange 0 (zlength plan - 1))))
    (R := current); [|intros s Hc; split; [exact Hc|apply Hc]|by intros [] s []|done].
  apply (leaves_for_each (fun pre => reaches (zlength pre))); [by intros s []|].
  intros pre k rest Heq. pose proof (zrange_split _ _ _ _ _ Heq) as Hpre.
  pose proof (zlength_nonneg pre). assert (Hk : k = zlength pre /\ k < zlength plan).
  { assert (Hin : k ∈ zrange 0 (zlength plan - 1)) by (rewrite Heq; set_solver).
    apply elem_of_zrange in Hin. split; [|lia]. rewrite Hpre. unfold zlength.
    rewrite length_zrange. lia. }
  destruct Hk as [-> Hlt]. rewrite zlength_app. apply invoke_node_reaches. lia.
Qed.

(** ** The other operations between allocating and running *)

Definition keeps_safe s s' : Prop := safe s -> safe s'.

#[local] Instance keeps_safe_preorder : PreOrder keeps_safe.
Proof. split; unfold keeps_safe; auto. Qed.

Lemma keeps_quiet {A} (c : M S A) : respects quiet c -> respects keeps_safe c.
Proof. intros Hc s Hs. by eapply safe_quiet; [apply Hc|]. Qed.

Lemma keeps_uninvokable : respects keeps_safe (upd (P := P) (W := W) (set_state_ kStateUninvokable)).
Proof. intros s [[Hu Hf] _]. split; [|done]. done. Qed.

Lemma keeps_leaves {A} (c : M S A) : leaves safe c (fun _ => safe) safe -> respects keeps_safe c.
Proof. intros Hc s Hs. specialize (Hc s Hs). by destruct (c s) as [[]]. Qed.

Lemma keeps_UndoAllDelegates : respects keeps_safe (UndoAllDelegates (P := P) (W := W)).
Proof.
  intros s Hs. unfold UndoAllDelegates. rewrite (bind_done this _ s (sg_graph s) s) by done.
  destruct Hs as [[(Hp & Hpre & Hr) Hf] Hc]. by rewrite Hpre.
Qed.

Lemma keeps_Invoke : respects keeps_safe Invoke.
Proof. apply keeps_leaves, Invoke_safe. Qed.
#[local] Hint Resolve keeps_uninvokable keeps_UndoAllDelegates keeps_Invoke : respects.
#[local] Hint Extern 5 (respects keeps_safe _) => (apply keeps_quiet) : respects.

(** The operations that neither build the graph nor delegate it. *)
Definition running (op : operation) : bool :=
  match op with
  | op_AllocateTensors | op_Invoke | op_ResizeInputTensor _ _ _ | op_ResizeInputTensorStrict _ _
  | op_ReleaseNonPersistentMemory | op_ReleaseMemory | op_ResetVariableTensors
  | op_SetCustomAllocationForTensor _ _ _ | op_SetBufferHandle _ _ _ _
  | op_EnsureTensorDataIsReadable _ | op_SetCancellationFunction _ _ | op_EnableCancellation _
  | op_Cancel => true
  | _ => false
  end.

Lemma running_safe op : running op = true -> op <> op_AllocateTensors -> respects keeps_safe (run_op op).
Proof.
  destruct op; try done; intros _ _; cbn [run_op];
    unfold SetCancellationFunction, EnableCancellation, ResizeInputTensorStrict, ResizeInputTensor,
      check_tensor_index, ReleaseMemory, ReleaseNonPersistentMemory, if_planner, free_dynamic,
      for_tensors, tensor, SetCustomAllocationForTensor, set_tensor, tensor_ref; walk.
Qed.
End Running.

(** ** Inlining composites *)

(** The nodes that are inserted for a decomposition. *)
Definition inserted_plan {P : Type} (sub : Subgraph P) : list Z :=
  match pre_delegation_execution_plan_ sub with [] => execution_plan_ sub | plan => plan end.

Definition kernels_prepare (regs : list TfLiteRegistration) (plan : list Z) : Prop :=
  Forall (fun n => exists reg, regs.[n] = Some reg /\ prepares reg) plan.

(** The kernels of the plan of the graph. *)
Definition plan_prepares {P : Type} (g : Subgraph P) (plan : list Z) : Prop :=
  Forall (fun n => exists nd reg, (nodes_and_registration_ g).[n] = Some (nd, reg) /\ prepares reg) plan.

(** Every decomposition has nodes, whose kernels prepare. *)
Definition decompositions_prepare {P W : Type} {DC : Decompositions P W} : Prop :=
  forall (w : W) i sub, subgraph_at w i = Some sub ->
    inserted_plan sub <> [] /\ plan_prepares sub (inserted_plan sub).

Lemma plan_regs {P : Type} (g : Subgraph P) (Q : TfLiteRegistration -> Prop) plan :
  Forall (fun n => exists nd reg, (nodes_and_registration_ g).[n] = Some (nd, reg) /\ Q reg) plan <->
  Forall (fun n => exists reg, (snd <$> nodes_and_registration_ g).[n] = Some reg /\ Q reg) plan.
Proof.
  apply Forall_iff. intros n. split.
  - intros (nd & reg & [Hb Hn]%zlookup_some & Hr). exists reg. split; [|done]. apply zlookup_some.
    unfold zlength. rewrite length_fmap, list_lookup_fmap, Hn. done.
  - intros (reg & [Hb Hl]%zlookup_some & Hr). rewrite list_lookup_fmap in Hl.
    destruct (_ !! _) as [[nd reg']|] eqn:Hl'; [|done]. injection Hl as ->. exists nd, reg. split; [|done].
    apply zlookup_some. split; [|done]. unfold zlength in *. by rewrite length_fmap in Hb.
Qed.

Lemma kernels_prepare_app regs more plan : kernels_prepare regs plan -> kernels_prepare (regs ++ more) plan.
Proof.
  intros H. eapply Forall_impl; [exact H|]. cbn. intros n (reg & [Hb Hn]%zlookup_some & Hr). exists reg.
  split; [|done]. apply zlookup_some. rewrite zlength_app. pose proof (zlength_nonneg more).
  split; [lia|]. by apply lookup_app_l_Some.
Qed.

Section Inlining.
Context {P W : Type} {MP : MemoryPlanner P} {NP : NewPlanner P} {MM : Malloc} {SS : StdSort}.
Abbreviation S := (sgstate P W).
Context {SB : Siblings W} {DC : Decompositions P W} {CB : Callbacks S} {CBOk : CallbacksOk CB} (trace : W -> list event) {HT : Traced CB trace}.
Implicit Types s : S.
Abbreviation quiet := (quiet trace).
Abbreviation regs s := (snd <$> nodes_and_registration_ (sg_graph s)).

Lemma quiet_call_init f d b l : respects quiet (call_init f d b l).
Proof. apply quiet_call; [apply init_acts|apply trace_init]. Qed.
#[local] Hint Resolve quiet_call_init : respects.

Lemma quiet_OpInit reg b l : respects quiet (OpInit reg b l).
Proof. unfold OpInit, op_dispatch, node_ref. walk. Qed.
#[local] Hint Resolve quiet_OpInit : respects.

(** Wherever the graph is safe with its own plan and kernels. *)
Definition Safe s : Prop :=
  kernels_prepare (regs s) (execution_plan_ (sg_graph s)) /\
  safe trace (execution_plan_ (sg_graph s)) (regs s) (options_ (sg_graph s)) s.

Lemma Safe_intro plan rs opts s : kernels_prepare rs plan -> safe trace plan rs opts s -> Safe s.
Proof. intros Hk Hs. pose proof Hs as [[(<- & _ & _ & <- & <-) _] _]. by split. Qed.

Lemma Safe_quiet s s' : quiet s s' -> Safe s -> Safe s'.
Proof. intros Hq [Hk Hs]. eapply Safe_intro; [exact Hk|]. by eapply safe_quiet. Qed.

Lemma leaves_Safe {A} (c : M S A) : respects quiet c -> leaves Safe c (fun _ => Safe) Safe.
Proof. intros Hc. apply (respects_leaves quiet); [done|apply Safe_quiet]. Qed.

(** A graph that cannot be invoked is safe if its plan is. *)
Lemma Safe_uninvokable s : kernels_prepare (regs s) (execution_plan_ (sg_graph s)) ->
  state_ (sg_graph s) = kStateUninvokable -> pre_delegation_execution_plan_ (sg_graph s) = [] ->
  delegates_undone_ (sg_graph s) = false -> prepared_first (events trace s) -> Safe s.
Proof. intros Hk Hst Hpre Hun Hf. split; [done|]. split; [by split|by intros []]. Qed.

(** *** Adding a node *)

(** [more] kernels were added since [s0], and [ns] to the plan. *)
Record grown (more : list TfLiteRegistration) (ns : list Z) s0 s : Prop := {
  grown_state : state_ (sg_graph s) = kStateUninvokable;
  grown_plan : execution_plan_ (sg_graph s) = execution_plan_ (sg_graph s0) ++ ns;
  grown_regs : regs s = regs s0 ++ more;
  grown_pre : pre_delegation_execution_plan_ (sg_graph s) = pre_delegation_execution_plan_ (sg_graph s0);
  grown_undone : delegates_undone_ (sg_graph s) = delegates_undone_ (sg_graph s0);
  grown_trace : exists evs, events trace s = events trace s0 ++ evs /\ (forall n, Invoked n ∉ evs) }.

Lemma grown_quiet more ns s0 s s' : quiet s s' -> grown more ns s0 s -> grown more ns s0 s'.
Proof.
  intros [Hp (evs & He & Hn)] [H1 H2 H3 H4 H5 (evs0 & He0 & Hn0)].
  unfold position in Hp. injection Hp as E1 E2 E3 E4 E5 E6 E7. split; try congruence.
  exists (evs0 ++ evs). rewrite He, He0, app_assoc. split; [done|]. set_solver.
Qed.

Lemma Safe_grown more ns s0 s : Safe s0 -> grown more ns s0 s -> kernels_prepare (regs s0 ++ more) ns -> Safe s.
Proof.
  intros [Hk [[(_ & Hpre & Hun & _) Hf] _]] [H1 H2 H3 H4 H5 (evs & He & Hn)] Hns. apply Safe_uninvokable; try congruence.
  - rewrite H2, H3. apply Forall_app. split; [by apply kernels_prepare_app|done].
  - rewrite He. apply prepared_first_app; [done|]. intros k n Hk'%list_elem_of_lookup_2. by apply Hn in Hk'.
Qed.

Lemma Safe_owning {A} data (c : M S A) Q R : leaves Q c R Safe -> leaves Q (owning data c) R Safe.
Proof.
  intros Hc s Hs. specialize (Hc s Hs). unfold owning. destruct (c s) as [[a|e|] s1]; [exact Hc| |exact Hc].
  assert (Hq : quiet s1 (snd (((if negb (data =? 0) then on_heap (free data) else ret tt) ;;; @fail _ A e) s1))).
  { generalize s1. change (respects quiet ((if negb (data =? 0) then on_heap (free data) else ret tt) ;;; @fail S A e)). walk. }
  pose proof (Safe_quiet _ _ Hq Hc) as H. revert H. unfold bind.
  destruct (negb _); [|done]. by destruct (on_heap (free data) s1) as [[]].
Qed.

Lemma quiet_CheckTensorIndices l : respects quiet (CheckTensorIndices (P := P) (W := W) l).
Proof. unfold CheckTensorIndices, for_tensors. walk. Qed.

Lemma quiet_Overlap l l' : respects quiet (CheckInputAndOutputForOverlap (P := P) (W := W) l l').
Proof. unfold CheckInputAndOutputForOverlap. walk. Qed.
#[local] Hint Resolve quiet_CheckTensorIndices quiet_Overlap : respects.

(** The rest of the call, from a graph whose state is set already. *)
Lemma added_node_grown ins outs ims id ids bd reg s0 : Safe s0 ->
  leaves (fun s => grown [] [] s0 s)
    (let* node_index := push_node ins outs ims in
     let* ud := (if negb (id =? 0) then OpInit reg id ids else OpInit reg bd 0) in
     if ud =? TfLiteKernelInitFailed then
       upd (fun g => set_freed_nodes_ ({[ node_index ]} ∪ freed_nodes_ g) g) ;;; fail kTfLiteError
     else finish_node node_index ud id ids bd reg ;;; ret node_index)
    (fun n s => n = zlength (regs s0) /\ grown [reg] [n] s0 s) Safe.
Proof.
  intros Hs0. set (k := zlength (regs s0)).
  assert (Hquiet : forall A (c : M S A), respects quiet c ->
    leaves (grown [OpResolver.registration_zero] [] s0) c (fun _ => grown [OpResolver.registration_zero] [] s0) Safe).
  { intros A c Hc. eapply leaves_conseq; [apply (respects_leaves quiet _ c Hc)|done|done|].
    - apply grown_quiet.
    - intros s Hs. eapply Safe_grown; [exact Hs0|exact Hs|constructor]. }
  eapply leaves_bind with (Q' := fun n s => n = k /\ grown [OpResolver.registration_zero] [] s0 s).
  { intros s [H1 H2 H3 H4 H5 H6]. cbn. split.
    - unfold k. rewrite app_nil_r in H3. rewrite <- H3. unfold zlength. by rewrite length_fmap.
    - split; cbn; try done. by rewrite fmap_app, H3, app_nil_r. }
  intros n. apply leaves_assume. intros ->.
  eapply leaves_bind; [apply Hquiet; walk|intros ud].
  destruct (ud =? _).
  - eapply leaves_bind; [apply Hquiet; walk|intros [] s Hs; exact (Safe_grown _ _ _ _ Hs0 Hs (Forall_nil_2 _))].
  - eapply leaves_bind with (Q' := fun _ => grown [reg] [k] s0); [|intros []; by apply leaves_ret].
    unfold finish_node. eapply leaves_bind; [apply Hquiet; walk|intros nd].
    eapply leaves_bind; [apply Hquiet; unfold OpMightHaveSideEffect; walk|intros e].
    eapply leaves_bind with (Q' := fun g s => g = sg_graph s /\ grown [OpResolver.registration_zero] [] s0 s); [by intros s Hs|intros g].
    intros s [-> Hs]. unfold bind at 1, access. destruct (zinsert _ _ _) as [l|] eqn:Hl; [|exact (Safe_grown _ _ _ _ Hs0 Hs (Forall_nil_2 _))].
    destruct Hs as [H1 H2 H3 H4 H5 H6]. cbn. split; cbn; try done.
    + by rewrite H2, app_nil_r.
    + unfold zinsert in Hl. destruct (_ || _); [done|]. injection Hl as <-.
      rewrite list_fmap_insert, H3. unfold k, zlength. rewrite Nat2Z.id, insert_app_r_alt, Nat.sub_diag by lia. done.
Qed.

(** *** A node of a decomposition *)

Lemma AddNode_grown ins outs ims id ids bd reg s0 : Safe s0 ->
  match AddNodeWithParameters ins outs ims id ids bd reg s0 with
  | (Done n, s) => n = zlength (regs s0) /\ grown [reg] [n] s0 s
  | (_, s) => Safe s
  end.
Proof.
  intros Hs0. refine (Safe_owning bd _ (fun s => s = s0) _ _ s0 eq_refl).
  eapply leaves_bind with (Q' := fun g s => g = sg_graph s0 /\ s = s0); [by intros s ->|intros g].
  apply leaves_assume. intros ->. case_bool_decide; [by intros s ->|].
  assert (Hquiet : forall A (c : M S A), respects quiet c -> leaves (grown [] [] s0) c (fun _ => grown [] [] s0) Safe).
  { intros A c Hc. eapply leaves_conseq; [apply (respects_leaves quiet _ c Hc)|done|done|].
    - apply grown_quiet.
    - intros s Hs. exact (Safe_grown _ _ _ _ Hs0 Hs (Forall_nil_2 _)). }
  eapply leaves_bind with (Q' := fun _ => grown [] [] s0).
  { intros s ->. split; cbn; try done; [by rewrite app_nil_r..|]. exists []. rewrite app_nil_r. split; [done|set_solver]. }
  intros []. eapply leaves_bind; [apply Hquiet; walk|intros []].
  eapply leaves_bind; [apply Hquiet; walk|intros []].
  eapply leaves_bind; [apply Hquiet; walk|intros []].
  by apply added_node_grown.
Qed.

(** While the nodes [l] are inserted: they prepare, and after the first the graph cannot be invoked. *)
Definition inserting (l : list Z) s : Prop :=
  Safe s /\ kernels_prepare (regs s) l /\ (l <> [] -> state_ (sg_graph s) = kStateUninvokable).

Lemma inserting_quiet l s s' : quiet s s' -> inserting l s -> inserting l s'.
Proof.
  intros Hq (Hs & Hl & Hst). pose proof (Safe_quiet _ _ Hq Hs) as Hs'. destruct Hq as [Hp _].
  unfold position in Hp. injection Hp as E1 E2 E3 E4 E5 E6 E7. unfold inserting. by rewrite E1, E6.
Qed.

Lemma leaves_inserting {A} l (c : M S A) : respects quiet c -> leaves (inserting l) c (fun _ => inserting l) Safe.
Proof.
  intros Hc. eapply leaves_conseq; [apply (respects_leaves quiet (inserting l) c Hc)|done|done|by intros s []].
  apply inserting_quiet.
Qed.

Lemma quiet_clone_builtin_data code data : respects quiet (on_heap (P := P) (W := W) (clone_builtin_data code data)).
Proof. walk. Qed.

Lemma clone_node_inserting sub off im om n l : (exists nd reg, (nodes_and_registration_ sub).[n] = Some (nd, reg) /\ prepares reg) ->
  leaves (inserting l) (clone_node sub off im om n) (fun c => inserting (l ++ [c])) Safe.
Proof.
  intros (nd & reg & Hn & Hreg). unfold clone_node. rewrite Hn.
  eapply leaves_bind with (Q' := fun nr s => nr = (nd, reg) /\ inserting l s); [by intros s Hs|intros nr].
  apply leaves_assume. intros ->. eapply leaves_bind; [apply leaves_inserting; walk|intros p].
  eapply leaves_bind; [apply leaves_inserting; walk|intros []].
  intros s (Hs & Hl & Hst). unfold bind at 1.
  match goal with |- context [AddNodeWithParameters ?a ?b ?c ?d ?e ?f ?g s] =>
    pose proof (AddNode_grown a b c d e f g s Hs) as Hadd; destruct (AddNodeWithParameters a b c d e f g s) as [[k|e'|] s1]; [|exact Hadd..] end.
  destruct Hadd as [-> Hg]. cbn. set (s2 := SG _ _ _).
  assert (Hk : kernels_prepare (regs s ++ [reg]) [zlength (regs s)]).
  { constructor; [|done]. exists reg. split; [|done]. apply zlookup_some. split.
    { pose proof (zlength_nonneg (regs s)). rewrite zlength_app. change (zlength [reg]) with 1. lia. }
    rewrite lookup_app_r; unfold zlength; rewrite Nat2Z.id; [by rewrite Nat.sub_diag|done]. }
  assert (Hg2 : grown [reg] [] s s2).
  { destruct Hg as [H1 H2 H3 H4 H5 H6]. split; try done. cbn. rewrite H2, app_nil_r. apply removelast_last. }
  split; [eapply Safe_grown; [exact Hs|exact Hg2|constructor]|]. split; [|intros _; apply Hg2].
  rewrite (grown_regs _ _ _ _ Hg2). apply Forall_app. split; [by apply kernels_prepare_app|done].
Qed.

Lemma clone_nodes_inserting sub off im om plan : plan_prepares sub plan ->
  leaves (inserting []) (for_fold plan [] (fun plan n => let* c := clone_node sub off im om n in ret (plan ++ [c])))
    (fun l s => inserting l s /\ (plan <> [] -> l <> [])) Safe.
Proof.
  intros Hplan. cut (forall l, leaves (inserting l)
    (for_fold plan l (fun plan n => let* c := clone_node sub off im om n in ret (plan ++ [c])))
    (fun l' s => inserting l' s /\ (length l + length plan <= length l')%nat) Safe).
  { intros H. eapply leaves_conseq; [apply (H [])|done| |done]. intros l s [Hl Hlen]. split; [done|].
    intros Hne ->. destruct plan; [done|]. cbn in Hlen. lia. }
  induction Hplan as [|n plan Hn Hplan IH]; intros l; [by apply leaves_ret; intros s Hs; cbn; split; [|lia]|].
  intros s Hs. rewrite for_fold_cons, bind_assoc. revert s Hs.
  refine (_ : leaves (inserting l) _ (fun l' s => inserting l' s /\ (length l + length (n :: plan) <= length l')%nat) Safe).
  eapply leaves_bind; [by apply clone_node_inserting|intros c]. intros s Hs. rewrite bind_ret. revert s Hs.
  refine (_ : leaves (inserting (l ++ [c])) _ (fun l' s => inserting l' s /\ (length l + length (n :: plan) <= length l')%nat) Safe).
  eapply leaves_conseq; [apply IH|done| |done]. intros l' s [Hl' Hlen]. rewrite length_app in Hlen. cbn in *. split; [done|lia].
Qed.

(** *** The decomposition in the place of its node *)

Context (Hdecs : decompositions_prepare (P := P) (W := W)).

Lemma quiet_tensor_map keys values : respects quiet (tensor_map (P := P) (W := W) keys values).
Proof. unfold tensor_map. walk. Qed.

Lemma quiet_clone_tensors l : respects quiet (clone_tensors (W := W) l).
Proof. unfold clone_tensors, set_tensor. pose proof (quiet_AddTensors (P := P) (W := W) trace (zlength l)). walk. Qed.
#[local] Hint Resolve quiet_tensor_map quiet_clone_tensors : respects.

Lemma decomposition_Safe i : leaves Safe (decomposition i)
  (fun sub s => (inserted_plan sub <> [] /\ plan_prepares sub (inserted_plan sub)) /\ Safe s) Safe.
Proof.
  intros s Hs. unfold decomposition. destruct (_ <? _); [|exact Hs]. cbn [ensure]. rewrite bind_ret.
  destruct (_ =? _); [exact Hs|]. destruct (subgraph_at _ _) as [sub|] eqn:Hsub; [|exact Hs].
  split; [exact (Hdecs _ _ _ Hsub)|exact Hs].
Qed.

Lemma Safe_inserting s : Safe s -> inserting [] s.
Proof. intros Hs. split_and!; [done|constructor|done]. Qed.

Lemma ReplaceNodeWithSubgraph_Safe k n i : leaves Safe (ReplaceNodeWithSubgraph k n i) (fun _ => Safe) Safe.
Proof.
  unfold ReplaceNodeWithSubgraph. eapply leaves_bind; [apply decomposition_Safe|intros sub].
  apply leaves_assume. intros [Hne Hsub].
  eapply leaves_bind; [apply leaves_Safe; walk|intros nd].
  eapply leaves_bind; [apply leaves_Safe; walk|intros im].
  eapply leaves_bind; [apply leaves_Safe; walk|intros om].
  eapply leaves_bind; [apply leaves_Safe; walk|intros off].
  eapply leaves_bind with (Q' := fun l s => inserting l s /\ l <> []).
  { eapply leaves_conseq; [exact (clone_nodes_inserting sub off im om _ Hsub)|apply Safe_inserting| |done].
    intros l s [Hl Hln]. split; [exact Hl|exact (Hln Hne)]. }
  intros l s [(Hs & Hl & Hst) Hln]. rewrite (bind_done this _ s (sg_graph s) s) by done.
  destruct (_ || _); [exact Hs|]. rewrite bind_ret. cbn. destruct Hs as [Hk [[(_ & Hpre & Hun & _) Hf] _]].
  apply Safe_uninvokable; cbn; auto. apply Forall_app. split; [by apply Forall_take|].
  apply Forall_app. split; [done|by apply Forall_drop].
Qed.

Lemma quiet_composite_subgraph p : respects quiet (composite_subgraph (P := P) (W := W) p).
Proof. unfold composite_subgraph. walk. Qed.

Lemma quiet_composite_nodes : respects quiet (composite_nodes (P := P) (W := W)).
Proof. unfold composite_nodes, node_ref. walk. Qed.
#[local] Hint Resolve quiet_composite_subgraph quiet_composite_nodes : respects.

Lemma inline_from_Safe fuel cs : forall k, leaves Safe (inline_from fuel cs k) (fun _ => Safe) Safe.
Proof.
  induction fuel as [|fuel IH]; intros k; cbn [inline_from];
    (eapply leaves_bind; [apply leaves_Safe; walk|intros g]); (destruct (_ <=? _); [by apply leaves_ret|]).
  { by intros s Hs. }
  eapply leaves_bind; [apply leaves_Safe; walk|intros n].
  eapply leaves_bind with (Q' := fun _ => Safe); [|intros last; apply IH].
  case_bool_decide; [|by apply leaves_ret].
  eapply leaves_bind; [apply leaves_Safe; unfold node_ref; walk|intros nr].
  eapply leaves_bind; [apply leaves_Safe; walk|intros i]. apply ReplaceNodeWithSubgraph_Safe.
Qed.

Lemma UndoAllDelegates_Safe : leaves Safe (UndoAllDelegates (P := P) (W := W)) (fun _ => Safe) Safe.
Proof.
  intros s Hs. unfold UndoAllDelegates. rewrite (bind_done this _ s (sg_graph s) s) by done.
  pose proof Hs as [_ [[(_ & -> & _) _] _]]. exact Hs.
Qed.

Lemma RedoAllDelegates_Safe : leaves Safe (RedoAllDelegates redo_fuel) (fun _ => Safe) Safe.
Proof.
  intros s Hs. unfold redo_fuel, RedoAllDelegates. rewrite (bind_done this _ s (sg_graph s) s) by done.
  pose proof Hs as [_ [[(_ & _ & -> & _) _] _]]. exact Hs.
Qed.

Lemma InlineCompositeNodes_Safe rounds :
  leaves Safe (InlineCompositeNodes rounds (RedoAllDelegates redo_fuel)) (fun _ => Safe) Safe.
Proof.
  induction rounds as [|rounds IH]; cbn [InlineCompositeNodes];
    (eapply leaves_bind; [apply leaves_Safe; walk|intros [|c cs]; [by apply leaves_ret|]]).
  { by intros s Hs. }
  eapply leaves_bind; [apply UndoAllDelegates_Safe|intros []].
  eapply leaves_bind; [apply leaves_Safe; walk|intros g].
  eapply leaves_bind; [apply inline_from_Safe|intros []].
  eapply leaves_bind; [apply RedoAllDelegates_Safe|intros []]. apply IH.
Qed.

Lemma allocate_tensors_Safe : leaves Safe allocate_tensors (fun _ => Safe) Safe.
Proof.
  intros s [Hk Hs]. pose proof (allocate_tensors_safe trace _ _ _ Hk s Hs) as H.
  destruct (allocate_tensors s) as [[]]; by eapply Safe_intro.
Qed.

Lemma quiet_IsFullyDelegated : respects quiet (IsFullyDelegated (P := P) (W := W)).
Proof.
  unfold IsFullyDelegated. walk.
  match goal with |- context [all_delegated ?l] => induction l as [|n plan IH] end; cbn [all_delegated]; unfold node_ref; walk.
Qed.

Lemma AllocateTensors_all_Safe : leaves Safe AllocateTensors_all (fun _ => Safe) Safe.
Proof.
  unfold AllocateTensors_all. eapply leaves_bind; [apply leaves_Safe; walk|intros g].
  destruct (negb _); [by intros s Hs|].
  eapply leaves_bind; [apply RedoAllDelegates_Safe|intros []].
  eapply leaves_bind; [apply leaves_Safe; unfold option_set; walk|intros b].
  eapply leaves_bind; [apply leaves_Safe; walk|intros g'].
  eapply leaves_bind with (Q' := fun _ => Safe); [|intros []; apply allocate_tensors_Safe].
  destruct (_ && _); [|by apply leaves_ret].
  eapply leaves_bind; [apply leaves_Safe, quiet_IsFullyDelegated|intros [|]; [by apply leaves_ret|]].
  intros s Hs. exact (InlineCompositeNodes_Safe _ s Hs).
Qed.
End Inlining.

(** ** Sequences of operations *)

Section Sequences.
Context {P W : Type} {MP : MemoryPlanner P} {NP : NewPlanner P} {MM : Malloc} {SS : StdSort}.
Abbreviation S := (sgstate P W).
Context {SB : Siblings W} {DC : Decompositions P W} {CB : Callbacks S} {CBOk : CallbacksOk CB} (trace : W -> list event) {HT : Traced CB trace}.
Implicit Types s : S.

Lemma allocation_or_not op : op = op_AllocateTensors \/ op <> op_AllocateTensors.
Proof. destruct op; first [left; reflexivity|right; discriminate]. Qed.

Lemma running_ops_keep (I : S -> Prop) :
  (forall op s, running op = true -> I s -> I (snd (run_op op s))) ->
  forall ops s, forallb running ops = true -> I s -> I (run_ops ops s).
Proof.
  intros HI ops. induction ops as [|op ops IH]; intros s Hops Hs; [done|].
  cbn in Hops. apply andb_true_iff in Hops as [Hop Hops]. apply IH; [done|]. by apply HI.
Qed.

Lemma leaves_snd {A} (I : S -> Prop) (c : M S A) s : leaves I c (fun _ => I) I -> I s -> I (snd (c s)).
Proof. intros Hc Hs. specialize (Hc s Hs). by destruct (c s) as [[]]. Qed.

Lemma running_Safe (Hdecs : decompositions_prepare (P := P) (W := W)) op s :
  running op = true -> Safe trace s -> Safe trace (snd (run_op op s)).
Proof.
  intros Hop [Hk Hs]. destruct (allocation_or_not op) as [->|Hne].
  - apply (leaves_snd (Safe trace)); [by apply AllocateTensors_all_Safe|by split].
  - eapply Safe_intro; [exact Hk|]. by apply (running_safe trace _ _ _ Hk op Hop Hne).
Qed.

(** Where nothing is inlined, the plan and its kernels stay. *)
Definition plain_inlining (plan : list Z) (rs : list TfLiteRegistration) (opts : option InterpreterOptions) : Prop :=
  inlining_on opts = false \/
  Forall (fun n => exists reg, rs.[n] = Some reg /\ builtin_code reg <> kTfLiteBuiltinStablehloComposite) plan.

Lemma plain_inlines_nothing plan rs opts s : undelegated plan rs opts (sg_graph s) ->
  plain_inlining plan rs opts <-> inlines_nothing (sg_graph s).
Proof.
  intros (<- & _ & _ & <- & <-). unfold plain_inlining, inlines_nothing, no_composites.
  rewrite <- (plan_regs _ (fun reg => builtin_code reg <> kTfLiteBuiltinStablehloComposite)).
  assert (Heq : forall A B B', (B <-> B') -> A \/ B <-> A \/ B') by tauto. apply Heq, Forall_iff. intros n. split.
  - intros (nd & reg & Hn & Hc). exists (nd, reg). split; [done|]. by apply Z.eqb_neq.
  - intros ([nd reg] & Hn & Hc). exists nd, reg. split; [done|]. by apply Z.eqb_neq.
Qed.

Lemma running_plain plan rs opts (Hk : kernels_prepare rs plan) (Hin : plain_inlining plan rs opts) op s :
  running op = true -> safe trace plan rs opts s -> safe trace plan rs opts (snd (run_op op s)).
Proof.
  intros Hop Hs. destruct (allocation_or_not op) as [->|Hne]; [|by apply (running_safe trace _ _ _ Hk op Hop Hne)].
  pose proof (proj1 (proj1 Hs)) as Hu. cbn [run_op]. rewrite AllocateTensors_all_plain; [|apply Hu|by apply (plain_inlines_nothing plan rs opts)].
  apply (leaves_snd (safe trace plan rs opts)); [|exact Hs]. clear s Hs Hu. intros s Hs.
  unfold AllocateTensors. rewrite (bind_done this _ s (sg_graph s) s) by done. destruct (negb _); [exact Hs|].
  assert (Hredo : RedoAllDelegates redo_fuel s = (Done tt, s)).
  { unfold redo_fuel, RedoAllDelegates. rewrite (bind_done this _ s (sg_graph s) s) by done.
    destruct Hs as [[(_ & _ & -> & _) _] _]. done. }
  rewrite (bind_done _ _ _ _ _ Hredo). by apply allocate_tensors_safe.
Qed.
End Sequences.

(** C3. From a graph that is built and not delegated, whose kernels have a function that prepares
    them, no sequence of allocations, resizes, invocations and the like ever invokes a kernel
    that was not prepared before, whatever tensors turn dynamic and wherever calls fail.  Where
    composites are inlined on the way, the kernels of the decompositions have such a function too. *)
Theorem prepared_before_invoked {P W : Type} {MP : MemoryPlanner P} {NP : NewPlanner P} {MM : Malloc}
    {SS : StdSort} {SB : Siblings W} {DC : Decompositions P W} {CB : Callbacks (sgstate P W)} {CBOk : CallbacksOk CB}
    trace `{!Traced CB trace} ops (s : sgstate P W) :
  state_ (sg_graph s) = kStateUninvokable ->
  pre_delegation_execution_plan_ (sg_graph s) = [] -> delegates_undone_ (sg_graph s) = false ->
  plan_prepares (sg_graph s) (execution_plan_ (sg_graph s)) ->
  inlines_nothing (sg_graph s) \/ decompositions_prepare (P := P) (W := W) ->
  prepared_first (trace (sg_world s)) -> forallb running ops = true ->
  prepared_first (trace (sg_world (run_ops ops s))).
Proof.
  intros Hst Hpre Hun Hplan Hin Htr Hops. apply (plan_regs _ prepares) in Hplan.
  set (plan := execution_plan_ (sg_graph s)) in *. set (rs := snd <$> nodes_and_registration_ (sg_graph s)) in *.
  assert (Hsafe : safe trace plan rs (options_ (sg_graph s)) s) by (split; [by split|by intros []]).
  destruct Hin as [Hin|Hdecs].
  - apply (plain_inlines_nothing plan rs (options_ (sg_graph s))) in Hin; [|by split].
    refine (proj2 (proj1 (running_ops_keep _ (fun op s => running_plain trace _ _ _ Hplan Hin op s) ops s Hops Hsafe))).
  - pose proof (running_ops_keep _ (running_Safe trace Hdecs) ops s Hops (Safe_intro trace _ _ _ s Hplan Hsafe)) as [_ Hs].
    exact (proj2 (proj1 Hs)).
Qed.

(** The example, whose kernels record their calls, with its input resized between two runs. *)
Section Example.
Context {P : Type} {MP : MemoryPlanner P} {MM : Malloc} {SS : StdSort}.

Lemma ex_traced : Traced (ex_callbacks (P := P)) id.
Proof. by split. Qed.
End Example.

#[local] Existing Instance ex_callbacks.
#[local] Existing Instance ex_malloc.
#[local] Existing Instance ex_sort.

Definition ex_built : sgstate ArenaPlanner.ArenaPlanner (list event) := ex_run_arena (take 10 ex_ops).

Definition ex_running : list operation :=
  [op_AllocateTensors; op_Invoke; op_ResizeInputTensor 0 (Some [2; 4]) 2; op_Invoke;
   op_AllocateTensors; op_Invoke].

Lemma prepared_before_invoked_witness : prepared_first (id (sg_world (run_ops ex_running ex_built))).
Proof.
  refine (prepared_before_invoked (CBOk := ex_callbacks_ok) id (Traced0 := ex_traced) ex_running ex_built _ _ _ _ _ _ _).
  - vm_compute. reflexivity.
  - vm_compute. reflexivity.
  - vm_compute. reflexivity.
  - assert (execution_plan_ (sg_graph ex_built) = [0; 1; 2]) as -> by (vm_compute; reflexivity).
    repeat constructor; do 2 eexists; (split; [vm_compute; reflexivity|]); (split; [done|by eexists]).
  - left. left. vm_compute. reflexivity.
  - assert (sg_world ex_built = []) as -> by (vm_compute; reflexivity). intros k n. done.
  - reflexivity.
Defined.

(** The example allocated, given the hinting delegate, and allocated again. *)
Definition ex_hinted : sgstate ArenaPlanner.ArenaPlanner (list event) :=
  ex_run_arena (take 11 ex_ops ++ [op_ModifyGraphWithDelegate 2; op_AllocateTensors]).

(** A delegate with the hint that it takes the whole graph, applied to an allocated graph, is
    invoked without having been prepared: the kernel of its node never was, though the tensors
    are allocated again, and every call succeeds. *)
Theorem hint_delegate_invoked_unprepared :
  execution_plan_ (sg_graph ex_hinted) = [3] /\ fst (Invoke ex_hinted) = Done tt /\
  sg_world (snd (Invoke ex_hinted)) = [Prepared 0; Prepared 1; Prepared 2; Invoked 3].
Proof. vm_compute. done. Qed.
