(* ===== verification/SubgraphProgress.v ===== *)
(** * Subgraphs: every node is eventually invoked

    Whatever turns dynamic on the way, and however often nodes are prepared again, an invocation
    that succeeds has invoked the kernel of every node of the execution plan, once and in the
    order of the plan; one that stops early has invoked those of a prefix of it. *)
From Stdlib Require Import String.
From stdpp Require Import strings.
From S2P Require Import Prelude Heap Common Util GraphInfo MemoryPlanner Callbacks Subgraph.
From S2P Require Import SubgraphRun SubgraphDelegate SubgraphWf SubgraphSteps SubgraphOrder.
From S2P Require ArenaPlanner ArenaInstance.
#[local] Open Scope Z_scope.

(** The nodes invoked, in order. *)
Definition invoked_nodes (tr : list event) : list Z :=
  omap (fun e => match e with Invoked n => Some n | Prepared _ => None end) tr.

Section Progress.
Context {P W : Type} {MP : MemoryPlanner P} {NP : NewPlanner P} {MM : Malloc} {SS : StdSort}.
Abbreviation S := (sgstate P W).
Context {SB : Siblings W} {CB : Callbacks S} {CBOk : CallbacksOk CB} (trace : W -> list event) {HT : Traced CB trace}.
Implicit Types s : S.
Abbreviation quiet := (quiet trace).

Definition invoked s : list Z := invoked_nodes (events trace s).
Definition registrations s : list TfLiteRegistration := snd <$> nodes_and_registration_ (sg_graph s).

(** The call invokes the nodes [l]; the plan and the kernels stay. *)
Record invokes (l : list Z) s s' : Prop := {
  invokes_plan : execution_plan_ (sg_graph s') = execution_plan_ (sg_graph s);
  invokes_kernels : registrations s' = registrations s;
  invokes_nodes : invoked s' = invoked s ++ l }.

Abbreviation calm := (invokes []).

Lemma invokes_trans l l' s s' s'' : invokes l s s' -> invokes l' s' s'' -> invokes (l ++ l') s s''.
Proof. intros [Hp Hk Hn] [Hp' Hk' Hn']. split; [congruence..|]. by rewrite Hn', Hn, app_assoc. Qed.

#[local] Instance calm_preorder : PreOrder calm.
Proof. split; [intros s; split; rewrite ?app_nil_r; done|]. intros s s' s'' H H'. exact (invokes_trans [] [] _ _ _ H H'). Qed.

Lemma calm_quiet s s' : quiet s s' -> calm s s'.
Proof.
  intros [Hp (evs & He & Hn)]. unfold position in Hp. injection Hp as _ Hpl _ _ _ Hr. split; [done|exact Hr|].
  unfold invoked. rewrite He, app_nil_r. unfold invoked_nodes. rewrite omap_app.
  assert (Hnil : invoked_nodes evs = []); [|unfold invoked_nodes in Hnil; by rewrite Hnil, app_nil_r].
  clear He. induction evs as [|e evs IH]; [done|]. unfold invoked_nodes in *. cbn.
  destruct e as [n|n]; [|destruct (Hn n); set_solver]. apply IH. intros m Hm. apply (Hn m). set_solver.
Qed.

Lemma respects_calm {A} (c : M S A) : respects quiet c -> respects calm c.
Proof. intros Hc s. apply calm_quiet, Hc. Qed.
Lemma calm_upd f : (forall g, execution_plan_ (f g) = execution_plan_ g /\ nodes_and_registration_ (f g) = nodes_and_registration_ g) ->
  respects calm (upd (P := P) (W := W) f).
Proof.
  intros Hf. apply respects_modify. intros s. destruct (Hf (sg_graph s)) as [Hp Hn].
  split; [exact Hp|unfold registrations; cbn; by rewrite Hn|unfold invoked; by rewrite app_nil_r].
Qed.
#[local] Hint Extern 3 (respects calm (upd _)) => (apply calm_upd; done) : respects.
#[local] Hint Extern 4 (respects calm _) => (apply respects_calm) : respects.
#[local] Hint Resolve quiet_PrepareOpsStartingAt : respects.

Lemma calm_prepare_original_plan : respects calm prepare_original_plan.
Proof.
  unfold prepare_original_plan.
  assert (Hd : forall flag l, respects calm (any_delegate (P := P) (W := W) flag l)).
  { intros flag l. induction l as [|d l IH]; cbn; unfold TfLiteDelegateGetFlagsInternal, TfLiteDelegateIsOpaque; walk. }
  walk; apply Hd.
Qed.
#[local] Hint Resolve calm_prepare_original_plan : respects.

Lemma calm_PrepareOpsAndTensors : respects calm PrepareOpsAndTensors.
Proof. unfold PrepareOpsAndTensors. walk. Qed.
#[local] Hint Resolve calm_PrepareOpsAndTensors : respects.

Lemma calm_force_prepare k n : respects calm (force_prepare (P := P) (W := W) k n).
Proof. unfold force_prepare, if_planner. walk. Qed.
#[local] Hint Resolve calm_force_prepare : respects.

(** A kernel that the runtime calls through its registration. *)
Definition invocable (reg : TfLiteRegistration) : Prop :=
  registration_external reg = 0 /\ exists f, reg_invoke reg = Some f.

Lemma run_node_invokes n s reg : (registrations s).[n] = Some reg -> invocable reg -> invokes [n] s (snd (run_node n s)).
Proof.
  intros Hreg [He [f Hf]]. unfold run_node, node_ref. rewrite bind_assoc, (bind_done this _ s (sg_graph s) s) by done.
  apply zlookup_some in Hreg as [Hr Hreg]. unfold registrations in *. rewrite list_lookup_fmap in Hreg.
  destruct (nodes_and_registration_ (sg_graph s) !! Z.to_nat n) as [nr|] eqn:Hn; [|done]. injection Hreg as Hreg.
  assert ((nodes_and_registration_ (sg_graph s)).[n] = Some nr) as ->.
  { apply zlookup_some. split; [|done]. unfold zlength in *. by rewrite length_fmap in Hr. }
  cbn [access]. rewrite bind_ret.
  set (s1 := SG (sg_heap s) (set_tensor_resized_since_op_invoke_ false (sg_graph s)) (sg_world s)).
  rewrite (bind_done (upd _) _ s tt s1) by done. rewrite Hreg.
  assert (Hop : OpInvoke reg n s1 = call_invoke f None n s1) by (unfold OpInvoke, op_dispatch; by rewrite He, Hf).
  destruct (call_invoke_events trace f None n s1) as [Hp Hev]. injection Hp as _ Hpl _ _ _ Hrs.
  assert (Hinv : invokes [n] s (snd (call_invoke f None n s1))).
  { split; [exact Hpl|exact Hrs|]. unfold invoked. rewrite Hev. unfold invoked_nodes. by rewrite omap_app. }
  unfold status_call, bind. rewrite Hop. destruct (call_invoke f None n s1) as [[a|e|] s2]; [exact Hinv| |exact Hinv].
  by destruct e.
Qed.

Lemma invoke_node_invokes k n s : (execution_plan_ (sg_graph s)).[k] = Some n ->
  (exists reg, (registrations s).[n] = Some reg /\ invocable reg) ->
  exists l, invokes l s (snd (invoke_node k s)) /\ l `prefix_of` [n] /\ (fst (invoke_node k s) = Done tt -> l = [n]).
Proof.
  intros Hn (reg & Hreg & Hinv). unfold invoke_node. rewrite (bind_done this _ s (sg_graph s) s) by done.
  match goal with |- context [bind ?c ?rest s] => set (before := c); set (after := rest) end.
  assert (Hb : respects calm before) by (unfold before; walk). specialize (Hb s).
  assert (Hno : forall r s', calm s s' -> r <> Done tt -> exists l, invokes l s (snd (r, s')) /\ l `prefix_of` [n] /\
    (fst (r, s') = Done tt -> l = [n])) by (intros r s' H Hr; exists []; split_and!; [done|apply prefix_nil|done]).
  unfold bind at 1 2. destruct (before s) as [[[]|e|] s1]; cbn [snd] in Hb; [|by apply Hno|by apply Hno]. unfold after. clear before after.
  rewrite (bind_done this _ s1 (sg_graph s1) s1), (invokes_plan _ _ _ Hb), Hn by done. cbn [access]. rewrite bind_ret.
  assert (Hq : forall A (c : M S A) k', respects calm c ->
    (forall a s2, calm s s2 -> exists l, invokes l s (snd (k' a s2)) /\ l `prefix_of` [n] /\ (fst (k' a s2) = Done tt -> l = [n])) ->
    forall s2, calm s s2 -> exists l, invokes l s (snd (bind c k' s2)) /\ l `prefix_of` [n] /\ (fst (bind c k' s2) = Done tt -> l = [n])).
  { intros A c k' Hc Hk s2 Hs2. specialize (Hc s2). unfold bind. assert (Hs : calm s (snd (c s2))) by (by etransitivity).
    destruct (c s2) as [[a|e|] s3]; [by apply Hk|by apply Hno|by apply Hno]. }
  revert s1 Hb. apply Hq; [walk|intros node]. apply Hq; [walk|intros _]. apply Hq; [walk|intros _]. apply Hq; [walk|intros _].
  intros s1 Hs1. assert (Hreg1 : (registrations s1).[n] = Some reg) by (by rewrite (invokes_kernels _ _ _ Hs1)).
  pose proof (invokes_trans _ _ _ _ _ Hs1 (run_node_invokes n s1 reg Hreg1 Hinv)) as Hrun. cbn [app] in Hrun.
  exists [n]. split_and!; [|done|done].
  assert (Hc : respects calm (force_prepare (P := P) (W := W) k n ;;; MaybeReleaseDynamicTensors n)) by walk.
  unfold bind at 1. destruct (run_node n s1) as [[[]|e|] s2]; cbn [snd] in Hrun; [|exact Hrun|exact Hrun].
  rewrite <- (app_nil_r [n]). exact (invokes_trans _ _ _ _ _ Hrun (Hc s2)).
Qed.

(** A loop over the plan, from the node at [k]. *)
Lemma invoke_loop_invokes p s : forall d k : nat, (k + d = length p)%nat -> forall s1, invokes (take k p) s s1 ->
  execution_plan_ (sg_graph s) = p -> Forall (fun n => exists reg, (registrations s).[n] = Some reg /\ invocable reg) p ->
  let c := for_each (zrange (Z.of_nat k) (zlength p - 1)) invoke_node in
  exists l, invokes l s (snd (c s1)) /\ l `prefix_of` p /\ (fst (c s1) = Done tt -> l = p).
Proof.
  induction d as [|d IH]; intros k Hk s1 Hs1 Hp Hall c; unfold c.
  - rewrite zrange_nil by (unfold zlength; lia). exists (take k p). rewrite take_ge in * by lia. done.
  - rewrite zrange_cons by (unfold zlength; lia). rewrite for_each_cons.
    destruct (lookup_lt_is_Some_2 p k) as [n Hn]; [lia|].
    assert (Hpk : (execution_plan_ (sg_graph s1)).[Z.of_nat k] = Some n).
    { rewrite (invokes_plan _ _ _ Hs1), Hp. apply zlookup_some. rewrite Nat2Z.id. split; [unfold zlength; lia|done]. }
    destruct (invoke_node_invokes (Z.of_nat k) n s1 Hpk) as (l & Hl & Hpre & Hdone).
    { rewrite (invokes_kernels _ _ _ Hs1). rewrite Forall_lookup in Hall. exact (Hall k n Hn). }
    pose proof (invokes_trans _ _ _ _ _ Hs1 Hl) as H2.
    assert (Hnext : take k p ++ [n] = take (k + 1) p) by (by rewrite Nat.add_1_r, (take_S_r _ _ _ Hn)).
    unfold bind. destruct (invoke_node (Z.of_nat k) s1) as [[[]|e|] s2]; cbn [fst snd] in *.
    + rewrite (Hdone eq_refl), Hnext in H2. replace (Z.of_nat k + 1) with (Z.of_nat (k + 1)) by lia.
      apply (IH (k + 1)%nat); [lia|done..].
    + exists (take k p ++ l). split_and!; [done| |done]. etransitivity; [by apply prefix_app, Hpre|]. rewrite Hnext. apply prefix_take.
    + exists (take k p ++ l). split_and!; [done| |done]. etransitivity; [by apply prefix_app, Hpre|]. rewrite Hnext. apply prefix_take.
Qed.
End Progress.


(** C5. Every node of the plan is eventually invoked: an invocation that succeeds has invoked exactly
    the nodes of the execution plan, each once and in order, whatever was prepared again on the
    way; and any invocation, also one that fails or is cancelled, invokes a prefix of the plan. *)
Theorem every_node_is_invoked {P W : Type} {MP : MemoryPlanner P} {NP : NewPlanner P} {MM : Malloc}
    {SS : StdSort} {SB : Siblings W} {CB : Callbacks (sgstate P W)} {CBOk : CallbacksOk CB} trace `{!Traced CB trace}
    (s : sgstate P W) :
  Forall (fun n => exists reg, (registrations s).[n] = Some reg /\ invocable reg) (execution_plan_ (sg_graph s)) ->
  exists l, invoked_nodes (trace (sg_world (snd (Invoke s)))) = invoked_nodes (trace (sg_world s)) ++ l /\
    l `prefix_of` execution_plan_ (sg_graph s) /\ (fst (Invoke s) = Done tt -> l = execution_plan_ (sg_graph s)).
Proof.
  intros Hall. unfold Invoke, InvokeImpl. rewrite (bind_done this _ s (sg_graph s) s) by done.
  assert (Hno : forall r s', invokes trace [] s s' -> r <> Done tt ->
    exists l, invoked_nodes (trace (sg_world (snd (r, s')))) = invoked_nodes (trace (sg_world s)) ++ l /\
      l `prefix_of` execution_plan_ (sg_graph s) /\ (fst (r, s') = Done tt -> l = execution_plan_ (sg_graph s))).
  { intros r s' Hs Hr. exists []. split_and!; [exact (invokes_nodes trace _ _ _ Hs)|apply prefix_nil|done]. }
  assert (Hrefl : invokes trace [] s s) by (by split; rewrite ?app_nil_r).
  destruct (negb _); [by apply Hno|]. case_bool_decide; [by apply Hno|].
  match goal with |- context [bind ?c ?rest s] => set (available := c); set (after := rest) end.
  assert (Hq : respects (invokes trace []) available).
  { assert (Hw : respects (quiet trace) available) by (unfold available; destruct (memory_planner_ (sg_graph s)); walk).
    by apply respects_calm. }
  specialize (Hq s). unfold bind. destruct (available s) as [[av|e|] s1]; cbn [snd] in Hq; [|by apply Hno|by apply Hno].
  unfold after. destruct (negb av); [by apply Hno|].
  destruct (invoke_loop_invokes trace _ s (length (execution_plan_ (sg_graph s))) 0 eq_refl s1 Hq eq_refl Hall)
    as (l & Hl & Hpre & Hdone). exists l. split_and!; [exact (invokes_nodes trace _ _ _ Hl)|done|exact Hdone].
Qed.

(** The example, allocated. *)
#[local] Existing Instance ex_callbacks.
#[local] Existing Instance ex_malloc.
#[local] Existing Instance ex_sort.

Definition ex_allocated : sgstate ArenaPlanner.ArenaPlanner (list event) := run_ops [op_AllocateTensors] ex_built.

Lemma every_node_is_invoked_witness : exists l,
  invoked_nodes (id (sg_world (snd (Invoke ex_allocated)))) = invoked_nodes (id (sg_world ex_allocated)) ++ l /\
  l `prefix_of` execution_plan_ (sg_graph ex_allocated) /\
  (fst (Invoke ex_allocated) = Done tt -> l = execution_plan_ (sg_graph ex_allocated)).
Proof.
  refine (every_node_is_invoked (CBOk := ex_callbacks_ok) id (Traced0 := ex_traced) ex_allocated _).
  assert (execution_plan_ (sg_graph ex_allocated) = [0; 1; 2]) as -> by (vm_compute; reflexivity).
  repeat constructor; eexists; (split; [vm_compute; reflexivity|]); (split; [reflexivity|by eexists]).
Defined.

(** All three nodes of the example are. *)
Example ex_all_invoked : fst (Invoke ex_allocated) = Done tt /\
  invoked_nodes (sg_world (snd (Invoke ex_allocated))) = [0; 1; 2].
Proof. vm_compute. done. Qed.
