(* ===== verification/SubgraphRedo.v ===== *)
(** * Subgraphs: restoring delegation terminates

    [RedoAllDelegates] applies each delegate with [ModifyGraphWithDelegate], which calls
    [RedoAllDelegates] again, itself and through [AllocateTensors].  Whenever it does, no
    delegation is undone any more, so the inner calls return at once, however deep the recursion
    might go. *)
From S2P Require Import Prelude Heap Common Util GraphInfo MemoryPlanner Callbacks Subgraph.
From S2P Require Import SubgraphRun SubgraphDelegate SubgraphWf SubgraphSteps.
From S2P Require ArenaPlanner ArenaInstance.
#[local] Open Scope Z_scope.

Section Agree.
Context {P W : Type} {MP : MemoryPlanner P} {NP : NewPlanner P} {MM : Malloc} {SS : StdSort}.
Abbreviation S := (sgstate P W).
Context {SB : Siblings W} {CB : Callbacks S} {CBOk : CallbacksOk CB} {MPOk : MemoryPlannerOk P}.
Implicit Types s : S.

(** No delegation is undone. *)
Definition redone s : Prop := delegates_undone_ (sg_graph s) = false.

(** Two calls are the same where no delegation is undone, and leave none undone. *)
Definition agree {A} (c c' : M S A) : Prop := forall s, redone s -> c s = c' s /\ redone (snd (c s)).

Lemma agree_bind {A B} (c c' : M S A) (k k' : A -> M S B) :
  agree c c' -> (forall a, agree (k a) (k' a)) -> agree (bind c k) (bind c' k').
Proof.
  intros Hc Hk s Hs. destruct (Hc s Hs) as [Heq Hr]. unfold bind. rewrite <- Heq.
  destruct (c s) as [[a|e|] s']; [|done..]. by apply Hk.
Qed.

(** After a call that may undo the delegation, where what follows does not depend on it. *)
Lemma agree_bind_any {A B} (c : M S A) (k k' : A -> M S B) :
  leaves redone c (fun _ _ => True) redone ->
  (forall a s, k a s = k' a s /\ redone (snd (k a s))) -> agree (bind c k) (bind c k').
Proof.
  intros Hc Hk s Hs. specialize (Hc s Hs). unfold bind. destruct (c s) as [[a|e|] s']; [apply Hk|done..].
Qed.

Lemma agree_status_call {A} (c c' : M S A) : agree c c' -> agree (status_call c) (status_call c').
Proof.
  intros Hc s Hs. destruct (Hc s Hs) as [Heq Hr]. unfold status_call. rewrite <- Heq.
  by destruct (c s) as [[a|e|] s'].
Qed.

Lemma agree_for_each {A} (l : list A) (b b' : A -> M S unit) :
  (forall x, agree (b x) (b' x)) -> agree (for_each l b) (for_each l b').
Proof.
  intros Hb. induction l as [|x l IH]; [by intros s Hs|]. rewrite !for_each_cons. by apply agree_bind.
Qed.

End Agree.

(** Splits two calls of the same shape. *)
Ltac agree_step :=
  match goal with
  | |- agree (bind _ _) (bind _ _) => apply agree_bind; [|intros ?]
  | |- agree (status_call _) (status_call _) => apply agree_status_call
  | |- agree (for_each _ _) (for_each _ _) => apply agree_for_each; intros ?
  | |- agree (if ?b then _ else _) _ => destruct b
  end.

Section Redo.
Context {P W : Type} {MP : MemoryPlanner P} {NP : NewPlanner P} {MM : Malloc} {SS : StdSort}.
Abbreviation S := (sgstate P W).
Context {SB : Siblings W} {CB : Callbacks S} {CBOk : CallbacksOk CB} {MPOk : MemoryPlannerOk P}.
Implicit Types s : S.

(** *** Undoing: it is the last thing [UndoAllDelegates] does *)

Definition redone_kept s s' : Prop := redone s -> redone s'.

#[local] Instance redone_kept_preorder : PreOrder redone_kept.
Proof. split; unfold redone_kept; auto. Qed.

Lemma kept_grows {A} (c : M S A) : respects grows c -> respects redone_kept c.
Proof. intros Hc s. exact (grows_redone _ _ (Hc s)). Qed.

Lemma kept_set_node n f : respects redone_kept (set_node (P := P) (W := W) n f).
Proof.
  intros s. unfold redone_kept, redone, set_node. destruct s as [h g w]. unfold bind, this, node_ref. cbn.
  destruct ((nodes_and_registration_ g).[n]) as [[nd reg]|]; [|done]. cbn. by destruct (zinsert _ n _).
Qed.

Lemma kept_reset_siblings : respects redone_kept (reset_siblings (P := P) (W := W)).
Proof. apply respects_modify. intros s. exact id. Qed.
#[local] Hint Resolve kept_set_node kept_reset_siblings grows_CleanupNode grows_node_arrays : respects.
#[local] Hint Extern 3 (respects redone_kept (upd _)) => (apply respects_modify; intros ?; exact id) : respects.
#[local] Hint Extern 5 (respects redone_kept _) => (apply kept_grows) : respects.

Lemma leaves_kept {A} (c : M S A) : respects redone_kept c -> leaves redone c (fun _ => redone) redone.
Proof. intros Hc. by apply (respects_leaves redone_kept redone c Hc); intros s s' H; apply H. Qed.

Lemma agree_kept {A} (c : M S A) : respects redone_kept c -> agree c c.
Proof. intros Hc s Hs. split; [done|]. by apply (Hc s). Qed.

(** Where it does not return, nothing is undone. *)
Lemma UndoAllDelegates_redone :
  leaves redone (UndoAllDelegates (P := P) (W := W)) (fun _ _ => True) redone.
Proof.
  unfold UndoAllDelegates, fp16_map, remap_fp16, remap_input, for_plan, tensor_ref.
  eapply leaves_bind; [apply leaves_kept; walk|intros g].
  destruct (bool_decide _); [by apply leaves_ret|].
  do 10 (eapply leaves_bind; [apply leaves_kept; walk|intros ?]).
  eapply leaves_bind; [apply leaves_kept; walk|intros ?].
  by apply leaves_modify.
Qed.

(** *** The calls around the recursion *)

Section Calls.
Context (R R' : M S unit) (HR : agree R R').
#[local] Hint Resolve grows_allocate_tensors grows_PrepareOpsStartingAt grows_Prepare grows_this
  grows_flags grows_IsFullyDelegated : respects.
#[local] Hint Extern 1 (respects grows (on_planner _)) =>
  (apply grows_on_planner, PlanAllocations_framed) : respects.
Ltac same := apply agree_kept; unfold if_planner, SwitchToDelegateContext, SwitchToKernelContext; walk.

Lemma agree_AllocateTensors : agree (AllocateTensors R) (AllocateTensors R').
Proof. unfold AllocateTensors. agree_step; [same|]. agree_step; [same|]. by agree_step; [|same]. Qed.

Lemma agree_EnsureMemoryAllocations : agree (EnsureMemoryAllocations R) (EnsureMemoryAllocations R').
Proof.
  unfold EnsureMemoryAllocations. agree_step; [same|]. agree_step; [apply agree_AllocateTensors|same].
Qed.

Lemma agree_RemoveAllDelegates : agree (RemoveAllDelegates R) (RemoveAllDelegates R').
Proof.
  apply agree_bind_any; [apply UndoAllDelegates_redone|]. intros _ s.
  set (s1 := SG (sg_heap s) (set_delegates_applied_ [] (sg_graph s)) (sg_world s)).
  set (s2 := SG (sg_heap s) (set_delegates_undone_ false (sg_graph s1)) (sg_world s)).
  rewrite !(bind_done (upd (set_delegates_applied_ [])) _ s tt s1) by done.
  rewrite !(bind_done (upd (set_delegates_undone_ false)) _ s1 tt s2) by done.
  by apply agree_EnsureMemoryAllocations.
Qed.

Lemma agree_reset_delegation st : agree (reset_delegation_if_not_ok R st) (reset_delegation_if_not_ok R' st).
Proof.
  unfold reset_delegation_if_not_ok. agree_step; [same|]. agree_step; [apply agree_RemoveAllDelegates|same].
Qed.

Lemma agree_prepare_for_delegation sd h :
  agree (prepare_for_delegation R sd h) (prepare_for_delegation R' sd h).
Proof.
  unfold prepare_for_delegation. agree_step; [same|]. agree_step; [same|]. agree_step; [|same].
  agree_step; [same|]. agree_step; [same|]. agree_step; [|same].
  agree_step; [apply agree_EnsureMemoryAllocations|same].
Qed.

Lemma agree_finish_delegation sd h st : agree (finish_delegation R sd h st) (finish_delegation R' sd h st).
Proof.
  pose proof agree_EnsureMemoryAllocations as HE. pose proof agree_RemoveAllDelegates as HD.
  pose proof agree_reset_delegation as HS.
  unfold finish_delegation. repeat first [apply HE | apply HD | apply HS | agree_step]; same.
Qed.

Lemma agree_ModifyGraph d : agree (ModifyGraphWithDelegateImpl R d) (ModifyGraphWithDelegateImpl R' d).
Proof.
  pose proof agree_reset_delegation as HS. pose proof agree_prepare_for_delegation as HP.
  pose proof agree_finish_delegation as HF.
  unfold ModifyGraphWithDelegateImpl.
  repeat first [apply HR | apply HS | apply HP | apply HF | agree_step]; same.
Qed.
End Calls.

(** Where delegation is not undone, [RedoAllDelegates] returns at once. *)
Lemma RedoAllDelegates_redone n s : redone s -> RedoAllDelegates n s = (Done tt, s).
Proof. intros Hs. destruct n; cbn [RedoAllDelegates]; rewrite (bind_done this _ s (sg_graph s) s), Hs by done; done. Qed.

Lemma RedoAllDelegates_agree n n' : agree (RedoAllDelegates n) (RedoAllDelegates n').
Proof. intros s Hs. by rewrite !RedoAllDelegates_redone. Qed.
End Redo.

(** The body of the function, given what its inner calls do. *)
Definition redo_step {P W : Type} {MP : MemoryPlanner P} {NP : NewPlanner P} {MM : Malloc} {SS : StdSort}
    {SB : Siblings W} {CB : Callbacks (sgstate P W)} (inner : M (sgstate P W) unit) : M (sgstate P W) unit :=
  let* g := this in
  if negb (delegates_undone_ g) then ret tt
  else
    upd (set_delegates_undone_ false) ;;;
    upd (set_delegates_applied_ []) ;;;
    for_each (delegates_applied_ g) (ModifyGraphWithDelegateImpl inner).

(** C12. The recursion between [RedoAllDelegates], [ModifyGraphWithDelegate] and
    [AllocateTensors] ends within two levels: any deeper unfolding gives the same result and
    the same state, so that [RedoAllDelegates redo_fuel] satisfies the recursive equation of the
    code. *)
Theorem RedoAllDelegates_terminates {P W : Type} {MP : MemoryPlanner P} {NP : NewPlanner P}
    {MM : Malloc} {SS : StdSort} {SB : Siblings W} {CB : Callbacks (sgstate P W)} {CBOk : CallbacksOk CB}
    {MPOk : MemoryPlannerOk P} (n : nat) (s : sgstate P W) :
  RedoAllDelegates (redo_fuel + n) s = RedoAllDelegates redo_fuel s /\
  RedoAllDelegates redo_fuel s =
    redo_step (RedoAllDelegates redo_fuel) s.
Proof.
  assert (Hlevel : forall m k, RedoAllDelegates (Datatypes.S m) s =
    redo_step (RedoAllDelegates k) s).
  { intros m k. cbn [RedoAllDelegates]. unfold redo_step.
    rewrite !(bind_done this _ s (sg_graph s) s) by done. destruct (negb _); [done|].
    set (s1 := SG (sg_heap s) (set_delegates_undone_ false (sg_graph s)) (sg_world s)).
    rewrite !(bind_done (upd (set_delegates_undone_ false)) _ s tt s1) by done.
    set (s2 := SG (sg_heap s) (set_delegates_applied_ [] (sg_graph s1)) (sg_world s)).
    rewrite !(bind_done (upd (set_delegates_applied_ [])) _ s1 tt s2) by done.
    apply (agree_for_each (delegates_applied_ (sg_graph s))); [|done].
    intros d. apply agree_ModifyGraph, RedoAllDelegates_agree. }
  split; [|apply Hlevel]. unfold redo_fuel. cbn [plus]. by rewrite (Hlevel n 0%nat), (Hlevel 0%nat 0%nat).
Qed.

#[local] Existing Instance ex_callbacks.
#[local] Existing Instance ex_malloc.
#[local] Existing Instance ex_sort.

(** The example with its delegate, whose delegation resizing the input undid. *)
Definition ex_undone : sgstate ArenaPlanner.ArenaPlanner (list event) :=
  ex_run_arena (ex_ops ++ [op_ModifyGraphWithDelegate 1; op_ResizeInputTensor 0 (Some [1; 8]) 2]).

Lemma RedoAllDelegates_terminates_witness :
  delegates_undone_ (sg_graph ex_undone) = true /\ fst (RedoAllDelegates redo_fuel ex_undone) = Done tt /\
  RedoAllDelegates (redo_fuel + 5) ex_undone = RedoAllDelegates redo_fuel ex_undone.
Proof.
  split; [vm_compute; reflexivity|]. split; [vm_compute; reflexivity|].
  exact (proj1 (RedoAllDelegates_terminates (CBOk := ex_callbacks_ok) 5 ex_undone)).
Defined.
