(* ===== verification/SubgraphPlace.v ===== *)
(** * Subgraphs: allocating a static graph places its tensors

    The composition of the subgraph with the arena planner: [AllocateTensors] on a graph whose
    kernels prepare without resizing anything plans and places the whole execution plan at
    once, so that what the planner guarantees of the addresses holds of the tensors that the
    kernels will be invoked with. *)
From Stdlib Require Import String.
From stdpp Require Import strings.
From S2P Require Import Prelude Heap Common Util GraphInfo MemoryPlanner Callbacks Subgraph.
From S2P Require Import SubgraphRun SubgraphDelegate SubgraphInline SubgraphWf SubgraphInlineWf SubgraphSteps SubgraphInvoke.
From S2P Require ArenaPlanner ArenaPlan ArenaPlace ArenaInstance OpResolver.
#[local] Open Scope Z_scope.

Import ArenaPlan ArenaPlace.

(** Two arena tensors that hold values at a common node, and do not share a buffer on purpose,
    are apart in memory. *)
Definition never_overlap (info : GraphInfo) (p : ArenaPlanner.ArenaPlanner) (ts : list TfLiteTensor)
    : Prop :=
  forall i x y, live_at info i x -> live_at info i y ->
    has_type info kTfLiteArenaRw x -> has_type info kTfLiteArenaRw y ->
    0 < bytes_of info x -> 0 < bytes_of info y -> owner p x <> owner p y ->
    exists px py, data_at ts x = Some px /\ data_at ts y = Some py /\
      (px + bytes_of info x <= py \/ py + bytes_of info y <= px).

(** A buffer is shared on purpose: only the first output of a node whose operator may work in place
    lives in the buffer of another tensor. *)
Definition shared_in_place (info : GraphInfo) (p : ArenaPlanner.ArenaPlanner) : Prop :=
  forall x, owner p x <> x -> in_place_output info x.

Section Place.
Context {W : Type} {MM : Malloc} {SS : StdSort} {SSOk : StdSortOk}.
Abbreviation P := ArenaPlanner.ArenaPlanner.
Abbreviation S := (sgstate P W).
Context {SB : Siblings W} {CB : Callbacks S}.
Implicit Types s : S.
Implicit Types g : Subgraph P.

(** Whether every tensor is a fixed block: not dynamic, and not the state of a variable. *)
Definition fixed (t : TfLiteTensor) : Prop :=
  t_allocation_type t <> kTfLiteDynamic /\ t_is_variable t = false.

(** A graph that was built and never allocated nor delegated, with nothing to inline. *)
Record fresh_graph g : Prop := {
  fr_plain : inlines_nothing g;
  fr_wf : sg_wf g;
  fr_consistent : consistent_ g = true;
  fr_state : state_ g = kStateUninvokable;
  fr_pre : pre_delegation_execution_plan_ g = [];
  fr_undone : delegates_undone_ g = false;
  fr_planner : memory_planner_ g = None;
  fr_custom : custom_allocations_ g = ∅;
  fr_tensors : Forall fixed (tensors_ g);
  fr_nodes : Forall (fun n => n ∉ freed_nodes_ g) (execution_plan_ g) }.

(** A kernel that prepares without changing the graph. *)
Definition prepares_static g (n : Z) : Prop :=
  forall nr s, (nodes_and_registration_ g).[n] = Some nr ->
    fst (OpPrepare (snd nr) n s) = Done tt /\ sg_graph (snd (OpPrepare (snd nr) n s)) = sg_graph s.

(** ** The calls of [reallocate] *)

Lemma HasDynamicTensor_none g l h w : Forall fixed (tensors_ g) ->
  Forall (tensor_index (zlength (tensors_ g))) l ->
  HasDynamicTensor l (SG h g w : S) = (Done false, SG h g w).
Proof.
  intros Hfix Hl. unfold HasDynamicTensor.
  rewrite (bind_done (HasDynamicTensorImpl l) _ _ None (SG h g w)); [done|].
  induction Hl as [|i l Hi _ IH]; [done|]. cbn [HasDynamicTensorImpl].
  destruct (Z.eqb_spec i kTfLiteOptionalTensor) as [_|Hne]; [exact IH|].
  destruct Hi as [|Hi]; [done|]. destruct (zlookup_in_range _ _ Hi) as [t Ht].
  unfold tensor_ref. rewrite bind_assoc, (bind_done this _ _ g (SG h g w)), Ht by done.
  cbn [access]. rewrite bind_ret.
  rewrite bool_decide_eq_false_2 by apply (Forall_zlookup _ _ _ _ Hfix Ht). exact IH.
Qed.

Lemma prepare_ops_static g rest last h w :
  Forall fixed (tensors_ g) -> sg_wf g ->
  Forall (fun jn => snd jn ∈ execution_plan_ g /\ prepares_static g (snd jn)) rest ->
  Forall (fun n => n ∉ freed_nodes_ g) (execution_plan_ g) ->
  exists h' w', prepare_ops rest last (SG h g w : S) =
    (Done (default last (fst <$> list.last rest)), SG h' g w').
Proof.
  intros Hfix Hwf Hrest Hfreed. revert last h w.
  induction Hrest as [|[j n] rest [Hin Hp] _ IH]; intros last h w; [by exists h, w|].
  cbn [prepare_ops snd] in *. rewrite Forall_forall in Hfreed. specialize (Hfreed _ Hin) as Hf.
  pose proof (proj1 (Forall_forall _ _) (wf_plan_ _ Hwf) n Hin) as Hn.
  destruct (zlookup_in_range _ _ Hn) as [[nd reg] Hnode].
  unfold node_ref at 1. rewrite bind_assoc, (bind_done this _ _ g (SG h g w)), Hnode by done.
  cbn [access]. rewrite bind_ret. cbn [snd]. destruct (Hp _ (SG h g w) Hnode) as [Hdone Hg]. cbn [snd] in Hdone, Hg.
  destruct (OpPrepare reg n (SG h g w)) as [r [h1 g1 w1]] eqn:Hop. cbn in Hdone, Hg. subst r g1.
  rewrite (bind_done (status_call _) _ _ kTfLiteOk (SG h1 g w1)) by (unfold status_call; by rewrite Hop).
  cbn [negb andb bool_decide]. rewrite (bool_decide_eq_true_2 (kTfLiteOk = kTfLiteOk)) by done.
  cbn [negb andb].
  rewrite (bind_done (node_arrays n) _ _ nd (SG h1 g w1)) by (by eapply node_arrays_done).
  destruct (Forall_zlookup _ _ _ _ (wf_nodes_ _ Hwf) Hnode) as [_ Hout _].
  rewrite (bind_done _ _ _ _ _ (HasDynamicTensor_none g _ h1 w1 Hfix Hout)).
  rewrite bool_decide_eq_false_2 by done. cbn [orb].
  destruct (IH j h1 w1) as (h' & w' & Hrun). exists h', w'. rewrite Hrun. f_equal. f_equal.
  destruct rest as [|x rest]; [done|]. destruct (list.last (x :: rest)) eqn:Hlast; [by rewrite last_cons_cons, Hlast|].
  by apply last_None in Hlast.
Qed.

Lemma prepare_whole g h w : sg_wf g -> Forall fixed (tensors_ g) -> execution_plan_ g <> [] ->
  Forall (fun n => n ∉ freed_nodes_ g) (execution_plan_ g) ->
  Forall (prepares_static g) (execution_plan_ g) ->
  exists h' w', PrepareOpsStartingAt 0 (execution_plan_ g) 0 (SG h g w : S) =
    (Done (zlength (execution_plan_ g) - 1), SG h' (set_has_dynamic_tensors_ false g) w').
Proof.
  intros Hwf Hfix Hne Hfreed Hprep. unfold PrepareOpsStartingAt. cbn [Z.eqb].
  rewrite bind_assoc, (bind_done this _ _ g (SG h g w)) by done.
  rewrite bind_assoc, (bind_done _ _ _ _ _ (HasDynamicTensor_none g _ h w Hfix (wf_outputs_ _ Hwf))).
  set (g' := set_has_dynamic_tensors_ false g).
  rewrite (bind_done (upd _) _ _ tt (SG h g' w)) by done. rewrite drop_0.
  destruct (prepare_ops_static g' (enumerate (execution_plan_ g)) 0 h w) as (h' & w' & Hrun); [done| |
    |done|].
  - destruct Hwf. by split.
  - apply Forall_forall. intros [j n] Hjn. apply enumerate_elem in Hjn as (k & -> & Hk).
    apply list_elem_of_lookup_2 in Hk. split; [done|]. rewrite Forall_forall in Hprep. by apply Hprep.
  - exists h', w'. rewrite Hrun. do 2 f_equal.
    destruct (execution_plan_ g) as [|n l _] using rev_ind; [done|].
    unfold enumerate. rewrite imap_app. cbn. rewrite last_snoc. cbn.
    rewrite zlength_app. unfold zlength. cbn. lia.
Qed.

(** The planner as the subgraph calls it. *)
Lemma on_planner_run {A} (c : M (mp_state P) A) g h w p info r h' ts p' :
  memory_planner_ g = Some p -> InterpreterInfo g = Some info ->
  c (MPState h info p) = (r, MPState h' (with_tensors ts info) p') ->
  on_planner c (SG h g w : S) =
    (r, SG h' (set_memory_planner_ (Some p') (set_tensors_ ts g)) w).
Proof. intros Hp Hi Hc. unfold on_planner. cbn [sg_graph sg_heap sg_world]. by rewrite Hp, Hi, Hc. Qed.

Definition arena_call {A} (c : M ArenaPlanner.pstate A) h info p : outcome A * mp_state P :=
  let '(r, t) := c (ArenaPlanner.PState h info p) in
  (r, MPState (ArenaPlanner.ps_heap t) (ArenaPlanner.ps_graph t) (ArenaPlanner.ps_planner t)).

Lemma InterpreterInfo_tensors g info : InterpreterInfo g = Some info -> gi_tensors info = tensors_ g.
Proof. unfold InterpreterInfo. by destruct (mapM _ _); [intros [= <-]|]. Qed.

(** Planning and placing the nodes up to the last. *)
Lemma plan_and_place g h w p info B : memory_planner_ g = Some p -> InterpreterInfo g = Some info ->
  placeable info p B ->
  exists h' p1 p3 ts,
    on_planner PlanAllocations (SG h g w : S) = (Done tt, SG h (set_memory_planner_ (Some p1) g) w) /\
    on_planner (ExecuteAllocations 0 (num_execution_nodes info - 1))
      (SG h (set_memory_planner_ (Some p1) g) w : S) =
      (Done tt, SG h' (set_memory_planner_ (Some p3) (set_tensors_ ts g)) w) /\
    same_meta info ts /\
    never_overlap info p3 ts /\ shared_in_place info p3.
Proof.
  intros Hp Hinfo Hpb.
  destruct (placed_disjoint h info p B Hpb) as (h' & p1 & ts & p3 & Hplan & Hex & Hmeta & Hdis & Hshare).
  exists h', p1, p3, ts. split_and!; [| |done|done|done].
  - rewrite (on_planner_run _ g h w p info (Done tt) h (gi_tensors info) p1 Hp Hinfo).
    + rewrite (InterpreterInfo_tensors _ _ Hinfo). by destruct g.
    + transitivity (arena_call ArenaPlanner.PlanAllocations h info p); [reflexivity|].
      unfold arena_call. rewrite Hplan. cbn. by destruct info.
  - rewrite (on_planner_run _ _ h w p1 info (Done tt) h' ts p3); [by destruct g|done|by destruct g|].
    transitivity (arena_call (ArenaPlanner.ExecuteAllocations 0 (num_execution_nodes info - 1)) h info p1);
      [reflexivity|]. unfold arena_call. by rewrite Hex.
Qed.

Definition preserve_all g : bool :=
  match options_ g with Some o => preserve_all_tensors_ o | None => false end.

(** The graph after the planner ran. *)
Definition placed_graph (p : P) (ts : list TfLiteTensor) (last : Z) g : Subgraph P :=
  set_next_execution_plan_index_to_plan_allocation_ (last + 1)
    (set_memory_planner_ (Some p) (set_tensors_ ts
      (set_next_execution_plan_index_to_prepare_ (last + 1) (set_has_dynamic_tensors_ false g)))).

Lemma make_planner_run g h w p1 : memory_planner_ g = None ->
  on_planner PlanAllocations (SG h (set_memory_planner_ (Some (new_planner (preserve_all g))) g) w : S) =
    (Done tt, SG h (set_memory_planner_ (Some p1) g) w) ->
  make_planner (SG h g w : S) = (Done tt, SG h (set_memory_planner_ (Some p1) g) w).
Proof.
  intros Hp Hplan. unfold make_planner. rewrite (bind_done this _ _ g (SG h g w)), Hp by done.
  rewrite (bind_done ShouldPreserveAllTensors _ _ (preserve_all g) (SG h g w)) by done.
  rewrite (bind_done (upd _) _ _ tt (SG h (set_memory_planner_ (Some (new_planner (preserve_all g))) g) w)) by done.
  unfold bind, status_call. by rewrite Hplan.
Qed.

Lemma PrepareOpsAndTensors_run g h w info B : fresh_graph g -> InterpreterInfo g = Some info ->
  next_execution_plan_index_to_prepare_ g = 0 -> next_execution_plan_index_to_plan_allocation_ g = 0 ->
  placeable info (new_planner (preserve_all g)) B ->
  Forall (prepares_static g) (execution_plan_ g) ->
  exists h' w' p ts, PrepareOpsAndTensors (SG h g w : S) =
      (Done tt, SG h' (placed_graph p ts (zlength (execution_plan_ g) - 1) g) w') /\
    same_meta info ts /\ never_overlap info p ts /\ shared_in_place info p.
Proof.
  intros Hg Hinfo Hn0 Ha0 Hpb Hprep.
  assert (Hlen : num_execution_nodes info = zlength (execution_plan_ g)).
  { unfold InterpreterInfo in Hinfo. destruct (mapM _ _) as [ns|] eqn:Hns; [|done]. injection Hinfo as <-.
    apply mapM_Some in Hns. apply Forall2_length in Hns. unfold num_execution_nodes, zlength. cbn. by rewrite Hns. }
  assert (Hne : execution_plan_ g <> []).
  { intros Hnil. pose proof (pb_nodes _ _ _ Hpb). rewrite Hlen, Hnil in *. unfold zlength in *. cbn in *. lia. }
  unfold PrepareOpsAndTensors, prepare_original_plan.
  rewrite bind_assoc, (bind_done this _ _ g (SG h g w)), (fr_pre _ Hg) by done.
  rewrite bool_decide_eq_true_2, bind_assoc, bind_ret by done. rewrite bind_ret.
  rewrite (bind_done this _ _ g (SG h g w)), Hn0 by done.
  destruct (prepare_whole g h w (fr_wf _ Hg) (fr_tensors _ Hg) Hne (fr_nodes _ Hg) Hprep) as (h1 & w1 & Hrun).
  rewrite (bind_done _ _ _ _ _ Hrun). clear Hrun.
  set (last := zlength (execution_plan_ g) - 1).
  set (g1 := set_next_execution_plan_index_to_prepare_ (last + 1) (set_has_dynamic_tensors_ false g)).
  rewrite (bind_done (upd _) _ _ tt (SG h1 g1 w1)) by done.
  destruct (plan_and_place (set_memory_planner_ (Some (new_planner (preserve_all g))) g1) h1 w1
    (new_planner (preserve_all g)) info B) as (h2 & p1 & p3 & ts & Hplan & Hex & Hmeta & Hdis); [done..|].
  rewrite (bind_done make_planner _ _ tt (SG h1 (set_memory_planner_ (Some p1) g1) w1))
    by (apply make_planner_run; [apply (fr_planner _ Hg)|exact Hplan]).
  rewrite (bind_done this _ _ (set_memory_planner_ (Some p1) g1) (SG h1 (set_memory_planner_ (Some p1) g1) w1)) by done.
  change (next_execution_plan_index_to_plan_allocation_ (set_memory_planner_ (Some p1) g1))
    with (next_execution_plan_index_to_plan_allocation_ g). rewrite Ha0.
  rewrite Hlen in Hex. rewrite (bind_done _ _ _ _ _ Hex).
  set (g2 := set_memory_planner_ (Some p3) (set_tensors_ ts g1)).
  rewrite (bind_done (verify_custom_allocations _) _ _ tt (SG h2 g2 w1)).
  - exists h2, w1, p3, ts. destruct Hdis. by split_and!.
  - unfold verify_custom_allocations. rewrite (bind_done this _ _ g2 (SG h2 g2 w1)) by done.
    change (custom_allocations_ g2) with (custom_allocations_ g). by rewrite (fr_custom _ Hg).
Qed.

(** ** The calls after placing *)

Lemma same_meta_fixed info ts : same_meta info ts ->
  Forall fixed (gi_tensors info) -> Forall fixed ts.
Proof.
  intros Hmeta Hfix. apply Forall_lookup. intros i t Ht.
  pose proof (f_equal (fun l => l !! i) Hmeta) as Hi. cbn in Hi. rewrite !list_lookup_fmap, Ht in Hi.
  destruct (gi_tensors info !! i) as [t0|] eqn:Ht0; [|done]. cbn in Hi. injection Hi as Hi.
  destruct (proj1 (Forall_lookup _ _) Hfix i t0 Ht0) as [Ha Hv]. destruct t, t0. by simplify_eq/=.
Qed.

Lemma ResetVariableTensors_none g h w : Forall fixed (tensors_ g) ->
  ResetVariableTensors (SG h g w : S) = (Done tt, SG h g w).
Proof.
  intros Hfix. unfold ResetVariableTensors. rewrite (bind_done this _ _ g (SG h g w)) by done.
  apply for_each_done. intros i Hi%elem_of_zrange.
  destruct (zlookup_in_range (tensors_ g) i) as [t Ht]; [lia|]. unfold tensor_ref.
  rewrite bind_assoc, (bind_done this _ _ g (SG h g w)), Ht by done. cbn [access]. rewrite bind_ret.
  by rewrite (proj2 (Forall_zlookup _ _ _ _ Hfix Ht)).
Qed.

(** A loop that only changes the release map. *)
Definition release_map_only {A} (c : M S A) (g : Subgraph P) : Prop := forall m h w,
  exists m' a, c (SG h (set_tensor_to_last_op_index_ m g) w) =
    (Done a, SG h (set_tensor_to_last_op_index_ m' g) w).

Lemma release_map_each {A} (l : list A) (body : A -> M S unit) g :
  (forall x, x ∈ l -> release_map_only (body x) g) -> release_map_only (for_each l body) g.
Proof.
  induction l as [|x l IH]; intros Hb m h w; [by exists m, tt|]. rewrite for_each_cons.
  destruct (Hb x ltac:(set_solver) m h w) as (m1 & [] & H1).
  destruct (IH ltac:(set_solver) m1 h w) as (m2 & [] & H2). exists m2, tt.
  by rewrite (bind_done _ _ _ _ _ H1).
Qed.

Lemma InitializeTensorReleaseMap_run g h w : sg_wf g ->
  Forall (fun n => n ∉ freed_nodes_ g) (execution_plan_ g) ->
  exists m, InitializeTensorReleaseMap (SG h g w : S) = (Done tt, SG h (set_tensor_to_last_op_index_ m g) w).
Proof.
  intros Hwf Hfreed. unfold InitializeTensorReleaseMap, for_plan.
  rewrite (bind_done this _ _ g (SG h g w)) by done.
  enough (Hmap : release_map_only (for_each (execution_plan_ g) (fun n =>
    let* node := node_arrays n in
    for_each (node_inputs node ++ node_outputs node) (fun i =>
      let* o := tensor i in
      match o with
      | Some _ => upd (fun g => set_tensor_to_last_op_index_ (<[i := n]> (tensor_to_last_op_index_ g)) g)
      | None => ret tt
      end))) g).
  { destruct (Hmap (tensor_to_last_op_index_ g) h w) as (m & [] & Hm). exists m. rewrite <- Hm.
    f_equal. f_equal. by destruct g. }
  apply release_map_each. intros n Hn m h1 w1. rewrite Forall_forall in Hfreed.
  pose proof (proj1 (Forall_forall _ _) (wf_plan_ _ Hwf) n Hn) as Hr.
  destruct (zlookup_in_range _ _ Hr) as [[nd reg] Hnode].
  rewrite (bind_done (node_arrays n) _ _ nd (SG h1 (set_tensor_to_last_op_index_ m g) w1))
    by (by eapply node_arrays_done; [|apply Hfreed]).
  apply (release_map_each (node_inputs nd ++ node_outputs nd)). clear m h1 w1. intros i _ m h1 w1.
  unfold tensor. rewrite bind_assoc, (bind_done this _ _ (set_tensor_to_last_op_index_ m g)
    (SG h1 (set_tensor_to_last_op_index_ m g) w1)) by done. rewrite bind_ret.
  destruct (_.[i]); [|by exists m, tt]. by exists (<[i := n]> m), tt.
Qed.

Lemma free_delegated_none g h w : pre_delegation_execution_plan_ g = [] ->
  free_delegated_temporaries (SG h g w : S) = (Done tt, SG h g w).
Proof.
  intros Hpre. unfold free_delegated_temporaries. rewrite (bind_done this _ _ g (SG h g w)), Hpre by done.
  rewrite list_to_set_nil. replace (∅ ∖ _) with (∅ : gset Z) by set_solver. by rewrite elements_empty.
Qed.

(** The indices of the passes, reset. *)
Definition restarted g : Subgraph P :=
  set_next_original_execution_plan_index_to_prepare_ 0
    (set_next_execution_plan_index_to_plan_allocation_ 0
      (set_next_execution_plan_index_to_prepare_ 0 g)).

Lemma reallocate_run g h w info B : fresh_graph g -> InterpreterInfo g = Some info ->
  placeable info (new_planner (preserve_all g)) B ->
  Forall (prepares_static g) (execution_plan_ g) ->
  exists h' w' m p ts, reallocate (SG h g w : S) =
      (Done tt, SG h' (set_tensor_to_last_op_index_ m (set_state_ kStateInvokable
        (placed_graph p ts (zlength (execution_plan_ g) - 1) (restarted g)))) w') /\
    same_meta info ts /\ never_overlap info p ts /\ shared_in_place info p.
Proof.
  intros Hg Hinfo Hpb Hprep. unfold reallocate.
  rewrite (bind_done (upd _) _ _ tt (SG h (set_next_execution_plan_index_to_prepare_ 0 g) w)) by done.
  rewrite (bind_done (upd _) _ _ tt (SG h (set_next_execution_plan_index_to_plan_allocation_ 0
    (set_next_execution_plan_index_to_prepare_ 0 g)) w)) by done.
  rewrite (bind_done (upd _) _ _ tt (SG h (restarted g) w)) by done.
  rewrite (bind_done (if_planner _) _ _ tt (SG h (restarted g) w)).
  2: { unfold if_planner. rewrite (bind_done this _ _ (restarted g) (SG h (restarted g) w)) by done.
    change (memory_planner_ (restarted g)) with (memory_planner_ g). by rewrite (fr_planner _ Hg). }
  assert (Hg0 : fresh_graph (restarted g)) by (destruct Hg as [? []]; split; try done; by split).
  destruct (PrepareOpsAndTensors_run (restarted g) h w info B Hg0 Hinfo eq_refl eq_refl Hpb Hprep)
    as (h1 & w1 & p & ts & Hrun & Hmeta & Hdis).
  rewrite (bind_done _ _ _ _ _ Hrun). clear Hrun. change (execution_plan_ (restarted g)) with (execution_plan_ g).
  set (g1 := placed_graph p ts (zlength (execution_plan_ g) - 1) (restarted g)).
  rewrite (bind_done (upd _) _ _ tt (SG h1 (set_state_ kStateInvokable g1) w1)) by done.
  assert (Hfix : Forall fixed ts).
  { eapply same_meta_fixed; [exact Hmeta|]. rewrite (InterpreterInfo_tensors _ _ Hinfo). apply (fr_tensors _ Hg). }
  rewrite (bind_done (status_call _) _ _ kTfLiteOk (SG h1 (set_state_ kStateInvokable g1) w1))
    by (unfold status_call; by rewrite (ResetVariableTensors_none (set_state_ kStateInvokable g1) h1 w1 Hfix)).
  assert (Hwf1 : sg_wf (set_state_ kStateInvokable g1)).
  { assert (Hts : zlength ts = zlength (tensors_ g)).
    { apply (f_equal length) in Hmeta. rewrite !length_fmap, (InterpreterInfo_tensors _ _ Hinfo) in Hmeta.
      unfold zlength. by rewrite Hmeta. }
    destruct (fr_wf _ Hg). split; cbn; rewrite ?Hts; done. }
  destruct (InitializeTensorReleaseMap_run (set_state_ kStateInvokable g1) h1 w1 Hwf1 (fr_nodes _ Hg)) as [m Hm].
  rewrite (bind_done _ _ _ _ _ Hm). exists h1, w1, m, p, ts. split; [|done].
  apply free_delegated_none, (fr_pre _ Hg).
Qed.
End Place.

(** C1. [AllocateTensors] on a new graph of fixed tensors, with nothing to inline and whose kernels
    prepare without changing it, returns ok with the graph invokable and every node prepared; two
    arena tensors of the graph that hold values at a common node of the execution plan are at
    disjoint addresses, unless they live in the same tensor's buffer; and the only tensors that live
    in another's buffer are first outputs of nodes whose operators may work in place. *)
Theorem AllocateTensors_places_disjoint {W : Type} {MM : Malloc} {SS : StdSort} {SSOk : StdSortOk}
    {SB : Siblings W} {DC : Decompositions ArenaPlanner.ArenaPlanner W}
    {CB : Callbacks (sgstate ArenaPlanner.ArenaPlanner W)} (s : sgstate ArenaPlanner.ArenaPlanner W) info B :
  fresh_graph (sg_graph s) -> InterpreterInfo (sg_graph s) = Some info ->
  placeable info (new_planner (preserve_all (sg_graph s))) B ->
  Forall (prepares_static (sg_graph s)) (execution_plan_ (sg_graph s)) ->
  exists s' p, AllocateTensors_all s = (Done tt, s') /\
    state_ (sg_graph s') = kStateInvokable /\
    next_execution_plan_index_to_prepare_ (sg_graph s') = zlength (execution_plan_ (sg_graph s)) /\
    memory_planner_ (sg_graph s') = Some p /\ same_meta info (tensors_ (sg_graph s')) /\
    never_overlap info p (tensors_ (sg_graph s')) /\ shared_in_place info p.
Proof.
  intros Hg Hinfo Hpb Hprep. rewrite (AllocateTensors_all_plain s (fr_undone _ Hg) (fr_plain _ Hg)).
  destruct s as [h g w]. cbn [sg_graph] in *. unfold AllocateTensors.
  rewrite (bind_done this _ _ g (SG h g w)), (fr_consistent _ Hg) by done. cbn [negb].
  rewrite (bind_done (RedoAllDelegates redo_fuel) _ _ tt (SG h g w)).
  2: { unfold redo_fuel, RedoAllDelegates. rewrite (bind_done this _ _ g (SG h g w)) by done.
    by rewrite (fr_undone _ Hg). }
  unfold allocate_tensors. rewrite (bind_done this _ _ g (SG h g w)), (fr_state _ Hg) by done.
  rewrite bool_decide_eq_true_2, bind_ret by done.
  destruct (reallocate_run g h w info B Hg Hinfo Hpb Hprep) as (h' & w' & m & p & ts & Hrun & Hmeta & Hdis & Hshare).
  eexists _, p. split; [exact Hrun|]. cbn. split_and!; [done|lia|done|done|done|done].
Qed.

(** ** The example *)

#[local] Existing Instance ex_callbacks.
#[local] Existing Instance ex_malloc.
#[local] Existing Instance ex_sort.

Definition ex_new_graph : sgstate ArenaPlanner.ArenaPlanner (list event) := ex_run_arena (take 10 ex_ops).
Definition ex_info : GraphInfo := Eval vm_compute in
  default (mkGraphInfo [] [] [] 0 [] [] []) (InterpreterInfo (sg_graph ex_new_graph)).

Lemma ex_fresh : fresh_graph (sg_graph ex_new_graph).
Proof.
  split; try (vm_compute; reflexivity).
  - left. vm_compute. reflexivity.
  - apply (stays_wf _ _ (stays_run_ops (CBOk := ex_callbacks_ok) (take 10 ex_ops) ex_new)), sg_wf_init.
  - vm_compute. repeat constructor; discriminate.
  - assert (freed_nodes_ (sg_graph ex_new_graph) = ∅) as -> by (vm_compute; reflexivity).
    apply Forall_forall. intros n _. apply not_elem_of_empty.
Qed.

Lemma ex_info_placeable : placeable ex_info (new_planner false) 16.
Proof.
  assert (Hv : forall t, valid ex_info t -> t = 0 \/ t = 1 \/ t = 2 \/ t = 3)
    by (intros t; unfold valid; change (num_tensors ex_info) with 4; lia).
  split.
  - apply graph_wf_b_ok. vm_compute. reflexivity.
  - intros t Ht%Hv. by decompose [or] Ht; subst; vm_compute.
  - lia.
  - done.
  - vm_compute. by repeat constructor.
  - by repeat split.
  - done.
  - by vm_compute.
  - intros i x (nr & Hi & Hne & Hx) _.
    destruct i as [|[|[|i]]]; cbn in Hi; [injection Hi as <-..|done]; cbn in Hx;
      rewrite ?elem_of_cons, ?elem_of_nil in Hx; decompose [or] Hx; subst; try done;
      (left; split; [by vm_compute|cbn; by left]) ||
      (right; exists 0%nat; eexists; split; [reflexivity|split; [by left|done]]) ||
      (right; exists 1%nat; eexists; split; [reflexivity|split; [by left|done]]) ||
      (right; exists 2%nat; eexists; split; [reflexivity|split; [by left|done]]).
Qed.

Lemma ex_prepares_static : Forall (prepares_static (sg_graph ex_new_graph)) (execution_plan_ (sg_graph ex_new_graph)).
Proof.
  assert (execution_plan_ (sg_graph ex_new_graph) = [0; 1; 2]) as -> by (vm_compute; reflexivity).
  repeat constructor; vm_compute in H; injection H as <-; reflexivity.
Qed.

Lemma AllocateTensors_places_disjoint_witness :
  exists s' p, AllocateTensors_all ex_new_graph = (Done tt, s') /\
    state_ (sg_graph s') = kStateInvokable /\
    next_execution_plan_index_to_prepare_ (sg_graph s') = zlength (execution_plan_ (sg_graph ex_new_graph)) /\
    memory_planner_ (sg_graph s') = Some p /\ same_meta ex_info (tensors_ (sg_graph s')) /\
    never_overlap ex_info p (tensors_ (sg_graph s')) /\ shared_in_place ex_info p.
Proof.
  apply (AllocateTensors_places_disjoint (SSOk := insertion_sort_ok) ex_new_graph ex_info 16).
  - apply ex_fresh.
  - vm_compute. reflexivity.
  - assert (preserve_all (sg_graph ex_new_graph) = false) as -> by (vm_compute; reflexivity).
    apply ex_info_placeable.
  - apply ex_prepares_static.
Defined.
