(* ===== verification/StdMap.v ===== *)
(** * [std::map] with string keys

    An ordered map as the list of its entries in the order of iteration, which is that of the
    keys: the order of [std::string], by the values of the characters. *)
From Stdlib Require Import String.
From stdpp Require Import strings.
From S2P Require Import Prelude.
#[local] Open Scope Z_scope.

Abbreviation StdMap A := (list (string * A)).

Lemma ascii_compare_refl a : Ascii.compare a a = Eq.
Proof. unfold Ascii.compare. apply N.compare_refl. Qed.

Lemma string_compare_eq s t : String.compare s t = Eq <-> s = t.
Proof.
  split; [apply String.compare_eq_iff|]. intros <-.
  induction s as [|a s IH]; [done|]. cbn. by rewrite ascii_compare_refl.
Qed.

Section StdMap.
Context {A : Type}.
Implicit Types m : StdMap A.

(** [m[key] = value]. *)
Fixpoint map_assign (key : string) (value : A) m : StdMap A :=
  match m with
  | [] => [(key, value)]
  | (k, v) :: m' =>
    match String.compare key k with
    | Eq => (key, value) :: m'
    | Lt => (key, value) :: m
    | Gt => (k, v) :: map_assign key value m'
    end
  end.

(** [m.find(key)]. *)
Fixpoint map_find (key : string) m : option A :=
  match m with
  | [] => None
  | (k, v) :: m' => if bool_decide (key = k) then Some v else map_find key m'
  end.

(** [m.insert({key, value})]: a key that is there keeps its value. *)
Definition map_insert (key : string) (value : A) m : StdMap A :=
  match map_find key m with Some _ => m | None => map_assign key value m end.

(** The entries are in the order of the keys. *)
Definition key_lt (x y : string * A) : Prop := String.compare (fst x) (fst y) = Lt.
Definition map_ordered m : Prop := StronglySorted key_lt m.

Lemma map_find_assign key value m k :
  map_find k (map_assign key value m) = if bool_decide (k = key) then Some value else map_find k m.
Proof.
  induction m as [|[k' v] m IH]; [done|]. cbn [map_assign].
  destruct (String.compare key k') eqn:Hc; cbn [map_find].
  - apply string_compare_eq in Hc as <-. by case_bool_decide.
  - done.
  - rewrite IH. repeat case_bool_decide; try done. subst.
    assert (Hk : String.compare k' k' = Eq) by by apply string_compare_eq. congruence.
Qed.

Lemma map_find_insert key value m k :
  map_find k (map_insert key value m) =
    if bool_decide (k = key) then Some (default value (map_find key m)) else map_find k m.
Proof.
  unfold map_insert. destruct (map_find key m) as [v|] eqn:Hv.
  - case_bool_decide; [by subst|done].
  - rewrite map_find_assign. done.
Qed.

Lemma map_assign_Forall (Q : string * A -> Prop) key value m : Forall Q m -> Q (key, value) -> Forall Q (map_assign key value m).
Proof.
  intros Hm Hq. induction m as [|[k v] m IH]; cbn; [by constructor|].
  apply Forall_cons in Hm as [Hkv Hm]. destruct (String.compare key k); constructor; auto.
Qed.

Lemma map_insert_Forall (Q : string * A -> Prop) key value m : Forall Q m -> Q (key, value) -> Forall Q (map_insert key value m).
Proof. intros Hm Hq. unfold map_insert. destruct (map_find key m); [done|]. by apply map_assign_Forall. Qed.

Lemma map_find_elem m key value : map_find key m = Some value -> (key, value) ∈ m.
Proof.
  induction m as [|[k v] m IH]; cbn; [done|]. case_bool_decide; [|set_solver]. intros [= ->]. subst. set_solver.
Qed.
End StdMap.

(** ** The order of strings *)

Lemma ascii_compare_trans a b c :
  Ascii.compare a b = Lt -> Ascii.compare b c = Lt -> Ascii.compare a c = Lt.
Proof. unfold Ascii.compare. rewrite !N.compare_lt_iff. lia. Qed.

Lemma string_lt_trans s : forall t u, String.compare s t = Lt -> String.compare t u = Lt -> String.compare s u = Lt.
Proof.
  induction s as [|a s IH]; intros [|b t] [|c u]; cbn; try done.
  destruct (Ascii.compare a b) eqn:Hab; destruct (Ascii.compare b c) eqn:Hbc; try done.
  - apply Ascii.compare_eq_iff in Hab as ->, Hbc as ->.
    rewrite ascii_compare_refl. apply IH.
  - apply Ascii.compare_eq_iff in Hab as ->. by rewrite Hbc.
  - apply Ascii.compare_eq_iff in Hbc as ->. by rewrite Hab.
  - by rewrite (ascii_compare_trans _ _ _ Hab Hbc).
Qed.

Section Ordered.
Context {A : Type}.
Implicit Types m : StdMap A.

Lemma string_gt_lt s t : String.compare s t = Gt -> String.compare t s = Lt.
Proof. rewrite String.compare_antisym. by destruct (String.compare t s). Qed.

Lemma map_assign_keys key value m x : x ∈ map_assign key value m -> fst x = key \/ x ∈ m.
Proof.
  induction m as [|[k v] m IH]; cbn; [set_solver|].
  destruct (String.compare key k); set_solver.
Qed.

Lemma map_assign_ordered key value m : map_ordered m -> map_ordered (map_assign key value m).
Proof.
  induction 1 as [|[k v] m Hm IH Hk]; cbn; [repeat constructor|].
  destruct (String.compare key k) eqn:Hc.
  - apply string_compare_eq in Hc as <-. by constructor.
  - constructor; [by constructor|]. constructor; [done|].
    eapply Forall_impl; [exact Hk|]. intros x. unfold key_lt. cbn. by apply string_lt_trans.
  - constructor; [done|]. apply Forall_forall. intros x [Hx|Hx]%map_assign_keys.
    + unfold key_lt. cbn. rewrite Hx. by apply string_gt_lt.
    + by apply (proj1 (Forall_forall _ _) Hk).
Qed.

Lemma map_insert_ordered key value m : map_ordered m -> map_ordered (map_insert key value m).
Proof. unfold map_insert. destruct (map_find key m); [done|]. apply map_assign_ordered. Qed.
End Ordered.
