(* ===== verification/MetadataUtil.v ===== *)
(** * Control dependencies in a model's metadata
    (compiler/mlir/lite/experimental/remat/metadata_util.{h,cc})

    The control edges of a model's subgraphs are kept in its metadata as a string: unsigned
    integers in chunks of seven bits, signed integers zigzag-encoded, vectors after their
    length.  What is written is read back, every other length of input is refused, and which
    inputs are accepted that are never written. *)
From S2P Require Import Prelude.
#[local] Open Scope Z_scope.

(** A byte is a [Z] from 0 to 255, a string or a character buffer a list of bytes. *)
Abbreviation bytes := (list Z).

(** [ControlEdge] and [ModelControlDependencies]. *)
Abbreviation ControlEdge := (Z * Z)%type.
Abbreviation ModelControlDependencies := (list (list ControlEdge)).

(** ** The overloads of [Serialize] and [Parse] *)

(** What [Serialize] appends for a value, and what [Parse] reads, with the data left: [None] is
    the [false] of a failed parse. *)
Record codec (A : Type) := mkCodec {
  Serialize : A -> bytes;
  Parse : bytes -> option (A * bytes) }.
Arguments Serialize {A}.
Arguments Parse {A}.

Definition kMod : Z := 2 ^ 7.
Definition UINT32_MAX : Z := 2 ^ 32 - 1.
Definition uint32_wrap (z : Z) : Z := z mod 2 ^ 32.

(** A 32-bit number has at most five chunks. *)
Definition max_chunks : nat := 5.

Fixpoint Serialize_chunks (fuel : nat) (value : Z) : bytes :=
  match fuel with
  | O => []
  | S fuel' =>
    if kMod <=? value then value mod kMod + kMod :: Serialize_chunks fuel' (value / kMod) else [value]
  end.

(** The loop of [Parse], from the current [*out] and [mul]. *)
Fixpoint Parse_chunks (data : bytes) (out mul : Z) : option (Z * bytes) :=
  match data with
  | [] => None
  | byte :: data' =>
    let out := uint32_wrap (out + uint32_wrap (byte mod kMod * mul)) in
    if Z.land byte kMod =? 0 then Some (out, data')
    else Parse_chunks data' out (uint32_wrap (mul * kMod))
  end.

Definition uint32 : codec Z := mkCodec Z (Serialize_chunks max_chunks) (fun data => Parse_chunks data 0 1).

Definition zigzag (value : Z) : Z :=
  if value <? 0 then uint32_wrap (uint32_wrap (- (value + 1)) * 2 + 1)
  else uint32_wrap (uint32_wrap value * 2).

Definition unzigzag (value : Z) : Z :=
  let magnitude := value / 2 in if value mod 2 =? 0 then magnitude else - magnitude - 1.

Definition int32 : codec Z := mkCodec Z
  (fun value => Serialize uint32 (zigzag value))
  (fun data => match Parse uint32 data with
               | Some (value, data') => Some (unzigzag value, data')
               | None => None
               end).

Definition pair_of {A B} (first : codec A) (second : codec B) : codec (A * B) := mkCodec (A * B)
  (fun x => Serialize first (fst x) ++ Serialize second (snd x))
  (fun data => match Parse first data with
               | None => None
               | Some (a, data') =>
                 match Parse second data' with
                 | None => None
                 | Some (b, data'') => Some ((a, b), data'')
                 end
               end).

(** The loop over the elements of the vector, as long as there is data. *)
Fixpoint Parse_elements {A} (c : codec A) (fuel : nat) (num_elems : Z) (data : bytes)
    : option (list A * bytes) :=
  if num_elems =? 0 then Some ([], data)
  else
    match fuel with
    | O => None
    | S fuel' =>
      match Parse c data with
      | None => None
      | Some (elem, data') =>
        match Parse_elements c fuel' (num_elems - 1) data' with
        | None => None
        | Some (out, data'') => Some (elem :: out, data'')
        end
      end
    end.

(** An element takes at least a byte, so the loop ends within the data. *)
Definition vector_of {A} (c : codec A) : codec (list A) := mkCodec (list A)
  (fun x => Serialize uint32 (uint32_wrap (zlength x)) ++ concat (Serialize c <$> x))
  (fun data => match Parse uint32 data with
               | None => None
               | Some (num_elems, data') => Parse_elements c (length data') num_elems data'
               end).

(** ** The functions of the header *)

Definition kModelControlDependenciesMetadataVersion : Z := 1.

Definition control_edges_codec : codec ModelControlDependencies := vector_of (vector_of (pair_of int32 int32)).

Definition SerializeModelControlDependencies (x : ModelControlDependencies) : bytes :=
  Serialize uint32 kModelControlDependenciesMetadataVersion ++ Serialize control_edges_codec x.

(** All of the data is read. *)
Definition ParseModelControlDependencies (data : bytes) : option ModelControlDependencies :=
  match Parse uint32 data with
  | None => None
  | Some (version, data') =>
    if version =? kModelControlDependenciesMetadataVersion then
      match Parse control_edges_codec data' with
      | Some (out, []) => Some out
      | _ => None
      end
    else None
  end.

(** ** What a codec promises *)

(** Valid values are read back, whatever follows them; what was read stays when more data
    follows; and reading consumes data. *)
Class CodecOk {A} (c : codec A) (valid : A -> Prop) : Prop := {
  parse_serialize x rest : valid x -> Parse c (Serialize c x ++ rest) = Some (x, rest);
  parse_extends data x rest more :
    Parse c data = Some (x, rest) -> Parse c (data ++ more) = Some (x, rest ++ more);
  parse_consumes data x rest : Parse c data = Some (x, rest) -> (length rest < length data)%nat }.

(** ** Integers *)

Lemma uint32_wrap_small z : 0 <= z <= UINT32_MAX -> uint32_wrap z = z.
Proof. unfold uint32_wrap, UINT32_MAX. intros. apply Z.mod_small. lia. Qed.

Lemma uint32_wrap_add out p : 0 <= out -> 0 <= p -> out + p <= UINT32_MAX ->
  uint32_wrap (out + uint32_wrap p) = out + p.
Proof. intros. rewrite (uint32_wrap_small p), uint32_wrap_small; lia. Qed.

(** The bit that says that more chunks follow. *)
Lemma high_bit b : 0 <= b < 256 -> (Z.land b kMod =? 0) = (b <? kMod).
Proof.
  intros Hb.
  assert (Hall : Forall (fun b => (Z.land b kMod =? 0) = (b <? kMod)) (zrange 0 255)).
  { apply (bool_decide_unpack _). vm_compute. exact I. }
  rewrite Forall_forall in Hall. apply Hall, elem_of_zrange. lia.
Qed.

Lemma parse_chunks fuel : forall v out mul rest,
  0 <= v < kMod ^ Z.of_nat (S fuel) -> 0 <= out -> 0 < mul -> out + v * mul <= UINT32_MAX ->
  Parse_chunks (Serialize_chunks (S fuel) v ++ rest) out mul = Some (out + v * mul, rest).
Proof.
  induction fuel as [|fuel IH]; intros v out mul rest Hv Hout Hmul Hmax.
  - change (kMod ^ Z.of_nat 1) with kMod in Hv. cbn [Serialize_chunks].
    destruct (Z.leb_spec kMod v); [lia|]. cbn [app Parse_chunks].
    rewrite Z.mod_small, uint32_wrap_add, high_bit by (unfold kMod in *; nia).
    by destruct (Z.ltb_spec v kMod); [|lia].
  - remember (S fuel) as fuel' eqn:Hf. cbn [Serialize_chunks]. destruct (Z.leb_spec kMod v).
    + pose proof (Z.div_mod v kMod ltac:(done)) as Hdiv.
      pose proof (Z.mod_pos_bound v kMod ltac:(done)) as Hmod.
      assert (Hq : 1 <= v / kMod) by (apply Z.div_le_lower_bound; lia).
      cbn [app Parse_chunks]. replace ((v mod kMod + kMod) mod kMod) with (v mod kMod).
      2:{ rewrite Zplus_mod, Z_mod_same_full, Z.add_0_r, !Zmod_mod. done. }
      rewrite high_bit by (unfold kMod in *; lia).
      destruct (Z.ltb_spec (v mod kMod + kMod) kMod); [lia|].
      assert (v mod kMod * mul <= v * mul) by nia.
      assert (mul * kMod <= v * mul) by nia.
      rewrite uint32_wrap_add, (uint32_wrap_small (mul * kMod)) by nia. subst fuel'.
      rewrite IH; [f_equal; f_equal; nia| |nia|nia|nia].
      split; [lia|]. apply Z.div_lt_upper_bound; [done|].
      rewrite <- Z.pow_succ_r, <- Nat2Z.inj_succ by lia. lia.
    + cbn [app Parse_chunks].
      rewrite Z.mod_small, uint32_wrap_add, high_bit by (unfold kMod in *; nia). by destruct (Z.ltb_spec v kMod); [|lia].
Qed.

Lemma parse_chunks_extends data more : forall out mul x rest,
  Parse_chunks data out mul = Some (x, rest) ->
  Parse_chunks (data ++ more) out mul = Some (x, rest ++ more).
Proof.
  induction data as [|b data IH]; intros out mul x rest; cbn; [done|].
  destruct (_ =? 0); [|apply IH]. by intros [= <- <-].
Qed.

Lemma parse_chunks_consumes data : forall out mul x rest,
  Parse_chunks data out mul = Some (x, rest) -> (length rest < length data)%nat.
Proof.
  induction data as [|b data IH]; intros out mul x rest; cbn; [done|].
  destruct (_ =? 0); [intros [= <- <-]; lia|]. intros H%IH. lia.
Qed.

Lemma parse_chunks_range data : forall out mul x rest, 0 <= out <= UINT32_MAX ->
  Parse_chunks data out mul = Some (x, rest) -> 0 <= x <= UINT32_MAX.
Proof.
  induction data as [|b data IH]; intros out mul x rest Hout; cbn; [done|].
  assert (Hw : forall z, 0 <= uint32_wrap z <= UINT32_MAX).
  { intros z. unfold uint32_wrap, UINT32_MAX. pose proof (Z.mod_pos_bound z (2 ^ 32)). lia. }
  destruct (_ =? 0); [intros [= <- <-]; apply Hw|]. apply IH, Hw.
Qed.

Definition is_uint32 (v : Z) : Prop := 0 <= v <= UINT32_MAX.
Definition is_int32 (v : Z) : Prop := INT32_MIN <= v <= INT32_MAX.

#[export] Instance uint32_ok : CodecOk uint32 is_uint32.
Proof.
  split; cbn [Parse Serialize uint32].
  - intros x rest Hx. unfold max_chunks. rewrite parse_chunks; [f_equal; f_equal; lia| |lia..|].
    all: unfold is_uint32, UINT32_MAX, kMod in *; cbn; lia.
  - intros data x rest more. apply parse_chunks_extends.
  - intros data x rest. apply parse_chunks_consumes.
Qed.

Lemma parse_uint32_range data n rest : Parse uint32 data = Some (n, rest) -> is_uint32 n.
Proof. apply parse_chunks_range. unfold UINT32_MAX. lia. Qed.

Lemma zigzag_range v : is_int32 v -> is_uint32 (zigzag v).
Proof.
  unfold is_int32, is_uint32, zigzag, UINT32_MAX, uint32_wrap. intros. 
  destruct (v <? 0); pose proof (Z.mod_pos_bound (uint32_wrap v * 2) (2 ^ 32));
    pose proof (Z.mod_pos_bound ((- (v + 1)) mod 2 ^ 32 * 2 + 1) (2 ^ 32)); unfold uint32_wrap in *; lia.
Qed.

Lemma unzigzag_zigzag v : is_int32 v -> unzigzag (zigzag v) = v.
Proof.
  unfold is_int32, INT32_MIN, INT32_MAX. intros Hv. unfold unzigzag, zigzag.
  destruct (Z.ltb_spec v 0); rewrite !uint32_wrap_small by (unfold UINT32_MAX; rewrite ?uint32_wrap_small; unfold UINT32_MAX; lia).
  - replace ((- (v + 1) * 2 + 1) mod 2) with 1 by (apply (Z.mod_unique_pos _ _ (- (v + 1))); lia).
    replace ((- (v + 1) * 2 + 1) / 2) with (- (v + 1)) by (apply (Z.div_unique_pos _ _ _ 1); lia).
    cbn [Z.eqb]. lia.
  - by rewrite Z_mod_mult, Z_div_mult_full.
Qed.

#[export] Instance int32_ok : CodecOk int32 is_int32.
Proof.
  split; cbn [Parse Serialize int32].
  - intros x rest Hx. rewrite (parse_serialize (c := uint32)) by by apply zigzag_range.
    by rewrite unzigzag_zigzag.
  - intros data x rest more. destruct (Parse uint32 data) as [[v d]|] eqn:Hp; [|done].
    intros [= <- <-]. by rewrite (parse_extends _ _ _ _ Hp).
  - intros data x rest. destruct (Parse uint32 data) as [[v d]|] eqn:Hp; [|done].
    intros [= <- <-]. by eapply (parse_consumes (c := uint32)).
Qed.

(** ** Pairs and vectors *)

#[export] Instance pair_of_ok {A B} (c : codec A) (d : codec B) P Q :
  CodecOk c P -> CodecOk d Q -> CodecOk (pair_of c d) (fun x => P (fst x) /\ Q (snd x)).
Proof.
  intros Hc Hd. split; cbn [Parse Serialize pair_of].
  - intros [a b] rest [Ha Hb]. by rewrite <- app_assoc, (parse_serialize a), (parse_serialize b).
  - intros data x rest more. destruct (Parse c data) as [[a data']|] eqn:Ha; [|done].
    destruct (Parse d data') as [[b data'']|] eqn:Hb; [|done]. intros [= <- <-].
    by rewrite (parse_extends _ _ _ _ Ha), (parse_extends _ _ _ _ Hb).
  - intros data x rest. destruct (Parse c data) as [[a data']|] eqn:Ha; [|done].
    destruct (Parse d data') as [[b data'']|] eqn:Hb; [|done]. intros [= <- <-].
    apply parse_consumes in Ha, Hb. lia.
Qed.

Section Vector.
Context {A : Type} (c : codec A) (P : A -> Prop) {Hc : CodecOk c P}.

(** The loop of the code, over [num_elems] elements. *)
Fixpoint parse_all (num_elems : nat) (data : bytes) : option (list A * bytes) :=
  match num_elems with
  | O => Some ([], data)
  | S n =>
    match Parse c data with
    | None => None
    | Some (elem, data') =>
      match parse_all n data' with
      | None => None
      | Some (out, data'') => Some (elem :: out, data'')
      end
    end
  end.

(** The fuel of [Parse_elements] is enough. *)
Lemma Parse_elements_all fuel : forall num_elems data, 0 <= num_elems -> (length data <= fuel)%nat ->
  Parse_elements c fuel num_elems data = parse_all (Z.to_nat num_elems) data.
Proof.
  induction fuel as [|fuel IH]; intros n data Hn Hlen; cbn [Parse_elements].
  - destruct (Z.eqb_spec n 0) as [->|]; [done|].
    replace (Z.to_nat n) with (S (Z.to_nat (n - 1))) by lia. cbn.
    destruct (Parse c data) as [[x rest]|] eqn:Hx; [|done]. apply parse_consumes in Hx. lia.
  - destruct (Z.eqb_spec n 0) as [->|]; [done|].
    replace (Z.to_nat n) with (S (Z.to_nat (n - 1))) by lia. cbn.
    destruct (Parse c data) as [[x rest]|] eqn:Hx; [|done]. apply parse_consumes in Hx.
    rewrite IH by lia. done.
Qed.

Lemma Parse_vector data : Parse (vector_of c) data =
  match Parse uint32 data with
  | None => None
  | Some (num_elems, data') => parse_all (Z.to_nat num_elems) data'
  end.
Proof.
  cbn [Parse vector_of]. destruct (Parse uint32 data) as [[n data']|] eqn:Hn; [|done].
  apply parse_uint32_range in Hn. apply Parse_elements_all; [apply Hn|lia].
Qed.

Lemma parse_all_serialize l rest : Forall P l ->
  parse_all (length l) (concat (Serialize c <$> l) ++ rest) = Some (l, rest).
Proof.
  induction 1 as [|x l Hx _ IH]; [done|]. cbn. by rewrite <- app_assoc, parse_serialize, IH.
Qed.

Lemma parse_all_extends n more : forall data l rest,
  parse_all n data = Some (l, rest) -> parse_all n (data ++ more) = Some (l, rest ++ more).
Proof.
  induction n as [|n IH]; intros data l rest; cbn; [by intros [= <- <-]|].
  destruct (Parse c data) as [[x d]|] eqn:Hx; [|done].
  destruct (parse_all n d) as [[l' d']|] eqn:Hl; [|done]. intros [= <- <-].
  by rewrite (parse_extends _ _ _ _ Hx), (IH _ _ _ Hl).
Qed.

Lemma parse_all_length n : forall data l rest,
  parse_all n data = Some (l, rest) -> length l = n /\ (length rest <= length data)%nat.
Proof.
  induction n as [|n IH]; intros data l rest; cbn; [by intros [= <- <-]|].
  destruct (Parse c data) as [[x d]|] eqn:Hx; [|done].
  destruct (parse_all n d) as [[l' d']|] eqn:Hl; [|done]. intros [= <- <-].
  apply IH in Hl as [<- ?]. apply parse_consumes in Hx. cbn. lia.
Qed.

#[export] Instance vector_of_ok : CodecOk (vector_of c) (fun l => zlength l <= UINT32_MAX /\ Forall P l).
Proof.
  split.
  - intros l rest [Hlen Hl]. rewrite Parse_vector. cbn [Serialize vector_of].
    pose proof (zlength_nonneg l).
    rewrite uint32_wrap_small, <- app_assoc, (parse_serialize (zlength l)) by (unfold is_uint32; lia).
    unfold zlength. rewrite Nat2Z.id. by apply parse_all_serialize.
  - intros data l rest more. rewrite !Parse_vector.
    destruct (Parse uint32 data) as [[n d]|] eqn:Hn; [|done].
    rewrite (parse_extends _ _ _ _ Hn). apply parse_all_extends.
  - intros data l rest. rewrite Parse_vector.
    destruct (Parse uint32 data) as [[n d]|] eqn:Hn; [|done].
    intros [_ ?]%parse_all_length. apply parse_consumes in Hn. lia.
Qed.
End Vector.

(** ** Model control dependencies *)

(** What the types of the code bound: [int] edges and [uint32_t] sizes. *)
Definition valid_dependencies (x : ModelControlDependencies) : Prop :=
  zlength x <= UINT32_MAX /\
  Forall (fun edges => zlength edges <= UINT32_MAX /\
    Forall (fun e => is_int32 (fst e) /\ is_int32 (snd e)) edges) x.

#[export] Instance control_edges_codec_ok : CodecOk control_edges_codec valid_dependencies.
Proof. exact _. Qed.

(** The data [ParseModelControlDependencies] accepts: the version, then the edges, then nothing. *)
Lemma ParseModelControlDependencies_some data x :
  ParseModelControlDependencies data = Some x <->
  exists data', Parse uint32 data = Some (kModelControlDependenciesMetadataVersion, data') /\
                Parse control_edges_codec data' = Some (x, []).
Proof.
  unfold ParseModelControlDependencies. split.
  - destruct (Parse uint32 data) as [[v d]|]; [|done].
    destruct (Z.eqb_spec v kModelControlDependenciesMetadataVersion) as [->|]; [|done].
    destruct (Parse control_edges_codec d) as [[y [|]]|] eqn:Hd; [|done..]. intros [= ->]. eauto.
  - intros (d & -> & Hd). by rewrite Z.eqb_refl, Hd.
Qed.

Lemma parse_serialized x rest : valid_dependencies x ->
  Parse uint32 (SerializeModelControlDependencies x ++ rest) =
    Some (kModelControlDependenciesMetadataVersion, Serialize control_edges_codec x ++ rest) /\
  Parse control_edges_codec (Serialize control_edges_codec x ++ rest) = Some (x, rest).
Proof.
  intros Hx. unfold SerializeModelControlDependencies.
  rewrite <- app_assoc, (parse_serialize kModelControlDependenciesMetadataVersion) by done.
  split; [done|]. by apply parse_serialize.
Qed.

(** C18. Control dependencies read back as they were written, and no other data that starts with
    the written string, or that the written string starts with, is accepted: neither a
    truncation nor trailing bytes. *)
Theorem control_dependencies_roundtrip x : valid_dependencies x ->
  ParseModelControlDependencies (SerializeModelControlDependencies x) = Some x /\
  forall data, data `prefix_of` SerializeModelControlDependencies x \/
    SerializeModelControlDependencies x `prefix_of` data ->
    data <> SerializeModelControlDependencies x -> ParseModelControlDependencies data = None.
Proof.
  intros Hx. split.
  { apply ParseModelControlDependencies_some. destruct (parse_serialized x [] Hx) as [H1 H2].
    rewrite !app_nil_r in *. eauto. }
  intros data Hdata Hne. destruct (ParseModelControlDependencies data) as [y|] eqn:Hy; [|done].
  apply ParseModelControlDependencies_some in Hy as (d & Hv & Hd).
  destruct Hdata as [[more Hm]|[more Hm]].
  - apply (parse_extends _ _ _ more) in Hv, Hd. rewrite <- Hm in Hv.
    destruct (parse_serialized x [] Hx) as [H1 H2]. rewrite !app_nil_r in *.
    assert (Hs : d ++ more = Serialize control_edges_codec x) by congruence.
    assert (more = []) as -> by (rewrite Hs, H2 in Hd; cbn [app] in Hd; congruence).
    by rewrite app_nil_r in Hm.
  - subst data. destruct (parse_serialized x more Hx) as [H1 H2].
    assert (more = []) as -> by congruence.
    by rewrite app_nil_r in Hne.
Qed.

(** *** On concrete data *)

Definition ex_dependencies : ModelControlDependencies := [[(0, 300); (-1, 2)]; []].

Lemma control_dependencies_roundtrip_witness :
  ParseModelControlDependencies (SerializeModelControlDependencies ex_dependencies) = Some ex_dependencies /\
  forall data, data `prefix_of` SerializeModelControlDependencies ex_dependencies \/
    SerializeModelControlDependencies ex_dependencies `prefix_of` data ->
    data <> SerializeModelControlDependencies ex_dependencies -> ParseModelControlDependencies data = None.
Proof.
  apply (control_dependencies_roundtrip ex_dependencies).
  split; [vm_compute; discriminate|]. repeat constructor; vm_compute; (discriminate || congruence).
Defined.

Example ex_serialized :
  SerializeModelControlDependencies ex_dependencies = [1; 2; 2; 0; 216; 4; 1; 4; 0].
Proof. reflexivity. Qed.

(** Longer encodings of a number are accepted too, and what exceeds 32 bits is dropped. *)
Example longer_encoding : ParseModelControlDependencies [129; 0; 0] = ParseModelControlDependencies [1; 0].
Proof. reflexivity. Qed.

Example bits_dropped : Parse uint32 [128; 128; 128; 128; 16] = Some (0, []).
Proof. reflexivity. Qed.
