(* ===== verification/OptionTables.v ===== *)
(** * The options of builtin operators in a model (compiler/mlir/lite/schema/schema_generated.h)

    An operator's options are one of two unions of tables.  Here are the tables that the parser of
    options reads, with their fields in the order of the schema; every other table, and none at
    all, is [OtherOptions].  A number, an enumerator and a [float] (by its bits) are a [Z], a
    string is the address of its characters, a vector its elements, or where only its memory is
    passed on its address and size; [None] is null. *)
From S2P Require Import Prelude.
#[local] Open Scope Z_scope.

(** [Operator::builtin_options]. *)
Inductive BuiltinOptions :=
  | OtherOptions
  | Conv2DOptions
      (padding stride_w stride_h fused_activation_function dilation_w_factor dilation_h_factor quantized_bias_type : Z)
  | Conv3DOptions
      (padding stride_d stride_w stride_h fused_activation_function dilation_d_factor dilation_w_factor dilation_h_factor : Z)
  | Pool2DOptions (padding stride_w stride_h filter_width filter_height fused_activation_function : Z)
  | DepthwiseConv2DOptions
      (padding stride_w stride_h depth_multiplier fused_activation_function dilation_w_factor dilation_h_factor : Z)
  | LSHProjectionOptions (type : Z)
  | SVDFOptions (rank fused_activation_function : Z) (asymmetric_quantize_inputs : bool)
  | RNNOptions (fused_activation_function : Z) (asymmetric_quantize_inputs : bool)
  | SequenceRNNOptions (time_major : bool) (fused_activation_function : Z)
      (asymmetric_quantize_inputs : bool)
  | BidirectionalSequenceRNNOptions (time_major : bool) (fused_activation_function : Z)
      (merge_outputs asymmetric_quantize_inputs : bool)
  | FullyConnectedOptions (fused_activation_function weights_format : Z)
      (keep_num_dims asymmetric_quantize_inputs : bool) (quantized_bias_type : Z)
  | SoftmaxOptions (beta : Z)
  | ConcatenationOptions (axis fused_activation_function : Z)
  | AddOptions (fused_activation_function : Z) (pot_scale_int16 : bool)
  | MulOptions (fused_activation_function : Z)
  | L2NormOptions (fused_activation_function : Z)
  | LocalResponseNormalizationOptions (radius bias alpha beta : Z)
  | LSTMOptions (fused_activation_function cell_clip proj_clip kernel_type : Z)
      (asymmetric_quantize_inputs : bool)
  | UnidirectionalSequenceLSTMOptions (fused_activation_function cell_clip proj_clip : Z)
      (time_major asymmetric_quantize_inputs diagonal_recurrent_tensors : bool)
  | BidirectionalSequenceLSTMOptions (fused_activation_function cell_clip proj_clip : Z)
      (merge_outputs time_major asymmetric_quantize_inputs : bool)
  | ResizeBilinearOptions (align_corners half_pixel_centers : bool)
  | ResizeNearestNeighborOptions (align_corners half_pixel_centers : bool)
  | ReshapeOptions (new_shape : option (list Z))
  | SkipGramOptions (ngram_size max_skip_size : Z) (include_all_ngrams : bool)
  | SpaceToDepthOptions (block_size : Z)
  | DepthToSpaceOptions (block_size : Z)
  | SubOptions (fused_activation_function : Z) (pot_scale_int16 : bool)
  | DivOptions (fused_activation_function : Z)
  | EmbeddingLookupSparseOptions (combiner : Z)
  | GatherOptions (axis batch_dims : Z)
  | ReducerOptions (keep_dims : bool)
  | SqueezeOptions (squeeze_dims : option (list Z))
  | SplitOptions (num_splits : Z)
  | SplitVOptions (num_splits : Z)
  | StridedSliceOptions (begin_mask end_mask ellipsis_mask new_axis_mask shrink_axis_mask : Z)
      (offset : bool)
  | CastOptions (in_data_type out_data_type : Z)
  | ArgMaxOptions (output_type : Z)
  | ArgMinOptions (output_type : Z)
  | TransposeConvOptions (padding stride_w stride_h fused_activation_function quantized_bias_type : Z)
  | SparseToDenseOptions (validate_indices : bool)
  | ShapeOptions (out_type : Z)
  | FakeQuantOptions (min max num_bits : Z) (narrow_range : bool)
  | PackOptions (values_count axis : Z)
  | OneHotOptions (axis : Z)
  | UnpackOptions (num axis : Z)
  | LeakyReluOptions (alpha : Z)
  | MirrorPadOptions (mode : Z)
  | UniqueOptions (idx_out_type : Z)
  | ReverseSequenceOptions (seq_dim batch_dim : Z)
  | IfOptions (then_subgraph_index else_subgraph_index : Z)
  | CallOnceOptions (init_subgraph_index : Z)
  | WhileOptions (cond_subgraph_index body_subgraph_index : Z)
  | BatchMatMulOptions (adj_x adj_y asymmetric_quantize_inputs : bool)
  | CumsumOptions (exclusive reverse : bool)
  | HashtableOptions (table_id key_dtype value_dtype : Z)
  | VarHandleOptions (container shared_name : option Z)
  | RandomOptions (seed seed2 : Z)
  | BucketizeOptions (boundaries : option (Z * Z))
  | GeluOptions (approximate : bool).

(** [Operator::builtin_options_2]. *)
Inductive BuiltinOptions2 :=
  | OtherOptions2
  | StablehloRngBitGeneratorOptions (algorithm : Z)
  | StablehloGatherOptions (offset_dims collapsed_slice_dims start_index_map : option (list Z))
      (index_vector_dim : Z) (slice_sizes : option (list Z)) (indices_are_sorted : bool)
  | StablehloReduceWindowOptions
      (window_dimensions window_strides base_dilations window_dilations padding : option (list Z))
      (body_subgraph_index : Z)
  | StablehloScatterOptions (indices_are_sorted : bool)
      (update_window_dims inserted_window_dims scatter_dims_to_operand_dims : option (list Z))
      (index_vector_dim : Z) (unique_indices : bool) (update_computation_subgraph_index : Z)
  | StablehloPadOptions (edge_padding_low edge_padding_high interior_padding : option (list Z))
  | StableHLOCompositeOptions (name : option Z) (decomposition_subgraph_index : Z)
      (composite_attributes : option (Z * Z)) (composite_attributes_format version : Z)
  | StablehloCaseOptions (branch_subgraph_indices : option (list Z))
  | ReduceWindowOptions (reduce_function : Z).
