(* ===== verification/ModelSchema.v ===== *)
(** * The tables of a model (compiler/mlir/lite/schema/schema_generated.h), and reading them
    (interpreter_builder.cc, core/api/flatbuffer_conversions.cc, core/model_builder_base.h)

    A model is a flatbuffer: tables whose fields are scalars, strings, vectors and other tables,
    any of which but a scalar may be absent.  Here are the fields the builder of an interpreter
    reads, and the parts of it that only translate a table: types, quantization, sparsity,
    signatures and metadata. *)
From Stdlib Require Import String.
From stdpp Require Import strings.
From S2P Require Import Prelude Common StdMap MetadataUtil OptionTables OpResolver.
#[local] Open Scope Z_scope.

(** ** Tables *)

(** The data of a buffer is in the memory of the model: its address and contents. *)
Record Buffer := mkBuffer { buf_data : option (Z * bytes); buf_offset : Z; buf_size : Z }.

Record BlockwiseQuantization := mkBlockwise { bq_scales : Z; bq_zero_points : Z; bq_block_size : Z }.

(** [details_type()] is [QuantizationDetails_BlockwiseQuantization], or another. *)
Record QuantizationParameters := mkQuantizationParameters {
  qp_scales : option (list Z); qp_zero_points : option (list Z);
  qp_blockwise : bool; qp_details : option BlockwiseQuantization; qp_quantized_dimension : Z }.

(** The union [SparseIndexVector]: its tag and the values of its table. *)
Inductive SparseIndexVector_type := Int32Vector | Uint16Vector | Uint8Vector | OtherVector.
Record SparseIndexVector := mkSparseIndexVector { siv_type : SparseIndexVector_type; siv_values : option (list Z) }.

Record DimensionMetadata := mkDimensionMetadata {
  dm_format : Z; dm_dense_size : Z;
  dm_array_segments : option SparseIndexVector; dm_array_indices : option SparseIndexVector }.

Record SparsityParameters := mkSparsityParameters {
  sp_traversal_order : option (list Z); sp_block_map : option (list Z);
  sp_dim_metadata : option (list DimensionMetadata) }.

Record Tensor := mkModelTensor {
  shape : option (list Z); tensor_type : Z; buffer : Z; name : option string;
  quantization : option QuantizationParameters; is_variable : bool;
  sparsity : option SparsityParameters; shape_signature : option (list Z); external_buffer : Z }.

Record Operator := mkModelOperator {
  opcode_index : Z; op_inputs : option (list Z); op_outputs : option (list Z);
  op_intermediates : option (list Z); builtin_options : BuiltinOptions;
  builtin_options_2 : BuiltinOptions2; custom_options : option (Z * bytes);
  large_custom_options_offset : Z; large_custom_options_size : Z }.

Record SubGraph := mkSubGraph {
  tensors : option (list Tensor); subgraph_inputs : option (list Z); subgraph_outputs : option (list Z);
  operators : option (list Operator); subgraph_name : option string }.

Record TensorMap := mkTensorMap { tm_name : option string; tm_tensor_index : Z }.

(** [tflite::SignatureDef], the table. *)
Record SignatureTable := mkSignatureTable {
  st_inputs : option (list (option TensorMap)); st_outputs : option (list (option TensorMap));
  st_signature_key : option string; st_subgraph_index : Z }.

Record Metadata := mkMetadata { md_name : option string; md_buffer : Z }.

Record Model := mkModel {
  model_version : Z; operator_codes : option (list OperatorCode); subgraphs : option (list SubGraph);
  buffers : option (list (option Buffer)); model_metadata : option (list Metadata);
  signature_defs : option (list (option SignatureTable)) }.

Definition TFLITE_SCHEMA_VERSION : Z := 3.

(** [FlatBufferIntArrayToVector]. *)
Definition FlatBufferIntArrayToVector (flat_array : option (list Z)) : list Z := default [] flat_array.

(** ** Metadata *)

(** Entries without a buffer, without contents or without a name are skipped. *)
Definition metadata_entry (bufs : list (option Buffer)) (m : Metadata) : option (string * bytes) :=
  match bufs.[md_buffer m] with
  | Some (Some b) =>
    match buf_data b, md_name m with
    | Some (_, val), Some key => if bool_decide (val = []) then None else Some (key, val)
    | _, _ => None
    end
  | _ => None
  end.

Definition ReadAllMetadata (model : option Model) : StdMap bytes :=
  match model with
  | None => []
  | Some m =>
    match model_metadata m, buffers m with
    | Some l, Some bufs =>
      fold_left (fun keys_values md =>
        match metadata_entry bufs md with
        | Some (key, val) => map_assign key val keys_values
        | None => keys_values
        end) l []
    | _, _ => []
    end
  end.

(** ** Types *)

(** [ConvertTensorType], by the values of [enum TensorType]. *)
Definition ConvertTensorType (type : Z) : outcome TfLiteType :=
  match type with
  | 0 => Done kTfLiteFloat32 | 1 => Done kTfLiteFloat16 | 2 => Done kTfLiteInt32
  | 3 => Done kTfLiteUInt8 | 4 => Done kTfLiteInt64 | 5 => Done kTfLiteString
  | 6 => Done kTfLiteBool | 7 => Done kTfLiteInt16 | 8 => Done kTfLiteComplex64
  | 9 => Done kTfLiteInt8 | 10 => Done kTfLiteFloat64 | 11 => Done kTfLiteComplex128
  | 12 => Done kTfLiteUInt64 | 13 => Done kTfLiteResource | 14 => Done kTfLiteVariant
  | 15 => Done kTfLiteUInt32 | 16 => Done kTfLiteUInt16 | 17 => Done kTfLiteInt4
  | 18 => Done kTfLiteBFloat16 | 19 => Done kTfLiteInt2 | 20 => Done kTfLiteUInt4
  | _ => Fail kTfLiteError
  end.

(** ** Quantization *)

(** All the zero points are the first one, which is narrowed to [int32_t] first. *)
Definition all_zero_points_same (zero_point : list Z) : bool :=
  match zero_point with
  | [] => false
  | z :: rest => forallb (fun x => x =? int32_wrap z) rest
  end.

(** [num_scales] is compared with a dimension, converted to [size_t]. *)
Definition wrong_num_scales (dims : list Z) (num_scales quantized_dimension : Z) : bool :=
  negb (num_scales =? 1) && negb (bool_decide (dims = [])) &&
  negb (num_scales =? size_wrap (zget dims quantized_dimension)).

Definition affine_quantization (compress : bool) (scale zero_point : list Z) (quantized_dimension : Z)
    : TfLiteQuantization :=
  kTfLiteAffineQuantization (Some scale)
    (Some (if compress && all_zero_points_same zero_point then [int32_wrap (default 0 (head zero_point))]
           else int32_wrap <$> zero_point))
    quantized_dimension.

(** A failure leaves no quantization. *)
Definition ParseQuantization (compress : bool) (src : option QuantizationParameters) (dims : list Z)
    : outcome TfLiteQuantization :=
  match src with
  | None => Done kTfLiteNoQuantization
  | Some q =>
    if qp_blockwise q then
      match qp_details q with
      | None => Undef
      | Some d => Done (kTfLiteBlockwiseQuantization (bq_scales d) (bq_zero_points d) (bq_block_size d)
                          (qp_quantized_dimension q))
      end
    else
      match qp_scales q with
      | None | Some [] => Done kTfLiteNoQuantization
      | Some scale =>
        match qp_zero_points q with
        | None => Fail kTfLiteError
        | Some zero_point =>
          if negb (zlength scale =? zlength zero_point) then Fail kTfLiteError
          else if (qp_quantized_dimension q <? 0) ||
                  (negb (bool_decide (dims = [])) && (zlength dims <=? qp_quantized_dimension q))
          then Fail kTfLiteError
          else if wrong_num_scales dims (zlength scale) (qp_quantized_dimension q) then Fail kTfLiteError
          else Done (affine_quantization compress scale zero_point (qp_quantized_dimension q))
        end
      end
  end.

(** ** Sparsity *)

Definition DimensionType_DENSE : Z := 0.
Definition DimensionType_SPARSE_CSR : Z := 1.

(** [Copy]: whatever the width of the elements. *)
Definition copy_vector (v : SparseIndexVector) : option (list Z) :=
  match siv_type v with OtherVector => None | _ => siv_values v end.

(** The arrays that were set, and whether all of them were. *)
Definition ParseSparseIndexVector (src : DimensionMetadata) : bool * TfLiteIntArray * TfLiteIntArray :=
  match dm_array_segments src, dm_array_indices src with
  | Some segments, Some indices =>
    match copy_vector segments with
    | None => (false, None, None)
    | Some l => match copy_vector indices with
                | None => (false, Some l, None)
                | Some l' => (true, Some l, Some l')
                end
    end
  | _, _ => (false, None, None)
  end.

Definition dim_metadata_zero : TfLiteDimensionMetadata := mkDimMetadata kTfLiteDimDense 0 None None.

(** The entries that were set when the loop ended, and whether it reached the end. *)
Fixpoint parse_dim_metadata (src : list DimensionMetadata) : bool * list TfLiteDimensionMetadata :=
  match src with
  | [] => (true, [])
  | d :: src' =>
    let stop entry := (false, entry :: replicate (length src') dim_metadata_zero) in
    if dm_format d =? DimensionType_DENSE then
      let '(ok, rest) := parse_dim_metadata src' in
      (ok, mkDimMetadata kTfLiteDimDense (dm_dense_size d) None None :: rest)
    else if dm_format d =? DimensionType_SPARSE_CSR then
      let '(ok, segments, indices) := ParseSparseIndexVector d in
      let entry := mkDimMetadata kTfLiteDimSparseCSR 0 segments indices in
      if ok : bool then let '(ok, rest) := parse_dim_metadata src' in (ok, entry :: rest)
      else stop entry
    else stop dim_metadata_zero
  end.

(** [ParseSparsity]: its status, and [*sparsity_ptr]. *)
Definition ParseSparsity (src : option SparsityParameters) : bool * option TfLiteSparsity :=
  match src with
  | None => (true, None)
  | Some s =>
    match sp_traversal_order s, sp_dim_metadata s with
    | Some order, Some dims =>
      let '(ok, l) := parse_dim_metadata dims in
      (ok, Some (mkSparsity (Some order) (sp_block_map s) l))
    | _, _ => (false, None)
    end
  end.

(** ** Signatures *)

(** [GetMapFromTensorMap]. *)
Definition GetMapFromTensorMap (tensor_map : list (option TensorMap)) : StdMap Z :=
  fold_left (fun result tensor =>
    match tensor with
    | Some t => match tm_name t with Some n => map_assign n (tm_tensor_index t) result | None => result end
    | None => result
    end) tensor_map [].
