(* ===== verification/ModelLoading.v ===== *)
(** * Loading a model (compiler/mlir/lite/{mmap_allocation.cc, allocation.cc,
    core/model_builder_base.cc, core/model_builder_base.h} and the offsets of core/subgraph.cc)

    A model is read from a file that is mapped into memory, from a copy of it, or from a buffer of
    the client; it is verified, its identifier is checked, and the model owns the memory from then
    on.  The system calls and the flatbuffer library are parameters, with what POSIX and the
    flatbuffer format document of them as laws. *)
From Stdlib Require Import String.
From stdpp Require Import strings.
From S2P Require Import Prelude Heap Common StdMap MetadataUtil ModelSchema.
#[local] Open Scope Z_scope.

(** ** The operating system *)

(** A mapping: a file, from an offset on, for a number of bytes. *)
Record mapping := mkMapping { map_file : Z; map_offset : Z; map_length : Z }.

(** The open descriptors with their files, and the mappings by their addresses. *)
Record os := OS { open_fds : gmap Z Z; mappings : gmap Z mapping }.

Definition MAP_FAILED : Z := SIZE_MAX.

(** Where the system calls succeed and what they choose: the file of a path that can be opened, the
    descriptor that is given out (or -1), the files whose size can be had, the address of a
    mapping (or [MAP_FAILED]), and how much of a file [fread] delivers. *)
Class Posix := {
  file_of : string -> option Z;
  contents : Z -> bytes;
  fd_place : os -> Z;
  fstat_ok : Z -> bool;
  pagesize : Z;
  map_place : os -> Z -> Z -> Z -> Z;
  fread_count : Z -> Z -> Z;
  MMAPAllocation_IsSupported : bool }.

(** Descriptors and addresses are not in use; a mapping is of whole pages, which are of at least
    eight bytes, and not empty. *)
Class PosixOk {PX : Posix} := {
  pagesize_ok : 0 < pagesize;
  pagesize_aligned : (8 | pagesize);
  contents_ok f : zlength (contents f) < 2 ^ 63;
  fd_place_ok s : fd_place s = -1 \/ (0 <= fd_place s /\ open_fds s !! fd_place s = None);
  map_place_ok s f n off : map_place s f n off = MAP_FAILED \/
    (0 < n /\ (pagesize | off) /\ 0 < map_place s f n off /\ map_place s f n off + n <= SIZE_MAX /\
     mappings s !! map_place s f n off = None) }.

Section Calls.
Context {PX : Posix}.

Definition set_fds (f : gmap Z Z -> gmap Z Z) : M os unit := modify (fun s => OS (f (open_fds s)) (mappings s)).
Definition set_mappings (f : gmap Z mapping -> gmap Z mapping) : M os unit :=
  modify (fun s => OS (open_fds s) (f (mappings s))).

Definition new_descriptor (file : Z) : M os Z :=
  let* s := get in
  if fd_place s =? -1 then ret (-1) else set_fds (<[fd_place s := file]>) ;;; ret (fd_place s).

(** [open(path, O_RDONLY)] and [dup(fd)]. *)
Definition open (path : string) : M os Z :=
  match file_of path with None => ret (-1) | Some f => new_descriptor f end.
Definition dup (fd : Z) : M os Z :=
  let* s := get in match open_fds s !! fd with None => ret (-1) | Some f => new_descriptor f end.

(** A descriptor that is not open may be another's by now: closing it is undefined here. *)
Definition close (fd : Z) : M os unit :=
  let* s := get in let* _ := access (open_fds s !! fd) in set_fds (delete fd).

(** [mmap] of a file for reading, and [munmap] of a whole mapping. *)
Definition mmap (len fd offset : Z) : M os Z :=
  let* s := get in
  match open_fds s !! fd with
  | None => ret MAP_FAILED
  | Some f =>
    let p := map_place s f len offset in
    if p =? MAP_FAILED then ret MAP_FAILED
    else set_mappings (<[p := mkMapping f offset len]>) ;;; ret p
  end.
Definition munmap (p len : Z) : M os unit :=
  let* s := get in
  let* m := access (mappings s !! p) in
  if map_length m =? len then set_mappings (delete p) else undef.

(** The byte at [p + k] of the mapping at [p], which is of whole pages: on its last page, behind
    the end of the file, there are zeros. *)
Definition page_up (n : Z) : Z := (n + pagesize - 1) / pagesize * pagesize.
Definition mapped_byte (s : os) (p k : Z) : option Z :=
  match mappings s !! p with
  | None => None
  | Some m =>
    if (0 <=? k) && (k <? page_up (map_length m)) then
      let size := zlength (contents (map_file m)) in
      if map_offset m + k <? size then (contents (map_file m)).[map_offset m + k]
      else if map_offset m + k <? page_up size then Some 0 else None
    else None
  end.

(** ** Files in memory *)

(** [GetFdSizeBytes]. *)
Definition GetFdSizeBytes (fd : Z) : M os Z :=
  if fd <? 0 then ret 0
  else
    let* s := get in
    ret (match open_fds s !! fd with
         | Some f => if fstat_ok f then size_wrap (zlength (contents f)) else 0
         | None => 0
         end).

Record MMAPAllocation := mkMMAPAllocation {
  mmap_fd_ : Z; mmapped_buffer_ : Z; mmap_size_bytes_ : Z;
  offset_in_buffer_ : Z; offset_of_buffer_in_file_ : Z }.

(** The constructor that the others delegate to; the descriptor is the allocation's from then on. *)
Definition MMAPAllocation_window (owned_fd offset length : Z) : M os MMAPAllocation :=
  if owned_fd <? 0 then ret (mkMMAPAllocation owned_fd MAP_FAILED length 0 0)
  else
    let offset_in_buffer := offset mod pagesize in
    let offset_of_buffer_in_file := offset - offset_in_buffer in
    let* file_size := GetFdSizeBytes owned_fd in
    let* p := (if file_size <? size_wrap (length + offset) then ret MAP_FAILED
               else mmap (size_wrap (length + offset_in_buffer)) owned_fd offset_of_buffer_in_file) in
    ret (mkMMAPAllocation owned_fd p length offset_in_buffer offset_of_buffer_in_file).

Definition MMAPAllocation_whole (owned_fd : Z) : M os MMAPAllocation :=
  let* length := GetFdSizeBytes owned_fd in MMAPAllocation_window owned_fd 0 length.

Definition MMAPAllocation_file (filename : string) : M os MMAPAllocation :=
  let* fd := open filename in MMAPAllocation_whole fd.
Definition MMAPAllocation_fd (fd : Z) : M os MMAPAllocation :=
  let* fd := dup fd in MMAPAllocation_whole fd.
Definition MMAPAllocation_file_window (filename : string) (offset length : Z) : M os MMAPAllocation :=
  let* fd := open filename in MMAPAllocation_window fd offset length.
Definition MMAPAllocation_fd_window (fd offset length : Z) : M os MMAPAllocation :=
  let* fd := dup fd in MMAPAllocation_window fd offset length.

Definition mmap_valid (a : MMAPAllocation) : bool := negb (mmapped_buffer_ a =? MAP_FAILED).
Definition mmap_base (a : MMAPAllocation) : Z := size_wrap (mmapped_buffer_ a + offset_in_buffer_ a).

Definition MMAPAllocation_delete (a : MMAPAllocation) : M os unit :=
  (if mmap_valid a then munmap (mmapped_buffer_ a) (size_wrap (mmap_size_bytes_ a + offset_in_buffer_ a)) else ret tt) ;;;
  if 0 <=? mmap_fd_ a then close (mmap_fd_ a) else ret tt.

(** A copy of the file; the size is kept also where reading fails. *)
Record FileCopyAllocation := mkFileCopyAllocation { copied_buffer_ : option bytes; copy_size_bytes_ : Z }.

Definition FileCopyAllocation_new (filename : string) : M os FileCopyAllocation :=
  let* fd := open filename in
  if fd =? -1 then ret (mkFileCopyAllocation None 0)
  else
    let* s := get in
    let* f := access (open_fds s !! fd) in
    close fd ;;;
    if negb (fstat_ok f) then ret (mkFileCopyAllocation None 0)
    else
      let size := size_wrap (zlength (contents f)) in
      if negb (fread_count f size =? size) then ret (mkFileCopyAllocation None size)
      else ret (mkFileCopyAllocation (Some (contents f)) size).

(** The client's buffer: null, or its bytes, with the size the client gave. *)
Record MemoryAllocation := mkMemoryAllocation { buffer_ : option bytes; memory_size_bytes_ : Z }.

(** [Allocation], with its virtual functions. *)
Inductive Allocation :=
  | kMMap (a : MMAPAllocation)
  | kFileCopy (a : FileCopyAllocation)
  | kMemory (a : MemoryAllocation).

Definition alloc_bytes (a : Allocation) : Z :=
  match a with kMMap a => mmap_size_bytes_ a | kFileCopy a => copy_size_bytes_ a | kMemory a => memory_size_bytes_ a end.
Definition alloc_valid (a : Allocation) : bool :=
  match a with
  | kMMap a => mmap_valid a
  | kFileCopy a => bool_decide (is_Some (copied_buffer_ a))
  | kMemory a => bool_decide (is_Some (buffer_ a))
  end.
Definition alloc_delete (a : Allocation) : M os unit :=
  match a with kMMap a => MMAPAllocation_delete a | kFileCopy _ | kMemory _ => ret tt end.

(** The byte at [base() + k], where it can be read. *)
Definition base_byte (s : os) (a : Allocation) (k : Z) : option Z :=
  match a with
  | kMMap a => mapped_byte s (mmapped_buffer_ a) (offset_in_buffer_ a + k)
  | kFileCopy a => match copied_buffer_ a with Some bs => bs.[k] | None => None end
  | kMemory a => match buffer_ a with Some bs => bs.[k] | None => None end
  end.

(** The bytes from [base()] on, where all can be read. *)
Definition base_bytes (s : os) (a : Allocation) (n : Z) : option bytes := mapM (base_byte s a) (zrange 0 (n - 1)).

Definition GetAllocationFromFile (filename : string) : M os Allocation :=
  if MMAPAllocation_IsSupported then let* a := MMAPAllocation_file filename in ret (kMMap a)
  else let* a := FileCopyAllocation_new filename in ret (kFileCopy a).

(** [filename_of_fd] is ["/proc/self/fd/"] with the number. *)
Definition GetAllocationFromFileDescriptor (filename_of_fd : Z -> string) (fd : Z) : M os Allocation :=
  if MMAPAllocation_IsSupported then let* a := MMAPAllocation_fd fd in ret (kMMap a)
  else let* a := FileCopyAllocation_new (filename_of_fd fd) in ret (kFileCopy a).
End Calls.

(** ** Models *)

Definition ModelIdentifier : string := "TFL3".
Definition tflite_metadata_min_runtime_version : string := "min_runtime_version".
Definition tflite_metadata_buffer_location : string := "buffer_location".

(** The flatbuffer library on the memory from a buffer's start on: whether the identifier is there
    ([None] where it reads what cannot be read), the verifier, and the root table. *)
Class Flatbuffers := {
  BufferHasIdentifier : (Z -> option Z) -> string -> option bool;
  VerifyModelBuffer : bytes -> bool;
  FLATBUFFERS_MAX_BUFFER_SIZE : Z;
  GetModel : bytes -> Model }.

(** The bytes of a string. *)
Definition string_bytes (s : string) : bytes := (fun c => Z.of_N (Ascii.N_of_ascii c)) <$> list_ascii_of_string s.

(** The identifier of a buffer is its bytes 4 to 7. *)
Class FlatbuffersOk {FB : Flatbuffers} := {
  has_identifier mem id bs : length (string_bytes id) = 4%nat -> mapM mem [4; 5; 6; 7] = Some bs ->
    BufferHasIdentifier mem id = Some (bool_decide (bs = string_bytes id));
  identifier_cut mem id : length (string_bytes id) = 4%nat -> mapM mem [4; 5; 6] = Some (take 3 (string_bytes id)) ->
    mem 7 = None -> BufferHasIdentifier mem id = None }.

(** [FlatBufferModelBase]: the model, the allocation it owns; error reporters are left out. *)
Record FlatBufferModel := mkFlatBufferModel { model_ : option Model; allocation_ : option Allocation }.
Definition initialized (m : FlatBufferModel) : bool := bool_decide (is_Some (model_ m)).

Section Models.
Context {PX : Posix} {FB : Flatbuffers}.

Definition ModelBufferHasIdentifier (buf : Z -> option Z) : option bool := BufferHasIdentifier buf ModelIdentifier.

Definition CheckModelIdentifier (a : Allocation) : M os bool :=
  if alloc_bytes a <? 7 then ret false
  else let* s := get in access (ModelBufferHasIdentifier (base_byte s a)).

(** The constructors. *)
Definition FlatBufferModel_of_allocation (allocation : option Allocation) : M os FlatBufferModel :=
  match allocation with
  | None => ret (mkFlatBufferModel None None)
  | Some a =>
    let* ok := (if alloc_valid a then CheckModelIdentifier a else ret false) in
    if negb ok then ret (mkFlatBufferModel None (Some a))
    else
      let* s := get in
      let* bs := access (base_bytes s a (alloc_bytes a)) in
      ret (mkFlatBufferModel (Some (GetModel bs)) (Some a))
  end.
Definition FlatBufferModel_of_model (model : option Model) : FlatBufferModel := mkFlatBufferModel model None.

(** The destructor. *)
Definition delete_allocation (a : option Allocation) : M os unit :=
  match a with Some a => alloc_delete a | None => ret tt end.
Definition FlatBufferModel_delete (m : FlatBufferModel) : M os unit := delete_allocation (allocation_ m).

(** [ValidateModelBuffers]: whether it reports that the first buffer is not empty. *)
Definition ValidateModelBuffers (m : FlatBufferModel) : outcome bool :=
  match model_ m with
  | None => Undef
  | Some m =>
    Done (match buffers m with
          | Some (Some b :: _) => negb (buf_size b =? 0)
          | _ => false
          end)
  end.

(** Null where the model is not initialized; its allocation is deleted with it. *)
Definition BuildFromAllocation (allocation : option Allocation) : M os (option FlatBufferModel) :=
  let* model := FlatBufferModel_of_allocation allocation in
  if negb (initialized model) then FlatBufferModel_delete model ;;; ret None
  else lift (ValidateModelBuffers model) ;;; ret (Some model).

(** The verifiers look at less than 2 GB. *)
Definition verified_size (a : Allocation) : Z := Z.min (alloc_bytes a) (FLATBUFFERS_MAX_BUFFER_SIZE - 1).

Definition VerifyAndBuildFromAllocation (allocation : option Allocation) (extra_verifier : option (bytes -> bool))
    : M os (option FlatBufferModel) :=
  match allocation with
  | None => ret None
  | Some a =>
    if negb (alloc_valid a) then alloc_delete a ;;; ret None
    else
      let* s := get in
      let* bs := access (base_bytes s a (verified_size a)) in
      if negb (VerifyModelBuffer bs) then alloc_delete a ;;; ret None
      else if negb (match extra_verifier with Some verify => verify bs | None => true end)
      then alloc_delete a ;;; ret None
      else BuildFromAllocation allocation
  end.

Definition BuildFromFile (filename : string) : M os (option FlatBufferModel) :=
  let* a := GetAllocationFromFile filename in BuildFromAllocation (Some a).
Definition VerifyAndBuildFromFile (filename : string) (extra_verifier : option (bytes -> bool))
    : M os (option FlatBufferModel) :=
  let* a := GetAllocationFromFile filename in VerifyAndBuildFromAllocation (Some a) extra_verifier.
Definition BuildFromFileDescriptor (filename_of_fd : Z -> string) (fd : Z) : M os (option FlatBufferModel) :=
  let* a := GetAllocationFromFileDescriptor filename_of_fd fd in BuildFromAllocation (Some a).
Definition VerifyAndBuildFromFileDescriptor (filename_of_fd : Z -> string) (fd : Z)
    (extra_verifier : option (bytes -> bool)) : M os (option FlatBufferModel) :=
  let* a := GetAllocationFromFileDescriptor filename_of_fd fd in VerifyAndBuildFromAllocation (Some a) extra_verifier.
Definition BuildFromBuffer (caller_owned_buffer : option bytes) (buffer_size : Z) : M os (option FlatBufferModel) :=
  BuildFromAllocation (Some (kMemory (mkMemoryAllocation caller_owned_buffer buffer_size))).
Definition VerifyAndBuildFromBuffer (caller_owned_buffer : option bytes) (buffer_size : Z)
    (extra_verifier : option (bytes -> bool)) : M os (option FlatBufferModel) :=
  VerifyAndBuildFromAllocation (Some (kMemory (mkMemoryAllocation caller_owned_buffer buffer_size))) extra_verifier.

(** The names of metadata are dereferenced, of the entries up to the one that is looked for. *)
Fixpoint find_metadata (key : string) (l : list Metadata) : outcome (option Metadata) :=
  match l with
  | [] => Done None
  | md :: l =>
    match md_name md with
    | None => Undef
    | Some name => if bool_decide (name = key) then Done (Some md) else find_metadata key l
    end
  end.

Definition CheckBufferOutsideModel (model : option Model) : outcome bool :=
  match model with
  | None => Done false
  | Some m =>
    match model_metadata m with
    | None => Done false
    | Some l =>
      match find_metadata tflite_metadata_buffer_location l with
      | Done o => Done (bool_decide (is_Some o))
      | Fail e => Fail e
      | Undef => Undef
      end
    end
  end.

Definition BuildFromModel (caller_owned_model_spec : option Model) : M os (option FlatBufferModel) :=
  let* outside := lift (CheckBufferOutsideModel caller_owned_model_spec) in
  if outside : bool then ret None
  else
    let model := FlatBufferModel_of_model caller_owned_model_spec in
    if negb (initialized model) then FlatBufferModel_delete model ;;; ret None
    else lift (ValidateModelBuffers model) ;;; ret (Some model).

(** The bytes before the first zero. *)
Fixpoint before_zero (bs : bytes) : option bytes :=
  match bs with
  | [] => None
  | b :: bs => if b =? 0 then Some [] else cons b <$> before_zero bs
  end.

(** [GetMinimumRuntime]: the buffer that the metadata names is dereferenced. *)
Definition GetMinimumRuntime (model : FlatBufferModel) : outcome bytes :=
  match model_ model with
  | None => Done []
  | Some m =>
    match model_metadata m with
    | None => Done []
    | Some l =>
      match find_metadata tflite_metadata_min_runtime_version l with
      | Done None => Done []
      | Done (Some md) =>
        match buffers m with
        | Some bufs =>
          match bufs.[md_buffer md] with
          | Some (Some b) =>
            match buf_data b with
            | Some (_, array) => Done (default [] (before_zero array))
            | None => Undef
            end
          | _ => Undef
          end
        | None => Undef
        end
      | Fail e => Fail e
      | Undef => Undef
      end
    end
  end.
End Models.

(** ** Where a node's initial data is in the file ([Subgraph::GetNodeInitDataMmapInfo]) *)

Definition int64_wrap (z : Z) : Z := (z + 2 ^ 63) mod 2 ^ 64 - 2 ^ 63.

(** The descriptor, the offset and the size; -1 where the node has no data. *)
Definition GetNodeInitDataMmapInfo (allocation : option Allocation) (node : TfLiteNode) : outcome (Z * Z * Z) :=
  match allocation with
  | Some (kMMap a) =>
    if custom_initial_data node =? 0 then Done (mmap_fd_ a, -1, -1)
    else
      let custom_initial_data_offset := size_wrap (custom_initial_data node - mmapped_buffer_ a) in
      Done (mmap_fd_ a, int64_wrap (size_wrap (custom_initial_data_offset + offset_of_buffer_in_file_ a)),
            int64_wrap (custom_initial_data_size node))
  | _ => Fail kTfLiteError
  end.
