(* ===== verification/ModelLoadingProof.v ===== *)
(** * Loading a model, theorems

    The memory of a mapped file is the file, at the offsets that are recorded; a model that is loaded
    is the one in the file, and whatever happens on the way nothing stays open or mapped but what
    the model owns.  Also where the checks come too late. *)
From Stdlib Require Import String.
From stdpp Require Import strings.
From S2P Require Import Prelude Heap Common StdMap MetadataUtil ModelSchema ModelLoading.
#[local] Open Scope Z_scope.

Section Bytes.
Context {PX : Posix} {POk : PosixOk}.

Lemma page_up_ge n : n <= page_up n.
Proof.
  unfold page_up. pose proof pagesize_ok as Hp. pose proof (Z_div_mod_eq_full (n + pagesize - 1) pagesize).
  pose proof (Z.mod_pos_bound (n + pagesize - 1) pagesize Hp). lia.
Qed.

(** The bytes of the file in the mapping of it. *)
Lemma mapped_byte_file s p m k : mappings s !! p = Some m -> 0 <= k < map_length m ->
  0 <= map_offset m -> map_offset m + k < zlength (contents (map_file m)) ->
  mapped_byte s p k = (contents (map_file m)).[map_offset m + k].
Proof.
  intros Hm Hk Ho Hend. unfold mapped_byte. rewrite Hm. pose proof (page_up_ge (map_length m)).
  destruct (Z.leb_spec 0 k), (Z.ltb_spec k (page_up (map_length m))); try lia. cbn.
  destruct (Z.ltb_spec (map_offset m + k) (zlength (contents (map_file m)))); [done|lia].
Qed.

Lemma GetFdSizeBytes_run fd f s : 0 <= fd -> open_fds s !! fd = Some f ->
  GetFdSizeBytes fd s = (Done (if fstat_ok f then zlength (contents f) else 0), s).
Proof.
  intros Hfd Hf. unfold GetFdSizeBytes, bind, get, ret. destruct (Z.ltb_spec fd 0); [lia|]. rewrite Hf.
  pose proof (contents_ok f). pose proof (zlength_nonneg (contents f)).
  by rewrite size_wrap_small by (unfold SIZE_MAX; lia).
Qed.

(** What an allocation of an open file is, and what is left when it is deleted. *)
Record mapped_window (fd f offset length : Z) (s s' : os) (a : MMAPAllocation) : Prop := {
  window_fd : mmap_fd_ a = fd;
  window_bytes : mmap_size_bytes_ a = length;
  window_fds : open_fds s' = open_fds s;
  window_deleted : MMAPAllocation_delete a s' = (Done tt, OS (delete fd (open_fds s)) (mappings s));
  window_split : offset_in_buffer_ a = offset mod pagesize /\ offset_of_buffer_in_file_ a = offset - offset mod pagesize;
  window_valid : mmap_valid a = true <-> offset + length <= (if fstat_ok f then zlength (contents f) else 0) /\
    map_place s f (length + offset mod pagesize) (offset - offset mod pagesize) <> MAP_FAILED;
  window_place : mmap_valid a = true -> 0 < mmapped_buffer_ a /\
    mmapped_buffer_ a + offset_in_buffer_ a + length <= SIZE_MAX /\ 0 < length + offset_in_buffer_ a;
  window_end : mmap_valid a = true -> offset + length <= zlength (contents f);
  window_byte k : mmap_valid a = true -> 0 <= k < length -> base_byte s' (kMMap a) k = (contents f).[offset + k];
  window_padding k : mmap_valid a = true -> offset + length = zlength (contents f) -> length <= k ->
    offset_in_buffer_ a + k < page_up (length + offset_in_buffer_ a) -> offset + k < page_up (zlength (contents f)) ->
    base_byte s' (kMMap a) k = Some 0;
  window_invalid : mmap_valid a = false -> s' = s }.

Lemma OS_eta s : OS (open_fds s) (mappings s) = s.
Proof. by destruct s. Qed.

Lemma close_run fd f s : open_fds s !! fd = Some f -> close fd s = (Done tt, OS (delete fd (open_fds s)) (mappings s)).
Proof. intros Hf. unfold close. rewrite (bind_done get _ s s s) by done. by rewrite Hf. Qed.

Lemma munmap_run p len m s : mappings s !! p = Some m -> map_length m = len ->
  munmap p len s = (Done tt, OS (open_fds s) (delete p (mappings s))).
Proof.
  intros Hm <-. unfold munmap. rewrite (bind_done get _ s s s) by done. rewrite Hm. cbn [access]. rewrite bind_ret.
  by rewrite Z.eqb_refl.
Qed.

Lemma window_without_mapping fd f offset length s : 0 <= fd -> open_fds s !! fd = Some f ->
  ~ (offset + length <= (if fstat_ok f then zlength (contents f) else 0) /\
     map_place s f (length + offset mod pagesize) (offset - offset mod pagesize) <> MAP_FAILED) ->
  mapped_window fd f offset length s s
    (mkMMAPAllocation fd MAP_FAILED length (offset mod pagesize) (offset - offset mod pagesize)).
Proof.
  intros Hfd Hf Hnot. pose proof (Z.mod_pos_bound offset pagesize pagesize_ok). split; cbn; try done.
  unfold MMAPAllocation_delete. rewrite (bind_done _ _ s tt s) by done. cbn [mmap_fd_].
  destruct (Z.leb_spec 0 fd); [|lia]. by eapply close_run.
Qed.

Lemma window_with_mapping fd f offset length s : 0 <= fd -> open_fds s !! fd = Some f ->
  0 <= offset -> 0 <= length -> offset + length <= (if fstat_ok f then zlength (contents f) else 0) ->
  let p := map_place s f (length + offset mod pagesize) (offset - offset mod pagesize) in
  p <> MAP_FAILED -> 0 < p -> p + (length + offset mod pagesize) <= SIZE_MAX -> 0 < length + offset mod pagesize ->
  mappings s !! p = None ->
  mapped_window fd f offset length s
    (OS (open_fds s) (<[p := mkMapping f (offset - offset mod pagesize) (length + offset mod pagesize)]> (mappings s)))
    (mkMMAPAllocation fd p length (offset mod pagesize) (offset - offset mod pagesize)).
Proof.
  intros Hfd Hf Ho Hl Hsize p Hne Hp Hup Hlen Hnone.
  assert (Hend : offset + length <= zlength (contents f)).
  { pose proof (zlength_nonneg (contents f)). destruct (fstat_ok f); lia. }
  pose proof (Z.mod_pos_bound offset pagesize pagesize_ok).
  pose proof (Z.mod_le offset pagesize Ho pagesize_ok).
  split; cbn [mmap_fd_ mmap_size_bytes_ open_fds offset_of_buffer_in_file_ offset_in_buffer_ mmapped_buffer_]; try done; try lia.
  - unfold MMAPAllocation_delete, mmap_valid. cbn [mmapped_buffer_ mmap_size_bytes_ offset_in_buffer_ mmap_fd_].
    destruct (Z.eqb_spec p MAP_FAILED); [done|]. cbn [negb]. rewrite size_wrap_small by (unfold SIZE_MAX in *; lia).
    erewrite (bind_done (munmap _ _)); [|by eapply munmap_run; cbn; [apply lookup_insert_eq|]]. cbn.
    destruct (Z.leb_spec 0 fd); [|lia]. erewrite close_run by exact Hf. cbn. by rewrite delete_insert_id.
  - unfold mmap_valid. cbn [mmapped_buffer_]. by destruct (Z.eqb_spec p MAP_FAILED).
  - intros k _ Hk. cbn. erewrite mapped_byte_file; cbn; [|apply lookup_insert_eq|cbn; lia..]. f_equal. cbn. lia.
  - intros k _ Hwhole Hk Hpage Hend'. cbn in *. unfold mapped_byte. cbn. rewrite lookup_insert_eq. cbn.
    destruct (Z.leb_spec 0 (offset mod pagesize + k)), (Z.ltb_spec (offset mod pagesize + k) (page_up (length + offset mod pagesize)));
      try lia. cbn. destruct (Z.ltb_spec (offset - offset mod pagesize + (offset mod pagesize + k)) (zlength (contents f))); [lia|].
    destruct (Z.ltb_spec (offset - offset mod pagesize + (offset mod pagesize + k)) (page_up (zlength (contents f)))); [done|lia].
  - unfold mmap_valid. cbn. by destruct (Z.eqb_spec p MAP_FAILED).
Qed.

Lemma MMAPAllocation_window_ok fd f offset length s : 0 <= fd -> open_fds s !! fd = Some f ->
  0 <= offset -> 0 <= length -> offset + length <= SIZE_MAX ->
  exists a s', MMAPAllocation_window fd offset length s = (Done a, s') /\ mapped_window fd f offset length s s' a.
Proof.
  intros Hfd Hf Ho Hl Hmax. unfold MMAPAllocation_window. destruct (Z.ltb_spec fd 0); [lia|].
  rewrite (bind_done _ _ _ _ _ (GetFdSizeBytes_run fd f s Hfd Hf)). rewrite size_wrap_small by lia.
  pose proof (window_without_mapping fd f offset length s Hfd Hf) as Hfail.
  destruct (Z.ltb_spec (if fstat_ok f then zlength (contents f) else 0) (length + offset)) as [|Hsize].
  { eexists _, _. split; [reflexivity|]. apply Hfail. lia. }
  unfold mmap. rewrite bind_assoc, (bind_done get _ s s s) by done. rewrite Hf.
  pose proof (Z.mod_le offset pagesize Ho pagesize_ok). pose proof (Z.mod_pos_bound offset pagesize pagesize_ok).
  rewrite size_wrap_small by lia. set (p := map_place _ _ _ _). destruct (Z.eqb_spec p MAP_FAILED) as [|Hne].
  { eexists _, _. split; [reflexivity|]. apply Hfail. by intros [_ []]. }
  destruct (map_place_ok s f (length + offset mod pagesize) (offset - offset mod pagesize))
    as [|(Hn & _ & Hp & Hup & Hnone)]; [done|]. fold p in Hp, Hup, Hnone.
  eexists _, _. split; [reflexivity|]. cbn. apply window_with_mapping; (done || lia).
Qed.

(** The file of an open descriptor, from start to end. *)
Lemma MMAPAllocation_whole_ok fd f s : 0 <= fd -> open_fds s !! fd = Some f ->
  exists a s', MMAPAllocation_whole fd s = (Done a, s') /\
    mapped_window fd f 0 (if fstat_ok f then zlength (contents f) else 0) s s' a.
Proof.
  intros Hfd Hf. unfold MMAPAllocation_whole. rewrite (bind_done _ _ _ _ _ (GetFdSizeBytes_run fd f s Hfd Hf)).
  pose proof (contents_ok f). pose proof (zlength_nonneg (contents f)).
  apply MMAPAllocation_window_ok; try done; destruct (fstat_ok f); unfold SIZE_MAX; lia.
Qed.

(** Opening and closing again. *)
Lemma open_run path s : (open path s = (Done (-1), s) /\ (file_of path = None \/ fd_place s = -1)) \/
  exists f fd, file_of path = Some f /\ 0 <= fd /\ fd = fd_place s /\ open_fds s !! fd = None /\
    open path s = (Done fd, OS (<[fd := f]> (open_fds s)) (mappings s)).
Proof.
  unfold open. destruct (file_of path) as [f|]; [|by left; auto]. unfold new_descriptor, bind, get, set_fds, modify, ret. cbn.
  destruct (Z.eqb_spec (fd_place s) (-1)) as [->|]; [by left; auto|]. destruct (fd_place_ok s) as [?|[Hfd Hn]]; [done|].
  right. exists f, (fd_place s). by split_and!.
Qed.
End Bytes.

(** ** A model from a file *)

Section Files.
Context {PX : Posix} {POk : PosixOk} {FB : Flatbuffers} {FOk : FlatbuffersOk}.

Lemma base_bytes_take s a (bs : bytes) n : n <= zlength bs -> (forall k, 0 <= k < n -> base_byte s a k = bs.[k]) ->
  base_bytes s a n = Some (take (Z.to_nat n) bs).
Proof.
  intros Hn Hbs. unfold base_bytes. apply mapM_Some. apply Forall2_same_length_lookup_2.
  { rewrite length_zrange, length_take. unfold zlength in Hn. lia. }
  intros i k b Hi Hb. apply lookup_lt_Some in Hi as Hlt. rewrite length_zrange in Hlt.
  rewrite zrange_lookup in Hi by done. injection Hi as <-. rewrite Hbs by lia.
  apply lookup_take_Some in Hb as [Hb _]. unfold zlookup. destruct (Z.ltb_spec (0 + Z.of_nat i) 0); [lia|].
  by replace (Z.to_nat (0 + Z.of_nat i)) with i by lia.
Qed.

(** The identifier is in a file. *)
Definition identified (bs : bytes) : bool := bool_decide (take 4 (drop 4 bs) = string_bytes ModelIdentifier).

Lemma identified_run mem (bs : bytes) : 7 <= zlength bs -> (forall k, 0 <= k < zlength bs -> mem k = bs.[k]) ->
  (zlength bs = 7 -> mem 7 = Some 0) -> ModelBufferHasIdentifier mem = Some (identified bs).
Proof.
  intros Hlen Hmem Hpad. unfold ModelBufferHasIdentifier.
  do 7 (destruct bs as [|? bs]; [unfold zlength in Hlen; cbn in Hlen; lia|]).
  assert (H4 := Hmem 4). assert (H5 := Hmem 5). assert (H6 := Hmem 6). assert (H7 := Hmem 7).
  rewrite !zlength_cons in *. pose proof (zlength_nonneg bs).
  destruct bs as [|b7 bs].
  - rewrite (has_identifier _ _ [z3; z4; z5; 0]); [|done|].
    + unfold identified. cbn [take drop]. f_equal. rewrite !bool_decide_eq_false_2; [done| |]; vm_compute; congruence.
    + cbn. rewrite H4, H5, H6, Hpad by (unfold zlength; cbn; lia). done.
  - rewrite (has_identifier _ _ [z3; z4; z5; b7]); [done|done|].
    rewrite zlength_cons in *. pose proof (zlength_nonneg bs). cbn. rewrite H4, H5, H6, H7 by lia. done.
Qed.

Context (supported : MMAPAllocation_IsSupported = true).

(** The file can be opened and mapped. *)
Definition can_map (path : string) (s : os) (f : Z) : Prop :=
  file_of path = Some f /\ fd_place s <> -1 /\ fstat_ok f = true /\
  map_place (OS (<[fd_place s := f]> (open_fds s)) (mappings s)) f (zlength (contents f)) 0 <> MAP_FAILED.

(** Its contents are those of a model, for the verifiers and by the identifier. *)
Definition accepted (extra : option (bytes -> bool)) (bs : bytes) : bool :=
  let seen := take (Z.to_nat (Z.min (zlength bs) (FLATBUFFERS_MAX_BUFFER_SIZE - 1))) bs in
  VerifyModelBuffer seen && (match extra with Some verify => verify seen | None => true end) &&
  (7 <=? zlength bs) && identified bs.

(** The file of a path, mapped; or nothing, with only the descriptor open. *)
Lemma MMAPAllocation_file_run path s : exists a s1, MMAPAllocation_file path s = (Done a, s1) /\
  if mmap_valid a then
    exists f, can_map path s f /\ 0 < zlength (contents f) /\
      mapped_window (fd_place s) f 0 (zlength (contents f)) (OS (<[fd_place s := f]> (open_fds s)) (mappings s)) s1 a /\
      MMAPAllocation_delete a s1 = (Done tt, s)
  else MMAPAllocation_delete a s1 = (Done tt, s) /\ forall f, ~ can_map path s f.
Proof.
  unfold MMAPAllocation_file. destruct (open_run path s) as [[Ho Hno]|(f & fd & Hf & Hfd & -> & Hfree & Ho)];
    rewrite (bind_done _ _ _ _ _ Ho).
  { eexists _, s. split; [reflexivity|]. cbn. split; [done|]. intros f (? & ? & _). destruct Hno; congruence. }
  set (s0 := OS _ _). destruct (MMAPAllocation_whole_ok (fd_place s) f s0 Hfd) as (a & s1 & Hrun & Hw); [apply lookup_insert_eq|].
  exists a, s1. split; [done|]. pose proof (window_deleted _ _ _ _ _ _ _ Hw) as Hdel.
  cbn in Hdel. rewrite delete_insert_eq, delete_id, OS_eta in Hdel by done.
  pose proof (window_valid _ _ _ _ _ _ _ Hw) as Hvalid. pose proof (window_place _ _ _ _ _ _ _ Hw) as Hplace.
  rewrite Z.mod_0_l, Z.add_0_r, Z.sub_0_r, Z.add_0_l in Hvalid by (pose proof pagesize_ok; lia).
  destruct (window_split _ _ _ _ _ _ _ Hw) as [Hsplit _].
  destruct (mmap_valid a) eqn:Hv.
  - destruct (fstat_ok f) eqn:Hst.
    + exists f. destruct (proj1 Hvalid eq_refl) as [_ Hm]. destruct (Hplace eq_refl) as (_ & _ & Hpos).
      assert (0 < zlength (contents f)).
      {  destruct (map_place_ok s0 f (zlength (contents f)) 0) as [?|[? _]]; [done|lia]. }
      split; [|by split_and!]. split_and!; [done|lia|done|done].
    + destruct (proj1 Hvalid eq_refl) as [_ Hm]. destruct (map_place_ok s0 f 0 0) as [?|[? _]]; [done|lia].
  - split; [done|]. intros f' (Hf' & _ & Hst & Hm). assert (f' = f) as -> by congruence. rewrite Hst in Hvalid.
    destruct Hvalid as [_ Hvalid]. by discriminate Hvalid.
Qed.

(** A mapped file is checked byte by byte: the identifier of a file of seven bytes ends in the
    zeros of its page. *)
Lemma CheckModelIdentifier_run fd f s0 s1 a : mapped_window fd f 0 (zlength (contents f)) s0 s1 a ->
  mmap_valid a = true -> CheckModelIdentifier (kMMap a) s1 = (Done ((7 <=? zlength (contents f)) && identified (contents f)), s1).
Proof.
  intros Hw Hv. unfold CheckModelIdentifier. cbn [alloc_bytes]. rewrite (window_bytes _ _ _ _ _ _ _ Hw).
  destruct (Z.ltb_spec (zlength (contents f)) 7), (Z.leb_spec 7 (zlength (contents f))); try lia; [done|].
  rewrite (bind_done get _ s1 s1 s1) by done. rewrite (identified_run _ (contents f)); [done|done| |].
  - intros k Hk. by rewrite (window_byte _ _ _ _ _ _ _ Hw k Hv Hk).
  - intros H7. destruct (window_split _ _ _ _ _ _ _ Hw) as [Hsplit _].
    assert (Hup : 8 <= page_up 7).
    { pose proof (page_up_ge 7). unfold page_up in *. destruct pagesize_aligned as [q Hq].
      set (r := (7 + pagesize - 1) / pagesize) in *. pose proof pagesize_ok. rewrite Hq in *. nia. }
    rewrite Z.mod_0_l in Hsplit by (pose proof pagesize_ok; lia).
    apply (window_padding _ _ _ _ _ _ _ Hw); rewrite ?H7, ?Hsplit, ?Z.add_0_r, ?Z.add_0_l; (done || lia).
Qed.

(** Null, with nothing changed, where there is no model in the file; or the model in it, which owns
    the mapping and the descriptor. *)
Definition loaded_or_not (path : string) (extra : option (bytes -> bool)) (s : os) (r : option FlatBufferModel) (s' : os) : Prop :=
  match r with
  | None => s' = s /\ forall f, can_map path s f -> accepted extra (contents f) = false
  | Some m => exists f a, can_map path s f /\ accepted extra (contents f) = true /\
      model_ m = Some (GetModel (contents f)) /\ allocation_ m = Some (kMMap a) /\
      mmap_size_bytes_ a = zlength (contents f) /\ open_fds s' = <[fd_place s := f]> (open_fds s) /\
      FlatBufferModel_delete m s' = (Done tt, s)
  end.

(** C16. Loading a model from a file.  [VerifyAndBuildFromFile] always returns.  It returns a model
    exactly where the file can be opened and mapped, the verifiers accept it and its identifier is
    that of a model; then the model's tables are those in the file, the model owns a mapping of
    the whole file and the one descriptor that is open for it, and deleting the model leaves the
    system as it was.  Where it returns null, nothing is left open or mapped. *)
Theorem VerifyAndBuildFromFile_spec path extra s :
  exists r s', VerifyAndBuildFromFile path extra s = (Done r, s') /\ loaded_or_not path extra s r s'.
Proof.
  unfold VerifyAndBuildFromFile, GetAllocationFromFile. rewrite supported.
  destruct (MMAPAllocation_file_run path s) as (a & s1 & Hrun & Hmapped).
  rewrite bind_assoc, (bind_done _ _ _ _ _ Hrun), bind_ret. unfold VerifyAndBuildFromAllocation. cbn [alloc_valid alloc_delete].
  destruct (mmap_valid a) eqn:Hv; cbn [negb].
  2: { destruct Hmapped as [Hdel Hno]. rewrite (bind_done _ _ _ _ _ Hdel). exists None, s. split; [done|]. split; [done|].
       intros f Hf. by destruct (Hno f). }
  destruct Hmapped as (f & Hcan & Hpos & Hw & Hdel). pose proof (window_bytes _ _ _ _ _ _ _ Hw) as Hbytes.
  assert (Hread : forall n, n <= zlength (contents f) -> base_bytes s1 (kMMap a) n = Some (take (Z.to_nat n) (contents f))).
  { intros n Hn. apply base_bytes_take; [done|]. intros k Hk. rewrite (window_byte _ _ _ _ _ _ _ Hw) by (done || lia). done. }
  rewrite (bind_done get _ s1 s1 s1) by done. unfold verified_size. cbn [alloc_bytes]. rewrite Hbytes, Hread by lia.
  cbn [access]. rewrite bind_ret.
  assert (Hno : accepted extra (contents f) = false -> forall c, c s1 = (MMAPAllocation_delete a ;;; ret None) s1 ->
    exists r s', c s1 = (Done r, s') /\ loaded_or_not path extra s r s').
  { intros Hacc c ->. exists None, s. rewrite (bind_done _ _ _ _ _ Hdel). split; [done|]. split; [done|].
    intros f' [Hf' _]. destruct Hcan as [Hf _]. by assert (f' = f) as -> by congruence. }
  unfold accepted in Hno. destruct (VerifyModelBuffer _) eqn:Hver; cbn [negb]; [|by apply Hno].
  destruct (match extra with Some _ => _ | None => true end) eqn:Hextra; cbn [negb]; [|by apply Hno].
  unfold BuildFromAllocation, FlatBufferModel_of_allocation. cbn [alloc_valid]. rewrite Hv.
  rewrite !bind_assoc, (bind_done _ _ _ _ _ (CheckModelIdentifier_run _ _ _ _ _ Hw Hv)).
  destruct ((7 <=? zlength (contents f)) && identified (contents f)) eqn:Hid; cbn [negb].
  2: { apply Hno; [by rewrite <- andb_assoc, Hid|by rewrite bind_ret]. }
  rewrite bind_assoc, (bind_done get _ s1 s1 s1) by done. cbn [alloc_bytes]. rewrite Hbytes, Hread, take_ge
    by (unfold zlength; lia). cbn [access]. rewrite bind_assoc, !bind_ret.
  eexists (Some _), s1. split; [reflexivity|]. exists f, a. split_and!; try done.
  - unfold accepted. by rewrite Hver, Hextra, <- andb_assoc, Hid.
  - by rewrite (window_fds _ _ _ _ _ _ _ Hw).
Qed.
End Files.

(** ** A node's initial data *)

Lemma int64_wrap_small z : - 2 ^ 63 <= z < 2 ^ 63 -> int64_wrap z = z.
Proof. intros Hz. unfold int64_wrap. rewrite Z.mod_small; lia. Qed.

Section InitData.
Context {PX : Posix} {POk : PosixOk}.

(** C38. Where a node's initial data is in the mapping of a file, or of a part of it, the descriptor,
    offset and size that [GetNodeInitDataMmapInfo] gives are those of the same bytes in the file:
    reading the file there is reading the memory. *)
Theorem init_data_is_in_the_file fd f offset length s a s' node k : 0 <= fd -> open_fds s !! fd = Some f ->
  0 <= offset -> 0 <= length -> offset + length <= SIZE_MAX ->
  MMAPAllocation_window fd offset length s = (Done a, s') -> mmap_valid a = true ->
  custom_initial_data node = mmap_base a + k -> 0 <= k -> 0 <= custom_initial_data_size node ->
  k + custom_initial_data_size node <= length ->
  exists off, GetNodeInitDataMmapInfo (Some (kMMap a)) node = Done (fd, off, custom_initial_data_size node) /\
    off + custom_initial_data_size node <= zlength (contents f) /\
    forall i, 0 <= i < custom_initial_data_size node ->
      base_byte s' (kMMap a) (k + i) = (contents f).[off + i].
Proof.
  intros Hfd Hf Ho Hl Hmax Hrun Hv Hdata Hk Hn Hend.
  destruct (MMAPAllocation_window_ok fd f offset length s Hfd Hf Ho Hl Hmax) as (a' & s1 & Hrun' & Hw).
  rewrite Hrun in Hrun'. injection Hrun' as <- <-.
  destruct (window_place _ _ _ _ _ _ _ Hw Hv) as (Hp & Hup & _). destruct (window_split _ _ _ _ _ _ _ Hw) as [Hoib Hoff].
  pose proof (window_end _ _ _ _ _ _ _ Hw Hv) as Hsize. pose proof (contents_ok f). pose proof pagesize_ok as Hpage.
  pose proof (Z.mod_pos_bound offset pagesize Hpage). pose proof (Z.mod_le offset pagesize Ho Hpage).
  assert (Hbase : mmap_base a = mmapped_buffer_ a + offset_in_buffer_ a) by (apply size_wrap_small; lia).
  exists (offset + k). unfold GetNodeInitDataMmapInfo. rewrite Hdata, Hbase. destruct (Z.eqb_spec (mmapped_buffer_ a + offset_in_buffer_ a + k) 0); [lia|].
  rewrite (window_fd _ _ _ _ _ _ _ Hw), Hoff, Hoib.
  replace (mmapped_buffer_ a + offset mod pagesize + k - mmapped_buffer_ a) with (offset mod pagesize + k) by lia.
  unfold SIZE_MAX in *. rewrite (size_wrap_small (offset mod pagesize + k)) by (unfold SIZE_MAX; lia).
  rewrite size_wrap_small by (unfold SIZE_MAX; lia).
  split_and!.
  - rewrite !int64_wrap_small by lia.
    by replace (offset mod pagesize + k + (offset - offset mod pagesize)) with (offset + k) by lia.
  - lia.
  - intros i Hi. rewrite (window_byte _ _ _ _ _ _ _ Hw) by (done || lia). f_equal. lia.
Qed.
End InitData.

(** ** A buffer of seven bytes *)

Section Seven.
Context {PX : Posix} {FB : Flatbuffers} {FOk : FlatbuffersOk}.

(** The identifier ends with the eighth byte of a buffer, but a buffer of seven bytes passes the
    test of its length: where its last three bytes are the first ones of the identifier, the byte
    behind the buffer is read. *)
Theorem seven_byte_buffer_overread (bs : bytes) s : zlength bs = 7 -> drop 4 bs = take 3 (string_bytes ModelIdentifier) ->
  BuildFromBuffer (Some bs) 7 s = (Undef, s).
Proof.
  intros Hlen Hid. unfold BuildFromBuffer, BuildFromAllocation, FlatBufferModel_of_allocation. cbn [alloc_valid].
  rewrite bool_decide_eq_true_2 by (by eexists). unfold CheckModelIdentifier. cbn [alloc_bytes memory_size_bytes_].
  change (7 <? 7) with false. rewrite !bind_assoc, (bind_done get _ s s s) by done.
  do 7 (destruct bs as [|? bs]; [unfold zlength in Hlen; cbn in Hlen; lia|]).
  destruct bs; [|unfold zlength in Hlen; cbn in Hlen; lia]. cbn [drop] in Hid.
  unfold ModelBufferHasIdentifier. rewrite identifier_cut; [done|done| |done].
  cbn [base_byte buffer_]. rewrite <- Hid. done.
Qed.
End Seven.

(** ** A system with two files *)

Definition above (keys : list Z) : Z := foldr Z.max 2 keys.

Lemma above_fresh {A} (m : gmap Z A) k : above (map_to_list m).*1 < k -> m !! k = None.
Proof.
  intros Hk. destruct (m !! k) as [v|] eqn:Hv; [|done]. exfalso.
  apply elem_of_map_to_list, (list_elem_of_fmap_2 fst) in Hv. cbn in Hv. revert Hv Hk.
  generalize ((map_to_list m).*1). induction l as [|x l IH]; [set_solver|]. cbn.
  intros [->|Hl]%elem_of_cons Hk; [lia|]. apply IH; [done|]. cbn in *. unfold above in *. lia.
Qed.

Lemma above_two keys : 2 <= above keys.
Proof. induction keys as [|k keys IH]; [done|]. unfold above in *. cbn. lia. Qed.

Definition ex_file : bytes := [16; 0; 0; 0; 84; 70; 76; 51; 7; 8; 9].

#[local] Instance ex_posix : Posix := {|
  file_of path := if bool_decide (path = "m.tflite"%string) then Some 1 else if bool_decide (path = "notes"%string) then Some 2 else None;
  contents f := if f =? 1 then ex_file else [1; 2; 3];
  fd_place s := above (map_to_list (open_fds s)).*1 + 1;
  fstat_ok _ := true;
  pagesize := 8;
  map_place s _ n off :=
    let p := (above (map_to_list (mappings s)).*1 + 1) * 8 in
    if (0 <? n) && (off mod 8 =? 0) && (p + n <=? SIZE_MAX - 1) then p else MAP_FAILED;
  fread_count _ n := n;
  MMAPAllocation_IsSupported := true |}.

#[local] Instance ex_posix_ok : PosixOk.
Proof.
  split; cbn.
  - lia.
  - by exists 1.
  - intros f. by destruct (f =? 1).
  - intros s. right. pose proof (above_two (map_to_list (open_fds s)).*1). split; [lia|]. apply above_fresh. lia.
  - intros s f n off. pose proof (above_two (map_to_list (mappings s)).*1).
    destruct (Z.ltb_spec 0 n), (Z.eqb_spec (off mod 8) 0); cbn; try (by left).
    destruct (Z.leb_spec ((above (map_to_list (mappings s)).*1 + 1) * 8 + n) (SIZE_MAX - 1)); [|by left]. right.
    split_and!; [done| |lia|lia|].
    + apply Z.mod_divide; lia.
    + apply above_fresh. lia.
Qed.

(** The library, of which the verifier looks at the first byte and the model has no tables. *)
#[local] Instance ex_flatbuffers : Flatbuffers := {|
  BufferHasIdentifier mem id :=
    match mapM mem [4; 5; 6; 7] with Some bs => Some (bool_decide (bs = string_bytes id)) | None => None end;
  VerifyModelBuffer bs := bool_decide (head bs = Some 16);
  FLATBUFFERS_MAX_BUFFER_SIZE := 2 ^ 31 - 1;
  GetModel bs := mkModel (zlength bs) None None None None None |}.

#[local] Instance ex_flatbuffers_ok : FlatbuffersOk.
Proof.
  split; cbn.
  - intros mem id bs _ ->. done.
  - intros mem id _ _ H7. rewrite H7. by destruct (mem 4), (mem 5), (mem 6).
Qed.

Definition no_files : os := OS ∅ ∅.

Example model_is_loaded : (model_ <$> default None (match fst (VerifyAndBuildFromFile "m.tflite" None no_files) with
    | Done r => Some r | _ => None end)) = Some (Some (mkModel 11 None None None None None)) /\
  VerifyAndBuildFromFile "notes" None no_files = (Done None, no_files) /\
  VerifyAndBuildFromFile "missing" None no_files = (Done None, no_files).
Proof. vm_compute. by split_and!. Qed.

Lemma VerifyAndBuildFromFile_spec_witness : exists r s', VerifyAndBuildFromFile "m.tflite" None no_files = (Done r, s') /\
  loaded_or_not "m.tflite" None no_files r s'.
Proof. exact (VerifyAndBuildFromFile_spec eq_refl "m.tflite" None no_files). Defined.

(** The last three bytes of the model, from its ninth byte on; a page has eight. *)
Definition ex_open : os := OS {[3 := 1]} ∅.
Definition ex_window : outcome MMAPAllocation * os := Eval vm_compute in MMAPAllocation_window 3 9 2 ex_open.
Definition ex_allocation : MMAPAllocation := mkMMAPAllocation 3 24 2 1 8.

Lemma init_data_is_in_the_file_witness :
  let node := mkNode [] [] [] [] 0 0 26 1 0 false in
  exists off, GetNodeInitDataMmapInfo (Some (kMMap ex_allocation)) node = Done (3, off, 1) /\
    off + 1 <= zlength (contents 1) /\
    forall i, 0 <= i < 1 -> base_byte (snd ex_window) (kMMap ex_allocation) (1 + i) = (contents 1).[off + i].
Proof.
  intros node. refine (init_data_is_in_the_file 3 1 9 2 ex_open ex_allocation (snd ex_window) node 1 _ _ _ _ _ _ _ _ _ _ _);
    by vm_compute.
Defined.

Lemma seven_byte_buffer_overread_witness : BuildFromBuffer (Some [16; 0; 0; 0; 84; 70; 76]) 7 no_files = (Undef, no_files).
Proof. apply (seven_byte_buffer_overread [16; 0; 0; 0; 84; 70; 76] no_files); reflexivity. Defined.
