(* ===== verification/SubgraphAccess.v ===== *)
(** * Subgraphs: what kernels and clients may ask (tensorflow/lite/core/subgraph.cc)

    The execution plan, the external contexts, the metadata of the model and the memory in use. *)
From Stdlib Require Import String.
From stdpp Require Import strings.
From S2P Require Import Prelude Heap Common MetadataUtil StdMap MemoryPlanner Callbacks Subgraph.
From S2P Require ArenaPlanner ArenaInstance SimplePlanner.
#[local] Open Scope Z_scope.

(** [GetAllocInfo] of a planner: the sizes of its arenas. *)
Class AllocInfo (P : Type) := GetAllocInfo : M (mp_state P) (Z * Z).

#[export] Instance arena_alloc_info : AllocInfo ArenaPlanner.ArenaPlanner :=
  ArenaInstance.on_planner ArenaPlanner.GetAllocInfo.
(** The simple planner leaves the zeros that are there. *)
#[export] Instance simple_alloc_info : AllocInfo SimplePlanner.SimplePlanner := ret (0, 0).

Record SubgraphAllocInfo := mkSubgraphAllocInfo {
  arena_size : Z; arena_persist_size : Z; dynamic_size : Z; resource_size : Z }.

(** [external_contexts_]: the five contexts that the subgraphs of a model share. *)
Definition context_type_ok (type : Z) : bool := (0 <=? type) && (type <? kTfLiteMaxExternalContexts).
Definition GetExternalContext (external_contexts_ : list Z) (type : Z) : outcome Z :=
  if context_type_ok type then match external_contexts_.[type] with Some c => Done c | None => Undef end else Done 0.
Definition SetExternalContext (external_contexts_ : list Z) (type ctx : Z) : outcome (list Z) :=
  if context_type_ok type then
    if zlength external_contexts_ <=? type then Undef else Done (zset external_contexts_ type ctx)
  else Done external_contexts_.

(** [metadata_] is null before [SetMetadata] of the subgraph. *)
Definition GetModelMetadata (metadata_ : option (StdMap bytes)) (name : string) : outcome bytes :=
  match metadata_ with
  | None => Fail kTfLiteError
  | Some m => match map_find name m with Some data => Done data | None => Fail kTfLiteError end
  end.

Section Access.
Context {P W : Type} {AI : AllocInfo P}.
Abbreviation S := (sgstate P W).

(** A copy of the plan. *)
Definition GetExecutionPlan : M S (list Z) := let* g := this in ret (execution_plan_ g).

(** The bytes of the dynamic tensors that are allocated, as a [size_t]. *)
Definition dynamic_bytes (ts : list TfLiteTensor) : Z :=
  foldl (fun n t => if bool_decide (t_allocation_type t = kTfLiteDynamic) && negb (t_data t =? 0)
                    then size_wrap (n + t_bytes t) else n) 0 ts.

(** [resources] are the sizes of the resources, which the primary subgraph counts. *)
Definition GetMemoryAllocInfo (subgraph_index : Z) (resources : list Z) : M S SubgraphAllocInfo :=
  let* g := this in
  match memory_planner_ g with
  | None => ret (mkSubgraphAllocInfo 0 0 0 0)
  | Some _ =>
    let* sizes := on_planner GetAllocInfo in
    ret (mkSubgraphAllocInfo (fst sizes) (snd sizes) (dynamic_bytes (tensors_ g))
      (if subgraph_index =? 0 then foldl (fun n r => size_wrap (n + r)) 0 resources else 0))
  end.
End Access.

(** ** Properties *)

(** A context that was set is the one that is got, and no other changes; types out of range are
    null and change nothing. *)
Lemma GetExternalContext_set cs type ctx cs' t : zlength cs = kTfLiteMaxExternalContexts ->
  SetExternalContext cs type ctx = Done cs' ->
  GetExternalContext cs' t = if context_type_ok type && (t =? type) then Done ctx else GetExternalContext cs t.
Proof.
  intros Hlen. unfold SetExternalContext, GetExternalContext. destruct (context_type_ok type) eqn:Hok; cbn [andb].
  - unfold context_type_ok in Hok. apply andb_prop in Hok as [H0%Z.leb_le H5%Z.ltb_lt].
    destruct (Z.leb_spec (zlength cs) type); [done|]. intros [= <-]. destruct (Z.eqb_spec t type) as [->|Hne].
    + unfold context_type_ok. destruct (Z.leb_spec 0 type), (Z.ltb_spec type kTfLiteMaxExternalContexts); try lia. cbn.
      by rewrite zlookup_zset, Z.eqb_refl by lia.
    + destruct (context_type_ok t); [|done]. rewrite zlookup_zset by lia. by destruct (Z.eqb_spec type t).
  - by intros [= <-].
Qed.

(** The bytes counted are those of the dynamic tensors, where they do not exceed a [size_t]. *)
Lemma dynamic_bytes_sum ts : Forall (fun t => 0 <= t_bytes t) ts ->
  let held := foldr (fun t n => (if bool_decide (t_allocation_type t = kTfLiteDynamic) && negb (t_data t =? 0)
                                 then t_bytes t else 0) + n) 0 ts in
  held <= SIZE_MAX -> dynamic_bytes ts = held.
Proof.
  intros Hts held Hmax. unfold dynamic_bytes.
  assert (H : forall a, 0 <= a -> a + held <= SIZE_MAX -> foldl (fun n t =>
    if bool_decide (t_allocation_type t = kTfLiteDynamic) && negb (t_data t =? 0) then size_wrap (n + t_bytes t) else n) a ts = a + held).
  { subst held. clear Hmax. induction Hts as [|t ts Ht Hts IH]; intros a Ha Hle; cbn in *; [lia|].
    assert (Hpos : 0 <= foldr (fun t n => (if bool_decide (t_allocation_type t = kTfLiteDynamic) && negb (t_data t =? 0)
      then t_bytes t else 0) + n) 0 ts).
    { clear - Hts. induction Hts as [|t ts Ht Hts IH]; cbn; [lia|]. destruct (_ && _); lia. }
    destruct (_ && _); [rewrite size_wrap_small by lia|]; rewrite IH; lia. }
  rewrite H; lia.
Qed.
