(* ===== verification/OptionParser.v ===== *)
(** * Parsing the options of builtin operators (core/api/flatbuffer_conversions.cc)

    [ParseOpData] allocates the struct of an operator, fills it from the operator's table of options
    and returns its address, null for an operator without a struct.  The struct is owned by a
    [unique_ptr] until it is returned: a failure frees it.  A store is done in the bytes of the
    struct, at the offset of the field ([OptionStructs]). *)
From Stdlib Require Import String.
From stdpp Require Import strings.
From S2P Require Import Prelude Heap Common ModelSchema OptionTables OptionStructs.
#[local] Open Scope Z_scope.

(** ** Enumerators *)

Inductive TfLitePadding := kTfLitePaddingUnknown | kTfLitePaddingSame | kTfLitePaddingValid.

Inductive TfLiteMirrorPaddingMode :=
  | kTfLiteMirrorPaddingUnknown | kTfLiteMirrorPaddingReflect | kTfLiteMirrorPaddingSymmetric.

Inductive TfLiteFusedActivation :=
  | kTfLiteActNone | kTfLiteActRelu | kTfLiteActReluN1To1 | kTfLiteActRelu6 | kTfLiteActTanh
  | kTfLiteActSignBit | kTfLiteActSigmoid.

Inductive TfLiteFullyConnectedWeightsFormat :=
  | kTfLiteFullyConnectedWeightsFormatDefault | kTfLiteFullyConnectedWeightsFormatShuffled4x16Int8.

Inductive TfLiteLSHProjectionType :=
  | kTfLiteLshProjectionUnknown | kTfLiteLshProjectionSparse | kTfLiteLshProjectionDense.

Inductive TfLiteLSTMKernelType := kTfLiteLSTMFullKernel | kTfLiteLSTMBasicKernel.

Inductive TfLiteCombinerType := kTfLiteCombinerTypeSum | kTfLiteCombinerTypeMean | kTfLiteCombinerTypeSqrtn.

Inductive TfLiteRngAlgorithm :=
  | kTfLiteRngAlgorithmUnknown | kTfLiteRngAlgorithmDefault | kTfLiteRngAlgorithmPhilox
  | kTfLiteRngAlgorithmThreefry.

Inductive TfLiteReduceWindowFunction :=
  | TfLiteReduceWindowFunctionUnsupported | TfLiteReduceWindowFunctionAdd | TfLiteReduceWindowFunctionMul
  | TfLiteReduceWindowFunctionMin | TfLiteReduceWindowFunctionMax | TfLiteReduceWindowFunctionAll
  | TfLiteReduceWindowFunctionAny.

(** The integer an enumerator is stored as. *)
Class Enum (A : Type) := enum : A -> Z.
#[export] Instance enum_bool : Enum bool := Z.b2z.
#[export] Instance enum_Padding : Enum TfLitePadding := fun p => match p with
  | kTfLitePaddingUnknown => 0 | kTfLitePaddingSame => 1 | kTfLitePaddingValid => 2 end.
#[export] Instance enum_MirrorPaddingMode : Enum TfLiteMirrorPaddingMode := fun p => match p with
  | kTfLiteMirrorPaddingUnknown => 0 | kTfLiteMirrorPaddingReflect => 1
  | kTfLiteMirrorPaddingSymmetric => 2 end.
#[export] Instance enum_FusedActivation : Enum TfLiteFusedActivation := fun a => match a with
  | kTfLiteActNone => 0 | kTfLiteActRelu => 1 | kTfLiteActReluN1To1 => 2 | kTfLiteActRelu6 => 3
  | kTfLiteActTanh => 4 | kTfLiteActSignBit => 5 | kTfLiteActSigmoid => 6 end.
#[export] Instance enum_WeightsFormat : Enum TfLiteFullyConnectedWeightsFormat := fun w => match w with
  | kTfLiteFullyConnectedWeightsFormatDefault => 0
  | kTfLiteFullyConnectedWeightsFormatShuffled4x16Int8 => 1 end.
#[export] Instance enum_LSHProjectionType : Enum TfLiteLSHProjectionType := fun t => match t with
  | kTfLiteLshProjectionUnknown => 0 | kTfLiteLshProjectionSparse => 1
  | kTfLiteLshProjectionDense => 2 end.
#[export] Instance enum_LSTMKernelType : Enum TfLiteLSTMKernelType := fun k => match k with
  | kTfLiteLSTMFullKernel => 0 | kTfLiteLSTMBasicKernel => 1 end.
#[export] Instance enum_CombinerType : Enum TfLiteCombinerType := fun c => match c with
  | kTfLiteCombinerTypeSum => 0 | kTfLiteCombinerTypeMean => 1 | kTfLiteCombinerTypeSqrtn => 2 end.
#[export] Instance enum_RngAlgorithm : Enum TfLiteRngAlgorithm := fun a => match a with
  | kTfLiteRngAlgorithmUnknown => 0 | kTfLiteRngAlgorithmDefault => 1
  | kTfLiteRngAlgorithmPhilox => 2 | kTfLiteRngAlgorithmThreefry => 3 end.
#[export] Instance enum_ReduceWindowFunction : Enum TfLiteReduceWindowFunction := fun f => match f with
  | TfLiteReduceWindowFunctionUnsupported => 0 | TfLiteReduceWindowFunctionAdd => 1
  | TfLiteReduceWindowFunctionMul => 2 | TfLiteReduceWindowFunctionMin => 3
  | TfLiteReduceWindowFunctionMax => 4 | TfLiteReduceWindowFunctionAll => 5
  | TfLiteReduceWindowFunctionAny => 6 end.
#[export] Instance enum_TfLiteType : Enum TfLiteType := fun t => match t with
  | kTfLiteNoType => 0 | kTfLiteFloat32 => 1 | kTfLiteInt32 => 2 | kTfLiteUInt8 => 3
  | kTfLiteInt64 => 4 | kTfLiteString => 5 | kTfLiteBool => 6 | kTfLiteInt16 => 7
  | kTfLiteComplex64 => 8 | kTfLiteInt8 => 9 | kTfLiteFloat16 => 10 | kTfLiteFloat64 => 11
  | kTfLiteComplex128 => 12 | kTfLiteUInt64 => 13 | kTfLiteResource => 14 | kTfLiteVariant => 15
  | kTfLiteUInt32 => 16 | kTfLiteUInt16 => 17 | kTfLiteInt4 => 18 | kTfLiteBFloat16 => 19
  | kTfLiteInt2 => 20 | kTfLiteUInt4 => 21 end.

(** *** Conversions, by the values of the schema's enumerators *)

Definition ConvertActivation (activation : Z) : TfLiteFusedActivation :=
  match activation with
  | 0 => kTfLiteActNone
  | 1 => kTfLiteActRelu
  | 2 => kTfLiteActReluN1To1
  | 3 => kTfLiteActRelu6
  | 4 => kTfLiteActTanh
  | 5 => kTfLiteActSignBit
  | _ => kTfLiteActNone
  end.

Definition ConvertPadding (padding : Z) : TfLitePadding :=
  match padding with
  | 0 => kTfLitePaddingSame
  | 1 => kTfLitePaddingValid
  | _ => kTfLitePaddingUnknown
  end.

Definition ConvertMirrorPadding (padding : Z) : TfLiteMirrorPaddingMode :=
  match padding with
  | 0 => kTfLiteMirrorPaddingReflect
  | 1 => kTfLiteMirrorPaddingSymmetric
  | _ => kTfLiteMirrorPaddingUnknown
  end.

Definition ConvertRngAlgorithm (algorithm : Z) : TfLiteRngAlgorithm :=
  match algorithm with
  | 2 => kTfLiteRngAlgorithmThreefry
  | 1 => kTfLiteRngAlgorithmPhilox
  | 0 => kTfLiteRngAlgorithmDefault
  | _ => kTfLiteRngAlgorithmUnknown
  end.

Definition parseLSHProjectionType (type : Z) : TfLiteLSHProjectionType :=
  match type with
  | 1 => kTfLiteLshProjectionSparse
  | 2 => kTfLiteLshProjectionDense
  | _ => kTfLiteLshProjectionUnknown
  end.

Definition parseCombinerType (type : Z) : TfLiteCombinerType :=
  match type with
  | 1 => kTfLiteCombinerTypeMean
  | 2 => kTfLiteCombinerTypeSqrtn
  | _ => kTfLiteCombinerTypeSum
  end.

(** ** Pointers to structs *)

Record pointer := mkPointer { pointee : struct; address : Z }.

Section Parser.
Context {MM : Malloc}.

(** [params->f = v]. *)
Definition set (params : pointer) (f : string) (v : Z) : M heap unit :=
  match field (pointee params) f with
  | Some (off, t) => store (address params + off) (le_bytes (sizeof t) v)
  | None => undef
  end.

(** [params->f[i] = v]. *)
Definition set_at (params : pointer) (f : string) (i v : Z) : M heap unit :=
  match field (pointee params) f with
  | Some (off, c_array t n) =>
    if (0 <=? i) && (i <? n) then store (address params + off + sizeof t * i) (le_bytes (sizeof t) v)
    else undef
  | _ => undef
  end.

(** [sizeof(params->f)], and the size of an element of this array. *)
Definition sizeof_field (params : pointer) (f : string) : Z :=
  match field (pointee params) f with Some (_, t) => sizeof t | None => 0 end.

Definition sizeof_element (params : pointer) (f : string) : Z :=
  match field (pointee params) f with Some (_, c_array t _) => sizeof t | _ => 1 end.

(** [BuiltinDataAllocator::AllocatePOD] with the allocator of the interpreter builder: the memory
    is initialised before anything tests that there is any. *)
Definition AllocatePOD (T : struct) : M heap pointer :=
  let* allocated_memory := malloc (struct_size T) in
  store allocated_memory (replicate (Z.to_nat (struct_size T)) 0) ;;;
  ret (mkPointer T allocated_memory).

(** [safe_allocator.Allocate<T>()], and the rest of the function that uses it: the struct is
    released to the caller, and freed when the function returns early. *)
Definition Allocate (T : struct) (fill : pointer -> M heap unit) : M heap Z :=
  let* params := AllocatePOD T in fun h =>
  match fill params h with
  | (Done _, h') => (Done (address params), h')
  | (Fail e, h') => (free (address params) ;;; fail e) h'
  | (Undef, h') => (Undef, h')
  end.

(** With [TF_LITE_ENSURE(error_reporter, params != nullptr)]. *)
Definition parse (T : struct) (fill : pointer -> M heap unit) : M heap Z :=
  Allocate T (fun params => ensure (negb (address params =? 0)) ;;; fill params).

(** [buffer] is the array [params->f]; [max_size_of_buffer] is an [int], in bytes. *)
Definition FlatBufferIntVectorToArray (max_size_of_buffer : Z) (flat_vector : option (list Z))
    (params : pointer) (f : string) : M heap unit :=
  match flat_vector with
  | None => fail kTfLiteError
  | Some flat_vector =>
    if size_wrap (int32_wrap max_size_of_buffer) / sizeof_element params f <? zlength flat_vector
    then fail kTfLiteError
    else for_each (enumerate flat_vector) (fun ix => set_at params f (fst ix) (snd ix))
  end.

(** [ConvertTensorType(tensor_type, &params->f, error_reporter)]. *)
Definition ConvertTensorType_to (params : pointer) (f : string) (tensor_type : Z) : M heap unit :=
  match ConvertTensorType tensor_type with
  | Done type => set params f (enum type)
  | _ => set params f (enum kTfLiteNoType) ;;; fail kTfLiteError
  end.

(** ** Operators without parameters *)

Definition ParseAbs (op : Operator) : M heap Z := ret 0.
Definition ParseAddN (op : Operator) : M heap Z := ret 0.
Definition ParseAssignVariable (op : Operator) : M heap Z := ret 0.
Definition ParseBatchToSpaceNd (op : Operator) : M heap Z := ret 0.
Definition ParseBroadcastArgs (op : Operator) : M heap Z := ret 0.
Definition ParseBroadcastTo (op : Operator) : M heap Z := ret 0.
Definition ParseCeil (op : Operator) : M heap Z := ret 0.
Definition ParseCos (op : Operator) : M heap Z := ret 0.
Definition ParseDequantize (op : Operator) : M heap Z := ret 0.
Definition ParseDynamicUpdateSlice (op : Operator) : M heap Z := ret 0.
Definition ParseElu (op : Operator) : M heap Z := ret 0.
Definition ParseEmbeddingLookup (op : Operator) : M heap Z := ret 0.
Definition ParseEqual (op : Operator) : M heap Z := ret 0.
Definition ParseExp (op : Operator) : M heap Z := ret 0.
Definition ParseExpandDims (op : Operator) : M heap Z := ret 0.
Definition ParseFill (op : Operator) : M heap Z := ret 0.
Definition ParseFloor (op : Operator) : M heap Z := ret 0.
Definition ParseFloorDiv (op : Operator) : M heap Z := ret 0.
Definition ParseFloorMod (op : Operator) : M heap Z := ret 0.
Definition ParseGatherNd (op : Operator) : M heap Z := ret 0.
Definition ParseGreater (op : Operator) : M heap Z := ret 0.
Definition ParseGreaterEqual (op : Operator) : M heap Z := ret 0.
Definition ParseHardSwish (op : Operator) : M heap Z := ret 0.
Definition ParseLess (op : Operator) : M heap Z := ret 0.
Definition ParseLessEqual (op : Operator) : M heap Z := ret 0.
Definition ParseLog (op : Operator) : M heap Z := ret 0.
Definition ParseLogicalAnd (op : Operator) : M heap Z := ret 0.
Definition ParseLogicalNot (op : Operator) : M heap Z := ret 0.
Definition ParseLogicalOr (op : Operator) : M heap Z := ret 0.
Definition ParseLogistic (op : Operator) : M heap Z := ret 0.
Definition ParseLogSoftmax (op : Operator) : M heap Z := ret 0.
Definition ParseMaximum (op : Operator) : M heap Z := ret 0.
Definition ParseMinimum (op : Operator) : M heap Z := ret 0.
Definition ParseNeg (op : Operator) : M heap Z := ret 0.
Definition ParseNotEqual (op : Operator) : M heap Z := ret 0.
Definition ParsePad (op : Operator) : M heap Z := ret 0.
Definition ParsePadV2 (op : Operator) : M heap Z := ret 0.
Definition ParsePow (op : Operator) : M heap Z := ret 0.
Definition ParsePrelu (op : Operator) : M heap Z := ret 0.
Definition ParseQuantize (op : Operator) : M heap Z := ret 0.
Definition ParseReadVariable (op : Operator) : M heap Z := ret 0.
Definition ParseRelu (op : Operator) : M heap Z := ret 0.
Definition ParseRelu6 (op : Operator) : M heap Z := ret 0.
Definition ParseStablehloShiftLeft (op : Operator) : M heap Z := ret 0.
Definition ParseReverseV2 (op : Operator) : M heap Z := ret 0.
Definition ParseRound (op : Operator) : M heap Z := ret 0.
Definition ParseRsqrt (op : Operator) : M heap Z := ret 0.
Definition ParseSelect (op : Operator) : M heap Z := ret 0.
Definition ParseSelectV2 (op : Operator) : M heap Z := ret 0.
Definition ParseSin (op : Operator) : M heap Z := ret 0.
Definition ParseSlice (op : Operator) : M heap Z := ret 0.
Definition ParseSpaceToBatchNd (op : Operator) : M heap Z := ret 0.
Definition ParseSqrt (op : Operator) : M heap Z := ret 0.
Definition ParseSquare (op : Operator) : M heap Z := ret 0.
Definition ParseSquaredDifference (op : Operator) : M heap Z := ret 0.
Definition ParseTanh (op : Operator) : M heap Z := ret 0.
Definition ParseTranspose (op : Operator) : M heap Z := ret 0.
Definition ParseZerosLike (op : Operator) : M heap Z := ret 0.
Definition ParseBitwiseXor (op : Operator) : M heap Z := ret 0.
Definition ParseRightShift (op : Operator) : M heap Z := ret 0.

(** ** Operators with parameters *)

Definition ParseAdd (op : Operator) : M heap Z :=
  parse TfLiteAddParams (fun params => match builtin_options op with
  | AddOptions fused_activation_function pot_scale_int16 =>
    set params "activation" (enum (ConvertActivation fused_activation_function)) ;;;
    set params "pot_scale_int16" (enum pot_scale_int16)
  | _ => ret tt
  end).

Definition ParseArgMax (op : Operator) : M heap Z :=
  parse TfLiteArgMaxParams (fun params => match builtin_options op with
  | ArgMaxOptions output_type =>
    ConvertTensorType_to params "output_type" output_type
  | _ => ret tt
  end).

Definition ParseArgMin (op : Operator) : M heap Z :=
  parse TfLiteArgMinParams (fun params => match builtin_options op with
  | ArgMinOptions output_type =>
    ConvertTensorType_to params "output_type" output_type
  | _ => ret tt
  end).

Definition ParseBatchMatMul (op : Operator) : M heap Z :=
  parse TfLiteBatchMatMulParams (fun params => match builtin_options op with
  | BatchMatMulOptions adj_x adj_y asymmetric_quantize_inputs =>
    set params "adj_x" (enum adj_x) ;;;
    set params "adj_y" (enum adj_y) ;;;
    set params "asymmetric_quantize_inputs" (enum asymmetric_quantize_inputs)
  | _ => ret tt
  end).

Definition ParseCallOnce (op : Operator) : M heap Z :=
  parse TfLiteCallOnceParams (fun params => match builtin_options op with
  | CallOnceOptions init_subgraph_index =>
    set params "init_subgraph_index" init_subgraph_index
  | _ => ret tt
  end).

Definition ParseCast (op : Operator) : M heap Z :=
  parse TfLiteCastParams (fun params => match builtin_options op with
  | CastOptions in_data_type out_data_type =>
    ConvertTensorType_to params "in_data_type" in_data_type ;;;
    ConvertTensorType_to params "out_data_type" out_data_type
  | _ => ret tt
  end).

Definition ParseConcatenation (op : Operator) : M heap Z :=
  parse TfLiteConcatenationParams (fun params => match builtin_options op with
  | ConcatenationOptions axis fused_activation_function =>
    set params "activation" (enum (ConvertActivation fused_activation_function)) ;;;
    set params "axis" axis
  | _ => ret tt
  end).

Definition ParseConv2D (op : Operator) : M heap Z :=
  parse TfLiteConvParams (fun params => match builtin_options op with
  | Conv2DOptions padding stride_w stride_h fused_activation_function dilation_w_factor dilation_h_factor
      quantized_bias_type =>
    set params "padding" (enum (ConvertPadding padding)) ;;;
    set params "stride_width" stride_w ;;;
    set params "stride_height" stride_h ;;;
    set params "activation" (enum (ConvertActivation fused_activation_function)) ;;;
    set params "dilation_width_factor" dilation_w_factor ;;;
    set params "dilation_height_factor" dilation_h_factor ;;;
    ConvertTensorType_to params "quantized_bias_type" quantized_bias_type
  | _ => ret tt
  end).

Definition ParseCumsum (op : Operator) : M heap Z :=
  parse TfLiteCumsumParams (fun params => match builtin_options op with
  | CumsumOptions exclusive reverse =>
    set params "exclusive" (enum exclusive) ;;;
    set params "reverse" (enum reverse)
  | _ => ret tt
  end).

Definition ParseDepthToSpace (op : Operator) : M heap Z :=
  parse TfLiteDepthToSpaceParams (fun params => match builtin_options op with
  | DepthToSpaceOptions block_size =>
    set params "block_size" block_size
  | _ => ret tt
  end).

Definition ParseDepthwiseConv2D (op : Operator) : M heap Z :=
  parse TfLiteDepthwiseConvParams (fun params => match builtin_options op with
  | DepthwiseConv2DOptions padding stride_w stride_h depth_multiplier fused_activation_function
      dilation_w_factor dilation_h_factor =>
    set params "padding" (enum (ConvertPadding padding)) ;;;
    set params "stride_width" stride_w ;;;
    set params "stride_height" stride_h ;;;
    set params "depth_multiplier" depth_multiplier ;;;
    set params "activation" (enum (ConvertActivation fused_activation_function)) ;;;
    set params "dilation_width_factor" dilation_w_factor ;;;
    set params "dilation_height_factor" dilation_h_factor
  | _ => ret tt
  end).

Definition ParseDiv (op : Operator) : M heap Z :=
  parse TfLiteDivParams (fun params => match builtin_options op with
  | DivOptions fused_activation_function =>
    set params "activation" (enum (ConvertActivation fused_activation_function))
  | _ => ret tt
  end).

Definition ParseFullyConnected (op : Operator) : M heap Z :=
  parse TfLiteFullyConnectedParams (fun params => match builtin_options op with
  | FullyConnectedOptions fused_activation_function weights_format keep_num_dims
      asymmetric_quantize_inputs quantized_bias_type =>
    set params "activation" (enum (ConvertActivation fused_activation_function)) ;;;
    set params "keep_num_dims" (enum keep_num_dims) ;;;
    set params "asymmetric_quantize_inputs" (enum asymmetric_quantize_inputs) ;;;
    ConvertTensorType_to params "quantized_bias_type" quantized_bias_type ;;;
    match weights_format with
    | 0 => set params "weights_format" (enum kTfLiteFullyConnectedWeightsFormatDefault)
    | 1 => set params "weights_format" (enum kTfLiteFullyConnectedWeightsFormatShuffled4x16Int8)
    | _ => fail kTfLiteError
    end
  | _ => ret tt
  end).

Definition ParseGather (op : Operator) : M heap Z :=
  parse TfLiteGatherParams (fun params =>
    set params "axis" 0 ;;;
    set params "batch_dims" 0 ;;;
    match builtin_options op with
    | GatherOptions axis batch_dims => set params "axis" axis ;;; set params "batch_dims" batch_dims
    | _ => ret tt
    end).

Definition ParseIf (op : Operator) : M heap Z :=
  parse TfLiteIfParams (fun params => match builtin_options op with
  | IfOptions then_subgraph_index else_subgraph_index =>
    set params "then_subgraph_index" then_subgraph_index ;;;
    set params "else_subgraph_index" else_subgraph_index
  | _ => ret tt
  end).

Definition ParseL2Normalization (op : Operator) : M heap Z :=
  parse TfLiteL2NormParams (fun params => match builtin_options op with
  | L2NormOptions fused_activation_function =>
    set params "activation" (enum (ConvertActivation fused_activation_function))
  | _ => ret tt
  end).

Definition ParseLeakyRelu (op : Operator) : M heap Z :=
  parse TfLiteLeakyReluParams (fun params => match builtin_options op with
  | LeakyReluOptions alpha =>
    set params "alpha" alpha
  | _ => ret tt
  end).

Definition ParseLSTM (op : Operator) : M heap Z :=
  parse TfLiteLSTMParams (fun params => match builtin_options op with
  | LSTMOptions fused_activation_function cell_clip proj_clip kernel_type asymmetric_quantize_inputs =>
    set params "activation" (enum (ConvertActivation fused_activation_function)) ;;;
    set params "cell_clip" cell_clip ;;;
    set params "proj_clip" proj_clip ;;;
    match kernel_type with
    | 0 => set params "kernel_type" (enum kTfLiteLSTMFullKernel)
    | 1 => set params "kernel_type" (enum kTfLiteLSTMBasicKernel)
    | _ => fail kTfLiteError
    end ;;;
    set params "asymmetric_quantize_inputs" (enum asymmetric_quantize_inputs)
  | _ => fail kTfLiteError
  end).

Definition ParseMirrorPad (op : Operator) : M heap Z :=
  parse TfLiteMirrorPaddingParams (fun params => match builtin_options op with
  | MirrorPadOptions mode =>
    set params "mode" (enum (ConvertMirrorPadding mode))
  | _ => ret tt
  end).

Definition ParseMul (op : Operator) : M heap Z :=
  parse TfLiteMulParams (fun params => match builtin_options op with
  | MulOptions fused_activation_function =>
    set params "activation" (enum (ConvertActivation fused_activation_function))
  | _ => ret tt
  end).

Definition ParsePack (op : Operator) : M heap Z :=
  parse TfLitePackParams (fun params => match builtin_options op with
  | PackOptions values_count axis =>
    set params "values_count" values_count ;;;
    set params "axis" axis
  | _ => ret tt
  end).

Definition ParsePool (op : Operator) : M heap Z :=
  parse TfLitePoolParams (fun params => match builtin_options op with
  | Pool2DOptions padding stride_w stride_h filter_width filter_height fused_activation_function =>
    set params "padding" (enum (ConvertPadding padding)) ;;;
    set params "stride_width" stride_w ;;;
    set params "stride_height" stride_h ;;;
    set params "filter_width" filter_width ;;;
    set params "filter_height" filter_height ;;;
    set params "activation" (enum (ConvertActivation fused_activation_function))
  | _ => ret tt
  end).

Definition ParseReducer (op : Operator) : M heap Z :=
  parse TfLiteReducerParams (fun params => match builtin_options op with
  | ReducerOptions keep_dims =>
    set params "keep_dims" (enum keep_dims)
  | _ => ret tt
  end).

Definition ParseReshape (op : Operator) : M heap Z :=
  parse TfLiteReshapeParams (fun params => match builtin_options op with
  | ReshapeOptions (Some new_shape) =>
    FlatBufferIntVectorToArray (sizeof_field params "shape") (Some new_shape) params "shape" ;;;
    set params "num_dimensions" (zlength new_shape)
  | _ => ret tt
  end).

Definition ParseResizeBilinear (op : Operator) : M heap Z :=
  parse TfLiteResizeBilinearParams (fun params => match builtin_options op with
  | ResizeBilinearOptions align_corners half_pixel_centers =>
    set params "align_corners" (enum align_corners) ;;;
    set params "half_pixel_centers" (enum half_pixel_centers)
  | _ => set params "align_corners" (enum false) ;;; set params "half_pixel_centers" (enum false)
  end).

Definition ParseResizeNearestNeighbor (op : Operator) : M heap Z :=
  parse TfLiteResizeNearestNeighborParams (fun params => match builtin_options op with
  | ResizeNearestNeighborOptions align_corners half_pixel_centers =>
    set params "align_corners" (enum align_corners) ;;;
    set params "half_pixel_centers" (enum half_pixel_centers)
  | _ => set params "align_corners" (enum false) ;;; set params "half_pixel_centers" (enum false)
  end).

(** [LoadAttr] of [ParseStablehloReduceWindow]: an absent or empty attribute is filled. *)
Definition LoadAttr (params : pointer) (f : string) (flatbuffer_vector : option (list Z))
    (expected_size fill_value : Z) : M heap unit :=
  match flatbuffer_vector with
  | Some (x :: l) =>
    ensure (negb (negb (expected_size =? 0) && negb (zlength (x :: l) =? expected_size))) ;;;
    FlatBufferIntVectorToArray (sizeof_field params f) (Some (x :: l)) params f
  | _ =>
    for_each (zrange 0 (sizeof_field params f / sizeof c_int64 - 1)) (fun i =>
      set_at params f i fill_value)
  end.

Definition ParseStablehloReduceWindow (op : Operator) : M heap Z :=
  Allocate TfLiteStablehloReduceWindowParams (fun params => match builtin_options_2 op with
  | StablehloReduceWindowOptions window_dimensions window_strides base_dilations window_dilations
      padding body_subgraph_index =>
    match window_dimensions with
    | None | Some [] => fail kTfLiteError
    | Some dims =>
      let rank := zlength dims in
      LoadAttr params "window_dimensions" window_dimensions rank 1 ;;;
      LoadAttr params "window_strides" window_strides rank 1 ;;;
      LoadAttr params "base_dilations" base_dilations rank 1 ;;;
      LoadAttr params "window_dilations" window_dilations rank 1 ;;;
      LoadAttr params "padding" padding (size_wrap (2 * rank)) 0 ;;;
      set params "body_subgraph_index" body_subgraph_index
    end
  | _ => fail kTfLiteError
  end).

(** An attribute of a scatter or a gather: the limit is the size of the attribute itself. *)
Definition load_unlimited (params : pointer) (f num : string) (dims : list Z) : M heap unit :=
  FlatBufferIntVectorToArray (zlength dims * sizeof c_int64) (Some dims) params f ;;;
  set params num (zlength dims).

Definition load_optional (params : pointer) (f num : string) (dims : option (list Z)) : M heap unit :=
  match dims with Some dims => load_unlimited params f num dims | None => ret tt end.

Definition ParseStablehloScatter (op : Operator) : M heap Z :=
  parse TfLiteStablehloScatterParams (fun params => match builtin_options_2 op with
  | StablehloScatterOptions indices_are_sorted update_window_dims inserted_window_dims
      scatter_dims_to_operand_dims index_vector_dim unique_indices update_computation_subgraph_index =>
    set params "indices_are_sorted" (enum indices_are_sorted) ;;;
    load_optional params "update_window_dims" "num_update_window_dims" update_window_dims ;;;
    load_optional params "inserted_window_dims" "num_inserted_window_dims" inserted_window_dims ;;;
    load_optional params "scatter_dims_to_operand_dims" "num_scatter_dims_to_operand_dims"
      scatter_dims_to_operand_dims ;;;
    set params "index_vector_dim" index_vector_dim ;;;
    set params "unique_indices" (enum unique_indices) ;;;
    set params "update_computation_subgraph_index" update_computation_subgraph_index
  | _ => ret tt
  end).

Definition ParseStablehloRngBitGenerator (op : Operator) : M heap Z :=
  parse TfLiteStablehloRngBitGeneratorParams (fun params => match builtin_options_2 op with
  | StablehloRngBitGeneratorOptions algorithm =>
    set params "algorithm" (enum (ConvertRngAlgorithm algorithm))
  | _ => ret tt
  end).

(** The vectors are used without a test that they are present. *)
Definition ParseStablehloGather (op : Operator) : M heap Z :=
  parse TfLiteStablehloGatherParams (fun params => match builtin_options_2 op with
  | StablehloGatherOptions offset_dims collapsed_slice_dims start_index_map index_vector_dim
      slice_sizes indices_are_sorted =>
    let* offset_dims := access offset_dims in
    load_unlimited params "offset_dims" "num_offset_dims" offset_dims ;;;
    let* collapsed_slice_dims := access collapsed_slice_dims in
    load_unlimited params "collapsed_slice_dims" "num_collapsed_slice_dims" collapsed_slice_dims ;;;
    let* start_index_map := access start_index_map in
    load_unlimited params "start_index_map" "num_start_index_map" start_index_map ;;;
    set params "index_vector_dim" index_vector_dim ;;;
    let* slice_sizes := access slice_sizes in
    load_unlimited params "slice_sizes" "num_slice_sizes" slice_sizes ;;;
    set params "indices_are_sorted" (enum indices_are_sorted)
  | _ => ret tt
  end).

Definition ParseStablehloPad (op : Operator) : M heap Z :=
  Allocate TfLiteStablehloPadParams (fun params => match builtin_options_2 op with
  | StablehloPadOptions edge_padding_low edge_padding_high interior_padding =>
    FlatBufferIntVectorToArray (sizeof_field params "edge_padding_low") edge_padding_low
      params "edge_padding_low" ;;;
    FlatBufferIntVectorToArray (sizeof_field params "edge_padding_high") edge_padding_high
      params "edge_padding_high" ;;;
    FlatBufferIntVectorToArray (sizeof_field params "interior_padding") interior_padding
      params "interior_padding" ;;;
    let* low := access edge_padding_low in
    let* high := access edge_padding_high in
    let* interior := access interior_padding in
    ensure ((zlength low =? zlength high) && (zlength low =? zlength interior))
  | _ => fail kTfLiteError
  end).

Definition ParseStablehloComposite (op : Operator) : M heap Z :=
  Allocate TfLiteStablehloCompositeParams (fun params => match builtin_options_2 op with
  | StableHLOCompositeOptions name decomposition_subgraph_index composite_attributes _ version =>
    let* name := access name in
    set params "name" name ;;;
    set params "version" version ;;;
    set params "subgraph_index" decomposition_subgraph_index ;;;
    let* attributes := access composite_attributes in
    set params "attributes" (fst attributes) ;;;
    set params "attributes_size" (snd attributes)
  | _ => fail kTfLiteError
  end).

Definition ParseStablehloCase (op : Operator) : M heap Z :=
  Allocate TfLiteStablehloCaseParams (fun params => match builtin_options_2 op with
  | StablehloCaseOptions branch_subgraph_indices =>
    FlatBufferIntVectorToArray (sizeof_field params "branch_subgraph_indices") branch_subgraph_indices
      params "branch_subgraph_indices" ;;;
    let* indices := access branch_subgraph_indices in
    set params "num_branches" (zlength indices)
  | _ => fail kTfLiteError
  end).

Definition ParseShape (op : Operator) : M heap Z :=
  parse TfLiteShapeParams (fun params => match builtin_options op with
  | ShapeOptions out_type =>
    ConvertTensorType_to params "out_type" out_type
  | _ => ret tt
  end).

Definition ParseSoftmax (op : Operator) : M heap Z :=
  parse TfLiteSoftmaxParams (fun params => match builtin_options op with
  | SoftmaxOptions beta =>
    set params "beta" beta
  | _ => ret tt
  end).

Definition ParseSpaceToDepth (op : Operator) : M heap Z :=
  parse TfLiteSpaceToDepthParams (fun params => match builtin_options op with
  | SpaceToDepthOptions block_size =>
    set params "block_size" block_size
  | _ => ret tt
  end).

Definition ParseSplit (op : Operator) : M heap Z :=
  parse TfLiteSplitParams (fun params => match builtin_options op with
  | SplitOptions num_splits =>
    set params "num_splits" num_splits
  | _ => ret tt
  end).

Definition ParseSplitV (op : Operator) : M heap Z :=
  parse TfLiteSplitVParams (fun params => match builtin_options op with
  | SplitVOptions num_splits =>
    set params "num_splits" num_splits
  | _ => ret tt
  end).

Definition ParseUnidirectionalSequenceLSTM (op : Operator) : M heap Z :=
  parse TfLiteUnidirectionalSequenceLSTMParams (fun params => match builtin_options op with
  | UnidirectionalSequenceLSTMOptions fused_activation_function cell_clip proj_clip time_major
      asymmetric_quantize_inputs diagonal_recurrent_tensors =>
    set params "activation" (enum (ConvertActivation fused_activation_function)) ;;;
    set params "cell_clip" cell_clip ;;;
    set params "proj_clip" proj_clip ;;;
    set params "time_major" (enum time_major) ;;;
    set params "asymmetric_quantize_inputs" (enum asymmetric_quantize_inputs) ;;;
    set params "diagonal_recurrent_tensors" (enum diagonal_recurrent_tensors)
  | _ => ret tt
  end).

Definition ParseSqueeze (op : Operator) : M heap Z :=
  parse TfLiteSqueezeParams (fun params => match builtin_options op with
  | SqueezeOptions (Some squeeze_dims) =>
    FlatBufferIntVectorToArray (sizeof_field params "squeeze_dims") (Some squeeze_dims)
      params "squeeze_dims" ;;;
    set params "num_squeeze_dims" (zlength squeeze_dims)
  | SqueezeOptions None => set params "num_squeeze_dims" 0
  | _ => ret tt
  end).

Definition ParseStridedSlice (op : Operator) : M heap Z :=
  parse TfLiteStridedSliceParams (fun params => match builtin_options op with
  | StridedSliceOptions begin_mask end_mask ellipsis_mask new_axis_mask shrink_axis_mask offset =>
    set params "begin_mask" begin_mask ;;;
    set params "end_mask" end_mask ;;;
    set params "ellipsis_mask" ellipsis_mask ;;;
    set params "new_axis_mask" new_axis_mask ;;;
    set params "shrink_axis_mask" shrink_axis_mask ;;;
    set params "offset" (enum offset)
  | _ => ret tt
  end).

Definition ParseSub (op : Operator) : M heap Z :=
  parse TfLiteSubParams (fun params => match builtin_options op with
  | SubOptions fused_activation_function pot_scale_int16 =>
    set params "activation" (enum (ConvertActivation fused_activation_function)) ;;;
    set params "pot_scale_int16" (enum pot_scale_int16)
  | _ => ret tt
  end).

Definition ParseSvdf (op : Operator) : M heap Z :=
  parse TfLiteSVDFParams (fun params => match builtin_options op with
  | SVDFOptions rank fused_activation_function asymmetric_quantize_inputs =>
    set params "rank" rank ;;;
    set params "activation" (enum (ConvertActivation fused_activation_function)) ;;;
    set params "asymmetric_quantize_inputs" (enum asymmetric_quantize_inputs)
  | _ => ret tt
  end).

Definition ParseTransposeConv (op : Operator) : M heap Z :=
  parse TfLiteTransposeConvParams (fun params => match builtin_options op with
  | TransposeConvOptions padding stride_w stride_h fused_activation_function quantized_bias_type =>
    set params "padding" (enum (ConvertPadding padding)) ;;;
    set params "stride_width" stride_w ;;;
    set params "stride_height" stride_h ;;;
    set params "activation" (enum (ConvertActivation fused_activation_function)) ;;;
    ConvertTensorType_to params "quantized_bias_type" quantized_bias_type
  | _ => ret tt
  end).

Definition ParseUnpack (op : Operator) : M heap Z :=
  parse TfLiteUnpackParams (fun params => match builtin_options op with
  | UnpackOptions num axis =>
    set params "num" num ;;;
    set params "axis" axis
  | _ => ret tt
  end).

Definition ParseVarHandle (op : Operator) : M heap Z :=
  parse TfLiteVarHandleParams (fun params => match builtin_options op with
  | VarHandleOptions container shared_name =>
    match container with Some s => set params "container" s | None => ret tt end ;;;
    match shared_name with Some s => set params "shared_name" s | None => ret tt end
  | _ => ret tt
  end).

Definition ParseWhile (op : Operator) : M heap Z :=
  parse TfLiteWhileParams (fun params => match builtin_options op with
  | WhileOptions cond_subgraph_index body_subgraph_index =>
    set params "cond_subgraph_index" cond_subgraph_index ;;;
    set params "body_subgraph_index" body_subgraph_index
  | _ => ret tt
  end).

(** ** The cases of [ParseOpDataTfLite] that fill a struct themselves *)

Definition parse_lsh_projection (op : Operator) : M heap Z :=
  parse TfLiteLSHProjectionParams (fun params => match builtin_options op with
  | LSHProjectionOptions type =>
    set params "type" (enum (parseLSHProjectionType type))
  | _ => ret tt
  end).

Definition parse_unidirectional_sequence_rnn (op : Operator) : M heap Z :=
  parse TfLiteSequenceRNNParams (fun params => match builtin_options op with
  | SequenceRNNOptions time_major fused_activation_function asymmetric_quantize_inputs =>
    set params "activation" (enum (ConvertActivation fused_activation_function)) ;;;
    set params "time_major" (enum time_major) ;;;
    set params "asymmetric_quantize_inputs" (enum asymmetric_quantize_inputs)
  | _ => ret tt
  end).

Definition parse_bidirectional_sequence_rnn (op : Operator) : M heap Z :=
  parse TfLiteBidirectionalSequenceRNNParams (fun params => match builtin_options op with
  | BidirectionalSequenceRNNOptions time_major fused_activation_function merge_outputs asymmetric_quantize_inputs =>
    set params "activation" (enum (ConvertActivation fused_activation_function)) ;;;
    set params "time_major" (enum time_major) ;;;
    set params "merge_outputs" (enum merge_outputs) ;;;
    set params "asymmetric_quantize_inputs" (enum asymmetric_quantize_inputs)
  | _ => ret tt
  end).

Definition parse_rnn (op : Operator) : M heap Z :=
  parse TfLiteRNNParams (fun params => match builtin_options op with
  | RNNOptions fused_activation_function asymmetric_quantize_inputs =>
    set params "activation" (enum (ConvertActivation fused_activation_function)) ;;;
    set params "asymmetric_quantize_inputs" (enum asymmetric_quantize_inputs)
  | _ => ret tt
  end).

Definition parse_embedding_lookup_sparse (op : Operator) : M heap Z :=
  parse TfLiteEmbeddingLookupSparseParams (fun params => match builtin_options op with
  | EmbeddingLookupSparseOptions combiner =>
    set params "combiner" (enum (parseCombinerType combiner))
  | _ => ret tt
  end).

Definition parse_local_response_normalization (op : Operator) : M heap Z :=
  parse TfLiteLocalResponseNormParams (fun params => match builtin_options op with
  | LocalResponseNormalizationOptions radius bias alpha beta =>
    set params "radius" radius ;;;
    set params "bias" bias ;;;
    set params "alpha" alpha ;;;
    set params "beta" beta
  | _ => ret tt
  end).

Definition parse_bidirectional_sequence_lstm (op : Operator) : M heap Z :=
  parse TfLiteBidirectionalSequenceLSTMParams (fun params => match builtin_options op with
  | BidirectionalSequenceLSTMOptions fused_activation_function cell_clip proj_clip merge_outputs time_major
      asymmetric_quantize_inputs =>
    set params "activation" (enum (ConvertActivation fused_activation_function)) ;;;
    set params "cell_clip" cell_clip ;;;
    set params "proj_clip" proj_clip ;;;
    set params "merge_outputs" (enum merge_outputs) ;;;
    set params "time_major" (enum time_major) ;;;
    set params "asymmetric_quantize_inputs" (enum asymmetric_quantize_inputs)
  | _ => ret tt
  end).

Definition parse_skip_gram (op : Operator) : M heap Z :=
  parse TfLiteSkipGramParams (fun params => match builtin_options op with
  | SkipGramOptions ngram_size max_skip_size include_all_ngrams =>
    set params "ngram_size" ngram_size ;;;
    set params "max_skip_size" max_skip_size ;;;
    set params "include_all_ngrams" (enum include_all_ngrams)
  | _ => ret tt
  end).

Definition parse_sparse_to_dense (op : Operator) : M heap Z :=
  parse TfLiteSparseToDenseParams (fun params => match builtin_options op with
  | SparseToDenseOptions validate_indices =>
    set params "validate_indices" (enum validate_indices)
  | _ => ret tt
  end).

Definition parse_fake_quant (op : Operator) : M heap Z :=
  parse TfLiteFakeQuantParams (fun params => match builtin_options op with
  | FakeQuantOptions min max num_bits narrow_range =>
    set params "min" min ;;;
    set params "max" max ;;;
    set params "num_bits" num_bits ;;;
    set params "narrow_range" (enum narrow_range)
  | _ => ret tt
  end).

Definition parse_one_hot (op : Operator) : M heap Z :=
  parse TfLiteOneHotParams (fun params => match builtin_options op with
  | OneHotOptions axis =>
    set params "axis" axis
  | _ => ret tt
  end).

Definition parse_unique (op : Operator) : M heap Z :=
  parse TfLiteUniqueParams (fun params => match builtin_options op with
  | UniqueOptions idx_out_type =>
    set params "index_out_type" (enum (if idx_out_type =? 4 then kTfLiteInt64 else kTfLiteInt32))
  | _ => ret tt
  end).

Definition parse_reverse_sequence (op : Operator) : M heap Z :=
  parse TfLiteReverseSequenceParams (fun params => match builtin_options op with
  | ReverseSequenceOptions seq_dim batch_dim =>
    set params "seq_dim" seq_dim ;;;
    set params "batch_dim" batch_dim
  | _ => ret tt
  end).

Definition parse_if (op : Operator) : M heap Z :=
  parse TfLiteIfParams (fun params => match builtin_options op with
  | IfOptions then_subgraph_index else_subgraph_index =>
    set params "then_subgraph_index" then_subgraph_index ;;;
    set params "else_subgraph_index" else_subgraph_index
  | _ => ret tt
  end).

Definition parse_while (op : Operator) : M heap Z :=
  parse TfLiteWhileParams (fun params => match builtin_options op with
  | WhileOptions cond_subgraph_index body_subgraph_index =>
    set params "cond_subgraph_index" cond_subgraph_index ;;;
    set params "body_subgraph_index" body_subgraph_index
  | _ => ret tt
  end).

Definition parse_conv_3d (op : Operator) : M heap Z :=
  parse TfLiteConv3DParams (fun params => match builtin_options op with
  | Conv3DOptions padding stride_d stride_w stride_h fused_activation_function dilation_d_factor
      dilation_w_factor dilation_h_factor =>
    set params "padding" (enum (ConvertPadding padding)) ;;;
    set params "activation" (enum (ConvertActivation fused_activation_function)) ;;;
    set params "stride_depth" stride_d ;;;
    set params "stride_height" stride_h ;;;
    set params "stride_width" stride_w ;;;
    set params "dilation_depth_factor" dilation_d_factor ;;;
    set params "dilation_height_factor" dilation_h_factor ;;;
    set params "dilation_width_factor" dilation_w_factor
  | _ => ret tt
  end).

Definition parse_hashtable (op : Operator) : M heap Z :=
  parse TfLiteHashtableParams (fun params => match builtin_options op with
  | HashtableOptions table_id key_dtype value_dtype =>
    set params "table_id" table_id ;;;
    ConvertTensorType_to params "key_dtype" key_dtype ;;;
    ConvertTensorType_to params "value_dtype" value_dtype
  | _ => ret tt
  end).

Definition parse_multinomial (op : Operator) : M heap Z :=
  parse TfLiteRandomParams (fun params => match builtin_options op with
  | RandomOptions seed seed2 =>
    set params "seed" seed ;;;
    set params "seed2" seed2
  | _ => ret tt
  end).

Definition parse_random_standard_normal (op : Operator) : M heap Z :=
  parse TfLiteRandomParams (fun params => match builtin_options op with
  | RandomOptions seed seed2 =>
    set params "seed" seed ;;;
    set params "seed2" seed2
  | _ => ret tt
  end).

(** The struct keeps the address of the boundaries, in the memory of the model. *)
Definition parse_bucketize (op : Operator) : M heap Z :=
  parse TfLiteBucketizeParams (fun params => match builtin_options op with
  | BucketizeOptions boundaries =>
    match boundaries with
    | None => fail kTfLiteError
    | Some (data, size) =>
      set params "num_boundaries" size ;;;
      ensure (negb (data =? 0)) ;;;
      set params "boundaries" data
    end
  | _ => ret tt
  end).

Definition parse_random_uniform (op : Operator) : M heap Z :=
  parse TfLiteRandomParams (fun params => match builtin_options op with
  | RandomOptions seed seed2 =>
    set params "seed" seed ;;;
    set params "seed2" seed2
  | _ => ret tt
  end).

Definition parse_gelu (op : Operator) : M heap Z :=
  parse TfLiteGeluParams (fun params => match builtin_options op with
  | GeluOptions approximate =>
    set params "approximate" (enum approximate)
  | _ => ret tt
  end).

Definition parse_reduce_window (op : Operator) : M heap Z :=
  parse TfLiteReduceWindowParams (fun params => match builtin_options_2 op with
  | ReduceWindowOptions reduce_function =>
    match reduce_function with
    | 1 => set params "reduce_function" (enum TfLiteReduceWindowFunctionAdd)
    | 2 => set params "reduce_function" (enum TfLiteReduceWindowFunctionMul)
    | 3 => set params "reduce_function" (enum TfLiteReduceWindowFunctionMin)
    | 4 => set params "reduce_function" (enum TfLiteReduceWindowFunctionMax)
    | 5 => set params "reduce_function" (enum TfLiteReduceWindowFunctionAll)
    | 6 => set params "reduce_function" (enum TfLiteReduceWindowFunctionAny)
    | _ => fail kTfLiteError
    end
  | _ => ret tt
  end).

(** ** All operators *)

Definition ParseOpDataTfLite (op : Operator) (op_type : BuiltinOperator) : M heap Z :=
  match op_type with
  | BuiltinOperator_ABS => ParseAbs op
  | BuiltinOperator_ADD => ParseAdd op
  | BuiltinOperator_ADD_N => ParseAddN op
  | BuiltinOperator_ARG_MAX => ParseArgMax op
  | BuiltinOperator_ARG_MIN => ParseArgMin op
  | BuiltinOperator_ASSIGN_VARIABLE => ParseAssignVariable op
  | BuiltinOperator_AVERAGE_POOL_2D => ParsePool op
  | BuiltinOperator_BATCH_MATMUL => ParseBatchMatMul op
  | BuiltinOperator_BATCH_TO_SPACE_ND => ParseBatchToSpaceNd op
  | BuiltinOperator_BROADCAST_ARGS => ParseBroadcastArgs op
  | BuiltinOperator_BROADCAST_TO => ParseBroadcastTo op
  | BuiltinOperator_CALL_ONCE => ParseCallOnce op
  | BuiltinOperator_CEIL => ParseCeil op
  | BuiltinOperator_CONCATENATION => ParseConcatenation op
  | BuiltinOperator_CONV_2D => ParseConv2D op
  | BuiltinOperator_CUMSUM => ParseCumsum op
  | BuiltinOperator_DEPTH_TO_SPACE => ParseDepthToSpace op
  | BuiltinOperator_DEPTHWISE_CONV_2D => ParseDepthwiseConv2D op
  | BuiltinOperator_DEQUANTIZE => ParseDequantize op
  | BuiltinOperator_DIV => ParseDiv op
  | BuiltinOperator_DYNAMIC_UPDATE_SLICE => ParseDynamicUpdateSlice op
  | BuiltinOperator_ELU => ParseElu op
  | BuiltinOperator_EMBEDDING_LOOKUP => ParseEmbeddingLookup op
  | BuiltinOperator_EXP => ParseExp op
  | BuiltinOperator_EXPAND_DIMS => ParseExpandDims op
  | BuiltinOperator_FILL => ParseFill op
  | BuiltinOperator_FLOOR => ParseFloor op
  | BuiltinOperator_FLOOR_DIV => ParseFloorDiv op
  | BuiltinOperator_FLOOR_MOD => ParseFloorMod op
  | BuiltinOperator_FULLY_CONNECTED => ParseFullyConnected op
  | BuiltinOperator_GATHER_ND => ParseGatherNd op
  | BuiltinOperator_GREATER => ParseGreater op
  | BuiltinOperator_GREATER_EQUAL => ParseGreaterEqual op
  | BuiltinOperator_HARD_SWISH => ParseHardSwish op
  | BuiltinOperator_L2_NORMALIZATION => ParseL2Normalization op
  | BuiltinOperator_L2_POOL_2D => ParsePool op
  | BuiltinOperator_LEAKY_RELU => ParseLeakyRelu op
  | BuiltinOperator_LESS => ParseLess op
  | BuiltinOperator_LESS_EQUAL => ParseLessEqual op
  | BuiltinOperator_LOG => ParseLog op
  | BuiltinOperator_LOGICAL_AND => ParseLogicalAnd op
  | BuiltinOperator_LOGICAL_NOT => ParseLogicalNot op
  | BuiltinOperator_LOGICAL_OR => ParseLogicalOr op
  | BuiltinOperator_LOGISTIC => ParseLogistic op
  | BuiltinOperator_LOG_SOFTMAX => ParseLogSoftmax op
  | BuiltinOperator_LSTM => ParseLSTM op
  | BuiltinOperator_MAXIMUM => ParseMaximum op
  | BuiltinOperator_MAX_POOL_2D => ParsePool op
  | BuiltinOperator_MIRROR_PAD => ParseMirrorPad op
  | BuiltinOperator_MEAN => ParseReducer op
  | BuiltinOperator_MINIMUM => ParseMinimum op
  | BuiltinOperator_MUL => ParseMul op
  | BuiltinOperator_NEG => ParseNeg op
  | BuiltinOperator_NOT_EQUAL => ParseNotEqual op
  | BuiltinOperator_PACK => ParsePack op
  | BuiltinOperator_PAD => ParsePad op
  | BuiltinOperator_PADV2 => ParsePadV2 op
  | BuiltinOperator_POW => ParsePow op
  | BuiltinOperator_PRELU => ParsePrelu op
  | BuiltinOperator_QUANTIZE => ParseQuantize op
  | BuiltinOperator_READ_VARIABLE => ParseReadVariable op
  | BuiltinOperator_REDUCE_ANY => ParseReducer op
  | BuiltinOperator_REDUCE_ALL => ParseReducer op
  | BuiltinOperator_REDUCE_MAX => ParseReducer op
  | BuiltinOperator_REDUCE_MIN => ParseReducer op
  | BuiltinOperator_REDUCE_PROD => ParseReducer op
  | BuiltinOperator_RELU => ParseRelu op
  | BuiltinOperator_RELU6 => ParseRelu6 op
  | BuiltinOperator_RESHAPE => ParseReshape op
  | BuiltinOperator_RESIZE_BILINEAR => ParseResizeBilinear op
  | BuiltinOperator_RESIZE_NEAREST_NEIGHBOR => ParseResizeNearestNeighbor op
  | BuiltinOperator_REVERSE_V2 => ParseReverseV2 op
  | BuiltinOperator_ROUND => ParseRound op
  | BuiltinOperator_RSQRT => ParseRsqrt op
  | BuiltinOperator_SELECT => ParseSelect op
  | BuiltinOperator_SELECT_V2 => ParseSelectV2 op
  | BuiltinOperator_SHAPE => ParseShape op
  | BuiltinOperator_SIN => ParseSin op
  | BuiltinOperator_SOFTMAX => ParseSoftmax op
  | BuiltinOperator_SPACE_TO_BATCH_ND => ParseSpaceToBatchNd op
  | BuiltinOperator_SPACE_TO_DEPTH => ParseSpaceToDepth op
  | BuiltinOperator_SPLIT => ParseSplit op
  | BuiltinOperator_SPLIT_V => ParseSplitV op
  | BuiltinOperator_SQRT => ParseSqrt op
  | BuiltinOperator_SQUARE => ParseSquare op
  | BuiltinOperator_SQUARED_DIFFERENCE => ParseSquaredDifference op
  | BuiltinOperator_SQUEEZE => ParseSqueeze op
  | BuiltinOperator_STRIDED_SLICE => ParseStridedSlice op
  | BuiltinOperator_SUB => ParseSub op
  | BuiltinOperator_SUM => ParseReducer op
  | BuiltinOperator_SVDF => ParseSvdf op
  | BuiltinOperator_TANH => ParseTanh op
  | BuiltinOperator_TRANSPOSE_CONV => ParseTransposeConv op
  | BuiltinOperator_UNPACK => ParseUnpack op
  | BuiltinOperator_VAR_HANDLE => ParseVarHandle op
  | BuiltinOperator_ZEROS_LIKE => ParseZerosLike op
  | BuiltinOperator_BITWISE_XOR => ParseBitwiseXor op
  | BuiltinOperator_RIGHT_SHIFT => ParseRightShift op
  | BuiltinOperator_CAST => ParseCast op
  | BuiltinOperator_LSH_PROJECTION => parse_lsh_projection op
  | BuiltinOperator_UNIDIRECTIONAL_SEQUENCE_RNN => parse_unidirectional_sequence_rnn op
  | BuiltinOperator_BIDIRECTIONAL_SEQUENCE_RNN => parse_bidirectional_sequence_rnn op
  | BuiltinOperator_RNN => parse_rnn op
  | BuiltinOperator_EMBEDDING_LOOKUP_SPARSE => parse_embedding_lookup_sparse op
  | BuiltinOperator_HASHTABLE_LOOKUP => ret 0
  | BuiltinOperator_LOCAL_RESPONSE_NORMALIZATION => parse_local_response_normalization op
  | BuiltinOperator_UNIDIRECTIONAL_SEQUENCE_LSTM => ParseUnidirectionalSequenceLSTM op
  | BuiltinOperator_BIDIRECTIONAL_SEQUENCE_LSTM => parse_bidirectional_sequence_lstm op
  | BuiltinOperator_SKIP_GRAM => parse_skip_gram op
  | BuiltinOperator_GATHER => ParseGather op
  | BuiltinOperator_SPARSE_TO_DENSE => parse_sparse_to_dense op
  | BuiltinOperator_DELEGATE => fail kTfLiteError
  | BuiltinOperator_FAKE_QUANT => parse_fake_quant op
  | BuiltinOperator_ONE_HOT => parse_one_hot op
  | BuiltinOperator_UNIQUE => parse_unique op
  | BuiltinOperator_REVERSE_SEQUENCE => parse_reverse_sequence op
  | BuiltinOperator_IF => parse_if op
  | BuiltinOperator_WHILE => parse_while op
  | BuiltinOperator_CONV_3D | BuiltinOperator_CONV_3D_TRANSPOSE => parse_conv_3d op
  | BuiltinOperator_HASHTABLE => parse_hashtable op
  | BuiltinOperator_MULTINOMIAL => parse_multinomial op
  | BuiltinOperator_RANDOM_STANDARD_NORMAL => parse_random_standard_normal op
  | BuiltinOperator_BUCKETIZE => parse_bucketize op
  | BuiltinOperator_RANDOM_UNIFORM => parse_random_uniform op
  | BuiltinOperator_GELU => parse_gelu op
  | BuiltinOperator_STABLEHLO_SCATTER => ParseStablehloScatter op
  | BuiltinOperator_STABLEHLO_RNG_BIT_GENERATOR => ParseStablehloRngBitGenerator op
  | BuiltinOperator_STABLEHLO_GATHER => ParseStablehloGather op
  | BuiltinOperator_STABLEHLO_REDUCE_WINDOW => ParseStablehloReduceWindow op
  | BuiltinOperator_REDUCE_WINDOW => parse_reduce_window op
  | BuiltinOperator_STABLEHLO_PAD => ParseStablehloPad op
  | BuiltinOperator_STABLEHLO_COMPOSITE => ParseStablehloComposite op
  | BuiltinOperator_STABLEHLO_SHIFT_LEFT => ParseStablehloShiftLeft op
  | BuiltinOperator_STABLEHLO_CASE => ParseStablehloCase op
  | BuiltinOperator_STABLEHLO_SLICE | BuiltinOperator_STABLEHLO_BROADCAST_IN_DIM
  | BuiltinOperator_STABLEHLO_CONVOLUTION | BuiltinOperator_STABLEHLO_LOGISTIC
  | BuiltinOperator_STABLEHLO_ADD | BuiltinOperator_STABLEHLO_DIVIDE
  | BuiltinOperator_STABLEHLO_MULTIPLY | BuiltinOperator_STABLEHLO_MAXIMUM
  | BuiltinOperator_STABLEHLO_RESHAPE | BuiltinOperator_STABLEHLO_CLAMP
  | BuiltinOperator_STABLEHLO_CONCATENATE | BuiltinOperator_STABLEHLO_CUSTOM_CALL
  | BuiltinOperator_STABLEHLO_REDUCE | BuiltinOperator_STABLEHLO_ABS | BuiltinOperator_STABLEHLO_AND
  | BuiltinOperator_STABLEHLO_COSINE | BuiltinOperator_STABLEHLO_EXPONENTIAL
  | BuiltinOperator_STABLEHLO_FLOOR | BuiltinOperator_STABLEHLO_LOG
  | BuiltinOperator_STABLEHLO_MINIMUM | BuiltinOperator_STABLEHLO_NEGATE
  | BuiltinOperator_STABLEHLO_OR | BuiltinOperator_STABLEHLO_POWER
  | BuiltinOperator_STABLEHLO_REMAINDER | BuiltinOperator_STABLEHLO_RSQRT
  | BuiltinOperator_STABLEHLO_SELECT | BuiltinOperator_STABLEHLO_SUBTRACT
  | BuiltinOperator_STABLEHLO_TANH | BuiltinOperator_STABLEHLO_DYNAMIC_SLICE
  | BuiltinOperator_STABLEHLO_DYNAMIC_UPDATE_SLICE | BuiltinOperator_STABLEHLO_IOTA
  | BuiltinOperator_STABLEHLO_COMPARE | BuiltinOperator_STABLEHLO_CONVERT
  | BuiltinOperator_STABLEHLO_DOT_GENERAL | BuiltinOperator_STABLEHLO_SORT
  | BuiltinOperator_STABLEHLO_WHILE | BuiltinOperator_STABLEHLO_TRANSPOSE
  | BuiltinOperator_STABLEHLO_CBRT | BuiltinOperator_CALL | BuiltinOperator_COMPLEX_ABS
  | BuiltinOperator_CONCAT_EMBEDDINGS | BuiltinOperator_COS | BuiltinOperator_CUSTOM
  | BuiltinOperator_DENSIFY | BuiltinOperator_EQUAL | BuiltinOperator_HASHTABLE_FIND
  | BuiltinOperator_HASHTABLE_IMPORT | BuiltinOperator_HASHTABLE_SIZE | BuiltinOperator_IMAG
  | BuiltinOperator_MATRIX_DIAG | BuiltinOperator_MATRIX_SET_DIAG
  | BuiltinOperator_NON_MAX_SUPPRESSION_V4 | BuiltinOperator_NON_MAX_SUPPRESSION_V5
  | BuiltinOperator_RELU_N1_TO_1 | BuiltinOperator_RELU_0_TO_1 | BuiltinOperator_SCATTER_ND
  | BuiltinOperator_SLICE | BuiltinOperator_TILE | BuiltinOperator_TOPK_V2
  | BuiltinOperator_TRANSPOSE | BuiltinOperator_RANGE | BuiltinOperator_RANK | BuiltinOperator_REAL
  | BuiltinOperator_RFFT2D | BuiltinOperator_SEGMENT_SUM | BuiltinOperator_UNSORTED_SEGMENT_MAX
  | BuiltinOperator_UNSORTED_SEGMENT_MIN | BuiltinOperator_UNSORTED_SEGMENT_PROD
  | BuiltinOperator_UNSORTED_SEGMENT_SUM | BuiltinOperator_ATAN2 | BuiltinOperator_SIGN
  | BuiltinOperator_BITCAST | BuiltinOperator_WHERE | BuiltinOperator_DILATE => ret 0
  | BuiltinOperator_PLACEHOLDER_FOR_GREATER_OP_CODES => fail kTfLiteError
  end.

(** The operator type is the code of the operator's registration; a value that is not an
    enumerator matches no case. *)
Definition ParseOpData (op : Operator) (op_type : Z) : M heap Z :=
  match BuiltinOperator_of op_type with
  | Some op_type => ParseOpDataTfLite op op_type
  | None => fail kTfLiteError
  end.
End Parser.
