(* ===== verification/OptionParserProof.v ===== *)
(** * Parsing the options of builtin operators: theorems

    What [ParseOpData] returns for every operator code: memory is only written in the struct it
    returns, whose size is [GetBuiltinDataSize], and a failure leaves nothing allocated; exactly
    which options are accepted; and what a kernel reads from the struct. *)
From Stdlib Require Import String.
From stdpp Require Import strings.
From S2P Require Import Prelude Heap Common ModelSchema OptionTables OptionStructs OptionParser.
#[local] Open Scope Z_scope.

(** ** Stores in a struct *)

(** The struct is a live block. *)
Definition owns (params : pointer) (h : heap) : Prop :=
  live h !! address params = Some (struct_size (pointee params)).

(** The bytes of the struct may have changed, and nothing else. *)
Definition inside (params : pointer) (h h' : heap) : Prop :=
  live h' = live h /\
  forall a, a < address params \/ address params + struct_size (pointee params) <= a -> mem h' a = mem h a.

#[global] Instance inside_preorder params : PreOrder (inside params).
Proof.
  split; [by split|]. intros h1 h2 h3 [Hl Hm] [Hl' Hm']. split; [congruence|].
  intros a Ha. by rewrite Hm', Hm.
Qed.

(** The field is in the struct; decided for the structs at hand by evaluation. *)
Definition fits (T : struct) (f : string) : bool :=
  match field T f with Some (off, t) => (0 <=? off) && (0 <=? sizeof t) && (off + sizeof t <=? struct_size T) | None => false end.

(** The number of elements of an array. *)
Definition array_length (T : struct) (f : string) : Z :=
  match field T f with Some (_, c_array _ n) => n | _ => 0 end.

(** The field is an array in the struct, of [n] elements. *)
Definition fits_array (T : struct) (f : string) (n : Z) : bool :=
  match field T f with
  | Some (off, c_array t m) =>
    (0 <=? off) && (off + sizeof t * m <=? struct_size T) && (0 <? sizeof t) && (sizeof t <=? 8) &&
    (0 <=? m) && (m <=? 64) && (m =? n)
  | _ => false
  end.

Lemma zlength_le_bytes n v : 0 <= n -> zlength (le_bytes n v) = n.
Proof. intros. unfold zlength, le_bytes. rewrite length_fmap, length_zrange. lia. Qed.

Lemma store_inside params p bs h : address params <= p ->
  p + zlength bs <= address params + struct_size (pointee params) -> inside params h (snd (store p bs h)).
Proof.
  intros ? ?. unfold store. destruct (in_live_block h p (zlength bs)); [|reflexivity].
  split; [done|]. intros a Ha. cbn. unfold write_bytes.
  destruct (Z.leb_spec p a), (Z.ltb_spec a (p + zlength bs)); cbn; (done || lia).
Qed.

Section Stores.
Context (params : pointer).

Lemma fits_spec T f : fits T f = true -> exists off t, field T f = Some (off, t) /\
  0 <= off /\ 0 <= sizeof t /\ off + sizeof t <= struct_size T.
Proof.
  unfold fits. destruct (field T f) as [[off t]|]; [|done].
  rewrite !andb_true_iff, !Z.leb_le. intros [[? ?] ?]. eauto 8.
Qed.

Lemma fits_array_spec T f n : fits_array T f n = true -> exists off t, field T f = Some (off, c_array t n) /\
  0 <= off /\ 0 < sizeof t <= 8 /\ 0 <= n <= 64 /\ off + sizeof t * n <= struct_size T.
Proof.
  unfold fits_array. destruct (field T f) as [[off [| | | | | |t m]]|]; try done.
  rewrite !andb_true_iff, !Z.leb_le, Z.ltb_lt, Z.eqb_eq. intros [[[[[[? ?] ?] ?] ?] ?] <-]. eauto 10.
Qed.

Lemma respects_set f v : fits (pointee params) f = true -> respects (inside params) (set params f v).
Proof.
  intros (off & t & Hf & ? & ? & ?)%fits_spec h. unfold set. rewrite Hf.
  apply store_inside; rewrite ?zlength_le_bytes; lia.
Qed.

Lemma respects_set_at f n i v : fits_array (pointee params) f n = true ->
  respects (inside params) (set_at params f i v).
Proof.
  intros (off & t & Hf & ? & ? & ? & ?)%fits_array_spec h. unfold set_at. rewrite Hf.
  destruct (Z.leb_spec 0 i), (Z.ltb_spec i n); try done; cbn [andb].
  apply store_inside; rewrite ?zlength_le_bytes by lia; nia.
Qed.

(** In a struct that is a live block they are defined. *)
Lemma set_run f v h : fits (pointee params) f = true -> owns params h ->
  exists h', set params f v h = (Done tt, h') /\ owns params h'.
Proof.
  intros (off & t & Hf & ? & ? & ?)%fits_spec Ho. unfold set. rewrite Hf. eexists.
  rewrite (store_run _ _ _ _ _ Ho) by (rewrite ?zlength_le_bytes; lia). by split.
Qed.

Lemma set_at_run f n i v h : fits_array (pointee params) f n = true -> 0 <= i < n -> owns params h ->
  exists h', set_at params f i v h = (Done tt, h') /\ owns params h'.
Proof.
  intros (off & t & Hf & ? & ? & ? & ?)%fits_array_spec Hi Ho. unfold set_at. rewrite Hf.
  destruct (Z.leb_spec 0 i), (Z.ltb_spec i n); try lia; cbn [andb]. eexists.
  rewrite (store_run _ _ _ _ _ Ho) by (rewrite ?zlength_le_bytes; nia). by split.
Qed.
End Stores.

#[local] Hint Extern 2 (respects (inside _) (set _ _ _)) => (apply respects_set; reflexivity) : respects.

(** ** The calls that fill a struct *)

Section Fill.
Context (params : pointer).

Lemma respects_FlatBufferIntVectorToArray m v f n : fits_array (pointee params) f n = true ->
  respects (inside params) (FlatBufferIntVectorToArray m v params f).
Proof.
  intros Hf. unfold FlatBufferIntVectorToArray. destruct v as [v|]; [|eauto with respects].
  destruct (_ <? _); [eauto with respects|]. apply respects_for_each; [exact _|].
  intros x. by apply (respects_set_at _ _ n).
Qed.

Lemma respects_ConvertTensorType_to f t : fits (pointee params) f = true ->
  respects (inside params) (ConvertTensorType_to params f t).
Proof.
  intros Hf. unfold ConvertTensorType_to.
  destruct (ConvertTensorType t); [by apply respects_set|..];
    (apply respects_bind; [exact _|by apply respects_set|eauto with respects]).
Qed.

Lemma respects_LoadAttr f v e x n : fits_array (pointee params) f n = true ->
  respects (inside params) (LoadAttr params f v e x).
Proof.
  intros Hf. unfold LoadAttr. destruct v as [[|y l]|];
    [apply respects_for_each; [exact _|]; intros i; by apply (respects_set_at _ _ n)|
     apply respects_bind; [exact _|eauto with respects|]; intros _; by apply (respects_FlatBufferIntVectorToArray _ _ _ n)|
     apply respects_for_each; [exact _|]; intros i; by apply (respects_set_at _ _ n)].
Qed.

Lemma respects_load_unlimited f num l n : fits_array (pointee params) f n = true ->
  fits (pointee params) num = true -> respects (inside params) (load_unlimited params f num l).
Proof.
  intros Hf Hn. unfold load_unlimited. apply respects_bind; [exact _|by apply (respects_FlatBufferIntVectorToArray _ _ _ n)|].
  intros _. by apply respects_set.
Qed.

Lemma respects_load_optional f num v n : fits_array (pointee params) f n = true ->
  fits (pointee params) num = true -> respects (inside params) (load_optional params f num v).
Proof. intros. destruct v; [by apply (respects_load_unlimited _ _ _ n)|by apply respects_ret; exact _]. Qed.
End Fill.

(** The side conditions on the fields of a struct at hand are evaluated. *)
#[local] Hint Extern 2 (respects (inside ?p) (FlatBufferIntVectorToArray _ _ _ ?f)) =>
  (apply (respects_FlatBufferIntVectorToArray p _ _ f (array_length (pointee p) f)); reflexivity) : respects.
#[local] Hint Extern 2 (respects (inside ?p) (LoadAttr _ ?f _ _ _)) =>
  (apply (respects_LoadAttr p f _ _ _ (array_length (pointee p) f)); reflexivity) : respects.
#[local] Hint Extern 2 (respects (inside ?p) (load_unlimited _ ?f _ _)) =>
  (apply (respects_load_unlimited p f _ _ (array_length (pointee p) f)); reflexivity) : respects.
#[local] Hint Extern 2 (respects (inside ?p) (load_optional _ ?f _ _)) =>
  (apply (respects_load_optional p f _ _ (array_length (pointee p) f)); reflexivity) : respects.
#[local] Hint Extern 2 (respects (inside _) (ConvertTensorType_to _ _ _)) =>
  (apply respects_ConvertTensorType_to; reflexivity) : respects.

(** ** What a parser leaves in memory *)

(** No block that was live is written. *)
Definition untouched (h h' : heap) : Prop :=
  forall b m a, live h !! b = Some m -> b <= a < b + m -> mem h' a = mem h a.

(** A parser of a struct of [n] bytes returns null, or a new block of [n] bytes; a failure leaves
    no new block; and no block that was live is written. *)
Definition allocates (n : Z) (c : M heap Z) : Prop := forall h, heap_wf h ->
  match c h with
  | (Done p, h') => untouched h h' /\
    ((p = 0 /\ live h' = live h) \/ (fresh_block h p n /\ live h' = <[p := n]> (live h)))
  | (Fail e, h') => untouched h h' /\ live h' = live h
  | (Undef, _) => True
  end.

Lemma fresh_untouched h h' p n : fresh_block h p n ->
  (forall a, a < p \/ p + n <= a -> mem h' a = mem h a) -> untouched h h'.
Proof. intros (_ & _ & _ & Hd) Hm b m a Hb Ha. apply Hm. destruct (Hd _ _ Hb); lia. Qed.

Section Allocates.
Context {MM : Malloc} {MMOk : MallocOk}.

Lemma allocates_null n : allocates n (ret 0).
Proof. intros h _. split; [done|by left]. Qed.

Lemma allocates_fail n e : allocates n (fail e).
Proof. intros h _. by split. Qed.

(** A null block is not live, so that initialising it is undefined. *)
Lemma AllocatePOD_spec T h : 0 < struct_size T -> heap_wf h ->
  match AllocatePOD T h with
  | (Done params, h') => params = mkPointer T (address params) /\
      fresh_block h (address params) (struct_size T) /\ live h' = <[address params := struct_size T]> (live h) /\
      forall a, a < address params \/ address params + struct_size T <= a -> mem h' a = mem h a
  | (Fail _, _) => False
  | (Undef, _) => True
  end.
Proof.
  intros HT Hwf. unfold AllocatePOD, bind. pose proof (malloc_spec h (struct_size T) ltac:(lia) Hwf) as Hm.
  destruct (malloc (struct_size T) h) as [o h1]. destruct Hm as (Hwf1 & Hm & [[-> ->]|(p & -> & Hf & Hl)]).
  - unfold store. destruct (in_live_block h 0 _) eqn:Hin; [|done].
    apply in_live_block_spec in Hin as (b & m & Hb & ? & _). destruct (heap_wf_range _ Hwf _ _ Hb); lia.
  - rewrite (store_run h1 p _ p (struct_size T)) by (rewrite ?Hl, ?lookup_insert_eq, ?zlength_replicate; (done || lia)).
    cbn. split_and!; [done..|]. intros a Ha. unfold write_bytes. rewrite zlength_replicate by lia.
    rewrite <- Hm. destruct (Z.leb_spec p a), (Z.ltb_spec a (p + struct_size T)); cbn; (done || lia).
Qed.

Lemma allocates_Allocate T fill : 0 < struct_size T ->
  (forall p, respects (inside (mkPointer T p)) (fill (mkPointer T p))) -> allocates (struct_size T) (Allocate T fill).
Proof.
  intros HT Hfill h Hwf. unfold Allocate, bind. pose proof (AllocatePOD_spec T h HT Hwf) as Ha.
  destruct (AllocatePOD T h) as [[[T' p]|e|] h1]; [|done|done]. destruct Ha as ([= ->] & Hf & Hl & Hm). cbn [address] in *.
  specialize (Hfill p h1) as [Hl2 Hm2].
  assert (Hout : forall a, a < p \/ p + struct_size T <= a -> mem (snd (fill (mkPointer T p) h1)) a = mem h a).
  { intros a Ha. rewrite Hm2 by exact Ha. by apply Hm. }
  destruct (fill (mkPointer T p) h1) as [[[]|e|] h2]; cbn [snd] in *; [|..|done].
  - split; [by eapply fresh_untouched|]. right. split; [done|congruence].
  - unfold free. pose proof Hf as (Hp & _ & Hnone & _). destruct (Z.eqb_spec p 0); [lia|].
    rewrite Hl2, Hl, lookup_insert_eq. cbn.
    split; [by eapply fresh_untouched|by rewrite delete_insert_id].
Qed.

Lemma allocates_parse T fill : 0 < struct_size T ->
  (forall p, respects (inside (mkPointer T p)) (fill (mkPointer T p))) -> allocates (struct_size T) (parse T fill).
Proof.
  intros HT Hfill. apply allocates_Allocate; [done|]. intros p. apply respects_bind; [exact _|eauto with respects|done].
Qed.
End Allocates.

(** ** Every operator *)

Ltac head_of t := match t with ?f _ => head_of f | ?f => f end.

Ltac parser_allocates :=
  lazymatch goal with
  | |- allocates _ (ret 0) => apply allocates_null
  | |- allocates _ (fail _) => apply allocates_fail
  | |- allocates _ (parse ?T _) => apply (allocates_parse T); [reflexivity|intros ?; walk]
  | |- allocates _ (Allocate ?T _) => apply (allocates_Allocate T); [reflexivity|intros ?; walk]
  | |- allocates _ ?c => let f := head_of c in unfold f; parser_allocates
  end.

Section Operators.
Context {MM : Malloc} {MMOk : MallocOk}.

Lemma ParseOpDataTfLite_allocates op op_type : allocates (GetBuiltinDataSize op_type) (ParseOpDataTfLite op op_type).
Proof. destruct op_type; cbn [ParseOpDataTfLite GetBuiltinDataSize]; parser_allocates. Qed.
End Operators.

(** ** Which options are accepted *)

(** Filling the struct at [params] succeeds or fails as [b] says, and is defined. *)
Definition decides (params : pointer) (c : M heap unit) (b : bool) : Prop := forall h, owns params h ->
  exists h', owns params h' /\ c h = (if b then Done tt else Fail kTfLiteError, h').

Section Decides.
Context (params : pointer).

Lemma decides_ret : decides params (ret tt) true.
Proof. intros h Ho. by exists h. Qed.

Lemma decides_fail : decides params (fail kTfLiteError) false.
Proof. intros h Ho. by exists h. Qed.

Lemma decides_ensure b : decides params (ensure b) b.
Proof. intros h Ho. exists h. by destruct b. Qed.

Lemma decides_bind c k b b' : decides params c b -> decides params k b' ->
  decides params (c ;;; k) (b && b').
Proof.
  intros Hc Hk h Ho. unfold bind. destruct (Hc h Ho) as (h1 & Ho1 & ->).
  destruct b; [|by exists h1]. by apply Hk.
Qed.

Lemma decides_bind_none m f k :
  decides params (FlatBufferIntVectorToArray m None params f ;;; k) false.
Proof. intros h Ho. by exists h. Qed.

Lemma decides_set f v : fits (pointee params) f = true -> decides params (set params f v) true.
Proof. intros Hf h Ho. destruct (set_run params f v h Hf Ho) as (h' & ? & ?). by exists h'. Qed.

Lemma decides_for_each {A} (l : list A) body : (forall x, x ∈ l -> decides params (body x) true) ->
  decides params (for_each l body) true.
Proof.
  induction l as [|x l IH]; intros Hb; [apply decides_ret|]. rewrite for_each_cons.
  apply (decides_bind _ _ true true); [apply Hb; set_solver|]. apply IH. intros y Hy. apply Hb. set_solver.
Qed.

(** The values of the schema's types that the runtime has. *)
Definition type_ok (t : Z) : bool := (0 <=? t) && (t <=? 20).

Lemma ConvertTensorType_ok t : match ConvertTensorType t with Done _ => type_ok t | Fail _ => negb (type_ok t) | Undef => false end = true.
Proof.
  unfold type_ok. destruct (Z.leb_spec 0 t), (Z.leb_spec t 20); cbn [andb negb].
  1: { assert (Hin : t ∈ zrange 0 20) by (apply elem_of_zrange; lia). revert Hin. clear.
       intros Hin. cbn in Hin. repeat (apply elem_of_cons in Hin as [->|Hin]; [done|]). by apply elem_of_nil in Hin. }
  all: unfold ConvertTensorType; repeat (case_match; try done; try lia).
Qed.

Lemma decides_ConvertTensorType_to f t : fits (pointee params) f = true ->
  decides params (ConvertTensorType_to params f t) (type_ok t).
Proof.
  intros Hf. unfold ConvertTensorType_to. pose proof (ConvertTensorType_ok t) as Ht.
  destruct (ConvertTensorType t); [rewrite Ht; by apply decides_set| |done].
  apply negb_true_iff in Ht as ->.
  apply (decides_bind _ _ true false); [by apply decides_set|apply decides_fail].
Qed.

(** The limit is at most the array. *)
Lemma decides_FlatBufferIntVectorToArray m v f n : fits_array (pointee params) f n = true ->
  0 <= m -> m / sizeof_element params f <= n -> m <= INT32_MAX ->
  decides params (FlatBufferIntVectorToArray m (Some v) params f) (zlength v <=? m / sizeof_element params f).
Proof.
  intros Hf Hm Hn Hmax. unfold FlatBufferIntVectorToArray.
  rewrite int32_wrap_small, size_wrap_small by (unfold INT32_MIN, INT32_MAX, SIZE_MAX in *; lia).
  rewrite Z.leb_antisym. destruct (Z.ltb_spec (m / sizeof_element params f) (zlength v)); [apply decides_fail|].
  apply decides_for_each. intros [i x] (k & -> & Hk)%enumerate_elem h Ho. apply lookup_lt_Some in Hk.
  destruct (set_at_run params f n (Z.of_nat k) x h Hf ltac:(unfold zlength in *; lia) Ho) as (h' & ? & ?).
  by exists h'.
Qed.

(** The whole array may be used. *)
Lemma decides_array v f n : fits_array (pointee params) f n = true ->
  decides params (FlatBufferIntVectorToArray (sizeof_field params f) v params f)
    (match v with Some v => zlength v <=? n | None => false end).
Proof.
  intros Hf. pose proof (fits_array_spec _ _ _ Hf) as (off & t & Hft & ? & ? & ? & ?).
  assert (Hdiv : sizeof_field params f / sizeof_element params f = n).
  { unfold sizeof_field, sizeof_element. rewrite Hft. cbn [sizeof]. rewrite Z.mul_comm. apply Z.div_mul. lia. }
  destruct v as [v|]; [|apply decides_fail]. rewrite <- Hdiv.
  apply (decides_FlatBufferIntVectorToArray _ _ _ n); [done|..];
    unfold sizeof_field in *; rewrite Hft in *; cbn [sizeof] in *; [nia|lia|unfold INT32_MAX; nia].
Qed.

Definition attribute_ok (n expected : Z) (v : option (list Z)) : bool :=
  match v with
  | Some (x :: l) => negb (negb (expected =? 0) && negb (zlength (x :: l) =? expected)) && (zlength (x :: l) <=? n)
  | _ => true
  end.

Lemma decides_LoadAttr f v e x n off : fits_array (pointee params) f n = true ->
  field (pointee params) f = Some (off, c_array c_int64 n) ->
  decides params (LoadAttr params f v e x) (attribute_ok n e v).
Proof.
  intros Hf Hoff. unfold LoadAttr, attribute_ok.
  assert (Hfill : decides params (for_each (zrange 0 (sizeof_field params f / sizeof c_int64 - 1))
    (fun i => set_at params f i x)) true).
  { apply decides_for_each. intros i Hi h Ho. apply elem_of_zrange in Hi.
    unfold sizeof_field in Hi. rewrite Hoff in Hi. cbn [sizeof] in Hi. rewrite (Z.mul_comm 8), Z.div_mul in Hi by lia.
    destruct (set_at_run params f n i x h Hf ltac:(lia) Ho) as (h' & ? & ?). by exists h'. }
  destruct v as [[|y l]|]; [done| |done]. apply decides_bind; [apply decides_ensure|].
  by apply (decides_array (Some (y :: l))).
Qed.

(** The limit of these is the vector: it has to fit. *)
Lemma decides_load_unlimited f num l n : fits_array (pointee params) f n = true ->
  sizeof_element params f = 8 -> fits (pointee params) num = true -> (zlength l <=? n) = true ->
  decides params (load_unlimited params f num l) true.
Proof.
  intros Hf Hs Hn Hl%Z.leb_le. pose proof (zlength_nonneg l).
  pose proof (fits_array_spec _ _ _ Hf) as (off & t & Hft & ? & ? & ? & ?).
  unfold load_unlimited. apply (decides_bind _ _ true true); [|by apply decides_set].
  pose proof (decides_FlatBufferIntVectorToArray (zlength l * sizeof c_int64) l f n Hf) as Hd.
  rewrite Hs in Hd. cbn [sizeof] in *. rewrite Z.div_mul, Z.leb_refl in Hd by lia.
  apply Hd; unfold INT32_MAX; lia.
Qed.

Lemma decides_access {A} (a : A) k b : decides params (k a) b -> decides params (bind (access (Some a)) k) b.
Proof. done. Qed.
End Decides.

Lemma decides_eq params c b b' : decides params c b -> b = b' -> decides params c b'.
Proof. by intros ? <-. Qed.

(** The options that are accepted; where there is no table of the operator's own type, it has
    defaults, except for these. *)
Definition accepts (op_type : BuiltinOperator) (op : Operator) : bool :=
  match op_type, builtin_options op, builtin_options_2 op with
  | BuiltinOperator_ARG_MAX, ArgMaxOptions t, _ | BuiltinOperator_ARG_MIN, ArgMinOptions t, _
  | BuiltinOperator_CONV_2D, Conv2DOptions _ _ _ _ _ _ t, _
  | BuiltinOperator_TRANSPOSE_CONV, TransposeConvOptions _ _ _ _ t, _
  | BuiltinOperator_SHAPE, ShapeOptions t, _ => type_ok t
  | BuiltinOperator_CAST, CastOptions t t', _ | BuiltinOperator_HASHTABLE, HashtableOptions _ t t', _ =>
    type_ok t && type_ok t'
  | BuiltinOperator_FULLY_CONNECTED, FullyConnectedOptions _ weights_format _ _ t, _ =>
    type_ok t && match weights_format with 0 | 1 => true | _ => false end
  | BuiltinOperator_LSTM, LSTMOptions _ _ _ kernel_type _, _ => match kernel_type with 0 | 1 => true | _ => false end
  | BuiltinOperator_LSTM, _, _ => false
  | BuiltinOperator_RESHAPE, ReshapeOptions (Some l), _ | BuiltinOperator_SQUEEZE, SqueezeOptions (Some l), _ =>
    zlength l <=? 8
  | BuiltinOperator_BUCKETIZE, BucketizeOptions boundaries, _ =>
    match boundaries with Some (data, _) => negb (data =? 0) | None => false end
  | BuiltinOperator_REDUCE_WINDOW, _, ReduceWindowOptions f =>
    match f with 1 | 2 | 3 | 4 | 5 | 6 => true | _ => false end
  | BuiltinOperator_STABLEHLO_REDUCE_WINDOW, _, StablehloReduceWindowOptions d s b w p _ =>
    match d with
    | None | Some [] => false
    | Some l => forallb (attribute_ok 8 (zlength l)) [d; s; b; w] && attribute_ok 16 (size_wrap (2 * zlength l)) p
    end
  | BuiltinOperator_STABLEHLO_PAD, _, StablehloPadOptions (Some l) (Some m) (Some n) =>
    (zlength l <=? 8) && (zlength m <=? 8) && (zlength n <=? 8) && (zlength l =? zlength m) && (zlength l =? zlength n)
  | BuiltinOperator_STABLEHLO_CASE, _, StablehloCaseOptions (Some l) => zlength l <=? 20
  | BuiltinOperator_STABLEHLO_COMPOSITE, _, StableHLOCompositeOptions _ _ _ _ _ => true
  | BuiltinOperator_STABLEHLO_REDUCE_WINDOW, _, _ | BuiltinOperator_STABLEHLO_PAD, _, _
  | BuiltinOperator_STABLEHLO_CASE, _, _ | BuiltinOperator_STABLEHLO_COMPOSITE, _, _
  | BuiltinOperator_DELEGATE, _, _ | BuiltinOperator_PLACEHOLDER_FOR_GREATER_OP_CODES, _, _ => false
  | _, _, _ => true
  end.

Definition at_most_8 (v : option (list Z)) : bool := match v with Some l => zlength l <=? 8 | None => false end.

(** The options that are used without a test: the vectors of a scatter and of a gather have at most
    eight elements, and those of a gather, the name and the attributes of a composite are present. *)
Definition unchecked_ok (op_type : BuiltinOperator) (op : Operator) : bool :=
  match op_type, builtin_options_2 op with
  | BuiltinOperator_STABLEHLO_SCATTER, StablehloScatterOptions _ a b c _ _ _ =>
    forallb (fun v => match v with Some _ => at_most_8 v | None => true end) [a; b; c]
  | BuiltinOperator_STABLEHLO_GATHER, StablehloGatherOptions a b c _ d _ => forallb at_most_8 [a; b; c; d]
  | BuiltinOperator_STABLEHLO_COMPOSITE, StableHLOCompositeOptions name _ attributes _ _ =>
    match name, attributes with Some _, Some _ => true | _, _ => false end
  | _, _ => true
  end.

(** A parser that succeeds or fails as [b] says. *)
Definition parser_decides (h : heap) (c : M heap Z) (b : bool) : Prop :=
  exists p h', c h = (if b then Done p else Fail kTfLiteError, h').

(** There is memory for a struct: they have at most 512 bytes. *)
Definition enough_memory {MM : Malloc} (h : heap) : Prop :=
  forall n, 0 < n <= 512 -> malloc_place h MAX_ALIGN n <> 0.

(** Splits a call that fills a struct; the conditions on fields are evaluated. *)
Ltac decides_step :=
  lazymatch goal with
  | |- decides _ (ret tt) _ => apply decides_ret
  | |- decides _ (fail _) _ => apply decides_fail
  | |- decides _ (ensure _) _ => apply decides_ensure
  | |- decides _ (set _ _ _) _ => apply decides_set; reflexivity
  | |- decides _ (ConvertTensorType_to _ _ _) _ => apply decides_ConvertTensorType_to; reflexivity
  | |- decides ?p (FlatBufferIntVectorToArray _ _ _ ?f) _ =>
    let n := eval vm_compute in (array_length (pointee p) f) in apply (decides_array p _ f n); reflexivity
  | |- decides ?p (LoadAttr _ ?f _ _ _) _ =>
    let n := eval vm_compute in (array_length (pointee p) f) in
    eapply (decides_LoadAttr p f _ _ _ n); reflexivity
  | |- decides ?p (load_unlimited _ ?f _ _) _ =>
    let n := eval vm_compute in (array_length (pointee p) f) in
    apply (decides_load_unlimited p f _ _ n); [reflexivity..|assumption]
  | |- decides _ (bind (FlatBufferIntVectorToArray _ None _ _) _) _ => apply decides_bind_none
  | |- decides _ (bind (access (Some _)) _) _ => apply decides_access
  | |- decides _ (bind (access _) _) _ => fail
  | |- decides _ (bind _ _) _ => apply decides_bind
  end.

Section Memory.
Context {MM : Malloc} (h : heap) (Henough : enough_memory h).

Lemma parser_decides_Allocate T fill b : 0 < struct_size T <= 512 ->
  (forall p, p <> 0 -> decides (mkPointer T p) (fill (mkPointer T p)) b) -> parser_decides h (Allocate T fill) b.
Proof.
  intros HT Hfill. unfold parser_decides, Allocate, AllocatePOD, bind, malloc, aligned_alloc.
  set (p := malloc_place h MAX_ALIGN (struct_size T)). pose proof (Henough (struct_size T) HT) as Hp. fold p in Hp.
  destruct (Z.eqb_spec p 0); [done|].
  rewrite (store_run _ p _ p (struct_size T)) by (cbn; rewrite ?lookup_insert_eq, ?zlength_replicate; (done || lia)).
  set (h1 := Heap _ _). destruct (Hfill p Hp h1) as (h2 & Ho & Hrun); [apply lookup_insert_eq|]. cbn. rewrite Hrun.
  destruct b; [by exists p, h2|]. unfold owns in Ho. cbn in Ho. unfold free, fail. exists 0.
  destruct (Z.eqb_spec p 0); [done|]. rewrite Ho. eauto.
Qed.

Lemma parser_decides_parse T fill b : 0 < struct_size T <= 512 ->
  (forall p, decides (mkPointer T p) (fill (mkPointer T p)) b) -> parser_decides h (parse T fill) b.
Proof.
  intros HT Hfill. apply parser_decides_Allocate; [done|]. intros p Hp.
  apply (decides_bind _ _ _ true b); [|done]. replace true with (negb (p =? 0)); [apply decides_ensure|].
  apply negb_true_iff, Z.eqb_neq. done.
Qed.

Lemma parser_decides_null : parser_decides h (ret 0) true.
Proof. by exists 0, h. Qed.

Lemma parser_decides_fail : parser_decides h (fail kTfLiteError) false.
Proof. by exists 0, h. Qed.
End Memory.

Ltac options_of op :=
  repeat match goal with
  | |- context [match builtin_options op with _ => _ end] => destruct (builtin_options op)
  | H : context [match builtin_options_2 op with _ => _ end] |- _ => destruct (builtin_options_2 op)
  | |- context [match builtin_options_2 op with _ => _ end] => destruct (builtin_options_2 op)
  end.

Ltac parser_decides op :=
  lazymatch goal with
  | |- parser_decides _ (ret 0) _ => apply parser_decides_null
  | |- parser_decides _ (fail _) _ => apply parser_decides_fail
  | |- parser_decides _ (parse ?T _) _ => eapply parser_decides_parse; [eassumption|done|intros ?]
  | |- parser_decides _ (Allocate ?T _) _ => eapply parser_decides_Allocate; [eassumption|done|intros ? ?]
  | |- parser_decides _ ?c _ => let f := head_of c in unfold f; parser_decides op
  end.

Section Decisions.
Context {MM : Malloc} (h : heap) (Henough : enough_memory h).

(** The options that are absent, and those that are matched. *)
Ltac option_cases :=
  repeat match goal with
  | v : option _ |- _ => destruct v
  | |- context [match ?v with [] => _ | _ :: _ => _ end] => destruct v
  | |- context [match ?v with (_, _) => _ end] => destruct v
  | |- context [match ?v with 0 => _ | Z.pos _ => _ | Z.neg _ => _ end] => destruct v
  | |- context [match ?v with xI _ => _ | xO _ => _ | xH => _ end] => destruct v
  end.

Lemma ParseOpDataTfLite_decides op_type op : unchecked_ok op_type op = true ->
  parser_decides h (ParseOpDataTfLite op op_type) (accepts op_type op).
Proof.
  destruct op_type; intros Hok; cbn [ParseOpDataTfLite]; cbn [accepts]; cbn [unchecked_ok] in Hok.
  all: parser_decides op; options_of op; try apply decides_ret.
  all: try (eapply decides_eq; [repeat decides_step|]; [reflexivity]).
  all: option_cases; cbn [load_optional forallb at_most_8] in *; rewrite ?andb_true_iff in Hok; destruct_and?; try done.
  all: eapply decides_eq; [repeat decides_step|].
  all: cbn [forallb]; rewrite ?andb_true_l, ?andb_true_r, ?andb_false_r, ?andb_assoc; reflexivity.
Qed.
End Decisions.

(** ** What is used without a test *)

(** Filling the struct succeeds or fails as the answer says, or is undefined without one. *)
Definition runs (params : pointer) (c : M heap unit) (o : option bool) : Prop :=
  match o with
  | Some b => decides params c b
  | None => forall h, owns params h -> fst (c h) = Undef
  end.

Definition after (o o' : option bool) : option bool := match o with Some true => o' | _ => o end.

(** A vector longer than the array. *)
Lemma load_unlimited_overflows params f num l n h : fits_array (pointee params) f n = true ->
  n < zlength l -> zlength l * sizeof c_int64 <= INT32_MAX -> sizeof_element params f = 8 -> owns params h ->
  fst (load_unlimited params f num l h) = Undef.
Proof.
  intros Hf Hl Hmax Hs Ho. pose proof (fits_array_spec _ _ _ Hf) as (off & t & Hft & ? & ? & ? & ?).
  unfold load_unlimited, FlatBufferIntVectorToArray. pose proof (zlength_nonneg l). cbn [sizeof] in *.
  rewrite Hs, int32_wrap_small, size_wrap_small, Z.div_mul, Z.ltb_irrefl by (unfold INT32_MIN, INT32_MAX, SIZE_MAX in *; lia).
  assert (Hloop : forall v i h, owns params h -> 0 <= i <= n -> n - i < zlength v ->
    fst (for_each (imap (fun k x => (i + Z.of_nat k, x)) v) (fun ix => set_at params f (fst ix) (snd ix)) h) = Undef).
  { clear h Ho. intros v. induction v as [|x v IH]; intros i h Ho Hi Hv; [unfold zlength in Hv; cbn in Hv; lia|].
    rewrite imap_cons. cbn [for_each]. rewrite Z.add_0_r. destruct (decide (i = n)) as [->|Hne].
    - unfold bind. cbn [fst snd]. unfold set_at. rewrite Hft, Z.ltb_irrefl, andb_false_r. done.
    - destruct (set_at_run params f n i x h Hf ltac:(lia) Ho) as (h1 & Hrun & Ho1). rewrite (bind_done _ _ _ _ _ Hrun).
      rewrite zlength_cons in Hv. specialize (IH (i + 1) h1 Ho1 ltac:(lia) ltac:(lia)).
      erewrite (imap_ext _ (fun k x => (i + 1 + Z.of_nat k, x)) v); [exact IH|]. intros k y _. cbn. f_equal. lia. }
  specialize (Hloop l 0 h Ho ltac:(lia) ltac:(lia)). unfold enumerate, bind.
  change (imap (fun i x => (Z.of_nat i, x)) l) with (imap (fun k x => (0 + Z.of_nat k, x)) l).
  by destruct (for_each _ _ h) as [[]].
Qed.

Section Runs.
Context (params : pointer).

Lemma runs_bind c k o o' : runs params c o -> runs params k o' -> runs params (c ;;; k) (after o o').
Proof.
  intros Hc Hk. destruct o as [[|]|]; cbn [after].
  - destruct o' as [b|]; [by apply (decides_bind _ _ _ true b)|]. intros h Ho. destruct (Hc h Ho) as (h1 & Ho1 & Hrun).
    rewrite (bind_done _ _ _ _ _ Hrun). by apply Hk.
  - intros h Ho. destruct (Hc h Ho) as (h1 & Ho1 & Hrun). exists h1. by rewrite (bind_fail _ _ _ _ _ Hrun).
  - intros h Ho. specialize (Hc h Ho). unfold bind. by destruct (c h) as [[]].
Qed.

Lemma runs_null {A} (k : A -> M heap unit) : runs params (bind (access None) k) None.
Proof. by intros h Ho. Qed.
Lemma runs_access {A} (a : A) k o : runs params (k a) o -> runs params (bind (access (Some a)) k) o.
Proof. done. Qed.
Lemma runs_set f v : fits (pointee params) f = true -> runs params (set params f v) (Some true).
Proof. apply decides_set. Qed.

Definition short (n : Z) (l : list Z) : option bool := if zlength l <=? n then Some true else None.

(** The vectors of a table are in a buffer of less than 2 GB. *)
Definition in_buffer (l : list Z) : Prop := zlength l * sizeof c_int64 <= INT32_MAX.

Lemma runs_load_unlimited f num l n : fits_array (pointee params) f n = true -> sizeof_element params f = 8 ->
  fits (pointee params) num = true -> in_buffer l -> runs params (load_unlimited params f num l) (short n l).
Proof.
  intros Hf Hs Hn Hl. unfold short. destruct (Z.leb_spec (zlength l) n).
  - apply (decides_load_unlimited params f num l n); [done..|]. by apply Z.leb_le.
  - intros h Ho. by apply (load_unlimited_overflows params f num l n).
Qed.

Lemma runs_load_optional f num v n : fits_array (pointee params) f n = true -> sizeof_element params f = 8 ->
  fits (pointee params) num = true -> match v with Some l => in_buffer l | None => True end ->
  runs params (load_optional params f num v) (match v with Some l => short n l | None => Some true end).
Proof. intros. destruct v; [by apply runs_load_unlimited|apply decides_ret]. Qed.
End Runs.

(** Filling a struct that is live is undefined. *)
Lemma Allocate_undefined {MM : Malloc} T fill h : 0 < struct_size T <= 512 -> enough_memory h ->
  (forall p h', p <> 0 -> owns (mkPointer T p) h' -> fst (fill (mkPointer T p) h') = Undef) ->
  fst (Allocate T fill h) = Undef.
Proof.
  intros HT Henough Hfill. unfold Allocate, AllocatePOD, bind, malloc, aligned_alloc.
  set (p := malloc_place h MAX_ALIGN (struct_size T)). pose proof (Henough (struct_size T) HT) as Hp. fold p in Hp.
  destruct (Z.eqb_spec p 0); [done|].
  rewrite (store_run _ p _ p (struct_size T)) by (cbn; rewrite ?lookup_insert_eq, ?zlength_replicate; (done || lia)).
  set (h1 := Heap _ _). cbn [ret address].
  specialize (Hfill p h1 Hp ltac:(apply lookup_insert_eq)). by destruct (fill (mkPointer T p) h1) as [[]].
Qed.

Lemma parse_undefined {MM : Malloc} T fill h : 0 < struct_size T <= 512 -> enough_memory h ->
  (forall p h', p <> 0 -> owns (mkPointer T p) h' -> fst (fill (mkPointer T p) h') = Undef) ->
  fst (parse T fill h) = Undef.
Proof.
  intros HT Henough Hfill. apply Allocate_undefined; [done..|]. intros p h' Hp Ho. cbn [address].
  rewrite (proj2 (Z.eqb_neq p 0)) by done. by apply Hfill.
Qed.

(** The vectors that are used without a test are in a buffer. *)
Definition vectors_in_buffer (op : Operator) : Prop :=
  match builtin_options_2 op with
  | StablehloScatterOptions _ a b c _ _ _ => Forall (fun v => match v with Some l => in_buffer l | None => True end) [a; b; c]
  | StablehloGatherOptions a b c _ d _ => Forall (fun v => match v with Some l => in_buffer l | None => True end) [a; b; c; d]
  | _ => True
  end.

Lemma runs_undefined params c o : runs params c o -> o = None -> forall h, owns params h -> fst (c h) = Undef.
Proof. intros Hc ->. exact Hc. Qed.

Ltac runs_step :=
  lazymatch goal with
  | |- runs _ (set _ _ _) _ => apply runs_set; reflexivity
  | |- runs _ (load_unlimited _ _ _ _) _ => apply (runs_load_unlimited _ _ _ _ 8); [reflexivity..|assumption]
  | |- runs _ (load_optional _ _ _ _) _ => apply (runs_load_optional _ _ _ _ 8); [reflexivity..|assumption]
  | |- runs _ (bind (access (Some _)) _) _ => apply runs_access
  | |- runs _ (bind (access None) _) _ => apply runs_null
  | |- runs _ (bind _ _) _ => eapply runs_bind
  end.

(** Without the vectors, names and attributes that are not tested for, or with vectors that are too
    long, parsing is undefined. *)
Lemma ParseOpDataTfLite_undefined {MM : Malloc} op_type op h : enough_memory h -> vectors_in_buffer op ->
  unchecked_ok op_type op = false -> fst (ParseOpDataTfLite op op_type h) = Undef.
Proof.
  intros Henough Hbuf Hok. destruct op_type; try discriminate Hok; cbn [ParseOpDataTfLite unchecked_ok] in *;
    unfold vectors_in_buffer in Hbuf; unfold ParseStablehloScatter, ParseStablehloGather, ParseStablehloComposite.
  all: first [apply parse_undefined; [done..|]|apply Allocate_undefined; [done..|]]; intros p h' _ Ho.
  all: destruct (builtin_options_2 op) eqn:Hop; try discriminate Hok; rewrite ?Forall_cons in Hbuf; destruct_and?.
  all: revert h' Ho; repeat match goal with v : option _ |- _ => destruct v end; try discriminate Hok.
  all: eapply runs_undefined; [repeat runs_step|].
  all: cbn [forallb at_most_8] in Hok; unfold short; repeat match goal with |- context [zlength ?l <=? 8] => destruct (zlength l <=? 8) end;
    first [reflexivity | discriminate Hok].
Qed.

(** ** What a kernel reads *)

(** A field, or an element of an array, with its offset and size. *)
Definition slot := (string * option Z)%type.

Definition slot_range (T : struct) (s : slot) : option (Z * Z) :=
  match snd s, field T (fst s) with
  | None, Some (off, t) => Some (off, sizeof t)
  | Some i, Some (off, c_array t n) => if (0 <=? i) && (i <? n) then Some (off + sizeof t * i, sizeof t) else None
  | _, _ => None
  end.

(** The bytes of the slot are those of the value. *)
Definition holds_slot (params : pointer) (h : heap) (sv : slot * Z) : Prop :=
  exists off n, slot_range (pointee params) (fst sv) = Some (off, n) /\ 0 <= n /\
    read_bytes (mem h) (address params + off) n = le_bytes n (snd sv).

Definition holds (params : pointer) (h : heap) (l : list (slot * Z)) : Prop := Forall (holds_slot params h) l.

Definition apart (T : struct) (s s' : slot) : Prop := forall off n off' n',
  slot_range T s = Some (off, n) -> slot_range T s' = Some (off', n') -> off + n <= off' \/ off' + n' <= off.

Definition all_apart (T : struct) (l l' : list (slot * Z)) : Prop :=
  Forall (fun sv => Forall (fun sv' => apart T (fst sv) (fst sv')) l') l.

(** A call that fills these slots, and no other. *)
Definition writes (params : pointer) (c : M heap unit) (l : list (slot * Z)) : Prop :=
  forall h l0, all_apart (pointee params) l0 l -> holds params h l0 ->
    match c h with (Done _, h') => holds params h' (l0 ++ l) | _ => True end.

Lemma le_bytes_succ n v : 0 <= n -> le_bytes (n + 1) v = Z.land v 255 :: le_bytes n (Z.shiftr v 8).
Proof.
  intros Hn. unfold le_bytes. rewrite (zrange_cons 0) by lia. cbn [fmap list_fmap]. f_equal.
  apply list_eq. intros k. rewrite !list_lookup_fmap. destruct (decide (k < Z.to_nat n)%nat).
  - rewrite !zrange_lookup by lia. cbn. f_equal. f_equal. rewrite Z.shiftr_shiftr by lia. f_equal. lia.
  - rewrite !lookup_ge_None_2 by (rewrite length_zrange; lia). done.
Qed.

(** An integer of [n] bytes is read back modulo its width. *)
Lemma le_value_le_bytes n v : 0 <= n -> le_value (le_bytes n v) = v mod 2 ^ (8 * n).
Proof.
  intros Hn. revert v. pattern n. apply natlike_ind; [intros v; cbn; by rewrite Z.mod_1_r| |done].
  clear n Hn. intros n Hn IH v. rewrite <- Z.add_1_r, le_bytes_succ by done. cbn [le_value]. rewrite IH.
  change 255 with (Z.ones 8). rewrite Z.land_ones, Z.shiftr_div_pow2 by lia.
  replace (2 ^ (8 * (n + 1))) with (2 ^ 8 * 2 ^ (8 * n)) by (rewrite <- Z.pow_add_r by lia; f_equal; lia).
  rewrite Z.rem_mul_r by lia. done.
Qed.

Section Writes.
Context (params : pointer).

Lemma writes_ret : writes params (ret tt) [].
Proof. intros h l0 _ Hh. cbn. by rewrite app_nil_r. Qed.

Lemma writes_fail e : writes params (fail e) [].
Proof. by intros h l0 _ Hh. Qed.

Lemma all_apart_app T l l1 l2 : all_apart T l (l1 ++ l2) <-> all_apart T l l1 /\ all_apart T l l2.
Proof. unfold all_apart. rewrite <- Forall_and. apply Forall_iff. intros x. apply Forall_app. Qed.

Lemma writes_bind c k l l' : writes params c l -> writes params k l' -> all_apart (pointee params) l l' ->
  writes params (c ;;; k) (l ++ l').
Proof.
  intros Hc Hk Hap h l0 [H1 H2]%all_apart_app Hh. unfold bind. specialize (Hc h l0 H1 Hh).
  destruct (c h) as [[[]|e|] h1]; [|done..]. rewrite app_assoc. apply Hk; [|done].
  unfold all_apart in *. by rewrite Forall_app.
Qed.

(** A store of a slot. *)
Lemma store_writes s off n v h l0 : slot_range (pointee params) s = Some (off, n) -> 0 <= n ->
  all_apart (pointee params) l0 [(s, v)] -> holds params h l0 ->
  match store (address params + off) (le_bytes n v) h with
  | (Done _, h') => holds params h' (l0 ++ [(s, v)])
  | _ => True
  end.
Proof.
  intros Hs Hn Hap Hh. unfold store. destruct (in_live_block _ _ _); [|done].
  apply Forall_app. split; [|constructor; [|done]].
  - unfold holds, all_apart in *. rewrite Forall_forall in *. intros [s' v'] Hin.
    destruct (Hh _ Hin) as (off' & n' & Hs' & Hn' & Hr). exists off', n'. split_and!; [done..|]. cbn [fst snd] in *. rewrite <- Hr.
    apply read_bytes_ext. intros a Ha. cbn. unfold write_bytes. rewrite zlength_le_bytes by done.
    specialize (Hap _ Hin). rewrite Forall_singleton in Hap. specialize (Hap _ _ _ _ Hs' Hs).
    destruct (Z.leb_spec (address params + off) a), (Z.ltb_spec a (address params + off + n)); cbn; (done || lia).
  - exists off, n. split_and!; [done..|]. cbn. rewrite <- (zlength_le_bytes n v) at 2 by done.
    pose proof (write_bytes_append (mem h) (address params + off) [] (le_bytes n v) eq_refl) as Hw.
    cbn in Hw. by rewrite Z.add_0_r in Hw.
Qed.

Lemma writes_set f v : fits (pointee params) f = true -> writes params (set params f v) [((f, None), v)].
Proof.
  intros (off & t & Hf & ? & ? & ?)%fits_spec h l0 Hap Hh. unfold set. rewrite Hf.
  apply store_writes; [unfold slot_range; cbn [fst snd]; by rewrite Hf|done..].
Qed.

Lemma writes_set_at f n i v : fits_array (pointee params) f n = true ->
  writes params (set_at params f i v) [((f, Some i), v)].
Proof.
  intros (off & t & Hf & ? & ? & ? & ?)%fits_array_spec h l0 Hap Hh. unfold set_at. rewrite Hf.
  destruct ((0 <=? i) && (i <? n)) eqn:Hi; [|done]. rewrite <- Z.add_assoc.
  apply store_writes; [unfold slot_range; cbn [fst snd]; by rewrite Hf, Hi|lia|done..].
Qed.

(** The elements of a vector, from the first of index [i]. *)
Definition elements (f : string) (i : Z) (v : list Z) : list (slot * Z) :=
  imap (fun k x => ((f, Some (i + Z.of_nat k)), x)) v.

Lemma writes_elements f n v : fits_array (pointee params) f n = true -> forall i,
  writes params (for_each (imap (fun k x => (i + Z.of_nat k, x)) v) (fun ix => set_at params f (fst ix) (snd ix)))
    (elements f i v).
Proof.
  intros Hf. induction v as [|x v IH]; intros i; [apply writes_ret|]. unfold elements. rewrite !imap_cons. cbn [for_each].
  rewrite Z.add_0_r. apply (writes_bind _ _ [((f, Some i), x)]); [by apply (writes_set_at _ n)| |].
  - pose proof (IH (i + 1)) as IH1. unfold elements in IH1.
    erewrite (imap_ext _ (fun k x => (i + 1 + Z.of_nat k, x)) v), (imap_ext _ (fun k x => ((f, Some (i + 1 + Z.of_nat k)), x)) v);
      [exact IH1|intros k y _; cbn; do 3 f_equal; lia|intros k y _; cbn; f_equal; lia].
  - apply Forall_singleton, Forall_forall. intros [s y] Hin. apply elem_of_lookup_imap in Hin as (k & z & [= -> <-] & _).
    intros off n1 off' n2. cbn [fst]. unfold slot_range. cbn [fst snd].
    apply fits_array_spec in Hf as (o & t & -> & ? & ? & ? & ?).
    destruct (_ && _); [|done]. destruct ((0 <=? _) && _); [|done]. intros [= <- <-] [= <- <-]. nia.
Qed.

Lemma writes_FlatBufferIntVectorToArray m f n v : fits_array (pointee params) f n = true ->
  writes params (FlatBufferIntVectorToArray m (Some v) params f) (elements f 0 v).
Proof.
  intros Hf. unfold FlatBufferIntVectorToArray. destruct (_ <? _); [by intros h l0 _ _|].
  by apply (writes_elements f n v Hf 0).
Qed.

Lemma writes_ConvertTensorType_to f t : fits (pointee params) f = true ->
  writes params (ConvertTensorType_to params f t)
    [((f, None), match ConvertTensorType t with Done ty => enum ty | _ => 0 end)].
Proof.
  intros Hf. unfold ConvertTensorType_to. destruct (ConvertTensorType t) as [ty|e|]; [by apply writes_set|..];
    intros h l0 _ _; unfold bind; by destruct (set params f _ h) as [[]].
Qed.
End Writes.

(** Slots of a struct at hand, decided by evaluation. *)
Definition apart_b (T : struct) (s s' : slot) : bool :=
  match slot_range T s, slot_range T s' with
  | Some (off, n), Some (off', n') => (off + n <=? off') || (off' + n' <=? off)
  | _, _ => true
  end.

Lemma apart_b_spec T s s' : apart_b T s s' = true -> apart T s s'.
Proof.
  unfold apart_b, apart. intros Hb off n off' n' Hs Hs'. rewrite Hs, Hs' in Hb.
  by rewrite orb_true_iff, !Z.leb_le in Hb.
Qed.

Lemma all_apart_b T l l' : forallb (fun sv => forallb (fun sv' => apart_b T (fst sv) (fst sv')) l') l = true ->
  all_apart T l l'.
Proof.
  intros Hb. apply Forall_forall. intros sv Hin. rewrite forallb_forall in Hb. apply list_elem_of_In in Hin.
  specialize (Hb _ Hin). rewrite forallb_forall in Hb. apply Forall_forall. intros sv' Hin'.
  apply apart_b_spec, Hb, list_elem_of_In, Hin'.
Qed.

(** The elements of an array are apart from what the array is apart from. *)
Lemma elements_apart T f n i v g w : fits_array T f n = true -> apart T (f, None) (g, None) ->
  all_apart T (elements f i v) [((g, None), w)].
Proof.
  intros Hf Hap. apply Forall_forall. intros [s y] Hin. apply elem_of_lookup_imap in Hin as (k & z & [= -> <-] & _).
  apply Forall_singleton. intros off n1 off' n2. cbn [fst]. unfold apart, slot_range in *. cbn [fst snd] in *.
  apply fits_array_spec in Hf as (o & t & Hft & ? & ? & ? & ?). rewrite Hft in *.
  destruct (Z.leb_spec 0 (i + Z.of_nat k)), (Z.ltb_spec (i + Z.of_nat k) n); cbn [andb]; try done.
  intros [= <- <-] Hg. specialize (Hap _ _ _ _ eq_refl Hg). cbn [sizeof] in Hap. nia.
Qed.

Lemma writes_eq params c l l' : writes params c l -> l = l' -> writes params c l'.
Proof. by intros ? <-. Qed.

Lemma Allocate_holds {MM : Malloc} T fill l : (forall p, writes (mkPointer T p) (fill (mkPointer T p)) l) ->
  forall h, match Allocate T fill h with (Done p, h') => holds (mkPointer T p) h' l | _ => True end.
Proof.
  intros Hw h. unfold Allocate, AllocatePOD, bind. destruct (malloc (struct_size T) h) as [[p|e|] h1]; [|done..].
  destruct (store p _ h1) as [[u|e|] h2]; [|done..]. cbn [ret address].
  specialize (Hw p h2 [] ltac:(constructor) ltac:(constructor)).
  destruct (fill (mkPointer T p) h2) as [[[]|e|] h3]; [done| |done]. cbn. by destruct (free p h3) as [[]].
Qed.

Lemma parse_holds {MM : Malloc} T fill l : (forall p, writes (mkPointer T p) (fill (mkPointer T p)) l) ->
  forall h, match parse T fill h with (Done p, h') => holds (mkPointer T p) h' l | _ => True end.
Proof.
  intros Hw. apply Allocate_holds. intros p h l0 Hap Hh. unfold bind, ensure. cbn [address].
  destruct (negb (p =? 0)); [|done]. by apply Hw.
Qed.

(** The struct and the fields a kernel reads, for the operators that image and audio classifiers
    are made of. *)
Definition runtime_type (t : Z) : Z := match ConvertTensorType t with Done ty => enum ty | _ => 0 end.

Definition fields_of (op_type : BuiltinOperator) (op : Operator) : option (struct * list (slot * Z)) :=
  match op_type, builtin_options op with
  | BuiltinOperator_CONV_2D, Conv2DOptions padding stride_w stride_h activation dilation_w dilation_h bias_type =>
    Some (TfLiteConvParams, [
      (("padding", None), enum (ConvertPadding padding)); (("stride_width", None), stride_w);
      (("stride_height", None), stride_h); (("activation", None), enum (ConvertActivation activation));
      (("dilation_width_factor", None), dilation_w); (("dilation_height_factor", None), dilation_h);
      (("quantized_bias_type", None), runtime_type bias_type)])
  | BuiltinOperator_DEPTHWISE_CONV_2D, DepthwiseConv2DOptions padding stride_w stride_h depth_multiplier activation
      dilation_w dilation_h =>
    Some (TfLiteDepthwiseConvParams, [
      (("padding", None), enum (ConvertPadding padding)); (("stride_width", None), stride_w);
      (("stride_height", None), stride_h); (("depth_multiplier", None), depth_multiplier);
      (("activation", None), enum (ConvertActivation activation));
      (("dilation_width_factor", None), dilation_w); (("dilation_height_factor", None), dilation_h)])
  | (BuiltinOperator_AVERAGE_POOL_2D | BuiltinOperator_MAX_POOL_2D | BuiltinOperator_L2_POOL_2D),
      Pool2DOptions padding stride_w stride_h filter_width filter_height activation =>
    Some (TfLitePoolParams, [
      (("padding", None), enum (ConvertPadding padding)); (("stride_width", None), stride_w);
      (("stride_height", None), stride_h); (("filter_width", None), filter_width);
      (("filter_height", None), filter_height); (("activation", None), enum (ConvertActivation activation))])
  | BuiltinOperator_ADD, AddOptions activation pot_scale_int16 =>
    Some (TfLiteAddParams, [
      (("activation", None), enum (ConvertActivation activation)); (("pot_scale_int16", None), enum pot_scale_int16)])
  | BuiltinOperator_MUL, MulOptions activation =>
    Some (TfLiteMulParams, [(("activation", None), enum (ConvertActivation activation))])
  | BuiltinOperator_CONCATENATION, ConcatenationOptions axis activation =>
    Some (TfLiteConcatenationParams, [
      (("activation", None), enum (ConvertActivation activation)); (("axis", None), axis)])
  | BuiltinOperator_MEAN, ReducerOptions keep_dims => Some (TfLiteReducerParams, [(("keep_dims", None), enum keep_dims)])
  | BuiltinOperator_SOFTMAX, SoftmaxOptions beta => Some (TfLiteSoftmaxParams, [(("beta", None), beta)])
  | BuiltinOperator_RESHAPE, ReshapeOptions (Some new_shape) =>
    Some (TfLiteReshapeParams, elements "shape" 0 new_shape ++ [(("num_dimensions", None), zlength new_shape)])
  | BuiltinOperator_SQUEEZE, SqueezeOptions (Some squeeze_dims) =>
    Some (TfLiteSqueezeParams, elements "squeeze_dims" 0 squeeze_dims ++ [(("num_squeeze_dims", None), zlength squeeze_dims)])
  | _, _ => None
  end.

Ltac writes_step :=
  lazymatch goal with
  | |- writes _ (ret tt) _ => apply writes_ret
  | |- writes _ (set _ _ _) _ => apply writes_set; reflexivity
  | |- writes _ (ConvertTensorType_to _ _ _) _ => apply writes_ConvertTensorType_to; reflexivity
  | |- writes ?p (FlatBufferIntVectorToArray _ _ _ ?f) _ =>
    let n := eval vm_compute in (array_length (pointee p) f) in
    apply (writes_FlatBufferIntVectorToArray p _ f n); reflexivity
  | |- writes _ (bind _ _) _ => eapply writes_bind
  | |- all_apart _ (elements ?f _ _) _ =>
    eapply elements_apart with (n := 8); [reflexivity|apply apart_b_spec; reflexivity]
  | |- all_apart _ _ _ => apply all_apart_b; vm_compute; reflexivity
  end.

Lemma ParseOpDataTfLite_holds {MM : Malloc} op_type op T l : fields_of op_type op = Some (T, l) -> forall h,
  match ParseOpDataTfLite op op_type h with (Done p, h') => holds (mkPointer T p) h' l | _ => True end.
Proof.
  destruct op_type; try done; cbn [fields_of ParseOpDataTfLite];
    destruct (builtin_options op) eqn:Ho; try done; repeat case_match; try done; intros [= <- <-];
    match goal with |- forall h, match ?c h with _ => _ end => let f := head_of c in unfold f end;
    apply parse_holds; intros p; rewrite Ho; (eapply writes_eq; [repeat writes_step|]); reflexivity.
Qed.

(** ** Properties *)

Section Properties.
Context {MM : Malloc} {MMOk : MallocOk}.

(** C33. Parsing the options of any operator writes no memory that was in use.  When it fails, nothing is
    allocated any more; when it succeeds, it returns null and has allocated nothing, or it returns
    one new block, of exactly the bytes that [GetBuiltinDataSize] states for the operator.  Where
    there is memory for the struct it is undefined at most for the options that the code uses without
    a test ([unchecked_ok]): a scatter or a gather with a vector of more than eight elements, a gather
    without one of its vectors, a composite without a name or attributes.  In particular no vector of
    any other operator is stored past the end of its array. *)
Theorem ParseOpData_memory op code h : heap_wf h ->
  match ParseOpData op code h with
  | (Done p, h') => untouched h h' /\
      ((p = 0 /\ live h' = live h) \/
       exists op_type, BuiltinOperator_of code = Some op_type /\ fresh_block h p (GetBuiltinDataSize op_type) /\
         live h' = <[p := GetBuiltinDataSize op_type]> (live h))
  | (Fail e, h') => untouched h h' /\ live h' = live h
  | (Undef, _) => enough_memory h ->
      exists op_type, BuiltinOperator_of code = Some op_type /\ unchecked_ok op_type op = false
  end.
Proof.
  intros Hwf. unfold ParseOpData. destruct (BuiltinOperator_of code) as [op_type|]; [|by split].
  pose proof (ParseOpDataTfLite_allocates op op_type h Hwf) as Ha.
  pose proof (fun H => ParseOpDataTfLite_decides h H op_type op) as Hd.
  destruct (ParseOpDataTfLite op op_type h) as [[p|e|] h'] eqn:Hrun; [|done|].
  - destruct Ha as [Hu [Hp|[Hf Hl]]]; [by split; [|left]|]. split; [done|right]. by exists op_type.
  - intros Henough. exists op_type. split; [done|]. destruct (unchecked_ok op_type op); [|done].
    destruct (Hd Henough eq_refl) as (p & h1 & Hp). rewrite Hrun in Hp. by destruct (accepts op_type op).
Qed.

(** C34. Where there is memory, parsing the options of an operator with a code of the schema
    succeeds exactly when the options are accepted: an unknown tensor type, an unknown
    enumerator without a default, a vector longer than the array it is stored in and the absence of
    mandatory options fail with [kTfLiteError].  The options that are not tested are the exception: a
    scatter or a gather with a vector of more than eight elements (and of less than 2^31 bytes, as
    those of a buffer are), a gather without one of its vectors and a composite without a name or
    attributes are undefined behaviour. *)
Theorem ParseOpData_accepts op code op_type h : BuiltinOperator_of code = Some op_type -> enough_memory h ->
  (unchecked_ok op_type op = true ->
   exists p h', ParseOpData op code h = (if accepts op_type op then Done p else Fail kTfLiteError, h')) /\
  (unchecked_ok op_type op = false -> vectors_in_buffer op -> fst (ParseOpData op code h) = Undef).
Proof.
  intros Hcode Henough. unfold ParseOpData. rewrite Hcode. split; [by apply ParseOpDataTfLite_decides|].
  intros Hok Hbuf. by apply ParseOpDataTfLite_undefined.
Qed.

(** C35. The kernel of a convolution, a pooling, an addition, a multiplication, a concatenation, a mean, a
    softmax, a reshape or a squeeze reads from the struct that was parsed what the table of options
    says: every field, and every element of a shape, holds the value of the table, converted to the
    runtime's enumerators, modulo the width of the field. *)
Theorem ParseOpData_reads_back op code op_type T l h p h' : BuiltinOperator_of code = Some op_type ->
  fields_of op_type op = Some (T, l) -> ParseOpData op code h = (Done p, h') ->
  Forall (fun sv => exists off n, slot_range T (fst sv) = Some (off, n) /\
    le_value (read_bytes (mem h') (p + off) n) = snd sv mod 2 ^ (8 * n)) l.
Proof.
  intros Hcode Hl. unfold ParseOpData. rewrite Hcode. intros Hrun.
  pose proof (ParseOpDataTfLite_holds _ _ _ _ Hl h) as Hh. rewrite Hrun in Hh.
  eapply Forall_impl; [exact Hh|]. intros sv (off & n & Hs & Hn & Hr). exists off, n. split; [done|].
  cbn [address] in Hr. by rewrite Hr, le_value_le_bytes.
Qed.
End Properties.

(** The vectors of a scatter are copied into arrays of eight elements with no limit but their own
    length: parsing a scatter whose first vector has more than eight elements stores past the
    array. *)
Theorem ParseStablehloScatter_overflows {MM : Malloc} op h sorted dims inserted scatter index unique subgraph :
  builtin_options_2 op = StablehloScatterOptions sorted (Some dims) inserted scatter index unique subgraph ->
  8 < zlength dims -> zlength dims * sizeof c_int64 <= INT32_MAX -> enough_memory h ->
  fst (ParseStablehloScatter op h) = Undef.
Proof.
  intros Hop Hl Hmax Henough. unfold ParseStablehloScatter. apply parse_undefined; [done..|].
  intros p h1 Hp Ho. rewrite Hop.
  destruct (set_run (mkPointer TfLiteStablehloScatterParams p) "indices_are_sorted" (enum sorted) h1 eq_refl Ho)
    as (h2 & Hrun & Ho2).
  rewrite (bind_done _ _ _ _ _ Hrun). unfold bind at 1. cbn [load_optional].
  pose proof (load_unlimited_overflows (mkPointer TfLiteStablehloScatterParams p) "update_window_dims"
    "num_update_window_dims" dims 8 h2 eq_refl Hl Hmax eq_refl Ho2) as Hu.
  by destruct (load_unlimited _ _ _ dims h2) as [[]].
Qed.

(** ** The properties at concrete operators *)

#[local] Instance x_bump : Malloc := bump_place.
#[local] Instance x_bump_ok : MallocOk := bump_place_ok.

Definition x_operator (o : BuiltinOptions) (o2 : BuiltinOptions2) : Operator :=
  mkModelOperator 0 (Some [0]) (Some [1]) None o o2 None 0 0.

(** A heap with one live block. *)
Definition x_heap : heap := Heap {[64 := 16]} (fun a => a).

Lemma x_heap_wf : heap_wf x_heap.
Proof. split; cbn; intros; repeat (simplify_map_eq || lia). Qed.

Lemma x_heap_enough : enough_memory x_heap.
Proof.
  intros n Hn. unfold malloc_place, x_bump, bump_place.
  change ((heap_top x_heap + MAX_ALIGN - 1) / MAX_ALIGN * MAX_ALIGN) with 80.
  destruct (Z.leb_spec (80 + n) (2 ^ 64)); lia.
Qed.

Definition x_convolution : Operator := x_operator (Conv2DOptions 0 2 3 1 1 1 0) OtherOptions2.
Definition x_reshape (n : nat) : Operator := x_operator (ReshapeOptions (Some (replicate n (-1)))) OtherOptions2.
Definition x_scatter : Operator :=
  x_operator OtherOptions (StablehloScatterOptions false (Some (replicate 9 0)) None None 0 false 0).

Example ex_convolution : fst (ParseOpData x_convolution 3 x_heap) = Done 80 /\
  read_bytes (mem (snd (ParseOpData x_convolution 3 x_heap))) 80 28 =
    [1; 0; 0; 0; 2; 0; 0; 0; 3; 0; 0; 0; 1; 0; 0; 0; 1; 0; 0; 0; 1; 0; 0; 0; 1; 0; 0; 0].
Proof. vm_compute. by split. Qed.

Example ex_reshape : fst (ParseOpData (x_reshape 8) 22 x_heap) = Done 80 /\
  fst (ParseOpData (x_reshape 9) 22 x_heap) = Fail kTfLiteError.
Proof. vm_compute. by split. Qed.

Lemma ParseOpData_memory_witness : heap_wf x_heap /\
  match ParseOpData x_convolution 3 x_heap with
  | (Done p, h') => untouched x_heap h' /\
      ((p = 0 /\ live h' = live x_heap) \/
       exists op_type, BuiltinOperator_of 3 = Some op_type /\ fresh_block x_heap p (GetBuiltinDataSize op_type) /\
         live h' = <[p := GetBuiltinDataSize op_type]> (live x_heap))
  | (Fail e, h') => untouched x_heap h' /\ live h' = live x_heap
  | (Undef, _) => enough_memory x_heap ->
      exists op_type, BuiltinOperator_of 3 = Some op_type /\ unchecked_ok op_type x_convolution = false
  end.
Proof. split; [exact x_heap_wf|]. exact (ParseOpData_memory x_convolution 3 x_heap x_heap_wf). Defined.

Lemma ParseOpData_accepts_witness :
  (exists p h', ParseOpData (x_reshape 9) 22 x_heap =
    (if accepts BuiltinOperator_RESHAPE (x_reshape 9) then Done p else Fail kTfLiteError, h')) /\
  fst (ParseOpData x_scatter 190 x_heap) = Undef.
Proof.
  split.
  - refine (proj1 (ParseOpData_accepts (x_reshape 9) 22 BuiltinOperator_RESHAPE x_heap _ x_heap_enough) _); reflexivity.
  - refine (proj2 (ParseOpData_accepts x_scatter 190 BuiltinOperator_STABLEHLO_SCATTER x_heap _ x_heap_enough) _ _);
      [reflexivity|reflexivity|]. repeat constructor. unfold in_buffer. by vm_compute.
Defined.

Lemma ParseOpData_reads_back_witness : Forall (fun sv => exists off n,
    slot_range TfLiteReshapeParams (fst sv) = Some (off, n) /\
    le_value (read_bytes (mem (snd (ParseOpData (x_reshape 2) 22 x_heap))) (80 + off) n) = snd sv mod 2 ^ (8 * n))
  (elements "shape" 0 [-1; -1] ++ [(("num_dimensions"%string, None), 2)]).
Proof.
  refine (ParseOpData_reads_back (x_reshape 2) 22 BuiltinOperator_RESHAPE TfLiteReshapeParams _ x_heap 80 _ _ _ _);
    reflexivity.
Defined.

Lemma ParseStablehloScatter_overflows_witness : fst (ParseStablehloScatter x_scatter x_heap) = Undef.
Proof.
  refine (ParseStablehloScatter_overflows x_scatter x_heap false (replicate 9 0) None None 0 false 0 _ _ _ x_heap_enough);
    [reflexivity|reflexivity|vm_compute; discriminate].
Defined.
