(* ===== verification/Interpreter.v ===== *)
(** * The interpreter (tensorflow/lite/core/interpreter.{h,cc}, interpreter_experimental.cc,
    signature_runner.{h,cc})

    An interpreter owns the subgraphs of a model, the first of which is the primary one, and
    forwards most of its interface to it; it applies delegates to all of them and takes them
    back, keeps the external contexts and the cancellation flag they share, and hands out the
    runners of the model's signatures. *)
From Stdlib Require Import String.
From stdpp Require Import strings.
From S2P Require Import Prelude Heap Common Util MemoryPlanner Callbacks StdMap MetadataUtil.
From S2P Require Import Subgraph SubgraphRun.
From S2P Require SubgraphDelegate SubgraphInline.
#[local] Open Scope Z_scope.

(** ** Data *)

(** [internal::SignatureDef]. *)
Record SignatureDef := mkSignatureDef {
  sd_inputs : StdMap Z; sd_outputs : StdMap Z; signature_key : string; subgraph_index : Z }.

(** A subgraph with the fields that only the interpreter and the delegates look at: its name, and
    those of its context. *)
Record ModelSubgraph (P : Type) := mkModelSubgraph {
  sub_graph : Subgraph P; sub_name : string; recommended_num_threads : Z; allow_fp32_relax_to_fp16 : bool }.
Arguments mkModelSubgraph {P}.
Arguments sub_graph {P}.
Arguments sub_name {P}.
Arguments recommended_num_threads {P}.
Arguments allow_fp32_relax_to_fp16 {P}.

(** [SignatureRunner]: the signature it points to, and the index of the subgraph. *)
Record SignatureRunner := mkSignatureRunner {
  signature_def_ : SignatureDef; subgraph_ : Z;
  input_names_ : list string; output_names_ : list string;
  subgraph_input_names_ : list (option string); subgraph_output_names_ : list (option string);
  runner_allow_buffer_handle_output_ : bool }.

(** [lazy_delegate_providers_] are the addresses of functions, delegates and external contexts
    the addresses of objects, null being 0. *)
Record Interpreter (P : Type) := mkInterpreter {
  subgraphs_ : list (ModelSubgraph P);
  external_contexts_ : list Z; own_external_cpu_backend_context_ : Z;
  owned_delegates_ : list Z; lazy_delegate_providers_ : list Z;
  allow_buffer_handle_output_ : bool;
  signature_defs_ : list SignatureDef; placeholder_signature_def_ : option SignatureDef;
  signature_runner_map_ : StdMap SignatureRunner;
  metadata_ : StdMap bytes; model_control_dependencies_ : ModelControlDependencies;
  interpreter_options_ : option InterpreterOptions;
  flag_ : bool; cancellation_enabled_ : bool }.
Arguments mkInterpreter {P}.
Arguments subgraphs_ {P}.
Arguments external_contexts_ {P}.
Arguments own_external_cpu_backend_context_ {P}.
Arguments owned_delegates_ {P}.
Arguments lazy_delegate_providers_ {P}.
Arguments allow_buffer_handle_output_ {P}.
Arguments signature_defs_ {P}.
Arguments placeholder_signature_def_ {P}.
Arguments signature_runner_map_ {P}.
Arguments metadata_ {P}.
Arguments model_control_dependencies_ {P}.
Arguments interpreter_options_ {P}.
Arguments flag_ {P}.
Arguments cancellation_enabled_ {P}.

Definition eta_Interpreter {P} (i : Interpreter P) : Interpreter P := mkInterpreter (subgraphs_ i)
  (external_contexts_ i) (own_external_cpu_backend_context_ i) (owned_delegates_ i)
  (lazy_delegate_providers_ i) (allow_buffer_handle_output_ i) (signature_defs_ i)
  (placeholder_signature_def_ i) (signature_runner_map_ i) (metadata_ i)
  (model_control_dependencies_ i) (interpreter_options_ i) (flag_ i) (cancellation_enabled_ i).

#[local] Ltac setter field :=
  let v := fresh "v" in let g := fresh "g" in
  intros v g;
  let e := eval cbv [eta_Interpreter] in (eta_Interpreter g) in
  match eval pattern (field g) in e with
  | ?F _ => let r := eval cbv beta in (F v) in exact r
  end.

Section Setters.
Context {P : Type}.
Definition set_subgraphs_ : list (ModelSubgraph P) -> Interpreter P -> Interpreter P := ltac:(setter (@subgraphs_ P)).
Definition set_external_contexts_ : list Z -> Interpreter P -> Interpreter P := ltac:(setter (@external_contexts_ P)).
Definition set_own_external_cpu_backend_context_ : Z -> Interpreter P -> Interpreter P := ltac:(setter (@own_external_cpu_backend_context_ P)).
Definition set_owned_delegates_ : list Z -> Interpreter P -> Interpreter P := ltac:(setter (@owned_delegates_ P)).
Definition set_lazy_delegate_providers_ : list Z -> Interpreter P -> Interpreter P := ltac:(setter (@lazy_delegate_providers_ P)).
Definition set_allow_buffer_handle_output_ : bool -> Interpreter P -> Interpreter P := ltac:(setter (@allow_buffer_handle_output_ P)).
Definition set_signature_defs_ : list SignatureDef -> Interpreter P -> Interpreter P := ltac:(setter (@signature_defs_ P)).
Definition set_placeholder_signature_def_ : option SignatureDef -> Interpreter P -> Interpreter P := ltac:(setter (@placeholder_signature_def_ P)).
Definition set_signature_runner_map_ : StdMap SignatureRunner -> Interpreter P -> Interpreter P := ltac:(setter (@signature_runner_map_ P)).
Definition set_metadata_ : StdMap bytes -> Interpreter P -> Interpreter P := ltac:(setter (@metadata_ P)).
Definition set_model_control_dependencies_ : ModelControlDependencies -> Interpreter P -> Interpreter P := ltac:(setter (@model_control_dependencies_ P)).
Definition set_interpreter_options_ : option InterpreterOptions -> Interpreter P -> Interpreter P := ltac:(setter (@interpreter_options_ P)).
Definition set_flag_ : bool -> Interpreter P -> Interpreter P := ltac:(setter (@flag_ P)).
Definition set_cancellation_enabled_ : bool -> Interpreter P -> Interpreter P := ltac:(setter (@cancellation_enabled_ P)).

Definition set_sub_graph (g : Subgraph P) (m : ModelSubgraph P) : ModelSubgraph P :=
  mkModelSubgraph g (sub_name m) (recommended_num_threads m) (allow_fp32_relax_to_fp16 m).
Definition set_sub_name (name : string) (m : ModelSubgraph P) : ModelSubgraph P :=
  mkModelSubgraph (sub_graph m) name (recommended_num_threads m) (allow_fp32_relax_to_fp16 m).
Definition set_num_threads (n : Z) (m : ModelSubgraph P) : ModelSubgraph P :=
  mkModelSubgraph (sub_graph m) (sub_name m) n (allow_fp32_relax_to_fp16 m).
Definition set_allow_fp16 (b : bool) (m : ModelSubgraph P) : ModelSubgraph P :=
  mkModelSubgraph (sub_graph m) (sub_name m) (recommended_num_threads m) b.
End Setters.

(** The interpreter with the heap and the rest of the world. *)
Record istate (P W : Type) := IState { is_heap : heap; interp : Interpreter P; is_world : W }.
Arguments IState {P W}.
Arguments is_heap {P W}.
Arguments interp {P W}.
Arguments is_world {P W}.

(** The world of a subgraph: the interpreter, with the other subgraphs, and the world outside.
    What the interpreter has in place of the subgraph itself, at its index, is not looked at. *)
Record model_world (P W : Type) := MW { mw_interpreter : Interpreter P; mw_index : Z; mw_world : W }.
Arguments MW {P W}.
Arguments mw_interpreter {P W}.
Arguments mw_index {P W}.
Arguments mw_world {P W}.

Definition map_graphs {P} (f : Subgraph P -> Subgraph P) (i : Interpreter P) : Interpreter P :=
  set_subgraphs_ ((fun m => set_sub_graph (f (sub_graph m)) m) <$> subgraphs_ i) i.

(** Resets the flag in all the subgraphs. *)
#[export] Instance model_siblings {P W} : Siblings (model_world P W) := fun w =>
  MW (map_graphs (set_is_delegation_skippable_ false) (mw_interpreter w)) (mw_index w) (mw_world w).

(** [GetSubgraphs()] and the subgraph's own index. *)
#[export] Instance model_decompositions {P W} : SubgraphInline.Decompositions P (model_world P W) := {|
  SubgraphInline.subgraphs_size w := zlength (subgraphs_ (mw_interpreter w));
  SubgraphInline.subgraph_at w i := sub_graph <$> (subgraphs_ (mw_interpreter w)).[i];
  SubgraphInline.GetSubgraphIndex w := mw_index w |}.

(** [TfLiteExternalContextType]. *)
Definition kTfLiteCpuBackendContext : Z := 3.

Definition kPlaceholderSignatureDefKey : string := "<placeholder signature>".
Definition kModelControlDependenciesMetadataKey : string := "model_control_dependencies".

(** The functions the interpreter calls through pointers: [Refresh] of an external context, where
    it has one, [ClearCaches] of the internal context of a CPU backend context, the creators of
    delegates, and the deleters of the delegates it owns. *)
Class InterpreterCallbacks (S : Type) := {
  context_at : Z -> option (option Z);
  call_Refresh (f context : Z) : M S unit;
  call_ClearCaches (context : Z) : M S unit;
  call_creator (f : Z) : M S Z;
  call_deleter (delegate : Z) : M S unit }.

Section Interp.
Context {P W : Type} {MP : MemoryPlanner P} {NP : NewPlanner P} {MM : Malloc} {SS : StdSort}.
Abbreviation S := (istate P W).
Abbreviation G := (sgstate P (model_world P W)).
Context {CB : Callbacks G} {IC : InterpreterCallbacks S}.

(** ** Access *)

Definition self : M S (Interpreter P) := fun s => (Done (interp s), s).
Definition upd_self (f : Interpreter P -> Interpreter P) : M S unit :=
  modify (fun s => IState (is_heap s) (f (interp s)) (is_world s)).

(** A function that returns nothing. *)
Definition void {A} (c : M S A) : M S unit := status_call c ;;; ret tt.

(** [continue_invocation_] of the interpreter is the flag that the subgraphs for which
    cancellation is enabled point to: a subgraph has its value while it runs. *)
Definition load_flag (flag : bool) (g : Subgraph P) : Subgraph P :=
  match continue_invocation_ g with Some _ => set_continue_invocation_ (Some flag) g | None => g end.

(** A call of the method [c] of the subgraph at [index]. *)
Definition on_subgraph {A} (index : Z) (c : M G A) : M S A := fun s =>
  match (subgraphs_ (interp s)).[index] with
  | None => (Undef, s)
  | Some m =>
    let '(r, s') := c (SG (is_heap s) (load_flag (flag_ (interp s)) (sub_graph m)) (MW (interp s) index (is_world s))) in
    let i := mw_interpreter (sg_world s') in
    (r, IState (sg_heap s')
          (set_flag_ (default (flag_ i) (continue_invocation_ (sg_graph s')))
            (set_subgraphs_ (zset (subgraphs_ i) index (set_sub_graph (sg_graph s') m)) i))
          (mw_world (sg_world s')))
  end.

(** [primary_subgraph()]. *)
Definition on_primary {A} (c : M G A) : M S A := on_subgraph 0 c.

(** [for (auto& subgraph : subgraphs_)]. *)
Definition for_subgraphs (body : Z -> M S unit) : M S unit :=
  let* i := self in for_each (zrange 0 (zlength (subgraphs_ i) - 1)) body.

Definition subgraph_ref (index : Z) : M S (ModelSubgraph P) :=
  let* i := self in access ((subgraphs_ i).[index]).
Definition upd_subgraph (index : Z) (f : ModelSubgraph P -> ModelSubgraph P) : M S unit :=
  let* m := subgraph_ref index in
  upd_self (fun i => set_subgraphs_ (zset (subgraphs_ i) index (f m)) i).

(** [subgraph(subgraph_index)]: null out of range. *)
Definition subgraph (index : Z) : M S (option Z) :=
  let* i := self in
  ret (if (index <? 0) || (zlength (subgraphs_ i) <=? index) then None else Some index).

Definition primary_graph : M S (Subgraph P) := let* m := subgraph_ref 0 in ret (sub_graph m).
Definition inputs : M S (list Z) := let* g := primary_graph in ret (inputs_ g).
Definition outputs : M S (list Z) := let* g := primary_graph in ret (outputs_ g).
Definition variables : M S (list Z) := let* g := primary_graph in ret (variables_ g).
Definition execution_plan : M S (list Z) := let* g := primary_graph in ret (execution_plan_ g).
Definition tensors_size : M S Z := let* g := primary_graph in ret (zlength (tensors_ g)).
Definition nodes_size : M S Z := let* g := primary_graph in ret (zlength (nodes_and_registration_ g)).
Definition tensor (tensor_index : Z) : M S (option TfLiteTensor) := on_primary (Subgraph.tensor tensor_index).

(** [inputs()[index]] out of range, and [tensors] at an omitted input, are undefined. *)
Definition GetInputName (index : Z) : M S (option string) :=
  let* g := primary_graph in
  let* t := access ((inputs_ g).[index]) in
  let* t := access ((tensors_ g).[t]) in ret (t_name t).
Definition GetOutputName (index : Z) : M S (option string) :=
  let* g := primary_graph in
  let* t := access ((outputs_ g).[index]) in
  let* t := access ((tensors_ g).[t]) in ret (t_name t).
Definition input_tensor (index : Z) : M S (option TfLiteTensor) :=
  let* l := inputs in let* t := access (l.[index]) in tensor t.
Definition output_tensor (index : Z) : M S (option TfLiteTensor) :=
  let* l := outputs in let* t := access (l.[index]) in tensor t.

(** [typed_tensor<T>]: the data, null when there is no such tensor or its type is another. *)
Definition typed_tensor (type : TfLiteType) (tensor_index : Z) : M S Z :=
  let* o := tensor tensor_index in
  ret (match o with Some t => if bool_decide (t_type t = type) then t_data t else 0 | None => 0 end).

(** ** Construction *)

(** New subgraphs at the end; the index of the first. *)
Definition AddSubgraphs (subgraphs_to_add : Z) : M S Z :=
  let* i := self in
  upd_self (set_subgraphs_ (subgraphs_ i ++
    replicate (Z.to_nat subgraphs_to_add) (mkModelSubgraph Subgraph_init EmptyString (-1) false))) ;;;
  ret (zlength (subgraphs_ i)).

(** The members before the constructor runs, and the constructor, [own] being the address of the
    new external context. *)
Definition members : Interpreter P := mkInterpreter [] (replicate (Z.to_nat kTfLiteMaxExternalContexts) 0)
  0 [] [] false [] None [] [] [] None false false.

Definition Interpreter_new (own : Z) : M S unit :=
  upd_self (fun _ => members) ;;;
  AddSubgraphs 1 ;;;
  upd_self (set_own_external_cpu_backend_context_ own) ;;;
  upd_self (fun i => set_external_contexts_ (zset (external_contexts_ i) kTfLiteCpuBackendContext own) i).

(** [~Interpreter]: the subgraphs go before the delegates it owns. *)
Definition Interpreter_delete : M S unit :=
  let* i := self in
  let* context := access ((external_contexts_ i).[kTfLiteCpuBackendContext]) in
  (if negb (context =? 0) && negb (context =? own_external_cpu_backend_context_ i)
   then void (call_ClearCaches context) else ret tt) ;;;
  for_subgraphs (fun k => on_subgraph k Subgraph_delete) ;;;
  let* i := self in
  for_each (owned_delegates_ i) (fun d => void (call_deleter d)).

(** [Subgraph::SetExternalContext], of the context as well. *)
Definition put_external_context (type ctx : Z) : M S unit :=
  if (0 <=? type) && (type <? kTfLiteMaxExternalContexts)
  then upd_self (fun i => set_external_contexts_ (zset (external_contexts_ i) type ctx) i) else ret tt.

Definition SetExternalContext (type ctx : Z) : M S unit :=
  let* i := self in
  if ctx =? own_external_cpu_backend_context_ i then ret tt
  else
    (if kTfLiteCpuBackendContext =? type then
       let* current := access ((external_contexts_ i).[kTfLiteCpuBackendContext]) in
       if current =? own_external_cpu_backend_context_ i
       then upd_self (set_own_external_cpu_backend_context_ 0) else ret tt
     else ret tt) ;;;
    put_external_context type ctx.

Definition SetInputs (l : list Z) : M S unit := on_primary (Subgraph.SetInputs l).
Definition SetOutputs (l : list Z) : M S unit := on_primary (Subgraph.SetOutputs l).
Definition SetVariables (l : list Z) : M S unit := on_primary (Subgraph.SetVariables l).
Definition AddTensors (n : Z) : M S Z := on_primary (Subgraph.AddTensors n).
Definition SetExecutionPlan (plan : list Z) : M S unit := on_primary (Subgraph.SetExecutionPlan plan).
Definition AddNodeWithParameters (ins outs : list Z) (init_data init_data_size builtin_data : Z)
    (reg : TfLiteRegistration) : M S Z :=
  on_primary (Subgraph.AddNodeWithParameters ins outs [] init_data init_data_size builtin_data reg).
Definition ResizeInputTensor (i : Z) (dims : list Z) : M S unit :=
  on_primary (Subgraph.ResizeInputTensor i (Some dims) (zlength dims)).
Definition ResizeInputTensorStrict (i : Z) (dims : list Z) : M S unit :=
  on_primary (Subgraph.ResizeInputTensorStrict i dims).

(** The overloads with [TfLiteQuantization]. *)
Definition SetTensorParametersReadOnly (i : Z) (type : TfLiteType) (name : option string) (dims : list Z)
    (q : TfLiteQuantization) (buffer bytes allocation : Z) : M S unit :=
  on_primary (Subgraph.SetTensorParametersReadOnly i type name dims q buffer bytes allocation None
    kTfLiteNoBufferIdentifier kTfLiteNoBufferIdentifier).
Definition SetTensorParametersReadWrite (i : Z) (type : TfLiteType) (name : option string) (dims : list Z)
    (q : TfLiteQuantization) (is_variable : bool) : M S unit :=
  on_primary (Subgraph.SetTensorParametersReadWrite i type name dims q is_variable [] 0).

(** The legacy overloads. *)
Definition GetQuantizationFromLegacy (q : TfLiteQuantizationParams) : TfLiteQuantization :=
  kTfLiteAffineQuantization (Some [qp_scale q]) (Some [qp_zero_point q]) 0.
Definition SetTensorParametersReadOnly_legacy (i : Z) (type : TfLiteType) (name : option string)
    (dims : list Z) (q : TfLiteQuantizationParams) (buffer bytes allocation : Z) : M S unit :=
  SetTensorParametersReadOnly i type name dims (GetQuantizationFromLegacy q) buffer bytes allocation.
Definition SetTensorParametersReadWrite_legacy (i : Z) (type : TfLiteType) (name : option string)
    (dims : list Z) (q : TfLiteQuantizationParams) (is_variable : bool) (dims_signature : list Z) : M S unit :=
  on_primary (Subgraph.SetTensorParametersReadWrite i type name dims (GetQuantizationFromLegacy q)
    is_variable dims_signature 0).

(** ** Delegates *)

Definition HasDelegates : M S bool := on_primary SubgraphDelegate.HasDelegates.
Definition IsFullyDelegated : M S bool := on_primary SubgraphDelegate.IsFullyDelegated.

Definition RemoveAllDelegates : M S unit :=
  for_subgraphs (fun k => on_subgraph k SubgraphDelegate.RemoveAllDelegates_all).

(** The loop over the subgraphs; the [break] is the failure of the body. *)
Definition modify_subgraph (delegate k : Z) : M S unit :=
  let* m := subgraph_ref k in
  if IsValidationSubgraph (Some (sub_name m)) || is_delegation_skippable_ (sub_graph m) then ret tt
  else on_subgraph k (SubgraphDelegate.ModifyGraphWithDelegate delegate).

Definition ModifyGraphWithDelegateImpl (delegate : Z) : M S unit :=
  let* status := status_call (for_subgraphs (modify_subgraph delegate)) in
  (if bool_decide (status = kTfLiteDelegateError) then RemoveAllDelegates else ret tt) ;;;
  if bool_decide (status = kTfLiteOk) then ret tt else fail status.

Definition ModifyGraphWithDelegate (delegate : Z) : M S unit := ModifyGraphWithDelegateImpl delegate.

(** The overload that takes the delegate over. *)
Definition ModifyGraphWithOwnedDelegate (delegate : Z) : M S unit :=
  upd_self (fun i => set_owned_delegates_ (owned_delegates_ i ++ [delegate]) i) ;;;
  ModifyGraphWithDelegateImpl delegate.

(** What [ApplyLazyDelegateProviders] returns for the status of a delegate. *)
Definition lazy_status (status : TfLiteStatus) : M S unit :=
  match status with
  | kTfLiteOk => ret tt
  | kTfLiteError => fail kTfLiteError
  | kTfLiteDelegateError => fail kTfLiteDelegateError
  | kTfLiteApplicationError => fail kTfLiteApplicationError
  | kTfLiteUnresolvedOps => fail kTfLiteUnresolvedOps
  | _ => fail kTfLiteError
  end.

Definition apply_provider (creator : Z) : M S unit :=
  let* delegate_ptr := call_creator creator in
  if delegate_ptr =? 0 then ret tt
  else
    let* status := status_call (ModifyGraphWithOwnedDelegate delegate_ptr) in
    lazy_status status.

Definition ApplyLazyDelegateProviders : M S unit :=
  let* i := self in
  let* done := (if bool_decide (lazy_delegate_providers_ i = []) then ret true else IsFullyDelegated) in
  if done : bool then ret tt
  else
    upd_self (set_lazy_delegate_providers_ []) ;;;
    for_each (lazy_delegate_providers_ i) apply_provider.

(** ** Allocating and running *)

Definition AllocateTensors : M S unit :=
  let* status := status_call ApplyLazyDelegateProviders in
  if bool_decide (status = kTfLiteError) then fail kTfLiteError
  else on_primary SubgraphInline.AllocateTensors_all.

Definition ReleaseNonPersistentMemory : M S unit := on_primary Subgraph.ReleaseNonPersistentMemory.

Definition ResetVariableTensors : M S unit :=
  for_subgraphs (fun k => on_subgraph k Subgraph.ResetVariableTensors).

Definition SetAllowBufferHandleOutput (allow : bool) : M S unit := upd_self (set_allow_buffer_handle_output_ allow).

(** The flag is set, which undoes a cancellation that came before. *)
Definition Invoke : M S unit :=
  let* i := self in
  (if cancellation_enabled_ i then upd_self (set_flag_ true) else ret tt) ;;;
  on_primary SubgraphRun.Invoke ;;;
  let* i := self in
  if allow_buffer_handle_output_ i then ret tt
  else
    let* l := outputs in
    for_each l (fun t => on_primary (Subgraph.EnsureTensorDataIsReadable t)).

Definition EnableCancellation : M S unit :=
  upd_self (set_cancellation_enabled_ true) ;;;
  let* i := self in
  for_subgraphs (fun k => on_subgraph k (Subgraph.EnableCancellation (Some (flag_ i)))).

Definition Cancel : M S unit := on_primary Subgraph.Cancel.

Definition SetCancellationFunction (data : Z) (check_cancelled_func : option Z) : M S unit :=
  for_subgraphs (fun k => on_subgraph k (Subgraph.SetCancellationFunction data check_cancelled_func)).

Definition IsCancelled : M S bool := on_primary Subgraph.IsCancelled.

(** *** Falling back to the CPU (delegates/interpreter_utils.cc) *)

Definition on_heap {A} (c : M heap A) : M S A := zoom is_heap (fun h s => IState h (interp s) (is_world s)) c.

(** [tensor(i)] dereferenced. *)
Definition the_tensor (i : Z) : M S TfLiteTensor := let* o := tensor i in access o.

(** An empty range of bytes may be at a null pointer. *)
Definition read_tensor (i : Z) : M S bytes :=
  let* t := the_tensor i in
  if t_bytes t =? 0 then ret [] else on_heap (load (t_data t) (t_bytes t)).

(** The bytes of the tensor are taken from the buffer, whose rest is returned. *)
Definition write_tensor (buf : bytes) (i : Z) : M S bytes :=
  let* t := the_tensor i in
  if t_bytes t =? 0 then ret buf
  else if zlength buf <? t_bytes t then undef
  else
    on_heap (store (t_data t) (take (Z.to_nat (t_bytes t)) buf)) ;;;
    ret (drop (Z.to_nat (t_bytes t)) buf).

(** A failed invocation is repeated without the delegates, on the same inputs. *)
Definition InvokeWithCPUFallback : M S unit :=
  let* status := status_call Invoke in
  if bool_decide (status = kTfLiteOk) then ret tt
  else
    let* cancelled := IsCancelled in
    if cancelled : bool then fail status
    else
      let* delegated := HasDelegates in
      if negb delegated then fail status
      else
        let* l := inputs in
        for_each l (fun i => on_primary (Subgraph.EnsureTensorDataIsReadable i) ;;; the_tensor i ;;; ret tt) ;;;
        let* buf := for_fold l [] (fun buf i => let* bs := read_tensor i in ret (buf ++ bs)) in
        RemoveAllDelegates ;;;
        let* l := inputs in
        for_fold l buf write_tensor ;;;
        Invoke ;;;
        fail kTfLiteDelegateError.

(** ** Settings *)

Definition SetNumThreads (num_threads : Z) : M S unit :=
  if num_threads <? -1 then fail kTfLiteError
  else
    let num_threads := if num_threads =? 0 then 1 else num_threads in
    for_subgraphs (fun k => upd_subgraph k (set_num_threads num_threads)) ;;;
    for_each (zrange 0 (kTfLiteMaxExternalContexts - 1)) (fun k =>
      let* i := self in
      let* c := access ((external_contexts_ i).[k]) in
      if c =? 0 then ret tt
      else
        let* refresh := access (context_at c) in
        match refresh with Some f => void (call_Refresh f c) | None => ret tt end).

Definition SetAllowFp16PrecisionForFp32 (allow : bool) : M S unit :=
  for_subgraphs (fun k => upd_subgraph k (set_allow_fp16 allow)).

Definition ApplyOptions (options : option InterpreterOptions) : M S unit :=
  match options with
  | None => ret tt
  | Some o =>
    upd_self (set_interpreter_options_ (Some o)) ;;;
    for_subgraphs (fun k => void (on_subgraph k (Subgraph.SetOptions (Some o))))
  end.

(** A subgraph without edges of its own is undefined; no edges at all are none. *)
Definition SetMetadata (metadata : StdMap bytes) : M S unit :=
  upd_self (set_metadata_ metadata) ;;;
  upd_self (set_model_control_dependencies_
    (match map_find kModelControlDependenciesMetadataKey metadata with
     | Some data => default [] (ParseModelControlDependencies data)
     | None => []
     end)) ;;;
  for_subgraphs (fun k =>
    let* i := self in
    let* edges := (if bool_decide (model_control_dependencies_ i = []) then ret None
                   else let* e := access ((model_control_dependencies_ i).[k]) in ret (Some e)) in
    upd_subgraph k (fun m => set_sub_graph (set_control_edges_ edges (sub_graph m)) m)).

(** [tensor_index] is converted to [size_t]. *)
Definition check_tensor_index (tensor_index : Z) : M S unit :=
  let* n := tensors_size in ensure (size_wrap tensor_index <? n).

Definition SetBufferHandle (tensor_index buffer_handle delegate : Z) : M S unit :=
  check_tensor_index tensor_index ;;;
  on_primary (Subgraph.SetBufferHandle tensor_index buffer_handle delegate true).

Definition GetBufferHandle (tensor_index : Z) : M S (Z * Z) :=
  check_tensor_index tensor_index ;;;
  let* t := tensor tensor_index in
  let* t := access t in ret (t_buffer_handle t, t_delegate t).

Definition EnsureTensorDataIsReadable (i : Z) : M S unit := on_primary (Subgraph.EnsureTensorDataIsReadable i).

Definition SetCustomAllocationForTensor (i : Z) (allocation : TfLiteCustomAllocation) (flags : Z) : M S unit :=
  on_primary (Subgraph.SetCustomAllocationForTensor i allocation flags).
(** ** Signatures *)

Definition SetSignatureDef (defs : list SignatureDef) : M S unit := upd_self (set_signature_defs_ defs).

Definition signature_keys : M S (list string) := let* i := self in ret (signature_key <$> signature_defs_ i).

Definition find_signature (key : string) : M S (option SignatureDef) :=
  let* i := self in ret (find (fun d => bool_decide (signature_key d = key)) (signature_defs_ i)).

Definition signature_inputs (key : string) : M S (StdMap Z) :=
  let* o := find_signature key in ret (match o with Some d => sd_inputs d | None => [] end).
Definition signature_outputs (key : string) : M S (StdMap Z) :=
  let* o := find_signature key in ret (match o with Some d => sd_outputs d | None => [] end).

(** [int] results of [uint32_t] values. *)
Definition GetSubgraphIndexFromSignature (key : string) : M S Z :=
  let* o := find_signature key in
  ret (match o with Some d => int32_wrap (subgraph_index d) | None => -1 end).
Definition GetTensorIndexFromSignature (tensor_name key : string) (is_input : bool) : M S Z :=
  let* o := find_signature key in
  ret (match o with
       | Some d => match map_find tensor_name (if is_input then sd_inputs d else sd_outputs d) with
                   | Some i => int32_wrap i
                   | None => -1
                   end
       | None => -1
       end).

(** The tensor of a name: a subgraph that does not exist is a null pointer dereferenced. *)
Definition tensor_by_signature (name key : string) (is_input : bool) : M S (option TfLiteTensor) :=
  let* subgraph_index := GetSubgraphIndexFromSignature key in
  if subgraph_index =? -1 then ret None
  else
    let* tensor_index := GetTensorIndexFromSignature name key is_input in
    if tensor_index =? -1 then ret None
    else
      let* g := subgraph subgraph_index in
      let* g := access g in
      on_subgraph g (Subgraph.tensor tensor_index).
Definition input_tensor_by_signature (name key : string) := tensor_by_signature name key true.
Definition output_tensor_by_signature (name key : string) := tensor_by_signature name key false.

(** [std::to_string] of a [size_t]. *)
Definition decimal (i : Z) : string := pretty.pretty i.

(** The entries of the placeholder for the tensors of a list: a tensor without a name is given
    one; of two tensors of the same name the last is kept. *)
Definition placeholder_map (prefix : string) (name_at : Z -> M S (option string)) (l : list Z) : M S (StdMap Z) :=
  for_fold (enumerate l) [] (fun m it =>
    let* name := name_at (fst it) in
    let* name := access name in
    let name := if bool_decide (name = EmptyString) then String.append prefix (decimal (fst it)) else name in
    ret (map_assign name (uint32_wrap (snd it)) m)).

Definition CreatePlaceholderSignatureDef : M S SignatureDef :=
  let* ins := inputs in
  let* sd_in := placeholder_map "input" GetInputName ins in
  let* outs := outputs in
  let* sd_out := placeholder_map "output" GetOutputName outs in
  ret (mkSignatureDef sd_in sd_out kPlaceholderSignatureDefKey 0).

(** A null key: the placeholder's, or that of the first signature of the primary subgraph. *)
Definition ReplaceWithPlaceholderSignatureKeyIfNeeded (key : option string) : M S (option string * bool) :=
  let* i := self in
  ret (match key with
       | Some _ => (key, false)
       | None =>
         if bool_decide (signature_defs_ i = []) then (Some kPlaceholderSignatureDefKey, true)
         else (signature_key <$> find (fun d => subgraph_index d =? 0) (signature_defs_ i), false)
       end).

(** The names of the tensors, in the order of the subgraph: null where a tensor has none, the
    last of several. *)
Definition names_in_order (m : StdMap Z) (l : list Z) : list (option string) :=
  let reverse_map : gmap Z string := fold_left (fun r it => <[snd it := fst it]> r) m ∅ in
  (fun t => reverse_map !! uint32_wrap t) <$> l.

(** [SignatureRunner(signature_def, subgraph)]: the pointer is dereferenced. *)
Definition new_runner (d : SignatureDef) (index : option Z) : M S SignatureRunner :=
  let* k := access index in
  let* m := subgraph_ref k in
  ret (mkSignatureRunner d k (fst <$> sd_inputs d) (fst <$> sd_outputs d)
    (names_in_order (sd_inputs d) (inputs_ (sub_graph m)))
    (names_in_order (sd_outputs d) (outputs_ (sub_graph m))) false).

(** [insert] and the element at the key. *)
Definition add_runner (key : string) (r : SignatureRunner) : M S (option SignatureRunner) :=
  upd_self (fun i => set_signature_runner_map_ (map_insert key r (signature_runner_map_ i)) i) ;;;
  let* i := self in ret (map_find key (signature_runner_map_ i)).

(** The runner, null when there is none. *)
Definition GetSignatureRunner (key : option string) : M S (option SignatureRunner) :=
  let* kf := ReplaceWithPlaceholderSignatureKeyIfNeeded key in
  match fst kf with
  | None => ret None
  | Some key =>
    let* i := self in
    match map_find key (signature_runner_map_ i) with
    | Some r => ret (Some r)
    | None =>
      let* status := status_call ApplyLazyDelegateProviders in
      if bool_decide (status = kTfLiteError) then ret None
      else if snd kf : bool then
        let* d := CreatePlaceholderSignatureDef in
        upd_self (set_placeholder_signature_def_ (Some d)) ;;;
        let* r := new_runner d (Some 0) in
        add_runner key r
      else
        let* o := find_signature key in
        match o with
        | None => ret None
        | Some d =>
          let* k := subgraph (int32_wrap (subgraph_index d)) in
          let* r := new_runner d k in
          add_runner key r
        end
    end
  end.

(** *** The methods of a runner *)

Definition runner_tensor (m : StdMap Z) (r : SignatureRunner) (name : string) : M S (option TfLiteTensor) :=
  match map_find name m with
  | None => ret None
  | Some i => on_subgraph (subgraph_ r) (Subgraph.tensor (int32_wrap i))
  end.
Definition runner_input_tensor (r : SignatureRunner) (name : string) : M S (option TfLiteTensor) :=
  runner_tensor (sd_inputs (signature_def_ r)) r name.
Definition runner_output_tensor (r : SignatureRunner) (name : string) : M S (option TfLiteTensor) :=
  runner_tensor (sd_outputs (signature_def_ r)) r name.

(** A method of the subgraph, on the tensor of a name. *)
Definition on_named (m : StdMap Z) (r : SignatureRunner) (name : string) (c : Z -> M G unit) : M S unit :=
  match map_find name m with
  | None => fail kTfLiteError
  | Some i => on_subgraph (subgraph_ r) (c (int32_wrap i))
  end.
Definition on_input (r : SignatureRunner) := on_named (sd_inputs (signature_def_ r)) r.
Definition on_output (r : SignatureRunner) := on_named (sd_outputs (signature_def_ r)) r.

Definition SetInputBufferHandle (r : SignatureRunner) (name : string) (handle delegate : Z) (release : bool) : M S unit :=
  on_input r name (fun i => Subgraph.SetBufferHandle i handle delegate release).
Definition SetOutputBufferHandle (r : SignatureRunner) (name : string) (handle delegate : Z) (release : bool) : M S unit :=
  on_output r name (fun i => Subgraph.SetBufferHandle i handle delegate release).
Definition runner_ResizeInputTensor (r : SignatureRunner) (name : string) (dims : list Z) : M S unit :=
  on_input r name (fun i => Subgraph.ResizeInputTensor i (Some dims) (zlength dims)).
Definition runner_ResizeInputTensorStrict (r : SignatureRunner) (name : string) (dims : list Z) : M S unit :=
  on_input r name (fun i => Subgraph.ResizeInputTensorStrict i dims).
Definition SetCustomAllocationForInputTensor (r : SignatureRunner) (name : string)
    (allocation : TfLiteCustomAllocation) (flags : Z) : M S unit :=
  on_input r name (fun i => Subgraph.SetCustomAllocationForTensor i allocation flags).
Definition SetCustomAllocationForOutputTensor (r : SignatureRunner) (name : string)
    (allocation : TfLiteCustomAllocation) (flags : Z) : M S unit :=
  on_output r name (fun i => Subgraph.SetCustomAllocationForTensor i allocation flags).

Definition runner_AllocateTensors (r : SignatureRunner) : M S unit :=
  on_subgraph (subgraph_ r) SubgraphInline.AllocateTensors_all.
Definition runner_Cancel (r : SignatureRunner) : M S unit := on_subgraph (subgraph_ r) Subgraph.Cancel.

Definition runner_SetAllowBufferHandleOutput (allow : bool) (r : SignatureRunner) : SignatureRunner :=
  mkSignatureRunner (signature_def_ r) (subgraph_ r) (input_names_ r) (output_names_ r)
    (subgraph_input_names_ r) (subgraph_output_names_ r) allow.

Definition runner_Invoke (r : SignatureRunner) : M S unit :=
  let* m := subgraph_ref (subgraph_ r) in
  (match continue_invocation_ (sub_graph m) with Some _ => upd_self (set_flag_ true) | None => ret tt end) ;;;
  on_subgraph (subgraph_ r) SubgraphRun.Invoke ;;;
  if runner_allow_buffer_handle_output_ r then ret tt
  else
    let* m := subgraph_ref (subgraph_ r) in
    for_each (outputs_ (sub_graph m)) (fun t =>
      on_subgraph (subgraph_ r) (Subgraph.EnsureTensorDataIsReadable t)).

(** ** The context functions that reach other subgraphs *)

(** They act on the subgraph at [index]. *)
Definition AcquireSubgraphContext (index : Z) : M S Z :=
  let* i := self in
  ensure (0 <=? index) ;;; ensure (index <? zlength (subgraphs_ i)) ;;;
  void (on_subgraph index SubgraphDelegate.SwitchToDelegateContext) ;;;
  ret index.
Definition ReleaseSubgraphContext (index : Z) : M S unit :=
  let* i := self in
  ensure (0 <=? index) ;;; ensure (index <? zlength (subgraphs_ i)) ;;;
  void (on_subgraph index SubgraphDelegate.SwitchToKernelContext).
Definition MarkSubgraphAsDelegationSkippable (index : Z) : M S unit :=
  let* i := self in
  ensure (0 <? index) ;;; ensure (index <? zlength (subgraphs_ i)) ;;;
  upd_subgraph index (fun m => set_sub_graph (set_is_delegation_skippable_ true (sub_graph m)) m).
End Interp.
