(* ===== verification/InterpreterBuilder.v ===== *)
(** * Building an interpreter from a model (tensorflow/lite/core/interpreter_builder.cc)

    [InterpreterBuilder::operator()]: the operators of the model are resolved, an interpreter is
    made with a subgraph for each of the model's, filled with its tensors and nodes, and the
    delegates are applied to it.  The options of builtin operators are parsed by [OptionParser]. *)
From Stdlib Require Import String.
From stdpp Require Import strings.
From S2P Require Import Prelude Heap Common Util MemoryPlanner Callbacks StdMap MetadataUtil.
From S2P Require Import Subgraph SubgraphRun OpResolver ModelSchema Interpreter.
From S2P Require SubgraphDelegate OptionParser.
#[local] Open Scope Z_scope.

(** [Allocation]: its address, and the memory of the file. *)
Record Allocation := mkAllocation { al_address : Z; al_base : Z; al_bytes : Z }.

(** The builder; [delegate_creators] is [op_resolver_.GetDelegateCreators()]. *)
Record Builder := mkBuilder {
  model_ : option Model; op_resolver_ : OpResolver; delegate_creators : list Z;
  delegates_ : list Z; allocation_ : option Allocation; builder_metadata : StdMap bytes;
  options_of : InterpreterOptions; num_threads_ : Z; has_flex_op_ : bool }.

(** The members that the constructor leaves at their defaults. *)
Definition InterpreterBuilder_new (model : option Model) (op_resolver : OpResolver) (creators : list Z)
    (allocation : option Allocation) (options : InterpreterOptions) : Builder :=
  mkBuilder model op_resolver creators [] allocation (ReadAllMetadata model) options (-1) false.

Definition allocation_address (a : option Allocation) : Z :=
  match a with Some a => al_address a | None => 0 end.

(** A null delegate is not added. *)
Definition AddDelegate (delegate : Z) (b : Builder) : Builder :=
  if delegate =? 0 then b
  else mkBuilder (model_ b) (op_resolver_ b) (delegate_creators b) (delegates_ b ++ [delegate])
         (allocation_ b) (builder_metadata b) (options_of b) (num_threads_ b) (has_flex_op_ b).

(** [InterpreterBuilder::SetNumThreads]. *)
Definition builder_SetNumThreads (n : Z) (b : Builder) : TfLiteStatus * Builder :=
  if n <? -1 then (kTfLiteError, b)
  else (kTfLiteOk, mkBuilder (model_ b) (op_resolver_ b) (delegate_creators b) (delegates_ b)
          (allocation_ b) (builder_metadata b) (options_of b) n (has_flex_op_ b)).

Section Builder.
Context {P W : Type} {MP : MemoryPlanner P} {NP : NewPlanner P} {MM : Malloc} {SS : StdSort}.
Abbreviation S := (istate P W).
Abbreviation G := (sgstate P (model_world P W)).
Context {CB : Callbacks G} {IC : InterpreterCallbacks S}.
(** [AcquireFlexDelegate]: null where the flex delegate is not linked in. *)
Context (AcquireFlexDelegate : M S Z).

(** ** Operators *)

(** The registrations by operator index, and [has_flex_op_]: a custom operator that is not
    resolved is given a registration that fails when it is prepared. *)
Fixpoint BuildLocalIndexToRegistrationMapping (op_resolver : OpResolver) (opcodes : list OperatorCode)
    (has_flex_op : bool) : outcome (list TfLiteRegistration * bool) :=
  match opcodes with
  | [] => Done ([], has_flex_op)
  | opcode :: opcodes' =>
    let continue registration has_flex_op :=
      match BuildLocalIndexToRegistrationMapping op_resolver opcodes' has_flex_op with
      | Done (l, flex) => Done (registration :: l, flex)
      | r => r
      end in
    match GetRegistrationFromOpCode opcode op_resolver with
    | (kTfLiteOk, Some registration) => continue registration has_flex_op
    | (kTfLiteOk, None) => Undef
    | (status, _) =>
      if negb (GetBuiltinCode opcode =? BuiltinOperator_CUSTOM) then Fail status
      else
        match oc_custom_code opcode with
        | None => Fail status
        | Some op_name =>
          continue (CreateUnresolvedCustomOp (UnresolvedOpInvoke (Callbacks := CB)) BuiltinOperator_CUSTOM op_name)
            (has_flex_op || IsFlexOp (Some op_name))
        end
    end
  end.

(** The data of a custom operator: in the model, or after it in the file.  The end of the data is
    a [uint64_t]. *)
Definition custom_data (allocation : option Allocation) (op : Operator) : outcome (Z * Z) :=
  match custom_options op with
  | Some (address, data) => Done (address, zlength data)
  | None =>
    match allocation with
    | Some a =>
      if 1 <? large_custom_options_offset op then
        if al_bytes a <? size_wrap (large_custom_options_offset op + large_custom_options_size op)
        then Fail kTfLiteError
        else Done (size_wrap (al_base a + large_custom_options_offset op), large_custom_options_size op)
      else Done (0, 0)
    | None => Done (0, 0)
    end
  end.

(** A node of the subgraph at [k]; the status of [AddNodeWithParameters] is dropped. *)
Definition parse_node (allocation : option Allocation) (registrations : list TfLiteRegistration) (k : Z)
    (op : Operator) : M S bool :=
  match registrations.[int32_wrap (opcode_index op)] with
  | None => ret false
  | Some registration =>
    let custom := builtin_code registration =? BuiltinOperator_CUSTOM in
    let* init := (if custom then lift (custom_data allocation op) else ret (0, 0)) in
    let* builtin_data :=
      (if custom then ret 0
       else Interpreter.on_heap (OptionParser.ParseOpData op (builtin_code registration))) in
    void (on_subgraph k (Subgraph.AddNodeWithParameters (FlatBufferIntArrayToVector (op_inputs op))
      (FlatBufferIntArrayToVector (op_outputs op)) (FlatBufferIntArrayToVector (op_intermediates op))
      (fst init) (snd init) builtin_data registration)) ;;;
    ret true
  end.

(** [status] is [kTfLiteError] when an operator was skipped. *)
Definition ParseNodes (allocation : option Allocation) (registrations : list TfLiteRegistration) (k : Z)
    (ops : list Operator) : M S unit :=
  let* ok := for_fold ops true (fun ok op =>
    let* b := parse_node allocation registrations k op in ret (ok && b)) in
  ensure ok.

(** ** Tensors *)

(** [get_readonly_data]: the address, null for a tensor without data, and the size. *)
Definition get_readonly_data (allocation : option Allocation) (bufs : list (option Buffer)) (t : Tensor)
    : outcome (Z * Z) :=
  if buffer t =? 0 then Done (0, 0)
  else if zlength bufs <=? buffer t then Fail kTfLiteError
  else
    match bufs.[buffer t] with
    | Some (Some b) =>
      match buf_data b with
      | Some (address, data) => Done (address, zlength data)
      | None =>
        match allocation with
        | Some a =>
          if 1 <? buf_offset b then
            if al_bytes a <? size_wrap (buf_offset b + buf_size b) then Fail kTfLiteError
            else Done (size_wrap (al_base a + buf_offset b), buf_size b)
          else Done (0, 0)
        | None => Done (0, 0)
        end
      end
    | _ => Done (0, 0)
    end.

Definition kEmptyTensorName : string := "".
Definition get_name (t : Tensor) : string := default kEmptyTensorName (name t).

(** Whether a status is [kTfLiteOk]. *)
Definition succeeds {A} (c : M S A) : M S bool :=
  let* status := status_call c in ret (bool_decide (status = kTfLiteOk)).

(** The tensor [i] of the subgraph at [k] from its table; whether nothing was wrong. *)
Definition parse_tensor (b : Builder) (bufs : list (option Buffer)) (k i : Z) (t : Tensor)
    (type : TfLiteType) : M S bool :=
  let dims := FlatBufferIntArrayToVector (shape t) in
  let* data := lift (get_readonly_data (allocation_ b) bufs t) in
  let* quantization_ok_q :=
    (match ParseQuantization (compress_quantization_zero_points_ (options_of b)) (quantization t) dims with
     | Done q => ret (true, q)
     | Fail _ => ret (false, kTfLiteNoQuantization)
     | Undef => undef
     end) in
  let dims_signature := FlatBufferIntArrayToVector (shape_signature t) in
  if negb (fst data =? 0) then
    let '(sparsity_ok, sparsity) := ParseSparsity (sparsity t) in
    let* set_ok := succeeds (on_subgraph k (Subgraph.SetTensorParametersReadOnly i type (Some (get_name t)) dims
      (snd quantization_ok_q) (fst data) (snd data) (allocation_address (allocation_ b)) sparsity
      (buffer t) (external_buffer t))) in
    ret (fst quantization_ok_q && negb (is_variable t || negb (external_buffer t =? 0)) && sparsity_ok && set_ok)
  else
    let* set_ok := succeeds (on_subgraph k (Subgraph.SetTensorParametersReadWrite i type (Some (get_name t)) dims
      (snd quantization_ok_q) (is_variable t) dims_signature (external_buffer t))) in
    ret (fst quantization_ok_q && set_ok).

(** The number of float32 tensors of the subgraph, which [num_fp32_tensors_] is set to. *)
Definition ParseTensors (b : Builder) (bufs : list (option Buffer)) (k : Z) (ts : list Tensor) : M S Z :=
  let* r := for_fold (enumerate ts) (true, 0) (fun r it =>
    let '(ok, num_fp32_tensors) := r in
    match ConvertTensorType (tensor_type (snd it)) with
    | Done type =>
      let num_fp32_tensors :=
        if bool_decide (type = kTfLiteFloat32) then num_fp32_tensors + 1 else num_fp32_tensors in
      let* tensor_ok := parse_tensor b bufs k (fst it) (snd it) type in
      ret (ok && tensor_ok, num_fp32_tensors)
    | _ => ret (false, num_fp32_tensors)
    end) in
  ensure (fst r) ;;; ret (snd r).

(** ** Signatures *)

Definition parse_signature (table : option SignatureTable) : outcome SignatureDef :=
  match table with
  | None => Fail kTfLiteError
  | Some t =>
    match st_signature_key t, st_inputs t, st_outputs t with
    | Some key, Some ins, Some outs =>
      Done (mkSignatureDef (GetMapFromTensorMap ins) (GetMapFromTensorMap outs) key (st_subgraph_index t))
    | _, _, _ => Fail kTfLiteError
    end
  end.

Fixpoint parse_signatures (tables : list (option SignatureTable)) : outcome (list SignatureDef) :=
  match tables with
  | [] => Done []
  | table :: tables' =>
    match parse_signature table, parse_signatures tables' with
    | Done d, Done l => Done (d :: l)
    | Done _, r => r
    | Fail e, _ => Fail e
    | Undef, _ => Undef
    end
  end.

Definition ParseSignatureDefs (signature_def_list : option (list (option SignatureTable))) : M S unit :=
  match signature_def_list with
  | None | Some [] => ret tt
  | Some tables => let* defs := lift (parse_signatures tables) in SetSignatureDef defs
  end.

(** The tensors of the signatures are renamed: neither the subgraph nor the tensor is checked. *)
Definition rename_tensors (k : Z) (m : StdMap Z) : M S unit :=
  for_each m (fun nt =>
    let* t := on_subgraph k (Subgraph.tensor (int32_wrap (snd nt))) in
    let* _ := access t in
    on_subgraph k (Subgraph.set_tensor (int32_wrap (snd nt)) (fun t =>
      mkTensor (t_type t) (t_data t) (t_dims t) (t_params t) (t_allocation_type t) (t_bytes t)
        (t_allocation t) (Some (fst nt)) (t_delegate t) (t_buffer_handle t) (t_data_is_stale t)
        (t_is_variable t) (t_quantization t) (t_sparsity t) (t_dims_signature t)))).

Definition use_signature_names : M S unit :=
  let* i := self in
  for_each (signature_defs_ i) (fun d =>
    let* k := subgraph (int32_wrap (subgraph_index d)) in
    let* k := access k in
    rename_tensors k (sd_inputs d) ;;; rename_tensors k (sd_outputs d)).

(** ** Delegates *)

Definition ApplyDelegates (b : Builder) (has_flex_op : bool) : M S unit :=
  (if has_flex_op : bool then
     let* flex_delegate := AcquireFlexDelegate in
     if negb (flex_delegate =? 0) then ModifyGraphWithOwnedDelegate flex_delegate else ret tt
   else ret tt) ;;;
  for_each (delegates_ b) ModifyGraphWithDelegateImpl.

(** [ShouldCreateLazyDelegateProviders], in a build without quantized XNNPACK kernels. *)
Definition ShouldCreateLazyDelegateProviders (num_fp32_tensors : Z) : bool := 0 <? num_fp32_tensors.

(** ** The call operator *)

Definition variable_tensors (g : Subgraph P) : list Z :=
  filter (fun i => (t_is_variable <$> (tensors_ g).[i]) = Some true) (zrange 0 (zlength (tensors_ g) - 1)).

(** The subgraph at [k] filled from its table; [num_fp32_tensors_]. *)
Definition build_subgraph (b : Builder) (bufs : list (option Buffer)) (registrations : list TfLiteRegistration)
    (k : Z) (g : SubGraph) : M S Z :=
  match tensors g with
  | None => fail kTfLiteError
  | Some ts =>
    on_subgraph k (Subgraph.AddTensors (zlength ts)) ;;;
    void (on_subgraph k (Subgraph.SetInputs (FlatBufferIntArrayToVector (subgraph_inputs g)))) ;;;
    void (on_subgraph k (Subgraph.SetOutputs (FlatBufferIntArrayToVector (subgraph_outputs g)))) ;;;
    let* num_fp32_tensors := ParseTensors b bufs k ts in
    (match operators g with
     | Some ops => let* ok := succeeds (ParseNodes (allocation_ b) registrations k ops) in ensure ok
     | None => ret tt
     end) ;;;
    let* m := subgraph_ref k in
    void (on_subgraph k (Subgraph.SetVariables (variable_tensors (sub_graph m)))) ;;;
    (match subgraph_name g with
     | Some n => upd_subgraph k (set_sub_name n)
     | None => ret tt
     end) ;;;
    ret num_fp32_tensors
  end.

(** The interpreter after its construction: its subgraphs, threads and options. *)
Definition new_interpreter (own_context : Z) (b : Builder) (subgraphs : Z) : M S unit :=
  Interpreter_new own_context ;;;
  (if 1 <? subgraphs then AddSubgraphs (subgraphs - 1) ;;; ret tt else ret tt) ;;;
  void (SetNumThreads (num_threads_ b)) ;;;
  void (ApplyOptions (Some (options_of b))).

(** What is done to the interpreter before it is handed over. *)
Definition fill_interpreter (b : Builder) (m : Model) (registrations : list TfLiteRegistration)
    (has_flex_op : bool) (gs : list SubGraph) (bufs : list (option Buffer)) : M S unit :=
  let* num_fp32_tensors := for_fold (enumerate gs) 0 (fun _ kg =>
    build_subgraph b bufs registrations (fst kg) (snd kg)) in
  ParseSignatureDefs (signature_defs m) ;;;
  (if use_signature_tensor_names_ (options_of b) then use_signature_names else ret tt) ;;;
  SetMetadata (builder_metadata b) ;;;
  (if ShouldCreateLazyDelegateProviders num_fp32_tensors
   then upd_self (set_lazy_delegate_providers_ (delegate_creators b)) else ret tt) ;;;
  ApplyDelegates b has_flex_op ;;;
  (if negb (optimize_memory_for_large_tensors_ (options_of b) =? 0)
   then void (ApplyOptions (Some (options_of b))) else ret tt).

(** The interpreter of a failed build is deleted. *)
Definition or_delete (c : M S unit) : M S unit := fun s =>
  match c s with
  | (Fail e, s') => (Interpreter_delete ;;; fail e) s'
  | r => r
  end.

(** [operator()]: it leaves the interpreter in the state, or fails.  A model without
    a vector of subgraphs is a null pointer dereferenced. *)
Definition BuildInterpreter (own_context : Z) (b : Builder) : M S unit :=
  match model_ b with
  | None => fail kTfLiteError
  | Some m =>
    if negb (model_version m =? TFLITE_SCHEMA_VERSION) then fail kTfLiteError
    else
      match BuildLocalIndexToRegistrationMapping (op_resolver_ b) (default [] (operator_codes m)) (has_flex_op_ b) with
      | Undef => undef
      | Fail _ => fail kTfLiteError
      | Done (registrations, has_flex_op) =>
        let* gs := access (subgraphs m) in
        if bool_decide (gs = []) then fail kTfLiteError
        else
          match buffers m with
          | None => fail kTfLiteError
          | Some bufs =>
            or_delete (
              new_interpreter own_context b (zlength gs) ;;;
              fill_interpreter b m registrations has_flex_op gs bufs)
          end
      end
  end.
End Builder.
