(* ===== verification/ModelExample.v ===== *)
(** * A model to run

    A model of two subgraphs with a signature and control dependencies, a kernel that looks at the
    first byte of its input, and delegates that take the whole plan over: the inputs on which the
    theorems about interpreters are applied. *)
From Stdlib Require Import String.
From stdpp Require Import strings.
From S2P Require Import Prelude Heap Common MemoryPlanner Callbacks StdMap MetadataUtil.
From S2P Require Import Subgraph SubgraphRun SubgraphDelegate SubgraphWf SubgraphSteps SubgraphWorld.
From S2P Require Import OpResolver OptionTables ModelSchema Interpreter InterpreterBuilder.
From S2P Require ArenaPlanner ArenaInstance.
#[local] Open Scope Z_scope.

Abbreviation XP := ArenaPlanner.ArenaPlanner.
Abbreviation XW := (model_world XP unit).
Abbreviation XG := (sgstate XP XW).
Abbreviation XS := (istate XP unit).

#[export] Instance x_malloc : Malloc := bump_place.
#[export] Instance x_sort : StdSort := insertion_sort.

(** ** Kernels *)

(** The little-endian bytes of the float 1. *)
Definition one_bytes : bytes := [0; 0; 128; 63].

(** One of three classes, by the first byte of the input. *)
Definition scores (b : Z) : bytes :=
  concat ((fun k => if k =? b mod 3 then one_bytes else [0; 0; 0; 0]) <$> [0; 1; 2]).

(** The kernel reads its first input and writes its first output. *)
Definition classify (node : Z) : M XG unit :=
  let* nd := node_arrays node in
  let* i := access ((node_inputs nd).[0]) in
  let* o := access ((node_outputs nd).[0]) in
  let* ti := tensor_ref i in let* to := tensor_ref o in
  let* bs := Subgraph.on_heap (load (t_data ti) (t_bytes ti)) in
  let* b := access (bs.[0]) in
  Subgraph.on_heap (store (t_data to) (scores b)).

(** The functions 1 and 2 are the kernel's; 4 fails, 6 is another delegate's kernel, and 7 is an
    initialisation that fails. *)
Definition x_kernels : Callbacks XG := {|
  UnresolvedOpInvoke := 99;
  operator_at _ := None;
  delegate_at d :=
    if (d =? 1) || (d =? 3) then Some (mkDelegate (Some 3) None None 0 None)
    else if d =? 2 then Some (mkDelegate (Some 5) None None 0 None) else None;
  call_init f _ _ _ := ret (if f =? 7 then TfLiteKernelInitFailed else 1);
  call_free _ _ _ := ret tt;
  call_prepare _ _ _ := ret tt;
  call_invoke f _ n := if f =? 4 then fail kTfLiteError else classify n;
  call_delegate_Prepare _ _ _ := ret tt;
  call_CopyFromBufferHandle _ _ _ _ _ := ret tt;
  call_FreeBufferHandle _ _ _ _ := ret tt;
  call_check_cancelled _ _ := ret false;
  call_CloneTo _ _ := ret 0 |}.

Definition kernel_at (invoke : Z) : TfLiteRegistration :=
  mkRegistration None None (Some 1) (Some invoke) BuiltinOperator_CUSTOM None 1 0 0.

(** Delegates 1 and 3 take the plan over with a kernel that fails; delegate 2 fails when it has. *)
Definition take_over (d invoke : Z) : M XG unit := let* g := this in
  delegate_only (ReplaceNodeSubsetsWithDelegateKernels (CB := x_kernels) (kernel_at invoke) (execution_plan_ g) d).

#[export] Instance x_callbacks : Callbacks XG := {|
  UnresolvedOpInvoke := UnresolvedOpInvoke (Callbacks := x_kernels);
  operator_at := operator_at (Callbacks := x_kernels);
  delegate_at := delegate_at (Callbacks := x_kernels);
  call_init := call_init (Callbacks := x_kernels);
  call_free := call_free (Callbacks := x_kernels);
  call_prepare := call_prepare (Callbacks := x_kernels);
  call_invoke := call_invoke (Callbacks := x_kernels);
  call_delegate_Prepare f d _ :=
    if f =? 3 then take_over d 4 else take_over d 6 ;;; fail kTfLiteError;
  call_CopyFromBufferHandle := call_CopyFromBufferHandle (Callbacks := x_kernels);
  call_FreeBufferHandle := call_FreeBufferHandle (Callbacks := x_kernels);
  call_check_cancelled := call_check_cancelled (Callbacks := x_kernels);
  call_CloneTo := call_CloneTo (Callbacks := x_kernels) |}.

(** The only external context is the interpreter's own; a creator makes the delegate of its
    number. *)
#[export] Instance x_interpreter_callbacks : InterpreterCallbacks XS := {|
  context_at c := if c =? 5000 then Some None else None;
  call_Refresh _ _ := ret tt;
  call_ClearCaches _ := ret tt;
  call_creator f := ret f;
  call_deleter _ := ret tt |}.


(** They do what kernels and delegates may do. *)
Lemma classify_acts n (s : XG) : rtc (kernel_action n) s (snd (classify n s)).
Proof.
  assert (Hc : respects (rtc (kernel_action n)) (classify n)); [|apply Hc].
  assert (Hh : forall A (c : M heap A), respects (rtc (kernel_action n)) (Subgraph.on_heap (P := XP) (W := XW) c)).
  { intros A c s'. unfold Subgraph.on_heap, zoom. destruct (c _). apply rtc_once, act_context, act_outside. }
  assert (Hr : forall A (c : M XG A), (forall s', snd (c s') = s') -> respects (rtc (kernel_action n)) c).
  { intros A c Hs s'. rewrite Hs. apply rtc_refl. }
  unfold classify. repeat first [apply Hh | progress intros | apply respects_access; exact _
    | apply respects_bind; [exact _| |]].
  all: apply Hr; intros s'; first [done|by case_bool_decide].
Qed.

Lemma take_over_acts d invoke s : delegate_action d s (snd (take_over d invoke s)).
Proof. exact (act_replace d s (kernel_at invoke) (execution_plan_ (sg_graph s))). Qed.

#[export] Instance x_callbacks_ok : CallbacksOk x_callbacks.
Proof.
  split; intros; cbn [call_init call_free call_prepare call_invoke call_delegate_Prepare call_CopyFromBufferHandle
    call_FreeBufferHandle call_check_cancelled x_callbacks x_kernels]; try apply rtc_refl.
  - destruct (f =? 4); [apply rtc_refl|apply classify_acts].
  - apply rtc_once. destruct (f =? 3); [apply take_over_acts|].
    pose proof (take_over_acts d 6 s) as H. unfold bind. by destruct (take_over d 6 s) as [[]].
Qed.

(** ** The model *)

Definition x_resolver : MutableOpResolver.t :=
  snd (MutableOpResolver.AddCustom "Classify" (Some (kernel_at 2)) 1 MutableOpResolver.empty).

Definition x_tensor (sh : list Z) (type : Z) (nm : string) : Tensor :=
  mkModelTensor (Some sh) type 0 (Some nm) None false None None 0.

(** Four samples to three scores. *)
Definition x_graph (nm : string) : SubGraph := mkSubGraph
  (Some [x_tensor [1; 4] 7 "in"; x_tensor [1; 3] 0 "out"]) (Some [0]) (Some [1])
  (Some [mkModelOperator 0 (Some [0]) (Some [1]) None OtherOptions OtherOptions2 None 0 0]) (Some nm).

Definition x_metadata : bytes := SerializeModelControlDependencies [[]; []].

Definition x_model : Model := mkModel TFLITE_SCHEMA_VERSION
  (Some [mkOperatorCode BuiltinOperator_CUSTOM BuiltinOperator_CUSTOM (Some "Classify"%string) 1])
  (Some [x_graph "main"; x_graph "aux"])
  (Some [Some (mkBuffer None 0 0); Some (mkBuffer (Some (70000, x_metadata)) 0 0)])
  (Some [mkMetadata (Some kModelControlDependenciesMetadataKey) 1])
  (Some [Some (mkSignatureTable (Some [Some (mkTensorMap (Some "x"%string) 0)])
                                (Some [Some (mkTensorMap (Some "y"%string) 1)]) (Some "serving"%string) 0)]).

Definition x_builder : Builder := InterpreterBuilder_new (Some x_model)
  (MutableOpResolver.as_OpResolver x_resolver) [] None InterpreterOptions_init.

(** The interpreter, from nothing. *)
Definition x_start : XS := IState heap_empty members tt.
Definition x_built : outcome unit * XS := BuildInterpreter (ret 0) 5000 x_builder x_start.
Definition x_interpreter : XS := Eval vm_compute in snd x_built.

Lemma x_built_done : x_built = (Done tt, x_interpreter).
Proof. vm_compute. reflexivity. Qed.
