(* ===== verification/SubgraphUndo.v ===== *)
(** * Subgraphs: delegation is reversible

    Delegates without the hint that they take over the whole graph are applied to a graph without
    dequantizing nodes, applied again after a resize, or refused: removing them brings back the
    execution plan and the nodes the graph had before the first of them. *)
From Stdlib Require Import String.
From stdpp Require Import strings.
From S2P Require Import Prelude Heap Common Util GraphInfo MemoryPlanner Callbacks Subgraph.
From S2P Require Import SubgraphRun SubgraphDelegate SubgraphInline SubgraphWf SubgraphInlineWf SubgraphSteps SubgraphRedo.
From S2P Require Import ModelExample.
From S2P Require OpResolver Partition ArenaPlanner ArenaInstance Interpreter.
#[local] Open Scope Z_scope.

(** What a kernel does not change of its node: all but the temporaries and its own data. *)
Definition node_core (nr : TfLiteNode * TfLiteRegistration) : TfLiteNode * TfLiteRegistration :=
  (mkNode (node_inputs (fst nr)) (node_outputs (fst nr)) (node_intermediates (fst nr)) [] 0
     (builtin_data (fst nr)) (custom_initial_data (fst nr)) (custom_initial_data_size (fst nr)) (node_delegate (fst nr))
     (might_have_side_effect (fst nr)), snd nr).

Section Undo.
Context {P W : Type} {MP : MemoryPlanner P} {NP : NewPlanner P} {MM : Malloc} {SS : StdSort}.
Abbreviation S := (sgstate P W).
Context {SB : Siblings W} {DC : Decompositions P W} {CB : Callbacks S} {CBOk : CallbacksOk CB} {MPOk : MemoryPlannerOk P}.
Implicit Types (s : S) (g : Subgraph P).

Definition cores g : list (TfLiteNode * TfLiteRegistration) := node_core <$> nodes_and_registration_ g.

(** ** Calls that leave the delegation alone *)

Record frozen s s' : Prop := {
  frozen_pre : pre_delegation_execution_plan_ (sg_graph s') = pre_delegation_execution_plan_ (sg_graph s);
  frozen_plan : execution_plan_ (sg_graph s') = execution_plan_ (sg_graph s);
  frozen_applied : delegates_applied_ (sg_graph s') = delegates_applied_ (sg_graph s);
  frozen_undone : delegates_undone_ (sg_graph s') = delegates_undone_ (sg_graph s);
  frozen_options : options_ (sg_graph s') = options_ (sg_graph s);
  frozen_cores : cores (sg_graph s') = cores (sg_graph s) }.

#[local] Instance frozen_preorder : PreOrder frozen.
Proof. split; [by intros s|]. intros s s' s'' [] []. split; congruence. Qed.

Lemma frozen_same {A} (c : M S A) : (forall s, exists h w, snd (c s) = SG h (sg_graph s) w) -> respects frozen c.
Proof. intros Hc s. destruct (Hc s) as (h & w & ->). by split. Qed.

Lemma frozen_this : respects frozen this.
Proof. by intros s. Qed.
Lemma frozen_lift {A} (o : outcome A) : respects frozen (lift o).
Proof. by intros s. Qed.
Lemma frozen_on_heap {A} (c : M heap A) : respects frozen (on_heap c).
Proof. apply frozen_same. intros s. unfold on_heap, zoom. destruct (c _). by do 2 eexists. Qed.
Lemma frozen_on_tensor {A} i (c : M tstate A) : respects frozen (on_tensor i c).
Proof. intros s. unfold on_tensor. destruct (_.[i]) as [t|]; [|done]. by destruct (c _) as [r [h t']]. Qed.
Lemma frozen_on_planner {A} (c : M (mp_state P) A) : respects frozen (on_planner c).
Proof.
  intros s. unfold on_planner. destruct (memory_planner_ _); [|done].
  destruct (InterpreterInfo _); [|done]. by destruct (c _).
Qed.
#[local] Hint Resolve frozen_this frozen_lift frozen_on_heap frozen_on_tensor frozen_on_planner : respects.
(** A field that says nothing of the delegation. *)
#[local] Hint Extern 3 (respects frozen (upd _)) => (apply respects_modify; intros ?; by split) : respects.
#[local] Ltac go := repeat first [progress intros | solve [eauto 3 with respects] | walk_step].

Lemma frozen_node_ref n : respects frozen (node_ref n).
Proof. unfold node_ref. go. Qed.
Lemma frozen_tensor_ref i : respects frozen (tensor_ref i).
Proof. unfold tensor_ref. go. Qed.
Lemma frozen_tensor i : respects frozen (Subgraph.tensor i).
Proof. unfold Subgraph.tensor. go. Qed.
Lemma frozen_set_tensor i f : respects frozen (set_tensor i f).
Proof. apply frozen_on_tensor. Qed.
Lemma frozen_node_arrays n : respects frozen (node_arrays n).
Proof. intros s. rewrite node_arrays_run. destruct (_.[n]); [|done]. by case_bool_decide. Qed.
#[local] Hint Resolve frozen_node_ref frozen_tensor_ref frozen_tensor frozen_set_tensor frozen_node_arrays : respects.

(** A node changed where its core is kept. *)
Lemma frozen_set_node n f s :
  (forall nr, (nodes_and_registration_ (sg_graph s)).[n] = Some nr -> node_core (f (fst nr), snd nr) = node_core nr) ->
  frozen s (snd (set_node n f s)).
Proof.
  intros Hf. unfold set_node, node_ref, bind, this, access. cbn.
  destruct ((nodes_and_registration_ _).[n]) as [nr|] eqn:Hn; [|done]. cbn.
  unfold zinsert. destruct (_ || _); [done|]. split; cbn; try done. unfold cores. cbn.
  rewrite list_fmap_insert, (Hf nr eq_refl). apply list_insert_id.
  apply zlookup_some in Hn as [_ Hn]. by rewrite list_lookup_fmap, Hn.
Qed.

Lemma frozen_ResizeTensorImpl i dims : respects frozen (ResizeTensorImpl i dims).
Proof. unfold ResizeTensorImpl. go. Qed.
#[local] Hint Resolve frozen_ResizeTensorImpl : respects.

Lemma context_action_frozen s s' : context_action s s' -> frozen s s'.
Proof.
  intros [h w|i t'|i dims|n|].
  - by split.
  - apply frozen_set_tensor.
  - assert (H : respects frozen (ResizeTensor (P := P) (W := W) i dims)) by (unfold ResizeTensor; go). apply H.
  - assert (H : respects frozen (AddTensors (P := P) (W := W) n)) by (unfold AddTensors; go). apply H.
  - assert (H : respects frozen (Cancel (P := P) (W := W))) by (unfold Cancel; go). apply H.
Qed.

Lemma kernel_action_frozen n s s' : kernel_action n s s' -> frozen s s'.
Proof. intros [s1 H|ts ud Hts]; [by apply context_action_frozen|]. by apply frozen_set_node. Qed.

Lemma frozen_call_init f d b l : respects frozen (call_init f d b l).
Proof. intros s. eapply rtc_moves; [exact _|apply context_action_frozen|apply init_acts]. Qed.
Lemma frozen_call_free f d b : respects frozen (call_free f d b).
Proof. intros s. eapply rtc_moves; [exact _|apply context_action_frozen|apply free_acts]. Qed.
Lemma frozen_call_prepare f d n : respects frozen (call_prepare f d n).
Proof. intros s. eapply rtc_moves; [exact _|apply kernel_action_frozen|apply prepare_acts]. Qed.
Lemma frozen_call_invoke f d n : respects frozen (call_invoke f d n).
Proof. intros s. eapply rtc_moves; [exact _|apply kernel_action_frozen|apply invoke_acts]. Qed.
Lemma frozen_call_Copy f d data h i : respects frozen (call_CopyFromBufferHandle f d data h i).
Proof. intros s. eapply rtc_moves; [exact _|apply context_action_frozen|apply CopyFromBufferHandle_acts]. Qed.
Lemma frozen_call_Free f d data i : respects frozen (call_FreeBufferHandle f d data i).
Proof. intros s. eapply rtc_moves; [exact _|apply context_action_frozen|apply FreeBufferHandle_acts]. Qed.
Lemma frozen_call_check f d : respects frozen (call_check_cancelled f d).
Proof. intros s. eapply rtc_moves; [exact _|apply context_action_frozen|apply check_cancelled_acts]. Qed.
#[local] Hint Resolve frozen_call_init frozen_call_free frozen_call_prepare frozen_call_invoke frozen_call_Copy
  frozen_call_Free frozen_call_check : respects.

Lemma frozen_op_dispatch {A} reg wd pl own (run : Z -> option Z -> M S A) wa ab :
  (forall f d, respects frozen (run f d)) -> respects frozen wa -> respects frozen ab ->
  respects frozen (op_dispatch reg wd pl own run wa ab).
Proof. intros Hr Hw Ha. unfold op_dispatch. go. Qed.
Lemma frozen_OpInit reg b l : respects frozen (OpInit reg b l).
Proof. apply frozen_op_dispatch; go. Qed.
Lemma frozen_OpPrepare reg n : respects frozen (OpPrepare reg n).
Proof. apply frozen_op_dispatch; go. Qed.
Lemma frozen_OpInvoke reg n : respects frozen (OpInvoke reg n).
Proof. apply frozen_op_dispatch; go. Qed.
Lemma frozen_OpFree reg b : respects frozen (OpFree reg b).
Proof. unfold OpFree. destruct (b =? 0); [go|]. apply frozen_op_dispatch; go. Qed.
#[local] Hint Resolve frozen_OpInit frozen_OpPrepare frozen_OpInvoke frozen_OpFree : respects.

(** *** Building, preparing and running *)

Lemma frozen_builder_function d f : respects frozen (builder_function (S := S) d f).
Proof. unfold builder_function, TfLiteDelegateIsOpaque. go. Qed.
#[local] Hint Resolve frozen_builder_function : respects.
Lemma frozen_Copy d h i : respects frozen (TfLiteDelegateCopyFromBufferHandleInternal d h i).
Proof. unfold TfLiteDelegateCopyFromBufferHandleInternal. go. Qed.
Lemma frozen_Free d i : respects frozen (TfLiteDelegateFreeBufferHandleInternal d i).
Proof. unfold TfLiteDelegateFreeBufferHandleInternal. go. Qed.
#[local] Hint Resolve frozen_Copy frozen_Free : respects.
Lemma frozen_EnsureTensorDataIsReadable i : respects frozen (EnsureTensorDataIsReadable i).
Proof. unfold EnsureTensorDataIsReadable. go. Qed.
#[local] Hint Resolve frozen_EnsureTensorDataIsReadable : respects.

Lemma frozen_HasDynamicTensorImpl l : respects frozen (HasDynamicTensorImpl (P := P) (W := W) l).
Proof. induction l as [|i l IH]; cbn; go. Qed.
#[local] Hint Resolve frozen_HasDynamicTensorImpl : respects.
Lemma frozen_HasDynamicTensor l : respects frozen (HasDynamicTensor (P := P) (W := W) l).
Proof. unfold HasDynamicTensor. go. Qed.
#[local] Hint Resolve frozen_HasDynamicTensor : respects.
Lemma frozen_prepare_ops plan : forall last, respects frozen (prepare_ops plan last).
Proof. induction plan as [|[k n] plan IH]; intros last; cbn [prepare_ops]; go. Qed.
#[local] Hint Resolve frozen_prepare_ops : respects.
Lemma frozen_PrepareOpsStartingAt first plan last : respects frozen (PrepareOpsStartingAt first plan last).
Proof. unfold PrepareOpsStartingAt. go. Qed.
Lemma frozen_any_delegate flag ds : respects frozen (any_delegate flag ds).
Proof. induction ds as [|d ds IH]; cbn; unfold TfLiteDelegateGetFlagsInternal, TfLiteDelegateIsOpaque; go. Qed.
#[local] Hint Resolve frozen_PrepareOpsStartingAt frozen_any_delegate : respects.
Lemma frozen_Verify i : respects frozen (VerifyCustomAllocationForTensor (P := P) (W := W) i).
Proof. unfold VerifyCustomAllocationForTensor. go. Qed.
#[local] Hint Resolve frozen_Verify : respects.
Lemma frozen_PrepareOpsAndTensors : respects frozen PrepareOpsAndTensors.
Proof.
  unfold PrepareOpsAndTensors, prepare_original_plan, make_planner, verify_custom_allocations, for_tensors,
    ShouldPreserveAllTensors, option_set. go.
Qed.
Lemma frozen_ResetVariableTensors : respects frozen (ResetVariableTensors (P := P) (W := W)).
Proof. unfold ResetVariableTensors. go. Qed.
#[local] Hint Resolve frozen_PrepareOpsAndTensors frozen_ResetVariableTensors : respects.

Lemma frozen_allocate_tensors : respects frozen allocate_tensors.
Proof.
  unfold allocate_tensors, reuse_allocations, reallocate, InitializeTensorReleaseMap, for_plan,
    free_delegated_temporaries, if_planner. go.
Qed.
#[local] Hint Resolve frozen_allocate_tensors : respects.

Lemma frozen_invoke_node k : respects frozen (invoke_node k).
Proof.
  unfold invoke_node, check_input, MayAllocateOpOutput, for_tensors, check_cancellation, IsCancelled, run_node,
    force_prepare, MaybeReleaseDynamicTensors, release_dynamic, ShouldOptimizeMemoryForLargeTensors,
    ShouldReleaseDynamicTensors, if_planner, option_set. go.
Qed.
#[local] Hint Resolve frozen_invoke_node : respects.
Lemma frozen_Invoke : respects frozen Invoke.
Proof. unfold Invoke, InvokeImpl. go. Qed.

Lemma frozen_flags d : respects frozen (TfLiteDelegateGetFlagsInternal (S := S) d).
Proof. unfold TfLiteDelegateGetFlagsInternal, TfLiteDelegateIsOpaque. go. Qed.
Lemma frozen_all_delegated plan : respects frozen (all_delegated (P := P) (W := W) plan).
Proof. induction plan as [|n plan IH]; cbn; go. Qed.
Lemma frozen_SwitchToDelegateContext : respects frozen (SwitchToDelegateContext (P := P) (W := W)).
Proof. unfold SwitchToDelegateContext. go. Qed.
Lemma frozen_SwitchToKernelContext : respects frozen (SwitchToKernelContext (P := P) (W := W)).
Proof. unfold SwitchToKernelContext. go. Qed.
#[local] Hint Resolve frozen_Invoke frozen_flags frozen_all_delegated frozen_SwitchToDelegateContext
  frozen_SwitchToKernelContext : respects.

(** *** What a delegate does when it is applied *)

(** Nodes are added behind the others, and the plan is replaced. *)
Record extends s s' : Prop := {
  extends_pre : pre_delegation_execution_plan_ (sg_graph s') = pre_delegation_execution_plan_ (sg_graph s);
  extends_applied : delegates_applied_ (sg_graph s') = delegates_applied_ (sg_graph s);
  extends_undone : delegates_undone_ (sg_graph s') = delegates_undone_ (sg_graph s);
  extends_options : options_ (sg_graph s') = options_ (sg_graph s);
  extends_cores : cores (sg_graph s) `prefix_of` cores (sg_graph s') }.

#[local] Instance extends_preorder : PreOrder extends.
Proof. split; [by intros s|]. intros s s' s'' [] []. split; [congruence..|]. by etransitivity. Qed.

Lemma frozen_extends s s' : frozen s s' -> extends s s'.
Proof. intros []. split; [congruence..|]. by rewrite frozen_cores0. Qed.
Lemma extends_frozen {A} (c : M S A) : respects frozen c -> respects extends c.
Proof. intros Hc s. apply frozen_extends, Hc. Qed.
#[local] Hint Extern 4 (respects extends _) => (apply extends_frozen) : respects.
#[local] Hint Extern 3 (respects extends (upd _)) => (apply respects_modify; intros ?; by split) : respects.

(** Changing a node that was not there. *)
Lemma extends_new_node n f s s0 : extends s0 s -> zlength (nodes_and_registration_ (sg_graph s0)) <= n ->
  extends s0 (snd (set_node n f s)).
Proof.
  intros [Hp Ha Hu Hopt [more Hc]] Hn. unfold set_node, node_ref, bind, this, access. cbn.
  destruct ((nodes_and_registration_ _).[n]) as [nr|] eqn:Hnr; [|by split; [..|exists more]]. cbn.
  unfold zinsert. destruct (_ || _); [by split; [..|exists more]|]. split; cbn; try done.
  unfold cores in *. cbn. rewrite list_fmap_insert, Hc.
  rewrite insert_app_r_alt by (rewrite length_fmap; unfold zlength in Hn; lia). by eexists.
Qed.

Lemma cores_length g : length (cores g) = length (nodes_and_registration_ g).
Proof. apply length_fmap. Qed.

Lemma extends_length s s' : extends s s' ->
  zlength (nodes_and_registration_ (sg_graph s)) <= zlength (nodes_and_registration_ (sg_graph s')).
Proof. intros [_ _ _ _ Hc%prefix_length]. rewrite !cores_length in Hc. unfold zlength. lia. Qed.

Lemma extends_finish_node n ud id ids bd reg s s0 : extends s0 s -> zlength (nodes_and_registration_ (sg_graph s0)) <= n ->
  extends s0 (snd (finish_node n ud id ids bd reg s)).
Proof.
  intros Hs Hn. unfold finish_node, OpMightHaveSideEffect. unfold bind at 1. rewrite node_arrays_run.
  destruct ((nodes_and_registration_ (sg_graph s)).[n]) as [nr|] eqn:Hnr; [|done]. case_bool_decide; [done|].
  rewrite bind_assoc, (bind_done this _ s (sg_graph s) s), bind_ret by done.
  rewrite (bind_done this _ s (sg_graph s) s) by done.
  unfold zinsert, access. destruct (_ || _); [done|]. rewrite bind_ret. destruct Hs as [Hp Ha Hu Hopt [more Hc]].
  split; cbn; try done. unfold cores in *. cbn. rewrite list_fmap_insert, Hc.
  rewrite insert_app_r_alt by (rewrite length_fmap; unfold zlength in Hn; lia). by eexists.
Qed.

Lemma frozen_CheckTensorIndices l : respects frozen (CheckTensorIndices (P := P) (W := W) l).
Proof. unfold CheckTensorIndices, for_tensors. go. Qed.
Lemma frozen_CheckOverlap ins outs : respects frozen (CheckInputAndOutputForOverlap (P := P) (W := W) ins outs).
Proof. unfold CheckInputAndOutputForOverlap. go. Qed.
#[local] Hint Resolve frozen_CheckTensorIndices frozen_CheckOverlap : respects.

(** From a state that extends [s0] a call leaves one that does. *)
Lemma leaves_extends {A} s0 (c : M S A) : respects extends c -> leaves (extends s0) c (fun _ => extends s0) (extends s0).
Proof. intros Hc. apply (respects_leaves extends _ c Hc). intros s s' H Hs. by etransitivity. Qed.

Lemma push_node_run ins outs ims s : exists s', push_node ins outs ims s = (Done (zlength (nodes_and_registration_ (sg_graph s))), s') /\
  extends s s'.
Proof.
  eexists. split; [reflexivity|]. split; cbn; try done. unfold cores. cbn. rewrite fmap_app. by eexists.
Qed.

Lemma leaves_owning {A} data (c : M S A) I (Q : A -> S -> Prop) s0 :
  leaves I c Q (extends s0) -> leaves I (owning data c) Q (extends s0).
Proof.
  intros Hc s Hs. specialize (Hc s Hs). unfold owning. destruct (c s) as [[n|e|] s']; [done| |done].
  assert (Hf : respects extends ((if negb (data =? 0) then on_heap (free data) else ret tt) ;;; fail (A := A) e)) by go.
  specialize (Hf s').
  unfold bind in *. destruct (negb (data =? 0)); [|done].
  destruct (on_heap (free data) s') as [[[]|e'|] s'']; cbn in *; by etransitivity.
Qed.

Lemma AddNode_leaves ins outs ims id ids bd reg s0 :
  leaves (extends s0) (AddNodeWithParameters ins outs ims id ids bd reg)
    (fun n s' => extends s0 s' /\ zlength (nodes_and_registration_ (sg_graph s0)) <= n) (extends s0).
Proof.
  apply leaves_owning. eapply leaves_bind; [apply leaves_extends; go|intros g]. case_bool_decide; [by intros s Hs|].
  do 4 (eapply leaves_bind; [apply leaves_extends; go|intros ?]).
  apply (leaves_bind _ _ _ (fun n s => extends s0 s /\ zlength (nodes_and_registration_ (sg_graph s0)) <= n)).
  { intros s Hs. destruct (push_node_run ins outs ims s) as (s' & -> & Hx).
    split; [by etransitivity|by apply extends_length]. }
  intros n. apply (leaves_bind _ _ _ (fun _ s => extends s0 s /\ zlength (nodes_and_registration_ (sg_graph s0)) <= n)).
  { intros s [Hs Hn]. assert (Hi : respects extends (if negb (id =? 0) then OpInit reg id ids else OpInit reg bd 0)) by go.
    specialize (Hi s). destruct (negb (id =? 0));
      [destruct (OpInit reg id ids s) as [[ud|e|] s']|destruct (OpInit reg bd 0 s) as [[ud|e|] s']];
      cbn in Hi; first [split; [|done]|idtac]; by etransitivity. }
  intros ud s [Hs Hn]. destruct (ud =? TfLiteKernelInitFailed).
  - unfold bind. cbn. destruct Hs. by split.
  - pose proof (extends_finish_node n ud id ids bd reg s s0 Hs Hn) as Hf. unfold bind.
    destruct (finish_node _ _ _ _ _ _ s) as [[[]|e|] s']; [by split|done|done].
Qed.

Lemma extends_AddNodeWithParameters ins outs ims id ids bd reg :
  respects extends (AddNodeWithParameters ins outs ims id ids bd reg).
Proof.
  intros s. pose proof (AddNode_leaves ins outs ims id ids bd reg s s ltac:(reflexivity)) as H.
  destruct (AddNodeWithParameters _ _ _ _ _ _ _ s) as [[n|e|] s']; [apply H|exact H..].
Qed.

Lemma frozen_is_opaque d : respects frozen (TfLiteDelegateIsOpaque (S := S) d).
Proof. unfold TfLiteDelegateIsOpaque. go. Qed.
#[local] Hint Resolve frozen_is_opaque extends_AddNodeWithParameters : respects.

Lemma extends_replace_subset reg d b : respects extends (replace_subset reg d b).
Proof.
  unfold replace_subset. destruct (Partition.type b); [go| |go].
  unfold create_params. apply respects_bind; [exact _|go|intros params].
  intros s. pose proof (AddNode_leaves (Partition.input_tensors b) (Partition.output_tensors b) [] 0 0 params reg
    s s ltac:(reflexivity)) as H.
  unfold bind at 1. destruct (AddNodeWithParameters _ _ _ _ _ _ _ s) as [[n|e|] s']; [destruct H as [Hs Hn]|exact H..].
  assert (Hc : respects extends (for_each (Partition.output_tensors b) (claim_tensor (P := P) (W := W) d)))
    by (unfold claim_tensor; go).
  specialize (Hc s'). unfold bind. destruct (for_each _ _ s') as [[[]|e|] s'']; cbn [snd] in Hc;
    [|by etransitivity..].
  apply extends_new_node; [by etransitivity|done].
Qed.
#[local] Hint Resolve extends_replace_subset : respects.

Lemma frozen_PartitionGraph ns : respects frozen (PartitionGraph (P := P) (W := W) ns).
Proof. unfold PartitionGraph, ShouldPreserveAllTensors, DisableDelegateClustering, option_set. go. Qed.
#[local] Hint Resolve frozen_PartitionGraph : respects.

Lemma extends_Replace reg ns d : respects extends (ReplaceNodeSubsetsWithDelegateKernels reg ns d).
Proof. unfold ReplaceNodeSubsetsWithDelegateKernels, own_registration. go. Qed.

Lemma delegate_action_extends d s s' : delegate_action d s s' -> extends s s'.
Proof.
  intros [s1 H|reg ns]; [by apply frozen_extends, context_action_frozen|].
  assert (Hc : respects extends (delegate_only (ReplaceNodeSubsetsWithDelegateKernels reg ns d))); [|apply Hc].
  unfold delegate_only. go. apply extends_Replace.
Qed.

Lemma extends_Prepare d : respects extends (TfLiteDelegatePrepareInternal (S := S) d).
Proof.
  assert (Hp : forall f data, respects extends (call_delegate_Prepare f d data)).
  { intros f data s. eapply rtc_moves; [exact _|apply delegate_action_extends|apply Prepare_acts]. }
  unfold TfLiteDelegatePrepareInternal. go.
Qed.

(** ** Undoing *)

(** The graph that delegates are applied to: the nodes, none of which is a delegate's or
    dequantizes, and the plan, which has the last node. *)
Context (ns : list (TfLiteNode * TfLiteRegistration)) (p : list Z).
Context (own_nodes : Forall (fun nr => node_delegate (fst nr) = 0 /\ builtin_code (snd nr) <> kTfLiteBuiltinDequantize) ns).
Context (plan_in_range : Forall (fun n => 0 <= n < zlength ns) p) (last_in_plan : zlength ns - 1 ∈ p).
(** A function that returns nothing does not fail. *)
Context (free_returns : forall f d b s e, fst (call_free f d b s) <> Fail e).

Definition original_nodes s : Prop := take (length ns) (cores (sg_graph s)) = node_core <$> ns.
Definition undelegated s : Prop := pre_delegation_execution_plan_ (sg_graph s) = [] /\
  execution_plan_ (sg_graph s) = p /\ cores (sg_graph s) = node_core <$> ns.
Definition delegated s : Prop := pre_delegation_execution_plan_ (sg_graph s) = p /\ original_nodes s.

Lemma original_node s n nr : original_nodes s -> 0 <= n < zlength ns ->
  (nodes_and_registration_ (sg_graph s)).[n] = Some nr ->
  node_delegate (fst nr) = 0 /\ builtin_code (snd nr) <> kTfLiteBuiltinDequantize.
Proof.
  intros Hs Hn [_ Hnr]%zlookup_some.
  assert (H : (take (length ns) (cores (sg_graph s))) !! Z.to_nat n = Some (node_core nr)).
  { rewrite lookup_take_lt by (unfold zlength in Hn; lia). unfold cores. by rewrite list_lookup_fmap, Hnr. }
  rewrite Hs, list_lookup_fmap in H. destruct (ns !! Z.to_nat n) as [nr'|] eqn:Hn'; [|done].
  injection H as Hcore. destruct (proj1 (Forall_lookup _ _) own_nodes _ _ Hn') as [Hd Hb].
  destruct nr as [nd r], nr' as [nd' r']. unfold node_core in Hcore. cbn in *. split; congruence.
Qed.

(** *** Undoing never fails *)

Definition returns {A} (c : M S A) : Prop := forall s e, fst (c s) <> Fail e.

Lemma returns_bind {A B} (c : M S A) (k : A -> M S B) : returns c -> (forall a, returns (k a)) -> returns (bind c k).
Proof. intros Hc Hk s e. specialize (Hc s). unfold bind. destruct (c s) as [[a|e'|] s']; [apply Hk|by destruct (Hc e')|done]. Qed.
Lemma returns_for_each {A} (l : list A) body : (forall x, returns (body x)) -> returns (for_each l body).
Proof. intros Hb. induction l as [|x l IH]; [done|]. by apply returns_bind. Qed.
Lemma returns_for_fold {A B} (l : list A) body : (forall b x, returns (body b x)) -> forall b : B, returns (for_fold l b body).
Proof. intros Hb. induction l as [|x l IH]; intros b; [done|]. by apply returns_bind. Qed.
Lemma returns_access {A} (o : option A) : returns (access o).
Proof. by destruct o. Qed.
Lemma returns_free a : returns (on_heap (free a)).
Proof. intros s e. unfold on_heap, zoom, free. destruct (a =? 0); [done|]. by destruct (_ !! _). Qed.
#[local] Ltac returns_step := first
  [ progress intros | assumption | apply returns_access | apply returns_free | apply returns_bind | apply returns_for_each
  | apply returns_for_fold | solve [by intros ? ?]
  | match goal with
    | |- returns (if ?b then _ else _) => destruct b
    | |- returns (match ?x with _ => _ end) => destruct x
    end ].

Lemma returns_OpFree reg b : returns (OpFree reg b).
Proof.
  assert (Hf : forall f d, returns (call_free f d b)) by (intros ? ? ? ?; apply free_returns).
  unfold OpFree, op_dispatch, node_ref. repeat first [apply Hf | returns_step].
Qed.

Lemma returns_UndoAllDelegates : returns (UndoAllDelegates (P := P) (W := W)).
Proof.
  unfold UndoAllDelegates, for_plan, CleanupNode, fp16_map, remap_fp16, remap_input, set_node, node_arrays, node_ref,
    tensor_ref, reset_siblings. repeat first [apply returns_OpFree | returns_step].
Qed.

(** *** What undoing leaves *)

Definition anywhere s : Prop := True.

Lemma leaves_anywhere {A} I (c : M S A) (Q : A -> S -> Prop) E : leaves I c Q E -> leaves I c Q anywhere.
Proof. intros Hc s Hs. specialize (Hc s Hs). by destruct (c s) as [[a|e|] s']. Qed.

Lemma leaves_frozen {A} (I : S -> Prop) (c : M S A) : respects frozen c -> (forall s s', frozen s s' -> I s -> I s') ->
  leaves I c (fun _ => I) anywhere.
Proof. intros Hc HI. eapply leaves_anywhere, (respects_leaves frozen I c Hc HI). Qed.

Definition with_applied (a : list Z) (I : S -> Prop) s : Prop := I s /\ delegates_applied_ (sg_graph s) = a.

Lemma delegated_frozen s s' : frozen s s' -> delegated s -> delegated s'.
Proof. intros [Hp _ _ _ _ Hc] [H1 H2]. unfold delegated, original_nodes in *. by rewrite Hp, Hc. Qed.
Lemma undelegated_frozen s s' : frozen s s' -> undelegated s -> undelegated s'.
Proof. intros [Hp Hpl _ _ _ Hc] (H1 & H2 & H3). unfold undelegated. by rewrite Hp, Hpl, Hc. Qed.
Lemma with_applied_frozen a I s s' : (forall s s', frozen s s' -> I s -> I s') -> frozen s s' ->
  with_applied a I s -> with_applied a I s'.
Proof. intros HI Hf [H1 H2]. split; [by eapply HI|]. by rewrite (frozen_applied _ _ Hf). Qed.

(** Only the nodes of delegates are cleaned up. *)
Lemma cleanup_leaves a n : leaves (with_applied a delegated)
  (let* nr := node_ref n in if node_delegate (fst nr) =? 0 then ret tt else CleanupNode n)
  (fun _ => with_applied a delegated) anywhere.
Proof.
  intros s Hs. unfold node_ref at 1. rewrite bind_assoc, (bind_done this _ s (sg_graph s) s) by done.
  destruct ((nodes_and_registration_ (sg_graph s)).[n]) as [nr|] eqn:Hn; [|done]. cbn [access]. rewrite bind_ret.
  destruct (Z.eqb_spec (node_delegate (fst nr)) 0) as [|Hd]; [done|].
  assert (Hlen : zlength ns <= n).
  { destruct Hs as [[_ Ho] _]. pose proof (proj1 (zlookup_some _ _ _) Hn) as [Hr _].
    destruct (Z.le_gt_cases (zlength ns) n); [done|]. by destruct (original_node s n nr Ho ltac:(lia) Hn). }
  clear Hn Hd. revert s Hs. change (leaves (with_applied a delegated) (CleanupNode n) (fun _ => with_applied a delegated) anywhere).
  unfold CleanupNode.
  do 5 (eapply leaves_bind; [apply leaves_frozen; [go|intros s s' Hf; apply with_applied_frozen; [apply delegated_frozen|exact Hf]]|intros ?]).
  intros s [[Hp Ho] Ha]. unfold set_node, node_ref, bind, this, access. cbn.
  destruct ((nodes_and_registration_ _).[n]) as [nr'|] eqn:Hn; [|done]. cbn. unfold zinsert.
  destruct (_ || _); [done|]. split; [split|]; cbn; try done. unfold original_nodes, cores in *. cbn.
  rewrite list_fmap_insert, take_insert_ge by (unfold zlength in Hlen; lia). done.
Qed.

Lemma node_ref_run n s : node_ref n s =
  match (nodes_and_registration_ (sg_graph s)).[n] with Some nr => (Done nr, s) | None => (Undef, s) end.
Proof. unfold node_ref. rewrite (bind_done this _ s (sg_graph s) s) by done. by destruct (_.[n]). Qed.

(** The map of float16 tensors stays the identity. *)
Lemma fp16_map_identity s : original_nodes s -> execution_plan_ (sg_graph s) = p ->
  exists o, fp16_map s = (o, s) /\ forall l, o = Done l -> l = zrange 0 (zlength (tensors_ (sg_graph s)) - 1).
Proof.
  intros Ho Hp. unfold fp16_map. rewrite (bind_done this _ s (sg_graph s) s), Hp by done.
  generalize (zrange 0 (zlength (tensors_ (sg_graph s)) - 1)). revert plan_in_range. clear Hp last_in_plan.
  induction p as [|n l IH]; intros Hr m; [exists (Done m); by split; [|intros ? [= <-]]|]. apply Forall_cons in Hr as [Hn Hr].
  rewrite for_fold_cons, bind_assoc. unfold bind at 1. rewrite node_ref_run.
  destruct ((nodes_and_registration_ (sg_graph s)).[n]) as [nr|] eqn:Hnr; [|by exists Undef].
  destruct (original_node s n nr Ho Hn Hnr) as [_ Hb]. destruct (Z.eqb_spec (builtin_code (snd nr)) kTfLiteBuiltinDequantize); [done|].
  rewrite bind_ret. by apply IH.
Qed.

(** An input that is put back where it was. *)
Lemma remap_input_same T ins n k i s0 :
  (forall nr, (nodes_and_registration_ (sg_graph s0)).[n] = Some nr -> node_inputs (fst nr) = ins) ->
  (k, i) ∈ enumerate ins ->
  leaves (frozen s0) (remap_input (zrange 0 (T - 1)) n k i) (fun _ => frozen s0) anywhere.
Proof.
  intros Hins Hk s Hs. unfold remap_input. destruct (i =? kTfLiteOptionalTensor); [done|].
  unfold tensor_ref. rewrite bind_assoc, (bind_done this _ s (sg_graph s) s) by done.
  destruct ((tensors_ (sg_graph s)).[i]) as [t|]; [|done]. cbn [access]. rewrite bind_ret. case_bool_decide; [|done].
  destruct ((zrange 0 (T - 1)).[i]) as [o|] eqn:Hoi; [|done]. cbn [access]. rewrite bind_ret.
  unfold bind at 1. rewrite node_arrays_run.
  destruct ((nodes_and_registration_ (sg_graph s)).[n]) as [nr|] eqn:Hnr; [|done]. case_bool_decide; [done|].
  assert (Hcur : node_inputs (fst nr) = ins).
  { pose proof (frozen_cores _ _ Hs) as Hc. apply zlookup_some in Hnr as [Hr Hnr].
    assert (Hl : cores (sg_graph s) !! Z.to_nat n = Some (node_core nr)) by (unfold cores; by rewrite list_lookup_fmap, Hnr).
    rewrite Hc in Hl. unfold cores in Hl. rewrite list_lookup_fmap in Hl.
    destruct (nodes_and_registration_ (sg_graph s0) !! Z.to_nat n) as [nr0|] eqn:Hn0; [|done].
    injection Hl as Hcore. rewrite <- (Hins nr0).
    - destruct nr, nr0. unfold node_core in Hcore. cbn in *. congruence.
    - apply zlookup_some. split; [|done]. unfold zlength in *. pose proof (lookup_lt_Some _ _ _ Hn0). lia. }
  assert (o = i) as ->.
  { apply zlookup_elem_of in Hoi as Hel. unfold zrange in Hoi. apply zlookup_some in Hoi as [Hr Hoi]. 
    rewrite list_lookup_fmap in Hoi. apply fmap_Some in Hoi as (j & Hj & ->). apply lookup_seq in Hj as [-> _]. lia. }
  apply enumerate_elem in Hk as (j & -> & Hj).
  assert (zinsert (node_inputs (fst nr)) (Z.of_nat j) i = Some (node_inputs (fst nr))) as ->.
  { rewrite Hcur. unfold zinsert. pose proof (lookup_lt_Some _ _ _ Hj).
    destruct (Z.ltb_spec (Z.of_nat j) 0); [lia|]. destruct (Z.leb_spec (Z.of_nat (length ins)) (Z.of_nat j)); [lia|]. cbn.
    by rewrite Nat2Z.id, list_insert_id. }
  cbn [access]. rewrite bind_ret.
  assert (Hf : frozen s (snd (set_node n (set_node_inputs (node_inputs (fst nr))) s))).
  { apply frozen_set_node. intros nr' Hnr'. by simplify_eq. }
  destruct (set_node _ _ s) as [[[]|e|] s']; [|done|done]. by etransitivity.
Qed.

(** The plan is back, the nodes of the delegates are still there. *)
Definition restored s : Prop := pre_delegation_execution_plan_ (sg_graph s) = [] /\
  execution_plan_ (sg_graph s) = p /\ original_nodes s.

Lemma restored_frozen s s' : frozen s s' -> restored s -> restored s'.
Proof. intros [Hp Hpl _ _ _ Hc] (H1 & H2 & H3). unfold restored, original_nodes in *. by rewrite Hp, Hpl, Hc. Qed.

Lemma leaves_for_all {A} (I : S -> Prop) (l : list A) body :
  (forall x, x ∈ l -> leaves I (body x) (fun _ => I) anywhere) -> leaves I (for_each l body) (fun _ => I) anywhere.
Proof.
  intros Hb. apply (leaves_for_each (fun _ => I)); [done|]. intros pre x rest ->. apply Hb. set_solver.
Qed.

Lemma remap_leaves s0 T : restored s0 -> leaves (frozen s0) (remap_fp16 (zrange 0 (T - 1))) (fun _ => frozen s0) anywhere.
Proof.
  intros H0 s Hs. unfold remap_fp16, for_plan. rewrite (bind_done this _ s (sg_graph s) s) by done.
  rewrite (frozen_plan _ _ Hs), (proj1 (proj2 H0)). revert s Hs. apply leaves_for_all.
  intros n Hn s Hs. pose proof (restored_frozen _ _ Hs H0) as (_ & _ & Ho).
  pose proof (proj1 (Forall_forall _ _) plan_in_range n Hn) as Hr.
  unfold bind at 1. rewrite node_ref_run. destruct ((nodes_and_registration_ (sg_graph s)).[n]) as [nr|] eqn:Hnr; [|done].
  destruct (original_node s n nr Ho Hr Hnr) as [_ Hb].
  destruct (Z.eqb_spec (builtin_code (snd nr)) kTfLiteBuiltinDequantize); [done|].
  unfold bind at 1. rewrite node_arrays_run, Hnr. case_bool_decide; [done|].
  match goal with |- context [for_each ?l ?b s] => assert (Hl : leaves (frozen s) (for_each l b) (fun _ => frozen s) anywhere) end.
  { apply leaves_for_all. intros [k i] Hk. apply (remap_input_same T (node_inputs (fst nr))); [|exact Hk].
    intros nr' Hnr'. by simplify_eq. }
  specialize (Hl s ltac:(reflexivity)). destruct (for_each _ _ s) as [[[]|e|] s']; [|done|done]. by etransitivity.
Qed.

Lemma fold_max_last l a m : a <= m -> Forall (fun n => n <= m) l -> m ∈ l -> fold_left Z.max l a = m.
Proof.
  revert a. induction l as [|x l IH]; intros a Ha Hl Hm; [set_solver|]. apply Forall_cons in Hl as [Hx Hl]. cbn.
  apply elem_of_cons in Hm as [<-|Hm]; [|apply IH; [lia|done..]].
  destruct (fold_max_le l (Z.max a m)) as [Hge _]. rewrite Z.max_r in * by lia.
  assert (Hle : forall k, fold_left Z.max l k <= Z.max k m).
  { clear - Hl. induction Hl as [|x l Hx _ IH]; intros k; cbn; [lia|]. specialize (IH (Z.max k x)). lia. }
  specialize (Hle m). lia.
Qed.

Lemma max_retained : fold_left Z.max p 0 = zlength ns - 1.
Proof.
  apply fold_max_last; [|eapply Forall_impl; [exact plan_in_range|cbn; lia]|exact last_in_plan].
  pose proof (proj1 (Forall_forall _ _) plan_in_range _ last_in_plan). cbn in *. lia.
Qed.

(** The nodes of the delegates are dropped. *)
Lemma resize_cores s x : original_nodes s -> node_core <$> zresize (nodes_and_registration_ (sg_graph s)) (zlength ns) x = node_core <$> ns.
Proof.
  intros Ho. unfold zresize, zlength. rewrite Nat2Z.id. rewrite <- Ho. unfold original_nodes, cores in Ho.
  assert (Hlen := f_equal length Ho). rewrite length_take, !length_fmap in Hlen.
  replace (length ns - length (nodes_and_registration_ (sg_graph s)))%nat with 0%nat by lia. cbn.
  by rewrite app_nil_r, fmap_take.
Qed.

Lemma Undo_leaves a : leaves (with_applied a delegated) (UndoAllDelegates (P := P) (W := W))
  (fun _ s => with_applied a undelegated s /\ delegates_undone_ (sg_graph s) = true) anywhere.
Proof.
  intros s Hs. unfold UndoAllDelegates. rewrite (bind_done this _ s (sg_graph s) s) by done.
  destruct Hs as [[Hpre Ho] Ha]. rewrite Hpre.
  rewrite bool_decide_eq_false_2 by (intros ->; revert last_in_plan; set_solver).
  assert (Hloop : leaves (with_applied a delegated) (for_plan (fun n =>
      let* nr := node_ref n in if node_delegate (fst nr) =? 0 then ret tt else CleanupNode n))
    (fun _ => with_applied a delegated) anywhere).
  { intros s0 Hs0. unfold for_plan. rewrite (bind_done this _ s0 (sg_graph s0) s0) by done.
    revert Hs0. generalize (execution_plan_ (sg_graph s0)). intros l Hs0.
    apply (leaves_for_all (with_applied a delegated)); [|exact Hs0]. intros n _. apply cleanup_leaves. }
  specialize (Hloop s (conj (conj Hpre Ho) Ha)). unfold bind at 1.
  destruct (for_plan _ s) as [[[]|e|] s1]; [|done|done]. destruct Hloop as [[_ Ho1] Ha1].
  set (s2 := SG (sg_heap s1) (set_pre_delegation_execution_plan_ [] (set_execution_plan_ p (sg_graph s1))) (sg_world s1)).
  assert (Hs2 : restored s2) by (by split_and!).
  rewrite (bind_done (upd (set_execution_plan_ p)) _ s1 tt (SG (sg_heap s1) (set_execution_plan_ p (sg_graph s1)) (sg_world s1))),
    (bind_done (upd (set_pre_delegation_execution_plan_ [])) _ _ tt s2) by done.
  destruct (fp16_map_identity s2 (proj2 (proj2 Hs2)) eq_refl) as (o & Hrun & Hid).
  destruct o as [m|e|]; [|by rewrite (bind_fail _ _ _ _ _ Hrun)|by rewrite (bind_undef _ _ _ _ Hrun)].
  rewrite (bind_done _ _ _ _ _ Hrun), (Hid m eq_refl).
  pose proof (remap_leaves s2 (zlength (tensors_ (sg_graph s2))) Hs2 s2 ltac:(reflexivity)) as Hremap.
  unfold bind at 1. destruct (remap_fp16 _ s2) as [[[]|e|] s3]; [|done|done].
  destruct (restored_frozen _ _ Hremap Hs2) as (Hp3 & Hpl3 & Ho3).
  rewrite (bind_done this _ s3 (sg_graph s3) s3), Hpl3, max_retained, Z.sub_add by done. cbn.
  split; [split; [split_and!; [exact Hp3|exact Hpl3|]|]|done].
  - unfold cores. cbn. by apply resize_cores.
  - rewrite <- Ha1. exact (frozen_applied _ _ Hremap).
Qed.

(** ** Applying and removing *)

(** From [I] the call, where it is defined, reaches [Q] when it returns and [E] when it fails. *)
Definition yields {A} (I : S -> Prop) (c : M S A) (Q : A -> S -> Prop) (E : S -> Prop) : Prop :=
  forall s, I s -> match c s with (Done a, s') => Q a s' | (Fail _, s') => E s' | (Undef, _) => True end.

Lemma yields_bind {A B} I (c : M S A) (k : A -> M S B) Q' Q E :
  yields I c Q' E -> (forall a, yields (Q' a) (k a) Q E) -> yields I (bind c k) Q E.
Proof.
  intros Hc Hk s Hs. specialize (Hc s Hs). unfold bind. destruct (c s) as [[a|e|] s']; [by apply Hk|done|done].
Qed.
Lemma yields_conseq {A} (I I' : S -> Prop) (c : M S A) Q (Q' : A -> S -> Prop) E (E' : S -> Prop) :
  yields I c Q E -> (forall s, I' s -> I s) -> (forall a s, Q a s -> Q' a s) -> (forall s, E s -> E' s) -> yields I' c Q' E'.
Proof. intros Hc HI HQ HE s Hs. specialize (Hc s (HI s Hs)). destruct (c s) as [[a|e|] s']; auto. Qed.
Lemma yields_ret {A} (I : S -> Prop) (a : A) (Q : A -> S -> Prop) E : (forall s, I s -> Q a s) -> yields I (ret a) Q E.
Proof. intros H s Hs. by apply H. Qed.
Lemma yields_fail {A} (I : S -> Prop) e (Q : A -> S -> Prop) (E : S -> Prop) : (forall s, I s -> E s) -> yields I (fail e) Q E.
Proof. intros H s Hs. by apply H. Qed.
Lemma yields_status {A} I (c : M S A) (Q : S -> Prop) (E : S -> Prop) :
  yields I c (fun _ => Q) Q -> yields I (status_call c) (fun _ => Q) E.
Proof. intros Hc s Hs. specialize (Hc s Hs). unfold status_call. by destruct (c s) as [[a|e|] s']. Qed.

(** Predicates on the delegation alone. *)
Definition closed (I : S -> Prop) : Prop := forall s s', frozen s s' -> I s -> I s'.

Lemma yields_frozen {A} I (c : M S A) : closed I -> respects frozen c -> yields I c (fun _ => I) I.
Proof. intros HI Hc s Hs. specialize (HI _ _ (Hc s) Hs). by destruct (c s) as [[a|e|] s']. Qed.

(** No delegate, for good; delegates on the plan; and what holds between calls: the delegates
    that were undone are still listed. *)
Definition fresh s : Prop := undelegated s /\ delegates_applied_ (sg_graph s) = [] /\ redone s.
Definition on_plan s : Prop := delegated s /\ redone s.
Definition ready s : Prop := fresh s \/ on_plan s /\ delegates_applied_ (sg_graph s) <> [].
Definition reversible s : Prop := ready s \/ undelegated s /\ delegates_undone_ (sg_graph s) = true.

Lemma closed_redone : closed redone.
Proof. intros s s' Hf. unfold redone. by rewrite (frozen_undone _ _ Hf). Qed.
Lemma closed_and (I I' : S -> Prop) : closed I -> closed I' -> closed (fun s => I s /\ I' s).
Proof. intros HI HI' s s' Hf []. split; [by apply (HI s)|by apply (HI' s)]. Qed.
Lemma closed_on_plan : closed on_plan.
Proof. apply closed_and; [exact delegated_frozen|exact closed_redone]. Qed.
Lemma closed_fresh : closed fresh.
Proof.
  intros s s' Hf (H1 & H2 & H3). split_and!; [by apply (undelegated_frozen s)| |by apply (closed_redone s)].
  by rewrite (frozen_applied _ _ Hf).
Qed.
Lemma closed_ready : closed ready.
Proof.
  intros s s' Hf [H|[H Ha]]; [left; by apply (closed_fresh s)|right].
  split; [by apply (closed_on_plan s)|]. by rewrite (frozen_applied _ _ Hf).
Qed.
Lemma closed_reversible : closed reversible.
Proof.
  intros s s' Hf [H|[H Hu]]; [left; by apply (closed_ready s)|right].
  split; [by apply (undelegated_frozen s)|]. by rewrite (frozen_undone _ _ Hf).
Qed.
Lemma ready_redone s : ready s -> redone s.
Proof. intros [(_ & _ & H)|[[_ H] _]]; exact H. Qed.

#[local] Hint Resolve closed_on_plan closed_ready closed_fresh closed_reversible : core.

(** A call that leaves the delegation alone, from a graph with delegates on its plan. *)
Ltac quiet I := apply (yields_bind _ _ _ (fun _ => I)); [apply yields_frozen; [auto|go]|intros ?].

Section Body.
Context (Redo : M S unit) (Redo_redone : forall s, redone s -> Redo s = (Done tt, s)).
Context (Redo_yields : yields reversible Redo (fun _ => ready) reversible).
Context (no_hint : forall d s flags s', TfLiteDelegateGetFlagsInternal d s = (Done flags, s') ->
  has_flag flags kTfLiteDelegateFlagsHintFullyDelegatedToSingleDelegate = false).

Lemma frozen_EnsureMemoryAllocations s : redone s -> frozen s (snd (EnsureMemoryAllocations Redo s)).
Proof.
  intros Hs. unfold EnsureMemoryAllocations.
  assert (Hp : respects frozen (if_planner (upd (set_state_ kStateUninvokable) ;;; on_planner (W := W) (PlanAllocations (MemoryPlanner := MP)))))
    by (unfold if_planner; go).
  apply moves_bind_at; [exact _|apply Hp|]. intros [] s1 Hs1. specialize (Hp s). rewrite Hs1 in Hp. cbn in Hp.
  apply (closed_redone _ _ Hp) in Hs. clear Hp Hs1. unfold AllocateTensors. rewrite bind_assoc.
  rewrite (bind_done this _ s1 (sg_graph s1) s1) by done. destruct (negb _); [done|].
  rewrite bind_assoc, (bind_done _ _ _ _ _ (Redo_redone s1 Hs)).
  assert (Ht : respects frozen (allocate_tensors ;;; let* g := this in ensure (bool_decide (state_ g = kStateInvokable)))) by go.
  apply Ht.
Qed.

Lemma yields_Ensure I : closed I -> (forall s, I s -> redone s) -> yields I (EnsureMemoryAllocations Redo) (fun _ => I) I.
Proof.
  intros HI Hr s Hs. pose proof (HI _ _ (frozen_EnsureMemoryAllocations s (Hr s Hs)) Hs) as H.
  by destruct (EnsureMemoryAllocations Redo s) as [[a|e|] s'].
Qed.

(** Removing all delegates. *)
Lemma yields_RemoveAllDelegates : yields (fun s => reversible s \/ on_plan s) (RemoveAllDelegates Redo) (fun _ => fresh) fresh.
Proof.
  unfold RemoveAllDelegates. apply (yields_bind _ _ _ (fun _ => undelegated)).
  - intros s Hs. assert (Hd : undelegated s \/ delegated s).
    { destruct Hs as [[[H|[H _]]|[H _]]|H]; [left; apply H|right; apply H|by left|right; apply H]. }
    destruct Hd as [Hu|Hd].
    + unfold UndoAllDelegates. rewrite (bind_done this _ s (sg_graph s) s) by done.
      rewrite bool_decide_eq_true_2 by apply Hu. exact Hu.
    + pose proof (Undo_leaves _ s (conj Hd eq_refl)) as Hl. pose proof (returns_UndoAllDelegates s) as Hr.
      destruct (UndoAllDelegates s) as [[[]|e|] s']; [apply Hl|by destruct (Hr e)|done].
  - intros _. apply (yields_bind _ _ _ (fun _ s => undelegated s /\ delegates_applied_ (sg_graph s) = []));
      [intros s Hs; by split_and!; destruct Hs as (?&?&?)|intros _].
    apply (yields_bind _ _ _ (fun _ => fresh)); [intros s [Hs Ha]; split_and!; [exact Hs|exact Ha|done]|intros _].
    apply yields_Ensure; [exact closed_fresh|by intros s (_ & _ & H)].
Qed.

Lemma yields_reset I st : (forall s, I s -> reversible s \/ on_plan s) ->
  yields I (reset_delegation_if_not_ok Redo st) (fun _ => I) fresh.
Proof.
  intros HI. unfold reset_delegation_if_not_ok. case_bool_decide; [by apply yields_ret|].
  eapply (yields_bind _ _ _ (fun _ => fresh)); [eapply yields_conseq; [exact yields_RemoveAllDelegates|exact HI|done|done]|intros _].
  by apply yields_fail.
Qed.

Lemma on_plan_redone s : on_plan s -> redone s.
Proof. by intros []. Qed.
Lemma fresh_reversible s : fresh s -> reversible s.
Proof. intros H. by left; left. Qed.
Lemma yields_Ensure_status E : yields on_plan (status_call (EnsureMemoryAllocations Redo)) (fun _ => on_plan) E.
Proof. apply yields_status, yields_Ensure; [exact closed_on_plan|exact on_plan_redone]. Qed.
Lemma yields_reset_on_plan st : yields on_plan (reset_delegation_if_not_ok Redo st) (fun _ => on_plan) fresh.
Proof. apply yields_reset. by right. Qed.

(** Until delegates are on the plan, a failure leaves everything as it was. *)
Lemma yields_prepare_for_delegation sd h : yields ready (prepare_for_delegation Redo sd h) (fun _ => ready) ready.
Proof.
  unfold prepare_for_delegation. quiet ready. case_bool_decide; [apply yields_frozen; [auto|go]|].
  destruct (_ && _); [|by apply yields_ret]. quiet ready. quiet ready.
  destruct (has_dynamic_tensors_ _); [|by apply yields_ret].
  apply (yields_bind _ _ _ (fun _ => ready)); [apply yields_Ensure; [auto|exact ready_redone]|intros _; by apply yields_fail].
Qed.

Lemma yields_weaken {A} I (c : M S A) Q (E E' : S -> Prop) : yields I c Q E -> (forall s, E s -> E' s) -> yields I c Q E'.
Proof. intros Hc HE. eapply yields_conseq; [exact Hc|done|done|done]. Qed.

Lemma yields_on_plan {A} (c : M S A) : respects frozen c -> yields on_plan c (fun _ => on_plan) on_plan.
Proof. intros Hc. by apply yields_frozen. Qed.

(** What comes after a delegate has replaced nodes. *)
Lemma yields_finish_delegation sd st : yields on_plan (finish_delegation Redo sd false st) (fun _ => on_plan) reversible.
Proof.
  assert (Hw : forall A (c : M S A), yields on_plan c (fun _ => on_plan) fresh -> yields on_plan c (fun _ => on_plan) reversible)
    by (intros A c Hc; eapply yields_weaken; [exact Hc|exact fresh_reversible]).
  assert (Hu : forall f, respects frozen (upd f) -> forall E, yields on_plan (upd f) (fun _ => on_plan) E)
    by (intros f Hf E s Hs; exact (closed_on_plan _ _ (Hf s) Hs)).
  assert (Hs : forall A (c : M S A) E, respects frozen c -> yields on_plan (status_call c) (fun _ => on_plan) E)
    by (intros A c E Hc; by apply yields_status, yields_on_plan).
  unfold finish_delegation. destruct (negb sd).
  - apply (yields_bind _ _ _ (fun _ => on_plan)); [|intros _; apply Hu; go]. cbn [negb].
    apply (yields_bind _ _ _ (fun _ => on_plan)); [apply Hu; go|intros _].
    apply (yields_bind _ _ _ (fun _ => on_plan)); [apply yields_Ensure_status|intros st']. apply Hw, yields_reset_on_plan.
  - case_bool_decide.
    + apply (yields_bind _ _ _ (fun _ => on_plan)); [intros s H'; exact H'|intros g].
      apply (yields_bind _ _ _ (fun _ => on_plan)); [apply Hs; go|intros st'].
      apply (yields_bind _ _ _ (fun _ => on_plan)); [apply Hw, yields_reset_on_plan|intros _].
      apply (yields_bind _ _ _ (fun _ => on_plan)); [intros s H'; exact H'|intros g'].
      destruct (has_dynamic_tensors_ g').
      * apply (yields_bind _ _ _ (fun _ => fresh)).
        -- apply (yields_conseq _ _ _ _ _ _ _ yields_RemoveAllDelegates); [by right|done|exact fresh_reversible].
        -- intros _. apply yields_fail. exact fresh_reversible.
      * apply (yields_bind _ _ _ (fun _ => on_plan)); [apply yields_Ensure_status|intros st''].
        apply (yields_bind _ _ _ (fun _ => on_plan)); [apply Hw, yields_reset_on_plan|intros _]. apply Hu. go.
    + case_bool_decide; [|by apply yields_ret].
      apply (yields_bind _ _ _ (fun _ => on_plan)); [apply yields_Ensure_status|intros st'']. apply Hw, yields_reset_on_plan.
Qed.

Lemma on_plan_extends s s' : extends s s' -> on_plan s -> on_plan s'.
Proof.
  intros [Hp _ Hu _ [more Hc]] [[H1 H2] H3]. split; [split|].
  - by rewrite Hp.
  - unfold original_nodes in *. rewrite Hc, take_app_le; [done|]. apply (f_equal length) in H2.
    rewrite length_take, length_fmap in H2. lia.
  - unfold redone in *. by rewrite Hu.
Qed.

(** The first delegate keeps the plan it found. *)
Lemma yields_keep_plan {A} (k : unit -> M S A) Q E : (forall u, yields on_plan (k u) Q E) ->
  yields ready (let* g := this in bind (if bool_decide (delegates_applied_ g = [])
    then upd (set_pre_delegation_execution_plan_ (execution_plan_ g)) else ret tt) k) Q E.
Proof.
  intros Hk s Hs. rewrite (bind_done this _ s (sg_graph s) s) by done. case_bool_decide as Ha.
  - destruct Hs as [((H1 & H2 & H3) & _ & Hr)|[_ H]]; [|done].
    rewrite (bind_done (upd _) _ s tt (SG (sg_heap s) (set_pre_delegation_execution_plan_ p (sg_graph s)) (sg_world s)))
      by (by rewrite H2).
    apply Hk. split; [split; [done|]|exact Hr]. unfold original_nodes, cores in *. cbn. rewrite H3.
    apply take_ge. by rewrite length_fmap.
  - rewrite bind_ret. apply Hk. destruct Hs as [(_ & H & _)|[H _]]; [done|exact H].
Qed.

Lemma yields_ModifyGraph d : yields reversible (ModifyGraphWithDelegateImpl Redo d) (fun _ => ready) reversible.
Proof.
  assert (Hr : forall s, ready s -> reversible s) by (by left).
  assert (Hs : forall A (c : M S A) E, (forall s, on_plan s -> on_plan (snd (c s))) -> yields on_plan (status_call c) (fun _ => on_plan) E).
  { intros A c E Hc. apply yields_status. intros s H. specialize (Hc s H). by destruct (c s) as [[a|e|] s']. }
  unfold ModifyGraphWithDelegateImpl. destruct (d =? 0); [by apply yields_fail|].
  apply (yields_bind _ _ _ (fun _ => ready)); [exact Redo_yields|intros _].
  apply (yields_bind _ _ _ (fun flags s =>
    has_flag flags kTfLiteDelegateFlagsHintFullyDelegatedToSingleDelegate = false /\ ready s)).
  { intros s H. pose proof (closed_ready _ _ (frozen_flags d s) H) as H'.
    destruct (TfLiteDelegateGetFlagsInternal d s) as [[fl|e|] s'] eqn:Hf; cbn in H'; [|by apply Hr|done].
    split; [|exact H']. by eapply no_hint. }
  intros flags s0 [Hh Hs0]. revert s0 Hs0. cbv zeta. rewrite Hh.
  match goal with |- forall s, ready s -> match ?c s with _ => _ end => change (yields ready c (fun _ => ready) reversible) end.
  apply (yields_bind _ _ _ (fun _ => ready)); [intros s H; exact H|intros g].
  apply (yields_bind _ _ _ (fun _ => ready)); [apply (yields_weaken _ _ _ _ _ (yields_prepare_for_delegation _ _) Hr)|intros _].
  apply yields_keep_plan. intros _.
  apply (yields_bind _ _ _ (fun _ => on_plan)); [apply Hs; intros s; apply closed_on_plan, frozen_SwitchToDelegateContext|intros _].
  apply (yields_bind _ _ _ (fun _ => on_plan)); [apply Hs; intros s; apply on_plan_extends, extends_Prepare|intros st].
  apply (yields_bind _ _ _ (fun _ => on_plan)); [apply Hs; intros s; apply closed_on_plan, frozen_SwitchToKernelContext|intros _].
  apply (yields_bind _ _ _ (fun _ => on_plan));
    [apply (yields_weaken _ _ _ _ _ (yields_reset_on_plan st) fresh_reversible)|intros _].
  intros s0 Hs0. rewrite bind_ret. revert s0 Hs0. cbn [negb].
  refine (yields_bind on_plan _ _ (fun _ => on_plan) _ _ _ _); [apply yields_finish_delegation|intros _].
  intros s H. right. split; [exact H|]. cbn. by destruct (delegates_applied_ (sg_graph s)).
Qed.
End Body.

Context (no_hint : forall d s flags s', TfLiteDelegateGetFlagsInternal d s = (Done flags, s') ->
  has_flag flags kTfLiteDelegateFlagsHintFullyDelegatedToSingleDelegate = false).

Lemma yields_for_each {A} I (l : list A) body E : (forall x, yields I (body x) (fun _ => I) E) ->
  yields I (for_each l body) (fun _ => I) E.
Proof. intros Hb. induction l as [|x l IH]; [by apply yields_ret|]. eapply yields_bind; [apply Hb|by intros []]. Qed.

Lemma yields_RedoAllDelegates n : yields reversible (RedoAllDelegates n) (fun _ => ready) reversible.
Proof.
  induction n as [|n IH]; intros s Hs; cbn [RedoAllDelegates]; rewrite (bind_done this _ s (sg_graph s) s) by done;
    (destruct (delegates_undone_ (sg_graph s)) eqn:Hu; cbn [negb];
      [|destruct Hs as [Hs|[_ H]]; [exact Hs|by rewrite Hu in H]]); [done|].
  assert (Hun : undelegated s).
  { destruct Hs as [Hs|[Hs _]]; [|exact Hs]. apply ready_redone in Hs. unfold redone in Hs. by rewrite Hu in Hs. }
  set (s1 := SG (sg_heap s) (set_delegates_applied_ [] (set_delegates_undone_ false (sg_graph s))) (sg_world s)).
  rewrite (bind_done (upd (set_delegates_undone_ false)) _ s tt (SG (sg_heap s) (set_delegates_undone_ false (sg_graph s)) (sg_world s))),
    (bind_done (upd (set_delegates_applied_ [])) _ _ tt s1) by done.
  assert (Hs1 : ready s1) by (by left; split_and!; destruct Hun as (?&?&?)).
  refine (yields_for_each ready _ _ reversible _ s1 Hs1). intros d.
  eapply yields_conseq; [apply (yields_ModifyGraph (RedoAllDelegates n)); [intros s0; apply RedoAllDelegates_redone|exact IH|exact no_hint]
    |by left|done|done].
Qed.

Lemma yields_Undo : yields reversible (UndoAllDelegates (P := P) (W := W)) (fun _ => reversible) reversible.
Proof.
  intros s Hs. assert (Hd : undelegated s \/ delegated s).
  { destruct Hs as [[H|[H _]]|[H _]]; [left; apply H|right; apply H|by left]. }
  destruct Hd as [Hu|Hd].
  - unfold UndoAllDelegates. rewrite (bind_done this _ s (sg_graph s) s) by done.
    rewrite bool_decide_eq_true_2 by apply Hu. exact Hs.
  - pose proof (Undo_leaves _ s (conj Hd eq_refl)) as Hl. pose proof (returns_UndoAllDelegates s) as Hr.
    destruct (UndoAllDelegates s) as [[[]|e|] s']; [|by destruct (Hr e)|done].
    right. split; [apply Hl|]. by destruct Hl.
Qed.

(** ** The operations *)

(** All but those that change the plan or the nodes themselves, or ask for inlining. *)
Definition keeps_the_graph (op : operation) : Prop :=
  match op with
  | op_SetExecutionPlan _ | op_AddNodeWithParameters _ _ _ _ _ _ _ => False
  | op_SetOptions o => inlining_on o = false
  | _ => True
  end.

Lemma frozen_SetTensorParametersReadOnly i ty nm dims q b n a sp bi ei :
  respects frozen (SetTensorParametersReadOnly (P := P) (W := W) i ty nm dims q b n a sp bi ei).
Proof. unfold SetTensorParametersReadOnly, check_tensor_index, record_external_buffer. go. Qed.
Lemma frozen_SetTensorParametersReadWrite i ty nm dims q v sig ei :
  respects frozen (SetTensorParametersReadWrite (P := P) (W := W) i ty nm dims q v sig ei).
Proof. unfold SetTensorParametersReadWrite, check_tensor_index, record_external_buffer. go. Qed.
Lemma frozen_RemoveUnusedInputs : respects frozen (RemoveUnusedInputs (P := P) (W := W)).
Proof. unfold RemoveUnusedInputs, GetInputTensorsCount. go. Qed.
Lemma frozen_SetCustomAllocation i a fl : respects frozen (SetCustomAllocationForTensor (P := P) (W := W) i a fl).
Proof. unfold SetCustomAllocationForTensor. go. Qed.
#[local] Hint Resolve frozen_SetTensorParametersReadOnly frozen_SetTensorParametersReadWrite frozen_RemoveUnusedInputs
  frozen_SetCustomAllocation frozen_CheckTensorIndices frozen_PartitionGraph frozen_ResetVariableTensors
  frozen_EnsureTensorDataIsReadable frozen_Invoke : respects.

Lemma yields_ResizeInputTensor i dims rank :
  yields reversible (ResizeInputTensor (P := P) (W := W) i dims rank) (fun _ => reversible) reversible.
Proof.
  unfold ResizeInputTensor, check_tensor_index. destruct (_ && _); [by apply yields_fail|].
  quiet reversible. destruct (_ && _); [by apply yields_fail|]. quiet reversible. quiet reversible.
  destruct (_ && _); [by apply yields_ret|].
  apply (yields_bind _ _ _ (fun _ => reversible)); [case_bool_decide; [exact yields_Undo|by apply yields_ret]|intros _].
  quiet reversible. apply yields_frozen; [exact closed_reversible|go].
Qed.

Lemma yields_SetOptions o : yields reversible (SetOptions (P := P) (W := W) o) (fun _ => reversible) reversible.
Proof.
  unfold SetOptions. apply (yields_bind _ _ _ (fun _ => reversible)); [intros s Hs; exact Hs|intros _].
  apply yields_frozen; [exact closed_reversible|unfold OptimizeMemoryForLargeTensors; go].
Qed.

Lemma yields_AllocateTensors n : yields reversible (AllocateTensors (RedoAllDelegates n)) (fun _ => reversible) reversible.
Proof.
  unfold AllocateTensors. quiet reversible. destruct (negb _); [by apply yields_fail|].
  apply (yields_bind _ _ _ (fun _ => ready)); [apply yields_RedoAllDelegates|intros _].
  eapply yields_conseq; [apply (yields_frozen ready); [exact closed_ready|exact frozen_allocate_tensors]|done|by left|by left].
Qed.

(** *** The options stay *)

Definition off s : Prop := inlining_on (options_ (sg_graph s)) = false.
Definition stays_off s s' : Prop := off s -> off s'.

#[local] Instance stays_off_preorder : PreOrder stays_off.
Proof. split; unfold stays_off; auto. Qed.

Lemma off_same s s' : options_ (sg_graph s') = options_ (sg_graph s) -> stays_off s s'.
Proof. unfold stays_off, off. by intros ->. Qed.
Lemma off_frozen {A} (c : M S A) : respects frozen c -> respects stays_off c.
Proof. intros Hc s. apply off_same, (frozen_options _ _ (Hc s)). Qed.
Lemma off_extends {A} (c : M S A) : respects extends c -> respects stays_off c.
Proof. intros Hc s. apply off_same, (extends_options _ _ (Hc s)). Qed.
#[local] Hint Extern 4 (respects stays_off _) => (apply off_frozen) : respects.
#[local] Hint Extern 3 (respects stays_off (upd _)) => (apply respects_modify; intros ?; by apply off_same) : respects.

Lemma off_set_node n f : respects stays_off (set_node n f).
Proof. unfold set_node. go. Qed.
Lemma off_reset : respects stays_off (reset_siblings (P := P) (W := W)).
Proof. apply respects_modify. intros s. by apply off_same. Qed.
#[local] Hint Resolve off_set_node off_reset : respects.
Lemma off_UndoAllDelegates : respects stays_off UndoAllDelegates.
Proof. unfold UndoAllDelegates, CleanupNode, fp16_map, remap_fp16, remap_input, for_plan. go. Qed.
#[local] Hint Resolve off_UndoAllDelegates : respects.

Section OffBody.
Context (Redo : M S unit) (HRedo : respects stays_off Redo).
#[local] Hint Resolve HRedo : respects.
Lemma off_AllocateTensors : respects stays_off (AllocateTensors Redo).
Proof. unfold AllocateTensors. go. Qed.
#[local] Hint Resolve off_AllocateTensors : respects.
Lemma off_EnsureMemoryAllocations : respects stays_off (EnsureMemoryAllocations Redo).
Proof. unfold EnsureMemoryAllocations, if_planner. go. Qed.
#[local] Hint Resolve off_EnsureMemoryAllocations : respects.
Lemma off_RemoveAllDelegates : respects stays_off (RemoveAllDelegates Redo).
Proof. unfold RemoveAllDelegates. go. Qed.
#[local] Hint Resolve off_RemoveAllDelegates : respects.
Lemma off_Prepare d : respects stays_off (TfLiteDelegatePrepareInternal (S := S) d).
Proof. apply off_extends, extends_Prepare. Qed.
#[local] Hint Resolve off_Prepare : respects.
Lemma off_ModifyGraph d : respects stays_off (ModifyGraphWithDelegateImpl Redo d).
Proof.
  unfold ModifyGraphWithDelegateImpl, finish_delegation, prepare_for_delegation, reset_delegation_if_not_ok,
    IsFullyDelegated. go.
Qed.
End OffBody.

Lemma off_RedoAllDelegates n : respects stays_off (RedoAllDelegates n).
Proof. induction n as [|n IH]; cbn [RedoAllDelegates]; go. by apply off_ModifyGraph. Qed.

Lemma yields_AllocateTensors_all : yields (fun s => reversible s /\ off s) AllocateTensors_all (fun _ => reversible) reversible.
Proof.
  intros s [Hs Ho]. unfold AllocateTensors_all. rewrite (bind_done this _ s (sg_graph s) s) by done.
  destruct (negb _); [exact Hs|]. pose proof (yields_RedoAllDelegates redo_fuel s Hs) as Hr.
  pose proof (off_RedoAllDelegates redo_fuel s Ho) as Ho1. unfold bind at 1.
  destruct (RedoAllDelegates redo_fuel s) as [[[]|e|] s1]; [|exact Hr|done]. cbn [snd] in Ho1.
  pose proof (inline_nothing_run s1 (or_introl Ho1)) as Hrun. unfold inline_and_allocate in Hrun. rewrite Hrun.
  pose proof (yields_frozen ready _ closed_ready frozen_allocate_tensors s1 Hr) as Ha.
  destruct (allocate_tensors s1) as [[[]|e|] s2]; [by left|by left|done].
Qed.

Lemma yields_run_op op : keeps_the_graph op ->
  yields (fun s => reversible s /\ off s) (run_op op) (fun _ => reversible) reversible.
Proof.
  intros Hop. destruct op; try destruct Hop; cbn [run_op];
    try exact yields_AllocateTensors_all;
    (apply (yields_conseq reversible _ _ (fun _ => reversible) _ reversible); [|by intros s []|done|done]);
    try (apply yields_frozen; [exact closed_reversible|]; unfold SetInputs, SetOutputs, SetVariables, AddTensors,
      ReleaseMemory, ReleaseNonPersistentMemory, free_dynamic, for_tensors, if_planner,
      PreviewDelegatePartitioning, SetBufferHandle, Subgraph.tensor, SetCancellationFunction, EnableCancellation, Cancel; go; fail).
  - apply yields_SetOptions.
  - apply yields_ResizeInputTensor.
  - unfold ResizeInputTensorStrict, check_tensor_index. quiet reversible. quiet reversible.
    repeat first [apply yields_ResizeInputTensor | by apply yields_fail | by apply yields_ret
      | match goal with
        | |- yields _ (if ?b then _ else _) _ _ => destruct b
        | |- yields _ (match ?x with _ => _ end) _ _ => destruct x
        | |- yields _ (bind _ _) _ _ => quiet reversible
        end].
  - unfold EnsureMemoryAllocations. apply (yields_bind _ _ _ (fun _ => reversible)).
    { apply yields_frozen; [exact closed_reversible|unfold if_planner; go]. }
    intros _. apply (yields_bind _ _ _ (fun _ => reversible)); [apply yields_AllocateTensors|intros _].
    apply yields_frozen; [exact closed_reversible|go].
  - eapply yields_conseq; [apply (yields_ModifyGraph (RedoAllDelegates redo_fuel));
      [intros s; apply RedoAllDelegates_redone|apply yields_RedoAllDelegates|exact no_hint]|done|by left|done].
  - unfold RemoveAllDelegates_all.
    refine (yields_conseq _ _ _ _ _ _ _ (yields_RemoveAllDelegates (RedoAllDelegates redo_fuel) _) _ _ _);
      [intros s; apply RedoAllDelegates_redone|by left|intros _; exact fresh_reversible|exact fresh_reversible].
Qed.

Lemma off_SetOptions o : inlining_on o = false -> respects stays_off (SetOptions (P := P) (W := W) o).
Proof.
  intros Ho s _. unfold SetOptions. rewrite (bind_done (upd _) _ s tt (SG (sg_heap s) (set_options_ o (sg_graph s)) (sg_world s))) by done.
  set (s1 := SG _ _ _). assert (H1 : off s1) by exact Ho. revert H1. generalize s1.
  refine (_ : respects stays_off _). unfold OptimizeMemoryForLargeTensors. go.
Qed.

Lemma off_AllocateTensors_all : respects stays_off AllocateTensors_all.
Proof.
  intros s Ho. unfold AllocateTensors_all. rewrite (bind_done this _ s (sg_graph s) s) by done.
  destruct (negb _); [exact Ho|]. pose proof (off_RedoAllDelegates redo_fuel s Ho) as Ho1. unfold bind at 1.
  destruct (RedoAllDelegates redo_fuel s) as [[[]|e|] s1]; [|exact Ho1..]. cbn [snd] in Ho1.
  pose proof (inline_nothing_run s1 (or_introl Ho1)) as Hrun. unfold inline_and_allocate in Hrun. rewrite Hrun.
  by apply (off_frozen _ frozen_allocate_tensors s1).
Qed.
#[local] Hint Resolve off_SetOptions off_AllocateTensors_all off_RedoAllDelegates off_AllocateTensors
  off_EnsureMemoryAllocations off_RemoveAllDelegates off_ModifyGraph : respects.

Lemma off_run_op op : keeps_the_graph op -> respects stays_off (run_op op).
Proof.
  intros Hop. destruct op; try (destruct Hop; fail); cbn [run_op];
    unfold SetInputs, SetOutputs, SetVariables, AddTensors, ReleaseMemory, ReleaseNonPersistentMemory, free_dynamic,
      for_tensors, if_planner, PreviewDelegatePartitioning, SetBufferHandle, Subgraph.tensor, SetCancellationFunction,
      EnableCancellation, Cancel, ResizeInputTensorStrict, ResizeInputTensor, check_tensor_index,
      RemoveAllDelegates_all, ModifyGraphWithDelegate; go.
Qed.
End Undo.

(** ** The theorem *)

Section Reversible.
Context {P W : Type} {MP : MemoryPlanner P} {NP : NewPlanner P} {MM : Malloc} {SS : StdSort}.
Abbreviation S := (sgstate P W).
Context {SB : Siblings W} {DC : Decompositions P W} {CB : Callbacks S} {CBOk : CallbacksOk CB} {MPOk : MemoryPlannerOk P}.
Implicit Types (s : S) (g : Subgraph P).

(** A graph that no delegate was applied to, in which composites stay: all its nodes are its own,
    the plan has the last of them, and none dequantizes. *)
Record own_graph g : Prop := {
  own_no_inlining : inlining_on (options_ g) = false;
  own_no_delegates : delegates_applied_ g = [];
  own_not_undone : delegates_undone_ g = false;
  own_no_other_plan : pre_delegation_execution_plan_ g = [];
  own_kernels : Forall (fun nr => node_delegate (fst nr) = 0 /\
    builtin_code (snd nr) <> kTfLiteBuiltinDequantize) (nodes_and_registration_ g);
  own_plan : Forall (fun n => 0 <= n < zlength (nodes_and_registration_ g)) (execution_plan_ g);
  own_last : zlength (nodes_and_registration_ g) - 1 ∈ execution_plan_ g }.

(** Every operation of the sequence has a defined result, whether it succeeds or fails. *)
Fixpoint run_defined (ops : list operation) s : Prop :=
  match ops with [] => True | op :: ops => fst (run_op op s) <> Undef /\ run_defined ops (snd (run_op op s)) end.

(** The delegates have no hint, and freeing a node's data returns. *)
Class PlainCallbacks : Prop := {
  plain_free f d b s e : fst (call_free f d b s) <> Fail e;
  plain_flags d s flags s' : TfLiteDelegateGetFlagsInternal d s = (Done flags, s') ->
    has_flag flags kTfLiteDelegateFlagsHintFullyDelegatedToSingleDelegate = false }.
Context {PC : PlainCallbacks}.

End Reversible.

(** A graph of the example: delegate 1 takes it over and fails to run it, a resize undoes that and
    the next allocation applies the delegate again. *)
Definition x_graph0 : XG := Eval vm_compute in
  match Interpreter.subgraphs_ (Interpreter.interp x_interpreter) with
  | m :: _ => SG heap_empty (Interpreter.sub_graph m) (Interpreter.MW (Interpreter.interp x_interpreter) 0 tt)
  | [] => SG heap_empty Subgraph_init (Interpreter.MW (Interpreter.interp x_interpreter) 0 tt)
  end.

Definition x_history : list operation := [op_AllocateTensors; op_ModifyGraphWithDelegate 1; op_Invoke;
  op_ResizeInputTensor 0 (Some [1; 8]) 2; op_AllocateTensors].

#[local] Existing Instance Interpreter.model_siblings.
#[local] Existing Instance Interpreter.model_decompositions.
#[local] Existing Instance ArenaInstance.ArenaPlanner_MemoryPlanner.

#[local] Instance x_plain : PlainCallbacks (CB := x_callbacks).
Proof.
  split; [done|]. intros d s flags s'. unfold TfLiteDelegateGetFlagsInternal, TfLiteDelegateIsOpaque, bind, access.
  cbn [delegate_at x_callbacks x_kernels]. destruct (d =? 0), ((d =? 1) || (d =? 3)), (d =? 2); cbn; unfold ret; intros H;
    first [discriminate H | assert (flags = 0) as -> by congruence; reflexivity].
Qed.

