(* ===== verification/InterpreterWf.v ===== *)
(** * The interpreter: its interface as a whole

    Whatever a client does with an interpreter, and whatever kernels and delegates do to the
    subgraphs of the model through their interface, the indices that every subgraph keeps stay
    valid and a subgraph marked inconsistent is never allocated or run. *)
From Stdlib Require Import String.
From stdpp Require Import strings.
From S2P Require Import Prelude Heap Common MemoryPlanner Callbacks StdMap MetadataUtil Subgraph.
From S2P Require Import SubgraphRun SubgraphDelegate SubgraphWf SubgraphSteps SubgraphWorld.
From S2P Require Import ModelSchema Interpreter ModelExample.
From S2P Require InterpreterBuilder.
#[local] Open Scope Z_scope.

(** ** The invariant *)

(** Every subgraph is well formed, the subgraph of every runner exists, and there is a place for
    every type of external context. *)
Record interpreter_wf {P} (i : Interpreter P) : Prop := {
  wf_subgraphs_ : Forall (fun m => sg_wf (sub_graph m)) (subgraphs_ i);
  wf_runners_ : Forall (fun kr => 0 <= subgraph_ (snd kr) < zlength (subgraphs_ i)) (signature_runner_map_ i);
  wf_contexts_ : zlength (external_contexts_ i) = kTfLiteMaxExternalContexts }.

(** The subgraph at [k] was marked inconsistent. *)
Definition inconsistent {P} (i : Interpreter P) (k : nat) : Prop :=
  exists m, subgraphs_ i !! k = Some m /\ consistent_ (sub_graph m) = false.

(** The invariant is kept, subgraphs are only added, and the inconsistent ones stay so. *)
Record model_stays {P} (i i' : Interpreter P) : Prop := {
  model_wf : interpreter_wf i -> interpreter_wf i';
  model_size : zlength (subgraphs_ i) <= zlength (subgraphs_ i');
  model_stuck k : inconsistent i k -> inconsistent i' k }.

#[export] Instance model_stays_preorder {P} : PreOrder (@model_stays P).
Proof. split; [by split|]. intros i i' i'' [] []. split; [auto|lia|auto]. Qed.

(** Fields that the invariant does not read. *)
Definition same_model {P} (i i' : Interpreter P) : Prop :=
  subgraphs_ i' = subgraphs_ i /\ signature_runner_map_ i' = signature_runner_map_ i /\
  zlength (external_contexts_ i') = zlength (external_contexts_ i).

Lemma model_stays_same {P} (i i' : Interpreter P) : same_model i i' -> model_stays i i'.
Proof.
  intros (Hs & Hr & Hc). split; [intros []; split; by rewrite ?Hs, ?Hr, ?Hc|by rewrite Hs|].
  unfold inconsistent. by rewrite Hs.
Qed.

Lemma model_stays_to {P} (i i' i'' : Interpreter P) : model_stays i i' -> same_model i' i'' -> model_stays i i''.
Proof. intros H Hs. etransitivity; [exact H|by apply model_stays_same]. Qed.

(** The same in the world of a subgraph, and with the heap. *)
Definition world_stays {P W} (w w' : model_world P W) : Prop := model_stays (mw_interpreter w) (mw_interpreter w').
Definition istays {P W} (s s' : istate P W) : Prop := model_stays (interp s) (interp s').

#[export] Instance world_stays_preorder {P W} : PreOrder (@world_stays P W).
Proof. split; unfold world_stays; [by intros w|]. intros w w' w'' H H'. by etransitivity. Qed.
#[export] Instance istays_preorder {P W} : PreOrder (@istays P W).
Proof. split; unfold istays; [by intros w|]. intros w w' w'' H H'. by etransitivity. Qed.

(** Updating one subgraph in a way that keeps it. *)
Definition graph_stays {P} (g g' : Subgraph P) : Prop :=
  (sg_wf g -> sg_wf g') /\ (consistent_ g = false -> consistent_ g' = false).

Lemma model_stays_update {P} (i i1 : Interpreter P) k m m' :
  (subgraphs_ i).[k] = Some m -> model_stays i i1 -> graph_stays (sub_graph m) (sub_graph m') ->
  model_stays i (set_subgraphs_ (zset (subgraphs_ i1) k m') i1).
Proof.
  intros [Hk Hm]%zlookup_some [Hwf Hsize Hstuck] [Hg Hc]. split; unfold inconsistent; cbn.
  - intros Hi. destruct (Hwf Hi). split; cbn; rewrite ?zlength_zset; try done.
    apply Forall_insert; [done|]. apply Hg. exact (proj1 (Forall_lookup _ _) (wf_subgraphs_ _ Hi) _ _ Hm).
  - by rewrite zlength_zset.
  - intros n (m0 & Hn & Hcn). unfold zset. destruct (decide (n = Z.to_nat k)) as [->|Hne].
    + simplify_eq. rewrite list_lookup_insert_eq by (unfold zlength in *; lia). eexists. split; [done|]. by apply Hc.
    + rewrite list_lookup_insert_ne by done. apply Hstuck. by exists m0.
Qed.

Lemma graph_stays_load_flag {P} flag (g : Subgraph P) : graph_stays g (load_flag flag g).
Proof. unfold load_flag. destruct (continue_invocation_ g); [|done]. split; [|done]. intros []. by split. Qed.

(** What the functions of the interpreter's callbacks do. *)
Class InterpreterCallbacksOk {P W} (IC : InterpreterCallbacks (istate P W)) : Prop := {
  Refresh_stays f c : respects istays (call_Refresh f c);
  ClearCaches_stays c : respects istays (call_ClearCaches c);
  creator_stays f : respects istays (call_creator f);
  deleter_stays d : respects istays (call_deleter d) }.

Section Stays.
Context {P W : Type} {MP : MemoryPlanner P} {NP : NewPlanner P} {MM : Malloc} {SS : StdSort}.
Abbreviation S := (istate P W).
Abbreviation G := (sgstate P (model_world P W)).
Context {CB : Callbacks G} {CBOk : CallbacksOk CB} {MPOk : MemoryPlannerOk P} {WO : WorldOk CB world_stays}.
Context {IC : InterpreterCallbacks S} {ICOk : InterpreterCallbacksOk IC}.
Abbreviation istays := (istays (P := P) (W := W)).
Implicit Types s : S.

(** A call of a subgraph that keeps it, and moves the others along. *)
Lemma istays_on_subgraph {A} k (c : M G A) :
  respects stays c -> respects (around world_stays) c -> respects istays (on_subgraph k c).
Proof.
  intros Hc Hw s. unfold on_subgraph. destruct (_.[k]) as [m|] eqn:Hk; [|reflexivity].
  set (s0 := SG _ _ _). specialize (Hc s0). specialize (Hw s0). destruct (c s0) as [r s'].
  assert (Hg : graph_stays (sub_graph m) (sg_graph s')).
  { destruct Hc as [Hwf Hst]. destruct (graph_stays_load_flag (flag_ (interp s)) (sub_graph m)) as [Hf Hf'].
    split; auto. }
  unfold InterpreterWf.istays. eapply model_stays_to; [exact (model_stays_update _ _ k m (set_sub_graph (sg_graph s') m) Hk Hw Hg)|done].
Qed.

Lemma istays_same {A} (c : M S A) : (forall s, same_model (interp s) (interp (snd (c s)))) -> respects istays c.
Proof. intros Hc s. by apply model_stays_same. Qed.

Lemma istays_self : respects istays (self (P := P) (W := W)).
Proof. by apply istays_same. Qed.
Lemma istays_upd_self f : (forall i, model_stays i (f i)) -> respects istays (upd_self (P := P) (W := W) f).
Proof. intros Hf s. apply Hf. Qed.
Lemma istays_on_heap {A} (c : M heap A) : respects istays (Interpreter.on_heap (P := P) (W := W) c).
Proof. apply istays_same. intros s. unfold Interpreter.on_heap, zoom. by destruct (c _). Qed.
Lemma istays_lift {A} (o : outcome A) : respects istays (lift o).
Proof. by apply istays_same. Qed.
Lemma istays_void {A} (c : M S A) : respects istays c -> respects istays (void c).
Proof. intros Hc. unfold void. walk. Qed.
Lemma istays_subgraph_ref k : respects istays (subgraph_ref (P := P) (W := W) k).
Proof. apply istays_same. intros s. unfold subgraph_ref, bind, self. cbn. by destruct (_.[k]). Qed.

(** Changing the fields that are not the graph, or the graph in a way that keeps it. *)
Lemma istays_upd_subgraph k f : (forall m, graph_stays (sub_graph m) (sub_graph (f m))) ->
  respects istays (upd_subgraph (P := P) (W := W) k f).
Proof.
  intros Hf s. unfold upd_subgraph, subgraph_ref, bind, self. cbn.
  destruct (_.[k]) as [m|] eqn:Hk; [|reflexivity].
  exact (model_stays_update (interp s) (interp s) k m (f m) Hk ltac:(reflexivity) (Hf m)).
Qed.
Lemma istays_succeeds {A} (c : M S A) : respects istays c -> respects istays (InterpreterBuilder.succeeds c).
Proof. intros Hc. unfold InterpreterBuilder.succeeds. walk. Qed.

(** ** Calls of a subgraph *)

Definition kept {A} (c : M G A) : Prop := respects stays c /\ respects (around world_stays) c.

Lemma kept_run_op op : kept (run_op op).
Proof. split; [apply stays_run_op|exact (around_run_op world_stays op)]. Qed.

Lemma istays_kept {A} k (c : M G A) : kept c -> respects istays (on_subgraph k c).
Proof. intros []. by apply istays_on_subgraph. Qed.

(** The operations of a subgraph that return a value. *)
Lemma kept_tensor i : kept (Subgraph.tensor i).
Proof. split; [apply stays_grows, grows_tensor|exact (around_tensor world_stays i)]. Qed.
Lemma kept_set_tensor i f : kept (Subgraph.set_tensor i f).
Proof. split; [apply stays_grows, grows_set_tensor|exact (around_set_tensor world_stays i f)]. Qed.
Lemma kept_AddTensors n : kept (Subgraph.AddTensors n).
Proof. split; [apply stays_grows, grows_AddTensors|exact (around_AddTensors world_stays n)]. Qed.
Lemma kept_AddNode ins outs ims id ids bd reg : kept (Subgraph.AddNodeWithParameters ins outs ims id ids bd reg).
Proof.
  split; [apply stays_grows, grows_AddNodeWithParameters
         |exact (around_AddNodeWithParameters world_stays ins outs ims id ids bd reg)].
Qed.
Lemma kept_IsFullyDelegated : kept SubgraphDelegate.IsFullyDelegated.
Proof. split; [apply stays_grows, grows_IsFullyDelegated|exact (around_IsFullyDelegated world_stays)]. Qed.
Lemma kept_HasDelegates : kept SubgraphDelegate.HasDelegates.
Proof. split; [unfold HasDelegates; intros s; reflexivity|exact (around_HasDelegates world_stays)]. Qed.
Lemma kept_IsCancelled : kept Subgraph.IsCancelled.
Proof.
  split; [|exact (around_IsCancelled world_stays)]. apply stays_grows. unfold Subgraph.IsCancelled.
  apply respects_bind; [exact _|apply grows_this|]. intros g.
  destruct (check_cancelled_func_ g); [apply grows_call_check|apply respects_ret; exact _].
Qed.
Lemma kept_SwitchToDelegateContext : kept SubgraphDelegate.SwitchToDelegateContext.
Proof.
  split; [apply stays_grows, grows_Switch|]. apply (around_same world_stays). intros s. unfold SwitchToDelegateContext.
  rewrite (bind_done this _ s (sg_graph s) s) by done. by destruct (_ <=? _).
Qed.
Lemma kept_SwitchToKernelContext : kept SubgraphDelegate.SwitchToKernelContext.
Proof.
  split; [apply stays_grows, grows_Switch|]. apply (around_same world_stays). intros s. unfold SwitchToKernelContext.
  rewrite (bind_done this _ s (sg_graph s) s) by done. by destruct (_ <=? _).
Qed.

(** The others. *)
Lemma kept_SetInputs l : kept (Subgraph.SetInputs l).
Proof. exact (kept_run_op (op_SetInputs l)). Qed.
Lemma kept_SetOutputs l : kept (Subgraph.SetOutputs l).
Proof. exact (kept_run_op (op_SetOutputs l)). Qed.
Lemma kept_SetVariables l : kept (Subgraph.SetVariables l).
Proof. exact (kept_run_op (op_SetVariables l)). Qed.
Lemma kept_SetExecutionPlan l : kept (Subgraph.SetExecutionPlan l).
Proof. exact (kept_run_op (op_SetExecutionPlan l)). Qed.
Lemma kept_SetTensorParametersReadOnly i ty nm dims q b n a sp bi ei : kept (Subgraph.SetTensorParametersReadOnly i ty nm dims q b n a sp bi ei).
Proof. exact (kept_run_op (op_SetTensorParametersReadOnly i ty nm dims q b n a sp bi ei)). Qed.
Lemma kept_SetTensorParametersReadWrite i ty nm dims q v sig ei : kept (Subgraph.SetTensorParametersReadWrite i ty nm dims q v sig ei).
Proof. exact (kept_run_op (op_SetTensorParametersReadWrite i ty nm dims q v sig ei)). Qed.
Lemma kept_SetOptions o : kept (Subgraph.SetOptions o).
Proof. exact (kept_run_op (op_SetOptions o)). Qed.
Lemma kept_SetCustomAllocationForTensor i a f : kept (Subgraph.SetCustomAllocationForTensor i a f).
Proof. exact (kept_run_op (op_SetCustomAllocationForTensor i a f)). Qed.
Lemma kept_ResizeInputTensor i dims r : kept (Subgraph.ResizeInputTensor i dims r).
Proof. exact (kept_run_op (op_ResizeInputTensor i dims r)). Qed.
Lemma kept_ResizeInputTensorStrict i dims : kept (Subgraph.ResizeInputTensorStrict i dims).
Proof. exact (kept_run_op (op_ResizeInputTensorStrict i dims)). Qed.
Lemma kept_AllocateTensors : kept (SubgraphInline.AllocateTensors_all).
Proof. exact (kept_run_op (op_AllocateTensors)). Qed.
Lemma kept_ResetVariableTensors : kept (Subgraph.ResetVariableTensors).
Proof. exact (kept_run_op (op_ResetVariableTensors)). Qed.
Lemma kept_ReleaseNonPersistentMemory : kept (Subgraph.ReleaseNonPersistentMemory).
Proof. exact (kept_run_op (op_ReleaseNonPersistentMemory)). Qed.
Lemma kept_ModifyGraphWithDelegate d : kept (SubgraphDelegate.ModifyGraphWithDelegate d).
Proof. exact (kept_run_op (op_ModifyGraphWithDelegate d)). Qed.
Lemma kept_RemoveAllDelegates : kept (SubgraphDelegate.RemoveAllDelegates_all).
Proof. exact (kept_run_op (op_RemoveAllDelegates)). Qed.
Lemma kept_SetBufferHandle i h d r : kept (Subgraph.SetBufferHandle i h d r).
Proof. exact (kept_run_op (op_SetBufferHandle i h d r)). Qed.
Lemma kept_EnsureTensorDataIsReadable i : kept (Subgraph.EnsureTensorDataIsReadable i).
Proof. exact (kept_run_op (op_EnsureTensorDataIsReadable i)). Qed.
Lemma kept_SetCancellationFunction d f : kept (Subgraph.SetCancellationFunction d f).
Proof. exact (kept_run_op (op_SetCancellationFunction d f)). Qed.
Lemma kept_EnableCancellation f : kept (Subgraph.EnableCancellation f).
Proof. exact (kept_run_op (op_EnableCancellation f)). Qed.
Lemma kept_Cancel : kept (Subgraph.Cancel).
Proof. exact (kept_run_op (op_Cancel)). Qed.
Lemma kept_Invoke : kept (SubgraphRun.Invoke).
Proof. exact (kept_run_op (op_Invoke)). Qed.

(** ** The operations of an interpreter *)

#[local] Hint Resolve istays_self istays_on_heap istays_lift istays_void istays_subgraph_ref istays_succeeds
  Refresh_stays ClearCaches_stays creator_stays deleter_stays : respects.
#[local] Hint Resolve istays_kept : respects.
#[local] Hint Resolve kept_tensor kept_set_tensor kept_AddTensors kept_AddNode kept_IsFullyDelegated
  kept_HasDelegates kept_IsCancelled kept_SwitchToDelegateContext kept_SwitchToKernelContext kept_SetInputs
  kept_SetOptions kept_SetOutputs kept_SetVariables kept_SetTensorParametersReadOnly
  kept_SetTensorParametersReadWrite kept_ResizeInputTensor kept_AllocateTensors kept_ResetVariableTensors
  kept_ModifyGraphWithDelegate kept_RemoveAllDelegates kept_SetBufferHandle kept_EnsureTensorDataIsReadable
  kept_SetCancellationFunction kept_EnableCancellation kept_Cancel kept_Invoke kept_SetExecutionPlan
  kept_SetCustomAllocationForTensor kept_ResizeInputTensorStrict kept_ReleaseNonPersistentMemory : respects.
#[local] Hint Extern 2 (respects _ (upd_self _)) =>
  (apply istays_upd_self; intros ?; apply model_stays_same; done) : respects.
#[local] Hint Extern 2 (respects _ (upd_subgraph _ _)) =>
  (apply istays_upd_subgraph; intros ?; done) : respects.

Lemma istays_for_subgraphs body : (forall k, respects istays (body k)) -> respects istays (for_subgraphs (P := P) (W := W) body).
Proof. intros Hb. unfold for_subgraphs. walk. Qed.

(** Walks through the functions of the interpreter that a call is made of. *)
Ltac go := repeat first [progress intros | solve [eauto 4 with respects]
  | apply istays_for_subgraphs | apply istays_void | apply istays_succeeds | walk_step].

Lemma istays_AddSubgraphs n : respects istays (AddSubgraphs (P := P) (W := W) n).
Proof.
  intros s. unfold AddSubgraphs. rewrite (bind_done self _ s (interp s) s) by done. split; cbn.
  - intros []. split; cbn; [|rewrite zlength_app|done].
    + apply Forall_app. split; [done|]. apply Forall_replicate. exact sg_wf_init.
    + eapply Forall_impl; [eassumption|]. cbn. pose proof (zlength_nonneg
        (replicate (Z.to_nat n) (mkModelSubgraph (P := P) Subgraph_init EmptyString (-1) false))). lia.
  - rewrite zlength_app. pose proof (zlength_nonneg
      (replicate (Z.to_nat n) (mkModelSubgraph (P := P) Subgraph_init EmptyString (-1) false))). lia.
  - intros k (m & Hm & Hc). exists m. split; [|done]. cbn. by apply lookup_app_l_Some.
Qed.

Lemma istays_put_external_context type ctx : respects istays (put_external_context (P := P) (W := W) type ctx).
Proof.
  unfold put_external_context. walk. apply istays_upd_self. intros i. apply model_stays_same.
  split_and!; try done. apply zlength_zset.
Qed.
#[local] Hint Resolve istays_AddSubgraphs istays_put_external_context : respects.

Lemma istays_SetExternalContext type ctx : respects istays (SetExternalContext (P := P) (W := W) type ctx).
Proof. unfold SetExternalContext. go. Qed.

Lemma istays_RemoveAllDelegates : respects istays Interpreter.RemoveAllDelegates.
Proof. unfold Interpreter.RemoveAllDelegates. go. Qed.
#[local] Hint Resolve istays_RemoveAllDelegates : respects.

Lemma istays_ModifyGraphWithDelegateImpl d : respects istays (Interpreter.ModifyGraphWithDelegateImpl d).
Proof. unfold Interpreter.ModifyGraphWithDelegateImpl, modify_subgraph. go. Qed.
#[local] Hint Resolve istays_ModifyGraphWithDelegateImpl : respects.

Lemma istays_ModifyGraphWithOwnedDelegate d : respects istays (ModifyGraphWithOwnedDelegate d).
Proof. unfold ModifyGraphWithOwnedDelegate. go. Qed.
#[local] Hint Resolve istays_ModifyGraphWithOwnedDelegate : respects.

Lemma istays_ApplyLazyDelegateProviders : respects istays ApplyLazyDelegateProviders.
Proof. unfold ApplyLazyDelegateProviders, Interpreter.IsFullyDelegated, on_primary, apply_provider, lazy_status. go. Qed.
#[local] Hint Resolve istays_ApplyLazyDelegateProviders : respects.

Lemma istays_Interpreter_AllocateTensors : respects istays Interpreter.AllocateTensors.
Proof. unfold Interpreter.AllocateTensors, on_primary. go. Qed.

Lemma istays_Interpreter_Invoke : respects istays Interpreter.Invoke.
Proof. unfold Interpreter.Invoke, outputs, primary_graph, on_primary. go. Qed.
#[local] Hint Resolve istays_Interpreter_Invoke : respects.

Lemma istays_InvokeWithCPUFallback : respects istays InvokeWithCPUFallback.
Proof.
  unfold InvokeWithCPUFallback, write_tensor, read_tensor, the_tensor, Interpreter.tensor, inputs, primary_graph,
    Interpreter.HasDelegates, Interpreter.IsCancelled, on_primary. go.
Qed.

Lemma istays_SetNumThreads n : respects istays (SetNumThreads (P := P) (W := W) n).
Proof. unfold SetNumThreads. go. Qed.

Lemma istays_ApplyOptions o : respects istays (ApplyOptions (P := P) (W := W) o).
Proof. unfold ApplyOptions. go. Qed.

Lemma istays_SetMetadata m : respects istays (SetMetadata (P := P) (W := W) m).
Proof.
  unfold SetMetadata. go. apply istays_upd_subgraph. intros ?. split; [|done]. intros []. by split.
Qed.

(** A runner is made for a subgraph that exists. *)
Lemma new_runner_run d k s r s' : new_runner (P := P) (W := W) d k s = (Done r, s') ->
  s' = s /\ 0 <= subgraph_ r < zlength (subgraphs_ (interp s)).
Proof.
  unfold new_runner. destruct k as [k|]; [|done]. cbn [access]. rewrite bind_ret.
  unfold subgraph_ref. rewrite bind_assoc, (bind_done self _ s (interp s) s) by done.
  destruct ((subgraphs_ (interp s)).[k]) as [m|] eqn:Hk; [|done]. cbn [access]. rewrite bind_ret.
  intros [= <- <-]. cbn. split; [done|]. by apply zlookup_some in Hk as [? _].
Qed.

Lemma istays_add_runner key r s : 0 <= subgraph_ r < zlength (subgraphs_ (interp s)) ->
  istays s (snd (add_runner (P := P) (W := W) key r s)).
Proof.
  intros Hr. split; [|cbn; lia|done]. intros []. split; cbn; [done| |done]. by apply map_insert_Forall.
Qed.

Lemma istays_new_runner key d k :
  respects istays (let* r := new_runner (P := P) (W := W) d k in add_runner key r).
Proof.
  intros s. apply moves_bind_at; [exact _| |].
  - unfold new_runner. apply respects_bind; [exact _|apply respects_access; exact _|intros k'].
    apply respects_bind; [exact _|apply istays_subgraph_ref|intros m; apply respects_ret; exact _].
  - intros r s' [-> Hr]%new_runner_run. by apply istays_add_runner.
Qed.
#[local] Hint Resolve istays_new_runner : respects.

Lemma istays_CreatePlaceholderSignatureDef : respects istays (CreatePlaceholderSignatureDef (P := P) (W := W)).
Proof.
  unfold CreatePlaceholderSignatureDef, placeholder_map, GetInputName, GetOutputName, inputs, outputs, primary_graph. go.
Qed.
#[local] Hint Resolve istays_CreatePlaceholderSignatureDef : respects.

Lemma istays_find_signature key : respects istays (find_signature (P := P) (W := W) key).
Proof. unfold find_signature. go. Qed.
Lemma istays_subgraph k : respects istays (subgraph (P := P) (W := W) k).
Proof. unfold subgraph. go. Qed.
#[local] Hint Resolve istays_find_signature istays_subgraph : respects.

Lemma istays_GetSignatureRunner key : respects istays (GetSignatureRunner key).
Proof. unfold GetSignatureRunner, ReplaceWithPlaceholderSignatureKeyIfNeeded. go. Qed.

Lemma istays_on_named m r name c : (forall i, kept (c i)) -> respects istays (on_named m r name c).
Proof. intros Hc. unfold on_named. go. Qed.

Lemma istays_runner_Invoke r : respects istays (runner_Invoke r).
Proof. unfold runner_Invoke. go. Qed.

(** ** Requests *)

(** What a client asks of the interpreter.  [subgraph(k)] gives the client the interface of a
    subgraph too, which the functions about the primary subgraph forward to. *)
Inductive request :=
  | rq_subgraph (k : Z) (op : operation)
  | rq_AddSubgraphs (n : Z) | rq_SetExternalContext (type ctx : Z)
  | rq_ModifyGraphWithDelegate (delegate : Z) | rq_ModifyGraphWithOwnedDelegate (delegate : Z)
  | rq_RemoveAllDelegates | rq_AllocateTensors | rq_ResetVariableTensors
  | rq_SetAllowBufferHandleOutput (allow : bool) | rq_Invoke | rq_InvokeWithCPUFallback
  | rq_EnableCancellation | rq_SetCancellationFunction (data : Z) (f : option Z) | rq_Cancel
  | rq_SetNumThreads (n : Z) | rq_SetAllowFp16PrecisionForFp32 (allow : bool)
  | rq_ApplyOptions (options : option InterpreterOptions) | rq_SetMetadata (metadata : StdMap bytes)
  | rq_SetBufferHandle (i handle delegate : Z)
  | rq_GetSignatureRunner (key : option string)
  | rq_on_input (r : SignatureRunner) (name : string) (op : Z -> operation)
  | rq_on_output (r : SignatureRunner) (name : string) (op : Z -> operation)
  | rq_runner_AllocateTensors (r : SignatureRunner) | rq_runner_Invoke (r : SignatureRunner)
  | rq_runner_Cancel (r : SignatureRunner)
  | rq_AcquireSubgraphContext (k : Z) | rq_ReleaseSubgraphContext (k : Z)
  | rq_MarkSubgraphAsDelegationSkippable (k : Z).

Definition run_request (rq : request) : M S unit :=
  match rq with
  | rq_subgraph k op => on_subgraph k (run_op op)
  | rq_AddSubgraphs n => void (AddSubgraphs n)
  | rq_SetExternalContext type ctx => SetExternalContext type ctx
  | rq_ModifyGraphWithDelegate d => Interpreter.ModifyGraphWithDelegate d
  | rq_ModifyGraphWithOwnedDelegate d => ModifyGraphWithOwnedDelegate d
  | rq_RemoveAllDelegates => Interpreter.RemoveAllDelegates
  | rq_AllocateTensors => Interpreter.AllocateTensors
  | rq_ResetVariableTensors => Interpreter.ResetVariableTensors
  | rq_SetAllowBufferHandleOutput allow => SetAllowBufferHandleOutput allow
  | rq_Invoke => Interpreter.Invoke
  | rq_InvokeWithCPUFallback => InvokeWithCPUFallback
  | rq_EnableCancellation => Interpreter.EnableCancellation
  | rq_SetCancellationFunction data f => Interpreter.SetCancellationFunction data f
  | rq_Cancel => Interpreter.Cancel
  | rq_SetNumThreads n => SetNumThreads n
  | rq_SetAllowFp16PrecisionForFp32 allow => SetAllowFp16PrecisionForFp32 allow
  | rq_ApplyOptions o => ApplyOptions o
  | rq_SetMetadata m => SetMetadata m
  | rq_SetBufferHandle i h d => Interpreter.SetBufferHandle i h d
  | rq_GetSignatureRunner key => void (GetSignatureRunner key)
  | rq_on_input r name op => on_input r name (fun i => run_op (op i))
  | rq_on_output r name op => on_output r name (fun i => run_op (op i))
  | rq_runner_AllocateTensors r => runner_AllocateTensors r
  | rq_runner_Invoke r => runner_Invoke r
  | rq_runner_Cancel r => runner_Cancel r
  | rq_AcquireSubgraphContext k => void (AcquireSubgraphContext k)
  | rq_ReleaseSubgraphContext k => ReleaseSubgraphContext k
  | rq_MarkSubgraphAsDelegationSkippable k => MarkSubgraphAsDelegationSkippable k
  end.

(** The state after the requests, whatever each returned. *)
Definition run_requests (rqs : list request) s : S := fold_left (fun s rq => snd (run_request rq s)) rqs s.

#[local] Hint Resolve kept_run_op istays_SetExternalContext istays_Interpreter_AllocateTensors
  istays_InvokeWithCPUFallback istays_SetNumThreads istays_ApplyOptions istays_SetMetadata
  istays_GetSignatureRunner istays_on_named istays_runner_Invoke : respects.

Lemma istays_run_request rq : respects istays (run_request rq).
Proof.
  destruct rq; cbn [run_request];
    unfold Interpreter.ModifyGraphWithDelegate, Interpreter.ResetVariableTensors, SetAllowBufferHandleOutput,
      Interpreter.EnableCancellation, Interpreter.SetCancellationFunction, Interpreter.Cancel,
      SetAllowFp16PrecisionForFp32, Interpreter.SetBufferHandle, Interpreter.check_tensor_index, tensors_size,
      primary_graph, on_input, on_output, runner_AllocateTensors, runner_Cancel, AcquireSubgraphContext,
      ReleaseSubgraphContext, MarkSubgraphAsDelegationSkippable, on_primary; go.
  apply istays_upd_subgraph. intros m. split; [|done]. intros []. by split.
Qed.

Lemma istays_run_requests rqs s : istays s (run_requests rqs s).
Proof.
  revert s. induction rqs as [|rq rqs IH]; intros s; [reflexivity|].
  etransitivity; [apply istays_run_request|apply IH].
Qed.

(** ** Building *)

Section Built.
Context (AcquireFlexDelegate : M S Z) (Flex : respects istays AcquireFlexDelegate).
#[local] Hint Resolve Flex : respects.

Lemma istays_parse_node al regs k op : respects istays (InterpreterBuilder.parse_node al regs k op).
Proof. unfold InterpreterBuilder.parse_node. go. Qed.
Lemma istays_parse_tensor b bufs k i t ty : respects istays (InterpreterBuilder.parse_tensor b bufs k i t ty).
Proof. unfold InterpreterBuilder.parse_tensor. go. Qed.
#[local] Hint Resolve istays_parse_node istays_parse_tensor : respects.

Lemma istays_ParseNodes al regs k ops : respects istays (InterpreterBuilder.ParseNodes al regs k ops).
Proof. unfold InterpreterBuilder.ParseNodes. go. Qed.
Lemma istays_ParseTensors b bufs k ts : respects istays (InterpreterBuilder.ParseTensors b bufs k ts).
Proof. unfold InterpreterBuilder.ParseTensors. go. Qed.
#[local] Hint Resolve istays_ParseNodes istays_ParseTensors : respects.

Lemma istays_build_subgraph b bufs regs k g : respects istays (InterpreterBuilder.build_subgraph b bufs regs k g).
Proof. unfold InterpreterBuilder.build_subgraph. go. Qed.
Lemma istays_use_signature_names : respects istays InterpreterBuilder.use_signature_names.
Proof. unfold InterpreterBuilder.use_signature_names, InterpreterBuilder.rename_tensors. go. Qed.
Lemma istays_ApplyDelegates b flex : respects istays (InterpreterBuilder.ApplyDelegates AcquireFlexDelegate b flex).
Proof. unfold InterpreterBuilder.ApplyDelegates. go. Qed.
#[local] Hint Resolve istays_build_subgraph istays_use_signature_names istays_ApplyDelegates : respects.

Lemma istays_fill_interpreter b m regs flex gs bufs :
  respects istays (InterpreterBuilder.fill_interpreter AcquireFlexDelegate b m regs flex gs bufs).
Proof. unfold InterpreterBuilder.fill_interpreter, InterpreterBuilder.ParseSignatureDefs, SetSignatureDef. go. Qed.

(** The construction starts from nothing. *)
Lemma Interpreter_new_run own s : exists s', Interpreter_new (P := P) (W := W) own s = (Done tt, s') /\
  interpreter_wf (interp s').
Proof.
  eexists. split; [reflexivity|]. split; cbn; [|constructor|done]. by repeat constructor.
Qed.

Lemma istays_after_new b n : respects istays
  ((if 1 <? n then AddSubgraphs (n - 1) ;;; ret tt else ret tt) ;;;
   void (SetNumThreads (InterpreterBuilder.num_threads_ b)) ;;;
   void (ApplyOptions (Some (InterpreterBuilder.options_of b)))).
Proof. go. Qed.

Lemma BuildInterpreter_wf own b s s' :
  InterpreterBuilder.BuildInterpreter AcquireFlexDelegate own b s = (Done tt, s') -> interpreter_wf (interp s').
Proof.
  unfold InterpreterBuilder.BuildInterpreter. destruct (InterpreterBuilder.model_ b) as [m|]; [|done].
  destruct (negb _); [done|]. destruct (InterpreterBuilder.BuildLocalIndexToRegistrationMapping _ _ _) as [[regs flex]| |]; [|done..].
  destruct (subgraphs m) as [gs|]; [|done]. cbn [access]. rewrite bind_ret. case_bool_decide; [done|].
  destruct (buffers m) as [bufs|]; [|done]. unfold InterpreterBuilder.or_delete, InterpreterBuilder.new_interpreter.
  rewrite bind_assoc. destruct (Interpreter_new_run own s) as (s1 & Hnew & Hwf).
  rewrite (bind_done _ _ _ _ _ Hnew).
  match goal with |- context [bind ?c ?k s1] => assert (Hc : respects istays (bind c k)) end.
  { apply respects_bind; [exact _|apply istays_after_new|intros _; apply istays_fill_interpreter]. }
  specialize (Hc s1). destruct (bind _ _ s1) as [[[]|e|] s2]; [|unfold bind at 1; destruct (Interpreter_delete s2) as [[[]| |] ?]; done|done].
  intros [= <-]. exact (model_wf _ _ Hc Hwf).
Qed.

(** The calls of an inconsistent subgraph fail. *)
Lemma inconsistent_calls s k : inconsistent (interp s) k ->
  fst (on_subgraph (Z.of_nat k) SubgraphInline.AllocateTensors_all s) = Fail kTfLiteError /\
  fst (on_subgraph (Z.of_nat k) SubgraphRun.Invoke s) = Fail kTfLiteError.
Proof.
  intros (m & Hm & Hc). unfold on_subgraph.
  assert ((subgraphs_ (interp s)).[Z.of_nat k] = Some m) as ->.
  { unfold zlookup. destruct (Z.ltb_spec (Z.of_nat k) 0); [lia|]. by rewrite Nat2Z.id. }
  set (s0 := SG _ _ _). assert (Hs0 : consistent_ (sg_graph s0) = false).
  { apply (graph_stays_load_flag _ _), Hc. }
  destruct (inconsistent_refused s0 Hs0) as [-> ->]. done.
Qed.

(** C6. An interpreter that was built keeps its invariant whatever is asked of it and whatever it
    answers: in every subgraph, the inputs, outputs and variables, the inputs and outputs of all nodes
    (-1 is an omitted one), the temporaries of nodes and the custom allocations have indices of
    tensors, and the plans have indices of nodes; every runner has a subgraph; and a subgraph marked
    inconsistent is never allocated or run again.  The intermediates of nodes, which the file gives
    and the code does not check, are not included. *)
Theorem built_interpreter_stays_valid own b s s' rqs1 rqs2 :
  InterpreterBuilder.BuildInterpreter AcquireFlexDelegate own b s = (Done tt, s') ->
  let s1 := run_requests rqs1 s' in let s2 := run_requests rqs2 s1 in
  interpreter_wf (interp s2) /\
  forall k, inconsistent (interp s1) k ->
    fst (on_subgraph (Z.of_nat k) SubgraphInline.AllocateTensors_all s2) = Fail kTfLiteError /\
    fst (on_subgraph (Z.of_nat k) SubgraphRun.Invoke s2) = Fail kTfLiteError.
Proof.
  intros Hb%BuildInterpreter_wf s1 s2. split.
  - by apply (model_wf _ _ (istays_run_requests rqs2 s1)), (model_wf _ _ (istays_run_requests rqs1 s')).
  - intros k Hk. by apply inconsistent_calls, (model_stuck _ _ (istays_run_requests rqs2 s1)).
Qed.
End Built.
End Stays.

(** ** The model of the examples *)

(** Resetting the other subgraphs keeps them. *)
Lemma world_stays_reset {P W} (w : model_world P W) : world_stays w (reset_skippable w).
Proof.
  split; cbn.
  - intros []. split; cbn; [|unfold zlength; by rewrite length_fmap|done].
    apply Forall_fmap. eapply Forall_impl; [eassumption|]. intros m []. by split.
  - unfold zlength. rewrite length_fmap. lia.
  - intros k (m & Hm & Hc). exists (set_sub_graph (set_is_delegation_skippable_ false (sub_graph m)) m).
    cbn. by rewrite list_lookup_fmap, Hm.
Qed.

Section ExampleOk.
Abbreviation R := (world_stays (P := XP) (W := unit)).

Lemma x_classify_world n : respects (around R) (classify n).
Proof.
  unfold classify. repeat first [progress intros | exact (around_node_arrays R _) | exact (around_tensor_ref R _)
    | exact (around_on_heap R _) | solve [eauto with respects] | walk_step].
Qed.

#[local] Instance x_kernels_world : WorldOk x_kernels R.
Proof.
  split; intros; try (intros s; reflexivity); [apply world_stays_reset|].
  cbn. destruct (f =? 4); [intros s; reflexivity|apply x_classify_world].
Qed.

Lemma x_take_over_world d invoke : respects (around R) (take_over d invoke).
Proof.
  unfold take_over, delegate_only. repeat first [progress intros |
    exact (around_this R) | exact (around_Replace R _ _ _) | solve [eauto with respects] | walk_step].
Qed.

#[export] Instance x_callbacks_world : WorldOk x_callbacks R.
Proof.
  destruct x_kernels_world. split; try assumption. intros f d data. cbn.
  destruct (f =? 3); [apply x_take_over_world|]. walk. apply x_take_over_world.
Qed.

#[export] Instance x_interpreter_callbacks_ok : InterpreterCallbacksOk x_interpreter_callbacks.
Proof. split; intros; intros s; reflexivity. Qed.
End ExampleOk.

Definition x_requests1 : list request := [rq_AllocateTensors; rq_GetSignatureRunner None; rq_subgraph 1 (op_SetInputs [7])].
Definition x_requests2 : list request := [rq_subgraph 1 (op_SetInputs [0]); rq_ModifyGraphWithDelegate 1; rq_Invoke].

Abbreviation x_state1 := (run_requests x_requests1 x_interpreter).

Lemma x_inconsistent : inconsistent (interp x_state1) 1.
Proof.
  unfold inconsistent. destruct (subgraphs_ (interp x_state1) !! 1%nat) as [m|] eqn:Hm.
  - exists m. split; [done|].
    assert (H : (consistent_ ∘ sub_graph) <$> (subgraphs_ (interp x_state1) !! 1%nat) = Some false)
      by (vm_compute; reflexivity).
    rewrite Hm in H. by injection H.
  - assert (H : is_Some (subgraphs_ (interp x_state1) !! 1%nat)) by (vm_compute; by eexists).
    rewrite Hm in H. by destruct H.
Qed.

Lemma built_interpreter_stays_valid_witness :
  interpreter_wf (interp (run_requests x_requests2 x_state1)) /\
  fst (on_subgraph (Z.of_nat 1) SubgraphInline.AllocateTensors_all (run_requests x_requests2 x_state1)) = Fail kTfLiteError.
Proof.
  destruct (built_interpreter_stays_valid (ret 0) ltac:(intros s; reflexivity) 5000 x_builder x_start x_interpreter
    x_requests1 x_requests2 x_built_done) as [Hwf Hc].
  exact (conj Hwf (proj1 (Hc 1%nat x_inconsistent))).
Defined.
