(* ===== verification/InterpreterProof.v ===== *)
(** * The interpreter: what its operations do

    The loops over the subgraphs, the control dependencies of the metadata, the runners of the
    signatures and the removal of delegates. *)
From Stdlib Require Import String.
From stdpp Require Import strings.
From S2P Require Import Prelude Heap Common MemoryPlanner Callbacks StdMap MetadataUtil Subgraph.
From S2P Require Import SubgraphRun SubgraphDelegate SubgraphWf SubgraphSteps SubgraphWorld.
From S2P Require Import ModelSchema Interpreter ModelExample InterpreterWf.
From S2P Require InterpreterBuilder.
#[local] Open Scope Z_scope.

Section Loops.
Context {P W : Type}.
Abbreviation S := (istate P W).
Implicit Types (s : S) (l : list (ModelSubgraph P)).

(** The subgraphs up to [k] changed by [f]. *)
Definition changed (f : Z -> ModelSubgraph P -> ModelSubgraph P) l (k : nat) : list (ModelSubgraph P) :=
  imap (fun j m => f (Z.of_nat j) m) (take k l) ++ drop k l.

Definition with_subgraphs l s : S := IState (is_heap s) (set_subgraphs_ l (interp s)) (is_world s).

Lemma changed_all f l : changed f l (length l) = imap (fun j m => f (Z.of_nat j) m) l.
Proof. unfold changed. by rewrite take_ge, drop_ge, app_nil_r by lia. Qed.

Lemma changed_lookup f l k m : l !! k = Some m -> (changed f l k).[Z.of_nat k] = Some m.
Proof.
  intros Hm. unfold zlookup. destruct (Z.ltb_spec (Z.of_nat k) 0); [lia|]. rewrite Nat2Z.id. unfold changed.
  pose proof (lookup_lt_Some _ _ _ Hm).
  rewrite lookup_app_r; rewrite length_imap, length_take_le by lia; [|lia].
  rewrite lookup_drop. by replace (k + (k - k))%nat with k by lia.
Qed.

Lemma changed_step f l k m : l !! k = Some m ->
  zset (changed f l k) (Z.of_nat k) (f (Z.of_nat k) m) = changed f l (k + 1).
Proof.
  intros Hm. pose proof (lookup_lt_Some _ _ _ Hm) as Hk. unfold zset, changed. rewrite Nat2Z.id.
  rewrite Nat.add_1_r, (take_S_r _ _ _ Hm), imap_app, <- app_assoc, (drop_S _ _ _ Hm). cbn.
  rewrite insert_app_r_alt; rewrite length_imap, length_take_le by lia; [|lia].
  rewrite Nat.sub_diag. cbn. by rewrite Nat.add_0_r.
Qed.

(** A loop whose body changes one subgraph, whatever the others are. *)
Lemma for_subgraphs_changes f body s :
  (forall l k m, length l = length (subgraphs_ (interp s)) -> l.[k] = Some m ->
     body k (with_subgraphs l s) = (Done tt, with_subgraphs (zset l k (f k m)) s)) ->
  for_subgraphs body s =
    (Done tt, with_subgraphs (imap (fun j m => f (Z.of_nat j) m) (subgraphs_ (interp s))) s).
Proof.
  intros Hbody. unfold for_subgraphs. rewrite (bind_done self _ s (interp s) s) by done.
  set (l := subgraphs_ (interp s)) in *.
  assert (Hs : s = with_subgraphs (changed f l 0) s).
  { unfold changed, with_subgraphs. cbn. unfold l. by destruct s as [h [] w]. }
  rewrite <- changed_all.
  assert (H : forall d k : nat, (k + d = length l)%nat ->
    for_each (zrange (Z.of_nat k) (zlength l - 1)) body (with_subgraphs (changed f l k) s) =
      (Done tt, with_subgraphs (changed f l (length l)) s)).
  { induction d as [|d IH]; intros k Hk.
    - rewrite zrange_nil by (unfold zlength; lia). cbn. by replace k with (length l) by lia.
    - rewrite zrange_cons by (unfold zlength; lia). rewrite for_each_cons.
      destruct (lookup_lt_is_Some_2 l k) as [m Hm]; [lia|].
      assert (Hrun := Hbody (changed f l k) (Z.of_nat k) m).
      rewrite (bind_done _ _ _ _ _ (Hrun ltac:(unfold changed; rewrite length_app, length_imap, length_take, length_drop; lia)
        (changed_lookup f l k m Hm))).
      rewrite (changed_step f l k m Hm). replace (Z.of_nat k + 1) with (Z.of_nat (k + 1)) by lia. apply IH. lia. }
  rewrite Hs at 1. change 0 with (Z.of_nat 0). apply (H (length l) 0%nat). lia.
Qed.
End Loops.

(** ** Control dependencies *)

Section Metadata.
Context {P W : Type}.
Abbreviation S := (istate P W).
Implicit Types s : S.

(** The subgraph at [k] with the edges that the metadata has for it. *)
Definition with_edges (deps : ModelControlDependencies) (k : Z) (m : ModelSubgraph P) : ModelSubgraph P :=
  set_sub_graph (set_control_edges_ (deps.[k]) (sub_graph m)) m.

(** Control dependencies serialized into a model's metadata, one list of edges for every
    subgraph, reach the subgraphs: each gets the edges that were written for it, and nothing else
    of the interpreter changes but the copies of the metadata it keeps. *)
Theorem SetMetadata_control_edges metadata deps s :
  valid_dependencies deps -> subgraphs_ (interp s) <> [] -> length deps = length (subgraphs_ (interp s)) ->
  map_find kModelControlDependenciesMetadataKey metadata = Some (SerializeModelControlDependencies deps) ->
  SetMetadata metadata s = (Done tt, with_subgraphs (imap (fun j m => with_edges deps (Z.of_nat j) m) (subgraphs_ (interp s)))
    (IState (is_heap s) (set_model_control_dependencies_ deps (set_metadata_ metadata (interp s))) (is_world s))).
Proof.
  intros Hv Hne Hlen Hfind. unfold SetMetadata. rewrite Hfind.
  assert (ParseModelControlDependencies (SerializeModelControlDependencies deps) = Some deps) as ->.
  { apply ParseModelControlDependencies_some. destruct (parse_serialized deps [] Hv) as [H1 H2].
    rewrite !app_nil_r in *. eauto. }
  cbn [default]. set (s1 := IState _ _ _).
  rewrite (bind_done (upd_self (set_metadata_ metadata)) _ s tt
    (IState (is_heap s) (set_metadata_ metadata (interp s)) (is_world s))) by done.
  rewrite (bind_done (upd_self (set_model_control_dependencies_ deps)) _ _ tt s1) by done.
  change (subgraphs_ (interp s)) with (subgraphs_ (interp s1)).
  apply (for_subgraphs_changes (with_edges deps)).
  intros l k m Hl Hk. assert (Hr := proj1 (zlookup_some _ _ _) Hk).
  rewrite (bind_done self _ _ (interp (with_subgraphs l s1)) (with_subgraphs l s1)) by done.
  change (model_control_dependencies_ (interp (with_subgraphs l s1))) with deps.
  rewrite bool_decide_eq_false_2 by (intros ->; by destruct (subgraphs_ (interp s))).
  destruct (zlookup_in_range deps k) as [e He]; [unfold zlength in *; cbn in *; lia|].
  rewrite He. cbn [access]. rewrite bind_assoc, !bind_ret. unfold upd_subgraph, subgraph_ref, with_edges.
  rewrite He, bind_assoc, (bind_done self _ _ (interp (with_subgraphs l s1)) (with_subgraphs l s1)) by done.
  change (subgraphs_ (interp (with_subgraphs l s1))) with l. by rewrite Hk.
Qed.
End Metadata.

(** ** Runners of signatures *)

Section Runners.
Context {P W : Type} {MP : MemoryPlanner P} {NP : NewPlanner P} {MM : Malloc} {SS : StdSort}.
Abbreviation S := (istate P W).
Abbreviation G := (sgstate P (model_world P W)).
Context {CB : Callbacks G} {IC : InterpreterCallbacks S}.
Implicit Types s : S.

(** Once there is a runner for a key it is the one that is returned, and nothing happens. *)
Lemma GetSignatureRunner_found key r s : map_find key (signature_runner_map_ (interp s)) = Some r ->
  GetSignatureRunner (Some key) s = (Done (Some r), s).
Proof.
  intros Hr. unfold GetSignatureRunner, ReplaceWithPlaceholderSignatureKeyIfNeeded.
  rewrite bind_assoc, (bind_done self _ s (interp s) s), bind_ret by done. cbn [fst].
  rewrite (bind_done self _ s (interp s) s) by done. by rewrite Hr.
Qed.

Lemma add_runner_found key (c : M S SignatureRunner) s r s' :
  (let* r := c in add_runner key r) s = (Done (Some r), s') -> map_find key (signature_runner_map_ (interp s')) = Some r.
Proof.
  unfold bind at 1. destruct (c s) as [[r'|e|] s1]; [|done|done]. unfold add_runner, bind, self, upd_self, modify. cbn.
  intros [= Hf <-]. cbn. exact Hf.
Qed.

(** The same key gives the same runner: the first call may apply the lazy delegates and make the
    runner, and a second call, with the key the first one resolved, returns that runner and
    changes nothing. *)
Theorem GetSignatureRunner_again key s r s' : GetSignatureRunner key s = (Done (Some r), s') ->
  exists k, fst (ReplaceWithPlaceholderSignatureKeyIfNeeded key s) = Done (Some k, bool_decide (key = None /\ signature_defs_ (interp s) = [])) /\
    GetSignatureRunner (Some k) s' = (Done (Some r), s').
Proof.
  intros Hrun. unfold GetSignatureRunner in Hrun.
  assert (Hk : exists k b, ReplaceWithPlaceholderSignatureKeyIfNeeded key s = (Done (k, b), s) /\
    b = bool_decide (key = None /\ signature_defs_ (interp s) = [])).
  { unfold ReplaceWithPlaceholderSignatureKeyIfNeeded. rewrite (bind_done self _ s (interp s) s) by done.
    destruct key as [k|]; [|case_bool_decide]; do 2 eexists; (split; [reflexivity|]); symmetry;
      (apply bool_decide_eq_true || apply bool_decide_eq_false); naive_solver. }
  destruct Hk as (k & b & Hk & Hb). rewrite (bind_done _ _ _ _ _ Hk) in Hrun. cbn [fst snd] in Hrun.
  destruct k as [k|]; [|done]. exists k. rewrite Hk, Hb. split; [done|]. apply GetSignatureRunner_found.
  rewrite (bind_done self _ s (interp s) s) in Hrun by done.
  destruct (map_find k _) as [r'|] eqn:Hf; [by injection Hrun as -> ->|].
  unfold bind at 1 in Hrun. destruct (status_call _ s) as [[st|e|] s1]; [|done|done].
  destruct (bool_decide (st = kTfLiteError)); [by unfold ret in Hrun|]. clear Hb. destruct b.
  - unfold bind at 1 in Hrun. destruct (CreatePlaceholderSignatureDef s1) as [[d|e|] s2]; [|done|done].
    rewrite (bind_done (upd_self _) _ s2 tt (IState (is_heap s2) (set_placeholder_signature_def_ (Some d) (interp s2)) (is_world s2))) in Hrun by done.
    exact (add_runner_found k _ _ _ _ Hrun).
  - unfold bind at 1 in Hrun. destruct (find_signature k s1) as [[[d|]|e|] s2]; [|by unfold ret in Hrun|done..].
    unfold bind at 1 in Hrun. destruct (subgraph _ s2) as [[g|e|] s3]; [|done|done].
    exact (add_runner_found k _ _ _ _ Hrun).
Qed.
End Runners.

(** ** On the model of the examples *)

Definition x_dependencies : ModelControlDependencies := [[(0, 1)]; []].
Definition x_new_metadata : StdMap bytes :=
  [(kModelControlDependenciesMetadataKey, SerializeModelControlDependencies x_dependencies)].

Lemma SetMetadata_control_edges_witness :
  SetMetadata x_new_metadata x_interpreter = (Done tt, with_subgraphs
    (imap (fun j m => with_edges x_dependencies (Z.of_nat j) m) (subgraphs_ (interp x_interpreter)))
    (IState (is_heap x_interpreter) (set_model_control_dependencies_ x_dependencies
      (set_metadata_ x_new_metadata (interp x_interpreter))) (is_world x_interpreter))).
Proof.
  apply (SetMetadata_control_edges x_new_metadata x_dependencies x_interpreter).
  - split; [vm_compute; discriminate|]. repeat constructor; vm_compute; (discriminate || congruence).
  - discriminate.
  - reflexivity.
  - reflexivity.
Defined.

(** With fewer lists than subgraphs the vector is indexed out of its bounds. *)
Example metadata_too_short :
  fst (SetMetadata [(kModelControlDependenciesMetadataKey, SerializeModelControlDependencies [[]])] x_interpreter) = Undef.
Proof. vm_compute. reflexivity. Qed.

Definition x_runner : SignatureRunner := mkSignatureRunner
  (mkSignatureDef [("x"%string, 0)] [("y"%string, 1)] "serving" 0) 0 ["x"%string] ["y"%string]
  [Some "x"%string] [Some "y"%string] false.

Lemma GetSignatureRunner_again_witness :
  exists k, fst (ReplaceWithPlaceholderSignatureKeyIfNeeded None x_interpreter) = Done (Some k, false) /\
    GetSignatureRunner (Some k) (snd (GetSignatureRunner None x_interpreter)) =
      (Done (Some x_runner), snd (GetSignatureRunner None x_interpreter)).
Proof.
  exact (GetSignatureRunner_again None x_interpreter x_runner (snd (GetSignatureRunner None x_interpreter))
    ltac:(vm_compute; reflexivity)).
Defined.

(** A delegate that was removed still stands in the way of another: the tensors that its node
    wrote keep it, so that a second delegate, which the model takes as the first one, is refused. *)
Theorem removed_delegate_blocks_others :
  fst (Interpreter.ModifyGraphWithDelegate 3 x_interpreter) = Done tt /\
  fst ((Interpreter.ModifyGraphWithDelegate 1 ;;; Interpreter.RemoveAllDelegates) x_interpreter) = Done tt /\
  fst ((Interpreter.ModifyGraphWithDelegate 1 ;;; Interpreter.RemoveAllDelegates ;;;
        Interpreter.ModifyGraphWithDelegate 3) x_interpreter) = Fail kTfLiteDelegateError.
Proof. vm_compute. split_and!; reflexivity. Qed.

(** The bytes of the first input, and of the first output. *)
Definition put_input (bs : bytes) : M XS unit :=
  let* t := Interpreter.input_tensor 0 in let* t := access t in Interpreter.on_heap (store (t_data t) bs).
Definition get_output : M XS bytes :=
  let* t := Interpreter.output_tensor 0 in let* t := access t in Interpreter.on_heap (load (t_data t) (t_bytes t)).

(** The delegate's kernel fails; the invocation is repeated without it, on the same input. *)
Example fallback_runs_on_the_cpu :
  fst ((Interpreter.ModifyGraphWithDelegate 1 ;;; Interpreter.AllocateTensors ;;; put_input [5; 0; 0; 0] ;;;
        status_call Interpreter.Invoke) x_interpreter) = Done kTfLiteError /\
  fst ((Interpreter.ModifyGraphWithDelegate 1 ;;; Interpreter.AllocateTensors ;;; put_input [5; 0; 0; 0] ;;;
        let* status := status_call InvokeWithCPUFallback in let* out := get_output in
        let* delegated := Interpreter.HasDelegates in ret (status, out, delegated)) x_interpreter) =
    Done (kTfLiteDelegateError, scores 5, false).
Proof. vm_compute. split; reflexivity. Qed.

(** A signature of a subgraph that does not exist. *)
Example signature_without_subgraph :
  fst ((SetSignatureDef [mkSignatureDef [] [] "serving" 5] ;;; GetSignatureRunner (Some "serving"%string)) x_interpreter) = Undef.
Proof. vm_compute. reflexivity. Qed.

(** Once the interpreter's own context is replaced, null is taken for it. *)
Example null_context_is_ignored :
  (external_contexts_ <$> Some (interp (snd ((SetExternalContext kTfLiteCpuBackendContext 7000 ;;;
     SetExternalContext kTfLiteCpuBackendContext 0) x_interpreter)))) = Some [0; 0; 0; 7000; 0].
Proof. vm_compute. reflexivity. Qed.
