(* ===== verification/BuilderProof.v ===== *)
(** * Building an interpreter: what the builder makes of the tables

    The operators of a subgraph's table become its nodes, in their order; where the data of a
    tensor is in the file; what the quantization of a tensor means. *)
From Stdlib Require Import String.
From stdpp Require Import strings.
From S2P Require Import Prelude Heap Common Util MemoryPlanner Callbacks StdMap MetadataUtil.
From S2P Require Import Subgraph SubgraphRun SubgraphWf SubgraphSteps SubgraphWorld SubgraphUndo.
From S2P Require Import OpResolver OptionTables ModelSchema Interpreter InterpreterBuilder ModelExample InterpreterWf.
From S2P Require OptionStructs OptionParser OptionParserProof.
#[local] Open Scope Z_scope.

(** ** Adding a node *)

Section AddNode.
Context {P W : Type} {MP : MemoryPlanner P} {MM : Malloc} {SS : StdSort}.
Abbreviation S := (sgstate P W).
Context {SB : Siblings W} {CB : Callbacks S} {CBOk : CallbacksOk CB}.
Implicit Types s : S.

(** The graph takes more nodes: it is not immutable, and the places behind its nodes are free. *)
Record buildable (g : Subgraph P) : Prop := {
  not_immutable : state_ g <> kStateInvokableAndImmutable;
  places_free n : n ∈ freed_nodes_ g -> n < zlength (nodes_and_registration_ g) }.

(** What the initialisation of a kernel leaves alone. *)
Record initial s s' : Prop := {
  initial_frozen : frozen s s';
  initial_freed : freed_nodes_ (sg_graph s') = freed_nodes_ (sg_graph s);
  initial_state : state_ (sg_graph s) <> kStateInvokableAndImmutable -> state_ (sg_graph s') <> kStateInvokableAndImmutable;
  initial_tensors : zlength (tensors_ (sg_graph s)) <= zlength (tensors_ (sg_graph s')) }.

#[local] Instance initial_preorder : PreOrder initial.
Proof.
  split.
  - intros s. split; [by split|done|done|done].
  - intros s s' s'' [[] ? ? ?] [[] ? ? ?]. split; [split; congruence|congruence|auto|lia].
Qed.

Lemma initial_on_tensor {A} i (c : M tstate A) : respects initial (on_tensor (P := P) (W := W) i c).
Proof.
  intros s. unfold on_tensor. destruct (_.[i]) as [t|]; [|reflexivity]. destruct (c _) as [r [h t']].
  split; [by split|done|done|]. cbn. by rewrite zlength_zset.
Qed.

#[local] Hint Resolve initial_on_tensor : respects.
#[local] Hint Extern 3 (respects initial (upd _)) => (apply respects_modify; intros ?; split; [by split|done|by cbn|done]) : respects.

Lemma context_action_initial s s' : context_action s s' -> initial s s'.
Proof.
  intros [h w|i t'|i dims|n|].
  - split; [by split|done|done|done].
  - apply initial_on_tensor.
  - assert (H : respects initial (ResizeTensor (P := P) (W := W) i dims)); [|apply H].
    assert (Ht : forall k, respects initial (tensor_ref (P := P) (W := W) k)).
    { intros k s0. by rewrite tensor_ref_same. }
    unfold ResizeTensor, ResizeTensorImpl, Subgraph.on_heap. walk; try apply Ht;
      first [apply respects_zoom; intros ? ?; split; [by split|done|done|done] | intros ?; reflexivity].
  - assert (H : respects initial (Subgraph.AddTensors (P := P) (W := W) n)); [|apply H].
    intros s0. unfold Subgraph.AddTensors. rewrite (bind_done this _ s0 (sg_graph s0) s0) by done.
    destruct (n <? 0); [reflexivity|]. split; [by split|done|done|]. cbn. rewrite zlength_app.
    pose proof (zlength_nonneg (replicate (Z.to_nat n) (set_delegate_buffer 0 kTfLiteNullBufferHandle false tensor_zero))). lia.
  - assert (H : respects initial (Subgraph.Cancel (P := P) (W := W))); [|apply H]. unfold Subgraph.Cancel. walk; by intros ?.
Qed.

Lemma initial_call_init f d b l : respects initial (call_init f d b l).
Proof. intros s. eapply rtc_moves; [exact _|apply context_action_initial|apply init_acts]. Qed.

(** The kernel of a registration is initialised without failing. *)
Definition initialises (reg : TfLiteRegistration) : Prop :=
  registration_external reg = 0 /\
  forall f b l s, reg_init reg = Some f -> exists ud s', call_init f None b l s = (Done ud, s') /\ ud <> TfLiteKernelInitFailed.

Lemma OpInit_run reg b l s : initialises reg ->
  exists ud s', OpInit reg b l s = (Done ud, s') /\ ud <> TfLiteKernelInitFailed /\ initial s s'.
Proof.
  intros [He Hi]. unfold OpInit, op_dispatch. rewrite He. cbn. destruct (reg_init reg) as [f|].
  - destruct (Hi f b l s eq_refl) as (ud & s' & Hrun & Hud). exists ud, s'. split_and!; [done|done|].
    pose proof (initial_call_init f None b l s) as H. by rewrite Hrun in H.
  - exists 0, s. split_and!; [done|done|reflexivity].
Qed.

Lemma CheckTensorIndices_ok l s : Forall (tensor_index (zlength (tensors_ (sg_graph s)))) l ->
  CheckTensorIndices l s = (Done tt, s).
Proof.
  unfold CheckTensorIndices, for_tensors. induction l as [|i l IH]; intros Hl; [done|].
  apply Forall_cons in Hl as [Hi Hl]. rewrite for_each_cons.
  destruct (Z.eqb_spec i kTfLiteOptionalTensor) as [|Hne]; [rewrite bind_ret; by apply IH|].
  destruct Hi as [|Hi]; [done|]. rewrite bind_assoc, (bind_done this _ s (sg_graph s) s) by done.
  destruct (Z.ltb_spec i 0); [lia|]. destruct (Z.leb_spec (zlength (tensors_ (sg_graph s))) i); [lia|]. cbn [orb].
  rewrite bind_ret. by apply IH.
Qed.

Lemma CheckOverlap_ok ins outs s : (forall i, i ∈ ins -> i ∉ outs) -> CheckInputAndOutputForOverlap ins outs s = (Done tt, s).
Proof.
  unfold CheckInputAndOutputForOverlap. induction ins as [|i ins IH]; intros Hd; [done|]. rewrite for_each_cons.
  assert (Hi : for_each outs (fun o => if i =? o then upd (set_consistent_ false) ;;; fail kTfLiteError else ret tt) s = (Done tt, s)).
  { assert (Hn : i ∉ outs) by (apply Hd; set_solver). clear - Hn. induction outs as [|o outs IH]; [done|].
    rewrite for_each_cons. destruct (Z.eqb_spec i o) as [->|_]; [set_solver|]. rewrite bind_ret. apply IH. set_solver. }
  rewrite (bind_done _ _ _ _ _ Hi). apply IH. set_solver.
Qed.

(** [g'] is [g] with one more node, at the end of the plan. *)
Record node_added (ins outs ims : list Z) (bd : Z) (reg : TfLiteRegistration) (g g' : Subgraph P) : Prop := {
  added_node : exists nd, cores g' = cores g ++ [(nd, reg)] /\
    node_inputs nd = ins /\ node_outputs nd = outs /\ node_intermediates nd = ims /\ node_delegate nd = 0 /\
    builtin_data nd = bd;
  added_to_plan : execution_plan_ g' = execution_plan_ g ++ [zlength (nodes_and_registration_ g)];
  added_buildable : buildable g';
  added_tensors : zlength (tensors_ g) <= zlength (tensors_ g') }.

Lemma finish_node_run ins outs ims ud id ids bd reg s0 s s1 :
  push_node ins outs ims s0 = (Done (zlength (nodes_and_registration_ (sg_graph s0))), s) -> initial s s1 -> buildable (sg_graph s0) ->
  exists s', finish_node (zlength (nodes_and_registration_ (sg_graph s0))) ud id ids bd reg s1 = (Done tt, s') /\
    node_added ins outs ims bd reg (sg_graph s0) (sg_graph s').
Proof.
  intros Hpush Hi [Himm Hfree]. unfold push_node in Hpush. rewrite (bind_done this _ s0 (sg_graph s0) s0) in Hpush by done.
  injection Hpush as <-. set (n := zlength (nodes_and_registration_ (sg_graph s0))) in *.
  destruct Hi as [[_ Hpl _ _ _ Hc] Hf Hst Ht]. cbn in *. unfold cores in Hc. cbn in Hc. rewrite fmap_app in Hc. cbn in Hc.
  assert (Hlen : length (nodes_and_registration_ (sg_graph s1)) = (length (nodes_and_registration_ (sg_graph s0)) + 1)%nat).
  { apply (f_equal length) in Hc. by rewrite length_app, !length_fmap in Hc. }
  destruct (zlookup_in_range (nodes_and_registration_ (sg_graph s1)) n) as [nr Hnr]; [unfold n, zlength; lia|].
  assert (Hcore : node_core nr = node_core (mkNode ins outs ims [] 0 0 0 0 0 false, registration_zero)).
  { assert (Hl : (node_core <$> nodes_and_registration_ (sg_graph s1)) !! Z.to_nat n = Some (node_core nr)).
    { apply zlookup_some in Hnr as [_ Hnr]. by rewrite list_lookup_fmap, Hnr. }
    rewrite Hc, lookup_app_r in Hl; rewrite length_fmap in *; unfold n, zlength in *; [|lia].
    rewrite Nat2Z.id, Nat.sub_diag in Hl. cbn [lookup list_lookup] in Hl. congruence. }
  unfold finish_node, OpMightHaveSideEffect. unfold bind at 1. rewrite node_arrays_run, Hnr.
  rewrite bool_decide_eq_false_2 by (rewrite Hf; intros H%Hfree; unfold n in H; lia).
  rewrite bind_assoc, (bind_done this _ s1 (sg_graph s1) s1), bind_ret by done.
  rewrite (bind_done this _ s1 (sg_graph s1) s1) by done.
  rewrite zinsert_zset by (unfold n, zlength in *; lia). cbn [access]. rewrite bind_ret.
  eexists. split; [reflexivity|]. destruct nr as [nd r]. unfold node_core in Hcore. cbn in Hcore.
  assert (Hnd : node_inputs nd = ins /\ node_outputs nd = outs /\ node_intermediates nd = ims) by (split_and!; congruence).
  destruct Hnd as (Hni & Hno & Hnm). split; cbn.
  - eexists. split.
    + unfold cores, zset. cbn. rewrite list_fmap_insert, Hc. rewrite insert_app_r_alt by (rewrite length_fmap; unfold n, zlength; lia).
      rewrite length_fmap. unfold n, zlength. rewrite Nat2Z.id, Nat.sub_diag. cbn. reflexivity.
    + cbn. split_and!; done.
  - by rewrite Hpl.
  - split; cbn; [by apply Hst|]. rewrite Hf, zlength_zset. intros k Hk%Hfree. unfold n, zlength in *. lia.
  - done.
Qed.

(** With valid indices and a kernel that is initialised, a node is added. *)
Lemma AddNodeWithParameters_run ins outs ims id ids bd reg s :
  buildable (sg_graph s) -> initialises reg ->
  Forall (tensor_index (zlength (tensors_ (sg_graph s)))) ins ->
  Forall (tensor_index (zlength (tensors_ (sg_graph s)))) outs ->
  (bd <> 0 -> forall i, i ∈ ins -> i ∉ outs) ->
  exists s', Subgraph.AddNodeWithParameters ins outs ims id ids bd reg s = (Done (zlength (nodes_and_registration_ (sg_graph s))), s') /\
    node_added ins outs ims bd reg (sg_graph s) (sg_graph s').
Proof.
  intros Hb Hi Hins Houts Hd. unfold Subgraph.AddNodeWithParameters, owning.
  rewrite (bind_done this _ s (sg_graph s) s) by done. rewrite bool_decide_eq_false_2 by apply Hb.
  set (s0 := SG (sg_heap s) (set_state_ kStateUninvokable (sg_graph s)) (sg_world s)).
  rewrite (bind_done (upd (set_state_ kStateUninvokable)) _ s tt s0) by done.
  rewrite (bind_done _ _ _ _ _ (CheckTensorIndices_ok ins s0 Hins)), (bind_done _ _ _ _ _ (CheckTensorIndices_ok outs s0 Houts)).
  assert (Hov : (if negb (bd =? 0) then CheckInputAndOutputForOverlap ins outs else ret tt) s0 = (Done tt, s0)).
  { destruct (Z.eqb_spec bd 0); [done|]. by apply CheckOverlap_ok, Hd. }
  rewrite (bind_done _ _ _ _ _ Hov).
  assert (Hb0 : buildable (sg_graph s0)) by (destruct Hb; by split).
  destruct (push_node_run ins outs ims s0) as (s1 & Hpush & _). rewrite (bind_done _ _ _ _ _ Hpush).
  assert (Hinit : exists ud s2, (if negb (id =? 0) then OpInit reg id ids else OpInit reg bd 0) s1 = (Done ud, s2) /\
    ud <> TfLiteKernelInitFailed /\ initial s1 s2) by (destruct (negb (id =? 0)); by apply OpInit_run).
  destruct Hinit as (ud & s2 & Hrun & Hud & Hi2). rewrite (bind_done _ _ _ _ _ Hrun).
  destruct (Z.eqb_spec ud TfLiteKernelInitFailed); [done|].
  destruct (finish_node_run ins outs ims ud id ids bd reg s0 s1 s2 Hpush Hi2 Hb0) as (s3 & Hfin & [Hn Hp Hbu Ht]).
  rewrite (bind_done _ _ _ _ _ Hfin). exists s3. split; [done|]. by split.
Qed.
End AddNode.

#[local] Existing Instance initial_preorder.

(** ** What becomes of a node that is added *)

Section Outcomes.
Context {P W : Type} {MP : MemoryPlanner P} {MM : Malloc} {SS : StdSort}.
Abbreviation S := (sgstate P W).
Context {SB : Siblings W} {CB : Callbacks S} {CBOk : CallbacksOk CB}.
Implicit Types s : S.

(** [room n]: there is memory for the options of [n] more operators.  Freeing makes no less of it. *)
Context (room : nat -> heap -> Prop).
Context (room_free : forall n h a, room n h -> room n (Heap (delete a (live h)) (mem h))).

(** The room stays, and so do the blocks. *)
Definition keeps_room (h h' : heap) : Prop :=
  (forall n, room n h -> room n h') /\ forall a, is_Some (live h !! a) -> is_Some (live h' !! a).

(** The initialisation of the kernel returns, whether it fails or not, and leaves the others' memory. *)
Definition kernel_returns (reg : TfLiteRegistration) : Prop :=
  registration_external reg = 0 /\
  forall f b l s, reg_init reg = Some f ->
    exists ud s', call_init f None b l s = (Done ud, s') /\ keeps_room (sg_heap s) (sg_heap s').

(** It may fail, and it may succeed. *)
Definition may_fail (reg : TfLiteRegistration) : Prop :=
  exists f b l s, reg_init reg = Some f /\ fst (call_init f None b l s) = Done TfLiteKernelInitFailed.
Definition may_succeed (reg : TfLiteRegistration) : Prop :=
  reg_init reg = None \/
  exists f b l s ud, reg_init reg = Some f /\ fst (call_init f None b l s) = Done ud /\ ud <> TfLiteKernelInitFailed.

Lemma OpInit_outcome reg b l s : kernel_returns reg ->
  exists ud s', OpInit reg b l s = (Done ud, s') /\ keeps_room (sg_heap s) (sg_heap s') /\ initial s s' /\
    if ud =? TfLiteKernelInitFailed then may_fail reg else may_succeed reg.
Proof.
  intros [He Hi]. unfold OpInit, op_dispatch. rewrite He. cbn. destruct (reg_init reg) as [f|] eqn:Hf.
  - destruct (Hi f b l s eq_refl) as (ud & s' & Hrun & Hk). exists ud, s'. split_and!; [done|done| |].
    + pose proof (initial_call_init f None b l s) as H. by rewrite Hrun in H.
    + destruct (Z.eqb_spec ud TfLiteKernelInitFailed) as [->|Hud]; [|right]; exists f, b, l, s; rewrite Hrun; eauto 8.
  - exists 0, s. split_and!; [done|by split|reflexivity|by left].
Qed.

(** The indices are those of tensors or omitted, and where there are options no input is an output. *)
Definition arrays_valid (n bd : Z) (ins outs : list Z) : Prop :=
  Forall (tensor_index n) ins /\ Forall (tensor_index n) outs /\ (bd <> 0 -> forall i, i ∈ ins -> i ∉ outs).

(** [g'] is [g] with the arrays of a node whose kernel was not initialised: it has no place in the
    plan, and its arrays are freed. *)
Record node_dropped (ins outs ims : list Z) (g g' : Subgraph P) : Prop := {
  dropped_node : exists nd, cores g' = cores g ++ [(nd, registration_zero)] /\
    node_inputs nd = ins /\ node_outputs nd = outs /\ node_intermediates nd = ims;
  dropped_freed : zlength (nodes_and_registration_ g) ∈ freed_nodes_ g';
  dropped_plan : execution_plan_ g' = execution_plan_ g;
  dropped_buildable : buildable g';
  dropped_tensors : zlength (tensors_ g) <= zlength (tensors_ g') }.

(** [g'] is [g], found inconsistent. *)
Record node_rejected (g g' : Subgraph P) : Prop := {
  rejected_nodes : nodes_and_registration_ g' = nodes_and_registration_ g;
  rejected_plan : execution_plan_ g' = execution_plan_ g;
  rejected_consistent : consistent_ g' = false;
  rejected_buildable : buildable g';
  rejected_tensors : tensors_ g' = tensors_ g }.

Definition node_outcome (ins outs ims : list Z) (bd : Z) (reg : TfLiteRegistration) (g : Subgraph P)
    (r : outcome Z) (g' : Subgraph P) : Prop :=
  (r = Done (zlength (nodes_and_registration_ g)) /\ may_succeed reg /\ node_added ins outs ims bd reg g g') \/
  (r = Fail kTfLiteError /\ may_fail reg /\ node_dropped ins outs ims g g') \/
  (r = Fail kTfLiteError /\ ~ arrays_valid (zlength (tensors_ g)) bd ins outs /\ node_rejected g g').

(** The options of a node that is not added are freed. *)
Definition held (bd : Z) (h : heap) : Prop := bd = 0 \/ is_Some (live h !! bd).

Lemma keeps_room_trans h1 h2 h3 : keeps_room h1 h2 -> keeps_room h2 h3 -> keeps_room h1 h3.
Proof. intros [? ?] [? ?]. split; auto. Qed.

Lemma owning_fail {A} bd (c : M S A) e s s1 : c s = (Fail e, s1) -> held bd (sg_heap s1) ->
  exists s', owning bd c s = (Fail e, s') /\ sg_graph s' = sg_graph s1 /\ sg_world s' = sg_world s1 /\
    forall n, room n (sg_heap s1) -> room n (sg_heap s').
Proof.
  intros Hc Hb. unfold owning. rewrite Hc. destruct (Z.eqb_spec bd 0) as [|Hne]; cbn [negb]; [by exists s1|].
  destruct Hb as [|[m Hm]]; [done|]. unfold bind, Subgraph.on_heap, zoom, free. rewrite (proj2 (Z.eqb_neq bd 0) Hne), Hm.
  eexists. split; [reflexivity|]. split_and!; [done|done|]. intros n. apply room_free.
Qed.

Lemma dropped_run ins outs ims s0 s s1 :
  push_node ins outs ims s0 = (Done (zlength (nodes_and_registration_ (sg_graph s0))), s) -> initial s s1 -> buildable (sg_graph s0) ->
  node_dropped ins outs ims (sg_graph s0)
    (set_freed_nodes_ ({[ zlength (nodes_and_registration_ (sg_graph s0)) ]} ∪ freed_nodes_ (sg_graph s1)) (sg_graph s1)).
Proof.
  intros Hpush Hi [Himm Hfree]. unfold push_node in Hpush. rewrite (bind_done this _ s0 (sg_graph s0) s0) in Hpush by done.
  injection Hpush as <-. destruct Hi as [[_ Hpl _ _ _ Hc] Hf Hst Ht]. cbn in *. unfold cores in Hc. cbn in Hc. rewrite fmap_app in Hc. cbn in Hc.
  assert (Hlen : length (nodes_and_registration_ (sg_graph s1)) = (length (nodes_and_registration_ (sg_graph s0)) + 1)%nat).
  { apply (f_equal length) in Hc. by rewrite length_app, !length_fmap in Hc. }
  split; cbn.
  - eexists. split; [exact Hc|]. done.
  - set_solver.
  - exact Hpl.
  - split; cbn; [by apply Hst|]. rewrite Hf. intros k [->%elem_of_singleton|Hk%Hfree]%elem_of_union; unfold zlength in *; lia.
  - exact Ht.
Qed.

(** The call returns or fails, with one of the outcomes. *)
Lemma AddNode_outcome ins outs ims id ids bd reg s :
  buildable (sg_graph s) -> kernel_returns reg -> held bd (sg_heap s) ->
  exists r s', Subgraph.AddNodeWithParameters ins outs ims id ids bd reg s = (r, s') /\
    node_outcome ins outs ims bd reg (sg_graph s) r (sg_graph s') /\
    forall n, room n (sg_heap s) -> room n (sg_heap s').
Proof.
  intros Hb Hreg Hheld. unfold Subgraph.AddNodeWithParameters.
  match goal with |- context [owning bd ?c s] => set (body := c) end.
  set (s0 := SG (sg_heap s) (set_state_ kStateUninvokable (sg_graph s)) (sg_world s)).
  set (bad := SG (sg_heap s) (set_consistent_ false (sg_graph s0)) (sg_world s)).
  assert (Hb0 : buildable (sg_graph s0)) by (destruct Hb; by split).
  assert (Hbad : body s = (Fail kTfLiteError, bad) -> ~ arrays_valid (zlength (tensors_ (sg_graph s))) bd ins outs ->
    exists r s', owning bd body s = (r, s') /\ node_outcome ins outs ims bd reg (sg_graph s) r (sg_graph s') /\
      forall n, room n (sg_heap s) -> room n (sg_heap s')).
  { intros Hrun Hn. destruct (owning_fail bd body _ s bad Hrun Hheld) as (s' & -> & Hg & _ & Hroom).
    exists (Fail kTfLiteError), s'. split_and!; [done| |exact Hroom]. right; right. split_and!; [done|exact Hn|].
    rewrite Hg. split; try done. destruct Hb; by split. }
  assert (Hbody : body s = bind (CheckTensorIndices ins) (fun _ => bind (CheckTensorIndices outs) (fun _ =>
    bind (if negb (bd =? 0) then CheckInputAndOutputForOverlap ins outs else ret tt) (fun _ =>
    let* node_index := push_node ins outs ims in
    let* ud := (if negb (id =? 0) then OpInit reg id ids else OpInit reg bd 0) in
    if ud =? TfLiteKernelInitFailed then
      upd (fun g => set_freed_nodes_ ({[ node_index ]} ∪ freed_nodes_ g) g) ;;; fail kTfLiteError
    else finish_node node_index ud id ids bd reg ;;; ret node_index))) s0).
  { unfold body. rewrite (bind_done this _ s (sg_graph s) s) by done. rewrite bool_decide_eq_false_2 by apply Hb. done. }
  destruct (CheckTensorIndices_run ins s0) as [[Hi _]|Hi].
  2: { rewrite (bind_fail _ _ _ _ _ Hi) in Hbody. apply Hbad; [exact Hbody|]. intros (Hv & _).
    rewrite (CheckTensorIndices_ok ins s0 Hv) in Hi. discriminate. }
  rewrite (bind_done _ _ _ _ _ Hi) in Hbody. destruct (CheckTensorIndices_run outs s0) as [[Ho _]|Ho].
  2: { rewrite (bind_fail _ _ _ _ _ Ho) in Hbody. apply Hbad; [exact Hbody|]. intros (_ & Hv & _).
    rewrite (CheckTensorIndices_ok outs s0 Hv) in Ho. discriminate. }
  rewrite (bind_done _ _ _ _ _ Ho) in Hbody.
  assert (Hov : (if negb (bd =? 0) then CheckInputAndOutputForOverlap ins outs else ret tt) s0 = (Done tt, s0) \/
    (if negb (bd =? 0) then CheckInputAndOutputForOverlap ins outs else ret tt) s0 = (Fail kTfLiteError, bad) /\ bd <> 0).
  { destruct (Z.eqb_spec bd 0); cbn [negb]; [by left|]. destruct (CheckOverlap_run ins outs s0) as [H|H]; [by left|by right]. }
  destruct Hov as [Hov|[Hov Hbd]].
  2: { rewrite (bind_fail _ _ _ _ _ Hov) in Hbody. apply Hbad; [exact Hbody|]. intros (_ & _ & Hv).
    rewrite (proj2 (Z.eqb_neq bd 0) Hbd) in Hov. cbn [negb] in Hov. rewrite (CheckOverlap_ok ins outs s0 (Hv Hbd)) in Hov. discriminate. }
  rewrite (bind_done _ _ _ _ _ Hov) in Hbody. clear Hbad Hi Ho Hov.
  destruct (push_node_run ins outs ims s0) as (s1 & Hpush & _). rewrite (bind_done _ _ _ _ _ Hpush) in Hbody.
  assert (Hinit : exists ud s2, (if negb (id =? 0) then OpInit reg id ids else OpInit reg bd 0) s1 = (Done ud, s2) /\
    keeps_room (sg_heap s1) (sg_heap s2) /\ initial s1 s2 /\ if ud =? TfLiteKernelInitFailed then may_fail reg else may_succeed reg)
    by (destruct (negb (id =? 0)); by apply OpInit_outcome).
  destruct Hinit as (ud & s2 & Hrun & Hkeep & Hi2 & Hud). rewrite (bind_done _ _ _ _ _ Hrun) in Hbody.
  assert (Hheap : sg_heap s1 = sg_heap s) by (unfold push_node in Hpush; by injection Hpush as <-). rewrite Hheap in Hkeep.
  destruct (ud =? TfLiteKernelInitFailed).
  - set (s3 := SG (sg_heap s2) (set_freed_nodes_ ({[ zlength (nodes_and_registration_ (sg_graph s0)) ]} ∪ freed_nodes_ (sg_graph s2)) (sg_graph s2)) (sg_world s2)).
    assert (Hrun3 : body s = (Fail kTfLiteError, s3)) by (by rewrite Hbody).
    destruct (owning_fail bd body _ s s3 Hrun3) as (s' & -> & Hg & _ & Hroom).
    { destruct Hheld as [|Hl]; [by left|right]. apply (proj2 Hkeep), Hl. }
    exists (Fail kTfLiteError), s'. split_and!; [done| |intros n Hn; apply Hroom, Hkeep, Hn]. right; left. split_and!; [done|exact Hud|].
    rewrite Hg. destruct (dropped_run ins outs ims s0 s1 s2 Hpush Hi2 Hb0). by split.
  - destruct (finish_node_run ins outs ims ud id ids bd reg s0 s1 s2 Hpush Hi2 Hb0) as (s3 & Hfin & [Hn Hp Hbu Ht]).
    rewrite (bind_done _ _ _ _ _ Hfin) in Hbody. unfold owning. rewrite Hbody. do 2 eexists. split; [reflexivity|]. split.
    + left. split_and!; [done|exact Hud|by split].
    + assert (Hh3 : sg_heap s3 = sg_heap s2).
      { revert Hfin. unfold finish_node, OpMightHaveSideEffect. unfold bind at 1. rewrite node_arrays_run.
        destruct (_.[_]); [|done]. case_bool_decide; [done|]. unfold bind, this, ret, access. cbn.
        destruct (zinsert _ _ _); [|done]. by intros [= <-]. }
      rewrite Hh3. apply Hkeep.
Qed.
End Outcomes.

(** ** The operators of a table *)

Section Nodes.
Context {P W : Type} {MP : MemoryPlanner P} {NP : NewPlanner P} {MM : Malloc} {SS : StdSort}.
Abbreviation S := (istate P W).
Abbreviation G := (sgstate P (model_world P W)).
Context {CB : Callbacks G} {CBOk : CallbacksOk CB} {WO : WorldOk CB world_stays}.
Context (al : option Allocation) (regs : list TfLiteRegistration).
Implicit Types s : S.
Abbreviation inputs_of op := (FlatBufferIntArrayToVector (op_inputs op)).
Abbreviation outputs_of op := (FlatBufferIntArrayToVector (op_outputs op)).
Abbreviation intermediates_of op := (FlatBufferIntArrayToVector (op_intermediates op)).

Definition op_registration (op : Operator) : option TfLiteRegistration := regs.[int32_wrap (opcode_index op)].

Context (room : nat -> heap -> Prop) (room_less : forall n h, room (Datatypes.S n) h -> room n h).
Context (room_free : forall n h a, room n h -> room n (Heap (delete a (live h)) (mem h))).

(** The options of the operator are parsed where there is memory: [OptionParserProof] says which are. *)
Definition parses (op : Operator) (code : Z) : Prop := forall n h, room (Datatypes.S n) h ->
  exists a h', OptionParser.ParseOpData op code h = (Done a, h') /\ room n h' /\ held a h'.

(** The operator has a kernel, and its options or custom data are read. *)
Definition operator_ok (op : Operator) : Prop :=
  exists reg, op_registration op = Some reg /\ kernel_returns room reg /\
    if builtin_code reg =? BuiltinOperator_CUSTOM then exists d, custom_data al op = Done d
    else parses op (builtin_code reg).

(** The node of an operator. *)
Definition node_of (op : Operator) (nr : TfLiteNode * TfLiteRegistration) : Prop :=
  op_registration op = Some (snd nr) /\ node_inputs (fst nr) = inputs_of op /\ node_outputs (fst nr) = outputs_of op /\
  node_intermediates (fst nr) = intermediates_of op /\ node_delegate (fst nr) = 0.

(** Its indices are those of [n] tensors or omitted, and no input is an output. *)
Definition op_valid (n : Z) (op : Operator) : Prop :=
  Forall (tensor_index n) (inputs_of op) /\ Forall (tensor_index n) (outputs_of op) /\
  (forall i, i ∈ inputs_of op -> i ∉ outputs_of op).

Definition op_kernel (Q : TfLiteRegistration -> Prop) (op : Operator) : Prop :=
  exists reg, op_registration op = Some reg /\ Q reg.

(** The nodes that operators become, with [n] tensors at first and the next node at [i], and those of
    them that are on the plan: an operator whose kernel fails to be initialised leaves a node that is
    not, and one with wrong indices leaves none. *)
Inductive built (n : Z) : list Operator -> Z -> list (TfLiteNode * TfLiteRegistration) -> list Z -> Prop :=
  | built_nil i : built n [] i [] []
  | built_kept op ops i nr nodes plan : node_of op nr -> op_kernel may_succeed op ->
      built n ops (i + 1) nodes plan -> built n (op :: ops) i (nr :: nodes) (i :: plan)
  | built_dropped op ops i nd nodes plan : node_inputs nd = inputs_of op -> node_outputs nd = outputs_of op ->
      node_intermediates nd = intermediates_of op -> op_kernel may_fail op ->
      built n ops (i + 1) nodes plan -> built n (op :: ops) i ((nd, registration_zero) :: nodes) plan
  | built_rejected op ops i nodes plan : ~ op_valid n op ->
      built n ops i nodes plan -> built n (op :: ops) i nodes plan.

(** With more tensors fewer operators are rejected. *)
Lemma op_valid_le n n' op : n <= n' -> op_valid n op -> op_valid n' op.
Proof.
  intros Hn (Hi & Ho & Hd). split_and!; [| |done];
    (eapply Forall_impl; [eassumption|]); intros i; by apply tensor_index_le.
Qed.

Lemma built_le n n' ops i nodes plan : n <= n' -> built n' ops i nodes plan -> built n ops i nodes plan.
Proof.
  intros Hn. induction 1; [constructor|by constructor|by econstructor|].
  apply built_rejected; [|done]. intros Hv. by eapply H, op_valid_le.
Qed.

(** Where nothing can go wrong, every operator has its node. *)
Lemma built_all n ops i nodes plan : built n ops i nodes plan ->
  Forall (fun op => op_valid n op /\ ~ op_kernel may_fail op) ops ->
  Forall2 node_of ops nodes /\ plan = zrange i (i + zlength ops - 1).
Proof.
  induction 1 as [i|op ops i nr nodes plan Hnr _ _ IH|op ops i nd nodes plan _ _ _ Hf _ IH|op ops i nodes plan Hr _ IH].
  - rewrite zrange_nil by (unfold zlength; cbn; lia). by split.
  - intros [_ Hops]%Forall_cons. destruct (IH Hops) as [Hn ->]. split; [by constructor|].
    pose proof (zlength_nonneg ops). rewrite zlength_cons, (zrange_cons i) by lia. do 2 f_equal. lia.
  - by intros [[_ Hn] _]%Forall_cons.
  - by intros [[Hv _] _]%Forall_cons.
Qed.

(** A call of the subgraph at [k] that adds a node. *)
Lemma on_subgraph_outcome k m ins outs ims id ids bd reg s :
  (subgraphs_ (interp s)).[k] = Some m -> buildable (sub_graph m) -> kernel_returns room reg -> held bd (is_heap s) ->
  exists r s' m', on_subgraph k (Subgraph.AddNodeWithParameters ins outs ims id ids bd reg) s = (r, s') /\
    (subgraphs_ (interp s')).[k] = Some m' /\ node_outcome ins outs ims bd reg (sub_graph m) r (sub_graph m') /\
    forall n, room n (is_heap s) -> room n (is_heap s').
Proof.
  intros Hk Hb Hreg Hheld. unfold on_subgraph. rewrite Hk.
  set (s0 := SG (is_heap s) (load_flag (flag_ (interp s)) (sub_graph m)) (MW (interp s) k (is_world s))).
  assert (Hsame : tensors_ (sg_graph s0) = tensors_ (sub_graph m) /\ cores (sg_graph s0) = cores (sub_graph m) /\
    nodes_and_registration_ (sg_graph s0) = nodes_and_registration_ (sub_graph m) /\
    execution_plan_ (sg_graph s0) = execution_plan_ (sub_graph m) /\ (buildable (sub_graph m) -> buildable (sg_graph s0))).
  { cbn. unfold load_flag. destruct (continue_invocation_ (sub_graph m)); [|done]. split_and!; try done. intros []. by split. }
  destruct Hsame as (Ht & Hc & Hn & Hp & Hb0).
  destruct (AddNode_outcome room room_free ins outs ims id ids bd reg s0 (Hb0 Hb) Hreg Hheld) as (r & s1 & Hrun & Hout & Hroom).
  pose proof (around_AddNodeWithParameters world_stays ins outs ims id ids bd reg s0) as Hw. rewrite Hrun in Hw.
  pose proof (model_size _ _ Hw) as Hlen. cbn [mw_interpreter sg_world s0 snd] in Hlen. rewrite Hrun.
  apply zlookup_some in Hk as [Hr _]. do 3 eexists. split; [reflexivity|]. cbn.
  rewrite zlookup_zset, Z.eqb_refl by lia. split; [reflexivity|]. split; [|exact Hroom]. cbn.
  destruct Hout as [(-> & Hs & [Ha Hpl Hbu Hts])|[(-> & Hf & [Ha Hfr Hpl Hbu Hts])|(-> & Hv & [Ha Hpl Hco Hbu Hts])]].
  - left. rewrite Hn. rewrite Hc in Ha. rewrite Hp, Hn in Hpl. rewrite Ht in Hts. by split_and!.
  - right; left. rewrite Hc in Ha. rewrite Hp in Hpl. rewrite Hn in Hfr. rewrite Ht in Hts. by split_and!.
  - right; right. rewrite Ht in Hv, Hts. rewrite Hn in Ha. rewrite Hp in Hpl. by split_and!.
Qed.

(** What the operator's node is becomes of the call. *)
Lemma parse_node_run n k op s m : (subgraphs_ (interp s)).[k] = Some m -> buildable (sub_graph m) ->
  operator_ok op -> room (Datatypes.S n) (is_heap s) ->
  exists s' m' reg bd r, parse_node al regs k op s = (Done true, s') /\ room n (is_heap s') /\
    (subgraphs_ (interp s')).[k] = Some m' /\ op_registration op = Some reg /\
    node_outcome (inputs_of op) (outputs_of op) (intermediates_of op) bd reg (sub_graph m) r (sub_graph m').
Proof.
  intros Hk Hb (reg & Hreg & Hi & Hc) Hroom. unfold parse_node. unfold op_registration in *. rewrite Hreg.
  assert (Hdata : exists init s1 bd, interp s1 = interp s /\ room n (is_heap s1) /\ held bd (is_heap s1) /\
    (let* init := (if builtin_code reg =? BuiltinOperator_CUSTOM then lift (custom_data al op) else ret (0, 0)) in
     let* builtin_data := (if builtin_code reg =? BuiltinOperator_CUSTOM then ret 0
       else Interpreter.on_heap (OptionParser.ParseOpData op (builtin_code reg))) in ret (init, builtin_data)) s = (Done (init, bd), s1)).
  { destruct (builtin_code reg =? BuiltinOperator_CUSTOM).
    - destruct Hc as [d ->]. exists d, s, 0. split_and!; [done|by apply room_less|by left|done].
    - destruct (Hc n (is_heap s) Hroom) as (a & h' & Hp & Hroom' & Hheld).
      exists (0, 0), (IState h' (interp s) (is_world s)), a. split_and!; [done|done|done|].
      unfold Interpreter.on_heap, zoom, bind. cbn. by rewrite Hp. }
  destruct Hdata as (init & s1 & bd & Hs1 & Hroom1 & Hheld & Hrun). rewrite <- Hs1 in Hk.
  destruct (on_subgraph_outcome k m (inputs_of op) (outputs_of op) (intermediates_of op) (fst init) (snd init) bd reg s1
    Hk Hb Hi Hheld) as (r & s2 & m' & Hon & Hk' & Hout & Hroom2).
  exists s2, m', reg, bd, r. split_and!; [|by apply Hroom2|done..].
  unfold bind in Hrun. unfold bind at 1.
  destruct ((if builtin_code reg =? BuiltinOperator_CUSTOM then lift (custom_data al op) else ret (0, 0)) s) as [[i0|e|] s3]; [|done|done].
  unfold bind at 1.
  destruct ((if builtin_code reg =? BuiltinOperator_CUSTOM then ret 0
       else Interpreter.on_heap (OptionParser.ParseOpData op (builtin_code reg))) s3) as [[b0|e|] s4]; [|done|done].
  unfold ret in Hrun. injection Hrun as -> -> ->.
  unfold void, status_call, bind. rewrite Hon. by destruct Hout as [(-> & _)|[(-> & _)|(-> & _)]].
Qed.

Lemma cores_count (g g' : Subgraph P) l : cores g' = cores g ++ l ->
  zlength (nodes_and_registration_ g') = zlength (nodes_and_registration_ g) + zlength l.
Proof. intros Hc%(f_equal length). unfold cores in Hc. rewrite length_app, !length_fmap in Hc. unfold zlength. lia. Qed.

Lemma parse_nodes_loop k ops : forall s m, (subgraphs_ (interp s)).[k] = Some m -> buildable (sub_graph m) ->
  Forall operator_ok ops -> room (length ops) (is_heap s) ->
  exists s' m' nodes plan, for_fold ops true (fun ok op => let* b := parse_node al regs k op in ret (ok && b)) s = (Done true, s') /\
    (subgraphs_ (interp s')).[k] = Some m' /\
    cores (sub_graph m') = cores (sub_graph m) ++ nodes /\ execution_plan_ (sub_graph m') = execution_plan_ (sub_graph m) ++ plan /\
    built (zlength (tensors_ (sub_graph m))) ops (zlength (nodes_and_registration_ (sub_graph m))) nodes plan.
Proof.
  induction ops as [|op ops IH]; intros s m Hk Hb Hops Hroom.
  { exists s, m, [], []. rewrite !app_nil_r. split_and!; try done. constructor. }
  apply Forall_cons in Hops as [Hop Hops].
  destruct (parse_node_run (length ops) k op s m Hk Hb Hop Hroom) as (s1 & m1 & reg & bd & r & Hrun & Hroom1 & Hk1 & Hreg & Hout).
  assert (Hb1 : buildable (sub_graph m1) /\ zlength (tensors_ (sub_graph m)) <= zlength (tensors_ (sub_graph m1))).
  { destruct Hout as [(_ & _ & [])|[(_ & _ & [])|(_ & _ & [? ? ? ? ->])]]; by split. }
  destruct Hb1 as [Hb1 Ht]. destruct (IH s1 m1 Hk1 Hb1 Hops Hroom1) as (s' & m' & nodes & plan & Hloop & Hk' & Hc' & Hp' & Hbuilt).
  apply (built_le _ _ _ _ _ _ Ht) in Hbuilt.
  assert (Hrest : for_fold (op :: ops) true (fun ok op => let* b := parse_node al regs k op in ret (ok && b)) s = (Done true, s')).
  { rewrite for_fold_cons, bind_assoc, (bind_done _ _ _ _ _ Hrun), bind_ret. exact Hloop. }
  destruct Hout as [(_ & Hs & [(nd & Hc & Hni & Hno & Hnm & Hnd & _) Hpl _ _])|[(_ & Hf & [(nd & Hc & Hni & Hno & Hnm) _ Hpl _ _])|(_ & Hv & [Hn Hpl _ _ _])]].
  - exists s', m', ((nd, reg) :: nodes), (zlength (nodes_and_registration_ (sub_graph m)) :: plan). split_and!; [exact Hrest|done| | |].
    + by rewrite Hc', Hc, <- app_assoc.
    + by rewrite Hp', Hpl, <- app_assoc.
    + rewrite (cores_count _ _ _ Hc) in Hbuilt. apply built_kept; [done|by exists reg|exact Hbuilt].
  - exists s', m', ((nd, registration_zero) :: nodes), plan. split_and!; [exact Hrest|done| | |].
    + by rewrite Hc', Hc, <- app_assoc.
    + by rewrite Hp', Hpl.
    + rewrite (cores_count _ _ _ Hc) in Hbuilt. apply built_dropped; [done..|by exists reg|exact Hbuilt].
  - exists s', m', nodes, plan. split_and!; [exact Hrest|done| | |].
    + rewrite Hc'. unfold cores. by rewrite Hn.
    + by rewrite Hp', Hpl.
    + rewrite Hn in Hbuilt. apply built_rejected; [|exact Hbuilt]. intros (Hi & Ho & Hd). apply Hv. by split_and!.
Qed.

End Nodes.

(** ** Data in the file *)

(** The data of a tensor whose buffer is in the file: with an end below 2^64 it is accepted
    exactly when it lies in the file, and the address given is the data's. *)
Theorem readonly_data_in_file a bufs t b :
  buffer t <> 0 -> bufs.[buffer t] = Some (Some b) -> buf_data b = None -> 1 < buf_offset b -> 0 <= buf_size b ->
  buf_offset b + buf_size b <= SIZE_MAX -> 0 <= al_base a -> al_base a + al_bytes a <= SIZE_MAX ->
  match get_readonly_data (Some a) bufs t with
  | Done (address, size) => address = al_base a + buf_offset b /\ size = buf_size b /\
      al_base a < address /\ address + size <= al_base a + al_bytes a
  | Fail e => e = kTfLiteError /\ al_bytes a < buf_offset b + buf_size b
  | Undef => False
  end.
Proof.
  intros H0 Hb Hd Ho Hs Hend Hbase Hal. unfold get_readonly_data. apply zlookup_some in Hb as Hr. destruct Hr as [Hr _].
  destruct (Z.eqb_spec (buffer t) 0); [done|]. destruct (Z.leb_spec (zlength bufs) (buffer t)); [lia|].
  rewrite Hb, Hd. destruct (Z.ltb_spec 1 (buf_offset b)); [|lia]. rewrite size_wrap_small by lia.
  destruct (Z.ltb_spec (al_bytes a) (buf_offset b + buf_size b)); [done|]. rewrite size_wrap_small by lia. lia.
Qed.

(** An end of 2^64 or more wraps around: a size that leads just past it is accepted with any
    file, and the tensor's data reaches far behind the file. *)
Theorem readonly_data_past_the_file a bufs t b :
  buffer t <> 0 -> bufs.[buffer t] = Some (Some b) -> buf_data b = None -> 1 < buf_offset b <= SIZE_MAX ->
  buf_size b = 2 ^ 64 - buf_offset b -> 0 <= al_bytes a ->
  get_readonly_data (Some a) bufs t = Done (size_wrap (al_base a + buf_offset b), 2 ^ 64 - buf_offset b).
Proof.
  intros H0 Hb Hd Ho Hs Hal. unfold get_readonly_data. apply zlookup_some in Hb as Hr. destruct Hr as [Hr _].
  destruct (Z.eqb_spec (buffer t) 0); [done|]. destruct (Z.leb_spec (zlength bufs) (buffer t)); [lia|].
  rewrite Hb, Hd. destruct (Z.ltb_spec 1 (buf_offset b)); [|lia]. rewrite Hs.
  replace (size_wrap (buf_offset b + (2 ^ 64 - buf_offset b))) with 0.
  - destruct (Z.ltb_spec (al_bytes a) 0); [lia|done].
  - unfold size_wrap. replace (buf_offset b + (2 ^ 64 - buf_offset b)) with (2 ^ 64) by lia. by rewrite Z_mod_same_full.
Qed.

(** ** Quantization *)

(** The zero point of a channel: a single one is that of all channels. *)
Definition zero_point_of (zero_point : list Z) (channel : Z) : Z :=
  if zlength zero_point =? 1 then zget zero_point 0 else zget zero_point channel.

(** Compressing zero points does not change what a tensor's quantization means: it is parsed with
    the option exactly when it is without, to the same kind, scales and dimension, and the zero
    point of every channel is the same. *)
Theorem compressed_quantization_same src dims :
  match ParseQuantization true src dims, ParseQuantization false src dims with
  | Done (kTfLiteAffineQuantization (Some s) (Some z) d), Done (kTfLiteAffineQuantization (Some s') (Some z') d') =>
      s = s' /\ d = d' /\ zlength z' = zlength s /\ zlength z <= zlength z' /\
      forall c, 0 <= c < zlength s -> zero_point_of z c = zero_point_of z' c
  | Done q, Done q' => q = q'
  | Fail e, Fail e' => e = e'
  | Undef, Undef => True
  | _, _ => False
  end.
Proof.
  unfold ParseQuantization. destruct src as [q|]; [|done]. destruct (qp_blockwise q); [by destruct (qp_details q)|].
  destruct (qp_scales q) as [[|x scale]|]; [done| |done]. destruct (qp_zero_points q) as [zp|]; [|done].
  destruct (Z.eqb_spec (zlength (x :: scale)) (zlength zp)) as [Hlen|]; [|done]. cbn [negb].
  destruct (_ || _); [done|]. destruct (wrong_num_scales _ _ _); [done|]. unfold affine_quantization. cbn [andb].
  destruct (all_zero_points_same zp) eqn:Hsame; [|by split_and!; [..|unfold zlength; rewrite length_fmap; fold (zlength zp)| |]].
  unfold zlength in *. rewrite !length_fmap. split_and!; [done|done|lia|cbn in *; lia|].
  intros c Hc. destruct zp as [|z rest]; [done|]. unfold all_zero_points_same in Hsame.
  assert (Hall : forall n, (0 <= n < zlength (int32_wrap <$> (z :: rest))) -> zget (int32_wrap <$> (z :: rest)) n = int32_wrap z).
  { intros n Hn. destruct (zlookup_in_range _ _ Hn) as [v Hv]. unfold zget. rewrite Hv. cbn.
    apply zlookup_elem_of, list_elem_of_fmap in Hv as (y & -> & Hy). apply elem_of_cons in Hy as [->|Hy]; [done|].
    rewrite forallb_forall in Hsame. specialize (Hsame y (proj1 (list_elem_of_In _ _) Hy)). apply Z.eqb_eq in Hsame as ->.
    apply int32_wrap_small, int32_wrap_range. }
  change (zero_point_of [int32_wrap z] c = zero_point_of (int32_wrap <$> (z :: rest)) c). unfold zero_point_of at 1.
  change (int32_wrap z = zero_point_of (int32_wrap <$> (z :: rest)) c). unfold zero_point_of.
  destruct (_ =? 1); rewrite Hall; first [done|unfold zlength; rewrite length_fmap; lia].
Qed.

(** ** On the model of the examples *)

(** A new interpreter whose subgraph has two tensors. *)
Definition x_tensors : XS := Eval vm_compute in
  snd ((Interpreter_new 5000 ;;; Interpreter.AddTensors 2) x_start).
Definition x_subgraph0 : ModelSubgraph XP := Eval vm_compute in
  default (mkModelSubgraph Subgraph_init EmptyString (-1) false) ((subgraphs_ (interp x_tensors)).[0]).

(** A kernel whose initialisation fails. *)
Definition x_broken : TfLiteRegistration := mkRegistration (Some 7) None (Some 1) (Some 2) BuiltinOperator_CUSTOM None 1 0 0.
(** The kernel of the builtin addition. *)
Definition x_add : TfLiteRegistration := mkRegistration None None (Some 1) (Some 2) 0 None 1 0 0.

(** An addition; an operator that is not initialised; and an addition of a tensor that does not exist. *)
Definition x_op (code : Z) (ins : list Z) (o : BuiltinOptions) : Operator :=
  mkModelOperator code (Some ins) (Some [1]) None o OtherOptions2 None 0 0.
Definition x_operators : list Operator :=
  [x_op 0 [0; -1] (AddOptions 1 false); x_op 1 [0] OtherOptions; x_op 0 [7] (AddOptions 0 false)].

(** The blocks leave 1024 bytes for each operator, and as many again. *)
Definition x_room (n : nat) (h : heap) : Prop :=
  1024 * (Z.of_nat n + 1) + 64 <= 2 ^ 64 /\
  forall b m, live h !! b = Some m -> b + Z.max 1 m <= 2 ^ 64 - 1024 * (Z.of_nat n + 1).

Lemma x_room_less n h : x_room (S n) h -> x_room n h.
Proof. intros [H1 H2]. split; [lia|]. intros b m Hb. specialize (H2 b m Hb). lia. Qed.

Lemma x_room_free n h a : x_room n h -> x_room n (Heap (delete a (live h)) (mem h)).
Proof. intros [H1 H2]. split; [done|]. intros b m Hb. cbn in Hb. apply lookup_delete_Some in Hb as [_ Hb]. by apply H2. Qed.

Lemma heap_top_room n h : x_room n h -> 64 <= heap_top h <= 2 ^ 64 - 1024 * (Z.of_nat n + 1).
Proof.
  intros [H1 H2]. split; [apply heap_top_pos|]. unfold heap_top.
  assert (Hl : Forall (fun bm => fst bm + Z.max 1 (snd bm) <= 2 ^ 64 - 1024 * (Z.of_nat n + 1)) (map_to_list (live h))).
  { apply Forall_forall. intros [b m] Hb%elem_of_map_to_list. by apply H2. }
  induction Hl as [|bm l Hbm _ IH]; cbn; lia.
Qed.

(** A struct of an accepted operator. *)
Lemma x_parse_room T fill n h : 0 < OptionStructs.struct_size T <= 512 ->
  (forall p, OptionParserProof.decides (OptionParser.mkPointer T p) (fill (OptionParser.mkPointer T p)) true) ->
  (forall p, respects (OptionParserProof.inside (OptionParser.mkPointer T p)) (fill (OptionParser.mkPointer T p))) ->
  x_room (S n) h -> exists a h', OptionParser.parse T fill h = (Done a, h') /\ x_room n h' /\ held a h'.
Proof.
  intros HT Hd Hi Hr. pose proof (heap_top_room _ _ Hr) as Htop.
  unfold OptionParser.parse, OptionParser.Allocate, OptionParser.AllocatePOD, malloc, aligned_alloc, bind, malloc_place, x_malloc, bump_place.
  set (p := (heap_top h + MAX_ALIGN - 1) / MAX_ALIGN * MAX_ALIGN).
  assert (Hp : heap_top h <= p <= heap_top h + 15).
  { unfold p, MAX_ALIGN. pose proof (Z.div_mod (heap_top h + 16 - 1) 16). pose proof (Z.mod_pos_bound (heap_top h + 16 - 1) 16). lia. }
  destruct (Z.leb_spec (p + OptionStructs.struct_size T) (2 ^ 64)); [|lia]. destruct (Z.eqb_spec p 0); [lia|].
  rewrite (store_run _ p _ p (OptionStructs.struct_size T)) by (cbn; rewrite ?lookup_insert_eq, ?zlength_replicate; (done || lia)).
  set (h1 := Heap _ _). cbn [ret OptionParser.address]. rewrite (proj2 (Z.eqb_neq p 0)) by done. cbn [negb ensure ret].
  destruct (Hd p h1) as (h2 & Ho & Hrun); [apply lookup_insert_eq|]. pose proof (Hi p h1) as [Hl _]. rewrite Hrun in *. cbn [snd] in Hl.
  exists p, h2. split_and!; [done| |right; unfold OptionParserProof.owns in Ho; cbn in Ho; by rewrite Ho].
  destruct Hr as [H1 H2]. split; [lia|]. rewrite Hl. intros b m Hb. cbn in Hb. apply lookup_insert_Some in Hb as [[<- <-]|[_ Hb]]; [lia|]. specialize (H2 b m Hb). lia.
Qed.

Lemma x_parses_add ins act : parses x_room (x_op 0 ins (AddOptions act false)) 0.
Proof.
  intros n h Hr. apply (x_parse_room OptionStructs.TfLiteAddParams); [vm_compute; split; congruence| | |exact Hr]; intros p.
  - apply (OptionParserProof.decides_bind _ _ _ true true); by apply OptionParserProof.decides_set.
  - apply respects_bind; [exact _| |intros ?]; by apply OptionParserProof.respects_set.
Qed.

Lemma x_returns reg : registration_external reg = 0 -> kernel_returns (CB := x_callbacks) x_room reg.
Proof. intros He. split; [done|]. intros f b l s _. do 2 eexists. split; [reflexivity|]. by split. Qed.


(** The outcomes at these operators: one node on the plan, one that was dropped, none for the third. *)
Example x_operators_built :
  let g := (subgraphs_ (interp (snd (ParseNodes None [x_add; x_broken] 0 x_operators x_tensors)))).[0] in
  (fun m => (execution_plan_ (sub_graph m), zlength (nodes_and_registration_ (sub_graph m)), consistent_ (sub_graph m))) <$> g
    = Some ([0], 2, false).
Proof. vm_compute. reflexivity. Qed.

Definition x_file : Allocation := mkAllocation 1 4096 100.
Definition x_file_buffers (size : Z) : list (option Buffer) := [None; Some (mkBuffer None 40 size)].
Definition x_file_tensor : Tensor := mkModelTensor (Some [4]) 3 1 None None false None None 0.

Lemma readonly_data_in_file_witness :
  match get_readonly_data (Some x_file) (x_file_buffers 20) x_file_tensor with
  | Done (address, size) => address = 4136 /\ size = 20 /\ 4096 < address /\ address + size <= 4196
  | Fail e => e = kTfLiteError /\ 100 < 60
  | Undef => False
  end.
Proof. apply (readonly_data_in_file x_file (x_file_buffers 20) x_file_tensor (mkBuffer None 40 20)); by vm_compute. Defined.

Lemma readonly_data_past_the_file_witness :
  get_readonly_data (Some x_file) (x_file_buffers (2 ^ 64 - 40)) x_file_tensor = Done (4136, 2 ^ 64 - 40).
Proof.
  apply (readonly_data_past_the_file x_file (x_file_buffers (2 ^ 64 - 40)) x_file_tensor (mkBuffer None 40 (2 ^ 64 - 40)));
    first [reflexivity | vm_compute; congruence | by vm_compute].
Defined.

(** A model whose second operator cannot be initialised. *)
Definition x_broken_resolver : MutableOpResolver.t :=
  snd (MutableOpResolver.AddCustom "Broken" (Some x_broken) 1 x_resolver).
Definition x_broken_model : Model := mkModel TFLITE_SCHEMA_VERSION
  (Some [mkOperatorCode BuiltinOperator_CUSTOM BuiltinOperator_CUSTOM (Some "Classify"%string) 1;
         mkOperatorCode BuiltinOperator_CUSTOM BuiltinOperator_CUSTOM (Some "Broken"%string) 1])
  (Some [mkSubGraph (Some [x_tensor [1; 4] 7 "in"; x_tensor [1; 3] 0 "mid"; x_tensor [1; 3] 0 "out"]) (Some [0]) (Some [2])
    (Some [mkModelOperator 0 (Some [0]) (Some [1]) None OtherOptions OtherOptions2 None 0 0; mkModelOperator 1 (Some [1]) (Some [2]) None OtherOptions OtherOptions2 None 0 0]) None])
  (Some [Some (mkBuffer None 0 0)]) None None.
Definition x_broken_builder : Builder := InterpreterBuilder_new (Some x_broken_model)
  (MutableOpResolver.as_OpResolver x_broken_resolver) [] None InterpreterOptions_init.
Definition x_broken_build : M XS unit := BuildInterpreter (ret 0) 5000 x_broken_builder.

(** A model with an operator whose kernel cannot be initialised is built without an error; the
    interpreter runs without an error, only the first operator; and deleting it frees the memory
    of the node that was not added once more. *)
Theorem failed_kernel_is_skipped :
  fst (x_broken_build x_start) = Done tt /\
  fst ((x_broken_build ;;; Interpreter.execution_plan) x_start) = Done [0] /\
  fst ((x_broken_build ;;; Interpreter.AllocateTensors ;;; Interpreter.Invoke) x_start) = Done tt /\
  fst ((x_broken_build ;;; Interpreter_delete) x_start) = Undef.
Proof. vm_compute. split_and!; reflexivity. Qed.
