(* ===== verification/SubgraphInlineProof.v ===== *)
(** * Subgraphs: inlining composites, theorems

    What [ReplaceNodeWithSubgraph] makes of a composite node: copies of the nodes of the
    decomposition, on clones of its tensors behind those of the graph, take its place in the plan,
    and the rest of the graph stays.  Also what goes wrong: an input that a node of the
    decomposition omits is given a tensor. *)
From Stdlib Require Import String.
From stdpp Require Import strings.
From S2P Require Import Prelude Heap Common Util TensorClone MemoryPlanner Callbacks.
From S2P Require Import Subgraph SubgraphRun SubgraphDelegate SubgraphWf SubgraphSteps SubgraphUndo.
From S2P Require Import BuilderProof SubgraphInline SubgraphInlineWf.
From S2P Require ArenaPlanner ArenaInstance OpResolver.
#[local] Open Scope Z_scope.

(** The map of positions, later ones last. *)
Definition position_map (keys values : list Z) : gmap Z Z :=
  foldl (fun m kv => <[kv.1 := kv.2]> m) ∅ (zip keys values).

Lemma zlookup_skipn {A} (v : list A) n i : zlookup v (Z.of_nat (n + i)) = drop n v !! i.
Proof.
  unfold zlookup. destruct (Z.ltb_spec (Z.of_nat (n + i)) 0); [lia|]. by rewrite Nat2Z.id, lookup_drop.
Qed.

Section Maps.
Context {P W : Type}.
Implicit Types s : sgstate P W.

Lemma tensor_map_loop keys : forall values n (m : gmap Z Z) s, (length keys <= length (drop n values))%nat ->
  for_fold (imap (fun i k => (Z.of_nat (n + i), k)) keys) m (fun m ik =>
    let* v := access (values.[ik.1]) in ret (<[ik.2 := v]> m)) s =
  (Done (foldl (fun m kv => <[kv.1 := kv.2]> m) m (zip keys (drop n values))), s).
Proof.
  induction keys as [|k keys IH]; intros values n m s Hl; [done|]. rewrite imap_cons, for_fold_cons, bind_assoc. cbn [fst snd].
  destruct (drop n values) as [|v l] eqn:Hd; [cbn in Hl; lia|].
  assert (Hv : values.[Z.of_nat (n + 0)] = Some v) by (by rewrite zlookup_skipn, Hd).
  rewrite Hv. cbn [access]. rewrite !bind_ret. cbn [zip zip_with foldl fst snd].
  assert (Hd' : drop (Datatypes.S n) values = l).
  { rewrite <- Nat.add_1_r, <- drop_drop, Hd. done. }
  specialize (IH values (Datatypes.S n) (<[k := v]> m) s). rewrite Hd' in IH. rewrite <- IH by (cbn in Hl; lia).
  f_equal. apply imap_ext. intros i x _. cbn. do 2 f_equal. lia.
Qed.

(** Where every tensor of the decomposition has its counterpart. *)
Lemma tensor_map_run keys values s : (length keys <= length values)%nat ->
  tensor_map keys values s = (Done (position_map keys values), s).
Proof. intros Hl. by apply (tensor_map_loop keys values 0 ∅ s). Qed.
End Maps.

(** ** What adding copies leaves alone *)

Section Alone.
Context {P W : Type} {MP : MemoryPlanner P} {NP : NewPlanner P} {MM : Malloc} {SS : StdSort}.
Abbreviation S := (sgstate P W).
Context {SB : Siblings W} {DC : Decompositions P W} {CB : Callbacks S} {CBOk : CallbacksOk CB}.
Implicit Types s : S.

(** The inputs, outputs and variables of the graph stay. *)
Record same_interface s s' : Prop := {
  same_inputs : inputs_ (sg_graph s') = inputs_ (sg_graph s);
  same_outputs : outputs_ (sg_graph s') = outputs_ (sg_graph s);
  same_variables : variables_ (sg_graph s') = variables_ (sg_graph s) }.

#[local] Instance same_interface_preorder : PreOrder same_interface.
Proof. split; [by intros s|]. intros s s' s'' [] []. split; congruence. Qed.

(** So do its tensors. *)
Definition same_tensors s s' : Prop := tensors_ (sg_graph s') = tensors_ (sg_graph s).

#[local] Instance same_tensors_preorder : PreOrder same_tensors.
Proof. split; [by intros s|]. unfold same_tensors. intros s s' s'' -> ->. done. Qed.

(** The initialisation of a kernel leaves the tensors of the graph. *)
Definition initialises_quietly (reg : TfLiteRegistration) : Prop :=
  forall b l, respects same_tensors (OpInit reg b l).

Lemma same_interface_on_tensor {A} i (c : M tstate A) : respects same_interface (on_tensor (P := P) (W := W) i c).
Proof. intros s. unfold on_tensor. destruct (_.[i]) as [t|]; [|reflexivity]. destruct (c _) as [r [h t']]. by split. Qed.

Lemma same_interface_tensor_ref i : respects same_interface (tensor_ref (P := P) (W := W) i).
Proof. intros s. by rewrite tensor_ref_same. Qed.

Lemma same_interface_node_arrays n : respects same_interface (node_arrays (P := P) (W := W) n).
Proof. intros s. rewrite node_arrays_run. destruct (_.[n]); [|done]. by case_bool_decide. Qed.
Lemma same_tensors_node_arrays n : respects same_tensors (node_arrays (P := P) (W := W) n).
Proof. intros s. rewrite node_arrays_run. destruct (_.[n]); [|done]. by case_bool_decide. Qed.
Lemma same_interface_node_ref n : respects same_interface (node_ref (P := P) (W := W) n).
Proof. intros s. unfold node_ref. rewrite (bind_done this _ s (sg_graph s) s) by done. by destruct (_.[n]). Qed.
Lemma same_tensors_node_ref n : respects same_tensors (node_ref (P := P) (W := W) n).
Proof. intros s. unfold node_ref. rewrite (bind_done this _ s (sg_graph s) s) by done. by destruct (_.[n]). Qed.
#[local] Hint Resolve same_interface_node_ref same_tensors_node_ref same_interface_on_tensor same_interface_tensor_ref same_interface_node_arrays same_tensors_node_arrays : respects.
#[local] Hint Extern 3 (respects same_interface (upd _)) => (apply respects_modify; intros ?; by split) : respects.
#[local] Hint Extern 3 (respects same_tensors (upd _)) => (apply respects_modify; intros ?; by cbn) : respects.
#[local] Hint Extern 4 (respects same_interface (on_heap _)) => (apply respects_zoom; intros ? ?; by split) : respects.
#[local] Hint Extern 4 (respects same_tensors (on_heap _)) => (apply respects_zoom; intros ? ?; by cbn) : respects.
#[local] Hint Extern 3 (respects same_interface this) => (intros ?; reflexivity) : respects.
#[local] Hint Extern 3 (respects same_tensors this) => (intros ?; reflexivity) : respects.
#[local] Hint Extern 3 (respects same_interface (lift _)) => (intros ?; reflexivity) : respects.
#[local] Hint Extern 3 (respects same_interface (set_tensor _ _)) => (apply same_interface_on_tensor) : respects.

Lemma context_action_interface s s' : context_action s s' -> same_interface s s'.
Proof.
  intros [h w|i t'|i dims|n|]; [by split|..].
  - assert (H : respects same_interface (set_tensor (P := P) (W := W) i (fun _ => t'))); [|apply H]. apply same_interface_on_tensor.
  - assert (H : respects same_interface (ResizeTensor (P := P) (W := W) i dims)); [|apply H].
    unfold ResizeTensor, ResizeTensorImpl. walk.
  - assert (H : respects same_interface (Subgraph.AddTensors (P := P) (W := W) n)); [|apply H]. unfold Subgraph.AddTensors. walk.
  - assert (H : respects same_interface (Subgraph.Cancel (P := P) (W := W))); [|apply H]. unfold Subgraph.Cancel. walk.
Qed.

Lemma same_interface_call_init f d b l : respects same_interface (call_init f d b l).
Proof. intros s. eapply rtc_moves; [exact _|apply context_action_interface|apply init_acts]. Qed.
#[local] Hint Resolve same_interface_call_init : respects.

Lemma same_interface_OpInit reg b l : respects same_interface (OpInit reg b l).
Proof. unfold OpInit, op_dispatch. walk. Qed.
#[local] Hint Resolve same_interface_OpInit : respects.

(** Adding a node keeps what the initialisation of its kernel keeps, where the check of the
    indices and the stores of the graph's own fields do. *)
Lemma same_interface_clone_node sub off im om n : respects same_interface (clone_node sub off im om n).
Proof.
  assert (Ho : forall A d (c : M S A), respects same_interface c -> respects same_interface (owning d c)).
  { intros A d c Hc s. specialize (Hc s). unfold owning. destruct (c s) as [[a|e|] s1]; [done| |done]. etransitivity; [exact Hc|].
    destruct (negb (d =? 0)); [|reflexivity]. assert (H : respects same_interface (on_heap (P := P) (W := W) (free d) ;;; fail (A := A) e)) by walk. apply H. }
  unfold clone_node, AddNodeWithParameters, CheckTensorIndices, for_tensors, CheckInputAndOutputForOverlap, push_node,
    finish_node, node_arrays, node_ref, OpMightHaveSideEffect. walk. apply Ho. walk.
Qed.
#[local] Hint Resolve same_interface_clone_node : respects.

Lemma same_interface_Replace k n i : respects same_interface (ReplaceNodeWithSubgraph k n i).
Proof.
  assert (Hd : respects same_interface (decomposition (P := P) (W := W) i)).
  { intros s. unfold decomposition. destruct (_ <? _); [|reflexivity]. cbn [ensure]. rewrite bind_ret.
    destruct (_ =? _); [reflexivity|]. by destruct (subgraph_at _ _). }
  unfold ReplaceNodeWithSubgraph, node_arrays, node_ref, tensor_map, clone_tensors, Subgraph.AddTensors, set_tensor. walk.
Qed.

Lemma same_tensors_AddNode ins outs ims id ids bd reg : initialises_quietly reg ->
  respects same_tensors (AddNodeWithParameters ins outs ims id ids bd reg).
Proof.
  intros Hq. assert (Hi : forall b l, respects same_tensors (OpInit reg b l)) by exact Hq.
  unfold AddNodeWithParameters, owning.
  match goal with |- respects _ (fun s => match ?c s with _ => _ end) => assert (Hc : respects same_tensors c) end.
  { unfold CheckTensorIndices, for_tensors, CheckInputAndOutputForOverlap, push_node, finish_node, node_arrays, node_ref,
      OpMightHaveSideEffect. walk. }
  intros s. specialize (Hc s). revert Hc. match goal with |- context [match ?r with _ => _ end] => destruct r as [[a|e|] s1] end; try done.
  intros Hc. etransitivity; [exact Hc|].
  assert (H : respects same_tensors ((if negb (bd =? 0) then on_heap (P := P) (W := W) (free bd) else ret tt) ;;; fail (A := Z) e)) by walk.
  apply H.
Qed.
End Alone.

Section Replace.
Context {P W : Type} {MP : MemoryPlanner P} {NP : NewPlanner P} {MM : Malloc} {SS : StdSort}.
Abbreviation S := (sgstate P W).
Context {SB : Siblings W} {DC : Decompositions P W} {CB : Callbacks S} {CBOk : CallbacksOk CB}.
Context (sub : Subgraph P).
Implicit Types s : S.

(** [keep]: what adding nodes leaves of the heap, which is enough to clone tensors and parameters. *)
Context (keep : heap -> Prop).
Context (keep_adds : forall ins outs ims id ids bd reg s, keep (sg_heap s) ->
  keep (sg_heap (snd (AddNodeWithParameters ins outs ims id ids bd reg s)))).
Context (keep_tensors : forall t h, t ∈ tensors_ sub -> keep h ->
  exists t' h', TfLiteTensorClone call_CloneTo t h = (Done t', h') /\ keep h').

Existing Instance initial_preorder.

(** What [TfLiteTensorClone] makes of a tensor. *)
Definition is_clone (t t' : TfLiteTensor) : Prop :=
  exists h h', keep h /\ TfLiteTensorClone call_CloneTo t h = (Done t', h') /\ keep h'.

(** Cloning the tensors fills the new places, and leaves the plan and the nodes alone. *)
Lemma clone_tensors_loop source : (forall t, t ∈ source -> t ∈ tensors_ sub) -> forall base n l rest s, keep (sg_heap s) ->
  tensors_ (sg_graph s) = l ++ rest -> length rest = length source -> 0 <= base -> 0 <= n -> base + n = zlength l ->
  exists s' clones, for_each (imap (fun i t => (n + Z.of_nat i, t)) source) (fun it =>
      let* t := on_heap (TfLiteTensorClone call_CloneTo (snd it)) in
      set_tensor (base + fst it) (fun _ => t)) s = (Done tt, s') /\
    initial s s' /\ keep (sg_heap s') /\ sg_world s' = sg_world s /\
    tensors_ (sg_graph s') = l ++ clones /\ Forall2 is_clone source clones.
Proof.
  induction source as [|t source IH]; intros Hsub base n l rest s Hk Hts Hlen Hb Hn Hl.
  { destruct rest; [|done]. exists s, []. split_and!; [done|reflexivity|done|done|done|constructor]. }
  destruct rest as [|t0 rest]; [done|]. rewrite imap_cons, for_each_cons. cbn [fst snd]. rewrite Z.add_0_r, Hl.
  destruct (keep_tensors t (sg_heap s) ltac:(apply Hsub; set_solver) Hk) as (t' & h' & Hrun & Hk').
  assert (Hon : on_heap (TfLiteTensorClone call_CloneTo t) s = (Done t', SG h' (sg_graph s) (sg_world s))).
  { unfold on_heap, zoom. by rewrite Hrun. }
  set (s1 := SG h' (sg_graph s) (sg_world s)) in Hon.
  assert (Ht0 : (tensors_ (sg_graph s1)).[zlength l] = Some t0).
  { cbn. rewrite Hts. unfold zlookup, zlength. destruct (Z.ltb_spec (Z.of_nat (length l)) 0); [lia|].
    rewrite Nat2Z.id, lookup_app_r, Nat.sub_diag by lia. done. }
  set (s2 := SG h' (set_tensors_ (zset (tensors_ (sg_graph s)) (zlength l) t') (sg_graph s)) (sg_world s)).
  assert (Hset : set_tensor (zlength l) (fun _ => t') s1 = (Done tt, s2)).
  { unfold set_tensor, on_tensor, upd_tensor, modify. by rewrite Ht0. }
  assert (Hi : initial s s2).
  { split; [by split|done|done|]. cbn. by rewrite zlength_zset. }
  rewrite bind_assoc, (bind_done _ _ _ _ _ Hon), (bind_done _ _ _ _ _ Hset).
  destruct (IH ltac:(intros; apply Hsub; set_solver) base (n + 1) (l ++ [t']) rest s2) as (s' & clones & Hloop & Hi' & Hk2 & Hw & Hts' & Hf);
    [done| |by injection Hlen|lia|lia|rewrite zlength_push; lia|].
  { cbn. rewrite Hts. unfold zset, zlength. rewrite Nat2Z.id, insert_app_r_alt, Nat.sub_diag, <- app_assoc by lia. done. }
  exists s', (t' :: clones). split_and!; [|by etransitivity|done|by rewrite Hw|by rewrite Hts', <- app_assoc|].
  - rewrite <- Hloop. f_equal. apply imap_ext. intros i x _. cbn. f_equal. lia.
  - constructor; [|done]. by exists (sg_heap s), h'.
Qed.

Lemma clone_tensors_run s : keep (sg_heap s) -> exists s' clones,
  clone_tensors (tensors_ sub) s = (Done (zlength (tensors_ (sg_graph s))), s') /\
  initial s s' /\ keep (sg_heap s') /\ sg_world s' = sg_world s /\
  tensors_ (sg_graph s') = tensors_ (sg_graph s) ++ clones /\ Forall2 is_clone (tensors_ sub) clones.
Proof.
  intros Hk. unfold clone_tensors, AddTensors. rewrite bind_assoc, (bind_done this _ s (sg_graph s) s) by done.
  pose proof (zlength_nonneg (tensors_ sub)). pose proof (zlength_nonneg (tensors_ (sg_graph s))).
  destruct (Z.ltb_spec (zlength (tensors_ sub)) 0); [lia|]. rewrite bind_assoc.
  set (l := replicate _ _). set (f := set_tensors_ (tensors_ (sg_graph s) ++ l)).
  set (s1 := SG (sg_heap s) (f (sg_graph s)) (sg_world s)).
  rewrite (bind_done (upd f) _ s tt s1) by done. rewrite bind_ret.
  destruct (clone_tensors_loop (tensors_ sub) ltac:(done) (zlength (tensors_ (sg_graph s))) 0 (tensors_ (sg_graph s)) l s1 Hk)
    as (s' & clones & Hloop & Hi & Hk' & Hw & Hts & Hf); [done| |lia..|].
  { unfold l, zlength. rewrite length_replicate. lia. }
  exists s', clones. unfold enumerate. split_and!; [|..|done|done|done|done].
  - erewrite (bind_done _ _ _ tt s'); [done|]. rewrite <- Hloop. f_equal.
  - etransitivity; [|exact Hi]. split; [by split|done|done|]. cbn. rewrite zlength_app. pose proof (zlength_nonneg l). lia.
Qed.

Lemma removelast_app_one {A} (l : list A) x : removelast (l ++ [x]) = l.
Proof. rewrite removelast_app by done. apply app_nil_r. Qed.

Lemma position_map_elem keys values k v : position_map keys values !! k = Some v -> v ∈ values.
Proof.
  unfold position_map. assert (H : forall l (m : gmap Z Z), foldl (fun m kv => <[kv.1 := kv.2]> m) m l !! k = Some v ->
    m !! k = Some v \/ exists k', (k', v) ∈ l).
  { induction l as [|[a b] l IH]; intros m Hm; [by left|]. apply IH in Hm as [Hm|[k' Hk]]; [|right; exists k'; set_solver].
    cbn in Hm. apply lookup_insert_Some in Hm as [[-> ->]|[_ Hm]]; [right; exists k; set_solver|by left]. }
  intros Hm. apply H in Hm as [Hm|[k' Hk]]; [by rewrite lookup_empty in Hm|].
  apply elem_of_zip_r in Hk. done.
Qed.

(** The indices of the decomposition's tensors are valid when they have been translated. *)
Lemma ReMap_valid off m n i : 0 <= off -> (forall k v, m !! k = Some v -> tensor_index off v) -> tensor_index n i ->
  0 <= n -> tensor_index (off + n) (ReMapTensorIndex off m i).
Proof.
  intros Hoff Hm Hi Hn. unfold ReMapTensorIndex. destruct (m !! i) as [v|] eqn:Hv.
  - eapply tensor_index_le; [|by eapply Hm]. lia.
  - unfold tensor_index, kTfLiteOptionalTensor in *. lia.
Qed.

(** A node of the decomposition that can be copied. *)
Record clonable_node (off : Z) (im om : gmap Z Z) (n : Z) : Prop := {
  clonable_alive : n ∉ freed_nodes_ sub;
  clonable_at : exists nd reg, (nodes_and_registration_ sub).[n] = Some (nd, reg) /\ initialises reg /\ initialises_quietly reg /\
    Forall (tensor_index (zlength (tensors_ sub))) (node_inputs nd) /\
    Forall (tensor_index (zlength (tensors_ sub))) (node_outputs nd) /\
    forall h, keep h -> exists p h', clone_builtin_data (builtin_code reg) (builtin_data nd) h = (Done p, h') /\ keep h' /\
      (p <> 0 -> forall i, i ∈ ReMapTensorIndex off im <$> node_inputs nd -> i ∉ ReMapTensorIndex off om <$> node_outputs nd) }.

(** Its copy. *)
Definition copy_of (off : Z) (im om : gmap Z Z) (n : Z) (nr : TfLiteNode * TfLiteRegistration) : Prop :=
  exists nd, (nodes_and_registration_ sub).[n] = Some (nd, snd nr) /\
    node_inputs (fst nr) = ReMapTensorIndex off im <$> node_inputs nd /\
    node_outputs (fst nr) = ReMapTensorIndex off om <$> node_outputs nd /\
    node_intermediates (fst nr) = (fun i => i + off) <$> node_intermediates nd /\
    node_delegate (fst nr) = 0 /\
    exists h h', keep h /\ clone_builtin_data (builtin_code (snd nr)) (builtin_data nd) h = (Done (builtin_data (fst nr)), h').

Lemma clone_node_run off im om n s : clonable_node off im om n -> buildable (sg_graph s) -> keep (sg_heap s) ->
  0 <= off -> off + zlength (tensors_ sub) <= zlength (tensors_ (sg_graph s)) ->
  (forall k v, im !! k = Some v -> tensor_index off v) -> (forall k v, om !! k = Some v -> tensor_index off v) ->
  exists s' nr, clone_node sub off im om n s = (Done (zlength (nodes_and_registration_ (sg_graph s))), s') /\
    cores (sg_graph s') = cores (sg_graph s) ++ [nr] /\ copy_of off im om n nr /\
    execution_plan_ (sg_graph s') = execution_plan_ (sg_graph s) /\ buildable (sg_graph s') /\ keep (sg_heap s') /\
    tensors_ (sg_graph s') = tensors_ (sg_graph s).
Proof.
  intros [Hfree (nd & reg & Hn & Hi & Hq & Hins & Houts & Hc)] Hb Hk Hoff Hlen Him Hom. unfold clone_node. rewrite Hn. cbn [access].
  rewrite bind_ret. destruct (Hc _ Hk) as (p & h' & Hrun & Hk' & Hd).
  assert (Hon : on_heap (clone_builtin_data (builtin_code reg) (builtin_data nd)) s = (Done p, SG h' (sg_graph s) (sg_world s))).
  { unfold on_heap, zoom. by rewrite Hrun. }
  rewrite (bind_done _ _ _ _ _ Hon), bool_decide_eq_false_2, bind_ret by done. set (s1 := SG h' (sg_graph s) (sg_world s)).
  assert (Hvalid : forall m l, (forall k v, m !! k = Some v -> tensor_index off v) ->
    Forall (tensor_index (zlength (tensors_ sub))) l ->
    Forall (tensor_index (zlength (tensors_ (sg_graph s1)))) (ReMapTensorIndex off m <$> l)).
  { intros m l Hm Hl. apply Forall_fmap. eapply Forall_impl; [exact Hl|]. intros i Hix.
    eapply tensor_index_le; [exact Hlen|]. apply ReMap_valid; [done|done|done|apply zlength_nonneg]. }
  destruct (AddNodeWithParameters_run (ReMapTensorIndex off im <$> node_inputs nd) (ReMapTensorIndex off om <$> node_outputs nd)
    ((fun i => i + off) <$> node_intermediates nd) (custom_initial_data nd) (custom_initial_data_size nd) p reg s1
    Hb Hi (Hvalid _ _ Him Hins) (Hvalid _ _ Hom Houts) Hd) as (s2 & Hadd & [(nd' & Hcores & Hni & Hno & Hnm & Hnd & Hbd) Hpl Hbu Hts]).
  pose proof (keep_adds (ReMapTensorIndex off im <$> node_inputs nd) (ReMapTensorIndex off om <$> node_outputs nd)
    ((fun i => i + off) <$> node_intermediates nd) (custom_initial_data nd) (custom_initial_data_size nd) p reg s1 Hk') as Hk2.
  pose proof (same_tensors_AddNode (ReMapTensorIndex off im <$> node_inputs nd) (ReMapTensorIndex off om <$> node_outputs nd)
    ((fun i => i + off) <$> node_intermediates nd) (custom_initial_data nd) (custom_initial_data_size nd) p reg Hq s1) as Ht2.
  rewrite Hadd in Hk2, Ht2. rewrite (bind_done _ _ _ _ _ Hadd).
  eexists _, (nd', reg). split; [reflexivity|]. cbn. rewrite Hpl, removelast_app_one. split_and!; try done.
  - exists nd. split_and!; try done. exists (sg_heap s), h'. cbn. by rewrite Hbd.
  - destruct Hbu. by split.
Qed.

Lemma clone_nodes_loop off im om plan : forall s done, Forall (clonable_node off im om) plan ->
  buildable (sg_graph s) -> keep (sg_heap s) -> 0 <= off ->
  off + zlength (tensors_ sub) <= zlength (tensors_ (sg_graph s)) ->
  (forall k v, im !! k = Some v -> tensor_index off v) -> (forall k v, om !! k = Some v -> tensor_index off v) ->
  exists s' copies, for_fold plan done (fun l n => let* c := clone_node sub off im om n in ret (l ++ [c])) s =
      (Done (done ++ zrange (zlength (nodes_and_registration_ (sg_graph s)))
         (zlength (nodes_and_registration_ (sg_graph s)) + zlength plan - 1)), s') /\
    cores (sg_graph s') = cores (sg_graph s) ++ copies /\ Forall2 (copy_of off im om) plan copies /\
    execution_plan_ (sg_graph s') = execution_plan_ (sg_graph s) /\
    tensors_ (sg_graph s') = tensors_ (sg_graph s).
Proof.
  induction plan as [|n plan IH]; intros s done Hplan Hb Hk Hoff Hlen Him Hom.
  { exists s, []. rewrite zrange_nil by (unfold zlength; cbn; lia). rewrite !app_nil_r. by split_and!. }
  apply Forall_cons in Hplan as [Hn Hplan].
  destruct (clone_node_run off im om n s Hn Hb Hk Hoff Hlen Him Hom) as (s1 & nr & Hrun & Hc & Hcopy & Hp & Hb1 & Hk1 & Ht).
  destruct (IH s1 (done ++ [zlength (nodes_and_registration_ (sg_graph s))]) Hplan Hb1 Hk1 Hoff ltac:(by rewrite Ht) Him Hom)
    as (s' & copies & Hloop & Hc' & Hf & Hp' & Ht').
  exists s', (nr :: copies). split_and!.
  - rewrite for_fold_cons, bind_assoc, (bind_done _ _ _ _ _ Hrun), bind_ret, Hloop.
    assert (Hl : zlength (nodes_and_registration_ (sg_graph s1)) = zlength (nodes_and_registration_ (sg_graph s)) + 1).
    { unfold zlength. apply (f_equal length) in Hc. unfold cores in Hc. rewrite length_app, !length_fmap in Hc. cbn in Hc. lia. }
    rewrite Hl, <- app_assoc, zlength_cons. pose proof (zlength_nonneg plan).
    rewrite (zrange_cons (zlength (nodes_and_registration_ (sg_graph s)))) by lia. cbn. do 3 f_equal. do 2 f_equal. lia.
  - by rewrite Hc', Hc, <- app_assoc.
  - by constructor.
  - by rewrite Hp'.
  - by rewrite Ht'.
Qed.

(** The plan the decomposition had before delegates were applied to it. *)
Definition original_plan : list Z :=
  match pre_delegation_execution_plan_ sub with [] => execution_plan_ sub | plan => plan end.

(** C30. A composite node at position [k] of the plan is replaced by its decomposition.  Where the
    subgraph exists and is another one, has no more inputs and outputs than the node, and its
    tensors, parameters and kernels can be copied (the kernels initialise, without changing the
    tensors of the graph):
    - the tensors of this graph stay as they are, and behind them come clones of all the tensors of
      the decomposition, in order, each of them what [TfLiteTensorClone] returns;
    - the nodes that were there before are unchanged, and behind them come copies of the nodes of the
      decomposition's original plan, with clones of their parameters, on its tensors' clones, with
      its inputs and outputs replaced by those of the composite ([ReMapTensorIndex]);
    - the indices of the copies take the place of the composite in the plan, in order;
    - the inputs, outputs and variables of this graph stay.
    An input that a node of the decomposition omits (-1) is mapped like an index: its copy reads
    tensor [off - 1] there, see [inlined_omitted_input_is_a_tensor]. *)
Theorem ReplaceNodeWithSubgraph_spec k n i node s : let g := sg_graph s in
  let off := zlength (tensors_ g) in
  let im := position_map (inputs_ sub) (node_inputs node) in
  let om := position_map (outputs_ sub) (node_outputs node) in
  subgraph_at (sg_world s) i = Some sub -> 0 <= i < subgraphs_size (sg_world s) -> subgraphs_size (sg_world s) <= SIZE_MAX ->
  i <> GetSubgraphIndex (sg_world s) -> 0 <= k < zlength (execution_plan_ g) -> node_arrays n s = (Done node, s) ->
  (length (inputs_ sub) <= length (node_inputs node))%nat -> (length (outputs_ sub) <= length (node_outputs node))%nat ->
  Forall (tensor_index off) (node_inputs node) -> Forall (tensor_index off) (node_outputs node) ->
  buildable g -> keep (sg_heap s) -> Forall (clonable_node off im om) original_plan ->
  exists s' copies, ReplaceNodeWithSubgraph k n i s = (Done (k + zlength original_plan - 1), s') /\
    cores (sg_graph s') = cores g ++ copies /\ Forall2 (copy_of off im om) original_plan copies /\
    execution_plan_ (sg_graph s') = take (Z.to_nat k) (execution_plan_ g) ++
      zrange (zlength (nodes_and_registration_ g)) (zlength (nodes_and_registration_ g) + zlength original_plan - 1) ++
      drop (Z.to_nat k + 1) (execution_plan_ g) /\
    (exists clones, tensors_ (sg_graph s') = tensors_ g ++ clones /\ Forall2 is_clone (tensors_ sub) clones) /\
    same_interface s s'.
Proof.
  intros g off im om Hsub Hi Hmax Hown Hk Hnode Hli Hlo Hvi Hvo Hb Hkeep Hplan.
  pose proof (same_interface_Replace k n i s) as Hif. revert Hif. unfold ReplaceNodeWithSubgraph.
  assert (Hd : decomposition i s = (Done sub, s)).
  { unfold decomposition. rewrite size_wrap_small by lia. destruct (Z.ltb_spec i (subgraphs_size (sg_world s))); [|lia]. cbn [ensure].
    rewrite bind_ret. destruct (Z.eqb_spec i (GetSubgraphIndex (sg_world s))); [done|]. by rewrite Hsub. }
  rewrite (bind_done _ _ _ _ _ Hd), (bind_done _ _ _ _ _ Hnode).
  rewrite (bind_done _ _ _ _ _ (tensor_map_run _ _ _ Hli)), (bind_done _ _ _ _ _ (tensor_map_run _ _ _ Hlo)).
  destruct (clone_tensors_run s Hkeep) as (s1 & clones & Hct & [[_ Hpl _ _ _ Hco] Hfr Hst Ht] & Hk1 & Hw & Hcl & Hf1).
  rewrite (bind_done _ _ _ _ _ Hct). fold original_plan.
  assert (Hnl : zlength (nodes_and_registration_ (sg_graph s1)) = zlength (nodes_and_registration_ g)).
  { unfold zlength. apply (f_equal length) in Hco. unfold cores in Hco.
    rewrite !length_fmap in Hco. subst g. by rewrite Hco. }
  assert (Hb1 : buildable (sg_graph s1)).
  { destruct Hb as [Himm Hpf]. split; [by apply Hst|]. intros m. rewrite Hfr, Hnl. apply Hpf. }
  assert (Hmap : forall keys values, Forall (tensor_index off) values -> forall a v, position_map keys values !! a = Some v -> tensor_index off v).
  { intros keys values Hv a v Ha%position_map_elem. rewrite Forall_forall in Hv. by apply Hv. }
  assert (Hlen : off + zlength (tensors_ sub) <= zlength (tensors_ (sg_graph s1))).
  { rewrite Hcl, zlength_app. apply Forall2_length in Hf1. subst off g. unfold zlength. lia. }
  destruct (clone_nodes_loop off im om original_plan s1 [] Hplan Hb1 Hk1 (zlength_nonneg _) Hlen
    (Hmap _ _ Hvi) (Hmap _ _ Hvo)) as (s2 & copies & Hloop & Hc2 & Hf & Hp2 & Ht2).
  rewrite (bind_done _ _ _ _ _ Hloop). rewrite (bind_done this _ s2 (sg_graph s2) s2) by done.
  destruct (Z.ltb_spec k 0); [lia|]. destruct (Z.leb_spec (zlength (execution_plan_ (sg_graph s2))) k).
  { rewrite Hp2, Hpl in *. subst g. lia. }
  cbn [orb]. rewrite bind_ret. intros Hif. eexists _, copies. split_and!; [| | | | |exact Hif].
  - pose proof (zlength_nonneg original_plan) as Hp0. cbn. rewrite Hnl.
    assert (Hz : forall a p, 0 <= p -> zlength (zrange a (a + p - 1)) = p).
    { intros a p Hp. unfold zlength. rewrite length_zrange. lia. }
    rewrite Hz by done. done.
  - subst g. transitivity (cores (sg_graph s2)); [done|]. rewrite Hc2. f_equal. congruence.
  - done.
  - cbn. rewrite Hnl. subst g. by rewrite Hp2, Hpl.
  - exists clones. split; [|done]. cbn. by rewrite Ht2.
Qed.
End Replace.

(** ** A composite with an omitted input inside *)

(** The decomposition: of its inputs 0 and 1, the first node reads the one and omits its second. *)
Definition d_ops : list operation := [
  op_AddTensors 4; op_SetInputs [0; 1]; op_SetOutputs [3];
  op_AddNodeWithParameters [0; -1] [2] [] 0 0 0 ex_kernel;
  op_AddNodeWithParameters [2; 1] [3] [] 0 0 0 ex_kernel ].

(** The graph: the composite is the node 1, between two others. *)
Definition c_ops : list operation := [
  op_AddTensors 4; op_SetInputs [0; 1]; op_SetOutputs [3];
  op_AddNodeWithParameters [0] [1] [] 0 0 0 ex_kernel;
  op_AddNodeWithParameters [0; 1] [2] [] 0 0 0 ex_kernel;
  op_AddNodeWithParameters [2] [3] [] 0 0 0 ex_kernel ].

#[local] Ltac tensor_indices := repeat first [apply Forall_nil_2 | apply Forall_cons_2]; first [by left | right; lia].

Section Example.
#[local] Existing Instance ex_callbacks.
#[local] Instance d_malloc : Malloc := bump_place.
#[local] Instance d_sort : StdSort := insertion_sort.

Definition d_graph : Subgraph ArenaPlanner.ArenaPlanner := Eval vm_compute in sg_graph (ex_run_arena d_ops).
Definition c_state : sgstate ArenaPlanner.ArenaPlanner (list event) := Eval vm_compute in ex_run_arena c_ops.

#[local] Instance d_decompositions : Decompositions ArenaPlanner.ArenaPlanner (list event) := {|
  subgraphs_size _ := 2;
  subgraph_at _ i := if i =? 1 then Some d_graph else None;
  GetSubgraphIndex _ := 0 |}.

Definition c_composite : TfLiteNode := Eval vm_compute in
  default (mkNode [] [] [] [] 0 0 0 0 0 false) (fst <$> (nodes_and_registration_ (sg_graph c_state)).[1]).
Definition c_replaced : outcome Z * sgstate ArenaPlanner.ArenaPlanner (list event) := Eval vm_compute in
  ReplaceNodeWithSubgraph 1 1 1 c_state.

(** In the copy of a node that omits an input ([kTfLiteOptionalTensor]), the input is no longer
    omitted: unless the decomposition itself lists -1, the copy reads the last tensor of the graph
    there.  Here the kernel of node 3, which is to run with its second input left out, is given
    tensor 3, the output of the whole graph, which is computed after it. *)
Theorem inlined_omitted_input_is_a_tensor :
  node_inputs <$> (fst <$> (nodes_and_registration_ d_graph).[0]) = Some [0; kTfLiteOptionalTensor] /\
  fst c_replaced = Done 2 /\ execution_plan_ (sg_graph (snd c_replaced)) = [0; 3; 4; 2] /\
  node_inputs <$> (fst <$> (nodes_and_registration_ (sg_graph (snd c_replaced))).[3]) = Some [0; 3] /\
  outputs_ (sg_graph (snd c_replaced)) = [3] /\
  node_outputs <$> (fst <$> (nodes_and_registration_ (sg_graph (snd c_replaced))).[2]) = Some [3].
Proof. vm_compute. by split_and!. Qed.

Lemma ReplaceNodeWithSubgraph_spec_witness : exists s' copies,
  ReplaceNodeWithSubgraph 1 1 1 c_state = (Done (1 + zlength (original_plan d_graph) - 1), s') /\
  cores (sg_graph s') = cores (sg_graph c_state) ++ copies /\
  Forall2 (copy_of d_graph (fun _ => True) (zlength (tensors_ (sg_graph c_state)))
    (position_map (inputs_ d_graph) (node_inputs c_composite)) (position_map (outputs_ d_graph) (node_outputs c_composite)))
    (original_plan d_graph) copies /\
  execution_plan_ (sg_graph s') = take (Z.to_nat 1) (execution_plan_ (sg_graph c_state)) ++
    zrange (zlength (nodes_and_registration_ (sg_graph c_state)))
      (zlength (nodes_and_registration_ (sg_graph c_state)) + zlength (original_plan d_graph) - 1) ++
    drop (Z.to_nat 1 + 1) (execution_plan_ (sg_graph c_state)) /\
  (exists clones, tensors_ (sg_graph s') = tensors_ (sg_graph c_state) ++ clones /\
    Forall2 (is_clone (P := ArenaPlanner.ArenaPlanner) (W := list event) (fun _ => True)) (tensors_ d_graph) clones) /\
  same_interface c_state s'.
Proof.
  refine (ReplaceNodeWithSubgraph_spec (CBOk := ex_callbacks_ok) d_graph (fun _ => True) _ _ 1 1 1 c_composite c_state
    eq_refl _ _ _ _ eq_refl _ _ _ _ _ I _); try done.
  - intros t h Ht _. assert (Hd : t_data t = 0).
    { revert t Ht. apply Forall_forall. vm_compute. repeat constructor. }
    unfold TfLiteTensorClone, clone_data. rewrite Hd. by eexists _, _.
  - assert (Hn : zlength (tensors_ (sg_graph c_state)) = 4) by reflexivity. rewrite Hn. by tensor_indices.
  - assert (Hn : zlength (tensors_ (sg_graph c_state)) = 4) by reflexivity. rewrite Hn. by tensor_indices.
  - assert (Hn : zlength (tensors_ d_graph) = 4) by reflexivity.
    repeat apply Forall_cons_2; [..|constructor]; (split; [vm_compute; discriminate|]); eexists _, _; (split; [vm_compute; reflexivity|]);
      rewrite Hn; (split; [by split|]); (split; [by intros ? ? ?|]); split_and!; try by tensor_indices.
    all: intros h _; exists 0, h; by split_and!.
Defined.
End Example.
