(* ===== verification/CApi.v ===== *)
(** * The C API (core/c/c_api.cc, c/c_api_internal.h)

    The objects a C client holds by pointer - models, interpreter options, interpreters and
    their tensors - and the functions that create, use and delete them.  What the API needs
    of the C++ runtime behind it ([tflite::FlatBufferModel], [tflite::InterpreterBuilder],
    [tflite::Interpreter]) is the interface [TfLiteRuntime], which [Runtime] implements.  Error reporting and telemetry are not modelled. *)
From stdpp Require Import strings.
From S2P Require Import Prelude Heap Common OpResolver.
#[local] Open Scope Z_scope.

(** ** Objects *)

Definition kDefaultNumThreads : Z := -1.

Record TfLiteInterpreterOptions := mkOptions {
  num_threads : Z;
  mutable_op_resolver : MutableOpResolver.t;
  op_resolver_callbacks : TfLiteOpResolverCallbacks;
  delegates : list Z;
  use_nnapi : bool;
  opt_enable_delegate_fallback : bool;
  op_registrations : list TfLiteOperator;
  enable_cancellation : bool }.

(** [new TfLiteInterpreterOptions{}]. *)
Definition options_default : TfLiteInterpreterOptions :=
  mkOptions kDefaultNumThreads MutableOpResolver.empty no_callbacks [] false false [] false.

(** The resolver the builder is given: one of the two implementations. *)
Inductive resolver :=
  | use_mutable (r : MutableOpResolver.t)
  | use_callbacks (c : TfLiteOpResolverCallbacks).

(** ** The runtime behind the API *)

Class TfLiteRuntime := {
  FlatBufferModel : Type;
  Impl : Type;
  (** [CreateOpResolver] and [NnApiDelegate], linked in by the client. *)
  CreateOpResolver : MutableOpResolver.t;
  NnApiDelegate : Z;
  (** [FlatBufferModel::VerifyAndBuildFromBuffer] on the bytes of a buffer. *)
  VerifyAndBuildFromBuffer : list Z -> option FlatBufferModel;
  (** [InterpreterBuilder builder(model, resolver); builder(&interpreter)]. *)
  InterpreterBuilder : FlatBufferModel -> resolver -> M heap Impl;
  impl_delete : Impl -> M heap unit;
  impl_SetNumThreads : Z -> M (heap * Impl) unit;
  impl_ModifyGraphWithDelegate : Z -> M (heap * Impl) unit;
  impl_EnableCancellation : Impl -> Impl;
  impl_AllocateTensors : M (heap * Impl) unit;
  impl_ResizeInputTensor : Z -> list Z -> M (heap * Impl) unit;
  impl_Invoke : M (heap * Impl) unit;
  impl_InvokeWithCPUFallback : M (heap * Impl) unit;
  impl_Cancel : M (heap * Impl) unit;
  impl_inputs : Impl -> list Z;
  impl_outputs : Impl -> list Z;
  impl_tensors : Impl -> list TfLiteTensor;
}.

(** ** The world of a C client *)

Section World.
Context {RT : TfLiteRuntime}.

(** [TfLiteInterpreter]: [impl] and the fields of its own.  The [shared_ptr] to the model
    keeps the model's data alive, whatever the client deletes. *)
Record TfLiteInterpreter := mkInterpreter {
  int_model : FlatBufferModel; impl : Impl; enable_delegate_fallback : bool }.

(** The live objects by their addresses, the heap, the file system (the models that the
    files of a path verify as), and the next address [new] returns.  Addresses are not
    reused, so a use of a deleted object is always seen. *)
Record world := mkWorld {
  w_heap : heap;
  w_files : string -> option FlatBufferModel;
  w_models : gmap Z FlatBufferModel;
  w_options : gmap Z TfLiteInterpreterOptions;
  w_interpreters : gmap Z TfLiteInterpreter;
  w_next : Z }.

Definition set_w_heap (h : heap) (w : world) : world :=
  mkWorld h (w_files w) (w_models w) (w_options w) (w_interpreters w) (w_next w).
Definition set_w_models (m : gmap Z FlatBufferModel) (w : world) : world :=
  mkWorld (w_heap w) (w_files w) m (w_options w) (w_interpreters w) (w_next w).
Definition set_w_options (m : gmap Z TfLiteInterpreterOptions) (w : world) : world :=
  mkWorld (w_heap w) (w_files w) (w_models w) m (w_interpreters w) (w_next w).
Definition set_w_interpreters (m : gmap Z TfLiteInterpreter) (w : world) : world :=
  mkWorld (w_heap w) (w_files w) (w_models w) (w_options w) m (w_next w).

(** The address [new] returns. *)
Definition new_address : M world Z := fun w =>
  (Done (w_next w),
   mkWorld (w_heap w) (w_files w) (w_models w) (w_options w) (w_interpreters w) (w_next w + 1)).

Definition on_heap {A} (c : M heap A) : M world A := zoom w_heap set_w_heap c.

(** A method of an interpreter held in a local variable: its status and the interpreter. *)
Definition on_impl (i : Impl) (c : M (heap * Impl) unit) : M world (TfLiteStatus * Impl) :=
  fun w =>
    match status_call c (w_heap w, i) with
    | (Done st, (h, i')) => (Done (st, i'), set_w_heap h w)
    | (Fail e, (h, _)) => (Fail e, set_w_heap h w)
    | (Undef, (h, _)) => (Undef, set_w_heap h w)
    end.

(** ** Models *)

Definition new_model (shared_model : option FlatBufferModel) : M world Z :=
  match shared_model with
  | None => ret 0
  | Some shared_model =>
    let* p := new_address in
    modify (fun w => set_w_models (<[p := shared_model]> (w_models w)) w) ;;; ret p
  end.

Definition TfLiteModelCreateFromFile (model_path : string) : M world Z :=
  let* w := get in new_model (w_files w model_path).

(** From memory of the client, which is verified; null is not a model. *)
Definition TfLiteModelCreate (model_data model_size : Z) : M world Z :=
  if model_data =? 0 then ret 0
  else
    let* bs := on_heap (load model_data model_size) in new_model (VerifyAndBuildFromBuffer bs).

(** [delete] of a null pointer does nothing; of a pointer to no live object it is undefined. *)
Definition TfLiteModelDelete (model : Z) : M world unit :=
  if model =? 0 then ret tt
  else
    let* w := get in
    let* _ := access (w_models w !! model) in
    modify (fun w => set_w_models (delete model (w_models w)) w).

(** ** Options *)

Definition new_options (o : TfLiteInterpreterOptions) : M world Z :=
  let* p := new_address in
  modify (fun w => set_w_options (<[p := o]> (w_options w)) w) ;;; ret p.

Definition deref_options (options : Z) : M world TfLiteInterpreterOptions :=
  let* w := get in access (w_options w !! options).

Definition update_options (options : Z)
    (f : TfLiteInterpreterOptions -> TfLiteInterpreterOptions) : M world unit :=
  let* o := deref_options options in
  modify (fun w => set_w_options (<[options := f o]> (w_options w)) w).

Definition TfLiteInterpreterOptionsCreate : M world Z := new_options options_default.

Definition TfLiteInterpreterOptionsCopy (from : Z) : M world Z :=
  let* o := deref_options from in new_options o.

Definition TfLiteInterpreterOptionsDelete (options : Z) : M world unit :=
  if options =? 0 then ret tt
  else
    let* _ := deref_options options in
    modify (fun w => set_w_options (delete options (w_options w)) w).

Definition TfLiteInterpreterOptionsSetNumThreads (options n : Z) : M world unit :=
  update_options options (fun o =>
    mkOptions n (mutable_op_resolver o) (op_resolver_callbacks o) (delegates o) (use_nnapi o)
      (opt_enable_delegate_fallback o) (op_registrations o) (enable_cancellation o)).

Definition TfLiteInterpreterOptionsAddDelegate (options delegate : Z) : M world unit :=
  update_options options (fun o =>
    mkOptions (num_threads o) (mutable_op_resolver o) (op_resolver_callbacks o)
      (delegates o ++ [delegate]) (use_nnapi o) (opt_enable_delegate_fallback o)
      (op_registrations o) (enable_cancellation o)).

Definition TfLiteInterpreterOptionsAddOperator (options : Z) (registration : TfLiteOperator)
    : M world unit :=
  update_options options (fun o =>
    mkOptions (num_threads o) (mutable_op_resolver o) (op_resolver_callbacks o) (delegates o)
      (use_nnapi o) (opt_enable_delegate_fallback o) (op_registrations o ++ [registration])
      (enable_cancellation o)).

Definition TfLiteInterpreterOptionsEnableCancellation (options : Z) (enable : bool)
    : M world unit :=
  update_options options (fun o =>
    mkOptions (num_threads o) (mutable_op_resolver o) (op_resolver_callbacks o) (delegates o)
      (use_nnapi o) (opt_enable_delegate_fallback o) (op_registrations o) enable).

(** ** Interpreters *)

Definition has_callbacks (c : TfLiteOpResolverCallbacks) : bool :=
  bool_decide (is_Some (find_builtin_op c)) || bool_decide (is_Some (find_custom_op c)) ||
  bool_decide (is_Some (find_builtin_op_v1 c)) || bool_decide (is_Some (find_custom_op_v1 c)) ||
  bool_decide (is_Some (find_builtin_op_v2 c)) || bool_decide (is_Some (find_custom_op_v2 c)) ||
  bool_decide (is_Some (find_builtin_op_v3 c)) || bool_decide (is_Some (find_custom_op_v3 c)) ||
  bool_decide (is_Some (find_builtin_op_external c)) ||
  bool_decide (is_Some (find_custom_op_external c)).

(** The operators of the options are added to the resolver; a null [custom_name] is
    undefined, the key being a [std::string]. *)
Definition prepare_resolver (optional_options : option TfLiteInterpreterOptions)
    : M MutableOpResolver.t unit :=
  match optional_options with
  | None => ret tt
  | Some o =>
    MutableOpResolver.AddAll (mutable_op_resolver o) ;;;
    for_each (op_registrations o) (fun registration_external =>
      let registration := InitTfLiteRegistration registration_zero registration_external in
      let* name := access (op_custom_name registration_external) in
      MutableOpResolver.AddCustom name (Some registration) (op_version registration_external))
  end.

(** [return nullptr] after [interpreter] was built: its [unique_ptr] deletes it. *)
Definition apply_delegate (i : Impl) (delegate : Z) : M world (option Impl) :=
  let* r := on_impl i (impl_ModifyGraphWithDelegate delegate) in
  if bool_decide (r.1 = kTfLiteOk) then ret (Some r.2)
  else on_heap (impl_delete r.2) ;;; ret None.

Fixpoint apply_delegates (i : Impl) (ds : list Z) : M world (option Impl) :=
  match ds with
  | [] => ret (Some i)
  | d :: ds' =>
    let* o := apply_delegate i d in
    match o with Some i' => apply_delegates i' ds' | None => ret None end
  end.

(** The options applied to a freshly built interpreter. *)
Definition apply_options (i : Impl) (o : TfLiteInterpreterOptions) : M world (option Impl) :=
  let* i := (if negb (num_threads o =? kDefaultNumThreads) then
               let* r := on_impl i (impl_SetNumThreads (num_threads o)) in ret r.2
             else ret i) in
  let* i := apply_delegates i ((if use_nnapi o then [NnApiDelegate] else []) ++ delegates o) in
  match i with
  | None => ret None
  | Some i => ret (Some (if enable_cancellation o then impl_EnableCancellation i else i))
  end.

(** Build, configure and box an interpreter. *)
Definition build_interpreter (fm : FlatBufferModel)
    (optional_options : option TfLiteInterpreterOptions) (op_resolver : resolver) : M world Z :=
  let* w := get in
  match InterpreterBuilder fm op_resolver (w_heap w) with
  | (Undef, h) => put (set_w_heap h w) ;;; undef
  | (Fail _, h) => put (set_w_heap h w) ;;; ret 0
  | (Done i, h) =>
    put (set_w_heap h w) ;;;
    let* i := match optional_options with
              | Some o => apply_options i o
              | None => ret (Some i)
              end in
    match i with
    | None => ret 0
    | Some i =>
      let fallback := match optional_options with
                      | Some o => opt_enable_delegate_fallback o
                      | None => false
                      end in
      let* p := new_address in
      modify (fun w => set_w_interpreters
        (<[p := mkInterpreter fm i fallback]> (w_interpreters w)) w) ;;;
      ret p
    end
  end.

Definition InterpreterCreateWithOpResolver (model optional_options : Z)
    (mutable_resolver : MutableOpResolver.t) : M world Z :=
  if model =? 0 then ret 0
  else
    let* w := get in
    let* fm := access (w_models w !! model) in
    let* o := (if optional_options =? 0 then ret None
               else let* o := deref_options optional_options in ret (Some o)) in
    match prepare_resolver o mutable_resolver with
    | (Done _, r) =>
      let op_resolver :=
        match o with
        | Some o => if has_callbacks (op_resolver_callbacks o)
                    then use_callbacks (op_resolver_callbacks o) else use_mutable r
        | None => use_mutable r
        end in
      build_interpreter fm o op_resolver
    | (Fail e, _) => fail e
    | (Undef, _) => undef
    end.

Definition TfLiteInterpreterCreate (model optional_options : Z) : M world Z :=
  InterpreterCreateWithOpResolver model optional_options CreateOpResolver.

Definition deref_interpreter (interpreter : Z) : M world TfLiteInterpreter :=
  let* w := get in access (w_interpreters w !! interpreter).

Definition TfLiteInterpreterDelete (interpreter : Z) : M world unit :=
  if interpreter =? 0 then ret tt
  else
    let* it := deref_interpreter interpreter in
    on_heap (impl_delete (impl it)) ;;;
    modify (fun w => set_w_interpreters (delete interpreter (w_interpreters w)) w).

(** [interpreter->impl->method()]: the status and the interpreter after the call. *)
Definition call_impl (interpreter : Z) (c : M (heap * Impl) unit) : M world TfLiteStatus :=
  let* it := deref_interpreter interpreter in
  let* r := on_impl (impl it) c in
  modify (fun w => set_w_interpreters
    (<[interpreter := mkInterpreter (int_model it) r.2 (enable_delegate_fallback it)]>
      (w_interpreters w)) w) ;;;
  ret r.1.

Definition TfLiteInterpreterAllocateTensors (interpreter : Z) : M world TfLiteStatus :=
  call_impl interpreter impl_AllocateTensors.

Definition TfLiteInterpreterInvoke (interpreter : Z) : M world TfLiteStatus :=
  let* it := deref_interpreter interpreter in
  call_impl interpreter
    (if enable_delegate_fallback it then impl_InvokeWithCPUFallback else impl_Invoke).

Definition TfLiteInterpreterCancel (interpreter : Z) : M world TfLiteStatus :=
  call_impl interpreter impl_Cancel.

Definition TfLiteInterpreterGetInputTensorCount (interpreter : Z) : M world Z :=
  let* it := deref_interpreter interpreter in ret (int32_wrap (zlength (impl_inputs (impl it)))).

Definition TfLiteInterpreterInputTensorIndices (interpreter : Z) : M world (list Z) :=
  let* it := deref_interpreter interpreter in ret (impl_inputs (impl it)).

Definition TfLiteInterpreterOutputTensorIndices (interpreter : Z) : M world (list Z) :=
  let* it := deref_interpreter interpreter in ret (impl_outputs (impl it)).

Definition TfLiteInterpreterGetOutputTensorCount (interpreter : Z) : M world Z :=
  let* it := deref_interpreter interpreter in ret (int32_wrap (zlength (impl_outputs (impl it)))).

(** A [TfLiteTensor*] of an interpreter: null, or the tensor's index. *)
Definition TfLiteInterpreterGetTensor (interpreter index : Z) : M world (option Z) :=
  let* it := deref_interpreter interpreter in
  ret (if (index <? 0) || (zlength (impl_tensors (impl it)) <=? index) then None else Some index).

(** [inputs()[input_index]]: out of the vector's range the behaviour is undefined. *)
Definition TfLiteInterpreterGetInputTensor (interpreter input_index : Z) : M world (option Z) :=
  let* it := deref_interpreter interpreter in
  let* index := access ((impl_inputs (impl it)).[input_index]) in
  TfLiteInterpreterGetTensor interpreter index.

Definition TfLiteInterpreterGetOutputTensor (interpreter output_index : Z)
    : M world (option Z) :=
  let* it := deref_interpreter interpreter in
  let* index := access ((impl_outputs (impl it)).[output_index]) in
  TfLiteInterpreterGetTensor interpreter index.

Definition TfLiteInterpreterResizeInputTensor (interpreter input_index : Z)
    (dims : list Z) : M world TfLiteStatus :=
  let* it := deref_interpreter interpreter in
  let* index := access ((impl_inputs (impl it)).[input_index]) in
  call_impl interpreter (impl_ResizeInputTensor index dims).

(** ** Tensors *)

Definition deref_tensor (interpreter tensor : Z) : M world TfLiteTensor :=
  let* it := deref_interpreter interpreter in access ((impl_tensors (impl it)).[tensor]).

Definition TfLiteTensorType (t : TfLiteTensor) : TfLiteType := t_type t.

Definition TfLiteTensorNumDims (t : TfLiteTensor) : Z :=
  match t_dims t with None => -1 | Some d => zlength d end.

Definition TfLiteTensorName (t : TfLiteTensor) : option string := t_name t.
Definition TfLiteTensorQuantizationParams (t : TfLiteTensor) : TfLiteQuantizationParams := t_params t.

(** [dims->data[dim_index]]: undefined without dimensions and out of their range. *)
Definition TfLiteTensorDim (t : TfLiteTensor) (dim_index : Z) : M world Z :=
  let* d := access (t_dims t) in access (d.[dim_index]).

Definition TfLiteTensorByteSize (interpreter tensor : Z) : M world Z :=
  let* t := deref_tensor interpreter tensor in ret (t_bytes t).

Definition TfLiteTensorData (interpreter tensor : Z) : M world Z :=
  let* t := deref_tensor interpreter tensor in ret (t_data t).

Definition TfLiteTensorCopyFromBuffer (interpreter tensor input_data input_data_size : Z)
    : M world TfLiteStatus :=
  let* t := deref_tensor interpreter tensor in
  if negb (t_bytes t =? input_data_size) then ret kTfLiteError
  else on_heap (memcpy (t_data t) input_data input_data_size) ;;; ret kTfLiteOk.

Definition TfLiteTensorCopyToBuffer (interpreter tensor output_data output_data_size : Z)
    : M world TfLiteStatus :=
  let* t := deref_tensor interpreter tensor in
  if negb (t_bytes t =? output_data_size) then ret kTfLiteError
  else on_heap (memcpy output_data (t_data t) output_data_size) ;;; ret kTfLiteOk.
End World.
