(* ===== verification/CApiSignature.v ===== *)
(** * The C API: signature runners (core/c/c_api.cc)

    A [TfLiteSignatureRunner] is a box of its own around a runner that the interpreter owns.  The
    boxes are known by their addresses, the runners by their contents, which no function of the
    C API changes. *)
From Stdlib Require Import String.
From stdpp Require Import strings.
From S2P Require Import Prelude Heap Common MemoryPlanner Callbacks StdMap Subgraph SubgraphRun SubgraphDelegate.
From S2P Require Import SubgraphSteps ArenaInstance.
From S2P Require Import Interpreter ModelExample InterpreterProof.
#[local] Open Scope Z_scope.

(** The interpreter, and the boxes that are alive; addresses are not used again. *)
Record client (P W : Type) := Client {
  c_interpreter : istate P W; c_runners : gmap Z SignatureRunner; c_next : Z }.
Arguments Client {P W}.
Arguments c_interpreter {P W}.
Arguments c_runners {P W}.
Arguments c_next {P W}.

Section Signatures.
Context {P W : Type} {MP : MemoryPlanner P} {NP : NewPlanner P} {MM : Malloc} {SS : StdSort}.
Abbreviation S := (client P W).
Context {CB : Callbacks (sgstate P (model_world P W))} {IC : InterpreterCallbacks (istate P W)}.

(** [interpreter->impl->method()]. *)
Definition on_interpreter {A} (c : M (istate P W) A) : M S A :=
  zoom c_interpreter (fun i s => Client i (c_runners s) (c_next s)) c.

Definition TfLiteInterpreterGetSignatureCount : M S Z :=
  let* keys := on_interpreter signature_keys in ret (int32_wrap (zlength keys)).

(** Null out of the range. *)
Definition TfLiteInterpreterGetSignatureKey (signature_index : Z) : M S (option string) :=
  let* signature_count := TfLiteInterpreterGetSignatureCount in
  if (signature_index <? 0) || (signature_count <=? signature_index) then ret None
  else
    let* keys := on_interpreter signature_keys in
    let* key := access (keys.[signature_index]) in ret (Some key).

(** The address of a new box, or null. *)
Definition TfLiteInterpreterGetSignatureRunner (signature_key : option string) : M S Z :=
  let* signature_runner := on_interpreter (GetSignatureRunner signature_key) in
  match signature_runner with
  | None => ret 0
  | Some r => fun s => (Done (c_next s), Client (c_interpreter s) (<[c_next s := r]> (c_runners s)) (c_next s + 1))
  end.

Definition runner_of (signature_runner : Z) : M S SignatureRunner := fun s =>
  access (c_runners s !! signature_runner) s.

(** [delete] of null does nothing; of what is no box it is undefined. *)
Definition TfLiteSignatureRunnerDelete (signature_runner : Z) : M S unit :=
  if signature_runner =? 0 then ret tt
  else
    let* _ := runner_of signature_runner in
    modify (fun s => Client (c_interpreter s) (delete signature_runner (c_runners s)) (c_next s)).

(** [input_size()] and [output_size()]: those of the subgraph. *)
Definition subgraph_of (signature_runner : Z) : M S (Subgraph P) :=
  let* r := runner_of signature_runner in
  let* m := on_interpreter (subgraph_ref (subgraph_ r)) in ret (sub_graph m).
Definition TfLiteSignatureRunnerGetInputCount (signature_runner : Z) : M S Z :=
  let* g := subgraph_of signature_runner in ret (zlength (inputs_ g)).
Definition TfLiteSignatureRunnerGetOutputCount (signature_runner : Z) : M S Z :=
  let* g := subgraph_of signature_runner in ret (zlength (outputs_ g)).

(** The name at an index that is less than the count, as an [int32_t]. *)
Definition name_at (count : Z) (names : list string) (index : Z) : M S (option string) :=
  if (index <? 0) || (int32_wrap count <=? index) then ret None
  else let* name := access (names.[index]) in ret (Some name).
Definition TfLiteSignatureRunnerGetInputName (signature_runner input_index : Z) : M S (option string) :=
  let* count := TfLiteSignatureRunnerGetInputCount signature_runner in
  let* r := runner_of signature_runner in name_at count (input_names_ r) input_index.
Definition TfLiteSignatureRunnerGetOutputName (signature_runner output_index : Z) : M S (option string) :=
  let* count := TfLiteSignatureRunnerGetOutputCount signature_runner in
  let* r := runner_of signature_runner in name_at count (output_names_ r) output_index.

Definition TfLiteSignatureRunnerResizeInputTensor (signature_runner : Z) (input_name : string) (dims : list Z)
    : M S unit :=
  let* r := runner_of signature_runner in on_interpreter (runner_ResizeInputTensorStrict r input_name dims).
Definition TfLiteSignatureRunnerAllocateTensors (signature_runner : Z) : M S unit :=
  let* r := runner_of signature_runner in on_interpreter (runner_AllocateTensors r).
Definition TfLiteSignatureRunnerGetInputTensor (signature_runner : Z) (input_name : string) : M S (option TfLiteTensor) :=
  let* r := runner_of signature_runner in on_interpreter (runner_input_tensor r input_name).
Definition TfLiteSignatureRunnerInvoke (signature_runner : Z) : M S unit :=
  let* r := runner_of signature_runner in on_interpreter (runner_Invoke r).
Definition TfLiteSignatureRunnerGetOutputTensor (signature_runner : Z) (output_name : string)
    : M S (option TfLiteTensor) :=
  let* r := runner_of signature_runner in on_interpreter (runner_output_tensor r output_name).
Definition TfLiteSignatureRunnerCancel (signature_runner : Z) : M S unit :=
  let* r := runner_of signature_runner in on_interpreter (runner_Cancel r).

(** ** The names of inputs *)

Lemma runner_of_run p r s : c_runners s !! p = Some r -> runner_of p s = (Done r, s).
Proof. intros Hr. unfold runner_of. by rewrite Hr. Qed.

(** What looks at the interpreter without changing it. *)
Lemma on_interpreter_reads {A} (c : M (istate P W) A) a s : c (c_interpreter s) = (Done a, c_interpreter s) ->
  on_interpreter c s = (Done a, s).
Proof. intros Hc. unfold on_interpreter, zoom. rewrite Hc. by destruct s. Qed.

Lemma subgraph_of_run p r m s : c_runners s !! p = Some r ->
  (subgraphs_ (interp (c_interpreter s))).[subgraph_ r] = Some m -> subgraph_of p s = (Done (sub_graph m), s).
Proof.
  intros Hr Hm. unfold subgraph_of. rewrite (bind_done _ _ _ _ _ (runner_of_run p r s Hr)).
  erewrite (bind_done _ _ _ m s); [done|]. apply on_interpreter_reads. unfold subgraph_ref.
  rewrite (bind_done self _ (c_interpreter s) (interp (c_interpreter s)) (c_interpreter s)) by done. by rewrite Hm.
Qed.

Lemma GetInputName_run p r m s i : c_runners s !! p = Some r ->
  (subgraphs_ (interp (c_interpreter s))).[subgraph_ r] = Some m ->
  TfLiteSignatureRunnerGetInputName p i s = name_at (zlength (inputs_ (sub_graph m))) (input_names_ r) i s.
Proof.
  intros Hr Hm. unfold TfLiteSignatureRunnerGetInputName, TfLiteSignatureRunnerGetInputCount.
  rewrite bind_assoc, (bind_done _ _ _ _ _ (subgraph_of_run p r m s Hr Hm)), bind_ret.
  by rewrite (bind_done _ _ _ _ _ (runner_of_run p r s Hr)).
Qed.

(** An entry's key is found, with the value of an entry. *)
Lemma map_find_entry (l : StdMap Z) e : e ∈ l -> exists v, map_find (fst e) l = Some v /\ (fst e, v) ∈ l.
Proof.
  induction l as [|[k v] l IH]; [by intros ?%not_elem_of_nil|]. cbn [map_find]. intros [->|He]%elem_of_cons.
  - exists v. cbn. rewrite bool_decide_eq_true_2 by done. split; [done|]. by left.
  - case_bool_decide as Hk; [exists v; rewrite Hk; split; [done|by left]|].
    destruct (IH He) as (v' & ? & ?). exists v'. split; [done|]. by right.
Qed.

(** C40. The names of a signature's inputs by the C API, for a runner with the names of its signature,
    as runners are made with.  An index that is negative or not less than the number of the subgraph's
    inputs gives null.  Any other that the signature has a name for gives that name, and the name
    gives the tensor that the signature has under it, cast to [int]: null where the subgraph has no
    such tensor, which is not checked when the model is read.  Where the signature has
    fewer names than the subgraph has inputs, the rest of the indices read past the vector of
    names. *)
Theorem TfLiteSignatureRunnerGetInputName_exact p r m s i : c_runners s !! p = Some r ->
  (subgraphs_ (interp (c_interpreter s))).[subgraph_ r] = Some m ->
  input_names_ r = fst <$> sd_inputs (signature_def_ r) ->
  zlength (inputs_ (sub_graph m)) <= INT32_MAX ->
  if (0 <=? i) && (i <? zlength (inputs_ (sub_graph m))) then
    if i <? zlength (sd_inputs (signature_def_ r)) then
      exists e v s', (sd_inputs (signature_def_ r)).[i] = Some e /\ (fst e, v) ∈ sd_inputs (signature_def_ r) /\
        TfLiteSignatureRunnerGetInputName p i s = (Done (Some (fst e)), s) /\
        TfLiteSignatureRunnerGetInputTensor p (fst e) s = (Done ((tensors_ (sub_graph m)).[int32_wrap v]), s')
    else TfLiteSignatureRunnerGetInputName p i s = (Undef, s)
  else TfLiteSignatureRunnerGetInputName p i s = (Done None, s).
Proof.
  intros Hr Hm Hnames Hcount. rewrite (GetInputName_run p r m s i Hr Hm). unfold name_at. rewrite Hnames.
  pose proof (zlength_nonneg (inputs_ (sub_graph m))). rewrite int32_wrap_small by (unfold INT32_MIN, INT32_MAX in *; lia).
  destruct (Z.leb_spec 0 i), (Z.ltb_spec i 0), (Z.ltb_spec i (zlength (inputs_ (sub_graph m)))),
    (Z.leb_spec (zlength (inputs_ (sub_graph m))) i); try lia; try done. cbn [orb].
  destruct (Z.ltb_spec i (zlength (sd_inputs (signature_def_ r)))) as [Hi|Hi].
  - destruct (zlookup_in_range (sd_inputs (signature_def_ r)) i) as [e He]; [lia|].
    assert (Hf : (fst <$> sd_inputs (signature_def_ r)).[i] = Some (fst e)) by
      (unfold zlookup in *; destruct (i <? 0); [done|by rewrite list_lookup_fmap, He]).
    destruct (map_find_entry _ _ (zlookup_elem_of _ _ _ He)) as (v & Hfind & Hv).
    exists e, v. rewrite Hf. cbn [access]. eexists. split_and!; [done|exact Hv|by rewrite bind_ret|].
    unfold TfLiteSignatureRunnerGetInputTensor. rewrite (bind_done _ _ _ _ _ (runner_of_run p r s Hr)).
    unfold on_interpreter, zoom, runner_input_tensor, runner_tensor. rewrite Hfind.
    unfold on_subgraph. rewrite Hm. unfold Subgraph.tensor, bind, this, ret. cbn [sg_graph].
    assert (Hts : tensors_ (load_flag (flag_ (interp (c_interpreter s))) (sub_graph m)) = tensors_ (sub_graph m)).
    { unfold load_flag. by destruct (continue_invocation_ (sub_graph m)). }
    rewrite Hts. reflexivity.
  - unfold zlookup. destruct (Z.ltb_spec i 0); [lia|]. rewrite lookup_ge_None_2; [done|].
    rewrite length_fmap. unfold zlength in Hi. lia.
Qed.
End Signatures.

(** ** On the model of the examples *)

(** A client with the runner of the model's only signature in a box at 1; and one whose signature
    has no inputs. *)
Definition s_client : client XP unit := Eval vm_compute in
  snd (TfLiteInterpreterGetSignatureRunner (Some "serving"%string) (Client x_interpreter ∅ 1)).
Definition s_empty : client XP unit := Eval vm_compute in
  snd ((on_interpreter (SetSignatureDef [mkSignatureDef [] [("y"%string, 1)] "serving" 0]) ;;;
        TfLiteInterpreterGetSignatureRunner (Some "serving"%string)) (Client x_interpreter ∅ 1)).

Definition s_module : ModelSubgraph XP := Eval vm_compute in
  default (mkModelSubgraph Subgraph_init EmptyString (-1) false) ((subgraphs_ (interp (c_interpreter s_client))).[0]).

Lemma TfLiteSignatureRunnerGetInputName_exact_witness :
  exists e v s', (sd_inputs (signature_def_ x_runner)).[0] = Some e /\ (fst e, v) ∈ sd_inputs (signature_def_ x_runner) /\
    TfLiteSignatureRunnerGetInputName 1 0 s_client = (Done (Some (fst e)), s_client) /\
    TfLiteSignatureRunnerGetInputTensor 1 (fst e) s_client = (Done ((tensors_ (sub_graph s_module)).[int32_wrap v]), s').
Proof.
  exact (TfLiteSignatureRunnerGetInputName_exact 1 x_runner s_module s_client 0 eq_refl eq_refl eq_refl ltac:(by vm_compute)).
Defined.

(** A key out of the range is null; a name for an input that the signature does not list is read
    past the end. *)
Example signature_names :
  fst (TfLiteInterpreterGetSignatureKey 0 s_client) = Done (Some "serving"%string) /\
  fst (TfLiteInterpreterGetSignatureKey 1 s_client) = Done None /\
  fst (TfLiteSignatureRunnerGetInputName 1 1 s_client) = Done None /\
  fst (TfLiteSignatureRunnerGetInputCount 1 s_empty) = Done 1 /\
  fst (TfLiteSignatureRunnerGetInputName 1 0 s_empty) = Undef.
Proof. vm_compute. by split_and!. Qed.

(** A session with the box: the runner allocates, runs and is deleted. *)
Example signature_session :
  fst ((TfLiteSignatureRunnerAllocateTensors 1 ;;; TfLiteSignatureRunnerInvoke 1 ;;;
        TfLiteSignatureRunnerDelete 1 ;;; TfLiteSignatureRunnerInvoke 1) s_client) = Undef /\
  fst ((TfLiteSignatureRunnerAllocateTensors 1 ;;; TfLiteSignatureRunnerInvoke 1 ;;;
        TfLiteSignatureRunnerDelete 1) s_client) = Done tt.
Proof. vm_compute. by split_and!. Qed.
