(* ===== verification/Runtime.v ===== *)
(** * The runtime behind the C API

    The interface [CApi.TfLiteRuntime] implemented by the interpreter and its builder: a call of
    the application's plugin runs through the C API, the builder, the interpreter, the subgraph
    and its planner down to the heap.  The chain is run on a small model. *)
From Stdlib Require Import String.
From stdpp Require Import strings.
From S2P Require Import Prelude Heap Common MemoryPlanner Callbacks StdMap MetadataUtil.
From S2P Require Import Subgraph SubgraphRun OpResolver ModelSchema.
From S2P Require Interpreter InterpreterBuilder ModelLoading CApi.
#[local] Open Scope Z_scope.

(** [tflite::FlatBufferModel]: the tables, and the file they are in. *)
Record FlatBufferModel := mkFlatBufferModel {
  GetModel : option Model; allocation : option InterpreterBuilder.Allocation }.

Section Runtime.
Context {P W : Type} {MP : MemoryPlanner P} {NP : NewPlanner P} {MM : Malloc} {SS : StdSort}.
Abbreviation S := (Interpreter.istate P W).
Context {CB : Callbacks (sgstate P (Interpreter.model_world P W))} {IC : Interpreter.InterpreterCallbacks S}.
Context (AcquireFlexDelegate : M S Z).
(** The resolver the C API is linked with, the delegates resolvers create lazily, NNAPI's delegate,
    the address of the external context of an interpreter, and the world it starts in. *)
Context (CreateOpResolver : MutableOpResolver.t) (creators : CApi.resolver -> list Z).
Context (NnApiDelegate own_context : Z) (verify_buffer : bytes -> option FlatBufferModel) (world : W).

(** The lookups of a resolver: what a [CallbackOpResolver] caches is what it would find again. *)
Definition resolver_lookups (r : CApi.resolver) : OpResolver :=
  match r with
  | CApi.use_mutable r => MutableOpResolver.as_OpResolver r
  | CApi.use_callbacks c =>
    mkOpResolver
      (fun op version => match fst (CallbackOpResolver.FindOp c op version CallbackOpResolver.empty) with
                         | Done reg => reg | _ => None end)
      (fun op version => match fst (CallbackOpResolver.FindOpCustom c op version CallbackOpResolver.empty) with
                         | Done reg => reg | _ => None end)
      true
  end.

(** An interpreter with the world it acts on. *)
Definition Impl : Type := Interpreter.Interpreter P * W.

(** A method of the interpreter, on the heap of the client. *)
Definition on_interpreter {A} (c : M S A) : M (heap * Impl) A := fun s =>
  let '(r, s') := c (Interpreter.IState (fst s) (fst (snd s)) (snd (snd s))) in
  (r, (Interpreter.is_heap s', (Interpreter.interp s', Interpreter.is_world s'))).

(** [InterpreterBuilder builder(model, resolver, reporter, nullptr, allocation)]. *)
Definition builder_of (fm : FlatBufferModel) (r : CApi.resolver) : InterpreterBuilder.Builder :=
  InterpreterBuilder.InterpreterBuilder_new (GetModel fm) (resolver_lookups r) (creators r)
    (allocation fm) InterpreterOptions_init.

(** [builder(&interpreter)]. *)
Definition build (fm : FlatBufferModel) (r : CApi.resolver) : M heap Impl := fun h =>
  match on_interpreter (InterpreterBuilder.BuildInterpreter AcquireFlexDelegate own_context (builder_of fm r))
          (h, (Interpreter.members, world)) with
  | (Done _, (h', i)) => (Done i, h')
  | (Fail e, (h', _)) => (Fail e, h')
  | (Undef, (h', _)) => (Undef, h')
  end.

Definition delete_interpreter (i : Impl) : M heap unit := fun h =>
  let '(r, (h', _)) := on_interpreter Interpreter.Interpreter_delete (h, i) in (r, h').

Definition enable_cancellation (i : Impl) : Impl :=
  snd (snd (on_interpreter Interpreter.EnableCancellation (heap_empty, i))).

(** The primary subgraph; there always is one. *)
Definition primary (i : Impl) : Subgraph P :=
  match Interpreter.subgraphs_ (fst i) with m :: _ => Interpreter.sub_graph m | [] => Subgraph_init end.

Definition interpreter_runtime : CApi.TfLiteRuntime := {|
  CApi.FlatBufferModel := FlatBufferModel;
  CApi.Impl := Impl;
  CApi.CreateOpResolver := CreateOpResolver;
  CApi.NnApiDelegate := NnApiDelegate;
  CApi.VerifyAndBuildFromBuffer := verify_buffer;
  CApi.InterpreterBuilder := build;
  CApi.impl_delete := delete_interpreter;
  CApi.impl_SetNumThreads n := on_interpreter (Interpreter.SetNumThreads n);
  CApi.impl_ModifyGraphWithDelegate d := on_interpreter (Interpreter.ModifyGraphWithDelegate d);
  CApi.impl_EnableCancellation := enable_cancellation;
  CApi.impl_AllocateTensors := on_interpreter Interpreter.AllocateTensors;
  CApi.impl_ResizeInputTensor i dims := on_interpreter (Interpreter.ResizeInputTensor i dims);
  CApi.impl_Invoke := on_interpreter Interpreter.Invoke;
  CApi.impl_InvokeWithCPUFallback := on_interpreter Interpreter.InvokeWithCPUFallback;
  CApi.impl_Cancel := on_interpreter Interpreter.Cancel;
  CApi.impl_inputs i := inputs_ (primary i);
  CApi.impl_outputs i := outputs_ (primary i);
  CApi.impl_tensors i := tensors_ (primary i) |}.
End Runtime.

(** What the builder sees of an allocation: the address of the object, [base()] and [bytes()]. *)
Definition builder_allocation (address : Z) (a : ModelLoading.Allocation) : option InterpreterBuilder.Allocation :=
  match a with
  | ModelLoading.kMMap a =>
    Some (InterpreterBuilder.mkAllocation address (ModelLoading.mmap_base a) (ModelLoading.mmap_size_bytes_ a))
  | _ => None
  end.

(** The files that a client's [TfLiteModelCreateFromFile] accepts, with their models. *)
Definition verified_files `{ModelLoading.Posix} `{ModelLoading.Flatbuffers} (address : Z) (s : ModelLoading.os)
    (path : string) : option FlatBufferModel :=
  match fst (ModelLoading.VerifyAndBuildFromFile path None s) with
  | Done (Some m) =>
    Some (mkFlatBufferModel (ModelLoading.model_ m)
      (match ModelLoading.allocation_ m with Some a => builder_allocation address a | None => None end))
  | _ => None
  end.

(** The buffers that its [TfLiteModelCreate] accepts. *)
Definition verified_buffer `{ModelLoading.Posix} `{ModelLoading.Flatbuffers} (s : ModelLoading.os) (bs : bytes)
    : option FlatBufferModel :=
  match fst (ModelLoading.VerifyAndBuildFromBuffer (Some bs) (zlength bs) None s) with
  | Done (Some m) => Some (mkFlatBufferModel (ModelLoading.model_ m) None)
  | _ => None
  end.
