(* ===== verification/Shape.v ===== *)
(** * Shapes and the layout of tensors (kernels/internal/runtime_shape.{h,cc}, common.h)

    The shape of a tensor and the offsets of its elements, with the arithmetic of [int]: a result
    that does not fit is undefined.  A kernel writes to a buffer, the state of its loops; what it
    reads are other buffers.  The checks of debug builds are left out.  The theorems on layout, and
    the rule for nested loops that store each element once, are shared by the kernels. *)
From S2P Require Import Prelude.

(** ** Arithmetic and buffers *)

(** The value of an expression of type [int]. *)
Definition int_ {S} (z : Z) : M S Z := if (INT32_MIN <=? z) && (z <=? INT32_MAX) then ret z else undef.

(** [output_data[i] = x]. *)
Definition store_at {T} (i : Z) (x : T) : M (list T) unit := fun v =>
  match zinsert v i x with Some v' => (Done tt, v') | None => (Undef, v) end.

(** [for (int i = 0; i < n; ++i)]. *)
Definition for_int {S} (n : Z) (body : Z -> M S unit) : M S unit := for_each (zrange 0 (n - 1)) body.

(** [r *= f] for each factor. *)
Definition int_product {S} (factors : list Z) : M S Z := for_fold factors 1 (fun r d => int_ (r * d)).

(** ** Shapes *)

(** The dimensions, in the object or in an array of its own. *)
Definition RuntimeShape : Type := list Z.
Definition DimensionsCount (shape : RuntimeShape) : Z := zlength shape.
Definition Dims {S} (shape : RuntimeShape) (i : Z) : M S Z := access (shape.[i]).
Definition FlatSize {S} (shape : RuntimeShape) : M S Z := int_product shape.

(** A shape that is too large makes the program abort. *)
Definition ExtendedShape {S} (new_shape_size : Z) (shape : RuntimeShape) : M S RuntimeShape :=
  if new_shape_size <? DimensionsCount shape then undef
  else ret (replicate (Z.to_nat (new_shape_size - DimensionsCount shape)) 1 ++ shape).

(** [a * d + i]. *)
Definition int_mul_add {S} (a d i : Z) : M S Z := let* p := int_ (a * d) in int_ (p + i).

Definition Offset {S} (shape : RuntimeShape) (i0 i1 i2 i3 : Z) : M S Z :=
  let* d1 := Dims shape 1 in
  let* d2 := Dims shape 2 in
  let* d3 := Dims shape 3 in
  let* a := int_mul_add i0 d1 i1 in
  let* b := int_mul_add a d2 i2 in
  int_mul_add b d3 i3.

Definition Offset5 {S} (shape : RuntimeShape) (i0 i1 i2 i3 i4 : Z) : M S Z :=
  let* a := Offset (take 4 shape) i0 i1 i2 i3 in
  let* d4 := Dims shape 4 in
  int_mul_add a d4 i4.

(** ** Indices and their offsets *)

Definition product (dims : list Z) : Z := foldr Z.mul 1 dims.

(** The offset of an index, the last dimension changing fastest. *)
Definition row_major (dims idx : list Z) : Z :=
  foldl (fun a di => a * fst di + snd di) 0 (zip dims idx).

Definition in_box (dims idx : list Z) : Prop := Forall2 (fun d i => 0 <= i < d) dims idx.

(** The indices in the order of their offsets. *)
Fixpoint box (dims : list Z) : list (list Z) :=
  match dims with
  | [] => [[]]
  | d :: dims' => i ← zrange 0 (d - 1); cons i <$> box dims'
  end.

Lemma row_major_acc a dims idx : length dims = length idx ->
  foldl (fun a di => a * fst di + snd di) a (zip dims idx) = a * product dims + row_major dims idx.
Proof.
  unfold row_major. revert a idx. induction dims as [|d dims IH]; intros a [|i idx] Hlen; try done; cbn.
  - lia.
  - rewrite (IH (a * d + i)), (IH i) by (cbn in *; lia). unfold product. cbn. lia.
Qed.

Lemma row_major_cons d dims i idx : length dims = length idx ->
  row_major (d :: dims) (i :: idx) = i * product dims + row_major dims idx.
Proof. intros Hlen. unfold row_major at 1. cbn. by rewrite row_major_acc. Qed.

Lemma product_cons d dims : product (d :: dims) = d * product dims.
Proof. done. Qed.

Lemma product_nonneg dims : Forall (Z.le 0) dims -> 0 <= product dims.
Proof. induction 1 as [|d dims Hd _ IH]; [done|]. rewrite product_cons. nia. Qed.

Lemma product_app l l' : product (l ++ l') = product l * product l'.
Proof. induction l as [|d l IH]; [change (product []) with 1; cbn [app]; lia|]. cbn [app]. rewrite !product_cons, IH. lia. Qed.

Lemma product_ones n : product (replicate n 1) = 1.
Proof. induction n; [done|]. cbn [replicate]. rewrite product_cons. lia. Qed.

Lemma in_box_length dims idx : in_box dims idx -> length dims = length idx.
Proof. apply Forall2_length. Qed.

Lemma row_major_range dims idx : in_box dims idx -> 0 <= row_major dims idx < product dims.
Proof.
  induction 1 as [|d i dims idx Hi Hb IH]; [cbn; lia|].
  rewrite row_major_cons by (by eapply in_box_length). rewrite product_cons. nia.
Qed.

Lemma row_major_inj dims idx idx' : in_box dims idx -> in_box dims idx' ->
  row_major dims idx = row_major dims idx' -> idx = idx'.
Proof.
  intros Hb. revert idx'. induction Hb as [|d i dims idx Hi Hb IH]; intros idx' Hb' Heq.
  - by inversion Hb'.
  - inversion Hb' as [|? i' ? idx'' Hi' Hb'']; subst.
    rewrite !row_major_cons in Heq by (by eapply in_box_length).
    pose proof (row_major_range _ _ Hb). pose proof (row_major_range _ _ Hb'').
    assert (i = i') as -> by nia. f_equal. apply IH; [done|]. lia.
Qed.

Lemma row_major_onto dims p : 0 <= p < product dims -> Forall (Z.le 0) dims ->
  exists idx, in_box dims idx /\ row_major dims idx = p.
Proof.
  intros Hp Hd. revert p Hp. induction Hd as [|d dims Hd Hds IH]; intros p Hp.
  - exists []. split; [constructor|]. cbn in *. lia.
  - rewrite product_cons in Hp. pose proof (product_nonneg _ Hds) as Hn.
    assert (Hpos : 0 < product dims) by nia.
    destruct (IH (p mod product dims)) as (idx & Hb & Hr); [by apply Z.mod_pos_bound|].
    exists (p / product dims :: idx). split.
    + constructor; [|done]. split; [by apply Z.div_pos; lia|]. apply Z.div_lt_upper_bound; lia.
    + rewrite row_major_cons by (by eapply in_box_length). rewrite Hr.
      pose proof (Z.div_mod p (product dims)). lia.
Qed.

Lemma elem_of_box dims idx : idx ∈ box dims <-> in_box dims idx.
Proof.
  revert idx. induction dims as [|d dims IH]; intros idx; cbn.
  - rewrite list_elem_of_singleton. split; [intros ->; constructor|by inversion 1].
  - rewrite list_elem_of_bind. setoid_rewrite elem_of_zrange. setoid_rewrite list_elem_of_fmap. split.
    + intros (i & (idx' & -> & Hin) & Hi). constructor; [lia|]. by apply IH.
    + inversion 1 as [|? i ? idx' Hi Hb]; subst. exists i. split; [|lia]. exists idx'. split; [done|]. by apply IH.
Qed.

Lemma NoDup_box dims : NoDup (box dims).
Proof.
  induction dims as [|d dims IH]; cbn; [by repeat constructor; set_solver|].
  apply NoDup_bind.
  - intros i j idx _ _ (? & -> & _)%list_elem_of_fmap (? & ? & _)%list_elem_of_fmap. by simplify_eq.
  - intros i _. by apply NoDup_fmap_2_strong; [intros; simplify_eq|].
  - apply NoDup_zrange.
Qed.

Lemma in_box_app ds ds' idx idx' : in_box ds idx -> in_box ds' idx' -> in_box (ds ++ ds') (idx ++ idx').
Proof. apply Forall2_app. Qed.

Lemma horner_step a d i : 0 <= a -> 0 <= i < d -> a <= a * d + i /\ 0 <= a * d + i.
Proof. nia. Qed.

(** The numbers below a product, as two digits. *)
Lemma zrange_product n m : 0 <= n -> 0 <= m ->
  (j ← zrange 0 (m - 1); (fun i => j * n + i) <$> zrange 0 (n - 1)) = zrange 0 (n * m - 1).
Proof.
  intros Hn Hm. revert m Hm. apply natlike_ind.
  - by rewrite Z.mul_0_r.
  - intros m Hm IH. replace (Z.succ m - 1) with (m - 1 + 1) by lia. rewrite zrange_snoc by lia.
    rewrite bind_app, IH. cbn. rewrite app_nil_r. unfold zrange.
    replace (Z.to_nat (n * m - 1 - 0 + 1)) with (Z.to_nat (n * m)) by lia.
    replace (Z.to_nat (n - 1 - 0 + 1)) with (Z.to_nat n) by lia.
    replace (Z.to_nat (n * Z.succ m - 1 - 0 + 1)) with (Z.to_nat (n * m) + Z.to_nat n)%nat by nia.
    rewrite seq_app, fmap_app. f_equal. rewrite <- list_fmap_compose, Nat.add_0_l.
    rewrite <- (Nat.add_0_r (Z.to_nat (n * m))) at 1. rewrite <- fmap_add_seq, <- list_fmap_compose.
    apply list_fmap_ext. intros k x _. cbn. nia.
Qed.

(** ** The arithmetic in range *)

Section InRange.
Context {S : Type}.
Implicit Types s : S.

Lemma int_ok z s : INT32_MIN <= z <= INT32_MAX -> int_ z s = (Done z, s).
Proof. intros Hz. unfold int_. destruct (Z.leb_spec INT32_MIN z), (Z.leb_spec z INT32_MAX); (done || lia). Qed.

Lemma Dims_ok shape i d s : shape.[i] = Some d -> Dims shape i s = (Done d, s).
Proof. unfold Dims. by intros ->. Qed.

Lemma int_mul_add_ok a d i s : 0 <= a -> 0 <= d -> 0 <= i -> a * d + i <= INT32_MAX ->
  int_mul_add a d i s = (Done (a * d + i), s).
Proof.
  intros Ha Hd Hi Hm. unfold int_mul_add, bind. unfold INT32_MAX in *.
  rewrite int_ok by (unfold INT32_MIN, INT32_MAX; nia). by rewrite int_ok by (unfold INT32_MIN, INT32_MAX; nia).
Qed.

(** Offsets are row major, and none overflows where the last fits. *)
Lemma Offset_ok shape i0 i1 i2 i3 s : in_box shape [i0; i1; i2; i3] -> product shape <= INT32_MAX + 1 ->
  Offset shape i0 i1 i2 i3 s = (Done (row_major shape [i0; i1; i2; i3]), s).
Proof.
  intros Hb Hp. pose proof (row_major_range _ _ Hb) as Hr. revert Hr.
  inversion Hb as [|d0 ? ds ? H0 Hb0]; subst. inversion Hb0 as [|d1 ? ds1 ? H1 Hb1]; subst.
  inversion Hb1 as [|d2 ? ds2 ? H2 Hb2]; subst. inversion Hb2 as [|d3 ? ds3 ? H3 Hb3]; subst. inversion Hb3; subst.
  remember (product [d0; d1; d2; d3]) as m eqn:Hm. clear Hm Hb Hb0 Hb1 Hb2 Hb3.
  unfold row_major. cbn. intros Hr. unfold Offset. erewrite !bind_done by (by apply Dims_ok).
  replace (0 * d0 + i0) with i0 in * by lia.
  destruct (horner_step i0 d1 i1); [lia..|]. destruct (horner_step (i0 * d1 + i1) d2 i2); [lia..|].
  destruct (horner_step ((i0 * d1 + i1) * d2 + i2) d3 i3); [lia..|].
  erewrite bind_done by (apply int_mul_add_ok; lia). erewrite bind_done by (apply int_mul_add_ok; lia).
  by rewrite int_mul_add_ok by lia.
Qed.

Lemma int_product_ok l r s : Forall (Z.lt 0) l -> 0 < r -> r * product l <= INT32_MAX ->
  for_fold l r (fun r d => int_ (r * d)) s = (Done (r * product l), s).
Proof.
  intros Hl. revert r. induction Hl as [|d l Hd Hl IH]; intros r Hr Hp; cbn [for_fold].
  - change (product []) with 1. by replace (r * 1) with r by lia.
  - rewrite product_cons in *.
    assert (0 < product l) by (clear -Hl; induction Hl; [done|rewrite product_cons; nia]).
    erewrite bind_done by (apply int_ok; unfold INT32_MIN in *; nia).
    rewrite IH by nia. f_equal. f_equal. lia.
Qed.

Lemma FlatSize_ok shape s : Forall (Z.lt 0) shape -> product shape <= INT32_MAX ->
  FlatSize shape s = (Done (product shape), s).
Proof. intros Hp Hm. unfold FlatSize, int_product. rewrite int_product_ok by (done || lia). do 2 f_equal. lia. Qed.

Lemma ExtendedShape_same n shape s : n = zlength shape -> ExtendedShape n shape s = (Done shape, s).
Proof. intros ->. unfold ExtendedShape, DimensionsCount. by rewrite Z.ltb_irrefl, Z.sub_diag. Qed.
End InRange.

(** ** Nested loops *)

Section Loops.
Context {S : Type}.

(** Two calls that do the same, before the same. *)
Lemma bind_same {A B} (c c' : M S A) (k : A -> M S B) s : c s = c' s -> bind c k s = bind c' k s.
Proof. unfold bind. by intros ->. Qed.

Lemma bind_next {A B} (c : M S A) (k k' : A -> M S B) s : (forall a s', k a s' = k' a s') -> bind c k s = bind c k' s.
Proof. unfold bind. intros Hk. by destruct (c s) as [[]]; [apply Hk|..]. Qed.

Lemma for_each_app {A} (l l' : list A) (body : A -> M S unit) s :
  for_each (l ++ l') body s = (for_each l body ;;; for_each l' body) s.
Proof.
  revert s. induction l as [|x l IH]; intros s; cbn; [done|]. rewrite bind_assoc.
  unfold bind. destruct (body x s) as [[]]; [apply IH|done..].
Qed.

Lemma for_fold_app {A B} (l l' : list A) (b : B) (f : B -> A -> M S B) s :
  for_fold (l ++ l') b f s = (let* b := for_fold l b f in for_fold l' b f) s.
Proof.
  revert b s. induction l as [|x l IH]; intros b s; [done|]. cbn [app for_fold]. rewrite bind_assoc. unfold bind.
  destruct (f b x s) as [[]]; [apply IH|done..].
Qed.

Lemma for_fold_ext {A B} (l : list A) (b : B) (f g : B -> A -> M S B) s :
  (forall b x s, x ∈ l -> f b x s = g b x s) -> for_fold l b f s = for_fold l b g s.
Proof.
  revert b s. induction l as [|x l IH]; intros b s He; [done|]. cbn. unfold bind. rewrite He by set_solver.
  destruct (g b x s) as [[]]; [|done..]. apply IH. set_solver.
Qed.

Lemma for_fold_fmap {A A' B} (h : A -> A') (l : list A) (b : B) (f : B -> A' -> M S B) s :
  for_fold (h <$> l) b f s = for_fold l b (fun b x => f b (h x)) s.
Proof.
  revert b s. induction l as [|x l IH]; intros b s; [done|]. cbn. unfold bind. destruct (f b (h x) s) as [[]]; [apply IH|done..].
Qed.

Lemma for_fold_bind {A A' B} (h : A -> list A') (l : list A) (b : B) (f : B -> A' -> M S B) s :
  for_fold (l ≫= h) b f s = for_fold l b (fun b x => for_fold (h x) b f) s.
Proof.
  revert b s. induction l as [|x l IH]; intros b s; [done|]. rewrite bind_cons, for_fold_app. cbn. unfold bind.
  destruct (for_fold (h x) b f s) as [[]]; [apply IH|done..].
Qed.

Lemma for_each_ext {A} (l : list A) (b b' : A -> M S unit) s :
  (forall x s, x ∈ l -> b x s = b' x s) -> for_each l b s = for_each l b' s.
Proof.
  revert s. induction l as [|x l IH]; intros s He; [done|]. cbn. unfold bind.
  rewrite He by set_solver. destruct (b' x s) as [[]]; [|done..]. apply IH. set_solver.
Qed.

Lemma for_each_fmap {A B} (f : A -> B) (l : list A) (body : B -> M S unit) s :
  for_each (f <$> l) body s = for_each l (fun x => body (f x)) s.
Proof.
  revert s. induction l as [|x l IH]; intros s; [done|]. cbn. unfold bind. destruct (body (f x) s) as [[]]; [apply IH|done..].
Qed.

Lemma for_each_bind {A B} (f : A -> list B) (l : list A) (body : B -> M S unit) s :
  for_each (l ≫= f) body s = for_each l (fun x => for_each (f x) body) s.
Proof.
  revert s. induction l as [|x l IH]; intros s; [done|]. cbn. rewrite for_each_app. unfold bind.
  destruct (for_each (f x) body s) as [[]]; [apply IH|done..].
Qed.

(** Two loops as one over the numbers with two digits. *)
Lemma for_int_product a b (f : Z -> M S unit) s : 0 <= a -> 0 <= b ->
  for_int (a * b) f s = for_int a (fun j => for_int b (fun i => f (i + j * b))) s.
Proof.
  intros Ha Hb. unfold for_int. rewrite (Z.mul_comm a b), <- zrange_product, for_each_bind by done.
  apply for_each_ext. intros j sj _. rewrite for_each_fmap. apply for_each_ext. intros i si _. by rewrite Z.add_comm.
Qed.

(** A loop over the indices of a box is a nest of loops. *)
Lemma for_box_cons d dims (body : list Z -> M S unit) s :
  for_each (box (d :: dims)) body s = for_int d (fun i => for_each (box dims) (fun idx => body (i :: idx))) s.
Proof.
  cbn. rewrite for_each_bind. apply for_each_ext. intros i s' _. apply for_each_fmap.
Qed.

Lemma for_box_nil (body : list Z -> M S unit) s : for_each (box []) body s = body [] s.
Proof. cbn. unfold bind. by destruct (body [] s) as [[[]|?|]]. Qed.

(** The body on the index as a list of the loops' counters. *)
Definition on4 (f : Z -> Z -> Z -> Z -> M S unit) (idx : list Z) : M S unit :=
  match idx with [a; b; c; d] => f a b c d | _ => ret tt end.

Lemma for_box4 n0 n1 n2 n3 (f : Z -> Z -> Z -> Z -> M S unit) s :
  for_int n0 (fun a => for_int n1 (fun b => for_int n2 (fun c => for_int n3 (fun d => f a b c d)))) s
  = for_each (box [n0; n1; n2; n3]) (on4 f) s.
Proof.
  rewrite for_box_cons. apply for_each_ext. intros a sa _. rewrite for_box_cons.
  apply for_each_ext. intros b sb _. rewrite for_box_cons. apply for_each_ext. intros c sc _.
  rewrite for_box_cons. apply for_each_ext. intros d sd _. by rewrite for_box_nil.
Qed.
End Loops.

(** ** Loops that store *)

Section Stores.
Context {A T : Type} (pos : A -> Z) (val : A -> T).

Lemma store_at_ok i (x : T) v : 0 <= i < zlength v -> store_at i x v = (Done tt, zset v i x).
Proof. intros Hi. unfold store_at. by rewrite zinsert_zset. Qed.

(** Each iteration stores one element; where two store in the same place they store the same. *)
Lemma for_each_stores (l : list A) (body : A -> M (list T) unit) v :
  (forall x v', x ∈ l -> zlength v' = zlength v -> body x v' = (Done tt, zset v' (pos x) (val x))) ->
  (forall x, x ∈ l -> 0 <= pos x < zlength v) ->
  (forall x y, x ∈ l -> y ∈ l -> pos x = pos y -> val x = val y) ->
  exists v', for_each l body v = (Done tt, v') /\ zlength v' = zlength v /\
    (forall x, x ∈ l -> v'.[pos x] = Some (val x)) /\
    (forall p, (forall x, x ∈ l -> pos x <> p) -> v'.[p] = v.[p]).
Proof.
  revert v. induction l as [|x l IH]; intros v Hbody Hpos Hval.
  { exists v. split_and!; [done..|set_solver|done]. }
  cbn. unfold bind. rewrite Hbody by (set_solver || done).
  assert (Hx : 0 <= pos x < zlength v) by (apply Hpos; set_solver).
  destruct (IH (zset v (pos x) (val x))) as (v' & -> & Hlen & Hin & Hout).
  - intros y w Hy Hw. rewrite zlength_zset in Hw. apply Hbody; [set_solver|done].
  - intros y Hy. rewrite zlength_zset. apply Hpos. set_solver.
  - intros y z Hy Hz. apply Hval; set_solver.
  - rewrite zlength_zset in Hlen. exists v'. split_and!; [done|done|..].
    + intros y [->|Hy]%elem_of_cons; [|by apply Hin].
      destruct (decide (Exists (fun z => pos z = pos x) l)) as [(z & Hz & Hp)%Exists_exists|Hno].
      * rewrite <- Hp, (Hin z Hz). f_equal. apply Hval; set_solver.
      * rewrite Hout; [by rewrite zlookup_zset, Z.eqb_refl|].
        intros z Hz Hp. apply Hno, Exists_exists. eauto.
    + intros p Hp. rewrite Hout by set_solver. rewrite zlookup_zset by done.
      destruct (Z.eqb_spec (pos x) p); [|done]. exfalso. apply (Hp x); set_solver.
Qed.
End Stores.

Lemma zlookup_middle {T} (l l' : list T) x : (l ++ x :: l').[zlength l] = Some x.
Proof.
  unfold zlookup, zlength. destruct (Z.ltb_spec (Z.of_nat (length l)) 0); [lia|]. rewrite Nat2Z.id. by apply list_lookup_middle.
Qed.

(** Two buffers with the same elements. *)
Lemma same_elements {T} (v w : list T) : zlength v = zlength w ->
  (forall p, 0 <= p < zlength v -> v.[p] = w.[p]) -> v = w.
Proof.
  intros Hlen Hp. apply list_eq_same_length with (length v); [unfold zlength in Hlen; lia|done|].
  intros k x y Hk Hx Hy. specialize (Hp (Z.of_nat k)). unfold zlookup, zlength in Hp.
  destruct (Z.ltb_spec (Z.of_nat k) 0); [lia|]. rewrite Nat2Z.id in Hp. rewrite Hp in Hx by lia. congruence.
Qed.

(** ** Kernels that copy elements *)

Section Copies.
Context {A T : Type} (pos src : A -> Z).

(** [output_data[o] = input_data[i]]. *)
Definition copy_element (input_data : list T) (i o : Z) : M (list T) unit :=
  let* x := access (input_data.[i]) in store_at o x.

Lemma copy_element_ok (input_data : list T) i o x v : input_data.[i] = Some x -> 0 <= o < zlength v ->
  copy_element input_data i o v = (Done tt, zset v o x).
Proof. intros Hx Ho. unfold copy_element. erewrite bind_access by done. by apply store_at_ok. Qed.

Lemma for_each_copies (l : list A) (input_data : list T) (body : A -> M (list T) unit) v :
  (forall x v', x ∈ l -> body x v' = copy_element input_data (src x) (pos x) v') ->
  (forall x, x ∈ l -> 0 <= pos x < zlength v) ->
  (forall x, x ∈ l -> 0 <= src x < zlength input_data) ->
  (forall x y, x ∈ l -> y ∈ l -> pos x = pos y -> src x = src y) ->
  exists v', for_each l body v = (Done tt, v') /\ zlength v' = zlength v /\
    (forall x, x ∈ l -> v'.[pos x] = input_data.[src x]) /\
    (forall p, (forall x, x ∈ l -> pos x <> p) -> v'.[p] = v.[p]).
Proof.
  intros Hbody Hpos Hsrc Hinj. destruct l as [|x0 l].
  { exists v. split_and!; [done..|set_solver|done]. }
  destruct (zlookup_in_range input_data (src x0)) as [d _]; [apply Hsrc; set_solver|].
  assert (Hval : forall x, x ∈ x0 :: l -> input_data.[src x] = Some (default d (input_data.[src x]))).
  { intros x Hx. by destruct (zlookup_in_range input_data (src x) (Hsrc x Hx)) as [y ->]. }
  destruct (for_each_stores pos (fun x => default d (input_data.[src x])) (x0 :: l) body v)
    as (v' & Hrun & Hlen & Hin & Hout).
  - intros x v' Hx Hv. rewrite Hbody by done. apply copy_element_ok; [by apply Hval|].
    rewrite Hv. by apply Hpos.
  - done.
  - intros x y Hx Hy Hp. by rewrite (Hinj x y Hx Hy Hp).
  - exists v'. split_and!; [done..| |done]. intros x Hx. rewrite Hin by done. symmetry. by apply Hval.
Qed.
End Copies.
