(* ===== verification/KernelLayout.v ===== *)
(** * Kernels that rearrange elements (kernels/internal/reference/{space_to_depth.h, depth_to_space.h,
    transpose.h})

    Blocks of pixels moved to channels and back, and the permutation of dimensions by a recursion
    over strides.  Elements are copied whole, whatever their type. *)
From S2P Require Import Prelude Shape.

(** [a / b] and [a % b]. *)
Definition int_div {S} (a b : Z) : M S Z := if b =? 0 then undef else int_ (Z.quot a b).
Definition int_rem {S} (a b : Z) : M S Z := int_div a b ;;; ret (Z.rem a b).

(** ** Space to depth and back *)

(** The loops, which move elements by [copy], from an index of the input to one of the output. *)
Section Blocked.
Context {S : Type} (copy : Z -> Z -> M S unit).

Definition SpaceToDepth_loops (block_size : Z) (unextended_input_shape unextended_output_shape : RuntimeShape) : M S unit :=
  let* input_shape := ExtendedShape 4 unextended_input_shape in
  let* output_shape := ExtendedShape 4 unextended_output_shape in
  let* input_depth := Dims input_shape 3 in
  let* input_width := Dims input_shape 2 in
  let* input_height := Dims input_shape 1 in
  let* input_batch := Dims input_shape 0 in
  for_int input_batch (fun in_b => for_int input_height (fun in_h =>
  for_int input_width (fun in_w => for_int input_depth (fun in_d =>
    let* row := int_rem in_h block_size in
    let* column := int_rem in_w block_size in
    let* block := int_mul_add row block_size column in
    let* out_d := int_mul_add block input_depth in_d in
    let* out_w := int_div in_w block_size in
    let* out_h := int_div in_h block_size in
    let out_b := in_b in
    let* input_index := Offset input_shape in_b in_h in_w in_d in
    let* output_index := Offset output_shape out_b out_h out_w out_d in
    copy input_index output_index)))).

Definition DepthToSpace_loops (block_size : Z) (unextended_input_shape unextended_output_shape : RuntimeShape) : M S unit :=
  let* input_shape := ExtendedShape 4 unextended_input_shape in
  let* output_shape := ExtendedShape 4 unextended_output_shape in
  let* output_depth := Dims output_shape 3 in
  let* output_width := Dims output_shape 2 in
  let* output_height := Dims output_shape 1 in
  let* output_batch := Dims output_shape 0 in
  for_int output_batch (fun out_b => for_int output_height (fun out_h =>
  for_int output_width (fun out_w => for_int output_depth (fun out_d =>
    let* row := int_rem out_h block_size in
    let* column := int_rem out_w block_size in
    let* block := int_mul_add row block_size column in
    let* in_d := int_mul_add block output_depth out_d in
    let* in_w := int_div out_w block_size in
    let* in_h := int_div out_h block_size in
    let in_b := out_b in
    let* input_index := Offset input_shape in_b in_h in_w in_d in
    let* output_index := Offset output_shape out_b out_h out_w out_d in
    copy input_index output_index)))).
End Blocked.

Section Kernels.
Context {T : Type}.

(** On buffers that are apart. *)
Definition SpaceToDepth (block_size : Z) (input_shape : RuntimeShape) (input_data : list T)
    (output_shape : RuntimeShape) : M (list T) unit :=
  SpaceToDepth_loops (copy_element input_data) block_size input_shape output_shape.

Definition DepthToSpace (block_size : Z) (input_shape : RuntimeShape) (input_data : list T)
    (output_shape : RuntimeShape) : M (list T) unit :=
  DepthToSpace_loops (copy_element input_data) block_size input_shape output_shape.

(** ** Transposition *)

Definition kTransposeMaxDimensions : Z := 6.

(** An array on the stack; its elements are not initialised, and are written before they are read. *)
Definition stack_array : list Z := replicate (Z.to_nat kTransposeMaxDimensions) 0.

(** [stride[i] = x]. *)
Definition set_stride {S} (stride : list Z) (i x : Z) : M S (list Z) := access (zinsert stride i x).

Definition SetupTransposeStrides {S} (shape : RuntimeShape) (dims : Z) : M S (list Z) :=
  let* stride := set_stride stack_array (dims - 1) 1 in
  for_fold (reverse (zrange 0 (dims - 2))) stride (fun stride i =>
    let* next := access (stride.[i + 1]) in
    let* d := access (shape.[i + 1]) in
    let* s := int_ (next * d) in
    set_stride stride i s).

(** The pointers into the buffers are offsets; the recursion is as deep as there are dimensions. *)
Fixpoint TransposeImpl (fuel : nat) (depth dims : Z) (perm : list Z) (input_data : list T) (input : Z)
    (input_stride : list Z) (output : Z) (output_stride output_shape : list Z) : M (list T) unit :=
  match fuel with
  | O => undef
  | S fuel =>
    let* dimension_size := access (output_shape.[depth]) in
    if depth =? dims - 1 then
      let* p := access (perm.[depth]) in
      let* loop_stride := access (input_stride.[p]) in
      for_fold (zrange 0 (dimension_size - 1)) input (fun input i =>
        copy_element input_data input (output + i) ;;;
        ret (input + loop_stride)) ;;;
      ret tt
    else
      for_fold (zrange 0 (dimension_size - 1)) (input, output) (fun io _ =>
        TransposeImpl fuel (depth + 1) dims perm input_data (fst io) input_stride (snd io) output_stride output_shape ;;;
        let* p := access (perm.[depth]) in
        let* s := access (input_stride.[p]) in
        let* o := access (output_stride.[depth]) in
        ret (fst io + s, snd io + o)) ;;;
      ret tt
  end.

Definition Transpose (perm : list Z) (input_shape : RuntimeShape) (input_data : list T)
    (output_shape : RuntimeShape) : M (list T) unit :=
  let dims := DimensionsCount input_shape in
  let* input_stride := SetupTransposeStrides input_shape dims in
  let* output_stride := SetupTransposeStrides output_shape dims in
  TransposeImpl (Z.to_nat dims) 0 dims perm input_data 0 input_stride 0 output_stride output_shape.
End Kernels.

(** ** Blocks *)

Lemma int_div_ok {T} a b (s : T) : 0 <= a <= INT32_MAX -> 0 < b -> int_div a b s = (Done (a / b), s).
Proof.
  intros Ha Hb. unfold int_div. destruct (Z.eqb_spec b 0); [lia|]. rewrite Z.quot_div_nonneg by lia. apply int_ok.
  pose proof (Z.div_pos a b). pose proof (Z.div_le_upper_bound a b a). unfold INT32_MIN in *. nia.
Qed.

Section Blocks.
Context {T : Type} (bs n h w c : Z) (Hbs : 0 < bs) (Hc : 0 < c).

(** Where the element of a picture is among the channels. *)
Definition to_depth (idx : list Z) : list Z :=
  match idx with
  | [b; y; x; d] => [b; y / bs; x / bs; (y mod bs * bs + x mod bs) * c + d]
  | _ => []
  end.

Definition to_space (idx : list Z) : list Z :=
  match idx with
  | [b; y; x; d] => [b; y * bs + d / c / bs; x * bs + (d / c) mod bs; d mod c]
  | _ => []
  end.

Let space : list Z := [n; h * bs; w * bs; c].
Let depth : list Z := [n; h; w; c * bs * bs].

Lemma in_box4 (d : list Z) idx : in_box d idx -> length d = 4%nat -> exists i0 i1 i2 i3, idx = [i0; i1; i2; i3].
Proof.
  intros Hb Hd. apply in_box_length in Hb. rewrite Hd in Hb.
  destruct idx as [|i0 [|i1 [|i2 [|i3 [|]]]]]; try done. eauto.
Qed.

Lemma in_box4_iff d0 d1 d2 d3 i0 i1 i2 i3 : in_box [d0; d1; d2; d3] [i0; i1; i2; i3] <->
  0 <= i0 < d0 /\ 0 <= i1 < d1 /\ 0 <= i2 < d2 /\ 0 <= i3 < d3.
Proof. unfold in_box. rewrite !Forall2_cons. split; [tauto|]. intros. split_and!; try tauto. constructor. Qed.

(** The channel of an element, as a number in three digits. *)
Lemma channel_range y x d : 0 <= d < c -> 0 <= (y mod bs * bs + x mod bs) * c + d < c * bs * bs.
Proof.
  intros Hd. pose proof (Z.mod_pos_bound y bs Hbs). pose proof (Z.mod_pos_bound x bs Hbs).
  assert (0 <= y mod bs * bs + x mod bs < bs * bs) by nia. nia.
Qed.

Lemma to_depth_in idx : in_box space idx -> in_box depth (to_depth idx).
Proof.
  intros Hb. destruct (in_box4 _ _ Hb eq_refl) as (b & y & x & d & ->).
  apply in_box4_iff in Hb as (Hb & Hy & Hx & Hd). apply in_box4_iff.
  split_and!; try lia; try (apply Z.div_pos; lia); try (apply Z.div_lt_upper_bound; lia); by apply channel_range.
Qed.

Lemma to_space_in idx : in_box depth idx -> in_box space (to_space idx).
Proof.
  intros Hb. destruct (in_box4 _ _ Hb eq_refl) as (b & y & x & d & ->).
  apply in_box4_iff in Hb as (Hb & Hy & Hx & Hd). apply in_box4_iff.
  pose proof (Z.mod_pos_bound d c Hc). pose proof (Z.mod_pos_bound (d / c) bs Hbs).
  assert (0 <= d / c < bs * bs) by (split; [apply Z.div_pos; lia|apply Z.div_lt_upper_bound; lia]).
  assert (0 <= d / c / bs < bs) by (split; [apply Z.div_pos; lia|apply Z.div_lt_upper_bound; lia]).
  split_and!; nia.
Qed.

Lemma to_space_to_depth idx : in_box depth idx -> to_depth (to_space idx) = idx.
Proof.
  intros Hb. destruct (in_box4 _ _ Hb eq_refl) as (b & y & x & d & ->).
  apply in_box4_iff in Hb as (Hb & Hy & Hx & Hd).
  assert (0 <= d / c < bs * bs) by (split; [apply Z.div_pos; lia|apply Z.div_lt_upper_bound; lia]).
  assert (0 <= d / c / bs < bs) by (split; [apply Z.div_pos; lia|apply Z.div_lt_upper_bound; lia]).
  pose proof (Z.mod_pos_bound (d / c) bs Hbs).
  cbn. rewrite !Z.div_add_l, !(Z.add_comm (_ * bs)), !Z.mod_add, (Z.div_small (d / c / bs)), (Z.div_small ((d / c) mod bs)),
    (Z.mod_small (d / c / bs)), Z.mod_mod by lia.
  do 2 f_equal; [lia|]. f_equal; [lia|]. f_equal.
  pose proof (Z.div_mod (d / c) bs). pose proof (Z.div_mod d c). nia.
Qed.

Lemma to_depth_to_space idx : in_box space idx -> to_space (to_depth idx) = idx.
Proof.
  intros Hb. destruct (in_box4 _ _ Hb eq_refl) as (b & y & x & d & ->).
  apply in_box4_iff in Hb as (Hb & Hy & Hx & Hd).
  pose proof (Z.mod_pos_bound y bs Hbs). pose proof (Z.mod_pos_bound x bs Hbs).
  cbn. rewrite Z.div_add_l, (Z.div_small d c), Z.add_0_r, Z.div_add_l, (Z.div_small (x mod bs)), Z.add_0_r by lia.
  rewrite (Z.add_comm (y mod bs * bs)), Z.mod_add, Z.mod_mod by lia.
  rewrite (Z.add_comm (_ * c)), Z.mod_add, (Z.mod_small d c) by lia.
  pose proof (Z.div_mod y bs). pose proof (Z.div_mod x bs). do 2 f_equal; [lia|]. f_equal. lia.
Qed.

(** The channel and the pixel of a block, as the loops compute them. *)
Lemma block_arithmetic {S} y x d (k : Z -> Z -> Z -> M S unit) s :
  0 <= y -> 0 <= x -> 0 <= d < c -> y <= INT32_MAX -> x <= INT32_MAX -> c * bs * bs <= INT32_MAX ->
  (let* row := int_rem y bs in
   let* column := int_rem x bs in
   let* block := int_mul_add row bs column in
   let* z := int_mul_add block c d in
   let* w := int_div x bs in
   let* h := int_div y bs in
   k z w h) s = k ((y mod bs * bs + x mod bs) * c + d) (x / bs) (y / bs) s.
Proof.
  intros Hy Hx Hd Hym Hxm Hm.
  assert (Hrem : forall a (s : S), 0 <= a <= INT32_MAX -> int_rem a bs s = (Done (a mod bs), s)).
  { intros a s' Ha. unfold int_rem. erewrite bind_done by (by apply int_div_ok). by rewrite Z.rem_mod_nonneg by lia. }
  pose proof (Z.mod_pos_bound y bs Hbs). pose proof (Z.mod_pos_bound x bs Hbs).
  pose proof (channel_range y x d Hd). assert (0 <= y mod bs * bs + x mod bs) by nia.
  do 2 erewrite bind_done by (apply Hrem; lia).
  erewrite bind_done by (apply int_mul_add_ok; nia).
  erewrite bind_done by (apply int_mul_add_ok; lia).
  by do 2 erewrite bind_done by (apply int_div_ok; lia).
Qed.

Lemma dims4 {S} d0 d1 d2 d3 (k : Z -> Z -> Z -> Z -> M S unit) s :
  (let* e3 := Dims [d0; d1; d2; d3] 3 in
   let* e2 := Dims [d0; d1; d2; d3] 2 in
   let* e1 := Dims [d0; d1; d2; d3] 1 in
   let* e0 := Dims [d0; d1; d2; d3] 0 in k e3 e2 e1 e0) s = k d3 d2 d1 d0 s.
Proof. done. Qed.

Hypothesis Hfits : product space <= INT32_MAX.

Lemma product_depth : product depth = product space.
Proof. unfold depth, space, product. cbn. lia. Qed.

(** The dimensions of an index that exists fit. *)
Lemma fits_of_index idx : in_box space idx -> h * bs <= INT32_MAX /\ w * bs <= INT32_MAX /\ c * bs * bs <= INT32_MAX.
Proof.
  intros Hb. destruct (in_box4 _ _ Hb eq_refl) as (b & y & x & d & ->).
  apply in_box4_iff in Hb as (Hb & Hy & Hx & Hd). unfold space, product in Hfits. cbn in Hfits.
  assert (0 < h) by nia. assert (0 < w) by nia.
  assert (Hle : forall a k, 0 <= a -> 1 <= k -> a * k <= INT32_MAX -> a <= INT32_MAX) by (intros; nia).
  assert (Hpos : 0 < n) by nia.
  assert (0 < n * (w * bs * c)) by (repeat apply Z.mul_pos_pos; lia).
  assert (0 < n * (h * bs * c)) by (repeat apply Z.mul_pos_pos; lia).
  assert (0 < n * h * w) by (repeat apply Z.mul_pos_pos; lia).
  assert (0 < c * bs * bs) by (repeat apply Z.mul_pos_pos; lia).
  split_and!; [apply (Hle _ (n * (w * bs * c)))|apply (Hle _ (n * (h * bs * c)))|apply (Hle _ (n * h * w))]; lia.
Qed.

(** One iteration of either kernel. *)
Lemma SpaceToDepth_step (input_data : list T) idx v : in_box space idx ->
  on4 (fun in_b in_h in_w in_d =>
    let* row := int_rem in_h bs in
    let* column := int_rem in_w bs in
    let* block := int_mul_add row bs column in
    let* out_d := int_mul_add block c in_d in
    let* out_w := int_div in_w bs in
    let* out_h := int_div in_h bs in
    let out_b := in_b in
    let* input_index := Offset space in_b in_h in_w in_d in
    let* output_index := Offset depth out_b out_h out_w out_d in
    copy_element input_data input_index output_index) idx v
  = copy_element input_data (row_major space idx) (row_major depth (to_depth idx)) v.
Proof.
  intros Hb. pose proof (fits_of_index idx Hb) as (? & ? & ?). pose proof (to_depth_in idx Hb) as Hb'.
  destruct (in_box4 _ _ Hb eq_refl) as (b & y & x & d & ->).
  pose proof (proj1 (in_box4_iff _ _ _ _ _ _ _ _) Hb) as (Hib & Hy & Hx & Hd). cbn [on4].
  rewrite block_arithmetic by lia. cbn [to_depth] in *.
  erewrite bind_done by (apply Offset_ok; [done|lia]).
  by erewrite bind_done by (apply Offset_ok; [done|rewrite product_depth; lia]).
Qed.

Lemma DepthToSpace_step (input_data : list T) idx v : in_box space idx ->
  on4 (fun out_b out_h out_w out_d =>
    let* row := int_rem out_h bs in
    let* column := int_rem out_w bs in
    let* block := int_mul_add row bs column in
    let* in_d := int_mul_add block c out_d in
    let* in_w := int_div out_w bs in
    let* in_h := int_div out_h bs in
    let in_b := out_b in
    let* input_index := Offset depth in_b in_h in_w in_d in
    let* output_index := Offset space out_b out_h out_w out_d in
    copy_element input_data input_index output_index) idx v
  = copy_element input_data (row_major depth (to_depth idx)) (row_major space idx) v.
Proof.
  intros Hb. pose proof (fits_of_index idx Hb) as (? & ? & ?). pose proof (to_depth_in idx Hb) as Hb'.
  destruct (in_box4 _ _ Hb eq_refl) as (b & y & x & d & ->).
  pose proof (proj1 (in_box4_iff _ _ _ _ _ _ _ _) Hb) as (Hib & Hy & Hx & Hd). cbn [on4].
  rewrite block_arithmetic by lia. cbn [to_depth] in *.
  erewrite bind_done by (apply Offset_ok; [done|rewrite product_depth; lia]).
  by erewrite bind_done by (apply Offset_ok; [done|lia]).
Qed.

(** Each kernel moves every element along [to_depth]. *)
Lemma SpaceToDepth_moves (input_data v : list T) : zlength input_data = product space -> zlength v = product space ->
  exists v', SpaceToDepth bs space input_data depth v = (Done tt, v') /\ zlength v' = product space /\
    forall idx, in_box space idx -> v'.[row_major depth (to_depth idx)] = input_data.[row_major space idx].
Proof.
  intros Hin Hv. unfold SpaceToDepth, SpaceToDepth_loops. do 2 (erewrite bind_done by (by apply ExtendedShape_same)).
  unfold space at 1 2 3 4. rewrite dims4, for_box4. fold space.
  match goal with |- context [for_each (box space) ?b v] => destruct (for_each_copies
    (fun idx => row_major depth (to_depth idx)) (row_major space) (box space) input_data b v)
    as (v' & Hrun & Hlen & Hout & _) end.
  - intros idx v' Hx. apply SpaceToDepth_step. by apply elem_of_box.
  - intros idx Hx%elem_of_box. rewrite Hv, <- product_depth. by apply row_major_range, to_depth_in.
  - intros idx Hx%elem_of_box. rewrite Hin. by apply row_major_range.
  - intros i j Hi%elem_of_box Hj%elem_of_box Heq. f_equal.
    apply row_major_inj in Heq; [|by apply to_depth_in..].
    by rewrite <- (to_depth_to_space i), <- (to_depth_to_space j), Heq.
  - exists v'. rewrite Hlen, Hv. split_and!; [exact Hrun|done|]. intros idx Hx. by apply Hout, elem_of_box.
Qed.

Lemma DepthToSpace_moves (input_data v : list T) : zlength input_data = product space -> zlength v = product space ->
  exists v', DepthToSpace bs depth input_data space v = (Done tt, v') /\ zlength v' = product space /\
    forall idx, in_box space idx -> v'.[row_major space idx] = input_data.[row_major depth (to_depth idx)].
Proof.
  intros Hin Hv. unfold DepthToSpace, DepthToSpace_loops. do 2 (erewrite bind_done by (by apply ExtendedShape_same)).
  unfold space at 1 2 3 4. rewrite dims4, for_box4. fold space.
  match goal with |- context [for_each (box space) ?b v] => destruct (for_each_copies
    (row_major space) (fun idx => row_major depth (to_depth idx)) (box space) input_data b v)
    as (v' & Hrun & Hlen & Hout & _) end.
  - intros idx v' Hx. apply DepthToSpace_step. by apply elem_of_box.
  - intros idx Hx%elem_of_box. rewrite Hv. by apply row_major_range.
  - intros idx Hx%elem_of_box. rewrite Hin, <- product_depth. by apply row_major_range, to_depth_in.
  - intros i j Hi%elem_of_box Hj%elem_of_box Heq. do 2 f_equal. by apply row_major_inj in Heq.
  - exists v'. rewrite Hlen, Hv. split_and!; [exact Hrun|done|]. intros idx Hx. by apply Hout, elem_of_box.
Qed.
End Blocks.

(** C28. SpaceToDepth moves every element of a picture to the channel of its pixel in its block, and
    DepthToSpace brings every element back, and the other way round, for every picture that fits an
    [int]; no access is out of range and nothing overflows. *)
Theorem space_depth_inverse {T} bs n h w c (data mid out : list T) :
  let space := [n; h * bs; w * bs; c] in
  let depth := [n; h; w; c * bs * bs] in
  0 < bs -> 0 < c -> 0 <= n -> 0 <= h -> 0 <= w -> product space <= INT32_MAX ->
  zlength data = product space -> zlength mid = product space -> zlength out = product space ->
  (exists mid', SpaceToDepth bs space data depth mid = (Done tt, mid') /\
    (forall b y x d, in_box space [b; y; x; d] ->
      mid'.[row_major depth [b; y / bs; x / bs; (y mod bs * bs + x mod bs) * c + d]]
      = data.[row_major space [b; y; x; d]]) /\
    DepthToSpace bs depth mid' space out = (Done tt, data)) /\
  (exists mid', DepthToSpace bs depth data space mid = (Done tt, mid') /\
    SpaceToDepth bs space mid' depth out = (Done tt, data)).
Proof.
  intros space depth Hbs Hc Hn Hh Hw Hm Hd Hmid Hout.
  assert (Hpos : Forall (Z.le 0) space) by (repeat constructor; nia).
  assert (Hpos' : Forall (Z.le 0) depth) by (repeat constructor; nia).
  split.
  - destruct (SpaceToDepth_moves bs n h w c Hbs Hc Hm data mid Hd Hmid) as (mid' & Hrun & Hlen & Hmoved).
    exists mid'. split_and!; [exact Hrun|intros b y x d; apply (Hmoved [b; y; x; d])|].
    destruct (DepthToSpace_moves bs n h w c Hbs Hc Hm mid' out Hlen Hout) as (out' & Hrun' & Hlen' & Hback).
    unfold depth, space. rewrite Hrun'. do 2 f_equal. apply same_elements; [by rewrite Hlen', Hd|]. intros p Hp.
    destruct (row_major_onto space p) as (idx & Hb & <-); [by rewrite Hlen' in Hp|done|].
    rewrite Hback by done. by apply Hmoved.
  - destruct (DepthToSpace_moves bs n h w c Hbs Hc Hm data mid Hd Hmid) as (mid' & Hrun & Hlen & Hmoved).
    exists mid'. split; [exact Hrun|].
    destruct (SpaceToDepth_moves bs n h w c Hbs Hc Hm mid' out Hlen Hout) as (out' & Hrun' & Hlen' & Hback).
    unfold depth, space. rewrite Hrun'. do 2 f_equal. apply same_elements; [by rewrite Hlen', Hd|]. intros p Hp.
    destruct (row_major_onto depth p) as (idx & Hb & <-); [rewrite Hlen' in Hp; unfold depth; by rewrite product_depth|done|].
    rewrite <- (to_space_to_depth bs n h w c Hbs Hc idx Hb).
    rewrite Hback by (by apply to_space_in). apply Hmoved. by apply to_space_in.
Qed.

Lemma space_depth_inverse_witness :
  SpaceToDepth 2 [1; 2; 4; 1] [1; 2; 5; 6; 3; 4; 7; 8] [1; 1; 2; 4] (replicate 8 0) = (Done tt, [1; 2; 3; 4; 5; 6; 7; 8]) /\
  DepthToSpace 2 [1; 1; 2; 4] [1; 2; 3; 4; 5; 6; 7; 8] [1; 2; 4; 1] (replicate 8 0) = (Done tt, [1; 2; 5; 6; 3; 4; 7; 8]) /\
  exists mid', DepthToSpace 2 [1; 1; 2; 4] [1; 2; 5; 6; 3; 4; 7; 8] [1; 2; 4; 1] (replicate 8 0) = (Done tt, mid') /\
    SpaceToDepth 2 [1; 2; 4; 1] mid' [1; 1; 2; 4] (replicate 8 0) = (Done tt, [1; 2; 5; 6; 3; 4; 7; 8]).
Proof.
  refine (conj _ (conj _ (proj2 (space_depth_inverse 2 1 1 2 1 [1; 2; 5; 6; 3; 4; 7; 8] (replicate 8 0) (replicate 8 0)
    _ _ _ _ _ _ _ _ _)))); vm_compute; (reflexivity || discriminate).
Defined.
