(* ===== verification/KernelTranspose.v ===== *)
(** * Transposition, theorems

    The recursion over strides copies the elements of a box of indices, and the strides are those of
    row-major layouts: the element at an index goes to the permuted index. *)
From S2P Require Import Prelude Shape KernelLayout.

(** ** Loops with running counters *)

Lemma for_fold_running {S X} (f : Z -> X) (body : X -> Z -> M S X) (b : Z -> M S unit) a m s :
  (forall i s, a <= i <= m -> body (f i) i s = (b i ;;; ret (f (i + 1))) s) ->
  (for_fold (zrange a m) (f a) body ;;; ret tt) s = for_each (zrange a m) b s.
Proof.
  remember (Z.to_nat (m - a + 1)) as n eqn:Hn. revert a s Hn.
  induction n as [|n IH]; intros a s Hn Hbody.
  - by rewrite zrange_nil by lia.
  - rewrite zrange_cons by lia. cbn [for_fold for_each].
    specialize (IH (a + 1)). pose proof (Hbody a s ltac:(lia)) as Ha. unfold bind in *. rewrite Ha.
    destruct (b a s) as [[[]|e|] s']; [|done..]. apply IH; [lia|]. intros i s'' Hi. apply Hbody. lia.
Qed.

(** ** Strides *)

Fixpoint strides (dims : list Z) : list Z :=
  match dims with [] => [] | _ :: dims' => product dims' :: strides dims' end.

Definition dot (idx strd : list Z) : Z := foldr Z.add 0 (zip_with Z.mul idx strd).

Lemma dot_cons i idx s strd : dot (i :: idx) (s :: strd) = i * s + dot idx strd.
Proof. done. Qed.

Lemma length_strides dims : length (strides dims) = length dims.
Proof. induction dims; cbn; congruence. Qed.

Lemma dot_strides dims idx : length dims = length idx -> dot idx (strides dims) = row_major dims idx.
Proof.
  revert idx. induction dims as [|d dims IH]; intros [|i idx] Hlen; try done. injection Hlen as Hlen.
  cbn [strides]. by rewrite dot_cons, row_major_cons, IH.
Qed.

Lemma strides_lookup dims k : (k < length dims)%nat -> strides dims !! k = Some (product (drop (Datatypes.S k) dims)).
Proof.
  revert k. induction dims as [|d dims IH]; intros [|k] Hk; cbn in *; [lia|lia|done|]. apply IH. lia.
Qed.

Lemma product_pos dims : Forall (Z.lt 0) dims -> 0 < product dims.
Proof. induction 1 as [|d dims Hd _ IH]; [done|]. rewrite product_cons. nia. Qed.

Lemma product_drop_le k dims : Forall (Z.lt 0) dims -> product (drop k dims) <= product dims.
Proof.
  intros Hd. rewrite <- (take_drop k dims) at 2. rewrite product_app.
  pose proof (product_pos _ (Forall_take _ k _ Hd)). pose proof (product_pos _ (Forall_drop _ k _ Hd)). nia.
Qed.

(** From the strides of the dimensions [k] and up, the loop computes those below. *)
Lemma setup_strides_loop {S} dims (st : list Z) k (s : S) :
  Forall (Z.lt 0) dims -> product dims <= INT32_MAX -> zlength st = kTransposeMaxDimensions ->
  (k < length dims)%nat -> (length dims <= 6)%nat ->
  (forall j, (k <= j < length dims)%nat -> st !! j = strides dims !! j) ->
  exists st', for_fold (reverse (zrange 0 (Z.of_nat k - 1))) st (fun stride i =>
      let* next := access (stride.[i + 1]) in
      let* d := access (dims.[i + 1]) in
      let* s := int_ (next * d) in
      set_stride stride i s) s = (Done st', s) /\
    (forall j, (j < length dims)%nat -> st' !! j = strides dims !! j).
Proof.
  intros Hpos Hmax Hlen Hk Hsix. revert st Hlen. induction k as [|k IH]; intros st Hlen Hst.
  { exists st. split; [done|]. intros j Hj. apply Hst. lia. }
  replace (Z.of_nat (Datatypes.S k) - 1) with (Z.of_nat k - 1 + 1) by lia.
  rewrite zrange_snoc, reverse_app by lia. replace (Z.of_nat k - 1 + 1) with (Z.of_nat k) by lia. cbn.
  assert (Hd : exists d, dims !! Datatypes.S k = Some d) by (apply lookup_lt_is_Some_2; lia). destruct Hd as [d Hd].
  assert (Hnext : st.[Z.of_nat k + 1] = Some (product (drop (Datatypes.S (Datatypes.S k)) dims))).
  { apply zlookup_some. rewrite Hlen. unfold kTransposeMaxDimensions. split; [lia|].
    replace (Z.to_nat (Z.of_nat k + 1)) with (Datatypes.S k) by lia. rewrite Hst by lia. apply strides_lookup. lia. }
  assert (Hdim : dims.[Z.of_nat k + 1] = Some d).
  { apply zlookup_some. unfold zlength. split; [lia|]. by replace (Z.to_nat (Z.of_nat k + 1)) with (Datatypes.S k) by lia. }
  assert (Hprod : product (drop (Datatypes.S k) dims) = d * product (drop (Datatypes.S (Datatypes.S k)) dims)).
  { by rewrite (drop_S dims d (Datatypes.S k) Hd), product_cons. }
  pose proof (product_drop_le (Datatypes.S k) dims Hpos) as Hle.
  pose proof (product_pos _ (Forall_drop _ (Datatypes.S k) _ Hpos)).
  rewrite !bind_assoc. erewrite bind_access by done. rewrite bind_assoc. erewrite bind_access by done.
  rewrite bind_assoc. erewrite bind_done by (apply int_ok; unfold INT32_MIN; lia).
  unfold set_stride. rewrite zinsert_zset by (rewrite Hlen; unfold kTransposeMaxDimensions; lia).
  cbn [access]. erewrite bind_done by reflexivity. apply IH; [lia|by rewrite zlength_zset|].
  intros j Hj. unfold zset. rewrite Nat2Z.id. destruct (decide (j = k)) as [->|Hne].
  - rewrite list_lookup_insert_eq by (unfold zlength, kTransposeMaxDimensions in Hlen; lia).
    rewrite strides_lookup by lia. f_equal. lia.
  - rewrite list_lookup_insert_ne by done. apply Hst. lia.
Qed.

Lemma SetupTransposeStrides_ok {S} dims (s : S) :
  Forall (Z.lt 0) dims -> product dims <= INT32_MAX -> (1 <= length dims <= 6)%nat ->
  exists st, SetupTransposeStrides dims (zlength dims) s = (Done st, s) /\
    (forall j, (j < length dims)%nat -> st !! j = strides dims !! j).
Proof.
  intros Hpos Hmax Hlen. unfold SetupTransposeStrides, set_stride at 1.
  rewrite zinsert_zset by (unfold stack_array; rewrite zlength_replicate; unfold zlength, kTransposeMaxDimensions; lia).
  cbn [access]. rewrite bind_ret.
  replace (zlength dims - 2) with (Z.of_nat (length dims - 1) - 1) by (unfold zlength; lia).
  apply setup_strides_loop; [done|done|by rewrite zlength_zset|lia|lia|].
  intros j Hj. assert (j = length dims - 1)%nat as -> by lia. rewrite strides_lookup by lia.
  rewrite drop_ge by lia. unfold zset. replace (Z.to_nat (zlength dims - 1)) with (length dims - 1)%nat by (unfold zlength; lia).
  rewrite list_lookup_insert_eq; [done|]. unfold stack_array, kTransposeMaxDimensions. rewrite length_replicate. lia.
Qed.

(** ** The recursion *)

Section Impl.
Context {T : Type} (perm : list Z) (data : list T) (istride ostride oshape : list Z).

(** At depth [k], [ps] are the input's strides of the dimensions that are left. *)
Lemma TransposeImpl_box ds ps k i o v : ds <> [] -> drop k oshape = ds -> length ps = length ds ->
  (forall j s, ps !! j = Some s -> exists p, perm.[Z.of_nat (k + j)] = Some p /\ istride.[p] = Some s) ->
  (forall j s, strides ds !! j = Some s -> ostride.[Z.of_nat (k + j)] = Some s) ->
  TransposeImpl (length ds) (Z.of_nat k) (Z.of_nat (k + length ds)) perm data i istride o ostride oshape v
  = for_each (box ds) (fun idx => copy_element data (i + dot idx ps) (o + dot idx (strides ds))) v.
Proof.
  revert ps k i o v. induction ds as [|d ds IH]; intros [|s ps] k i o v Hne Hds Hlen Hps Hos; try done.
  assert (Hd : oshape.[Z.of_nat k] = Some d).
  { apply zlookup_some. rewrite Nat2Z.id. assert (Hk : oshape !! k = Some d).
    { rewrite <- (Nat.add_0_r k), <- lookup_drop, Hds. done. }
    split; [|done]. apply lookup_lt_Some in Hk. unfold zlength. lia. }
  destruct (Hps 0%nat s eq_refl) as (p & Hp & His). rewrite Nat.add_0_r in Hp.
  assert (Hos0 : ostride.[Z.of_nat k] = Some (product ds)) by (rewrite <- (Nat.add_0_r k); by apply Hos).
  cbn [length TransposeImpl]. erewrite bind_access by done. rewrite for_box_cons.
  destruct (Z.eqb_spec (Z.of_nat k) (Z.of_nat (k + Datatypes.S (length ds)) - 1)) as [Hlast|Hdeep].
  - destruct ds; [|cbn in Hlast; lia]. destruct ps; [|done].
    erewrite bind_access by done. erewrite bind_access by done.
    replace i with (i + 0 * s) at 1 by lia.
    rewrite (for_fold_running (fun j => i + j * s) _ (fun j => copy_element data (i + j * s) (o + j))).
    + apply for_each_ext. intros j v' _. rewrite for_box_nil. cbn. f_equal; [f_equal|]; lia.
    + intros j v' _. unfold bind. destruct (copy_element _ _ _ v') as [[]]; [|done..].
      unfold ret. do 2 f_equal. lia.
  - replace (i, o) with (i + 0 * s, o + 0 * product ds) by (f_equal; lia).
    rewrite (for_fold_running (fun j => (i + j * s, o + j * product ds)) _ (fun j => for_each (box ds)
      (fun idx => copy_element data (i + j * s + dot idx ps) (o + j * product ds + dot idx (strides ds))))).
    + apply for_each_ext. intros j v' _. apply for_each_ext. intros idx v'' _.
      cbn [strides]. rewrite !dot_cons. f_equal; lia.
    + intros j v' _. cbn [fst snd].
      replace (Z.of_nat k + 1) with (Z.of_nat (Datatypes.S k)) by lia.
      replace (k + Datatypes.S (length ds))%nat with (Datatypes.S k + length ds)%nat by lia.
      unfold bind at 1. rewrite (IH ps).
      * unfold bind. destruct (for_each (box ds) _ v') as [[]]; [|done..].
        rewrite Hp. cbn. rewrite His. cbn. rewrite Hos0. cbn. unfold ret. do 3 f_equal; lia.
      * intros ->. cbn in Hdeep. lia.
      * replace (Datatypes.S k) with (k + 1)%nat by lia.
        rewrite <- drop_drop, Hds. done.
      * cbn in Hlen. lia.
      * intros j' s' Hj. replace (Datatypes.S k + j')%nat with (k + Datatypes.S j')%nat by lia. by apply Hps.
      * intros j' s' Hj. replace (Datatypes.S k + j')%nat with (k + Datatypes.S j')%nat by lia. by apply Hos.
Qed.
End Impl.

(** ** Permuted indices *)

Lemma zget_zrange l : zget l <$> zrange 0 (zlength l - 1) = l.
Proof.
  apply list_eq. intros k. rewrite list_lookup_fmap. destruct (decide (k < length l)%nat) as [Hk|Hk].
  - rewrite zrange_lookup by (unfold zlength; lia). cbn [fmap option_fmap option_map]. rewrite Z.add_0_l. unfold zget, zlookup.
    destruct (Z.ltb_spec (Z.of_nat k) 0); [lia|]. rewrite Nat2Z.id.
    destruct (lookup_lt_is_Some_2 l k Hk) as [x Hx]. by rewrite Hx.
  - rewrite (lookup_ge_None_2 l) by lia. rewrite lookup_ge_None_2; [done|]. rewrite length_zrange. unfold zlength. lia.
Qed.

Lemma zget_fmap (f : Z -> Z) l p : 0 <= p < zlength l -> zget (f <$> l) p = f (zget l p).
Proof.
  intros Hp. apply zlookup_in_range in Hp as [x Hx]. unfold zget. rewrite Hx. unfold zlookup in *.
  destruct (p <? 0); [done|]. by rewrite list_lookup_fmap, Hx.
Qed.

Lemma foldr_perm (f : Z -> Z -> Z) b l l' : (forall x y z, f x (f y z) = f y (f x z)) ->
  l ≡ₚ l' -> foldr f b l = foldr f b l'.
Proof. intros Hf. induction 1; cbn; congruence. Qed.

Section Permuted.
Context (perm : list Z) (n : Z) (Hperm : perm ≡ₚ zrange 0 (n - 1)).

Lemma perm_range p : p ∈ perm -> 0 <= p < n.
Proof. rewrite Hperm, elem_of_zrange. lia. Qed.

Lemma dot_permuted a b : zlength a = n -> zlength b = n -> dot (zget a <$> perm) (zget b <$> perm) = dot a b.
Proof.
  intros Ha Hb.
  assert (Hsum : forall l, dot (zget a <$> l) (zget b <$> l) = foldr Z.add 0 ((fun p => zget a p * zget b p) <$> l)).
  { intros l. induction l as [|p l IH]; [done|]. rewrite !fmap_cons, dot_cons, IH. done. }
  rewrite Hsum. transitivity (foldr Z.add 0 ((fun p => zget a p * zget b p) <$> zrange 0 (n - 1))).
  - apply foldr_perm; [lia|by apply fmap_Permutation].
  - rewrite <- Hsum. rewrite <- Ha at 1. rewrite <- Hb. by rewrite !zget_zrange.
Qed.

Lemma product_permuted a : zlength a = n -> product (zget a <$> perm) = product a.
Proof.
  intros Ha. rewrite <- (zget_zrange a) at 2. rewrite Ha. unfold product.
  apply foldr_perm; [lia|by apply fmap_Permutation].
Qed.

Lemma in_box_permuted a idx : zlength a = n -> in_box a idx -> in_box (zget a <$> perm) (zget idx <$> perm).
Proof.
  intros Ha Hb. unfold in_box. rewrite Forall2_fmap. apply Forall_Forall2_diag, Forall_forall.
  intros p Hp%perm_range. pose proof (in_box_length _ _ Hb) as Hlen.
  destruct (zlookup_in_range a p) as [x Hx]; [lia|].
  destruct (zlookup_in_range idx p) as [y Hy]; [unfold zlength in *; lia|].
  unfold zget. rewrite Hx, Hy. cbn. apply zlookup_some in Hx as [_ Hx]. apply zlookup_some in Hy as [_ Hy].
  exact (Forall2_lookup_lr _ _ _ _ _ _ Hb Hx Hy).
Qed.
End Permuted.

(** Sums grow with the indices. *)
Lemma dot_mono (a b s : list Z) : Forall2 Z.le a b -> Forall (Z.le 0) s -> dot a s <= dot b s.
Proof.
  intros Hab. revert s. induction Hab as [|x y a b Hxy Hab IH]; intros [|z s] Hs; try (cbn; lia).
  rewrite !dot_cons. apply Forall_cons in Hs as [Hz Hs]. specialize (IH s Hs). nia.
Qed.

Lemma strides_nonneg dims : Forall (Z.lt 0) dims -> Forall (Z.le 0) (strides dims).
Proof.
  induction 1 as [|d dims Hd Hds IH]; cbn; constructor; [|done]. pose proof (product_pos _ Hds). lia.
Qed.

(** The offset that the recursion reads, at any index of the output. *)
Lemma source_range perm ishape oidx : perm ≡ₚ zrange 0 (zlength ishape - 1) -> Forall (Z.lt 0) ishape ->
  in_box (zget ishape <$> perm) oidx ->
  0 <= dot oidx (zget (strides ishape) <$> perm) < product ishape.
Proof.
  intros Hperm Hpos Hb.
  assert (Hs : Forall (Z.le 0) (zget (strides ishape) <$> perm)).
  { apply Forall_fmap, Forall_forall. intros p Hp%(perm_range _ _ Hperm). unfold compose, zget.
    destruct (zlookup_in_range (strides ishape) p) as [x Hx]; [unfold zlength in *; by rewrite length_strides|].
    rewrite Hx. pose proof (strides_nonneg _ Hpos) as Hn. rewrite Forall_forall in Hn. apply Hn. by eapply zlookup_elem_of. }
  assert (Hlen : zlength (strides ishape) = zlength ishape) by (unfold zlength; by rewrite length_strides).
  split.
  - transitivity (dot (replicate (length oidx) 0) (zget (strides ishape) <$> perm)).
    + generalize (length oidx), (zget (strides ishape) <$> perm). intros m. induction m as [|m IH]; intros [|z l]; try (cbn; lia).
      cbn [replicate]. rewrite dot_cons. specialize (IH l). lia.
    + apply dot_mono; [|done]. clear -Hb. unfold in_box in Hb. induction Hb; constructor; [lia|done].
  - apply Z.le_lt_trans with (dot (zget (Z.pred <$> ishape) <$> perm) (zget (strides ishape) <$> perm)).
    + apply dot_mono; [|done].
      assert (Heq : zget (Z.pred <$> ishape) <$> perm = Z.pred <$> (zget ishape <$> perm)).
      { rewrite <- list_fmap_compose. apply list_fmap_ext. intros ? p Hp%list_elem_of_lookup_2%(perm_range _ _ Hperm).
        by apply zget_fmap. }
      rewrite Heq. unfold in_box in Hb. clear -Hb. induction Hb; [constructor|]. rewrite fmap_cons. constructor; [lia|done].
    + rewrite (dot_permuted perm (zlength ishape)) by (done || unfold zlength; by rewrite ?length_fmap, ?length_strides).
      rewrite dot_strides by (by rewrite length_fmap). apply row_major_range.
      clear -Hpos. unfold in_box. induction Hpos; [constructor|]. rewrite fmap_cons. constructor; [lia|done].
Qed.

(** C26. Transposition by the recursion over strides copies every element of a tensor of up to six dimensions
    to the position of its permuted index, with every access in range. *)
Theorem Transpose_permutes {T} (perm ishape : list Z) (data out : list T) :
  let oshape := zget ishape <$> perm in
  perm ≡ₚ zrange 0 (zlength ishape - 1) -> 1 <= zlength ishape <= kTransposeMaxDimensions ->
  Forall (Z.lt 0) ishape -> product ishape <= INT32_MAX ->
  zlength data = product ishape -> zlength out = product ishape ->
  exists out', Transpose perm ishape data oshape out = (Done tt, out') /\ zlength out' = product ishape /\
    forall idx, in_box ishape idx ->
      out'.[row_major oshape (zget idx <$> perm)] = data.[row_major ishape idx].
Proof.
  intros oshape Hperm Hlen Hpos Hmax Hdata Hout.
  assert (Hn : length perm = length ishape) by (rewrite Hperm, length_zrange; unfold zlength; lia).
  assert (Hopos : Forall (Z.lt 0) oshape).
  { apply Forall_fmap, Forall_forall. intros p Hp%(perm_range _ _ Hperm). unfold compose, zget.
    destruct (zlookup_in_range ishape p Hp) as [x Hx]. rewrite Hx. rewrite Forall_forall in Hpos.
    by apply Hpos, (zlookup_elem_of ishape p). }
  assert (Hoprod : product oshape = product ishape) by (by apply (product_permuted perm (zlength ishape))).
  assert (Holen : length oshape = length ishape) by (unfold oshape; by rewrite length_fmap).
  unfold kTransposeMaxDimensions, zlength in Hlen.
  destruct (SetupTransposeStrides_ok ishape out) as (ist & Hist & Hi); [done..|lia|].
  destruct (SetupTransposeStrides_ok oshape out) as (ost & Host & Ho); [done|lia..|].
  set (ps := zget (strides ishape) <$> perm).
  destruct (for_each_copies (row_major oshape) (fun oidx => dot oidx ps) (box oshape) data
    (fun idx => copy_element data (0 + dot idx ps) (0 + dot idx (strides oshape))) out) as (out' & Hrun & Hlen' & Hmoved & _).
  - intros idx v' Hx%elem_of_box. by rewrite dot_strides by (by apply in_box_length).
  - intros idx Hx%elem_of_box. rewrite Hout, <- Hoprod. by apply row_major_range.
  - intros idx Hx%elem_of_box. rewrite Hdata. by apply source_range.
  - intros i j Hi'%elem_of_box Hj%elem_of_box Heq. f_equal. by apply row_major_inj in Heq.
  - exists out'. split_and!; [|by rewrite Hlen'|].
    + unfold Transpose, DimensionsCount. erewrite bind_done by done.
      replace (zlength ishape) with (zlength oshape) by (unfold zlength; lia). erewrite bind_done by done.
      rewrite <- Hrun. replace (Z.to_nat (zlength oshape)) with (length oshape) by (unfold zlength; lia).
      apply (TransposeImpl_box perm data ist ost oshape oshape ps 0).
      * intros Hnil. rewrite Hnil in Holen. cbn in Holen. lia.
      * done.
      * unfold ps. rewrite length_fmap. lia.
      * intros j s Hj. unfold ps in Hj. rewrite list_lookup_fmap in Hj. destruct (perm !! j) as [p|] eqn:Hp; [|done].
        injection Hj as <-. exists p. pose proof (lookup_lt_Some _ _ _ Hp). split.
        { apply zlookup_some. unfold zlength. split; [lia|]. by rewrite Nat2Z.id. }
        pose proof (perm_range _ _ Hperm p (list_elem_of_lookup_2 _ _ _ Hp)) as Hr. unfold zlength in Hr.
        pose proof (Hi (Z.to_nat p) ltac:(lia)) as Hst. rewrite strides_lookup in Hst by lia.
        unfold zget, zlookup. destruct (Z.ltb_spec p 0); [lia|]. by rewrite Hst, strides_lookup by lia.
      * intros j s Hj. pose proof (lookup_lt_Some _ _ _ Hj) as Hlt. rewrite length_strides in Hlt.
        rewrite <- (Ho j Hlt) in Hj. cbn. unfold zlookup. destruct (Z.ltb_spec (Z.of_nat j) 0); [lia|]. by rewrite Nat2Z.id.
    + intros idx Hb. rewrite Hmoved.
      * f_equal. unfold ps. pose proof (in_box_length _ _ Hb).
        rewrite (dot_permuted perm (zlength ishape)) by (done || unfold zlength; rewrite ?length_strides; lia).
        by apply dot_strides.
      * by apply elem_of_box, (in_box_permuted perm (zlength ishape)).
Qed.

Lemma Transpose_permutes_witness :
  Transpose [1; 0] [2; 3] [1; 2; 3; 4; 5; 6] [3; 2] (replicate 6 0) = (Done tt, [1; 4; 2; 5; 3; 6]) /\
  exists out', Transpose [1; 0] [2; 3] [1; 2; 3; 4; 5; 6] [3; 2] (replicate 6 0) = (Done tt, out') /\
    zlength out' = 6 /\ forall idx, in_box [2; 3] idx ->
      out'.[row_major [3; 2] (zget idx <$> [1; 0])] = [1; 2; 3; 4; 5; 6].[row_major [2; 3] idx].
Proof.
  refine (conj _ (Transpose_permutes [1; 0] [2; 3] [1; 2; 3; 4; 5; 6] (replicate 6 0) _ _ _ _ _ _)).
  - reflexivity.
  - apply perm_swap.
  - vm_compute. split; discriminate.
  - repeat constructor.
  - vm_compute. discriminate.
  - reflexivity.
  - reflexivity.
Defined.
