(* ===== verification/KernelBroadcast.v ===== *)
(** * Broadcasting (kernels/internal/common.h, kernels/internal/reference/{add.h, mul.h},
    kernels/kernel_util.cc)

    An element-wise operator on tensors of different shapes.  Additions compress the dimensions
    first ([ReduceDimensionsForBroadcast]) and run over what is left, the fastest dimension in an
    inner loop; multiplications run over the dimensions as they are, with strides of zero.  Both
    are modelled on [int32_t], whose sums and products must fit.  [CalculateShapeForBroadcast] is
    the shape that both produce. *)
From S2P Require Import Prelude Shape.

(** [std::max] and [std::min] around a value. *)
Definition ActivationFunctionWithMinMax (x output_activation_min output_activation_max : Z) : Z :=
  Z.min (Z.max x output_activation_min) output_activation_max.

(** ** The shape of the output *)

(** [SizeOfDimension(input, dims - i - 1)], or 1 past the first dimension. *)
Definition size_from_last {S} (shape : RuntimeShape) (i : Z) : M S Z :=
  if DimensionsCount shape <=? i then ret 1 else access (shape.[DimensionsCount shape - i - 1]).

Definition CalculateShapeForBroadcast {S} (input1 input2 : RuntimeShape) : M S RuntimeShape :=
  let out_dims := Z.max (DimensionsCount input1) (DimensionsCount input2) in
  for_fold (zrange 0 (out_dims - 1)) (replicate (Z.to_nat out_dims) 0) (fun shape i =>
    let* d1 := size_from_last input1 i in
    let* d2 := size_from_last input2 i in
    ensure ((d1 =? d2) || (d1 =? 1) || (d2 =? 1)) ;;;
    access (zinsert shape (out_dims - i - 1) (if (d1 =? 0) || (d2 =? 0) then 0 else Z.max d1 d2))).

(** ** Compressing dimensions *)

Definition MAX_DIM : Z := 6.

(** The local variables of the loops. *)
Record reduction := mkReduction {
  num_compressed_dims : Z;
  compressed_input1_shape : list Z;
  compressed_input2_shape : list Z;
  compressed_output_shape : list Z;
  broadcast_input1 : bool;
  broadcast_input2 : bool;
  first_nonunit : bool }.

Definition reduction_start : reduction :=
  let ones := replicate (Z.to_nat MAX_DIM) 1 in mkReduction 0 ones ones ones false false true.

(** [array[i] *= x] on numbers of type [size_t]. *)
Definition times_at {S} (array : list Z) (i x : Z) : M S (list Z) :=
  let* v := access (array.[i]) in access (zinsert array i (size_wrap (v * x))).

(** The dimension of either input joins the last of the compressed ones, or starts a new one. *)
Definition reduce_input1_is_1 {S} (input2_dim : Z) (r : reduction) : M S reduction :=
  let n := if broadcast_input1 r then num_compressed_dims r else num_compressed_dims r + 1 in
  let* c2 := times_at (compressed_input2_shape r) (n - 1) input2_dim in
  let* co := times_at (compressed_output_shape r) (n - 1) input2_dim in
  ret (mkReduction n (compressed_input1_shape r) c2 co true (if broadcast_input1 r then broadcast_input2 r else false) false).

Definition reduce_input2_is_1 {S} (input1_dim : Z) (r : reduction) : M S reduction :=
  let n := if broadcast_input2 r then num_compressed_dims r else num_compressed_dims r + 1 in
  let* c1 := times_at (compressed_input1_shape r) (n - 1) input1_dim in
  let* co := times_at (compressed_output_shape r) (n - 1) input1_dim in
  ret (mkReduction n c1 (compressed_input2_shape r) co (if broadcast_input2 r then broadcast_input1 r else false) true false).

Definition reduce_equal {S} (input1_dim : Z) (r : reduction) : M S reduction :=
  let fresh := broadcast_input1 r || broadcast_input2 r || first_nonunit r in
  let n := if fresh then num_compressed_dims r + 1 else num_compressed_dims r in
  let* c1 := times_at (compressed_input1_shape r) (n - 1) input1_dim in
  let* c2 := times_at (compressed_input2_shape r) (n - 1) input1_dim in
  let* co := times_at (compressed_output_shape r) (n - 1) input1_dim in
  ret (mkReduction n c1 c2 co (if fresh then false else broadcast_input1 r) (if fresh then false else broadcast_input2 r) false).

(** One iteration over the common dimensions; [None] is the early [return false]. *)
Definition reduce_common {S} (input1_shape input2_shape : RuntimeShape) (i : Z) (r : reduction) : M S (option reduction) :=
  let* d1 := access (input1_shape.[DimensionsCount input1_shape - i]) in
  let* d2 := access (input2_shape.[DimensionsCount input2_shape - i]) in
  let input1_dim := size_wrap d1 in
  let input2_dim := size_wrap d2 in
  if (input1_dim =? 0) || (input2_dim =? 0) then ret None
  else if (input1_dim =? 1) && (input2_dim =? 1) then ret (Some r)
  else if input1_dim =? 1 then let* r := reduce_input1_is_1 input2_dim r in ret (Some r)
  else if input2_dim =? 1 then let* r := reduce_input2_is_1 input1_dim r in ret (Some r)
  else let* r := reduce_equal input1_dim r in ret (Some r).

(** The loops go on where they have not returned. *)
Definition unless_returned {S X} (body : X -> M S (option X)) (r : option X) : M S (option X) :=
  match r with Some r => body r | None => ret None end.

(** The dimensions that only the longer input has. *)
Definition reduce_extra {S} (input_shape : RuntimeShape) (first_is_longer : bool) (i : Z) (r : reduction)
    : M S (option reduction) :=
  let* d := access (input_shape.[i]) in
  let input_dim := size_wrap d in
  if input_dim =? 0 then ret None
  else
    let n := num_compressed_dims r in
    if first_is_longer then
      let* c1 := times_at (compressed_input1_shape r) (n - 1) input_dim in
      let* co := times_at (compressed_output_shape r) (n - 1) input_dim in
      ret (Some (mkReduction n c1 (compressed_input2_shape r) co (broadcast_input1 r) (broadcast_input2 r) (first_nonunit r)))
    else
      let* c2 := times_at (compressed_input2_shape r) (n - 1) input_dim in
      let* co := times_at (compressed_output_shape r) (n - 1) input_dim in
      ret (Some (mkReduction n (compressed_input1_shape r) c2 co (broadcast_input1 r) (broadcast_input2 r) (first_nonunit r))).

Definition new_dimension (r : reduction) : reduction :=
  mkReduction (num_compressed_dims r + 1) (compressed_input1_shape r) (compressed_input2_shape r)
    (compressed_output_shape r) (broadcast_input1 r) (broadcast_input2 r) (first_nonunit r).

(** [compressed_stride[i] = stride; stride *= shape[i]], the stride an [int]. *)
Fixpoint compressed_strides (stride : Z) (shape : list Z) : list Z :=
  match shape with
  | [] => []
  | d :: shape' => size_wrap stride :: compressed_strides (int32_wrap (size_wrap (size_wrap stride * d))) shape'
  end.

(** The stride of an input along a dimension that it is repeated in. *)
Fixpoint zero_strides (stride1 stride2 shape1 shape2 : list Z) : list Z * list Z :=
  match stride1, stride2, shape1, shape2 with
  | s1 :: stride1', s2 :: stride2', d1 :: shape1', d2 :: shape2' =>
    let '(t1, t2) := zero_strides stride1' stride2' shape1' shape2' in
    if d1 =? d2 then (s1 :: t1, s2 :: t2) else if d1 =? 1 then (0 :: t1, s2 :: t2) else (s1 :: t1, 0 :: t2)
  | _, _, _, _ => ([], [])
  end.

(** The strides of the inputs and the shape of the output, the fastest dimension first, or [None]
    for a tensor without elements. *)
Definition ReduceDimensionsForBroadcast {S} (input1_shape input2_shape : RuntimeShape)
    : M S (option (list Z * list Z * list Z)) :=
  let num_input1_dims := DimensionsCount input1_shape in
  let num_input2_dims := DimensionsCount input2_shape in
  let num_common_dims := Z.min num_input1_dims num_input2_dims in
  let* r := for_fold (zrange 1 num_common_dims) (Some reduction_start)
    (fun r i => unless_returned (reduce_common input1_shape input2_shape i) r) in
  let* r :=
    if num_input2_dims <? num_input1_dims then
      let r := (fun r => if broadcast_input2 r then r else new_dimension r) <$> r in
      for_fold (zrange 0 (num_input1_dims - num_input2_dims - 1)) r
        (fun r i => unless_returned (reduce_extra input1_shape true i) r)
    else if num_input1_dims <? num_input2_dims then
      let r := (fun r => if broadcast_input1 r then r else new_dimension r) <$> r in
      for_fold (zrange 0 (num_input2_dims - num_input1_dims - 1)) r
        (fun r i => unless_returned (reduce_extra input2_shape false i) r)
    else ret r in
  ret (match r with
  | None => None
  | Some r =>
    let '(stride1, stride2) := zero_strides
      (compressed_strides 1 (compressed_input1_shape r)) (compressed_strides 1 (compressed_input2_shape r))
      (compressed_input1_shape r) (compressed_input2_shape r) in
    Some (stride1, stride2, compressed_output_shape r)
  end).

(** ** Addition *)

Section Kernels.
Context (activation_min activation_max : Z) (input1_data input2_data : list Z).

(** [input_data[c] + broadcast_data[0]] for [size] elements, from the pointers given as offsets. *)
Definition add_element (a b : option Z) (o : Z) : M (list Z) unit :=
  let* x := access a in
  let* y := access b in
  let* sum := int_ (x + y) in
  store_at o (ActivationFunctionWithMinMax sum activation_min activation_max).

Definition AddBroadcast (input_data : list Z) (input : Z) (broadcast_data : list Z) (broadcast output size : Z) : M (list Z) unit :=
  for_int size (fun c => add_element (input_data.[input + c]) (broadcast_data.[broadcast]) (output + c)).

Definition AddElementwise (input1 input2 output size : Z) : M (list Z) unit :=
  for_int size (fun c => add_element (input1_data.[input1 + c]) (input2_data.[input2 + c]) (output + c)).

(** The offsets are passed by reference; the result is what they are afterwards. *)
Fixpoint BroadcastAddRecursiveDimensions (dimension : nat) (offsets : Z * Z * Z)
    (compressed_input1_stride compressed_input2_stride compressed_output_shape : list Z) : M (list Z) (Z * Z * Z) :=
  let '(input1_offset, input2_offset, output_offset) := offsets in
  let* size := access (compressed_output_shape.[Z.of_nat dimension]) in
  let* stride1 := access (compressed_input1_stride.[Z.of_nat dimension]) in
  let* stride2 := access (compressed_input2_stride.[Z.of_nat dimension]) in
  match dimension with
  | S d =>
    for_fold (zrange 0 (size - 1)) offsets (fun offsets _ =>
      let '(input1_offset, input2_offset, output_offset) := offsets in
      let* after := BroadcastAddRecursiveDimensions d offsets
        compressed_input1_stride compressed_input2_stride compressed_output_shape in
      ret (size_wrap (input1_offset + stride1), size_wrap (input2_offset + stride2), snd after))
  | O =>
    if stride1 =? 0 then
      AddBroadcast input2_data input2_offset input1_data input1_offset output_offset size ;;;
      ret (input1_offset, size_wrap (input2_offset + size), size_wrap (output_offset + size))
    else if stride2 =? 0 then
      AddBroadcast input1_data input1_offset input2_data input2_offset output_offset size ;;;
      ret (size_wrap (input1_offset + size), input2_offset, size_wrap (output_offset + size))
    else
      AddElementwise input1_offset input2_offset output_offset size ;;;
      ret (size_wrap (input1_offset + size), size_wrap (input2_offset + size), size_wrap (output_offset + size))
  end.

Definition BroadcastAdd6DSlow (input1_shape input2_shape : RuntimeShape) : M (list Z) unit :=
  let* r := ReduceDimensionsForBroadcast input1_shape input2_shape in
  match r with
  | None => ret tt
  | Some (stride1, stride2, output_shape) =>
    BroadcastAddRecursiveDimensions (Z.to_nat (MAX_DIM - 1)) (0, 0, 0) stride1 stride2 output_shape ;;; ret tt
  end.

(** ** Multiplication *)

(** [NdArrayDesc<N>]: the extents and the strides, and [CopyDimsToDesc]. *)
Record NdArrayDesc := mkNdArrayDesc { extents : list Z; nd_strides : list Z }.

Definition CopyDimsToDesc {S} (shape : RuntimeShape) : M S NdArrayDesc :=
  let* desc := for_fold (reverse shape) ([], 1) (fun desc d =>
    let '(strides, desc_stride) := desc in
    let* next := int_ (desc_stride * d) in
    ret (desc_stride :: strides, next)) in
  ret (mkNdArrayDesc shape (fst desc)).

(** The extents and strides of both inputs, dimension by dimension. *)
Fixpoint broadcast_descs (dims0 dims1 strides0 strides1 : list Z) : list Z * list Z * list Z * list Z :=
  match dims0, dims1, strides0, strides1 with
  | extent0 :: dims0, extent1 :: dims1, s0 :: strides0, s1 :: strides1 =>
    let '(e0, e1, t0, t1) := broadcast_descs dims0 dims1 strides0 strides1 in
    if extent0 =? extent1 then (extent0 :: e0, extent1 :: e1, s0 :: t0, s1 :: t1)
    else if extent0 =? 1 then (extent1 :: e0, extent1 :: e1, 0 :: t0, s1 :: t1)
    else (extent0 :: e0, extent0 :: e1, s0 :: t0, 0 :: t1)
  | _, _, _, _ => ([], [], [], [])
  end.

Definition NdArrayDescsForElementwiseBroadcast {S} (N : Z) (input0_shape input1_shape : RuntimeShape)
    : M S (NdArrayDesc * NdArrayDesc) :=
  let* extended_input0_shape := ExtendedShape N input0_shape in
  let* extended_input1_shape := ExtendedShape N input1_shape in
  let* desc0 := CopyDimsToDesc extended_input0_shape in
  let* desc1 := CopyDimsToDesc extended_input1_shape in
  let '(e0, e1, t0, t1) := broadcast_descs extended_input0_shape extended_input1_shape (nd_strides desc0) (nd_strides desc1) in
  ret (mkNdArrayDesc e0 t0, mkNdArrayDesc e1 t1).

Definition kMaxMulBroadcastDim : Z := 6.

(** [binary_func], on numbers of type [int32_t]. *)
Definition multiply_element (a b : option Z) (o : Z) : M (list Z) unit :=
  let* x := access a in
  let* y := access b in
  let* prod := int_ (x * y) in
  store_at o (ActivationFunctionWithMinMax prod activation_min activation_max).

(** The dimensions from [dimension] on, of the strides and of the output. *)
Fixpoint BroadcastMulRecursiveDimensions (dims strides1 strides2 : list Z) (offsets : Z * Z * Z) : M (list Z) (Z * Z * Z) :=
  match dims, strides1, strides2 with
  | [size], stride1 :: _, stride2 :: _ =>
    for_fold (zrange 0 (size - 1)) offsets (fun offsets _ =>
      let '(input1_offset, input2_offset, output_offset) := offsets in
      multiply_element (input1_data.[input1_offset]) (input2_data.[input2_offset]) output_offset ;;;
      ret (size_wrap (input1_offset + stride1), size_wrap (input2_offset + stride2), size_wrap (output_offset + 1)))
  | size :: dims, stride1 :: strides1, stride2 :: strides2 =>
    for_fold (zrange 0 (size - 1)) offsets (fun offsets _ =>
      let '(input1_offset, input2_offset, output_offset) := offsets in
      let* after := BroadcastMulRecursiveDimensions dims strides1 strides2 offsets in
      ret (size_wrap (input1_offset + stride1), size_wrap (input2_offset + stride2), snd after))
  | _, _, _ => undef
  end.

Definition BroadcastMul6DSlow (input1_shape input2_shape output_shape : RuntimeShape) : M (list Z) unit :=
  let* descs := NdArrayDescsForElementwiseBroadcast kMaxMulBroadcastDim input1_shape input2_shape in
  let '(desc1, desc2) := descs in
  let* extended_output_shape := ExtendedShape kMaxMulBroadcastDim output_shape in
  BroadcastMulRecursiveDimensions extended_output_shape (nd_strides desc1) (nd_strides desc2) (0, 0, 0) ;;; ret tt.
End Kernels.

Example add_compressed : BroadcastAdd6DSlow (-100) 100 [1; 2; 3; 4; 5; 6] [10; 20; 30] [2; 3] [3] (replicate 6 0)
  = (Done tt, [11; 22; 33; 14; 25; 36]).
Proof. reflexivity. Qed.

Example add_outer : BroadcastAdd6DSlow (-100) 100 [1; 2; 3] [10; 20] [3; 1; 1] [2] (replicate 6 0)
  = (Done tt, [11; 21; 12; 22; 13; 23]).
Proof. reflexivity. Qed.

Example multiply_rows : BroadcastMul6DSlow (-100) 100 [1; 2; 3; 4] [10; 20] [2; 2] [2; 1] [2; 2] (replicate 4 0)
  = (Done tt, [10; 20; 60; 80]).
Proof. reflexivity. Qed.
