(* ===== verification/BroadcastReduce.v ===== *)
(** * Compressing the dimensions of a broadcast

    What a broadcast kernel runs through is a list of pairs of offsets, one for each element of the
    output in order.  [ReduceDimensionsForBroadcast] merges dimensions and leaves that list as it is. *)
From S2P Require Import Prelude Shape KernelBroadcast.

(** ** Offsets *)

(** Dimensions with the strides of both inputs, the fastest first. *)
Fixpoint soffs (l : list (Z * Z * Z)) : list (Z * Z) :=
  match l with
  | [] => [(0, 0)]
  | (d, t1, t2) :: l => ab ← soffs l; (fun i => (fst ab + i * t1, snd ab + i * t2)) <$> zrange 0 (d - 1)
  end.

(** The dimension and the strides of two inputs that are broadcast against each other. *)
Definition bdim (p : Z * Z) : Z := if fst p =? 1 then snd p else fst p.
Definition bstride (d other s : Z) : Z := if (d =? 1) && negb (other =? 1) then 0 else s.

Fixpoint annot (ds : list (Z * Z)) (s1 s2 : Z) : list (Z * Z * Z) :=
  match ds with
  | [] => []
  | (d1, d2) :: ds => (bdim (d1, d2), bstride d1 d2 s1, bstride d2 d1 s2) :: annot ds (s1 * d1) (s2 * d2)
  end.

Definition shift (x y : Z) (ab : Z * Z) : Z * Z := (x + fst ab, y + snd ab).

Lemma list_bind_assoc {A B C} (l : list A) (f : A -> list B) (g : B -> list C) :
  (l ≫= f) ≫= g = l ≫= (fun x => f x ≫= g).
Proof. induction l as [|x l IH]; [done|]. cbn. by rewrite bind_app, IH. Qed.

Lemma list_bind_fmap {A B C} (l : list A) (f : A -> B) (g : B -> list C) : (f <$> l) ≫= g = l ≫= (fun x => g (f x)).
Proof. induction l as [|x l IH]; [done|]. cbn. by rewrite IH. Qed.

Lemma list_fmap_bind {A B C} (l : list A) (f : A -> list B) (g : B -> C) : g <$> (l ≫= f) = l ≫= (fun x => g <$> f x).
Proof. induction l as [|x l IH]; [done|]. cbn. by rewrite fmap_app, IH. Qed.

Lemma list_bind_ext' {A B} (l : list A) (f g : A -> list B) : (forall x, x ∈ l -> f x = g x) -> l ≫= f = l ≫= g.
Proof. induction l as [|x l IH]; intros H; [done|]. cbn. rewrite H, IH by set_solver. done. Qed.

Lemma list_fmap_ext' {A B} (l : list A) (f g : A -> B) : (forall x, x ∈ l -> f x = g x) -> f <$> l = g <$> l.
Proof. induction l as [|x l IH]; intros H; [done|]. cbn. rewrite H, IH by set_solver. done. Qed.

(** The slowest dimension is the outermost loop. *)
Lemma soffs_snoc l d t1 t2 :
  soffs (l ++ [(d, t1, t2)]) = i ← zrange 0 (d - 1); shift (i * t1) (i * t2) <$> soffs l.
Proof.
  induction l as [|[[e u1] u2] l IH].
  - cbn. rewrite app_nil_r. induction (zrange 0 (d - 1)) as [|i r IHr]; [done|]. cbn. rewrite IHr. f_equal. unfold shift. cbn. f_equal; lia.
  - cbn [soffs app]. rewrite IH, list_bind_assoc. apply list_bind_ext'. intros i _.
    rewrite list_bind_fmap, list_fmap_bind. apply list_bind_ext'. intros ab _.
    rewrite <- list_fmap_compose. apply list_fmap_ext'. intros j _. unfold shift, compose. cbn. f_equal; lia.
Qed.

Lemma annot_app ds es s1 s2 :
  annot (ds ++ es) s1 s2 = annot ds s1 s2 ++ annot es (s1 * product (fst <$> ds)) (s2 * product (snd <$> ds)).
Proof.
  revert s1 s2. induction ds as [|[d1 d2] ds IH]; intros s1 s2; cbn [annot app].
  - cbn. by rewrite !Z.mul_1_r.
  - rewrite IH, !fmap_cons, !product_cons. cbn. by rewrite !Z.mul_assoc.
Qed.

(** ** Compressing dimensions *)

(** Two lists of dimensions that give the same offsets, whatever is slower. *)
Definition same_offsets (ds ds' : list (Z * Z)) : Prop :=
  forall rest s1 s2, soffs (annot (ds ++ rest) s1 s2) = soffs (annot (ds' ++ rest) s1 s2).

#[export] Instance same_offsets_equiv : Equivalence same_offsets.
Proof.
  split; [done|intros ? ? H r ? ?; symmetry; apply H|intros ? ? ? H H' r ? ?; rewrite H; apply H'].
Qed.

Lemma same_offsets_cons x ds ds' : same_offsets ds ds' -> same_offsets (x :: ds) (x :: ds').
Proof. intros H rest s1 s2. destruct x as [d1 d2]. cbn. by rewrite H. Qed.

Lemma same_offsets_prefix l ds ds' : same_offsets ds ds' -> same_offsets (l ++ ds) (l ++ ds').
Proof. intros H. induction l as [|x l IH]; [done|]. by apply same_offsets_cons. Qed.

Lemma same_offsets_suffix l ds ds' : same_offsets ds ds' -> same_offsets (ds ++ l) (ds' ++ l).
Proof. intros H rest s1 s2. rewrite <- !app_assoc. apply H. Qed.

Lemma same_offsets_unit ds : same_offsets ((1, 1) :: ds) ds.
Proof.
  intros rest s1 s2. cbn. rewrite !Z.mul_1_r. generalize (soffs (annot (ds ++ rest) s1 s2)). intros l.
  induction l as [|[a b] l IH]; [done|]. rewrite bind_cons, IH. change (zrange 0 (1 - 1)) with [0]. cbn. f_equal. f_equal; lia.
Qed.

(** Which dimensions can be one: both inputs have them, or only the second, or only the first. *)
Definition mergeable (x y : Z * Z) : Prop :=
  (fst x = snd x /\ fst y = snd y) \/ (fst x = 1 /\ fst y = 1) \/ (snd x = 1 /\ snd y = 1).
Definition positive (x : Z * Z) : Prop := 0 < fst x /\ 0 < snd x.
Definition merge (x y : Z * Z) : Z * Z := (fst x * fst y, snd x * snd y).

Lemma bstride_same d s : bstride d d s = s.
Proof. unfold bstride. by destruct (d =? 1). Qed.

Lemma bstride_other d s : bstride d 1 s = s.
Proof. unfold bstride. by destruct (d =? 1). Qed.

Lemma bstride_repeated d s i : 0 <= i < d -> i * bstride 1 d s = 0.
Proof. unfold bstride. intros Hi. destruct (Z.eqb_spec d 1); cbn; [|lia]. assert (i = 0) as -> by lia. lia. Qed.

Lemma bdim_same d : bdim (d, d) = d.
Proof. unfold bdim. cbn. by destruct (Z.eqb_spec d 1). Qed.

Lemma bdim_other d : bdim (d, 1) = d.
Proof. unfold bdim. cbn. by destruct (Z.eqb_spec d 1). Qed.

Lemma merge_offset d1 d2 e1 e2 s i j : mergeable (d1, d2) (e1, e2) -> positive (d1, d2) -> positive (e1, e2) ->
  0 <= i < bdim (d1, d2) -> 0 <= j < bdim (e1, e2) ->
  j * bstride e1 e2 (s * d1) + i * bstride d1 d2 s = (j * bdim (d1, d2) + i) * bstride (d1 * e1) (d2 * e2) s /\
  j * bstride e2 e1 (s * d2) + i * bstride d2 d1 s = (j * bdim (d1, d2) + i) * bstride (d2 * e2) (d1 * e1) s.
Proof.
  intros [[Hd He]|[[Hd He]|[Hd He]]] [? ?] [? ?] Hi Hj; cbn in *; subst.
  - rewrite bdim_same in *. rewrite !bstride_same. split; ring.
  - change (bdim (1, d2)) with d2 in *. change (bdim (1, e2)) with e2 in *. rewrite !bstride_other.
    rewrite !bstride_repeated by nia. split; ring.
  - rewrite bdim_other in *. rewrite !bstride_other. rewrite !bstride_repeated by nia. split; ring.
Qed.

Lemma bdim_merge x y : mergeable x y -> positive x -> positive y -> bdim (merge x y) = bdim x * bdim y.
Proof.
  destruct x as [d1 d2], y as [e1 e2]. unfold mergeable, positive, bdim, merge. cbn. intros Hm [? ?] [? ?].
  destruct (Z.eqb_spec d1 1), (Z.eqb_spec e1 1), (Z.eqb_spec (d1 * e1) 1); subst; nia.
Qed.

Lemma same_offsets_merge x y ds : mergeable x y -> positive x -> positive y ->
  same_offsets (x :: y :: ds) (merge x y :: ds).
Proof.
  intros Hm Hx Hy rest s1 s2. destruct x as [d1 d2], y as [e1 e2]. pose proof (bdim_merge _ _ Hm Hx Hy) as Hd.
  unfold merge in *. cbn [fst snd app annot soffs] in *. rewrite !Z.mul_assoc, list_bind_assoc.
  apply list_bind_ext'. intros ab _. rewrite list_bind_fmap, Hd.
  assert (Hb : 0 <= bdim (d1, d2) /\ 0 <= bdim (e1, e2)).
  { destruct Hx, Hy. cbn in *. unfold bdim. cbn. split; case_match; lia. }
  rewrite <- zrange_product, list_fmap_bind by tauto. apply list_bind_ext'. intros j Hj%elem_of_zrange.
  rewrite <- list_fmap_compose. apply list_fmap_ext'. intros i Hi%elem_of_zrange. unfold compose. cbn.
  destruct (merge_offset d1 d2 e1 e2 s1 i j) as [H1 _]; [done..|lia|lia|].
  destruct (merge_offset d1 d2 e1 e2 s2 i j) as [_ H2]; [done..|lia|lia|]. f_equal; lia.
Qed.

(** ** The arrays of the reduction *)

(** The arrays hold a value for each compressed dimension, and ones behind. *)
Definition padded (f : Z * Z -> Z) (segs : list (Z * Z)) : list Z := (f <$> segs) ++ replicate (6 - length segs) 1.

(** A dimension joins the last compressed one, or is a new one. *)
Definition grows (segs : list (Z * Z)) (p : Z * Z) (segs' : list (Z * Z)) : Prop :=
  (exists pre x, segs = pre ++ [x] /\ segs' = pre ++ [merge x p] /\ mergeable x p) \/ segs' = segs ++ [p].

(** What is kept of the dimensions multiplies. *)
Definition multiplies (f : Z * Z -> Z) : Prop :=
  forall x p, mergeable x p -> positive x -> positive p -> f (merge x p) = f x * f p.

Lemma multiplies_fst : multiplies fst.
Proof. by intros [] []. Qed.
Lemma multiplies_snd : multiplies snd.
Proof. by intros [] []. Qed.
Lemma multiplies_bdim : multiplies bdim.
Proof. intros x p. apply bdim_merge. Qed.

Lemma positive_merge x p : positive x -> positive p -> positive (merge x p).
Proof. destruct x, p. unfold positive. cbn. nia. Qed.

Section Grows.
Context (segs : list (Z * Z)) (p : Z * Z) (segs' : list (Z * Z)).
Context (Hgrows : grows segs p segs') (Hsegs : Forall positive segs) (Hp : positive p).

Lemma grows_positive : Forall positive segs'.
Proof.
  destruct Hgrows as [(pre & x & -> & -> & Hm)| ->]; [|by apply Forall_app_2; [|constructor]].
  apply Forall_app in Hsegs as [Hpre Hx]. apply Forall_inv in Hx. apply Forall_app. split; [done|].
  constructor; [by apply positive_merge|constructor].
Qed.

Lemma grows_offsets : same_offsets (segs ++ [p]) segs'.
Proof.
  destruct Hgrows as [(pre & x & -> & -> & Hm)| ->]; [|reflexivity].
  rewrite <- app_assoc. apply same_offsets_prefix. apply Forall_app in Hsegs as [_ Hx]. apply Forall_inv in Hx.
  by apply same_offsets_merge.
Qed.

Lemma grows_product f : multiplies f -> product (f <$> segs') = product (f <$> segs) * f p.
Proof.
  intros Hf. destruct Hgrows as [(pre & x & -> & -> & Hm)| ->]; rewrite !fmap_app, !product_app; cbn.
  - apply Forall_app in Hsegs as [_ Hx]. apply Forall_inv in Hx. rewrite Hf by done. lia.
  - lia.
Qed.

Lemma grows_length : (length segs' <= Datatypes.S (length segs))%nat /\ 1 <= zlength segs'.
Proof.
  unfold zlength. destruct Hgrows as [(pre & x & -> & -> & Hm)| ->]; rewrite !length_app; cbn; lia.
Qed.

(** [array[num_compressed_dims - 1] *= f p]. *)
Lemma times_at_grows {S} f (s : S) : multiplies f -> (length segs' <= 6)%nat -> 0 <= f p ->
  Forall (fun x => 0 <= f x <= SIZE_MAX) segs' ->
  times_at (padded f segs) (zlength segs' - 1) (f p) s = (Done (padded f segs'), s).
Proof.
  intros Hf Hlen Hfp Hbound. unfold times_at, padded, zlength.
  assert (Hat : forall pre v post, zlookup (pre ++ v :: post) (Z.of_nat (length pre)) = Some (v : Z) /\
    forall y, zinsert (pre ++ v :: post) (Z.of_nat (length pre)) y = Some (pre ++ y :: post)).
  { intros pre v post. split.
    - unfold zlookup. destruct (Z.ltb_spec (Z.of_nat (length pre)) 0); [lia|]. rewrite Nat2Z.id. by apply list_lookup_middle.
    - intros y. unfold zinsert. rewrite length_app. cbn [length].
      destruct (Z.ltb_spec (Z.of_nat (length pre)) 0), (Z.leb_spec (Z.of_nat (length pre + Datatypes.S (length post))) (Z.of_nat (length pre))); try lia.
      cbn. rewrite Nat2Z.id. by rewrite insert_app_r_alt, Nat.sub_diag by lia. }
  destruct Hgrows as [(pre & x & -> & -> & Hm)| ->].
  - apply Forall_app in Hsegs as [_ Hx]. apply Forall_inv in Hx.
    apply Forall_app in Hbound as [_ Hb]. apply Forall_inv in Hb.
    rewrite !fmap_app, !length_app. cbn [fmap list_fmap length]. rewrite <- !app_assoc. cbn [app].
    replace (Z.of_nat (length pre + 1) - 1) with (Z.of_nat (length (f <$> pre))) by (rewrite length_fmap; lia).
    destruct (Hat (f <$> pre) (f x) (replicate (6 - (length pre + 1)) 1)) as [-> Hins].
    cbn. rewrite Hins. cbn. rewrite <- Hf by done. by rewrite size_wrap_small by done.
  - apply Forall_app in Hbound as [_ Hb]. apply Forall_inv in Hb.
    rewrite !fmap_app, !length_app. cbn [fmap list_fmap length]. rewrite <- !app_assoc. cbn [app].
    replace (Z.of_nat (length segs + 1) - 1) with (Z.of_nat (length (f <$> segs))) by (rewrite length_fmap; lia).
    rewrite length_app in Hlen. cbn in Hlen.
    replace (6 - length segs)%nat with (Datatypes.S (6 - (length segs + 1))) by lia. cbn [replicate].
    destruct (Hat (f <$> segs) 1 (replicate (6 - (length segs + 1)) 1)) as [-> Hins].
    cbn [access]. rewrite bind_ret, Hins. cbn. rewrite Z.mul_1_l. by rewrite size_wrap_small by done.
Qed.

(** An array that the dimension is one in stays. *)
Lemma padded_grows f : multiplies f -> (length segs' <= 6)%nat -> f p = 1 -> padded f segs' = padded f segs.
Proof.
  intros Hf Hlen Hone. unfold padded. destruct Hgrows as [(pre & x & -> & -> & Hm)| ->].
  - apply Forall_app in Hsegs as [_ Hx]. apply Forall_inv in Hx.
    rewrite !fmap_app, !length_app. cbn. rewrite Hf, Hone by done. by rewrite Z.mul_1_r.
  - rewrite length_app in Hlen. rewrite fmap_app, length_app. cbn in *. rewrite Hone.
    replace (6 - length segs)%nat with (Datatypes.S (6 - (length segs + 1))) by lia. cbn [replicate].
    by rewrite <- app_assoc.
Qed.
End Grows.

(** Nothing is greater than the product. *)
Lemma elem_le_product l m : Forall (Z.lt 0) l -> product l <= m -> Forall (fun d => 0 <= d <= m) l.
Proof.
  intros Hl. revert m. induction Hl as [|d l Hd Hl IH]; intros m Hm; [constructor|]. rewrite product_cons in Hm.
  assert (Hp : 0 < product l) by (clear -Hl; induction Hl; [done|rewrite product_cons; nia]).
  constructor; [nia|]. apply IH. nia.
Qed.

(** ** The loops of the reduction *)

Lemma positive_bdim p : positive p -> 0 < bdim p.
Proof. destruct p. unfold positive, bdim. cbn. case_match; lia. Qed.

(** The numbers of elements of both inputs and of the output. *)
Definition totals (ds : list (Z * Z)) : Z * Z * Z := (product (fst <$> ds), product (snd <$> ds), product (bdim <$> ds)).
Definition fits (ds : list (Z * Z)) : Prop :=
  let '(n1, n2, n) := totals ds in n1 <= INT32_MAX /\ n2 <= INT32_MAX /\ n <= INT32_MAX.

(** The compressed dimensions stand for those they come from. *)
Definition compresses (ds segs : list (Z * Z)) : Prop := same_offsets ds segs /\ totals ds = totals segs.

Lemma compresses_refl ds : compresses ds ds.
Proof. done. Qed.

Lemma compresses_trans ds es fs : compresses ds es -> compresses es fs -> compresses ds fs.
Proof. intros [H1 H2] [H3 H4]. split; [by etransitivity|congruence]. Qed.

Lemma compresses_suffix l ds es : compresses ds es -> compresses (ds ++ l) (es ++ l).
Proof.
  intros [H1 H2]. split; [by apply same_offsets_suffix|]. unfold totals in *. injection H2 as Ha Hb Hc.
  rewrite !fmap_app, !product_app. by rewrite Ha, Hb, Hc.
Qed.

Lemma compresses_fits ds segs : compresses ds segs -> fits ds -> fits segs.
Proof. intros [_ H]. unfold fits. by rewrite H. Qed.

Lemma compresses_grows segs p segs' : grows segs p segs' -> Forall positive segs -> positive p -> compresses (segs ++ [p]) segs'.
Proof.
  intros Hg Hs Hp. split; [by apply grows_offsets|]. unfold totals. rewrite !fmap_app, !product_app. cbn.
  rewrite !(grows_product segs p segs') by (done || apply multiplies_fst || apply multiplies_snd || apply multiplies_bdim).
  f_equal; [f_equal|]; lia.
Qed.

Lemma compresses_unit segs : compresses (segs ++ [(1, 1)]) segs.
Proof.
  split.
  - rewrite <- (app_nil_r segs) at 2. apply same_offsets_prefix, same_offsets_unit.
  - unfold totals. rewrite !fmap_app, !product_app. cbn. f_equal; [f_equal|]; lia.
Qed.

Lemma fits_bounds segs : Forall positive segs -> fits segs ->
  Forall (fun x => 0 <= fst x <= SIZE_MAX) segs /\ Forall (fun x => 0 <= snd x <= SIZE_MAX) segs /\
  Forall (fun x => 0 <= bdim x <= SIZE_MAX) segs.
Proof.
  intros Hpos (H1 & H2 & Ho).
  assert (Hb : forall f, (forall x, positive x -> 0 < f x) -> product (f <$> segs) <= INT32_MAX ->
    Forall (fun x => 0 <= f x <= SIZE_MAX) segs).
  { intros f Hf Hprod.
    assert (Hl : Forall (Z.lt 0) (f <$> segs)) by (apply Forall_fmap; by eapply Forall_impl).
    apply elem_le_product with (m := INT32_MAX) in Hl; [|done]. apply Forall_fmap in Hl.
    eapply Forall_impl; [exact Hl|]. unfold compose, INT32_MAX, SIZE_MAX. cbn. lia. }
  split_and!; apply Hb; try done; [by intros x []|by intros x []|apply positive_bdim].
Qed.

(** The dimensions of shapes that can be broadcast against each other. *)
Definition compatible (p : Z * Z) : Prop := fst p = snd p \/ fst p = 1 \/ snd p = 1.

Lemma grows_compatible segs p segs' : grows segs p segs' -> Forall compatible segs -> compatible p -> Forall compatible segs'.
Proof.
  intros [(pre & x & -> & -> & Hm)| ->] Hs Hp; apply Forall_app.
  - apply Forall_app in Hs as [Hs _]. split; [done|]. constructor; [|constructor]. unfold compatible, merge. cbn.
    destruct Hm as [[-> ->]|[[-> ->]|[-> ->]]]; tauto.
  - split; [done|]. by constructor.
Qed.

Record arrays (r : reduction) (segs : list (Z * Z)) : Prop := {
  a_num : num_compressed_dims r = zlength segs;
  a_input1 : compressed_input1_shape r = padded fst segs;
  a_input2 : compressed_input2_shape r = padded snd segs;
  a_output : compressed_output_shape r = padded bdim segs }.

(** What the flags say of the last compressed dimension. *)
Definition flags (r : reduction) (segs : list (Z * Z)) : Prop :=
  match last segs with
  | None => broadcast_input1 r = false /\ broadcast_input2 r = false /\ first_nonunit r = true
  | Some x => first_nonunit r = false /\
    ((broadcast_input1 r = true /\ broadcast_input2 r = false /\ fst x = 1) \/
     (broadcast_input1 r = false /\ broadcast_input2 r = true /\ snd x = 1) \/
     (broadcast_input1 r = false /\ broadcast_input2 r = false /\ fst x = snd x))
  end.

Record reduced (r : reduction) (segs : list (Z * Z)) : Prop := {
  r_arrays : arrays r segs;
  r_flags : flags r segs;
  r_positive : Forall positive segs;
  r_compatible : Forall compatible segs }.

Lemma reduced_start : reduced reduction_start [].
Proof. split; [split; reflexivity|done|constructor..]. Qed.

(** Where the last dimension is one for the same input, it grows; otherwise there is a new one. *)
Definition next_segs (same : bool) (segs : list (Z * Z)) (p : Z * Z) : list (Z * Z) :=
  match last segs with
  | Some x => if same then removelast segs ++ [merge x p] else segs ++ [p]
  | None => segs ++ [p]
  end.

Lemma next_segs_grows same segs p : (same = true -> forall x, last segs = Some x -> mergeable x p) ->
  grows segs p (next_segs same segs p).
Proof.
  intros Hm. unfold next_segs. destruct (last segs) as [x|] eqn:Hlast; [|by right].
  destruct same; [|by right]. left. apply last_Some in Hlast as [pre ->]. exists pre, x.
  rewrite removelast_last. split_and!; [done|done|]. apply Hm; [done|]. by rewrite ?last_snoc.
Qed.

Lemma next_segs_length same segs p : (same = true -> segs <> []) ->
  zlength (next_segs same segs p) = if same then zlength segs else zlength segs + 1.
Proof.
  intros Hne. unfold next_segs, zlength. destruct (last segs) as [x|] eqn:Hlast.
  - apply last_Some in Hlast as [pre ->]. destruct same; rewrite ?removelast_last, !length_app; cbn; lia.
  - apply last_None in Hlast as ->. destruct same; [by destruct Hne|]. cbn. lia.
Qed.

Lemma next_segs_last same segs p : exists x, last (next_segs same segs p) = Some x /\
  (x = p \/ exists y, last segs = Some y /\ same = true /\ x = merge y p).
Proof.
  unfold next_segs. destruct (last segs) as [y|]; [destruct same|]; rewrite last_snoc; eexists; (split; [done|]); eauto 6.
Qed.

Section Steps.
Context {S : Type} (r : reduction) (segs : list (Z * Z)) (Hr : reduced r segs) (Hlen : (length segs < 6)%nat).

(** One of the three arrays, after the step. *)
Lemma times_next f array p y same (s : S) : y = f p -> multiplies f -> (forall x, positive x -> 0 < f x) ->
  array = padded f segs -> positive p ->
  (same = true -> segs <> []) -> (same = true -> forall x, last segs = Some x -> mergeable x p) ->
  Forall (fun x => 0 <= f x <= SIZE_MAX) (next_segs same segs p) ->
  times_at array ((if same then num_compressed_dims r else num_compressed_dims r + 1) - 1) y s
  = (Done (padded f (next_segs same segs p)), s).
Proof.
  intros -> Hf Hfpos -> Hp Hne Hm Hb. rewrite (a_num _ _ (r_arrays _ _ Hr)), <- (next_segs_length same segs p Hne).
  pose proof (next_segs_grows same segs p Hm) as Hg.
  apply times_at_grows; [done|apply Hr|done|done| | |done].
  { pose proof (proj1 (grows_length _ _ _ Hg (r_positive _ _ Hr))). lia. }
  specialize (Hfpos p Hp). lia.
Qed.

(** The next of the arrays of a step, for [f] of the dimensions [p]. *)
Ltac next_array f p Hs := erewrite bind_done by (apply (times_next f _ p);
  [by rewrite ?bdim_other, ?bdim_same
  |first [apply multiplies_fst|apply multiplies_snd|apply multiplies_bdim]
  |first [by intros ? []|apply positive_bdim]|done|done
  |exact (fun H => proj1 (Hs H))|exact (fun H => proj2 (Hs H))|done]).

Lemma fits_next same p : positive p -> (same = true -> forall x, last segs = Some x -> mergeable x p) ->
  fits (segs ++ [p]) ->
  let segs' := next_segs same segs p in
  Forall positive segs' /\ compresses (segs ++ [p]) segs' /\ (length segs' <= Datatypes.S (length segs))%nat /\
  Forall (fun x => 0 <= fst x <= SIZE_MAX) segs' /\ Forall (fun x => 0 <= snd x <= SIZE_MAX) segs' /\
  Forall (fun x => 0 <= bdim x <= SIZE_MAX) segs'.
Proof.
  intros Hp Hm Hfits segs'. pose proof (next_segs_grows same segs p Hm) as Hg.
  assert (Hpos : Forall positive segs') by (eapply grows_positive; [exact Hg|apply Hr|done]).
  assert (Hc : compresses (segs ++ [p]) segs') by (apply compresses_grows; [done|apply Hr|done]).
  split_and!; try done; [exact (proj1 (grows_length _ _ _ Hg (r_positive _ _ Hr)))|..];
    by apply (fits_bounds segs' Hpos), (compresses_fits _ _ Hc).
Qed.

(** What is true after each of the steps. *)
Definition stepped (p : Z * Z) (r' : reduction) : Prop := exists segs', reduced r' segs' /\
  compresses (segs ++ [p]) segs' /\ (length segs' <= Datatypes.S (length segs))%nat.

(** The flag of the broadcast that goes on is about the last dimension. *)
Lemma flag1_same d2 : broadcast_input1 r = true ->
  segs <> [] /\ forall x, last segs = Some x -> mergeable x (1, d2).
Proof.
  pose proof (r_flags _ _ Hr) as Hf. unfold flags in Hf. intros Hb. destruct (last segs) as [x|] eqn:Hl.
  - split; [intros ->; done|]. intros y [= <-]. destruct Hf as [_ Hf]. right. left. cbn. intuition congruence.
  - intuition congruence.
Qed.

Lemma flag2_same d1 : broadcast_input2 r = true ->
  segs <> [] /\ forall x, last segs = Some x -> mergeable x (d1, 1).
Proof.
  pose proof (r_flags _ _ Hr) as Hf. unfold flags in Hf. intros Hb. destruct (last segs) as [x|] eqn:Hl.
  - split; [intros ->; done|]. intros y [= <-]. destruct Hf as [_ Hf]. right. right. cbn. intuition congruence.
  - intuition congruence.
Qed.

Lemma flags_equal d : broadcast_input1 r || broadcast_input2 r || first_nonunit r = false ->
  segs <> [] /\ forall x, last segs = Some x -> mergeable x (d, d).
Proof.
  pose proof (r_flags _ _ Hr) as Hf. unfold flags in Hf. intros [[Hb1 Hb2]%orb_false_iff Hb3]%orb_false_iff.
  destruct (last segs) as [x|] eqn:Hl.
  - split; [intros ->; done|]. intros y [= <-]. destruct Hf as [_ Hf]. left. cbn. intuition congruence.
  - intuition congruence.
Qed.

Lemma reduce_input1_is_1_ok d2 (s : S) : 0 < d2 -> fits (segs ++ [(1, d2)]) ->
  exists r', reduce_input1_is_1 d2 r s = (Done r', s) /\ stepped (1, d2) r'.
Proof.
  intros Hd Hfits. set (same := broadcast_input1 r).
  assert (Hp : positive (1, d2)) by (split; cbn; lia).
  assert (Hs : same = true -> segs <> [] /\ forall x, last segs = Some x -> mergeable x (1, d2)) by apply flag1_same.
  destruct (fits_next same (1, d2) Hp (fun H => proj2 (Hs H)) Hfits) as (Hpos & Hc & Hl & H1 & H2 & Ho).
  destruct (r_arrays _ _ Hr) as [Hn A1 A2 Ao]. unfold reduce_input1_is_1. fold same.
  next_array (@snd Z Z) (1, d2) Hs.
  next_array bdim (1, d2) Hs.
  eexists. split; [reflexivity|]. exists (next_segs same segs (1, d2)). split_and!; [|done|done].
  split; [split; cbn| |done|].
  - rewrite next_segs_length by exact (fun H => proj1 (Hs H)). rewrite Hn. done.
  - rewrite A1. symmetry. apply padded_grows with (p := (1, d2)); [|apply Hr|done|apply multiplies_fst|lia|done].
    apply next_segs_grows. exact (fun H => proj2 (Hs H)).
  - done.
  - done.
  - unfold flags. destruct (next_segs_last same segs (1, d2)) as (x & -> & Hx). cbn. split; [done|]. left.
    split_and!; [done| |].
    + pose proof (r_flags _ _ Hr) as Hf. unfold flags in Hf. subst same. destruct (broadcast_input1 r); [|done].
      destruct (last segs); intuition congruence.
    + destruct Hx as [->|(y & Hy & Hsame & ->)]; [done|]. destruct (Hs Hsame) as [_ Hm]. specialize (Hm y Hy).
      pose proof (r_flags _ _ Hr) as Hf. unfold flags in Hf. rewrite Hy in Hf. subst same. cbn.
      assert (fst y = 1) as -> by intuition congruence. done.
  - eapply grows_compatible; [apply next_segs_grows; exact (fun H => proj2 (Hs H))|apply Hr|].
    unfold compatible. cbn. tauto.
Qed.

Lemma reduce_input2_is_1_ok d1 (s : S) : 0 < d1 -> fits (segs ++ [(d1, 1)]) ->
  exists r', reduce_input2_is_1 d1 r s = (Done r', s) /\ stepped (d1, 1) r'.
Proof.
  intros Hd Hfits. set (same := broadcast_input2 r).
  assert (Hp : positive (d1, 1)) by (split; cbn; lia).
  assert (Hs : same = true -> segs <> [] /\ forall x, last segs = Some x -> mergeable x (d1, 1)) by apply flag2_same.
  destruct (fits_next same (d1, 1) Hp (fun H => proj2 (Hs H)) Hfits) as (Hpos & Hc & Hl & H1 & H2 & Ho).
  destruct (r_arrays _ _ Hr) as [Hn A1 A2 Ao]. unfold reduce_input2_is_1. fold same.
  next_array (@fst Z Z) (d1, 1) Hs.
  next_array bdim (d1, 1) Hs.
  eexists. split; [reflexivity|]. exists (next_segs same segs (d1, 1)). split_and!; [|done|done].
  split; [split; cbn| |done|].
  - rewrite next_segs_length by exact (fun H => proj1 (Hs H)). rewrite Hn. done.
  - done.
  - rewrite A2. symmetry. apply padded_grows with (p := (d1, 1)); [|apply Hr|done|apply multiplies_snd|lia|done].
    apply next_segs_grows. exact (fun H => proj2 (Hs H)).
  - done.
  - unfold flags. destruct (next_segs_last same segs (d1, 1)) as (x & -> & Hx). cbn. split; [done|]. right. left.
    split_and!; [|done|].
    + pose proof (r_flags _ _ Hr) as Hf. unfold flags in Hf. subst same. destruct (broadcast_input2 r); [|done].
      destruct (last segs); intuition congruence.
    + destruct Hx as [->|(y & Hy & Hsame & ->)]; [done|]. destruct (Hs Hsame) as [_ Hm]. specialize (Hm y Hy).
      pose proof (r_flags _ _ Hr) as Hf. unfold flags in Hf. rewrite Hy in Hf. subst same. cbn.
      assert (snd y = 1) as -> by intuition congruence. done.
  - eapply grows_compatible; [apply next_segs_grows; exact (fun H => proj2 (Hs H))|apply Hr|].
    unfold compatible. cbn. tauto.
Qed.

Lemma reduce_equal_ok d (s : S) : 0 < d -> fits (segs ++ [(d, d)]) ->
  exists r', reduce_equal d r s = (Done r', s) /\ stepped (d, d) r'.
Proof.
  intros Hd Hfits. set (fresh := broadcast_input1 r || broadcast_input2 r || first_nonunit r).
  assert (Hp : positive (d, d)) by (split; cbn; lia).
  assert (Hs : negb fresh = true -> segs <> [] /\ forall x, last segs = Some x -> mergeable x (d, d)).
  { intros Hf%negb_true_iff. by apply flags_equal. }
  destruct (fits_next (negb fresh) (d, d) Hp (fun H => proj2 (Hs H)) Hfits) as (Hpos & Hc & Hl & H1 & H2 & Ho).
  destruct (r_arrays _ _ Hr) as [Hn A1 A2 Ao]. unfold reduce_equal. fold fresh.
  replace (if fresh then num_compressed_dims r + 1 else num_compressed_dims r)
    with (if negb fresh then num_compressed_dims r else num_compressed_dims r + 1) by (by destruct fresh).
  next_array (@fst Z Z) (d, d) Hs.
  next_array (@snd Z Z) (d, d) Hs.
  next_array bdim (d, d) Hs.
  eexists. split; [reflexivity|]. exists (next_segs (negb fresh) segs (d, d)). split_and!; [|done|done].
  assert (Hflags : (if fresh then false else broadcast_input1 r) = false /\ (if fresh then false else broadcast_input2 r) = false).
  { destruct fresh eqn:Hf; [done|]. subst fresh. by apply orb_false_iff in Hf as [[? ?]%orb_false_iff _]. }
  split; [split; cbn| |done|].
  - rewrite next_segs_length by exact (fun H => proj1 (Hs H)). rewrite Hn. done.
  - done.
  - done.
  - done.
  - unfold flags. destruct (next_segs_last (negb fresh) segs (d, d)) as (x & -> & Hx). cbn.
    destruct Hflags as [-> ->]. split; [done|]. right. right. split_and!; [done|done|].
    destruct Hx as [->|(y & Hy & Hsame & ->)]; [done|].
    pose proof (r_flags _ _ Hr) as Hf. unfold flags in Hf. rewrite Hy in Hf. cbn.
    apply negb_true_iff in Hsame. subst fresh. apply orb_false_iff in Hsame as [[? ?]%orb_false_iff ?].
    assert (fst y = snd y) as -> by intuition congruence. done.
  - eapply grows_compatible; [apply next_segs_grows; exact (fun H => proj2 (Hs H))|apply Hr|].
    unfold compatible. cbn. tauto.
Qed.
End Steps.

(** ** Reducing two shapes *)

Lemma fits_app l l' : Forall positive l -> Forall positive l' -> fits (l ++ l') -> fits l.
Proof.
  intros Hl Hl'. unfold fits, totals. rewrite !fmap_app, !product_app.
  assert (Hp : forall f m, (forall x, positive x -> 0 < f x) -> Forall positive m -> 0 < product (f <$> m)).
  { intros f m Hf Hm. induction Hm; [done|]. rewrite fmap_cons, product_cons. pose proof (Hf x H). nia. }
  pose proof (Hp fst l ltac:(by intros ? []) Hl). pose proof (Hp snd l ltac:(by intros ? []) Hl).
  pose proof (Hp bdim l positive_bdim Hl).
  pose proof (Hp fst l' ltac:(by intros ? []) Hl'). pose proof (Hp snd l' ltac:(by intros ? []) Hl').
  pose proof (Hp bdim l' positive_bdim Hl'). nia.
Qed.

Lemma compatible_dims p : compatible p -> positive p -> fst p <> 1 -> snd p <> 1 -> p = (fst p, fst p).
Proof. destruct p as [a b]. unfold compatible. cbn. intros [->|[->| ->]]; done. Qed.

(** One iteration over the common dimensions. *)
Lemma reduce_common_ok {S} (shape1 shape2 : RuntimeShape) i p r segs (s : S) :
  shape1.[zlength shape1 - i] = Some (fst p) -> shape2.[zlength shape2 - i] = Some (snd p) ->
  positive p -> compatible p -> fst p <= SIZE_MAX -> snd p <= SIZE_MAX ->
  reduced r segs -> (length segs < 6)%nat -> fits (segs ++ [p]) ->
  exists r', reduce_common shape1 shape2 i r s = (Done (Some r'), s) /\ stepped segs p r'.
Proof.
  intros H1 H2 Hp Hc Hm1 Hm2 Hr Hlen Hfits. destruct p as [d1 d2]. destruct Hp as [Hd1 Hd2]. cbn [fst snd] in *.
  unfold reduce_common, DimensionsCount. do 2 erewrite bind_access by done.
  rewrite !size_wrap_small by lia.
  destruct (Z.eqb_spec d1 0); [lia|]. destruct (Z.eqb_spec d2 0); [lia|]. cbn [orb].
  destruct (Z.eqb_spec d1 1) as [->|]; destruct (Z.eqb_spec d2 1) as [->|]; cbn [andb].
  - exists r. split; [done|]. exists segs. split_and!; [done|apply compresses_unit|lia].
  - destruct (reduce_input1_is_1_ok r segs Hr Hlen d2 s Hd2 Hfits) as (r' & Hrun & Hst).
    exists r'. split; [|done]. by erewrite bind_done.
  - destruct (reduce_input2_is_1_ok r segs Hr Hlen d1 s Hd1 Hfits) as (r' & Hrun & Hst).
    exists r'. split; [|done]. by erewrite bind_done.
  - assert (Heq : d2 = d1) by (destruct Hc as [?|[?|?]]; cbn in *; lia). subst d2.
    destruct (reduce_equal_ok r segs Hr Hlen d1 s Hd1 Hfits) as (r' & Hrun & Hst).
    exists r'. split; [|done]. by erewrite bind_done.
Qed.

(** The loop over the common dimensions [cs], the fastest first. *)
Lemma common_loop {S} (shape1 shape2 : RuntimeShape) cs (s : S) :
  (forall k p, cs !! k = Some p -> shape1.[zlength shape1 - (Z.of_nat k + 1)] = Some (fst p) /\
    shape2.[zlength shape2 - (Z.of_nat k + 1)] = Some (snd p)) ->
  Forall positive cs -> Forall compatible cs -> fits cs -> (length cs <= 6)%nat ->
  exists r segs, for_fold (zrange 1 (zlength cs)) (Some reduction_start)
      (fun r i => unless_returned (reduce_common shape1 shape2 i) r) s = (Done (Some r), s) /\
    reduced r segs /\ compresses cs segs /\ (length segs <= length cs)%nat.
Proof.
  intros Hdims Hpos Hcomp Hfits Hsix.
  cut (forall n k r segs, (n + k)%nat = length cs -> reduced r segs -> compresses (take k cs) segs -> (length segs <= k)%nat ->
    exists r' segs', for_fold (zrange (Z.of_nat k + 1) (zlength cs)) (Some r)
        (fun r i => unless_returned (reduce_common shape1 shape2 i) r) s = (Done (Some r'), s) /\
      reduced r' segs' /\ compresses cs segs' /\ (length segs' <= length cs)%nat).
  { intros H. apply (H (length cs) 0%nat reduction_start []); [lia|apply reduced_start|apply compresses_refl|cbn; lia]. }
  intros n. induction n as [|n IH]; intros k r segs Hk Hr Hc Hl.
  - exists r, segs. rewrite zrange_nil by (unfold zlength; lia). rewrite take_ge in Hc by lia. split_and!; [done..|lia].
  - destruct (lookup_lt_is_Some_2 cs k) as [p Hp]; [lia|].
    rewrite zrange_cons by (unfold zlength; lia). cbn [for_fold unless_returned].
    assert (Hpp : positive p) by (by eapply Forall_lookup_1).
    assert (Hpre : fits (take k cs ++ [p])).
    { apply (fits_app _ (drop (Datatypes.S k) cs)).
      - apply Forall_app. split; [by apply Forall_take|by constructor].
      - by apply Forall_drop.
      - rewrite <- app_assoc. cbn. rewrite <- drop_S by done. by rewrite take_drop. }
    destruct (fits_bounds cs Hpos Hfits) as (Hb1 & Hb2 & _).
    destruct (Hdims k p Hp) as [H1 H2].
    destruct (reduce_common_ok shape1 shape2 (Z.of_nat k + 1) p r segs s) as (r' & Hrun & segs' & Hr' & Hc' & Hl');
      [done|done|done|by eapply (Forall_lookup_1 _ cs)| | |done|lia| |].
    + by apply (Forall_lookup_1 _ cs k p Hb1).
    + by apply (Forall_lookup_1 _ cs k p Hb2).
    + eapply compresses_fits; [|exact Hpre]. by apply compresses_suffix.
    + erewrite bind_done by done. replace (Z.of_nat k + 1 + 1) with (Z.of_nat (Datatypes.S k) + 1) by lia.
      apply (IH (Datatypes.S k) r' segs'); [lia|done| |lia].
      rewrite (take_S_r _ _ p) by done. eapply compresses_trans; [by apply compresses_suffix|done].
Qed.

(** The dimensions of the longer input alone. *)
Definition alone (first : bool) (d : Z) : Z * Z := if first then (d, 1) else (1, d).

Lemma bdim_alone first d : bdim (alone first d) = d.
Proof. destruct first; [apply bdim_other|done]. Qed.

Lemma alone_merge first x d : merge (alone first x) (alone first d) = alone first (x * d).
Proof. by destruct first. Qed.

Lemma alone_mergeable first x d : mergeable (alone first x) (alone first d).
Proof. destruct first; [right; right|right; left]; done. Qed.

Lemma alone_positive first d : 0 < d -> positive (alone first d).
Proof. by destruct first. Qed.

Lemma compresses_alone first l x : Forall (Z.lt 0) l -> 0 < x ->
  compresses (alone first x :: (alone first <$> l)) [alone first (x * product l)].
Proof.
  intros Hl. revert x. induction Hl as [|d l Hd Hl IH]; intros x Hx; cbn [fmap list_fmap].
  - change (product []) with 1. rewrite Z.mul_1_r. apply compresses_refl.
  - rewrite product_cons, Z.mul_assoc. eapply compresses_trans; [|apply IH; lia].
    change (alone first x :: alone first d :: (alone first <$> l)) with ([alone first x; alone first d] ++ (alone first <$> l)).
    change (alone first (x * d) :: (alone first <$> l)) with ([alone first (x * d)] ++ (alone first <$> l)).
    apply compresses_suffix. rewrite <- alone_merge.
    apply (compresses_grows [alone first x] (alone first d)).
    + left. exists [], (alone first x). split_and!; [done|done|apply alone_mergeable].
    + constructor; [by apply alone_positive|constructor].
    + by apply alone_positive.
Qed.

Lemma product_reverse l : product (reverse l) = product l.
Proof.
  induction l as [|d l IH]; [done|]. rewrite reverse_cons, product_app, IH, !product_cons. change (product []) with 1. lia.
Qed.

Lemma reduce_extra_ok {S} shape (first : bool) i d r pre x (s : S) :
  shape.[i] = Some d -> 0 < d <= SIZE_MAX -> 0 < x -> Forall positive pre -> (length pre < 6)%nat ->
  arrays r (pre ++ [alone first x]) -> fits (pre ++ [alone first (x * d)]) ->
  exists r', reduce_extra shape first i r s = (Done (Some r'), s) /\ arrays r' (pre ++ [alone first (x * d)]).
Proof.
  intros Hi Hd Hx Hpre Hlen [Hn A1 A2 Ao] Hfits. set (segs := pre ++ [alone first x]) in *.
  set (segs' := pre ++ [alone first (x * d)]) in *.
  assert (Hg : grows segs (alone first d) segs').
  { left. exists pre, (alone first x). rewrite alone_merge. split_and!; [done|done|apply alone_mergeable]. }
  assert (Hpos : forall y, 0 < y -> Forall positive (pre ++ [alone first y])).
  { intros y Hy. apply Forall_app. split; [done|]. constructor; [by apply alone_positive|constructor]. }
  assert (Hsegs : Forall positive segs) by (by apply Hpos).
  assert (Hsegs' : Forall positive segs') by (apply Hpos; nia).
  destruct (fits_bounds segs' Hsegs' Hfits) as (H1 & H2 & Ho).
  assert (Hl : (length segs' <= 6)%nat) by (unfold segs'; rewrite length_app; cbn; lia).
  assert (Hzl : zlength segs' = zlength segs) by (unfold zlength, segs, segs'; by rewrite !length_app).
  assert (Hp : positive (alone first d)) by (apply alone_positive; lia).
  unfold reduce_extra. erewrite bind_access by done. rewrite size_wrap_small by lia.
  destruct (Z.eqb_spec d 0); [lia|].
  assert (Ht : forall f array, multiplies f -> array = padded f segs -> f (alone first d) = d ->
    Forall (fun y => 0 <= f y <= SIZE_MAX) segs' ->
    times_at array (num_compressed_dims r - 1) d s = (Done (padded f segs'), s)).
  { intros f array Hf -> Hfd Hb. rewrite Hn, <- Hzl. rewrite <- Hfd. apply (times_at_grows segs (alone first d)); try done. lia. }
  assert (Hsame : forall f, multiplies f -> f (alone first d) = 1 -> padded f segs = padded f segs').
  { intros f Hf Hone. symmetry. by apply (padded_grows segs (alone first d)). }
  destruct first.
  - erewrite bind_done by (by apply (Ht fst); [apply multiplies_fst|..]).
    erewrite bind_done by (by apply (Ht bdim); [apply multiplies_bdim|..|apply bdim_other|]).
    eexists. split; [done|]. split; cbn; [by rewrite Hzl|done| |done].
    rewrite A2. apply Hsame; [apply multiplies_snd|done].
  - erewrite bind_done by (by apply (Ht snd); [apply multiplies_snd|..]).
    erewrite bind_done by (by apply (Ht bdim); [apply multiplies_bdim|..]).
    eexists. split; [done|]. split; cbn; [by rewrite Hzl| |done|done].
    rewrite A1. apply Hsame; [apply multiplies_fst|done].
Qed.

(** The loop over the dimensions [es] of the longer input, the slowest first. *)
Lemma extra_loop {S} shape (first : bool) es pre x r (s : S) :
  (forall k d, es !! k = Some d -> shape.[Z.of_nat k] = Some d) -> Forall (Z.lt 0) es -> 0 < x ->
  Forall positive pre -> (length pre < 6)%nat -> arrays r (pre ++ [alone first x]) ->
  fits (pre ++ [alone first (x * product es)]) ->
  exists r', for_fold (zrange 0 (zlength es - 1)) (Some r) (fun r i => unless_returned (reduce_extra shape first i) r) s
      = (Done (Some r'), s) /\ arrays r' (pre ++ [alone first (x * product es)]).
Proof.
  intros Hes Hpos Hx Hpre Hlen Ha Hfits.
  cut (forall n k r x, (n + k)%nat = length es -> 0 < x -> arrays r (pre ++ [alone first x]) ->
    fits (pre ++ [alone first (x * product (drop k es))]) ->
    exists r', for_fold (zrange (Z.of_nat k) (zlength es - 1)) (Some r)
        (fun r i => unless_returned (reduce_extra shape first i) r) s = (Done (Some r'), s) /\
      arrays r' (pre ++ [alone first (x * product (drop k es))])).
  { intros H. apply (H (length es) 0%nat r x); [lia|done..]. }
  clear r x Hx Ha Hfits. intros n. induction n as [|n IH]; intros k r x Hk Hx Ha Hfits.
  - rewrite zrange_nil by (unfold zlength; lia). rewrite drop_ge by lia. change (product []) with 1. rewrite Z.mul_1_r.
    by exists r.
  - destruct (lookup_lt_is_Some_2 es k) as [d Hd]; [lia|].
    rewrite (drop_S es d k Hd), product_cons, Z.mul_assoc in *.
    assert (Hd0 : 0 < d) by (by apply (Forall_lookup_1 _ es k d Hpos)).
    assert (Hrest : Forall (Z.lt 0) (drop (Datatypes.S k) es)) by (by apply Forall_drop).
    set (rest := product (drop (Datatypes.S k) es)) in *.
    assert (Hr0 : 0 < rest) by (unfold rest; clear -Hrest; induction Hrest; [done|rewrite product_cons; nia]).
    assert (Hpos' : Forall positive (pre ++ [alone first (x * d)])).
    { apply Forall_app. split; [done|]. constructor; [apply alone_positive; nia|constructor]. }
    assert (Hgr : grows (pre ++ [alone first (x * d)]) (alone first rest) (pre ++ [alone first (x * d * rest)])).
    { left. exists pre, (alone first (x * d)). rewrite alone_merge. split_and!; [done|done|apply alone_mergeable]. }
    assert (Hfits' : fits ((pre ++ [alone first (x * d)]) ++ [alone first rest])).
    { destruct (compresses_grows _ _ _ Hgr Hpos' (alone_positive first rest Hr0)) as [_ Ht]. unfold fits. by rewrite Ht. }
    apply fits_app in Hfits' as Hstep; [|done|constructor; [by apply alone_positive|constructor]].
    assert (Hdmax : d <= SIZE_MAX).
    { destruct (fits_bounds _ Hpos' Hstep) as (_ & _ & Hb). apply Forall_app in Hb as [_ Hb]. apply Forall_inv in Hb.
      rewrite bdim_alone in Hb. nia. }
    destruct (reduce_extra_ok shape first (Z.of_nat k) d r pre x s) as (r' & Hrun & Ha'); [by apply Hes|lia|done..|].
    rewrite zrange_cons by (unfold zlength; lia). cbn [for_fold unless_returned]. erewrite bind_done by done.
    replace (Z.of_nat k + 1) with (Z.of_nat (Datatypes.S k)) by lia. apply IH; [lia|nia|done|done].
Qed.

(** ** The strides of compressed dimensions *)

Definition extent_of (e : Z * Z * Z) : Z := fst (fst e).
Definition stride1_of (e : Z * Z * Z) : Z := snd (fst e).
Definition stride2_of (e : Z * Z * Z) : Z := snd e.

Lemma bstride_le d other s : 0 <= s -> 0 <= bstride d other s <= s.
Proof. unfold bstride. case_match; lia. Qed.

(** The strides that the code computes are those of the dimensions. *)
Lemma zero_strides_ok ds s1 s2 : Forall positive ds -> Forall compatible ds -> 0 < s1 -> 0 < s2 ->
  s1 * product (fst <$> ds) <= INT32_MAX -> s2 * product (snd <$> ds) <= INT32_MAX ->
  zero_strides (compressed_strides s1 (fst <$> ds)) (compressed_strides s2 (snd <$> ds)) (fst <$> ds) (snd <$> ds)
  = (stride1_of <$> annot ds s1 s2, stride2_of <$> annot ds s1 s2).
Proof.
  intros Hpos Hcomp. revert s1 s2. induction Hpos as [|[d1 d2] ds [Hd1 Hd2] Hpos IH]; intros s1 s2 Hs1 Hs2 Hm1 Hm2; [done|].
  apply Forall_cons in Hcomp as [Hc Hcomp]. cbn [fst snd] in *. rewrite !fmap_cons, !product_cons in *. cbn [fst snd] in *.
  assert (Hf : forall f, (forall x, positive x -> 0 < f x) -> 0 < product (f <$> ds)).
  { intros f Hf. clear -Hf Hpos. induction Hpos as [|x l Hx _ IH]; [done|]. rewrite fmap_cons, product_cons.
    specialize (Hf x Hx). nia. }
  pose proof (Hf fst ltac:(by intros ? [])). pose proof (Hf snd ltac:(by intros ? [])).
  assert (s1 * d1 <= INT32_MAX) by nia. assert (s2 * d2 <= INT32_MAX) by nia.
  assert (s1 <= INT32_MAX) by nia. assert (s2 <= INT32_MAX) by nia.
  cbn [compressed_strides zero_strides]. unfold INT32_MAX in *.
  rewrite !(size_wrap_small s1), !(size_wrap_small s2), !size_wrap_small by (unfold SIZE_MAX; lia).
  rewrite !int32_wrap_small by (unfold INT32_MIN, INT32_MAX; lia).
  rewrite IH by (done || nia). cbn [annot fmap list_fmap]. unfold stride1_of at 2, stride2_of at 2, bstride. cbn [fst snd].
  destruct Hc as [Hc|[Hc|Hc]]; cbn [fst snd] in Hc; subst.
  - rewrite Z.eqb_refl. by destruct (d2 =? 1).
  - destruct (Z.eqb_spec 1 d2) as [<-|]; [done|]. destruct (Z.eqb_spec d2 1); [lia|]. cbn. done.
  - destruct (Z.eqb_spec d1 1) as [->|]; [done|]. cbn. done.
Qed.

(** The dimensions of both shapes, the fastest first, the shorter one filled with ones. *)
Definition extend (n : nat) (shape : list Z) : list Z := replicate (n - length shape) 1 ++ shape.
Definition dims_of (n : nat) (shape1 shape2 : list Z) : list (Z * Z) :=
  zip (reverse (extend n shape1)) (reverse (extend n shape2)).

Lemma reverse_extend n shape : reverse (extend n shape) = reverse shape ++ replicate (n - length shape) 1.
Proof. unfold extend. by rewrite reverse_app, reverse_replicate. Qed.

Lemma zip_ones (first : bool) l : (if first then zip l (replicate (length l) 1) else zip (replicate (length l) 1) l)
  = alone first <$> l.
Proof. destruct first; induction l as [|d l IH]; cbn; [done|by f_equal|done|by f_equal]. Qed.

Lemma dims_of_longer (first : bool) (longer shorter : list Z) : (length shorter <= length longer)%nat ->
  let m := (length longer - length shorter)%nat in
  (if first then dims_of (length longer) longer shorter else dims_of (length longer) shorter longer)
  = (if first then zip (reverse (drop m longer)) (reverse shorter) else zip (reverse shorter) (reverse (drop m longer)))
    ++ (alone first <$> reverse (take m longer)).
Proof.
  intros Hlen m. rewrite <- (zip_ones first (reverse (take m longer))).
  assert (Hl : reverse longer = reverse (drop m longer) ++ reverse (take m longer)).
  { by rewrite <- reverse_app, take_drop. }
  assert (Hm : length (reverse (take m longer)) = m) by (rewrite length_reverse, length_take; lia).
  assert (Hd : length (reverse (drop m longer)) = length (reverse shorter)) by (rewrite !length_reverse, length_drop; lia).
  unfold dims_of. rewrite !reverse_extend, Nat.sub_diag. cbn [replicate]. rewrite app_nil_r, Hl. fold m. rewrite Hm.
  destruct first; apply zip_with_app; lia.
Qed.

Lemma reverse_lookup_from_end (l : list Z) k d : reverse l !! k = Some d -> l.[zlength l - (Z.of_nat k + 1)] = Some d.
Proof.
  intros Hk. pose proof (lookup_lt_Some _ _ _ Hk) as Hlt. rewrite length_reverse in Hlt.
  rewrite reverse_lookup in Hk by done. unfold zlookup, zlength. destruct (Z.ltb_spec (Z.of_nat (length l) - (Z.of_nat k + 1)) 0); [lia|].
  by replace (Z.to_nat (Z.of_nat (length l) - (Z.of_nat k + 1))) with (length l - Datatypes.S k)%nat by lia.
Qed.

(** What the reduction is of. *)
Definition reduced_to (segs : list (Z * Z)) : list Z * list Z * list Z :=
  let '(t1, t2) := zero_strides (compressed_strides 1 (padded fst segs)) (compressed_strides 1 (padded snd segs))
    (padded fst segs) (padded snd segs) in
  (t1, t2, padded bdim segs).

Lemma zip_lookup (a b : list Z) k p : zip a b !! k = Some p -> a !! k = Some (fst p) /\ b !! k = Some (snd p).
Proof. intros Hk. apply lookup_zip_with_Some in Hk as (x & y & -> & ? & ?). done. Qed.

Lemma compresses_prefix l ds es : compresses ds es -> compresses (l ++ ds) (l ++ es).
Proof.
  intros [H1 H2]. split; [by apply same_offsets_prefix|]. unfold totals in *. injection H2 as Ha Hb Hc.
  rewrite !fmap_app, !product_app. by rewrite Ha, Hb, Hc.
Qed.

Lemma compresses_sym ds es : compresses ds es -> compresses es ds.
Proof. intros [? ?]. split; by symmetry. Qed.

(** What the recursions need of the reduction. *)
Record reduction_ok (r : reduction) (ds segs : list (Z * Z)) : Prop := {
  ok_arrays : arrays r segs;
  ok_positive : Forall positive segs;
  ok_compatible : Forall compatible segs;
  ok_length : (length segs <= 6)%nat;
  ok_compresses : compresses ds segs }.

(** The dimensions of the longer input alone join the last compressed one, or a new one. *)
Lemma extras_ok {S} (first : bool) shape es r cs segs (s : S) :
  (forall k d, es !! k = Some d -> shape.[Z.of_nat k] = Some d) -> Forall (Z.lt 0) es -> es <> [] ->
  reduced r segs -> compresses cs segs -> (length segs <= length cs)%nat -> (length cs + length es <= 6)%nat ->
  fits (cs ++ (alone first <$> reverse es)) ->
  let r0 := if (if first then broadcast_input2 r else broadcast_input1 r) then r else new_dimension r in
  exists r' segs', for_fold (zrange 0 (zlength es - 1)) (Some r0) (fun r i => unless_returned (reduce_extra shape first i) r) s
      = (Done (Some r'), s) /\ reduction_ok r' (cs ++ (alone first <$> reverse es)) segs'.
Proof.
  intros Hes Hpos Hne Hr Hc Hl Hsix Hfits r0.
  assert (Hlen : (length segs < 6)%nat) by (destruct es; [done|cbn in Hsix; lia]).
  assert (Hpre : exists pre x, arrays r0 (pre ++ [alone first x]) /\ 0 < x /\ Forall positive pre /\
    Forall compatible pre /\ (length pre < 6)%nat /\ compresses cs (pre ++ [alone first x])).
  { destruct (if first then broadcast_input2 r else broadcast_input1 r) eqn:Hflag; subst r0.
    - pose proof (r_flags _ _ Hr) as Hf. unfold flags in Hf. destruct (last segs) as [x|] eqn:Hlast.
      + apply last_Some in Hlast as [pre ->]. destruct Hr as [Ha _ Hp Hcomp].
        apply Forall_app in Hp as [Hp Hx]. apply Forall_inv in Hx. apply Forall_app in Hcomp as [Hcomp _].
        rewrite length_app in Hlen. cbn in Hlen.
        assert (Hxa : exists y, x = alone first y /\ 0 < y).
        { destruct x as [a b], Hx as [Ha' Hb']. cbn in *. destruct first.
          - exists a. split; [|done]. unfold alone. f_equal. destruct Hf as [_ Hf]. intuition congruence.
          - exists b. split; [|done]. unfold alone. f_equal. destruct Hf as [_ Hf]. intuition congruence. }
        destruct Hxa as (y & -> & Hy). exists pre, y. split_and!; (done || lia).
      + destruct first; intuition congruence.
    - exists segs, 1. destruct Hr as [[Hn A1 A2 Ao] _ Hp Hcomp].
      assert (Hone : alone first 1 = (1, 1)) by (by destruct first). rewrite Hone.
      assert (Hpad : forall f, multiplies f -> f (1, 1) = 1 -> padded f (segs ++ [(1, 1)]) = padded f segs).
      { intros f Hf H1. apply (padded_grows segs (1, 1)); [by right|done|done|done|rewrite length_app; cbn; lia|done]. }
      split_and!; [|lia|done|done|done|].
      + split; cbn.
        * rewrite Hn. unfold zlength. rewrite length_app. cbn. lia.
        * by rewrite A1, Hpad by (done || apply multiplies_fst).
        * by rewrite A2, Hpad by (done || apply multiplies_snd).
        * by rewrite Ao, Hpad by (done || apply multiplies_bdim).
      + eapply compresses_trans; [exact Hc|]. apply compresses_sym, compresses_unit. }
  destruct Hpre as (pre & x & Ha & Hx & Hp & Hcomp & Hplen & Hcs).
  assert (Hall : compresses (cs ++ (alone first <$> reverse es)) (pre ++ [alone first (x * product es)])).
  { eapply compresses_trans; [by apply compresses_suffix|]. rewrite <- app_assoc. apply compresses_prefix.
    rewrite <- (product_reverse es). apply compresses_alone; [by apply Forall_reverse|done]. }
  destruct (extra_loop shape first es pre x r0 s) as (r' & Hrun & Ha'); try done.
  { eapply compresses_fits; [exact Hall|done]. }
  exists r', (pre ++ [alone first (x * product es)]). split; [exact Hrun|]. split; [done|..].
  - apply Forall_app. split; [done|]. constructor; [|constructor]. apply alone_positive.
    assert (0 < product es) by (clear -Hpos; induction Hpos; [done|rewrite product_cons; nia]). nia.
  - apply Forall_app. split; [done|]. constructor; [|constructor]. unfold compatible. destruct first; cbn; tauto.
  - rewrite length_app. cbn. lia.
  - done.
Qed.

Lemma alone_dims_positive first l : Forall positive (alone first <$> reverse l) -> Forall (Z.lt 0) l.
Proof.
  intros Hl. apply Forall_forall. intros d Hd. rewrite Forall_fmap, Forall_forall in Hl.
  assert (Hp : positive (alone first d)) by (apply (Hl d); by rewrite elem_of_reverse).
  destruct first; apply Hp.
Qed.

(** Both loops, where the shapes have different lengths. *)
Lemma longer_loops {S} (first : bool) (longer shorter : RuntimeShape) (s : S) :
  let shape1 := if first then longer else shorter in
  let shape2 := if first then shorter else longer in
  let ds := dims_of (length longer) shape1 shape2 in
  let m := zlength longer - zlength shorter in
  (length shorter < length longer <= 6)%nat -> Forall positive ds -> Forall compatible ds -> fits ds ->
  exists r r' segs,
    for_fold (zrange 1 (zlength shorter)) (Some reduction_start)
      (fun r i => unless_returned (reduce_common shape1 shape2 i) r) s = (Done (Some r), s) /\
    for_fold (zrange 0 (m - 1))
      (Some (if (if first then broadcast_input2 r else broadcast_input1 r) then r else new_dimension r))
      (fun r i => unless_returned (reduce_extra longer first i) r) s = (Done (Some r'), s) /\
    reduction_ok r' ds segs.
Proof.
  intros shape1 shape2 ds m Hlen Hpos Hcomp Hfits. set (k := (length longer - length shorter)%nat).
  set (cs := if first then zip (reverse (drop k longer)) (reverse shorter) else zip (reverse shorter) (reverse (drop k longer))).
  assert (Hds : ds = cs ++ (alone first <$> reverse (take k longer))).
  { unfold ds, cs, shape1, shape2. pose proof (dims_of_longer first longer shorter ltac:(lia)) as Hd.
    fold k in Hd. by destruct first. }
  assert (Hcs : length cs = length shorter).
  { unfold cs. destruct first; rewrite length_zip_with, !length_reverse, length_drop; lia. }
  rewrite Hds in Hpos, Hcomp, Hfits |- *. apply Forall_app in Hpos as [Hpos Hpos']. apply Forall_app in Hcomp as [Hcomp _].
  assert (Hrev : forall j d, reverse (drop k longer) !! j = Some d -> longer.[zlength longer - (Z.of_nat j + 1)] = Some d).
  { intros j d Hj. apply reverse_lookup_from_end. rewrite <- (take_drop k longer), reverse_app. by apply lookup_app_l_Some. }
  destruct (common_loop shape1 shape2 cs s) as (r & segs & Hrun & Hr & Hc & Hl); [|done|done|by eapply fits_app|lia|].
  { intros j p Hj. unfold cs, shape1, shape2 in *. destruct first; apply zip_lookup in Hj as [Hj1 Hj2];
      (split; [first [by apply Hrev|by apply reverse_lookup_from_end]|first [by apply Hrev|by apply reverse_lookup_from_end]]). }
  destruct (extras_ok first longer (take k longer) r cs segs s) as (r' & segs' & Hrun' & Hok); try done.
  { intros j d Hj. apply lookup_take_Some in Hj as [Hj _]. unfold zlookup.
    destruct (Z.ltb_spec (Z.of_nat j) 0); [lia|]. by rewrite Nat2Z.id. }
  { by eapply alone_dims_positive. }
  { intros Hn%(f_equal length). rewrite length_take in Hn. cbn in Hn. lia. }
  { rewrite length_take. lia. }
  exists r, r', segs'. split_and!; [|..|done].
  - replace (zlength shorter) with (zlength cs) by (unfold zlength; lia). exact Hrun.
  - replace (m - 1) with (zlength (take k longer) - 1) by (unfold m, zlength; rewrite length_take; lia). exact Hrun'.
Qed.

Lemma reduced_to_eq r segs : arrays r segs ->
  (let '(stride1, stride2) := zero_strides
    (compressed_strides 1 (compressed_input1_shape r)) (compressed_strides 1 (compressed_input2_shape r))
    (compressed_input1_shape r) (compressed_input2_shape r) in
  Some (stride1, stride2, compressed_output_shape r)) = Some (reduced_to segs).
Proof. intros [_ -> -> ->]. unfold reduced_to. by destruct (zero_strides _ _ _ _). Qed.

(** The reduction of two shapes that can be broadcast stands for all their dimensions. *)
Lemma ReduceDimensionsForBroadcast_ok {S} (shape1 shape2 : RuntimeShape) (s : S) :
  let ds := dims_of (Nat.max (length shape1) (length shape2)) shape1 shape2 in
  (length shape1 <= 6)%nat -> (length shape2 <= 6)%nat -> Forall positive ds -> Forall compatible ds -> fits ds ->
  exists segs, ReduceDimensionsForBroadcast shape1 shape2 s = (Done (Some (reduced_to segs)), s) /\
    Forall positive segs /\ Forall compatible segs /\ (length segs <= 6)%nat /\ compresses ds segs.
Proof.
  intros ds Hl1 Hl2 Hpos Hcomp Hfits. unfold ReduceDimensionsForBroadcast, DimensionsCount.
  destruct (Nat.lt_trichotomy (length shape1) (length shape2)) as [Hlt|[Heq|Hlt]].
  - unfold ds in *. rewrite Nat.max_r in * by lia.
    destruct (longer_loops false shape2 shape1 s) as (r & r' & segs & Hrun & Hrun' & Hok); [lia|done..|].
    rewrite Z.min_l by (unfold zlength; lia). erewrite bind_done by done.
    destruct (Z.ltb_spec (zlength shape2) (zlength shape1)); [unfold zlength in *; lia|].
    destruct (Z.ltb_spec (zlength shape1) (zlength shape2)); [|unfold zlength in *; lia].
    cbn [fmap option_fmap option_map]. erewrite bind_done by exact Hrun'.
    unfold ret. rewrite (reduced_to_eq _ _ (ok_arrays _ _ _ Hok)). exists segs. split_and!; [done|apply Hok..].
  - set (cs := zip (reverse shape1) (reverse shape2)).
    assert (Hds : ds = cs).
    { unfold ds, dims_of, cs. rewrite !reverse_extend, Heq, Nat.max_id, Nat.sub_diag. by rewrite !app_nil_r. }
    rewrite Hds in *. assert (Hcs : length cs = length shape1).
    { unfold cs. rewrite length_zip_with, !length_reverse. lia. }
    destruct (common_loop shape1 shape2 cs s) as (r & segs & Hrun & Hr & Hc & Hl); [|done..|lia|].
    { intros k p [Hk1 Hk2]%zip_lookup. split; by apply reverse_lookup_from_end. }
    replace (Z.min (zlength shape1) (zlength shape2)) with (zlength cs) by (unfold zlength; lia).
    erewrite bind_done by done.
    destruct (Z.ltb_spec (zlength shape2) (zlength shape1)); [unfold zlength in *; lia|].
    destruct (Z.ltb_spec (zlength shape1) (zlength shape2)); [unfold zlength in *; lia|].
    unfold bind, ret. rewrite (reduced_to_eq _ _ (r_arrays _ _ Hr)). exists segs. split_and!; [done|apply Hr|apply Hr|lia|done].
  - unfold ds in *. rewrite Nat.max_l in * by lia.
    destruct (longer_loops true shape1 shape2 s) as (r & r' & segs & Hrun & Hrun' & Hok); [lia|done..|].
    rewrite Z.min_r by (unfold zlength; lia). erewrite bind_done by done.
    destruct (Z.ltb_spec (zlength shape2) (zlength shape1)); [|unfold zlength in *; lia].
    cbn [fmap option_fmap option_map]. erewrite bind_done by exact Hrun'.
    unfold ret. rewrite (reduced_to_eq _ _ (ok_arrays _ _ _ Hok)). exists segs. split_and!; [done|apply Hok..].
Qed.
