(* ===== verification/KernelBroadcastProof.v ===== *)
(** * Broadcasting, theorems

    The recursions of the addition and of the multiplication are loops over the offsets of their
    operands, and those are the offsets of the indices of the output, with an input repeated along its
    dimensions of one.  Hence what both compute, and the shape of the output. *)
From S2P Require Import Prelude Shape KernelTranspose KernelBroadcast BroadcastReduce.

(** ** The recursions as loops over the offsets *)

Section Emit.
Context (el : Z -> Z -> Z -> M (list Z) unit).

(** The elements of the output in their order, from the pairs of offsets of their operands. *)
Definition emit (l : list (Z * Z)) (o1 o2 oo : Z) : M (list Z) Z :=
  for_fold l oo (fun oo ab => el (o1 + fst ab) (o2 + snd ab) oo ;;; ret (oo + 1)).

Lemma emit_app l l' o1 o2 oo v : emit (l ++ l') o1 o2 oo v = (let* oo := emit l o1 o2 oo in emit l' o1 o2 oo) v.
Proof.
  unfold emit. revert oo v. induction l as [|ab l IH]; intros oo v; [done|]. cbn [app for_fold].
  unfold bind in *. destruct (el _ _ _ v) as [[]]; [apply IH|done..].
Qed.

Lemma emit_shift x y l o1 o2 oo v : emit (shift x y <$> l) o1 o2 oo v = emit l (o1 + x) (o2 + y) oo v.
Proof.
  unfold emit. revert oo v. induction l as [|ab l IH]; intros oo v; [done|]. cbn [fmap list_fmap for_fold].
  unfold shift at 1 2. cbn [fst snd]. rewrite !Z.add_assoc. unfold bind in *. destruct (el _ _ _ v) as [[]]; [apply IH|done..].
Qed.

Lemma emit_done l o1 o2 oo v oo' v' : emit l o1 o2 oo v = (Done oo', v') -> oo' = oo + zlength l.
Proof.
  unfold emit. revert oo v. induction l as [|ab l IH]; intros oo v.
  - intros [= <- <-]. unfold zlength. cbn. lia.
  - cbn [for_fold]. unfold bind in *. destruct (el _ _ _ v) as [[]]; [|done..]. intros H%IH. rewrite zlength_cons. lia.
Qed.

(** The call of an inner recursion, seen from its offset in the output. *)
Definition emits (inner : Z * Z * Z -> M (list Z) (Z * Z * Z)) (room1 room2 : Z) (l : list (Z * Z)) : Prop :=
  forall p1 p2 q v, 0 <= p1 -> p1 + room1 <= SIZE_MAX -> 0 <= p2 -> p2 + room2 <= SIZE_MAX ->
    0 <= q -> q + zlength l <= SIZE_MAX ->
    (let* after := inner (p1, p2, q) in ret (snd after)) v = emit l p1 p2 q v.

(** The loop of a recursion over the dimension that is the slowest of those it sees. *)
Lemma emits_loop inner room1 room2 l n t1 t2 : emits inner room1 room2 l -> 0 <= n -> 0 <= t1 -> 0 <= t2 ->
  0 <= room1 -> 0 <= room2 ->
  emits (fun offsets => for_fold (zrange 0 (n - 1)) offsets (fun offsets _ =>
      let '(input1_offset, input2_offset, output_offset) := offsets in
      let* after := inner offsets in
      ret (size_wrap (input1_offset + t1), size_wrap (input2_offset + t2), snd after)))
    (n * t1 + room1) (n * t2 + room2) (i ← zrange 0 (n - 1); shift (i * t1) (i * t2) <$> l).
Proof.
  intros Hinner Hn Ht1 Ht2 Hr1 Hr2 o1 o2 oo v Ho1 Hm1 Ho2 Hm2 Hoo Hmo.
  cut (forall k a oo v, n = a + Z.of_nat k -> 0 <= a -> 0 <= oo ->
    oo + zlength (i ← zrange a (n - 1); shift (i * t1) (i * t2) <$> l) <= SIZE_MAX ->
    (let* r := for_fold (zrange a (n - 1)) (o1 + a * t1, o2 + a * t2, oo) (fun offsets _ =>
        let '(input1_offset, input2_offset, output_offset) := offsets in
        let* after := inner offsets in
        ret (size_wrap (input1_offset + t1), size_wrap (input2_offset + t2), snd after)) in ret (snd r)) v
    = emit (i ← zrange a (n - 1); shift (i * t1) (i * t2) <$> l) o1 o2 oo v).
  { intros H. specialize (H (Z.to_nat n) 0 oo v). rewrite !Z.mul_0_l, !Z.add_0_r in H. apply H; lia. }
  clear oo v Hoo Hmo. intros k. induction k as [|k IH]; intros a oo v Hk Ha Hoo Hmo.
  - by rewrite zrange_nil by lia.
  - rewrite zrange_cons, bind_cons in * by lia. rewrite zlength_app in Hmo.
    assert (Hlen : zlength (shift (a * t1) (a * t2) <$> l) = zlength l) by (unfold zlength; by rewrite length_fmap).
    pose proof (zlength_nonneg (zrange (a + 1) (n - 1) ≫= (fun i => shift (i * t1) (i * t2) <$> l))) as Hrest.
    assert (Ha1 : a * t1 + t1 <= n * t1) by nia. assert (Ha2 : a * t2 + t2 <= n * t2) by nia.
    rewrite emit_app. cbn [for_fold]. rewrite !bind_assoc.
    specialize (Hinner (o1 + a * t1) (o2 + a * t2) oo v ltac:(nia) ltac:(nia) ltac:(nia) ltac:(nia) ltac:(lia) ltac:(lia)).
    unfold bind at 1 in Hinner. rewrite <- emit_shift in Hinner.
    destruct (inner (o1 + a * t1, o2 + a * t2, oo) v) as [[[[p1 p2] q]|e|] v'] eqn:Hi.
    + erewrite bind_done by exact Hi. rewrite bind_ret. symmetry in Hinner.
      erewrite (bind_done (emit _ _ _ _)) by exact Hinner. rewrite emit_shift in Hinner. apply emit_done in Hinner. cbn [snd] in *. subst q.
      rewrite !size_wrap_small by nia.
      replace (o1 + a * t1 + t1) with (o1 + (a + 1) * t1) by lia. replace (o2 + a * t2 + t2) with (o2 + (a + 1) * t2) by lia.
      pose proof (zlength_nonneg l). apply IH; lia.
    + erewrite bind_fail by exact Hi. by erewrite bind_fail by exact (eq_sym Hinner).
    + erewrite bind_undef by exact Hi. by erewrite bind_undef by exact (eq_sym Hinner).
Qed.
End Emit.

(** How far the offsets of an input go. *)
Definition room (stride : Z * Z * Z -> Z) (es : list (Z * Z * Z)) : Z := foldr (fun e r => extent_of e * stride e + r) 0 es.

Lemma room_snoc stride es e : room stride (es ++ [e]) = extent_of e * stride e + room stride es.
Proof. unfold room. induction es as [|e' es IH]; cbn; [done|]. rewrite IH. lia. Qed.

(** Dimensions with a sensible extent and sensible strides. *)
Definition walkable (e : Z * Z * Z) : Prop := 0 <= extent_of e /\ 0 <= stride1_of e /\ 0 <= stride2_of e.

Lemma room_nonneg stride es : (forall e, walkable e -> 0 <= stride e) -> Forall walkable es -> 0 <= room stride es.
Proof. intros Hs. induction 1 as [|e es He Hes IH]; cbn; [lia|]. specialize (Hs e He). destruct He as [? _]. unfold room in *. nia. Qed.

Lemma emit_counter el n t1 t2 o1 o2 oo v : 0 <= n ->
  (for_int n (fun c => el (o1 + c * t1) (o2 + c * t2) (oo + c)) ;;; ret (oo + n)) v
  = emit el ((fun i => (0 + i * t1, 0 + i * t2)) <$> zrange 0 (n - 1)) o1 o2 oo v.
Proof.
  intros Hn. unfold for_int.
  cut (forall k a v, n = a + Z.of_nat k -> 0 <= a ->
    (for_each (zrange a (n - 1)) (fun c => el (o1 + c * t1) (o2 + c * t2) (oo + c)) ;;; ret (oo + n)) v
    = emit el ((fun i => (0 + i * t1, 0 + i * t2)) <$> zrange a (n - 1)) o1 o2 (oo + a) v).
  { intros H. specialize (H (Z.to_nat n) 0 v). rewrite Z.add_0_r in H. apply H; lia. }
  clear v. intros k. induction k as [|k IH]; intros a v Hk Ha.
  - rewrite zrange_nil by lia. cbn. unfold bind, ret. do 3 f_equal. lia.
  - rewrite zrange_cons by lia. cbn [for_each fmap list_fmap]. unfold emit. cbn [for_fold fst snd]. rewrite !bind_assoc.
    unfold bind at 1 3. rewrite !Z.add_0_l. destruct (el _ _ _ v) as [[]]; [|done..].
    rewrite (IH (a + 1)) by lia. unfold emit. rewrite bind_ret. by replace (oo + a + 1) with (oo + (a + 1)) by lia.
Qed.

Section Recursions.
Context (amin amax : Z) (in1 in2 : list Z).

Definition add_at (a b o : Z) : M (list Z) unit := add_element amin amax (in1.[a]) (in2.[b]) o.

Lemma add_element_comm x y o v : add_element amin amax x y o v = add_element amin amax y x o v.
Proof. unfold add_element. destruct x, y; cbn; try done. by rewrite Z.add_comm. Qed.

(** The fastest dimension of compressed ones: strides of one and of zero. *)
Definition fastest (e : Z * Z * Z) : Prop :=
  (stride1_of e = 0 /\ stride2_of e = 1) \/ (stride1_of e = 1 /\ stride2_of e = 0) \/ (stride1_of e = 1 /\ stride2_of e = 1).

Lemma add_leaf n t1 t2 o1 o2 oo v : fastest (n, t1, t2) -> 0 <= n -> 0 <= oo -> oo + n <= SIZE_MAX ->
  (let* after :=
     (if t1 =? 0 then
        AddBroadcast amin amax in2 o2 in1 o1 oo n ;;; ret (o1, size_wrap (o2 + n), size_wrap (oo + n))
      else if t2 =? 0 then
        AddBroadcast amin amax in1 o1 in2 o2 oo n ;;; ret (size_wrap (o1 + n), o2, size_wrap (oo + n))
      else
        AddElementwise amin amax in1 in2 o1 o2 oo n ;;; ret (size_wrap (o1 + n), size_wrap (o2 + n), size_wrap (oo + n)))
   in ret (snd after)) v
  = (for_int n (fun c => add_at (o1 + c * t1) (o2 + c * t2) (oo + c)) ;;; ret (oo + n)) v.
Proof.
  intros Hf Hn Hoo Hm. rewrite (size_wrap_small (oo + n)) by lia.
  assert (Hbody : forall (b : M (list Z) unit) (p : Z -> M (list Z) unit) (x y : Z),
    b v = for_int n p v -> (let* after := (b ;;; ret (x, y, oo + n)) in ret (snd after)) v = (for_int n p ;;; ret (oo + n)) v).
  { intros b p x y Hb. unfold bind. rewrite Hb. by destruct (for_int n p v) as [[]]. }
  destruct Hf as [[H1 H2]|[[H1 H2]|[H1 H2]]]; cbn in H1, H2; subst; cbn [Z.eqb]; apply Hbody; apply for_each_ext; intros c v' _.
  - unfold add_at. rewrite add_element_comm. f_equal; f_equal; f_equal; lia.
  - unfold add_at. f_equal; f_equal; f_equal; lia.
  - unfold add_at. f_equal; f_equal; f_equal; lia.
Qed.

(** What the arrays hold of the dimensions [es]. *)
Definition arrays_of (es : list (Z * Z * Z)) (t1s t2s ns : list Z) : Prop :=
  forall j e, es !! j = Some e -> ns.[Z.of_nat j] = Some (extent_of e) /\
    t1s.[Z.of_nat j] = Some (stride1_of e) /\ t2s.[Z.of_nat j] = Some (stride2_of e).

Lemma add_emits d es t1s t2s ns : length es = Datatypes.S d -> arrays_of es t1s t2s ns -> Forall walkable es ->
  (forall e, es !! 0%nat = Some e -> fastest e) ->
  emits add_at (fun off => BroadcastAddRecursiveDimensions amin amax in1 in2 d off t1s t2s ns)
    (room stride1_of es) (room stride2_of es) (soffs es).
Proof.
  revert es. induction d as [|d IH]; intros es Hlen Ha Hw Hfast.
  - destruct es as [|[[n t1] t2] [|]]; try done. destruct (Ha 0%nat _ eq_refl) as (Hn & Ht1 & Ht2). cbn in Hn, Ht1, Ht2.
    apply Forall_inv in Hw as (Hn0 & Hs1 & Hs2). cbn in Hn0, Hs1, Hs2.
    intros o1 o2 oo v Ho1 Hm1 Ho2 Hm2 Hoo Hmo. cbn [soffs] in *. cbn [mbind list_bind] in *. rewrite app_nil_r in *.
    cbn [fst snd] in *.
    assert (Hzl : zlength ((fun i => (0 + i * t1, 0 + i * t2)) <$> zrange 0 (n - 1)) = n).
    { unfold zlength. rewrite length_fmap, length_zrange. lia. }
    rewrite Hzl in Hmo. rewrite <- emit_counter by done. rewrite <- (add_leaf n t1 t2) by (by apply Hfast || done).
    cbn [BroadcastAddRecursiveDimensions]. rewrite !bind_assoc. change (Z.of_nat 0) with 0 in *.
    erewrite bind_access by done. rewrite bind_assoc. erewrite bind_access by done. rewrite bind_assoc.
    by erewrite bind_access by done.
  - destruct es as [|[[n t1] t2] l _] using rev_ind; [done|]. rewrite length_app in Hlen. cbn in Hlen.
    destruct (Ha (Datatypes.S d) (n, t1, t2)) as (Hn & Ht1 & Ht2); [by replace (Datatypes.S d) with (length l) by lia; apply list_lookup_middle|].
    apply Forall_app in Hw as [Hw He]. apply Forall_inv in He as (Hn0 & Hs1 & Hs2). cbn in Hn0, Hs1, Hs2, Hn, Ht1, Ht2.
    assert (Hinner : emits add_at (fun off => BroadcastAddRecursiveDimensions amin amax in1 in2 d off t1s t2s ns)
      (room stride1_of l) (room stride2_of l) (soffs l)).
    { apply IH; [lia| |done|].
      - intros j e Hj. apply Ha. by apply lookup_app_l_Some.
      - intros e He. apply Hfast. by apply lookup_app_l_Some. }
    apply (emits_loop add_at _ _ _ _ n t1 t2) in Hinner; [|done|done|done|by apply room_nonneg; [by intros ? (?&?&?)|]|by apply room_nonneg; [by intros ? (?&?&?)|]].
    rewrite soffs_snoc, !room_snoc. intros o1 o2 oo v Ho1 Hm1 Ho2 Hm2 Hoo Hmo.
    rewrite <- (Hinner o1 o2 oo v) by done. cbn [BroadcastAddRecursiveDimensions].
    rewrite !bind_assoc. erewrite bind_access by done. rewrite bind_assoc. erewrite bind_access by done. rewrite bind_assoc.
    by erewrite bind_access by done.
Qed.
End Recursions.

(** ** The reference: every index of the output *)

(** The index of the operand: an input is repeated along its dimensions of one. *)
Definition operand_index (dims idx : list Z) : list Z := zip_with (fun d i => if d =? 1 then 0 else i) dims idx.

Lemma operand_in_box (dims other idx : list Z) : Forall positive (zip dims other) -> Forall compatible (zip dims other) ->
  length dims = length other -> in_box (bdim <$> zip dims other) idx ->
  in_box dims (operand_index dims idx) /\ in_box other (operand_index other idx).
Proof.
  intros Hp Hc Hlen Hb. revert other idx Hp Hc Hlen Hb.
  induction dims as [|d dims IH]; intros [|e other] idx Hp Hc Hlen Hb; try done.
  { inversion Hb; subst. split; constructor. }
  cbn in Hp, Hc, Hb. inversion Hb as [|? i ? idx' Hi Hb']; subst. apply Forall_cons in Hp as [[Hd He] Hp], Hc as [Hc Hc'].
  destruct (IH other idx') as [H1 H2]; [done|done|by injection Hlen|done|]. cbn in Hd, He, Hi.
  unfold bdim in Hi. cbn in Hi. unfold operand_index in *. cbn.
  split; (constructor; [|done]); destruct Hc as [Hc|[Hc|Hc]]; cbn in Hc; subst;
    repeat match goal with |- context [?x =? 1] => destruct (Z.eqb_spec x 1) | H : context [?x =? 1] |- _ => destruct (Z.eqb_spec x 1) end; lia.
Qed.

(** The offsets of both operands, for the indices of the output in their order. *)
Lemma soffs_box (ps : list (Z * Z)) : Forall positive ps -> Forall compatible ps ->
  soffs (annot (reverse ps) 1 1) =
  (fun idx => (row_major (fst <$> ps) (operand_index (fst <$> ps) idx), row_major (snd <$> ps) (operand_index (snd <$> ps) idx)))
    <$> box (bdim <$> ps).
Proof.
  intros Hp Hc. induction Hp as [|[d1 d2] ps [Hd1 Hd2] Hp IH]; [done|]. apply Forall_cons in Hc as [Hc Hc'].
  rewrite reverse_cons, annot_app. cbn [annot]. rewrite soffs_snoc, IH by done. cbn [fmap list_fmap box].
  rewrite list_fmap_bind. apply list_bind_ext'. intros i Hi%elem_of_zrange. rewrite <- !list_fmap_compose.
  apply list_fmap_ext'. intros idx Hidx%elem_of_box%in_box_length. rewrite length_fmap in Hidx. unfold compose, shift.
  cbn [fst snd]. unfold operand_index. cbn [zip_with].
  rewrite !row_major_cons by (rewrite length_zip_with, length_fmap; lia).
  assert (Hrev : forall f, product (f <$> reverse ps) = product (f <$> ps)).
  { intros f. by rewrite fmap_reverse, product_reverse. }
  rewrite !Hrev, !Z.mul_1_l. unfold bdim in Hi. cbn [fst snd] in *. unfold bstride.
  f_equal; f_equal; destruct Hc as [Hc|[Hc|Hc]]; cbn [fst snd] in Hc; subst;
    repeat match goal with |- context [?x =? 1] => destruct (Z.eqb_spec x 1) | H : context [?x =? 1] |- _ => destruct (Z.eqb_spec x 1) end;
    cbn [andb negb] in *; try lia; assert (i = 0) as -> by lia; lia.
Qed.

Lemma box_row_major dims : Forall (Z.lt 0) dims -> row_major dims <$> box dims = zrange 0 (product dims - 1).
Proof.
  induction 1 as [|d dims Hd Hds IH]; [done|]. cbn [box]. rewrite list_fmap_bind, product_cons, Z.mul_comm.
  assert (0 < product dims) by (clear -Hds; induction Hds; [done|rewrite product_cons; nia]).
  rewrite <- zrange_product by lia. apply list_bind_ext'. intros i _. rewrite <- IH, <- !list_fmap_compose.
  apply list_fmap_ext'. intros idx Hidx%elem_of_box%in_box_length. unfold compose. by rewrite row_major_cons.
Qed.

Lemma emit_for_each {A} el (f : A -> Z * Z) (g : A -> Z) l oo v : g <$> l = zrange oo (oo + zlength l - 1) ->
  (emit el (f <$> l) 0 0 oo ;;; ret tt) v = for_each l (fun x => el (fst (f x)) (snd (f x)) (g x)) v.
Proof.
  revert oo v. induction l as [|x l IH]; intros oo v Hg; [done|].
  rewrite zlength_cons in Hg. pose proof (zlength_nonneg l). rewrite zrange_cons in Hg by lia.
  cbn [fmap list_fmap] in Hg. injection Hg as Hx Hg.
  unfold emit in *. cbn [fmap list_fmap for_fold for_each]. rewrite !bind_assoc, Hx, !Z.add_0_l.
  destruct (el (fst (f x)) (snd (f x)) oo v) as [[[]|e|] v'] eqn:He.
  - rewrite (bind_done _ _ _ _ _ He), bind_ret, (bind_done _ _ _ _ _ He). apply IH. rewrite Hg. f_equal. lia.
  - by rewrite !(bind_fail _ _ _ _ _ He).
  - by rewrite !(bind_undef _ _ _ _ He).
Qed.

(** ** The compressed dimensions with ones behind *)

Definition filled (segs : list (Z * Z)) : list (Z * Z) := segs ++ replicate (6 - length segs) (1, 1).

Lemma filled_compresses segs : compresses segs (filled segs).
Proof.
  unfold filled. generalize (6 - length segs)%nat. intros n. induction n as [|n IH].
  - cbn. rewrite app_nil_r. apply compresses_refl.
  - eapply compresses_trans; [exact IH|]. apply compresses_sym.
    replace (replicate (Datatypes.S n) (1, 1)) with (replicate n (1, 1) ++ [(1, 1)]) by (symmetry; apply replicate_cons_app).
    rewrite app_assoc. apply compresses_unit.
Qed.

Lemma padded_filled f segs : f (1, 1) = 1 -> padded f segs = f <$> filled segs.
Proof. intros H. unfold padded, filled. by rewrite fmap_app, fmap_replicate, H. Qed.

Lemma extent_annot ds s1 s2 : extent_of <$> annot ds s1 s2 = bdim <$> ds.
Proof. revert s1 s2. induction ds as [|[d1 d2] ds IH]; intros s1 s2; cbn; [done|]. by rewrite IH. Qed.

Lemma length_annot ds s1 s2 : length (annot ds s1 s2) = length ds.
Proof. revert s1 s2. induction ds as [|[d1 d2] ds IH]; intros s1 s2; cbn; [done|]. by rewrite IH. Qed.

Lemma walkable_annot ds s1 s2 : Forall positive ds -> 0 <= s1 -> 0 <= s2 -> Forall walkable (annot ds s1 s2).
Proof.
  intros Hp. revert s1 s2. induction Hp as [|[d1 d2] ds [Hd1 Hd2] Hp IH]; intros s1 s2 H1 H2; cbn; constructor.
  - cbn in *. pose proof (positive_bdim (d1, d2) (conj Hd1 Hd2)). pose proof (bstride_le d1 d2 s1 H1).
    pose proof (bstride_le d2 d1 s2 H2). unfold walkable, extent_of, stride1_of, stride2_of. cbn. lia.
  - cbn in *. apply IH; nia.
Qed.

Lemma room_annot ds s1 s2 m : Forall positive ds -> Forall compatible ds -> 0 < s1 -> 0 < s2 ->
  s1 * product (fst <$> ds) <= m -> s2 * product (snd <$> ds) <= m ->
  room stride1_of (annot ds s1 s2) <= zlength ds * m /\ room stride2_of (annot ds s1 s2) <= zlength ds * m.
Proof.
  intros Hp Hc. revert s1 s2. induction Hp as [|[d1 d2] ds [Hd1 Hd2] Hp IH]; intros s1 s2 H1 H2 Hm1 Hm2.
  { unfold zlength. cbn. lia. }
  apply Forall_cons in Hc as [Hc Hc']. rewrite !fmap_cons, !product_cons in *. cbn [fst snd] in *.
  assert (Hf : forall f, (forall x, positive x -> 0 < f x) -> 0 < product (f <$> ds)).
  { intros f Hf. clear -Hf Hp. induction Hp as [|x l Hx _ IH]; [done|]. rewrite fmap_cons, product_cons.
    specialize (Hf x Hx). nia. }
  pose proof (Hf fst ltac:(by intros ? [])). pose proof (Hf snd ltac:(by intros ? [])).
  destruct (IH ltac:(done) (s1 * d1) (s2 * d2)) as [Hr1 Hr2]; [nia..|].
  rewrite zlength_cons. cbn [annot room foldr]. unfold room in Hr1, Hr2.
  unfold extent_of at 1 3, stride1_of at 1, stride2_of at 1. cbn [fst snd].
  assert (s1 * d1 <= m) by nia. assert (s2 * d2 <= m) by nia.
  assert (Hone : bdim (d1, d2) * bstride d1 d2 s1 <= m /\ bdim (d1, d2) * bstride d2 d1 s2 <= m).
  { unfold bdim, bstride. cbn [fst snd]. destruct Hc as [Hc|[Hc|Hc]]; cbn [fst snd] in Hc; subst;
      repeat match goal with |- context [?x =? 1] => destruct (Z.eqb_spec x 1) end; cbn [andb negb]; subst; nia. }
  lia.
Qed.

Lemma reduced_to_annot segs : Forall positive segs -> Forall compatible segs -> fits segs ->
  let es := annot (filled segs) 1 1 in
  reduced_to segs = (stride1_of <$> es, stride2_of <$> es, extent_of <$> es) /\
  Forall positive (filled segs) /\ Forall compatible (filled segs) /\ fits (filled segs).
Proof.
  intros Hp Hc Hfits es. assert (Hp' : Forall positive (filled segs)).
  { apply Forall_app. split; [done|]. by apply Forall_replicate. }
  assert (Hc' : Forall compatible (filled segs)).
  { apply Forall_app. split; [done|]. apply Forall_replicate. by left. }
  assert (Hf' : fits (filled segs)) by (eapply compresses_fits; [apply filled_compresses|done]).
  split_and!; try done. unfold reduced_to. rewrite !padded_filled by done.
  pose proof Hf' as (H1 & H2 & _). rewrite zero_strides_ok by (done || lia). unfold es. by rewrite extent_annot.
Qed.

Lemma fmap_array (f : Z * Z * Z -> Z) es j e : es !! j = Some e -> (f <$> es).[Z.of_nat j] = Some (f e).
Proof.
  intros Hj. unfold zlookup. destruct (Z.ltb_spec (Z.of_nat j) 0); [lia|]. rewrite Nat2Z.id.
  by rewrite list_lookup_fmap, Hj.
Qed.

Lemma reverse_zip (a b : list Z) : length a = length b -> reverse (zip a b) = zip (reverse a) (reverse b).
Proof.
  revert b. induction a as [|x a IH]; intros [|y b] Hlen; try done. injection Hlen as Hlen.
  cbn [zip_with]. rewrite !reverse_cons, IH by done. rewrite zip_with_app by (by rewrite !length_reverse). done.
Qed.

(** A recursion that emits the offsets of the dimensions [ps] is the loop over the indices of the output. *)
Lemma run_emits el rec room1 room2 ps es v : Forall positive ps -> Forall compatible ps ->
  product (bdim <$> ps) <= INT32_MAX -> soffs es = soffs (annot (reverse ps) 1 1) ->
  emits el rec room1 room2 (soffs es) -> room1 <= SIZE_MAX -> room2 <= SIZE_MAX ->
  (rec (0, 0, 0) ;;; ret tt) v
  = for_each (box (bdim <$> ps)) (fun idx => el (row_major (fst <$> ps) (operand_index (fst <$> ps) idx))
      (row_major (snd <$> ps) (operand_index (snd <$> ps) idx)) (row_major (bdim <$> ps) idx)) v.
Proof.
  intros Hp Hc Ho Hes Hem H1 H2. rewrite soffs_box in Hes by done.
  assert (Hopos : Forall (Z.lt 0) (bdim <$> ps)).
  { rewrite Forall_fmap. eapply Forall_impl; [exact Hp|]. intros x. apply positive_bdim. }
  pose proof (box_row_major _ Hopos) as Hrm.
  assert (Hcount : zlength (box (bdim <$> ps)) = product (bdim <$> ps)).
  { unfold zlength. rewrite <- (length_fmap (row_major (bdim <$> ps))), Hrm, length_zrange.
    assert (0 <= product (bdim <$> ps)); [|lia]. apply product_nonneg.
    eapply Forall_impl; [exact Hopos|]. intros x. lia. }
  etransitivity; [|apply (emit_for_each el (fun idx => (row_major (fst <$> ps) (operand_index (fst <$> ps) idx),
    row_major (snd <$> ps) (operand_index (snd <$> ps) idx))) (row_major (bdim <$> ps)) _ 0 v)].
  - rewrite <- Hes.
    transitivity ((let* after := (let* after := rec (0, 0, 0) in ret (snd after)) in ret tt) v); [by rewrite bind_assoc|].
    apply bind_same, Hem; try lia. rewrite Hes. unfold zlength in *. rewrite length_fmap. unfold INT32_MAX, SIZE_MAX in *. lia.
  - rewrite Hrm. f_equal. lia.
Qed.

(** The dimensions of the addition, as pairs. *)
Section Dims.
Context (n : nat) (shape1 shape2 : list Z).
Let e1 := extend n shape1.
Let e2 := extend n shape2.
Hypothesis Hn1 : (length shape1 <= n)%nat.
Hypothesis Hn2 : (length shape2 <= n)%nat.

Lemma length_extend : length e1 = n /\ length e2 = n.
Proof. unfold e1, e2, extend. rewrite !length_app, !length_replicate. lia. Qed.

Lemma extend_pairs : fst <$> zip e1 e2 = e1 /\ snd <$> zip e1 e2 = e2 /\ dims_of n shape1 shape2 = reverse (zip e1 e2).
Proof.
  destruct length_extend. split_and!; [apply fst_zip; lia|apply snd_zip; lia|].
  unfold dims_of. fold e1 e2. symmetry. apply reverse_zip. lia.
Qed.

Lemma fits_extend : product e1 <= INT32_MAX -> product e2 <= INT32_MAX -> product (bdim <$> zip e1 e2) <= INT32_MAX ->
  fits (reverse (zip e1 e2)).
Proof.
  intros H1 H2 Ho. destruct extend_pairs as (Hf & Hs & _). unfold fits, totals.
  by rewrite !fmap_reverse, !product_reverse, Hf, Hs.
Qed.
End Dims.

(** The addition is the loop over the indices of the output. *)
Lemma BroadcastAdd6DSlow_loop amin amax in1 in2 shape1 shape2 v :
  let n := Nat.max (length shape1) (length shape2) in
  let e1 := extend n shape1 in
  let e2 := extend n shape2 in
  let odims := bdim <$> zip e1 e2 in
  (n <= 6)%nat -> Forall positive (zip e1 e2) -> Forall compatible (zip e1 e2) ->
  product e1 <= INT32_MAX -> product e2 <= INT32_MAX -> product odims <= INT32_MAX ->
  BroadcastAdd6DSlow amin amax in1 in2 shape1 shape2 v
  = for_each (box odims) (fun idx => add_at amin amax in1 in2
      (row_major e1 (operand_index e1 idx)) (row_major e2 (operand_index e2 idx)) (row_major odims idx)) v.
Proof.
  intros n e1 e2 odims Hn Hp Hc H1 H2 Ho.
  destruct (extend_pairs n shape1 shape2) as (Hfst & Hsnd & Hds); [lia..|].
  pose proof (fits_extend n shape1 shape2 ltac:(lia) ltac:(lia) H1 H2 Ho) as Hfr. fold e1 e2 in Hfst, Hsnd, Hds, Hfr.
  destruct (ReduceDimensionsForBroadcast_ok shape1 shape2 v) as (segs & Hrun & Hsp & Hsc & Hsl & Hcomp); fold n; try rewrite Hds;
    [lia|lia|by apply Forall_reverse|by apply Forall_reverse|done|].
  fold n in Hcomp. rewrite Hds in Hcomp. pose proof (compresses_fits _ _ Hcomp Hfr) as Hfits.
  destruct (reduced_to_annot segs Hsp Hsc Hfits) as (Hred & Hfp & Hfc & Hff).
  set (es := annot (filled segs) 1 1) in *.
  assert (Hes : length es = 6%nat) by (unfold es, filled; rewrite length_annot, length_app, length_replicate; lia).
  assert (Hzl : zlength (filled segs) = 6) by (unfold zlength; rewrite <- (length_annot _ 1 1); fold es; by rewrite Hes).
  pose proof Hff as (Hm1 & Hm2 & _).
  destruct (room_annot (filled segs) 1 1 INT32_MAX) as [Hr1 Hr2]; [done|done|lia|lia|lia|lia|]. fold es in Hr1, Hr2.
  unfold BroadcastAdd6DSlow. erewrite bind_done by exact Hrun. rewrite Hred.
  pose proof (run_emits (add_at amin amax in1 in2)
    (fun off => BroadcastAddRecursiveDimensions amin amax in1 in2 5 off (stride1_of <$> es) (stride2_of <$> es) (extent_of <$> es))
    (room stride1_of es) (room stride2_of es) (zip e1 e2) es v) as Hloop.
  rewrite Hfst, Hsnd in Hloop. apply Hloop; clear Hloop; [done|done|done| | |unfold INT32_MAX, SIZE_MAX in *; lia..].
  - pose proof (compresses_trans _ _ _ Hcomp (filled_compresses segs)) as [Hso _].
    specialize (Hso [] 1 1). rewrite !app_nil_r in Hso. unfold es. by symmetry.
  - apply add_emits; [done| | |].
    + intros j e Hj. split_and!; by apply fmap_array.
    + apply walkable_annot; [done|lia..].
    + intros e He. unfold es in He. destruct (filled segs) as [|[d1 d2] l]; [done|]. injection He as <-.
      apply Forall_inv in Hfc. unfold fastest, stride1_of, stride2_of, bstride. cbn.
      destruct Hfc as [Hx|[Hx|Hx]]; cbn in Hx; subst; repeat case_match; cbn in *; lia.
Qed.

(** ** Multiplication *)

Section Mul.
Context (amin amax : Z) (in1 in2 : list Z).

Definition mul_at (a b o : Z) : M (list Z) unit := multiply_element amin amax (in1.[a]) (in2.[b]) o.

(** The dimensions with their strides, the slowest first. *)
Fixpoint entries (ps : list (Z * Z)) : list (Z * Z * Z) :=
  match ps with
  | [] => []
  | (d1, d2) :: ps =>
    (bdim (d1, d2), bstride d1 d2 (product (fst <$> ps)), bstride d2 d1 (product (snd <$> ps))) :: entries ps
  end.

Lemma annot_entries ps : annot (reverse ps) 1 1 = reverse (entries ps).
Proof.
  induction ps as [|[d1 d2] ps IH]; [done|]. cbn [entries]. rewrite !reverse_cons, annot_app, IH. cbn [annot].
  by rewrite !fmap_reverse, !product_reverse, !Z.mul_1_l.
Qed.

Lemma mul_emits es : es <> [] -> Forall walkable es ->
  emits mul_at (BroadcastMulRecursiveDimensions amin amax in1 in2 (extent_of <$> es) (stride1_of <$> es) (stride2_of <$> es))
    (room stride1_of (reverse es)) (room stride2_of (reverse es)) (soffs (reverse es)).
Proof.
  induction es as [|[[n t1] t2] es IH]; intros Hne Hw; [done|].
  apply Forall_cons in Hw as [(Hn & Ht1 & Ht2) Hw]. cbn in Hn, Ht1, Ht2.
  rewrite reverse_cons, soffs_snoc, !room_snoc.
  assert (Hroom : 0 <= room stride1_of (reverse es) /\ 0 <= room stride2_of (reverse es)).
  { split; (apply room_nonneg; [by intros ? (?&?&?)|by apply Forall_reverse]). }
  destruct es as [|e es].
  - pose proof (emits_loop mul_at (fun p => mul_at (fst (fst p)) (snd (fst p)) (snd p) ;;; ret (fst p, size_wrap (snd p + 1)))
      0 0 [(0, 0)] n t1 t2) as Hl. cbn [reverse rev_append room foldr].
    intros o1 o2 oo v Ho1 Hm1 Ho2 Hm2 Hoo Hmo. rewrite <- Hl; [|..|done|done|done|done|done|done]; try lia.
    + cbn [fmap list_fmap BroadcastMulRecursiveDimensions]. apply bind_same. apply for_fold_ext.
      intros [[p1 p2] q] x s. unfold bind, mul_at. cbn [fst snd]. by destruct (multiply_element _ _ _ _ _ s) as [[]].
    + intros p1 p2 q w Hp1 Hr1 Hp2 Hr2 Hq Hrq. unfold emit. cbn [for_fold fst snd]. rewrite !Z.add_0_r. unfold zlength in Hrq. cbn in Hrq.
      rewrite size_wrap_small by lia. unfold bind, ret. by destruct (mul_at p1 p2 q w) as [[]].
  - pose proof (emits_loop mul_at _ _ _ _ n t1 t2 (IH ltac:(done) Hw) Hn Ht1 Ht2 (proj1 Hroom) (proj2 Hroom)) as Hl.
    intros o1 o2 oo v Ho1 Hm1 Ho2 Hm2 Hoo Hmo. rewrite <- (Hl o1 o2 oo v) by done. done.
Qed.
End Mul.

Lemma CopyDimsToDesc_ok {S} dims (s : S) : Forall (Z.lt 0) dims -> product dims <= INT32_MAX ->
  CopyDimsToDesc dims s = (Done (mkNdArrayDesc dims (strides dims)), s).
Proof.
  intros Hp Hm. unfold CopyDimsToDesc.
  rewrite (bind_done _ _ s (strides dims, product dims) s); [done|].
  induction Hp as [|d dims Hd Hp IH]; [done|]. rewrite product_cons in Hm. pose proof (product_pos _ Hp).
  rewrite reverse_cons, for_fold_app. erewrite bind_done by (apply IH; nia).
  cbn [for_fold]. rewrite bind_assoc. erewrite bind_done by (apply int_ok; unfold INT32_MIN; nia).
  rewrite !bind_ret. cbn [strides]. rewrite product_cons, Z.mul_comm. done.
Qed.

Lemma broadcast_descs_ok (e1 e2 : list Z) : length e1 = length e2 -> Forall positive (zip e1 e2) -> Forall compatible (zip e1 e2) ->
  broadcast_descs e1 e2 (strides e1) (strides e2)
  = (bdim <$> zip e1 e2, bdim <$> zip e1 e2, stride1_of <$> entries (zip e1 e2), stride2_of <$> entries (zip e1 e2)).
Proof.
  revert e2. induction e1 as [|d1 e1 IH]; intros [|d2 e2] Hlen Hp Hc; try done. injection Hlen as Hlen.
  apply Forall_cons in Hp as [[Hd1 Hd2] Hp], Hc as [Hc Hc']. cbn [strides broadcast_descs zip_with fmap list_fmap entries].
  rewrite IH by done. rewrite fst_zip, snd_zip by lia. cbn [fst snd] in *.
  assert (Hs1 : forall a b c, stride1_of (a, b, c) = b) by done. assert (Hs2 : forall a b c, stride2_of (a, b, c) = c) by done.
  rewrite Hs1, Hs2. destruct Hc as [Hc|[Hc|Hc]]; cbn [fst snd] in Hc; subst.
  - by rewrite Z.eqb_refl, bdim_same, !bstride_same.
  - rewrite bstride_other. destruct (Z.eqb_spec 1 d2) as [<-|Hne]; [done|]. unfold bstride.
    destruct (Z.eqb_spec d2 1); [lia|]. done.
  - rewrite bstride_other, bdim_other. unfold bstride. destruct (Z.eqb_spec d1 1) as [->|]; done.
Qed.

Lemma ExtendedShape_ok {S} n shape (s : S) : (length shape <= n)%nat ->
  ExtendedShape (Z.of_nat n) shape s = (Done (extend n shape), s).
Proof.
  intros Hn. unfold ExtendedShape, DimensionsCount, zlength, extend.
  destruct (Z.ltb_spec (Z.of_nat n) (Z.of_nat (length shape))); [lia|]. unfold ret. do 4 f_equal. lia.
Qed.

Lemma room_entries (e1 e2 : list Z) : Forall positive (zip e1 e2) -> Forall compatible (zip e1 e2) -> length e1 = length e2 ->
  product e1 <= INT32_MAX -> product e2 <= INT32_MAX ->
  let es := reverse (entries (zip e1 e2)) in
  room stride1_of es <= zlength e1 * INT32_MAX /\ room stride2_of es <= zlength e1 * INT32_MAX.
Proof.
  intros Hp Hc Hlen H1 H2 es. unfold es. rewrite <- annot_entries.
  replace (zlength e1) with (zlength (reverse (zip e1 e2))).
  - apply room_annot; [by apply Forall_reverse|by apply Forall_reverse|lia|lia|..];
      rewrite fmap_reverse, product_reverse, ?fst_zip, ?snd_zip by lia; lia.
  - unfold zlength. rewrite length_reverse, length_zip_with. lia.
Qed.

(** The multiplication is the loop over the indices of the output. *)
Lemma BroadcastMul6DSlow_loop amin amax in1 in2 shape1 shape2 oshape v :
  let e1 := extend 6 shape1 in
  let e2 := extend 6 shape2 in
  let odims := bdim <$> zip e1 e2 in
  (length shape1 <= 6)%nat -> (length shape2 <= 6)%nat -> (length oshape <= 6)%nat -> extend 6 oshape = odims ->
  Forall positive (zip e1 e2) -> Forall compatible (zip e1 e2) ->
  product e1 <= INT32_MAX -> product e2 <= INT32_MAX -> product odims <= INT32_MAX ->
  BroadcastMul6DSlow amin amax in1 in2 shape1 shape2 oshape v
  = for_each (box odims) (fun idx => mul_at amin amax in1 in2
      (row_major e1 (operand_index e1 idx)) (row_major e2 (operand_index e2 idx)) (row_major odims idx)) v.
Proof.
  intros e1 e2 odims Hl1 Hl2 Hlo Hout Hp Hc H1 H2 Ho.
  destruct (extend_pairs 6 shape1 shape2 Hl1 Hl2) as (Hfst & Hsnd & _).
  destruct (length_extend 6 shape1 shape2 Hl1 Hl2) as [Hn1 Hn2]. fold e1 e2 in Hfst, Hsnd, Hn1, Hn2.
  assert (Hp1 : Forall (Z.lt 0) e1).
  { rewrite <- Hfst, Forall_fmap. eapply Forall_impl; [exact Hp|]. by intros x []. }
  assert (Hp2 : Forall (Z.lt 0) e2).
  { rewrite <- Hsnd, Forall_fmap. eapply Forall_impl; [exact Hp|]. by intros x []. }
  unfold BroadcastMul6DSlow, NdArrayDescsForElementwiseBroadcast, kMaxMulBroadcastDim.
  rewrite bind_assoc. erewrite bind_done by by apply (ExtendedShape_ok 6).
  rewrite bind_assoc. erewrite bind_done by by apply (ExtendedShape_ok 6). fold e1 e2.
  rewrite bind_assoc. erewrite bind_done by by apply CopyDimsToDesc_ok.
  rewrite bind_assoc. erewrite bind_done by by apply CopyDimsToDesc_ok. cbn [nd_strides].
  rewrite broadcast_descs_ok by (done || lia). rewrite bind_ret. cbn [nd_strides].
  erewrite bind_done by by apply (ExtendedShape_ok 6). rewrite Hout. unfold odims.
  assert (Hent : extent_of <$> entries (zip e1 e2) = bdim <$> zip e1 e2).
  { clear. induction (zip e1 e2) as [|[d1 d2] ps IH]; [done|]. cbn. by rewrite IH. }
  assert (Hw : Forall walkable (entries (zip e1 e2))).
  { apply Forall_reverse. rewrite <- annot_entries. apply walkable_annot; [by apply Forall_reverse|lia..]. }
  rewrite <- Hent at 1.
  pose proof (room_entries e1 e2 Hp Hc ltac:(lia) H1 H2) as [Hr1 Hr2].
  assert (Hz : zlength e1 = 6) by (unfold zlength; lia). rewrite Hz in Hr1, Hr2.
  pose proof (run_emits (mul_at amin amax in1 in2) (BroadcastMulRecursiveDimensions amin amax in1 in2
    (extent_of <$> entries (zip e1 e2)) (stride1_of <$> entries (zip e1 e2)) (stride2_of <$> entries (zip e1 e2)))
    (room stride1_of (reverse (entries (zip e1 e2)))) (room stride2_of (reverse (entries (zip e1 e2))))
    (zip e1 e2) (reverse (entries (zip e1 e2))) v) as Hloop.
  rewrite Hfst, Hsnd in Hloop. apply Hloop; clear Hloop; [done|done|done|by rewrite annot_entries| | |].
  - apply mul_emits; [|done]. intros Hnil%(f_equal length). rewrite <- (length_fmap extent_of), Hent, length_fmap, length_zip_with in Hnil.
    cbn in Hnil. lia.
  - unfold INT32_MAX, SIZE_MAX in *. lia.
  - unfold INT32_MAX, SIZE_MAX in *. lia.
Qed.

(** ** The shape of the output *)

Definition broadcast_dim (p : Z * Z) : Z := if (fst p =? 0) || (snd p =? 0) then 0 else Z.max (fst p) (snd p).
Definition compatibleb (p : Z * Z) : bool := (fst p =? snd p) || (fst p =? 1) || (snd p =? 1).

Lemma compatibleb_spec ps : forallb compatibleb ps = true <-> Forall compatible ps.
Proof.
  rewrite forallb_forall, Forall_forall. setoid_rewrite <- list_elem_of_In. split; intros H p Hp; specialize (H p Hp);
    unfold compatible, compatibleb in *; destruct (Z.eqb_spec (fst p) (snd p)), (Z.eqb_spec (fst p) 1), (Z.eqb_spec (snd p) 1);
    cbn in *; intuition congruence.
Qed.

Lemma size_from_last_ok {S} n shape k d (s : S) : (length shape <= n)%nat -> reverse (extend n shape) !! k = Some d ->
  size_from_last shape (Z.of_nat k) s = (Done d, s).
Proof.
  intros Hn Hk. rewrite reverse_extend in Hk. unfold size_from_last, DimensionsCount.
  destruct (Z.leb_spec (zlength shape) (Z.of_nat k)) as [Hge|Hlt].
  - rewrite lookup_app_r in Hk by (rewrite length_reverse; unfold zlength in Hge; lia).
    apply lookup_replicate in Hk as [-> _]. done.
  - rewrite lookup_app_l in Hk by (rewrite length_reverse; unfold zlength in Hlt; lia).
    apply reverse_lookup_from_end in Hk. replace (zlength shape - Z.of_nat k - 1) with (zlength shape - (Z.of_nat k + 1)) by lia.
    by rewrite Hk.
Qed.

(** The shape is refused exactly where a dimension of one input is neither the other's nor one. *)
Lemma CalculateShapeForBroadcast_ok {S} shape1 shape2 (s : S) :
  let n := Nat.max (length shape1) (length shape2) in
  let ps := zip (extend n shape1) (extend n shape2) in
  CalculateShapeForBroadcast shape1 shape2 s
  = (if forallb compatibleb ps then Done (broadcast_dim <$> ps) else Fail kTfLiteError, s).
Proof.
  intros n ps. set (P := reverse ps).
  assert (Hn : length P = n).
  { unfold P, ps. rewrite length_reverse, length_zip_with. destruct (length_extend n shape1 shape2); lia. }
  assert (HP : forall k p, P !! k = Some p -> reverse (extend n shape1) !! k = Some (fst p) /\ reverse (extend n shape2) !! k = Some (snd p)).
  { intros k p Hk. unfold P, ps in Hk. rewrite reverse_zip in Hk by (destruct (length_extend n shape1 shape2); lia).
    by apply zip_lookup. }
  assert (Hall : forallb compatibleb P = forallb compatibleb ps).
  { apply eq_true_iff_eq. rewrite !compatibleb_spec. unfold P. split; intros H; [|by apply Forall_reverse].
    rewrite <- (reverse_involutive ps). by apply Forall_reverse. }
  unfold CalculateShapeForBroadcast, DimensionsCount.
  replace (Z.max (zlength shape1) (zlength shape2)) with (Z.of_nat n) by (unfold n, zlength; lia). rewrite Nat2Z.id, <- Hall.
  cut (forall m k, (m + k)%nat = n ->
    for_fold (zrange (Z.of_nat k) (Z.of_nat n - 1)) (replicate m 0 ++ reverse (broadcast_dim <$> take k P)) (fun shape i =>
      let* d1 := size_from_last shape1 i in
      let* d2 := size_from_last shape2 i in
      ensure ((d1 =? d2) || (d1 =? 1) || (d2 =? 1)) ;;;
      access (zinsert shape (Z.of_nat n - i - 1) (if (d1 =? 0) || (d2 =? 0) then 0 else Z.max d1 d2))) s
    = (if forallb compatibleb (drop k P) then Done (broadcast_dim <$> ps) else Fail kTfLiteError, s)).
  { intros H. specialize (H n 0%nat). cbn [take fmap list_fmap drop] in H. rewrite app_nil_r in H. apply H. lia. }
  intros m. induction m as [|m IH]; intros k Hk.
  - rewrite zrange_nil, drop_ge, take_ge by lia. cbn. unfold P. by rewrite fmap_reverse, reverse_involutive.
  - destruct (lookup_lt_is_Some_2 P k) as [[d1 d2] Hp]; [lia|]. destruct (HP k _ Hp) as [Hp1 Hp2]. cbn [fst snd] in *.
    rewrite zrange_cons by lia. cbn [for_fold]. rewrite bind_assoc.
    erewrite bind_done by (apply (size_from_last_ok n); [lia|done]). rewrite bind_assoc.
    erewrite bind_done by (apply (size_from_last_ok n); [lia|done]). rewrite bind_assoc.
    rewrite (drop_S P _ k Hp). cbn [forallb]. unfold compatibleb at 1. cbn [fst snd].
    destruct ((d1 =? d2) || (d1 =? 1) || (d2 =? 1)); [|done]. cbn [ensure andb]. rewrite bind_ret.
    rewrite zinsert_zset.
    2:{ unfold zlength. rewrite length_app, length_replicate, length_reverse, length_fmap, length_take. lia. }
    cbn [access]. rewrite bind_ret. replace (Z.of_nat k + 1) with (Z.of_nat (Datatypes.S k)) by lia.
    rewrite <- IH by lia. f_equal. unfold zset. replace (Z.to_nat (Z.of_nat n - Z.of_nat k - 1)) with m by lia.
    rewrite (take_S_r P k _ Hp), fmap_app, reverse_app. cbn [fmap list_fmap replicate]. unfold broadcast_dim at 2. cbn [fst snd].
    rewrite insert_app_l by (cbn; rewrite length_replicate; lia).
    replace (0 :: replicate m 0) with (replicate m 0 ++ [0]) by (symmetry; apply replicate_cons_app).
    rewrite insert_app_r_alt by (rewrite length_replicate; lia). rewrite length_replicate, Nat.sub_diag. cbn. by rewrite <- app_assoc.
Qed.

Lemma broadcast_dim_bdim ps : Forall positive ps -> Forall compatible ps -> broadcast_dim <$> ps = bdim <$> ps.
Proof.
  intros Hp Hc. apply list_fmap_ext'. intros [d1 d2] Hin. rewrite Forall_forall in Hp, Hc.
  destruct (Hp _ Hin) as [Hd1 Hd2], (Hc _ Hin) as [H|[H|H]]; cbn in Hd1, Hd2, H; subst;
    unfold broadcast_dim, bdim; cbn [fst snd]; repeat match goal with |- context [?x =? ?y] => destruct (Z.eqb_spec x y) end; cbn; lia.
Qed.

(** ** What the operators compute *)

Section Results.
Context (n : nat) (shape1 shape2 : list Z) (in1 in2 : list Z).
Context (Hn1 : (length shape1 <= n)%nat) (Hn2 : (length shape2 <= n)%nat).

(** The operands of an element of the output. *)
Definition operand1 (idx : list Z) : Z := zget in1 (row_major (extend n shape1) (operand_index (extend n shape1) idx)).
Definition operand2 (idx : list Z) : Z := zget in2 (row_major (extend n shape2) (operand_index (extend n shape2) idx)).

Definition shapes : list (Z * Z) := zip (extend n shape1) (extend n shape2).
Definition output_dims : list Z := bdim <$> shapes.

Lemma product_extend shape : product (extend n shape) = product shape.
Proof. unfold extend. by rewrite product_app, product_ones, Z.mul_1_l. Qed.

(** A loop over the indices of the output that stores [f] of the operands. *)
Lemma elements_stored (f : Z -> Z -> Z) el v : Forall positive shapes -> Forall compatible shapes ->
  zlength in1 = product shape1 -> zlength in2 = product shape2 -> zlength v = product output_dims ->
  (forall idx a b o w, in_box output_dims idx -> in1.[a] = Some (operand1 idx) -> in2.[b] = Some (operand2 idx) ->
    0 <= o < zlength w -> el a b o w = (Done tt, zset w o (f (operand1 idx) (operand2 idx)))) ->
  exists v', for_each (box output_dims) (fun idx => el (row_major (extend n shape1) (operand_index (extend n shape1) idx))
      (row_major (extend n shape2) (operand_index (extend n shape2) idx)) (row_major output_dims idx)) v = (Done tt, v') /\
    zlength v' = product output_dims /\
    forall idx, in_box output_dims idx -> v'.[row_major output_dims idx] = Some (f (operand1 idx) (operand2 idx)).
Proof.
  intros Hp Hc H1 H2 Hv Hel.
  destruct (length_extend n shape1 shape2 Hn1 Hn2) as [L1 L2].
  assert (Hin : forall idx, in_box output_dims idx ->
    in_box (extend n shape1) (operand_index (extend n shape1) idx) /\ in_box (extend n shape2) (operand_index (extend n shape2) idx)).
  { intros idx Hb. apply operand_in_box; [done|done|lia|done]. }
  destruct (for_each_stores (row_major output_dims) (fun idx => f (operand1 idx) (operand2 idx)) (box output_dims)
    (fun idx => el (row_major (extend n shape1) (operand_index (extend n shape1) idx))
      (row_major (extend n shape2) (operand_index (extend n shape2) idx)) (row_major output_dims idx)) v)
    as (v' & Hrun & Hlen & Hout & _).
  - intros idx w Hb%elem_of_box Hw. destruct (Hin idx Hb) as [Hb1 Hb2].
    apply row_major_range in Hb1, Hb2. rewrite product_extend in Hb1, Hb2.
    apply Hel; [done|apply zlookup_zget; lia|apply zlookup_zget; lia|]. rewrite Hw, Hv. by apply row_major_range.
  - intros idx Hb%elem_of_box. rewrite Hv. by apply row_major_range.
  - intros i j Hi%elem_of_box Hj%elem_of_box Heq. apply row_major_inj in Heq; [by subst|done..].
  - exists v'. rewrite Hlen, Hv. split_and!; [exact Hrun|done|]. intros idx Hb. by apply Hout, elem_of_box.
Qed.
End Results.

(** C25. Adding tensors of different shapes: [CalculateShapeForBroadcast] gives the shape of the output, and
    the addition over compressed dimensions stores, at every index of it, the clamped sum of the elements
    that the index stands for in each input, an input being repeated along its dimensions of one.  Every
    access is in range and no sum or offset overflows, for shapes of up to six dimensions whose elements
    can be counted by an [int] and whose sums fit. *)
Theorem BroadcastAdd6DSlow_spec amin amax shape1 shape2 in1 in2 out :
  let n := Nat.max (length shape1) (length shape2) in
  let oshape := output_dims n shape1 shape2 in
  (n <= 6)%nat -> Forall positive (shapes n shape1 shape2) -> Forall compatible (shapes n shape1 shape2) ->
  product shape1 <= INT32_MAX -> product shape2 <= INT32_MAX -> product oshape <= INT32_MAX ->
  zlength in1 = product shape1 -> zlength in2 = product shape2 -> zlength out = product oshape ->
  (forall idx, in_box oshape idx ->
    INT32_MIN <= operand1 n shape1 in1 idx + operand2 n shape2 in2 idx <= INT32_MAX) ->
  CalculateShapeForBroadcast shape1 shape2 out = (Done oshape, out) /\
  exists out', BroadcastAdd6DSlow amin amax in1 in2 shape1 shape2 out = (Done tt, out') /\
    zlength out' = product oshape /\
    forall idx, in_box oshape idx -> out'.[row_major oshape idx]
      = Some (ActivationFunctionWithMinMax (operand1 n shape1 in1 idx + operand2 n shape2 in2 idx) amin amax).
Proof.
  intros n oshape Hn Hp Hc H1 H2 Ho L1 L2 Lo Hfit. split.
  - rewrite CalculateShapeForBroadcast_ok. fold n. fold (shapes n shape1 shape2).
    rewrite (proj2 (compatibleb_spec _) Hc). by rewrite broadcast_dim_bdim.
  - destruct (elements_stored n shape1 shape2 in1 in2) with (v := out) (el := add_at amin amax in1 in2)
      (f := fun x y => ActivationFunctionWithMinMax (x + y) amin amax) as (v' & Hrun & Hlen & Hout); try done; try lia.
    + intros idx a b o w Hb Ha Hb' Hw. unfold add_at, add_element. rewrite Ha, Hb'. cbn [access]. rewrite !bind_ret.
      erewrite bind_done by (apply int_ok; by apply Hfit). by apply store_at_ok.
    + exists v'. split_and!; [|done|done]. rewrite <- Hrun. apply BroadcastAdd6DSlow_loop; try done.
      * fold n. by rewrite product_extend.
      * fold n. by rewrite product_extend.
Qed.

Lemma BroadcastAdd6DSlow_spec_witness :
  BroadcastAdd6DSlow 0 30 [1; 2; 3] [10; 40] [3; 1] [2] (replicate 6 0) = (Done tt, [11; 30; 12; 30; 13; 30]) /\
  CalculateShapeForBroadcast [3; 1] [2] (replicate 6 0) = (Done [3; 2], replicate 6 0) /\
  exists out', BroadcastAdd6DSlow 0 30 [1; 2; 3] [10; 40] [3; 1] [2] (replicate 6 0) = (Done tt, out') /\
    zlength out' = 6 /\ forall idx, in_box [3; 2] idx -> out'.[row_major [3; 2] idx]
      = Some (ActivationFunctionWithMinMax (operand1 2 [3; 1] [1; 2; 3] idx + operand2 2 [2] [10; 40] idx) 0 30).
Proof.
  refine (conj _ (BroadcastAdd6DSlow_spec 0 30 [3; 1] [2] [1; 2; 3] [10; 40] (replicate 6 0) _ _ _ _ _ _ _ _ _ _)).
  - reflexivity.
  - cbn. lia.
  - repeat constructor.
  - repeat constructor; unfold compatible; cbn; lia.
  - vm_compute. discriminate.
  - vm_compute. discriminate.
  - vm_compute. discriminate.
  - reflexivity.
  - reflexivity.
  - reflexivity.
  - intros idx Hb. apply elem_of_box in Hb. vm_compute in Hb. 
    repeat (apply elem_of_cons in Hb as [->|Hb]; [vm_compute; split; discriminate|]). by apply elem_of_nil in Hb.
Defined.

(** Multiplying tensors of different shapes, over the dimensions as they are with strides of zero where
    an input is repeated, stores at every index of the output the clamped product of the elements that
    it stands for; nothing is out of range and no product or offset overflows. *)
Theorem BroadcastMul6DSlow_spec amin amax shape1 shape2 oshape in1 in2 out :
  (length shape1 <= 6)%nat -> (length shape2 <= 6)%nat -> (length oshape <= 6)%nat ->
  extend 6 oshape = output_dims 6 shape1 shape2 ->
  Forall positive (shapes 6 shape1 shape2) -> Forall compatible (shapes 6 shape1 shape2) ->
  product shape1 <= INT32_MAX -> product shape2 <= INT32_MAX -> product oshape <= INT32_MAX ->
  zlength in1 = product shape1 -> zlength in2 = product shape2 -> zlength out = product oshape ->
  (forall idx, in_box (extend 6 oshape) idx ->
    INT32_MIN <= operand1 6 shape1 in1 idx * operand2 6 shape2 in2 idx <= INT32_MAX) ->
  exists out', BroadcastMul6DSlow amin amax in1 in2 shape1 shape2 oshape out = (Done tt, out') /\
    zlength out' = product oshape /\
    forall idx, in_box (extend 6 oshape) idx -> out'.[row_major (extend 6 oshape) idx]
      = Some (ActivationFunctionWithMinMax (operand1 6 shape1 in1 idx * operand2 6 shape2 in2 idx) amin amax).
Proof.
  intros Hl1 Hl2 Hlo Heq Hp Hc H1 H2 Ho L1 L2 Lo Hfit.
  rewrite <- (product_extend 6 oshape) in *. rewrite Heq in *.
  destruct (elements_stored 6 shape1 shape2 in1 in2 Hl1 Hl2) with (v := out) (el := mul_at amin amax in1 in2)
    (f := fun x y => ActivationFunctionWithMinMax (x * y) amin amax) as (v' & Hrun & Hlen & Hout); try done.
  - intros idx a b o w Hb Ha Hb' Hw. unfold mul_at, multiply_element. rewrite Ha, Hb'. cbn [access]. rewrite !bind_ret.
    erewrite bind_done by (apply int_ok; by apply Hfit). by apply store_at_ok.
  - exists v'. split_and!; [|done|done]. rewrite <- Hrun. apply BroadcastMul6DSlow_loop; try done; by rewrite product_extend.
Qed.

Lemma BroadcastMul6DSlow_spec_witness :
  BroadcastMul6DSlow (-50) 50 [1; 2; 3; 4] [10; 20] [2; 2] [2; 1] [2; 2] (replicate 4 0) = (Done tt, [10; 20; 50; 50]) /\
  exists out', BroadcastMul6DSlow (-50) 50 [1; 2; 3; 4] [10; 20] [2; 2] [2; 1] [2; 2] (replicate 4 0) = (Done tt, out') /\
    zlength out' = 4 /\ forall idx, in_box (extend 6 [2; 2]) idx -> out'.[row_major (extend 6 [2; 2]) idx]
      = Some (ActivationFunctionWithMinMax (operand1 6 [2; 2] [1; 2; 3; 4] idx * operand2 6 [2; 1] [10; 20] idx) (-50) 50).
Proof.
  refine (conj _ (BroadcastMul6DSlow_spec (-50) 50 [2; 2] [2; 1] [2; 2] [1; 2; 3; 4] [10; 20] (replicate 4 0)
    _ _ _ _ _ _ _ _ _ _ _ _ _)).
  - reflexivity.
  - cbn. lia.
  - cbn. lia.
  - cbn. lia.
  - reflexivity.
  - repeat constructor.
  - repeat constructor; unfold compatible; cbn; lia.
  - vm_compute. discriminate.
  - vm_compute. discriminate.
  - vm_compute. discriminate.
  - reflexivity.
  - reflexivity.
  - reflexivity.
  - intros idx Hb. apply elem_of_box in Hb. vm_compute in Hb.
    repeat (apply elem_of_cons in Hb as [->|Hb]; [vm_compute; split; discriminate|]). by apply elem_of_nil in Hb.
Defined.
