(* ===== verification/KernelQuantized.v ===== *)
(** * Quantized kernels (kernels/internal/common.cc, reference/integer_ops/{conv.h, depthwise_conv.h,
    fully_connected.h})

    Convolutions and fully connected layers on [int8_t], with the multiplication by a scale in fixed
    point that brings an accumulator of 32 bits back to eight.  Which rounding the scaling uses is a flag of the build; the rounding twice of the
    default is done by two functions of gemmlowp, a library that the repository does not have: they
    are the operations of the class [Gemmlowp], and what their documentation says is [GemmlowpOk].
    Sums and products of type [int32_t] must fit; casts to [int8_t] wrap around. *)
From S2P Require Import Prelude Shape KernelLayout.

(** ** Widths *)

Definition int8_wrap (z : Z) : Z := (z + 2 ^ 7) mod 2 ^ 8 - 2 ^ 7.

(** The value of an expression of type [int64_t]. *)
Definition int64_ {S} (z : Z) : M S Z := if (- 2 ^ 63 <=? z) && (z <=? 2 ^ 63 - 1) then ret z else undef.

(** [static_cast<int64_t>(1) << n], and a shift to the right of 64 bits. *)
Definition int64_bit {S} (n : Z) : M S Z := if (0 <=? n) && (n <? 63) then ret (Z.shiftl 1 n) else undef.
Definition int64_shr {S} (x n : Z) : M S Z := if (0 <=? n) && (n <? 64) then ret (Z.shiftr x n) else undef.

(** [1 << n] of type [int]. *)
Definition int_bit {S} (n : Z) : M S Z := if (0 <=? n) && (n <? 31) then ret (Z.shiftl 1 n) else undef.

(** ** Multiplication by a scale *)

Class Gemmlowp := {
  SaturatingRoundingDoublingHighMul : Z -> Z -> Z;
  RoundingDivideByPOT : Z -> Z -> Z }.

(** Both round to the nearest integer: [a * b / 2^31], where no operand is the least integer, and
    [x / 2^exponent]. *)
Class GemmlowpOk `{Gemmlowp} : Prop := {
  doubling_high_mul_nearest a b : INT32_MIN < a <= INT32_MAX -> 0 <= b <= INT32_MAX ->
    2 * Z.abs (2 ^ 31 * SaturatingRoundingDoublingHighMul a b - a * b) <= 2 ^ 31;
  divide_by_pot_nearest x e : INT32_MIN <= x <= INT32_MAX -> 0 <= e <= 31 ->
    2 * Z.abs (2 ^ e * RoundingDivideByPOT x e - x) <= 2 ^ e }.

Section Quantized.
Context (TFLITE_SINGLE_ROUNDING : bool) `{Gemmlowp}.

Definition MultiplyByQuantizedMultiplier_single {S} (x quantized_multiplier shift : Z) : M S Z :=
  let* total_shift := int_ (31 - shift) in
  let* round := int64_bit (total_shift - 1) in
  let* product := int64_ (x * quantized_multiplier) in
  let* result := int64_ (product + round) in
  let* result := int64_shr result total_shift in
  ret (int32_wrap result).

Definition MultiplyByQuantizedMultiplier_double {S} (x quantized_multiplier shift : Z) : M S Z :=
  let left_shift := if 0 <? shift then shift else 0 in
  let* right_shift := if 0 <? shift then ret 0 else int_ (- shift) in
  let* power := int_bit left_shift in
  let* shifted := int_ (x * power) in
  ret (RoundingDivideByPOT (SaturatingRoundingDoublingHighMul shifted quantized_multiplier) right_shift).

Definition MultiplyByQuantizedMultiplier {S} (x quantized_multiplier shift : Z) : M S Z :=
  if TFLITE_SINGLE_ROUNDING then MultiplyByQuantizedMultiplier_single x quantized_multiplier shift
  else MultiplyByQuantizedMultiplier_double x quantized_multiplier shift.

(** The overload for accumulators of 64 bits, alike with both roundings. *)
Definition MultiplyByQuantizedMultiplier_int64 {S} (x quantized_multiplier shift : Z) : M S Z :=
  let reduced_multiplier :=
    if quantized_multiplier <? 2147418112 then Z.shiftr (quantized_multiplier + 2 ^ 15) 16 else 32767 in
  let* total_shift := int_ (15 - shift) in
  let* round := int64_bit (total_shift - 1) in
  let* product := int64_ (x * reduced_multiplier) in
  let* x := int64_ (product + round) in
  let* result := int64_shr x total_shift in
  ret (int32_wrap result).

(** ** Accumulators *)

(** [acc += filter_val * (input_val + input_offset)]. *)
Definition accumulate {S} (acc filter_val input_val input_offset : Z) : M S Z :=
  let* v := int_ (input_val + input_offset) in
  let* p := int_ (filter_val * v) in
  int_ (acc + p).

(** [if (bias_data) acc += bias_data[c]]. *)
Definition add_bias {S} (bias_data : option (list Z)) (c acc : Z) : M S Z :=
  match bias_data with
  | None => ret acc
  | Some bias => let* x := access (bias.[c]) in int_ (acc + x)
  end.

(** The last lines of every kernel: scaled, moved by the output's offset, clamped and narrowed. *)
Definition scale_and_clamp {S} (acc multiplier shift output_offset lo hi : Z) : M S Z :=
  let* acc := MultiplyByQuantizedMultiplier acc multiplier shift in
  let* acc := int_ (acc + output_offset) in
  ret (int8_wrap (Z.min (Z.max acc lo) hi)).

Definition MatchingDim {S} (shape1 : RuntimeShape) (index1 : Z) (shape2 : RuntimeShape) (index2 : Z) : M S Z :=
  let* d1 := Dims shape1 index1 in
  let* d2 := Dims shape2 index2 in
  ret (Z.min d1 d2).

(** ** Convolutions *)

Record ConvParams := mkConvParams {
  padding_width : Z; padding_height : Z;
  stride_width : Z; stride_height : Z;
  dilation_width_factor : Z; dilation_height_factor : Z;
  input_offset : Z; weights_offset : Z; output_offset : Z;
  quantized_activation_min : Z; quantized_activation_max : Z }.

(** [origin + factor * i], a coordinate of the input. *)
Definition coordinate {S} (origin factor i : Z) : M S Z :=
  let* step := int_ (factor * i) in int_ (origin + step).

(** [(out * stride) - pad]. *)
Definition window_origin {S} (out stride pad : Z) : M S Z :=
  let* o := int_ (out * stride) in int_ (o - pad).

Definition is_point_inside_image (in_x in_y input_width input_height : Z) : bool :=
  (0 <=? in_x) && (in_x <? input_width) && (0 <=? in_y) && (in_y <? input_height).

Definition ConvPerChannel (params : ConvParams) (output_multiplier output_shift : list Z)
    (input_shape : RuntimeShape) (input_data : list Z) (filter_shape : RuntimeShape) (filter_data : list Z)
    (bias_data : option (list Z)) (output_shape : RuntimeShape) : M (list Z) unit :=
  let* batches := MatchingDim input_shape 0 output_shape 0 in
  let* input_depth := Dims input_shape 3 in
  let* output_depth := MatchingDim filter_shape 0 output_shape 3 in
  let* input_height := Dims input_shape 1 in
  let* input_width := Dims input_shape 2 in
  let* filter_height := Dims filter_shape 1 in
  let* filter_width := Dims filter_shape 2 in
  let* filter_input_depth := Dims filter_shape 3 in
  let* groups := int_div input_depth filter_input_depth in
  let* filters_per_group := int_div output_depth groups in
  let* output_height := Dims output_shape 1 in
  let* output_width := Dims output_shape 2 in
  for_int batches (fun batch =>
  for_int output_height (fun out_y =>
    let* in_y_origin := window_origin out_y (stride_height params) (padding_height params) in
    for_int output_width (fun out_x =>
      let* in_x_origin := window_origin out_x (stride_width params) (padding_width params) in
      for_int output_depth (fun out_channel =>
        let* group := int_div out_channel filters_per_group in
        let* acc := for_fold (zrange 0 (filter_height - 1)) 0 (fun acc filter_y =>
          let* in_y := coordinate in_y_origin (dilation_height_factor params) filter_y in
          for_fold (zrange 0 (filter_width - 1)) acc (fun acc filter_x =>
            let* in_x := coordinate in_x_origin (dilation_width_factor params) filter_x in
            if negb (is_point_inside_image in_x in_y input_width input_height) then ret acc
            else for_fold (zrange 0 (filter_input_depth - 1)) acc (fun acc in_channel =>
              let* channel := coordinate in_channel group filter_input_depth in
              let* input_index := Offset input_shape batch in_y in_x channel in
              let* input_val := access (input_data.[input_index]) in
              let* filter_index := Offset filter_shape out_channel filter_y filter_x in_channel in
              let* filter_val := access (filter_data.[filter_index]) in
              accumulate acc filter_val input_val (input_offset params)))) in
        let* acc := add_bias bias_data out_channel acc in
        let* multiplier := access (output_multiplier.[out_channel]) in
        let* shift := access (output_shift.[out_channel]) in
        let* result := scale_and_clamp acc multiplier shift (output_offset params)
          (quantized_activation_min params) (quantized_activation_max params) in
        let* output_index := Offset output_shape batch out_y out_x out_channel in
        store_at output_index result)))).

(** [DepthwiseParams] are those of a convolution with [depth_multiplier]. *)
Definition DepthwiseConvPerChannel (params : ConvParams) (depth_multiplier : Z) (output_multiplier output_shift : list Z)
    (input_shape : RuntimeShape) (input_data : list Z) (filter_shape : RuntimeShape) (filter_data : list Z)
    (bias_data : option (list Z)) (output_shape : RuntimeShape) : M (list Z) unit :=
  let* batches := MatchingDim input_shape 0 output_shape 0 in
  MatchingDim filter_shape 3 output_shape 3 ;;;
  let* input_height := Dims input_shape 1 in
  let* input_width := Dims input_shape 2 in
  let* input_depth := Dims input_shape 3 in
  let* filter_height := Dims filter_shape 1 in
  let* filter_width := Dims filter_shape 2 in
  let* output_height := Dims output_shape 1 in
  let* output_width := Dims output_shape 2 in
  for_int batches (fun batch =>
  for_int output_height (fun out_y => for_int output_width (fun out_x =>
  for_int input_depth (fun in_channel => for_int depth_multiplier (fun m =>
    let* output_channel := coordinate m in_channel depth_multiplier in
    let* in_x_origin := window_origin out_x (stride_width params) (padding_width params) in
    let* in_y_origin := window_origin out_y (stride_height params) (padding_height params) in
    let* acc := for_fold (zrange 0 (filter_height - 1)) 0 (fun acc filter_y =>
      for_fold (zrange 0 (filter_width - 1)) acc (fun acc filter_x =>
        let* in_x := coordinate in_x_origin (dilation_width_factor params) filter_x in
        let* in_y := coordinate in_y_origin (dilation_height_factor params) filter_y in
        if is_point_inside_image in_x in_y input_width input_height then
          let* input_index := Offset input_shape batch in_y in_x in_channel in
          let* input_val := access (input_data.[input_index]) in
          let* filter_index := Offset filter_shape 0 filter_y filter_x output_channel in
          let* filter_val := access (filter_data.[filter_index]) in
          accumulate acc filter_val input_val (input_offset params)
        else ret acc)) in
    let* acc := add_bias bias_data output_channel acc in
    let* multiplier := access (output_multiplier.[output_channel]) in
    let* shift := access (output_shift.[output_channel]) in
    let* result := scale_and_clamp acc multiplier shift (output_offset params)
      (quantized_activation_min params) (quantized_activation_max params) in
    let* output_index := Offset output_shape batch out_y out_x output_channel in
    store_at output_index result))))).

(** ** Fully connected layers *)

Definition FlatSizeSkipDim {S} (shape : RuntimeShape) (skip_dim : Z) : M S Z :=
  for_fold (zrange 0 (DimensionsCount shape - 1)) 1 (fun flat_size i =>
    let* d := Dims shape i in
    int_ (flat_size * (if i =? skip_dim then 1 else d))).

Definition FullyConnectedPerChannel (params : ConvParams) (output_multiplier output_shift : list Z)
    (input_data : list Z) (filter_shape : RuntimeShape) (filter_data : list Z)
    (bias_data : option (list Z)) (output_shape : RuntimeShape) : M (list Z) unit :=
  let filter_dim_count := DimensionsCount filter_shape in
  let output_dim_count := DimensionsCount output_shape in
  let* batches := FlatSizeSkipDim output_shape (output_dim_count - 1) in
  let* output_depth := Dims output_shape (output_dim_count - 1) in
  let* accum_depth := Dims filter_shape (filter_dim_count - 1) in
  for_int batches (fun b => for_int output_depth (fun out_c =>
    let* acc := for_fold (zrange 0 (accum_depth - 1)) 0 (fun acc d =>
      let* input_index := int_mul_add b accum_depth d in
      let* input_val := access (input_data.[input_index]) in
      let* filter_index := int_mul_add out_c accum_depth d in
      let* filter_val := access (filter_data.[filter_index]) in
      accumulate acc filter_val input_val (input_offset params)) in
    let* acc := add_bias bias_data out_c acc in
    let* multiplier := access (output_multiplier.[out_c]) in
    let* shift := access (output_shift.[out_c]) in
    let* result := scale_and_clamp acc multiplier shift (output_offset params)
      (quantized_activation_min params) (quantized_activation_max params) in
    let* output_index := int_mul_add b output_depth out_c in
    store_at output_index result)).

(** With one scale for all channels and weights that are not symmetric. *)
Definition FullyConnected (params : ConvParams) (output_multiplier output_shift : Z)
    (input_data : list Z) (filter_shape : RuntimeShape) (filter_data : list Z)
    (bias_data : option (list Z)) (output_shape : RuntimeShape) : M (list Z) unit :=
  let filter_dim_count := DimensionsCount filter_shape in
  let output_dim_count := DimensionsCount output_shape in
  let* batches := FlatSizeSkipDim output_shape (output_dim_count - 1) in
  let* output_depth := Dims output_shape (output_dim_count - 1) in
  let* accum_depth := Dims filter_shape (filter_dim_count - 1) in
  for_int batches (fun b => for_int output_depth (fun out_c =>
    let* acc := for_fold (zrange 0 (accum_depth - 1)) 0 (fun acc d =>
      let* input_index := int_mul_add b accum_depth d in
      let* input_val := access (input_data.[input_index]) in
      let* filter_index := int_mul_add out_c accum_depth d in
      let* filter_val := access (filter_data.[filter_index]) in
      let* f := int_ (filter_val + weights_offset params) in
      accumulate acc f input_val (input_offset params)) in
    let* acc := add_bias bias_data out_c acc in
    let* result := scale_and_clamp acc output_multiplier output_shift (output_offset params)
      (quantized_activation_min params) (quantized_activation_max params) in
    let* output_index := int_mul_add b output_depth out_c in
    store_at output_index result)).
End Quantized.
