(* ===== verification/KernelQuantizedProof.v ===== *)
(** * Quantized kernels, theorems

    The scaling in fixed point stays within a unit of the exact product, the accumulators do not
    overflow within the bounds stated, and convolutions and fully connected layers compute the sums
    that they stand for: over the image extended by zeros, and over a row of the input. *)
From S2P Require Import Prelude Shape KernelLayout KernelTranspose KernelQuantized.

(** ** Sums *)

Definition zsum (l : list Z) : Z := foldr Z.add 0 l.

Lemma zsum_cons x l : zsum (x :: l) = x + zsum l.
Proof. done. Qed.

Lemma zsum_app l l' : zsum (l ++ l') = zsum l + zsum l'.
Proof. induction l as [|x l IH]; [done|]. cbn [app]. rewrite !zsum_cons, IH. lia. Qed.

Lemma zsum_bound {A} (f : A -> Z) b l : 0 <= b -> (forall x, x ∈ l -> Z.abs (f x) <= b) ->
  Z.abs (zsum (f <$> l)) <= b * zlength l.
Proof.
  intros Hb. induction l as [|x l IH]; intros Hf; [unfold zlength; cbn; lia|]. rewrite zlength_cons.
  rewrite fmap_cons, zsum_cons.
  assert (Z.abs (f x) <= b) by (apply Hf; set_solver).
  assert (Z.abs (zsum (f <$> l)) <= b * zlength l) by (apply IH; set_solver). lia.
Qed.

Lemma zsum_ext {A} (f g : A -> Z) l : (forall x, x ∈ l -> f x = g x) -> zsum (f <$> l) = zsum (g <$> l).
Proof.
  induction l as [|x l IH]; intros He; [done|].
  rewrite !fmap_cons, !zsum_cons. rewrite He by set_solver. rewrite IH by set_solver. done.
Qed.

Lemma zsum_zero {A} (f : A -> Z) l : (forall x, x ∈ l -> f x = 0) -> zsum (f <$> l) = 0.
Proof. intros Hf. rewrite (zsum_ext f (fun _ => 0)) by done. clear. induction l as [|x l IH]; [done|]. by rewrite fmap_cons, zsum_cons. Qed.

Lemma zsum_bind {A B} (f : B -> Z) (g : A -> list B) l : zsum (f <$> (l ≫= g)) = zsum ((fun x => zsum (f <$> g x)) <$> l).
Proof.
  induction l as [|x l IH]; [done|]. by rewrite bind_cons, fmap_app, zsum_app, fmap_cons, zsum_cons, IH.
Qed.

(** A sum over the indices of a box, dimension by dimension. *)
Lemma zsum_box f d dims : zsum (f <$> box (d :: dims))
  = zsum ((fun i => zsum ((fun idx => f (i :: idx)) <$> box dims)) <$> zrange 0 (d - 1)).
Proof. cbn [box]. rewrite zsum_bind. apply zsum_ext. intros i _. by rewrite <- list_fmap_compose. Qed.

Lemma zsum_box_nil f : zsum (f <$> box []) = f [].
Proof. cbn. lia. Qed.

(** A loop that adds terms, each at most [b], to a number with room for them. *)
Lemma for_fold_sum {S A} (f : A -> Z) b l (body : Z -> A -> M S Z) acc s :
  0 <= b ->
  (forall x, x ∈ l -> Z.abs (f x) <= b) ->
  (forall x acc', x ∈ l -> Z.abs acc' + b <= INT32_MAX -> body acc' x s = (Done (acc' + f x), s)) ->
  Z.abs acc + b * zlength l <= INT32_MAX ->
  for_fold l acc body s = (Done (acc + zsum (f <$> l)), s).
Proof.
  intros Hb. revert acc. induction l as [|x l IH]; intros acc Hf Hbody Hm.
  { cbn. unfold ret. do 2 f_equal. lia. }
  rewrite zlength_cons in Hm. pose proof (zlength_nonneg l).
  assert (Z.abs (f x) <= b) by (apply Hf; set_solver).
  rewrite for_fold_cons. erewrite bind_done by (apply Hbody; [set_solver|nia]).
  rewrite IH; [|set_solver|set_solver|lia].
  rewrite fmap_cons, zsum_cons. do 2 f_equal. lia.
Qed.

Lemma zlength_zrange0 n : 0 <= n -> zlength (zrange 0 (n - 1)) = n.
Proof. intros. unfold zlength. rewrite length_zrange. lia. Qed.

Lemma Forall_zget (P : Z -> Prop) l i : Forall P l -> 0 <= i < zlength l -> P (zget l i).
Proof. intros Hl Hi. rewrite Forall_forall in Hl. eapply Hl, zlookup_elem_of, zlookup_zget, Hi. Qed.

(** ** Scaling *)

(** The nearest integer to something no greater than [x]. *)
Lemma nearest_bound P r y x : 0 < P -> 2 * Z.abs (P * r - y) <= P -> Z.abs y <= P * Z.abs x -> Z.abs r <= Z.abs x.
Proof.
  intros HP Hr Hy. assert (P * Z.abs r <= Z.abs (P * r - y) + Z.abs y) by (rewrite <- (Z.abs_eq P) at 1 by lia; rewrite <- Z.abs_mul; lia).
  assert (2 * (P * Z.abs r) <= P * (2 * Z.abs x + 1)) by lia. nia.
Qed.

Lemma rounded_shift_nearest y t : 1 <= t -> 2 * Z.abs (2 ^ t * ((y + 2 ^ (t - 1)) / 2 ^ t) - y) <= 2 ^ t.
Proof.
  intros Ht. assert (Hp : 2 ^ t = 2 * 2 ^ (t - 1)) by (rewrite <- Z.pow_succ_r by lia; f_equal; lia).
  assert (0 < 2 ^ (t - 1)) by (apply Z.pow_pos_nonneg; lia).
  pose proof (Z.div_mod (y + 2 ^ (t - 1)) (2 ^ t)). pose proof (Z.mod_pos_bound (y + 2 ^ (t - 1)) (2 ^ t)). lia.
Qed.

Section Proofs.
Context (TFLITE_SINGLE_ROUNDING : bool) `{HG : GemmlowpOk}.

(** The product with [quantized_multiplier * 2^(shift - 31)], rounded. *)
Definition scaled (x quantized_multiplier shift : Z) : Z :=
  if TFLITE_SINGLE_ROUNDING then (x * quantized_multiplier + 2 ^ (30 - shift)) / 2 ^ (31 - shift)
  else RoundingDivideByPOT (SaturatingRoundingDoublingHighMul x quantized_multiplier) (- shift).

Section Scaling.
Context (x m shift : Z) (Hx : Z.abs x <= INT32_MAX) (Hm : 0 <= m <= INT32_MAX) (Hshift : -31 <= shift <= 0).

Lemma product_small : Z.abs (x * m) <= 2 ^ 31 * Z.abs x.
Proof. rewrite Z.abs_mul. unfold INT32_MAX in Hm. rewrite (Z.abs_eq m) by lia. nia. Qed.

Lemma doubled_small : Z.abs (SaturatingRoundingDoublingHighMul x m) <= Z.abs x.
Proof.
  apply (nearest_bound (2 ^ 31) _ (x * m)); [done| |apply product_small].
  apply doubling_high_mul_nearest; [unfold INT32_MIN, INT32_MAX in *; lia|done].
Qed.

Lemma scaled_small : Z.abs (scaled x m shift) <= Z.abs x.
Proof.
  unfold scaled. destruct TFLITE_SINGLE_ROUNDING.
  - assert (Hp1 : 2 ^ 31 <= 2 ^ (31 - shift)) by (apply Z.pow_le_mono_r; lia).
    replace (30 - shift) with (31 - shift - 1) by lia.
    apply (nearest_bound (2 ^ (31 - shift)) _ (x * m)); [lia|apply rounded_shift_nearest; lia|].
    pose proof product_small. nia.
  - etransitivity; [|apply doubled_small]. pose proof doubled_small.
    assert (Hp1 : 2 ^ 0 <= 2 ^ (- shift)) by (apply Z.pow_le_mono_r; lia).
    apply (nearest_bound (2 ^ (- shift)) _ (SaturatingRoundingDoublingHighMul x m)); [lia| |nia].
    apply divide_by_pot_nearest; [unfold INT32_MIN, INT32_MAX in *; lia|lia].
Qed.

(** Both roundings are within one of the exact product. *)
Lemma scaled_accurate : Z.abs (2 ^ (31 - shift) * scaled x m shift - x * m) <= 2 ^ (31 - shift).
Proof.
  unfold scaled. destruct TFLITE_SINGLE_ROUNDING.
  - replace (30 - shift) with (31 - shift - 1) by lia.
    pose proof (rounded_shift_nearest (x * m) (31 - shift) ltac:(lia)). lia.
  - pose proof doubled_small. set (y := SaturatingRoundingDoublingHighMul x m) in *.
    assert (Hp1 : 2 * Z.abs (2 ^ 31 * y - x * m) <= 2 ^ 31)
      by (apply doubling_high_mul_nearest; [unfold INT32_MIN, INT32_MAX in *; lia|done]).
    assert (Hp2 : 2 * Z.abs (2 ^ (- shift) * RoundingDivideByPOT y (- shift) - y) <= 2 ^ (- shift))
      by (apply divide_by_pot_nearest; [unfold INT32_MIN, INT32_MAX in *; lia|lia]).
    assert (Hp3 : 2 ^ 0 <= 2 ^ (- shift)) by (apply Z.pow_le_mono_r; lia).
    replace (31 - shift) with (31 + - shift) by lia. rewrite Z.pow_add_r by lia.
    set (P := 2 ^ (- shift)) in *. set (z := RoundingDivideByPOT y (- shift)) in *. change (2 ^ 0) with 1 in Hp3.
    replace (2 ^ 31 * P * z - x * m) with (2 ^ 31 * (P * z - y) + (2 ^ 31 * y - x * m)) by lia. lia.
Qed.

Lemma MultiplyByQuantizedMultiplier_ok {S} (s : S) :
  MultiplyByQuantizedMultiplier TFLITE_SINGLE_ROUNDING x m shift s = (Done (scaled x m shift), s).
Proof.
  pose proof scaled_small as Hsmall. pose proof product_small as Hp. unfold scaled, MultiplyByQuantizedMultiplier in *.
  destruct TFLITE_SINGLE_ROUNDING.
  - unfold MultiplyByQuantizedMultiplier_single. unfold INT32_MIN, INT32_MAX in *.
    erewrite bind_done by (apply int_ok; unfold INT32_MIN, INT32_MAX; lia).
    unfold int64_bit. destruct (Z.leb_spec 0 (31 - shift - 1)); [|lia]. destruct (Z.ltb_spec (31 - shift - 1) 63); [|lia].
    cbn [andb]. rewrite bind_ret, Z.shiftl_1_l. replace (31 - shift - 1) with (30 - shift) by lia.
    assert (0 < 2 ^ (30 - shift) <= 2 ^ 61) by (split; [apply Z.pow_pos_nonneg; lia|apply Z.pow_le_mono_r; lia]).
    unfold int64_. destruct (Z.leb_spec (- 2 ^ 63) (x * m)); [|lia]. destruct (Z.leb_spec (x * m) (2 ^ 63 - 1)); [|lia].
    cbn [andb]. rewrite bind_ret.
    destruct (Z.leb_spec (- 2 ^ 63) (x * m + 2 ^ (30 - shift))); [|lia].
    destruct (Z.leb_spec (x * m + 2 ^ (30 - shift)) (2 ^ 63 - 1)); [|lia]. cbn [andb]. rewrite bind_ret.
    unfold int64_shr. destruct (Z.leb_spec 0 (31 - shift)); [|lia]. destruct (Z.ltb_spec (31 - shift) 64); [|lia].
    cbn [andb]. rewrite bind_ret, Z.shiftr_div_pow2 by lia.
    rewrite int32_wrap_small; [done|unfold INT32_MIN, INT32_MAX; lia].
  - unfold MultiplyByQuantizedMultiplier_double. destruct (Z.ltb_spec 0 shift); [lia|].
    erewrite bind_done by (apply int_ok; unfold INT32_MIN, INT32_MAX; lia).
    change (int_bit 0) with (@ret S Z 1). rewrite bind_ret.
    erewrite bind_done by (apply int_ok; unfold INT32_MIN, INT32_MAX in *; lia). by rewrite Z.mul_1_r.
Qed.
End Scaling.

(** ** Accumulators *)

Definition int8 (x : Z) : Prop := -128 <= x <= 127.

(** The greatest product of a weight and an input from which its zero point was subtracted. *)
Definition term_bound : Z := 128 * 255.

(** What the parameters of a layer promise: a multiplier and a shift for each of its [depth] channels,
    offsets and limits of eight bits, and accumulators that have room for [size] products and the bias. *)
Record scaling_ok (params : ConvParams) (multiplier shift : list Z) (bias : option (list Z)) (depth size : Z) : Prop := {
  multipliers_ok : zlength multiplier = depth /\ Forall (fun m => 0 <= m <= INT32_MAX) multiplier;
  shifts_ok : zlength shift = depth /\ Forall (fun s => -31 <= s <= 0) shift;
  input_offset_ok : -127 <= input_offset params <= 128;
  output_offset_ok : int8 (output_offset params);
  limits_ok : int8 (quantized_activation_min params) /\ int8 (quantized_activation_max params);
  no_bias_ok : bias = None -> term_bound * size + 128 <= INT32_MAX;
  bias_ok l : bias = Some l -> zlength l = depth /\ Forall (fun x => term_bound * size + Z.abs x + 128 <= INT32_MAX) l }.

Definition bias_at (bias : option (list Z)) (c : Z) : Z := match bias with Some l => zget l c | None => 0 end.

(** The output for an accumulator of channel [c]. *)
Definition quantized (params : ConvParams) (multiplier shift : list Z) (bias : option (list Z)) (acc c : Z) : Z :=
  Z.min (Z.max (scaled (acc + bias_at bias c) (zget multiplier c) (zget shift c) + output_offset params)
    (quantized_activation_min params)) (quantized_activation_max params).

Lemma accumulate_ok {S} acc f v off (s : S) : int8 f -> int8 v -> -127 <= off <= 128 ->
  Z.abs acc + term_bound <= INT32_MAX -> accumulate acc f v off s = (Done (acc + f * (v + off)), s).
Proof.
  unfold int8, term_bound. intros Hf Hv Hoff Hacc.
  assert (Z.abs (f * (v + off)) <= 128 * 255) by (rewrite Z.abs_mul; nia).
  unfold accumulate, INT32_MAX in *.
  erewrite bind_done by (apply int_ok; unfold INT32_MIN, INT32_MAX; lia).
  erewrite bind_done by (apply int_ok; unfold INT32_MIN, INT32_MAX; lia).
  apply int_ok. unfold INT32_MIN, INT32_MAX. lia.
Qed.

Lemma term_small f v off : int8 f -> int8 v -> -127 <= off <= 128 -> Z.abs (f * (v + off)) <= term_bound.
Proof. unfold int8, term_bound. intros. rewrite Z.abs_mul. nia. Qed.

Section Layer.
Context (params : ConvParams) (multiplier shift : list Z) (bias : option (list Z)) (depth size : Z)
  (Hok : scaling_ok params multiplier shift bias depth size) (Hsize : 0 <= size).

Lemma room_for_terms : term_bound * size <= INT32_MAX \/ depth = 0.
Proof.
  pose proof (no_bias_ok _ _ _ _ _ _ Hok) as Hn. pose proof (bias_ok _ _ _ _ _ _ Hok) as Hb.
  destruct bias as [[|x l]|]; [| |left; specialize (Hn eq_refl); lia].
  - right. by destruct (Hb [] eq_refl) as [<- _].
  - left. destruct (Hb _ eq_refl) as [_ Hl]. inversion Hl. lia.
Qed.

Lemma bias_small c : 0 <= c < depth -> term_bound * size + Z.abs (bias_at bias c) + 128 <= INT32_MAX.
Proof.
  intros Hc. pose proof (no_bias_ok _ _ _ _ _ _ Hok) as Hn. pose proof (bias_ok _ _ _ _ _ _ Hok) as Hb.
  destruct bias as [l|]; cbn [bias_at]; [|specialize (Hn eq_refl); lia].
  destruct (Hb l eq_refl) as [Hlen Hl]. apply (Forall_zget (fun x => term_bound * size + Z.abs x + 128 <= INT32_MAX)); [done|lia].
Qed.

(** From the accumulator of a channel to its output. *)
Lemma finish_ok {S} acc c (k : Z -> M S unit) s : 0 <= c < depth -> Z.abs acc <= term_bound * size ->
  (let* acc := add_bias bias c acc in
   let* m := access (multiplier.[c]) in
   let* sh := access (shift.[c]) in
   let* result := scale_and_clamp TFLITE_SINGLE_ROUNDING acc m sh (output_offset params)
     (quantized_activation_min params) (quantized_activation_max params) in
   k result) s = k (quantized params multiplier shift bias acc c) s.
Proof.
  intros Hc Hacc. pose proof (bias_small c Hc) as Hbias. destruct Hok as [[Hml Hm] [Hsl Hs] _ Hoff [Hlo Hhi] _ Hb].
  assert (Hadd : add_bias bias c acc s = (Done (acc + bias_at bias c), s)).
  { unfold add_bias, bias_at in *. destruct bias as [l|]; [|unfold ret; do 2 f_equal; lia].
    destruct (Hb l eq_refl) as [Hlen _]. rewrite zlookup_zget by lia. cbn [access]. rewrite bind_ret.
    apply int_ok. unfold INT32_MIN, INT32_MAX in *. lia. }
  erewrite bind_done by apply Hadd. rewrite !zlookup_zget by lia. cbn [access]. rewrite !bind_ret.
  pose proof (Forall_zget _ _ c Hm ltac:(lia)) as Hmc. pose proof (Forall_zget _ _ c Hs ltac:(lia)) as Hsc. cbn in Hmc, Hsc.
  assert (Hx : Z.abs (acc + bias_at bias c) <= INT32_MAX) by lia.
  pose proof (scaled_small _ _ _ Hx Hmc Hsc) as Hsmall. unfold int8 in *.
  erewrite bind_done; [reflexivity|]. unfold scale_and_clamp.
  erewrite bind_done by (by apply MultiplyByQuantizedMultiplier_ok).
  erewrite bind_done by (apply int_ok; unfold INT32_MIN, INT32_MAX in *; lia).
  unfold ret, quantized, int8_wrap. do 2 f_equal.
  rewrite Z.mod_small; lia.
Qed.
End Layer.

(** ** Convolutions *)

(** The coordinates that the windows visit, in one dimension, fit an [int]. *)
Definition axis_fits (stride dilation pad out_size filter_size : Z) : Prop :=
  0 <= stride /\ 0 <= dilation /\ 0 <= pad <= INT32_MAX /\ out_size * stride + filter_size * dilation <= INT32_MAX.

Section Axis.
Context {S : Type} (stride dilation pad out_size filter_size : Z)
  (Hfits : axis_fits stride dilation pad out_size filter_size).

Lemma window_origin_ok out (s : S) : 0 <= out < out_size -> 0 <= filter_size ->
  window_origin out stride pad s = (Done (out * stride - pad), s).
Proof.
  intros Hout Hf. destruct Hfits as (Hs & Hd & Hp & Hm). unfold window_origin, INT32_MAX in *.
  assert (0 <= out * stride <= out_size * stride) by nia. assert (0 <= filter_size * dilation) by nia.
  erewrite bind_done by (apply int_ok; unfold INT32_MIN, INT32_MAX; lia).
  apply int_ok. unfold INT32_MIN, INT32_MAX. lia.
Qed.

Lemma coordinate_ok out i (s : S) : 0 <= out < out_size -> 0 <= i < filter_size ->
  coordinate (out * stride - pad) dilation i s = (Done (out * stride - pad + dilation * i), s).
Proof.
  intros Hout Hi. destruct Hfits as (Hs & Hd & Hp & Hm). unfold coordinate, INT32_MAX in *.
  assert (0 <= out * stride <= out_size * stride) by nia. assert (0 <= dilation * i <= filter_size * dilation) by nia.
  erewrite bind_done by (apply int_ok; unfold INT32_MIN, INT32_MAX; lia).
  apply int_ok. unfold INT32_MIN, INT32_MAX. lia.
Qed.
End Axis.

Lemma zrange0_elem n i : i ∈ zrange 0 (n - 1) <-> 0 <= i < n.
Proof. rewrite elem_of_zrange. lia. Qed.

Lemma last_le_product a b c d : 0 < a -> 0 < b -> 0 < c -> 0 <= d -> d <= a * (b * (c * (d * 1))).
Proof. intros. assert (1 <= a * b) by nia. assert (1 <= a * b * c) by nia. nia. Qed.

Section Convolution.
Context (params : ConvParams) (multiplier shift : list Z) (bias : option (list Z)).
(** [g] groups of [k] filters, each over [fd] channels. *)
Context (n ih iw oh ow fh fw g k fd : Z) (idata fdata : list Z).
Let ishape : list Z := [n; ih; iw; g * fd].
Let fshape : list Z := [g * k; fh; fw; fd].
Let oshape : list Z := [n; oh; ow; g * k].

(** The input extended by zeros, less its zero point. *)
Definition padded_input (b y x c : Z) : Z :=
  if is_point_inside_image x y iw ih then zget idata (row_major ishape [b; y; x; c]) + input_offset params else 0.

Definition convolution (b oy ox oc : Z) : Z :=
  zsum ((fun idx => match idx with
    | [fy; fx; c] =>
      zget fdata (row_major fshape [oc; fy; fx; c]) *
      padded_input b (oy * stride_height params - padding_height params + dilation_height_factor params * fy)
        (ox * stride_width params - padding_width params + dilation_width_factor params * fx) (c + oc / k * fd)
    | _ => 0
    end) <$> box [fh; fw; fd]).

Record conv_ok : Prop := {
  conv_dims : 0 < n /\ 0 < ih /\ 0 < iw /\ 0 < oh /\ 0 < ow /\ 0 < fh /\ 0 < fw /\ 0 < g /\ 0 < k /\ 0 < fd;
  conv_sizes : product ishape <= INT32_MAX /\ product fshape <= INT32_MAX /\ product oshape <= INT32_MAX;
  conv_lengths : zlength idata = product ishape /\ zlength fdata = product fshape;
  conv_data : Forall int8 idata /\ Forall int8 fdata;
  conv_y : axis_fits (stride_height params) (dilation_height_factor params) (padding_height params) oh fh;
  conv_x : axis_fits (stride_width params) (dilation_width_factor params) (padding_width params) ow fw;
  conv_scaling : scaling_ok params multiplier shift bias (g * k) (fh * fw * fd) }.

Hypothesis Hok : conv_ok.

Lemma group_ok oc : 0 <= oc < g * k -> 0 <= oc / k < g.
Proof.
  intros Hoc. destruct Hok as [Hd _ _ _ _ _ _]. split; [apply Z.div_pos; lia|].
  apply Z.div_lt_upper_bound; lia.
Qed.

Lemma channel_in oc c : 0 <= oc < g * k -> 0 <= c < fd -> 0 <= c + oc / k * fd < g * fd.
Proof. intros Hoc Hc. pose proof (group_ok oc Hoc). nia. Qed.

(** The products of one position of the filter. *)
Lemma channel_loop b oc fy fx y x acc (s : list Z) :
  0 <= b < n -> 0 <= oc < g * k -> 0 <= fy < fh -> 0 <= fx < fw -> 0 <= y < ih -> 0 <= x < iw ->
  Z.abs acc + term_bound * fd <= INT32_MAX ->
  for_fold (zrange 0 (fd - 1)) acc (fun acc in_channel =>
    let* channel := coordinate in_channel (oc / k) fd in
    let* input_index := Offset ishape b y x channel in
    let* input_val := access (idata.[input_index]) in
    let* filter_index := Offset fshape oc fy fx in_channel in
    let* filter_val := access (fdata.[filter_index]) in
    accumulate acc filter_val input_val (input_offset params)) s
  = (Done (acc + zsum ((fun c => zget fdata (row_major fshape [oc; fy; fx; c]) *
      (zget idata (row_major ishape [b; y; x; c + oc / k * fd]) + input_offset params)) <$> zrange 0 (fd - 1))), s).
Proof.
  intros Hb Hoc Hfy Hfx Hy Hx Hacc. destruct Hok as [Hd [Hpi [Hpf _]] [Hli Hlf] [Hdi Hdf] _ _ Hs].
  pose proof (input_offset_ok _ _ _ _ _ _ Hs) as Hoff. pose proof (group_ok oc Hoc) as Hg.
  assert (Hin : forall c, 0 <= c < fd -> in_box ishape [b; y; x; c + oc / k * fd]).
  { intros c Hc. apply in_box4_iff. pose proof (channel_in oc c Hoc Hc). lia. }
  assert (Hfin : forall c, 0 <= c < fd -> in_box fshape [oc; fy; fx; c]) by (intros c Hc; apply in_box4_iff; lia).
  assert (Hdepth : g * fd <= INT32_MAX) by (unfold ishape, product in Hpi; cbn in Hpi; pose proof (last_le_product n ih iw (g * fd)); nia).
  apply for_fold_sum with (b := term_bound); [done| | |rewrite zlength_zrange0 by lia; done].
  - intros c Hc%zrange0_elem. pose proof (row_major_range _ _ (Hin c Hc)). pose proof (row_major_range _ _ (Hfin c Hc)).
    apply term_small; [apply (Forall_zget int8); (done || lia)..|done].
  - intros c acc' Hc%zrange0_elem Hacc'. pose proof (channel_in oc c Hoc Hc).
    pose proof (row_major_range _ _ (Hin c Hc)). pose proof (row_major_range _ _ (Hfin c Hc)).
    erewrite bind_done.
    2: { unfold coordinate. erewrite bind_done by (apply int_ok; unfold INT32_MIN; nia). apply int_ok. unfold INT32_MIN. lia. }
    erewrite bind_done by (apply Offset_ok; [by apply Hin|lia]).
    rewrite zlookup_zget by lia. cbn [access]. rewrite bind_ret.
    erewrite bind_done by (apply Offset_ok; [by apply Hfin|lia]).
    rewrite zlookup_zget by lia. cbn [access]. rewrite bind_ret.
    apply accumulate_ok; [apply (Forall_zget int8); (done || lia)..|done|done].
Qed.

(** The products of the whole filter: what is left out is multiplied by zero in the sum. *)
Definition row_sum (b oy ox oc fy fx : Z) : Z :=
  zsum ((fun c => zget fdata (row_major fshape [oc; fy; fx; c]) *
    padded_input b (oy * stride_height params - padding_height params + dilation_height_factor params * fy)
      (ox * stride_width params - padding_width params + dilation_width_factor params * fx) (c + oc / k * fd))
    <$> zrange 0 (fd - 1)).

Lemma convolution_rows b oy ox oc : convolution b oy ox oc =
  zsum ((fun fy => zsum ((fun fx => row_sum b oy ox oc fy fx) <$> zrange 0 (fw - 1))) <$> zrange 0 (fh - 1)).
Proof.
  unfold convolution. rewrite zsum_box. apply zsum_ext. intros fy _. rewrite zsum_box. apply zsum_ext. intros fx _.
  rewrite zsum_box. apply zsum_ext. intros c _. by rewrite zsum_box_nil.
Qed.

Lemma padded_term_small b oc fy fx c y x : 0 <= b < n -> 0 <= oc < g * k -> 0 <= fy < fh -> 0 <= fx < fw -> 0 <= c < fd ->
  Z.abs (zget fdata (row_major fshape [oc; fy; fx; c]) * padded_input b y x (c + oc / k * fd)) <= term_bound.
Proof.
  intros Hb Hoc Hfy Hfx Hc. destruct Hok as [Hd _ [Hli Hlf] [Hdi Hdf] _ _ Hs].
  pose proof (input_offset_ok _ _ _ _ _ _ Hs) as Hoff. pose proof (channel_in oc c Hoc Hc).
  assert (Hfi : in_box fshape [oc; fy; fx; c]) by (apply in_box4_iff; lia). apply row_major_range in Hfi.
  unfold padded_input. destruct (is_point_inside_image x y iw ih) eqn:Hin; [|unfold term_bound; lia].
  unfold is_point_inside_image in Hin.
  assert (Hii : in_box ishape [b; y; x; c + oc / k * fd]) by (apply in_box4_iff; lia). apply row_major_range in Hii.
  apply term_small; [apply (Forall_zget int8); (done || lia)..|done].
Qed.

Lemma row_sum_small b oy ox oc fy fx : 0 <= b < n -> 0 <= oc < g * k -> 0 <= fy < fh -> 0 <= fx < fw ->
  Z.abs (row_sum b oy ox oc fy fx) <= term_bound * fd.
Proof.
  intros Hb Hoc Hfy Hfx. assert (0 < fd) by (destruct Hok; lia). unfold row_sum.
  etransitivity; [apply (zsum_bound _ term_bound); [done|]|by rewrite zlength_zrange0 by lia].
  intros c Hc%zrange0_elem. by apply padded_term_small.
Qed.

Lemma window_sum_small b oy ox oc fy : 0 <= b < n -> 0 <= oc < g * k -> 0 <= fy < fh ->
  Z.abs (zsum ((fun fx => row_sum b oy ox oc fy fx) <$> zrange 0 (fw - 1))) <= term_bound * fd * fw.
Proof.
  intros Hb Hoc Hfy. assert (0 < fw /\ 0 < fd) by (destruct Hok; lia).
  etransitivity; [apply (zsum_bound _ (term_bound * fd)); [unfold term_bound; lia|]|by rewrite zlength_zrange0 by lia].
  intros fx Hfx%zrange0_elem. by apply row_sum_small.
Qed.

Lemma convolution_small b oy ox oc : 0 <= b < n -> 0 <= oc < g * k ->
  Z.abs (convolution b oy ox oc) <= term_bound * (fh * fw * fd).
Proof.
  intros Hb Hoc. assert (0 < fh /\ 0 < fw /\ 0 < fd) by (destruct Hok; lia). rewrite convolution_rows.
  etransitivity; [apply (zsum_bound _ (term_bound * fd * fw)); [unfold term_bound; lia|]|rewrite zlength_zrange0 by lia; lia].
  intros fy Hfy%zrange0_elem. by apply window_sum_small.
Qed.

(** One position of the filter, in the image or left out. *)
Lemma position_ok b oy ox oc fy fx acc (s : list Z) :
  let in_y := oy * stride_height params - padding_height params + dilation_height_factor params * fy in
  0 <= b < n -> 0 <= oc < g * k -> 0 <= ox < ow -> 0 <= fy < fh -> 0 <= fx < fw ->
  Z.abs acc + term_bound * fd <= INT32_MAX ->
  (let* in_x := coordinate (ox * stride_width params - padding_width params) (dilation_width_factor params) fx in
   if negb (is_point_inside_image in_x in_y iw ih) then ret acc
   else for_fold (zrange 0 (fd - 1)) acc (fun acc in_channel =>
    let* channel := coordinate in_channel (oc / k) fd in
    let* input_index := Offset ishape b in_y in_x channel in
    let* input_val := access (idata.[input_index]) in
    let* filter_index := Offset fshape oc fy fx in_channel in
    let* filter_val := access (fdata.[filter_index]) in
    accumulate acc filter_val input_val (input_offset params))) s
  = (Done (acc + row_sum b oy ox oc fy fx), s).
Proof.
  intros in_y Hb Hoc Hox Hfy Hfx Hacc.
  erewrite bind_done by (eapply coordinate_ok; [apply (conv_x Hok)|done..]).
  set (in_x := ox * stride_width params - padding_width params + dilation_width_factor params * fx).
  unfold row_sum, padded_input. fold in_x in_y.
  destruct (is_point_inside_image in_x in_y iw ih) eqn:Hin; cbn [negb].
  - unfold is_point_inside_image in Hin. apply channel_loop; (done || lia).
  - unfold ret. do 2 f_equal. rewrite zsum_zero; [lia|]. intros c _. lia.
Qed.

Lemma filter_size_room : term_bound * (fh * fw * fd) <= INT32_MAX.
Proof.
  destruct Hok as [Hd _ _ _ _ _ Hs]. destruct (room_for_terms _ _ _ _ _ _ Hs); [done|]. nia.
Qed.

Lemma window_loop b oy ox oc (s : list Z) :
  0 <= b < n -> 0 <= oc < g * k -> 0 <= oy < oh -> 0 <= ox < ow ->
  for_fold (zrange 0 (fh - 1)) 0 (fun acc filter_y =>
    let* in_y := coordinate (oy * stride_height params - padding_height params) (dilation_height_factor params) filter_y in
    for_fold (zrange 0 (fw - 1)) acc (fun acc filter_x =>
      let* in_x := coordinate (ox * stride_width params - padding_width params) (dilation_width_factor params) filter_x in
      if negb (is_point_inside_image in_x in_y iw ih) then ret acc
      else for_fold (zrange 0 (fd - 1)) acc (fun acc in_channel =>
        let* channel := coordinate in_channel (oc / k) fd in
        let* input_index := Offset ishape b in_y in_x channel in
        let* input_val := access (idata.[input_index]) in
        let* filter_index := Offset fshape oc filter_y filter_x in_channel in
        let* filter_val := access (fdata.[filter_index]) in
        accumulate acc filter_val input_val (input_offset params)))) s
  = (Done (convolution b oy ox oc), s).
Proof.
  intros Hb Hoc Hoy Hox. pose proof filter_size_room as Hroom. assert (0 < fh /\ 0 < fw /\ 0 < fd) by (destruct Hok; lia).
  assert (Hm : term_bound * (fh * fw * fd) = term_bound * fd * fw * fh) by lia. rewrite Hm in Hroom. clear Hm.
  rewrite convolution_rows.
  rewrite (for_fold_sum (fun fy => zsum ((fun fx => row_sum b oy ox oc fy fx) <$> zrange 0 (fw - 1))) (term_bound * fd * fw)).
  - do 2 f_equal.
  - unfold term_bound. lia.
  - intros fy Hfy%zrange0_elem. by apply window_sum_small.
  - intros fy acc Hfy%zrange0_elem Hacc.
    erewrite bind_done by (eapply coordinate_ok; [apply (conv_y Hok)|done..]).
    apply (for_fold_sum (fun fx => row_sum b oy ox oc fy fx) (term_bound * fd)); [unfold term_bound; lia| | |rewrite zlength_zrange0 by lia; lia].
    + intros fx Hfx%zrange0_elem. by apply row_sum_small.
    + intros fx acc' Hfx%zrange0_elem Hacc'. by apply position_ok.
  - rewrite zlength_zrange0 by lia. change (Z.abs 0) with 0. lia.
Qed.

(** One element of the output. *)
Lemma element_ok b oy ox oc (out : list Z) : 0 <= b < n -> 0 <= oc < g * k -> 0 <= oy < oh -> 0 <= ox < ow ->
  (let* acc := add_bias bias oc (convolution b oy ox oc) in
   let* m := access (multiplier.[oc]) in
   let* sh := access (shift.[oc]) in
   let* result := scale_and_clamp TFLITE_SINGLE_ROUNDING acc m sh (output_offset params)
     (quantized_activation_min params) (quantized_activation_max params) in
   let* output_index := Offset oshape b oy ox oc in
   store_at output_index result) out
  = store_at (row_major oshape [b; oy; ox; oc])
      (quantized params multiplier shift bias (convolution b oy ox oc) oc) out.
Proof.
  intros Hb Hoc Hoy Hox. assert (Hbox : in_box oshape [b; oy; ox; oc]) by (apply in_box4_iff; lia).
  pose proof (row_major_range _ _ Hbox) as Hr. destruct (Hok) as [Hd [_ [_ Hpo]] _ _ _ _ Hs].
  rewrite (finish_ok _ _ _ _ _ _ Hs) by (nia || by apply convolution_small).
  by erewrite bind_done by (apply Offset_ok; [done|lia]).
Qed.
End Convolution.

Lemma MatchingDim_ok {S} s1 i1 s2 i2 d (s : S) : s1.[i1] = Some d -> s2.[i2] = Some d ->
  MatchingDim s1 i1 s2 i2 s = (Done d, s).
Proof.
  intros Hd1 Hd2. unfold MatchingDim. do 2 erewrite bind_done by (by apply Dims_ok). unfold ret. by rewrite Z.min_id.
Qed.

(** The convolution is the loop that stores every element of the output. *)
Lemma ConvPerChannel_loop params multiplier shift bias n ih iw oh ow fh fw g k fd idata fdata out :
  conv_ok params multiplier shift bias n ih iw oh ow fh fw g k fd idata fdata ->
  ConvPerChannel TFLITE_SINGLE_ROUNDING params multiplier shift [n; ih; iw; g * fd] idata [g * k; fh; fw; fd] fdata
    bias [n; oh; ow; g * k] out
  = for_each (box [n; oh; ow; g * k]) (on4 (fun b y x c => store_at (row_major [n; oh; ow; g * k] [b; y; x; c])
      (quantized params multiplier shift bias (convolution params n ih iw fh fw g k fd idata fdata b y x c) c))) out.
Proof.
  intros Hok. destruct (Hok) as [Hd [Hpi [Hpf Hpo]] Hl Hdata Hy Hx Hs].
  assert (Hmi : g * fd <= INT32_MAX) by (pose proof (last_le_product n ih iw (g * fd)); unfold product in Hpi; cbn in Hpi; nia).
  assert (Hmo : g * k <= INT32_MAX) by (pose proof (last_le_product n oh ow (g * k)); unfold product in Hpo; cbn in Hpo; nia).
  unfold ConvPerChannel.
  erewrite bind_done by (by apply MatchingDim_ok).
  erewrite bind_done by (by apply Dims_ok). erewrite bind_done by (by apply MatchingDim_ok).
  do 5 erewrite bind_done by (by apply Dims_ok).
  erewrite bind_done by (apply int_div_ok; nia). rewrite Z.div_mul by lia.
  erewrite bind_done by (apply int_div_ok; nia). rewrite (Z.mul_comm g k), Z.div_mul, (Z.mul_comm k g) by lia.
  do 2 erewrite bind_done by (by apply Dims_ok).
  rewrite <- for_box4.
  apply for_each_ext. intros b sb Hb%zrange0_elem. apply for_each_ext. intros oy sy Hoy%zrange0_elem.
  erewrite bind_done by (eapply window_origin_ok; [exact Hy|done|lia]).
  apply for_each_ext. intros ox sx Hox%zrange0_elem.
  erewrite bind_done by (eapply window_origin_ok; [exact Hx|done|lia]).
  apply for_each_ext. intros oc sc Hoc%zrange0_elem.
  erewrite bind_done by (apply int_div_ok; lia).
  erewrite bind_done by (by apply (window_loop _ _ _ _ _ _ _ _ _ _ _ _ _ _ _ _ Hok)).
  by apply (element_ok _ _ _ _ _ _ _ _ _ _ _ _ _ _ _ _ Hok).
Qed.

(** The elements that the loop stores. *)
Lemma stores_elements dims (f : Z -> Z -> Z -> Z -> Z) out : length dims = 4%nat -> zlength out = product dims ->
  exists out', for_each (box dims) (on4 (fun b y x c => store_at (row_major dims [b; y; x; c]) (f b y x c))) out = (Done tt, out') /\
    zlength out' = product dims /\
    forall b y x c, in_box dims [b; y; x; c] -> out'.[row_major dims [b; y; x; c]] = Some (f b y x c).
Proof.
  intros Hdims Hlen.
  destruct (for_each_stores (row_major dims) (fun idx => match idx with [b; y; x; c] => f b y x c | _ => 0 end) (box dims)
    (on4 (fun b y x c => store_at (row_major dims [b; y; x; c]) (f b y x c))) out) as (out' & Hrun & Hlen' & Hin & _).
  - intros idx v Hidx%elem_of_box Hv. pose proof (row_major_range _ _ Hidx).
    destruct (in_box4 _ _ Hidx Hdims) as (b & y & x & c & ->). apply store_at_ok. lia.
  - intros idx Hidx%elem_of_box. pose proof (row_major_range _ _ Hidx). lia.
  - intros idx idx' Hidx%elem_of_box Hidx'%elem_of_box Hr. by rewrite (row_major_inj _ _ _ Hidx Hidx' Hr).
  - exists out'. split_and!; [done|lia|]. intros b y x c Hb. by apply (Hin [b; y; x; c]), elem_of_box.
Qed.

(** ** Fully connected layers *)

(** The product of all dimensions but the last. *)
Lemma FlatSizeSkipDim_last {S} dims d (s : S) : Forall (Z.lt 0) dims -> product dims <= INT32_MAX ->
  FlatSizeSkipDim (dims ++ [d]) (DimensionsCount (dims ++ [d]) - 1) s = (Done (product dims), s).
Proof.
  intros Hpos Hm. unfold FlatSizeSkipDim, DimensionsCount. rewrite zlength_app. change (zlength [d]) with 1.
  replace (zlength dims + 1 - 1) with (zlength dims) by lia.
  set (body := fun flat_size i => let* d := Dims (dims ++ [d]) i in int_ (flat_size * (if i =? zlength dims then 1 else d))).
  assert (Hpre : forall pre suf, dims = pre ++ suf ->
    for_fold (zrange 0 (zlength pre - 1)) 1 body s = (Done (product pre), s)).
  { induction pre as [|x pre IH] using rev_ind; intros suf Hdims; [done|].
    rewrite <- app_assoc in Hdims. cbn [app] in Hdims. rewrite product_app, zlength_app. change (zlength [x]) with 1.
    replace (zlength pre + 1 - 1) with (zlength pre - 1 + 1) by lia. pose proof (zlength_nonneg pre).
    rewrite zrange_snoc, for_fold_app by lia. erewrite bind_done by (by apply (IH (x :: suf))).
    replace (zlength pre - 1 + 1) with (zlength pre) by lia. cbn [for_fold]. unfold body at 1. rewrite bind_assoc.
    erewrite bind_done by (apply Dims_ok; rewrite Hdims, <- app_assoc; by apply zlookup_middle).
    assert (zlength pre < zlength dims) by (rewrite Hdims, zlength_app, zlength_cons; pose proof (zlength_nonneg suf); lia).
    destruct (Z.eqb_spec (zlength pre) (zlength dims)); [lia|]. change (product [x]) with (x * 1). rewrite Z.mul_1_r.
    rewrite Hdims in Hpos, Hm. apply Forall_app in Hpos as [Hp1 Hp2]. inversion Hp2 as [|? ? Hx Hp3]; subst.
    rewrite product_app, product_cons in Hm. pose proof (product_pos _ Hp1). pose proof (product_pos _ Hp3).
    erewrite bind_done by (apply int_ok; unfold INT32_MIN in *; nia). done. }
  pose proof (zlength_nonneg dims). pose proof (product_pos _ Hpos).
  replace (zlength dims) with (zlength dims - 1 + 1) at 1 by lia.
  rewrite zrange_snoc, for_fold_app by lia. erewrite bind_done by (apply (Hpre dims []); by rewrite app_nil_r).
  replace (zlength dims - 1 + 1) with (zlength dims) by lia. cbn [for_fold]. unfold body. rewrite bind_assoc.
  erewrite bind_done by (apply Dims_ok, zlookup_middle). rewrite Z.eqb_refl, Z.mul_1_r.
  by erewrite bind_done by (apply int_ok; unfold INT32_MIN in *; lia).
Qed.

Section FullyConnected.
Context (params : ConvParams) (multiplier shift : list Z) (bias : option (list Z)).
Context (dims : list Z) (od ad : Z) (idata fdata : list Z).

(** The product of row [c] of the weights and row [b] of the input, less its zero point. *)
Definition dot_product (b c : Z) : Z :=
  zsum ((fun d => zget fdata (c * ad + d) * (zget idata (b * ad + d) + input_offset params)) <$> zrange 0 (ad - 1)).

Record fully_connected_ok : Prop := {
  fc_dims : Forall (Z.lt 0) dims /\ 0 < od /\ 0 < ad;
  fc_sizes : product dims * ad <= INT32_MAX /\ od * ad <= INT32_MAX /\ product dims * od <= INT32_MAX;
  fc_lengths : zlength idata = product dims * ad /\ zlength fdata = od * ad;
  fc_data : Forall int8 idata /\ Forall int8 fdata;
  fc_scaling : scaling_ok params multiplier shift bias od ad }.

Hypothesis Hok : fully_connected_ok.

Lemma row_position b m d w : 0 <= b < m -> 0 <= d < w -> 0 <= b * w + d < m * w.
Proof. nia. Qed.

Lemma row_index {S} b m d w (s : S) : 0 <= b < m -> 0 <= d < w -> m * w <= INT32_MAX ->
  int_mul_add b w d s = (Done (b * w + d), s).
Proof. intros Hb Hd Hm. pose proof (row_position b m d w Hb Hd). apply int_mul_add_ok; lia. Qed.

Lemma dot_product_term b c d : 0 <= b < product dims -> 0 <= c < od -> 0 <= d < ad ->
  int8 (zget fdata (c * ad + d)) /\ int8 (zget idata (b * ad + d)).
Proof.
  intros Hb Hc Hd. destruct Hok as [_ _ [Hli Hlf] [Hdi Hdf] _].
  pose proof (row_position b _ d ad Hb Hd). pose proof (row_position c _ d ad Hc Hd).
  split; apply (Forall_zget int8); (done || lia).
Qed.

Lemma dot_product_small b c : 0 <= b < product dims -> 0 <= c < od -> Z.abs (dot_product b c) <= term_bound * ad.
Proof.
  intros Hb Hc. destruct (Hok) as [Hd _ _ _ Hs]. pose proof (input_offset_ok _ _ _ _ _ _ Hs).
  etransitivity; [apply (zsum_bound _ term_bound); [done|]|by rewrite zlength_zrange0 by lia].
  intros d Hdr%zrange0_elem. destruct (dot_product_term b c d); [done..|]. by apply term_small.
Qed.

Lemma dot_product_loop b c (s : list Z) : 0 <= b < product dims -> 0 <= c < od ->
  for_fold (zrange 0 (ad - 1)) 0 (fun acc d =>
    let* input_index := int_mul_add b ad d in
    let* input_val := access (idata.[input_index]) in
    let* filter_index := int_mul_add c ad d in
    let* filter_val := access (fdata.[filter_index]) in
    accumulate acc filter_val input_val (input_offset params)) s = (Done (dot_product b c), s).
Proof.
  intros Hb Hc. destruct (Hok) as [Hdm [Hpi [Hpf _]] [Hli Hlf] _ Hs]. pose proof (input_offset_ok _ _ _ _ _ _ Hs).
  assert (Hroom : term_bound * ad <= INT32_MAX) by (destruct (room_for_terms _ _ _ _ _ _ Hs); [done|lia]).
  rewrite (for_fold_sum (fun d => zget fdata (c * ad + d) * (zget idata (b * ad + d) + input_offset params)) term_bound);
    [done|done| | |rewrite zlength_zrange0 by lia; change (Z.abs 0) with 0; lia].
  - intros d Hd%zrange0_elem. destruct (dot_product_term b c d); [done..|]. by apply term_small.
  - intros d acc Hd%zrange0_elem Hacc. destruct (dot_product_term b c d); [done..|].
    pose proof (row_position b _ d ad Hb Hd). pose proof (row_position c _ d ad Hc Hd).
    erewrite bind_done by (by eapply row_index). rewrite zlookup_zget by lia. cbn [access]. rewrite bind_ret.
    erewrite bind_done by (by eapply row_index). rewrite zlookup_zget by lia. cbn [access]. rewrite bind_ret.
    by apply accumulate_ok.
Qed.

(** The layer is the loop that stores every element of the output. *)
Lemma FullyConnectedPerChannel_loop rows out :
  FullyConnectedPerChannel TFLITE_SINGLE_ROUNDING params multiplier shift idata [rows; ad] fdata bias (dims ++ [od]) out
  = for_each (box [product dims; od]) (fun idx => match idx with
    | [b; c] => store_at (b * od + c) (quantized params multiplier shift bias (dot_product b c) c)
    | _ => ret tt
    end) out.
Proof.
  destruct (Hok) as [[Hpos [Hod Had]] [Hpi [Hpf Hpo]] _ _ Hs]. unfold FullyConnectedPerChannel.
  pose proof (product_pos _ Hpos).
  erewrite bind_done by (apply FlatSizeSkipDim_last; [done|nia]).
  erewrite bind_done by (apply Dims_ok; unfold DimensionsCount; rewrite zlength_app; change (zlength [od]) with 1;
    replace (zlength dims + 1 - 1) with (zlength dims) by lia; apply zlookup_middle).
  erewrite bind_done by (by apply Dims_ok).
  rewrite for_box_cons. apply for_each_ext. intros b sb Hb%zrange0_elem. rewrite for_box_cons.
  apply for_each_ext. intros c sc Hc%zrange0_elem. rewrite for_box_nil.
  erewrite bind_done by (by apply dot_product_loop).
  rewrite (finish_ok _ _ _ _ _ _ Hs) by (lia || by apply dot_product_small).
  by erewrite bind_done by (by eapply row_index).
Qed.
End FullyConnected.
End Proofs.

(** ** What the layers compute *)

(** C22. A quantized convolution with grouped filters, strides, dilation and padding stores at every index
    of its output the sum of the weights times the image extended by zeros, plus the bias, scaled,
    moved by the output's zero point and clamped.  Nothing is read or written out of range and no
    accumulator or index overflows where the products and the bias leave room in 32 bits (a filter of
    2^16 weights and biases below 2^23 - 128 do), and the scaling is within a unit of the exact one. *)
Theorem ConvPerChannel_spec single `{GemmlowpOk} params multiplier shift bias n ih iw oh ow fh fw g k fd idata fdata out :
  let oshape := [n; oh; ow; g * k] in
  let sum := convolution params n ih iw fh fw g k fd idata fdata in
  conv_ok params multiplier shift bias n ih iw oh ow fh fw g k fd idata fdata ->
  zlength out = product oshape ->
  exists out', ConvPerChannel single params multiplier shift [n; ih; iw; g * fd] idata [g * k; fh; fw; fd] fdata
      bias oshape out = (Done tt, out') /\ zlength out' = product oshape /\
    forall b y x c, in_box oshape [b; y; x; c] ->
      out'.[row_major oshape [b; y; x; c]] = Some (quantized single params multiplier shift bias (sum b y x c) c) /\
      let acc := sum b y x c + bias_at bias c in
      let unit := 2 ^ (31 - zget shift c) in
      Z.abs (unit * scaled single acc (zget multiplier c) (zget shift c) - acc * zget multiplier c) <= unit.
Proof.
  intros oshape sum Hok Hout.
  destruct (stores_elements oshape (fun b y x c => quantized single params multiplier shift bias (sum b y x c) c) out)
    as (out' & Hrun & Hlen & Hin); [done..|].
  exists out'. split_and!; [by rewrite <- Hrun; apply ConvPerChannel_loop|done|].
  intros b y x c Hb. split; [by apply Hin|]. intros acc unit. apply in_box4_iff in Hb as (Hbn & Hy & Hx & Hc).
  destruct (conv_scaling _ _ _ _ _ _ _ _ _ _ _ _ _ _ _ _ Hok) as [[Hml Hm] [Hsl Hs] _ _ _ _ _].
  pose proof (bias_small _ _ _ _ _ _ (conv_scaling _ _ _ _ _ _ _ _ _ _ _ _ _ _ _ _ Hok) c Hc) as Hbias.
  pose proof (convolution_small _ _ _ _ _ _ _ _ _ _ _ _ _ _ _ _ Hok b y x c Hbn Hc) as Hsmall.
  refine (scaled_accurate single acc _ _ _ _ _).
  - unfold acc. fold sum in Hsmall. lia.
  - apply (Forall_zget (fun m => 0 <= m <= INT32_MAX)); [done|lia].
  - apply (Forall_zget (fun s => -31 <= s <= 0)); [done|lia].
Qed.

(** The sum of a filter of one pixel. *)
Lemma pointwise_sum params n h w id od idata fdata b y x c :
  stride_height params = 1 -> stride_width params = 1 -> padding_height params = 0 -> padding_width params = 0 ->
  in_box [n; h; w; od] [b; y; x; c] ->
  convolution params n h w 1 1 1 od id idata fdata b y x c
  = dot_product params id idata fdata ((b * h + y) * w + x) c.
Proof.
  intros Hsh Hsw Hph Hpw Hb. apply in_box4_iff in Hb as (Hb & Hy & Hx & Hc).
  unfold convolution, dot_product. rewrite zsum_box. change (zrange 0 (1 - 1)) with [0]. cbn [fmap list_fmap].
  rewrite zsum_cons. change (zsum []) with 0. rewrite Z.add_0_r.
  rewrite zsum_box. change (zrange 0 (1 - 1)) with [0]. cbn [fmap list_fmap].
  rewrite zsum_cons. change (zsum []) with 0. rewrite Z.add_0_r.
  rewrite zsum_box. apply zsum_ext. intros d _. rewrite zsum_box_nil.
  unfold padded_input. rewrite Hsh, Hsw, Hph, Hpw, Z.div_small, !Z.mul_0_r, !Z.mul_1_r, !Z.sub_0_r, !Z.add_0_r by lia.
  unfold is_point_inside_image.
  destruct (Z.leb_spec 0 x), (Z.ltb_spec x w), (Z.leb_spec 0 y), (Z.ltb_spec y h); try lia. cbn [andb].
  unfold row_major. cbn [foldl zip zip_with fst snd]. do 3 f_equal; lia.
Qed.

(** The elements that a fully connected layer stores. *)
Lemma stores_rows m od (f : Z -> Z -> Z) out : zlength out = m * od ->
  exists out', for_each (box [m; od]) (fun idx => match idx with [b; c] => store_at (b * od + c) (f b c) | _ => ret tt end) out
      = (Done tt, out') /\ zlength out' = m * od /\
    forall b c, 0 <= b < m -> 0 <= c < od -> out'.[b * od + c] = Some (f b c).
Proof.
  intros Hlen.
  assert (Hpair : forall idx, idx ∈ box [m; od] -> exists b c, idx = [b; c] /\ 0 <= b < m /\ 0 <= c < od).
  { intros idx Hidx%elem_of_box. inversion Hidx as [|? b ? ? Hb Hi]; subst. inversion Hi as [|? c ? ? Hc Hn]; subst.
    inversion Hn; subst. eauto. }
  destruct (for_each_stores (row_major [m; od]) (fun idx => match idx with [b; c] => f b c | _ => 0 end) (box [m; od])
    (fun idx => match idx with [b; c] => store_at (b * od + c) (f b c) | _ => ret tt end) out) as (out' & Hrun & Hlen' & Hin & _).
  - intros idx v Hidx Hv. destruct (Hpair _ Hidx) as (b & c & -> & Hb & Hc).
    pose proof (row_position b m c od Hb Hc). unfold row_major. cbn. by rewrite store_at_ok by lia.
  - intros idx Hidx%elem_of_box. apply row_major_range in Hidx. rewrite !product_cons in Hidx. change (product []) with 1 in Hidx. lia.
  - intros idx idx' Hidx%elem_of_box Hidx'%elem_of_box Hr. by rewrite (row_major_inj _ _ _ Hidx Hidx' Hr).
  - exists out'. split_and!; [done|lia|]. intros b c Hb Hc.
    apply (Hin [b; c]), elem_of_box. repeat constructor; lia.
Qed.

(** C27. A convolution with filters of one pixel, no stride and no padding is the fully connected layer that
    is applied to every pixel. *)
Theorem pointwise_convolution single `{GemmlowpOk} params multiplier shift bias n h w id od idata fdata out :
  stride_height params = 1 -> stride_width params = 1 -> padding_height params = 0 -> padding_width params = 0 ->
  conv_ok params multiplier shift bias n h w h w 1 1 1 od id idata fdata ->
  zlength out = product [n; h; w; od] ->
  ConvPerChannel single params multiplier shift [n; h; w; id] idata [od; 1; 1; id] fdata bias [n; h; w; od] out
  = FullyConnectedPerChannel single params multiplier shift idata [od; id] fdata bias [n; h; w; od] out.
Proof.
  intros Hsh Hsw Hph Hpw Hok Hout.
  assert (Hfc : fully_connected_ok params multiplier shift bias [n; h; w] od id idata fdata).
  { destruct (Hok) as [Hd [Hpi [Hpf Hpo]] [Hli Hlf] Hdata _ _ Hs]. unfold product in *. cbn in *.
    rewrite !Z.mul_1_l, ?Z.mul_1_r in *.
    split; unfold product; cbn; [split; [repeat constructor|]|..]; try tauto; lia. }
  pose proof (ConvPerChannel_loop single _ _ _ _ _ _ _ _ _ _ _ _ _ _ _ _ out Hok) as Hconv.
  pose proof (FullyConnectedPerChannel_loop single _ _ _ _ _ _ _ _ _ Hfc od out) as Hlayer.
  rewrite !Z.mul_1_l in Hconv. cbn [app] in Hlayer. rewrite Hconv, Hlayer.
  destruct (stores_elements [n; h; w; od] (fun b y x c => quantized single params multiplier shift bias
    (convolution params n h w 1 1 1 od id idata fdata b y x c) c) out) as (out1 & -> & Hlen1 & Hin1); [done..|].
  destruct (stores_rows (product [n; h; w]) od (fun b c => quantized single params multiplier shift bias
    (dot_product params id idata fdata b c) c) out) as (out2 & -> & Hlen2 & Hin2); [unfold product in *; cbn in *; lia|].
  f_equal. apply same_elements; [unfold product in *; cbn in *; lia|]. intros p Hp. rewrite Hlen1 in Hp.
  destruct (row_major_onto [n; h; w; od] p) as (idx & Hb & <-); [done| |].
  { destruct (conv_dims _ _ _ _ _ _ _ _ _ _ _ _ _ _ _ _ Hok). repeat constructor; lia. }
  destruct (in_box4 _ _ Hb eq_refl) as (b & y & x & c & ->). rewrite Hin1, pointwise_sum by done.
  apply in_box4_iff in Hb as (Hb & Hy & Hx & Hc). symmetry.
  replace (row_major [n; h; w; od] [b; y; x; c]) with (((b * h + y) * w + x) * od + c) by (unfold row_major; cbn; lia).
  apply Hin2; [|done]. unfold product. cbn.
  pose proof (row_position b n y h Hb Hy) as Hr. pose proof (row_position _ _ x w Hr Hx). lia.
Qed.

(** With symmetric weights and the same scale for all channels, the per-tensor layer is the per-channel one. *)
Lemma FullyConnected_symmetric single `{Gemmlowp} params m sh idata dims od rows ad fdata bias out :
  weights_offset params = 0 -> Forall int8 fdata ->
  FullyConnected single params m sh idata [rows; ad] fdata bias (dims ++ [od]) out
  = FullyConnectedPerChannel single params (replicate (Z.to_nat od) m) (replicate (Z.to_nat od) sh) idata [rows; ad] fdata
      bias (dims ++ [od]) out.
Proof.
  intros Hw Hf. unfold FullyConnected, FullyConnectedPerChannel. apply bind_next. intros batches s.
  unfold DimensionsCount. rewrite zlength_app. change (zlength [od]) with 1.
  replace (zlength dims + 1 - 1) with (zlength dims) by lia.
  do 2 erewrite bind_done by (apply Dims_ok; (apply zlookup_middle || reflexivity)). symmetry.
  do 2 erewrite bind_done by (apply Dims_ok; (apply zlookup_middle || reflexivity)). symmetry.
  apply for_each_ext. intros b sb _. apply for_each_ext. intros c sc Hc%zrange0_elem.
  etransitivity; [apply bind_same, for_fold_ext|apply bind_next].
  - intros acc d s' _. do 2 (apply bind_next; intros ? ?).
    apply bind_next. intros i si. destruct (fdata.[i]) as [f|] eqn:Hfi; [|done]. cbn [access]. rewrite !bind_ret.
    assert (Hf8 : int8 f) by (rewrite Forall_forall in Hf; eapply Hf, zlookup_elem_of, Hfi).
    unfold int8 in Hf8. rewrite Hw, Z.add_0_r. by erewrite bind_done by (apply int_ok; unfold INT32_MIN, INT32_MAX; lia).
  - intros acc s'. apply bind_next. intros acc' s''. rewrite !zlookup_replicate by lia. cbn [access]. by rewrite !bind_ret.
Qed.

(** The scaling of accumulators of 64 bits, whose products fit for accumulators of 48. *)
Lemma MultiplyByQuantizedMultiplier_int64_ok {S} x m shift (s : S) :
  - 2 ^ 47 <= x < 2 ^ 47 -> 0 <= m <= INT32_MAX -> -31 <= shift <= 7 ->
  exists reduced, 0 <= reduced < 2 ^ 15 /\ Z.abs (2 ^ 16 * reduced - m) <= 2 ^ 16 /\
    MultiplyByQuantizedMultiplier_int64 x m shift s
    = (Done (int32_wrap ((x * reduced + 2 ^ (14 - shift)) / 2 ^ (15 - shift))), s).
Proof.
  intros Hx Hm Hs. unfold INT32_MAX in Hm.
  exists (if m <? 2147418112 then Z.shiftr (m + 2 ^ 15) 16 else 32767).
  assert (Hr : 0 <= (if m <? 2147418112 then Z.shiftr (m + 2 ^ 15) 16 else 32767) < 2 ^ 15 /\
    Z.abs (2 ^ 16 * (if m <? 2147418112 then Z.shiftr (m + 2 ^ 15) 16 else 32767) - m) <= 2 ^ 16).
  { destruct (Z.ltb_spec m 2147418112); [|lia]. rewrite Z.shiftr_div_pow2 by lia.
    pose proof (Z.div_mod (m + 2 ^ 15) (2 ^ 16)). pose proof (Z.mod_pos_bound (m + 2 ^ 15) (2 ^ 16)). lia. }
  destruct Hr as [Hr Ha]. split; [done|]. split; [done|].
  unfold MultiplyByQuantizedMultiplier_int64. set (reduced := if m <? 2147418112 then _ else _) in *.
  erewrite bind_done by (apply int_ok; unfold INT32_MIN, INT32_MAX; lia).
  assert (Hp : Z.abs (x * reduced) <= 2 ^ 62) by (rewrite Z.abs_mul; nia).
  assert (0 < 2 ^ (14 - shift) <= 2 ^ 45) by (split; [apply Z.pow_pos_nonneg; lia|apply Z.pow_le_mono_r; lia]).
  unfold int64_bit. destruct (Z.leb_spec 0 (15 - shift - 1)); [|lia]. destruct (Z.ltb_spec (15 - shift - 1) 63); [|lia].
  cbn [andb]. rewrite bind_ret, Z.shiftl_1_l. replace (15 - shift - 1) with (14 - shift) by lia.
  assert (Hint64 : forall z (s : S), Z.abs z < 2 ^ 63 -> int64_ z s = (Done z, s)).
  { intros z s' Hz. unfold int64_. destruct (Z.leb_spec (- 2 ^ 63) z); [|lia]. destruct (Z.leb_spec z (2 ^ 63 - 1)); [done|lia]. }
  do 2 erewrite bind_done by (apply Hint64; lia).
  unfold int64_shr. destruct (Z.leb_spec 0 (15 - shift)); [|lia]. destruct (Z.ltb_spec (15 - shift) 64); [|lia].
  cbn [andb]. by rewrite bind_ret, Z.shiftr_div_pow2 by lia.
Qed.

(** ** Layers that run *)

(** Rounding to the nearest, up where both are as near. *)
#[local] Instance nearest_gemmlowp : Gemmlowp := {|
  SaturatingRoundingDoublingHighMul a b := (a * b + 2 ^ 30) / 2 ^ 31;
  RoundingDivideByPOT x e := if e =? 0 then x else (x + 2 ^ (e - 1)) / 2 ^ e |}.

Lemma nearest_gemmlowp_ok : GemmlowpOk.
Proof.
  split; cbn.
  - intros a b _ _. change (2 ^ 30) with (2 ^ (31 - 1)). by apply rounded_shift_nearest.
  - intros x e _ He. destruct (Z.eqb_spec e 0) as [->|]; [change (2 ^ 0) with 1; lia|]. apply rounded_shift_nearest. lia.
Qed.

(** A window of two by two on a padded picture of three by three, whose elements are 1 to 9. *)
Definition example_params : ConvParams := mkConvParams 1 1 1 1 1 1 1 0 0 (-128) 127.
Definition example_picture : list Z := [1; 2; 3; 4; 5; 6; 7; 8; 9].

(** Conjunctions of bounds on numbers and on the elements of lists. *)
Ltac bounds :=
  unfold example_picture, int8, axis_fits, term_bound, INT32_MAX; cbn;
  repeat first [apply Forall_nil_2 | apply Forall_cons_2 | split]; cbn; (lia || done).

Lemma example_conv_ok :
  conv_ok example_params [2 ^ 30] [0] (Some [3]) 1 3 3 4 4 2 2 1 1 1 example_picture [1; -1; 0; 2].
Proof. split; [bounds..|]. split; [bounds..|intros [=]|intros l [= <-]; bounds]. Qed.

Lemma ConvPerChannel_spec_witness :
  let out := replicate 16 0 in
  exists out', ConvPerChannel false example_params [2 ^ 30] [0] [1; 3; 3; 1] example_picture [1; 2; 2; 1] [1; -1; 0; 2]
      (Some [3]) [1; 4; 4; 1] out = (Done tt, out') /\ zlength out' = 16 /\
    out'.[5] = Some (quantized false example_params [2 ^ 30] [0] (Some [3])
      (convolution example_params 1 3 3 2 2 1 1 1 example_picture [1; -1; 0; 2] 0 1 1 0) 0).
Proof.
  intros out.
  destruct (@ConvPerChannel_spec false nearest_gemmlowp nearest_gemmlowp_ok example_params [2 ^ 30] [0] (Some [3])
    1 3 3 4 4 2 2 1 1 1 example_picture [1; -1; 0; 2] out example_conv_ok eq_refl) as (out' & Hrun & Hlen & Hin).
  exists out'. split; [exact Hrun|]. split; [exact Hlen|].
  refine (proj1 (Hin 0 1 1 0 _)). repeat constructor; lia.
Defined.

Example conv_runs :
  ConvPerChannel false example_params [2 ^ 30] [0] [1; 3; 3; 1] example_picture [1; 2; 2; 1] [1; -1; 0; 2]
    (Some [3]) [1; 4; 4; 1] (replicate 16 0)
  = (Done tt, [4; 5; 6; 2; 6; 7; 8; 4; 7; 10; 11; 5; -2; 1; 1; 7]).
Proof. vm_compute. reflexivity. Qed.

(** The bias is added to an accumulator that the comment in the code bounds without it. *)
Example bias_overflows :
  ConvPerChannel true (mkConvParams 0 0 1 1 1 1 1 0 0 (-128) 127) [2 ^ 30] [0] [1; 1; 1; 1] [1] [1; 1; 1; 1] [1] (Some [INT32_MAX]) [1; 1; 1; 1] [0]
  = (Undef, [0]).
Proof. vm_compute. reflexivity. Qed.

Lemma example_pointwise_ok :
  conv_ok (mkConvParams 0 0 1 1 1 1 1 0 0 (-128) 127) [2 ^ 30; 2 ^ 30] [0; -1] (Some [3; -4]) 1 2 2 2 2 1 1 1 2 3
    [1; 2; 3; 4; 5; 6; 7; 8; 9; 10; 11; 12] [1; -1; 2; 0; 2; 1].
Proof. split; [bounds..|]. split; [bounds..|intros [=]|intros l [= <-]; bounds]. Qed.

Lemma pointwise_convolution_witness :
  let params := mkConvParams 0 0 1 1 1 1 1 0 0 (-128) 127 in
  ConvPerChannel true params [2 ^ 30; 2 ^ 30] [0; -1] [1; 2; 2; 3] [1; 2; 3; 4; 5; 6; 7; 8; 9; 10; 11; 12] [2; 1; 1; 3] [1; -1; 2; 0; 2; 1]
    (Some [3; -4]) [1; 2; 2; 2] (replicate 8 0)
  = FullyConnectedPerChannel true params [2 ^ 30; 2 ^ 30] [0; -1] [1; 2; 3; 4; 5; 6; 7; 8; 9; 10; 11; 12] [2; 3] [1; -1; 2; 0; 2; 1]
    (Some [3; -4]) [1; 2; 2; 2] (replicate 8 0).
Proof.
  intros params.
  exact (@pointwise_convolution true nearest_gemmlowp nearest_gemmlowp_ok params [2 ^ 30; 2 ^ 30] [0; -1] (Some [3; -4])
    1 2 2 3 2 [1; 2; 3; 4; 5; 6; 7; 8; 9; 10; 11; 12] [1; -1; 2; 0; 2; 1] (replicate 8 0) eq_refl eq_refl eq_refl eq_refl example_pointwise_ok eq_refl).
Defined.
