(* ===== verification/KernelDepthwise.v ===== *)
(** * Depthwise convolutions, theorems

    A depthwise convolution is the convolution whose groups have one channel each: the loops over the
    channels and over the filters of a channel are one loop over the channels of the output, and the
    weights are the same in another order. *)
From S2P Require Import Prelude Shape KernelLayout KernelTranspose KernelQuantized KernelQuantizedProof.

Section Depthwise.
Context (single : bool) `{HG : GemmlowpOk} (params : ConvParams) (multiplier shift : list Z) (bias : option (list Z)).
(** [g] channels with [k] filters each; [fdata] are the weights of the depthwise convolution, whose last
    index is the channel of the output, and [gdata] those of the grouped one, whose first index it is. *)
Context (n ih iw oh ow fh fw g k : Z) (idata fdata gdata : list Z).
Let ishape : list Z := [n; ih; iw; g * 1].
Let oshape : list Z := [n; oh; ow; g * k].

Definition same_weights : Prop := forall oc fy fx, in_box [g * k; fh; fw] [oc; fy; fx] ->
  zget fdata (row_major [1; fh; fw; g * k] [0; fy; fx; oc]) = zget gdata (row_major [g * k; fh; fw; 1] [oc; fy; fx; 0]).

Hypothesis Hok : conv_ok params multiplier shift bias n ih iw oh ow fh fw g k 1 idata gdata.
Hypothesis Hlen : zlength fdata = product [1; fh; fw; g * k].
Hypothesis Hsame : same_weights.

(** One position of the filter. *)
Lemma depthwise_position b oy ox ic m fy fx acc (s : list Z) :
  let oc := m + ic * k in
  0 <= b < n -> 0 <= ic < g -> 0 <= m < k -> 0 <= oy < oh -> 0 <= ox < ow -> 0 <= fy < fh -> 0 <= fx < fw ->
  Z.abs acc + term_bound <= INT32_MAX ->
  (let* in_x := coordinate (ox * stride_width params - padding_width params) (dilation_width_factor params) fx in
   let* in_y := coordinate (oy * stride_height params - padding_height params) (dilation_height_factor params) fy in
   if is_point_inside_image in_x in_y iw ih then
     let* input_index := Offset ishape b in_y in_x ic in
     let* input_val := access (idata.[input_index]) in
     let* filter_index := Offset [1; fh; fw; g * k] 0 fy fx oc in
     let* filter_val := access (fdata.[filter_index]) in
     accumulate acc filter_val input_val (input_offset params)
   else ret acc) s
  = (Done (acc + row_sum params n ih iw fh fw g k 1 idata gdata b oy ox oc fy fx), s).
Proof.
  intros oc Hb Hic Hm Hoy Hox Hfy Hfx Hacc.
  assert (Hoc : 0 <= oc < g * k) by (unfold oc; nia).
  assert (Hdiv : oc / k = ic) by (unfold oc; rewrite Z.div_add, Z.div_small by lia; lia).
  assert (Hrow : row_sum params n ih iw fh fw g k 1 idata gdata b oy ox oc fy fx
    = zget fdata (row_major [1; fh; fw; g * k] [0; fy; fx; oc]) * padded_input params n ih iw g 1 idata b
      (oy * stride_height params - padding_height params + dilation_height_factor params * fy)
      (ox * stride_width params - padding_width params + dilation_width_factor params * fx) ic).
  { unfold row_sum. change (zrange 0 (1 - 1)) with [0]. rewrite fmap_cons, zsum_cons, Hdiv.
    replace (0 + ic * 1) with ic by lia. rewrite Hsame by (repeat constructor; lia). cbn [fmap list_fmap]. unfold zsum. cbn. lia. }
  destruct (Hok) as [Hd [Hpi [Hpf _]] [Hli Hlf] [Hdi Hdf] Hy Hx Hs]. pose proof (input_offset_ok _ _ _ _ _ _ Hs) as Hoff.
  erewrite bind_done by (eapply coordinate_ok; [exact Hx|done..]).
  erewrite bind_done by (eapply coordinate_ok; [exact Hy|done..]).
  rewrite Hrow. unfold padded_input.
  destruct (is_point_inside_image _ _ iw ih) eqn:Hin; [|unfold ret; do 2 f_equal; lia].
  unfold is_point_inside_image in Hin.
  assert (Hii : in_box ishape [b; oy * stride_height params - padding_height params + dilation_height_factor params * fy;
    ox * stride_width params - padding_width params + dilation_width_factor params * fx; ic]) by (apply in_box4_iff; lia).
  assert (Hfi : in_box [1; fh; fw; g * k] [0; fy; fx; oc]) by (apply in_box4_iff; lia).
  assert (Hpf' : product [1; fh; fw; g * k] <= INT32_MAX) by (unfold product in *; cbn in *; lia).
  pose proof (row_major_range _ _ Hii). pose proof (row_major_range _ _ Hfi). unfold ishape in *.
  erewrite bind_done by (apply Offset_ok; [done|lia]). rewrite zlookup_zget by lia. cbn [access]. rewrite bind_ret.
  erewrite bind_done by (apply Offset_ok; [done|lia]). rewrite zlookup_zget by lia. cbn [access]. rewrite bind_ret.
  apply accumulate_ok; [|apply (Forall_zget int8); (done || lia)|done|done].
  rewrite Hsame by (repeat constructor; lia). apply (Forall_zget int8); [done|].
  assert (Hgi : in_box [g * k; fh; fw; 1] [oc; fy; fx; 0]) by (apply in_box4_iff; lia).
  apply row_major_range in Hgi. lia.
Qed.

Lemma depthwise_loop b oy ox ic m (s : list Z) :
  let oc := m + ic * k in
  0 <= b < n -> 0 <= ic < g -> 0 <= m < k -> 0 <= oy < oh -> 0 <= ox < ow ->
  for_fold (zrange 0 (fh - 1)) 0 (fun acc filter_y =>
    for_fold (zrange 0 (fw - 1)) acc (fun acc filter_x =>
      let* in_x := coordinate (ox * stride_width params - padding_width params) (dilation_width_factor params) filter_x in
      let* in_y := coordinate (oy * stride_height params - padding_height params) (dilation_height_factor params) filter_y in
      if is_point_inside_image in_x in_y iw ih then
        let* input_index := Offset ishape b in_y in_x ic in
        let* input_val := access (idata.[input_index]) in
        let* filter_index := Offset [1; fh; fw; g * k] 0 filter_y filter_x oc in
        let* filter_val := access (fdata.[filter_index]) in
        accumulate acc filter_val input_val (input_offset params)
      else ret acc)) s
  = (Done (convolution params n ih iw fh fw g k 1 idata gdata b oy ox oc), s).
Proof.
  intros oc Hb Hic Hm Hoy Hox. assert (Hoc : 0 <= oc < g * k) by (unfold oc; nia).
  pose proof (filter_size_room _ _ _ _ _ _ _ _ _ _ _ _ _ _ _ _ Hok) as Hroom.
  assert (0 < fh /\ 0 < fw) by (destruct Hok; lia). unfold term_bound in Hroom.
  rewrite convolution_rows.
  rewrite (for_fold_sum (fun fy => zsum ((fun fx => row_sum params n ih iw fh fw g k 1 idata gdata b oy ox oc fy fx)
    <$> zrange 0 (fw - 1))) (term_bound * 1 * fw)); [done|unfold term_bound; lia| | |].
  - intros fy Hfy%zrange0_elem. by apply (window_sum_small _ _ _ _ _ _ _ _ _ _ _ _ _ _ _ _ Hok).
  - intros fy acc Hfy%zrange0_elem Hacc.
    apply (for_fold_sum (fun fx => row_sum params n ih iw fh fw g k 1 idata gdata b oy ox oc fy fx) (term_bound * 1));
      [unfold term_bound; lia| | |rewrite zlength_zrange0 by lia; unfold term_bound in *; lia].
    + intros fx Hfx%zrange0_elem. by apply (row_sum_small _ _ _ _ _ _ _ _ _ _ _ _ _ _ _ _ Hok).
    + intros fx acc' Hfx%zrange0_elem Hacc'. apply depthwise_position; (done || lia).
  - rewrite zlength_zrange0 by lia. change (Z.abs 0) with 0. unfold term_bound. lia.
Qed.
End Depthwise.

(** C23. A depthwise convolution computes what ConvPerChannel does with one group for each channel and the
    weights in its order, which [ConvPerChannel_spec] describes. *)
Theorem depthwise_is_grouped single `{GemmlowpOk} params multiplier shift bias n ih iw oh ow fh fw g k idata fdata gdata out :
  conv_ok params multiplier shift bias n ih iw oh ow fh fw g k 1 idata gdata ->
  zlength fdata = product [1; fh; fw; g * k] -> same_weights fh fw g k fdata gdata ->
  DepthwiseConvPerChannel single params k multiplier shift [n; ih; iw; g] idata [1; fh; fw; g * k] fdata
    bias [n; oh; ow; g * k] out
  = ConvPerChannel single params multiplier shift [n; ih; iw; g] idata [g * k; fh; fw; 1] gdata
    bias [n; oh; ow; g * k] out.
Proof.
  intros Hok Hlen Hsame.
  pose proof (ConvPerChannel_loop single _ _ _ _ _ _ _ _ _ _ _ _ _ _ _ _ out Hok) as Hloop.
  destruct (Hok) as [Hd [Hpi [Hpf Hpo]] _ _ Hy Hx _].
  assert (Hmo : g * k <= INT32_MAX) by (pose proof (last_le_product n oh ow (g * k)); unfold product in Hpo; cbn in Hpo; nia).
  pose proof (fun b oy ox ic m => depthwise_loop params multiplier shift bias n ih iw oh ow fh fw g k idata fdata gdata Hok Hlen Hsame b oy ox ic m) as Hwindow.
  replace (g * 1) with g in * by lia. rewrite Hloop.
  unfold DepthwiseConvPerChannel. do 2 erewrite bind_done by (by apply MatchingDim_ok).
  do 7 erewrite bind_done by (by apply Dims_ok). rewrite <- for_box4.
  apply for_each_ext. intros b sb Hb%zrange0_elem. apply for_each_ext. intros oy sy Hoy%zrange0_elem.
  apply for_each_ext. intros ox sx Hox%zrange0_elem. rewrite for_int_product by lia.
  apply for_each_ext. intros ic si Hic%zrange0_elem. apply for_each_ext. intros m sm Hm%zrange0_elem.
  assert (Hoc : 0 <= m + ic * k < g * k) by nia.
  erewrite bind_done.
  2: { unfold coordinate. erewrite bind_done by (apply int_ok; unfold INT32_MIN; nia). apply int_ok. unfold INT32_MIN. lia. }
  erewrite bind_done by (eapply window_origin_ok; [exact Hx|done|lia]).
  erewrite bind_done by (eapply window_origin_ok; [exact Hy|done|lia]).
  erewrite bind_done by (by apply Hwindow).
  by apply (element_ok single _ _ _ _ _ _ _ _ _ _ _ _ _ _ _ _ Hok).
Qed.

#[local] Existing Instance nearest_gemmlowp.

(** Two channels of two by two pixels with a filter each. *)
Lemma example_weights : same_weights 2 2 2 1 [1; 5; 2; 6; 3; 7; 4; 8] [1; 2; 3; 4; 5; 6; 7; 8].
Proof.
  intros oc fy fx Hb. inversion Hb as [|? ? ? ? Hoc Hb1]; subst. inversion Hb1 as [|? ? ? ? Hfy Hb2]; subst.
  inversion Hb2 as [|? ? ? ? Hfx _]; subst.
  assert (oc = 0 \/ oc = 1) as [-> | ->] by lia; assert (fy = 0 \/ fy = 1) as [-> | ->] by lia;
    assert (fx = 0 \/ fx = 1) as [-> | ->] by lia; reflexivity.
Qed.

Lemma example_grouped_ok :
  conv_ok (mkConvParams 0 0 1 1 1 1 1 0 0 (-128) 127) [2 ^ 30; 2 ^ 30] [0; -1] None 1 2 2 1 1 2 2 2 1 1
    [1; 2; 3; 4; 5; 6; 7; 8] [1; 2; 3; 4; 5; 6; 7; 8].
Proof. split; [bounds..|]. split; [bounds..|intros _; bounds|discriminate]. Qed.

Lemma depthwise_is_grouped_witness :
  let params := mkConvParams 0 0 1 1 1 1 1 0 0 (-128) 127 in
  DepthwiseConvPerChannel true params 1 [2 ^ 30; 2 ^ 30] [0; -1] [1; 2; 2; 2] [1; 2; 3; 4; 5; 6; 7; 8] [1; 2; 2; 2]
    [1; 5; 2; 6; 3; 7; 4; 8] None [1; 1; 1; 2] [0; 0]
  = ConvPerChannel true params [2 ^ 30; 2 ^ 30] [0; -1] [1; 2; 2; 2] [1; 2; 3; 4; 5; 6; 7; 8] [2; 2; 2; 1]
    [1; 2; 3; 4; 5; 6; 7; 8] None [1; 1; 1; 2] [0; 0].
Proof.
  intros params.
  exact (@depthwise_is_grouped true nearest_gemmlowp nearest_gemmlowp_ok params [2 ^ 30; 2 ^ 30] [0; -1] None
    1 2 2 1 1 2 2 2 1 [1; 2; 3; 4; 5; 6; 7; 8] [1; 5; 2; 6; 3; 7; 4; 8] [1; 2; 3; 4; 5; 6; 7; 8] [0; 0]
    example_grouped_ok eq_refl example_weights).
Defined.

Example depthwise_runs :
  DepthwiseConvPerChannel true (mkConvParams 0 0 1 1 1 1 1 0 0 (-128) 127) 1 [2 ^ 30; 2 ^ 30] [0; -1] [1; 2; 2; 2]
    [1; 2; 3; 4; 5; 6; 7; 8] [1; 2; 2; 2] [1; 5; 2; 6; 3; 7; 4; 8] None [1; 1; 1; 2] [0; 0]
  = (Done tt, [30; 42]).
Proof. vm_compute. reflexivity. Qed.
