(* ===== verification/KernelPool.v ===== *)
(** * Padding and pooling (kernels/padding.h, kernels/internal/reference/integer_ops/pooling.h)

    How large the output of a window that slides over an image is and how the image is padded, and
    the mean and the maximum of [int8_t] elements in each window. *)
From S2P Require Import Prelude Shape KernelLayout OptionParser KernelQuantized.

(** ** Padding *)

(** [(filter_size - 1) * dilation_rate + 1]. *)
Definition effective_size {S} (filter_size dilation_rate : Z) : M S Z :=
  let* n := int_ (filter_size - 1) in
  let* p := int_ (n * dilation_rate) in
  int_ (p + 1).

(** [(out_size - 1) * stride + effective_filter_size - in_size]. *)
Definition missing_size {S} (stride dilation_rate in_size filter_size out_size : Z) : M S Z :=
  let* effective_filter_size := effective_size filter_size dilation_rate in
  let* n := int_ (out_size - 1) in
  let* p := int_ (n * stride) in
  let* q := int_ (p + effective_filter_size) in
  int_ (q - in_size).

Definition ComputePadding {S} (stride dilation_rate in_size filter_size out_size : Z) : M S Z :=
  let* total := missing_size stride dilation_rate in_size filter_size out_size in
  let padding := Z.quot total 2 in
  ret (if 0 <? padding then padding else 0).

(** The padding and what is returned in [*offset]. *)
Definition ComputePaddingWithOffset {S} (stride dilation_rate in_size filter_size out_size : Z) : M S (Z * Z) :=
  let* total := missing_size stride dilation_rate in_size filter_size out_size in
  let total_padding := if 0 <? total then total else 0 in
  ret (Z.quot total_padding 2, Z.rem total_padding 2).

Definition ComputeOutSize {S} (padding : TfLitePadding) (image_size filter_size stride dilation_rate : Z) : M S Z :=
  let* effective_filter_size := effective_size filter_size dilation_rate in
  if stride =? 0 then ret 0
  else match padding with
  | kTfLitePaddingSame =>
    let* sum := int_ (image_size + stride) in
    let* n := int_ (sum - 1) in
    int_div n stride
  | kTfLitePaddingValid =>
    let* sum := int_ (image_size + stride) in
    let* n := int_ (sum - effective_filter_size) in
    int_div n stride
  | kTfLitePaddingUnknown => ret 0
  end.

(** [TfLitePaddingValues], before the sizes of the output. *)
Record TfLitePaddingValues := mkPaddingValues { width : Z; height : Z; width_offset : Z; height_offset : Z }.

Definition ComputePaddingHeightWidth {S} (stride_height stride_width dilation_rate_height dilation_rate_width
    in_height in_width filter_height filter_width : Z) (padding : TfLitePadding) : M S (TfLitePaddingValues * Z * Z) :=
  let* out_width := ComputeOutSize padding in_width filter_width stride_width dilation_rate_width in
  let* out_height := ComputeOutSize padding in_height filter_height stride_height dilation_rate_height in
  let* h := ComputePaddingWithOffset stride_height dilation_rate_height in_height filter_height out_height in
  let* w := ComputePaddingWithOffset stride_width dilation_rate_width in_width filter_width out_width in
  ret (mkPaddingValues (fst w) (fst h) (snd w) (snd h), out_height, out_width).

(** ** Pooling *)

Record PoolParams := mkPoolParams {
  pool_padding_width : Z; pool_padding_height : Z;
  pool_stride_height : Z; pool_stride_width : Z;
  pool_filter_height : Z; pool_filter_width : Z;
  pool_activation_min : Z; pool_activation_max : Z }.

(** The part of a window that is in the image, from its start to before its end. *)
Definition window_range {S} (origin filter_size input_size : Z) : M S (Z * Z) :=
  let* negated := int_ (- origin) in
  let* rest := int_ (input_size - origin) in
  ret (Z.max 0 negated, Z.min filter_size rest).

Definition in_window (range : Z * Z) : list Z := zrange (fst range) (snd range - 1).

(** Rounded to the closest integer. *)
Definition rounded_mean {S} (acc filter_count : Z) : M S Z :=
  if 0 <? acc then let* n := int_ (acc + Z.quot filter_count 2) in int_div n filter_count
  else let* n := int_ (acc - Z.quot filter_count 2) in int_div n filter_count.

(** The loops, which fail where the code returns [false]. *)
Definition AveragePool_loops (params : PoolParams) (input_shape : RuntimeShape) (input_data : list Z)
    (output_shape : RuntimeShape) : M (list Z) unit :=
  let* batches := MatchingDim input_shape 0 output_shape 0 in
  let* depth := MatchingDim input_shape 3 output_shape 3 in
  let* input_height := Dims input_shape 1 in
  let* input_width := Dims input_shape 2 in
  let* output_height := Dims output_shape 1 in
  let* output_width := Dims output_shape 2 in
  for_int batches (fun batch => for_int output_height (fun out_y =>
  for_int output_width (fun out_x => for_int depth (fun channel =>
    let* in_x_origin := window_origin out_x (pool_stride_width params) (pool_padding_width params) in
    let* in_y_origin := window_origin out_y (pool_stride_height params) (pool_padding_height params) in
    let* filter_x := window_range in_x_origin (pool_filter_width params) input_width in
    let* filter_y := window_range in_y_origin (pool_filter_height params) input_height in
    let* acc_count := for_fold (in_window filter_y) (0, 0) (fun acc_count filter_y =>
      for_fold (in_window filter_x) acc_count (fun acc_count filter_x =>
        let* in_x := int_ (in_x_origin + filter_x) in
        let* in_y := int_ (in_y_origin + filter_y) in
        let* i := Offset input_shape batch in_y in_x channel in
        let* x := access (input_data.[i]) in
        let* acc := int_ (fst acc_count + x) in
        let* filter_count := int_ (snd acc_count + 1) in
        ret (acc, filter_count))) in
    let '(acc, filter_count) := acc_count in
    ensure (negb (filter_count =? 0)) ;;;
    let* mean := rounded_mean acc filter_count in
    let* o := Offset output_shape batch out_y out_x channel in
    store_at o (int8_wrap (Z.min (Z.max mean (pool_activation_min params)) (pool_activation_max params))))))).

Definition AveragePool (params : PoolParams) (input_shape : RuntimeShape) (input_data : list Z)
    (output_shape : RuntimeShape) : M (list Z) bool := fun out =>
  match AveragePool_loops params input_shape input_data output_shape out with
  | (Done _, out) => (Done true, out)
  | (Fail _, out) => (Done false, out)
  | (Undef, out) => (Undef, out)
  end.

Definition MaxPool (params : PoolParams) (input_shape : RuntimeShape) (input_data : list Z)
    (output_shape : RuntimeShape) : M (list Z) unit :=
  let* batches := MatchingDim input_shape 0 output_shape 0 in
  let* depth := MatchingDim input_shape 3 output_shape 3 in
  let* input_height := Dims input_shape 1 in
  let* input_width := Dims input_shape 2 in
  let* output_height := Dims output_shape 1 in
  let* output_width := Dims output_shape 2 in
  for_int batches (fun batch => for_int output_height (fun out_y =>
  for_int output_width (fun out_x => for_int depth (fun channel =>
    let* in_x_origin := window_origin out_x (pool_stride_width params) (pool_padding_width params) in
    let* in_y_origin := window_origin out_y (pool_stride_height params) (pool_padding_height params) in
    let* filter_x := window_range in_x_origin (pool_filter_width params) input_width in
    let* filter_y := window_range in_y_origin (pool_filter_height params) input_height in
    let* max := for_fold (in_window filter_y) (-128) (fun max filter_y =>
      for_fold (in_window filter_x) max (fun max filter_x =>
        let* in_x := int_ (in_x_origin + filter_x) in
        let* in_y := int_ (in_y_origin + filter_y) in
        let* i := Offset input_shape batch in_y in_x channel in
        let* x := access (input_data.[i]) in
        ret (Z.max max x))) in
    let max := Z.max max (int8_wrap (pool_activation_min params)) in
    let max := Z.min max (int8_wrap (pool_activation_max params)) in
    let* o := Offset output_shape batch out_y out_x channel in
    store_at o (int8_wrap max))))).
