(* ===== verification/KernelPoolProof.v ===== *)
(** * Padding and pooling, theorems

    With the padding and the size of the output that [ComputePaddingHeightWidth] gives, every window
    meets the image, so that a mean of its elements exists; pooling stores the rounded mean, or the
    maximum, of the part of the window that is in the image. *)
From S2P Require Import Prelude Shape KernelLayout KernelTranspose OptionParser KernelQuantized KernelQuantizedProof KernelPool.

(** ** Padding *)

(** One dimension: the output, the padding and the image fit together. *)
Record axis_ok (stride filter_size size out_size pad : Z) : Prop := {
  axis_stride : 0 < stride;
  axis_out : 0 < out_size;
  axis_pad : 0 <= pad < filter_size;
  axis_last : (out_size - 1) * stride < size }.

(** The sums that the arithmetic of padding forms. *)
Definition axis_small (stride filter_size size : Z) : Prop :=
  0 < stride /\ 0 < filter_size /\ 0 < size /\ size + stride + filter_size <= INT32_MAX.

Lemma effective_size_1 {S} filter_size (s : S) : 0 < filter_size <= INT32_MAX ->
  effective_size filter_size 1 s = (Done filter_size, s).
Proof.
  intros Hf. unfold effective_size.
  erewrite bind_done by (apply int_ok; unfold INT32_MIN; lia). rewrite Z.mul_1_r.
  erewrite bind_done by (apply int_ok; unfold INT32_MIN; lia).
  rewrite int_ok by (unfold INT32_MIN; lia). do 2 f_equal. lia.
Qed.

Section Padding.
Context (padding : TfLitePadding) (stride filter_size size : Z) (Hsmall : axis_small stride filter_size size)
  (Hkind : padding = kTfLitePaddingSame \/ padding = kTfLitePaddingValid /\ filter_size <= size).

(** The size of the output: every stride that starts in the image, or whose window ends in it. *)
Definition windows : Z :=
  match padding with
  | kTfLitePaddingSame => (size + stride - 1) / stride
  | _ => (size + stride - filter_size) / stride
  end.

Definition padding_before : Z := Z.max 0 ((windows - 1) * stride + filter_size - size) / 2.

Lemma last_window : 0 < windows /\ (windows - 1) * stride < size /\
  (padding = kTfLitePaddingValid -> (windows - 1) * stride + filter_size <= size).
Proof.
  destruct Hsmall as (Hs & Hf & Hz & _). unfold windows.
  destruct Hkind as [->|[-> Hle]]; (split; [|split; [|done || intros _]]).
  1, 3: apply Z.div_str_pos; lia.
  - pose proof (Z.mul_div_le (size + stride - 1) stride Hs). nia.
  - pose proof (Z.mul_div_le (size + stride - filter_size) stride Hs). nia.
  - pose proof (Z.mul_div_le (size + stride - filter_size) stride Hs). nia.
Qed.

Lemma axis_covers : axis_ok stride filter_size size windows padding_before.
Proof.
  destruct Hsmall as (Hs & Hf & Hz & _). destruct last_window as (Hw & Hl & _).
  split; [done..| |done]. unfold padding_before. split; [apply Z.div_pos; lia|]. apply Z.div_lt_upper_bound; lia.
Qed.

Lemma ComputeOutSize_ok {S} (s : S) : ComputeOutSize padding size filter_size stride 1 s = (Done windows, s).
Proof.
  destruct Hsmall as (Hs & Hf & Hz & Hm). unfold ComputeOutSize, windows.
  erewrite bind_done by (apply effective_size_1; lia). destruct (Z.eqb_spec stride 0); [lia|].
  destruct Hkind as [->|[-> Hle]].
  - erewrite bind_done by (apply int_ok; unfold INT32_MIN; lia).
    erewrite bind_done by (apply int_ok; unfold INT32_MIN; lia). apply int_div_ok; lia.
  - erewrite bind_done by (apply int_ok; unfold INT32_MIN; lia).
    erewrite bind_done by (apply int_ok; unfold INT32_MIN; lia). apply int_div_ok; lia.
Qed.

Lemma ComputePaddingWithOffset_ok {S} (s : S) : exists offset,
  ComputePaddingWithOffset stride 1 size filter_size windows s = (Done (padding_before, offset), s).
Proof.
  destruct Hsmall as (Hs & Hf & Hz & Hm). destruct last_window as (Hw & Hl & _).
  set (total := (windows - 1) * stride + filter_size - size). exists (Z.rem (Z.max 0 total) 2).
  assert (windows - 1 <= (windows - 1) * stride) by nia. assert (0 <= (windows - 1) * stride) by nia.
  unfold ComputePaddingWithOffset. erewrite (bind_done _ _ _ total).
  2: { unfold missing_size. erewrite bind_done by (apply effective_size_1; lia).
       do 3 erewrite bind_done by (apply int_ok; unfold INT32_MIN; lia). apply int_ok. unfold INT32_MIN, INT32_MAX in *. lia. }
  unfold padding_before. fold total. unfold ret.
  destruct (Z.ltb_spec 0 total); [rewrite (Z.max_r 0 total) by lia|rewrite (Z.max_l 0 total) by lia];
    rewrite Z.quot_div_nonneg by lia; done.
Qed.
End Padding.

(** Both dimensions at once. *)
Lemma ComputePaddingHeightWidth_ok {S} padding sh sw ih iw fh fw (s : S) :
  axis_small sh fh ih -> axis_small sw fw iw ->
  padding = kTfLitePaddingSame \/ padding = kTfLitePaddingValid /\ fh <= ih /\ fw <= iw ->
  exists values, ComputePaddingHeightWidth sh sw 1 1 ih iw fh fw padding s
      = (Done (values, windows padding sh fh ih, windows padding sw fw iw), s) /\
    height values = padding_before padding sh fh ih /\ width values = padding_before padding sw fw iw.
Proof.
  intros Hh Hw Hkind.
  assert (Hkh : padding = kTfLitePaddingSame \/ padding = kTfLitePaddingValid /\ fh <= ih) by tauto.
  assert (Hkw : padding = kTfLitePaddingSame \/ padding = kTfLitePaddingValid /\ fw <= iw) by tauto.
  destruct (ComputePaddingWithOffset_ok padding sh fh ih Hh Hkh s) as [oh Hoh].
  destruct (ComputePaddingWithOffset_ok padding sw fw iw Hw Hkw s) as [ow How].
  eexists. unfold ComputePaddingHeightWidth.
  erewrite bind_done by (by apply ComputeOutSize_ok). erewrite bind_done by (by apply ComputeOutSize_ok).
  erewrite bind_done by exact Hoh. erewrite bind_done by exact How. done.
Qed.

(** ** Windows *)

Lemma zrange_shift k a b : Z.add k <$> zrange a b = zrange (k + a) (k + b).
Proof.
  apply list_eq. intros i. rewrite list_lookup_fmap.
  destruct (decide (i < Z.to_nat (b - a + 1))%nat).
  - rewrite !zrange_lookup by lia. cbn. f_equal. lia.
  - rewrite !lookup_ge_None_2 by (rewrite length_zrange; lia). done.
Qed.

(** The coordinates of a window that are in the image. *)
Definition visible (stride pad filter_size size o : Z) : list Z :=
  zrange (Z.max 0 (o * stride - pad)) (Z.min size (o * stride - pad + filter_size) - 1).

Section Window.
Context (stride filter_size size out_size pad : Z) (Hok : axis_ok stride filter_size size out_size pad)
  (Hfit : size + filter_size <= INT32_MAX).

Lemma axis_sizes : 0 < filter_size /\ 0 < size.
Proof. destruct Hok as [Hs Ho Hp Hl]. assert (0 <= (out_size - 1) * stride) by nia. lia. Qed.

Lemma origin_range o : 0 <= o < out_size -> - filter_size < o * stride - pad < size.
Proof. intros Ho. destruct Hok as [Hs _ Hp Hl]. assert (0 <= o * stride <= (out_size - 1) * stride) by nia. lia. Qed.

Lemma origin_ok {S} o (s : S) : 0 <= o < out_size -> window_origin o stride pad s = (Done (o * stride - pad), s).
Proof.
  intros Ho. pose proof axis_sizes. pose proof (origin_range o Ho). destruct Hok as [Hs _ Hp Hl].
  assert (0 <= o * stride <= (out_size - 1) * stride) by nia. unfold window_origin, INT32_MAX in *.
  erewrite bind_done by (apply int_ok; unfold INT32_MIN, INT32_MAX; lia). apply int_ok. unfold INT32_MIN, INT32_MAX. lia.
Qed.

Lemma window_range_ok {S} o (s : S) : 0 <= o < out_size ->
  window_range (o * stride - pad) filter_size size s
  = (Done (Z.max 0 (- (o * stride - pad)), Z.min filter_size (size - (o * stride - pad))), s).
Proof.
  intros Ho. pose proof axis_sizes. pose proof (origin_range o Ho). unfold window_range, INT32_MAX in *.
  erewrite bind_done by (apply int_ok; unfold INT32_MIN, INT32_MAX; lia).
  by erewrite bind_done by (apply int_ok; unfold INT32_MIN, INT32_MAX; lia).
Qed.

(** What the loop over a window visits, seen from the image. *)
Lemma visible_window o : 
  Z.add (o * stride - pad) <$> in_window (Z.max 0 (- (o * stride - pad)), Z.min filter_size (size - (o * stride - pad)))
  = visible stride pad filter_size size o.
Proof. unfold in_window, visible. cbn [fst snd]. rewrite zrange_shift. f_equal; lia. Qed.

Lemma visible_in o y : y ∈ visible stride pad filter_size size o -> 0 <= y < size.
Proof. unfold visible. rewrite elem_of_zrange. lia. Qed.

Lemma visible_length o : 0 <= o < out_size -> 0 < zlength (visible stride pad filter_size size o) <= filter_size.
Proof.
  intros Ho. pose proof axis_sizes. pose proof (origin_range o Ho). destruct Hok as [Hs _ Hp Hl].
  unfold visible, zlength. rewrite length_zrange. lia.
Qed.
End Window.

(** ** Pooling *)

Definition pool_params (sh sw fh fw ph pw amin amax : Z) : PoolParams := mkPoolParams pw ph sh sw fh fw amin amax.

(** A loop that adds terms and counts them. *)
Lemma for_fold_count {S A} (f : A -> Z) b m l (body : Z * Z -> A -> M S (Z * Z)) acc count s :
  0 <= b -> 0 <= m ->
  (forall x, x ∈ l -> Z.abs (f x) <= b) ->
  (forall x acc' count', x ∈ l -> Z.abs acc' + b <= INT32_MAX -> 0 <= count' -> count' + m <= INT32_MAX ->
    body (acc', count') x s = (Done (acc' + f x, count' + m), s)) ->
  Z.abs acc + b * zlength l <= INT32_MAX -> 0 <= count -> count + m * zlength l <= INT32_MAX ->
  for_fold l (acc, count) body s = (Done (acc + zsum (f <$> l), count + m * zlength l), s).
Proof.
  intros Hb Hm. revert acc count. induction l as [|x l IH]; intros acc count Hf Hbody Ha Hc Hcm.
  { unfold zlength. cbn. unfold ret. do 3 f_equal; lia. }
  rewrite zlength_cons in *. pose proof (zlength_nonneg l).
  assert (Z.abs (f x) <= b) by (apply Hf; set_solver).
  rewrite for_fold_cons. erewrite bind_done by (apply Hbody; [set_solver|nia..]).
  rewrite IH; [|set_solver|set_solver|lia..]. rewrite fmap_cons, zsum_cons. do 3 f_equal; lia.
Qed.

Lemma rounded_mean_ok {S} acc count (s : S) : 0 < count -> Z.abs acc + count <= INT32_MAX -> exists mean,
  rounded_mean acc count s = (Done mean, s) /\ 2 * Z.abs (count * mean - acc) <= count.
Proof.
  intros Hc Hm. unfold rounded_mean. rewrite Z.quot_div_nonneg by lia.
  pose proof (Z.div_mod count 2). pose proof (Z.mod_pos_bound count 2).
  destruct (Z.ltb_spec 0 acc).
  - exists ((acc + count / 2) / count).
    erewrite bind_done by (apply int_ok; unfold INT32_MIN; lia). split; [apply int_div_ok; lia|].
    pose proof (Z.div_mod (acc + count / 2) count). pose proof (Z.mod_pos_bound (acc + count / 2) count). lia.
  - exists (- ((- acc + count / 2) / count)).
    assert (Hn : 0 <= (- acc + count / 2) / count <= - acc + count / 2)
      by (split; [apply Z.div_pos; lia|apply Z.div_le_upper_bound; nia]).
    erewrite bind_done by (apply int_ok; unfold INT32_MIN, INT32_MAX in *; lia). split.
    + unfold int_div. destruct (Z.eqb_spec count 0); [lia|].
      replace (acc - count / 2) with (- (- acc + count / 2)) by lia. rewrite Z.quot_opp_l, Z.quot_div_nonneg by lia.
      apply int_ok. unfold INT32_MIN, INT32_MAX in *. lia.
    + pose proof (Z.div_mod (- acc + count / 2) count). pose proof (Z.mod_pos_bound (- acc + count / 2) count). lia.
Qed.

Section Pool.
Context (n ih iw c oh ow fh fw sh sw ph pw amin amax : Z) (data : list Z).
Let ishape : list Z := [n; ih; iw; c].
Let oshape : list Z := [n; oh; ow; c].

Record pool_ok : Prop := {
  pool_dims : 0 < n /\ 0 < c;
  pool_sizes : product ishape <= INT32_MAX /\ product oshape <= INT32_MAX;
  pool_data : zlength data = product ishape /\ Forall int8 data;
  pool_y : axis_ok sh fh ih oh ph /\ ih + fh <= INT32_MAX;
  pool_x : axis_ok sw fw iw ow pw /\ iw + fw <= INT32_MAX;
  pool_room : 129 * (fh * fw) <= INT32_MAX;
  pool_limits : int8 amin /\ int8 amax }.

(** The elements of a window that are in the image. *)
Definition window_elements (b oy ox ch : Z) : list Z :=
  y ← visible sh ph fh ih oy; (fun x => zget data (row_major ishape [b; y; x; ch])) <$> visible sw pw fw iw ox.

Hypothesis Hok : pool_ok.

Lemma window_elements_int8 b oy ox ch : 0 <= b < n -> 0 <= ch < c -> Forall int8 (window_elements b oy ox ch).
Proof.
  intros Hb Hch. destruct Hok as [_ _ [Hlen Hdata] _ _ _ _]. apply Forall_forall. intros v Hv.
  apply list_elem_of_bind in Hv as (y & Hv & Hy). apply list_elem_of_fmap in Hv as (x & -> & Hx).
  apply visible_in in Hy, Hx. assert (Hin : in_box ishape [b; y; x; ch]) by (apply in_box4_iff; lia).
  apply row_major_range in Hin. apply (Forall_zget int8); [done|lia].
Qed.

Lemma window_elements_length b oy ox ch : 0 <= oy < oh -> 0 <= ox < ow ->
  0 < zlength (window_elements b oy ox ch) <= fh * fw.
Proof.
  intros Hoy Hox. destruct Hok as [_ _ _ [Hy _] [Hx _] _ _].
  pose proof (visible_length _ _ _ _ _ Hy oy Hoy) as Hly. pose proof (visible_length _ _ _ _ _ Hx ox Hox) as Hlx.
  assert (Hlen : zlength (window_elements b oy ox ch) = zlength (visible sh ph fh ih oy) * zlength (visible sw pw fw iw ox)).
  { unfold window_elements. generalize (visible sh ph fh ih oy) as l. clear. induction l as [|y l IH]; [done|].
    rewrite bind_cons, zlength_app, IH, zlength_cons. unfold zlength at 1. rewrite length_fmap.
    unfold zlength. lia. }
  rewrite Hlen. nia.
Qed.

(** A loop over a window is the loop over its elements. *)
Lemma window_reads {B} (step : B -> Z -> M (list Z) B) (init : B) b oy ox ch (s : list Z) :
  0 <= b < n -> 0 <= ch < c -> 0 <= oy < oh -> 0 <= ox < ow ->
  for_fold (in_window (Z.max 0 (- (oy * sh - ph)), Z.min fh (ih - (oy * sh - ph)))) init (fun a filter_y =>
    for_fold (in_window (Z.max 0 (- (ox * sw - pw)), Z.min fw (iw - (ox * sw - pw)))) a (fun a filter_x =>
      let* in_x := int_ (ox * sw - pw + filter_x) in
      let* in_y := int_ (oy * sh - ph + filter_y) in
      let* i := Offset ishape b in_y in_x ch in
      let* x := access (data.[i]) in
      step a x)) s
  = for_fold (window_elements b oy ox ch) init step s.
Proof.
  intros Hb Hch Hoy Hox. destruct Hok as [_ [Hpi _] [Hlen Hdata] [Hy Hfy] [Hx Hfx] _ _].
  unfold window_elements. rewrite <- (visible_window sh fh ih ph oy), <- (visible_window sw fw iw pw ox).
  rewrite for_fold_bind, for_fold_fmap. symmetry. apply for_fold_ext. intros a fy sy Hfyin.
  rewrite !for_fold_fmap. apply for_fold_ext. intros a' fx sx Hfxin.
  assert (Hyin : oy * sh - ph + fy ∈ visible sh ph fh ih oy) by (rewrite <- visible_window; by apply list_elem_of_fmap_2).
  assert (Hxin : ox * sw - pw + fx ∈ visible sw pw fw iw ox) by (rewrite <- visible_window; by apply list_elem_of_fmap_2).
  apply visible_in in Hyin, Hxin.
  assert (Hin : in_box ishape [b; oy * sh - ph + fy; ox * sw - pw + fx; ch]) by (apply in_box4_iff; lia).
  pose proof (row_major_range _ _ Hin). pose proof (axis_sizes _ _ _ _ _ Hy). pose proof (axis_sizes _ _ _ _ _ Hx).
  erewrite bind_done by (apply int_ok; unfold INT32_MIN, INT32_MAX in *; lia).
  erewrite bind_done by (apply int_ok; unfold INT32_MIN, INT32_MAX in *; lia).
  erewrite bind_done by (apply Offset_ok; [done|lia]).
  rewrite zlookup_zget by lia. cbn [access]. by rewrite bind_ret.
Qed.

(** The rounded mean of a window. *)
Definition is_mean (l : list Z) (mean : Z) : Prop := 0 < zlength l /\ 2 * Z.abs (zlength l * mean - zsum l) <= zlength l.

Lemma window_mean b oy ox ch (s : list Z) : 0 <= b < n -> 0 <= ch < c -> 0 <= oy < oh -> 0 <= ox < ow ->
  let l := window_elements b oy ox ch in
  exists mean, is_mean l mean /\
    for_fold l (0, 0) (fun acc_count x =>
      let* acc := int_ (fst acc_count + x) in
      let* filter_count := int_ (snd acc_count + 1) in
      ret (acc, filter_count)) s = (Done (zsum l, zlength l), s) /\
    rounded_mean (zsum l) (zlength l) s = (Done mean, s).
Proof.
  intros Hb Hch Hoy Hox l. pose proof (window_elements_length b oy ox ch Hoy Hox) as Hlen. fold l in Hlen.
  pose proof (window_elements_int8 b oy ox ch Hb Hch) as Hdata. fold l in Hdata. rewrite Forall_forall in Hdata.
  assert (Hroom : 129 * zlength l <= INT32_MAX) by (pose proof (pool_room Hok); lia).
  assert (Habs : forall x, x ∈ l -> Z.abs x <= 128) by (intros x Hx; specialize (Hdata x Hx); unfold int8 in Hdata; lia).
  assert (Hsum : Z.abs (zsum l) <= 128 * zlength l) by (rewrite <- (list_fmap_id l) at 1; by apply zsum_bound).
  destruct (rounded_mean_ok (zsum l) (zlength l) s) as (mean & Hrun & Hmean); [lia|lia|].
  exists mean. split; [by split; [lia|]|]. split; [|done].
  rewrite (for_fold_count id 128 1); [by rewrite list_fmap_id, Z.mul_1_l|done|done|done| |change (Z.abs 0) with 0; lia|done|lia].
  intros x acc count Hx Hacc Hc Hcm. specialize (Habs x Hx). cbn [fst snd]. unfold INT32_MAX in *.
  erewrite bind_done by (apply int_ok; unfold INT32_MIN, INT32_MAX; lia).
  by erewrite bind_done by (apply int_ok; unfold INT32_MIN, INT32_MAX; lia).
Qed.

(** The greatest element of a window. *)
Definition is_max (l : list Z) (m : Z) : Prop := m ∈ l /\ forall x, x ∈ l -> x <= m.

Lemma fold_max l (m : Z) (s : list Z) :
  for_fold l m (fun max x => ret (Z.max max x)) s = (Done (foldl Z.max m l), s).
Proof. revert m. induction l as [|x l IH]; intros m; [done|]. rewrite for_fold_cons, bind_ret. apply IH. Qed.

Lemma foldl_max l m : Forall (Z.le m) l -> l <> [] -> is_max l (foldl Z.max m l).
Proof.
  revert m. induction l as [|x l IH]; intros m Hm Hl; [done|]. inversion Hm; subst. cbn. rewrite Z.max_r by lia.
  assert (Hge : forall l' k, k <= foldl Z.max k l' /\ forall v, v ∈ l' -> v <= foldl Z.max k l').
  { clear. induction l' as [|v l' IH]; intros k; cbn; [split; [lia|set_solver]|].
    destruct (IH (Z.max k v)) as [Hk Hv]. split; [lia|]. intros w [->|Hw]%elem_of_cons; [lia|by apply Hv]. }
  assert (Hin : forall l' k, foldl Z.max k l' = k \/ foldl Z.max k l' ∈ l').
  { clear. induction l' as [|v l' IH]; intros k; cbn; [by left|].
    destruct (IH (Z.max k v)) as [->|Hk]; [|right; set_solver].
    destruct (Z.max_spec k v) as [[_ ->]|[_ ->]]; [right; set_solver|by left]. }
  split.
  - destruct (Hin l x) as [->|?]; set_solver.
  - destruct (Hge l x) as [Hx Hl']. intros v [->|Hv]%elem_of_cons; [done|by apply Hl'].
Qed.

Lemma window_max b oy ox ch : 0 <= b < n -> 0 <= ch < c -> 0 <= oy < oh -> 0 <= ox < ow ->
  is_max (window_elements b oy ox ch) (foldl Z.max (-128) (window_elements b oy ox ch)).
Proof.
  intros Hb Hch Hoy Hox. pose proof (window_elements_length b oy ox ch Hoy Hox) as Hlen.
  apply foldl_max; [|intros He; rewrite He in Hlen; unfold zlength in Hlen; cbn in Hlen; lia].
  eapply Forall_impl; [by apply window_elements_int8|]. unfold int8. intros; lia.
Qed.

(** What the loops store at each index of the output. *)
Definition clamp (x : Z) : Z := Z.min (Z.max x amin) amax.

Lemma clamp_int8 x : int8_wrap (clamp x) = clamp x.
Proof. destruct (pool_limits Hok) as [H1 H2]. unfold int8, int8_wrap, clamp in *. rewrite Z.mod_small; lia. Qed.

Definition mean_of (l : list Z) : Z :=
  if 0 <? zsum l then Z.quot (zsum l + Z.quot (zlength l) 2) (zlength l)
  else Z.quot (zsum l - Z.quot (zlength l) 2) (zlength l).

Lemma rounded_mean_value {S} l (s : S) mean : rounded_mean (zsum l) (zlength l) s = (Done mean, s) -> mean = mean_of l.
Proof.
  unfold rounded_mean, mean_of, bind, int_div, int_. destruct (0 <? zsum l).
  all: destruct (_ && _); [|discriminate]; cbn; destruct (zlength l =? 0); [discriminate|];
    destruct (_ && _); [|discriminate]; unfold ret; congruence.
Qed.

Let params : PoolParams := pool_params sh sw fh fw ph pw amin amax.

Lemma AveragePool_loops_stores (out : list Z) :
  AveragePool_loops params ishape data oshape out
  = for_each (box oshape) (on4 (fun b y x ch => store_at (row_major oshape [b; y; x; ch])
      (clamp (mean_of (window_elements b y x ch))))) out.
Proof.
  destruct (Hok) as [Hd [Hpi Hpo] [Hlen _] [Hy Hfy] [Hx Hfx] _ _].
  unfold AveragePool_loops. do 2 erewrite bind_done by (by apply MatchingDim_ok).
  do 4 erewrite bind_done by (by apply Dims_ok). rewrite for_box4. apply for_each_ext.
  intros idx s Hidx%elem_of_box. destruct (in_box4 _ _ Hidx eq_refl) as (b & y & x & ch & ->).
  pose proof (row_major_range _ _ Hidx). apply in_box4_iff in Hidx as Hr. destruct Hr as (Hb & Hyr & Hxr & Hch). cbn [on4].
  unfold params, pool_params. cbn [pool_stride_width pool_padding_width pool_stride_height pool_padding_height
    pool_filter_width pool_filter_height pool_activation_min pool_activation_max].
  do 2 erewrite bind_done by (by eapply origin_ok). do 2 erewrite bind_done by (by eapply window_range_ok).
  destruct (window_mean b y x ch s) as (mean & [Hpos _] & Hfold & Hmean); [done..|].
  erewrite bind_done by (rewrite (window_reads (fun acc_count x => let* acc := int_ (fst acc_count + x) in
    let* filter_count := int_ (snd acc_count + 1) in ret (acc, filter_count))) by done; exact Hfold).
  cbv beta iota. destruct (Z.eqb_spec (zlength (window_elements b y x ch)) 0); [lia|]. cbn [negb]. unfold ensure. rewrite bind_ret.
  erewrite bind_done by exact Hmean. rewrite (rounded_mean_value _ _ _ Hmean).
  erewrite bind_done by (apply Offset_ok; [done|lia]). fold (clamp (mean_of (window_elements b y x ch))).
  by rewrite clamp_int8.
Qed.

Lemma MaxPool_stores (out : list Z) :
  MaxPool params ishape data oshape out
  = for_each (box oshape) (on4 (fun b y x ch => store_at (row_major oshape [b; y; x; ch])
      (clamp (foldl Z.max (-128) (window_elements b y x ch))))) out.
Proof.
  destruct (Hok) as [Hd [Hpi Hpo] [Hlen _] [Hy Hfy] [Hx Hfx] _ [Hmin Hmax]].
  unfold MaxPool. do 2 erewrite bind_done by (by apply MatchingDim_ok).
  do 4 erewrite bind_done by (by apply Dims_ok). rewrite for_box4. apply for_each_ext.
  intros idx s Hidx%elem_of_box. destruct (in_box4 _ _ Hidx eq_refl) as (b & y & x & ch & ->).
  pose proof (row_major_range _ _ Hidx). apply in_box4_iff in Hidx as Hr. destruct Hr as (Hb & Hyr & Hxr & Hch). cbn [on4].
  unfold params, pool_params. cbn [pool_stride_width pool_padding_width pool_stride_height pool_padding_height
    pool_filter_width pool_filter_height pool_activation_min pool_activation_max].
  do 2 erewrite bind_done by (by eapply origin_ok). do 2 erewrite bind_done by (by eapply window_range_ok).
  erewrite bind_done by (rewrite (window_reads (fun max x => ret (Z.max max x))) by done; apply fold_max).
  cbv zeta. erewrite bind_done by (apply Offset_ok; [done|lia]).
  assert (Hwrap : forall z, int8 z -> int8_wrap z = z) by (unfold int8, int8_wrap; intros z Hz; rewrite Z.mod_small; lia).
  rewrite (Hwrap amin Hmin), (Hwrap amax Hmax). f_equal. apply clamp_int8.
Qed.
End Pool.

(** C24. Pooling with the padding that the kernel computes: every window of the output meets the image, so
    that AveragePool does not give up and stores the mean of the elements in the image, rounded to the
    nearest integer, and MaxPool their maximum, both clamped; no access is out of range, nothing is
    divided by zero and nothing overflows. *)
Theorem pooling_spec padding n ih iw c fh fw sh sw amin amax data :
  let oh := windows padding sh fh ih in
  let ow := windows padding sw fw iw in
  0 < n -> 0 < c -> axis_small sh fh ih -> axis_small sw fw iw ->
  padding = kTfLitePaddingSame \/ padding = kTfLitePaddingValid /\ fh <= ih /\ fw <= iw ->
  product [n; ih; iw; c] <= INT32_MAX -> product [n; oh; ow; c] <= INT32_MAX -> 129 * (fh * fw) <= INT32_MAX ->
  zlength data = product [n; ih; iw; c] -> Forall int8 data -> int8 amin -> int8 amax ->
  exists values, ComputePaddingHeightWidth sh sw 1 1 ih iw fh fw padding tt = (Done (values, oh, ow), tt) /\
    forall out, zlength out = product [n; oh; ow; c] ->
    let params := pool_params sh sw fh fw (height values) (width values) amin amax in
    let window := window_elements n ih iw c fh fw sh sw (height values) (width values) data in
    (exists out', AveragePool params [n; ih; iw; c] data [n; oh; ow; c] out = (Done true, out') /\
      forall b y x ch, in_box [n; oh; ow; c] [b; y; x; ch] -> exists mean,
        is_mean (window b y x ch) mean /\ out'.[row_major [n; oh; ow; c] [b; y; x; ch]] = Some (clamp amin amax mean)) /\
    (exists out', MaxPool params [n; ih; iw; c] data [n; oh; ow; c] out = (Done tt, out') /\
      forall b y x ch, in_box [n; oh; ow; c] [b; y; x; ch] -> exists m,
        is_max (window b y x ch) m /\ out'.[row_major [n; oh; ow; c] [b; y; x; ch]] = Some (clamp amin amax m)).
Proof.
  intros oh ow Hn Hc Hh Hw Hkind Hpi Hpo Hroom Hlen Hdata Hmin Hmax.
  destruct (ComputePaddingHeightWidth_ok padding sh sw ih iw fh fw tt Hh Hw Hkind) as (values & Hrun & Hph & Hpw).
  exists values. split; [exact Hrun|]. intros out Hout params window.
  assert (Hok : pool_ok n ih iw c oh ow fh fw sh sw (height values) (width values) amin amax data).
  { rewrite Hph, Hpw. unfold axis_small in Hh, Hw.
    split; try done; (split; [apply axis_covers; [done|tauto]|lia]). }
  subst params window. split.
  - destruct (stores_elements [n; oh; ow; c] (fun b y x ch => clamp amin amax (mean_of (window_elements n ih iw c fh fw sh sw (height values) (width values) data b y x ch))) out)
      as (out' & Hstore & _ & Hin); [done..|].
    exists out'. split.
    { unfold AveragePool. by rewrite (AveragePool_loops_stores _ _ _ _ _ _ _ _ _ _ _ _ _ _ _ Hok), Hstore. }
    intros b y x ch Hb. rewrite (Hin _ _ _ _ Hb). apply in_box4_iff in Hb as (Hbn & Hy & Hx & Hch).
    destruct (window_mean _ _ _ _ _ _ _ _ _ _ _ _ _ _ _ Hok b y x ch out) as (mean & Hm & _ & Hr); [done..|].
    exists mean. split; [done|]. by rewrite <- (rounded_mean_value _ _ _ Hr).
  - destruct (stores_elements [n; oh; ow; c] (fun b y x ch => clamp amin amax (foldl Z.max (-128)
      (window_elements n ih iw c fh fw sh sw (height values) (width values) data b y x ch))) out)
      as (out' & Hstore & _ & Hin); [done..|].
    exists out'. split; [by rewrite (MaxPool_stores _ _ _ _ _ _ _ _ _ _ _ _ _ _ _ Hok), Hstore|].
    intros b y x ch Hb. rewrite (Hin _ _ _ _ Hb). apply in_box4_iff in Hb as (Hbn & Hy & Hx & Hch).
    eexists. split; [|done]. by apply (window_max _ _ _ _ _ _ _ _ _ _ _ _ _ _ _ Hok).
Qed.

Lemma pooling_spec_witness :
  exists values, ComputePaddingHeightWidth 2 2 1 1 3 3 2 2 kTfLitePaddingSame tt = (Done (values, 2, 2), tt) /\
    exists out', AveragePool (pool_params 2 2 2 2 (height values) (width values) (-128) 127) [1; 3; 3; 1]
      [1; 2; 3; 4; 5; 6; 7; 8; -9] [1; 2; 2; 1] [0; 0; 0; 0] = (Done true, out').
Proof.
  assert (Haxis : axis_small 2 2 3) by (unfold axis_small, INT32_MAX; bounds).
  assert (Hdata : Forall int8 [1; 2; 3; 4; 5; 6; 7; 8; -9]) by bounds.
  assert (Hmin : int8 (-128)) by bounds. assert (Hmax : int8 127) by bounds.
  destruct (pooling_spec kTfLitePaddingSame 1 3 3 1 2 2 2 2 (-128) 127 [1; 2; 3; 4; 5; 6; 7; 8; -9]
    eq_refl eq_refl Haxis Haxis (or_introl eq_refl) ltac:(discriminate) ltac:(discriminate) ltac:(discriminate)
    eq_refl Hdata Hmin Hmax) as (values & Hrun & Hpool).
  exists values. split; [exact Hrun|].
  destruct (Hpool [0; 0; 0; 0] eq_refl) as [(out' & Havg & _) _]. exists out'. exact Havg.
Defined.

Example pools : let params := pool_params 2 2 2 2 0 0 (-128) 127 in
  AveragePool params [1; 3; 3; 1] [1; 2; 3; 4; 5; 6; 7; 8; -9] [1; 2; 2; 1] [0; 0; 0; 0] = (Done true, [3; 5; 8; -9]) /\
  MaxPool params [1; 3; 3; 1] [1; 2; 3; 4; 5; 6; 7; 8; -9] [1; 2; 2; 1] [0; 0; 0; 0] = (Done tt, [5; 6; 8; -9]).
Proof. split; reflexivity. Qed.
