(* ===== verification/KernelOps.v ===== *)
(** * Operators that run in the subgraph (kernels/kernel_util.{h,cc}, kernels/depth_to_space.cc,
    kernels/space_to_depth.cc)

    The functions in the registrations of two operators, by the reference kernels: what they ask of
    the context ([ResizeTensor], the tensors of a node), how they read their options from the struct
    that the parser of options allocated, and the elements that they move in memory. *)
From Stdlib Require Import String.
From stdpp Require Import strings.
From S2P Require Import Prelude Heap Common MemoryPlanner Callbacks Subgraph OptionStructs Shape KernelLayout.
#[local] Open Scope Z_scope.

Section Operators.
Context {P W : Type} {MM : Malloc}.
Abbreviation S := (sgstate P W).

(** ** What kernels use of the context *)

Definition ValidateTensorIndexingSafe (index : Z) (tensor_indices : list Z) : M S Z :=
  if (index <? 0) || (zlength tensor_indices <=? index) then fail kTfLiteError
  else
    let* tensor_index := access (tensor_indices.[index]) in
    if tensor_index =? kTfLiteOptionalTensor then fail kTfLiteError else ret tensor_index.

(** The tensors by their indices, which are references into the tensors of the context. *)
Definition GetInputSafe (node : TfLiteNode) (index : Z) : M S Z := ValidateTensorIndexingSafe index (node_inputs node).
Definition GetOutputSafe (node : TfLiteNode) (index : Z) : M S Z := ValidateTensorIndexingSafe index (node_outputs node).

Definition NumInputs (node : TfLiteNode) : Z := zlength (node_inputs node).
Definition NumOutputs (node : TfLiteNode) : Z := zlength (node_outputs node).

(** The dimensions; a tensor without them is undefined. *)
Definition GetTensorShape (i : Z) : M S RuntimeShape := let* t := tensor_ref i in access (t_dims t).

(** A field of type [int] of the options of a node. *)
Definition int_option (s : struct) (f : string) (node : TfLiteNode) : M S Z :=
  let* o := access (field s f) in
  let* bs := on_heap (load (builtin_data node + fst o) 4) in
  ret (int32_wrap (le_value bs)).

(** [scalar], by the type of the tensor: its size. *)
Definition scalar_size (t : TfLiteType) : option Z :=
  match t with
  | kTfLiteFloat32 | kTfLiteInt32 => Some 4
  | kTfLiteUInt8 | kTfLiteInt8 => Some 1
  | kTfLiteInt64 => Some 8
  | _ => None
  end.

(** [output_data[o] = input_data[i]]. *)
Definition copy_scalar (size input output i o : Z) : M S unit :=
  on_heap (let* x := load (input + i * size) size in store (output + o * size) x).

Definition kInputTensor : Z := 0.
Definition kOutputTensor : Z := 0.

(** The first lines of both [Prepare]: the tensors of the node, and the input's dimensions. *)
Definition prepare_tensors (node : TfLiteNode) : M S (Z * list Z) :=
  ensure (NumInputs node =? 1) ;;;
  ensure (NumOutputs node =? 1) ;;;
  let* input := GetInputSafe node kInputTensor in
  let* output := GetOutputSafe node kOutputTensor in
  let* dims := GetTensorShape input in
  ensure (zlength dims =? 4) ;;;
  let* ti := tensor_ref input in
  let* to := tensor_ref output in
  ensure (match scalar_size (t_type to) with Some _ => true | None => false end) ;;;
  ensure (bool_decide (t_type ti = t_type to)) ;;;
  ret (output, dims).

(** Both [Eval], around the kernel. *)
Definition eval_elements (s : struct) (index : Z)
    (kernel : (Z -> Z -> M S unit) -> Z -> RuntimeShape -> RuntimeShape -> M S unit) : M S unit :=
  let* node := node_arrays index in
  let* input := GetInputSafe node kInputTensor in
  let* output := GetOutputSafe node kOutputTensor in
  let* ti := tensor_ref input in
  let* to := tensor_ref output in
  match scalar_size (t_type ti) with
  | None => fail kTfLiteError
  | Some size =>
    let* block_size := int_option s "block_size" node in
    let* input_shape := GetTensorShape input in
    let* output_shape := GetTensorShape output in
    kernel (copy_scalar size (t_data ti) (t_data to)) block_size input_shape output_shape
  end.

(** ** The operators *)

Definition DepthToSpace_Prepare (index : Z) : M S unit :=
  let* node := node_arrays index in
  let* tensors := prepare_tensors node in
  let '(output, dims) := tensors in
  let* block_size := int_option TfLiteDepthToSpaceParams "block_size" node in
  ensure (0 <? block_size) ;;;
  let* input_height := Dims dims 1 in
  let* input_width := Dims dims 2 in
  let* input_channels := Dims dims 3 in
  let* output_height := int_ (input_height * block_size) in
  let* output_width := int_ (input_width * block_size) in
  let* c := int_div input_channels block_size in
  let* output_channels := int_div c block_size in
  let* h := int_div output_height block_size in
  ensure (input_height =? h) ;;;
  let* w := int_div output_width block_size in
  ensure (input_width =? w) ;;;
  let* row := int_ (output_channels * block_size) in
  let* block := int_ (row * block_size) in
  ensure (input_channels =? block) ;;;
  let* batch := Dims dims 0 in
  ResizeTensor output [batch; output_height; output_width; output_channels].

Definition DepthToSpace_Eval (node : Z) : M S unit :=
  eval_elements TfLiteDepthToSpaceParams node DepthToSpace_loops.

Definition SpaceToDepth_Prepare (index : Z) : M S unit :=
  let* node := node_arrays index in
  let* tensors := prepare_tensors node in
  let '(output, dims) := tensors in
  let* block_size := int_option TfLiteSpaceToDepthParams "block_size" node in
  ensure (0 <? block_size) ;;;
  let* input_height := Dims dims 1 in
  let* input_width := Dims dims 2 in
  let* output_height := int_div input_height block_size in
  let* output_width := int_div input_width block_size in
  let* h := int_ (output_height * block_size) in
  ensure (input_height =? h) ;;;
  let* w := int_ (output_width * block_size) in
  ensure (input_width =? w) ;;;
  let* batch := Dims dims 0 in
  let* input_channels := Dims dims 3 in
  let* row := int_ (input_channels * block_size) in
  let* output_channels := int_ (row * block_size) in
  ResizeTensor output [batch; output_height; output_width; output_channels].

Definition SpaceToDepth_Eval (node : Z) : M S unit :=
  eval_elements TfLiteSpaceToDepthParams node SpaceToDepth_loops.

(** ** Registrations *)

(** The addresses of the functions. *)
Record function_addresses := mkAddresses {
  depth_to_space_Prepare : Z; depth_to_space_Eval : Z;
  space_to_depth_Prepare : Z; space_to_depth_Eval : Z }.

Definition Register_DEPTH_TO_SPACE_REF (a : function_addresses) : TfLiteRegistration :=
  mkRegistration None None (Some (depth_to_space_Prepare a)) (Some (depth_to_space_Eval a)) 0 None 0 0 0.
Definition Register_SPACE_TO_DEPTH_REF (a : function_addresses) : TfLiteRegistration :=
  mkRegistration None None (Some (space_to_depth_Prepare a)) (Some (space_to_depth_Eval a)) 0 None 0 0 0.

(** The functions of the two operators beside those of other operators and delegates. *)
Definition with_operators (a : function_addresses) (CB : Callbacks S) : Callbacks S := {|
  UnresolvedOpInvoke := UnresolvedOpInvoke;
  operator_at := operator_at;
  delegate_at := delegate_at;
  call_init := call_init;
  call_free := call_free;
  call_prepare f data node :=
    if f =? depth_to_space_Prepare a then DepthToSpace_Prepare node
    else if f =? space_to_depth_Prepare a then SpaceToDepth_Prepare node
    else call_prepare f data node;
  call_invoke f data node :=
    if f =? depth_to_space_Eval a then DepthToSpace_Eval node
    else if f =? space_to_depth_Eval a then SpaceToDepth_Eval node
    else call_invoke f data node;
  call_delegate_Prepare := call_delegate_Prepare;
  call_CopyFromBufferHandle := call_CopyFromBufferHandle;
  call_FreeBufferHandle := call_FreeBufferHandle;
  call_check_cancelled := call_check_cancelled;
  call_CloneTo := call_CloneTo |}.
End Operators.
