(* ===== verification/KernelOpsProof.v ===== *)
(** * Operators that run in the subgraph, theorems

    The functions of the two operators stay within what the context lets kernels do, so that every
    theorem about subgraphs holds with them; and on tensors whose buffers are apart, as the planner
    places them, they move the elements in memory as the kernels do on lists. *)
From Stdlib Require Import String.
From stdpp Require Import strings.
From S2P Require Import Prelude Heap Common MemoryPlanner Callbacks Subgraph SubgraphRun SubgraphWf SubgraphSteps.
From S2P Require Import OptionStructs Shape KernelLayout KernelOps.
From S2P Require ArenaPlanner ArenaInstance.
#[local] Open Scope Z_scope.

(** ** Within the context *)

Section Acts.
Context {P W : Type} {MP : MemoryPlanner P} {MM : Malloc} {SS : StdSort} {SB : Siblings W}.
Abbreviation S := (sgstate P W).

Lemma reads_acts {A} n (c : M S A) : (forall s, snd (c s) = s) -> respects (rtc (kernel_action n)) c.
Proof. intros Hs s. rewrite Hs. apply rtc_refl. Qed.

Lemma heap_acts {A} n (c : M heap A) : respects (rtc (kernel_action n)) (on_heap (P := P) (W := W) c).
Proof. intros s. unfold on_heap, zoom. destruct (c _). apply rtc_once, act_context, act_outside. Qed.

Lemma resize_acts n i dims : respects (rtc (kernel_action n)) (ResizeTensor (P := P) (W := W) i dims).
Proof. intros s. apply rtc_once, act_context, act_resize. Qed.

Lemma read_tensor_acts n i : respects (rtc (kernel_action n)) (tensor_ref (P := P) (W := W) i).
Proof. apply reads_acts. intros s. unfold tensor_ref, this, bind. cbn. by destruct (_ .[i]). Qed.

Lemma read_node_acts n i : respects (rtc (kernel_action n)) (node_arrays (P := P) (W := W) i).
Proof.
  apply reads_acts. intros s. unfold node_arrays, node_ref, this, bind. cbn. destruct (_ .[i]); [|done]. cbn.
  by case_bool_decide.
Qed.

Lemma int_acts n z : respects (rtc (kernel_action n)) (int_ (S := S) z).
Proof. apply reads_acts. intros s. unfold int_. by destruct (_ && _). Qed.

#[local] Hint Resolve heap_acts resize_acts read_tensor_acts read_node_acts int_acts : respects.

Lemma option_acts n s f node : respects (rtc (kernel_action n)) (int_option (P := P) (W := W) s f node).
Proof. unfold int_option. walk. Qed.

Lemma prepare_tensors_acts n node : respects (rtc (kernel_action n)) (prepare_tensors (P := P) (W := W) node).
Proof. unfold prepare_tensors, GetInputSafe, GetOutputSafe, ValidateTensorIndexingSafe, GetTensorShape. walk. Qed.

#[local] Hint Resolve option_acts prepare_tensors_acts : respects.

Lemma DepthToSpace_Prepare_acts n node : respects (rtc (kernel_action n)) (DepthToSpace_Prepare (P := P) (W := W) node).
Proof. unfold DepthToSpace_Prepare, Dims, int_div. walk. Qed.

Lemma SpaceToDepth_Prepare_acts n node : respects (rtc (kernel_action n)) (SpaceToDepth_Prepare (P := P) (W := W) node).
Proof. unfold SpaceToDepth_Prepare, Dims, int_div. walk. Qed.

Lemma Offset_acts n shape i0 i1 i2 i3 : respects (rtc (kernel_action n)) (Offset (S := S) shape i0 i1 i2 i3).
Proof. unfold Offset, int_mul_add, Dims. walk. Qed.

#[local] Hint Resolve Offset_acts : respects.

Lemma eval_elements_acts n s index kernel :
  (forall copy block_size i o, (forall a b, respects (rtc (kernel_action n)) (copy a b)) ->
    respects (rtc (kernel_action n)) (kernel copy block_size i o)) ->
  respects (rtc (kernel_action n)) (eval_elements (P := P) (W := W) s index kernel).
Proof.
  intros Hk. unfold eval_elements, GetInputSafe, GetOutputSafe, ValidateTensorIndexingSafe, GetTensorShape. walk.
  all: apply Hk; intros a b; apply heap_acts.
Qed.

Lemma DepthToSpace_loops_acts n copy bs i o : (forall a b, respects (rtc (kernel_action n)) (copy a b)) ->
  respects (rtc (kernel_action n)) (DepthToSpace_loops (S := S) copy bs i o).
Proof.
  intros Hc. unfold DepthToSpace_loops, ExtendedShape, Dims, for_int, int_rem, int_div, int_mul_add. walk.
Qed.

Lemma SpaceToDepth_loops_acts n copy bs i o : (forall a b, respects (rtc (kernel_action n)) (copy a b)) ->
  respects (rtc (kernel_action n)) (SpaceToDepth_loops (S := S) copy bs i o).
Proof.
  intros Hc. unfold SpaceToDepth_loops, ExtendedShape, Dims, for_int, int_rem, int_div, int_mul_add. walk.
Qed.

(** Replacing nodes initialises and frees kernels, and does not run them. *)
Lemma delegate_action_same a (CB : Callbacks S) d s s' : delegate_action (CB := CB) d s s' ->
  delegate_action (CB := with_operators a CB) d s s'.
Proof. intros [s1 H|reg nodes]; [by apply act_delegate_context|exact (act_replace (CB := with_operators a CB) d s reg nodes)]. Qed.

(** The functions of the two operators stay within the context. *)
Lemma with_operators_ok a (CB : Callbacks S) : CallbacksOk CB -> CallbacksOk (with_operators a CB).
Proof.
  intros [Hi Hf Hp Hv Hd Hc Hb Hx]. split; intros; cbn;
    try first [apply Hi|apply Hf|apply Hd|apply Hc|apply Hb|apply Hx].
  - repeat destruct (_ =? _); [apply DepthToSpace_Prepare_acts|apply SpaceToDepth_Prepare_acts|apply Hp].
  - repeat destruct (_ =? _); [| |apply Hv]; apply eval_elements_acts.
    + apply DepthToSpace_loops_acts.
    + apply SpaceToDepth_loops_acts.
  - eapply rtc_subrel, Hd. apply delegate_action_same.
Qed.
End Acts.

(** ** Kernels in memory *)

(** Where the list kernel is defined, the call does the same to a related state. *)
Definition simulates {S T A} (R : S -> T -> Prop) (c : M S A) (d : M T A) : Prop :=
  forall s v, R s v -> forall a v', d v = (Done a, v') -> exists s', c s = (Done a, s') /\ R s' v'.

Section Simulation.
Context {S T : Type} (R : S -> T -> Prop).

Lemma simulates_ret {A} (a : A) : simulates R (ret a) (ret a).
Proof. intros s v Hr a' v' [= <- <-]. by exists s. Qed.

Lemma simulates_undef {A} (c : M S A) : simulates R c undef.
Proof. by intros s v Hr a v'. Qed.

Lemma simulates_bind {A B} (c : M S A) (d : M T A) (k : A -> M S B) (l : A -> M T B) :
  simulates R c d -> (forall a, simulates R (k a) (l a)) -> simulates R (bind c k) (bind d l).
Proof.
  intros Hc Hk s v Hr b w. unfold bind at 1. destruct (d v) as [[a|e|] v'] eqn:Hd; [|done..].
  intros Hl. destruct (Hc s v Hr a v' Hd) as (s' & Hs & Hr'). erewrite bind_done by done. by eapply Hk.
Qed.

Lemma simulates_access {A} (o : option A) : simulates R (access o) (access o).
Proof. destruct o; [apply simulates_ret|apply simulates_undef]. Qed.

Lemma simulates_int z : simulates R (int_ z) (int_ z).
Proof. unfold int_. destruct (_ && _); [apply simulates_ret|apply simulates_undef]. Qed.

Lemma simulates_for_each {A} (l : list A) body body' :
  (forall x, simulates R (body x) (body' x)) -> simulates R (for_each l body) (for_each l body').
Proof. intros Hb. induction l as [|x l IH]; [apply simulates_ret|]. by apply simulates_bind. Qed.

Ltac sim := repeat first
  [ progress intros | apply simulates_bind | apply simulates_for_each | apply simulates_access | apply simulates_int | apply simulates_ret | apply simulates_undef
  | match goal with |- simulates _ (if ?b then _ else _) _ => destruct b end ].

Context (copy : Z -> Z -> M S unit) (copy' : Z -> Z -> M T unit).
Hypothesis Hcopy : forall i o, simulates R (copy i o) (copy' i o).

Lemma DepthToSpace_sim bs i o : simulates R (DepthToSpace_loops copy bs i o) (DepthToSpace_loops copy' bs i o).
Proof.
  unfold DepthToSpace_loops, ExtendedShape, for_int, int_rem, int_div, int_mul_add, Offset, Dims. sim. apply Hcopy.
Qed.

Lemma SpaceToDepth_sim bs i o : simulates R (SpaceToDepth_loops copy bs i o) (SpaceToDepth_loops copy' bs i o).
Proof.
  unfold SpaceToDepth_loops, ExtendedShape, for_int, int_rem, int_div, int_mul_add, Offset, Dims. sim. apply Hcopy.
Qed.
End Simulation.

(** Element [i] of a buffer. *)
Definition element (f : Z -> Z) (p size i : Z) : list Z := read_bytes f (p + i * size) size.
Definition elements (f : Z -> Z) (p size n : Z) : list (list Z) := element f p size <$> zrange 0 (n - 1).

Lemma zlength_elements f p size n : 0 <= n -> zlength (elements f p size n) = n.
Proof. intros. unfold zlength, elements. rewrite length_fmap, length_zrange. lia. Qed.

Lemma elements_lookup f p size n i : 0 <= i < n -> (elements f p size n).[i] = Some (element f p size i).
Proof.
  intros Hi. apply zlookup_some. rewrite zlength_elements by lia. split; [done|].
  unfold elements. rewrite list_lookup_fmap, zrange_lookup by lia. cbn. do 2 f_equal. lia.
Qed.

Lemma element_written f p size x : zlength x = size -> read_bytes (write_bytes f p x) p size = x.
Proof. intros <-. pose proof (write_bytes_append f p [] x eq_refl) as H. cbn in H. by rewrite Z.add_0_r in H. Qed.

Section Memory.
Context {P W : Type}.
Abbreviation S := (sgstate P W).

(** [n] elements of [size] bytes at [input] and at [output], in live blocks and apart. *)
Record apart (h : heap) (size n input output : Z) : Prop := {
  apart_size : 0 < size;
  apart_input : in_live_block h input (n * size) = true;
  apart_output : in_live_block h output (n * size) = true;
  apart_disjoint : input + n * size <= output \/ output + n * size <= input }.

(** Only bytes of [p, p + m) may differ. *)
Definition changes_only (s s' : S) (p m : Z) : Prop :=
  sg_graph s' = sg_graph s /\ sg_world s' = sg_world s /\ live (sg_heap s') = live (sg_heap s) /\
  (forall a, ~ p <= a < p + m -> mem (sg_heap s') a = mem (sg_heap s) a).

Context (s0 : S) (size n input output : Z) (Ha : apart (sg_heap s0) size n input output).

(** The output holds the list, and nothing else changed. *)
Definition holds (s : S) (v : list (list Z)) : Prop :=
  changes_only s0 s output (n * size) /\ zlength v = n /\
  (forall i x, v.[i] = Some x -> element (mem (sg_heap s)) output size i = x).

Lemma holds_initial : 0 <= n -> holds s0 (elements (mem (sg_heap s0)) output size n).
Proof.
  intros Hn. split_and!; try done; [by apply zlength_elements|]. intros i x Hx.
  pose proof Hx as [Hi _]%zlookup_some. rewrite zlength_elements in Hi by done.
  rewrite elements_lookup in Hx by done. by injection Hx.
Qed.

Lemma in_live_part (h h' : heap) p q m k : live h' = live h -> in_live_block h p m = true -> p <= q -> q + k <= p + m ->
  in_live_block h' q k = true.
Proof.
  intros Hl (b & l & Hb & ? & ?)%in_live_block_spec ? ?. apply in_live_block_spec. exists b, l. rewrite Hl.
  split_and!; [done|lia..].
Qed.

Lemma copy_scalar_sim i o : simulates holds (copy_scalar size input output i o)
  (copy_element (elements (mem (sg_heap s0)) input size n) i o).
Proof.
  destruct Ha as [Hs Hin Hout Hd]. intros s v ((Hg & Hw & Hl & Hmem) & Hv & Hel) [] v' Hrun.
  unfold copy_element in Hrun. destruct (_ .[i]) as [x|] eqn:Hx; [|done]. cbn in Hrun. unfold store_at in Hrun.
  assert (Hn : 0 <= n) by (rewrite <- Hv; unfold zlength; lia).
  pose proof Hx as [Hi _]%zlookup_some. rewrite zlength_elements in Hi by done.
  rewrite elements_lookup in Hx by done. injection Hx as Hx.
  destruct (decide (0 <= o < n)) as [Ho|Ho].
  2: { unfold zinsert, zlength in *. destruct (Z.ltb_spec o 0), (Z.leb_spec (Z.of_nat (length v)) o); cbn in Hrun; (done || lia). }
  rewrite zinsert_zset in Hrun by lia. injection Hrun as <-.
  assert (Hread : read_bytes (mem (sg_heap s)) (input + i * size) size = x).
  { rewrite <- Hx. apply read_bytes_ext. intros a Hr. apply Hmem. nia. }
  assert (Hlen : zlength x = size) by (rewrite <- Hx; apply zlength_read_bytes; lia).
  eexists. split.
  - unfold copy_scalar, on_heap, zoom, bind, load, store.
    rewrite (in_live_part (sg_heap s0)) with (p := input) (m := n * size) by (done || nia).
    rewrite Hread, Hlen, (in_live_part (sg_heap s0)) with (p := output) (m := n * size) by (done || nia). done.
  - split_and!; [split_and!; cbn; try done| |]; [|by rewrite zlength_zset|].
    2: { intros j y. cbn. rewrite zlookup_zset by lia. destruct (Z.eqb_spec o j) as [<-|Hne]; [intros [= <-]; by apply element_written|].
      intros Hy. rewrite <- (Hel j y Hy). apply read_bytes_ext. intros a Hr. unfold write_bytes. rewrite Hlen.
      destruct (Z.leb_spec (output + o * size) a), (Z.ltb_spec a (output + o * size + size)); try done. nia. }
    intros a Hr. rewrite <- Hmem by done. unfold write_bytes. rewrite Hlen.
      destruct (Z.leb_spec (output + o * size) a), (Z.ltb_spec a (output + o * size + size)); try done. nia.
Qed.
End Memory.

(** ** The operators *)

Section Operators.
Context {P W : Type} {MM : Malloc}.
Abbreviation S := (sgstate P W).

(** Node [index] has input [i] and output [o], and its options, a struct [f], a block size [bs]. *)
Record operator_node (f : struct) (s : S) (index i o : Z) (ti to : TfLiteTensor) (bs : Z) : Prop := {
  on_node : exists node reg off ty, (nodes_and_registration_ (sg_graph s)).[index] = Some (node, reg) /\
    node_inputs node = [i] /\ node_outputs node = [o] /\
    field f "block_size" = Some (off, ty) /\
    in_live_block (sg_heap s) (builtin_data node + off) 4 = true /\
    int32_wrap (le_value (read_bytes (mem (sg_heap s)) (builtin_data node + off) 4)) = bs;
  on_freed : index ∉ freed_nodes_ (sg_graph s);
  on_input : (tensors_ (sg_graph s)).[i] = Some ti;
  on_output : (tensors_ (sg_graph s)).[o] = Some to;
  on_block_size : 0 < bs;
  on_type : t_type ti = t_type to }.

(** A node of one input takes it, when it is a tensor. *)
Lemma single_index s i t : (tensors_ (sg_graph (s : S))).[i] = Some t -> ValidateTensorIndexingSafe 0 [i] s = (Done i, s).
Proof.
  intros [Hi _]%zlookup_some. unfold ValidateTensorIndexingSafe, zlength. cbn [length].
  change (Z.of_nat 1 <=? 0) with false. cbn [orb Z.ltb Z.compare]. erewrite bind_access by done.
  destruct (Z.eqb_spec i kTfLiteOptionalTensor); [unfold kTfLiteOptionalTensor in *; lia|done].
Qed.

Lemma operator_arrays f s index i o ti to bs : operator_node f s index i o ti to bs ->
  exists node, node_arrays index s = (Done node, s) /\
    GetInputSafe node 0 s = (Done i, s) /\ GetOutputSafe node 0 s = (Done o, s) /\
    NumInputs node = 1 /\ NumOutputs node = 1 /\
    int_option f "block_size" node s = (Done bs, s).
Proof.
  intros [(node & reg & off & ty & Hn & Hin & Hout & Hf & Hl & Hbs) Hfr Hi Ho _ _]. exists node. split_and!.
  - unfold node_arrays, node_ref, this, bind. cbn. rewrite Hn. cbn. by rewrite bool_decide_eq_false_2.
  - unfold GetInputSafe. rewrite Hin. by eapply single_index.
  - unfold GetOutputSafe. rewrite Hout. by eapply single_index.
  - unfold NumInputs. by rewrite Hin.
  - unfold NumOutputs. by rewrite Hout.
  - unfold int_option. rewrite Hf. cbn. unfold on_heap, zoom, bind, load. cbn. rewrite Hl. cbn. rewrite Hbs.
    by destruct s.
Qed.

Lemma tensor_ref_ok s i t : (tensors_ (sg_graph (s : S))).[i] = Some t -> tensor_ref i s = (Done t, s).
Proof. intros Ht. unfold tensor_ref, this, bind. by rewrite Ht. Qed.

Lemma GetTensorShape_ok s i t dims : (tensors_ (sg_graph (s : S))).[i] = Some t -> t_dims t = Some dims ->
  GetTensorShape i s = (Done dims, s).
Proof. intros Ht Hd. unfold GetTensorShape. erewrite bind_done by (by apply tensor_ref_ok). by rewrite Hd. Qed.

Lemma eval_elements_runs f s index i o ti to bs size di do_ kernel : operator_node f s index i o ti to bs ->
  scalar_size (t_type ti) = Some size -> t_dims ti = Some di -> t_dims to = Some do_ ->
  eval_elements f index kernel s = kernel (copy_scalar size (t_data ti) (t_data to)) bs di do_ s.
Proof.
  intros Hop Hs Hi Ho. destruct (operator_arrays _ _ _ _ _ _ _ _ Hop) as (node & Hn & Hin & Hout & _ & _ & Hb).
  destruct Hop as [_ _ Hti Hto _ _]. unfold eval_elements. do 3 erewrite bind_done by done.
  do 2 erewrite bind_done by (by apply tensor_ref_ok). rewrite Hs.
  erewrite bind_done by done. by do 2 erewrite bind_done by (by eapply GetTensorShape_ok).
Qed.

Lemma prepare_tensors_ok f s index i o ti to bs size dims : operator_node f s index i o ti to bs ->
  scalar_size (t_type ti) = Some size -> t_dims ti = Some dims -> zlength dims = 4 ->
  exists node, node_arrays index s = (Done node, s) /\ int_option f "block_size" node s = (Done bs, s) /\
    prepare_tensors node s = (Done (o, dims), s).
Proof.
  intros Hop Hs Hd Hlen. destruct (operator_arrays _ _ _ _ _ _ _ _ Hop) as (node & Hn & Hin & Hout & Hni & Hno & Hb).
  destruct Hop as [_ _ Hti Hto _ Hty]. exists node. split_and!; [done..|].
  unfold prepare_tensors. rewrite Hni, Hno. do 2 erewrite bind_done by reflexivity.
  erewrite bind_done by exact Hin. erewrite bind_done by exact Hout.
  erewrite bind_done by (by eapply GetTensorShape_ok). rewrite Hlen. erewrite bind_done by reflexivity.
  do 2 erewrite bind_done by (by apply tensor_ref_ok). rewrite <- Hty, Hs. erewrite bind_done by reflexivity.
  by rewrite bool_decide_eq_true_2.
Qed.
End Operators.

Section Runs.
Context {P W : Type} {MP : MemoryPlanner P} {MM : Malloc}.
Abbreviation S := (sgstate P W).

(** The output's dimensions, or an error when the channels are no blocks. *)
Lemma DepthToSpace_Prepare_spec s index i o ti to bs size n h w d :
  operator_node TfLiteDepthToSpaceParams s index i o ti to bs ->
  scalar_size (t_type ti) = Some size -> t_dims ti = Some [n; h; w; d] -> 0 <= h -> 0 <= w -> 0 <= d <= INT32_MAX ->
  h * bs <= INT32_MAX -> w * bs <= INT32_MAX ->
  DepthToSpace_Prepare (P := P) (W := W) index s
  = if d =? d / bs / bs * bs * bs then ResizeTensor o [n; h * bs; w * bs; d / bs / bs] s else (Fail kTfLiteError, s).
Proof.
  intros Hop Hs Hdims Hh Hw Hd Hhm Hwm. pose proof (on_block_size _ _ _ _ _ _ _ _ Hop) as Hbs.
  destruct (prepare_tensors_ok _ _ _ _ _ _ _ _ _ _ Hop Hs Hdims eq_refl) as (node & Hn & Hb & Hp).
  unfold DepthToSpace_Prepare. erewrite bind_done by done. erewrite bind_done by done. cbv beta iota.
  erewrite bind_done by done. destruct (Z.ltb_spec 0 bs); [|lia]. erewrite bind_done by reflexivity.
  do 3 erewrite bind_done by reflexivity.
  pose proof (Z.div_pos d bs ltac:(lia) Hbs). pose proof (Z.mul_div_le d bs Hbs).
  pose proof (Z.div_pos (d / bs) bs ltac:(lia) Hbs). pose proof (Z.mul_div_le (d / bs) bs Hbs).
  assert (0 <= d / bs <= INT32_MAX) by nia.
  do 2 (erewrite bind_done by (apply int_ok; unfold INT32_MIN; nia)).
  do 2 (erewrite bind_done by (apply int_div_ok; lia)).
  erewrite bind_done by (apply int_div_ok; nia). rewrite Z.div_mul, Z.eqb_refl by lia. erewrite bind_done by reflexivity.
  erewrite bind_done by (apply int_div_ok; nia). rewrite Z.div_mul, Z.eqb_refl by lia. erewrite bind_done by reflexivity.
  do 2 (erewrite bind_done by (apply int_ok; unfold INT32_MIN; nia)).
  by destruct (_ =? _).
Qed.

Lemma SpaceToDepth_Prepare_spec s index i o ti to bs size n h w c :
  operator_node TfLiteSpaceToDepthParams s index i o ti to bs ->
  scalar_size (t_type ti) = Some size -> t_dims ti = Some [n; h; w; c] -> 0 <= h <= INT32_MAX -> 0 <= w <= INT32_MAX ->
  0 <= c -> c * bs * bs <= INT32_MAX ->
  SpaceToDepth_Prepare (P := P) (W := W) index s
  = if (h =? h / bs * bs) && (w =? w / bs * bs) then ResizeTensor o [n; h / bs; w / bs; c * bs * bs] s
    else (Fail kTfLiteError, s).
Proof.
  intros Hop Hs Hdims Hh Hw Hc Hcm. pose proof (on_block_size _ _ _ _ _ _ _ _ Hop) as Hbs.
  destruct (prepare_tensors_ok _ _ _ _ _ _ _ _ _ _ Hop Hs Hdims eq_refl) as (node & Hn & Hb & Hp).
  unfold SpaceToDepth_Prepare. erewrite bind_done by done. erewrite bind_done by done. cbv beta iota.
  erewrite bind_done by done. destruct (Z.ltb_spec 0 bs); [|lia]. erewrite bind_done by reflexivity.
  do 2 erewrite bind_done by reflexivity.
  pose proof (Z.div_pos h bs ltac:(lia) Hbs). pose proof (Z.mul_div_le h bs Hbs).
  pose proof (Z.div_pos w bs ltac:(lia) Hbs). pose proof (Z.mul_div_le w bs Hbs).
  do 2 (erewrite bind_done by (apply int_div_ok; lia)).
  erewrite bind_done by (apply int_ok; unfold INT32_MIN; nia). destruct (h =? _); [|done].
  erewrite bind_done by reflexivity.
  erewrite bind_done by (apply int_ok; unfold INT32_MIN; nia). destruct (w =? _); [|done].
  do 3 (erewrite bind_done by reflexivity).
  by do 2 (erewrite bind_done by (apply int_ok; unfold INT32_MIN; nia)).
Qed.
(** A kernel that moves a list's elements moves those in memory. *)
Lemma operator_moves f s index i o ti to bs size di do_ m kernel (run : list (list Z) -> M (list (list Z)) unit)
    (A : Type) (inside : A -> Prop) (pos src : A -> Z) :
  operator_node f s index i o ti to bs ->
  scalar_size (t_type ti) = Some size -> t_dims ti = Some di -> t_dims to = Some do_ -> 0 <= m ->
  apart (sg_heap s) size m (t_data ti) (t_data to) ->
  (forall copy input, (forall i o, simulates (holds s size m (t_data to)) (copy i o) (copy_element input i o)) ->
    simulates (holds s size m (t_data to)) (kernel copy bs di do_) (run input)) ->
  (forall input v, zlength input = m -> zlength v = m -> exists v', run input v = (Done tt, v') /\ zlength v' = m /\
    forall x, inside x -> v'.[pos x] = input.[src x]) ->
  (forall x, inside x -> 0 <= src x < m) ->
  exists s', eval_elements (P := P) (W := W) f index kernel s = (Done tt, s') /\
    changes_only s s' (t_data to) (m * size) /\
    forall x, inside x -> element (mem (sg_heap s')) (t_data to) size (pos x) = element (mem (sg_heap s)) (t_data ti) size (src x).
Proof.
  intros Hop Hs Hi Ho Hm Ha Hsim Hrun Hsrc.
  destruct (Hrun (elements (mem (sg_heap s)) (t_data ti) size m) (elements (mem (sg_heap s)) (t_data to) size m))
    as (v' & Hv & _ & Hmoved); [by apply zlength_elements..|].
  destruct (Hsim (copy_scalar size (t_data ti) (t_data to)) _ (copy_scalar_sim _ _ _ _ _ Ha) s _
    (holds_initial s size m (t_data to) Hm) tt v' Hv) as (s' & Hs' & Hch & _ & Hel).
  exists s'. erewrite eval_elements_runs by done. split_and!; [done..|].
  intros x Hx. apply Hel. rewrite Hmoved by done. by apply elements_lookup, Hsrc.
Qed.

(** C29. The operators SpaceToDepth and DepthToSpace, on a node whose options hold a block size: [Prepare]
    resizes the output to the dimensions of the blocks' picture, and [Eval], once the tensors are in
    live blocks apart, moves every element of the input in memory to the place that the kernel on
    lists gives it, and changes no other byte, tensor or node; nothing overflows and no access is out
    of bounds. *)
Theorem space_depth_operators s index i o ti to bs size n h w c :
  let space := [n; h * bs; w * bs; c] in
  let depth := [n; h; w; c * bs * bs] in
  0 < n -> 0 < h -> 0 < w -> 0 < c -> product space <= INT32_MAX -> scalar_size (t_type ti) = Some size ->
  (operator_node TfLiteSpaceToDepthParams s index i o ti to bs -> t_dims ti = Some space ->
    SpaceToDepth_Prepare (P := P) (W := W) index s = ResizeTensor o depth s /\
    (t_dims to = Some depth -> apart (sg_heap s) size (product space) (t_data ti) (t_data to) ->
     exists s', SpaceToDepth_Eval index s = (Done tt, s') /\ changes_only s s' (t_data to) (product space * size) /\
       forall b y x d, in_box space [b; y; x; d] ->
         element (mem (sg_heap s')) (t_data to) size
           (row_major depth [b; y / bs; x / bs; (y mod bs * bs + x mod bs) * c + d])
         = element (mem (sg_heap s)) (t_data ti) size (row_major space [b; y; x; d]))) /\
  (operator_node TfLiteDepthToSpaceParams s index i o ti to bs -> t_dims ti = Some depth ->
    DepthToSpace_Prepare (P := P) (W := W) index s = ResizeTensor o space s /\
    (t_dims to = Some space -> apart (sg_heap s) size (product space) (t_data ti) (t_data to) ->
     exists s', DepthToSpace_Eval index s = (Done tt, s') /\ changes_only s s' (t_data to) (product space * size) /\
       forall b y x d, in_box space [b; y; x; d] ->
         element (mem (sg_heap s')) (t_data to) size (row_major space [b; y; x; d])
         = element (mem (sg_heap s)) (t_data ti) size
             (row_major depth [b; y / bs; x / bs; (y mod bs * bs + x mod bs) * c + d]))).
Proof.
  intros space depth Hn Hh Hw Hc Hm Hs. split; intros Hop Hdims; pose proof (on_block_size _ _ _ _ _ _ _ _ Hop) as Hbs;
    destruct (fits_of_index bs n h w c Hbs Hc Hm [0; 0; 0; 0]) as (? & ? & ?); try (apply in_box4_iff; nia); split.
  - erewrite SpaceToDepth_Prepare_spec by (done || nia). by rewrite !Z.div_mul, !Z.eqb_refl by lia.
  - intros Ho Ha. edestruct operator_moves with (m := product space) (inside := in_box space)
      (pos := fun idx => row_major depth (to_depth bs c idx)) (src := row_major space)
      (run := fun input : list (list Z) => SpaceToDepth bs space input depth) as (s' & Hrun & Hch & Hel); try done.
    + unfold space, product. cbn. nia.
    + intros copy input Hc'. by apply SpaceToDepth_sim.
    + intros input v Hi Hv. by apply SpaceToDepth_moves.
    + intros idx Hx. by apply row_major_range.
    + exists s'. split_and!; [done..|]. intros b y x d. apply (Hel [b; y; x; d]).
  - erewrite DepthToSpace_Prepare_spec by (done || nia). by rewrite !Z.div_mul, !Z.eqb_refl by lia.
  - intros Ho Ha. edestruct operator_moves with (m := product space) (inside := in_box space)
      (pos := row_major space) (src := fun idx => row_major depth (to_depth bs c idx))
      (run := fun input : list (list Z) => DepthToSpace bs depth input space) as (s' & Hrun & Hch & Hel); try done.
    + unfold space, product. cbn. nia.
    + intros copy input Hc'. by apply DepthToSpace_sim.
    + intros input v Hi Hv. by apply DepthToSpace_moves.
    + intros idx Hx. unfold space. rewrite <- product_depth. by apply row_major_range, to_depth_in.
    + exists s'. split_and!; [done..|]. intros b y x d. apply (Hel [b; y; x; d]).
Qed.
End Runs.

(** ** A graph of the two operators, allocated and run *)

Section ExampleGraph.
#[local] Instance ops_malloc : Malloc := bump_place.
#[local] Instance ops_sort : StdSort := insertion_sort.
Abbreviation G := (sgstate ArenaPlanner.ArenaPlanner (list event)).

Definition ops_addresses : function_addresses := mkAddresses 10 11 12 13.
#[local] Instance ops_callbacks : Callbacks G := with_operators ops_addresses ex_callbacks.

(** The options of the two nodes, in blocks of their own: blocks of two by two. *)
Definition ops_heap : heap := Heap {[ 64 := 4; 128 := 4 ]} (fun a => if (a =? 64) || (a =? 128) then 2 else 0).

Definition ops_graph : list operation := [
  op_AddTensors 3; op_SetInputs [0]; op_SetOutputs [2];
  op_SetTensorParametersReadWrite 0 kTfLiteInt8 None [1; 2; 4; 1] kTfLiteNoQuantization false [] 0;
  op_SetTensorParametersReadWrite 1 kTfLiteInt8 None [1] kTfLiteNoQuantization false [] 0;
  op_SetTensorParametersReadWrite 2 kTfLiteInt8 None [1] kTfLiteNoQuantization false [] 0;
  op_AddNodeWithParameters [0] [1] [] 0 0 64 (Register_SPACE_TO_DEPTH_REF ops_addresses);
  op_AddNodeWithParameters [1] [2] [] 0 0 128 (Register_DEPTH_TO_SPACE_REF ops_addresses);
  op_AllocateTensors ].

Definition ops_state : G := run_ops ops_graph (SG ops_heap Subgraph_init []).

Definition ops_tensor (s : G) (i : Z) : TfLiteTensor := default tensor_zero ((tensors_ (sg_graph s)).[i]).
Definition ops_data (s : G) (i : Z) : list Z := read_bytes (mem (sg_heap s)) (t_data (ops_tensor s i)) 8.

(** The client writes the picture to the input's buffer. *)
Definition ops_picture : G := snd (on_heap (store (t_data (ops_tensor ops_state 0)) [1; 2; 5; 6; 3; 4; 7; 8]) ops_state).

Definition ops_node (i : Z) : TfLiteNode * TfLiteRegistration :=
  default (mkNode [] [] [] [] 0 0 0 0 0 false, Register_SPACE_TO_DEPTH_REF ops_addresses)
    ((nodes_and_registration_ (sg_graph ops_picture)).[i]).

(** The tensors are resized when the graph is allocated, and the picture goes to depth and back. *)
Example picture_to_depth_and_back :
  t_dims (ops_tensor ops_state 1) = Some [1; 1; 2; 4] /\ t_dims (ops_tensor ops_state 2) = Some [1; 2; 4; 1] /\
  let '(o, s) := Invoke ops_picture in
  o = Done tt /\ ops_data s 1 = [1; 2; 3; 4; 5; 6; 7; 8] /\ ops_data s 2 = [1; 2; 5; 6; 3; 4; 7; 8].
Proof. vm_compute. repeat split. Qed.

Lemma space_depth_operators_witness : exists s',
  SpaceToDepth_Eval 0 ops_picture = (Done tt, s') /\
  changes_only ops_picture s' (t_data (ops_tensor ops_picture 1)) 8 /\
  element (mem (sg_heap s')) (t_data (ops_tensor ops_picture 1)) 1 4 = [5].
Proof.
  destruct (space_depth_operators ops_picture 0 0 1 (ops_tensor ops_picture 0) (ops_tensor ops_picture 1) 2 1 1 1 2 1)
    as [Hto _]; [lia..|by vm_compute|vm_compute; reflexivity|].
  destruct Hto as [_ Hto].
  - split; [|apply (bool_decide_eq_false_1 _)|..]; [|vm_compute; reflexivity..].
    exists (fst (ops_node 0)), (snd (ops_node 0)), 0, c_int.
    refine (conj _ (conj _ (conj _ (conj _ (conj _ _))))); vm_compute; reflexivity.
  - vm_compute. reflexivity.
  - destruct Hto as (s' & Hrun & Hch & Hel); [vm_compute; reflexivity| |].
    + split; [lia|vm_compute; reflexivity..|left; by vm_compute].
    + exists s'. split_and!; [exact Hrun|exact Hch|]. refine (eq_trans (Hel 0 0 2 0 _) _); [|vm_compute; reflexivity].
      apply in_box4_iff. lia.
Defined.
End ExampleGraph.
