(* ===== verification/StringBuffer.v ===== *)
(** * String tensors (tensorflow/lite/string_util.{h,cc}, string_utils.{h,cc})

    A string tensor is a byte buffer: the number of strings, the offset of every string, the
    length of the buffer, the contents.  [SimpleDynamicBuffer] collects strings and writes
    such a buffer; [GetStringCount] and [GetString] read it.  The bytes are those of a
    little-endian target, as on every platform the plugin is built for. *)
From S2P Require Import Prelude Heap Common.
#[local] Open Scope Z_scope.

(** ** Machine integers in memory *)

Definition sizeof_int32 : Z := 4.

(** The bytes of an [int32_t] and the [int32_t] of four bytes. *)
Definition int32_bytes (z : Z) : list Z :=
  [Z.land z 255; Z.land (Z.shiftr z 8) 255; Z.land (Z.shiftr z 16) 255; Z.land (Z.shiftr z 24) 255].

Definition int32_of_bytes (bs : list Z) : Z :=
  int32_wrap (zget bs 0 + Z.shiftl (zget bs 1) 8 + Z.shiftl (zget bs 2) 16 + Z.shiftl (zget bs 3) 24).

(** ** The buffer under construction *)

(** A string passed in is its bytes; the [StringRef] that is returned is a pointer and a
    length. *)
Record StringRef := mkStringRef { str : Z; len : Z }.

Record SimpleDynamicBuffer := mkBuffer { data_ : list Z; offset_ : list Z; max_length_ : Z }.

Definition kDefaultMaxLength : Z := INT32_MAX.

Definition SimpleDynamicBuffer_init (max_length : Z) : SimpleDynamicBuffer :=
  mkBuffer [] [0] max_length.

(** [std::vector<char>::max_size()]: a longer vector makes [resize] throw, which nothing
    catches. *)
Definition vector_max_size : Z := 2 ^ 63 - 1.

Definition resize_data (n : Z) : M SimpleDynamicBuffer unit :=
  if vector_max_size <? n then undef
  else modify (fun b => mkBuffer (zresize (data_ b) n 0) (offset_ b) (max_length_ b)).

(** [memcpy] into the elements of [data_]. *)
Definition write_data (off : Z) (bs : list Z) : M SimpleDynamicBuffer unit := fun b =>
  if (0 <=? off) && (off + zlength bs <=? zlength (data_ b))
  then (Done tt, mkBuffer (take (Z.to_nat off) (data_ b) ++ bs ++
                           drop (Z.to_nat (off + zlength bs)) (data_ b)) (offset_ b) (max_length_ b))
  else (Undef, b).

Definition push_offset (off : Z) : M SimpleDynamicBuffer unit :=
  modify (fun b => mkBuffer (data_ b) (offset_ b ++ [off]) (max_length_ b)).

(** [offset_.back()]. *)
Definition last_offset : M SimpleDynamicBuffer Z := fun b => access (last (offset_ b)) b.

Module SimpleBuffer.
Definition AddString (s : list Z) : M SimpleDynamicBuffer bool :=
  let* b := get in
  if (max_length_ b <? zlength s) || (size_wrap (max_length_ b - zlength s) <=? zlength (data_ b))
  then ret false
  else
    let* back := last_offset in
    if zlength s =? 0 then push_offset back ;;; ret true
    else
      resize_data (size_wrap (zlength (data_ b) + zlength s)) ;;;
      write_data back s ;;;
      push_offset (size_wrap (back + zlength s)) ;;;
      ret true.
End SimpleBuffer.

(** [WriteToBuffer]: the number of bytes ([-1] when there is no memory) and the block. *)
Definition WriteToBuffer `{Malloc} (b : SimpleDynamicBuffer) : M heap (Z * Z) :=
  let num_strings := int32_wrap (zlength (offset_ b) - 1) in
  let bytes := int32_wrap (zlength (data_ b) + sizeof_int32 * size_wrap (num_strings + 2)) in
  let* buffer := malloc (size_wrap bytes) in
  if buffer =? 0 then ret (-1, 0)
  else
    store buffer (int32_bytes num_strings) ;;;
    let start := int32_wrap (sizeof_int32 * size_wrap (num_strings + 2)) in
    for_each (enumerate (offset_ b)) (fun '(i, off) =>
      store (buffer + sizeof_int32 * (i + 1)) (int32_bytes (int32_wrap (size_wrap start + off)))) ;;;
    (if negb (bool_decide (data_ b = [])) then store (buffer + start) (data_ b) else ret tt) ;;;
    ret (bytes, buffer).

(** ** Reading *)

Definition load_int32 (p : Z) : M heap Z :=
  let* bs := load p sizeof_int32 in ret (int32_of_bytes bs).

Definition GetStringCount (raw_buffer : Z) : M heap Z := load_int32 raw_buffer.

(** The difference of two [int]s is undefined when it overflows. *)
Definition GetString (raw_buffer string_index : Z) : M heap StringRef :=
  let offset := raw_buffer + sizeof_int32 * (string_index + 1) in
  let* next := load_int32 (offset + sizeof_int32) in
  let* this := load_int32 offset in
  if (INT32_MIN <=? next - this) && (next - this <=? INT32_MAX)
  then ret (mkStringRef (raw_buffer + this) (size_wrap (next - this)))
  else undef.

(** ** [DynamicBuffer] *)

Module DynamicBuffer.
Definition AddString (s : list Z) : M SimpleDynamicBuffer unit :=
  let* ok := SimpleBuffer.AddString s in if ok then ret tt else fail kTfLiteError.

(** [total_len] is an [int]; the products and sums are computed in [size_t]. *)
Definition joined_len (strings : list (list Z)) (separator : list Z) : Z :=
  foldl (fun total_len ref => int32_wrap (size_wrap total_len + zlength ref))
    (int32_wrap (size_wrap (zlength strings - 1) * zlength separator)) strings.

Definition AddJoinedString (strings : list (list Z)) (separator : list Z)
    : M SimpleDynamicBuffer unit :=
  let total_len := joined_len strings separator in
  let* b := get in
  resize_data (size_wrap (zlength (data_ b) + size_wrap total_len)) ;;;
  let* back := last_offset in
  let* _ := for_fold (enumerate strings) back (fun dst '(i, s) =>
    let* dst := (if negb (i =? 0)
                 then write_data dst separator ;;; ret (dst + zlength separator)
                 else ret dst) in
    write_data dst s ;;; ret (dst + zlength s)) in
  push_offset (size_wrap (back + size_wrap total_len)).

Definition AddJoinedString_char (strings : list (list Z)) (separator : Z)
    : M SimpleDynamicBuffer unit := AddJoinedString strings [separator].

Section Tensor.
Context {MM : Malloc}.

(** [bytes] is passed as a [size_t]; the null [new_shape] keeps a copy of the shape. *)
Definition WriteToTensor (b : SimpleDynamicBuffer) (new_shape : TfLiteIntArray) : M tstate unit :=
  let* r := on_theap (WriteToBuffer b) in
  let '(bytes, tensor_buffer) := r in
  let* tensor := the_tensor in
  let new_shape := match new_shape with None => t_dims tensor | Some _ => new_shape end in
  TfLiteTensorReset (t_type tensor) (t_name tensor) new_shape (t_params tensor) tensor_buffer
    (size_wrap bytes) kTfLiteDynamic (t_allocation tensor) (t_is_variable tensor).

Definition WriteToTensorAsVector (b : SimpleDynamicBuffer) : M tstate unit :=
  WriteToTensor b (Some [int32_wrap (zlength (offset_ b) - 1)]).
End Tensor.

Definition GetStringCount (t : TfLiteTensor) : M heap Z := StringBuffer.GetStringCount (t_data t).

Definition GetString (t : TfLiteTensor) (string_index : Z) : M heap StringRef :=
  StringBuffer.GetString (t_data t) string_index.
End DynamicBuffer.

(** Two strings, "AB" and the empty string: the example of string_util.h. *)
Example example_two_strings :
  match (SimpleBuffer.AddString [65; 66] ;;; SimpleBuffer.AddString [] ;;; get)
          (SimpleDynamicBuffer_init kDefaultMaxLength) with
  | (Done b, _) =>
    match @WriteToBuffer bump_place b heap_empty with
    | (Done (n, p), h) => (n, read_bytes (mem h) p n)
    | _ => (0, [])
    end
  | _ => (0, [])
  end = (18, [2; 0; 0; 0; 16; 0; 0; 0; 18; 0; 0; 0; 18; 0; 0; 0; 65; 66]).
Proof. by vm_compute. Qed.

(** ** Properties *)

Section Collect.

(** The offsets of strings laid out one after the other from [off]. *)
Fixpoint offsets_of (off : Z) (ss : list (list Z)) : list Z :=
  off :: match ss with [] => [] | s :: ss' => offsets_of (off + zlength s) ss' end.

(** [b] holds exactly the strings [ss]. *)
Definition buffer_of (ss : list (list Z)) (b : SimpleDynamicBuffer) : Prop :=
  data_ b = concat ss /\ offset_ b = offsets_of 0 ss.

Definition total_size (ss : list (list Z)) : Z := zlength (concat ss).

Lemma total_size_app ss ss' : total_size (ss ++ ss') = total_size ss + total_size ss'.
Proof. unfold total_size. by rewrite concat_app, zlength_app. Qed.

Lemma total_size_cons s ss : total_size (s :: ss) = zlength s + total_size ss.
Proof. unfold total_size. cbn. by rewrite zlength_app. Qed.

Lemma zlength_offsets_of off ss : zlength (offsets_of off ss) = zlength ss + 1.
Proof.
  revert off. induction ss as [|s ss IH]; intros off; [done|].
  cbn [offsets_of]. rewrite !zlength_cons, IH. lia.
Qed.

Lemma offsets_of_snoc off ss s :
  offsets_of off (ss ++ [s]) = offsets_of off ss ++ [off + total_size ss + zlength s].
Proof.
  revert off. induction ss as [|x ss IH]; intros off; cbn [app offsets_of].
  - change (total_size []) with 0. by rewrite Z.add_0_r.
  - rewrite IH, total_size_cons. cbn. do 3 f_equal. lia.
Qed.

Lemma last_offsets_of off ss : last (offsets_of off ss) = Some (off + total_size ss).
Proof.
  revert off. induction ss as [|s ss IH]; intros off.
  - cbn. f_equal. unfold total_size, zlength. cbn. lia.
  - cbn [offsets_of]. rewrite last_cons, IH, total_size_cons. f_equal. lia.
Qed.

(** The [i]-th string lies between the [i]-th offset and the next. *)
Lemma offsets_of_lookup off ss i s : ss !! i = Some s ->
  offsets_of off ss !! i = Some (off + total_size (take i ss)) /\
  offsets_of off ss !! S i = Some (off + total_size (take i ss) + zlength s).
Proof.
  revert off i. induction ss as [|x ss IH]; intros off i Hi; [done|].
  destruct i as [|i]; cbn in Hi.
  - simplify_eq. change (total_size (take 0 _)) with 0. rewrite Z.add_0_r. split; [done|].
    by destruct ss.
  - destruct (IH (off + zlength x) i Hi) as [H1 H2]. cbn [take]. rewrite total_size_cons.
    split; cbn [offsets_of]; [etransitivity; [exact H1|]|etransitivity; [exact H2|]]; f_equal; lia.
Qed.

Lemma total_size_take i (ss : list (list Z)) s : ss !! i = Some s ->
  concat ss = concat (take i ss) ++ s ++ concat (drop (S i) ss).
Proof.
  intros Hi. rewrite <- (take_drop_middle ss i s Hi) at 1.
  by rewrite concat_app, concat_cons.
Qed.

(** Growing the data and filling the new room. *)
Lemma grow_data_run b n bs :
  zlength (data_ b) + zlength bs = n -> n <= vector_max_size ->
  (resize_data n ;;; write_data (zlength (data_ b)) bs) b =
    (Done tt, mkBuffer (data_ b ++ bs) (offset_ b) (max_length_ b)).
Proof.
  intros Hn Hmax. unfold bind, resize_data, write_data.
  rewrite (proj2 (Z.ltb_ge _ _)) by lia. cbn. rewrite zlength_zresize by (unfold zlength in *; lia).
  pose proof (zlength_nonneg (data_ b)). pose proof (zlength_nonneg bs).
  destruct (Z.leb_spec 0 (zlength (data_ b))), (Z.leb_spec (zlength (data_ b) + zlength bs) n);
    try lia. cbn. do 2 f_equal.
  unfold zresize. rewrite (take_ge (data_ b)) by (unfold zlength in *; lia).
  replace (Z.to_nat (zlength (data_ b))) with (length (data_ b)) by (unfold zlength; lia).
  rewrite take_app_length, drop_ge; [by rewrite app_nil_r|].
  rewrite length_app, length_replicate. unfold zlength in *. lia.
Qed.

Lemma AddString_run ss b s :
  buffer_of ss b -> 0 <= max_length_ b <= vector_max_size ->
  SimpleBuffer.AddString s b =
    if total_size ss + zlength s <? max_length_ b
    then (Done true, mkBuffer (concat (ss ++ [s])) (offsets_of 0 (ss ++ [s])) (max_length_ b))
    else (Done false, b).
Proof.
  intros [Hd Ho] Hm. pose proof (zlength_nonneg s). pose proof (zlength_nonneg (concat ss)).
  unfold SimpleBuffer.AddString. rewrite bind_get, Hd. fold (total_size ss) in *.
  destruct (Z.ltb_spec (max_length_ b) (zlength s)); cbn [orb].
  { destruct (Z.ltb_spec (total_size ss + zlength s) (max_length_ b)); [lia|done]. }
  rewrite size_wrap_small by (unfold vector_max_size, SIZE_MAX in *; lia).
  destruct (Z.leb_spec (max_length_ b - zlength s) (total_size ss)),
    (Z.ltb_spec (total_size ss + zlength s) (max_length_ b)); try lia; [done|].
  assert (Hback : last_offset b = (Done (total_size ss), b)).
  { unfold last_offset. by rewrite Ho, last_offsets_of. }
  rewrite (bind_done _ _ _ _ _ Hback), offsets_of_snoc, <- Ho, concat_app. cbn [concat].
  rewrite app_nil_r, <- Hd.
  destruct (Z.eqb_spec (zlength s) 0) as [Hz|Hz].
  - assert (s = []) as -> by (destruct s; [done|rewrite zlength_cons in Hz; pose proof (zlength_nonneg s); lia]).
    unfold bind, push_offset, modify, ret. cbn. rewrite app_nil_r.
    do 4 f_equal. rewrite Z.add_0_r. reflexivity.
  - rewrite !size_wrap_small by (unfold vector_max_size, SIZE_MAX in *; lia).
    pose proof (grow_data_run b (total_size ss + zlength s) s) as Hg.
    rewrite Hd in Hg. fold (total_size ss) in Hg.
    rewrite <- bind_assoc, (bind_done _ _ _ _ _ (Hg ltac:(lia) ltac:(lia))).
    unfold bind, push_offset, modify, ret. cbn. by rewrite Hd.
Qed.

(** Adding strings whose total stays below the limit. *)
Lemma AddStrings_run ss : forall pre b,
  buffer_of pre b -> 0 <= max_length_ b <= vector_max_size ->
  total_size (pre ++ ss) < max_length_ b ->
  for_each ss DynamicBuffer.AddString b =
    (Done tt, mkBuffer (concat (pre ++ ss)) (offsets_of 0 (pre ++ ss)) (max_length_ b)).
Proof.
  induction ss as [|s ss IH]; intros pre b Hb Hm Htot.
  - rewrite app_nil_r in *. destruct Hb as [<- <-]. by destruct b.
  - assert (Happ : pre ++ s :: ss = (pre ++ [s]) ++ ss) by (by rewrite <- app_assoc).
    rewrite Happ in *.
    assert (Hlt : total_size pre + zlength s < max_length_ b).
    { rewrite !total_size_app in Htot. unfold total_size in Htot at 2. cbn in Htot.
      rewrite app_nil_r in Htot. pose proof (zlength_nonneg (concat ss)).
      unfold total_size in *. lia. }
    rewrite for_each_cons. unfold DynamicBuffer.AddString at 1. rewrite bind_assoc.
    rewrite (bind_done _ _ b true (mkBuffer (concat (pre ++ [s])) (offsets_of 0 (pre ++ [s]))
      (max_length_ b))).
    2: { rewrite (AddString_run pre) by done. by rewrite (proj2 (Z.ltb_lt _ _)). }
    exact (IH (pre ++ [s]) (mkBuffer _ _ (max_length_ b)) ltac:(done) Hm Htot).
Qed.
End Collect.

(** *** The bytes of an [int32_t] *)

Lemma int32_bytes_arith z : int32_bytes z =
  [z mod 256; z / 256 mod 256; z / 65536 mod 256; z / 16777216 mod 256].
Proof.
  unfold int32_bytes. change 255 with (Z.ones 8).
  rewrite !Z.land_ones, !Z.shiftr_div_pow2 by lia. reflexivity.
Qed.

Lemma int32_roundtrip z : INT32_MIN <= z <= INT32_MAX -> int32_of_bytes (int32_bytes z) = z.
Proof.
  intros Hz. rewrite int32_bytes_arith. unfold int32_of_bytes, zget, zlookup.
  cbn -[Z.shiftl Z.div Z.modulo int32_wrap]. rewrite !Z.shiftl_mul_pow2 by lia.
  change (2 ^ 8) with 256. change (2 ^ 16) with 65536. change (2 ^ 24) with 16777216.
  assert (Heq : z mod 256 + z / 256 mod 256 * 256 + z / 65536 mod 256 * 65536 +
    z / 16777216 mod 256 * 16777216 = z mod 4294967296).
  { replace (z / 65536) with (z / 256 / 256) by (rewrite Z.div_div; [done|lia..]).
    replace (z / 16777216) with (z / 256 / 256 / 256) by (rewrite !Z.div_div; [done|lia..]).
    Z.to_euclidean_division_equations. lia. }
  change (int32_wrap (z mod 256 + z / 256 mod 256 * 256 + z / 65536 mod 256 * 65536 +
    z / 16777216 mod 256 * 16777216) = z).
  rewrite Heq. unfold int32_wrap, INT32_MIN, INT32_MAX in *. change (2 ^ 32) with 4294967296.
  change (2 ^ 31) with 2147483648 in *. Z.to_euclidean_division_equations. lia.
Qed.

(** ** Writing the buffer *)

(** The format of string_util.h. *)
Definition header_size (n : Z) : Z := sizeof_int32 * (n + 2).

Definition encode (ss : list (list Z)) : list Z :=
  int32_bytes (zlength ss) ++
  concat ((fun off => int32_bytes (header_size (zlength ss) + off)) <$> offsets_of 0 ss) ++
  concat ss.

Lemma zlength_concat_int32 (l : list Z) (f : Z -> Z) :
  zlength (concat ((fun off => int32_bytes (f off)) <$> l)) = sizeof_int32 * zlength l.
Proof.
  induction l as [|x l IH]; [done|]. rewrite fmap_cons, zlength_cons. cbn [concat].
  rewrite zlength_app, IH. change (zlength (int32_bytes _)) with 4. unfold sizeof_int32. lia.
Qed.

Lemma zlength_encode ss : zlength (encode ss) = header_size (zlength ss) + total_size ss.
Proof.
  unfold encode. rewrite !zlength_app, zlength_concat_int32, zlength_offsets_of.
  change (zlength (int32_bytes _)) with 4. unfold header_size, sizeof_int32, total_size. lia.
Qed.

(** Every byte outside [p, p + n) is unchanged. *)
Definition same_outside (f g : Z -> Z) (p n : Z) : Prop :=
  forall a, a < p \/ p + n <= a -> g a = f a.

Lemma write_bytes_outside f q bs p n : p <= q -> q + zlength bs <= p + n ->
  same_outside f (write_bytes f q bs) p n.
Proof.
  intros ? ? a Ha. unfold write_bytes. pose proof (zlength_nonneg bs).
  destruct (Z.leb_spec q a), (Z.ltb_spec a (q + zlength bs)); cbn; (done || lia).
Qed.

(** A sequence of stores, each right after the previous one, appends to what was written. *)
Lemma store_append h p m l bs :
  live h !! p = Some m -> read_bytes (mem h) p (zlength l) = l -> zlength l + zlength bs <= m ->
  exists f, store (p + zlength l) bs h = (Done tt, Heap (live h) f) /\
    read_bytes f p (zlength (l ++ bs)) = l ++ bs /\ same_outside (mem h) f p m.
Proof.
  intros Hp Hl Hm. pose proof (zlength_nonneg l). pose proof (zlength_nonneg bs).
  eexists. split; [by apply (store_run h _ _ p m); [done|lia|lia]|].
  split; [by apply write_bytes_append|]. apply write_bytes_outside; lia.
Qed.

Lemma store_offsets_run p m start offs : forall k l h,
  live h !! p = Some m -> read_bytes (mem h) p (zlength l) = l ->
  zlength l = sizeof_int32 * (Z.of_nat k + 1) -> zlength l + sizeof_int32 * zlength offs <= m ->
  exists f,
    for_each (imap (fun i x => (Z.of_nat (k + i), x)) offs) (fun '(i, off) =>
      store (p + sizeof_int32 * (i + 1)) (int32_bytes (int32_wrap (size_wrap start + off)))) h =
      (Done tt, Heap (live h) f) /\
    let l' := l ++ concat ((fun off => int32_bytes (int32_wrap (size_wrap start + off))) <$> offs) in
    read_bytes f p (zlength l') = l' /\ same_outside (mem h) f p m.
Proof.
  induction offs as [|off offs IH]; intros k l h Hp Hl Hk Hm.
  { exists (mem h). cbn. rewrite app_nil_r. by destruct h. }
  rewrite zlength_cons in Hm. pose proof (zlength_nonneg offs).
  set (bs := int32_bytes (int32_wrap (size_wrap start + off))).
  assert (Hbs : zlength bs = 4) by done.
  destruct (store_append h p m l bs Hp Hl) as (f & Hst & Hf & Hout);
    [unfold sizeof_int32 in *; lia|].
  rewrite imap_cons, for_each_cons, Nat.add_0_r, <- Hk.
  rewrite (bind_done _ _ _ _ _ Hst).
  destruct (IH (S k) (l ++ bs) (Heap (live h) f)) as (g & Hrun & Hg & Hout');
    [done|done|rewrite zlength_app; unfold sizeof_int32 in *; lia..|].
  exists g. split.
  - erewrite imap_ext; [exact Hrun|]. intros i x _. cbn. do 2 f_equal. lia.
  - rewrite fmap_cons. cbn [concat]. rewrite app_assoc. split; [exact Hg|].
    intros a Ha. rewrite Hout' by done. by apply Hout.
Qed.

(** The buffer fits in an [int32_t]. *)
Definition encodable (ss : list (list Z)) : Prop := zlength (encode ss) <= INT32_MAX.

Lemma offsets_of_range off ss : Forall (fun o => off <= o <= off + total_size ss) (offsets_of off ss).
Proof.
  revert off. induction ss as [|s ss IH]; intros off; cbn [offsets_of].
  - constructor; [unfold total_size, zlength; cbn; lia|constructor].
  - rewrite total_size_cons. pose proof (zlength_nonneg s). pose proof (zlength_nonneg (concat ss)).
    unfold total_size in *. constructor; [lia|].
    eapply Forall_impl; [apply IH|]. cbn. intros. lia.
Qed.

Lemma encodable_size ss : encodable ss ->
  0 <= zlength ss /\ 0 <= total_size ss /\ sizeof_int32 * (zlength ss + 2) + total_size ss <= INT32_MAX.
Proof.
  unfold encodable. rewrite zlength_encode. unfold header_size.
  pose proof (zlength_nonneg ss). pose proof (zlength_nonneg (concat ss)). unfold total_size. lia.
Qed.

(** The offsets written are those of the format. *)
Lemma encoded_offsets ss : encodable ss ->
  (fun off => int32_bytes (int32_wrap (size_wrap (header_size (zlength ss)) + off))) <$> offsets_of 0 ss =
  (fun off => int32_bytes (header_size (zlength ss) + off)) <$> offsets_of 0 ss.
Proof.
  intros (? & ? & ?)%encodable_size. apply list_fmap_ext. intros i off Hoff.
  pose proof (offsets_of_range 0 ss) as Hr. rewrite Forall_lookup in Hr. specialize (Hr _ _ Hoff).
  cbn in Hr. unfold header_size, sizeof_int32, INT32_MAX in *.
  rewrite size_wrap_small by (unfold SIZE_MAX; lia).
  by rewrite int32_wrap_small by (unfold INT32_MIN, INT32_MAX; lia).
Qed.

(** The stores that follow the allocation of the block. *)
Lemma write_fields_run ss h p :
  encodable ss -> live h !! p = Some (zlength (encode ss)) ->
  exists f,
    (store p (int32_bytes (zlength ss)) ;;;
     for_each (enumerate (offsets_of 0 ss)) (fun '(i, off) =>
       store (p + sizeof_int32 * (i + 1))
         (int32_bytes (int32_wrap (size_wrap (header_size (zlength ss)) + off)))) ;;;
     (if negb (bool_decide (concat ss = [])) then store (p + header_size (zlength ss)) (concat ss)
      else ret tt)) h = (Done tt, Heap (live h) f) /\
    read_bytes f p (zlength (encode ss)) = encode ss /\
    same_outside (mem h) f p (zlength (encode ss)).
Proof.
  intros Hfit Hp. pose proof (encodable_size ss Hfit) as (? & ? & _).
  pose proof (zlength_encode ss) as Hlen. unfold header_size, sizeof_int32 in Hlen.
  destruct (store_append h p _ [] (int32_bytes (zlength ss)) Hp eq_refl) as (f1 & H1 & Hf1 & Ho1);
    [change (zlength ([] : list Z)) with 0; change (zlength (int32_bytes _)) with 4; lia|].
  rewrite Z.add_0_r in H1. rewrite (bind_done _ _ _ _ _ H1).
  set (h2 := Heap (live h) f1).
  destruct (store_offsets_run p (zlength (encode ss)) (header_size (zlength ss)) (offsets_of 0 ss)
    0 (int32_bytes (zlength ss)) h2) as (f2 & H2 & Hf2 & Ho2); [done|exact Hf1|done| |].
  { rewrite zlength_offsets_of. change (zlength (int32_bytes _)) with 4. unfold sizeof_int32. lia. }
  rewrite (bind_done _ _ _ _ _ H2). rewrite encoded_offsets in Hf2 by done. cbn zeta in Hf2.
  set (l := int32_bytes (zlength ss) ++ _) in Hf2.
  assert (Hl : zlength l = header_size (zlength ss)).
  { subst l. rewrite zlength_app, zlength_concat_int32, zlength_offsets_of.
    change (zlength (int32_bytes _)) with 4. unfold header_size, sizeof_int32. lia. }
  assert (Henc : encode ss = l ++ concat ss) by (subst l; unfold encode; by rewrite app_assoc).
  assert (Ho12 : same_outside (mem h) f2 p (zlength (encode ss))).
  { intros a Ha. rewrite Ho2 by done. by apply Ho1. }
  destruct (decide (concat ss = [])) as [Hemp|Hne].
  - rewrite bool_decide_eq_true_2 by done. exists f2. split_and!; [done| |done].
    by rewrite Henc, Hemp, app_nil_r.
  - rewrite bool_decide_eq_false_2 by done. cbn [negb]. rewrite <- Hl.
    destruct (store_append (Heap (live h) f2) p (zlength (encode ss)) l (concat ss))
      as (f3 & H3 & Hf3 & Ho3); [done|done| |].
    { rewrite Henc, zlength_app. lia. }
    rewrite <- Henc in Hf3. exists f3. split_and!; [done|done|].
    intros a Ha. rewrite Ho3 by done. by apply Ho12.
Qed.

Section Write.
Context {MM : Malloc} {MMOk : MallocOk}.

Lemma WriteToBuffer_run ss b h :
  buffer_of ss b -> encodable ss -> heap_wf h ->
  malloc_place h MAX_ALIGN (zlength (encode ss)) <> 0 ->
  exists p h', WriteToBuffer b h = (Done (zlength (encode ss), p), h') /\ heap_wf h' /\
    fresh_block h p (zlength (encode ss)) /\
    live h' = <[p := zlength (encode ss)]> (live h) /\
    read_bytes (mem h') p (zlength (encode ss)) = encode ss /\
    same_outside (mem h) (mem h') p (zlength (encode ss)).
Proof.
  intros [Hd Ho] Hfit Hwf Hplace.
  pose proof (encodable_size ss Hfit) as (? & ? & ?). pose proof (zlength_encode ss) as Hlen.
  unfold header_size, sizeof_int32, INT32_MAX in *.
  pose proof (malloc_spec h (zlength (encode ss)) ltac:(lia) Hwf) as Hm.
  assert (Hmal : exists p, malloc (zlength (encode ss)) h =
    (Done p, Heap (<[p := zlength (encode ss)]> (live h)) (mem h)) /\ p <> 0).
  { unfold malloc, aligned_alloc. rewrite (proj2 (Z.eqb_neq _ _) Hplace). eauto. }
  destruct Hmal as (p & Hmal & Hp0). rewrite Hmal in Hm.
  destruct Hm as (Hwf' & _ & [[? _]|(q & Hq & Hfr & _)]); [by simplify_eq|]. injection Hq as <-.
  destruct (write_fields_run ss (Heap (<[p := zlength (encode ss)]> (live h)) (mem h)) p Hfit)
    as (f & Hrun & Hf & Hout); [apply lookup_insert_eq|].
  exists p, (Heap (<[p := zlength (encode ss)]> (live h)) f).
  split; [|split_and!; [destruct Hwf' as [Hr Hdj]; by split|done..]].
  unfold WriteToBuffer. rewrite Hd, Ho, zlength_offsets_of.
  replace (zlength ss + 1 - 1) with (zlength ss) by lia.
  rewrite (int32_wrap_small (zlength ss)) by (unfold INT32_MIN, INT32_MAX; lia).
  rewrite !(size_wrap_small (zlength ss + 2)) by (unfold SIZE_MAX; lia). fold (total_size ss).
  unfold sizeof_int32 in Hrun |- *.
  rewrite (int32_wrap_small (_ + _ * _)) by (unfold INT32_MIN, INT32_MAX; lia).
  rewrite (int32_wrap_small (4 * _)) by (unfold INT32_MIN, INT32_MAX; lia).
  replace (total_size ss + 4 * (zlength ss + 2)) with (zlength (encode ss)) by lia.
  rewrite size_wrap_small by (unfold SIZE_MAX; lia).
  rewrite (bind_done _ _ _ _ _ Hmal), (proj2 (Z.eqb_neq _ _) Hp0).
  change (4 * (zlength ss + 2)) with (header_size (zlength ss)).
  etransitivity; [|exact (bind_done _ (fun _ => ret (zlength (encode ss), p)) _ _ _ Hrun)].
  rewrite bind_assoc. unfold bind. destruct (store p _ _) as [[|?|] ?]; try done.
  destruct (for_each _ _ _) as [[|?|] ?]; done.
Qed.
End Write.

(** ** Reading the buffer *)

(** A field of a live block whose bytes are known. *)
Lemma load_int32_run h p m l z r :
  live h !! p = Some m -> m = zlength (l ++ int32_bytes z ++ r) ->
  read_bytes (mem h) p m = l ++ int32_bytes z ++ r -> INT32_MIN <= z <= INT32_MAX ->
  load_int32 (p + zlength l) h = (Done z, h).
Proof.
  intros Hp -> Hr Hz. unfold load_int32. rewrite !zlength_app in Hp.
  change (zlength (int32_bytes z)) with 4 in Hp.
  pose proof (zlength_nonneg l). pose proof (zlength_nonneg r).
  rewrite (bind_done _ _ _ _ _ (load_run h (p + zlength l) sizeof_int32 p _ Hp ltac:(lia)
    ltac:(unfold sizeof_int32; lia))).
  change sizeof_int32 with (zlength (int32_bytes z)).
  rewrite (read_bytes_part _ p l (int32_bytes z) r Hr). unfold ret. by rewrite int32_roundtrip.
Qed.

(** The bytes of [encode ss] around one of its offsets. *)
Lemma encode_offset ss k off : offsets_of 0 ss !! k = Some off ->
  exists l r, encode ss = l ++ int32_bytes (header_size (zlength ss) + off) ++ r /\
    zlength l = sizeof_int32 * (Z.of_nat k + 1).
Proof.
  intros Hk. pose proof (lookup_lt_Some _ _ _ Hk) as Hlt.
  set (f := fun off => int32_bytes (header_size (zlength ss) + off)).
  exists (int32_bytes (zlength ss) ++ concat (f <$> take k (offsets_of 0 ss))),
    (concat (f <$> drop (S k) (offsets_of 0 ss)) ++ concat ss).
  split.
  - unfold encode. fold f. rewrite <- (take_drop_middle _ _ _ Hk) at 1.
    rewrite fmap_app, fmap_cons, concat_app, concat_cons, <- !app_assoc. done.
  - rewrite zlength_app. unfold f. rewrite zlength_concat_int32.
    change (zlength (int32_bytes _)) with 4. unfold zlength, sizeof_int32.
    rewrite length_take_le by lia. lia.
Qed.

(** What a block that holds [encode ss] reads as. *)
Lemma GetStringCount_run ss h p :
  encodable ss -> live h !! p = Some (zlength (encode ss)) ->
  read_bytes (mem h) p (zlength (encode ss)) = encode ss ->
  GetStringCount p h = (Done (zlength ss), h).
Proof.
  intros Hfit Hp Hr. pose proof (encodable_size ss Hfit). unfold sizeof_int32 in *.
  unfold GetStringCount. replace p with (p + zlength ([] : list Z)) by (unfold zlength; cbn; lia).
  eapply load_int32_run; [exact Hp|reflexivity|exact Hr|unfold INT32_MIN, INT32_MAX in *; lia].
Qed.

Lemma GetString_run ss h p i s :
  encodable ss -> live h !! p = Some (zlength (encode ss)) ->
  read_bytes (mem h) p (zlength (encode ss)) = encode ss -> ss !! i = Some s ->
  exists r, GetString p (Z.of_nat i) h = (Done r, h) /\ len r = zlength s /\
    load (str r) (len r) h = (Done s, h).
Proof.
  intros Hfit Hp Hr Hi. pose proof (encodable_size ss Hfit) as (Hn & _ & Hmax).
  destruct (offsets_of_lookup 0 ss i s Hi) as [H1 H2]. rewrite Z.add_0_l in H1, H2.
  pose proof (total_size_take i ss s Hi) as Hsplit.
  set (t := total_size (take i ss)) in *.
  assert (Ht : 0 <= t) by apply zlength_nonneg. pose proof (zlength_nonneg s).
  pose proof (zlength_nonneg (concat (drop (S i) ss))) as Hrest.
  assert (Htot : total_size ss = t + zlength s + zlength (concat (drop (S i) ss))).
  { unfold total_size. rewrite Hsplit, !zlength_app. unfold t, total_size. lia. }
  destruct (encode_offset ss i _ H1) as (l1 & r1 & He1 & Hl1).
  destruct (encode_offset ss (S i) _ H2) as (l2 & r2 & He2 & Hl2).
  unfold sizeof_int32, INT32_MAX in *.
  unfold GetString. unfold sizeof_int32.
  replace (p + 4 * (Z.of_nat i + 1) + 4) with (p + zlength l2) by lia.
  replace (p + 4 * (Z.of_nat i + 1)) with (p + zlength l1) by lia.
  rewrite (bind_done _ _ _ _ _ (load_int32_run h p _ l2 _ r2 Hp ltac:(by rewrite <- He2)
    ltac:(by rewrite <- He2) ltac:(unfold header_size, sizeof_int32, INT32_MIN, INT32_MAX; lia))).
  rewrite (bind_done _ _ _ _ _ (load_int32_run h p _ l1 _ r1 Hp ltac:(by rewrite <- He1)
    ltac:(by rewrite <- He1) ltac:(unfold header_size, sizeof_int32, INT32_MIN, INT32_MAX; lia))).
  replace (header_size (zlength ss) + (t + zlength s) - (header_size (zlength ss) + t))
    with (zlength s) by lia.
  rewrite (proj2 (Z.leb_le _ _)), (proj2 (Z.leb_le _ _)) by (unfold INT32_MIN, INT32_MAX; lia).
  cbn [andb]. eexists. split; [done|]. cbn [len str].
  rewrite size_wrap_small by (unfold SIZE_MAX; lia). split; [done|].
  set (pre := int32_bytes (zlength ss) ++
    concat ((fun off => int32_bytes (header_size (zlength ss) + off)) <$> offsets_of 0 ss) ++
    concat (take i ss)).
  assert (Henc : encode ss = pre ++ s ++ concat (drop (S i) ss)).
  { unfold encode, pre. rewrite Hsplit at 1. by rewrite <- !app_assoc. }
  assert (Hpre : zlength pre = header_size (zlength ss) + t).
  { unfold pre. rewrite !zlength_app, zlength_concat_int32, zlength_offsets_of.
    change (zlength (int32_bytes _)) with 4. unfold t, total_size, header_size, sizeof_int32. lia. }
  rewrite <- Hpre. rewrite Henc in Hp, Hr. rewrite !zlength_app in Hp.
  pose proof (zlength_nonneg pre).
  rewrite (load_run h _ (zlength s) p _ Hp) by lia.
  by rewrite (read_bytes_part _ p pre s _ Hr).
Qed.

(** ** Writing to a tensor *)

(** The tensor's data is freed when the tensor is reset. *)
Definition owns_data (t : TfLiteTensor) : Prop :=
  is_dynamic_or_persistent_ro t = true \/ t_allocation_type t = kTfLiteVariantObject.

(** What is freed is a live block. *)
Definition releasable (h : heap) (t : TfLiteTensor) : Prop :=
  owns_data t -> t_data t = 0 \/ is_Some (live h !! t_data t).

Lemma TfLiteTensorDataFree_run h t : heap_wf h -> releasable h t ->
  exists h', TfLiteTensorDataFree (h, t) = (Done tt, (h', set_data 0 t)) /\ heap_wf h' /\
    mem h' = mem h /\
    forall p m, live h !! p = Some m -> (owns_data t -> p <> t_data t) -> live h' !! p = Some m.
Proof.
  intros Hwf Hrel. unfold TfLiteTensorDataFree, bind, the_tensor, on_theap, zoom, upd_tensor, modify.
  cbn. set (v := bool_decide (t_allocation_type t = kTfLiteVariantObject)).
  assert (Hcase : (v = false /\ is_dynamic_or_persistent_ro t = false) \/ t_data t = 0 \/
    (owns_data t /\ t_data t <> 0)).
  { destruct (Z.eq_dec (t_data t) 0); [by right; left|]. unfold owns_data.
    subst v. destruct (bool_decide_reflect (t_allocation_type t = kTfLiteVariantObject)),
      (is_dynamic_or_persistent_ro t); auto. }
  destruct Hcase as [[-> ->]|[Hz|[Hown Hnz]]]; cbn.
  - exists h. by split_and!.
  - rewrite Hz. cbn. rewrite andb_false_r. exists h. destruct (is_dynamic_or_persistent_ro t); by split_and!.
  - destruct (Hrel Hown) as [?|[m Hm]]; [done|].
    destruct (free_live h (t_data t) m Hwf Hm) as [Hfree Hwf'].
    rewrite (proj2 (Z.eqb_neq _ _) Hnz). cbn [negb andb]. rewrite andb_true_r.
    assert (Hbr : v = true \/ is_dynamic_or_persistent_ro t = true).
    { destruct Hown as [?|?]; [by right|left; by apply bool_decide_eq_true_2]. }
    exists (Heap (delete (t_data t) (live h)) (mem h)).
    split; [destruct v, (is_dynamic_or_persistent_ro t); cbn; rewrite ?Hfree; (done || naive_solver)|].
    split_and!; [done|done|]. intros p k Hp Hne. cbn. rewrite lookup_delete_ne; [done|].
    intros Heq. by apply (Hne Hown).
Qed.

Lemma TfLiteTensorReset_run ty nm dims q buf size at_ al var h t : heap_wf h -> releasable h t ->
  exists h' t', TfLiteTensorReset ty nm dims q buf size at_ al var (h, t) = (Done tt, (h', t')) /\
    heap_wf h' /\ mem h' = mem h /\ t_type t' = ty /\ t_dims t' = dims /\ t_data t' = buf /\
    t_bytes t' = size /\ t_allocation_type t' = at_ /\
    forall p m, live h !! p = Some m -> (owns_data t -> p <> t_data t) -> live h' !! p = Some m.
Proof.
  intros Hwf Hrel. destruct (TfLiteTensorDataFree_run h t Hwf Hrel) as (h' & Hrun & ? & ? & ?).
  exists h'. eexists. split.
  - unfold TfLiteTensorReset, TfLiteTensorFree. rewrite !bind_assoc.
    rewrite (bind_done _ _ _ _ _ Hrun). reflexivity.
  - by split_and!.
Qed.

(** ** Joined strings *)

(** The strings with the separator between them. *)
Fixpoint join (sep : list Z) (strings : list (list Z)) : list Z :=
  match strings with
  | [] => []
  | [s] => s
  | s :: rest => s ++ sep ++ join sep rest
  end.

(** The bytes the loop writes for the strings from the second on. *)
Definition join_tail (sep : list Z) (strings : list (list Z)) : list Z :=
  concat ((fun s => sep ++ s) <$> strings).

Lemma join_cons sep s rest : join sep (s :: rest) = s ++ join_tail sep rest.
Proof.
  revert s. induction rest as [|s' rest IH]; intros s; [cbn; by rewrite app_nil_r|].
  change (join sep (s :: s' :: rest)) with (s ++ sep ++ join sep (s' :: rest)).
  rewrite IH. unfold join_tail. rewrite fmap_cons. cbn [concat]. by rewrite <- app_assoc.
Qed.

Lemma zlength_join_tail sep strings :
  zlength (join_tail sep strings) = zlength strings * zlength sep + total_size strings.
Proof.
  unfold join_tail. induction strings as [|s rest IH]; [done|].
  rewrite fmap_cons. cbn [concat]. rewrite !zlength_app, IH, total_size_cons, zlength_cons. lia.
Qed.

(** The sums of [int]s and [size_t]s, when they stay in range. *)
Lemma joined_sum strings : forall total,
  0 <= total -> total + total_size strings <= INT32_MAX ->
  foldl (fun total_len ref => int32_wrap (size_wrap total_len + zlength ref)) total strings =
    total + total_size strings.
Proof.
  induction strings as [|s rest IH]; intros total Ht Hmax; [cbn; unfold total_size, zlength; cbn; lia|].
  rewrite total_size_cons in *. pose proof (zlength_nonneg s). pose proof (zlength_nonneg (concat rest)).
  unfold total_size, INT32_MAX in *. cbn [foldl].
  rewrite size_wrap_small by (unfold SIZE_MAX; lia).
  rewrite int32_wrap_small by (unfold INT32_MIN, INT32_MAX; lia). rewrite IH; lia.
Qed.

Lemma joined_len_join s rest sep : zlength (join sep (s :: rest)) <= INT32_MAX ->
  DynamicBuffer.joined_len (s :: rest) sep = zlength (join sep (s :: rest)).
Proof.
  rewrite join_cons, zlength_app, zlength_join_tail. intros Hmax.
  pose proof (zlength_nonneg s). pose proof (zlength_nonneg rest). pose proof (zlength_nonneg sep).
  pose proof (zlength_nonneg (concat rest)). fold (total_size rest) in *.
  unfold DynamicBuffer.joined_len, INT32_MAX in *. rewrite zlength_cons.
  replace (1 + zlength rest - 1) with (zlength rest) by lia.
  destruct (Z.eq_dec (zlength sep) 0) as [Hz|Hz].
  - rewrite Hz, Z.mul_0_r. change (int32_wrap 0) with 0.
    rewrite joined_sum; rewrite ?total_size_cons; unfold INT32_MAX; lia.
  - assert (zlength rest <= zlength rest * zlength sep) by nia.
    rewrite size_wrap_small by (unfold SIZE_MAX; lia).
    rewrite int32_wrap_small by (unfold INT32_MIN, INT32_MAX; lia).
    rewrite joined_sum; rewrite ?total_size_cons; unfold INT32_MAX; lia.
Qed.

(** One [memcpy] into the data, after the bytes [l] and before the bytes [r]. *)
Lemma write_data_run l gap r bs offs mx : zlength gap = zlength bs ->
  write_data (zlength l) bs (mkBuffer (l ++ gap ++ r) offs mx) =
    (Done tt, mkBuffer (l ++ bs ++ r) offs mx).
Proof.
  intros Hgap. unfold write_data. cbn [data_ offset_ max_length_]. rewrite !zlength_app.
  pose proof (zlength_nonneg l). pose proof (zlength_nonneg r). pose proof (zlength_nonneg bs).
  rewrite (proj2 (Z.leb_le _ _)), (proj2 (Z.leb_le _ _)) by lia. cbn [andb].
  unfold zlength in *. rewrite Nat2Z.id, take_app_length, <- Hgap.
  replace (Z.to_nat (Z.of_nat (length l) + Z.of_nat (length gap))) with (length (l ++ gap))
    by (rewrite length_app; lia).
  by rewrite (app_assoc l gap r), drop_app_length.
Qed.

Lemma zeros_split (n m : Z) : 0 <= m <= n ->
  replicate (Z.to_nat n) (0 : Z) = replicate (Z.to_nat m) 0 ++ replicate (Z.to_nat (n - m)) 0.
Proof. intros. rewrite <- replicate_add. f_equal. lia. Qed.

(** The loop of [AddJoinedString] after the first string. *)
Lemma join_loop_run sep rest offs mx : forall k l,
  (1 <= k)%nat ->
  for_fold (imap (fun i s => (Z.of_nat (k + i), s)) rest) (zlength l) (fun dst '(i, s) =>
    let* dst := (if negb (i =? 0)
                 then write_data dst sep ;;; ret (dst + zlength sep)
                 else ret dst) in
    write_data dst s ;;; ret (dst + zlength s))
    (mkBuffer (l ++ replicate (Z.to_nat (zlength (join_tail sep rest))) 0) offs mx) =
  (Done (zlength (l ++ join_tail sep rest)), mkBuffer (l ++ join_tail sep rest) offs mx).
Proof.
  induction rest as [|s rest IH]; intros k l Hk; [cbn; by rewrite !app_nil_r|].
  rewrite imap_cons, for_fold_cons, Nat.add_0_r.
  destruct (Z.eqb_spec (Z.of_nat k) 0); [lia|]. cbn [negb].
  pose proof (zlength_nonneg sep). pose proof (zlength_nonneg s).
  assert (Htail : join_tail sep (s :: rest) = sep ++ s ++ join_tail sep rest).
  { unfold join_tail. rewrite fmap_cons. cbn [concat]. by rewrite <- app_assoc. }
  pose proof (zlength_nonneg (join_tail sep rest)). rewrite Htail, !zlength_app.
  rewrite (zeros_split _ (zlength sep)) by lia.
  rewrite (zeros_split (_ - _) (zlength s)) by lia.
  rewrite !bind_assoc, (bind_done _ _ _ _ _ (write_data_run l _ _ sep offs mx
    (zlength_replicate _ 0 (zlength_nonneg sep)))), bind_ret, !bind_assoc.
  rewrite app_assoc. replace (zlength l + zlength sep) with (zlength (l ++ sep)) by apply zlength_app.
  rewrite (bind_done _ _ _ _ _ (write_data_run (l ++ sep) _ _ s offs mx
    (zlength_replicate _ 0 (zlength_nonneg s)))), bind_ret.
  replace (zlength sep + (zlength s + zlength (join_tail sep rest)) - zlength sep - zlength s)
    with (zlength (join_tail sep rest)) by lia.
  rewrite <- zlength_app, (app_assoc (l ++ sep) s).
  rewrite (imap_ext _ (fun i s => (Z.of_nat (S k + i), s))) by (intros; cbn; f_equal; lia).
  rewrite (IH (S k)) by lia. rewrite !zlength_app, <- !app_assoc. do 2 f_equal. lia.
Qed.

(** The whole operation on a non-empty list. *)
Lemma AddJoinedString_run ss b s rest sep :
  buffer_of ss b -> zlength (join sep (s :: rest)) <= INT32_MAX ->
  total_size ss + zlength (join sep (s :: rest)) <= vector_max_size ->
  DynamicBuffer.AddJoinedString (s :: rest) sep b =
    (Done tt, mkBuffer (concat (ss ++ [join sep (s :: rest)]))
                (offsets_of 0 (ss ++ [join sep (s :: rest)])) (max_length_ b)).
Proof.
  intros [Hd Ho] Hj Hv. set (j := join sep (s :: rest)) in *.
  pose proof (zlength_nonneg j). pose proof (zlength_nonneg (concat ss)).
  assert (Hjs : j = s ++ join_tail sep rest) by apply join_cons.
  unfold total_size, vector_max_size, INT32_MAX in *.
  unfold DynamicBuffer.AddJoinedString. rewrite joined_len_join by done. fold j.
  rewrite bind_get, Hd, (size_wrap_small (zlength j)) by (unfold SIZE_MAX; lia).
  rewrite (size_wrap_small (_ + _)) by (unfold SIZE_MAX; lia).
  assert (Hres : resize_data (zlength (concat ss) + zlength j) b =
    (Done tt, mkBuffer (concat ss ++ replicate (Z.to_nat (zlength j)) 0) (offset_ b) (max_length_ b))).
  { unfold resize_data, vector_max_size, modify. rewrite (proj2 (Z.ltb_ge _ _)) by lia.
    rewrite Hd. unfold zresize. rewrite take_ge by (unfold zlength; lia).
    do 4 f_equal. unfold zlength. lia. }
  rewrite (bind_done _ _ _ _ _ Hres).
  match goal with |- bind _ ?k ?b1 = _ =>
    rewrite (bind_done last_offset k b1 (zlength (concat ss)) b1)
      by (unfold last_offset; cbn [offset_]; by rewrite Ho, last_offsets_of) end.
  unfold enumerate. rewrite imap_cons, for_fold_cons. cbn [Z.eqb negb].
  pose proof (zlength_nonneg s). pose proof (zlength_nonneg (join_tail sep rest)).
  assert (Hjl : zlength j = zlength s + zlength (join_tail sep rest)) by (rewrite Hjs; apply zlength_app).
  rewrite (zeros_split (zlength j) (zlength s)) by lia.
  rewrite !bind_assoc. change (Z.of_nat 0 =? 0) with true. cbn [negb]. rewrite bind_ret, !bind_assoc.
  rewrite (bind_done _ _ _ _ _ (write_data_run (concat ss) _ _ s _ _
    (zlength_replicate _ 0 (zlength_nonneg s)))), bind_ret.
  replace (zlength j - zlength s) with (zlength (join_tail sep rest)) by lia.
  rewrite <- zlength_app, app_assoc.
  rewrite (imap_ext _ (fun i s => (Z.of_nat (1 + i), s))) by done.
  rewrite (bind_done _ _ _ _ _ (join_loop_run sep rest _ _ 1 (concat ss ++ s) ltac:(lia))).
  unfold push_offset, modify. cbn [data_ offset_ max_length_].
  rewrite size_wrap_small by (unfold SIZE_MAX; lia).
  rewrite offsets_of_snoc, <- Ho, concat_app. cbn [concat]. rewrite app_nil_r, Hjs, app_assoc. done.
Qed.

Section Claims.
Context {MM : Malloc} {MMOk : MallocOk}.

(** [AddString] is always defined.  It appends the string, and leaves the strings added before as
    they were, exactly when the contents stay below the limit; otherwise it changes nothing. *)
Theorem AddString_appends ss b s :
  buffer_of ss b -> 0 <= max_length_ b <= vector_max_size ->
  exists ok b', SimpleBuffer.AddString s b = (Done ok, b') /\ max_length_ b' = max_length_ b /\
    (ok = true <-> total_size ss + zlength s < max_length_ b) /\
    buffer_of (if ok then ss ++ [s] else ss) b' /\ (ok = false -> b' = b).
Proof.
  intros Hb Hm. rewrite (AddString_run ss b s Hb Hm).
  destruct (Z.ltb_spec (total_size ss + zlength s) (max_length_ b)); eexists _, _;
    (split; [done|]); split_and!; try done; lia.
Qed.

(** C17. Round trip of string tensors.  Strings added to a fresh buffer and written to a tensor read
    back from the tensor: the shape and the count are the number of strings, and the [i]-th
    string has the length and the bytes of the string that was added.  Whatever data the tensor
    had is released, and no other memory is touched out of its block. *)
Theorem string_tensor_roundtrip ss max_length h t :
  heap_wf h -> releasable h t -> encodable ss -> total_size ss < max_length <= vector_max_size ->
  malloc_place h MAX_ALIGN (zlength (encode ss)) <> 0 ->
  exists b h' t',
    for_each ss DynamicBuffer.AddString (SimpleDynamicBuffer_init max_length) = (Done tt, b) /\
    DynamicBuffer.WriteToTensorAsVector b (h, t) = (Done tt, (h', t')) /\ heap_wf h' /\
    t_dims t' = Some [zlength ss] /\ t_bytes t' = zlength (encode ss) /\
    t_allocation_type t' = kTfLiteDynamic /\
    DynamicBuffer.GetStringCount t' h' = (Done (zlength ss), h') /\
    (forall i s, ss !! i = Some s -> exists r,
       DynamicBuffer.GetString t' (Z.of_nat i) h' = (Done r, h') /\ len r = zlength s /\
       load (str r) (len r) h' = (Done s, h')) /\
    (forall p m a, live h !! p = Some m -> p <= a < p + m -> mem h' a = mem h a).
Proof.
  intros Hwf Hrel Hfit Hmax Hplace. pose proof (encodable_size ss Hfit) as (Hn & Hts & Hsz).
  set (b := mkBuffer (concat ss) (offsets_of 0 ss) max_length).
  assert (Hadd : for_each ss DynamicBuffer.AddString (SimpleDynamicBuffer_init max_length) = (Done tt, b)).
  { apply (AddStrings_run ss [] (SimpleDynamicBuffer_init max_length)); [done|cbn; lia|cbn; lia]. }
  destruct (WriteToBuffer_run ss b h ltac:(done) Hfit Hwf Hplace)
    as (p & h1 & Hw & Hwf1 & Hfr & Hlive & Hread & Hout).
  pose proof Hfr as (Hp & _ & Hnone & Hdis).
  assert (Hrel1 : releasable h1 t).
  { intros Hown. destruct (Hrel Hown) as [?|[m Hm]]; [by left|right]. rewrite Hlive.
    rewrite lookup_insert_ne by congruence. by exists m. }
  destruct (TfLiteTensorReset_run (t_type t) (t_name t) (Some [zlength ss]) (t_params t) p
    (zlength (encode ss)) kTfLiteDynamic (t_allocation t) (t_is_variable t) h1 t Hwf1 Hrel1)
    as (h2 & t' & Hreset & Hwf2 & Hmem & _ & Hdims & Hdata & Hbytes & Hat & Hkeep).
  assert (Hp2 : live h2 !! p = Some (zlength (encode ss))).
  { apply Hkeep; [rewrite Hlive; apply lookup_insert_eq|]. intros Hown Heq.
    destruct (Hrel Hown) as [?|[m ?]]; [lia|]. congruence. }
  exists b, h2, t'. split; [done|]. rewrite <- Hmem in Hread.
  unfold DynamicBuffer.GetStringCount, DynamicBuffer.GetString. rewrite Hdata.
  split; [|split_and!; [done..|by apply GetStringCount_run|intros; by eapply GetString_run|]].
  - unfold DynamicBuffer.WriteToTensorAsVector, DynamicBuffer.WriteToTensor.
    unfold bind at 1, on_theap, zoom. cbn [fst snd]. rewrite Hw.
    unfold bind at 1, the_tensor. cbn [fst snd]. cbn [b offset_].
    rewrite zlength_offsets_of. replace (zlength ss + 1 - 1) with (zlength ss) by lia.
    unfold encodable, sizeof_int32 in *. pose proof (zlength_nonneg (encode ss)).
    rewrite int32_wrap_small by (unfold INT32_MIN, INT32_MAX in *; lia).
    rewrite size_wrap_small by (unfold SIZE_MAX, INT32_MAX in *; lia). exact Hreset.
  - intros q m a Hq Ha. rewrite Hmem. apply Hout. destruct (Hdis q m Hq); lia.
Qed.

(** When there is no memory for the buffer the tensor is reset all the same: its data is null
    and its size is the [int] [-1] as a [size_t]. *)
Theorem WriteToTensor_out_of_memory ss b h t dims :
  buffer_of ss b -> encodable ss -> heap_wf h -> releasable h t ->
  malloc_place h MAX_ALIGN (zlength (encode ss)) = 0 ->
  exists h' t', DynamicBuffer.WriteToTensor b (Some dims) (h, t) = (Done tt, (h', t')) /\
    t_data t' = 0 /\ t_bytes t' = SIZE_MAX /\ t_dims t' = Some dims.
Proof.
  intros [Hd Ho] Hfit Hwf Hrel Hplace. pose proof (encodable_size ss Hfit) as (? & ? & ?).
  pose proof (zlength_encode ss) as Hlen. unfold header_size, sizeof_int32, INT32_MAX in *.
  assert (Hw : WriteToBuffer b h = (Done (-1, 0), h)).
  { unfold WriteToBuffer. rewrite Hd, Ho, zlength_offsets_of. fold (total_size ss).
    replace (zlength ss + 1 - 1) with (zlength ss) by lia.
    rewrite (int32_wrap_small (zlength ss)) by (unfold INT32_MIN, INT32_MAX; lia).
    rewrite !(size_wrap_small (zlength ss + 2)) by (unfold SIZE_MAX; lia).
    unfold sizeof_int32. rewrite (int32_wrap_small (_ + _ * _)) by (unfold INT32_MIN, INT32_MAX; lia).
    replace (total_size ss + 4 * (zlength ss + 2)) with (zlength (encode ss)) by lia.
    rewrite size_wrap_small by (unfold SIZE_MAX; lia).
    unfold malloc, aligned_alloc, bind. by rewrite Hplace. }
  destruct (TfLiteTensorReset_run (t_type t) (t_name t) (Some dims) (t_params t) 0
    (size_wrap (-1)) kTfLiteDynamic (t_allocation t) (t_is_variable t) h t Hwf Hrel)
    as (h2 & t' & Hreset & _ & _ & _ & Hdims & Hdata & Hbytes & _).
  exists h2, t'. split; [|done].
  unfold DynamicBuffer.WriteToTensor, bind at 1, on_theap, zoom. cbn [fst snd]. by rewrite Hw.
Qed.

(** [AddJoinedString] of a non-empty list adds the strings with the separator between them as one
    string, whatever the limit on the length of the buffer is. *)
Theorem AddJoinedString_appends ss b s rest sep :
  buffer_of ss b -> zlength (join sep (s :: rest)) <= INT32_MAX ->
  total_size ss + zlength (join sep (s :: rest)) <= vector_max_size ->
  exists b', DynamicBuffer.AddJoinedString (s :: rest) sep b = (Done tt, b') /\
    buffer_of (ss ++ [join sep (s :: rest)]) b' /\ max_length_ b' = max_length_ b.
Proof. intros Hb ? ?. eexists. split; [by apply AddJoinedString_run|done]. Qed.

(** Joining no string at all does not add an empty string: it cuts the last bytes, as many as the
    separator has, off the strings already there, and when there are not so many it asks for an
    enormous buffer, which throws. *)
Theorem AddJoinedString_of_none_truncates ss b sep :
  buffer_of ss b -> 0 < zlength sep <= INT32_MAX -> total_size ss <= vector_max_size ->
  DynamicBuffer.AddJoinedString [] sep b =
    if total_size ss <? zlength sep then (Undef, b)
    else (Done tt, mkBuffer (take (Z.to_nat (total_size ss - zlength sep)) (concat ss))
                     (offsets_of 0 ss ++ [total_size ss - zlength sep]) (max_length_ b)).
Proof.
  intros [Hd Ho] Hsep Htot. pose proof (zlength_nonneg (concat ss)). unfold total_size, vector_max_size in *.
  assert (Hj : DynamicBuffer.joined_len [] sep = - zlength sep).
  { unfold DynamicBuffer.joined_len. cbn [foldl].
    change (size_wrap (zlength ([] : list (list Z)) - 1)) with (2 ^ 64 - 1).
    unfold int32_wrap, INT32_MAX in *. Z.to_euclidean_division_equations. lia. }
  assert (Hneg : size_wrap (- zlength sep) = 2 ^ 64 - zlength sep).
  { unfold size_wrap, INT32_MAX in *. rewrite <- (Z.mod_add _ 1) by lia. rewrite Z.mod_small; lia. }
  unfold DynamicBuffer.AddJoinedString. rewrite Hj, bind_get, Hd, Hneg.
  unfold bind at 1, resize_data. unfold INT32_MAX, vector_max_size in *.
  destruct (Z.ltb_spec (zlength (concat ss)) (zlength sep)) as [Hlt|Hge].
  - rewrite size_wrap_small by (unfold SIZE_MAX; lia). rewrite (proj2 (Z.ltb_lt _ _)) by lia. done.
  - assert (Hw : size_wrap (zlength (concat ss) + (2 ^ 64 - zlength sep)) =
      zlength (concat ss) - zlength sep).
    { unfold size_wrap. replace (zlength (concat ss) + (2 ^ 64 - zlength sep))
        with (zlength (concat ss) - zlength sep + 1 * 2 ^ 64) by lia.
      rewrite Z.mod_add by lia. apply Z.mod_small. lia. }
    rewrite Hw, (proj2 (Z.ltb_ge _ _)) by lia. unfold modify. cbn [data_ offset_ max_length_].
    match goal with |- bind _ ?k ?b1 = _ =>
      rewrite (bind_done last_offset k b1 (zlength (concat ss)) b1)
        by (unfold last_offset; cbn [offset_]; by rewrite Ho, last_offsets_of) end.
    cbn [enumerate imap for_fold]. unfold bind, ret, push_offset, modify. cbn [data_ offset_ max_length_].
    rewrite Hw, Hd, Ho. do 3 f_equal. unfold zresize.
    replace (_ - length (concat ss))%nat with 0%nat by (unfold zlength in *; lia). apply app_nil_r.
Qed.
End Claims.

(** *** Witnesses *)

Definition example_strings : list (list Z) := [[65; 66]; []; [67]].

Lemma AddString_appends_witness :
  exists ok b', SimpleBuffer.AddString [65; 66] (SimpleDynamicBuffer_init 3) = (Done ok, b') /\
    max_length_ b' = 3 /\ (ok = true <-> total_size [] + zlength [65; 66] < 3) /\
    buffer_of (if ok then [] ++ [[65; 66]] else []) b' /\
    (ok = false -> b' = SimpleDynamicBuffer_init 3).
Proof.
  apply (AddString_appends [] (SimpleDynamicBuffer_init 3) [65; 66]); [done|by vm_compute].
Defined.

Lemma string_tensor_roundtrip_witness :
  exists b h' t',
    for_each example_strings DynamicBuffer.AddString (SimpleDynamicBuffer_init kDefaultMaxLength) =
      (Done tt, b) /\
    @DynamicBuffer.WriteToTensorAsVector bump_place b (example_heap, example_tensor) =
      (Done tt, (h', t')) /\ heap_wf h' /\
    t_dims t' = Some [zlength example_strings] /\ t_bytes t' = zlength (encode example_strings) /\
    t_allocation_type t' = kTfLiteDynamic /\
    DynamicBuffer.GetStringCount t' h' = (Done (zlength example_strings), h') /\
    (forall i s, example_strings !! i = Some s -> exists r,
       DynamicBuffer.GetString t' (Z.of_nat i) h' = (Done r, h') /\ len r = zlength s /\
       load (str r) (len r) h' = (Done s, h')) /\
    (forall p m a, live example_heap !! p = Some m -> p <= a < p + m -> mem h' a = mem example_heap a).
Proof.
  apply (@string_tensor_roundtrip bump_place bump_place_ok);
    [apply example_heap_wf|intros _; right; by exists 116|done|done|done].
Defined.

Lemma WriteToTensor_out_of_memory_witness :
  exists h' t', @DynamicBuffer.WriteToTensor (fun _ _ _ => 0) (mkBuffer [65] [0; 1] 10) (Some [1])
      (example_heap, example_tensor) = (Done tt, (h', t')) /\
    t_data t' = 0 /\ t_bytes t' = SIZE_MAX /\ t_dims t' = Some [1].
Proof.
  apply (@WriteToTensor_out_of_memory (fun _ _ _ => 0) [[65]]);
    [done|done|apply example_heap_wf|intros _; right; by exists 116|done].
Defined.

Lemma AddJoinedString_appends_witness :
  exists b', DynamicBuffer.AddJoinedString [[65]; [66; 67]] [44; 32] (SimpleDynamicBuffer_init 1) =
      (Done tt, b') /\
    buffer_of ([] ++ [join [44; 32] [[65]; [66; 67]]]) b' /\
    max_length_ b' = max_length_ (SimpleDynamicBuffer_init 1).
Proof. apply (AddJoinedString_appends [] (SimpleDynamicBuffer_init 1)); done. Defined.

Lemma AddJoinedString_of_none_truncates_witness :
  DynamicBuffer.AddJoinedString [] [44] (mkBuffer [65; 66] [0; 2] 10) =
    (Done tt, mkBuffer [65] [0; 2; 1] 10).
Proof. apply (AddJoinedString_of_none_truncates [[65; 66]] (mkBuffer [65; 66] [0; 2] 10) [44]); done. Defined.
