(* ===== verification/WindowsRunner.v ===== *)
(** * The window of the application on Windows (src/windows/runner)

    [Win32Window], the [FlutterWindow] that derives from it, the registration of its window class and
    [wWinMain].  The Win32 API and the Flutter engine are parameters: where windows are placed,
    which messages they send and what they answer.  Calls that only draw or move are kept in a
    trace.  The messages that such a call sends while it runs count as arriving after it. *)
From Stdlib Require Import String.
From S2P Require Import Prelude.
#[local] Open Scope Z_scope.

(** ** State *)

Record rect := mkRect { left : Z; top : Z; right : Z; bottom : Z }.

(** A message with what the code reads of its parameters. *)
Inductive message :=
  | WM_NCCREATE (lpCreateParams : Z)
  | WM_DESTROY
  | WM_NCDESTROY
  | WM_CLOSE
  | WM_DPICHANGED (suggested : rect)
  | WM_SIZE
  | WM_ACTIVATE
  | WM_DWMCOLORIZATIONCOLORCHANGED
  | WM_FONTCHANGE
  | OtherMessage (n : Z).

(** [FlutterViewController]: whether it has an engine, and the window of its view. *)
Record controller := mkController { engine : bool; view : option Z }.

(** The object, of its own class or, while the base is destroyed, of [Win32Window]. *)
Record FlutterWindow := mkWindow {
  is_flutter : bool; quit_on_close_ : bool; window_handle_ : Z; child_content_ : Z;
  flutter_controller_ : option controller }.

Inductive api_call :=
  | CreateWindow_call (left top width height : Z)
  | SetParent (child parent : Z)
  | MoveWindow (window left top width height : Z)
  | SetWindowPos (window left top width height : Z)
  | SetFocus (window : Z)
  | ShowWindow (window : Z)
  | DwmSetWindowAttribute (window : Z) (dark : bool)
  | EnableNonClientDpiScaling (window : Z)
  | DefWindowProc_call (window : Z) (m : message)
  | RegisterPlugins
  | SetNextFrameCallback
  | ForceRedraw
  | ReloadSystemFonts.

(** The process: the class known to the system and to the registrar, the number of objects, the
    windows with their user data, the object at the address [this], the posted [WM_QUIT], and
    the trace. *)
Record process := Process {
  class_exists : bool; class_registered_ : bool; g_active_window_count : Z; windows : gmap Z Z;
  object : option FlutterWindow; quit_posted : bool; trace : list api_call }.

Definition the_window : Z := 1.

Class Win32 := {
  create_place : process -> Z;
  creation_messages : list message;
  DefWindowProc_result : Z -> message -> Z;
  GetClientRect : Z -> rect;
  AppsUseLightTheme : process -> option Z;
  DpiForPoint : Z -> Z -> Z;
  (** [source * (dpi / 96.0)] as a double, truncated. *)
  scaled : Z -> Z -> Z;
  FlutterViewController_new : Z -> Z -> controller;
  HandleTopLevelWindowProc : process -> Z -> message -> option Z }.

Abbreviation W := (M process).

Definition set_object (o : option FlutterWindow) : W unit := modify (fun s =>
  Process (class_exists s) (class_registered_ s) (g_active_window_count s) (windows s) o (quit_posted s) (trace s)).
Definition set_windows (f : gmap Z Z -> gmap Z Z) : W unit := modify (fun s =>
  Process (class_exists s) (class_registered_ s) (g_active_window_count s) (f (windows s)) (object s) (quit_posted s) (trace s)).
Definition set_class (exists_ registered : bool) : W unit := modify (fun s =>
  Process exists_ registered (g_active_window_count s) (windows s) (object s) (quit_posted s) (trace s)).
Definition set_count (f : Z -> Z) : W unit := modify (fun s =>
  Process (class_exists s) (class_registered_ s) (f (g_active_window_count s)) (windows s) (object s) (quit_posted s) (trace s)).
Definition PostQuitMessage : W unit := modify (fun s =>
  Process (class_exists s) (class_registered_ s) (g_active_window_count s) (windows s) (object s) true (trace s)).
Definition call (c : api_call) : W unit := modify (fun s =>
  Process (class_exists s) (class_registered_ s) (g_active_window_count s) (windows s) (object s) (quit_posted s) (trace s ++ [c])).

(** A member of the object, which is alive, and its update. *)
Definition this : W FlutterWindow := let* s := get in access (object s).
Definition upd (f : FlutterWindow -> FlutterWindow) : W unit := let* o := this in set_object (Some (f o)).
Definition set_handle (h : Z) (o : FlutterWindow) : FlutterWindow :=
  mkWindow (is_flutter o) (quit_on_close_ o) h (child_content_ o) (flutter_controller_ o).
Definition set_child (c : Z) (o : FlutterWindow) : FlutterWindow :=
  mkWindow (is_flutter o) (quit_on_close_ o) (window_handle_ o) c (flutter_controller_ o).
Definition set_controller (c : option controller) (o : FlutterWindow) : FlutterWindow :=
  mkWindow (is_flutter o) (quit_on_close_ o) (window_handle_ o) (child_content_ o) c.
Definition set_quit (b : bool) (o : FlutterWindow) : FlutterWindow :=
  mkWindow (is_flutter o) b (window_handle_ o) (child_content_ o) (flutter_controller_ o).
Definition set_base (o : FlutterWindow) : FlutterWindow :=
  mkWindow false (quit_on_close_ o) (window_handle_ o) (child_content_ o) (flutter_controller_ o).

Section Windows.
Context {API : Win32}.

(** ** The window class *)

Definition GetWindowClass : W unit :=
  let* s := get in if class_registered_ s then ret tt else set_class true true.

(** [UnregisterClass] fails while there are windows of the class; its result is not looked at. *)
Definition UnregisterWindowClass : W unit :=
  let* s := get in set_class (class_exists s && negb (bool_decide (windows s = ∅))) false.

(** ** [Win32Window] *)

Definition UpdateTheme (window : Z) : W unit :=
  let* s := get in
  match AppsUseLightTheme s with
  | Some light_mode => call (DwmSetWindowAttribute window (light_mode =? 0))
  | None => ret tt
  end.

Definition GetClientArea : W rect := let* o := this in ret (GetClientRect (window_handle_ o)).

Definition SetChildContent (content : Z) : W unit :=
  upd (set_child content) ;;;
  let* o := this in
  call (SetParent content (window_handle_ o)) ;;;
  let* frame := GetClientArea in
  call (MoveWindow content (left frame) (top frame) (right frame - left frame) (bottom frame - top frame)) ;;;
  call (SetFocus content).

Definition Show : W unit := let* o := this in call (ShowWindow (window_handle_ o)).
Definition SetQuitOnClose (quit_on_close : bool) : W unit := upd (set_quit quit_on_close).

(** [OnDestroy], of the derived class and of the base. *)
Definition OnDestroy : W unit :=
  let* o := this in if is_flutter o then upd (set_controller None) else ret tt.

Section Procedures.
(** [send] is the window procedure as the system calls it from within a call. *)
Context (send : Z -> message -> W Z).

(** The window is gone when the system has told it so. *)
Definition DestroyWindow (window : Z) : W unit :=
  let* s := get in
  match windows s !! window with
  | None => ret tt
  | Some _ =>
    send window WM_DESTROY ;;;
    send window WM_NCDESTROY ;;;
    set_windows (delete window)
  end.

(** Only closing a window does something to it here. *)
Definition DefWindowProc (window : Z) (m : message) : W Z :=
  call (DefWindowProc_call window m) ;;;
  (match m with WM_CLOSE => DestroyWindow window | _ => ret tt end) ;;;
  ret (DefWindowProc_result window m).

Definition Destroy : W unit :=
  OnDestroy ;;;
  let* o := this in
  (if negb (window_handle_ o =? 0) then
     DestroyWindow (window_handle_ o) ;;; upd (set_handle 0)
   else ret tt) ;;;
  let* s := get in
  if g_active_window_count s =? 0 then UnregisterWindowClass else ret tt.

Definition Win32Window_MessageHandler (hwnd : Z) (m : message) : W Z :=
  match m with
  | WM_DESTROY =>
    upd (set_handle 0) ;;;
    Destroy ;;;
    let* o := this in
    (if quit_on_close_ o then PostQuitMessage else ret tt) ;;;
    ret 0
  | WM_DPICHANGED r =>
    call (SetWindowPos hwnd (left r) (top r) (right r - left r) (bottom r - top r)) ;;; ret 0
  | WM_SIZE =>
    let* rect := GetClientArea in
    let* o := this in
    (if negb (child_content_ o =? 0) then
       call (MoveWindow (child_content_ o) (left rect) (top rect) (right rect - left rect) (bottom rect - top rect))
     else ret tt) ;;;
    ret 0
  | WM_ACTIVATE =>
    let* o := this in
    (if negb (child_content_ o =? 0) then call (SetFocus (child_content_ o)) else ret tt) ;;; ret 0
  | WM_DWMCOLORIZATIONCOLORCHANGED => UpdateTheme hwnd ;;; ret 0
  | _ => let* o := this in DefWindowProc (window_handle_ o) m
  end.

(** The engine is dereferenced when the fonts have changed. *)
Definition FlutterWindow_MessageHandler (hwnd : Z) (m : message) : W Z :=
  let* o := this in
  let* s := get in
  match (match flutter_controller_ o with Some _ => HandleTopLevelWindowProc s hwnd m | None => None end) with
  | Some result => ret result
  | None =>
    (match m with
     | WM_FONTCHANGE =>
       let* c := access (flutter_controller_ o) in
       if engine c then call ReloadSystemFonts else undef
     | _ => ret tt
     end) ;;;
    Win32Window_MessageHandler hwnd m
  end.

Definition MessageHandler (hwnd : Z) (m : message) : W Z :=
  let* o := this in
  if is_flutter o then FlutterWindow_MessageHandler hwnd m else Win32Window_MessageHandler hwnd m.

(** [WndProc]: the object is found by the user data of the window. *)
Definition WndProc_body (window : Z) (m : message) : W Z :=
  match m with
  | WM_NCCREATE that =>
    set_windows (<[window := that]>) ;;;
    call (EnableNonClientDpiScaling window) ;;;
    upd (set_handle window) ;;;
    DefWindowProc window m
  | _ =>
    let* s := get in
    if default 0 (windows s !! window) =? 0 then DefWindowProc window m else MessageHandler window m
  end.
End Procedures.

(** The procedure calls itself through the system: closing a window destroys it, and destroying it
    is the end. *)
Fixpoint WndProc (nesting : nat) (window : Z) (m : message) : W Z :=
  match nesting with
  | O => undef
  | Datatypes.S nesting => WndProc_body (WndProc nesting) window m
  end.
Definition nesting : nat := 2.

(** The handle, or null; the window is told that it is created. *)
Definition CreateWindow (left top width height : Z) : W Z :=
  call (CreateWindow_call left top width height) ;;;
  let* s := get in
  let h := create_place s in
  if h =? 0 then ret 0
  else
    set_windows (<[h := 0]>) ;;;
    for_each (WM_NCCREATE the_window :: creation_messages) (fun m => WndProc nesting h m ;;; ret tt) ;;;
    ret h.

(** [FlutterWindow::OnCreate]. *)
Definition OnCreate : W bool :=
  let* frame := GetClientArea in
  let c := FlutterViewController_new (right frame - left frame) (bottom frame - top frame) in
  upd (set_controller (Some c)) ;;;
  match engine c, view c with
  | true, Some v =>
    call RegisterPlugins ;;;
    SetChildContent v ;;;
    call SetNextFrameCallback ;;;
    call ForceRedraw ;;;
    ret true
  | _, _ => ret false
  end.

Definition Scale (source dpi : Z) : Z := scaled source dpi.

Definition Create (x y width height : Z) : W bool :=
  Destroy (WndProc nesting) ;;;
  GetWindowClass ;;;
  let dpi := DpiForPoint x y in
  let* window := CreateWindow (Scale x dpi) (Scale y dpi) (Scale width dpi) (Scale height dpi) in
  if window =? 0 then ret false
  else UpdateTheme window ;;; OnCreate.

(** The constructors, and the destructors: of the controller, then of the base. *)
Definition FlutterWindow_new : W unit :=
  set_count (Z.add 1) ;;; set_object (Some (mkWindow true false 0 0 None)).
Definition FlutterWindow_delete : W unit :=
  upd (set_controller None) ;;;
  upd set_base ;;;
  set_count (fun n => n - 1) ;;;
  Destroy (WndProc nesting) ;;;
  set_object None.

(** ** [wWinMain] *)

Inductive running := Waiting | Exited (code : Z).

(** [GetMessage], [TranslateMessage], [DispatchMessage] for the messages that arrive; those to no
    window are dropped, and [WM_QUIT] comes when there are no others. *)
Fixpoint message_loop (arriving : list (Z * message)) : W bool :=
  match arriving with
  | [] => let* s := get in ret (quit_posted s)
  | (hwnd, m) :: arriving =>
    let* s := get in
    (match windows s !! hwnd with Some _ => WndProc nesting hwnd m ;;; ret tt | None => ret tt end) ;;;
    message_loop arriving
  end.

Definition wWinMain (arriving : list (Z * message)) : W running :=
  FlutterWindow_new ;;;
  let* created := Create 10 10 1280 720 in
  if negb created then FlutterWindow_delete ;;; ret (Exited 1)
  else
    SetQuitOnClose true ;;;
    let* quit := message_loop arriving in
    if quit : bool then FlutterWindow_delete ;;; ret (Exited 0)
    else ret Waiting.
End Windows.

(** ** Properties *)

(** What the system promises: a new window is new, and the messages that its creation sends do not
    close it and report no change of fonts. *)
Definition quiet (m : message) : bool :=
  match m with WM_DPICHANGED _ | WM_SIZE | WM_ACTIVATE | WM_DWMCOLORIZATIONCOLORCHANGED | OtherMessage _ => true | _ => false end.

(** Messages that are posted, or sent by others than the system itself. *)
Definition posted (m : message) : bool :=
  match m with WM_NCCREATE _ | WM_DESTROY | WM_NCDESTROY => false | _ => true end.

Class Win32Ok {API : Win32} := {
  create_place_ok s : create_place s = 0 \/ windows s !! create_place s = None;
  creation_quiet : forallb quiet creation_messages = true }.

Definition start : process := Process false false 0 ∅ None false [].

Section Life.
Context {API : Win32} {AOk : Win32Ok}.
Implicit Types s : process.

(** The window is open, and shows the engine's view; or it was closed; or it is gone while the engine
    kept the news from it. *)
Inductive window_open (q : bool) (h : Z) : process -> Prop :=
  | is_open ch c tr : h <> 0 -> engine c = true ->
      window_open q h (Process true true 1 {[h := the_window]} (Some (mkWindow true q h ch (Some c))) false tr).
Inductive window_closed : process -> Prop :=
  | is_closed ch tr :
      window_closed (Process true true 1 ∅ (Some (mkWindow true true 0 ch None)) true tr).
Inductive window_lost : process -> Prop :=
  | is_lost h ch c tr s0 r : HandleTopLevelWindowProc s0 h WM_DESTROY = Some r ->
      window_lost (Process true true 1 ∅ (Some (mkWindow true true h ch (Some c))) false tr).

Definition window_gone s : Prop := window_closed s \/ window_lost s.

#[local] Ltac run := cbv [bind get ret modify access this upd call set_object set_windows set_class set_count set_handle set_child
  set_controller set_quit set_base GetClientArea UpdateTheme Destroy OnDestroy DefWindowProc PostQuitMessage
  UnregisterWindowClass DestroyWindow MessageHandler FlutterWindow_MessageHandler Win32Window_MessageHandler]; cbn.

(** The choices of the system and the engine, one after the other. *)
#[local] Ltac choose := repeat (match goal with
  | |- context [HandleTopLevelWindowProc ?s ?h ?m] => destruct (HandleTopLevelWindowProc s h m)
  | |- context [AppsUseLightTheme ?s] => destruct (AppsUseLightTheme s)
  | |- context [?c =? 0] => destruct (c =? 0)
  | H : engine ?c = _ |- context [engine ?c] => rewrite H
  end; run).

Lemma dispatch_ordinary h m n s : window_open true h s -> posted m = true -> m <> WM_CLOSE ->
  exists r s', WndProc (Datatypes.S n) h m s = (Done r, s') /\ window_open true h s'.
Proof.
  intros [ch c tr Hh Hc] Hm Hclose. cbn [WndProc]. unfold WndProc_body.
  destruct m; try done; run; rewrite lookup_singleton_eq; run.
  all: choose; eexists _, _; (split; [reflexivity|by constructor]).
Qed.

(** The window is being created: it has no content yet. *)
Inductive window_creating (h : Z) : process -> Prop :=
  | is_creating tr : h <> 0 ->
      window_creating h (Process true true 1 {[h := the_window]} (Some (mkWindow true false h 0 None)) false tr).

Lemma dispatch_creating h m n s : window_creating h s -> quiet m = true ->
  exists r s', WndProc (Datatypes.S n) h m s = (Done r, s') /\ window_creating h s'.
Proof.
  intros [tr Hh] Hm. cbn [WndProc]. unfold WndProc_body.
  destruct m; try done; run; rewrite lookup_singleton_eq; run.
  all: choose; eexists _, _; (split; [reflexivity|by constructor]).
Qed.

Lemma creation_run h l : forallb quiet l = true -> forall s, window_creating h s ->
  exists s', for_each l (fun m => WndProc nesting h m ;;; ret tt) s = (Done tt, s') /\ window_creating h s'.
Proof.
  induction l as [|m l IH]; intros Hl s Hs; [by exists s|]. cbn [forallb] in Hl. apply andb_prop in Hl as [Hm Hl].
  destruct (dispatch_creating h m 1 s Hs Hm) as (r & s1 & Hrun & Hs1). destruct (IH Hl s1 Hs1) as (s' & Hloop & Hs').
  exists s'. split; [|done]. rewrite for_each_cons, bind_assoc. unfold nesting. rewrite (bind_done _ _ _ _ _ Hrun). by rewrite bind_ret.
Qed.

(** A message to the procedure that the engine takes, or that closes the window. *)
Lemma dispatch_close h s : window_open true h s ->
  exists r s', WndProc nesting h WM_CLOSE s = (Done r, s') /\
    (window_open true h s' \/ window_gone s') /\
    (HandleTopLevelWindowProc s h WM_CLOSE = None -> window_gone s').
Proof.
  intros [ch c tr Hh Hc]. cbn [WndProc nesting]. unfold WndProc_body at 1. run. rewrite lookup_singleton_eq. run.
  match goal with |- context [HandleTopLevelWindowProc ?s _ _] => set (s0 := s); destruct (HandleTopLevelWindowProc s0 h WM_CLOSE) as [r|] eqn:Hr end.
  { exists r, s0. split_and!; [done|by left|done]. }
  subst s0. run. rewrite lookup_singleton_eq. run. rewrite lookup_singleton_eq. run.
  match goal with |- context [HandleTopLevelWindowProc ?s h WM_DESTROY] => destruct (HandleTopLevelWindowProc s h WM_DESTROY) as [r|] eqn:Hd end.
  - run. rewrite lookup_singleton_eq. run. choose; rewrite ?delete_singleton_eq; (eexists _, _; split; [reflexivity|]);
      (split; [right|intros _]; right; econstructor; exact Hd).
  - run. repeat (first [rewrite lookup_singleton_eq | rewrite delete_singleton_eq]; run).
    eexists _, _. split; [reflexivity|]. split; [right|intros _]; left; constructor.
Qed.

Lemma open_windows q h s : window_open q h s -> windows s = {[h := the_window]}.
Proof. by intros []. Qed.
Lemma closed_windows s : window_gone s -> windows s = ∅.
Proof. by intros [[]|[]]. Qed.
Lemma not_open_and_closed q h s : window_open q h s -> window_gone s -> False.
Proof. intros Ho Hc. apply open_windows in Ho. apply closed_windows in Hc. rewrite Hc in Ho. by apply (insert_non_empty ∅ h the_window). Qed.

(** Where there is no window, messages are dropped. *)
Lemma dispatch h m s : posted m = true -> (window_open true h s \/ window_gone s) -> forall k,
  exists s', (let* s := get in match windows s !! k with Some _ => WndProc nesting k m ;;; ret tt | None => ret tt end) s = (Done tt, s') /\
    (window_open true h s' \/ window_gone s') /\ (window_gone s -> window_gone s') /\
    (k = h -> m = WM_CLOSE -> HandleTopLevelWindowProc s h WM_CLOSE = None -> window_gone s').
Proof.
  intros Hm Hs k. rewrite (bind_done get _ s s s) by done. destruct (windows s !! k) as [u|] eqn:Hk.
  2: { exists s. split_and!; try done. intros -> _ _. destruct Hs as [Ho|Hc]; [|done].
       by rewrite (open_windows _ _ _ Ho), lookup_singleton_eq in Hk. }
  destruct Hs as [Ho|Hc]; [|by rewrite (closed_windows _ Hc), lookup_empty in Hk]. assert (k = h) as ->.
  { rewrite (open_windows _ _ _ Ho) in Hk. by apply lookup_singleton_Some in Hk as [? _]. }
  assert (Hq : m = WM_CLOSE \/ m <> WM_CLOSE) by (destruct m; auto; by right).
  destruct Hq as [->|Hq].
  - destruct (dispatch_close h s Ho) as (r & s' & Hrun & Hs' & Hclose). exists s'. unfold bind. rewrite Hrun.
    split_and!; [done|done| |done]. intros Hc. by destruct (not_open_and_closed _ _ _ Ho Hc).
  - destruct (dispatch_ordinary h m 1 s Ho Hm Hq) as (r & s' & Hrun & Hs'). exists s'. unfold bind, nesting. rewrite Hrun.
    split_and!; [done|by left| |done]. intros Hc. by destruct (not_open_and_closed _ _ _ Ho Hc).
Qed.

Lemma message_loop_run h arriving : forall s, Forall (fun m => posted (snd m) = true) arriving ->
  (window_open true h s \/ window_gone s) ->
  exists q s', message_loop arriving s = (Done q, s') /\ (if q : bool then window_closed s' else window_open true h s' \/ window_lost s') /\
    (window_gone s -> window_gone s') /\
    ((forall s k, HandleTopLevelWindowProc s k WM_CLOSE = None) -> (h, WM_CLOSE) ∈ arriving -> window_gone s').
Proof.
  induction arriving as [|[k m] arriving IH]; intros s Hposted Hs.
  { exists (quit_posted s), s. cbn. split_and!; [done| |done|by intros _ ?%not_elem_of_nil].
    by destruct Hs as [[]|[[]|[]]]; [left|..|right]; econstructor. }
  apply Forall_cons in Hposted as [Hm Hposted]. cbn [snd] in Hm. cbn [message_loop].
  destruct (dispatch h m s Hm Hs k) as (s1 & Hrun & Hs1 & Hkeep & Hclose).
  destruct (IH s1 Hposted Hs1) as (q & s' & Hloop & Hq & Hkeep' & Hclose').
  exists q, s'. rewrite <- bind_assoc, (bind_done _ _ _ _ _ Hrun), Hloop. split_and!; [done|done|auto|].
  intros Hleft [[= <- <-]|Hin]%elem_of_cons; auto.
Qed.

(** Everything is released: no window, no object, no class. *)
Definition released s : Prop :=
  windows s = ∅ /\ object s = None /\ g_active_window_count s = 0 /\ class_exists s = false /\ class_registered_ s = false.

(** The destructors, with and without a window that is still open. *)
Lemma delete_closed e r q ch co p tr :
  exists s', FlutterWindow_delete (Process e r 1 ∅ (Some (mkWindow true q 0 ch co)) p tr) = (Done tt, s') /\ released s'.
Proof.
  unfold FlutterWindow_delete. run. eexists. split; [reflexivity|]. split_and!; try done. cbn.
  rewrite bool_decide_eq_true_2 by done. apply andb_false_r.
Qed.

Lemma delete_open h q ch co tr : h <> 0 ->
  exists s', FlutterWindow_delete (Process true true 1 {[h := the_window]} (Some (mkWindow true q h ch co)) false tr) = (Done tt, s') /\ released s'.
Proof.
  intros Hh. unfold FlutterWindow_delete. run. destruct (Z.eqb_spec h 0); [done|]. run.
  repeat (first [rewrite lookup_singleton_eq | rewrite delete_singleton_eq]; run).
  change (1 - 1) with 0. run. destruct q; run;
    repeat (first [rewrite lookup_singleton_eq | rewrite delete_singleton_eq]; run);
    (eexists; split; [reflexivity|]; split_and!; try done; cbn; rewrite bool_decide_eq_true_2 by done; apply andb_false_r).
Qed.

(** Creating the window: nothing, a window whose engine is missing, or an open window. *)
Lemma Create_run x y width height : exists b s', Create x y width height (Process false false 1 ∅ (Some (mkWindow true false 0 0 None)) false []) = (Done b, s') /\
  if b : bool then exists h, window_open false h s'
  else exists e r h ch co tr, s' = Process e r 1 (if h =? 0 then ∅ else {[h := the_window]}) (Some (mkWindow true false h ch co)) false tr /\
    (h <> 0 -> e = true /\ r = true).
Proof.
  unfold Create. set (s0 := Process true true 1 ∅ (Some (mkWindow true false 0 0 None)) false []).
  rewrite (bind_done (Destroy _) _ _ tt (Process false false 1 ∅ (Some (mkWindow true false 0 0 None)) false [])) by done.
  rewrite (bind_done GetWindowClass _ _ tt s0) by done. unfold CreateWindow.
  set (args := CreateWindow_call _ _ _ _). set (s1 := Process true true 1 ∅ (Some (mkWindow true false 0 0 None)) false [args]).
  rewrite bind_assoc, (bind_done (call args) _ s0 tt s1) by done. rewrite bind_assoc, (bind_done get _ s1 s1 s1) by done.
  destruct (create_place_ok s1) as [H0|Hnew].
  { rewrite H0. cbn [Z.eqb]. rewrite bind_ret. cbn [Z.eqb]. eexists false, s1. split; [done|].
    exists true, true, 0, 0, None, [args]. by split. }
  set (h := create_place s1). destruct (Z.eqb_spec h 0) as [Hh|Hh].
  { rewrite bind_ret. cbn [Z.eqb]. eexists false, s1. split; [done|]. exists true, true, 0, 0, None, [args]. by split. }
  set (s2 := Process true true 1 {[h := 0]} (Some (mkWindow true false 0 0 None)) false [args]).
  rewrite bind_assoc, (bind_done (set_windows _) _ s1 tt s2) by done. rewrite for_each_cons.
  assert (Hnc : exists r s3, WndProc nesting h (WM_NCCREATE the_window) s2 = (Done r, s3) /\ window_creating h s3).
  { unfold nesting. cbn [WndProc]. unfold WndProc_body. run. eexists _, _. split; [reflexivity|]. rewrite insert_singleton_eq. by constructor. }
  destruct Hnc as (r & s3 & Hnc & Hs3). destruct (creation_run h creation_messages creation_quiet s3 Hs3) as (s4 & Hrun & Hs4).
  rewrite !bind_assoc, (bind_done _ _ _ _ _ Hnc), bind_ret, (bind_done _ _ _ _ _ Hrun), bind_ret.
  destruct (Z.eqb_spec h 0); [done|]. destruct Hs4 as [tr _]. unfold UpdateTheme, OnCreate.
  set (frame := GetClientRect h). set (c := FlutterViewController_new (right frame - left frame) (bottom frame - top frame)).
  run. choose; fold frame; fold c; destruct (engine c) eqn:He; destruct (view c); run;
    (eexists _, _; split; [reflexivity|]); cbn;
    first [by exists h; constructor
          | eexists true, true, h, 0, (Some c), _; destruct (Z.eqb_spec h 0); [done|]; by split].
Qed.

End Life.

(** ** A system with room for windows *)

#[local] Instance ex_win32 : Win32 := {|
  create_place s := match windows s !! 77 with Some _ => 0 | None => 77 end;
  creation_messages := [OtherMessage 1; WM_SIZE];
  DefWindowProc_result _ _ := 1;
  GetClientRect _ := mkRect 0 0 800 600;
  AppsUseLightTheme _ := Some 0;
  DpiForPoint _ _ := 144;
  scaled source dpi := source * dpi / 96;
  FlutterViewController_new _ _ := mkController true (Some 88);
  HandleTopLevelWindowProc _ _ _ := None |}.

#[local] Instance ex_win32_ok : Win32Ok.
Proof. split; [|done]. intros s. cbn. destruct (windows s !! 77) eqn:H; [by left|by right]. Qed.


(** A session; the font change is handed on, and the end of the window to no window at all. *)
Example window_session :
  wWinMain [(77, WM_SIZE); (77, WM_FONTCHANGE); (77, WM_CLOSE); (77, WM_SIZE)] start =
  (Done (Exited 0), Process false false 0 ∅ None true [
     CreateWindow_call 15 15 1920 1080; EnableNonClientDpiScaling 77; DefWindowProc_call 77 (WM_NCCREATE 1);
     DefWindowProc_call 77 (OtherMessage 1); DwmSetWindowAttribute 77 true; RegisterPlugins; SetParent 88 77;
     MoveWindow 88 0 0 800 600; SetFocus 88; SetNextFrameCallback; ForceRedraw; MoveWindow 88 0 0 800 600;
     ReloadSystemFonts; DefWindowProc_call 77 WM_FONTCHANGE; DefWindowProc_call 77 WM_CLOSE;
     DefWindowProc_call 0 WM_NCDESTROY ]).
Proof. vm_compute. reflexivity. Qed.

(** A change of fonts that arrives while the window has no content dereferences no controller. *)
Example font_change_without_content :
  fst (WndProc nesting 77 WM_FONTCHANGE (Process true true 1 {[77 := the_window]} (Some (mkWindow true false 77 0 None)) false [])) = Undef.
Proof. vm_compute. reflexivity. Qed.

(** ** Command line arguments (utils.cpp) *)

Section Arguments.
(** [WideCharToMultiByte(CP_UTF8, WC_ERR_INVALID_CHARS, ...)]: the bytes of a string, or nothing where
    it is not UTF-16; [max_size()] of strings; [CommandLineToArgvW]. *)
Context (WideCharToMultiByte : list Z -> option (list Z)) (max_size : Z) (argv : option (list (list Z))).

(** The string, and the size it was given on the way; the source is without its null. *)
Definition Utf8FromUtf16 (utf16_string : option (list Z)) : list Z * Z :=
  match utf16_string with
  | None => ([], 0)
  | Some w =>
    let target_length := (match WideCharToMultiByte (w ++ [0]) with Some bs => zlength bs | None => 0 end - 1) mod 2 ^ 32 in
    if (target_length =? 0) || (max_size <? target_length) then ([], 0)
    else
      match WideCharToMultiByte w with
      | Some bs => (bs ++ replicate (Z.to_nat (target_length - zlength bs)) 0, target_length)
      | None => ([], target_length)
      end
  end.

Definition GetCommandLineArguments : list (list Z) :=
  match argv with None => [] | Some argv => (fun a => fst (Utf8FromUtf16 (Some a))) <$> drop 1 argv end.

(** Of a string that can be converted the bytes are returned; of any other none, but after a string
    of 4 GB was made: the failure's zero, less one, passes for a length. *)
Lemma Utf8FromUtf16_result w : max_size >= 2 ^ 32 - 1 -> (forall bs, WideCharToMultiByte w = Some bs -> zlength bs < 2 ^ 31) ->
  WideCharToMultiByte (w ++ [0]) = match WideCharToMultiByte w with Some bs => Some (bs ++ [0]) | None => None end ->
  Utf8FromUtf16 (Some w) =
    match WideCharToMultiByte w with Some bs => (bs, zlength bs) | None => ([], 2 ^ 32 - 1) end.
Proof.
  intros Hmax Hsize Hnull. unfold Utf8FromUtf16. rewrite Hnull. destruct (WideCharToMultiByte w) as [bs|].
  - pose proof (Hsize bs eq_refl). pose proof (zlength_nonneg bs).
    assert (Hl : zlength (bs ++ [0]) - 1 = zlength bs) by (rewrite zlength_app; unfold zlength; cbn; lia).
    rewrite Hl, Z.mod_small by lia. destruct (Z.eqb_spec (zlength bs) 0) as [Hz|]; cbn [orb].
    + rewrite Hz. f_equal. symmetry. apply length_zero_iff_nil. unfold zlength in Hz. lia.
    + destruct (Z.ltb_spec max_size (zlength bs)); [lia|]. rewrite Z.sub_diag. cbn. by rewrite app_nil_r.
  - change ((0 - 1) mod 2 ^ 32) with (2 ^ 32 - 1). destruct (Z.ltb_spec max_size (2 ^ 32 - 1)); [lia|]. done.
Qed.
End Arguments.
