(* ===== verification/FfiPlugin.v ===== *)
(** * The application's plugin (src/plugins/ffi_plugin/src/ffi_plugin.cpp)

    [load_model], [run_inference] and [unload_model] over the three globals of the plugin,
    written against the C API; that no sequence of calls leaks or reuses an object of the
    API, and what [run_inference] returns. *)
From stdpp Require Import strings.
From S2P Require Import Prelude Heap Common OpResolver CApi.
#[local] Open Scope Z_scope.

(** ** Single-precision comparison *)

(** A [float] is its 32 bits. *)
Definition f32_sign (b : Z) : bool := Z.testbit b 31.
Definition f32_magnitude (b : Z) : Z := b mod 2 ^ 31.

(** Exponent all ones, mantissa not zero. *)
Definition f32_is_nan (b : Z) : bool := 0x7f800000 <? f32_magnitude b.

(** Sign and magnitude as a signed number; both zeros are 0. *)
Definition f32_key (b : Z) : Z := if f32_sign b then - f32_magnitude b else f32_magnitude b.

(** [a > b]. *)
Definition f32_gt (a b : Z) : bool :=
  negb (f32_is_nan a) && negb (f32_is_nan b) && (f32_key b <? f32_key a).

(** ** State *)

Section Plugin.
Context {RT : TfLiteRuntime}.

(** The static variables of the file and the world they point into. *)
Record plugin := mkPlugin {
  model : Z; interpreter : Z; options : Z; api : world }.

Definition plugin_start (w : world) : plugin := mkPlugin 0 0 0 w.

Definition on_api {A} (c : M world A) : M plugin A :=
  zoom api (fun w s => mkPlugin (model s) (interpreter s) (options s) w) c.

Definition set_model (p : Z) : M plugin unit :=
  modify (fun s => mkPlugin p (interpreter s) (options s) (api s)).
Definition set_interpreter (p : Z) : M plugin unit :=
  modify (fun s => mkPlugin (model s) p (options s) (api s)).
Definition set_options (p : Z) : M plugin unit :=
  modify (fun s => mkPlugin (model s) (interpreter s) p (api s)).

(** ** Operations *)

(** The three [if]s that [load_model] and [unload_model] share. *)
Definition release_all : M plugin unit :=
  let* s := get in
  (if negb (interpreter s =? 0) then
     on_api (TfLiteInterpreterDelete (interpreter s)) ;;; set_interpreter 0
   else ret tt) ;;;
  (if negb (options s =? 0) then
     on_api (TfLiteInterpreterOptionsDelete (options s)) ;;; set_options 0
   else ret tt) ;;;
  (if negb (model s =? 0) then
     on_api (TfLiteModelDelete (model s)) ;;; set_model 0
   else ret tt).

(** [model_path] is a C string, or null. *)
Definition load_model (model_path : option string) : M plugin Z :=
  match model_path with
  | None => ret 0
  | Some model_path =>
    release_all ;;;
    let* m := on_api (TfLiteModelCreateFromFile model_path) in
    set_model m ;;;
    if m =? 0 then ret 0
    else
      let* o := on_api TfLiteInterpreterOptionsCreate in
      set_options o ;;;
      on_api (TfLiteInterpreterOptionsSetNumThreads o 2) ;;;
      let* i := on_api (TfLiteInterpreterCreate m o) in
      set_interpreter i ;;;
      if i =? 0 then ret 0
      else
        let* st := on_api (TfLiteInterpreterAllocateTensors i) in
        if negb (bool_decide (st = kTfLiteOk)) then ret 0 else ret 1
  end.

Definition sizeof_int16 : Z := 2.
Definition sizeof_float : Z := 4.

(** The [i]-th float at [p], least significant byte first. *)
Definition read_float (p i : Z) : M world Z :=
  let* w := get in
  let a := p + sizeof_float * i in
  let byte k := mem (w_heap w) (a + k) mod 256 in
  if in_live_block (w_heap w) a sizeof_float
  then ret (byte 0 + 2 ^ 8 * byte 1 + 2 ^ 16 * byte 2 + 2 ^ 24 * byte 3)
  else undef.

(** The loop over [output_data], with [max_index] and [max_value]. *)
Definition argmax_step (output_data : Z) (best : Z * Z) (i : Z) : M world (Z * Z) :=
  let* v := read_float output_data i in
  ret (if f32_gt v best.2 then (i, v) else best).

Definition argmax (output_data output_size : Z) : M world Z :=
  let* v0 := read_float output_data 0 in
  let* best := for_fold (zrange 1 (output_size - 1)) (0, v0) (argmax_step output_data) in
  ret best.1.

(** [pcm_data] is an address of the caller's memory, 0 when null. *)
Definition run_inference (pcm_data length : Z) : M plugin Z :=
  let* s := get in
  let interpreter := interpreter s in
  if (interpreter =? 0) || (pcm_data =? 0) || (length <=? 0) then ret (-1)
  else
    let* input_tensor := on_api (TfLiteInterpreterGetInputTensor interpreter 0) in
    match input_tensor with
    | None => ret (-1)
    | Some input_tensor =>
      let* input_bytes := on_api (TfLiteTensorByteSize interpreter input_tensor) in
      if input_bytes <? size_wrap (length * sizeof_int16) then ret (-1)
      else
        let* st := on_api (TfLiteTensorCopyFromBuffer interpreter input_tensor pcm_data
                             (size_wrap (length * sizeof_int16))) in
        if negb (bool_decide (st = kTfLiteOk)) then ret (-1)
        else
          let* st := on_api (TfLiteInterpreterInvoke interpreter) in
          if negb (bool_decide (st = kTfLiteOk)) then ret (-1)
          else
            let* output_tensor := on_api (TfLiteInterpreterGetOutputTensor interpreter 0) in
            match output_tensor with
            | None => ret (-1)
            | Some output_tensor =>
              let* bytes := on_api (TfLiteTensorByteSize interpreter output_tensor) in
              let output_size := int32_wrap (bytes / sizeof_float) in
              let* output_data := on_api (TfLiteTensorData interpreter output_tensor) in
              on_api (argmax output_data output_size)
            end
    end.

Definition unload_model : M plugin unit := release_all.
End Plugin.

(** ** Ownership *)

Section Ownership.
Context {RT : TfLiteRuntime}.

(** The only live object is the one [p] points to; none when [p] is null. *)
Definition owns {A} (objects : gmap Z A) (p : Z) : Prop :=
  if p =? 0 then objects = ∅ else exists x, objects = {[p := x]}.

(** The live objects of the world are those of the three pointers. *)
Record owned (m i o : Z) (w : world) : Prop := {
  owned_model : owns (w_models w) m;
  owned_interpreter : owns (w_interpreters w) i;
  owned_options : owns (w_options w) o;
  owned_next : 0 < w_next w }.

Definition plugin_owned (s : plugin) : Prop :=
  owned (model s) (interpreter s) (options s) (api s).

Lemma owns_null {A} (objects : gmap Z A) : owns objects 0 <-> objects = ∅.
Proof. done. Qed.

Lemma owns_some {A} (objects : gmap Z A) p : p <> 0 ->
  owns objects p <-> exists x, objects = {[p := x]}.
Proof. intros Hp. unfold owns. by rewrite (proj2 (Z.eqb_neq _ _) Hp). Qed.

Lemma owns_lookup {A} (objects : gmap Z A) p : p <> 0 -> owns objects p ->
  exists x, objects = {[p := x]} /\ objects !! p = Some x.
Proof.
  intros Hp [x ->]%owns_some; [|done]. exists x. by rewrite lookup_singleton_eq.
Qed.

Lemma owns_delete {A} (objects : gmap Z A) p : p <> 0 -> owns objects p -> delete p objects = ∅.
Proof. intros Hp [x ->]%owns_some; [|done]. apply delete_singleton_eq. Qed.

Lemma owns_new {A} p (x : A) : p <> 0 -> owns {[p := x]} p.
Proof. intros Hp. apply owns_some; [done|]. by exists x. Qed.

Lemma owns_update {A} (objects : gmap Z A) p x : p <> 0 -> owns objects p ->
  owns (<[p := x]> objects) p.
Proof.
  intros Hp [y ->]%owns_some; [|done]. apply owns_some; [done|]. exists x.
  by rewrite insert_singleton_eq.
Qed.

Lemma on_api_done {A} (c : M world A) m i o w a w' : c w = (Done a, w') ->
  on_api c (mkPlugin m i o w) = (Done a, mkPlugin m i o w').
Proof. intros Hc. unfold on_api, zoom. cbn. by rewrite Hc. Qed.

(** A call of the API that does not return. *)
Lemma on_api_fail {A B} (c : M world A) (k : A -> M plugin B) m i o w e : fst (c w) = Fail e ->
  fst (bind (on_api c) k (mkPlugin m i o w)) = Fail e.
Proof. intros Hc. unfold bind, on_api, zoom. cbn. destruct (c w). cbn in *. by subst. Qed.
Lemma on_api_undef {A B} (c : M world A) (k : A -> M plugin B) m i o w : fst (c w) = Undef ->
  fst (bind (on_api c) k (mkPlugin m i o w)) = Undef.
Proof. intros Hc. unfold bind, on_api, zoom. cbn. destruct (c w). cbn in *. by subst. Qed.

(** Nothing is to be shown of a state that is not reached. *)
Lemma stopped (x o : outcome Z) (Q : Prop) : x = o -> (forall r, o <> Done r) ->
  x = o /\ (forall r, x = Done r -> Q).
Proof. intros -> Ho. split; [done|]. intros r Hr. by destruct (Ho r). Qed.

(** *** Releasing *)

(** The deletion of the live interpreter, if there is one. *)
Definition delete_live (s : plugin) : outcome unit * heap :=
  if interpreter s =? 0 then (Done tt, w_heap (api s))
  else match w_interpreters (api s) !! interpreter s with
       | Some it => impl_delete (impl it) (w_heap (api s))
       | None => (Undef, w_heap (api s))
       end.

Lemma TfLiteInterpreterOptionsDelete_run o h files ms os n : owns os o ->
  TfLiteInterpreterOptionsDelete o (mkWorld h files ms os ∅ n) =
    (Done tt, mkWorld h files ms ∅ ∅ n).
Proof.
  intros Ho. unfold TfLiteInterpreterOptionsDelete. destruct (Z.eqb_spec o 0) as [->|Hne].
  - by rewrite (proj1 (owns_null _) Ho).
  - destruct (owns_lookup _ _ Hne Ho) as (x & _ & Hl). unfold bind, deref_options, bind, get. cbn -[delete lookup].
    rewrite Hl. cbn -[delete]. unfold modify, set_w_options. cbn -[delete]. by rewrite (owns_delete _ _ Hne Ho).
Qed.

Lemma TfLiteModelDelete_run m h files ms n : owns ms m ->
  TfLiteModelDelete m (mkWorld h files ms ∅ ∅ n) = (Done tt, mkWorld h files ∅ ∅ ∅ n).
Proof.
  intros Hm. unfold TfLiteModelDelete. destruct (Z.eqb_spec m 0) as [->|Hne].
  - by rewrite (proj1 (owns_null _) Hm).
  - destruct (owns_lookup _ _ Hne Hm) as (x & _ & Hl). unfold bind, get. cbn -[delete lookup].
    rewrite Hl. cbn -[delete]. unfold modify, set_w_models. cbn -[delete]. by rewrite (owns_delete _ _ Hne Hm).
Qed.

(** The interpreter's deletion decides what becomes of the release; where it returns, nothing is
    left. *)
Lemma release_all_run s : plugin_owned s ->
  match delete_live s with
  | (Done _, h) => release_all s =
      (Done tt, mkPlugin 0 0 0 (mkWorld h (w_files (api s)) ∅ ∅ ∅ (w_next (api s))))
  | (o, _) => fst (release_all s) = o
  end.
Proof.
  destruct s as [m i o [h files ms os its n]]. unfold plugin_owned, delete_live. cbn [model interpreter options api w_heap w_interpreters w_files w_next].
  intros [Hm Hi Ho _]. cbn in Hm, Hi, Ho. set (s := mkPlugin m i o (mkWorld h files ms os its n)).
  assert (Hstart : release_all s = bind (if negb (i =? 0) then on_api (TfLiteInterpreterDelete i) ;;; set_interpreter 0 else ret tt)
    (fun _ => (if negb (o =? 0) then on_api (TfLiteInterpreterOptionsDelete o) ;;; set_options 0 else ret tt) ;;;
      (if negb (m =? 0) then on_api (TfLiteModelDelete m) ;;; set_model 0 else ret tt)) s) by done.
  rewrite Hstart. clear Hstart. subst s.
  assert (Hrest : forall h, bind
      (if negb (o =? 0) then on_api (TfLiteInterpreterOptionsDelete o) ;;; set_options 0 else ret tt)
      (fun _ => if negb (m =? 0) then on_api (TfLiteModelDelete m) ;;; set_model 0 else ret tt)
      (mkPlugin m 0 o (mkWorld h files ms os ∅ n)) = (Done tt, mkPlugin 0 0 0 (mkWorld h files ∅ ∅ ∅ n))).
  { intros h1. assert (Ho1 : (if negb (o =? 0) then on_api (TfLiteInterpreterOptionsDelete o) ;;; set_options 0 else ret tt)
      (mkPlugin m 0 o (mkWorld h1 files ms os ∅ n)) = (Done tt, mkPlugin m 0 0 (mkWorld h1 files ms ∅ ∅ n))).
    { pose proof (TfLiteInterpreterOptionsDelete_run o h1 files ms os n Ho) as Hrun. destruct (Z.eqb_spec o 0) as [->|Hne]; cbn [negb].
      - by rewrite (proj1 (owns_null _) Ho).
      - by rewrite (bind_done _ _ _ _ _ (on_api_done _ m 0 o _ _ _ Hrun)). }
    rewrite (bind_done _ _ _ _ _ Ho1).
    pose proof (TfLiteModelDelete_run m h1 files ms n Hm) as Hrun. destruct (Z.eqb_spec m 0) as [->|Hne]; cbn [negb].
    - by rewrite (proj1 (owns_null _) Hm).
    - by rewrite (bind_done _ _ _ _ _ (on_api_done _ m 0 0 _ _ _ Hrun)). }
  destruct (Z.eqb_spec i 0) as [->|Hne]; cbn [negb].
  { rewrite bind_ret. rewrite (proj1 (owns_null _) Hi). apply Hrest. }
  destruct (owns_lookup _ _ Hne Hi) as (it & _ & Hl). rewrite Hl.
  assert (Hd : TfLiteInterpreterDelete i (mkWorld h files ms os its n) =
    match impl_delete (impl it) h with
    | (Done _, h1) => (Done tt, mkWorld h1 files ms os ∅ n)
    | (r, h1) => (r, mkWorld h1 files ms os its n)
    end).
  { unfold TfLiteInterpreterDelete. rewrite (proj2 (Z.eqb_neq _ _) Hne). unfold bind, deref_interpreter, bind, get. cbn -[delete lookup].
    rewrite Hl. cbn. unfold on_heap, zoom. cbn. destruct (impl_delete (impl it) h) as [[[]|e|] h1]; cbn -[delete]; try done.
    unfold modify, set_w_interpreters, set_w_heap. cbn -[delete]. by rewrite (owns_delete _ _ Hne Hi). }
  destruct (impl_delete (impl it) h) as [[[]|e|] h1].
  - rewrite bind_assoc, (bind_done _ _ _ _ _ (on_api_done _ m i o _ _ _ Hd)). unfold bind at 1, set_interpreter, modify. apply Hrest.
  - rewrite bind_assoc. apply on_api_fail. by rewrite Hd.
  - rewrite bind_assoc. apply on_api_undef. by rewrite Hd.
Qed.

(** *** Creating *)

(** The options that [load_model] sets, and the resolver they give. *)
Definition two_threads : TfLiteInterpreterOptions :=
  mkOptions 2 MutableOpResolver.empty no_callbacks [] false false [] false.
Definition plugin_resolver : resolver :=
  use_mutable (snd (prepare_resolver (Some two_threads) CreateOpResolver)).

(** The calls of the runtime that make an interpreter: it is built, or not, and is told the number
    of threads, whatever that call answers. *)
Definition create_outcome (fm : FlatBufferModel) (h : heap) : outcome (option Impl) * heap :=
  match InterpreterBuilder fm plugin_resolver h with
  | (Done i, h) =>
    match status_call (impl_SetNumThreads 2) (h, i) with
    | (Done _, (h, i)) => (Done (Some i), h)
    | (Fail e, (h, _)) => (Fail e, h)
    | (Undef, (h, _)) => (Undef, h)
    end
  | (Fail _, h) => (Done None, h)
  | (Undef, h) => (Undef, h)
  end.

(** What [load_model] answers from the heap that the release leaves: 1 where the file is verified,
    the interpreter is created and its tensors are allocated. *)
Definition load_outcome (file : option FlatBufferModel) (h : heap) : outcome Z :=
  match file with
  | None => Done 0
  | Some fm =>
    match create_outcome fm h with
    | (Done None, _) => Done 0
    | (Done (Some i), h) =>
      match fst (status_call impl_AllocateTensors (h, i)) with
      | Done st => Done (if bool_decide (st = kTfLiteOk) then 1 else 0)
      | Fail e => Fail e
      | Undef => Undef
      end
    | (Fail e, _) => Fail e
    | (Undef, _) => Undef
    end
  end.

(** The world with a model and options. *)
Definition with_model (h : heap) (files : string -> option FlatBufferModel) (n : Z) (fm : FlatBufferModel)
    (its : gmap Z TfLiteInterpreter) (next : Z) : world :=
  mkWorld h files {[n := fm]} {[n + 1 := two_threads]} its next.

Lemma TfLiteInterpreterCreate_run h files n fm : 0 < n ->
  TfLiteInterpreterCreate n (n + 1) (with_model h files n fm ∅ (n + 2)) =
  match create_outcome fm h with
  | (Done None, h') => (Done 0, with_model h' files n fm ∅ (n + 2))
  | (Done (Some i), h') => (Done (n + 2), with_model h' files n fm {[n + 2 := mkInterpreter fm i false]} (n + 3))
  | (Fail e, h') => (Fail e, with_model h' files n fm ∅ (n + 2))
  | (Undef, h') => (Undef, with_model h' files n fm ∅ (n + 2))
  end.
Proof.
  intros Hn. unfold TfLiteInterpreterCreate, InterpreterCreateWithOpResolver.
  destruct (Z.eqb_spec n 0); [lia|]. unfold bind at 1, get. cbn [w_models with_model].
  rewrite lookup_singleton_eq. cbn [access]. rewrite bind_ret. destruct (Z.eqb_spec (n + 1) 0); [lia|].
  assert (Ho : (let* o := deref_options (n + 1) in ret (Some o)) (with_model h files n fm ∅ (n + 2)) =
    (Done (Some two_threads), with_model h files n fm ∅ (n + 2))).
  { unfold deref_options, bind, get. cbn. by rewrite lookup_singleton_eq. }
  rewrite (bind_done _ _ _ _ _ Ho). unfold create_outcome, plugin_resolver.
  assert (Hp : exists r, prepare_resolver (Some two_threads) CreateOpResolver = (Done tt, r)) by (by eexists).
  destruct Hp as [r Hp]. rewrite Hp. cbn [snd]. change (has_callbacks (op_resolver_callbacks two_threads)) with false. cbn iota.
  unfold build_interpreter. unfold bind at 1, get. cbn [w_heap with_model].
  destruct (InterpreterBuilder fm (use_mutable r) h) as [[i|e|] h1]; [|done|done].
  unfold bind at 1, put. unfold apply_options. cbn [num_threads two_threads]. change (2 =? kDefaultNumThreads) with false. cbn [negb].
  rewrite bind_assoc, bind_assoc. unfold on_impl. unfold bind at 1. cbn [w_heap set_w_heap with_model].
  destruct (status_call (impl_SetNumThreads 2) (h1, i)) as [[st|e|] [h2 i2]]; [|done|done].
  rewrite bind_ret. cbn [snd use_nnapi delegates two_threads app apply_delegates].
  rewrite bind_assoc, bind_ret, bind_ret. cbn [enable_cancellation two_threads opt_enable_delegate_fallback].
  unfold new_address, bind, modify, ret, set_w_interpreters, set_w_heap. cbn. unfold with_model. do 2 f_equal. lia.
Qed.

Lemma load_model_run path s : plugin_owned s ->
  match delete_live s with
  | (Done _, h) =>
    fst (load_model (Some path) s) = load_outcome (w_files (api s) path) h /\
    (forall r, fst (load_model (Some path) s) = Done r -> plugin_owned (snd (load_model (Some path) s)))
  | (Fail e, _) => fst (load_model (Some path) s) = Fail e
  | (Undef, _) => fst (load_model (Some path) s) = Undef
  end.
Proof.
  intros Hs. pose proof (release_all_run s Hs) as Hrel. unfold load_model.
  destruct (delete_live s) as [[[]|e|] h].
  2: { destruct (release_all s) as [r s1] eqn:Hr. cbn in Hrel. subst r. by rewrite (bind_fail _ _ _ _ _ Hr). }
  2: { destruct (release_all s) as [r s1] eqn:Hr. cbn in Hrel. subst r. by rewrite (bind_undef _ _ _ _ Hr). }
  rewrite (bind_done _ _ _ _ _ Hrel). destruct Hs as [_ _ _ Hn].
  set (files := w_files (api s)). set (n := w_next (api s)) in *. clearbody files n. clear Hrel s.
  unfold load_outcome. destruct (files path) as [fm|] eqn:Hf.
  2: { assert (Hc : TfLiteModelCreateFromFile path (mkWorld h files ∅ ∅ ∅ n) = (Done 0, mkWorld h files ∅ ∅ ∅ n)).
       { unfold TfLiteModelCreateFromFile, bind, get. cbn. by rewrite Hf. }
       rewrite (bind_done _ _ _ _ _ (on_api_done _ 0 0 0 _ _ _ Hc)). split; [done|]. intros r _. by split. }
  assert (Hc : TfLiteModelCreateFromFile path (mkWorld h files ∅ ∅ ∅ n) = (Done n, mkWorld h files {[n := fm]} ∅ ∅ (n + 1))).
  { unfold TfLiteModelCreateFromFile, bind, get. cbn. by rewrite Hf. }
  rewrite (bind_done _ _ _ _ _ (on_api_done _ 0 0 0 _ _ _ Hc)). rewrite !(bind_done (set_model n) _ _ tt (mkPlugin n 0 0 (mkWorld h files {[n := fm]} ∅ ∅ (n + 1)))) by done.
  destruct (Z.eqb_spec n 0); [lia|].
  assert (Ho : TfLiteInterpreterOptionsCreate (mkWorld h files {[n := fm]} ∅ ∅ (n + 1)) =
    (Done (n + 1), mkWorld h files {[n := fm]} {[n + 1 := options_default]} ∅ (n + 2))).
  { unfold TfLiteInterpreterOptionsCreate, new_options, new_address, bind, modify, ret, set_w_options. cbn. do 2 f_equal. lia. }
  rewrite (bind_done _ _ _ _ _ (on_api_done _ n 0 0 _ _ _ Ho)). rewrite !(bind_done (set_options (n + 1)) _ _ tt (mkPlugin n 0 (n + 1) (mkWorld h files {[n := fm]} {[n + 1 := options_default]} ∅ (n + 2)))) by done.
  assert (Ht : TfLiteInterpreterOptionsSetNumThreads (n + 1) 2 (mkWorld h files {[n := fm]} {[n + 1 := options_default]} ∅ (n + 2)) =
    (Done tt, with_model h files n fm ∅ (n + 2))).
  { unfold TfLiteInterpreterOptionsSetNumThreads, update_options, deref_options, bind, get. cbn. rewrite lookup_singleton_eq. cbn.
    unfold modify, set_w_options, with_model. cbn. by rewrite insert_singleton_eq. }
  rewrite (bind_done _ _ _ _ _ (on_api_done _ n 0 (n + 1) _ _ _ Ht)).
  pose proof (TfLiteInterpreterCreate_run h files n fm Hn) as Hi.
  destruct (create_outcome fm h) as [[[i|]|e|] h'].
  - rewrite (bind_done _ _ _ _ _ (on_api_done _ n 0 (n + 1) _ _ _ Hi)).
    rewrite !(bind_done (set_interpreter (n + 2)) _ _ tt
      (mkPlugin n (n + 2) (n + 1) (with_model h' files n fm {[n + 2 := mkInterpreter fm i false]} (n + 3)))) by done.
    destruct (Z.eqb_spec (n + 2) 0); [lia|].
    assert (Ha : TfLiteInterpreterAllocateTensors (n + 2) (with_model h' files n fm {[n + 2 := mkInterpreter fm i false]} (n + 3)) =
      match status_call impl_AllocateTensors (h', i) with
      | (Done st, (h2, i2)) => (Done st, with_model h2 files n fm {[n + 2 := mkInterpreter fm i2 false]} (n + 3))
      | (Fail e, (h2, _)) => (Fail e, with_model h2 files n fm {[n + 2 := mkInterpreter fm i false]} (n + 3))
      | (Undef, (h2, _)) => (Undef, with_model h2 files n fm {[n + 2 := mkInterpreter fm i false]} (n + 3))
      end).
    { unfold TfLiteInterpreterAllocateTensors, call_impl, deref_interpreter, bind, get. cbn. rewrite lookup_singleton_eq. cbn.
      unfold on_impl. cbn. destruct (status_call impl_AllocateTensors (h', i)) as [[st|e|] [h2 i2]]; [|done|done].
      unfold modify, set_w_interpreters, set_w_heap, with_model. cbn. by rewrite insert_singleton_eq. }
    destruct (status_call impl_AllocateTensors (h', i)) as [[st|e|] [h2 i2]]; cbn [fst].
    + rewrite (bind_done _ _ _ _ _ (on_api_done _ n (n + 2) (n + 1) _ _ _ Ha)). case_bool_decide; cbn [negb]; (split; [done|]);
        intros _ _; (split; cbn; [apply owns_new; lia..|lia]).
    + apply stopped; [|done]. apply on_api_fail. by rewrite Ha.
    + apply stopped; [|done]. apply on_api_undef. by rewrite Ha.
  - rewrite (bind_done _ _ _ _ _ (on_api_done _ n 0 (n + 1) _ _ _ Hi)).
    rewrite !(bind_done (set_interpreter 0) _ _ tt (mkPlugin n 0 (n + 1) (with_model h' files n fm ∅ (n + 2)))) by done.
    split; [done|]. intros _ _. split; cbn; [apply owns_new; lia|done|apply owns_new; lia|lia].
  - apply stopped; [|done]. apply on_api_fail. by rewrite Hi.
  - apply stopped; [|done]. apply on_api_undef. by rewrite Hi.
Qed.

(** *** Inference *)

(** A call that, when defined, keeps what is owned. *)
Definition preserves {S A} (P : S -> Prop) (c : M S A) : Prop :=
  forall s o s', P s -> c s = (o, s') -> o <> Undef -> P s'.

Lemma preserves_bind {S A B} (P : S -> Prop) (c : M S A) (k : A -> M S B) :
  preserves P c -> (forall a, preserves P (k a)) -> preserves P (bind c k).
Proof.
  intros Hc Hk s o s' Hs. unfold bind. destruct (c s) as [[a|e|] s1] eqn:Heq.
  - intros Hk' Ho. eapply Hk; [|exact Hk'|done]. by eapply Hc.
  - intros [= <- <-] _. by eapply Hc.
  - intros [= <- <-]. done.
Qed.

Lemma preserves_pure {S A} (P : S -> Prop) (c : M S A) :
  (forall s, (c s).2 = s) -> preserves P c.
Proof. intros Hc s o s' Hs Heq _. by rewrite <- (Hc s), Heq in Hs. Qed.

Lemma preserves_on_api {A} (c : M world A) i :
  (forall m o, preserves (owned m i o) c) ->
  preserves (fun s => plugin_owned s /\ interpreter s = i) (on_api c).
Proof.
  intros Hc s o s' [Hs <-]. unfold on_api, zoom. destruct (c (api s)) as [a w] eqn:Heq.
  intros [= <- <-] Ho. split; [|done]. unfold plugin_owned. cbn. by eapply Hc.
Qed.

Lemma read_only_bind {S A B} (c : M S A) (k : A -> M S B) :
  (forall s, (c s).2 = s) -> (forall a s, (k a s).2 = s) -> forall s, (bind c k s).2 = s.
Proof.
  intros Hc Hk s. unfold bind. specialize (Hc s). destruct (c s) as [[a|e|] s']; cbn in *;
    subst; auto.
Qed.

Lemma deref_interpreter_read_only p w : (deref_interpreter p w).2 = w.
Proof. unfold deref_interpreter, bind, get. by destruct (w_interpreters w !! p). Qed.

Lemma access_read_only {S A} (o : option A) (s : S) : (access o s).2 = s.
Proof. by destruct o. Qed.

Create HintDb read_only.
#[local] Hint Resolve deref_interpreter_read_only access_read_only : read_only.
#[local] Hint Extern 1 ((bind _ _ _).2 = _) => apply read_only_bind; intros : read_only.

Lemma GetTensor_read_only p k w : (TfLiteInterpreterGetTensor p k w).2 = w.
Proof. unfold TfLiteInterpreterGetTensor. auto with read_only. Qed.

#[local] Hint Resolve GetTensor_read_only : read_only.

Lemma GetInputTensor_read_only p k w : (TfLiteInterpreterGetInputTensor p k w).2 = w.
Proof. unfold TfLiteInterpreterGetInputTensor. eauto with read_only. Qed.

Lemma GetOutputTensor_read_only p k w : (TfLiteInterpreterGetOutputTensor p k w).2 = w.
Proof. unfold TfLiteInterpreterGetOutputTensor. eauto with read_only. Qed.

Lemma ByteSize_read_only p t w : (TfLiteTensorByteSize p t w).2 = w.
Proof. unfold TfLiteTensorByteSize, deref_tensor. eauto with read_only. Qed.

Lemma Data_read_only p t w : (TfLiteTensorData p t w).2 = w.
Proof. unfold TfLiteTensorData, deref_tensor. eauto with read_only. Qed.

Lemma read_float_read_only p k w : (read_float p k w).2 = w.
Proof. unfold read_float, bind, get. by destruct (in_live_block _ _ _). Qed.

Lemma argmax_read_only p n w : (argmax p n w).2 = w.
Proof.
  unfold argmax. apply read_only_bind; [apply read_float_read_only|]. clear w. intros v0.
  apply read_only_bind; [|done]. generalize (0, v0).
  induction (zrange 1 (n - 1)) as [|i l IH]; intros b w; [done|].
  rewrite for_fold_cons. apply read_only_bind; [|by intros]. clear w. intros w.
  unfold argmax_step. apply read_only_bind; [apply read_float_read_only|done].
Qed.

Lemma CopyFromBuffer_preserves m i o p t src n :
  preserves (owned m i o) (TfLiteTensorCopyFromBuffer p t src n).
Proof.
  apply preserves_bind; [apply preserves_pure; intros; unfold deref_tensor;
                         eauto with read_only|].
  intros tn. destruct (negb _); [by apply preserves_pure|].
  apply preserves_bind; [|intros; by apply preserves_pure].
  intros w r w' Hw. unfold on_heap, zoom, memcpy.
  destruct (_ && _); intros [= <- <-] Hr; [|done].
  destruct Hw. by split.
Qed.

Lemma Invoke_preserves m i o : i <> 0 -> preserves (owned m i o) (TfLiteInterpreterInvoke i).
Proof.
  intros Hi. apply preserves_bind; [apply preserves_pure; auto with read_only|].
  intros it. apply preserves_bind; [apply preserves_pure; auto with read_only|].
  intros it'. apply preserves_bind.
  - intros w r w' [] Hrun _. revert Hrun. unfold on_impl. by destruct (status_call _ _) as [[st|e|] [h i']]; intros [= <- <-].
  - intros st. apply preserves_bind; [|intros []; by apply preserves_pure].
    intros w r w' [] [= <- <-] _. split; cbn; try done. by apply owns_update.
Qed.

Lemma run_inference_preserves pcm_data length :
  preserves plugin_owned (run_inference pcm_data length).
Proof.
  intros s o s' Hs. unfold run_inference, bind at 1, get.
  generalize (eq_refl (interpreter s)). generalize (interpreter s) at 2 3 4 5 6 7 8 9 10.
  intros i Hi. destruct (Z.eqb_spec i 0) as [->|Hi0].
  { intros [= <- <-]. done. }
  destruct (pcm_data =? 0), (length <=? 0); cbn [orb]; try by intros [= <- <-].
  intros Hrun Ho. cut (plugin_owned s' /\ interpreter s' = i); [tauto|].
  revert s o s' Hs Hi Hrun Ho.
  match goal with |- forall s o s', _ -> _ -> ?c s = _ -> _ -> _ =>
    cut (preserves (fun s => plugin_owned s /\ interpreter s = i) c) end.
  { intros H s o s' ? ? ? ?. by eapply H. }
  assert (Hread : forall A (c : M world A), (forall w, (c w).2 = w) ->
    preserves (fun s => plugin_owned s /\ interpreter s = i) (on_api c)).
  { intros A c Hc. apply preserves_on_api. intros. by apply preserves_pure. }
  assert (Hret : forall r : Z,
    preserves (fun s => plugin_owned s /\ interpreter s = i) (ret r)).
  { intros r. by apply preserves_pure. }
  apply preserves_bind; [apply Hread, GetInputTensor_read_only|].
  intros [t|]; [|apply Hret].
  apply preserves_bind; [apply Hread, ByteSize_read_only|].
  intros n. destruct (n <? _); [apply Hret|].
  apply preserves_bind; [apply preserves_on_api; intros; apply CopyFromBuffer_preserves|].
  intros st. destruct (negb _); [apply Hret|].
  apply preserves_bind; [apply preserves_on_api; intros; by apply Invoke_preserves|].
  intros st'. destruct (negb _); [apply Hret|].
  apply preserves_bind; [apply Hread, GetOutputTensor_read_only|].
  intros [t'|]; [|apply Hret].
  apply preserves_bind; [apply Hread, ByteSize_read_only|]. intros n'.
  apply preserves_bind; [apply Hread, Data_read_only|]. intros p.
  apply Hread, argmax_read_only.
Qed.

(** *** Reachable states *)

(** What else happens in the process between two calls: files change, and other code
    allocates, frees and writes memory. *)
Definition environment_step (s s' : plugin) : Prop :=
  model s' = model s /\ interpreter s' = interpreter s /\ options s' = options s /\
  exists h files, api s' = mkWorld h files (w_models (api s)) (w_options (api s))
                             (w_interpreters (api s)) (w_next (api s)).

Inductive reachable : plugin -> Prop :=
  | reach_start h files n : 0 < n ->
      reachable (plugin_start (mkWorld h files ∅ ∅ ∅ n))
  | reach_load path s r s' : reachable s -> load_model path s = (Done r, s') -> reachable s'
  | reach_run pcm_data length s r s' : reachable s ->
      run_inference pcm_data length s = (Done r, s') -> reachable s'
  | reach_unload s r s' : reachable s -> unload_model s = (Done r, s') -> reachable s'
  | reach_environment s s' : reachable s -> environment_step s s' -> reachable s'.

Lemma reachable_owned s : reachable s -> plugin_owned s.
Proof.
  induction 1 as [h files n Hn|path s r s' _ IH Hl|pcm len s r s' _ IH Hr|s r s' _ IH Hu
    |s s' _ IH (Hm & Hi & Ho & h & files & Hapi)].
  - by split.
  - destruct path as [path|]; [|by injection Hl as _ <-]. pose proof (load_model_run path s IH) as H. rewrite Hl in H. cbn [fst snd] in H.
    destruct (delete_live s) as [[]]; [|done..]. destruct H as [_ H]. by eapply H.
  - by eapply run_inference_preserves.
  - pose proof (release_all_run s IH) as H. unfold unload_model in Hu. rewrite Hu in H.
    destruct (delete_live s) as [[]]; [|done..]. injection H as _ ->. destruct IH. by split.
  - unfold plugin_owned in *. rewrite Hm, Hi, Ho, Hapi. destruct IH. by split.
Qed.

(** C14. No sequence of calls leaks an object of the C API or uses one after it was deleted.  In
    every state that is reached by calls that return, in any order and with any changes of files and
    memory between them, the live models, options and interpreters are exactly those the three
    globals point to, whatever those calls answered.  [unload_model] returns exactly where the
    runtime's deletion of the live interpreter does (if there is one), and then nothing is live.
    [load_model] answers what the calls of the runtime that it makes decide ([load_outcome]): after
    that deletion, 0 for a file that is not verified or an interpreter that is not built or not
    allocated, and 1 otherwise; it is undefined only where one of those calls is.  Without a path it
    does nothing. *)
Theorem plugin_objects_never_leak s : reachable s ->
  (owns (w_models (api s)) (model s) /\ owns (w_options (api s)) (options s) /\
   owns (w_interpreters (api s)) (interpreter s)) /\
  load_model None s = (Done 0, s) /\
  match delete_live s with
  | (Done _, h) =>
    (exists s', unload_model s = (Done tt, s') /\ w_heap (api s') = h /\
       w_models (api s') = ∅ /\ w_options (api s') = ∅ /\ w_interpreters (api s') = ∅) /\
    forall path, fst (load_model (Some path) s) = load_outcome (w_files (api s) path) h
  | (Fail e, _) => fst (unload_model s) = Fail e /\ forall path, fst (load_model (Some path) s) = Fail e
  | (Undef, _) => fst (unload_model s) = Undef /\ forall path, fst (load_model (Some path) s) = Undef
  end.
Proof.
  intros Hs%reachable_owned. split_and!; try by destruct Hs.
  pose proof (release_all_run s Hs) as Hrel.
  pose proof (fun path => load_model_run path s Hs) as Hload.
  destruct (delete_live s) as [[[]|e|] h]; [|by split..].
  split; [|intros path; apply Hload]. eexists. by split.
Qed.
End Ownership.

(** ** Inference *)

Section Inference.
Context {RT : TfLiteRuntime}.

(** The [i]-th float of the output, as [read_float] sees it. *)
Definition float_at (h : heap) (p i : Z) : Z :=
  let byte k := mem h (p + sizeof_float * i + k) mod 256 in
  byte 0 + 2 ^ 8 * byte 1 + 2 ^ 16 * byte 2 + 2 ^ 24 * byte 3.

Lemma read_float_run p i w :
  in_live_block (w_heap w) (p + sizeof_float * i) sizeof_float = true ->
  read_float p i w = (Done (float_at (w_heap w) p i), w).
Proof. intros Hb. unfold read_float, bind, get. by rewrite Hb. Qed.

(** [best] is the first position of the greatest of the first [n] values, values that are
    not numbers apart. *)
Definition is_first_max (v : Z -> Z) (n best : Z) : Prop :=
  0 <= best < n /\ f32_is_nan (v best) = false /\
  (forall i, 0 <= i < n -> f32_is_nan (v i) = false -> f32_key (v i) <= f32_key (v best)) /\
  (forall i, 0 <= i < best -> f32_is_nan (v i) = false -> f32_key (v i) < f32_key (v best)).

Lemma f32_gt_spec a b : f32_is_nan b = false ->
  f32_gt a b = true <-> f32_is_nan a = false /\ f32_key b < f32_key a.
Proof.
  intros Hb. unfold f32_gt. rewrite Hb. cbn.
  destruct (f32_is_nan a); cbn; [naive_solver|]. rewrite Z.ltb_lt. tauto.
Qed.

Lemma is_first_max_step v n best : 0 < n -> is_first_max v n best ->
  is_first_max v (n + 1) (if f32_gt (v n) (v best) then n else best).
Proof.
  intros Hn (Hb & Hnan & Hmax & Hfirst).
  destruct (f32_gt (v n) (v best)) eqn:Hgt.
  - apply f32_gt_spec in Hgt as [Hn' Hlt]; [|done]. split_and!; [lia..|done| |].
    + intros i Hi Hni. destruct (Z.eq_dec i n) as [->|]; [lia|].
      specialize (Hmax i ltac:(lia) Hni). lia.
    + intros i Hi Hni. specialize (Hmax i Hi Hni). lia.
  - split_and!; [lia..|done| |done].
    intros i Hi Hni. destruct (Z.eq_dec i n) as [->|]; [|apply Hmax; [lia|done]].
    destruct (Z.le_gt_cases (f32_key (v n)) (f32_key (v best))); [done|].
    enough (f32_gt (v n) (v best) = true) by congruence. by apply f32_gt_spec.
Qed.

(** The loop, from position [k] on. *)
Lemma argmax_loop p w k : forall m,
  let v := float_at (w_heap w) p in
  (forall i, 0 <= i < k + Z.of_nat m -> in_live_block (w_heap w) (p + sizeof_float * i) 4 = true) ->
  0 < k -> forall best, is_first_max v k best ->
  exists best', for_fold ((fun j => k + Z.of_nat j) <$> seq 0 m) (best, v best)
      (argmax_step p) w = (Done (best', v best'), w) /\
    is_first_max v (k + Z.of_nat m) best'.
Proof.
  intros m. revert k. induction m as [|m IH]; intros k v Hlive Hk best Hbest.
  - exists best. split; [done|]. by rewrite Z.add_0_r.
  - rewrite <- cons_seq, fmap_cons, for_fold_cons. unfold bind, argmax_step at 1, bind.
    rewrite Z.add_0_r, read_float_run by (apply Hlive; lia).
    unfold ret at 1. cbn [fst snd]. fold v.
    assert (Hpair : (if f32_gt (v k) (v best) then (k, v k) else (best, v best)) =
      ((if f32_gt (v k) (v best) then k else best),
       v (if f32_gt (v k) (v best) then k else best))).
    { by destruct (f32_gt (v k) (v best)). }
    rewrite Hpair. rewrite <- fmap_S_seq, <- list_fmap_compose.
    destruct (IH (k + 1)) with (best := if f32_gt (v k) (v best) then k else best)
      as (best' & Hrun & Hmax).
    + intros i Hi. apply Hlive. lia.
    + lia.
    + by apply is_first_max_step.
    + exists best'. fold v in Hrun, Hmax. split.
      * rewrite <- Hrun. f_equal. apply list_fmap_ext. intros ? j _. cbn. lia.
      * by replace (k + Z.of_nat (S m)) with (k + 1 + Z.of_nat m) by lia.
Qed.

(** The loop when the first value is not a number: every comparison is false. *)
Lemma argmax_nan_loop p w l v0 : f32_is_nan v0 = true ->
  (forall i, i ∈ l -> in_live_block (w_heap w) (p + sizeof_float * i) 4 = true) ->
  for_fold l (0, v0) (argmax_step p) w = (Done (0, v0), w).
Proof.
  intros Hnan. induction l as [|i l IH]; intros Hlive; [done|].
  rewrite for_fold_cons. unfold bind, argmax_step at 1, bind.
  rewrite read_float_run by (apply Hlive; set_solver). unfold ret at 1. cbn [fst snd].
  unfold f32_gt at 1. rewrite Hnan, andb_false_r. cbn. apply IH. set_solver.
Qed.

(** [argmax] over a live output of [n] floats. *)
Lemma argmax_run p n w : 0 < n ->
  (forall i, 0 <= i < n -> in_live_block (w_heap w) (p + sizeof_float * i) 4 = true) ->
  exists r, argmax p n w = (Done r, w) /\
    if f32_is_nan (float_at (w_heap w) p 0) then r = 0
    else is_first_max (float_at (w_heap w) p) n r.
Proof.
  intros Hn Hlive. unfold argmax, bind. rewrite read_float_run by (apply Hlive; lia).
  set (v := float_at (w_heap w) p). destruct (f32_is_nan (v 0)) eqn:Hnan.
  - exists 0. rewrite argmax_nan_loop; [done..|].
    intros i Hi. apply Hlive. unfold zrange in Hi.
    apply list_elem_of_fmap in Hi as (k & -> & Hk%elem_of_seq). lia.
  - unfold zrange. replace (n - 1 - 1 + 1) with (n - 1) by lia.
    destruct (argmax_loop p w 1 (Z.to_nat (n - 1))) with (best := 0) as (best' & Hrun & Hmax).
    + intros i Hi. apply Hlive. lia.
    + lia.
    + split_and!; [lia..|done| |lia]. intros i Hi _. by replace i with 0 by lia.
    + exists best'. unfold v. rewrite Hrun. split; [done|].
      by replace (1 + Z.of_nat (Z.to_nat (n - 1))) with n in Hmax by lia.
Qed.

(** The calls of [run_inference], on an interpreter that is there. *)
Lemma deref_interpreter_run p it w : w_interpreters w !! p = Some it ->
  deref_interpreter p w = (Done it, w).
Proof. intros Hp. unfold deref_interpreter, bind, get. by rewrite Hp. Qed.

Lemma GetTensor_run p it w k t : w_interpreters w !! p = Some it ->
  (impl_tensors (impl it)).[k] = Some t ->
  TfLiteInterpreterGetTensor p k w = (Done (Some k), w).
Proof.
  intros Hp [Hk _]%zlookup_some. unfold TfLiteInterpreterGetTensor, bind.
  erewrite deref_interpreter_run by done.
  destruct (Z.ltb_spec k 0), (Z.leb_spec (zlength (impl_tensors (impl it))) k); [lia..|done].
Qed.

Lemma GetInputTensor_run p it w k ks t : w_interpreters w !! p = Some it ->
  impl_inputs (impl it) = k :: ks -> (impl_tensors (impl it)).[k] = Some t ->
  TfLiteInterpreterGetInputTensor p 0 w = (Done (Some k), w).
Proof.
  intros Hp Hin Ht. unfold TfLiteInterpreterGetInputTensor, bind.
  erewrite deref_interpreter_run by done. rewrite Hin. by eapply GetTensor_run.
Qed.

Lemma GetOutputTensor_run p it w k ks t : w_interpreters w !! p = Some it ->
  impl_outputs (impl it) = k :: ks -> (impl_tensors (impl it)).[k] = Some t ->
  TfLiteInterpreterGetOutputTensor p 0 w = (Done (Some k), w).
Proof.
  intros Hp Hin Ht. unfold TfLiteInterpreterGetOutputTensor, bind.
  erewrite deref_interpreter_run by done. rewrite Hin. by eapply GetTensor_run.
Qed.

Lemma deref_tensor_run p it w k t : w_interpreters w !! p = Some it ->
  (impl_tensors (impl it)).[k] = Some t -> deref_tensor p k w = (Done t, w).
Proof.
  intros Hp Ht. unfold deref_tensor, bind. erewrite deref_interpreter_run by done.
  by rewrite Ht.
Qed.

Lemma on_api_run {A} (c : M world A) m i o w (a : outcome A) w' : c w = (a, w') ->
  on_api c (mkPlugin m i o w) = (a, mkPlugin m i o w').
Proof. intros Hc. unfold on_api, zoom. cbn. by rewrite Hc. Qed.

(** The interpreter [it], with the input tensor [t_in], is in place. *)
Record input_ready (w : world) (p : Z) (it : TfLiteInterpreter) (k : Z) (t_in : TfLiteTensor)
    : Prop := {
  ready_pointer : p <> 0;
  ready_interpreter : w_interpreters w !! p = Some it;
  ready_input : exists ks, impl_inputs (impl it) = k :: ks;
  ready_tensor : (impl_tensors (impl it)).[k] = Some t_in }.

(** The start of [run_inference], up to the copy of the input. *)
Lemma run_inference_start m p o w it k t_in pcm_data length :
  input_ready w p it k t_in -> pcm_data <> 0 -> 0 < length <= INT32_MAX ->
  exists rest,
    run_inference pcm_data length (mkPlugin m p o w) =
      (if t_bytes t_in <? 2 * length then (Done (-1), mkPlugin m p o w)
       else (let* st := on_api (TfLiteTensorCopyFromBuffer p k pcm_data (2 * length)) in
             if negb (bool_decide (st = kTfLiteOk)) then ret (-1) else rest)
            (mkPlugin m p o w)) /\
    rest = (let* st := on_api (TfLiteInterpreterInvoke p) in
            if negb (bool_decide (st = kTfLiteOk)) then ret (-1)
            else
              let* output_tensor := on_api (TfLiteInterpreterGetOutputTensor p 0) in
              match output_tensor with
              | None => ret (-1)
              | Some output_tensor =>
                let* bytes := on_api (TfLiteTensorByteSize p output_tensor) in
                let* output_data := on_api (TfLiteTensorData p output_tensor) in
                on_api (argmax output_data (int32_wrap (bytes / sizeof_float)))
              end).
Proof.
  intros [Hp Hit [ks Hks] Ht] Hpcm Hlen. eexists. split; [|reflexivity].
  unfold run_inference. unfold bind at 1, get. cbn [interpreter].
  rewrite (proj2 (Z.eqb_neq p 0) Hp), (proj2 (Z.eqb_neq pcm_data 0) Hpcm).
  destruct (Z.leb_spec length 0); [lia|]. cbn [orb].
  unfold bind at 1. rewrite (on_api_run _ m p o w _ w (GetInputTensor_run _ _ _ _ _ _ Hit Hks Ht)).
  unfold bind at 1.
  assert (Hsize : TfLiteTensorByteSize p k w = (Done (t_bytes t_in), w)).
  { unfold TfLiteTensorByteSize, bind. by erewrite deref_tensor_run by done. }
  rewrite (on_api_run _ m p o w _ w Hsize).
  replace (size_wrap (length * sizeof_int16)) with (2 * length).
  2: { unfold sizeof_int16. rewrite size_wrap_small by (unfold INT32_MAX, SIZE_MAX in *; lia).
       lia. }
  by destruct (t_bytes t_in <? 2 * length).
Qed.

(** What is refused: a call without a model or without data, and a recording whose size is
    not exactly that of the input tensor - a longer one by the guard, a shorter one by
    [TfLiteTensorCopyFromBuffer].  The answer is -1 and nothing has changed. *)
Theorem run_inference_rejects s pcm_data length :
  (interpreter s = 0 \/ pcm_data = 0 \/ length <= 0 ->
     run_inference pcm_data length s = (Done (-1), s)) /\
  (forall it k t_in, input_ready (api s) (interpreter s) it k t_in ->
     pcm_data <> 0 -> 0 < length <= INT32_MAX -> t_bytes t_in <> 2 * length ->
     run_inference pcm_data length s = (Done (-1), s)).
Proof.
  split.
  - intros Hguard. unfold run_inference, bind at 1, get.
    destruct (Z.eqb_spec (interpreter s) 0), (Z.eqb_spec pcm_data 0),
      (Z.leb_spec length 0); try done. lia.
  - intros it k t_in Hready Hpcm Hlen Hsize. destruct s as [m p o w]. cbn in Hready.
    destruct (run_inference_start m p o w it k t_in pcm_data length Hready Hpcm Hlen)
      as (rest & -> & _).
    destruct (t_bytes t_in <? 2 * length); [done|].
    assert (Hcopy : TfLiteTensorCopyFromBuffer p k pcm_data (2 * length) w =
      (Done kTfLiteError, w)).
    { destruct Hready as [_ Hit _ Ht].
      unfold TfLiteTensorCopyFromBuffer, bind. erewrite deref_tensor_run by done.
      by rewrite (proj2 (Z.eqb_neq _ _) Hsize). }
    unfold bind. by rewrite (on_api_run _ m p o w _ _ Hcopy).
Qed.

(** The heap after the input was copied. *)
Definition input_written (h : heap) (t_in : TfLiteTensor) (pcm_data length : Z) : heap :=
  Heap (live h) (copy_bytes (mem h) (t_data t_in) pcm_data (2 * length)).

(** The graph runs on the copied input and leaves the interpreter [i'] with the output
    [t_out]. *)
Record inference (s : plugin) (pcm_data length : Z) (it : TfLiteInterpreter) (k : Z)
    (t_in : TfLiteTensor) (h' : heap) (i' : Impl) (t_out : TfLiteTensor) : Prop := {
  inf_ready : input_ready (api s) (interpreter s) it k t_in;
  inf_pcm : pcm_data <> 0;
  inf_length : 0 < length <= INT32_MAX;
  inf_size : t_bytes t_in = 2 * length;
  inf_input_live : in_live_block (w_heap (api s)) (t_data t_in) (2 * length) = true;
  inf_pcm_live : in_live_block (w_heap (api s)) pcm_data (2 * length) = true;
  inf_invoke : (if enable_delegate_fallback it then impl_InvokeWithCPUFallback else impl_Invoke)
      (input_written (w_heap (api s)) t_in pcm_data length, impl it) = (Done tt, (h', i'));
  inf_output : exists j js, impl_outputs i' = j :: js /\ (impl_tensors i').[j] = Some t_out;
  inf_output_size : sizeof_float <= t_bytes t_out < 2 ^ 33;
  inf_output_live : in_live_block h' (t_data t_out) (t_bytes t_out) = true }.

(** The answer, from the state that the graph leaves. *)
Lemma run_inference_answer s pcm_data length it k t_in h' i' t_out :
  inference s pcm_data length it k t_in h' i' t_out ->
  exists r s', run_inference pcm_data length s = (Done r, s') /\
    let v := float_at h' (t_data t_out) in
    if f32_is_nan (v 0) then r = 0 else is_first_max v (t_bytes t_out / sizeof_float) r.
Proof.
  intros [Hready Hpcm Hlen Hsize Hin_live Hpcm_live Hinv (j & js & Hjs & Hj) Hout_size Hout_live].
  destruct s as [m p o w].
  cbn [api interpreter] in *.
  destruct (run_inference_start m p o w it k t_in pcm_data length Hready Hpcm Hlen)
    as (rest & -> & Hrest).
  destruct Hready as [Hp Hit [ks Hks] Ht].
  rewrite Hsize, Z.ltb_irrefl. unfold bind at 1.
  assert (Hcopy : TfLiteTensorCopyFromBuffer p k pcm_data (2 * length) w =
    (Done kTfLiteOk, set_w_heap (input_written (w_heap w) t_in pcm_data length) w)).
  { unfold TfLiteTensorCopyFromBuffer, bind. erewrite deref_tensor_run by done.
    rewrite Hsize, Z.eqb_refl. cbn. unfold on_heap, zoom, memcpy.
    by rewrite Hin_live, Hpcm_live. }
  rewrite (on_api_run _ m p o w _ _ Hcopy), bool_decide_eq_true_2 by done. cbn [negb].
  rewrite Hrest. clear Hrest rest Hcopy.
  set (w1 := set_w_heap _ w). set (it' := mkInterpreter (int_model it) i' (enable_delegate_fallback it)).
  assert (Hinvoke : exists w2, TfLiteInterpreterInvoke p w1 = (Done kTfLiteOk, w2) /\
    w_heap w2 = h' /\ w_interpreters w2 !! p = Some it').
  { unfold TfLiteInterpreterInvoke, call_impl, bind.
    rewrite !(deref_interpreter_run p it w1 Hit). unfold on_impl, status_call.
    cbn [w_heap w1 set_w_heap]. rewrite Hinv. eexists. split_and!; [done..|].
    apply lookup_insert_eq. }
  destruct Hinvoke as (w2 & Hrun & Hh & Hit2).
  unfold bind at 1. rewrite (on_api_run _ m p o w1 _ _ Hrun), bool_decide_eq_true_2 by done.
  cbn [negb]. unfold bind at 1.
  rewrite (on_api_run _ m p o w2 _ _ (GetOutputTensor_run p it' w2 j js t_out Hit2 Hjs Hj)).
  assert (Hread : TfLiteTensorByteSize p j w2 = (Done (t_bytes t_out), w2) /\
    TfLiteTensorData p j w2 = (Done (t_data t_out), w2)).
  { unfold TfLiteTensorByteSize, TfLiteTensorData, bind.
    by rewrite (deref_tensor_run p it' w2 j t_out Hit2 Hj). }
  destruct Hread as [Hb Hd]. unfold bind at 1. rewrite (on_api_run _ m p o w2 _ _ Hb).
  unfold bind at 1. rewrite (on_api_run _ m p o w2 _ _ Hd).
  rewrite int32_wrap_small.
  2: { unfold INT32_MIN, INT32_MAX, sizeof_float in *.
       Z.to_euclidean_division_equations. lia. }
  destruct (argmax_run (t_data t_out) (t_bytes t_out / sizeof_float) w2) as (r & Hr & Hres).
  { unfold sizeof_float in *. Z.to_euclidean_division_equations. lia. }
  { intros i Hi. rewrite Hh. apply in_live_block_spec in Hout_live as (b & n & ? & ? & ?).
    apply in_live_block_spec. exists b, n. unfold sizeof_float in *.
    Z.to_euclidean_division_equations. split_and!; [done|lia..]. }
  rewrite (on_api_run _ m p o w2 _ _ Hr). exists r. eexists. split; [done|]. cbn.
  by rewrite <- Hh.
Qed.

(** C15. The answer of [run_inference] on a recording of the right size: the first position of
    the greatest value of the output; position 0 when the first value is not a number. *)
Theorem run_inference_argmax s pcm_data length it k t_in h' i' t_out :
  inference s pcm_data length it k t_in h' i' t_out ->
  exists r s', run_inference pcm_data length s = (Done r, s') /\
    let v := float_at h' (t_data t_out) in
    if f32_is_nan (v 0) then r = 0 else is_first_max v (t_bytes t_out / sizeof_float) r.
Proof. apply run_inference_answer. Qed.

(** A [load_model] that failed in [AllocateTensors] leaves the interpreter in place with an
    input that has no memory: a call of [run_inference] that passes the guards copies to a
    null pointer. *)
Theorem run_inference_on_unallocated_input s pcm_data length it k t_in :
  input_ready (api s) (interpreter s) it k t_in ->
  (forall b n, live (w_heap (api s)) !! b = Some n -> 0 < b) ->
  t_data t_in = 0 -> t_bytes t_in = 2 * length ->
  pcm_data <> 0 -> 0 < length <= INT32_MAX ->
  (run_inference pcm_data length s).1 = Undef.
Proof.
  intros Hready Hheap Hdata Hsize Hpcm Hlen. destruct s as [m p o w].
  cbn [api interpreter] in *.
  destruct (run_inference_start m p o w it k t_in pcm_data length Hready Hpcm Hlen)
    as (rest & -> & _).
  destruct Hready as [Hp Hit _ Ht]. rewrite Hsize, Z.ltb_irrefl. unfold bind.
  assert (Hdead : in_live_block (w_heap w) 0 (2 * length) = false).
  { apply not_true_is_false. intros (b & n & Hb & ? & ?)%in_live_block_spec.
    specialize (Hheap b n Hb). lia. }
  assert (Hcopy : exists w', TfLiteTensorCopyFromBuffer p k pcm_data (2 * length) w =
    (Undef, w')).
  { unfold TfLiteTensorCopyFromBuffer, bind. erewrite deref_tensor_run by done.
    rewrite Hsize, Z.eqb_refl, Hdata. unfold negb, on_heap, zoom, memcpy. rewrite Hdead.
    by eexists. }
  destruct Hcopy as [w' Hcopy]. by rewrite (on_api_run _ m p o w _ _ Hcopy).
Qed.
End Inference.

(** ** A concrete runtime *)

Section Example_runtime.
(** A model with an input of two 16-bit samples and an output of two floats;
    [AllocateTensors] succeeds or not, and the graph writes [0.0f, 1.0f]. *)
Definition ex_tensor (n p : Z) : TfLiteTensor := set_bytes n (set_data p tensor_zero).

Definition ex_write (f : Z -> Z) : Z -> Z := fun a =>
  if a =? 2048 + 6 then 0x80 else if a =? 2048 + 7 then 0x3f
  else if (2048 <=? a) && (a <? 2056) then 0 else f a.

Definition ex_runtime (allocates : bool) : TfLiteRuntime := {|
  FlatBufferModel := unit;
  Impl := list TfLiteTensor;
  CreateOpResolver := MutableOpResolver.empty;
  NnApiDelegate := 0;
  VerifyAndBuildFromBuffer _ := Some tt;
  InterpreterBuilder _ _ := ret [ex_tensor 4 0; ex_tensor 8 0];
  impl_delete _ := ret tt;
  impl_SetNumThreads _ := ret tt;
  impl_ModifyGraphWithDelegate _ := ret tt;
  impl_EnableCancellation i := i;
  impl_AllocateTensors := fun s =>
    if allocates then
      (Done tt, (Heap (<[1024 := 4]> (<[2048 := 8]> (live s.1))) (mem s.1),
                 [ex_tensor 4 1024; ex_tensor 8 2048]))
    else (Fail kTfLiteError, s);
  impl_ResizeInputTensor _ _ := ret tt;
  impl_Invoke := fun s => (Done tt, (Heap (live s.1) (ex_write (mem s.1)), s.2));
  impl_InvokeWithCPUFallback := ret tt;
  impl_Cancel := ret tt;
  impl_inputs _ := [0];
  impl_outputs _ := [1];
  impl_tensors i := i |}.

#[local] Existing Instance ex_runtime.

(** The caller's buffer of two samples is at 512. *)
Definition ex_world (allocates : bool) : @world (ex_runtime allocates) :=
  @mkWorld (ex_runtime allocates) (Heap {[512 := 4]} (fun _ => 0)) (fun _ => Some tt) ∅ ∅ ∅ 1.

Definition ex_start (allocates : bool) : @plugin (ex_runtime allocates) :=
  @plugin_start (ex_runtime allocates) (ex_world allocates).

Definition ex_loaded (allocates : bool) : @plugin (ex_runtime allocates) :=
  (@load_model (ex_runtime allocates) (Some "model.tflite"%string) (ex_start allocates)).2.

Definition ex_interpreter (allocates : bool) : @TfLiteInterpreter (ex_runtime allocates) :=
  @mkInterpreter (ex_runtime allocates) tt
    (if allocates then [ex_tensor 4 1024; ex_tensor 8 2048]
     else [ex_tensor 4 0; ex_tensor 8 0]) false.

Lemma ex_input_ready allocates :
  input_ready (api (ex_loaded allocates)) (interpreter (ex_loaded allocates))
    (ex_interpreter allocates) 0 (ex_tensor 4 (if allocates then 1024 else 0)).
Proof.
  destruct allocates; split; try (vm_compute; reflexivity);
    try (exists []; reflexivity); vm_compute; discriminate.
Defined.

Lemma run_inference_rejects_witness :
  let RT := ex_runtime true in
  run_inference 512 1 (ex_loaded true) = (Done (-1), ex_loaded true) /\
  run_inference 512 3 (ex_loaded true) = (Done (-1), ex_loaded true) /\
  run_inference 512 2 (ex_start true) = (Done (-1), ex_start true).
Proof.
  intros RT. split_and!.
  - apply (proj2 (run_inference_rejects (ex_loaded true) 512 1) _ _ _ (ex_input_ready true));
      vm_compute; [discriminate|by split|discriminate].
  - apply (proj2 (run_inference_rejects (ex_loaded true) 512 3) _ _ _ (ex_input_ready true));
      vm_compute; [discriminate|by split|discriminate].
  - apply run_inference_rejects. left. reflexivity.
Defined.

(** The heap after the graph ran on the caller's two samples. *)
Definition ex_after : heap :=
  let h := input_written (w_heap (api (ex_loaded true))) (ex_tensor 4 1024) 512 2 in
  Heap (live h) (ex_write (mem h)).

Lemma run_inference_argmax_witness :
  exists r s', @run_inference (ex_runtime true) 512 2 (ex_loaded true) = (Done r, s') /\
    let v := float_at ex_after 2048 in
    if f32_is_nan (v 0) then r = 0 else is_first_max v (8 / sizeof_float) r.
Proof.
  apply (@run_inference_argmax (ex_runtime true) (ex_loaded true) 512 2
    (ex_interpreter true) 0 (ex_tensor 4 1024)
    ex_after [ex_tensor 4 1024; ex_tensor 8 2048] (ex_tensor 8 2048)).
  apply Build_inference with (1 := ex_input_ready true).
  - discriminate.
  - split; [reflexivity|vm_compute; discriminate].
  - reflexivity.
  - vm_compute. reflexivity.
  - vm_compute. reflexivity.
  - reflexivity.
  - exists 1, []. split; reflexivity.
  - split; [vm_compute; discriminate|reflexivity].
  - vm_compute. reflexivity.
Defined.

Lemma run_inference_on_unallocated_input_witness :
  let RT := ex_runtime false in
  load_model (Some "model.tflite"%string) (ex_start false) = (Done 0, ex_loaded false) /\
  (run_inference 512 2 (ex_loaded false)).1 = Undef.
Proof.
  intros RT. split; [vm_compute; reflexivity|].
  eapply run_inference_on_unallocated_input; [apply (ex_input_ready false)|..];
    try reflexivity; try discriminate.
  - intros b n Hb. change (({[512 := 4]} : gmap Z Z) !! b = Some n) in Hb.
    apply lookup_singleton_Some in Hb as [<- _]. reflexivity.
  - split; [reflexivity|vm_compute; discriminate].
Defined.
End Example_runtime.
