(* ===== verification/EndToEnd.v ===== *)
(** * The application's plugin on the interpreter

    The functions that the application calls, through the C API, the builder, the interpreter, the
    subgraph and the planner down to the heap and the file: what [run_inference] answers on an
    interpreter whose primary subgraph is ready, for any kernels, and the whole of a session on the
    model of [ModelExample]. *)
From Stdlib Require Import String.
From stdpp Require Import strings.
From S2P Require Import Prelude Heap Common MemoryPlanner Callbacks Subgraph SubgraphSteps ArenaInstance.
From S2P Require Import MetadataUtil SubgraphRun SubgraphWf SubgraphInvoke ModelExample Runtime.
From S2P Require OpResolver InterpreterBuilder.
From S2P Require Interpreter ModelLoading ModelLoadingProof CApi FfiPlugin.
#[local] Open Scope Z_scope.

#[local] Existing Instance Interpreter.model_siblings.

(** ** Inference on an interpreter *)

Section Inference.
Context {P W : Type} {MP : MemoryPlanner P} {NP : NewPlanner P} {MM : Malloc} {SS : StdSort}.
Abbreviation G := (sgstate P (Interpreter.model_world P W)).
Abbreviation S := (Interpreter.istate P W).
Context {CB : Callbacks G} {IC : Interpreter.InterpreterCallbacks S}.
Context (AcquireFlexDelegate : M S Z) (CreateOpResolver : OpResolver.MutableOpResolver.t)
  (creators : CApi.resolver -> list Z) (NnApiDelegate own_context : Z)
  (verify_buffer : bytes -> option FlatBufferModel) (world : W).
#[local] Instance the_runtime : CApi.TfLiteRuntime :=
  interpreter_runtime AcquireFlexDelegate CreateOpResolver creators NnApiDelegate own_context verify_buffer world.

(** The interpreter when its primary subgraph is called: a cancellation that came before is undone. *)
Definition uncancelled (i : Interpreter.Interpreter P) : Interpreter.Interpreter P :=
  if Interpreter.cancellation_enabled_ i then Interpreter.set_flag_ true i else i.

(** The primary subgraph when it is called, on the heap [h]. *)
Definition called (h : heap) (i : Interpreter.Interpreter P) (m : Interpreter.ModelSubgraph P) (w : W) : G :=
  SG h (Interpreter.load_flag (Interpreter.flag_ (uncancelled i)) (Interpreter.sub_graph m))
    (Interpreter.MW (uncancelled i) 0 w).

Lemma load_flag_tensors flag (g : Subgraph P) : tensors_ (Interpreter.load_flag flag g) = tensors_ g /\
  inputs_ (Interpreter.load_flag flag g) = inputs_ g /\ outputs_ (Interpreter.load_flag flag g) = outputs_ g.
Proof. unfold Interpreter.load_flag. by destruct (continue_invocation_ g). Qed.

(** The outputs are read without a delegate. *)
Definition outputs_fresh (g : Subgraph P) : Prop :=
  Forall (fun i => exists t, (tensors_ g).[i] = Some t /\ t_data_is_stale t = false) (outputs_ g).

(** Making a tensor readable that is fresh changes the interpreter only in its copies of the flag. *)
Lemma readable_run i t (s : S) m : (Interpreter.subgraphs_ (Interpreter.interp s)).[0] = Some m ->
  (tensors_ (Interpreter.sub_graph m)).[i] = Some t -> t_data_is_stale t = false ->
  exists s' m', Interpreter.on_primary (Subgraph.EnsureTensorDataIsReadable i) s = (Done tt, s') /\
    Interpreter.is_heap s' = Interpreter.is_heap s /\
    (Interpreter.subgraphs_ (Interpreter.interp s')).[0] = Some m' /\
    tensors_ (Interpreter.sub_graph m') = tensors_ (Interpreter.sub_graph m) /\
    outputs_ (Interpreter.sub_graph m') = outputs_ (Interpreter.sub_graph m).
Proof.
  intros Hm Ht Hs. unfold Interpreter.on_primary, Interpreter.on_subgraph. rewrite Hm.
  set (g := Interpreter.load_flag _ _). set (s0 := SG _ g _).
  assert (Hrun : Subgraph.EnsureTensorDataIsReadable i s0 = (Done tt, s0)).
  { unfold Subgraph.EnsureTensorDataIsReadable, tensor_ref. rewrite bind_assoc, (bind_done this _ s0 g s0) by done.
    unfold g. rewrite (proj1 (load_flag_tensors _ _)), Ht. cbn [access]. rewrite bind_ret. by rewrite Hs. }
  rewrite Hrun. eexists _, _. split_and!; [reflexivity|done| | |].
  - apply zlookup_some in Hm as [Hr Hm]. exact (zlookup_zset _ 0 0 _ Hr).
  - cbn. apply load_flag_tensors.
  - cbn. apply load_flag_tensors.
Qed.

Lemma outputs_readable l : forall (s : S) m, (Interpreter.subgraphs_ (Interpreter.interp s)).[0] = Some m ->
  Forall (fun i => exists t, (tensors_ (Interpreter.sub_graph m)).[i] = Some t /\ t_data_is_stale t = false) l ->
  exists s' m', for_each l (fun t => Interpreter.on_primary (Subgraph.EnsureTensorDataIsReadable t)) s = (Done tt, s') /\
    Interpreter.is_heap s' = Interpreter.is_heap s /\
    (Interpreter.subgraphs_ (Interpreter.interp s')).[0] = Some m' /\
    tensors_ (Interpreter.sub_graph m') = tensors_ (Interpreter.sub_graph m) /\
    outputs_ (Interpreter.sub_graph m') = outputs_ (Interpreter.sub_graph m).
Proof.
  induction l as [|i l IH]; intros s m Hm Hl; [by exists s, m|].
  apply Forall_cons in Hl as [(t & Ht & Hs) Hl]. rewrite for_each_cons.
  destruct (readable_run i t s m Hm Ht Hs) as (s1 & m1 & Hrun & Hh & Hm1 & Hts & Ho).
  rewrite (bind_done _ _ _ _ _ Hrun). destruct (IH s1 m1 Hm1) as (s' & m' & Hrun' & Hh' & Hm' & Hts' & Ho'); [by rewrite Hts|].
  exists s', m'. split_and!; congruence.
Qed.

(** [Interpreter::Invoke] runs the kernels of the primary subgraph's plan. *)
Lemma Interpreter_Invoke_run h i w m st' : (Interpreter.subgraphs_ i).[0] = Some m -> let st := called h i m w in
  graph_ready (sg_graph st) -> memory_available st -> Forall (computes (sg_graph st)) (execution_plan_ (sg_graph st)) ->
  for_each (execution_plan_ (sg_graph st)) SubgraphRun.run_node st = (Done tt, st') ->
  Interpreter.mw_interpreter (sg_world st') = uncancelled i -> outputs_fresh (Interpreter.sub_graph m) ->
  exists s' m', Interpreter.Invoke (Interpreter.IState h i w) = (Done tt, s') /\
    Interpreter.is_heap s' = sg_heap st' /\
    (Interpreter.subgraphs_ (Interpreter.interp s')).[0] = Some m' /\
    tensors_ (Interpreter.sub_graph m') = tensors_ (Interpreter.sub_graph m) /\
    outputs_ (Interpreter.sub_graph m') = outputs_ (Interpreter.sub_graph m).
Proof.
  intros Hm st Hready Hmem Hcomp Hrun Hrest Hfresh. unfold Interpreter.Invoke.
  set (s := Interpreter.IState h i w). rewrite (bind_done Interpreter.self _ s i s) by done.
  set (s1 := Interpreter.IState h (uncancelled i) w).
  assert (H1 : (if Interpreter.cancellation_enabled_ i then Interpreter.upd_self (Interpreter.set_flag_ true) else ret tt) s = (Done tt, s1)).
  { unfold s1, uncancelled. by destruct (Interpreter.cancellation_enabled_ i). }
  rewrite (bind_done _ _ _ _ _ H1). clear H1.
  assert (Hm1 : (Interpreter.subgraphs_ (uncancelled i)).[0] = Some m) by (unfold uncancelled; by destruct (Interpreter.cancellation_enabled_ i)).
  pose proof (Invoke_ready_run st Hready Hmem Hcomp) as Hinv. rewrite Hrun in Hinv.
  assert (Hd : during (sg_graph st) st').
  { pose proof (kernels_during (sg_graph st) (execution_plan_ (sg_graph st)) st Hready ltac:(by left) Hcomp (ready_nodes _ Hready)) as H.
    by rewrite Hrun in H. }
  assert (H2 : exists s2 m2, Interpreter.on_primary SubgraphRun.Invoke s1 = (Done tt, s2) /\ Interpreter.is_heap s2 = sg_heap st' /\
    (Interpreter.subgraphs_ (Interpreter.interp s2)).[0] = Some m2 /\
    tensors_ (Interpreter.sub_graph m2) = tensors_ (Interpreter.sub_graph m) /\
    outputs_ (Interpreter.sub_graph m2) = outputs_ (Interpreter.sub_graph m)).
  { unfold Interpreter.on_primary, Interpreter.on_subgraph. cbn [Interpreter.interp s1]. rewrite Hm1.
    change (SG _ _ _) with st. rewrite Hinv. eexists _, _. split_and!; [reflexivity|done| | |].
    - rewrite Hrest. apply zlookup_some in Hm1 as [Hr Hm1]. exact (zlookup_zset _ 0 0 _ Hr).
    - cbn. transitivity (tensors_ (sg_graph st)); [by destruct Hd as [-> | ->]|apply load_flag_tensors].
    - cbn. transitivity (outputs_ (sg_graph st)); [by destruct Hd as [-> | ->]|apply load_flag_tensors]. }
  destruct H2 as (s2 & m2 & H2 & Hh2 & Hm2 & Ht2 & Ho2). rewrite (bind_done _ _ _ _ _ H2).
  rewrite (bind_done Interpreter.self _ s2 (Interpreter.interp s2) s2) by done.
  destruct (Interpreter.allow_buffer_handle_output_ (Interpreter.interp s2)); [by exists s2, m2|].
  assert (Hl : Interpreter.outputs s2 = (Done (outputs_ (Interpreter.sub_graph m)), s2)).
  { unfold Interpreter.outputs, Interpreter.primary_graph, Interpreter.subgraph_ref.
    rewrite bind_assoc, bind_assoc, (bind_done Interpreter.self _ s2 (Interpreter.interp s2) s2) by done.
    rewrite Hm2. cbn [access]. by rewrite !bind_ret, Ho2. }
  rewrite (bind_done _ _ _ _ _ Hl).
  destruct (outputs_readable (outputs_ (Interpreter.sub_graph m)) s2 m2 Hm2) as (s' & m' & Hrun' & Hh' & Hm' & Ht' & Ho').
  { rewrite Ht2. exact Hfresh. }
  exists s', m'. split_and!; congruence.
Qed.

(** What it takes to run [length] samples at [pcm_data]: the plugin's interpreter has a primary
    subgraph [m] that is ready, its first input holds exactly the samples, its kernels only compute and
    all succeed, from the state [st] to [st'], and its first output holds floats. *)
Record model_run (s : FfiPlugin.plugin) (pcm_data length : Z) (i : Interpreter.Interpreter P) (w : W)
    (m : Interpreter.ModelSubgraph P) (k : Z) (t_in : TfLiteTensor) (st st' : G) (t_out : TfLiteTensor) : Prop := {
  run_interpreter : exists fm, FfiPlugin.interpreter s <> 0 /\
    CApi.w_interpreters (FfiPlugin.api s) !! FfiPlugin.interpreter s = Some (CApi.mkInterpreter fm (i, w) false);
  run_primary : (Interpreter.subgraphs_ i).[0] = Some m;
  run_input : (exists ks, inputs_ (Interpreter.sub_graph m) = k :: ks) /\
    (tensors_ (Interpreter.sub_graph m)).[k] = Some t_in;
  run_samples : pcm_data <> 0 /\ 0 < length <= INT32_MAX /\ t_bytes t_in = 2 * length;
  run_input_live : in_live_block (CApi.w_heap (FfiPlugin.api s)) (t_data t_in) (2 * length) = true;
  run_samples_live : in_live_block (CApi.w_heap (FfiPlugin.api s)) pcm_data (2 * length) = true;
  (** The state that the kernels start in: the samples are in the input. *)
  run_start : st = called (FfiPlugin.input_written (CApi.w_heap (FfiPlugin.api s)) t_in pcm_data length) i m w;
  run_ready : graph_ready (sg_graph st);
  run_memory : memory_available st;
  run_computes : Forall (computes (sg_graph st)) (execution_plan_ (sg_graph st));
  run_kernels : for_each (execution_plan_ (sg_graph st)) SubgraphRun.run_node st = (Done tt, st');
  run_alone : Interpreter.mw_interpreter (sg_world st') = uncancelled i;
  run_fresh : outputs_fresh (Interpreter.sub_graph m);
  run_output : exists j js, outputs_ (Interpreter.sub_graph m) = j :: js /\
    (tensors_ (Interpreter.sub_graph m)).[j] = Some t_out;
  run_output_size : FfiPlugin.sizeof_float <= t_bytes t_out < 2 ^ 33;
  run_output_live : in_live_block (sg_heap st') (t_data t_out) (t_bytes t_out) = true }.

(** C10. [run_inference] on the interpreter.  Where the plugin's interpreter has a primary subgraph
    that is allocated and ready, with a first input of the size of the recording, and whose
    kernels only compute, the call copies the samples into the input, runs the kernels of the
    execution plan in order, and returns the class of the output they leave: the first position of
    its greatest value, or 0 when its first value is not a number.  This holds for any kernels,
    graph, planner, heap and world; what stands between the call and the kernels, the C API, the
    interpreter and the subgraph, is the code's. *)
Theorem plugin_runs_the_model s pcm_data length i w m k t_in st st' t_out :
  model_run s pcm_data length i w m k t_in st st' t_out ->
  exists r s', FfiPlugin.run_inference pcm_data length s = (Done r, s') /\
    let v := FfiPlugin.float_at (sg_heap st') (t_data t_out) in
    if FfiPlugin.f32_is_nan (v 0) then r = 0
    else FfiPlugin.is_first_max v (t_bytes t_out / FfiPlugin.sizeof_float) r.
Proof.
  intros [(fm & Hp & Hit) Hm [Hks Hk] (Hpcm & Hlen & Hsize) Hil Hpl -> Hready Hmem Hcomp Hrun Hrest Hfresh (j & js & Hj & Ht) Hos Hol].
  destruct (Interpreter_Invoke_run _ i w m st' Hm Hready Hmem Hcomp Hrun Hrest Hfresh) as (s2 & m2 & Hinv & Hh2 & Hm2 & Ht2 & Ho2).
  assert (Hprimary : forall (i : Interpreter.Interpreter P) (m : Interpreter.ModelSubgraph P) (w : W), (Interpreter.subgraphs_ i).[0] = Some m -> primary (i, w) = Interpreter.sub_graph m).
  { intros i0 m0 w0. unfold primary, zlookup. cbn. destruct (Interpreter.subgraphs_ i0); [done|]. by intros [= ->]. }
  apply (FfiPlugin.run_inference_answer s pcm_data length (CApi.mkInterpreter fm (i, w) false) k t_in (sg_heap st')
    (Interpreter.interp s2, Interpreter.is_world s2) t_out).
  split; try done.
  - split; [done|exact Hit| |]; cbn [CApi.impl CApi.impl_inputs CApi.impl_tensors the_runtime interpreter_runtime];
      by rewrite (Hprimary i m w Hm).
  - cbn [CApi.enable_delegate_fallback CApi.impl_Invoke the_runtime interpreter_runtime CApi.impl].
    unfold on_interpreter. cbn [fst snd]. rewrite Hinv. by rewrite Hh2.
  - exists j, js. cbn [CApi.impl_outputs CApi.impl_tensors the_runtime interpreter_runtime].
    rewrite (Hprimary _ _ _ Hm2), Ho2, Ht2. done.
Qed.
End Inference.

(** ** The model of the examples *)

#[local] Existing Instance Interpreter.model_siblings.


(** The file "m.tflite" is verified and mapped; the tables in it are those of the model. *)
#[local] Existing Instance ModelLoadingProof.ex_posix.
#[local] Instance x_flatbuffers : ModelLoading.Flatbuffers := {|
  ModelLoading.BufferHasIdentifier := ModelLoading.BufferHasIdentifier (Flatbuffers := ModelLoadingProof.ex_flatbuffers);
  ModelLoading.VerifyModelBuffer := ModelLoading.VerifyModelBuffer (Flatbuffers := ModelLoadingProof.ex_flatbuffers);
  ModelLoading.FLATBUFFERS_MAX_BUFFER_SIZE :=
    ModelLoading.FLATBUFFERS_MAX_BUFFER_SIZE (Flatbuffers := ModelLoadingProof.ex_flatbuffers);
  ModelLoading.GetModel _ := x_model |}.

#[export] Instance x_runtime : CApi.TfLiteRuntime :=
  interpreter_runtime (P := XP) (ret 0) x_resolver (fun _ => []) 0 5000
    (verified_buffer ModelLoadingProof.no_files) tt.

(** The application has a recording of four samples at address 16. *)
Definition x_world (b : Z) : CApi.world := CApi.mkWorld
  (Heap {[ 16 := 8 ]} (fun a => if a =? 16 then b else 0))
  (verified_files 60000 ModelLoadingProof.no_files)
  ∅ ∅ ∅ 100000.

Definition x_session : M _ Z :=
  FfiPlugin.load_model (Some "m.tflite"%string) ;;;
  let* class := FfiPlugin.run_inference 16 4 in
  FfiPlugin.unload_model ;;; ret class.

(** The result of a session, and the blocks of memory that are left. *)
Definition x_outcome (b : Z) : outcome Z * list (Z * Z) :=
  let '(r, s) := x_session (FfiPlugin.plugin_start (x_world b)) in
  (r, map_to_list (live (CApi.w_heap (FfiPlugin.api s)))).

(** Loading the model, running it on a recording and unloading it gives the class of the recording
    by the model's kernel, and leaves no memory but the recording. *)
Example x_sessions : Forall (fun b => x_outcome b = (Done (b mod 3), [(16, 8)])) [0; 1; 5; 128; 200; 255].
Proof. repeat constructor; vm_compute; reflexivity. Qed.

(** *** Its kernel only computes *)

(** A call that leaves the graph and the other subgraphs. *)
Definition only_memory (s s' : XG) : Prop := sg_graph s' = sg_graph s /\ sg_world s' = sg_world s.

#[local] Instance only_memory_preorder : PreOrder only_memory.
Proof. split; [by intros s|]. intros s s' s'' [? ?] [? ?]. split; congruence. Qed.

Lemma classify_only_memory n : respects only_memory (classify n).
Proof.
  assert (Hh : forall A (c : M heap A), respects only_memory (Subgraph.on_heap (P := XP) (W := XW) c)).
  { intros A c s. unfold Subgraph.on_heap, zoom. by destruct (c _). }
  assert (Hr : forall A (c : M XG A), (forall s, snd (c s) = s) -> respects only_memory c).
  { intros A c Hs s. by rewrite Hs. }
  unfold classify. repeat first [apply Hh | progress intros | apply respects_access; exact _ | apply respects_bind; [exact _| |]].
  all: apply Hr; intros s'; first [done|by case_bool_decide].
Qed.

Lemma x_OpInvoke_only_memory reg n : registration_external reg = 0 -> respects only_memory (OpInvoke reg n).
Proof.
  intros Hreg. unfold OpInvoke, op_dispatch. rewrite Hreg. cbn. destruct (reg_invoke reg) as [f|]; [|by intros s].
  destruct (f =? 4); [by intros s|apply classify_only_memory].
Qed.

(** A call of the planner that only reads. *)
Lemma on_planner_reads {A} (c : M (mp_state XP) A) a (s : XG) : (forall t, snd (c t) = t) ->
  fst (Subgraph.on_planner c s) = Done a -> Subgraph.on_planner c s = (Done a, s).
Proof.
  intros Hc. unfold Subgraph.on_planner, InterpreterInfo. destruct s as [h g w]. cbn.
  destruct (memory_planner_ g) as [p|] eqn:Hp; [|done]. destruct (mapM _ _) as [nodes|]; [|done].
  match goal with |- context [c ?t] => pose proof (Hc t) as Ht; destruct (c t) as [r t'] end.
  cbn in *. subst t'. intros ->. cbn. do 2 f_equal. destruct g. cbn in *. by subst.
Qed.

(** *** The plugin with the model loaded *)

Definition x_loaded : outcome Z * FfiPlugin.plugin :=
  FfiPlugin.load_model (Some "m.tflite"%string) (FfiPlugin.plugin_start (x_world 200)).
Definition x_plugin : FfiPlugin.plugin := snd x_loaded.

Lemma x_loaded_done : x_loaded = (Done 1, x_plugin).
Proof.
  assert (H : fst x_loaded = Done 1) by (vm_compute; reflexivity).
  unfold x_plugin. destruct x_loaded. cbn in *. by subst.
Qed.

Definition x_box : CApi.TfLiteInterpreter :=
  default (CApi.mkInterpreter (mkFlatBufferModel None None) (Interpreter.members, tt) true)
    (CApi.w_interpreters (FfiPlugin.api x_plugin) !! FfiPlugin.interpreter x_plugin).
Definition x_primary : Interpreter.ModelSubgraph XP :=
  default (Interpreter.mkModelSubgraph Subgraph_init EmptyString (-1) false)
    ((Interpreter.subgraphs_ (fst (CApi.impl x_box))).[0]).
Definition x_tensor_at (i : Z) : TfLiteTensor :=
  default tensor_zero ((tensors_ (Interpreter.sub_graph x_primary)).[i]).

(** Before the kernel, and after it. *)
Definition x_before : XG := called
  (FfiPlugin.input_written (CApi.w_heap (FfiPlugin.api x_plugin)) (x_tensor_at 0) 16 4)
  (fst (CApi.impl x_box)) x_primary tt.
Definition x_after : XG := snd (for_each (execution_plan_ (sg_graph x_before)) run_node x_before).

(** What there is of an option that is not empty. *)
Lemma default_some {A} (d : A) o : match o with Some _ => true | None => false end = true -> o = Some (default d o).
Proof. by destruct o. Qed.

Lemma x_box_live : CApi.w_interpreters (FfiPlugin.api x_plugin) !! FfiPlugin.interpreter x_plugin =
  Some (CApi.mkInterpreter (CApi.int_model x_box) (fst (CApi.impl x_box), tt) false).
Proof.
  assert (H : CApi.w_interpreters (FfiPlugin.api x_plugin) !! FfiPlugin.interpreter x_plugin = Some x_box)
    by (apply default_some; vm_compute; reflexivity).
  rewrite H. assert (Hf : CApi.enable_delegate_fallback x_box = false) by (vm_compute; reflexivity).
  destruct x_box as [fm [i []] f]. cbn in *. by subst.
Qed.

Lemma x_node : (nodes_and_registration_ (sg_graph x_before)).[0] <> None /\
  forall nr, (nodes_and_registration_ (sg_graph x_before)).[0] = Some nr -> registration_external (snd nr) = 0.
Proof.
  assert (H : match (nodes_and_registration_ (sg_graph x_before)).[0] with Some nr => registration_external (snd nr) =? 0 | None => false end = true)
    by (vm_compute; reflexivity).
  destruct (_.[0]) as [nr|]; [|done]. split; [done|]. intros nr' [= <-]. by apply Z.eqb_eq.
Qed.

Lemma x_plan : execution_plan_ (sg_graph x_before) = [0].
Proof. vm_compute. reflexivity. Qed.

Lemma x_alone : Interpreter.mw_interpreter (sg_world x_after) = uncancelled (fst (CApi.impl x_box)).
Proof.
  assert (H : sg_world x_after = sg_world x_before); [|by rewrite H].
  unfold x_after. rewrite x_plan. generalize x_before, (proj2 x_node). intros s Hn.
  assert (Hrun : sg_world (snd (run_node 0 s)) = sg_world s).
  { unfold run_node, node_ref. rewrite bind_assoc, (bind_done this _ s (sg_graph s) s) by done.
    destruct ((nodes_and_registration_ (sg_graph s)).[0]) as [nr|]; [|done]. cbn [access]. rewrite bind_ret.
    set (s1 := SG (sg_heap s) (set_tensor_resized_since_op_invoke_ false (sg_graph s)) (sg_world s)).
    rewrite (bind_done (upd _) _ s tt s1) by done.
    destruct (x_OpInvoke_only_memory (snd nr) 0 (Hn nr eq_refl) s1) as [_ Hw].
    unfold bind, status_call. destruct (OpInvoke (snd nr) 0 s1) as [[[]|[]|] s2]; exact Hw. }
  rewrite for_each_cons. unfold bind. destruct (run_node 0 s) as [[[]|e|] s1]; exact Hrun.
Qed.

Lemma x_model_run : model_run (ret 0) x_resolver (fun _ => []) 0 5000 (verified_buffer ModelLoadingProof.no_files) tt
  x_plugin 16 4 (fst (CApi.impl x_box)) tt x_primary 0 (x_tensor_at 0) x_before x_after (x_tensor_at 1).
Proof.
  split.
  - exists (CApi.int_model x_box). split; [vm_compute; discriminate|exact x_box_live].
  - apply default_some. vm_compute. reflexivity.
  - split; [exists []; vm_compute; reflexivity|]. apply default_some. vm_compute. reflexivity.
  - split; [done|]. split; [split; [done|vm_compute; discriminate]|]. vm_compute. reflexivity.
  - vm_compute. reflexivity.
  - vm_compute. reflexivity.
  - reflexivity.
  - apply ready_check_ok. vm_compute. reflexivity.
  - right. apply on_planner_reads; [by intros []|]. vm_compute. reflexivity.
  - rewrite x_plan. repeat constructor. intros nr s Hn Hs.
    apply (x_OpInvoke_only_memory (snd nr) 0 (proj2 x_node nr Hn) s).
  - assert (H : fst (for_each (execution_plan_ (sg_graph x_before)) run_node x_before) = Done tt) by (vm_compute; reflexivity).
    unfold x_after. destruct (for_each _ _ _). cbn in *. by subst.
  - exact x_alone.
  - assert (H : forallb (fun i => match (tensors_ (Interpreter.sub_graph x_primary)).[i] with Some t => negb (t_data_is_stale t) | None => false end)
      (outputs_ (Interpreter.sub_graph x_primary)) = true) by (vm_compute; reflexivity).
    apply Forall_forall. intros i Hi. rewrite forallb_forall in H. specialize (H i (proj1 (list_elem_of_In _ _) Hi)).
    destruct (_.[i]) as [t|]; [|done]. exists t. split; [done|]. by apply negb_true_iff.
  - exists 1, []. split; [vm_compute; reflexivity|]. apply default_some. vm_compute. reflexivity.
  - split; [vm_compute; discriminate|vm_compute; reflexivity].
  - vm_compute. reflexivity.
Qed.

Lemma plugin_runs_the_model_witness : exists r s', FfiPlugin.run_inference 16 4 x_plugin = (Done r, s') /\
  let v := FfiPlugin.float_at (sg_heap x_after) (t_data (x_tensor_at 1)) in
  if FfiPlugin.f32_is_nan (v 0) then r = 0
  else FfiPlugin.is_first_max v (t_bytes (x_tensor_at 1) / FfiPlugin.sizeof_float) r.
Proof. exact (plugin_runs_the_model (ret 0) x_resolver (fun _ => []) 0 5000 (verified_buffer ModelLoadingProof.no_files) tt
  x_plugin 16 4 (fst (CApi.impl x_box)) tt x_primary 0 (x_tensor_at 0) x_before x_after (x_tensor_at 1) x_model_run). Defined.

(** The plugin's objects are those of its three globals, and unloading is defined. *)
Lemma plugin_objects_never_leak_witness :
  (FfiPlugin.owns (CApi.w_models (FfiPlugin.api x_plugin)) (FfiPlugin.model x_plugin) /\
   FfiPlugin.owns (CApi.w_options (FfiPlugin.api x_plugin)) (FfiPlugin.options x_plugin) /\
   FfiPlugin.owns (CApi.w_interpreters (FfiPlugin.api x_plugin)) (FfiPlugin.interpreter x_plugin)) /\
  exists s', FfiPlugin.unload_model x_plugin = (Done tt, s') /\ CApi.w_interpreters (FfiPlugin.api s') = ∅.
Proof.
  assert (Hr : FfiPlugin.reachable x_plugin).
  { eapply FfiPlugin.reach_load; [|exact x_loaded_done]. by apply FfiPlugin.reach_start. }
  destruct (FfiPlugin.plugin_objects_never_leak x_plugin Hr) as (Hown & _ & Hu). split; [exact Hown|].
  assert (Hd : fst (FfiPlugin.delete_live x_plugin) = Done tt) by (vm_compute; reflexivity).
  destruct (FfiPlugin.delete_live x_plugin) as [r h]. cbn in Hd. subst r.
  destruct Hu as ((s' & Hrun & _ & _ & _ & Hi) & _). exists s'. split; [exact Hrun|exact Hi].
Defined.
